(* ===== verification/_CoqProject ===== *)
-Q . S2P
Prelude.v
Str.v
Pmm.v
Allocator.v
Vmm.v
Uaccess.v
Thread.v
Scheduler.v
Process.v
Dispatch.v
Lock.v
Ipc.v
Pipe.v
Fd.v
Vfs.v
Keyboard.v
Tty.v
Shm.v
Exec.v
Acpi.v
Pci.v
Spin.v
Ioapic.v
Umem.v
SysFile.v
Audio.v
Irq.v
DriverModule.v
FbOwner.v
UserHeap.v
F32.v
Framebuffer.v
Console.v
Kfs.v
Power.v
Desc.v
Smp.v
ShellEdit.v
Shell.v
Syscall.v
Handlers.v
Fault.v
Interrupts.v
DriverRt.v
Hda.v
Mouse.v
MouseTest.v
Ktop.v
Less.v
Boot.v
