(* ===== verification/Prelude.v ===== *)
(** * KazuOS: a verification development

    KazuOS is an x86-64 operating system in Rust: a kernel (the crate
    [crates/kernel]), a UEFI boot loader, and programs and drivers that run in user
    mode.  This library models them as executable Rocq definitions, translated
    function by function from the sources, and proves what makes them correct.  File
    names below are relative to [crates/kernel/src/] unless they begin with [crates/]
    or [userspace/].  Each file has a module of its own name, with the concrete
    inputs its theorems are tried on in a submodule [Example].

    ** The parts and how they interact

    Shared:
    - [Prelude.v]: 64-bit arithmetic, [Vec] operations, traces of step
      relations, the state-and-error monad, [align_up]; tactics and the hint
      database [kazu].
    - [Str.v]: the [str] operations the sources use, UTF-8 validation among them.
    - [F32.v]: the [f32] arithmetic of the console, on IEEE single precision.

    Memory:
    - [Pmm.v] ([memory/pmm.rs]): the physical frame bitmap, a [Record] of the
      bitmap and the search position.  The classes [FrameAllocator] and
      [FrameAllocatorLaws] state what its clients may rely on; the bitmap is an
      instance, and refines an abstract allocator over the set of used frames.
    - [Allocator.v] ([memory/allocator.rs]): the kernel heap.  The free
      list is the list of its nodes in link order, the per-CPU caches are stacks
      of blocks, the allocation headers a finite map over addresses.
    - [Vmm.v] ([memory/vmm.rs]): four-level page tables as words of a memory
      map.  Tables come from any [TableAllocator] that satisfies its laws; the
      heap of [Allocator.v] is shown to be one.
    - [Uaccess.v] ([memory/uaccess.rs]): validated access to user memory over
      the page walk of [Vmm.v].
    - [Shm.v] ([memory/shm.rs]): shared memory objects, mapped by [Vmm.v], with
      frames of any [FrameAllocator].
    - [UserHeap.v] ([userspace/runtime/runtime.rs]): the heap of user programs, over
      a class [Kernel] of the two calls it makes.

    Tasks and synchronisation:
    - [Thread.v] ([task/thread.rs]), [Scheduler.v] ([task/scheduler.rs] with the
      frames of [handlers/interrupts.rs] and the selectors of
      [arch/x86_64/gdt.rs]), [Process.v] ([task/process.rs]): the three tables of
      the task subsystem, as explicit state.  Process exit calls into the other
      subsystems through the class [TeardownEffects].
    - [Dispatch.v] ([scheduler::enter_next_process] and
      [interrupts::timer_handler_inner]): the choice of the next thread, and
      preemption.
    - [Lock.v] ([util.rs]): the re-entrant spin lock and its interrupt guard, as
      a step relation over atomic accesses.  All of the task, channel, pipe and
      descriptor functions run inside it ([with_threads_lock]), which is why the
      other files model each of them as one step.
    - [Spin.v] ([util.rs], with the accesses of [drivers/pci.rs]): the plain spin lock
      under which the other components run their operations, access by access.
    - [Interrupts.v] ([handlers/interrupts.rs]): the entry stubs, and the handlers of
      keyboard, mouse, audio device and power button over the drivers' models.
    - [Exec.v] ([task/exec.rs], [runtime::sys_exec], with the image writer of
      [crates/kernel/build.rs] and the argument encoder of
      [userspace/runtime/runtime.rs]): program images, argument blocks and stacks,
      address spaces of new processes, release at exit.
    - [Fault.v] ([handlers/faults.rs]): the stubs of the processor exceptions, the
      end of a faulting process, the report of a fault of the kernel.

    Communication, files, input:
    - [Ipc.v] ([ipc.rs]): message channels, waking processes of [Process.v].
    - [Pipe.v] ([fs/pipe.rs] and [thread::notify_pipe_readers]) and [Fd.v]
      ([fs/fd.rs] and [runtime::sys_pipe]): pipes and the descriptor tables that
      count references to them.
    - [Vfs.v] ([fs/vfs.rs], [fs/devfs.rs]): the in-memory file system, a table of
      nodes by path with generation-checked handles, its boot image, and the
      device registry.  [Kfs.v] ([build_kfs] of [crates/kernel/build.rs]) writes
      that image.
    - [Keyboard.v] ([drivers/keyboard.rs]) and [Tty.v] ([terminal/tty.rs]): scancode
      decoding into two rings, focus and Ctrl-C; the line editor that reads keys.
    - [Framebuffer.v] ([drivers/framebuffer.rs], [terminal/bitmap.rs]) and [Console.v]
      ([terminal/console.rs]): pixels, glyphs, and the text console with its escape
      sequences.  [FbOwner.v] ([drivers/fb_owner.rs]): which process owns the screen.

    Hardware:
    - [Acpi.v], [Pci.v], [Ioapic.v] ([drivers/acpi.rs], [drivers/pci.rs],
      [drivers/ioapic.rs]): firmware tables in physical memory, configuration space
      and interrupt routing; a device's own reaction to a register write is a
      parameter.
    - [Power.v] ([drivers/power.rs]): power button, shutdown and reboot, as sequences
      of port writes.
    - [Desc.v] ([arch/x86_64/gdt.rs], [idt.rs]): interrupt gates, segments, task
      states and port permissions, with what the processor reads in them.
    - [Smp.v] ([arch/x86_64/smp.rs], [drivers/lapic.rs]): detection and start-up of
      the other processors, through the patched trampoline.
    - [Boot.v] ([crates/bootloader/src/main.rs], [init.rs],
      [arch/x86_64/platform.rs]): kernel image, memory map and boot information; the
      set-up of memory ([Pmm.v]) and interrupt lines ([Acpi.v], [Ioapic.v]).

    System calls:
    - [Umem.v] and [SysFile.v] ([syscall/runtime.rs]): the calls for heap, DMA
      and device windows; for files, pipes, devices, console output and waiting.
      Devices are behind the class [DeviceOps]; [Audio.v] ([drivers/audio.rs]) is an
      instance over the channels of [Ipc.v].
    - [Irq.v] (the interrupt and PCI calls of [syscall/runtime.rs], and the audio
      interrupt) and [DriverModule.v] ([driver_module.rs]): the kernel's side of
      user-mode drivers.
    - [Syscall.v] ([syscall.rs], [syscall/context.rs]): the [int 0x80] entry and its
      three ways out, over any kernel state with a dispatch state in it (the class
      [World]).
    - [Handlers.v] ([syscall/dispatch.rs] and the handler files): decoding of the 68
      calls into [Request]s, the dispatcher, and the handlers written in those files;
      requests that belong to other components go through the class [Components].

    User mode:
    - [ShellEdit.v] and [Shell.v] ([userspace/programs/shell.rs]): line editor and
      commands of the shell.
    - [DriverRt.v] ([userspace/runtime/driver_runtime.rs]): the call wrappers and the
      life cycle of a driver, as a monad over the log of calls and device accesses.
      [Hda.v] and [Mouse.v] ([userspace/drivers/hda.rs], [ps2mouse.rs]) are the two
      drivers, instances of its class [Driver]; [MouseTest.v], [Ktop.v] and [Less.v]
      ([userspace/programs/mousetest.rs], [ktop.rs], [less.rs]) are programs in the same
      monad.
      There the kernel and the device are an arbitrary function from the log to the
      next answer: the theorems hold whatever they answer.

    ** What the theorems show

    Memory: the frame manager refines a set allocator and never hands a frame
    out twice; after boot it hands out nothing that boot set aside; the heap keeps
    every byte in exactly one block over any sequence of calls on any CPUs, and
    coalesces completely; the user heap frees to the same list in every order; a
    page-table operation changes one page of one address space and keeps the tables
    unshared; the user-pointer check accepts exactly the accessible user ranges.

    Tasks: preemption and blocking are transparent to the registers of a thread
    by every path back to ring 3; round robin reaches every ready thread; a
    finished thread stays finished; exits wake all waiters; process exit tears
    down in order and touches no other process; a fault in ring 3 ends its process
    only, one in ring 0 is reported exactly as it happened; a device interrupt leaves
    no trace in the code it interrupts, and neither does a tick in kernel code.

    System calls: a call returns, or blocks and resumes with the waker's result and
    all other registers unchanged; a process told to die is never served again; the
    two levels of the dispatcher agree on every number; a message sent from one
    address space is stored in another and nowhere else.

    Synchronisation and communication: mutual exclusion and progress of the
    thread lock under every interleaving with interrupts; sections under a spin lock
    serialize, and lock a CPU out if it takes the lock with interrupts on; channels and pipes
    deliver in order and lose nothing outside of the documented dropping sends;
    no wakeup of a blocked receiver is lost; pipe reference counts are exact.

    Files: the node table is a tree at all times, from the unpacked boot image
    on; what the build script packs is what the kernel reads; a stale handle never
    reaches another file; writes read back.

    Input and screen: the rings stay within bounds for any controller input, typed
    text is read as typed, focus isolates processes, both line editors refine a pair
    of lists around the cursor, and what the shell writes shows its line; the console
    writes inside the framebuffer only, for any text and font; a released screen is as
    it was when it was acquired.

    Programs and user memory: the loader reads what the build writes, never outside
    the file; a typed line reaches the loader as its program and arguments; a new
    process maps exactly its code and stack; heap pages of different processes never
    share a frame, and come back at exit; shared objects own their frames alone, their
    mappings never overlap, the search for a range terminates and is first fit.

    Devices: the ACPI interrupt table is read as written, the size probe of a PCI
    window returns its size and leaves the device unchanged, a bus scan reports
    exactly the devices present, programming one interrupt line leaves the others; the
    claimed line has one owner; each vector leads to its handler; every processor is
    started once on a stack of its own; power-off writes what the tables say.

    Drivers and programs: the audio driver gives back what it took however it ends,
    and writes ahead of what is played; the packets of the mouse reach a program as
    its events; the pointer stays on the screen and leaves no trace; a frame of the
    monitor ends and fills the screen; the pager shows the lines of the text.

    Several theorems document defects.  In memory and tasks: the last run of frames is
    never allocated contiguously ([Pmm.alloc_frames_misses_last_run]), dispatching
    starts its round robin at the lowest tid ([Scheduler.schedule_from_zero_starves]),
    a main thread that exits first leaks the address space
    ([Process.main_exit_first_leaks]), large argument blocks are written below the
    stack ([Exec.args_overflow_stack]), the out-of-memory retry waits on a victim it
    cannot end ([Umem.oom_retry_spins]), merged arenas are never given back
    ([UserHeap.adjacent_arenas_kept]).  In waiting: an exit between the two steps of
    [sys_wait] is missed ([SysFile.Example.sys_wait_lost_wakeup]), an interrupt before
    the wait is lost ([Irq.irq_lost_before_wait]), a result given before the frame is
    committed is lost ([Syscall.early_wake_loses_result]), a console read that waits
    returns the key as its count ([Syscall.console_read_returns_key]).  In devices and
    files: closing one of several pipe writers looks like end of file to a reader
    ([Fd.close_one_writer_spurious_eof]), large sound buffers are refused
    ([Audio.audio_sys_write]), a driver that faults stays listed
    ([DriverModule.faulted_driver_stays_listed]), a port stays open after its driver
    ([Desc.port_grant_outlives_driver]), text below the screen is lost
    ([Console.text_below_screen_lost]).  In user mode: the audio driver overwrites what
    is playing after an underrun, retries short messages for ever and drops the tail of
    long ones ([Hda.underrun_overwrites_playing], [Hda.short_message_never_ends],
    [Hda.tail_of_message_lost]), the driver allocator takes a failure for a pointer
    ([DriverRt.driver_alloc_misses_failure]), the monitor drops thousands
    ([Ktop.percent_drops_thousands]), the pager hides lines after the 4096th
    ([Less.pager_hides_lines]).

    ** Conventions, bounds and fuel

    A [u64] is a [Z] with its wrap-around written out where the source can wrap
    (the kernel is built without overflow checks).  Loops over vectors
    and counted loops are structural.  Loops
    with fuel have enough of it by a theorem: the page loop of [Uaccess.v] (16 MiB
    touch at most 4097 pages) by [validate_range_spec], the doubling [loop] of
    [Shm.v] ([2^37] turns, one per page of the window) by [find_free_range_spec],
    the entry walk of [Acpi.v] (an entry has at least one byte, and a walk stops at
    an empty one) by [madt_roundtrip], console output (one turn per byte) by
    [print_exact], the waits of [Power.v] by [stop_processes_ends], the process walk
    of [Ktop.v] (one turn per pid) by [frame_height], the reading of [Less.v] (one turn
    per byte of its buffer) by [input_read].  Loops without a bound in the
    code take a number of turns as an argument, and the theorems hold for every
    number: the retries of [sys_heap_alloc] ([heap_alloc_spec] says when one is
    enough), the main loops of drivers and programs, the retries of the audio driver
    (of which [short_message_never_ends] shows that they can go on for ever).  The lock
    theorems speak about runs of up to [2^64 - 1] steps, the pipe theorems about fewer
    than [2^32] references, so that no counter wraps.  A static [Vec] is a list in
    vector order; the code's [find] is the first match.

    ** What is not modelled

    The TLB, log output, weak memory effects, device behaviour beyond register
    contents, and the assembly beyond the order in which it pushes and pops registers.
    Of the boot, the order of the modelled steps in [init::run], the graphics mode,
    the banner and the entry of the other processors into the idle loop: they have no
    state of their own to speak about.  The outline font, the ELF reader and the
    firmware are libraries, and parameters here.  The host tools (image builders, the
    QEMU scripts) do not run in the system.  The remaining user programs ([lspci],
    [ps], [drivers], [init] and the test programs) are short sequences of
    calls that the shell's commands already show; timer chip, serial port and speaker
    are port output without an answer. *)
From stdpp Require Import base list numbers option gmap sorting.
From Stdlib Require Import Permutation.

Open Scope Z_scope.

(** * Machine integers

    A [u64]/[usize] is a [Z] in [0, 2^64).  Kernel builds use the release
    profile, where unchecked [+], [-] and [*] wrap; [checked_*] and
    [saturating_*] follow [core]. *)

Declare Scope kazu_scope.
Delimit Scope kazu_scope with kazu.

Definition u64_bound : Z := 2 ^ 64.
Definition u64_max : Z := u64_bound - 1.

Definition wrap64 (x : Z) : Z := x mod u64_bound.
Definition checked_add (a b : Z) : option Z :=
  if a + b <? u64_bound then Some (a + b) else None.
Definition checked_mul (a b : Z) : option Z :=
  if a * b <? u64_bound then Some (a * b) else None.
Definition saturating_sub (a b : Z) : Z := Z.max 0 (a - b).
Definition saturating_add (a b : Z) : Z := Z.min u64_max (a + b).
Definition div_ceil (a b : Z) : Z := if 0 <? a mod b then a / b + 1 else a / b.

Notation "'U64MAX'" := u64_max (only parsing) : kazu_scope.

#[global] Arguments wrap64 : simpl never.
#[global] Arguments u64_bound : simpl never.

Definition is_u64 (x : Z) : Prop := 0 <= x < u64_bound.

#[export] Instance is_u64_dec (x : Z) : Decision (is_u64 x).
Proof. unfold is_u64. apply _. Defined.

(** * Tactics *)

(** Case split on every boolean comparison and [match] in sight. *)
Ltac zbool :=
  repeat match goal with
  | H : (_ <? _) = true |- _ => apply Z.ltb_lt in H
  | H : (_ <? _) = false |- _ => apply Z.ltb_ge in H
  | H : (_ <=? _) = true |- _ => apply Z.leb_le in H
  | H : (_ <=? _) = false |- _ => apply Z.leb_gt in H
  | H : (_ =? _) = true |- _ => apply Z.eqb_eq in H
  | H : (_ =? _) = false |- _ => apply Z.eqb_neq in H
  | H : (_ && _)%bool = true |- _ => apply andb_true_iff in H as [? ?]
  | H : (_ || _)%bool = false |- _ => apply orb_false_iff in H as [? ?]
  | H : negb _ = true |- _ => apply negb_true_iff in H
  | H : negb _ = false |- _ => apply negb_false_iff in H
  end.

Ltac split_if :=
  match goal with
  | |- context [if ?b then _ else _] => destruct b eqn:?
  | H : context [if ?b then _ else _] |- _ => destruct b eqn:?
  end.

Ltac split_ifs := repeat (split_if; zbool; simplify_eq/=).

Create HintDb kazu discriminated.

(** * Arithmetic *)

Lemma u64_bound_val : u64_bound = 18446744073709551616.
Proof. reflexivity. Qed.

Lemma wrap64_small (x : Z) : is_u64 x -> wrap64 x = x.
Proof. intros [??]. unfold wrap64. by apply Z.mod_small. Qed.

Lemma wrap64_range (x : Z) : is_u64 (wrap64 x).
Proof. unfold wrap64, is_u64. apply Z.mod_pos_bound. done. Qed.

#[export] Hint Resolve wrap64_range : kazu.

Lemma checked_add_Some (a b c : Z) :
  checked_add a b = Some c <-> c = a + b /\ a + b < u64_bound.
Proof. unfold checked_add. split; intros; split_ifs; naive_solver lia. Qed.

Lemma div_ceil_spec (a b : Z) :
  0 <= a -> 0 < b -> b * div_ceil a b >= a /\ b * div_ceil a b < a + b.
Proof.
  intros Ha Hb. unfold div_ceil.
  pose proof (Z.div_mod a b ltac:(lia)). pose proof (Z.mod_pos_bound a b Hb).
  split_ifs; nia.
Qed.

Lemma div_ceil_mul (a b : Z) : 0 <= a -> 0 < b -> div_ceil (a * b) b = a.
Proof.
  intros Ha Hb. unfold div_ceil. rewrite Z.mod_mul, Z.div_mul by lia. done.
Qed.

Lemma div_ceil_nonneg (a b : Z) : 0 <= a -> 0 < b -> 0 <= div_ceil a b.
Proof.
  intros Ha Hb. pose proof (Z.div_pos a b Ha Hb). unfold div_ceil. split_ifs; lia.
Qed.

(** Clearing the low bits of an address: [x & !(2^k - 1)]. *)
Lemma land_lnot_ones (x k : Z) :
  0 <= k -> Z.land x (Z.lnot (Z.ones k)) = x - x mod 2 ^ k.
Proof.
  intros Hk. rewrite <- Z.ldiff_land, Z.ldiff_ones_r by lia.
  rewrite Z.shiftl_mul_pow2, Z.shiftr_div_pow2 by lia.
  pose proof (Z.div_mod x (2 ^ k) ltac:(apply Z.pow_nonzero; lia)). lia.
Qed.

Lemma pair_fst {A B : Type} (x : A * B) (a : A) : fst x = a -> x = (a, snd x).
Proof. destruct x. simpl. by intros ->. Qed.

(** * Vec operations *)

Section Vec.
Context {A : Type}.
Implicit Types (P : A -> bool) (l : list A) (x : A).

(** [iter().position(P)]. *)
Fixpoint position P l : option nat :=
  match l with
  | [] => None
  | x :: l' => if P x then Some 0%nat else S <$> position P l'
  end.

(** [iter().find(P)]. *)
Fixpoint find_first P l : option A :=
  match l with
  | [] => None
  | x :: l' => if P x then Some x else find_first P l'
  end.

(** [if let Some(x) = iter_mut().find(P) { *x = f(x) }]. *)
Fixpoint update_first P (f : A -> A) l : list A :=
  match l with
  | [] => []
  | x :: l' => if P x then f x :: l' else x :: update_first P f l'
  end.

(** [Vec::swap_remove(i)], without the returned element. *)
Definition swap_remove (i : nat) l : list A :=
  match last l with
  | None => []
  | Some z => take (length l - 1) (<[i:=z]> l)
  end.

(** [Vec::retain(P)] and [iter().filter(P)]. *)
Fixpoint retain P l : list A :=
  match l with
  | [] => []
  | x :: l' => if P x then x :: retain P l' else retain P l'
  end.

Lemma position_Some P l i :
  position P l = Some i <->
  exists x, l !! i = Some x /\ P x = true /\
            forall j y, (j < i)%nat -> l !! j = Some y -> P y = false.
Proof.
  revert i. induction l as [|a l IH]; intros i; simpl.
  { split; [done|]. by intros (x & ? & _). }
  destruct (P a) eqn:Ha; simpl.
  - split.
    + intros [= <-]. exists a. split_and!; [done..|]. intros j y Hj. lia.
    + intros (x & Hx & HP & Hmin). destruct i as [|i]; [done|].
      specialize (Hmin 0%nat a ltac:(lia) eq_refl). congruence.
  - rewrite fmap_Some. split.
    + intros (k & Hk & ->). apply IH in Hk as (x & Hx & HP & Hmin).
      exists x. split_and!; [done..|]. intros [|j] y Hj Hy; simpl in *; simplify_eq; [done|].
      apply (Hmin j); [lia|done].
    + intros (x & Hx & HP & Hmin). destruct i as [|i]; simpl in *; [congruence|].
      exists i. split; [|done]. apply IH. exists x. split_and!; [done..|].
      intros j y Hj Hy. apply (Hmin (S j)); [lia|done].
Qed.

Lemma position_None P l :
  position P l = None <-> forall x, x ∈ l -> P x = false.
Proof.
  induction l as [|a l IH]; simpl.
  { split; [|done]. intros _ x Hx. by apply elem_of_nil in Hx. }
  destruct (P a) eqn:Ha; simpl.
  - split; [done|]. intros H. rewrite H in Ha; [done|left].
  - rewrite fmap_None, IH. set_solver.
Qed.

Lemma find_first_Some P l x :
  find_first P l = Some x -> x ∈ l /\ P x = true.
Proof.
  induction l as [|a l IH]; simpl; [done|]. destruct (P a) eqn:Ha.
  - intros [= ->]. split; [left|done].
  - intros H. destruct (IH H). split; [by right|done].
Qed.

Lemma find_first_None P l :
  find_first P l = None <-> forall x, x ∈ l -> P x = false.
Proof.
  induction l as [|a l IH]; simpl.
  { split; [|done]. intros _ x Hx. by apply elem_of_nil in Hx. }
  destruct (P a) eqn:Ha.
  - split; [done|]. intros H. rewrite H in Ha; [done|left].
  - rewrite IH. set_solver.
Qed.

Lemma find_first_position P l :
  find_first P l = (match position P l with Some i => l !! i | None => None end).
Proof.
  induction l as [|a l IH]; simpl; [done|]. destruct (P a); [done|].
  rewrite IH. by destruct (position P l).
Qed.

Lemma length_update_first P f l : length (update_first P f l) = length l.
Proof. induction l; simpl; [done|]. destruct (P a); simpl; lia. Qed.

Lemma update_first_map {B} (g : A -> B) P f l :
  (forall x, P x = true -> g (f x) = g x) ->
  g <$> update_first P f l = g <$> l.
Proof.
  intros Hg. induction l as [|a l IH]; simpl; [done|].
  destruct (P a) eqn:Ha; simpl; f_equal; auto.
Qed.

Lemma elem_of_update_first P f l x :
  x ∈ update_first P f l -> x ∈ l \/ exists y, y ∈ l /\ P y = true /\ x = f y.
Proof.
  induction l as [|a l IH]; simpl; [by intros ?%elem_of_nil|].
  destruct (P a) eqn:Ha; intros [->|Hx]%elem_of_cons.
  - right. exists a. split; [left|done].
  - left. by right.
  - left. left.
  - destruct (IH Hx) as [?|(y & ? & ?)]; [left; by right|].
    right. exists y. split; [by right|done].
Qed.

Lemma Forall_update_first P f (Q : A -> Prop) l :
  Forall Q l -> (forall x, Q x -> P x = true -> Q (f x)) -> Forall Q (update_first P f l).
Proof.
  intros Hl Hf. apply Forall_forall. intros x Hx.
  rewrite Forall_forall in Hl.
  apply elem_of_update_first in Hx as [Hx|(y & Hy & HP & ->)]; auto.
Qed.

Lemma find_first_update_first_eq P f l :
  (forall x, P x = true -> P (f x) = true) ->
  find_first P (update_first P f l) = f <$> find_first P l.
Proof.
  intros Hf. induction l as [|a l IH]; simpl; [done|].
  destruct (P a) eqn:Ha; simpl; [by rewrite Hf|by rewrite Ha].
Qed.

Lemma find_first_update_first_ne P Q f l :
  (forall x, P x = true -> Q x = false /\ Q (f x) = false) ->
  find_first Q (update_first P f l) = find_first Q l.
Proof.
  intros Hf. induction l as [|a l IH]; simpl; [done|].
  destruct (P a) eqn:Ha; simpl.
  - destruct (Hf a Ha) as [-> ->]. done.
  - by rewrite IH.
Qed.

Lemma find_first_fmap {B} (g : A -> B) P (Q : B -> bool) l :
  (forall x, P x = Q (g x)) ->
  g <$> find_first P l = (fix go (k : list B) := match k with
                          | [] => None
                          | y :: k' => if Q y then Some y else go k'
                          end) (g <$> l).
Proof. intros H. induction l as [|a l IH]; simpl; [done|]. rewrite <- H. by destruct (P a). Qed.

Lemma retain_filter P l : retain P l = filter (fun x => P x = true) l.
Proof.
  induction l as [|a l IH]; simpl; [done|].
  rewrite filter_cons. case_decide as Hd; rewrite IH.
  - by rewrite Hd.
  - by apply not_true_is_false in Hd as ->.
Qed.

Lemma elem_of_retain P l x : x ∈ retain P l <-> P x = true /\ x ∈ l.
Proof. by rewrite retain_filter, list_elem_of_filter. Qed.

Lemma length_swap_remove i l x :
  l !! i = Some x -> S (length (swap_remove i l)) = length l.
Proof.
  intros Hi. unfold swap_remove. pose proof (lookup_lt_Some _ _ _ Hi).
  destruct (last l) eqn:Hl; [|by apply last_None in Hl; subst].
  rewrite length_take, length_insert. lia.
Qed.

Lemma swap_remove_perm i l x :
  l !! i = Some x -> l ≡ₚ x :: swap_remove i l.
Proof.
  intros Hi. unfold swap_remove.
  destruct l as [|z l' _] using rev_ind; [done|].
  rewrite last_snoc, length_app. simpl. replace (_ + 1 - 1)%nat with (length l') by lia.
  destruct (decide (i = length l')) as [->|Hne].
  - rewrite lookup_app_r, Nat.sub_diag in Hi by lia. simplify_eq/=.
    rewrite insert_app_r_alt, Nat.sub_diag by lia. simpl.
    rewrite take_app_length. by rewrite Permutation_app_comm.
  - pose proof (lookup_lt_Some _ _ _ Hi) as Hlt. rewrite length_app in Hlt. simpl in Hlt.
    rewrite lookup_app_l in Hi by lia.
    rewrite insert_app_l by lia. rewrite take_app_le by (rewrite length_insert; lia).
    rewrite take_ge by (rewrite length_insert; lia).
    rewrite insert_take_drop by lia.
    rewrite <- (take_drop_middle l' i x Hi) at 1. solve_Permutation.
Qed.

Lemma elem_of_swap_remove i l x y :
  l !! i = Some x -> y ∈ l <-> y = x \/ y ∈ swap_remove i l.
Proof.
  intros Hi. rewrite (swap_remove_perm i l x Hi) at 1. apply elem_of_cons.
Qed.

(** [while i < v.len() { if P(v[i]) { removed = v.swap_remove(i); .. } else { i += 1 } }]:
    the elements removed, in order, and the vector left.  Every iteration settles
    one element, so as many iterations as elements. *)
Fixpoint drain_loop P (n i : nat) (gone l : list A) : list A * list A :=
  match n with
  | O => (gone, l)
  | S n' =>
      match l !! i with
      | None => (gone, l)
      | Some x => if P x then drain_loop P n' i (gone ++ [x]) (swap_remove i l) else drain_loop P n' (i + 1) gone l
      end
  end.
Definition drain P l : list A * list A := drain_loop P (length l) 0 [] l.

Lemma swap_remove_take i l x : l !! i = Some x -> take i (swap_remove i l) = take i l.
Proof.
  intros Hi. pose proof (lookup_lt_Some _ _ _ Hi) as Hlt.
  unfold swap_remove. destruct (last l) as [z|] eqn:Hz; [|apply last_None in Hz; by subst].
  rewrite take_take, take_insert_ge by lia. f_equal. lia.
Qed.

Lemma drain_loop_spec P n i gone l :
  (length l - i = n)%nat -> Forall (fun x => P x = true) gone -> Forall (fun x => P x = false) (take i l) ->
  let '(gone', l') := drain_loop P n i gone l in
  gone ++ l ≡ₚ gone' ++ l' /\ Forall (fun x => P x = true) gone' /\ Forall (fun x => P x = false) l'.
Proof.
  revert i gone l. induction n as [|n IH]; intros i gone l Hn Hg Hl; cbn [drain_loop].
  { split_and!; [done..|]. by rewrite take_ge in Hl by lia. }
  destruct (l !! i) as [x|] eqn:Hi; [|apply lookup_ge_None in Hi; lia].
  destruct (P x) eqn:Hx.
  - pose proof (length_swap_remove i l x Hi) as Hlen.
    specialize (IH i (gone ++ [x]) (swap_remove i l)). destruct (drain_loop P n i _ _) as [gone' l'].
    destruct IH as (Hp & ?); [lia|apply Forall_app; by repeat constructor|by rewrite (swap_remove_take i l x)|].
    split; [|done]. rewrite <- Hp, (swap_remove_perm i l x Hi) at 1. by rewrite <- (assoc_L (++)).
  - apply IH; [lia|done|]. rewrite Nat.add_1_r, (take_S_r _ _ x) by done. apply Forall_app. by repeat constructor.
Qed.

Lemma drain_spec P l :
  let '(gone, l') := drain P l in
  l ≡ₚ gone ++ l' /\ Forall (fun x => P x = true) gone /\ Forall (fun x => P x = false) l'.
Proof. apply (drain_loop_spec P (length l) 0 [] l); [lia|constructor|constructor]. Qed.
End Vec.

Lemma omap_cons_app {A B : Type} (f : A -> option B) (x : A) (l : list A) :
  omap f (x :: l) = option_list (f x) ++ omap f l.
Proof. simpl. by destruct (f x). Qed.

(** * Traces of labelled step relations *)

Inductive trace {S E : Type} (step : S -> E -> S -> Prop) : S -> list E -> S -> Prop :=
  | trace_nil s : trace step s [] s
  | trace_cons s e s' es s'' :
      step s e s' -> trace step s' es s'' -> trace step s (e :: es) s''.

Lemma trace_app {S E : Type} (step : S -> E -> S -> Prop) s1 es1 s2 es2 s3 :
  trace step s1 es1 s2 -> trace step s2 es2 s3 -> trace step s1 (es1 ++ es2) s3.
Proof. induction 1; intros; simpl; [done|]. econstructor; eauto. Qed.

(** An invariant that every step keeps holds at the end of every trace. *)
Lemma trace_invariant {S E : Type} (step : S -> E -> S -> Prop) (I : S -> Prop) s es s' :
  (forall s e s', I s -> step s e s' -> I s') ->
  I s -> trace step s es s' -> I s'.
Proof. intros Hstep Hi Htr. induction Htr; eauto. Qed.

(** * Sums of integers over lists *)

Section Sum.
Context {A : Type}.
Implicit Types (f g : A -> Z) (l : list A).

Definition zsum f l : Z := foldr (fun x acc => f x + acc) 0 l.

Lemma zsum_app f l1 l2 : zsum f (l1 ++ l2) = zsum f l1 + zsum f l2.
Proof. unfold zsum. induction l1 as [|x l1 IH]; simpl; lia. Qed.

Lemma zsum_perm f l1 l2 : l1 ≡ₚ l2 -> zsum f l1 = zsum f l2.
Proof. unfold zsum. induction 1; simpl; lia. Qed.

Lemma zsum_reverse f l : zsum f (reverse l) = zsum f l.
Proof. apply zsum_perm, reverse_Permutation. Qed.

Lemma zsum_nonneg f l : (forall x, 0 <= f x) -> 0 <= zsum f l.
Proof. unfold zsum. intros Hf. induction l as [|x l IH]; simpl; [lia|]. specialize (Hf x). lia. Qed.

Lemma zsum_elem_le f l x : (forall y, 0 <= f y) -> x ∈ l -> f x <= zsum f l.
Proof.
  intros Hf (l1 & l2 & ->)%list_elem_of_split. rewrite zsum_app. simpl.
  pose proof (zsum_nonneg f l1 Hf). pose proof (zsum_nonneg f l2 Hf). lia.
Qed.

Lemma zsum_ext f g l : (forall x, x ∈ l -> f x = g x) -> zsum f l = zsum g l.
Proof.
  unfold zsum. induction l as [|x l IH]; intros H; simpl; [done|].
  rewrite H by left. rewrite IH; [done|]. intros y Hy. apply H. by right.
Qed.

(** Replacing one element. *)
Lemma zsum_insert f l i x y : l !! i = Some x -> zsum f (<[i:=y]> l) = zsum f l - f x + f y.
Proof.
  revert i. induction l as [|a l IH]; intros [|i] Hi; simpl in *; simplify_eq; [lia|].
  rewrite (IH i Hi). lia.
Qed.

Lemma zsum_replicate f n x : f x = 0 -> zsum f (replicate n x) = 0.
Proof. intros Hx. induction n as [|n IH]; simpl; [done|]. lia. Qed.

Lemma zsum_lookup_le f l i x : (forall y, 0 <= f y) -> l !! i = Some x -> f x <= zsum f l.
Proof. intros Hf Hi. by apply zsum_elem_le, (list_elem_of_lookup_2 l i). Qed.

(** Changing the summand at one index changes the sum by the difference. *)
Lemma zsum_change f g l i :
  NoDup l -> i ∈ l -> (forall j, j <> i -> f j = g j) ->
  zsum g l = zsum f l + (g i - f i).
Proof.
  intros Hnd Hi Hfg. apply list_elem_of_split in Hi as (l1 & l2 & ->).
  apply NoDup_app in Hnd as (_ & Hd & Hnd2). apply NoDup_cons in Hnd2 as [Hn2 _].
  rewrite !zsum_app. simpl.
  assert (forall l, i ∉ l -> zsum f l = zsum g l) as He.
  { intros l Hl. apply zsum_ext. intros j Hj. apply Hfg. by intros ->. }
  rewrite <- (He l1), <- (He l2); [lia|done|]. intros Hin. apply (Hd i Hin). left.
Qed.
End Sum.

(** [v & !(align - 1)] after adding [align - 1]: rounding up to a power of two. *)
Definition align_up (v align : Z) : Z :=
  Z.land (wrap64 (v + align - 1)) (Z.lnot (align - 1)).

Lemma align_up_spec (v k : Z) :
  0 <= k -> 0 <= v -> v + 2 ^ k - 1 < u64_bound ->
  v <= align_up v (2 ^ k) < v + 2 ^ k /\ align_up v (2 ^ k) mod 2 ^ k = 0.
Proof.
  intros Hk Hv Hb. pose proof (Z.pow_pos_nonneg 2 k ltac:(lia) Hk). unfold align_up.
  rewrite wrap64_small by (unfold is_u64; lia).
  replace (2 ^ k - 1) with (Z.ones k) by (rewrite Z.ones_equiv; lia).
  rewrite land_lnot_ones by done.
  pose proof (Z.mod_pos_bound (v + 2 ^ k - 1) (2 ^ k) ltac:(lia)).
  pose proof (Z.div_mod (v + 2 ^ k - 1) (2 ^ k) ltac:(lia)).
  split; [lia|].
  replace (v + 2 ^ k - 1 - (v + 2 ^ k - 1) mod 2 ^ k)
    with ((v + 2 ^ k - 1) / 2 ^ k * 2 ^ k) by lia.
  apply Z.mod_mul. lia.
Qed.

(** * Results, and state passing with errors *)

Inductive Result (A E : Type) := Ok (a : A) | Err (e : E).
#[global] Arguments Ok {A E} a.
#[global] Arguments Err {A E} e.

(** [S -> Result A E * S]: code that mutates a state and may return early with [?]. *)
Definition SE (S E A : Type) : Type := S -> Result A E * S.
Definition se_ret {S E A} (a : A) : SE S E A := fun s => (Ok a, s).
Definition se_err {S E A} (e : E) : SE S E A := fun s => (Err e, s).
Definition se_bind {S E A B} (m : SE S E A) (k : A -> SE S E B) : SE S E B :=
  fun s => match m s with (Ok a, s') => k a s' | (Err e, s') => (Err e, s') end.

Notation "'let?' x := m 'in' k" := (se_bind m (fun x => k))
  (at level 200, x pattern, m at level 100, k at level 200, right associativity) : kazu_scope.

Lemma se_bind_Ok {S E A B} (m : SE S E A) (k : A -> SE S E B) s b s'' :
  se_bind m k s = (Ok b, s'') <-> exists a s', m s = (Ok a, s') /\ k a s' = (Ok b, s'').
Proof.
  unfold se_bind. destruct (m s) as [[a|e] s']; naive_solver.
Qed.

Lemma se_bind_Err {S E A B} (m : SE S E A) (k : A -> SE S E B) s e s'' :
  se_bind m k s = (Err e, s'') <->
  m s = (Err e, s'') \/ exists a s', m s = (Ok a, s') /\ k a s' = (Err e, s'').
Proof.
  unfold se_bind. destruct (m s) as [[a|e'] s']; naive_solver.
Qed.

(** * Loops

    [loop n body s] runs a [loop { ... }] for up to [2^n] iterations and stops at
    the first [inl]: fuel that a small number can make larger than any 64-bit
    measure, without building it. *)

Section Loop.
Context {S R : Type} (body : S -> R + S).

Fixpoint loop (n : nat) (s : S) : R + S :=
  match n with
  | O => body s
  | Datatypes.S n' => match loop n' s with inl r => inl r | inr s' => loop n' s' end
  end.

Context (I : S -> Prop) (HI : forall s s', I s -> body s = inr s' -> I s').

Lemma loop_invariant (n : nat) (s s' : S) : I s -> loop n s = inr s' -> I s'.
Proof using HI.
  revert s s'. induction n as [|n IH]; intros s s' Hs; simpl; [by apply HI|].
  destruct (loop n s) as [r|s1] eqn:E; [done|]. intros E2. by apply (IH s1), E2; apply (IH s).
Qed.

(** The result comes from an iteration that met the invariant. *)
Lemma loop_result (n : nat) (s : S) (r : R) :
  I s -> loop n s = inl r -> exists s', I s' /\ body s' = inl r.
Proof using HI.
  revert s. induction n as [|n IH]; intros s Hs; simpl; [by eauto|].
  destruct (loop n s) as [r'|s1] eqn:E.
  - intros [= ->]. by apply (IH s).
  - intros E2. apply (IH s1); [|done]. by apply (loop_invariant n s).
Qed.

(** Termination: a measure that every further iteration decreases. *)
Context (m : S -> Z)
  (Hm : forall s s', I s -> body s = inr s' -> m s' < m s)
  (H0 : forall s s', I s -> body s = inr s' -> 0 <= m s').

Lemma loop_measure (n : nat) (s s' : S) :
  I s -> loop n s = inr s' -> 0 <= m s' <= m s - 2 ^ Z.of_nat n.
Proof using HI Hm H0.
  revert s s'. induction n as [|n IH]; intros s s' Hs E.
  - simpl in E. pose proof (Hm s s' Hs E). pose proof (H0 s s' Hs E). simpl. lia.
  - simpl in E. destruct (loop n s) as [r|s1] eqn:E1; [done|].
    pose proof (IH s s1 Hs E1). pose proof (IH s1 s' (loop_invariant n s s1 Hs E1) E).
    rewrite Nat2Z.inj_succ, Z.pow_succ_r by lia. lia.
Qed.

Lemma loop_terminates (n : nat) (s : S) :
  I s -> m s < 2 ^ Z.of_nat n -> exists r, loop n s = inl r.
Proof using HI Hm H0.
  intros Hs Hn. destruct (loop n s) as [r|s'] eqn:E; [by exists r|].
  pose proof (loop_measure n s s' Hs E). lia.
Qed.
End Loop.

(** * Little-endian bytes *)

(** [from_le_bytes] and [to_le_bytes]. *)
Fixpoint from_le (l : list Z) : Z := match l with [] => 0 | b :: l' => b + 256 * from_le l' end.
Fixpoint to_le (n : nat) (v : Z) : list Z :=
  match n with O => [] | S n' => v mod 256 :: to_le n' (v / 256) end.

Lemma length_to_le (n : nat) (v : Z) : length (to_le n v) = n.
Proof. revert v. induction n as [|n IH]; intros v; simpl; [done|]. by rewrite IH. Qed.

Lemma from_to_le (n : nat) (v : Z) : 0 <= v < 256 ^ Z.of_nat n -> from_le (to_le n v) = v.
Proof.
  revert v. induction n as [|n IH]; intros v Hv; [simpl in *; lia|].
  rewrite Nat2Z.inj_succ, Z.pow_succ_r in Hv by lia. cbn [to_le from_le].
  rewrite IH; [pose proof (Z.div_mod v 256); lia|].
  split; [apply Z.div_pos; lia|apply Z.div_lt_upper_bound; lia].
Qed.

Lemma to_le_bytes (n : nat) (v : Z) : Forall (fun b => 0 <= b < 256) (to_le n v).
Proof.
  revert v. induction n as [|n IH]; intros v; simpl; constructor; [|done]. apply Z.mod_pos_bound. lia.
Qed.
