(* ===== verification/Str.v ===== *)
(** Strings: what the sources use of [str] and [core::str], on the UTF-8 bytes of
    a string. *)
From stdpp Require Import base numbers option list.
From S2P Require Import Prelude.

Open Scope Z_scope.

Module Str.

(** * Strings *)

Definition SLASH : Z := 47.
Definition DOT : Z := 46.
Notation str := (list Z).

(** [str::starts_with], [strip_prefix], [ends_with], [contains] and [rfind]. *)
Fixpoint strip_prefix (p l : str) : option str :=
  match p, l with
  | [], _ => Some l
  | x :: p', y :: l' => if x =? y then strip_prefix p' l' else None
  | _ :: _, [] => None
  end.
Definition starts_with (p l : str) : bool := bool_decide (is_Some (strip_prefix p l)).
Definition ends_with (c : Z) (l : str) : bool := bool_decide (last l = Some c).
Fixpoint contains (p l : str) : bool :=
  starts_with p l || (match l with [] => false | _ :: l' => contains p l' end).
Fixpoint rfind (c : Z) (l : str) : option nat :=
  match l with
  | [] => None
  | x :: l' =>
      match rfind c l' with
      | Some i => Some (S i)
      | None => if x =? c then Some 0%nat else None
      end
  end.

(** [core::str::from_utf8] accepts exactly the well-formed byte sequences. *)
Definition cont (b : Z) : bool := (128 <=? b) && (b <=? 191).
Definition within (lo hi b : Z) : bool := (lo <=? b) && (b <=? hi).
Fixpoint utf8_valid (l : str) : bool :=
  match l with
  | [] => true
  | b0 :: l1 =>
      if b0 <? 128 then utf8_valid l1
      else
      match l1 with
      | [] => false
      | b1 :: l2 =>
          if within 194 223 b0 then cont b1 && utf8_valid l2
          else
          match l2 with
          | [] => false
          | b2 :: l3 =>
              if within 224 239 b0 then
                (if b0 =? 224 then within 160 191 b1 else if b0 =? 237 then within 128 159 b1 else cont b1)
                && cont b2 && utf8_valid l3
              else
              match l3 with
              | [] => false
              | b3 :: l4 =>
                  within 240 244 b0 &&
                  (if b0 =? 240 then within 144 191 b1 else if b0 =? 244 then within 128 143 b1 else cont b1)
                  && cont b2 && cont b3 && utf8_valid l4
              end
          end
      end
  end.

(** ASCII bytes are a string. *)
Definition ascii (b : Z) : Prop := 0 <= b < 128.

Lemma ascii_utf8 (l : str) : Forall ascii l -> utf8_valid l = true.
Proof.
  induction 1 as [|b l Hb Hl IH]; simpl; [done|].
  rewrite (proj2 (Z.ltb_lt b 128)); [done|]. unfold ascii in Hb. lia.
Qed.

(** * Characters *)

(** The length of the well-formed character at the start of [l], if there is one. *)
Definition char_len (l : str) : option nat :=
  match l with
  | [] => None
  | b0 :: l1 =>
      if b0 <? 128 then Some 1%nat
      else
      match l1 with
      | [] => None
      | b1 :: l2 =>
          if within 194 223 b0 then if cont b1 then Some 2%nat else None
          else
          match l2 with
          | [] => None
          | b2 :: l3 =>
              if within 224 239 b0 then
                if (if b0 =? 224 then within 160 191 b1 else if b0 =? 237 then within 128 159 b1 else cont b1) && cont b2
                then Some 3%nat else None
              else
              match l3 with
              | [] => None
              | b3 :: _ =>
                  if within 240 244 b0 &&
                     (if b0 =? 240 then within 144 191 b1 else if b0 =? 244 then within 128 143 b1 else cont b1)
                     && cont b2 && cont b3
                  then Some 4%nat else None
              end
          end
      end
  end.

(** [Utf8Error::valid_up_to]: the length of the longest prefix of whole characters. *)
Fixpoint up_to (fuel : nat) (l : str) : nat :=
  match fuel with
  | O => 0
  | S n => match char_len l with Some k => k + up_to n (drop k l) | None => 0 end
  end.
Definition valid_up_to (l : str) : nat := up_to (length l) l.

Lemma utf8_valid_char (l : str) :
  utf8_valid l = match l with [] => true | _ => match char_len l with Some k => utf8_valid (drop k l) | None => false end end.
Proof.
  destruct l as [|b0 [|b1 [|b2 [|b3 l]]]]; simpl; [done|..]; destruct (b0 <? 128); simpl; try done;
    destruct (within 194 223 b0); simpl; try (by destruct (cont b1)); try done;
    destruct (within 224 239 b0); simpl; try done.
  - by destruct (_ && cont b2).
  - by destruct (_ && cont b2).
  - by destruct (_ && cont b2 && cont b3).
Qed.

Lemma char_len_bounds (l : str) (k : nat) : char_len l = Some k -> (1 <= k <= 4)%nat /\ (k <= length l)%nat.
Proof.
  destruct l as [|b0 [|b1 [|b2 [|b3 l]]]]; cbn [char_len]; repeat case_match; intros; simplify_eq; simpl; lia.
Qed.

(** A character is recognised from its own bytes: a shorter prefix is not one. *)
Lemma char_len_take (l : str) (k n : nat) :
  char_len l = Some k -> char_len (take n l) = if (k <=? n)%nat then Some k else None.
Proof.
  destruct l as [|b0 [|b1 [|b2 [|b3 l]]]]; cbn [char_len]; [done|..];
    destruct n as [|[|[|[|n]]]]; cbn [take char_len]; repeat case_match; intros; simplify_eq; done.
Qed.

Lemma up_to_fuel (n m : nat) (l : str) : (length l <= n)%nat -> (length l <= m)%nat -> up_to n l = up_to m l.
Proof.
  revert m l. induction n as [|n IH]; intros [|m] l Hn Hm; try done.
  - destruct l; [done|simpl in Hn; lia].
  - destruct l; [done|simpl in Hm; lia].
  - cbn [up_to]. destruct (char_len l) as [k|] eqn:E; [|done]. f_equal.
    pose proof (char_len_bounds l k E). apply IH; rewrite length_drop; lia.
Qed.

Lemma valid_up_to_char (l : str) (k : nat) :
  char_len l = Some k -> valid_up_to l = (k + valid_up_to (drop k l))%nat.
Proof.
  intros E. pose proof (char_len_bounds l k E). unfold valid_up_to. destruct l as [|b l]; [done|].
  cbn [length up_to]. rewrite E. f_equal. apply up_to_fuel; rewrite length_drop; simpl in *; lia.
Qed.

Lemma valid_up_to_none (l : str) : char_len l = None -> valid_up_to l = 0%nat.
Proof. intros E. unfold valid_up_to. destruct l; [done|]. cbn [length up_to]. by rewrite E. Qed.

(** Cutting a string at [n] bytes: the whole characters before the cut and what
    follows them are strings again, and at most three bytes are left over. *)
Lemma valid_up_to_take (l : str) (n : nat) :
  utf8_valid l = true ->
  let v := valid_up_to (take n l) in
  (v <= n)%nat /\ (v <= length l)%nat /\ utf8_valid (take v l) = true /\ utf8_valid (drop v l) = true /\
  ((4 <= n)%nat -> l <> [] -> (0 < v)%nat).
Proof.
  remember (length l) as len eqn:Hlen. revert l n Hlen. induction len as [len IH] using lt_wf_ind. intros l n -> Hv. cbv zeta.
  destruct l as [|b l']; [rewrite take_nil; cbn; split_and!; [lia|lia|done|done|done]|]. set (l := b :: l') in *.
  rewrite utf8_valid_char in Hv. cbn [l] in Hv. fold l in Hv.
  destruct (char_len l) as [k|] eqn:E; [|done]. pose proof (char_len_bounds l k E) as [Hk1 Hk2].
  pose proof (char_len_take l k n E) as Ht. destruct (Nat.leb_spec k n).
  - rewrite (valid_up_to_char _ _ Ht), skipn_firstn_comm.
    destruct (IH (length (drop k l)) ltac:(rewrite length_drop; lia) (drop k l) (n - k)%nat eq_refl Hv) as (H1 & H2 & H3 & H4 & _).
    set (v := valid_up_to (take (n - k) (drop k l))) in *. rewrite length_drop in H2. split_and!; [lia|lia| | |lia].
    + rewrite <- take_take_drop. assert (take k l ++ take v (drop k l) <> []) as Hne by (cbn [l]; destruct k; [lia|done]).
      rewrite utf8_valid_char. destruct (take k l ++ take v (drop k l)) eqn:El; [done|]. rewrite <- El. clear Hne El.
      rewrite take_take_drop. rewrite (char_len_take l k (k + v) E), (proj2 (Nat.leb_le k (k + v))) by lia.
      rewrite skipn_firstn_comm. replace (k + v - k)%nat with v by lia. done.
    + by rewrite <- drop_drop.
  - rewrite (valid_up_to_none _ Ht). split_and!; [lia|lia|done| |lia].
    rewrite drop_0, utf8_valid_char. cbn [l]. fold l. by rewrite E.
Qed.

Lemma valid_up_to_valid (l : str) : utf8_valid l = true -> valid_up_to l = length l.
Proof.
  remember (length l) as len eqn:Hlen. revert l Hlen. induction len as [len IH] using lt_wf_ind. intros l -> Hv.
  destruct l as [|b l']; [done|]. set (l := b :: l') in *. rewrite utf8_valid_char in Hv. cbn [l] in Hv. fold l in Hv.
  destruct (char_len l) as [k|] eqn:E; [|done]. pose proof (char_len_bounds l k E) as [Hk1 Hk2].
  rewrite (valid_up_to_char _ _ E), (IH (length (drop k l))) by (done || rewrite length_drop; lia). rewrite length_drop. lia.
Qed.

(** * Lines and white space *)

(** The length of the white-space character at the start, if there is one: the
    Unicode property [White_Space] in UTF-8. *)
Definition ws_len (l : str) : option nat :=
  match l with
  | b :: l1 =>
      if within 9 13 b || (b =? 32) then Some 1%nat
      else
        match l1 with
        | c :: l2 =>
            if (b =? 194) && ((c =? 133) || (c =? 160)) then Some 2%nat
            else
              match l2 with
              | d :: _ =>
                  if ((b =? 225) && (c =? 154) && (d =? 128)) ||
                     ((b =? 226) && (c =? 128) && (within 128 138 d || within 168 169 d || (d =? 175))) ||
                     ((b =? 226) && (c =? 129) && (d =? 159)) ||
                     ((b =? 227) && (c =? 128) && (d =? 128)) then Some 3%nat
                  else None
              | [] => None
              end
        | [] => None
        end
  | [] => None
  end.

(** [str::trim]: white space is dropped from the front, then from the back. *)
Fixpoint trim_start (fuel : nat) (l : str) : str :=
  match fuel with
  | O => l
  | S n => match ws_len l with Some k => trim_start n (drop k l) | None => l end
  end.
Fixpoint trim_end (l : str) : str :=
  match l with
  | [] => []
  | b :: l' => if bool_decide (trim_start (length l) l = []) then [] else b :: trim_end l'
  end.
Definition trim (l : str) : str := trim_end (trim_start (length l) l).

(** [str::lines]: pieces between line feeds, without the carriage return before one;
    a final line feed ends the last line. *)
Definition strip_cr (l : str) : str :=
  match last l with Some 13 => take (length l - 1) l | _ => l end.
Fixpoint lines_from (cur l : str) : list str :=
  match l with
  | [] => if bool_decide (cur = []) then [] else [cur]
  | b :: l' => if b =? 10 then strip_cr cur :: lines_from [] l' else lines_from (cur ++ [b]) l'
  end.
Definition lines (l : str) : list str := lines_from [] l.

End Str.
