(* ===== verification/Pmm.v ===== *)
(** Physical memory manager: [crates/kernel/src/memory/pmm.rs].

    The bitmap is the list of bytes behind the [bitmap] pointer, bit [i mod 8]
    of byte [i / 8] set when frame [i] is in use.  The static [PMM] is an
    [option Pmm]; each operation is the body of its critical section
    under the manager's own lock.  Frame indices are bounded by the bitmap
    itself, so they never wrap; sums of firmware-supplied addresses do, and
    are written with [wrap64]. *)
From stdpp Require Import base list numbers option gmap.
From S2P Require Import Prelude.

Open Scope Z_scope.

Module Pmm.

Definition FRAME_SIZE : Z := 4096.
Definition TY_CONVENTIONAL : Z := 7.

Record MemoryMapEntry := mkEntry { phys_start : Z; page_count : Z; ty : Z }.

Record Pmm := mkPmm {
  bitmap : list Z;
  total_frames : Z;
  usable_frames : Z;
  next_frame : Z
}.

Record PmmStats := mkStats {
  st_total_frames : Z;
  st_used_frames : Z;
  st_free_frames : Z
}.

Definition total_kib (s : PmmStats) : Z := st_total_frames s * 4.
Definition used_kib (s : PmmStats) : Z := st_used_frames s * 4.
Definition free_kib (s : PmmStats) : Z := st_free_frames s * 4.

(** ** Bits *)

Definition byte_at (bm : list Z) (index : Z) : Z :=
  default 0 (bm !! Z.to_nat (index / 8)).

Definition get_bit (bm : list Z) (index : Z) : bool :=
  negb (Z.land (Z.shiftr (byte_at bm index) (index mod 8)) 1 =? 0).

Definition set_bit (bm : list Z) (index : Z) (value : bool) : list Z :=
  let bit := index mod 8 in
  let byte := byte_at bm index in
  if value
  then <[Z.to_nat (index / 8) := Z.lor byte (Z.shiftl 1 bit)]> bm
  else <[Z.to_nat (index / 8) := Z.land byte (Z.lnot (Z.shiftl 1 bit))]> bm.

#[global] Arguments get_bit : simpl never.
#[global] Arguments set_bit : simpl never.

(** ** Regions and boot *)

(** The [for frame in start_frame..end_frame] loop of [mark_region]. *)
Fixpoint mark_loop (n : nat) (frame : Z) (used : bool) (bm : list Z) (changed : Z)
  : list Z * Z :=
  match n with
  | O => (bm, changed)
  | S n' =>
      let changed' := if Bool.eqb (get_bit bm frame) used then changed else changed + 1 in
      mark_loop n' (frame + 1) used (set_bit bm frame used) changed'
  end.

Definition mark_region (bm : list Z) (total start size : Z) (used : bool) : list Z * Z :=
  let start_frame := start / FRAME_SIZE in
  let end_frame := div_ceil (wrap64 (start + size)) FRAME_SIZE in
  let end_frame := Z.min end_frame total in
  mark_loop (Z.to_nat (end_frame - start_frame)) start_frame used bm 0.

Fixpoint mark_conventional (total : Z) (map : list MemoryMapEntry) (bm : list Z) (usable : Z)
  : list Z * Z :=
  match map with
  | [] => (bm, usable)
  | entry :: map' =>
      if ty entry =? TY_CONVENTIONAL then
        let '(bm', changed) :=
          mark_region bm total (phys_start entry) (wrap64 (page_count entry * FRAME_SIZE)) false in
        mark_conventional total map' bm' (usable + changed)
      else mark_conventional total map' bm usable
  end.

(** [bitmap_phys] is the address of the bitmap, which also names its frames. *)
Definition init (bitmap_phys bitmap_size : Z) (memory_map : list MemoryMapEntry) : Pmm :=
  let bm0 := replicate (Z.to_nat bitmap_size) 255 in
  let total := bitmap_size * 8 in
  let '(bm1, usable) := mark_conventional total memory_map bm0 0 in
  let bitmap_pages := div_ceil bitmap_size FRAME_SIZE in
  let '(bm2, _) := mark_region bm1 total bitmap_phys (bitmap_pages * FRAME_SIZE) true in
  mkPmm bm2 total usable 0.

(** ** Allocation *)

(** [for i in 0..n { let frame = f(i); if !get_bit(frame) { found; break } }]. *)
Fixpoint scan (f : Z -> Z) (n : nat) (i : Z) (bm : list Z) : option Z :=
  match n with
  | O => None
  | S n' => if get_bit bm (f i) then scan f n' (i + 1) bm else Some (f i)
  end.

Definition with_bitmap (p : Pmm) (bm : list Z) : Pmm :=
  mkPmm bm (total_frames p) (usable_frames p) (next_frame p).
Definition with_next (p : Pmm) (n : Z) : Pmm :=
  mkPmm (bitmap p) (total_frames p) (usable_frames p) n.

Definition alloc_frame_below (limit : Z) (s : option Pmm) : option Z * option Pmm :=
  match s with
  | None => (None, None)
  | Some pmm =>
      let limit_frame := limit / FRAME_SIZE in
      match scan id (Z.to_nat (Z.min limit_frame (total_frames pmm))) 0 (bitmap pmm) with
      | None => (None, Some pmm)
      | Some frame =>
          (Some (frame * FRAME_SIZE), Some (with_bitmap pmm (set_bit (bitmap pmm) frame true)))
      end
  end.

Definition alloc_frame (s : option Pmm) : option Z * option Pmm :=
  match s with
  | None => (None, None)
  | Some pmm =>
      let start := next_frame pmm in
      match scan (fun i => (start + i) mod total_frames pmm)
                 (Z.to_nat (total_frames pmm)) 0 (bitmap pmm) with
      | None => (None, Some pmm)
      | Some frame =>
          (Some (frame * FRAME_SIZE),
           Some (with_next (with_bitmap pmm (set_bit (bitmap pmm) frame true))
                           ((frame + 1) mod total_frames pmm)))
      end
  end.

Definition free_frame_nolock (addr : Z) (s : option Pmm) : option Pmm :=
  match s with
  | None => None
  | Some pmm =>
      let frame := addr / FRAME_SIZE in
      if frame <? total_frames pmm
      then Some (with_bitmap pmm (set_bit (bitmap pmm) frame false))
      else Some pmm
  end.

Definition free_frame (addr : Z) (s : option Pmm) : option Pmm := free_frame_nolock addr s.

(** The inner [for i in 0..count] test of [alloc_frames]. *)
Fixpoint run_free (n : nat) (frame : Z) (bm : list Z) : bool :=
  match n with
  | O => true
  | S n' => if get_bit bm frame then false else run_free n' (frame + 1) bm
  end.

Fixpoint set_run (n : nat) (frame : Z) (bm : list Z) : list Z :=
  match n with
  | O => bm
  | S n' => set_run n' (frame + 1) (set_bit bm frame true)
  end.

(** The ['outer] loop of [alloc_frames]. *)
Fixpoint find_run (n : nat) (start : Z) (count : nat) (bm : list Z) : option Z :=
  match n with
  | O => None
  | S n' => if run_free count start bm then Some start else find_run n' (start + 1) count bm
  end.

Definition alloc_frames (count : Z) (s : option Pmm) : option Z * option Pmm :=
  match s with
  | None => (None, None)
  | Some pmm =>
      match find_run (Z.to_nat (saturating_sub (total_frames pmm) count)) 0
                     (Z.to_nat count) (bitmap pmm) with
      | None => (None, Some pmm)
      | Some start =>
          (Some (start * FRAME_SIZE),
           Some (with_next (with_bitmap pmm (set_run (Z.to_nat count) start (bitmap pmm)))
                           ((start + count) mod total_frames pmm)))
      end
  end.

Fixpoint free_loop (n : nat) (i addr : Z) (s : option Pmm) : option Pmm :=
  match n with
  | O => s
  | S n' => free_loop n' (i + 1) addr (free_frame_nolock (wrap64 (addr + i * FRAME_SIZE)) s)
  end.

Definition free_frames (addr count : Z) (s : option Pmm) : option Pmm :=
  free_loop (Z.to_nat count) 0 addr s.

(** [None] is the panic of [unwrap] before [init]. *)
Definition mark_used (start size : Z) (s : option Pmm) : option Pmm :=
  pmm ← s;
  Some (with_bitmap pmm (mark_region (bitmap pmm) (total_frames pmm) start size true).1).

Fixpoint count_free (n : nat) (frame : Z) (bm : list Z) : Z :=
  match n with
  | O => 0
  | S n' => (if get_bit bm frame then 0 else 1) + count_free n' (frame + 1) bm
  end.

Definition stats (s : option Pmm) : option PmmStats :=
  pmm ← s;
  let free_frames := count_free (Z.to_nat (total_frames pmm)) 0 (bitmap pmm) in
  let total := usable_frames pmm in
  Some (mkStats total (saturating_sub total free_frames) free_frames).

(** * Bit-level facts *)

Definition byte_ok (b : Z) : Prop := 0 <= b < 256.
Definition in_bitmap (bm : list Z) (i : Z) : Prop := 0 <= i < 8 * Z.of_nat (length bm).

Lemma get_bit_testbit (bm : list Z) (i : Z) :
  get_bit bm i = Z.testbit (byte_at bm i) (i mod 8).
Proof.
  unfold get_bit. set (b := byte_at bm i). pose proof (Z.mod_pos_bound i 8 ltac:(lia)).
  change 1 with (Z.ones 1). rewrite Z.land_ones by lia. change (2 ^ 1) with 2.
  rewrite <- Z.bit0_mod, Z.shiftr_spec, Z.add_0_l by lia.
  by destruct (Z.testbit b (i mod 8)).
Qed.

Lemma length_set_bit (bm : list Z) (i : Z) (v : bool) : length (set_bit bm i v) = length bm.
Proof. unfold set_bit. destruct v; apply length_insert. Qed.

Lemma byte_at_set_bit (bm : list Z) (i j : Z) (v : bool) :
  in_bitmap bm i -> 0 <= j ->
  byte_at (set_bit bm i v) j =
  if j / 8 =? i / 8
  then (if v then Z.lor (byte_at bm i) (Z.shiftl 1 (i mod 8))
        else Z.land (byte_at bm i) (Z.lnot (Z.shiftl 1 (i mod 8))))
  else byte_at bm j.
Proof.
  intros [Hi Hb] Hj. unfold byte_at at 1, set_bit.
  assert (0 <= i / 8 < Z.of_nat (length bm)).
  { split; [apply Z.div_pos; lia|]. apply Z.div_lt_upper_bound; lia. }
  pose proof (Z.div_pos j 8 Hj ltac:(lia)).
  destruct (j / 8 =? i / 8) eqn:E; zbool.
  - rewrite E. destruct v; rewrite list_lookup_insert_eq by lia; done.
  - destruct v; rewrite list_lookup_insert_ne by lia; done.
Qed.

Lemma testbit_1_shiftl (n m : Z) : 0 <= n -> 0 <= m -> Z.testbit (Z.shiftl 1 n) m = (m =? n).
Proof.
  intros. rewrite Z.shiftl_1_l. destruct (m =? n) eqn:E; zbool.
  - subst. by apply Z.pow2_bits_true.
  - apply Z.pow2_bits_false. lia.
Qed.

Lemma get_set_bit (bm : list Z) (i j : Z) (v : bool) :
  in_bitmap bm i -> 0 <= j ->
  get_bit (set_bit bm i v) j = if j =? i then v else get_bit bm j.
Proof.
  intros Hi Hj. rewrite !get_bit_testbit, byte_at_set_bit by done.
  pose proof (Z.mod_pos_bound i 8 ltac:(lia)). pose proof (Z.mod_pos_bound j 8 ltac:(lia)).
  pose proof (Z.div_mod i 8 ltac:(lia)). pose proof (Z.div_mod j 8 ltac:(lia)).
  destruct (j / 8 =? i / 8) eqn:E; zbool.
  - assert (byte_at bm i = byte_at bm j) as -> by (unfold byte_at; by rewrite E).
    assert ((j =? i) = (j mod 8 =? i mod 8)) as ->.
    { destruct (j =? i) eqn:E1, (j mod 8 =? i mod 8) eqn:E2; zbool; lia. }
    destruct v; rewrite ?Z.lor_spec, ?Z.land_spec, ?Z.lnot_spec, testbit_1_shiftl by lia;
      destruct (j mod 8 =? i mod 8), (Z.testbit (byte_at bm j) (j mod 8)); done.
  - destruct (j =? i) eqn:E1; zbool; [subst; lia|done].
Qed.

Lemma byte_ok_testbit (b : Z) :
  0 <= b -> byte_ok b <-> (forall n, 8 <= n -> Z.testbit b n = false).
Proof.
  intros Hb. unfold byte_ok. split.
  - intros [_ H] n Hn. destruct (decide (b = 0)) as [->|]; [apply Z.bits_0|].
    apply Z.bits_above_log2; [done|].
    assert (Z.log2 b < 8) by (apply Z.log2_lt_pow2; lia). lia.
  - intros H. split; [done|]. destruct (decide (b < 256)); [done|].
    assert (8 <= Z.log2 b) by (apply Z.log2_le_pow2; lia).
    pose proof (H (Z.log2 b) ltac:(lia)) as Hf. rewrite Z.bit_log2 in Hf by lia. done.
Qed.

Lemma set_bit_bytes (bm : list Z) (i : Z) (v : bool) :
  Forall byte_ok bm -> Forall byte_ok (set_bit bm i v).
Proof.
  intros Hall. pose proof (Z.mod_pos_bound i 8 ltac:(lia)).
  assert (byte_ok (byte_at bm i)) as Hb.
  { unfold byte_at. destruct (bm !! _) eqn:E; simpl; [|unfold byte_ok; lia].
    by eapply (Forall_lookup_1 byte_ok). }
  unfold set_bit. assert (0 <= Z.shiftl 1 (i mod 8)) by (apply Z.shiftl_nonneg; lia).
  destruct Hb as [Hb0 Hb1]. pose proof (proj1 (byte_ok_testbit _ Hb0) (conj Hb0 Hb1)) as Hbits.
  destruct v; apply Forall_insert; try done.
  - apply byte_ok_testbit; [apply Z.lor_nonneg; lia|]. intros n Hn.
    rewrite Z.lor_spec, Hbits, testbit_1_shiftl by lia. simpl. lia.
  - apply byte_ok_testbit; [apply Z.land_nonneg; lia|]. intros n Hn.
    by rewrite Z.land_spec, Hbits by lia.
Qed.

(** * Invariant and loop lemmas *)

Record wf (p : Pmm) : Prop := {
  wf_len : total_frames p = 8 * Z.of_nat (length (bitmap p));
  wf_bytes : Forall byte_ok (bitmap p);
  wf_next : 0 <= next_frame p;
}.

Definition used (p : Pmm) (f : Z) : bool := get_bit (bitmap p) f.
Definition frame_ok (p : Pmm) (f : Z) : Prop := 0 <= f < total_frames p.

Lemma frame_ok_in (p : Pmm) (f : Z) : wf p -> frame_ok p f -> in_bitmap (bitmap p) f.
Proof. intros [Hl _ _]. unfold frame_ok, in_bitmap. lia. Qed.

Lemma wf_set_bit (p : Pmm) (f : Z) (v : bool) :
  wf p -> wf (with_bitmap p (set_bit (bitmap p) f v)).
Proof.
  intros [Hl Hb Hn]. split; simpl; [by rewrite length_set_bit|by apply set_bit_bytes|done].
Qed.

Lemma wf_with_next (p : Pmm) (n : Z) : wf p -> 0 <= n -> wf (with_next p n).
Proof. intros [???] ?. by split. Qed.

#[export] Hint Resolve wf_set_bit wf_with_next frame_ok_in : kazu.

Lemma used_set_bit (p : Pmm) (f g : Z) (v : bool) :
  wf p -> frame_ok p f -> 0 <= g ->
  used (with_bitmap p (set_bit (bitmap p) f v)) g = if g =? f then v else used p g.
Proof. intros. unfold used. simpl. rewrite get_set_bit; eauto with kazu. Qed.

Lemma scan_Some (f : Z -> Z) (n : nat) (i : Z) (bm : list Z) (r : Z) :
  scan f n i bm = Some r ->
  exists k, i <= k < i + Z.of_nat n /\ r = f k /\ get_bit bm r = false /\
            forall j, i <= j < k -> get_bit bm (f j) = true.
Proof.
  revert i. induction n as [|n IH]; intros i; simpl; [done|].
  destruct (get_bit bm (f i)) eqn:E.
  - intros (k & Hk & -> & Hf & Hall)%IH. exists k. split_and!; [lia..|done|done|].
    intros j Hj. destruct (decide (j = i)) as [->|]; [done|]. apply Hall. lia.
  - intros [= <-]. exists i. split_and!; [lia..|done|done|]. intros j Hj. lia.
Qed.

Lemma scan_None (f : Z -> Z) (n : nat) (i : Z) (bm : list Z) :
  scan f n i bm = None -> forall k, i <= k < i + Z.of_nat n -> get_bit bm (f k) = true.
Proof.
  revert i. induction n as [|n IH]; intros i; simpl; [lia|].
  destruct (get_bit bm (f i)) eqn:E; [|done].
  intros H k Hk. destruct (decide (k = i)) as [->|]; [done|]. apply (IH _ H). lia.
Qed.

Lemma run_free_spec (n : nat) (s : Z) (bm : list Z) :
  run_free n s bm = true <-> forall f, s <= f < s + Z.of_nat n -> get_bit bm f = false.
Proof.
  revert s. induction n as [|n IH]; intros s; simpl; [split; [lia|done]|].
  destruct (get_bit bm s) eqn:E.
  - split; [done|]. intros H. rewrite H in E by lia. done.
  - rewrite IH. split; intros H f Hf.
    + destruct (decide (f = s)) as [->|]; [done|]. apply H. lia.
    + apply H. lia.
Qed.

Lemma find_run_Some (n : nat) (s : Z) (c : nat) (bm : list Z) (r : Z) :
  find_run n s c bm = Some r ->
  s <= r < s + Z.of_nat n /\ run_free c r bm = true /\
  forall j, s <= j < r -> run_free c j bm = false.
Proof.
  revert s. induction n as [|n IH]; intros s; simpl; [done|].
  destruct (run_free c s bm) eqn:E.
  - intros [= <-]. split_and!; [lia..|done|]. intros; lia.
  - intros (Hr & Hf & Hall)%IH. split_and!; [lia..|done|].
    intros j Hj. destruct (decide (j = s)) as [->|]; [done|]. apply Hall. lia.
Qed.

Lemma find_run_None (n : nat) (s : Z) (c : nat) (bm : list Z) :
  find_run n s c bm = None -> forall j, s <= j < s + Z.of_nat n -> run_free c j bm = false.
Proof.
  revert s. induction n as [|n IH]; intros s; simpl; [lia|].
  destruct (run_free c s bm) eqn:E; [done|].
  intros H j Hj. destruct (decide (j = s)) as [->|]; [done|]. apply (IH _ H). lia.
Qed.

Lemma length_set_run (n : nat) (s : Z) (bm : list Z) : length (set_run n s bm) = length bm.
Proof.
  revert s bm. induction n as [|n IH]; intros; simpl; [done|]. by rewrite IH, length_set_bit.
Qed.

Lemma set_run_bytes (n : nat) (s : Z) (bm : list Z) :
  Forall byte_ok bm -> Forall byte_ok (set_run n s bm).
Proof.
  revert s bm. induction n as [|n IH]; intros; simpl; [done|]. by apply IH, set_bit_bytes.
Qed.

Lemma get_set_run (n : nat) (s : Z) (bm : list Z) (j : Z) :
  0 <= s -> s + Z.of_nat n <= 8 * Z.of_nat (length bm) -> 0 <= j ->
  get_bit (set_run n s bm) j = ((s <=? j) && (j <? s + Z.of_nat n)) || get_bit bm j.
Proof.
  revert s bm. induction n as [|n IH]; intros s bm Hs Hn Hj; simpl.
  { replace (s + Z.of_nat 0) with s by lia. destruct (s <=? j) eqn:?, (j <? s) eqn:?; zbool; lia || done. }
  rewrite IH by (rewrite ?length_set_bit; lia).
  rewrite get_set_bit by (unfold in_bitmap; lia).
  destruct (s + 1 <=? j) eqn:?, (j <? s + 1 + Z.of_nat n) eqn:?, (s <=? j) eqn:?,
    (j <? s + Z.of_nat (S n)) eqn:?, (j =? s) eqn:?; zbool; simpl; try lia; done.
Qed.

Lemma get_mark_loop (n : nat) (s : Z) (v : bool) (bm : list Z) (c j : Z) :
  0 <= s -> s + Z.of_nat n <= 8 * Z.of_nat (length bm) -> 0 <= j ->
  get_bit (mark_loop n s v bm c).1 j =
  if (s <=? j) && (j <? s + Z.of_nat n) then v else get_bit bm j.
Proof.
  revert s bm c. induction n as [|n IH]; intros s bm c Hs Hn Hj; simpl.
  { replace (s + Z.of_nat 0) with s by lia. destruct (s <=? j) eqn:?, (j <? s) eqn:?; zbool; lia || done. }
  rewrite IH by (rewrite ?length_set_bit; lia).
  rewrite get_set_bit by (unfold in_bitmap; lia).
  destruct (s + 1 <=? j) eqn:?, (j <? s + 1 + Z.of_nat n) eqn:?, (s <=? j) eqn:?,
    (j <? s + Z.of_nat (S n)) eqn:?, (j =? s) eqn:?; zbool; simpl; try lia; done.
Qed.

Lemma length_mark_loop (n : nat) (s : Z) (v : bool) (bm : list Z) (c : Z) :
  length (mark_loop n s v bm c).1 = length bm.
Proof.
  revert s bm c. induction n as [|n IH]; intros; simpl; [done|]. by rewrite IH, length_set_bit.
Qed.

Lemma mark_loop_bytes (n : nat) (s : Z) (v : bool) (bm : list Z) (c : Z) :
  Forall byte_ok bm -> Forall byte_ok (mark_loop n s v bm c).1.
Proof.
  revert s bm c. induction n as [|n IH]; intros; simpl; [done|]. by apply IH, set_bit_bytes.
Qed.

(** * Functional behaviour *)

Lemma rotate_surj (total s f : Z) :
  0 <= s -> 0 <= f < total -> exists i, 0 <= i < total /\ (s + i) mod total = f.
Proof.
  intros Hs Hf. exists ((f - s) mod total). split; [apply Z.mod_pos_bound; lia|].
  rewrite Z.add_mod_idemp_r by lia. replace (s + (f - s)) with f by lia.
  by apply Z.mod_small.
Qed.

(** What a one-frame allocation that picks frame [f] does to the state. *)
Definition takes_frame (p p' : Pmm) (f : Z) : Prop :=
  frame_ok p f /\ used p f = false /\ wf p' /\ total_frames p' = total_frames p /\
  usable_frames p' = usable_frames p /\
  forall g, frame_ok p g -> used p' g = (g =? f) || used p g.

Lemma takes_set_bit (p : Pmm) (f n : Z) :
  wf p -> frame_ok p f -> used p f = false -> 0 <= n ->
  takes_frame p (with_next (with_bitmap p (set_bit (bitmap p) f true)) n) f.
Proof.
  intros Hwf Hf Hu Hn. unfold takes_frame. split_and!; eauto with kazu.
  intros g [Hg0 Hg1]. unfold used at 1. simpl. fold (used (with_bitmap p (set_bit (bitmap p) f true)) g).
  rewrite get_set_bit by eauto with kazu. by destruct (g =? f).
Qed.

(** Postcondition of [alloc_frame] from state [p]. *)
Definition alloc_frame_post (p : Pmm) (r : option Z * option Pmm) : Prop :=
  match r with
  | (Some addr, Some p') =>
      exists k, let f := (next_frame p + k) mod total_frames p in
        addr = f * FRAME_SIZE /\ takes_frame p p' f /\
        next_frame p' = (f + 1) mod total_frames p /\ 0 <= k /\
        forall j, 0 <= j < k -> used p ((next_frame p + j) mod total_frames p) = true
  | (None, s') => s' = Some p /\ forall f, frame_ok p f -> used p f = true
  | (Some _, None) => False
  end.

(** Postcondition of [alloc_frames count] from state [p]. *)
Definition alloc_frames_post (p : Pmm) (count : Z) (r : option Z * option Pmm) : Prop :=
  match r with
  | (Some addr, Some p') =>
      exists s, addr = s * FRAME_SIZE /\ 0 <= s /\ s + count < total_frames p /\ wf p' /\
        (forall f, s <= f < s + count -> used p f = false) /\
        (forall f, frame_ok p f ->
           used p' f = ((s <=? f) && (f <? s + count)) || used p f) /\
        (forall j, 0 <= j < s -> exists f, j <= f < j + count /\ used p f = true)
  | (None, s') =>
      s' = Some p /\
      forall j, 0 <= j -> j + count < total_frames p ->
        exists f, j <= f < j + count /\ used p f = true
  | (Some _, None) => False
  end.

Lemma alloc_frame_meets (p : Pmm) :
  wf p -> alloc_frame_post p (alloc_frame (Some p)).
Proof.
  intros Hwf. unfold alloc_frame. pose proof Hwf as [Hl _ Hn].
  destruct (scan _ _ _ _) as [f|] eqn:E.
  - apply scan_Some in E as (k & Hk & -> & Hfree & Hall).
    assert (0 < total_frames p) by lia. exists k. cbv zeta.
    pose proof (Z.mod_pos_bound (next_frame p + k) (total_frames p) ltac:(lia)).
    split_and!; [done| |done|lia|].
    + apply takes_set_bit; try done. apply Z.mod_pos_bound. lia.
    + intros j Hj. apply (Hall j). lia.
  - split; [done|]. intros f [Hf0 Hf1].
    destruct (rotate_surj (total_frames p) (next_frame p) f) as (i & Hi & <-); [lia..|].
    apply (scan_None _ _ _ _ E). lia.
Qed.

(** [alloc_frame] is next-fit and complete.  On success it returns the address of a
    frame that was free, the first free one in cyclic order from [next_frame], marks
    exactly that frame used and moves [next_frame] past it; it fails only when every
    frame is in use, and then changes nothing. *)
Theorem alloc_frame_spec (p : Pmm) :
  wf p -> alloc_frame_post p (alloc_frame (Some p)).
Proof. apply alloc_frame_meets. Qed.

Lemma alloc_frames_meets (p : Pmm) (count : Z) :
  wf p -> 0 <= count -> alloc_frames_post p count (alloc_frames count (Some p)).
Proof.
  intros Hwf Hc. pose proof Hwf as [Hl Hb Hn].
  assert (forall j, run_free (Z.to_nat count) j (bitmap p) = false ->
            exists f, j <= f < j + count /\ used p f = true) as Hocc.
  { intros j. generalize (Z2Nat.id count Hc). revert j.
    generalize (Z.to_nat count) as n. intros n. revert count Hc.
    induction n as [|n IH]; intros count Hc j Hn'; simpl; [done|].
    destruct (get_bit (bitmap p) j) eqn:E; [intros _; exists j; split; [lia|done]|].
    intros H. destruct (IH (count - 1) ltac:(lia) (j + 1) ltac:(lia) H) as (f & Hf & Hu).
    exists f. split; [lia|done]. }
  unfold alloc_frames, saturating_sub.
  destruct (find_run _ _ _ _) as [s|] eqn:E.
  - apply find_run_Some in E as (Hs & Hfree & Hmin). rewrite run_free_spec in Hfree.
    exists s. split_and!; [done|lia..| | | |].
    + split; simpl; [by rewrite length_set_run|by apply set_run_bytes|].
      apply Z.mod_pos_bound. lia.
    + intros f Hf. apply Hfree. lia.
    + intros f [Hf0 Hf1]. unfold used. simpl. rewrite get_set_run by lia.
      by rewrite Z2Nat.id.
    + intros j Hj. apply Hocc, Hmin. lia.
  - split; [done|]. intros j Hj0 Hj1. apply Hocc, (find_run_None _ _ _ _ E). lia.
Qed.

(** [alloc_frames] is first-fit over runs of [count] frames.  On success it returns
    the lowest start of a free run, marks exactly that run used and leaves every other
    frame alone; on failure nothing changes and every start below [total - count] has a
    used frame in its run. *)
Theorem alloc_frames_spec (p : Pmm) (count : Z) :
  wf p -> 0 <= count -> alloc_frames_post p count (alloc_frames count (Some p)).
Proof. apply alloc_frames_meets. Qed.

(** The run that ends at the last frame is never handed out: the search range
    [0..total - count] excludes its own last start, so a request that fits only there
    is refused although every frame of it is free. *)
Theorem alloc_frames_misses_last_run (p : Pmm) (count : Z) :
  wf p -> 0 < count <= total_frames p ->
  (forall f, 0 <= f < total_frames p - count -> used p f = true) ->
  (forall f, total_frames p - count <= f < total_frames p -> used p f = false) ->
  alloc_frames count (Some p) = (None, Some p).
Proof.
  intros Hwf Hc Hu Hfree. unfold alloc_frames, saturating_sub.
  destruct (find_run _ _ _ _) as [s|] eqn:E; [|done].
  apply find_run_Some in E as (Hs & Hr & _). rewrite run_free_spec in Hr.
  specialize (Hr s ltac:(lia)). pose proof (Hu s ltac:(lia)) as Hu'.
  unfold used in Hu'. congruence.
Qed.

Lemma alloc_frames_misses_last_run_witness :
  alloc_frames 8 (Some (mkPmm [0] 8 8 0)) = (None, Some (mkPmm [0] 8 8 0)).
Proof.
  apply (alloc_frames_misses_last_run (mkPmm [0] 8 8 0) 8).
  - split; simpl; [done| |lia]. repeat constructor; lia.
  - simpl. lia.
  - simpl. intros f Hf. lia.
  - simpl. intros f Hf. assert (f = 0 \/ f = 1 \/ f = 2 \/ f = 3 \/ f = 4 \/ f = 5 \/ f = 6 \/ f = 7)
      as [->|[->|[->|[->|[->|[->|[->| ->]]]]]]] by lia; reflexivity.
Defined.

Lemma alloc_frame_spec_witness :
  alloc_frame_post (mkPmm [255; 1] 16 8 3) (Some (9 * 4096), Some (mkPmm [255; 3] 16 8 10)).
Proof.
  apply (alloc_frame_spec (mkPmm [255; 1] 16 8 3)).
  split; simpl; [done| |lia]. repeat constructor; lia.
Defined.

Lemma alloc_frames_spec_witness :
  alloc_frames_post (mkPmm [1; 0] 16 8 0) 9 (Some 4096, Some (mkPmm [255; 3] 16 8 10)).
Proof.
  apply (alloc_frames_spec (mkPmm [1; 0] 16 8 0) 9); [|lia].
  split; simpl; [done| |lia]. repeat constructor; lia.
Defined.

(** * Boot: which frames start out free *)

Definition covers (e : MemoryMapEntry) (f : Z) : bool :=
  (phys_start e / FRAME_SIZE <=? f) &&
  (f <? div_ceil (phys_start e + page_count e * FRAME_SIZE) FRAME_SIZE).

Definition conventional (map : list MemoryMapEntry) (f : Z) : bool :=
  existsb (fun e => (ty e =? TY_CONVENTIONAL) && covers e f) map.

(** The firmware map describes addresses that exist. *)
Definition entry_ok (e : MemoryMapEntry) : Prop :=
  0 <= phys_start e /\ 0 <= page_count e /\
  phys_start e + page_count e * FRAME_SIZE < u64_bound.

Lemma mark_region_spec (bm : list Z) (total start size : Z) (v : bool) (f : Z) :
  total = 8 * Z.of_nat (length bm) -> 0 <= start -> 0 <= size ->
  start + size < u64_bound -> 0 <= f < total ->
  get_bit (mark_region bm total start size v).1 f =
  if (start / FRAME_SIZE <=? f) && (f <? div_ceil (start + size) FRAME_SIZE)
  then v else get_bit bm f.
Proof.
  intros Ht Hs Hz Hb Hf. unfold mark_region.
  rewrite wrap64_small by (unfold is_u64; lia).
  assert (0 <= start / FRAME_SIZE) by (apply Z.div_pos; unfold FRAME_SIZE; lia).
  set (s := start / FRAME_SIZE) in *. set (e := div_ceil (start + size) FRAME_SIZE) in *.
  destruct (decide (s <= Z.min e total)) as [Hle|Hgt].
  - rewrite get_mark_loop by lia. rewrite Z2Nat.id by lia.
    destruct (s <=? f) eqn:?, (f <? s + (Z.min e total - s)) eqn:?, (f <? e) eqn:?;
      zbool; simpl; lia || done.
  - replace (Z.to_nat (Z.min e total - s)) with 0%nat by lia. simpl.
    destruct (s <=? f) eqn:?, (f <? e) eqn:?; zbool; simpl; lia || done.
Qed.

Lemma length_mark_region (bm : list Z) (total start size : Z) (v : bool) :
  length (mark_region bm total start size v).1 = length bm.
Proof. apply length_mark_loop. Qed.

Lemma mark_conventional_spec (total : Z) (map : list MemoryMapEntry) (bm : list Z) (c f : Z) :
  total = 8 * Z.of_nat (length bm) -> Forall entry_ok map -> 0 <= f < total ->
  length (mark_conventional total map bm c).1 = length bm /\
  get_bit (mark_conventional total map bm c).1 f = negb (conventional map f) && get_bit bm f.
Proof.
  intros Ht Hmap Hf. revert bm c Ht. induction Hmap as [|e map He Hmap IH]; intros bm c Ht.
  { simpl. done. }
  simpl. destruct (ty e =? TY_CONVENTIONAL) eqn:Ety; simpl; [|by apply IH].
  destruct (mark_region _ _ _ _ _) as [bm' n] eqn:Em.
  assert (bm' = (mark_region bm total (phys_start e) (wrap64 (page_count e * FRAME_SIZE)) false).1)
    as Hbm by (by rewrite Em).
  destruct He as (H1 & H2 & H3).
  assert (0 <= page_count e * FRAME_SIZE) by (unfold FRAME_SIZE; lia).
  assert (is_u64 (page_count e * FRAME_SIZE)) by (unfold is_u64; lia).
  destruct (IH bm' (c + n)) as [IHl IHg]; [by rewrite Hbm, length_mark_region|].
  rewrite IHl, IHg, Hbm, length_mark_region. split; [done|].
  rewrite wrap64_small by done. rewrite mark_region_spec by lia.
  unfold covers. destruct (_ && (f <? _)), (conventional map f); done.
Qed.

Lemma init_byte_255 (n : nat) (f : Z) :
  0 <= f < 8 * Z.of_nat n -> get_bit (replicate n 255) f = true.
Proof.
  intros Hf. rewrite get_bit_testbit. unfold byte_at.
  assert (f / 8 < Z.of_nat n) by (apply Z.div_lt_upper_bound; lia).
  pose proof (Z.div_pos f 8 ltac:(lia) ltac:(lia)).
  rewrite lookup_replicate_2 by lia. simpl.
  pose proof (Z.mod_pos_bound f 8 ltac:(lia)). change 255 with (Z.ones 8).
  apply Z.ones_spec_low. lia.
Qed.

Lemma mark_conventional_bytes (total : Z) (map : list MemoryMapEntry) (bm : list Z) (c : Z) :
  Forall byte_ok bm -> Forall byte_ok (mark_conventional total map bm c).1.
Proof.
  revert bm c. induction map as [|e map IH]; intros bm c Hbm; simpl; [done|].
  destruct (ty e =? TY_CONVENTIONAL); [|by apply IH].
  destruct (mark_region _ _ _ _ _) as [bm' n] eqn:Em. apply IH.
  replace bm' with (mark_region bm total (phys_start e) (wrap64 (page_count e * FRAME_SIZE)) false).1
    by (by rewrite Em). by apply mark_loop_bytes.
Qed.

Lemma length_mark_conventional (total : Z) (map : list MemoryMapEntry) (bm : list Z) (c : Z) :
  length (mark_conventional total map bm c).1 = length bm.
Proof.
  revert bm c. induction map as [|e map IH]; intros bm c; simpl; [done|].
  destruct (ty e =? TY_CONVENTIONAL); [|by apply IH].
  destruct (mark_region _ _ _ _ _) as [bm' n] eqn:Em. rewrite IH.
  replace bm' with (mark_region bm total (phys_start e) (wrap64 (page_count e * FRAME_SIZE)) false).1
    by (by rewrite Em). apply length_mark_region.
Qed.

(** What the frame at [f] looks like after [init]. *)
Definition boot_used (bitmap_phys bitmap_size : Z) (map : list MemoryMapEntry) (f : Z) : bool :=
  let bitmap_end := div_ceil (bitmap_phys + div_ceil bitmap_size FRAME_SIZE * FRAME_SIZE) FRAME_SIZE in
  negb (conventional map f) || ((bitmap_phys / FRAME_SIZE <=? f) && (f <? bitmap_end)).

(** After [init] the invariant holds and a frame is free exactly when some
    conventional-memory entry of the firmware map covers it and it does not hold the
    bitmap itself. *)
Theorem init_spec (bitmap_phys bitmap_size : Z) (map : list MemoryMapEntry) :
  0 <= bitmap_phys -> 0 <= bitmap_size ->
  bitmap_phys + div_ceil bitmap_size FRAME_SIZE * FRAME_SIZE < u64_bound ->
  Forall entry_ok map ->
  let p := init bitmap_phys bitmap_size map in
  wf p /\ total_frames p = 8 * bitmap_size /\
  forall f, frame_ok p f -> used p f = boot_used bitmap_phys bitmap_size map f.
Proof.
  intros Hp Hs Hb Hmap. unfold init.
  set (bm0 := replicate (Z.to_nat bitmap_size) 255).
  assert (bitmap_size * 8 = 8 * Z.of_nat (length bm0)) as Hlen.
  { unfold bm0. rewrite length_replicate. lia. }
  assert (Forall byte_ok bm0) as Hbytes0 by (apply Forall_replicate; unfold byte_ok; lia).
  destruct (mark_conventional _ _ _ _) as [bm1 usable] eqn:E1.
  destruct (mark_region bm1 _ _ _ _) as [bm2 n] eqn:E2. simpl.
  pose proof (length_mark_conventional (bitmap_size * 8) map bm0 0) as Hl1.
  rewrite E1 in Hl1. simpl in Hl1.
  pose proof (length_mark_region bm1 (bitmap_size * 8) bitmap_phys
                (div_ceil bitmap_size FRAME_SIZE * FRAME_SIZE) true) as Hl2.
  rewrite E2 in Hl2. simpl in Hl2.
  pose proof (div_ceil_nonneg bitmap_size FRAME_SIZE Hs ltac:(done)).
  split; [split; simpl|split].
  - lia.
  - replace bm2 with (bm2, n).1 by done. rewrite <- E2. apply mark_loop_bytes.
    replace bm1 with (bm1, usable).1 by done. rewrite <- E1. by apply mark_conventional_bytes.
  - lia.
  - lia.
  - intros f Hf. unfold frame_ok in Hf. simpl in Hf. unfold used, boot_used. simpl.
    replace bm2 with (bm2, n).1 by done. rewrite <- E2.
    rewrite mark_region_spec by (unfold FRAME_SIZE in *; lia).
    destruct (mark_conventional_spec (bitmap_size * 8) map bm0 0 f) as [_ Hg]; [done..|].
    rewrite E1 in Hg. simpl in Hg.
    rewrite Hg. unfold bm0. rewrite init_byte_255 by lia.
    destruct (conventional map f), (_ && (f <? _)); done.
Qed.

Lemma init_spec_witness :
  let map := [mkEntry 0 2 7; mkEntry 8192 2 3; mkEntry 16384 4 7] in
  let p := init 4096 1 map in
  wf p /\ total_frames p = 8 * 1 /\
  forall f, frame_ok p f -> used p f = boot_used 4096 1 map f.
Proof.
  apply init_spec; [lia|lia|reflexivity|].
  repeat constructor; simpl; unfold FRAME_SIZE; rewrite ?u64_bound_val; lia.
Defined.

(** * Abstract allocator and refinement *)

(** The abstract state is the set of frames in use. *)
Definition abs (p : Pmm) : gset Z :=
  list_to_set (filter (fun f => used p f = true) (seqZ 0 (total_frames p))).

Lemma elem_of_abs (p : Pmm) (f : Z) : f ∈ abs p <-> frame_ok p f /\ used p f = true.
Proof.
  unfold abs, frame_ok. rewrite elem_of_list_to_set, list_elem_of_filter, elem_of_seqZ.
  rewrite Z.add_0_l. tauto.
Qed.

Inductive event :=
  | EAlloc (r : option Z)
  | EAllocRun (count : Z) (r : option Z)
  | EFree (addr : Z).

(** What the manager promises, over the set of used frames of an [n]-frame machine. *)
Inductive astep (n : Z) : gset Z -> event -> gset Z -> Prop :=
  | a_alloc (U : gset Z) (f : Z) :
      f ∉ U -> 0 <= f < n -> astep n U (EAlloc (Some (f * FRAME_SIZE))) ({[f]} ∪ U)
  | a_alloc_full (U : gset Z) :
      (forall f, 0 <= f < n -> f ∈ U) -> astep n U (EAlloc None) U
  | a_run (U : gset Z) (s c : Z) :
      0 <= s -> 0 <= c -> s + c < n -> (forall f, s <= f < s + c -> f ∉ U) ->
      astep n U (EAllocRun c (Some (s * FRAME_SIZE))) (list_to_set (seqZ s c) ∪ U)
  | a_run_full (U : gset Z) (c : Z) :
      (forall s, 0 <= s -> s + c < n -> exists f, s <= f < s + c /\ f ∈ U) ->
      astep n U (EAllocRun c None) U
  | a_free (U : gset Z) (addr : Z) :
      astep n U (EFree addr) (U ∖ {[addr / FRAME_SIZE]}).

(** The steps of the implementation. *)
Inductive cstep : Pmm -> event -> Pmm -> Prop :=
  | c_alloc (p p' : Pmm) (r : option Z) :
      alloc_frame (Some p) = (r, Some p') -> cstep p (EAlloc r) p'
  | c_run (p p' : Pmm) (c : Z) (r : option Z) :
      0 <= c -> alloc_frames c (Some p) = (r, Some p') -> cstep p (EAllocRun c r) p'
  | c_free (p p' : Pmm) (addr : Z) :
      is_u64 addr -> free_frame addr (Some p) = Some p' -> cstep p (EFree addr) p'.

Lemma free_frame_spec (p p' : Pmm) (addr : Z) :
  wf p -> is_u64 addr -> free_frame addr (Some p) = Some p' ->
  wf p' /\ total_frames p' = total_frames p /\ abs p' = abs p ∖ {[addr / FRAME_SIZE]}.
Proof.
  intros Hwf [Ha _]. unfold free_frame, free_frame_nolock. pose proof Hwf as [Hl _ _].
  pose proof (Z.div_pos addr FRAME_SIZE Ha ltac:(done)).
  destruct (addr / FRAME_SIZE <? total_frames p) eqn:E; zbool; intros [= <-].
  - split; [eauto with kazu|]. split; [done|]. apply set_eq. intros f.
    rewrite elem_of_difference, elem_of_singleton, !elem_of_abs. unfold frame_ok. simpl.
    split.
    + intros [Hf Hu]. rewrite used_set_bit in Hu by (unfold frame_ok; lia || done).
      destruct (f =? _) eqn:?; zbool; done.
    + intros [[Hf Hu] Hne]. split; [done|].
      rewrite used_set_bit by (unfold frame_ok; lia || done).
      destruct (f =? _) eqn:?; zbool; done.
  - split; [done|]. split; [done|]. apply set_eq. intros f.
    rewrite elem_of_difference, elem_of_singleton, elem_of_abs. unfold frame_ok.
    split; [|tauto]. intros Hf. split; [done|]. lia.
Qed.

Lemma alloc_frame_abs (p p' : Pmm) (r : option Z) :
  wf p -> alloc_frame (Some p) = (r, Some p') ->
  astep (total_frames p) (abs p) (EAlloc r) (abs p') /\ wf p' /\ total_frames p' = total_frames p.
Proof.
  intros Hwf Hr. pose proof (alloc_frame_meets p Hwf) as Hs. rewrite Hr in Hs.
  destruct r as [a|]; simpl in Hs.
  - destruct Hs as (k & -> & (Hok & Hu & Hwf' & Htot & _ & Hall) & _).
    split; [|done]. set (f := (next_frame p + k) mod total_frames p) in *.
    assert (abs p' = {[f]} ∪ abs p) as ->.
    { apply set_eq. intros g. rewrite elem_of_union, elem_of_singleton, !elem_of_abs.
      unfold frame_ok in *. rewrite Htot. split.
      - intros [Hg Hu']. rewrite Hall in Hu' by done. apply orb_true_iff in Hu' as [?|?]; zbool; tauto.
      - intros [->|[Hg Hu']]; (split; [done|]); rewrite Hall by done;
          rewrite ?Z.eqb_refl, ?Hu', ?orb_true_r; done. }
    constructor; [|done]. rewrite elem_of_abs. intros [_ ?]. congruence.
  - destruct Hs as [[= ->] Hall]. split; [|done]. constructor. intros f Hf.
    apply elem_of_abs. auto.
Qed.

Lemma alloc_frames_abs (p p' : Pmm) (c : Z) (r : option Z) :
  wf p -> 0 <= c -> alloc_frames c (Some p) = (r, Some p') ->
  astep (total_frames p) (abs p) (EAllocRun c r) (abs p') /\ wf p' /\
  total_frames p' = total_frames p.
Proof.
  intros Hwf Hc Hr. pose proof (alloc_frames_meets p c Hwf Hc) as Hs. rewrite Hr in Hs.
  destruct r as [a|]; simpl in Hs.
  - destruct Hs as (s & -> & Hs0 & Hs1 & Hwf' & Hfree & Hall & _).
    assert (total_frames p' = total_frames p) as Htot.
    { revert Hr. unfold alloc_frames. destruct (find_run _ _ _ _); [|done]. by intros [= _ <-]. }
    split; [|done].
    assert (abs p' = list_to_set (seqZ s c) ∪ abs p) as ->.
    { apply set_eq. intros g.
      rewrite elem_of_union, elem_of_list_to_set, elem_of_seqZ, !elem_of_abs.
      unfold frame_ok in *. rewrite Htot. split.
      - intros [Hg Hu']. rewrite Hall in Hu' by done.
        apply orb_true_iff in Hu' as [?|?]; zbool; [left; lia|tauto].
      - intros [Hg|[Hg Hu']].
        + split; [lia|]. rewrite Hall by lia. apply orb_true_iff. left.
          apply andb_true_iff. split; lia.
        + split; [done|]. by rewrite Hall, Hu', orb_true_r. }
    constructor; try lia. intros f Hf. rewrite elem_of_abs. intros [_ ?].
    rewrite Hfree in *; [done|lia].
  - destruct Hs as [[= ->] Hall]. split; [|done]. constructor. intros s Hs0 Hs1.
    destruct (Hall s Hs0 Hs1) as (f & Hf & Hu). exists f. split; [done|].
    apply elem_of_abs. split; [unfold frame_ok; lia|done].
Qed.

Lemma cstep_refines (p p' : Pmm) (e : event) :
  wf p -> cstep p e p' ->
  astep (total_frames p) (abs p) e (abs p') /\ wf p' /\ total_frames p' = total_frames p.
Proof.
  intros Hwf Hstep. destruct Hstep as [p p' r Hr|p p' c r Hc Hr|p p' a Ha Hr].
  - by apply alloc_frame_abs.
  - by apply alloc_frames_abs.
  - destruct (free_frame_spec p p' a Hwf Ha Hr) as (? & ? & ->). split; [constructor|done].
Qed.

Lemma cstep_trace (p p' : Pmm) (es : list event) :
  wf p -> trace cstep p es p' ->
  trace (astep (total_frames p)) (abs p) es (abs p') /\ wf p' /\
  total_frames p' = total_frames p.
Proof.
  intros Hwf Htr. induction Htr as [p|p e p1 es p2 Hstep Htr IH]; [split; [constructor|done]|].
  destruct (cstep_refines _ _ _ Hwf Hstep) as (Ha & Hwf1 & Ht1).
  destruct (IH Hwf1) as (Htr' & Hwf2 & Ht2). rewrite <- Ht1. split; [|by rewrite Ht2].
  econstructor; [|done]. by rewrite Ht1.
Qed.

(** C1: the bitmap manager refines the abstract set allocator: every trace of
    single-frame and contiguous allocations (successful or failed) and frees from a
    well-formed state is a trace of the abstract allocator over the used-frame set, and
    ends in a well-formed state. *)
Theorem pmm_refines (p p' : Pmm) (es : list event) :
  wf p -> trace cstep p es p' ->
  trace (astep (total_frames p)) (abs p) es (abs p') /\ wf p' /\
  total_frames p' = total_frames p.
Proof. apply cstep_trace. Qed.

Lemma pmm_refines_witness :
  let p0 := mkPmm [0] 8 8 0 in let p1 := mkPmm [1] 8 8 1 in let p2 := mkPmm [0] 8 8 1 in
  trace (astep 8) (abs p0) [EAlloc (Some 0); EFree 0] (abs p2) /\ wf p2 /\
  total_frames p2 = 8.
Proof.
  apply (pmm_refines (mkPmm [0] 8 8 0)).
  - split; simpl; [done| |lia]. repeat constructor; lia.
  - apply (trace_cons _ _ _ (mkPmm [1] 8 8 1)); [by constructor|].
    apply (trace_cons _ _ _ (mkPmm [0] 8 8 1)); [|constructor].
    constructor; [unfold is_u64; rewrite u64_bound_val; lia|done].
Defined.

(** Frames a client holds after a trace, given those it held before. *)
Fixpoint outstanding (es : list event) (held : list Z) : list Z :=
  match es with
  | [] => held
  | EAlloc (Some a) :: es' => outstanding es' (a / FRAME_SIZE :: held)
  | EAllocRun c (Some a) :: es' => outstanding es' (seqZ (a / FRAME_SIZE) c ++ held)
  | EFree a :: es' => outstanding es' (retain (fun f => negb (f =? a / FRAME_SIZE)) held)
  | _ :: es' => outstanding es' held
  end.

Lemma outstanding_sound (n : Z) (es : list event) (U U' : gset Z) (held : list Z) :
  trace (astep n) U es U' -> NoDup held -> (forall f, f ∈ held -> f ∈ U) ->
  NoDup (outstanding es held) /\ forall f, f ∈ outstanding es held -> f ∈ U'.
Proof.
  intros Htr. revert held. induction Htr as [U|U e U1 es U2 Hstep Htr IH]; intros held Hnd Hsub;
    [done|].
  destruct Hstep as [U f Hf Hn|U Hall|U s c Hs Hc Hn Hfree|U c Hall|U a]; simpl.
  - rewrite Z.div_mul by done. apply IH; [constructor; auto|]. intros g.
    rewrite elem_of_cons. set_solver.
  - auto.
  - rewrite Z.div_mul by done. apply IH.
    + apply NoDup_app. split_and!; [apply NoDup_seqZ| |done].
      intros g Hg Hh. apply elem_of_seqZ in Hg. by apply (Hfree g), Hsub.
    + intros g. rewrite elem_of_app. intros [Hg|Hg]; set_solver.
  - auto.
  - apply IH.
    + rewrite retain_filter. by apply NoDup_filter.
    + intros g. rewrite elem_of_retain. intros [Hg Hh]. zbool. set_solver.
Qed.

(** No frame is handed out twice while held: along any trace of allocations and
    frees from a well-formed state, the frames a client holds (allocated by it, not freed
    since) are pairwise distinct and all marked used. *)
Theorem frames_handed_out_once (p p' : Pmm) (es : list event) :
  wf p -> trace cstep p es p' ->
  NoDup (outstanding es []) /\ forall f, f ∈ outstanding es [] -> used p' f = true.
Proof.
  intros Hwf Htr.
  destruct (cstep_trace p p' es Hwf Htr) as [Ha _].
  destruct (outstanding_sound _ _ _ _ [] Ha) as [Hnd Hin]; [constructor| |].
  - by intros f ?%elem_of_nil.
  - split; [done|]. intros f Hf. by apply elem_of_abs, Hin.
Qed.

Lemma frames_handed_out_once_witness :
  NoDup (outstanding [EAlloc (Some 0); EAllocRun 2 (Some 4096)] []) /\
  forall f, f ∈ outstanding [EAlloc (Some 0); EAllocRun 2 (Some 4096)] [] ->
            used (mkPmm [7] 8 8 3) f = true.
Proof.
  apply (frames_handed_out_once (mkPmm [0] 8 8 0)).
  - split; simpl; [done| |lia]. repeat constructor; lia.
  - apply (trace_cons _ _ _ (mkPmm [1] 8 8 1)); [by constructor|].
    apply (trace_cons _ _ _ (mkPmm [7] 8 8 3)); [|constructor].
    by constructor.
Defined.

(** * The interface other components allocate frames through *)

End Pmm.

Class FrameAllocator (S : Type) := {
  fa_alloc : S -> option Z * S;
  fa_free : Z -> S -> S;
  fa_wf : S -> Prop;
  (** The addresses of the frames in use. *)
  fa_used : S -> Z -> Prop;
}.

(** What [pmm::alloc_frame] and [pmm::free_frame] promise their callers. *)
Class FrameAllocatorLaws (S : Type) `{FrameAllocator S} := {
  fa_alloc_Some (s s' : S) (a : Z) :
    fa_wf s -> fa_alloc s = (Some a, s') ->
    fa_wf s' /\ 0 <= a /\ a mod 4096 = 0 /\ ~ fa_used s a /\
    forall b, fa_used s' b <-> b = a \/ fa_used s b;
  fa_alloc_None (s s' : S) : fa_wf s -> fa_alloc s = (None, s') -> s' = s;
  fa_free_used (s : S) (a : Z) :
    fa_wf s -> fa_used s a ->
    fa_wf (fa_free a s) /\ forall b, fa_used (fa_free a s) b <-> b <> a /\ fa_used s b;
}.

#[export] Instance pmm_allocator : FrameAllocator (option Pmm.Pmm) := {|
  fa_alloc := Pmm.alloc_frame;
  fa_free := Pmm.free_frame;
  fa_wf s := match s with
             | Some p => Pmm.wf p /\ Pmm.total_frames p * Pmm.FRAME_SIZE <= u64_bound
             | None => True
             end;
  fa_used s a := match s with
                 | Some p => a mod 4096 = 0 /\ a / 4096 ∈ Pmm.abs p
                 | None => False
                 end;
|}.

#[export] Instance pmm_allocator_laws : FrameAllocatorLaws (option Pmm.Pmm).
Proof.
  assert (forall a f, a mod 4096 = 0 -> a / 4096 = f -> a = f * 4096) as Hdiv.
  { intros a f H0 H1. pose proof (Z.div_mod a 4096 ltac:(done)). lia. }
  split; simpl.
  - intros [p|] s' a Hwf Ha; [|by simplify_eq/=]. destruct Hwf as [Hwf Hb].
    destruct s' as [p'|].
    2:{ exfalso. revert Ha. unfold Pmm.alloc_frame. by destruct (Pmm.scan _ _ _ _). }
    destruct (Pmm.alloc_frame_abs _ _ _ Hwf Ha) as (Hstep & Hwf' & Ht).
    remember (Pmm.abs p') as U' eqn:EU. inversion Hstep as [U f Hf Hn HU Ha' HU'| | | |].
    subst a U. rewrite EU in HU'. clear EU.
    unfold Pmm.FRAME_SIZE in *.
    split_and!; [done|by rewrite Ht|lia|by rewrite Z.mod_mul|..].
    + rewrite Z.div_mul by done. tauto.
    + intros b. split.
      * intros [Hb0 [Hbf%elem_of_singleton|?]%elem_of_union]; [left|by right]. auto.
      * intros [->|[? ?]]; [|set_solver]. rewrite Z.mod_mul, Z.div_mul by done. set_solver.
  - intros [p|] s' Hwf Ha; [|by simplify_eq/=]. revert Ha. unfold Pmm.alloc_frame.
    destruct (Pmm.scan _ _ _ _); [done|]. by intros [= <-].
  - intros [p|] a Hwf Hu; [|done]. destruct Hwf as [Hwf Hb], Hu as [Ha0 Hu].
    destruct (Pmm.free_frame a (Some p)) as [p'|] eqn:E.
    2:{ exfalso. revert E. unfold Pmm.free_frame, Pmm.free_frame_nolock. by destruct (_ <? _). }
    pose proof Hu as Hok. apply Pmm.elem_of_abs in Hok as [[Hok0 Hok1] _].
    assert (is_u64 a) as Hau.
    { pose proof (Hdiv a _ Ha0 eq_refl). unfold is_u64, Pmm.FRAME_SIZE in *. lia. }
    destruct (Pmm.free_frame_spec _ _ _ Hwf Hau E) as (Hwf' & Ht & ->).
    split; [by rewrite Ht|]. intros b. rewrite elem_of_difference, elem_of_singleton.
    unfold Pmm.FRAME_SIZE. split.
    + intros (? & ? & Hne). split_and!; [|done..]. intros ->. done.
    + intros (Hne & Hb0 & ?). split_and!; [done..|]. intros Heq.
      apply Hne. pose proof (Hdiv b _ Hb0 Heq). pose proof (Hdiv a _ Ha0 eq_refl). congruence.
Qed.
