(* ===== verification/Allocator.v ===== *)
(** Kernel heap allocator: [crates/kernel/src/memory/allocator.rs].

    The intrusive global free list is the list of its nodes in link order
    (address and [size] field; the [next] links are the list itself), each
    per-CPU cache stack the list of its block addresses, and the allocation
    headers a finite map from header address to contents.  The list is
    used under its lock, each cache by its own CPU with interrupts off, so each
    operation is one step. *)
From stdpp Require Import base list numbers option gmap.
From S2P Require Import Prelude.

Open Scope Z_scope.

Module Allocator.

Record FreeNode := mkNode { n_addr : Z; n_size : Z }.
Record AllocHeader := mkHeader { block_addr : Z; block_size : Z }.

(** [size_of::<FreeNode>()], [size_of::<AllocHeader>()] and their alignment. *)
Definition NODE_SIZE : Z := 16.
Definition HEADER : Z := 16.
Definition NODE_ALIGN : Z := 8.

Definition CLASS_SIZES : list Z := [64; 128; 256; 512; 1024; 2048].
Definition NCLASS : nat := 6.
Definition CACHE_CAP : Z := 64.
Definition MAX_CPUS : nat := 16.

Definition class_for (need : Z) : option nat := position (fun c => need <=? c) CLASS_SIZES.
Definition exact_class (size : Z) : option nat := position (fun c => c =? size) CLASS_SIZES.
Definition class_size (ci : nat) : Z := default 0 (CLASS_SIZES !! ci).

(** ** The global free list *)

(** [while !cur.is_null() && cur < addr { prev = cur; cur = cur.next }]: the
    nodes passed, latest first, and the rest of the list. *)
Fixpoint walk (addr : Z) (passed l : list FreeNode) : list FreeNode * list FreeNode :=
  match l with
  | cur :: next => if n_addr cur <? addr then walk addr (cur :: passed) next else (passed, l)
  | [] => (passed, [])
  end.

Definition insert_nolock (addr size : Z) (l : list FreeNode) : list FreeNode :=
  if size <? NODE_SIZE then l else
  let '(passed, rest) := walk addr [] l in
  let '(size', next') :=
    match rest with
    | cur :: next => if addr + size =? n_addr cur then (size + n_size cur, next) else (size, rest)
    | [] => (size, [])
    end in
  match passed with
  | prev :: before =>
      if n_addr prev + n_size prev =? addr
      then reverse before ++ mkNode (n_addr prev) (n_size prev + size') :: next'
      else reverse passed ++ mkNode addr size' :: next'
  | [] => mkNode addr size' :: next'
  end.

(** First node with room, split off the list: nodes passed (latest first), it, the rest. *)
Fixpoint first_fit (need : Z) (passed l : list FreeNode)
  : option (list FreeNode * FreeNode * list FreeNode) :=
  match l with
  | [] => None
  | cur :: next =>
      if need <=? n_size cur then Some (passed, cur, next) else first_fit need (cur :: passed) next
  end.

Definition take_raw (need : Z) (l : list FreeNode) : option (Z * Z) * list FreeNode :=
  match first_fit need [] l with
  | None => (None, l)
  | Some (passed, cur, next) =>
      let l' := reverse passed ++ next in
      let rem := n_size cur - need in
      if NODE_SIZE <=? rem
      then (Some (n_addr cur, need), insert_nolock (n_addr cur + need) rem l')
      else (Some (n_addr cur, n_size cur), l')
  end.

Definition give_raw (addr size : Z) (l : list FreeNode) : list FreeNode := insert_nolock addr size l.

(** ** Caches and the allocator state *)

Record Cache := mkCache { heads : list (list Z); counts : list Z }.

Record KernelAllocator := mkAlloc {
  global : list FreeNode;
  caches : list Cache;
  headers : gmap Z AllocHeader
}.

Definition Cache_new : Cache := mkCache (replicate NCLASS []) (replicate NCLASS 0).
Definition ALLOCATOR : KernelAllocator := mkAlloc [] (replicate MAX_CPUS Cache_new) ∅.

Definition init (heap_start heap_size : Z) (st : KernelAllocator) : KernelAllocator :=
  mkAlloc (insert_nolock heap_start heap_size (global st)) (caches st) (headers st).

Definition cpu (current_cpu_index : nat) : nat :=
  if (current_cpu_index <? MAX_CPUS)%nat then current_cpu_index else 0%nat.

Definition get_cache (st : KernelAllocator) (c : nat) : Cache :=
  default Cache_new (caches st !! c).
Definition cached (st : KernelAllocator) (c ci : nat) : list Z :=
  default [] (heads (get_cache st c) !! ci).
Definition cached_count (st : KernelAllocator) (c ci : nat) : Z :=
  default 0 (counts (get_cache st c) !! ci).

Definition set_cached (st : KernelAllocator) (c ci : nat) (stack : list Z) (count : Z)
  : KernelAllocator :=
  let cache := get_cache st c in
  mkAlloc (global st)
          (<[c := mkCache (<[ci := stack]> (heads cache)) (<[ci := count]> (counts cache))]> (caches st))
          (headers st).

Definition set_global (st : KernelAllocator) (g : list FreeNode) : KernelAllocator :=
  mkAlloc g (caches st) (headers st).

(** Writes the header just below the aligned user pointer. *)
Definition finish_alloc (addr size align : Z) (st : KernelAllocator) : Z * KernelAllocator :=
  let user := align_up (addr + HEADER) align in
  (user, mkAlloc (global st) (caches st) (<[user - HEADER := mkHeader addr size]> (headers st))).

Definition alloc_raw (need align : Z) (st : KernelAllocator) : option Z * KernelAllocator :=
  match take_raw need (global st) with
  | (Some (addr, kept), g) =>
      let '(p, st') := finish_alloc addr kept align (set_global st g) in (Some p, st')
  | (None, g) => (None, set_global st g)
  end.

Definition eff_align (lalign : Z) : Z := Z.max (Z.max lalign NODE_ALIGN) NODE_ALIGN.
Definition need_of (lsize lalign : Z) : Z :=
  align_up (HEADER + lsize + eff_align lalign) NODE_ALIGN.

(** [GlobalAlloc::alloc]; [None] is the null pointer. *)
Definition alloc (cpu_index : nat) (lsize lalign : Z) (st : KernelAllocator)
  : option Z * KernelAllocator :=
  let align := eff_align lalign in
  let need := need_of lsize lalign in
  match class_for need with
  | Some ci =>
      let cs := class_size ci in
      let c := cpu cpu_index in
      match cached st c ci with
      | addr :: stack =>
          let '(p, st') :=
            finish_alloc addr cs align (set_cached st c ci stack (cached_count st c ci - 1)) in
          (Some p, st')
      | [] => alloc_raw cs align st
      end
  | None => alloc_raw need align st
  end.

(** [GlobalAlloc::dealloc]; [None] when no header is at [ptr - HEADER]. *)
Definition dealloc (cpu_index : nat) (ptr : Z) (st : KernelAllocator) : option KernelAllocator :=
  hdr ← headers st !! (ptr - HEADER);
  let addr := block_addr hdr in
  let size := block_size hdr in
  Some (match exact_class size with
        | Some ci =>
            let c := cpu cpu_index in
            let count := cached_count st c ci in
            if count <? CACHE_CAP
            then set_cached st c ci (addr :: cached st c ci) (count + 1)
            else set_global st (give_raw addr size (global st))
        | None => set_global st (give_raw addr size (global st))
        end).

(** * Coverage: which block a byte belongs to *)

Definition inb (x : Z) (b : FreeNode) : Z :=
  if (n_addr b <=? x) && (x <? n_addr b + n_size b) then 1 else 0.

(** How many blocks of [l] contain byte [x]. *)
Definition cov (x : Z) (l : list FreeNode) : Z := zsum (inb x) l.

Lemma inb_nonneg (x : Z) (b : FreeNode) : 0 <= inb x b.
Proof. unfold inb. split_ifs; lia. Qed.

Lemma inb_1 (x : Z) (b : FreeNode) : inb x b = 1 <-> n_addr b <= x < n_addr b + n_size b.
Proof. unfold inb. destruct (_ && _) eqn:E; zbool; [lia|]. apply andb_false_iff in E as [|]; zbool; lia. Qed.

Lemma inb_split (x a s t : Z) :
  0 <= s -> 0 <= t -> inb x (mkNode a (s + t)) = inb x (mkNode a s) + inb x (mkNode (a + s) t).
Proof.
  intros. unfold inb; simpl.
  destruct (a <=? x) eqn:?, (x <? a + (s + t)) eqn:?, (x <? a + s) eqn:?, (a + s <=? x) eqn:?,
    (x <? a + s + t) eqn:?; zbool; simpl; lia.
Qed.

Lemma cov_app (x : Z) (l1 l2 : list FreeNode) : cov x (l1 ++ l2) = cov x l1 + cov x l2.
Proof. apply zsum_app. Qed.

Lemma cov_cons (x : Z) (b : FreeNode) (l : list FreeNode) : cov x (b :: l) = inb x b + cov x l.
Proof. done. Qed.

Lemma cov_nonneg (x : Z) (l : list FreeNode) : 0 <= cov x l.
Proof. apply zsum_nonneg, inb_nonneg. Qed.

Lemma cov_reverse (x : Z) (l : list FreeNode) : cov x (reverse l) = cov x l.
Proof. apply zsum_reverse. Qed.

Lemma walk_spec (addr : Z) (passed l p r : list FreeNode) :
  walk addr passed l = (p, r) ->
  exists b, p = b ++ passed /\ l = reverse b ++ r /\
    Forall (fun n => n_addr n < addr) b /\
    (match r with n :: _ => addr <= n_addr n | [] => True end).
Proof.
  revert passed p r. induction l as [|cur l IH]; intros passed p r; simpl.
  { intros [= <- <-]. exists []. by repeat constructor. }
  destruct (n_addr cur <? addr) eqn:E; zbool.
  - intros (b & -> & -> & Hb & Hr)%IH. exists (b ++ [cur]).
    split_and!; [by rewrite <- app_assoc|by rewrite reverse_app|by apply Forall_app; repeat constructor|done].
  - intros [= <- <-]. exists []. by repeat constructor.
Qed.

Lemma first_fit_spec (need : Z) (passed l : list FreeNode) :
  match first_fit need passed l with
  | Some (p, cur, next) =>
      exists b, p = b ++ passed /\ l = reverse b ++ cur :: next /\ need <= n_size cur /\
        Forall (fun n => n_size n < need) b
  | None => Forall (fun n => n_size n < need) l
  end.
Proof.
  revert passed. induction l as [|cur l IH]; intros passed; simpl; [by constructor|].
  destruct (need <=? n_size cur) eqn:E; zbool.
  - exists []. by repeat constructor.
  - specialize (IH (cur :: passed)). destruct (first_fit _ _ _) as [[[p c] n]|].
    + destruct IH as (b & -> & -> & ? & ?). exists (b ++ [cur]).
      split_and!; [by rewrite <- app_assoc|by rewrite reverse_app|done|apply Forall_app; repeat constructor; done].
    + by constructor.
Qed.

(** The free list is sorted, coalesced (a gap after every node) and above [e]. *)
Fixpoint chain (e : Z) (l : list FreeNode) : Prop :=
  match l with
  | [] => True
  | b :: l' => e < n_addr b /\ NODE_SIZE <= n_size b /\ chain (n_addr b + n_size b) l'
  end.

Definition end_of (e : Z) (l : list FreeNode) : Z :=
  match last l with Some b => n_addr b + n_size b | None => e end.

Lemma chain_app (e : Z) (l1 l2 : list FreeNode) :
  chain e (l1 ++ l2) <-> chain e l1 /\ chain (end_of e l1) l2.
Proof.
  revert e. induction l1 as [|b l1 IH]; intros e; simpl; [tauto|].
  rewrite IH. unfold end_of at 2. simpl. unfold end_of. destruct l1 as [|c l1]; simpl; [tauto|].
  destruct (last (c :: l1)) eqn:El; [tauto|]. apply last_None in El. done.
Qed.

Lemma chain_weaken (e e' : Z) (l : list FreeNode) : e' <= e -> chain e l -> chain e' l.
Proof. destruct l; simpl; [done|]. intros ? (? & ? & ?). split_and!; [lia|done..]. Qed.

Lemma chain_sizes (e : Z) (l : list FreeNode) : chain e l -> Forall (fun b => NODE_SIZE <= n_size b) l.
Proof. revert e. induction l; intros e; simpl; [constructor|]. intros (? & ? & ?). constructor; eauto. Qed.

Lemma chain_end_of (e : Z) (l : list FreeNode) : chain e l -> e <= end_of e l.
Proof.
  revert e. induction l as [|b l IH]; intros e; simpl; [done|]. intros (? & Hs & Hc).
  apply IH in Hc. unfold end_of in *. simpl. unfold NODE_SIZE in *.
  destruct l as [|c l]; [simpl in *; lia|]. simpl in *. destruct (last (c :: l)); lia.
Qed.

(** ** [insert_nolock] *)

Lemma cov_insert (x addr size : Z) (l : list FreeNode) :
  NODE_SIZE <= size -> Forall (fun b => NODE_SIZE <= n_size b) l ->
  cov x (insert_nolock addr size l) = inb x (mkNode addr size) + cov x l.
Proof.
  intros Hs Hl. unfold insert_nolock. unfold NODE_SIZE in *.
  destruct (size <? 16) eqn:E; zbool; [lia|].
  destruct (walk addr [] l) as [p r] eqn:Ew.
  apply walk_spec in Ew as (b & -> & -> & _ & _). rewrite app_nil_r.
  apply Forall_app in Hl as [Hb Hr]. rewrite cov_app, cov_reverse.
  assert (exists s' n', (match r with
      | cur :: next => if addr + size =? n_addr cur then (size + n_size cur, next) else (size, r)
      | [] => (size, []) end) = (s', n') /\ 0 <= s' /\
      inb x (mkNode addr s') + cov x n' = inb x (mkNode addr size) + cov x r) as (s' & n' & -> & Hs' & Heq).
  { destruct r as [|cur next]; [by exists size, []; split_and!; [|lia|]|].
    destruct (_ =? _) eqn:Ec; zbool; [|by exists size, (cur :: next); split_and!; [|lia|]].
    apply Forall_cons_1 in Hr as [Hc _]. eexists _, _. split_and!; [done|lia|].
    rewrite inb_split, Ec, cov_cons by lia. destruct cur; simpl. lia. }
  destruct b as [|prev before]; [rewrite cov_cons; simpl; lia|].
  rewrite Forall_reverse in Hb. apply Forall_cons_1 in Hb as [Hp _].
  destruct (_ =? addr) eqn:Ep; zbool.
  - rewrite cov_app, cov_reverse, !cov_cons, inb_split, Ep by lia. destruct prev; simpl in *. lia.
  - rewrite cov_app, cov_reverse, !cov_cons. lia.
Qed.

(** Blocks that no byte belongs to twice lie on one side of each other. *)
Lemma cov_apart (b c : FreeNode) (l : list FreeNode) :
  (forall x, inb x b + cov x l <= 1) -> c ∈ l -> 0 < n_size b -> 0 < n_size c ->
  n_addr b + n_size b <= n_addr c \/ n_addr c + n_size c <= n_addr b.
Proof.
  intros Hdis Hc Hb Hcs.
  pose proof (Hdis (Z.max (n_addr b) (n_addr c))) as Hx.
  pose proof (zsum_elem_le (inb (Z.max (n_addr b) (n_addr c))) l c (inb_nonneg _) Hc) as Hle.
  fold (cov (Z.max (n_addr b) (n_addr c)) l) in Hle.
  unfold inb in Hx, Hle. split_ifs; lia.
Qed.

Lemma chain_insert (e addr size : Z) (l : list FreeNode) :
  NODE_SIZE <= size -> e < addr -> chain e l ->
  (forall x, inb x (mkNode addr size) + cov x l <= 1) ->
  chain e (insert_nolock addr size l).
Proof.
  intros Hs He Hl Hdis. unfold insert_nolock.
  destruct (size <? NODE_SIZE) eqn:E; zbool; [lia|].
  destruct (walk addr [] l) as [p r] eqn:Ew.
  apply walk_spec in Ew as (b & -> & -> & Hb & Hr). rewrite app_nil_r.
  pose proof (chain_sizes _ _ Hl) as Hsz. rewrite Forall_forall in Hsz.
  assert (forall c, c ∈ reverse b ++ r -> addr + size <= n_addr c \/ n_addr c + n_size c <= addr) as Hap.
  { intros c Hc. pose proof (Hsz c Hc). unfold NODE_SIZE in *.
    apply (cov_apart (mkNode addr size) c (reverse b ++ r)); simpl; lia || done. }
  apply chain_app in Hl as [Hlb Hlr].
  (* the new node, merged with its successor or not, heads a chain above any [e' < addr] *)
  assert (exists s' n', (match r with
      | cur :: next => if addr + size =? n_addr cur then (size + n_size cur, next) else (size, r)
      | [] => (size, []) end) = (s', n') /\ NODE_SIZE <= s' /\
      chain (addr + s') n') as (s' & n' & -> & Hs' & Hn').
  { destruct r as [|cur next]; [by exists size, []|].
    simpl in Hr. destruct Hlr as (Hc1 & Hc2 & Hc3). pose proof (Hap cur ltac:(apply elem_of_app; right; left)).
    unfold NODE_SIZE in *.
    destruct (_ =? _) eqn:Ec; zbool; eexists _, _; split_and!; try done; try lia.
    - by rewrite Z.add_assoc, Ec.
    - simpl. unfold NODE_SIZE. split_and!; [lia|lia|done]. }
  destruct b as [|prev before]; [by simpl|].
  apply Forall_cons_1 in Hb as [Hpa _].
  pose proof (Hap prev ltac:(rewrite reverse_cons; set_solver)) as Hpe.
  pose proof (Hsz prev ltac:(rewrite reverse_cons; set_solver)) as Hps.
  rewrite reverse_cons in Hlb |- *. apply chain_app in Hlb as [Hlb1 Hlb2].
  destruct Hlb2 as (Hp1 & Hp2 & _). unfold NODE_SIZE in *.
  destruct (_ =? addr) eqn:Ep; zbool.
  - apply chain_app. split; [done|]. simpl. split_and!; [done|unfold NODE_SIZE; lia|].
    by rewrite Z.add_assoc, Ep.
  - rewrite <- app_assoc. apply chain_app. split; [done|]. simpl.
    unfold NODE_SIZE in *. split_and!; try done; lia.
Qed.

(** ** [take_raw] *)

Lemma take_raw_spec (need e : Z) (l l' : list FreeNode) (r : option (Z * Z)) :
  NODE_SIZE <= need -> chain e l -> (forall x, cov x l <= 1) -> take_raw need l = (r, l') ->
  match r with
  | Some (addr, kept) =>
      need <= kept < need + NODE_SIZE /\ e < addr /\ chain e l' /\
      forall x, cov x l = inb x (mkNode addr kept) + cov x l'
  | None => l' = l /\ Forall (fun b => n_size b < need) l
  end.
Proof.
  intros Hn Hl Hcov. unfold take_raw. pose proof (first_fit_spec need [] l) as Hff.
  destruct (first_fit need [] l) as [[[p cur] next]|]; [|by intros [= <- <-]].
  destruct Hff as (b & -> & -> & Hfit & _). rewrite app_nil_r.
  pose proof (chain_sizes _ _ Hl) as Hsz.
  apply chain_app in Hl as [Hb (Hc1 & Hc2 & Hc3)]. pose proof (chain_end_of _ _ Hb) as He.
  apply Forall_app in Hsz as [Hsz1 Hsz2]. apply Forall_cons_1 in Hsz2 as [_ Hsz2].
  unfold NODE_SIZE in *.
  assert (chain e (reverse b ++ next)) as Hl'.
  { apply chain_app. split; [done|]. eapply chain_weaken; [|done]. lia. }
  assert (forall x, cov x (reverse b ++ cur :: next) = inb x cur + cov x (reverse b ++ next)) as Hc.
  { intros x. rewrite !cov_app, cov_cons. lia. }
  destruct (16 <=? _) eqn:Er; zbool; intros [= <- <-].
  - assert (forall x, inb x cur = inb x (mkNode (n_addr cur) need) +
                       inb x (mkNode (n_addr cur + need) (n_size cur - need))) as Hin.
    { intros x. rewrite <- inb_split by lia. unfold inb. simpl.
      by replace (need + (n_size cur - need)) with (n_size cur) by lia. }
    split_and!; [lia..| |].
    + apply chain_insert; [unfold NODE_SIZE; lia|lia|done|]. intros x. specialize (Hcov x).
      rewrite Hc, Hin in Hcov. pose proof (inb_nonneg x (mkNode (n_addr cur) need)). lia.
    + intros x. rewrite Hc, Hin, cov_insert; [lia|unfold NODE_SIZE; lia|]. by apply Forall_app.
  - split_and!; [lia..|done|]. intros x. rewrite Hc. by destruct cur.
Qed.

(** * The allocator invariant *)

Definition class_blocks (ci : nat) (stack : list Z) : list FreeNode :=
  (fun a => mkNode a (class_size ci)) <$> stack.

Lemma cov_class_cons (x : Z) (ci : nat) (a : Z) (stack : list Z) :
  cov x (class_blocks ci (a :: stack)) = inb x (mkNode a (class_size ci)) + cov x (class_blocks ci stack).
Proof. done. Qed.

Definition cached_cov (x : Z) (st : KernelAllocator) : Z :=
  zsum (fun c => zsum (fun ci => cov x (class_blocks ci (cached st c ci))) (seq 0 NCLASS))
       (seq 0 MAX_CPUS).

Lemma cached_cov_ext (x : Z) (st st' : KernelAllocator) :
  caches st = caches st' -> cached_cov x st = cached_cov x st'.
Proof. unfold cached_cov, cached, get_cache. by intros ->. Qed.

Lemma cached_cov_nonneg (x : Z) (st : KernelAllocator) : 0 <= cached_cov x st.
Proof. do 2 (apply zsum_nonneg; intros). apply cov_nonneg. Qed.

(** An allocation the kernel holds: its pointer, requested size and block. *)
Record Live := mkLive { l_ptr : Z; l_size : Z; l_block : FreeNode }.

Definition live_blocks (live : list Live) : list FreeNode := l_block <$> live.

Lemma cov_live_cons (x : Z) (e : Live) (live : list Live) :
  cov x (live_blocks (e :: live)) = inb x (l_block e) + cov x (live_blocks live).
Proof. done. Qed.

Lemma cov_live_mid (x : Z) (l1 l2 : list Live) (e : Live) :
  cov x (live_blocks (l1 ++ e :: l2)) = inb x (l_block e) + cov x (live_blocks (l1 ++ l2)).
Proof.
  unfold live_blocks. rewrite !fmap_app, fmap_cons, !cov_app, cov_cons. lia.
Qed.

Record shape (st : KernelAllocator) : Prop := {
  sh_cpus : length (caches st) = MAX_CPUS;
  sh_classes : Forall (fun k => length (heads k) = NCLASS /\ length (counts k) = NCLASS) (caches st);
  sh_counts c ci : (c < MAX_CPUS)%nat -> (ci < NCLASS)%nat ->
    cached_count st c ci = Z.of_nat (length (cached st c ci)) /\
    cached_count st c ci <= CACHE_CAP;
}.

Definition live_ok (st : KernelAllocator) (e : Live) : Prop :=
  headers st !! (l_ptr e - HEADER) = Some (mkHeader (n_addr (l_block e)) (n_size (l_block e))) /\
  n_addr (l_block e) + HEADER <= l_ptr e /\ 0 <= l_size e /\
  l_ptr e + l_size e <= n_addr (l_block e) + n_size (l_block e).

(** Every byte of the heap is in exactly one block: free, cached or allocated. *)
Record inv (hs hz : Z) (st : KernelAllocator) (live : list Live) : Prop := {
  inv_heap : 0 <= hs /\ hs + hz < u64_bound;
  inv_part x : cov x (global st) + cached_cov x st + cov x (live_blocks live) = inb x (mkNode hs hz);
  inv_chain : chain (hs - 1) (global st);
  inv_shape : shape st;
  inv_live : Forall (live_ok st) live;
}.

Lemma cached_set (st : KernelAllocator) (c ci c' ci' : nat) (s : list Z) (n : Z) :
  shape st -> (c < MAX_CPUS)%nat -> (ci < NCLASS)%nat ->
  cached (set_cached st c ci s n) c' ci' =
    (if decide (c' = c /\ ci' = ci) then s else cached st c' ci') /\
  cached_count (set_cached st c ci s n) c' ci' =
    (if decide (c' = c /\ ci' = ci) then n else cached_count st c' ci').
Proof.
  intros [Hl Hk _] Hc Hci. unfold cached, cached_count, get_cache, set_cached. simpl.
  destruct (lookup_lt_is_Some_2 (caches st) c) as [k Hk']; [lia|].
  pose proof (Forall_lookup_1 _ _ _ _ Hk Hk') as [Hh Hn].
  destruct (decide (c' = c)) as [->|Hne].
  - unfold get_cache. rewrite Hk'. rewrite list_lookup_insert_eq by lia. simpl.
    destruct (decide (ci' = ci)) as [->|Hni].
    + rewrite !list_lookup_insert_eq by lia. simpl. by case_decide as Hd; [|destruct Hd].
    + rewrite !list_lookup_insert_ne by done. case_decide as Hd; [destruct Hd; done|done].
  - rewrite list_lookup_insert_ne by done. case_decide as Hd; [destruct Hd; done|done].
Qed.

Lemma shape_set_cached (st : KernelAllocator) (c ci : nat) (s : list Z) (n : Z) :
  shape st -> (c < MAX_CPUS)%nat -> (ci < NCLASS)%nat ->
  n = Z.of_nat (length s) -> n <= CACHE_CAP -> shape (set_cached st c ci s n).
Proof.
  intros Hsh Hc Hci Hn Hcap. pose proof Hsh as [Hl Hk Hcnt]. split.
  - simpl. by rewrite length_insert.
  - simpl. apply Forall_insert; [done|]. simpl. rewrite !length_insert. unfold get_cache.
    destruct (lookup_lt_is_Some_2 (caches st) c) as [k Hk']; [lia|]. rewrite Hk'.
    by apply (Forall_lookup_1 _ _ _ _ Hk Hk').
  - intros c' ci' Hc' Hci'. destruct (cached_set st c ci c' ci' s n) as [-> ->]; [done..|].
    case_decide; [done|by apply Hcnt].
Qed.

Lemma cached_cov_set (x : Z) (st : KernelAllocator) (c ci : nat) (s : list Z) (n : Z) :
  shape st -> (c < MAX_CPUS)%nat -> (ci < NCLASS)%nat ->
  cached_cov x (set_cached st c ci s n) =
  cached_cov x st + (cov x (class_blocks ci s) - cov x (class_blocks ci (cached st c ci))).
Proof.
  intros Hsh Hc Hci. unfold cached_cov.
  rewrite (zsum_change
    (fun c => zsum (fun ci => cov x (class_blocks ci (cached st c ci))) (seq 0 NCLASS)) _ _ c);
    [|apply NoDup_seq|apply elem_of_seq; lia|].
  - f_equal.
    rewrite (zsum_change (fun ci => cov x (class_blocks ci (cached st c ci))) _ (seq 0 NCLASS) ci);
      [|apply NoDup_seq|apply elem_of_seq; lia|].
    + destruct (cached_set st c ci c ci s n) as [-> _]; [done..|].
      rewrite decide_True by done. lia.
    + intros j Hj. destruct (cached_set st c ci c j s n) as [-> _]; [done..|].
      by rewrite decide_False by tauto.
  - intros j Hj. apply zsum_ext. intros i _.
    destruct (cached_set st c ci j i s n) as [-> _]; [done..|]. by rewrite decide_False by tauto.
Qed.

Lemma class_for_spec (need : Z) (ci : nat) :
  class_for need = Some ci -> (ci < NCLASS)%nat /\ need <= class_size ci /\ 64 <= class_size ci <= 2048.
Proof.
  unfold class_for, class_size. intros (c & Hc & Hn & _)%position_Some. rewrite Hc. simpl. zbool.
  pose proof (lookup_lt_Some _ _ _ Hc). simpl in *. split; [done|]. split; [done|].
  do 6 (destruct ci as [|ci]; [simplify_eq/=; lia|]). done.
Qed.

Lemma exact_class_spec (size : Z) (ci : nat) :
  exact_class size = Some ci -> (ci < NCLASS)%nat /\ class_size ci = size.
Proof.
  unfold exact_class, class_size. intros (c & Hc & Hn & _)%position_Some. rewrite Hc. simpl. zbool.
  pose proof (lookup_lt_Some _ _ _ Hc). done.
Qed.

Lemma cpu_lt (i : nat) : (cpu i < MAX_CPUS)%nat.
Proof. unfold cpu. destruct (_ <? _)%nat eqn:E; [by apply Nat.ltb_lt in E|unfold MAX_CPUS; lia]. Qed.

#[export] Hint Resolve cpu_lt : kazu.

(** * Operations keep the invariant *)

(** [core::alloc::Layout]: a power-of-two alignment, and the size rounded up to it
    fits an [isize]. *)
Definition layout_ok (lsize lalign : Z) : Prop :=
  0 <= lsize /\ (exists k, 0 <= k /\ lalign = 2 ^ k) /\ lsize + lalign <= 2 ^ 63.

Lemma eff_align_pow2 (lalign k : Z) :
  0 <= k -> lalign = 2 ^ k -> eff_align lalign = 2 ^ Z.max k 3.
Proof.
  intros Hk ->. unfold eff_align, NODE_ALIGN. change 8 with (2 ^ 3).
  destruct (Z.max_spec k 3) as [[? ->]|[? ->]].
  - pose proof (Z.pow_le_mono_r 2 k 3 ltac:(lia) ltac:(lia)). lia.
  - pose proof (Z.pow_le_mono_r 2 3 k ltac:(lia) ltac:(lia)). lia.
Qed.

Lemma need_of_spec (lsize lalign : Z) :
  layout_ok lsize lalign -> HEADER + lsize + eff_align lalign <= need_of lsize lalign.
Proof.
  intros (Hs & (k & Hk & ->) & Hb). unfold need_of. change NODE_ALIGN with (2 ^ 3).
  apply align_up_spec; [lia| |]; unfold eff_align, NODE_ALIGN, HEADER; rewrite ?u64_bound_val;
    pose proof (Z.pow_pos_nonneg 2 k); lia.
Qed.

(** The invariant with block [b] taken out of the pools and not yet handed out. *)
Record pending (hs hz : Z) (st : KernelAllocator) (live : list Live) (b : FreeNode) : Prop := {
  pd_heap : 0 <= hs /\ hs + hz < u64_bound;
  pd_part x : cov x (global st) + cached_cov x st + cov x (live_blocks live) + inb x b
              = inb x (mkNode hs hz);
  pd_chain : chain (hs - 1) (global st);
  pd_shape : shape st;
  pd_live : Forall (live_ok st) live;
}.

Lemma pending_bounds hs hz st live b :
  pending hs hz st live b -> 0 < n_size b -> hs <= n_addr b /\ n_addr b + n_size b <= hs + hz.
Proof.
  intros [Hh Hp _ _ _] Hb.
  assert (forall x, n_addr b <= x < n_addr b + n_size b -> hs <= x < hs + hz) as Hin.
  { intros x Hx. apply inb_1 in Hx. specialize (Hp x).
    assert (inb x (mkNode hs hz) = 1) as Hheap%inb_1; [|done].
    pose proof (cov_nonneg x (global st)). pose proof (cov_nonneg x (live_blocks live)).
    pose proof (cached_cov_nonneg x st).
    revert Hp. unfold inb at 2 3. split_ifs; lia. }
  pose proof (Hin (n_addr b) ltac:(lia)). pose proof (Hin (n_addr b + n_size b - 1) ltac:(lia)). lia.
Qed.

Lemma finish_alloc_inv hs hz st live b lsize lalign p st' :
  pending hs hz st live b -> layout_ok lsize lalign -> need_of lsize lalign <= n_size b ->
  finish_alloc (n_addr b) (n_size b) (eff_align lalign) st = (p, st') ->
  inv hs hz st' (mkLive p lsize b :: live) /\ p mod lalign = 0 /\
  headers st' !! (p - HEADER) = Some (mkHeader (n_addr b) (n_size b)).
Proof.
  intros Hpd Hlay Hneed Hf. pose proof (need_of_spec _ _ Hlay) as Hn.
  destruct Hlay as (Hs & (k & Hk & ->) & Hb).
  assert (0 < 2 ^ k) by (apply Z.pow_pos_nonneg; lia).
  assert (2 ^ k <= eff_align (2 ^ k)) by (unfold eff_align; lia). unfold HEADER in *.
  pose proof (pending_bounds _ _ _ _ _ Hpd ltac:(lia)) as [Hlo Hhi].
  destruct Hpd as [Hh Hp Hc Hsh Hl].
  rewrite (eff_align_pow2 _ k Hk eq_refl) in *.
  destruct (align_up_spec (n_addr b + 16) (Z.max k 3)) as [Hu Hmod]; [lia..|].
  unfold finish_alloc, HEADER in Hf. injection Hf as <- <-.
  set (u := align_up (n_addr b + 16) (2 ^ Z.max k 3)) in *.
  split_and!; [|..|by simpl; rewrite lookup_insert_eq].
  - split; [done| |done|by destruct Hsh|].
    + intros x. specialize (Hp x). rewrite cov_live_cons. simpl.
      rewrite <- (cached_cov_ext x st); [lia|done].
    + constructor.
      { unfold live_ok, HEADER. simpl. rewrite lookup_insert_eq. split_and!; [done|lia..]. }
      apply Forall_forall. intros e He. rewrite Forall_forall in Hl.
      destruct (Hl e He) as (Hh1 & Hh2 & Hh3 & Hh4). unfold live_ok, HEADER in *. simpl.
      rewrite lookup_insert_ne; [done|]. intros Heq.
      destruct (cov_apart b (l_block e) (live_blocks live)) as [?|?]; try lia.
      * intros x. specialize (Hp x). pose proof (cov_nonneg x (global st)).
        pose proof (cached_cov_nonneg x st).
        revert Hp. unfold inb at 2. split_ifs; lia.
      * by apply list_elem_of_fmap_2.
  - assert ((2 ^ k | 2 ^ Z.max k 3)) as Hdiv.
    { exists (2 ^ (Z.max k 3 - k)). rewrite <- Z.pow_add_r by lia. f_equal. lia. }
    apply Z.mod_divide; [lia|]. etransitivity; [exact Hdiv|]. apply Z.mod_divide; [lia|done].
Qed.

Lemma pop_pending hs hz st live (c ci : nat) a stack :
  inv hs hz st live -> (c < MAX_CPUS)%nat -> (ci < NCLASS)%nat ->
  cached st c ci = a :: stack ->
  pending hs hz (set_cached st c ci stack (cached_count st c ci - 1)) live (mkNode a (class_size ci)).
Proof.
  intros [Hh Hp Hch Hsh Hl] Hc Hci E. split; [done| |done| |done].
  - intros x. rewrite cached_cov_set, E by done. rewrite cov_class_cons.
    specialize (Hp x). simpl. lia.
  - destruct (sh_counts _ Hsh c ci Hc Hci) as [Hn Hcap]. rewrite E in Hn. simpl in Hn.
    apply shape_set_cached; try done; lia.
Qed.

Lemma take_pending hs hz st live need a kept g :
  inv hs hz st live -> NODE_SIZE <= need -> take_raw need (global st) = (Some (a, kept), g) ->
  pending hs hz (set_global st g) live (mkNode a kept) /\ need <= kept.
Proof.
  intros [Hh Hp Hch Hsh Hl] Hn Ht.
  assert (forall x, cov x (global st) <= 1) as Hle.
  { intros x. specialize (Hp x). pose proof (cov_nonneg x (live_blocks live)).
    pose proof (cached_cov_nonneg x st).
    revert Hp. unfold inb. split_ifs; lia. }
  destruct (take_raw_spec _ _ _ _ _ Hn Hch Hle Ht) as (Hk & Ha & Hg & Hcov).
  split; [|lia]. split; [done| |done|by destruct Hsh|done].
  intros x. specialize (Hp x). rewrite Hcov in Hp.
  rewrite <- (cached_cov_ext x st); [simpl; lia|done].
Qed.

(** What [alloc] guarantees from a state satisfying the invariant. *)
Definition alloc_post (hs hz : Z) (st : KernelAllocator) (live : list Live) (cpu_index : nat)
    (lsize lalign : Z) (r : option Z * KernelAllocator) : Prop :=
  let '(res, st') := r in
  match res with
  | Some p =>
      exists b, inv hs hz st' (mkLive p lsize b :: live) /\ p mod lalign = 0 /\
        headers st' !! (p - HEADER) = Some (mkHeader (n_addr b) (n_size b))
  | None =>
      st' = st /\
      let need := need_of lsize lalign in
      Forall (fun b => n_size b < default need (class_size <$> class_for need)) (global st) /\
      forall ci, class_for need = Some ci -> cached st (cpu cpu_index) ci = []
  end.

Lemma alloc_raw_meets hs hz st live need lsize lalign r st' :
  inv hs hz st live -> layout_ok lsize lalign -> need_of lsize lalign <= need ->
  NODE_SIZE <= need -> alloc_raw need (eff_align lalign) st = (r, st') ->
  match r with
  | Some p => exists b, inv hs hz st' (mkLive p lsize b :: live) /\ p mod lalign = 0 /\
        headers st' !! (p - HEADER) = Some (mkHeader (n_addr b) (n_size b))
  | None => st' = st /\ Forall (fun b => n_size b < need) (global st)
  end.
Proof.
  intros Hi Hlay Hn Hnode. unfold alloc_raw.
  destruct (take_raw need (global st)) as [[[a kept]|] g] eqn:Et.
  - destruct (take_pending _ _ _ _ _ _ _ _ Hi Hnode Et) as [Hpd Hk].
    destruct (finish_alloc _ _ _ _) as [p st1] eqn:Ef. intros [= <- <-].
    exists (mkNode a kept).
    exact (finish_alloc_inv _ _ _ _ (mkNode a kept) _ _ _ _ Hpd Hlay ltac:(simpl; lia) Ef).
  - intros [= <- <-]. revert Et. unfold take_raw. pose proof (first_fit_spec need [] (global st)) as Hff.
    destruct (first_fit _ _ _) as [[[??]?]|]; [split_if; done|]. intros [= <-].
    split; [by destruct st|done].
Qed.

Lemma alloc_meets hs hz st live cpu_index lsize lalign :
  inv hs hz st live -> layout_ok lsize lalign ->
  alloc_post hs hz st live cpu_index lsize lalign (alloc cpu_index lsize lalign st).
Proof.
  intros Hi Hlay. pose proof (need_of_spec _ _ Hlay) as Hneed. unfold alloc_post, alloc.
  assert (NODE_SIZE <= need_of lsize lalign) as Hn16.
  { destruct Hlay as (? & _). unfold HEADER, NODE_SIZE, eff_align, NODE_ALIGN in *. lia. }
  destruct (class_for (need_of lsize lalign)) as [ci|] eqn:Ec; cbn zeta; simpl.
  - destruct (class_for_spec _ _ Ec) as (Hci & Hle & Hcs).
    destruct (cached st (cpu cpu_index) ci) as [|a stack] eqn:Es.
    + destruct (alloc_raw _ _ _) as [r st'] eqn:Er.
      pose proof (alloc_raw_meets _ _ _ _ _ _ _ _ _ Hi Hlay Hle ltac:(unfold NODE_SIZE; lia) Er) as Hr.
      destruct r as [p|]; [done|]. destruct Hr as [-> Hr]. split_and!; [done..|].
      by intros ci' [= <-].
    + pose proof (pop_pending _ _ _ _ _ _ _ _ Hi (cpu_lt cpu_index) Hci Es) as Hpd.
      exists (mkNode a (class_size ci)).
      exact (finish_alloc_inv _ _ _ _ (mkNode a (class_size ci)) _ _ _ _ Hpd Hlay Hle eq_refl).
  - destruct (alloc_raw _ _ _) as [r st'] eqn:Er.
    pose proof (alloc_raw_meets _ _ _ _ _ _ _ _ _ Hi Hlay ltac:(done) Hn16 Er) as Hr.
    destruct r as [p|]; [done|]. destruct Hr as [-> Hr]. by split_and!.
Qed.

(** [alloc] under the heap invariant.  On success the pointer is aligned as the
    layout asks, its header records the block, the payload lies inside that block after
    the header, and the invariant (every heap byte in exactly one free, cached or
    allocated block) holds with the new allocation; it returns null only when the CPU's
    cache for the class is empty and every free node is too small, and then nothing
    changes. *)
Theorem alloc_spec hs hz st live cpu_index lsize lalign :
  inv hs hz st live -> layout_ok lsize lalign ->
  alloc_post hs hz st live cpu_index lsize lalign (alloc cpu_index lsize lalign st).
Proof. apply alloc_meets. Qed.

Lemma give_inv hs hz st live l1 l2 e :
  inv hs hz st live -> live = l1 ++ e :: l2 ->
  inv hs hz (set_global st (give_raw (n_addr (l_block e)) (n_size (l_block e)) (global st))) (l1 ++ l2).
Proof.
  intros [Hh Hp Hch Hsh Hl] ->. apply Forall_app in Hl as [Hl1 Hl2].
  apply Forall_cons_1 in Hl2 as [(He1 & He2 & He3 & He4) Hl2]. unfold HEADER in *.
  assert (mkNode (n_addr (l_block e)) (n_size (l_block e)) = l_block e) as Heta by by destruct (l_block e).
  split; [done| | |by destruct Hsh|by apply Forall_app].
  - intros x. simpl. unfold give_raw. rewrite cov_insert, Heta; [|unfold NODE_SIZE; lia|by eapply chain_sizes].
    rewrite <- (cached_cov_ext x st) by done. specialize (Hp x). rewrite cov_live_mid in Hp. lia.
  - simpl. unfold give_raw. apply chain_insert; [unfold NODE_SIZE; lia| |done|].
    + destruct (pending_bounds hs hz st (l1 ++ l2) (l_block e)) as [? _]; [|lia..].
      split; [done| |done|done|by apply Forall_app].
      intros x. specialize (Hp x). rewrite cov_live_mid in Hp. lia.
    + intros x. rewrite Heta. specialize (Hp x). rewrite cov_live_mid in Hp.
      pose proof (cached_cov_nonneg x st). pose proof (cov_nonneg x (live_blocks (l1 ++ l2))).
      revert Hp. unfold inb at 2. split_ifs; lia.
Qed.

Lemma dealloc_inv hs hz st live l1 l2 e cpu_index :
  inv hs hz st live -> live = l1 ++ e :: l2 ->
  exists st', dealloc cpu_index (l_ptr e) st = Some st' /\ inv hs hz st' (l1 ++ l2).
Proof.
  intros Hi Hlive. pose proof (give_inv _ _ _ _ _ _ _ Hi Hlive) as Hgive.
  pose proof Hi as [Hh Hp Hch Hsh Hl]. subst live. pose proof Hl as Hl'.
  apply Forall_app in Hl as [Hl1 Hl2].
  apply Forall_cons_1 in Hl2 as [(He1 & He2 & He3 & He4) Hl2].
  unfold dealloc. rewrite He1. simpl. eexists. split; [done|].
  destruct (exact_class (n_size (l_block e))) as [ci|] eqn:Ec; [|done].
  destruct (exact_class_spec _ _ Ec) as [Hci Hcs].
  destruct (_ <? CACHE_CAP) eqn:Ecap; zbool; [|done].
  pose proof (cpu_lt cpu_index) as Hc.
  split; [done| |done| |by apply Forall_app].
  - intros x. rewrite cached_cov_set by done. rewrite cov_class_cons, Hcs. simpl.
    specialize (Hp x). rewrite cov_live_mid in Hp.
    assert (mkNode (n_addr (l_block e)) (n_size (l_block e)) = l_block e) as ->
      by by destruct (l_block e). lia.
  - destruct (sh_counts _ Hsh _ _ Hc Hci) as [Hn _].
    apply shape_set_cached; try done; simpl; lia.
Qed.

(** * Traces of allocations and frees on any CPUs *)

Inductive event := EAlloc (cpu_index : nat) (lsize lalign : Z) (r : option Z) | EFree (cpu_index : nat) (ptr : Z).

Inductive step : KernelAllocator * list Live -> event -> KernelAllocator * list Live -> Prop :=
  | step_alloc st st' live c lsize lalign p a s :
      layout_ok lsize lalign -> alloc c lsize lalign st = (Some p, st') ->
      headers st' !! (p - HEADER) = Some (mkHeader a s) ->
      step (st, live) (EAlloc c lsize lalign (Some p)) (st', mkLive p lsize (mkNode a s) :: live)
  | step_null st st' live c lsize lalign :
      layout_ok lsize lalign -> alloc c lsize lalign st = (None, st') ->
      step (st, live) (EAlloc c lsize lalign None) (st', live)
  | step_free st st' l1 e l2 c :
      dealloc c (l_ptr e) st = Some st' -> step (st, l1 ++ e :: l2) (EFree c (l_ptr e)) (st', l1 ++ l2).

Lemma step_inv hs hz s e s' : inv hs hz s.1 s.2 -> step s e s' -> inv hs hz s'.1 s'.2.
Proof.
  intros Hi Hs. destruct Hs as [st st' live c ls la p a sz Hlay Ha Hh|st st' live c ls la Hlay Ha|st st' l1 e l2 c Hd];
    simpl in *.
  - pose proof (alloc_meets _ _ _ _ c _ _ Hi Hlay) as H. rewrite Ha in H. simpl in H.
    destruct H as (b & Hi' & _ & Hb). rewrite Hh in Hb. injection Hb as -> ->. by destruct b.
  - pose proof (alloc_meets _ _ _ _ c _ _ Hi Hlay) as H. rewrite Ha in H. by destruct H as [-> _].
  - destruct (dealloc_inv _ _ _ _ _ _ _ c Hi eq_refl) as (st1 & Hd1 & Hi1).
    rewrite Hd in Hd1. by injection Hd1 as ->.
Qed.

(** Two allocations held at once: headers and payloads do not overlap. *)
Definition apart (e1 e2 : Live) : Prop :=
  l_ptr e1 + l_size e1 <= l_ptr e2 - HEADER \/ l_ptr e2 + l_size e2 <= l_ptr e1 - HEADER.

Lemma inv_apart hs hz st live (i j : nat) e1 e2 :
  inv hs hz st live -> (i < j)%nat -> live !! i = Some e1 -> live !! j = Some e2 -> apart e1 e2.
Proof.
  intros [Hh Hp _ _ Hl] Hij H1 H2.
  pose proof (Forall_lookup_1 _ _ _ _ Hl H1) as (_ & ? & ? & ?).
  pose proof (Forall_lookup_1 _ _ _ _ Hl H2) as (_ & ? & ? & ?).
  rewrite <- (take_drop_middle live i e1 H1) in Hp.
  assert (e2 ∈ drop (S i) live) as Hin.
  { apply list_elem_of_lookup. exists (j - S i)%nat. rewrite lookup_drop.
    by replace (S i + (j - S i))%nat with j by lia. }
  unfold apart, HEADER in *.
  destruct (cov_apart (l_block e1) (l_block e2) (live_blocks (drop (S i) live))); try lia.
  - intros x. specialize (Hp x). rewrite cov_live_mid in Hp. unfold live_blocks in *.
    rewrite fmap_app, cov_app in Hp. pose proof (cov_nonneg x (global st)).
    pose proof (cached_cov_nonneg x st). pose proof (cov_nonneg x (l_block <$> take i live)).
    revert Hp. unfold inb at 2. split_ifs; lia.
  - by apply list_elem_of_fmap_2.
Qed.

Lemma init_inv hs hz :
  0 <= hs -> NODE_SIZE <= hz -> hs + hz < u64_bound -> inv hs hz (init hs hz ALLOCATOR) [].
Proof.
  intros Hs Hz Hb. assert (global (init hs hz ALLOCATOR) = [mkNode hs hz]) as Hg.
  { simpl. unfold insert_nolock. destruct (hz <? NODE_SIZE) eqn:E; zbool; [lia|done]. }
  split; [done| | | |constructor].
  - intros x. rewrite Hg. change (cached_cov x (init hs hz ALLOCATOR)) with 0.
    unfold cov. simpl. lia.
  - rewrite Hg. simpl. split_and!; [lia|done..].
  - split; [done|by repeat constructor|]. intros c ci Hc Hci. unfold MAX_CPUS, NCLASS in *.
    do 16 (destruct c as [|c];
      [do 6 (destruct ci as [|ci]; [done|]); lia|]). lia.
Qed.

(** C3: the heap invariant is never lost.  Starting from [init] on any heap region,
    every sequence of allocations (successful or not) and frees, on any CPUs and in any
    order, keeps every heap byte in exactly one block, keeps the free list sorted and
    coalesced, and any two allocations held at the same time have disjoint headers and
    payloads. *)
Theorem heap_trace_safe hs hz es st live :
  0 <= hs -> NODE_SIZE <= hz -> hs + hz < u64_bound ->
  trace step (init hs hz ALLOCATOR, []) es (st, live) ->
  inv hs hz st live /\
  forall (i j : nat) e1 e2, (i < j)%nat -> live !! i = Some e1 -> live !! j = Some e2 -> apart e1 e2.
Proof.
  intros Hs Hz Hb Htr.
  assert (inv hs hz st live) as Hi.
  { apply (trace_invariant step (fun s => inv hs hz s.1 s.2) _ _ _) in Htr; [done| |by apply init_inv].
    intros s e s'. apply step_inv. }
  split; [done|]. eauto using inv_apart.
Qed.

Lemma cov_out_of_chain (e x : Z) (l : list FreeNode) : chain e l -> x <= e -> cov x l = 0.
Proof.
  revert e. induction l as [|b l IH]; intros e; [done|]. intros (H1 & H2 & H3) Hx.
  unfold NODE_SIZE in *. rewrite cov_cons, (IH _ H3) by lia. unfold inb. split_ifs; lia.
Qed.

Lemma chain_covers_heap (hs hz : Z) (l : list FreeNode) :
  0 < hz -> chain (hs - 1) l -> (forall x, cov x l = inb x (mkNode hs hz)) -> l = [mkNode hs hz].
Proof.
  intros Hz Hch Hcov. destruct l as [|b l].
  { specialize (Hcov hs). unfold cov, inb in Hcov. simpl in Hcov. split_ifs; lia. }
  destruct Hch as (Hb1 & Hb2 & Hl). unfold NODE_SIZE in *.
  assert (forall x, x <= n_addr b + n_size b -> inb x b = inb x (mkNode hs hz)) as Hin.
  { intros x Hx. specialize (Hcov x). rewrite cov_cons, (cov_out_of_chain _ _ _ Hl Hx) in Hcov. lia. }
  pose proof (Hin hs) as H1. pose proof (Hin (n_addr b)) as H2.
  pose proof (Hin (n_addr b + n_size b)) as H3. pose proof (Hin (n_addr b + n_size b - 1)) as H4.
  unfold inb in H1, H2, H3, H4. simpl in *.
  assert (n_addr b = hs /\ n_size b = hz) as [Ha Hsz] by (split_ifs; lia).
  destruct b as [ba bz]. simpl in *. subst. f_equal. destruct l as [|c l]; [done|].
  destruct Hl as (Hc1 & Hc2 & _). specialize (Hcov (n_addr c)). rewrite !cov_cons in Hcov.
  pose proof (cov_nonneg (n_addr c) l). unfold NODE_SIZE in *. unfold inb in Hcov. simpl in Hcov.
  split_ifs; lia.
Qed.

(** No fragmentation survives.  Whenever nothing is allocated and the per-CPU caches
    are empty, whatever sequence of allocations and frees led there, the free list is a
    single node spanning the whole heap. *)
Theorem heap_whole_again hs hz es st :
  0 <= hs -> NODE_SIZE <= hz -> hs + hz < u64_bound ->
  trace step (init hs hz ALLOCATOR, []) es (st, []) ->
  (forall c ci, (c < MAX_CPUS)%nat -> (ci < NCLASS)%nat -> cached st c ci = []) ->
  global st = [mkNode hs hz].
Proof.
  intros Hs Hz Hb Htr Hempty.
  assert (inv hs hz st []) as [_ Hp Hch _ _].
  { apply (trace_invariant step (fun s => inv hs hz s.1 s.2) _ _ _) in Htr; [done| |by apply init_inv].
    intros s e s'. apply step_inv. }
  unfold NODE_SIZE in *. apply chain_covers_heap; [lia|done|]. intros x. rewrite <- Hp.
  assert (cached_cov x st = 0) as ->; [|unfold live_blocks, cov at 3; simpl; lia].
  transitivity (zsum (fun _ : nat => 0) (seq 0 MAX_CPUS)); [|done].
  apply zsum_ext. intros c Hc%elem_of_seq.
  transitivity (zsum (fun _ : nat => 0) (seq 0 NCLASS)); [|done].
  apply zsum_ext. intros ci Hci%elem_of_seq. by rewrite Hempty by lia.
Qed.

(** ** Witnesses: a 64 KiB heap at 1 MiB *)

Definition heap0 : KernelAllocator := init 1048576 65536 ALLOCATOR.

Lemma layout_3000_64 : layout_ok 3000 64.
Proof. split_and!; [lia|exists 6; split; [lia|done]|lia]. Qed.

Lemma alloc_spec_witness :
  alloc_post 1048576 65536 heap0 [] 0 3000 64 (alloc 0 3000 64 heap0) /\
  fst (alloc 0 3000 64 heap0) = Some (1048576 + 64).
Proof.
  split; [|reflexivity].
  apply alloc_spec; [apply init_inv; rewrite ?u64_bound_val; unfold NODE_SIZE; lia|exact layout_3000_64].
Defined.

(** One large allocation and its free. *)
Lemma heap0_trace :
  trace step (heap0, []) [EAlloc 0 3000 64 (Some 1048640); EFree 0 1048640]
    (default heap0 (dealloc 0 1048640 (snd (alloc 0 3000 64 heap0))), []).
Proof.
  eapply trace_cons; [eapply step_alloc; [exact layout_3000_64|reflexivity|reflexivity]|].
  eapply trace_cons; [|apply trace_nil].
  apply (step_free _ _ [] (mkLive 1048640 3000 _) []). reflexivity.
Qed.

Lemma heap_trace_safe_witness :
  inv 1048576 65536 (snd (alloc 0 3000 64 heap0)) [mkLive 1048640 3000 (mkNode 1048576 3080)] /\
  forall (i j : nat) e1 e2, (i < j)%nat ->
    [mkLive 1048640 3000 (mkNode 1048576 3080)] !! i = Some e1 ->
    [mkLive 1048640 3000 (mkNode 1048576 3080)] !! j = Some e2 -> apart e1 e2.
Proof.
  apply (heap_trace_safe 1048576 65536 [EAlloc 0 3000 64 (Some 1048640)]);
    [lia|unfold NODE_SIZE; lia|rewrite u64_bound_val; lia|].
  eapply trace_cons; [eapply step_alloc; [exact layout_3000_64|reflexivity|reflexivity]|apply trace_nil].
Defined.

Lemma heap_whole_again_witness :
  global (default heap0 (dealloc 0 1048640 (snd (alloc 0 3000 64 heap0)))) = [mkNode 1048576 65536].
Proof.
  apply (heap_whole_again 1048576 65536 [EAlloc 0 3000 64 (Some 1048640); EFree 0 1048640]);
    [lia|unfold NODE_SIZE; lia|rewrite u64_bound_val; lia|exact heap0_trace|].
  intros c ci Hc Hci. unfold MAX_CPUS, NCLASS in *.
  do 16 (destruct c as [|c]; [do 6 (destruct ci as [|ci]; [reflexivity|]); lia|]). lia.
Defined.

End Allocator.
