(* ===== verification/Vmm.v ===== *)
(** Page tables: [crates/kernel/src/memory/vmm.rs].

    Physical memory is a finite map from word address to word (identity-mapped,
    as the kernel sees it).  Tables come from the kernel heap through
    [TableAllocator], which [heap_tables] discharges with the heap of
    [Allocator.v].  The TLB and the [EFER] write of [init] are not part of the
    state. *)
From stdpp Require Import base list numbers option gmap.
From S2P Require Import Prelude Allocator.

Open Scope Z_scope.
Open Scope kazu_scope.

(** What the page-table code relies on: aligned tables, never the same one twice. *)
Class TableAllocator (A : Type) := {
  ta_alloc : A -> option Z * A;
  ta_owned : A -> Z -> Prop;
  ta_wf : A -> Prop;
}.

Class TableAllocatorLaws (A : Type) `{TableAllocator A} := {
  ta_alloc_Some (a a' : A) (t : Z) :
    ta_wf a -> ta_alloc a = (Some t, a') ->
    ta_wf a' /\ 0 < t < 2 ^ 52 /\ t mod 4096 = 0 /\ ~ ta_owned a t /\ ta_owned a' t /\
    forall u, ta_owned a u -> ta_owned a' u;
  ta_alloc_None (a a' : A) : ta_wf a -> ta_alloc a = (None, a') -> a' = a;
}.

Module Vmm.

Definition PAGE_SIZE : Z := 4096.
Definition PRESENT : Z := 1.
Definition WRITABLE : Z := 2.
Definition USER : Z := 4.
Definition PWT : Z := 8.
Definition PCD : Z := 16.
Definition NO_EXECUTE : Z := 2 ^ 63.
Definition ADDR_MASK : Z := 4503599627366400. (* 0x000f_ffff_ffff_f000 *)

Inductive MapError := OutOfMemory | InvalidAddress.

(** [MapFlags] is its [u64]. *)
Definition READ : Z := 0.
Definition READ_WRITE : Z := WRITABLE.
Definition USER_READ : Z := USER.
Definition USER_READ_WRITE : Z := Z.lor USER WRITABLE.
Definition USER_MMIO : Z := Z.lor (Z.lor (Z.lor USER WRITABLE) PWT) PCD.
Definition no_execute (f : Z) : Z := Z.lor f NO_EXECUTE.

Section Ops.
Context {A : Type} `{TableAllocator A}.

Record State := mkState {
  mem : gmap Z Z;
  tables : A;
  kernel_pml4 : Z;
  current_pml4 : Z
}.

Definition read (m : gmap Z Z) (a : Z) : Z := default 0 (m !! a).
Definition entry_at (m : gmap Z Z) (t i : Z) : Z := read m (t + 8 * i).

Definition set_mem (m : gmap Z Z) (st : State) : State :=
  mkState m (tables st) (kernel_pml4 st) (current_pml4 st).

(** [table.add(i).write_volatile(v)]. *)
Definition write_entry (t i v : Z) : SE State MapError unit :=
  fun st => (Ok tt, set_mem (<[t + 8 * i := v]> (mem st)) st).

Definition present (e : Z) : bool := negb (Z.land e PRESENT =? 0).

Definition pml4_i (virt : Z) : Z := Z.land (Z.shiftr virt 39) 511.
Definition pdpt_i (virt : Z) : Z := Z.land (Z.shiftr virt 30) 511.
Definition pd_i (virt : Z) : Z := Z.land (Z.shiftr virt 21) 511.
Definition pt_i (virt : Z) : Z := Z.land (Z.shiftr virt 12) 511.

(** The 512 zero words [alloc_zeroed] leaves. *)
Fixpoint zero_words (n : nat) (t : Z) (m : gmap Z Z) : gmap Z Z :=
  match n with O => m | S n' => zero_words n' t (<[t + 8 * Z.of_nat n' := 0]> m) end.

Definition alloc_table : SE State MapError Z :=
  fun st =>
    match ta_alloc (tables st) with
    | (Some t, a') => (Ok t, mkState (zero_words 512 t (mem st)) a' (kernel_pml4 st) (current_pml4 st))
    | (None, a') => (Err OutOfMemory, mkState (mem st) a' (kernel_pml4 st) (current_pml4 st))
    end.

Definition next_table (parent index flags : Z) : SE State MapError Z :=
  fun st =>
    let entry := entry_at (mem st) parent index in
    if present entry then (Ok (Z.land entry ADDR_MASK), st) else
    (let? table := alloc_table in
     let value := Z.lor (Z.lor (Z.lor (Z.land table ADDR_MASK) PRESENT) WRITABLE) (Z.land flags USER) in
     let? _ := write_entry parent index value in
     se_ret table) st.

Definition map_page (cr3 virt phys flags : Z) : SE State MapError unit :=
  if negb (Z.land virt (PAGE_SIZE - 1) =? 0) || negb (Z.land phys (PAGE_SIZE - 1) =? 0)
  then se_err InvalidAddress
  else
    let pml4 := Z.land cr3 ADDR_MASK in
    let? pdpt := next_table pml4 (pml4_i virt) flags in
    let? pd := next_table pdpt (pdpt_i virt) flags in
    let? pt := next_table pd (pd_i virt) flags in
    write_entry pt (pt_i virt) (Z.lor (Z.lor (Z.land phys ADDR_MASK) PRESENT) flags).

Fixpoint map_pages (n : nat) (page cr3 virt phys flags : Z) : SE State MapError unit :=
  match n with
  | O => se_ret tt
  | S n' =>
      let? _ := map_page cr3 (wrap64 (virt + page * PAGE_SIZE)) (wrap64 (phys + page * PAGE_SIZE)) flags in
      map_pages n' (page + 1) cr3 virt phys flags
  end.

Definition map_range (cr3 virt phys size flags : Z) : SE State MapError unit :=
  if size =? 0 then se_ret tt
  else map_pages (Z.to_nat (div_ceil size PAGE_SIZE)) 0 cr3 virt phys flags.

(** [None] is the null pointer. *)
Definition table_if_present (m : gmap Z Z) (parent index : Z) : option Z :=
  let entry := entry_at m parent index in
  if present entry then Some (Z.land entry ADDR_MASK) else None.

Definition unmap_page (cr3 virt : Z) (st : State) : State :=
  let pml4 := Z.land cr3 ADDR_MASK in
  match table_if_present (mem st) pml4 (pml4_i virt) with
  | None => st
  | Some pdpt =>
      match table_if_present (mem st) pdpt (pdpt_i virt) with
      | None => st
      | Some pd =>
          match table_if_present (mem st) pd (pd_i virt) with
          | None => st
          | Some pt => set_mem (<[pt + 8 * pt_i virt := 0]> (mem st)) st
          end
      end
  end.

Fixpoint unmap_pages (n : nat) (page cr3 virt : Z) (st : State) : State :=
  match n with
  | O => st
  | S n' => unmap_pages n' (page + 1) cr3 virt (unmap_page cr3 (wrap64 (virt + page * PAGE_SIZE)) st)
  end.

Definition unmap_range (cr3 virt size : Z) (st : State) : State :=
  if size =? 0 then st else unmap_pages (Z.to_nat (div_ceil size PAGE_SIZE)) 0 cr3 virt st.

Definition translate (cr3 virt : Z) (m : gmap Z Z) : option Z :=
  let pml4 := Z.land cr3 ADDR_MASK in
  pdpt ← table_if_present m pml4 (pml4_i virt);
  pd ← table_if_present m pdpt (pdpt_i virt);
  pt ← table_if_present m pd (pd_i virt);
  let entry := entry_at m pt (pt_i virt) in
  if present entry then Some (Z.land entry ADDR_MASK) else None.

(** The [for level in 0..4] loop. *)
Fixpoint access_walk (levels : nat) (level table virt need : Z) (m : gmap Z Z) : bool :=
  match levels with
  | O => false
  | S n =>
      let shift := 39 - level * 9 in
      let index := Z.land (Z.shiftr virt shift) 511 in
      let entry := entry_at m table index in
      if negb (present entry) || negb (Z.land entry need =? need) then false
      else if level =? 3 then true
      else access_walk n (level + 1) (Z.land entry ADDR_MASK) virt need m
  end.

Definition user_accessible (cr3 virt : Z) (write : bool) (m : gmap Z Z) : bool :=
  let need := Z.lor USER (if write then WRITABLE else 0) in
  access_walk 4 0 (Z.land cr3 ADDR_MASK) virt need m.

(** [for i in lo..lo+n { dst[i] = f(i) }], [f] reading the memory of that moment. *)
Fixpoint fill (n : nat) (i dst : Z) (f : gmap Z Z -> Z -> Z) (m : gmap Z Z) : gmap Z Z :=
  match n with O => m | S n' => fill n' (i + 1) dst f (<[dst + 8 * i := f m i]> m) end.

Definition create_address_space : SE State MapError Z :=
  let? pml4 := alloc_table in
  fun st =>
    let kernel := kernel_pml4 st in
    let m := <[pml4 + 8 * 0 := entry_at (mem st) kernel 0]> (mem st) in
    let m := fill 255 1 pml4 (fun _ _ => 0) m in
    let m := fill 256 256 pml4 (fun m i => entry_at m kernel i) m in
    (Ok pml4, set_mem m st).

Definition free_user_address_space (cr3 : Z) (st : State) : State :=
  let pml4_phys := Z.land cr3 ADDR_MASK in
  if (pml4_phys =? 0) || (pml4_phys =? Z.land (kernel_pml4 st) ADDR_MASK) then st
  else set_mem (fill 255 1 pml4_phys (fun _ _ => 0) (mem st)) st.

(** [init] and [switch_cr3], with the register's value [cr3]. *)
Definition init (cr3 : Z) (st : State) : State :=
  let cr3 := Z.land cr3 ADDR_MASK in mkState (mem st) (tables st) cr3 cr3.
Definition switch_cr3 (cr3 : Z) (st : State) : State :=
  mkState (mem st) (tables st) (kernel_pml4 st) (Z.land cr3 ADDR_MASK).

End Ops.
#[global] Arguments State A : clear implicits.

(** * Entry bits *)

Lemma present_testbit (e : Z) : present e = Z.testbit e 0.
Proof.
  unfold present, PRESENT. change 1 with (Z.ones 1). rewrite Z.land_ones by lia.
  change (2 ^ 1) with 2. rewrite <- Z.bit0_mod. by destruct (Z.testbit e 0).
Qed.

Lemma land_addr_mask (x : Z) : Z.land x ADDR_MASK = x mod 2 ^ 52 - x mod 4096.
Proof.
  change ADDR_MASK with (Z.ldiff (Z.ones 52) (Z.ones 12)).
  assert (Z.land x (Z.ldiff (Z.ones 52) (Z.ones 12)) = Z.ldiff (Z.land x (Z.ones 52)) (Z.ones 12)) as ->.
  { apply Z.bits_inj'. intros n Hn. rewrite !Z.land_spec, !Z.ldiff_spec, Z.land_spec.
    by destruct (Z.testbit x n), (Z.testbit (Z.ones 52) n), (Z.testbit (Z.ones 12) n). }
  rewrite Z.land_ones by lia. rewrite Z.ldiff_land, land_lnot_ones by lia. f_equal.
  change (2 ^ 12) with 4096. symmetry. rewrite (Z.mod_mod_divide x (2 ^ 52) 4096); [done|].
  by exists (2 ^ 40).
Qed.

Lemma land_addr_mask_id (t : Z) : 0 <= t < 2 ^ 52 -> t mod 4096 = 0 -> Z.land t ADDR_MASK = t.
Proof. intros Ht Hm. rewrite land_addr_mask, Hm, Z.mod_small; lia. Qed.

(** Flag bits that do not overlap the address field. *)
Definition flags_ok (f : Z) : Prop := Z.land f ADDR_MASK = 0.

Lemma entry_addr (t f : Z) :
  0 <= t < 2 ^ 52 -> t mod 4096 = 0 -> flags_ok f ->
  Z.land (Z.lor (Z.lor (Z.land t ADDR_MASK) PRESENT) f) ADDR_MASK = t.
Proof.
  intros Ht Hm Hf. rewrite !Z.land_lor_distr_l, Hf.
  rewrite (land_addr_mask_id t) by done. rewrite (land_addr_mask_id t) by done.
  change (Z.land PRESENT ADDR_MASK) with 0. by rewrite !Z.lor_0_r.
Qed.

Lemma entry_present (t f : Z) : present (Z.lor (Z.lor t PRESENT) f) = true.
Proof. rewrite present_testbit, !Z.lor_spec. change (Z.testbit PRESENT 0) with true. by rewrite orb_true_r. Qed.

(** The value [next_table] stores, with the flag bits gathered. *)
Lemma table_entry_eq (t flags : Z) :
  Z.lor (Z.lor (Z.lor (Z.land t ADDR_MASK) PRESENT) WRITABLE) (Z.land flags USER) =
  Z.lor (Z.lor (Z.land t ADDR_MASK) PRESENT) (Z.lor WRITABLE (Z.land flags USER)).
Proof. by rewrite Z.lor_assoc. Qed.

Lemma table_flags_ok (flags : Z) : flags_ok (Z.lor WRITABLE (Z.land flags USER)).
Proof.
  unfold flags_ok. rewrite Z.land_lor_distr_l, <- Z.land_assoc.
  change (Z.land USER ADDR_MASK) with 0. by rewrite Z.land_0_r.
Qed.

(** ** Indices *)

Definition idxs (virt : Z) : list Z := [pml4_i virt; pdpt_i virt; pd_i virt; pt_i virt].

Lemma index_eq (virt s : Z) : 0 <= s -> Z.land (Z.shiftr virt s) 511 = (virt / 2 ^ s) mod 512.
Proof.
  intros Hs. change 511 with (Z.ones 9). rewrite Z.land_ones, Z.shiftr_div_pow2 by lia. done.
Qed.

Definition USER_MIN : Z := 549755813888.     (* 0x0000_0080_0000_0000 *)
Definition USER_MAX : Z := 140737488355328.  (* 0x0000_8000_0000_0000 *)
Definition is_user (v : Z) : Prop := USER_MIN <= v < USER_MAX.

Lemma idxs_page (v w : Z) :
  is_user v -> is_user w -> idxs v = idxs w <-> v / 4096 = w / 4096.
Proof.
  unfold is_user, USER_MIN, USER_MAX, idxs, pml4_i, pdpt_i, pd_i, pt_i. intros Hv Hw.
  rewrite !index_eq by lia. change (2 ^ 39) with (4096 * 512 * 512 * 512).
  change (2 ^ 30) with (4096 * 512 * 512). change (2 ^ 21) with (4096 * 512). change (2 ^ 12) with 4096.
  rewrite <- !Z.div_div by lia. set (a := v / 4096). set (b := w / 4096).
  assert (0 <= a < 512 * 512 * 512 * 512) by (unfold a; Z.to_euclidean_division_equations; lia).
  assert (0 <= b < 512 * 512 * 512 * 512) by (unfold b; Z.to_euclidean_division_equations; lia).
  split; [|by intros ->]. intros [= H1 H2 H3 H4]. clearbody a b. clear Hv Hw.
  Z.to_euclidean_division_equations. lia.
Qed.

(** An index of a table with path [p]; the root is restricted to its user entries. *)
Definition idx_ok (p : list Z) (i : Z) : Prop := 0 <= i < 512 /\ (p = [] -> 1 <= i < 256).

Fixpoint path_ok (p js : list Z) : Prop :=
  match js with [] => True | i :: js' => idx_ok p i /\ path_ok (p ++ [i]) js' end.

Lemma idxs_ok (v : Z) : is_user v -> path_ok [] (idxs v).
Proof.
  unfold is_user, USER_MIN, USER_MAX. intros Hv.
  unfold idxs, pml4_i, pdpt_i, pd_i, pt_i. simpl. unfold idx_ok. rewrite !index_eq by lia.
  pose proof (Z.mod_pos_bound (v / 2 ^ 39) 512 ltac:(lia)).
  pose proof (Z.mod_pos_bound (v / 2 ^ 30) 512 ltac:(lia)).
  pose proof (Z.mod_pos_bound (v / 2 ^ 21) 512 ltac:(lia)).
  pose proof (Z.mod_pos_bound (v / 2 ^ 12) 512 ltac:(lia)).
  assert (1 <= v / 2 ^ 39 < 256).
  { change (2 ^ 39) with 549755813888. Z.to_euclidean_division_equations; lia. }
  split_and!; try done; intros; try done; lia || (rewrite Z.mod_small; lia).
Qed.

(** * Page tables as a map from (root, page) to leaf entry *)

Fixpoint walk (m : gmap Z Z) (t : Z) (js : list Z) : option Z :=
  match js with
  | [] => None
  | i :: js' =>
      let e := entry_at m t i in
      if present e then match js' with [] => Some e | _ => walk m (Z.land e ADDR_MASK) js' end
      else None
  end.

(** The table reached by following [js]. *)
Fixpoint walk_table (m : gmap Z Z) (t : Z) (js : list Z) : option Z :=
  match js with
  | [] => Some t
  | i :: js' =>
      let e := entry_at m t i in
      if present e then walk_table m (Z.land e ADDR_MASK) js' else None
  end.

Lemma walk_table_app (m : gmap Z Z) (t : Z) (js1 js2 : list Z) :
  walk_table m t (js1 ++ js2) = walk_table m t js1 ≫= (fun u => walk_table m u js2).
Proof.
  revert t. induction js1 as [|j js1 IH]; intros t; simpl; [done|]. by destruct (present _).
Qed.

Lemma walk_snoc (m : gmap Z Z) (t i : Z) (js : list Z) :
  walk m t (js ++ [i]) =
  walk_table m t js ≫= (fun u => let e := entry_at m u i in if present e then Some e else None).
Proof.
  revert t. induction js as [|j js IH]; intros t; simpl; [done|].
  destruct (present _); [|done]. rewrite <- IH. by destruct js.
Qed.

(** The leaf entry of [virt] in the address space rooted at [root]. *)
Definition leaf (m : gmap Z Z) (root virt : Z) : option Z := walk m root (idxs virt).

Lemma translate_leaf (cr3 virt : Z) (m : gmap Z Z) :
  translate cr3 virt m = (fun e => Z.land e ADDR_MASK) <$> leaf m (Z.land cr3 ADDR_MASK) virt.
Proof.
  unfold translate, leaf, idxs, table_if_present. simpl.
  destruct (present _); simpl; [|done]. destruct (present _); simpl; [|done].
  destruct (present _); simpl; [|done]. by destruct (present _).
Qed.

(** ** Memory frame lemmas *)

Definition table_ok (t : Z) : Prop := 0 < t < 2 ^ 52 /\ t mod 4096 = 0.

Lemma slot_inj (t u i j : Z) :
  table_ok t -> table_ok u -> 0 <= i < 512 -> 0 <= j < 512 -> t + 8 * i = u + 8 * j -> t = u /\ i = j.
Proof.
  intros [_ Ht] [_ Hu] Hi Hj Heq.
  pose proof (Z.div_mod t 4096 ltac:(lia)). pose proof (Z.div_mod u 4096 ltac:(lia)). lia.
Qed.

Lemma entry_insert (m : gmap Z Z) (t i v u j : Z) :
  table_ok t -> table_ok u -> 0 <= i < 512 -> 0 <= j < 512 ->
  entry_at (<[t + 8 * i := v]> m) u j = if decide (u = t /\ j = i) then v else entry_at m u j.
Proof.
  intros Ht Hu Hi Hj. unfold entry_at, read. case_decide as Hd.
  - destruct Hd as [-> ->]. by rewrite lookup_insert_eq.
  - rewrite lookup_insert_ne; [done|]. intros Heq. apply Hd.
    destruct (slot_inj t u i j) as [-> ->]; done.
Qed.

Lemma entry_zero_words (n : nat) (t u j : Z) (m : gmap Z Z) :
  table_ok t -> table_ok u -> (n <= 512)%nat -> 0 <= j < 512 ->
  entry_at (zero_words n t m) u j =
  if decide (u = t /\ j < Z.of_nat n) then 0 else entry_at m u j.
Proof.
  intros Ht Hu. revert m. induction n as [|n IH]; intros m Hn Hj; simpl.
  { rewrite decide_False by lia. done. }
  rewrite IH, entry_insert by (done || lia).
  repeat case_decide; try done; lia || (exfalso; lia).
Qed.

Lemma entry_fill (n : nat) (lo t u j : Z) (f : gmap Z Z -> Z -> Z) (m : gmap Z Z) :
  table_ok t -> table_ok u -> 0 <= lo -> lo + Z.of_nat n <= 512 -> 0 <= j < 512 ->
  u <> t \/ j < lo \/ lo + Z.of_nat n <= j ->
  entry_at (fill n lo t f m) u j = entry_at m u j.
Proof.
  intros Ht Hu. revert lo m. induction n as [|n IH]; intros lo m Hlo Hn Hj Hout; simpl; [done|].
  rewrite IH by lia. rewrite entry_insert by (done || lia). by rewrite decide_False by lia.
Qed.

Lemma entry_fill_zero (n : nat) (lo t j : Z) (m : gmap Z Z) :
  table_ok t -> 0 <= lo -> lo + Z.of_nat n <= 512 -> lo <= j < lo + Z.of_nat n ->
  entry_at (fill n lo t (fun _ _ => 0) m) t j = 0.
Proof.
  intros Ht. revert lo m. induction n as [|n IH]; intros lo m Hlo Hn Hj; simpl; [lia|].
  destruct (decide (j = lo)) as [->|Hne]; [|apply IH; lia].
  rewrite entry_fill by (done || lia). rewrite entry_insert by (done || lia).
  by rewrite decide_True.
Qed.

Lemma entry_fill_copy (n : nat) (lo t k j : Z) (m : gmap Z Z) :
  table_ok t -> table_ok k -> k <> t -> 0 <= lo -> lo + Z.of_nat n <= 512 -> lo <= j < lo + Z.of_nat n ->
  entry_at (fill n lo t (fun m i => entry_at m k i) m) t j = entry_at m k j.
Proof.
  intros Ht Hk Hne. revert lo m. induction n as [|n IH]; intros lo m Hlo Hn Hj; simpl; [lia|].
  destruct (decide (j = lo)) as [->|].
  - rewrite entry_fill by (done || lia). rewrite entry_insert by (done || lia). by rewrite decide_True.
  - rewrite IH by lia. rewrite entry_insert by (done || lia). by rewrite decide_False by tauto.
Qed.

#[local] Opaque zero_words fill.

(** * The invariant: user page tables form trees *)

Section Tree.
Context {A : Type} `{TA : TableAllocator A} `{!TableAllocatorLaws A}.

(** [kinds] says, for every page table in use, its address space and the index path
    from that space's root; an address has one kind, so tables are never shared. *)
Record inv (st : State A) (kinds : gmap Z (Z * list Z)) : Prop := {
  inv_wf : ta_wf (tables st);
  inv_owned t k : kinds !! t = Some k -> ta_owned (tables st) t;
  inv_table t r p : kinds !! t = Some (r, p) -> table_ok t /\ (length p <= 3)%nat;
  inv_child t r p i :
    kinds !! t = Some (r, p) -> (length p < 3)%nat -> idx_ok p i ->
    let e := entry_at (mem st) t i in
    present e = true ->
    kinds !! Z.land e ADDR_MASK = Some (r, p ++ [i]) /\
    Z.testbit e 1 = true /\ Z.testbit e 2 = true;
}.

(** Walks from tables of [kinds] see the same leaves in both memories, and pass the
    same tables. *)
Definition same_walks (kinds : gmap Z (Z * list Z)) (m m' : gmap Z Z) : Prop :=
  forall u r p js, kinds !! u = Some (r, p) -> path_ok p js ->
    ((length p + length js = 4)%nat -> walk m' u js = walk m u js) /\
    ((length p + length js <= 3)%nat -> forall t, walk_table m u js = Some t -> walk_table m' u js = Some t).

Definition user_flags (flags : Z) : Prop := flags_ok flags /\ Z.testbit flags 2 = true.

Lemma alloc_table_spec (st st' : State A) (kinds : gmap Z (Z * list Z)) (t : Z) :
  inv st kinds -> alloc_table st = (Ok t, st') ->
  table_ok t /\ kinds !! t = None /\ ta_wf (tables st') /\ ta_owned (tables st') t /\
  (forall u, ta_owned (tables st) u -> ta_owned (tables st') u) /\
  mem st' = zero_words 512 t (mem st) /\ kernel_pml4 st' = kernel_pml4 st.
Proof.
  intros Hi. unfold alloc_table. destruct (ta_alloc (tables st)) as [[t1|] a'] eqn:E; [|done].
  intros [= <- <-]. destruct (ta_alloc_Some _ _ _ (inv_wf _ _ Hi) E) as (? & ? & ? & Hn & ? & ?).
  split_and!; try done. destruct (kinds !! t1) as [k|] eqn:Ek; [|done].
  by destruct Hn; apply (inv_owned _ _ Hi _ _ Ek).
Qed.

Lemma alloc_table_err (st st' : State A) (kinds : gmap Z (Z * list Z)) (e : MapError) :
  inv st kinds -> alloc_table st = (Err e, st') -> e = OutOfMemory /\ st' = st.
Proof.
  intros Hi. unfold alloc_table. destruct (ta_alloc (tables st)) as [[t1|] a'] eqn:E; [done|].
  intros [= <- <-]. apply ta_alloc_None in E as ->; [|by eapply inv_wf]. by destruct st.
Qed.

Lemma walk_zero_table (m : gmap Z Z) (t : Z) (js : list Z) :
  (forall j, 0 <= j < 512 -> entry_at m t j = 0) ->
  (match js with j :: _ => 0 <= j < 512 | [] => True end) -> walk m t js = None.
Proof. intros Hz. destruct js as [|j js]; [done|]. intros Hj. simpl. by rewrite Hz. Qed.

(** Linking a fresh zeroed table below [(parent, i)]: the invariant and all walks. *)
Lemma link_table (st : State A) (kinds : gmap Z (Z * list Z)) (parent i t v : Z) (r : Z) (p : list Z)
    (st' : State A) :
  inv st kinds -> kinds !! parent = Some (r, p) -> (length p < 3)%nat -> idx_ok p i ->
  present (entry_at (mem st) parent i) = false ->
  table_ok t -> kinds !! t = None -> ta_wf (tables st') -> ta_owned (tables st') t ->
  (forall u, ta_owned (tables st) u -> ta_owned (tables st') u) ->
  mem st' = <[parent + 8 * i := v]> (zero_words 512 t (mem st)) ->
  present v = true -> Z.land v ADDR_MASK = t -> Z.testbit v 1 = true -> Z.testbit v 2 = true ->
  inv st' (<[t := (r, p ++ [i])]> kinds) /\ same_walks kinds (mem st) (mem st').
Proof.
  intros Hi Hpar Hlen Hidx Habs Ht Hfresh Hwf Hown Hmono Hmem Hv Hva Hv1 Hv2.
  destruct (inv_table _ _ Hi _ _ _ Hpar) as [Hparok _].
  assert (parent <> t) as Hne by (intros ->; congruence). destruct Hidx as [Hi512 Hroot].
  assert (forall u j, table_ok u -> 0 <= j < 512 -> entry_at (mem st') u j =
            if decide (u = parent /\ j = i) then v else
            if decide (u = t) then 0 else entry_at (mem st) u j) as Hent.
  { intros u j Hu Hj. rewrite Hmem, entry_insert by done. case_decide; [done|].
    rewrite entry_zero_words by (done || lia). clear Hmem. repeat case_decide; try done; lia. }
  clear Hmem. split.
  - split.
    + done.
    + intros u k. rewrite lookup_insert_Some. intros [[<- _]|[_ Hk]]; [done|].
      by apply Hmono, (inv_owned _ _ Hi _ _ Hk).
    + intros u r' p'. rewrite lookup_insert_Some. intros [[<- [= <- <-]]|[_ Hk]].
      * rewrite length_app. simpl. split; [done|lia].
      * by eapply inv_table.
    + intros u r' p' j. rewrite lookup_insert_Some. intros [[<- [= <- <-]]|[Hnu Hk]] Hl Hj.
      * rewrite Hent by (done || apply Hj). rewrite decide_False by (intros [? _]; congruence).
        rewrite decide_True by done. done.
      * destruct (inv_table _ _ Hi _ _ _ Hk) as [Huok _].
        rewrite Hent by (done || apply Hj). case_decide as Hd.
        { destruct Hd as [-> ->]. intros e _. unfold e. rewrite Hpar in Hk. injection Hk as <- <-.
          rewrite Hva, lookup_insert_eq. done. }
        rewrite decide_False by done. intros e He.
        destruct (inv_child _ _ Hi _ _ _ _ Hk Hl Hj He) as (Hc & ? & ?).
        rewrite lookup_insert_ne; [done|]. intros Heq. unfold e in Heq. rewrite <- Heq in Hc. congruence.
  - intros u r' p' js. revert u p'. induction js as [|j js IH]; intros u p' Hk Hpath; [done|].
    destruct Hpath as [Hj Hpath]. destruct (inv_table _ _ Hi _ _ _ Hk) as [Huok Hul].
    assert (u <> t) by (intros ->; congruence). simpl. rewrite Hent by (done || apply Hj).
    case_decide as Hd.
    + destruct Hd as [-> ->]. rewrite Hpar in Hk. injection Hk as <- <-.
      rewrite Habs, Hv. split; [|done]. intros Hl. destruct js as [|j2 js]; [simpl in Hl; lia|]. rewrite Hva.
      apply walk_zero_table.
      * intros j Hj'. rewrite Hent by done.
        rewrite decide_False by (intros [? _]; congruence). by rewrite decide_True.
      * by destruct Hpath as [[? _] _].
    + rewrite decide_False by done. destruct (present (entry_at (mem st) u j)) eqn:He; [|done].
      destruct (decide (length p' < 3)%nat) as [Hp3|Hp3].
      * destruct (inv_child _ _ Hi _ _ _ _ Hk Hp3 Hj He) as (Hc & _).
        destruct (IH _ _ Hc Hpath) as [IH1 IH2]. rewrite length_app in *. simpl in *.
        split; [|intros; apply IH2; [lia|done]]. intros Hl. destruct js as [|j2 js]; [done|].
        apply IH1. lia.
      * simpl. split; [|intros; lia]. intros Hl. by destruct js; [|simpl in Hl; lia].
Qed.

Lemma same_walks_refl kinds (m : gmap Z Z) : same_walks kinds m m.
Proof. by intros u r p js. Qed.

Lemma same_walks_trans kinds kinds' (m1 m2 m3 : gmap Z Z) :
  kinds ⊆ kinds' -> same_walks kinds m1 m2 -> same_walks kinds' m2 m3 -> same_walks kinds m1 m3.
Proof.
  intros Hsub H1 H2 u r p js Hk Hp. destruct (H1 u r p js Hk Hp) as [H1a H1b].
  destruct (H2 u r p js (lookup_weaken _ _ _ _ Hk Hsub) Hp) as [H2a H2b].
  split; [|eauto]. intros Hl. rewrite H2a, H1a; done.
Qed.

Lemma next_table_spec (st st' : State A) kinds (parent i flags r : Z) (p : list Z) (res : Result Z MapError) :
  inv st kinds -> kinds !! parent = Some (r, p) -> (length p < 3)%nat -> idx_ok p i ->
  user_flags flags -> next_table parent i flags st = (res, st') ->
  exists kinds', kinds ⊆ kinds' /\ inv st' kinds' /\ same_walks kinds (mem st) (mem st') /\
    match res with
    | Ok t => kinds' !! t = Some (r, p ++ [i]) /\ present (entry_at (mem st') parent i) = true /\
              Z.land (entry_at (mem st') parent i) ADDR_MASK = t
    | Err e => e = OutOfMemory
    end.
Proof.
  intros Hi Hpar Hl Hidx [Hfok Huser]. unfold next_table.
  destruct (present (entry_at (mem st) parent i)) eqn:Hpres.
  { intros [= <- <-]. exists kinds. destruct (inv_child _ _ Hi _ _ _ _ Hpar Hl Hidx Hpres) as [Hc _].
    split_and!; done || apply same_walks_refl. }
  unfold se_bind. destruct (alloc_table st) as [[t|e] st1] eqn:Ea.
  - cbn -[Z.lor Z.land]. intros [= <- <-].
    destruct (alloc_table_spec _ _ _ _ Hi Ea) as (Ht & Hn & Hwf & Hown & Hmono & Hmem & _).
    set (v := Z.lor _ _).
    assert (present v = true /\ Z.land v ADDR_MASK = t /\ Z.testbit v 1 = true /\ Z.testbit v 2 = true)
      as (Hv0 & Hva & Hv1 & Hv2).
    { unfold v. rewrite table_entry_eq. split_and!.
      - apply entry_present.
      - apply entry_addr; [destruct Ht; lia|by destruct Ht|apply table_flags_ok].
      - rewrite !Z.lor_spec. change (Z.testbit WRITABLE 1) with true. by rewrite !orb_true_r.
      - rewrite !Z.lor_spec, !Z.land_spec, Huser. change (Z.testbit USER 2) with true.
        by rewrite !orb_true_r. }
    assert (mem (set_mem (<[parent + 8 * i := v]> (mem st1)) st1) =
            <[parent + 8 * i := v]> (zero_words 512 t (mem st))) as Hmem' by (simpl; by rewrite Hmem).
    destruct (link_table st kinds parent i t v r p (set_mem (<[parent + 8 * i := v]> (mem st1)) st1))
      as [Hi' Hsw]; try done.
    exists (<[t := (r, p ++ [i])]> kinds). split_and!; [by apply insert_subseteq|done..|apply lookup_insert_eq| |].
    + unfold entry_at, read. simpl. by rewrite lookup_insert_eq.
    + unfold entry_at, read. simpl. by rewrite lookup_insert_eq.
  - intros [= <- <-]. destruct (alloc_table_err _ _ _ _ Hi Ea) as [-> ->].
    exists kinds. split_and!; done || apply same_walks_refl.
Qed.

Lemma walk_table_kind (st : State A) kinds (u r t : Z) (p js : list Z) :
  inv st kinds -> kinds !! u = Some (r, p) -> (length p + length js <= 3)%nat -> path_ok p js ->
  walk_table (mem st) u js = Some t -> kinds !! t = Some (r, p ++ js).
Proof.
  intros Hi. revert u p. induction js as [|j js IH]; intros u p Hk Hl Hpath; simpl.
  { intros [= ->]. by rewrite app_nil_r. }
  destruct Hpath as [Hj Hpath]. simpl in Hl.
  destruct (present _) eqn:He; [|done]. intros Hw.
  destruct (inv_child _ _ Hi _ _ _ _ Hk ltac:(lia) Hj He) as [Hc _].
  rewrite (IH _ _ Hc) by (done || rewrite length_app; simpl; lia). by rewrite <- app_assoc.
Qed.

Definition write_leaf (st : State A) (pt i v : Z) : State A := set_mem (<[pt + 8 * i := v]> (mem st)) st.

Lemma entry_write_leaf (st : State A) (pt i v u j : Z) :
  table_ok pt -> table_ok u -> 0 <= i < 512 -> 0 <= j < 512 ->
  entry_at (mem (write_leaf st pt i v)) u j = if decide (u = pt /\ j = i) then v else entry_at (mem st) u j.
Proof. intros. by apply entry_insert. Qed.

(** Changing a slot of a last-level table keeps the trees and the tables walks pass. *)
Lemma leaf_write_inv (st : State A) kinds (pt i v r : Z) (p : list Z) :
  inv st kinds -> kinds !! pt = Some (r, p) -> length p = 3%nat -> 0 <= i < 512 ->
  inv (write_leaf st pt i v) kinds /\
  forall u r' p' js, kinds !! u = Some (r', p') -> (length p' + length js <= 3)%nat -> path_ok p' js ->
    walk_table (mem (write_leaf st pt i v)) u js = walk_table (mem st) u js.
Proof.
  intros Hi Hpt Hp Hi512. destruct (inv_table _ _ Hi _ _ _ Hpt) as [Hptok _].
  assert (forall u r' p' j, kinds !! u = Some (r', p') -> (length p' < 3)%nat -> 0 <= j < 512 ->
            entry_at (mem (write_leaf st pt i v)) u j = entry_at (mem st) u j) as Hent.
  { intros u r' p' j Hk Hl Hj. destruct (inv_table _ _ Hi _ _ _ Hk) as [Huok _].
    rewrite entry_write_leaf by done. rewrite decide_False; [done|].
    intros [-> _]. rewrite Hpt in Hk. simplify_eq. lia. }
  split.
  - split; [by apply (inv_wf _ _ Hi)|by apply (inv_owned _ _ Hi)|by apply (inv_table _ _ Hi)|].
    intros t r' p' j Hk Hl Hj. rewrite (Hent t r' p' j) by (done || apply Hj). by apply (inv_child _ _ Hi).
  - intros u r' p' js. revert u p'. induction js as [|j js IH]; intros u p' Hk Hl Hpath; [done|].
    destruct Hpath as [Hj Hpath]. simpl in *. rewrite (Hent u r' p' j) by (done || lia || apply Hj).
    destruct (present (entry_at (mem st) u j)) eqn:He; [|done].
    destruct (inv_child _ _ Hi _ _ _ _ Hk ltac:(lia) Hj He) as [Hc _].
    eapply IH; [exact Hc|rewrite length_app; simpl; lia|done].
Qed.

(** ** The abstract view: leaves of user addresses, per address space *)

Definition path3 (virt : Z) : list Z := [pml4_i virt; pdpt_i virt; pd_i virt].

Lemma leaf_path3 (m : gmap Z Z) (root virt : Z) :
  leaf m root virt =
  walk_table m root (path3 virt) ≫= (fun u => let e := entry_at m u (pt_i virt) in if present e then Some e else None).
Proof. unfold leaf. change (idxs virt) with (path3 virt ++ [pt_i virt]). apply walk_snoc. Qed.

Lemma path3_ok (virt : Z) : is_user virt -> path_ok [] (path3 virt) /\ 0 <= pt_i virt < 512.
Proof. intros (H1 & H2 & H3 & [H4 _] & _)%idxs_ok. simpl. tauto. Qed.

Lemma leaf_write_leaf (st : State A) kinds (root pt v virt : Z) :
  inv st kinds -> kinds !! root = Some (root, []) -> is_user virt ->
  walk_table (mem st) root (path3 virt) = Some pt ->
  inv (write_leaf st pt (pt_i virt) v) kinds /\
  forall root' virt', kinds !! root' = Some (root', []) -> is_user virt' ->
    leaf (mem (write_leaf st pt (pt_i virt) v)) root' virt' =
    if decide (root' = root /\ virt' / 4096 = virt / 4096) then (if present v then Some v else None)
    else leaf (mem st) root' virt'.
Proof.
  intros Hi Hroot Hu Hw. destruct (path3_ok virt Hu) as [Hp3 Hpt].
  pose proof (walk_table_kind _ _ _ _ _ [] (path3 virt) Hi Hroot ltac:(simpl; lia) Hp3 Hw) as Hkpt. simpl in Hkpt.
  destruct (leaf_write_inv st kinds pt (pt_i virt) v _ _ Hi Hkpt ltac:(done) Hpt) as [Hi' Hwt].
  split; [done|]. intros root' virt' Hroot' Hu'. destruct (path3_ok virt' Hu') as [Hp3' Hpt'].
  rewrite !leaf_path3, (Hwt root' root' []) by (done || simpl; lia).
  destruct (walk_table (mem st) root' (path3 virt')) as [pt'|] eqn:Hw'; cbn [mbind option_bind].
  - pose proof (walk_table_kind _ _ _ _ _ [] (path3 virt') Hi Hroot' ltac:(simpl; lia) Hp3' Hw') as Hkpt'.
    rewrite entry_write_leaf by (done || by eapply inv_table).
    destruct (decide (pt' = pt /\ pt_i virt' = pt_i virt)) as [[-> Hpi]|Hne].
    + rewrite Hkpt in Hkpt'. injection Hkpt' as -> H1 H2 H3.
      rewrite decide_True; [done|]. split; [done|]. apply idxs_page; [done..|]. unfold idxs. congruence.
    + rewrite decide_False; [done|]. intros [-> Hpg]. apply idxs_page in Hpg; [|done..].
      injection Hpg as H1 H2 H3 H4. apply Hne. split; [|done]. unfold path3 in *. congruence.
  - rewrite decide_False; [done|]. intros [-> Hpg]. apply idxs_page in Hpg; [|done..].
    injection Hpg as H1 H2 H3 H4. unfold path3 in *. congruence.
Qed.

Lemma path_ok_app (p js1 js2 : list Z) : path_ok p (js1 ++ js2) <-> path_ok p js1 /\ path_ok (p ++ js1) js2.
Proof.
  revert p. induction js1 as [|j js1 IH]; intros p; simpl; [rewrite app_nil_r; tauto|].
  rewrite IH, <- app_assoc. simpl. tauto.
Qed.

(** [next_table] on the table a walk from [root] reached extends that walk by one level. *)
Lemma next_table_path (st st' : State A) kinds (root parent i flags : Z) (js : list Z) res :
  inv st kinds -> kinds !! root = Some (root, []) -> (length js < 3)%nat -> path_ok [] (js ++ [i]) ->
  user_flags flags -> walk_table (mem st) root js = Some parent ->
  next_table parent i flags st = (res, st') ->
  exists kinds', kinds ⊆ kinds' /\ inv st' kinds' /\ same_walks kinds (mem st) (mem st') /\
    match res with
    | Ok t => walk_table (mem st') root (js ++ [i]) = Some t
    | Err e => e = OutOfMemory
    end.
Proof.
  intros Hi Hroot Hl [Hp1 [Hp2 _]]%path_ok_app Hf Hw Hn.
  pose proof (walk_table_kind _ _ _ _ _ [] js Hi Hroot ltac:(simpl; lia) Hp1 Hw) as Hk.
  destruct (next_table_spec _ _ _ _ _ _ _ _ _ Hi Hk Hl Hp2 Hf Hn) as (kinds' & Hsub & Hi' & Hsw & Hr).
  exists kinds'. split_and!; [done..|]. destruct res as [t|e]; [|done].
  destruct Hr as (_ & Hpres & Ht). rewrite walk_table_app.
  destruct (Hsw root root [] js Hroot Hp1) as [_ Hmono]. rewrite (Hmono ltac:(simpl; lia) _ Hw).
  simpl. by rewrite Hpres, Ht.
Qed.

(** Every user leaf of every address space in [kinds] is the same in both states. *)
Definition spaces_same (kinds : gmap Z (Z * list Z)) (st st' : State A) : Prop :=
  forall root virt, kinds !! root = Some (root, []) -> is_user virt ->
    leaf (mem st') root virt = leaf (mem st) root virt.

Lemma same_walks_spaces kinds (st st' : State A) :
  same_walks kinds (mem st) (mem st') -> spaces_same kinds st st'.
Proof. intros Hsw root virt Hr Hu. by apply (Hsw root root [] (idxs virt) Hr (idxs_ok _ Hu)). Qed.

Definition aligned (a : Z) : Prop := a mod 4096 = 0.

(** The leaf entry [map_page] stores. *)
Definition leaf_entry (phys flags : Z) : Z := Z.lor (Z.lor (Z.land phys ADDR_MASK) PRESENT) flags.

Definition map_page_post (kinds : gmap Z (Z * list Z)) (st : State A) (root virt phys flags : Z)
    (r : Result unit MapError * State A) : Prop :=
  let '(res, st') := r in
  match res with
  | Ok _ =>
      aligned virt /\ aligned phys /\
      forall root' virt', kinds !! root' = Some (root', []) -> is_user virt' ->
        leaf (mem st') root' virt' =
        if decide (root' = root /\ virt' / 4096 = virt / 4096) then Some (leaf_entry phys flags)
        else leaf (mem st) root' virt'
  | Err InvalidAddress => st' = st /\ ~ (aligned virt /\ aligned phys)
  | Err OutOfMemory => spaces_same kinds st st'
  end /\
  exists kinds', kinds ⊆ kinds' /\ inv st' kinds'.

Lemma land_4095 (x : Z) : (Z.land x (PAGE_SIZE - 1) =? 0) = bool_decide (aligned x).
Proof.
  unfold aligned. change (PAGE_SIZE - 1) with (Z.ones 12). rewrite Z.land_ones by lia.
  change (2 ^ 12) with 4096. destruct (x mod 4096 =? 0) eqn:E; zbool; symmetry;
    [by apply bool_decide_eq_true_2|by apply bool_decide_eq_false_2].
Qed.

(** Walking down and creating the three tables below the root. *)
Definition descend (root virt flags : Z) : SE (State A) MapError Z :=
  let? pdpt := next_table root (pml4_i virt) flags in
  let? pd := next_table pdpt (pdpt_i virt) flags in
  next_table pd (pd_i virt) flags.

Lemma descend_spec (st st' : State A) kinds (root virt flags : Z) res :
  inv st kinds -> kinds !! root = Some (root, []) -> is_user virt -> user_flags flags ->
  descend root virt flags st = (res, st') ->
  exists kinds', kinds ⊆ kinds' /\ inv st' kinds' /\ same_walks kinds (mem st) (mem st') /\
    match res with
    | Ok pt => walk_table (mem st') root (path3 virt) = Some pt
    | Err e => e = OutOfMemory
    end.
Proof.
  intros Hi Hroot Hu Hf. destruct (path3_ok virt Hu) as [(Ho1 & Ho2 & Ho3 & _) _]. unfold descend, se_bind.
  destruct (next_table root _ _ st) as [res1 st1] eqn:E1.
  destruct (next_table_path _ _ _ root root _ _ [] _ Hi Hroot ltac:(simpl; lia) (conj Ho1 I) Hf eq_refl E1)
    as (k1 & Hs1 & Hi1 & Hw1 & Hr1).
  destruct res1 as [pdpt|e]; [|intros [= <- <-]; by exists k1].
  destruct (next_table pdpt _ _ st1) as [res2 st2] eqn:E2.
  pose proof (lookup_weaken _ _ _ _ Hroot Hs1) as Hroot1.
  destruct (next_table_path _ _ _ root pdpt _ _ [pml4_i virt] _ Hi1 Hroot1 ltac:(simpl; lia)
              (conj Ho1 (conj Ho2 I)) Hf Hr1 E2) as (k2 & Hs2 & Hi2 & Hw2 & Hr2).
  assert (kinds ⊆ k2) as Hs02 by (by etransitivity).
  pose proof (same_walks_trans _ _ _ _ _ Hs1 Hw1 Hw2) as Hw02.
  destruct res2 as [pd|e]; [|intros [= <- <-]; by exists k2].
  intros E3. pose proof (lookup_weaken _ _ _ _ Hroot Hs02) as Hroot2.
  destruct (next_table_path _ _ _ root pd _ _ [pml4_i virt; pdpt_i virt] _ Hi2 Hroot2 ltac:(simpl; lia)
              (conj Ho1 (conj Ho2 (conj Ho3 I))) Hf Hr2 E3) as (k3 & Hs3 & Hi3 & Hw3 & Hr3).
  exists k3. split_and!; [by etransitivity|done|by eapply same_walks_trans|done].
Qed.

Lemma map_page_meets (st : State A) kinds (cr3 root virt phys flags : Z) :
  inv st kinds -> kinds !! root = Some (root, []) -> Z.land cr3 ADDR_MASK = root -> is_user virt ->
  user_flags flags -> map_page_post kinds st root virt phys flags (map_page cr3 virt phys flags st).
Proof.
  intros Hi Hroot Hcr Hu Hf. unfold map_page. rewrite Hcr, !land_4095.
  destruct (negb _ || negb _) eqn:Eal.
  { simpl. split; [|by exists kinds]. split; [done|]. intros [Hv Hp].
    rewrite !bool_decide_eq_true_2 in Eal by done. done. }
  apply orb_false_iff in Eal as [Hv Hp]. rewrite negb_false_iff, bool_decide_eq_true in Hv, Hp.
  assert (forall k : Z -> SE (State A) MapError unit, se_bind (next_table root (pml4_i virt) flags) (fun pdpt =>
            se_bind (next_table pdpt (pdpt_i virt) flags) (fun pd =>
            se_bind (next_table pd (pd_i virt) flags) k)) st = se_bind (descend root virt flags) k st) as Hdesc.
  { intros k. unfold descend, se_bind. destruct (next_table root _ _ st) as [[?|?] ?]; [|done].
    by destruct (next_table _ _ _ _) as [[?|?] ?]. }
  rewrite Hdesc. unfold se_bind. destruct (descend root virt flags st) as [res st1] eqn:Ed.
  destruct (descend_spec _ _ _ _ _ _ _ Hi Hroot Hu Hf Ed) as (k1 & Hs1 & Hi1 & Hw1 & Hr1).
  pose proof (same_walks_spaces _ _ _ Hw1) as Hsp.
  destruct res as [pt|e]; [|subst e; simpl; split; [done|by exists k1]].
  pose proof (lookup_weaken _ _ _ _ Hroot Hs1) as Hroot1.
  destruct (leaf_write_leaf st1 k1 root pt (leaf_entry phys flags) virt Hi1 Hroot1 Hu Hr1) as [Hi2 Hleaf].
  unfold write_entry. simpl. split; [|by exists k1]. split_and!; [done..|].
  intros root' virt' Hr' Hu'. etransitivity; [apply Hleaf; [by eapply lookup_weaken|done]|].
  unfold leaf_entry at 1. rewrite entry_present. by rewrite Hsp.
Qed.

(** C4: [map_page] updates the (address space, page) map at one point.  For a user page
    it fails with [InvalidAddress] exactly on unaligned arguments (nothing changes), or
    with [OutOfMemory] (every leaf of every space is as before); otherwise the page's
    leaf is the new entry and every other user page of this and every other address
    space is untouched.  In every case the page tables remain unshared trees. *)
Theorem map_page_spec (st : State A) kinds (cr3 root virt phys flags : Z) :
  inv st kinds -> kinds !! root = Some (root, []) -> Z.land cr3 ADDR_MASK = root -> is_user virt ->
  user_flags flags -> map_page_post kinds st root virt phys flags (map_page cr3 virt phys flags st).
Proof. apply map_page_meets. Qed.

(** ** Ranges *)

Lemma map_pages_spec (n : nat) (st st' : State A) kinds (page cr3 root virt phys flags : Z) :
  inv st kinds -> kinds !! root = Some (root, []) -> Z.land cr3 ADDR_MASK = root ->
  user_flags flags -> 0 <= page -> aligned virt ->
  (forall k, page <= k < page + Z.of_nat n ->
     is_user (virt + k * 4096) /\ 0 <= phys + k * 4096 < u64_bound) ->
  map_pages n page cr3 virt phys flags st = (Ok tt, st') ->
  (exists kinds', kinds ⊆ kinds' /\ inv st' kinds') /\
  forall root' virt', kinds !! root' = Some (root', []) -> is_user virt' ->
    let k := virt' / 4096 - virt / 4096 in
    leaf (mem st') root' virt' =
    if decide (root' = root /\ page <= k < page + Z.of_nat n)
    then Some (leaf_entry (phys + k * 4096) flags) else leaf (mem st) root' virt'.
Proof.
  intros Hi Hroot Hcr Hf Hpage Hal. revert page st kinds Hi Hroot Hpage.
  induction n as [|n IH]; intros page st kinds Hi Hroot Hpage Hrange.
  { intros [= <-]. split; [by exists kinds|]. intros root' virt' _ _. cbv zeta. rewrite decide_False by lia. done. }
  cbn [map_pages]. rewrite se_bind_Ok. intros ([] & st1 & E1 & E2).
  destruct (Hrange page ltac:(lia)) as [Hu Hph]. unfold PAGE_SIZE in E1.
  rewrite (wrap64_small (virt + _)) in E1
    by (unfold is_user, USER_MIN, USER_MAX in Hu; unfold is_u64; rewrite u64_bound_val; lia).
  rewrite (wrap64_small (phys + _)) in E1 by done.
  pose proof (map_page_meets _ _ _ _ _ (phys + page * 4096) flags Hi Hroot Hcr Hu Hf) as Hmp.
  rewrite E1 in Hmp. destruct Hmp as [(_ & _ & Hleaf) (k1 & Hs1 & Hi1)].
  destruct (IH (page + 1) st1 k1 Hi1 (lookup_weaken _ _ _ _ Hroot Hs1)) as [(k2 & Hs2 & Hi2) Hrest];
    [lia|intros k Hk; apply Hrange; lia|done|].
  split; [exists k2; split; [by etransitivity|done]|]. intros root' virt' Hr' Hu'. cbv zeta.
  rewrite (Hrest root' virt' (lookup_weaken _ _ _ _ Hr' Hs1) Hu'). cbv zeta.
  rewrite (Hleaf root' virt' Hr' Hu').
  assert ((virt + page * 4096) / 4096 = virt / 4096 + page) as Hdiv by (rewrite Z.div_add; lia).
  rewrite Hdiv. destruct (decide (root' = root)) as [->|]; [|by rewrite !decide_False by tauto].
  repeat case_decide; try done; try lia. f_equal. f_equal. lia.
Qed.

(** After a successful [map_range] of a user range, page [k] of the range translates
    to physical page [k] of the target, and every user page outside the range, and every
    other address space, translates as before. *)
Theorem map_range_spec (st st' : State A) kinds (cr3 root virt phys size flags : Z) :
  inv st kinds -> kinds !! root = Some (root, []) -> Z.land cr3 ADDR_MASK = root ->
  user_flags flags -> 0 < size -> aligned virt -> aligned phys ->
  USER_MIN <= virt -> virt + size <= USER_MAX -> 0 <= phys -> phys + size <= 2 ^ 52 ->
  map_range cr3 virt phys size flags st = (Ok tt, st') ->
  (exists kinds', kinds ⊆ kinds' /\ inv st' kinds') /\
  (forall k, 0 <= k -> k * 4096 < size ->
     translate cr3 (virt + k * 4096) (mem st') = Some (phys + k * 4096)) /\
  forall cr3' virt', let root' := Z.land cr3' ADDR_MASK in
    kinds !! root' = Some (root', []) -> is_user virt' ->
    root' <> root \/ virt' < virt \/ virt + div_ceil size 4096 * 4096 <= virt' ->
    translate cr3' virt' (mem st') = translate cr3' virt' (mem st).
Proof.
  intros Hi Hroot Hcr Hf Hsz Hal Halp Hmin Hmax Hph Hphm. unfold map_range.
  destruct (size =? 0) eqn:E0; zbool; [lia|]. unfold PAGE_SIZE.
  pose proof (div_ceil_spec size 4096 ltac:(lia) ltac:(lia)) as [Hdc1 Hdc2].
  set (n := div_ceil size 4096) in *. unfold aligned in *.
  assert (0 <= n) by lia.
  pose proof (Z.div_mod virt 4096 ltac:(lia)) as Hvd. rewrite Hal in Hvd.
  pose proof (Z.div_mod phys 4096 ltac:(lia)) as Hpd. rewrite Halp in Hpd.
  assert (forall k, 0 <= k < n -> is_user (virt + k * 4096) /\ 0 <= phys + k * 4096 < 2 ^ 52) as Hr.
  { intros k Hk. unfold is_user, USER_MIN, USER_MAX in *. lia. }
  intros Hmap. edestruct (map_pages_spec (Z.to_nat n) st st' kinds 0 cr3 root virt phys flags)
    as [Hinv Hleaf]; try done.
  { intros k Hk. destruct (Hr k ltac:(lia)). rewrite u64_bound_val. split; [done|lia]. }
  rewrite Z2Nat.id in Hleaf by lia. split_and!; [done|..].
  - intros k Hk0 Hk. destruct (Hr k ltac:(lia)) as [Hu Hp]. rewrite translate_leaf, Hcr.
    rewrite (Hleaf root (virt + k * 4096) Hroot Hu). cbv zeta. rewrite Z.div_add by lia.
    rewrite decide_True by (split; [done|lia]). simpl. f_equal. unfold leaf_entry.
    replace (virt / 4096 + k - virt / 4096) with k by lia.
    apply entry_addr; [lia| |by destruct Hf]. rewrite Z.mod_add by lia. done.
  - intros cr3' virt'. cbv zeta. intros Hr' Hu' Hout. rewrite !translate_leaf.
    rewrite (Hleaf _ virt' Hr' Hu'). cbv zeta. rewrite decide_False; [done|].
    intros [Heq Hk]. pose proof (Z.div_mod virt' 4096 ltac:(lia)).
    pose proof (Z.mod_pos_bound virt' 4096 ltac:(lia)). lia.
Qed.

(** ** Unmapping, creation and teardown *)

(** [unmap_page] removes exactly one page: afterwards it has no leaf, every other
    user page of every address space keeps its own, and the trees stay intact. *)
Theorem unmap_page_spec (st : State A) kinds (cr3 root virt : Z) :
  inv st kinds -> kinds !! root = Some (root, []) -> Z.land cr3 ADDR_MASK = root -> is_user virt ->
  inv (unmap_page cr3 virt st) kinds /\
  forall root' virt', kinds !! root' = Some (root', []) -> is_user virt' ->
    leaf (mem (unmap_page cr3 virt st)) root' virt' =
    if decide (root' = root /\ virt' / 4096 = virt / 4096) then None else leaf (mem st) root' virt'.
Proof.
  intros Hi Hroot Hcr Hu.
  assert (unmap_page cr3 virt st = match walk_table (mem st) root (path3 virt) with
            | Some pt => write_leaf st pt (pt_i virt) 0 | None => st end) as ->.
  { unfold unmap_page, table_if_present. rewrite Hcr. simpl.
    do 3 (destruct (present _); [|done]). done. }
  destruct (walk_table (mem st) root (path3 virt)) as [pt|] eqn:Hw.
  - by apply (leaf_write_leaf st kinds root pt 0 virt).
  - split; [done|]. intros root' virt' Hr' Hu'. case_decide as Hd; [|done].
    destruct Hd as [-> Hpg%idxs_page]; [|done..]. rewrite leaf_path3.
    injection Hpg as H1 H2 H3 H4. unfold path3 in *. rewrite H1, H2, H3, Hw. done.
Qed.

Lemma walks_frame (st : State A) kinds (m' : gmap Z Z) (root : Z) (P : Z -> Prop) :
  inv st kinds ->
  (forall u p, kinds !! u = Some (root, p) -> P u) ->
  (forall u j, table_ok u -> P u -> 0 <= j < 512 -> entry_at m' u j = entry_at (mem st) u j) ->
  kinds !! root = Some (root, []) -> forall virt, is_user virt -> leaf m' root virt = leaf (mem st) root virt.
Proof.
  intros Hi HP Hsame Hroot virt Hu.
  assert (forall js u p, kinds !! u = Some (root, p) -> path_ok p js -> (length p + length js <= 4)%nat ->
            walk m' u js = walk (mem st) u js) as Hwalk.
  { induction js as [|j js IH]; intros u p Hk Hp Hl; [done|]. destruct Hp as [Hj Hp].
    destruct (inv_table _ _ Hi _ _ _ Hk) as [Huok _]. simpl.
    rewrite Hsame by (done || apply Hj || by eapply HP).
    destruct (present (entry_at (mem st) u j)) eqn:He; [|reflexivity].
    destruct js as [|j2 js]; [done|]. simpl in Hl.
    destruct (inv_child _ _ Hi _ _ _ _ Hk ltac:(lia) Hj He) as [Hc _].
    eapply IH; [exact Hc|done|rewrite length_app; simpl; lia]. }
  apply (Hwalk (idxs virt) root []); [done|by apply idxs_ok|simpl; lia].
Qed.

Lemma inv_add_root (st st' : State A) kinds (t : Z) :
  inv st kinds -> table_ok t -> kinds !! t = None -> ta_wf (tables st') -> ta_owned (tables st') t ->
  (forall u, ta_owned (tables st) u -> ta_owned (tables st') u) ->
  (forall u j, table_ok u -> u <> t -> 0 <= j < 512 -> entry_at (mem st') u j = entry_at (mem st) u j) ->
  (forall j, 1 <= j < 256 -> entry_at (mem st') t j = 0) ->
  inv st' (<[t := (t, [])]> kinds) /\ spaces_same kinds st st' /\
  forall virt, is_user virt -> leaf (mem st') t virt = None.
Proof.
  intros Hi Ht Hfresh Hwf Hown Hmono Hsame Hzero. split_and!.
  - split; [done| | |].
    + intros u k. rewrite lookup_insert_Some. intros [[<- _]|[_ Hk]]; [done|].
      by apply Hmono, (inv_owned _ _ Hi _ _ Hk).
    + intros u r p. rewrite lookup_insert_Some. intros [[<- [= <- <-]]|[_ Hk]];
        [split; [done|simpl; lia]|by eapply inv_table].
    + intros u r p j. rewrite lookup_insert_Some. intros [[<- [= <- <-]]|[Hne Hk]] Hl [Hj1 Hj2].
      * by rewrite Hzero by (apply Hj2; done).
      * destruct (inv_table _ _ Hi _ _ _ Hk) as [Huok _]. rewrite Hsame by done.
        intros e He. destruct (inv_child _ _ Hi _ _ _ _ Hk Hl (conj Hj1 Hj2) He) as (Hc & ? & ?).
        rewrite lookup_insert_ne; [done|]. intros Heq. unfold e in Heq. rewrite <- Heq in Hc. congruence.
  - intros root virt Hroot. eapply (walks_frame st kinds _ root (fun u => u <> t)); try done; eauto.
    intros u p Hk ->. congruence.
  - intros virt Hu. destruct (idxs_ok _ Hu) as ((_ & Hroot) & _). unfold leaf. simpl.
    by rewrite Hzero by (apply Hroot; done).
Qed.

Lemma create_meets (st st' : State A) kinds (r : Result Z MapError) :
  inv st kinds -> table_ok (kernel_pml4 st) -> ta_owned (tables st) (kernel_pml4 st) ->
  create_address_space st = (r, st') ->
  match r with
  | Ok root =>
      kinds !! root = None /\ inv st' (<[root := (root, [])]> kinds) /\ spaces_same kinds st st' /\
      (forall virt, is_user virt -> leaf (mem st') root virt = None) /\
      (forall j, j = 0 \/ 256 <= j < 512 ->
         entry_at (mem st') root j = entry_at (mem st) (kernel_pml4 st) j)
  | Err e => e = OutOfMemory /\ st' = st
  end.
Proof.
  intros Hi Hkok Hkown. unfold create_address_space, se_bind.
  destruct (alloc_table st) as [[t|e] st1] eqn:Ea.
  2:{ intros [= <- <-]. by eapply alloc_table_err. }
  intros [= <- <-]. assert (t <> kernel_pml4 st) as Hnk.
  { intros ->. revert Ea. unfold alloc_table. destruct (ta_alloc (tables st)) as [[t|] a'] eqn:E; [|done].
    intros [= -> <-]. by destruct (ta_alloc_Some _ _ _ (inv_wf _ _ Hi) E) as (_ & _ & _ & Hn & _). }
  destruct (alloc_table_spec _ _ _ _ Hi Ea) as (Ht & Hn & Hwf & Hown & Hmono & Hmem & Hk).
  rewrite Hk. set (f := fun m i => entry_at m (kernel_pml4 st) i).
  set (m1 := <[t + 8 * 0 := entry_at (mem st1) (kernel_pml4 st) 0]> (mem st1)).
  set (m2 := fill 255 1 t (fun _ _ => 0) m1). set (m3 := fill 256 256 t f m2).
  assert (forall u j, table_ok u -> u <> t -> 0 <= j < 512 -> entry_at m2 u j = entry_at (mem st) u j) as Hm2.
  { intros u j Hu Hne Hj. unfold m2. rewrite entry_fill by (assumption || lia || tauto).
    unfold m1. rewrite entry_insert by (assumption || lia). rewrite decide_False by tauto.
    rewrite Hmem, entry_zero_words by (assumption || lia). by rewrite decide_False by tauto. }
  assert (forall u j, table_ok u -> u <> t -> 0 <= j < 512 -> entry_at m3 u j = entry_at (mem st) u j) as Hm3.
  { intros u j Hu Hne Hj. unfold m3. rewrite entry_fill by (assumption || lia || tauto). by apply Hm2. }
  destruct (inv_add_root st (set_mem m3 st1) kinds t) as (Hi' & Hsp & Hnone); try assumption.
  { intros j Hj. simpl. unfold m3. rewrite entry_fill by (assumption || lia).
    apply entry_fill_zero; done || lia. }
  split_and!; try assumption. simpl. intros j [->|Hj].
  - unfold m3, m2. rewrite !entry_fill by (assumption || lia). unfold m1.
    rewrite entry_insert by (assumption || lia). rewrite decide_True by done.
    rewrite Hmem, entry_zero_words by (assumption || lia). rewrite decide_False by naive_solver. done.
  - unfold m3. rewrite (entry_fill_copy 256 256 t (kernel_pml4 st)) by (assumption || lia).
    apply Hm2; [done|congruence|lia].
Qed.

(** [create_address_space] yields a fresh root under which no user address is
    mapped, with the kernel's entries 0 and 256..511 copied from the kernel root, and
    leaves every existing address space as it was; it fails only when no table can be
    allocated, and then nothing changes. *)
Theorem create_address_space_spec (st st' : State A) kinds (r : Result Z MapError) :
  inv st kinds -> table_ok (kernel_pml4 st) -> ta_owned (tables st) (kernel_pml4 st) ->
  create_address_space st = (r, st') ->
  match r with
  | Ok root =>
      kinds !! root = None /\ inv st' (<[root := (root, [])]> kinds) /\ spaces_same kinds st st' /\
      (forall virt, is_user virt -> leaf (mem st') root virt = None) /\
      (forall j, j = 0 \/ 256 <= j < 512 ->
         entry_at (mem st') root j = entry_at (mem st) (kernel_pml4 st) j)
  | Err e => e = OutOfMemory /\ st' = st
  end.
Proof. apply create_meets. Qed.

(** [free_user_address_space] empties the address space it is given and no other:
    afterwards no user address is mapped under its root, every other space is unchanged,
    and it refuses to touch the kernel's own root. *)
Theorem free_user_address_space_spec (st : State A) kinds (cr3 root : Z) :
  inv st kinds -> kinds !! root = Some (root, []) -> Z.land cr3 ADDR_MASK = root ->
  let st' := free_user_address_space cr3 st in
  inv st' kinds /\
  (forall root', kinds !! root' = Some (root', []) -> root' <> root -> forall virt, is_user virt ->
     leaf (mem st') root' virt = leaf (mem st) root' virt) /\
  if decide (root = Z.land (kernel_pml4 st) ADDR_MASK) then st' = st
  else forall virt, is_user virt -> leaf (mem st') root virt = None.
Proof.
  intros Hi Hroot Hcr. unfold free_user_address_space. rewrite Hcr.
  destruct (inv_table _ _ Hi _ _ _ Hroot) as [Hrok _].
  assert ((root =? 0) = false) as -> by (apply Z.eqb_neq; destruct Hrok; lia). simpl.
  destruct (root =? Z.land (kernel_pml4 st) ADDR_MASK) eqn:Ek; zbool.
  { rewrite decide_True by done. done. }
  rewrite decide_False by done.
  set (m' := fill 255 1 root (fun _ _ => 0) (mem st)).
  assert (forall j, 1 <= j < 256 -> entry_at m' root j = 0) as Hz.
  { intros j Hj. apply entry_fill_zero; done || lia. }
  assert (forall u j, table_ok u -> 0 <= j < 512 -> u <> root -> entry_at m' u j = entry_at (mem st) u j) as Hne.
  { intros u j Hu Hj Hne. apply entry_fill; done || lia || tauto. }
  split_and!.
  - split; [apply (inv_wf _ _ Hi)|apply (inv_owned _ _ Hi)|apply (inv_table _ _ Hi)|].
    intros u r p j Hk Hl Hj. destruct (inv_table _ _ Hi _ _ _ Hk) as [Huok _]. simpl.
    destruct (decide (u = root)) as [->|Hu].
    + rewrite Hroot in Hk. injection Hk as <- <-. by rewrite Hz by (apply Hj; done).
    + rewrite Hne by (done || apply Hj). by apply (inv_child _ _ Hi).
  - intros root' Hr' Hnr. apply (walks_frame st kinds _ root' (fun u => u <> root)); try done; eauto.
    intros u p Hk ->. congruence.
  - intros virt Hu. destruct (idxs_ok _ Hu) as ((_ & H1) & _). unfold leaf. simpl.
    by rewrite Hz by (apply H1; done).
Qed.

(** ** Ring-3 reachability *)

Definition need_bits (write : bool) : Z := Z.lor USER (if write then WRITABLE else 0).

Lemma land_need (e : Z) (write : bool) :
  (Z.land e (need_bits write) =? need_bits write) = Z.testbit e 2 && (negb write || Z.testbit e 1).
Proof.
  assert (forall n, 0 <= n -> Z.testbit (need_bits write) n = (n =? 2) || (write && (n =? 1))) as Hb.
  { intros n Hn. destruct write; unfold need_bits; rewrite Z.lor_spec, ?Z.bits_0.
    - change (USER) with (2 ^ 2). change WRITABLE with (2 ^ 1).
      rewrite !Z.pow2_bits_eqb by lia. rewrite (Z.eqb_sym 2), (Z.eqb_sym 1). done.
    - change (USER) with (2 ^ 2). rewrite Z.pow2_bits_eqb by lia. by rewrite (Z.eqb_sym 2). }
  destruct (Z.land e (need_bits write) =? need_bits write) eqn:E; zbool; symmetry.
  - apply andb_true_iff.
    assert (forall n, 0 <= n -> Z.testbit (need_bits write) n = true -> Z.testbit e n = true) as Hin.
    { intros n Hn Ht. rewrite <- E in Ht. rewrite Z.land_spec in Ht. by apply andb_true_iff in Ht as [? _]. }
    split; [apply Hin; [lia|by rewrite Hb]|]. destruct write; [|done].
    apply Hin; [lia|by rewrite Hb].
  - apply not_true_is_false. intros [H2 H1]%andb_true_iff. apply E, Z.bits_inj'. intros n Hn.
    rewrite Z.land_spec, Hb by done. destruct (n =? 2) eqn:E2; zbool; [subst n; by rewrite H2|].
    destruct write, (n =? 1) eqn:E1; zbool; cbn [orb andb negb] in *; rewrite ?andb_false_r; try done.
    subst n. by rewrite H1.
Qed.

(** What ring 3 may do with a page, by its leaf. *)
Definition leaf_allows (write : bool) (l : option Z) : bool :=
  match l with Some e => Z.testbit e 2 && (negb write || Z.testbit e 1) | None => false end.

Lemma access_step (st : State A) kinds (t r j : Z) (p : list Z) (write : bool) :
  inv st kinds -> kinds !! t = Some (r, p) -> (length p < 3)%nat -> idx_ok p j ->
  let e := entry_at (mem st) t j in
  negb (present e) || negb (Z.land e (need_bits write) =? need_bits write) = negb (present e).
Proof.
  intros Hi Hk Hl Hidx e. destruct (present e) eqn:He; simpl; [|done].
  destruct (inv_child _ _ Hi _ _ _ _ Hk Hl Hidx He) as (_ & H1 & H2). fold e in H1, H2.
  rewrite land_need, H1, H2. by rewrite orb_true_r.
Qed.

Lemma user_accessible_leaf (st : State A) kinds (cr3 root virt : Z) (write : bool) :
  inv st kinds -> kinds !! root = Some (root, []) -> Z.land cr3 ADDR_MASK = root -> is_user virt ->
  user_accessible cr3 virt write (mem st) = leaf_allows write (leaf (mem st) root virt).
Proof.
  intros Hi Hroot Hcr Hu. destruct (path3_ok virt Hu) as [(Ho1 & Ho2 & Ho3 & _) _].
  unfold user_accessible. rewrite Hcr. fold (need_bits write). unfold leaf, idxs. cbn [access_walk walk].
  change (Z.land (Z.shiftr virt (39 - 0 * 9)) 511) with (pml4_i virt).
  change (Z.land (Z.shiftr virt (39 - (0 + 1) * 9)) 511) with (pdpt_i virt).
  change (Z.land (Z.shiftr virt (39 - (0 + 1 + 1) * 9)) 511) with (pd_i virt).
  change (Z.land (Z.shiftr virt (39 - (0 + 1 + 1 + 1) * 9)) 511) with (pt_i virt).
  rewrite (access_step st kinds root root _ [] write Hi Hroot ltac:(simpl; lia) Ho1).
  destruct (present (entry_at (mem st) root (pml4_i virt))) eqn:E1; cbn [negb]; [|done].
  destruct (inv_child _ _ Hi _ _ _ _ Hroot ltac:(simpl; lia) Ho1 E1) as [Hk1 _].
  set (t1 := Z.land (entry_at (mem st) root _) ADDR_MASK) in *.
  rewrite (access_step st kinds t1 root _ _ write Hi Hk1 ltac:(simpl; lia) Ho2).
  destruct (present (entry_at (mem st) t1 (pdpt_i virt))) eqn:E2; cbn [negb]; [|done].
  destruct (inv_child _ _ Hi _ _ _ _ Hk1 ltac:(simpl; lia) Ho2 E2) as [Hk2 _].
  set (t2 := Z.land (entry_at (mem st) t1 _) ADDR_MASK) in *.
  rewrite (access_step st kinds t2 root _ _ write Hi Hk2 ltac:(simpl; lia) Ho3).
  destruct (present (entry_at (mem st) t2 (pd_i virt))) eqn:E3; cbn [negb]; [|done].
  set (t3 := Z.land (entry_at (mem st) t2 _) ADDR_MASK) in *.
  destruct (present (entry_at (mem st) t3 (pt_i virt))) eqn:E4; cbn [negb orb]; [|done].
  rewrite land_need. unfold leaf_allows. by destruct (Z.testbit _ 2 && _).
Qed.

(** After [map_page] with the user read-write flags succeeds, ring 3 can read and
    write the page; and mapping it with the read-only user flags leaves it readable but
    refuses writes. *)
Theorem mapped_page_accessible (st st' : State A) kinds (cr3 root virt phys : Z) (write rw : bool) :
  inv st kinds -> kinds !! root = Some (root, []) -> Z.land cr3 ADDR_MASK = root -> is_user virt ->
  map_page cr3 virt phys (if rw then USER_READ_WRITE else USER_READ) st = (Ok tt, st') ->
  user_accessible cr3 virt write (mem st') = negb write || rw.
Proof.
  intros Hi Hroot Hcr Hu Hmap.
  assert (user_flags (if rw then USER_READ_WRITE else USER_READ)) as Hf by by destruct rw.
  pose proof (map_page_meets _ _ _ _ _ phys _ Hi Hroot Hcr Hu Hf) as Hpost. rewrite Hmap in Hpost.
  destruct Hpost as [(_ & _ & Hleaf) (k' & Hs & Hi')].
  rewrite (user_accessible_leaf st' k' cr3 root) by (done || by eapply lookup_weaken).
  rewrite (Hleaf root virt Hroot Hu), decide_True by done.
  unfold leaf_allows, leaf_entry. rewrite !Z.lor_spec, !Z.land_spec.
  change (Z.testbit ADDR_MASK 2) with false. change (Z.testbit ADDR_MASK 1) with false.
  rewrite !andb_false_r. by destruct rw, write.
Qed.

End Tree.

End Vmm.

(** * Tables from the kernel heap *)

(** The heap with the allocations made so far ([Allocator.inv]'s ghost list). *)
Record HeapTables := mkHeapTables {
  ht_start : Z;
  ht_size : Z;
  ht_cpu : nat;
  ht_heap : Allocator.KernelAllocator;
  ht_live : list Allocator.Live
}.

(** [alloc_zeroed(Layout::from_size_align(4096, 4096))] on that heap. *)
#[export] Instance heap_tables : TableAllocator HeapTables := {|
  ta_alloc h :=
    match Allocator.alloc (ht_cpu h) 4096 4096 (ht_heap h) with
    | (Some p, heap') =>
        let b := match Allocator.headers heap' !! (p - Allocator.HEADER) with
                 | Some hd => Allocator.mkNode (Allocator.block_addr hd) (Allocator.block_size hd)
                 | None => Allocator.mkNode 0 0
                 end in
        (Some p, mkHeapTables (ht_start h) (ht_size h) (ht_cpu h) heap'
                              (Allocator.mkLive p 4096 b :: ht_live h))
    | (None, heap') => (None, mkHeapTables (ht_start h) (ht_size h) (ht_cpu h) heap' (ht_live h))
    end;
  ta_owned h t := exists e, e ∈ ht_live h /\ Allocator.l_ptr e = t;
  ta_wf h := Allocator.inv (ht_start h) (ht_size h) (ht_heap h) (ht_live h) /\
             ht_start h + ht_size h <= 2 ^ 52;
|}.

Lemma page_layout : Allocator.layout_ok 4096 4096.
Proof. split_and!; [lia|exists 12; split; [lia|done]|lia]. Qed.

#[export] Instance heap_tables_laws : TableAllocatorLaws HeapTables.
Proof.
  split; simpl.
  - intros h h' t [Hi Hb]. pose proof (Allocator.alloc_meets _ _ _ _ (ht_cpu h) _ _ Hi page_layout) as Hp.
    destruct (Allocator.alloc _ _ _ _) as [[p|] heap'] eqn:Ea; [|done]. simpl in Hp.
    destruct Hp as (b & Hi' & Hal & Hh). rewrite Hh. intros [= <- <-]. simpl.
    assert (Allocator.mkNode (Allocator.n_addr b) (Allocator.n_size b) = b) as -> by by destruct b.
    pose proof (Allocator.inv_live _ _ _ _ Hi') as Hl. apply Forall_cons_1 in Hl as [(_ & H1 & H2 & H3) _].
    simpl in *. pose proof (Allocator.pending_bounds (ht_start h) (ht_size h) heap' (ht_live h) b) as Hbd.
    unfold Allocator.HEADER in *.
    destruct Hbd as [Hb1 Hb2]; [|lia|].
    { destruct Hi' as [? Hpt ? ? Hlv]. apply Forall_cons_1 in Hlv as [_ Hlv]. split; try done.
      intros x. specialize (Hpt x). rewrite Allocator.cov_live_cons in Hpt. simpl in Hpt. lia. }
    destruct (Allocator.inv_heap _ _ _ _ Hi) as [Hs0 _].
    split_and!; [done..|lia|lia|done| | |].
    + intros (e & (i & He)%list_elem_of_lookup & Hpe).
      destruct (Allocator.inv_apart _ _ _ _ 0 (S i) (Allocator.mkLive p 4096 b) e Hi') as [Hd|Hd]; [lia|done|done|..];
        unfold Allocator.HEADER in Hd; simpl in Hd.
      * lia.
      * pose proof (Allocator.inv_live _ _ _ _ Hi) as Hl.
        pose proof (Forall_lookup_1 _ _ _ _ Hl He) as (_ & _ & ? & _). lia.
    + eexists. split; [left|done].
    + intros u (e & He & Hu). exists e. split; [by right|done].
  - intros h h' [Hi Hb]. pose proof (Allocator.alloc_meets _ _ _ _ (ht_cpu h) _ _ Hi page_layout) as Hp.
    destruct (Allocator.alloc _ _ _ _) as [[p|] heap'] eqn:Ea; [done|]. simpl in Hp.
    destruct Hp as [-> _]. intros [= <-]. by destruct h.
Qed.

(** * Witnesses: an address space built on a 256 KiB heap at 1 MiB *)

Module VmmExample.
Import Vmm.

Definition tables0 : HeapTables :=
  mkHeapTables 1048576 262144 0 (Allocator.init 1048576 262144 Allocator.ALLOCATOR) [].
(** The kernel root is itself a heap table. *)
Definition boot : State HeapTables := mkState ∅ (snd (ta_alloc tables0)) 1052672 1052672.
Definition root0 : Z := 1060864.
Definition space0 : State HeapTables := snd (create_address_space boot).
Definition kinds0 : gmap Z (Z * list Z) := {[ root0 := (root0, []) ]}.

Lemma tables0_wf : ta_wf tables0.
Proof.
  split; [|simpl; lia]. apply Allocator.init_inv; rewrite ?u64_bound_val; unfold Allocator.NODE_SIZE; simpl; lia.
Qed.

Lemma boot_alloc : ta_alloc tables0 = (Some 1052672, snd (ta_alloc tables0)).
Proof. apply pair_fst. vm_compute. reflexivity. Qed.

Lemma boot_inv : inv boot ∅ /\ ta_owned (tables boot) (kernel_pml4 boot).
Proof.
  destruct (ta_alloc_Some _ _ _ tables0_wf boot_alloc) as (Hwf & _ & _ & _ & Hown & _).
  split; [|exact Hown]. split; [exact Hwf|intros t k|intros t r p|intros t r p i]; by rewrite lookup_empty.
Qed.

Lemma space0_created : create_address_space boot = (Ok root0, space0).
Proof.
  unfold space0. apply (pair_fst (create_address_space boot) (Ok root0)). vm_compute. reflexivity.
Qed.

Lemma space0_inv : inv space0 kinds0 /\ kinds0 !! root0 = Some (root0, []).
Proof.
  destruct boot_inv as [Hi Hown]. assert (table_ok (kernel_pml4 boot)) as Hk by (split; [simpl; lia|reflexivity]).
  destruct (create_meets _ _ _ _ Hi Hk Hown space0_created) as (_ & Hi' & _).
  split; [exact Hi'|reflexivity].
Qed.

Definition space1 : State HeapTables := snd (map_page root0 USER_MIN 20480 USER_READ_WRITE space0).
Lemma space1_mapped : map_page root0 USER_MIN 20480 USER_READ_WRITE space0 = (Ok tt, space1).
Proof.
  unfold space1. apply (pair_fst (map_page root0 USER_MIN 20480 USER_READ_WRITE space0) (Ok tt)). vm_compute. reflexivity.
Qed.

Lemma user_flags_rw : user_flags USER_READ_WRITE.
Proof. split; reflexivity. Qed.

Lemma is_user_min : is_user USER_MIN.
Proof. unfold is_user, USER_MIN, USER_MAX. lia. Qed.

Lemma map_page_spec_witness :
  map_page_post kinds0 space0 root0 USER_MIN 20480 USER_READ_WRITE
    (map_page root0 USER_MIN 20480 USER_READ_WRITE space0) /\
  translate root0 (USER_MIN + 7) (mem space1) = Some 20480.
Proof.
  split; [|vm_compute; reflexivity]. destruct space0_inv as [Hi Hr].
  apply map_page_spec; [exact Hi|exact Hr|reflexivity|exact is_user_min|exact user_flags_rw].
Defined.

Definition space2 : State HeapTables := snd (map_range root0 USER_MIN 20480 8192 USER_READ_WRITE space0).
Lemma space2_mapped : map_range root0 USER_MIN 20480 8192 USER_READ_WRITE space0 = (Ok tt, space2).
Proof.
  unfold space2. apply (pair_fst (map_range root0 USER_MIN 20480 8192 USER_READ_WRITE space0) (Ok tt)). vm_compute. reflexivity.
Qed.

Lemma map_range_spec_witness :
  (exists kinds', kinds0 ⊆ kinds' /\ inv space2 kinds') /\
  (forall k, 0 <= k -> k * 4096 < 8192 ->
     translate root0 (USER_MIN + k * 4096) (mem space2) = Some (20480 + k * 4096)) /\
  forall cr3' virt', let root' := Z.land cr3' ADDR_MASK in
    kinds0 !! root' = Some (root', []) -> is_user virt' ->
    root' <> root0 \/ virt' < USER_MIN \/ USER_MIN + div_ceil 8192 4096 * 4096 <= virt' ->
    translate cr3' virt' (mem space2) = translate cr3' virt' (mem space0).
Proof.
  destruct space0_inv as [Hi Hr].
  apply (map_range_spec space0 space2 kinds0 root0 root0 USER_MIN 20480 8192 USER_READ_WRITE Hi Hr);
    [reflexivity|exact user_flags_rw|lia|reflexivity|reflexivity|lia|unfold USER_MIN, USER_MAX; lia|lia|lia|
     exact space2_mapped].
Defined.

Lemma unmap_page_spec_witness :
  inv (unmap_page root0 USER_MIN space0) kinds0 /\
  forall root' virt', kinds0 !! root' = Some (root', []) -> is_user virt' ->
    leaf (mem (unmap_page root0 USER_MIN space0)) root' virt' =
    if decide (root' = root0 /\ virt' / 4096 = USER_MIN / 4096) then None else leaf (mem space0) root' virt'.
Proof.
  destruct space0_inv as [Hi Hr].
  apply unmap_page_spec; [exact Hi|exact Hr|reflexivity|exact is_user_min].
Defined.

Lemma create_address_space_spec_witness :
  (∅ : gmap Z (Z * list Z)) !! root0 = None /\ inv space0 (<[root0 := (root0, [])]> ∅) /\
  spaces_same ∅ boot space0 /\
  (forall virt, is_user virt -> leaf (mem space0) root0 virt = None) /\
  (forall j, j = 0 \/ 256 <= j < 512 ->
     entry_at (mem space0) root0 j = entry_at (mem boot) (kernel_pml4 boot) j).
Proof.
  destruct boot_inv as [Hi Hown].
  apply (create_address_space_spec boot space0 ∅ (Ok root0));
    [exact Hi|split; [simpl; lia|reflexivity]|exact Hown|exact space0_created].
Defined.

Lemma free_user_address_space_spec_witness :
  let st' := free_user_address_space root0 space0 in
  inv st' kinds0 /\
  (forall root', kinds0 !! root' = Some (root', []) -> root' <> root0 -> forall virt, is_user virt ->
     leaf (mem st') root' virt = leaf (mem space0) root' virt) /\
  if decide (root0 = Z.land (kernel_pml4 space0) ADDR_MASK) then st' = space0
  else forall virt, is_user virt -> leaf (mem st') root0 virt = None.
Proof.
  destruct space0_inv as [Hi Hr]. apply free_user_address_space_spec; [exact Hi|exact Hr|reflexivity].
Defined.

Lemma mapped_page_accessible_witness : user_accessible root0 USER_MIN true (mem space1) = true.
Proof.
  destruct space0_inv as [Hi Hr].
  apply (mapped_page_accessible space0 space1 kinds0 root0 root0 USER_MIN 20480 true true Hi Hr);
    [reflexivity|exact is_user_min|exact space1_mapped].
Defined.
End VmmExample.
