(* ===== verification/Uaccess.v ===== *)
(** User-memory access: [crates/kernel/src/memory/uaccess.rs].

    Byte contents of user memory are a map from virtual byte address, as the
    active address space shows them; the page walk is the one of [Vmm.v]. *)
From stdpp Require Import base list numbers option gmap.
From S2P Require Import Prelude Str Allocator Vmm.

Open Scope Z_scope.

Module Uaccess.

Definition USER_MIN : Z := 549755813888.     (* 0x0000_0080_0000_0000 *)
Definition USER_MAX : Z := 140737488355328.  (* 0x0000_8000_0000_0000 *)
Definition MAX_TRANSFER : Z := 16 * 1024 * 1024.

Definition page_of (a : Z) : Z := Z.land a (Z.lnot 4095).

(** The page loop, one iteration per unit of fuel; [None] is fuel running out. *)
Fixpoint page_loop (fuel : nat) (acc : Z -> bool) (page last : Z) : option bool :=
  match fuel with
  | O => None
  | S n =>
      if negb (acc page) then Some false
      else if page =? last then Some true
      else page_loop n acc (page + 4096) last
  end.

(** [MAX_TRANSFER] bytes touch at most 4097 pages. *)
Definition LOOP_FUEL : nat := Z.to_nat 4098.

(** [acc page] is [vmm::user_accessible(cr3, page, write)]. *)
Definition validate_range_acc (acc : Z -> bool) (ptr len : Z) : option bool :=
  if len =? 0 then Some true
  else if MAX_TRANSFER <? len then Some false
  else match checked_add ptr len with
       | None => Some false
       | Some end_ =>
           if (ptr <? USER_MIN) || (USER_MAX <? end_) then Some false
           else page_loop LOOP_FUEL acc (page_of ptr) (page_of (end_ - 1))
       end.

Definition validate_range_in (cr3 ptr len : Z) (write : bool) (m : gmap Z Z) : option bool :=
  validate_range_acc (fun page => Vmm.user_accessible cr3 page write m) ptr len.

(** ** Transfers: the walk's verdict, then the bytes of the active address space *)

Notation bytes := (gmap Z Z).

Definition byte_run (ub : bytes) (ptr len : Z) : list Z :=
  (fun k => default 0 (ub !! (ptr + k))) <$> seqZ 0 len.

Definition read_bytes (cr3 : Z) (m : gmap Z Z) (ub : bytes) (ptr len : Z) : option (list Z) :=
  match validate_range_in cr3 ptr len false m with
  | Some true => Some (byte_run ub ptr len)
  | _ => None
  end.

Definition read_str (cr3 : Z) (m : gmap Z Z) (ub : bytes) (ptr len : Z) : option (list Z) :=
  b ← read_bytes cr3 m ub ptr len; if Str.utf8_valid b then Some b else None.

Fixpoint store (ub : bytes) (ptr : Z) (src : list Z) : bytes :=
  match src with [] => ub | b :: src' => store (<[ptr := b]> ub) (ptr + 1) src' end.

Definition write_bytes_in (cr3 : Z) (m : gmap Z Z) (ub : bytes) (ptr : Z) (src : list Z) : bool * bytes :=
  match validate_range_in cr3 ptr (Z.of_nat (length src)) true m with
  | Some true => (true, store ub ptr src)
  | _ => (false, ub)
  end.

(** [write_bytes] and [write_value] are the same copy with the active [cr3] and the
    value's bytes. *)
Definition write_bytes (active_cr3 : Z) := write_bytes_in active_cr3.
Definition write_value (active_cr3 : Z) (m : gmap Z Z) (ub : bytes) (ptr : Z) (value : list Z) : bool * bytes :=
  write_bytes_in active_cr3 m ub ptr value.

(** * Pages *)

Lemma page_of_eq (a : Z) : page_of a = a - a mod 4096.
Proof. unfold page_of. change 4095 with (Z.ones 12). by rewrite land_lnot_ones by lia. Qed.

Lemma page_of_bounds (a : Z) : page_of a <= a < page_of a + 4096 /\ page_of a mod 4096 = 0.
Proof.
  rewrite page_of_eq. pose proof (Z.mod_pos_bound a 4096 ltac:(lia)).
  split; [lia|]. rewrite Zminus_mod_idemp_r. by rewrite Z.sub_diag.
Qed.

Lemma page_loop_spec (n : nat) (acc : Z -> bool) (page last : Z) :
  0 <= page -> page <= last -> page mod 4096 = 0 -> last mod 4096 = 0 ->
  (last - page) / 4096 < Z.of_nat n ->
  exists b, page_loop n acc page last = Some b /\
    (b = true <-> forall a, page <= a < last + 4096 -> acc (page_of a) = true).
Proof.
  revert page. induction n as [|n IH]; intros page Hp Hle Hpm Hlm Hf; simpl.
  { pose proof (Z.div_pos (last - page) 4096 ltac:(lia) ltac:(lia)). lia. }
  assert (forall a, page <= a < page + 4096 -> page_of a = page) as Hpage.
  { intros a Ha. rewrite page_of_eq. pose proof (Z.div_mod page 4096 ltac:(lia)) as Hd.
    rewrite Hpm in Hd. replace a with (a - page + page / 4096 * 4096) at 2 by lia.
    rewrite Z.mod_add, Z.mod_small by lia. lia. }
  destruct (acc page) eqn:Ha; simpl.
  2:{ exists false. split; [done|]. split; [done|]. intros H.
      rewrite <- (Hpage page), H in Ha by lia. done. }
  destruct (page =? last) eqn:El; zbool.
  - subst. exists true. split; [done|]. split; [|done]. intros _ a Hr. rewrite Hpage by lia. done.
  - pose proof (Z.div_mod page 4096 ltac:(lia)). pose proof (Z.div_mod last 4096 ltac:(lia)).
    destruct (IH (page + 4096)) as (b & Hb & Hiff); [lia|lia| |done| |].
    + by rewrite <- Hpm, <- (Z.mod_add page 1 4096) by lia.
    + replace (last - page) with (last - (page + 4096) + 1 * 4096) in Hf by lia.
      rewrite Z.div_add in Hf by lia. lia.
    + exists b. split; [done|]. rewrite Hiff. split; intros H' a Hr.
      * destruct (decide (a < page + 4096)); [by rewrite Hpage by lia|]. apply H'. lia.
      * apply H'. lia.
Qed.

(** Accepted ranges: empty, or inside the user half, small enough and accessible byte
    by byte. *)
Definition range_ok (acc : Z -> bool) (ptr len : Z) : Prop :=
  len = 0 \/
  (len <= MAX_TRANSFER /\ USER_MIN <= ptr /\ ptr + len <= USER_MAX /\
   forall a, ptr <= a < ptr + len -> acc (page_of a) = true).

Lemma page_of_mono (a b : Z) : a <= b -> page_of a <= page_of b.
Proof.
  intros Hab. pose proof (page_of_bounds a) as [? Ha]. pose proof (page_of_bounds b) as [? Hb].
  pose proof (Z.div_mod (page_of a) 4096 ltac:(lia)). pose proof (Z.div_mod (page_of b) 4096 ltac:(lia)). lia.
Qed.

Lemma validate_range_acc_spec (acc : Z -> bool) (ptr len : Z) :
  is_u64 ptr -> is_u64 len ->
  exists b, validate_range_acc acc ptr len = Some b /\ (b = true <-> range_ok acc ptr len).
Proof.
  intros [Hp _] [Hl _]. unfold validate_range_acc, range_ok.
  destruct (len =? 0) eqn:E0; zbool; [exists true; split; [done|tauto]|].
  destruct (MAX_TRANSFER <? len) eqn:E1; zbool.
  { exists false. split; [done|]. split; [done|]. lia. }
  destruct (checked_add ptr len) as [e|] eqn:Ec.
  2:{ exists false. split; [done|]. split; [done|]. unfold checked_add in Ec. split_ifs.
      unfold USER_MAX. rewrite u64_bound_val in *. lia. }
  apply checked_add_Some in Ec as [-> Hlt].
  destruct (_ || _) eqn:Er.
  { exists false. split; [done|]. split; [done|]. apply orb_true_iff in Er as [|]; zbool; lia. }
  zbool. unfold USER_MIN in *. pose proof (page_of_bounds ptr) as [Hb1 Hm1].
  pose proof (page_of_bounds (ptr + len - 1)) as [Hb2 Hm2].
  pose proof (page_of_mono ptr (ptr + len - 1) ltac:(lia)).
  destruct (page_loop_spec LOOP_FUEL acc (page_of ptr) (page_of (ptr + len - 1)))
    as (b & -> & Hiff); [lia|lia|done|done| |].
  { unfold LOOP_FUEL, MAX_TRANSFER in *. rewrite Z2Nat.id by lia. apply Z.div_lt_upper_bound; lia. }
  exists b. split; [done|]. rewrite Hiff. split.
  - intros Hall. right. split_and!; try lia. intros a Ha. apply Hall. lia.
  - intros [?|(_ & _ & _ & Hall)]; [lia|]. intros a Ha.
    destruct (decide (a < ptr)); [|destruct (decide (ptr + len <= a))].
    + replace (page_of a) with (page_of ptr); [apply Hall; lia|].
      pose proof (page_of_bounds a) as [? Hma].
      pose proof (Z.div_mod (page_of a) 4096 ltac:(lia)). pose proof (Z.div_mod (page_of ptr) 4096 ltac:(lia)). lia.
    + replace (page_of a) with (page_of (ptr + len - 1)); [apply Hall; lia|].
      pose proof (page_of_bounds a) as [? Hma].
      pose proof (Z.div_mod (page_of a) 4096 ltac:(lia)).
      pose proof (Z.div_mod (page_of (ptr + len - 1)) 4096 ltac:(lia)). lia.
    + apply Hall. lia.
Qed.

Section Spaces.
Context {A : Type} `{TA : TableAllocator A} `{!TableAllocatorLaws A}.
Context (st : Vmm.State A) (kinds : gmap Z (Z * list Z)) (cr3 root : Z).
Context (Hinv : Vmm.inv st kinds) (Hroot : kinds !! root = Some (root, [])).
Context (Hcr3 : Z.land cr3 Vmm.ADDR_MASK = root).

(** A byte ring 3 may access: its page's leaf carries the permissions. *)
Definition byte_allowed (write : bool) (a : Z) : bool :=
  Vmm.leaf_allows write (Vmm.leaf (Vmm.mem st) root a).

Lemma access_page_of (write : bool) (a : Z) :
  Vmm.is_user a -> Vmm.user_accessible cr3 (page_of a) write (Vmm.mem st) = byte_allowed write a.
Proof.
  intros Hu. pose proof (page_of_bounds a) as [Hb Hm].
  pose proof (Z.div_mod (page_of a) 4096 ltac:(lia)).
  assert (Vmm.is_user (page_of a)) as Hup by (unfold Vmm.is_user, Vmm.USER_MIN, Vmm.USER_MAX in *; lia).
  rewrite (Vmm.user_accessible_leaf st kinds cr3 root) by done. unfold byte_allowed, Vmm.leaf.
  rewrite (proj2 (Vmm.idxs_page (page_of a) a Hup Hu)); [done|].
  apply Z.div_unique with (a - page_of a); lia.
Qed.

(** The bytes a transfer of [len] at [ptr] touches are all allowed. *)
Definition transfer_ok (ptr len : Z) (write : bool) : Prop :=
  len = 0 \/
  (len <= MAX_TRANSFER /\ USER_MIN <= ptr /\ ptr + len <= USER_MAX /\
   forall a, ptr <= a < ptr + len -> byte_allowed write a = true).

Lemma validate_meets (ptr len : Z) (write : bool) :
  is_u64 ptr -> is_u64 len ->
  exists b, validate_range_in cr3 ptr len write (Vmm.mem st) = Some b /\
    (b = true <-> transfer_ok ptr len write).
Proof.
  intros Hp Hl. destruct (validate_range_acc_spec
    (fun page => Vmm.user_accessible cr3 page write (Vmm.mem st)) ptr len Hp Hl) as (b & Hb & Hiff).
  exists b. split; [done|]. rewrite Hiff. unfold range_ok, transfer_ok.
  apply or_iff_compat_l. split; intros (H1 & H2 & H3 & H4); split_and!; try done; intros a Ha.
  - rewrite <- access_page_of; [by apply H4|].
    unfold Vmm.is_user, Vmm.USER_MIN, Vmm.USER_MAX, USER_MIN, USER_MAX in *. lia.
  - rewrite access_page_of; [by apply H4|].
    unfold Vmm.is_user, Vmm.USER_MIN, Vmm.USER_MAX, USER_MIN, USER_MAX in *. lia.
Qed.

(** C7: the user-pointer check always terminates and accepts a range exactly when it is
    empty, or at most 16 MiB, wholly inside the user half (so never kernel memory), and
    every one of its bytes lies on a page ring 3 may access with the requested
    permission. *)
Theorem validate_range_spec (ptr len : Z) (write : bool) :
  is_u64 ptr -> is_u64 len ->
  exists b, validate_range_in cr3 ptr len write (Vmm.mem st) = Some b /\
    (b = true <-> transfer_ok ptr len write).
Proof. apply validate_meets. Qed.

Lemma store_lookup (ub : bytes) (ptr : Z) (src : list Z) (a : Z) :
  store ub ptr src !! a =
  if decide (ptr <= a < ptr + Z.of_nat (length src)) then src !! Z.to_nat (a - ptr) else ub !! a.
Proof.
  revert ub ptr. induction src as [|b src IH]; intros ub ptr; simpl; [by rewrite decide_False by lia|].
  rewrite IH. destruct (decide (a = ptr)) as [->|Hne].
  - rewrite decide_False, decide_True by lia. rewrite lookup_insert_eq, Z.sub_diag. done.
  - case_decide.
    + rewrite decide_True by lia. by replace (Z.to_nat (a - ptr)) with (S (Z.to_nat (a - (ptr + 1)))) by lia.
    + rewrite decide_False by lia. by rewrite lookup_insert_ne.
Qed.

Lemma byte_run_store (ub : bytes) (ptr : Z) (src : list Z) :
  byte_run (store ub ptr src) ptr (Z.of_nat (length src)) = src.
Proof.
  apply list_eq. intros i. unfold byte_run. rewrite list_lookup_fmap.
  destruct (src !! i) as [b|] eqn:E.
  - pose proof (lookup_lt_Some _ _ _ E). rewrite lookup_seqZ_lt by lia. simpl.
    rewrite store_lookup, decide_True by lia. replace (Z.to_nat _) with i by lia. by rewrite E.
  - apply lookup_ge_None in E. by rewrite lookup_seqZ_ge by lia.
Qed.

Lemma transfer_ok_read (ptr len : Z) : transfer_ok ptr len true -> transfer_ok ptr len false.
Proof.
  intros [?|(H1 & H2 & H3 & H4)]; [by left|]. right. split_and!; try done. intros a Ha.
  specialize (H4 a Ha). unfold byte_allowed, Vmm.leaf_allows in *. destruct (Vmm.leaf _ _ _); [|done].
  by apply andb_true_iff in H4 as [-> _].
Qed.

(** A copy to user memory is all or nothing and reads back.  When [write_bytes_in]
    accepts, the same bytes are returned by [read_bytes] and no byte outside the range
    changes; when it refuses, user memory is untouched and the range contains a byte
    ring 3 may not write (or leaves the user half, or is over 16 MiB). *)
Theorem write_read_roundtrip (ub : bytes) (ptr : Z) (src : list Z) :
  is_u64 ptr -> is_u64 (Z.of_nat (length src)) ->
  let '(ok, ub') := write_bytes_in cr3 (Vmm.mem st) ub ptr src in
  if ok then
    read_bytes cr3 (Vmm.mem st) ub' ptr (Z.of_nat (length src)) = Some src /\
    forall a, ~ (ptr <= a < ptr + Z.of_nat (length src)) -> ub' !! a = ub !! a
  else ub' = ub /\ ~ transfer_ok ptr (Z.of_nat (length src)) true.
Proof.
  intros Hp Hl. unfold write_bytes_in, read_bytes.
  destruct (validate_meets ptr _ true Hp Hl) as (b & -> & Hiff).
  destruct b; [|split; [done|by intros ?%Hiff]]. split.
  - destruct (validate_meets ptr _ false Hp Hl) as (b' & -> & Hiff').
    rewrite (proj2 Hiff'); [by rewrite byte_run_store|]. by apply transfer_ok_read, Hiff.
  - intros a Ha. by rewrite store_lookup, decide_False.
Qed.
End Spaces.

(** ** Witnesses on the address space of [VmmExample] *)

Lemma space1_inv :
  exists kinds', Vmm.inv VmmExample.space1 kinds' /\
    kinds' !! VmmExample.root0 = Some (VmmExample.root0, []).
Proof.
  destruct VmmExample.space0_inv as [Hi Hr].
  pose proof (Vmm.map_page_meets VmmExample.space0 _ VmmExample.root0 _ Vmm.USER_MIN 20480 Vmm.USER_READ_WRITE
    Hi Hr eq_refl VmmExample.is_user_min VmmExample.user_flags_rw) as Hp.
  rewrite VmmExample.space1_mapped in Hp. destruct Hp as [_ (k & Hs & Hk)].
  exists k. split; [done|]. by eapply lookup_weaken.
Qed.

Lemma validate_range_spec_witness :
  exists b, validate_range_in VmmExample.root0 (Vmm.USER_MIN + 4090) 7 true (Vmm.mem VmmExample.space1) = Some b /\
    (b = true <-> transfer_ok VmmExample.space1 VmmExample.root0 (Vmm.USER_MIN + 4090) 7 true).
Proof.
  destruct space1_inv as (k & Hi & Hr).
  apply (validate_range_spec VmmExample.space1 k VmmExample.root0 VmmExample.root0 Hi Hr eq_refl);
    unfold is_u64, Vmm.USER_MIN; rewrite u64_bound_val; lia.
Defined.

Lemma write_read_roundtrip_witness :
  let '(ok, ub') := write_bytes_in VmmExample.root0 (Vmm.mem VmmExample.space1) ∅ (Vmm.USER_MIN + 16) [1; 2; 3] in
  if ok then
    read_bytes VmmExample.root0 (Vmm.mem VmmExample.space1) ub' (Vmm.USER_MIN + 16) 3 = Some [1; 2; 3] /\
    forall a, ~ (Vmm.USER_MIN + 16 <= a < Vmm.USER_MIN + 16 + 3) -> ub' !! a = (∅ : bytes) !! a
  else ub' = ∅ /\ ~ transfer_ok VmmExample.space1 VmmExample.root0 (Vmm.USER_MIN + 16) 3 true.
Proof.
  destruct space1_inv as (k & Hi & Hr).
  apply (write_read_roundtrip VmmExample.space1 k VmmExample.root0 VmmExample.root0 Hi Hr eq_refl);
    unfold is_u64, Vmm.USER_MIN; rewrite u64_bound_val; simpl; lia.
Defined.

End Uaccess.
