(* ===== verification/Thread.v ===== *)
(** Thread table: [crates/kernel/src/task/thread.rs], with the types it shares
    with [crates/kernel/src/task/process.rs].

    The static [THREADS] vector is a list in vector order; [find] is the first
    match.  Kernel stacks come from the heap of [Allocator.v]; the words the
    kernel stores on them are the finite map [kmem].  Every function body runs
    under the re-entrant thread lock ([Lock.v]), so each is one step.
    [notify_pipe_readers] is in [Pipe.v]. *)
From stdpp Require Import base list numbers option gmap.
From S2P Require Import Prelude Allocator.

Open Scope Z_scope.

Module Thread.

Inductive ThreadState := Empty | Ready | Running | Sleeping | Exited.
#[export] Instance ThreadState_eq_dec : EqDecision ThreadState.
Proof. solve_decision. Defined.

Definition state_code (s : ThreadState) : Z :=
  match s with Empty => 0 | Ready => 1 | Running => 2 | Sleeping => 3 | Exited => 4 end.

Inductive PrivilegeLevel := System | Driver | User.
#[export] Instance PrivilegeLevel_eq_dec : EqDecision PrivilegeLevel.
Proof. solve_decision. Defined.
(** The derived order: [System < Driver < User]. *)
Definition level (p : PrivilegeLevel) : Z := match p with System => 0 | Driver => 1 | User => 2 end.

Inductive WaitTarget :=
  | WNone
  | WKeyboard
  | WPid (pid : Z)
  | WTid (tid : Z)
  | WTimer (deadline : Z)
  | WTick
  | WIpc (channel : Z)
  | WIrq (irq : Z)
  | WAudio
  | WPipeRead (pipe_id buf_ptr buf_len : Z).
#[export] Instance WaitTarget_eq_dec : EqDecision WaitTarget.
Proof. solve_decision. Defined.

Record UserContext := mkCtx {
  rax : Z; rbx : Z; rcx : Z; rdx : Z; rsi : Z; rdi : Z; rbp : Z;
  r8 : Z; r9 : Z; r10 : Z; r11 : Z; r12 : Z; r13 : Z; r14 : Z; r15 : Z;
  rip : Z; rsp : Z; rflags : Z; cr3 : Z; ctx_kernel_rsp : Z; user_stack_top : Z
}.

Definition EMPTY_USER_CONTEXT : UserContext :=
  mkCtx 0 0 0 0 0 0 0 0 0 0 0 0 0 0 0 0 0 514 0 0 0.

Record Thread := mkThread {
  tid : Z;
  t_pid : Z;
  t_state : ThreadState;
  t_cpu_ticks : Z;
  t_context : UserContext;
  t_kernel_rsp : Z;
  t_stack_base : Z;
  t_preempted : bool;
  t_blocking_rsp : Z;
  t_blocking_retval : Z;
  t_wait : WaitTarget;
  t_privilege : PrivilegeLevel;
  t_cpu : Z
}.

Definition KERNEL_STACK_SIZE : Z := 65536.
Definition MAX_CPUS : nat := 16.

Record TState := mkTState {
  threads : list Thread;
  next_tid : Z;
  initialized : bool;
  next_assign_cpu : Z;
  pending_stack_free : list Z;
  kmem : gmap Z Z;
  heap : Allocator.KernelAllocator
}.

Definition set_threads (l : list Thread) (s : TState) : TState :=
  mkTState l (next_tid s) (initialized s) (next_assign_cpu s) (pending_stack_free s) (kmem s) (heap s).

(** ** Field updates *)

Definition with_state (v : ThreadState) (t : Thread) : Thread :=
  mkThread (tid t) (t_pid t) v (t_cpu_ticks t) (t_context t) (t_kernel_rsp t) (t_stack_base t)
    (t_preempted t) (t_blocking_rsp t) (t_blocking_retval t) (t_wait t) (t_privilege t) (t_cpu t).
Definition with_context (v : UserContext) (t : Thread) : Thread :=
  mkThread (tid t) (t_pid t) (t_state t) (t_cpu_ticks t) v (t_kernel_rsp t) (t_stack_base t)
    (t_preempted t) (t_blocking_rsp t) (t_blocking_retval t) (t_wait t) (t_privilege t) (t_cpu t).
Definition with_kernel_rsp (v : Z) (t : Thread) : Thread :=
  mkThread (tid t) (t_pid t) (t_state t) (t_cpu_ticks t) (t_context t) v (t_stack_base t)
    (t_preempted t) (t_blocking_rsp t) (t_blocking_retval t) (t_wait t) (t_privilege t) (t_cpu t).
Definition with_preempted (v : bool) (t : Thread) : Thread :=
  mkThread (tid t) (t_pid t) (t_state t) (t_cpu_ticks t) (t_context t) (t_kernel_rsp t) (t_stack_base t)
    v (t_blocking_rsp t) (t_blocking_retval t) (t_wait t) (t_privilege t) (t_cpu t).
Definition with_blocking_rsp (v : Z) (t : Thread) : Thread :=
  mkThread (tid t) (t_pid t) (t_state t) (t_cpu_ticks t) (t_context t) (t_kernel_rsp t) (t_stack_base t)
    (t_preempted t) v (t_blocking_retval t) (t_wait t) (t_privilege t) (t_cpu t).
Definition with_blocking_retval (v : Z) (t : Thread) : Thread :=
  mkThread (tid t) (t_pid t) (t_state t) (t_cpu_ticks t) (t_context t) (t_kernel_rsp t) (t_stack_base t)
    (t_preempted t) (t_blocking_rsp t) v (t_wait t) (t_privilege t) (t_cpu t).
Definition with_wait (v : WaitTarget) (t : Thread) : Thread :=
  mkThread (tid t) (t_pid t) (t_state t) (t_cpu_ticks t) (t_context t) (t_kernel_rsp t) (t_stack_base t)
    (t_preempted t) (t_blocking_rsp t) (t_blocking_retval t) v (t_privilege t) (t_cpu t).
Definition with_ticks (v : Z) (t : Thread) : Thread :=
  mkThread (tid t) (t_pid t) (t_state t) v (t_context t) (t_kernel_rsp t) (t_stack_base t)
    (t_preempted t) (t_blocking_rsp t) (t_blocking_retval t) (t_wait t) (t_privilege t) (t_cpu t).
Definition with_cpu (v : Z) (t : Thread) : Thread :=
  mkThread (tid t) (t_pid t) (t_state t) (t_cpu_ticks t) (t_context t) (t_kernel_rsp t) (t_stack_base t)
    (t_preempted t) (t_blocking_rsp t) (t_blocking_retval t) (t_wait t) (t_privilege t) v.
Definition with_pid (v : Z) (t : Thread) : Thread :=
  mkThread (tid t) v (t_state t) (t_cpu_ticks t) (t_context t) (t_kernel_rsp t) (t_stack_base t)
    (t_preempted t) (t_blocking_rsp t) (t_blocking_retval t) (t_wait t) (t_privilege t) (t_cpu t).
Definition with_privilege (v : PrivilegeLevel) (t : Thread) : Thread :=
  mkThread (tid t) (t_pid t) (t_state t) (t_cpu_ticks t) (t_context t) (t_kernel_rsp t) (t_stack_base t)
    (t_preempted t) (t_blocking_rsp t) (t_blocking_retval t) (t_wait t) v (t_cpu t).

Definition is_state (v : ThreadState) (t : Thread) : bool := bool_decide (t_state t = v).

(** [threads.iter().find(|t| t.tid == tid)] and its mutable form. *)
Definition find (id : Z) (s : TState) : option Thread := find_first (fun t => tid t =? id) (threads s).
Definition modify (id : Z) (f : Thread -> Thread) (s : TState) : TState :=
  set_threads (update_first (fun t => tid t =? id) f (threads s)) s.

(** * Creation *)

Definition init (s : TState) : TState :=
  if initialized s then s
  else mkTState [] 1 true (next_assign_cpu s) (pending_stack_free s) (kmem s) (heap s).

(** Zeroed by [alloc_zeroed]: the words of the block read as 0. *)
Definition zero_region (base size : Z) (m : gmap Z Z) : gmap Z Z :=
  filter (fun kv => ~ (base <= fst kv < base + size)) m.

Definition alloc_kernel_stack (cpu : nat) (s : TState) : option Z * TState :=
  match Allocator.alloc cpu KERNEL_STACK_SIZE 4096 (heap s) with
  | (Some p, h) => (Some p, mkTState (threads s) (next_tid s) (initialized s) (next_assign_cpu s)
                       (pending_stack_free s) (zero_region p KERNEL_STACK_SIZE (kmem s)) h)
  | (None, h) => (None, mkTState (threads s) (next_tid s) (initialized s) (next_assign_cpu s)
                       (pending_stack_free s) (kmem s) h)
  end.

(** [p.add(i).write(v)] for consecutive [i]. *)
Fixpoint write_words (p : Z) (l : list Z) (m : gmap Z Z) : gmap Z Z :=
  match l with [] => m | v :: l' => write_words (p + 8) l' (<[p := v]> m) end.

Definition kernel_frame (stack_top entry arg : Z) : list Z :=
  [0; 0; 0; 0; 0; 0; 0; 0; 0; 0; arg; 0; 0; 0; 0; entry; 8; 514; stack_top; 16].

Definition setup_kernel_task_stack (stack_base entry arg : Z) (m : gmap Z Z) : Z * gmap Z Z :=
  let stack_top := wrap64 (stack_base + KERNEL_STACK_SIZE) in
  let kernel_rsp := wrap64 (stack_top - 160) in
  (kernel_rsp, write_words kernel_rsp (kernel_frame stack_top entry arg) m).

#[global] Arguments setup_kernel_task_stack : simpl never.
#[global] Arguments write_words : simpl never.

(** [cpu] is the calling CPU, [cpu_count] the value of [smp::cpu_count()]. *)
Definition create_kernel_thread (cpu : nat) (cpu_count pid entry arg : Z) (privilege : PrivilegeLevel)
    (s : TState) : Z * TState :=
  let s := init s in
  match alloc_kernel_stack cpu s with
  | (None, s) => (0, s)
  | (Some stack_base, s) =>
      let '(kernel_rsp, m) := setup_kernel_task_stack stack_base entry arg (kmem s) in
      let id := next_tid s in
      let assigned := next_assign_cpu s mod Z.max cpu_count 1 in
      let t := mkThread id pid Sleeping 0 EMPTY_USER_CONTEXT kernel_rsp stack_base false 0 0 WNone
                        privilege assigned in
      (id, mkTState (threads s ++ [t]) (wrap64 (id + 1)) (initialized s)
                    (wrap64 (next_assign_cpu s + 1)) (pending_stack_free s) m (heap s))
  end.

Definition set_user_context (id : Z) (context : UserContext) : TState -> TState :=
  modify id (with_context context).

(** [UserContext { rip, rsp, cr3, user_stack_top, rdi, rsi, ..EMPTY }]. *)
Definition entry_context (entry stack_top cr3 argc argv : Z) : UserContext :=
  mkCtx 0 0 0 0 argv argc 0 0 0 0 0 0 0 0 0 entry stack_top 514 cr3 0 stack_top.

Definition create_user_thread (cpu : nat) (cpu_count pid entry stack_top cr3 : Z)
    (privilege : PrivilegeLevel) (argc argv : Z) (s : TState) : Z * TState :=
  let '(id, s) := create_kernel_thread cpu cpu_count pid entry 0 privilege s in
  if id =? 0 then (0, s)
  else (id, set_user_context id (entry_context entry stack_top cr3 argc argv) s).

(** * Accessors *)

Definition user_context (id : Z) (s : TState) : option UserContext := t_context <$> find id s.
Definition user_cr3 (id : Z) (s : TState) : option Z := cr3 <$> user_context id s.
Definition kernel_rsp (id : Z) (s : TState) : option Z := t_kernel_rsp <$> find id s.
Definition set_kernel_rsp (id v : Z) : TState -> TState := modify id (with_kernel_rsp v).
Definition kernel_stack_base (id : Z) (s : TState) : option Z := t_stack_base <$> find id s.
Definition kernel_stack_top (id : Z) (s : TState) : option Z :=
  (fun base => wrap64 (base + KERNEL_STACK_SIZE)) <$> kernel_stack_base id s.

Definition terminal (v : ThreadState) : bool := match v with Empty | Exited => true | _ => false end.

(** The three guarded transitions refuse to leave [Empty] and [Exited]. *)
Definition set_running (id : Z) : TState -> TState :=
  modify id (fun t => if terminal (t_state t) then t else with_state Running t).
Definition set_ready (id : Z) : TState -> TState :=
  modify id (fun t => match t_state t with
                      | Ready | Running | Sleeping => with_state Ready t
                      | _ => t
                      end).
Definition set_sleeping (id : Z) : TState -> TState :=
  modify id (fun t => if terminal (t_state t) then t else with_state Sleeping t).

Definition set_state (id : Z) (v : ThreadState) : TState -> TState :=
  match v with
  | Ready => set_ready id
  | Running => set_running id
  | Sleeping => set_sleeping id
  | Exited | Empty => modify id (with_state v)
  end.

Definition state (id : Z) (s : TState) : option ThreadState := t_state <$> find id s.
Definition set_kernel_preempted (id : Z) (v : bool) : TState -> TState := modify id (with_preempted v).
Definition is_kernel_preempted (id : Z) (s : TState) : bool := default false (t_preempted <$> find id s).
Definition set_blocking_rsp (id v : Z) : TState -> TState := modify id (with_blocking_rsp v).

Definition take_blocking_rsp (id : Z) (s : TState) : option Z * TState :=
  match find id s with
  | Some t => if t_blocking_rsp t =? 0 then (None, s)
              else (Some (t_blocking_rsp t), modify id (with_blocking_rsp 0) s)
  | None => (None, s)
  end.

Definition take_blocking_retval (id : Z) (s : TState) : Z * TState :=
  match find id s with
  | Some t => (t_blocking_retval t, modify id (with_blocking_retval 0) s)
  | None => (0, s)
  end.

Definition set_wait_target (id : Z) (w : WaitTarget) : TState -> TState := modify id (with_wait w).
Definition wait_target (id : Z) (s : TState) : option WaitTarget := t_wait <$> find id s.
Definition add_cpu_ticks (id ticks : Z) : TState -> TState :=
  modify id (fun t => with_ticks (saturating_add (t_cpu_ticks t) ticks) t).
Definition cpu_ticks (id : Z) (s : TState) : option Z := t_cpu_ticks <$> find id s.
Definition assigned_cpu (id : Z) (s : TState) : option Z := t_cpu <$> find id s.
Definition set_assigned_cpu (id v : Z) : TState -> TState := modify id (with_cpu v).
Definition remove_thread (id : Z) (s : TState) : TState :=
  set_threads (retain (fun t => negb (tid t =? id)) (threads s)) s.
Definition set_thread_pid (id pid : Z) : TState -> TState := modify id (with_pid pid).
Definition set_privilege (id : Z) (p : PrivilegeLevel) : TState -> TState := modify id (with_privilege p).
Definition privilege_level (id : Z) (s : TState) : PrivilegeLevel :=
  default User (t_privilege <$> find id s).

(** * Deferred stack reclamation *)

(** A missing header (never the case for a live stack) leaves the heap alone. *)
Definition free_kernel_stack (cpu : nat) (stack_base : Z) (s : TState) : TState :=
  if stack_base =? 0 then s
  else mkTState (threads s) (next_tid s) (initialized s) (next_assign_cpu s) (pending_stack_free s)
         (kmem s) (default (heap s) (Allocator.dealloc cpu stack_base (heap s))).

Definition defer_free_kernel_stack (cpu : nat) (stack_base : Z) (s : TState) : TState :=
  let prev := default 0 (pending_stack_free s !! cpu) in
  free_kernel_stack cpu prev
    (mkTState (threads s) (next_tid s) (initialized s) (next_assign_cpu s)
              (<[cpu := stack_base]> (pending_stack_free s)) (kmem s) (heap s)).

(** * Enumeration *)

Definition live (t : Thread) : bool := negb (is_state Empty t).
Definition active (t : Thread) : bool := is_state Ready t || is_state Running t || is_state Sleeping t.

(** [.map(|t| t.tid).min()]. *)
Definition min_opt (l : list Z) : option Z :=
  match l with [] => None | x :: l' => Some (foldr Z.min x l') end.
Definition min_tid (P : Thread -> bool) (s : TState) : option Z := min_opt (tid <$> retain P (threads s)).

Record ThreadInfo := mkInfo { i_tid : Z; i_pid : Z; i_state : Z; i_ticks : Z; i_cpu : Z }.

Definition thread_info (id : Z) (s : TState) : option ThreadInfo :=
  (fun t => mkInfo (tid t) (t_pid t) (state_code (t_state t)) (t_cpu_ticks t) (t_cpu t)) <$>
  find_first (fun t => (tid t =? id) && live t) (threads s).
Definition cpu_ticks_for_pid (pid : Z) (s : TState) : Z :=
  foldl saturating_add 0 (t_cpu_ticks <$> retain (fun t => (t_pid t =? pid) && live t) (threads s)).
Definition next_thread_in_pid (pid prev : Z) (s : TState) : option Z :=
  min_tid (fun t => (t_pid t =? pid) && (prev <? tid t) && live t) s.
Definition first_tid (s : TState) : option Z := tid <$> find_first live (threads s).
Definition next_tid_after (id : Z) (s : TState) : option Z :=
  min_tid (fun t => live t && (if id =? u64_max then true else id <? tid t)) s.
Definition active_tid_after (id : Z) (s : TState) : option Z :=
  min_tid (fun t => (is_state Ready t || is_state Running t) && (id <? tid t)) s.
Definition count (s : TState) : Z := Z.of_nat (length (retain live (threads s))).
Definition active_count (s : TState) : Z := Z.of_nat (length (retain active (threads s))).
Definition thread_pid (id : Z) (s : TState) : option Z :=
  t_pid <$> find_first (fun t => (tid t =? id) && live t) (threads s).
Definition thread_exists (id : Z) (s : TState) : bool :=
  existsb (fun t => (tid t =? id) && live t) (threads s).

(** * Blocking and waking *)

Definition word (m : gmap Z Z) (p i : Z) : Z := default 0 (m !! (p + 8 * i)).

Definition restore_ctx_from_blocking_frame (m : gmap Z Z) (retval : Z) (t : Thread) : Thread :=
  let f := t_blocking_rsp t in
  if f =? 0 then t else
  let w := word m f in
  let c := t_context t in
  let c' := mkCtx retval (w 12) (w 11) (w 10) (w 9) (w 8) (w 13) (w 7) (w 6) (w 5) (w 4) (w 3) (w 2)
              (w 1) (w 0) (w 14) (w 17) (w 16) (cr3 c) (ctx_kernel_rsp c) (user_stack_top c) in
  with_preempted false (with_blocking_rsp 0 (with_context c' t)).

Definition apply_blocking_return_if_pending (id : Z) (s : TState) : bool * TState :=
  match find id s with
  | Some t =>
      if t_blocking_rsp t =? 0 then (false, s)
      else (true, modify id (fun t => restore_ctx_from_blocking_frame (kmem s) (t_blocking_retval t)
                                        (with_blocking_retval 0 t)) s)
  | None => (false, s)
  end.

(** The body every wakeup shares: hand over [retval], make it [Ready]. *)
Definition wake (m : gmap Z Z) (retval : Z) (t : Thread) : Thread :=
  with_wait WNone (with_state Ready (restore_ctx_from_blocking_frame m retval t)).

Definition wake_first (P : Thread -> bool) (retval : Z) (s : TState) : bool * TState :=
  match find_first P (threads s) with
  | Some _ => (true, set_threads (update_first P (wake (kmem s) retval) (threads s)) s)
  | None => (false, s)
  end.
Definition wake_all (P : Thread -> bool) (retval : Z) (s : TState) : TState :=
  set_threads ((fun t => if P t then wake (kmem s) retval t else t) <$> threads s) s.

Definition waits (w : WaitTarget) (t : Thread) : bool := is_state Sleeping t && bool_decide (t_wait t = w).

Definition wakeup_key_waiters (key : Z) (s : TState) : Z * TState :=
  let '(b, s) := wake_first (waits WKeyboard) key s in ((if b then 1 else 0), s).
Definition wakeup_key_waiter_for_pid (pid key : Z) (s : TState) : Z * TState :=
  let '(b, s) := wake_first (fun t => (t_pid t =? pid) && waits WKeyboard t) key s in
  ((if b then 1 else 0), s).
Definition wakeup_pid_waiters (exited_pid : Z) : TState -> TState := wake_all (waits (WPid exited_pid)) 1.
Definition wakeup_thread_waiters (exited_tid : Z) : TState -> TState := wake_all (waits (WTid exited_tid)) 0.
Definition wakeup_ipc_waiter (id retval : Z) (s : TState) : TState :=
  modify id (fun t => if is_state Sleeping t && (match t_wait t with WIpc _ => true | _ => false end)
                      then wake (kmem s) retval t else t) s.
Definition wakeup_irq_waiter (irq : Z) : TState -> bool * TState := wake_first (waits (WIrq irq)) 0.
Definition wakeup_audio_waiters : TState -> TState := wake_all (waits WAudio) 0.
Definition wake_timer_sleepers (now_tsc : Z) : TState -> TState :=
  wake_all (fun t => is_state Sleeping t &&
                     (match t_wait t with WTimer deadline => deadline <=? now_tsc | _ => false end)) 0.
Definition wake_tick_sleepers : TState -> TState := wake_all (waits WTick) 0.

(** * Well-formed tables *)

Record wf (s : TState) : Prop := {
  wf_nodup : NoDup (tid <$> threads s);
  wf_tids : Forall (fun t => 1 <= tid t < next_tid s) (threads s);
  wf_next : 1 <= next_tid s;
  wf_init : initialized s = true;
}.

Lemma find_Some (id : Z) (s : TState) (t : Thread) : find id s = Some t -> t ∈ threads s /\ tid t = id.
Proof. intros [? ?]%find_first_Some. zbool. done. Qed.

Lemma find_None (id : Z) (s : TState) : find id s = None <-> id ∉ tid <$> threads s.
Proof.
  unfold find. rewrite find_first_None, list_elem_of_fmap. split.
  - intros H (t & -> & Ht). specialize (H t Ht). zbool. done.
  - intros H t Ht. apply Z.eqb_neq. intros <-. apply H. eauto.
Qed.

Lemma find_elem (s : TState) (t : Thread) : wf s -> t ∈ threads s -> find (tid t) s = Some t.
Proof.
  intros [Hnd _ _ _] Ht. destruct (find (tid t) s) as [t'|] eqn:E.
  - apply find_Some in E as [Ht' Heq]. f_equal.
    apply list_elem_of_lookup in Ht as [i Hi]. apply list_elem_of_lookup in Ht' as [j Hj].
    assert (i = j) as ->; [|congruence].
    eapply (NoDup_lookup _ i j (tid t) Hnd); rewrite list_lookup_fmap; [by rewrite Hi|].
    rewrite Hj. simpl. by rewrite Heq.
  - apply find_None in E. destruct E. by apply list_elem_of_fmap_2.
Qed.

Lemma find_modify (id id' : Z) (f : Thread -> Thread) (s : TState) :
  (forall t, tid (f t) = tid t) ->
  find id' (modify id f s) = (if id' =? id then f <$> find id s else find id' s).
Proof.
  intros Hf. unfold find, modify. simpl. destruct (id' =? id) eqn:E; zbool.
  - subst. apply find_first_update_first_eq. intros x Hx. by rewrite Hf.
  - apply find_first_update_first_ne. intros x Hx. rewrite Hf. zbool. lia.
Qed.

Lemma tids_modify (id : Z) (f : Thread -> Thread) (s : TState) :
  (forall t, tid (f t) = tid t) -> tid <$> threads (modify id f s) = tid <$> threads s.
Proof. intros Hf. unfold modify. simpl. apply update_first_map. auto. Qed.

(** [s'] arises from [s] by changing threads in place, dropping some and adding fresh
    ones, never reviving a finished thread. *)
Record evolves (s s' : TState) : Prop := {
  ev_wf : wf s';
  ev_next : next_tid s <= next_tid s';
  ev_threads t' : t' ∈ threads s' ->
    (exists t, t ∈ threads s /\ tid t = tid t' /\
               (terminal (t_state t) = true -> terminal (t_state t') = true)) \/
    next_tid s <= tid t';
}.

Lemma evolves_refl (s : TState) : wf s -> evolves s s.
Proof. intros Hwf. split; [done|lia|]. intros t' Ht'. left. eauto. Qed.

Lemma evolves_trans (s1 s2 s3 : TState) : evolves s1 s2 -> evolves s2 s3 -> evolves s1 s3.
Proof.
  intros [_ H1 H2] [H3 H4 H5]. split; [done|lia|]. intros t3 Ht3.
  destruct (H5 t3 Ht3) as [(t2 & Ht2 & E2 & Hf2)|?]; [|right; lia].
  destruct (H2 t2 Ht2) as [(t1 & Ht1 & E1 & Hf1)|?]; [left|right; lia].
  exists t1. split_and!; [done|congruence|auto].
Qed.

Lemma evolves_map (s s' : TState) (f : Thread -> Thread) :
  wf s -> next_tid s' = next_tid s -> initialized s' = initialized s ->
  tid <$> threads s' = tid <$> threads s ->
  (forall t', t' ∈ threads s' -> t' ∈ threads s \/ exists t, t ∈ threads s /\ t' = f t) ->
  (forall t, t ∈ threads s -> tid (f t) = tid t /\ (terminal (t_state t) = true -> terminal (t_state (f t)) = true)) ->
  evolves s s'.
Proof.
  intros [Hnd Ht Hn Hi] Hnx Hini Htids Hin Hf. split.
  - split; [by rewrite Htids| |by rewrite Hnx|by rewrite Hini].
    apply Forall_forall. intros t' Ht'. rewrite Hnx.
    assert (tid t' ∈ tid <$> threads s) as (t & Heq & Hts)%list_elem_of_fmap
      by (rewrite <- Htids; by apply list_elem_of_fmap_2).
    rewrite Heq. rewrite Forall_forall in Ht. auto.
  - lia.
  - intros t' Ht'. left. destruct (Hin t' Ht') as [?|(t & Hts & ->)]; [eauto|].
    exists t. destruct (Hf t Hts) as [E ?]. by rewrite E.
Qed.

(** A per-thread update that keeps the tid and does not revive. *)
Definition tame (f : Thread -> Thread) : Prop :=
  forall t, tid (f t) = tid t /\ (terminal (t_state t) = true -> terminal (t_state (f t)) = true).

Lemma evolves_modify (id : Z) (f : Thread -> Thread) (s : TState) :
  wf s -> tame f -> evolves s (modify id f s).
Proof.
  intros Hwf Hf. apply (evolves_map s _ f); try done.
  - apply tids_modify. apply Hf.
  - intros t' [?|(t & ? & _ & ->)]%elem_of_update_first; eauto.
Qed.

Lemma evolves_update_where (P : Thread -> bool) (f : Thread -> Thread) (s : TState) :
  wf s -> (forall t, tid (f t) = tid t) -> (forall t, P t = true -> t_state t = Sleeping) ->
  evolves s (set_threads (update_first P f (threads s)) s) /\
  evolves s (set_threads ((fun t => if P t then f t else t) <$> threads s) s).
Proof.
  intros Hwf Hf HP.
  assert (forall t, tid (if P t then f t else t) = tid t /\
            (terminal (t_state t) = true -> terminal (t_state (if P t then f t else t)) = true)) as Hg.
  { intros t. destruct (P t) eqn:E; [|done]. rewrite Hf, (HP t E). done. }
  split; apply (evolves_map s _ (fun t => if P t then f t else t)); try done; eauto.
  - simpl. apply update_first_map. auto.
  - simpl. intros t' [?|(t & ? & Hp & ->)]%elem_of_update_first; [by left|].
    right. exists t. by rewrite Hp.
  - simpl. rewrite <- list_fmap_compose. apply list_fmap_ext. intros i t _. simpl. apply Hg.
  - simpl. intros t' (t & -> & Ht)%list_elem_of_fmap. right. eauto.
Qed.

Lemma evolves_remove (id : Z) (s : TState) : wf s -> evolves s (remove_thread id s).
Proof.
  intros [Hnd Ht Hn Hi]. split; [split|simpl; lia|].
  - simpl. clear -Hnd. induction (threads s) as [|t l IH]; simpl in *; [done|].
    apply NoDup_cons in Hnd as [Hn Hnd]. destruct (negb _); [|by apply IH].
    simpl. apply NoDup_cons. split; [|by apply IH].
    intros (u & Hu & [_ Hin]%elem_of_retain)%list_elem_of_fmap. apply Hn. rewrite Hu.
    by apply list_elem_of_fmap_2.
  - simpl. apply Forall_forall. intros t [_ Hin]%elem_of_retain. rewrite Forall_forall in Ht. auto.
  - done.
  - done.
  - simpl. intros t' [_ Ht']%elem_of_retain. left. eauto.
Qed.

(** Updates outside the table. *)
Lemma evolves_same (s s' : TState) :
  wf s -> threads s' = threads s -> next_tid s' = next_tid s -> initialized s' = initialized s -> evolves s s'.
Proof.
  intros Hwf Ht Hn Hi. apply (evolves_map s s' id); try done.
  - by rewrite Ht.
  - rewrite Ht. auto.
Qed.

Lemma alloc_kernel_stack_same (cpu : nat) (s : TState) :
  let s' := (alloc_kernel_stack cpu s).2 in
  threads s' = threads s /\ next_tid s' = next_tid s /\ initialized s' = initialized s.
Proof. unfold alloc_kernel_stack. by destruct (Allocator.alloc _ _ _ _) as [[p|] h]. Qed.

Lemma evolves_create (cpu : nat) (cpu_count pid entry arg : Z) (p : PrivilegeLevel) (s : TState) :
  wf s -> next_tid s + 1 < u64_bound ->
  evolves s (create_kernel_thread cpu cpu_count pid entry arg p s).2 /\
  next_tid (create_kernel_thread cpu cpu_count pid entry arg p s).2 <= next_tid s + 1.
Proof.
  intros Hwf Hb. unfold create_kernel_thread, init. rewrite (wf_init _ Hwf).
  pose proof (alloc_kernel_stack_same cpu s) as Hs.
  destruct (alloc_kernel_stack cpu s) as [[base|] s1]; simpl in Hs; destruct Hs as (H1 & H2 & H3);
    [|simpl; split; [by apply evolves_same|lia]].
  destruct (setup_kernel_task_stack _ _ _ _) as [kr m]. cbn [snd].
  pose proof Hwf as [Hnd Ht Hn Hi].
  assert (wrap64 (next_tid s1 + 1) = next_tid s + 1) as Hw by (rewrite H2; apply wrap64_small; unfold is_u64; lia).
  rewrite Hw, H1, H2, H3. split; [|simpl; lia]. split; simpl; [split; simpl|lia|].
  - rewrite fmap_app. simpl. apply NoDup_app. split_and!; [done| |apply NoDup_singleton].
    intros x (t & -> & Hin)%list_elem_of_fmap [=]%list_elem_of_singleton.
    rewrite Forall_forall in Ht. specialize (Ht t Hin). lia.
  - apply Forall_app. split; [|constructor; [simpl; lia|constructor]].
    eapply Forall_impl; [exact Ht|]. simpl. lia.
  - lia.
  - done.
  - intros t' [Ht'| ->%list_elem_of_singleton]%elem_of_app; [left; eauto|right; simpl; lia].
Qed.

(** * All operations *)

Inductive op :=
  | OCreateKernel (cpu : nat) (cpu_count pid entry arg : Z) (p : PrivilegeLevel)
  | OCreateUser (cpu : nat) (cpu_count pid entry stack_top cr3 : Z) (p : PrivilegeLevel) (argc argv : Z)
  | OSetContext (id : Z) (c : UserContext)
  | OSetKernelRsp (id v : Z)
  | OSetState (id : Z) (v : ThreadState)
  | OSetPreempted (id : Z) (v : bool)
  | OSetBlockingRsp (id v : Z)
  | OTakeBlockingRsp (id : Z)
  | OTakeBlockingRetval (id : Z)
  | OSetWait (id : Z) (w : WaitTarget)
  | OAddTicks (id ticks : Z)
  | OSetCpu (id v : Z)
  | ORemove (id : Z)
  | OSetPid (id pid : Z)
  | OSetPrivilege (id : Z) (p : PrivilegeLevel)
  | ODeferFree (cpu : nat) (stack_base : Z)
  | OApplyReturn (id : Z)
  | OWakeKey (key : Z)
  | OWakeKeyPid (pid key : Z)
  | OWakePid (pid : Z)
  | OWakeTid (id : Z)
  | OWakeIpc (id retval : Z)
  | OWakeIrq (irq : Z)
  | OWakeAudio
  | OWakeTimer (now : Z)
  | OWakeTick.

Definition run (o : op) (s : TState) : TState :=
  match o with
  | OCreateKernel cpu n pid e a p => (create_kernel_thread cpu n pid e a p s).2
  | OCreateUser cpu n pid e st c p argc argv => (create_user_thread cpu n pid e st c p argc argv s).2
  | OSetContext id c => set_user_context id c s
  | OSetKernelRsp id v => set_kernel_rsp id v s
  | OSetState id v => set_state id v s
  | OSetPreempted id v => set_kernel_preempted id v s
  | OSetBlockingRsp id v => set_blocking_rsp id v s
  | OTakeBlockingRsp id => (take_blocking_rsp id s).2
  | OTakeBlockingRetval id => (take_blocking_retval id s).2
  | OSetWait id w => set_wait_target id w s
  | OAddTicks id n => add_cpu_ticks id n s
  | OSetCpu id v => set_assigned_cpu id v s
  | ORemove id => remove_thread id s
  | OSetPid id pid => set_thread_pid id pid s
  | OSetPrivilege id p => set_privilege id p s
  | ODeferFree cpu b => defer_free_kernel_stack cpu b s
  | OApplyReturn id => (apply_blocking_return_if_pending id s).2
  | OWakeKey k => (wakeup_key_waiters k s).2
  | OWakeKeyPid pid k => (wakeup_key_waiter_for_pid pid k s).2
  | OWakePid pid => wakeup_pid_waiters pid s
  | OWakeTid id => wakeup_thread_waiters id s
  | OWakeIpc id r => wakeup_ipc_waiter id r s
  | OWakeIrq irq => (wakeup_irq_waiter irq s).2
  | OWakeAudio => wakeup_audio_waiters s
  | OWakeTimer now => wake_timer_sleepers now s
  | OWakeTick => wake_tick_sleepers s
  end.

Definition run_all (os : list op) (s : TState) : TState := foldl (fun s o => run o s) s os.

Lemma tid_restore (m : gmap Z Z) (r : Z) (t : Thread) :
  tid (restore_ctx_from_blocking_frame m r t) = tid t /\
  t_state (restore_ctx_from_blocking_frame m r t) = t_state t.
Proof. unfold restore_ctx_from_blocking_frame. by destruct (_ =? 0). Qed.

Lemma tid_wake (m : gmap Z Z) (r : Z) (t : Thread) : tid (wake m r t) = tid t.
Proof. apply tid_restore. Qed.

Lemma waits_sleeping (w : WaitTarget) (t : Thread) : waits w t = true -> t_state t = Sleeping.
Proof. unfold waits, is_state. intros [H%bool_decide_eq_true _]%andb_true_iff. done. Qed.

Ltac tame_solver :=
  let t := fresh in let E := fresh in
  intros t; simpl; destruct (t_state t) eqn:E; simpl; rewrite ?E; done.

Lemma wake_first_evolves (P : Thread -> bool) (r : Z) (s : TState) :
  wf s -> (forall t, P t = true -> t_state t = Sleeping) -> evolves s (wake_first P r s).2.
Proof.
  intros Hwf HP. unfold wake_first. destruct (find_first P (threads s)); [|by apply evolves_refl].
  simpl. apply evolves_update_where; [done|intros; apply tid_wake|done].
Qed.

Lemma wake_all_evolves (P : Thread -> bool) (r : Z) (s : TState) :
  wf s -> (forall t, P t = true -> t_state t = Sleeping) -> evolves s (wake_all P r s).
Proof. intros Hwf HP. apply evolves_update_where; [done|intros; apply tid_wake|done]. Qed.

Lemma wake_first_fst {A : Type} (b : bool * TState) (f : bool -> A) :
  (let '(x, s) := b in (f x, s)).2 = b.2.
Proof. by destruct b. Qed.

(** Every operation only evolves the table, and hands out at most one tid. *)
Lemma run_evolves (o : op) (s : TState) :
  wf s -> next_tid s + 1 < u64_bound ->
  evolves s (run o s) /\ next_tid (run o s) <= next_tid s + 1.
Proof.
  intros Hwf Hb.
  assert (forall id f, tame f -> evolves s (modify id f s) /\ next_tid (modify id f s) <= next_tid s + 1) as Hmod.
  { intros id f Hf. split; [by apply evolves_modify|simpl; lia]. }
  assert (forall s', evolves s s' -> next_tid s' = next_tid s -> evolves s s' /\ next_tid s' <= next_tid s + 1)
    as Hkeep by (intros; split; [done|lia]).
  destruct o; cbn [run].
  - by apply evolves_create.
  - unfold create_user_thread.
    destruct (create_kernel_thread cpu cpu_count pid entry 0 p s) as [i s1] eqn:E.
    pose proof (evolves_create cpu cpu_count pid entry 0 p s Hwf Hb) as [Hev Hn]. rewrite E in Hev, Hn.
    simpl in Hev, Hn. destruct (i =? 0); [done|]. simpl. split; [|done].
    eapply evolves_trans; [exact Hev|]. apply evolves_modify; [by apply Hev|tame_solver].
  - apply Hmod. tame_solver.
  - apply Hmod. tame_solver.
  - destruct v; apply Hmod; tame_solver.
  - apply Hmod. tame_solver.
  - apply Hmod. tame_solver.
  - unfold take_blocking_rsp. destruct (find id s); [|by apply Hkeep; [apply evolves_refl|]].
    destruct (_ =? 0); [by apply Hkeep; [apply evolves_refl|]|]. apply Hmod. tame_solver.
  - unfold take_blocking_retval. destruct (find id s); [|by apply Hkeep; [apply evolves_refl|]].
    apply Hmod. tame_solver.
  - apply Hmod. tame_solver.
  - apply Hmod. tame_solver.
  - apply Hmod. tame_solver.
  - apply Hkeep; [by apply evolves_remove|done].
  - apply Hmod. tame_solver.
  - apply Hmod. tame_solver.
  - apply Hkeep; unfold defer_free_kernel_stack, free_kernel_stack; destruct (_ =? 0); try done;
      by apply evolves_same.
  - unfold apply_blocking_return_if_pending. destruct (find id s); [|by apply Hkeep; [apply evolves_refl|]].
    destruct (_ =? 0); [by apply Hkeep; [apply evolves_refl|]|]. apply Hmod. intros u.
    destruct (tid_restore (kmem s) (t_blocking_retval u) (with_blocking_retval 0 u)) as [-> ->]. done.
  - unfold wakeup_key_waiters. rewrite wake_first_fst.
    apply Hkeep; [by apply wake_first_evolves, waits_sleeping|].
    unfold wake_first. by destruct (find_first _ _).
  - unfold wakeup_key_waiter_for_pid. rewrite wake_first_fst. apply Hkeep.
    + apply wake_first_evolves; [done|]. intros t [_ ?]%andb_true_iff. by eapply waits_sleeping.
    + unfold wake_first. by destruct (find_first _ _).
  - apply Hkeep; [by apply wake_all_evolves, waits_sleeping|done].
  - apply Hkeep; [by apply wake_all_evolves, waits_sleeping|done].
  - apply Hmod. intros t. destruct (_ && _) eqn:E; [|done]. apply andb_true_iff in E as [E _].
    apply bool_decide_eq_true in E. rewrite tid_wake, E. done.
  - apply Hkeep; [by apply wake_first_evolves, waits_sleeping|].
    unfold wakeup_irq_waiter, wake_first. by destruct (find_first _ _).
  - apply Hkeep; [by apply wake_all_evolves, waits_sleeping|done].
  - apply Hkeep; [|done]. apply wake_all_evolves; [done|]. intros t [?%bool_decide_eq_true _]%andb_true_iff. done.
  - apply Hkeep; [by apply wake_all_evolves, waits_sleeping|done].
Qed.

Lemma run_all_evolves (os : list op) (s : TState) :
  wf s -> next_tid s + Z.of_nat (length os) < u64_bound -> evolves s (run_all os s).
Proof.
  revert s. induction os as [|o os IH]; intros s Hwf Hb; simpl; [by apply evolves_refl|].
  simpl in Hb. destruct (run_evolves o s Hwf ltac:(lia)) as [Hev Hn].
  eapply evolves_trans; [exact Hev|]. apply IH; [by apply Hev|lia].
Qed.

(** A finished thread is never revived and its tid never comes back.  Along any
    sequence of thread operations (creations, state changes, wakeups of every kind,
    removals), tids stay unique, and a thread that is [Exited] or gone at some point is
    at every later point [Exited]/[Empty] or gone. *)
Theorem finished_threads_stay_finished (os : list op) (s : TState) (id : Z) :
  wf s -> next_tid s + Z.of_nat (length os) < u64_bound -> id < next_tid s ->
  (forall t, find id s = Some t -> terminal (t_state t) = true) ->
  wf (run_all os s) /\
  forall t, find id (run_all os s) = Some t -> terminal (t_state t) = true.
Proof.
  intros Hwf Hb Hid Hfin. destruct (run_all_evolves os s Hwf Hb) as [Hwf' _ Hth]. split; [done|].
  intros t' [Hin Htid]%find_Some. destruct (Hth t' Hin) as [(t & Ht & Heq & Hterm)|?]; [|lia].
  apply Hterm, Hfin. rewrite <- Htid, <- Heq. by apply find_elem.
Qed.

Lemma wake_all_none (w : WaitTarget) (r : Z) (s : TState) :
  Forall (fun t => waits w t = false) (threads (wake_all (waits w) r s)).
Proof.
  simpl. apply Forall_fmap, Forall_true. intros t. simpl. destruct (waits w t) eqn:E; [|done].
  unfold waits, is_state. simpl. done.
Qed.

Lemma wake_all_keeps (w : WaitTarget) (P : Thread -> bool) (r : Z) (s : TState) :
  Forall (fun t => waits w t = false) (threads s) ->
  Forall (fun t => waits w t = false) (threads (wake_all P r s)).
Proof.
  intros H. simpl. apply Forall_fmap. eapply Forall_impl; [exact H|]. intros t Ht. simpl.
  destruct (P t); [|done]. unfold waits, is_state. simpl. done.
Qed.

Lemma wake_all_tid (P : Thread -> bool) (r : Z) (s : TState) (u : Thread) :
  u ∈ threads (wake_all P r s) -> exists t, t ∈ threads s /\ tid t = tid u.
Proof.
  simpl. intros (t & -> & Ht)%list_elem_of_fmap. exists t. split; [done|].
  destruct (P t); [by rewrite tid_wake|done].
Qed.

(** [wakeup_pid_waiters] and [wakeup_thread_waiters] lose nobody: afterwards no
    thread is asleep on that exit, every thread that was is [Ready] and, when its
    syscall frame was saved, will return the agreed value (1, resp. 0) from it; all other
    threads are untouched. *)
Theorem exit_wakes_all_waiters (s : TState) (id : Z) (w : WaitTarget) (retval : Z)
    (wakeup : TState -> TState) :
  wf s ->
  (exists p, w = WPid p /\ retval = 1 /\ wakeup = wakeup_pid_waiters p) \/
  (exists i, w = WTid i /\ retval = 0 /\ wakeup = wakeup_thread_waiters i) ->
  Forall (fun t => waits w t = false) (threads (wakeup s)) /\
  match find id s with
  | None => find id (wakeup s) = None
  | Some t =>
      exists t', find id (wakeup s) = Some t' /\
        if waits w t
        then t_state t' = Ready /\ t_wait t' = WNone /\
             (t_blocking_rsp t <> 0 -> rax (t_context t') = retval /\ t_blocking_rsp t' = 0)
        else t' = t
  end.
Proof.
  intros Hwf Hw.
  assert (wakeup s = wake_all (waits w) retval s) as -> by (destruct Hw as [(p & -> & -> & ->)|(i & -> & -> & ->)]; done).
  clear Hw wakeup. split; [apply wake_all_none|].
  assert (forall l, find_first (fun t => tid t =? id)
              ((fun t => if waits w t then wake (kmem s) retval t else t) <$> l) =
            (fun t => if waits w t then wake (kmem s) retval t else t) <$>
            find_first (fun t => tid t =? id) l) as Hff.
  { induction l as [|t l IH]; simpl; [done|].
      assert (tid (if waits w t then wake (kmem s) retval t else t) = tid t) as ->
        by (destruct (waits w t); [apply tid_wake|done]).
      by destruct (tid t =? id). }
    unfold find, wake_all. simpl. rewrite Hff. destruct (find_first _ _) as [t|]; simpl; [|done].
    eexists. split; [done|]. destruct (waits w t) eqn:E; [|done].
    split_and!; try done; unfold wake, restore_ctx_from_blocking_frame;
      destruct (t_blocking_rsp t =? 0) eqn:E0; zbool; simpl; done.
Qed.

(** ** Witnesses *)

(** Thread 1 has exited; thread 2 sleeps on process 7 with a saved frame at 4096. *)
Definition demo_thread (id : Z) (st : ThreadState) (w : WaitTarget) (frame : Z) : Thread :=
  mkThread id 5 st 0 EMPTY_USER_CONTEXT 0 0 false frame 0 w User 0.
Definition demo : TState :=
  mkTState [demo_thread 1 Exited WNone 0; demo_thread 2 Sleeping (WPid 7) 4096] 3 true 0
    (replicate MAX_CPUS 0) ∅ Allocator.ALLOCATOR.

Lemma demo_wf : wf demo.
Proof.
  split; simpl; [|repeat constructor; simpl; lia|lia|done].
  repeat constructor; set_solver by lia.
Qed.

Lemma finished_threads_stay_finished_witness :
  wf (run_all [OSetState 1 Ready; OWakePid 7; OSetState 1 Running] demo) /\
  forall t, find 1 (run_all [OSetState 1 Ready; OWakePid 7; OSetState 1 Running] demo) = Some t ->
    terminal (t_state t) = true.
Proof.
  apply finished_threads_stay_finished; [exact demo_wf|reflexivity|reflexivity|].
  intros t. vm_compute. intros [= <-]. reflexivity.
Defined.

Lemma exit_wakes_all_waiters_witness :
  Forall (fun t => waits (WPid 7) t = false) (threads (wakeup_pid_waiters 7 demo)) /\
  match find 2 demo with
  | None => find 2 (wakeup_pid_waiters 7 demo) = None
  | Some t =>
      exists t', find 2 (wakeup_pid_waiters 7 demo) = Some t' /\
        if waits (WPid 7) t
        then t_state t' = Ready /\ t_wait t' = WNone /\
             (t_blocking_rsp t <> 0 -> rax (t_context t') = 1 /\ t_blocking_rsp t' = 0)
        else t' = t
  end.
Proof.
  apply (exit_wakes_all_waiters demo 2 (WPid 7) 1 (wakeup_pid_waiters 7)); [exact demo_wf|].
  left. exists 7. done.
Defined.

End Thread.
