(* ===== verification/Scheduler.v ===== *)
(** Scheduler: [crates/kernel/src/task/scheduler.rs] and the register
    save/restore sequences of [handlers/interrupts.rs].

    The per-CPU arrays are lists indexed by CPU number.  A saved frame is 15
    general registers and the five words [iretq] pops; the assembly pop
    sequences are modelled as reads from kernel memory in their order.  The
    addresses of the per-CPU temporary stacks are an argument.
    [enter_next_process] and the timer handler, which also need the process
    table, are in [Dispatch.v]. *)
From stdpp Require Import base list numbers option gmap.
From S2P Require Import Prelude Allocator Thread.

Open Scope Z_scope.

Module Scheduler.
Import Thread.

Record SState := mkSState {
  current_user_pids : list (option Z);
  current_user_tids : list (option Z);
  next_user_pids : list (option Z);
  idle_flags : list bool
}.

Definition SState_new : SState :=
  mkSState (replicate MAX_CPUS None) (replicate MAX_CPUS None) (replicate MAX_CPUS None)
           (replicate MAX_CPUS false).

(** [None] outside the array stands for the bounds panic, which needs a CPU index of 16. *)
Definition current_user_pid (cpu : nat) (ss : SState) : option Z := mjoin (current_user_pids ss !! cpu).
Definition current_user_tid (cpu : nat) (ss : SState) : option Z := mjoin (current_user_tids ss !! cpu).

Definition set_current (cpu : nat) (pid tid : option Z) (ss : SState) : SState :=
  mkSState (<[cpu := pid]> (current_user_pids ss)) (<[cpu := tid]> (current_user_tids ss))
           (next_user_pids ss) (idle_flags ss).

(** [main_tid] is [process::main_tid]. *)
Definition set_current_user_pid (main_tid : Z -> option Z) (cpu : nat) (pid : option Z) (ss : SState) : SState :=
  set_current cpu pid (p ← pid; main_tid p) ss.

Definition set_current_user_tid (cpu : nat) (id : option Z) (ts : TState) (ss : SState) : SState :=
  set_current cpu (t ← id; thread_pid t ts) id ss.

Definition set_idle (cpu : nat) (idle : bool) (ss : SState) : SState :=
  mkSState (current_user_pids ss) (current_user_tids ss) (next_user_pids ss) (<[cpu := idle]> (idle_flags ss)).
Definition is_idle (cpu : nat) (ss : SState) : bool := default false (idle_flags ss !! cpu).

Definition clear_current_user (cpu : nat) (pid : Z) (ss : SState) : SState :=
  if decide (current_user_pid cpu ss = Some pid)
  then mkSState (<[cpu := None]> (current_user_pids ss)) (<[cpu := None]> (current_user_tids ss))
                (<[cpu := None]> (next_user_pids ss)) (idle_flags ss)
  else ss.

(** ** Picking the next thread *)

Definition ready_on (cpu : Z) (t : Thread) : bool := (t_cpu t =? cpu) && is_state Ready t.

Definition schedule_next (cpu current_tid : Z) (ts : TState) : Z :=
  default 0
    (match min_tid (fun t => ready_on cpu t && (current_tid <? tid t)) ts with
     | Some t => Some t
     | None => min_tid (ready_on cpu) ts
     end).

(** ** Frames *)

Record Regs := mkRegs {
  g_rax : Z; g_rbx : Z; g_rcx : Z; g_rdx : Z; g_rsi : Z; g_rdi : Z; g_rbp : Z;
  g_r8 : Z; g_r9 : Z; g_r10 : Z; g_r11 : Z; g_r12 : Z; g_r13 : Z; g_r14 : Z; g_r15 : Z;
  g_rip : Z; g_cs : Z; g_rflags : Z; g_rsp : Z; g_ss : Z
}.

Definition USER_CODE : Z := 27.
Definition USER_DATA : Z := 35.
Definition KERNEL_CODE : Z := 8.
Definition KERNEL_DATA : Z := 16.

Definition save_user_context (id frame_ptr : Z) (ts : TState) : TState :=
  match user_context id ts with
  | None => ts
  | Some c =>
      let f := word (kmem ts) frame_ptr in
      set_user_context id
        (mkCtx (f 14) (f 5) (f 13) (f 12) (f 11) (f 10) (f 4) (f 9) (f 8) (f 7) (f 6) (f 3) (f 2) (f 1) (f 0)
               (f 15) (f 18) (f 17) (cr3 c) frame_ptr (user_stack_top c)) ts
  end.

Definition save_kernel_context (id saved_rsp : Z) : TState -> TState := set_kernel_rsp id saved_rsp.

Definition set_kmem (m : gmap Z Z) (ts : TState) : TState :=
  mkTState (threads ts) (next_tid ts) (initialized ts) (next_assign_cpu ts) (pending_stack_free ts) m (heap ts).

Definition launch_frame (c : UserContext) : list Z :=
  [rax c; rcx c; rdx c; rsi c; rdi c; r8 c; r9 c; r10 c; r11 c; rbx c; rbp c; r12 c; r13 c; r14 c; r15 c;
   rip c; USER_CODE; Z.lor (rflags c) 512; rsp c; USER_DATA].

(** [stack_top] is this CPU's [user_return_stack_top()]. *)
Definition setup_user_frame_on_temp_stack (stack_top : Z) (c : UserContext) (m : gmap Z Z) : Z * gmap Z Z :=
  (stack_top - 160, write_words (stack_top - 160) (launch_frame c) m).

Definition timer_frame (c : UserContext) : list Z :=
  [r15 c; r14 c; r13 c; r12 c; rbp c; rbx c; r11 c; r10 c; r9 c; r8 c; rdi c; rsi c; rdx c; rcx c; rax c;
   rip c; USER_CODE; Z.lor (rflags c) 512; rsp c; USER_DATA].

Definition setup_user_frame_for_timer_on_temp_stack (stack_top : Z) (c : UserContext) (m : gmap Z Z)
  : Z * gmap Z Z :=
  (stack_top - 160, write_words (stack_top - 160) (timer_frame c) m).

(** [idle] is the address of [idle_loop], [idle_rsp] the CPU's kernel return stack. *)
Definition setup_idle_frame_on_temp_stack (stack_top idle return_stack : Z) (m : gmap Z Z) : Z * gmap Z Z :=
  let frame_bottom := stack_top - 160 in
  let idle_rsp := if return_stack =? 0 then frame_bottom else return_stack in
  (frame_bottom, write_words frame_bottom (replicate 15 0 ++ [idle; KERNEL_CODE; 512; idle_rsp; KERNEL_DATA]) m).

(** [InterruptFrame] written in place, in field order. *)
Definition restore_user_frame (frame_ptr : Z) (c : UserContext) (m : gmap Z Z) : gmap Z Z :=
  write_words frame_ptr
    [r15 c; r14 c; r13 c; r12 c; rbp c; rbx c; r11 c; r10 c; r9 c; r8 c; rdi c; rsi c; rdx c; rcx c; rax c;
     rip c; USER_CODE; rflags c; rsp c; USER_DATA] m.

(** The pop sequences: launch path, timer epilogue, and a blocked syscall resumed with
    [rax = retval]. *)
Definition pop_launch (m : gmap Z Z) (p : Z) : Regs :=
  let w := word m p in
  mkRegs (w 0) (w 9) (w 1) (w 2) (w 3) (w 4) (w 10) (w 5) (w 6) (w 7) (w 8) (w 11) (w 12) (w 13) (w 14)
         (w 15) (w 16) (w 17) (w 18) (w 19).

Definition pop_timer (m : gmap Z Z) (p : Z) : Regs :=
  let w := word m p in
  mkRegs (w 14) (w 5) (w 13) (w 12) (w 11) (w 10) (w 4) (w 9) (w 8) (w 7) (w 6) (w 3) (w 2) (w 1) (w 0)
         (w 15) (w 16) (w 17) (w 18) (w 19).

Definition pop_blocked (m : gmap Z Z) (p retval : Z) : Regs :=
  let w := word m p in
  mkRegs retval (w 12) (w 11) (w 10) (w 9) (w 8) (w 13) (w 7) (w 6) (w 5) (w 4) (w 3) (w 2) (w 1) (w 0)
         (w 14) (w 15) (w 16) (w 17) (w 18).

(** * Frames restore what was saved *)

Lemma word_write_words (p : Z) (l : list Z) (m : gmap Z Z) (i : nat) (v : Z) :
  l !! i = Some v -> word (write_words p l m) p (Z.of_nat i) = v.
Proof.
  assert (forall (l : list Z) p q (m : gmap Z Z), q < p -> write_words p l m !! q = m !! q) as Hout.
  { clear. induction l as [|x l IH]; intros p q m Hq; [done|].
    change (write_words p (x :: l) m) with (write_words (p + 8) l (<[p := x]> m)).
    rewrite IH by lia. by rewrite lookup_insert_ne by lia. }
  unfold word. revert p m i. induction l as [|x l IH]; intros p m i Hi; [done|].
  change (write_words p (x :: l) m) with (write_words (p + 8) l (<[p := x]> m)).
  destruct i as [|i]; simpl in Hi.
  - simplify_eq. rewrite Hout by lia. replace (p + 8 * Z.of_nat 0) with p by lia. by rewrite lookup_insert_eq.
  - specialize (IH (p + 8) (<[p := x]> m) i Hi).
    by replace (p + 8 * Z.of_nat (S i)) with (p + 8 + 8 * Z.of_nat i) by lia.
Qed.

(** The registers a context describes, with interrupts enabled. *)
Definition context_regs (c : UserContext) : Regs :=
  mkRegs (rax c) (rbx c) (rcx c) (rdx c) (rsi c) (rdi c) (rbp c) (r8 c) (r9 c) (r10 c) (r11 c) (r12 c)
         (r13 c) (r14 c) (r15 c) (rip c) USER_CODE (Z.lor (rflags c) 512) (rsp c) USER_DATA.

Ltac read_words :=
  repeat match goal with
  | |- context [word (write_words ?p ?l ?m) ?p ?i] =>
      let n := eval vm_compute in (Z.to_nat i) in
      let v := eval cbv in (n) in
      change (word (write_words p l m) p i) with (word (write_words p l m) p (Z.of_nat n));
      rewrite (word_write_words p l m n _ eq_refl)
  end.

Lemma launch_restores (stack_top : Z) (c : UserContext) (m : gmap Z Z) :
  let '(p, m') := setup_user_frame_on_temp_stack stack_top c m in pop_launch m' p = context_regs c.
Proof. unfold setup_user_frame_on_temp_stack, pop_launch, context_regs. cbv zeta. read_words. done. Qed.

Lemma timer_restores (stack_top : Z) (c : UserContext) (m : gmap Z Z) :
  let '(p, m') := setup_user_frame_for_timer_on_temp_stack stack_top c m in pop_timer m' p = context_regs c.
Proof. unfold setup_user_frame_for_timer_on_temp_stack, pop_timer, context_regs. cbv zeta. read_words. done. Qed.

(** A ring-3 frame: user selectors, interrupts enabled. *)
Definition user_regs (g : Regs) : Prop :=
  g_cs g = USER_CODE /\ g_ss g = USER_DATA /\ Z.lor (g_rflags g) 512 = g_rflags g.

Lemma find_save (id p : Z) (ts : TState) (t : Thread) :
  find id ts = Some t ->
  exists c, user_context id (save_user_context id p ts) = Some c /\
    cr3 c = cr3 (t_context t) /\ rflags c = g_rflags (pop_timer (kmem ts) p) /\
    (user_regs (pop_timer (kmem ts) p) -> context_regs c = pop_timer (kmem ts) p).
Proof.
  intros Ht. unfold save_user_context, user_context. rewrite Ht. simpl.
  unfold set_user_context. rewrite find_modify by done. rewrite Z.eqb_refl, Ht. simpl.
  eexists. split_and!; [done..|]. unfold user_regs, context_regs, pop_timer. simpl.
  intros (-> & -> & ->). done.
Qed.

(** C5: preemption is transparent.  Saving the context of a thread interrupted in ring 3
    and later resuming it by any of the three ways (the launch path, the timer's
    temporary frame, or overwriting another thread's interrupt frame in place) loads
    exactly the registers it was interrupted with, in its own address space. *)
Theorem preempt_resume_roundtrip (id p q stack_top : Z) (ts : TState) (t : Thread) (m : gmap Z Z) :
  find id ts = Some t -> user_regs (pop_timer (kmem ts) p) ->
  exists c, user_context id (save_user_context id p ts) = Some c /\ cr3 c = cr3 (t_context t) /\
    (let '(a, m') := setup_user_frame_on_temp_stack stack_top c m in
     pop_launch m' a = pop_timer (kmem ts) p) /\
    (let '(a, m') := setup_user_frame_for_timer_on_temp_stack stack_top c m in
     pop_timer m' a = pop_timer (kmem ts) p) /\
    pop_timer (restore_user_frame q c m) q = pop_timer (kmem ts) p.
Proof.
  intros Ht Hu. destruct (find_save id p ts t Ht) as (c & Hc & Hcr & Hfl & Hregs).
  specialize (Hregs Hu). exists c. split_and!; [done..| | |].
  - rewrite <- Hregs. apply (launch_restores stack_top c m).
  - rewrite <- Hregs. apply (timer_restores stack_top c m).
  - transitivity (context_regs c); [|done].
    unfold restore_user_frame, pop_timer, context_regs. cbv zeta. read_words.
    destruct Hu as (_ & _ & Hif). rewrite <- Hfl in Hif. by rewrite Hif.
Qed.

(** The two ways back from a blocking syscall agree.  Popping the saved syscall frame
    directly with [rax] set to the result, and first copying that frame into the thread's
    context ([restore_ctx_from_blocking_frame]) and then launching the context, load the
    same registers; the second also clears the frame so it is not used again. *)
Theorem blocked_resume_paths_agree (t : Thread) (m m2 : gmap Z Z) (retval stack_top : Z) :
  t_blocking_rsp t <> 0 -> user_regs (pop_blocked m (t_blocking_rsp t) retval) ->
  let t' := restore_ctx_from_blocking_frame m retval t in
  (let '(a, m') := setup_user_frame_on_temp_stack stack_top (t_context t') m2 in
   pop_launch m' a = pop_blocked m (t_blocking_rsp t) retval) /\
  t_blocking_rsp t' = 0 /\ t_preempted t' = false /\ cr3 (t_context t') = cr3 (t_context t).
Proof.
  intros Hb Hu. unfold restore_ctx_from_blocking_frame. destruct (t_blocking_rsp t =? 0) eqn:E; zbool; [done|].
  split; [|done]. etransitivity; [apply (launch_restores stack_top _ m2)|].
  unfold context_regs, pop_blocked, user_regs in *. simpl in *. destruct Hu as (-> & -> & ->). done.
Qed.

(** * Round robin *)

Definition ready_tids (cpu : Z) (ts : TState) : list Z := tid <$> retain (ready_on cpu) (threads ts).

Lemma min_opt_spec (l : list Z) :
  match min_opt l with
  | Some x => x ∈ l /\ forall y, y ∈ l -> x <= y
  | None => l = []
  end.
Proof.
  destruct l as [|x l]; simpl; [done|]. induction l as [|y l IH]; simpl.
  - split; [left|]. by intros z ->%list_elem_of_singleton.
  - destruct IH as [IH1 IH2]. split.
    + destruct (Z.min_spec y (foldr Z.min x l)) as [[_ ->]|[_ ->]]; [right; left|].
      apply elem_of_cons in IH1 as [->|?]; [left|]. by right; right.
    + intros z. rewrite !elem_of_cons. intros [->|[->|Hz]]; [|lia|].
      * specialize (IH2 x ltac:(left)). lia.
      * specialize (IH2 z ltac:(by right)). lia.
Qed.

Lemma elem_of_min_tids (P : Thread -> bool) (ts : TState) (x : Z) :
  x ∈ tid <$> retain P (threads ts) <-> exists t, t ∈ threads ts /\ P t = true /\ tid t = x.
Proof.
  rewrite list_elem_of_fmap. split.
  - intros (t & -> & [? ?]%elem_of_retain). eauto.
  - intros (t & ? & ? & <-). exists t. split; [done|]. by apply elem_of_retain.
Qed.

(** What [schedule_next] returns. *)
Definition next_of (cpu cur : Z) (ts : TState) (r : Z) : Prop :=
  if decide (ready_tids cpu ts = []) then r = 0
  else r ∈ ready_tids cpu ts /\
       ((cur < r /\ forall y, y ∈ ready_tids cpu ts -> cur < y -> r <= y) \/
        ((forall y, y ∈ ready_tids cpu ts -> y <= cur) /\ forall y, y ∈ ready_tids cpu ts -> r <= y)).

Lemma schedule_next_meets (cpu cur : Z) (ts : TState) : next_of cpu cur ts (schedule_next cpu cur ts).
Proof.
  unfold next_of, schedule_next, min_tid, ready_tids.
  pose proof (min_opt_spec (tid <$> retain (fun t => ready_on cpu t && (cur <? tid t)) (threads ts))) as H1.
  pose proof (min_opt_spec (tid <$> retain (ready_on cpu) (threads ts))) as H2.
  destruct (min_opt (tid <$> retain (fun t => _) (threads ts))) as [x|]; simpl.
  - destruct H1 as [(t & Ht & [Hr Hlt]%andb_true_iff & Htid)%elem_of_min_tids Hmin]. zbool.
    assert (x ∈ tid <$> retain (ready_on cpu) (threads ts)) as Hx by (apply elem_of_min_tids; eauto).
    case_decide as Hd; [rewrite Hd in Hx; by apply elem_of_nil in Hx|].
    split; [done|]. left. split; [lia|]. intros y (u & Hu & Hru & Hty)%elem_of_min_tids Hy.
    apply Hmin, elem_of_min_tids. exists u. split_and!; [done| |done].
    apply andb_true_iff. split; [done|]. apply Z.ltb_lt. lia.
  - destruct (min_opt (tid <$> retain (ready_on cpu) (threads ts))) as [x|] eqn:E; simpl.
    + destruct H2 as [Hx Hmin]. case_decide as Hd; [rewrite Hd in Hx; by apply elem_of_nil in Hx|].
      split; [done|]. right. split; [|done]. intros y (u & Hu & Hru & Hty)%elem_of_min_tids.
      destruct (decide (y <= cur)); [done|]. exfalso.
      assert (y ∈ tid <$> retain (fun t => ready_on cpu t && (cur <? tid t)) (threads ts)) as Hin.
      { apply elem_of_min_tids. exists u. split_and!; [done| |done].
        apply andb_true_iff. split; [done|]. apply Z.ltb_lt. lia. }
      rewrite H1 in Hin. by apply elem_of_nil in Hin.
    + rewrite H2. by rewrite decide_True.
Qed.

(** How many ready tids satisfy [P]. *)
Definition how_many (P : Z -> bool) (l : list Z) : nat := length (retain P l).

Lemma how_many_lt (P Q : Z -> bool) (l : list Z) (x : Z) :
  (forall y, Q y = true -> P y = true) -> x ∈ l -> P x = true -> Q x = false ->
  (how_many Q l < how_many P l)%nat.
Proof.
  intros HQP Hx HP HQ. unfold how_many.
  assert (forall l, (length (retain Q l) <= length (retain P l))%nat) as Hle.
  { clear -HQP. induction l as [|a l IH]; simpl; [lia|]. destruct (Q a) eqn:E; [rewrite HQP by done; simpl; lia|].
    destruct (P a); simpl; lia. }
  apply list_elem_of_split in Hx as (l1 & l2 & ->).
  assert (forall R (l1 l2 : list Z), retain R (l1 ++ l2) = retain R l1 ++ retain R l2) as Happ.
  { clear. induction l1; intros; simpl; [done|]. destruct (R a); simpl; by rewrite IHl1. }
  rewrite !Happ, !length_app. simpl. rewrite HP, HQ. simpl. pose proof (Hle l1). pose proof (Hle l2). lia.
Qed.

Fixpoint iter_next (cpu : Z) (ts : TState) (k : nat) (cur : Z) : Z :=
  match k with O => cur | S k' => iter_next cpu ts k' (schedule_next cpu cur ts) end.

Definition between (lo hi y : Z) : bool := (lo <? y) && (y <=? hi).

Lemma between_true (lo hi y : Z) : between lo hi y = true <-> lo < y <= hi.
Proof. unfold between. rewrite andb_true_iff, Z.ltb_lt, Z.leb_le. lia. Qed.

(** From below [x], the turn reaches [x] after at most as many steps as there are ready
    tids up to [x]. *)
Lemma reach_above (cpu : Z) (ts : TState) (x : Z) (n : nat) (cur : Z) :
  x ∈ ready_tids cpu ts -> cur < x ->
  (how_many (between cur x) (ready_tids cpu ts) <= n)%nat ->
  exists k, (1 <= k <= n)%nat /\ iter_next cpu ts k cur = x.
Proof.
  revert cur. induction n as [|n IH]; intros cur Hx Hlt Hn.
  { pose proof (how_many_lt (between cur x) (fun _ => false) (ready_tids cpu ts) x) as H.
    specialize (H ltac:(done) Hx ltac:(apply between_true; lia) eq_refl). lia. }
  pose proof (schedule_next_meets cpu cur ts) as Hs. unfold next_of in Hs.
  case_decide as Hd; [rewrite Hd in Hx; by apply elem_of_nil in Hx|].
  destruct Hs as [Hr [[Hc Hmin]|[Hall _]]]; [|specialize (Hall x Hx); lia].
  pose proof (Hmin x Hx Hlt) as Hle. set (r := schedule_next cpu cur ts) in *.
  destruct (decide (r = x)) as [E|Hne]; [exists 1%nat; split; [lia|exact E]|].
  destruct (IH r Hx ltac:(lia)) as (k & Hk & Hik).
  - pose proof (how_many_lt (between cur x) (between r x)
                  (ready_tids cpu ts) r) as H.
    enough (how_many (between r x) (ready_tids cpu ts) <
            how_many (between cur x) (ready_tids cpu ts))%nat by lia.
    apply H; try done.
    + intros y. rewrite !between_true. lia.
    + apply between_true. lia.
    + apply not_true_is_false. rewrite between_true. lia.
  - exists (S k). split; [lia|]. done.
Qed.

(** The turn wraps to the lowest ready tid [r], then climbs to [x]. *)
Lemma wrap_step (cpu : Z) (ts : TState) (x r : Z) (n : nat) (cur : Z) :
  x ∈ ready_tids cpu ts -> r ∈ ready_tids cpu ts -> r <= x -> schedule_next cpu cur ts = r ->
  exists k, (1 <= k <= n + how_many (fun y => (y <=? x)%Z) (ready_tids cpu ts))%nat /\
    iter_next cpu ts k cur = x.
Proof.
  intros Hx Hr Hle Hnext.
  assert (forall P : Z -> bool, P x = true -> (1 <= how_many P (ready_tids cpu ts))%nat) as Hone.
  { intros P HP. pose proof (how_many_lt P (fun _ => false) (ready_tids cpu ts) x ltac:(done) Hx HP eq_refl). lia. }
  destruct (decide (r = x)) as [->|Hne].
  { exists 1%nat. split; [|exact Hnext].
    specialize (Hone (fun y => (y <=? x)%Z) ltac:(apply Z.leb_le; lia)). lia. }
  destruct (reach_above cpu ts x _ r Hx ltac:(lia) (Nat.le_refl _)) as (k & Hk & Hik).
  exists (S k). split; [|simpl; by rewrite Hnext].
  pose proof (how_many_lt (fun y => (y <=? x)%Z) (between r x) (ready_tids cpu ts) r) as H.
  specialize (H ltac:(intros y; rewrite between_true, Z.leb_le; lia) Hr ltac:(apply Z.leb_le; lia)
    ltac:(apply not_true_is_false; rewrite between_true; lia)). lia.
Qed.

(** Counting: above [cur], the wrap, and up to [x] are disjoint parts of the ready set. *)
Lemma reach_any (cpu : Z) (ts : TState) (x : Z) (n : nat) (cur : Z) :
  x ∈ ready_tids cpu ts -> x <= cur ->
  (how_many (fun y => (cur <? y)%Z) (ready_tids cpu ts) <= n)%nat ->
  exists k, (1 <= k <= n + how_many (fun y => (y <=? x)%Z) (ready_tids cpu ts))%nat /\
    iter_next cpu ts k cur = x.
Proof.
  revert cur. induction n as [|n IH]; intros cur Hx Hle Hn;
    pose proof (schedule_next_meets cpu cur ts) as Hs; unfold next_of in Hs;
    (case_decide as Hd; [rewrite Hd in Hx; by apply elem_of_nil in Hx|]);
    destruct Hs as [Hr Hcase]; set (r := schedule_next cpu cur ts) in *.
  - destruct Hcase as [[Hc _]|[_ Hmin]].
    { exfalso. pose proof (how_many_lt (fun y => cur <? y) (fun _ => false) (ready_tids cpu ts) r) as H.
      specialize (H ltac:(done) Hr ltac:(apply Z.ltb_lt; lia) eq_refl). lia. }
    by apply (wrap_step cpu ts x r 0 cur Hx Hr (Hmin x Hx)).
  - destruct Hcase as [[Hc Hmin]|[_ Hmin]].
    2:{ by apply (wrap_step cpu ts x r (S n) cur Hx Hr (Hmin x Hx)). }
    destruct (IH r Hx ltac:(lia)) as (k & Hk & Hik).
    + enough (how_many (fun y => (r <? y)%Z) (ready_tids cpu ts) <
              how_many (fun y => (cur <? y)%Z) (ready_tids cpu ts))%nat by lia.
      apply (how_many_lt _ _ _ r); [intros y; rewrite !Z.ltb_lt; lia|done|apply Z.ltb_lt; lia|apply Z.ltb_ge; lia].
    + exists (S k). split; [lia|done].
Qed.

Lemma how_many_split (P Q : Z -> bool) (l : list Z) :
  (forall y, P y = true -> Q y = false) -> (how_many P l + how_many Q l <= length l)%nat.
Proof.
  intros H. unfold how_many. induction l as [|a l IH]; simpl; [lia|].
  destruct (P a) eqn:E; [rewrite H by done; simpl; lia|]. destruct (Q a); simpl; lia.
Qed.

(** [schedule_next] is a fair round robin.  It returns 0 exactly when no thread of
    this CPU is ready; and while the ready set stays as it is, asking for the next thread
    repeatedly, each time from the previous answer, reaches every ready thread of the CPU
    within as many turns as there are ready threads. *)
Theorem schedule_next_fair (cpu cur : Z) (ts : TState) (t : Thread) :
  Forall (fun u => 1 <= tid u) (threads ts) ->
  t ∈ threads ts -> ready_on cpu t = true ->
  schedule_next cpu cur ts <> 0 /\
  exists k, (1 <= k <= length (ready_tids cpu ts))%nat /\ iter_next cpu ts k cur = tid t.
Proof.
  intros Hpos Ht Hr. assert (tid t ∈ ready_tids cpu ts) as Hx by (apply elem_of_min_tids; eauto).
  split.
  - pose proof (schedule_next_meets cpu cur ts) as Hs. unfold next_of in Hs.
    case_decide as Hd; [rewrite Hd in Hx; by apply elem_of_nil in Hx|].
    destruct Hs as [(u & Hu & _ & Heq)%elem_of_min_tids _]. rewrite Forall_forall in Hpos.
    specialize (Hpos u Hu). lia.
  - destruct (decide (cur < tid t)) as [Hlt|Hge].
    + destruct (reach_above cpu ts (tid t) _ cur Hx Hlt (Nat.le_refl _)) as (k & Hk & Hik).
      exists k. split; [|done].
      pose proof (how_many_split (between cur (tid t)) (fun _ => false) (ready_tids cpu ts) ltac:(done)). lia.
    + destruct (reach_any cpu ts (tid t) _ cur Hx ltac:(lia) (Nat.le_refl _)) as (k & Hk & Hik).
      exists k. split; [|done].
      pose proof (how_many_split (fun y => cur <? y) (fun y => y <=? tid t) (ready_tids cpu ts)) as H.
      specialize (H ltac:(intros y; rewrite Z.ltb_lt, Z.leb_gt; lia)). lia.
Qed.

(** Asking from 0, as [enter_next_process] always does, is not round robin: the
    answer is the lowest ready tid of the CPU, so as long as that thread stays ready a
    ready thread with a higher tid is never chosen this way. *)
Theorem schedule_from_zero_starves (cpu : Z) (ts : TState) (t u : Thread) :
  Forall (fun w => 1 <= tid w) (threads ts) ->
  t ∈ threads ts -> ready_on cpu t = true -> u ∈ threads ts -> ready_on cpu u = true -> tid u < tid t ->
  schedule_next cpu 0 ts <> tid t /\ schedule_next cpu 0 ts <= tid u.
Proof.
  intros Hpos Ht Hrt Hu Hru Hlt. pose proof (schedule_next_meets cpu 0 ts) as Hs. unfold next_of in Hs.
  assert (tid u ∈ ready_tids cpu ts) as Hx by (apply elem_of_min_tids; eauto).
  case_decide as Hd; [rewrite Hd in Hx; by apply elem_of_nil in Hx|].
  rewrite Forall_forall in Hpos. pose proof (Hpos u Hu).
  destruct Hs as [Hr [[Hc Hmin]|[Hall Hmin]]]; [specialize (Hmin _ Hx ltac:(lia)); lia|].
  specialize (Hall _ Hx). lia.
Qed.

(** ** Witnesses *)

Definition mk (id : Z) (st : ThreadState) : Thread := mkThread id 1 st 0 EMPTY_USER_CONTEXT 0 0 false 0 0 WNone User 0.
Definition table3 : TState :=
  mkTState [mk 4 Ready; mk 2 Ready; mk 9 Sleeping; mk 7 Ready] 10 true 0 (replicate MAX_CPUS 0)
    (write_words 4096 [1; 2; 3; 4; 5; 6; 7; 8; 9; 10; 11; 12; 13; 14; 15; 16; 27; 514; 19; 35] ∅)
    Allocator.ALLOCATOR.

Lemma table3_pos : Forall (fun u => 1 <= tid u) (threads table3).
Proof. repeat constructor; simpl; lia. Qed.

Lemma schedule_next_fair_witness :
  schedule_next 0 7 table3 <> 0 /\
  exists k, (1 <= k <= length (ready_tids 0 table3))%nat /\ iter_next 0 table3 k 7 = 4.
Proof.
  apply (schedule_next_fair 0 7 table3 (mk 4 Ready)); [exact table3_pos|left|reflexivity].
Defined.

Lemma schedule_from_zero_starves_witness :
  schedule_next 0 0 table3 <> 7 /\ schedule_next 0 0 table3 <= 2.
Proof.
  apply (schedule_from_zero_starves 0 table3 (mk 7 Ready) (mk 2 Ready));
    [exact table3_pos|do 3 right; left|reflexivity|right; left|reflexivity|reflexivity].
Defined.

Lemma preempt_resume_roundtrip_witness :
  exists c, user_context 2 (save_user_context 2 4096 table3) = Some c /\ cr3 c = 0 /\
    (let '(a, m') := setup_user_frame_on_temp_stack 65536 c ∅ in
     pop_launch m' a = pop_timer (kmem table3) 4096) /\
    (let '(a, m') := setup_user_frame_for_timer_on_temp_stack 65536 c ∅ in
     pop_timer m' a = pop_timer (kmem table3) 4096) /\
    pop_timer (restore_user_frame 8192 c ∅) 8192 = pop_timer (kmem table3) 4096.
Proof.
  apply (preempt_resume_roundtrip 2 4096 8192 65536 table3 (mk 2 Ready) ∅); [reflexivity|].
  split_and!; reflexivity.
Defined.

Definition blocked : Thread := mkThread 3 1 Sleeping 0 EMPTY_USER_CONTEXT 0 0 true 4096 0 (WTimer 10) User 0.
Definition blocked_mem : gmap Z Z :=
  write_words 4096 [1; 2; 3; 4; 5; 6; 7; 8; 9; 10; 11; 12; 13; 14; 15; 27; 514; 19; 35] ∅.

Lemma blocked_resume_paths_agree_witness :
  let t' := restore_ctx_from_blocking_frame blocked_mem 77 blocked in
  (let '(a, m') := setup_user_frame_on_temp_stack 65536 (t_context t') ∅ in
   pop_launch m' a = pop_blocked blocked_mem 4096 77) /\
  t_blocking_rsp t' = 0 /\ t_preempted t' = false /\ cr3 (t_context t') = 0.
Proof.
  apply (blocked_resume_paths_agree blocked blocked_mem ∅ 77 65536); [done|].
  split_and!; reflexivity.
Defined.

End Scheduler.
