(* ===== verification/Process.v ===== *)
(** Processes: [crates/kernel/src/task/process.rs].

    The static [PROCESSES] vector is a list in vector order.  The functions run
    under the thread lock on the CPU given by their [cpu] argument; [now] is
    the value of [rdtsc].  Process exit calls into the other subsystems (file
    descriptors, framebuffer, driver resources, address space, images) in a
    fixed order; these calls are returned as the list of [Call]s made. *)
From stdpp Require Import base list numbers option gmap.
From S2P Require Import Prelude Allocator Thread Scheduler.

Open Scope Z_scope.

Module Process.
Import Thread Scheduler.

Definition IMAGE_NAME_LEN : nat := 32.

(** [ProcessState] has the variants of [ThreadState]. *)
Definition ProcessState : Type := ThreadState.

Record Process := mkProc {
  pid : Z;
  p_state : ProcessState;
  image_name : list Z;
  start_tsc : Z;
  p_entry : Z;
  p_stack_top : Z;
  p_step : Z;
  p_memory : Z;
  p_background : bool;
  sigint_catch : bool;
  sigint_pending : bool;
  sigterm_catch : bool;
  sigterm_pending : bool;
  kill_pending : bool;
  p_parent : Z;
  term_cols : Z;
  term_rows : Z;
  p_privilege : PrivilegeLevel;
  p_main : option Z;
  p_threads : list Z
}.

Record PState := mkPState {
  ts : TState;
  ss : SState;
  procs : list Process;
  next_pid : Z;
  p_initialized : bool
}.

Definition set_ts (t : TState) (s : PState) : PState :=
  mkPState t (ss s) (procs s) (next_pid s) (p_initialized s).
Definition set_ss (x : SState) (s : PState) : PState :=
  mkPState (ts s) x (procs s) (next_pid s) (p_initialized s).
Definition set_procs (l : list Process) (s : PState) : PState :=
  mkPState (ts s) (ss s) l (next_pid s) (p_initialized s).
Definition on_ts (f : TState -> TState) (s : PState) : PState := set_ts (f (ts s)) s.

(** ** Field updates *)

Definition with_pstate (v : ProcessState) (p : Process) : Process :=
  mkProc (pid p) v (image_name p) (start_tsc p) (p_entry p) (p_stack_top p) (p_step p) (p_memory p)
    (p_background p) (sigint_catch p) (sigint_pending p) (sigterm_catch p) (sigterm_pending p)
    (kill_pending p) (p_parent p) (term_cols p) (term_rows p) (p_privilege p) (p_main p) (p_threads p).
Definition with_step (v : Z) (p : Process) : Process :=
  mkProc (pid p) (p_state p) (image_name p) (start_tsc p) (p_entry p) (p_stack_top p) v (p_memory p)
    (p_background p) (sigint_catch p) (sigint_pending p) (sigterm_catch p) (sigterm_pending p)
    (kill_pending p) (p_parent p) (term_cols p) (term_rows p) (p_privilege p) (p_main p) (p_threads p).
Definition with_memory (v : Z) (p : Process) : Process :=
  mkProc (pid p) (p_state p) (image_name p) (start_tsc p) (p_entry p) (p_stack_top p) (p_step p) v
    (p_background p) (sigint_catch p) (sigint_pending p) (sigterm_catch p) (sigterm_pending p)
    (kill_pending p) (p_parent p) (term_cols p) (term_rows p) (p_privilege p) (p_main p) (p_threads p).
Definition with_background (v : bool) (p : Process) : Process :=
  mkProc (pid p) (p_state p) (image_name p) (start_tsc p) (p_entry p) (p_stack_top p) (p_step p) (p_memory p)
    v (sigint_catch p) (sigint_pending p) (sigterm_catch p) (sigterm_pending p)
    (kill_pending p) (p_parent p) (term_cols p) (term_rows p) (p_privilege p) (p_main p) (p_threads p).
(** The five signal flags: caught and pending SIGINT, caught and pending SIGTERM, kill. *)
Definition with_signals (ic ip tc tp kp : bool) (p : Process) : Process :=
  mkProc (pid p) (p_state p) (image_name p) (start_tsc p) (p_entry p) (p_stack_top p) (p_step p) (p_memory p)
    (p_background p) ic ip tc tp kp
    (p_parent p) (term_cols p) (term_rows p) (p_privilege p) (p_main p) (p_threads p).
Definition with_parent (v : Z) (p : Process) : Process :=
  mkProc (pid p) (p_state p) (image_name p) (start_tsc p) (p_entry p) (p_stack_top p) (p_step p) (p_memory p)
    (p_background p) (sigint_catch p) (sigint_pending p) (sigterm_catch p) (sigterm_pending p)
    (kill_pending p) v (term_cols p) (term_rows p) (p_privilege p) (p_main p) (p_threads p).
Definition with_winsize (c r : Z) (p : Process) : Process :=
  mkProc (pid p) (p_state p) (image_name p) (start_tsc p) (p_entry p) (p_stack_top p) (p_step p) (p_memory p)
    (p_background p) (sigint_catch p) (sigint_pending p) (sigterm_catch p) (sigterm_pending p)
    (kill_pending p) (p_parent p) c r (p_privilege p) (p_main p) (p_threads p).
Definition with_level (v : PrivilegeLevel) (p : Process) : Process :=
  mkProc (pid p) (p_state p) (image_name p) (start_tsc p) (p_entry p) (p_stack_top p) (p_step p) (p_memory p)
    (p_background p) (sigint_catch p) (sigint_pending p) (sigterm_catch p) (sigterm_pending p)
    (kill_pending p) (p_parent p) (term_cols p) (term_rows p) v (p_main p) (p_threads p).
Definition with_threads (v : list Z) (p : Process) : Process :=
  mkProc (pid p) (p_state p) (image_name p) (start_tsc p) (p_entry p) (p_stack_top p) (p_step p) (p_memory p)
    (p_background p) (sigint_catch p) (sigint_pending p) (sigterm_catch p) (sigterm_pending p)
    (kill_pending p) (p_parent p) (term_cols p) (term_rows p) (p_privilege p) (p_main p) v.

Definition with_kill (p : Process) : Process :=
  with_signals (sigint_catch p) (sigint_pending p) (sigterm_catch p) (sigterm_pending p) true p.
Definition with_sigint_pending (p : Process) : Process :=
  with_signals (sigint_catch p) true (sigterm_catch p) (sigterm_pending p) (kill_pending p) p.
Definition with_sigterm_pending (p : Process) : Process :=
  with_signals (sigint_catch p) (sigint_pending p) (sigterm_catch p) true (kill_pending p) p.

Definition is_pid (i : Z) (p : Process) : bool := pid p =? i.
Definition find (i : Z) (s : PState) : option Process := find_first (is_pid i) (procs s).
Definition modify (i : Z) (f : Process -> Process) (s : PState) : PState :=
  set_procs (update_first (is_pid i) f (procs s)) s.

(** * Accessors through the main thread *)

Definition main_tid (i : Z) (s : PState) : option Z := p ← find i s; p_main p.
(** [if let Some(tid) = main_tid(pid) { f(tid) }]. *)
Definition on_main (i : Z) (f : Z -> TState -> TState) (s : PState) : PState :=
  match main_tid i s with Some t => on_ts (f t) s | None => s end.

Definition current_pid (cpu : nat) (s : PState) : Z := default 0 (current_user_pid cpu (ss s)).
Definition current_tid (cpu : nat) (s : PState) : Z := default 0 (current_user_tid cpu (ss s)).
Definition set_current_pid (cpu : nat) (i : option Z) (s : PState) : PState :=
  set_ss (set_current_user_pid (fun p => main_tid p s) cpu i (ss s)) s.
Definition clear_current_pid (cpu : nat) : PState -> PState := set_current_pid cpu None.

Definition set_privilege (i : Z) (l : PrivilegeLevel) (s : PState) : PState :=
  on_main i (fun t => Thread.set_privilege t l) (modify i (with_level l) s).
Definition privilege_level (i : Z) (s : PState) : PrivilegeLevel :=
  match find i s with Some p => p_privilege p | None => User end.

Definition set_running (cpu : nat) (i : Z) (s : PState) : PState :=
  let s := modify i (fun p => if terminal (p_state p) then p else with_pstate Running p) s in
  match current_user_tid cpu (ss s) with Some t => on_ts (Thread.set_running t) s | None => s end.
Definition set_ready (i : Z) (s : PState) : PState :=
  on_main i Thread.set_ready
    (modify i (fun p => match p_state p with
                        | Ready | Running | Sleeping => with_pstate Ready p
                        | _ => p
                        end) s).
Definition set_sleeping (i : Z) (s : PState) : PState :=
  on_main i Thread.set_sleeping
    (modify i (fun p => if terminal (p_state p) then p else with_pstate Sleeping p) s).

Definition step (i : Z) (s : PState) : Z * PState :=
  match find i s with
  | Some p => (wrap64 (p_step p + 1), modify i (fun p => with_step (wrap64 (p_step p + 1)) p) s)
  | None => (0, s)
  end.
Definition add_cpu_ticks (i ticks : Z) : PState -> PState := on_main i (fun t => Thread.add_cpu_ticks t ticks).
Definition set_memory_bytes (i b : Z) : PState -> PState := modify i (with_memory b).
Definition add_memory_bytes (i b : Z) : PState -> PState :=
  modify i (fun p => with_memory (saturating_add (p_memory p) b) p).
Definition sub_memory_bytes (i b : Z) : PState -> PState :=
  modify i (fun p => with_memory (saturating_sub (p_memory p) b) p).
Definition memory_bytes (i : Z) (s : PState) : option Z := p_memory <$> find i s.
Definition cpu_ticks (i : Z) (s : PState) : option Z := t ← main_tid i s; Thread.cpu_ticks t (ts s).
Definition set_user_context (i : Z) (c : UserContext) : PState -> PState :=
  on_main i (fun t => Thread.set_user_context t c).
Definition user_context (i : Z) (s : PState) : option UserContext := t ← main_tid i s; Thread.user_context t (ts s).
Definition user_cr3 (i : Z) (s : PState) : option Z := t ← main_tid i s; Thread.user_cr3 t (ts s).
Definition kernel_rsp (i : Z) (s : PState) : option Z := t ← main_tid i s; Thread.kernel_rsp t (ts s).
Definition set_kernel_rsp (i v : Z) : PState -> PState := on_main i (fun t => Thread.set_kernel_rsp t v).
Definition kernel_stack_base (i : Z) (s : PState) : option Z := t ← main_tid i s; Thread.kernel_stack_base t (ts s).
Definition set_background (i : Z) (b : bool) : PState -> PState := modify i (with_background b).
Definition is_background (i : Z) (s : PState) : bool := default false (p_background <$> find i s).
Definition set_wait_target (i : Z) (w : WaitTarget) : PState -> PState := on_main i (fun t => Thread.set_wait_target t w).
Definition set_blocking_rsp (i v : Z) : PState -> PState := on_main i (fun t => Thread.set_blocking_rsp t v).
Definition set_blocking_rsp_tid (t v : Z) : PState -> PState := on_ts (Thread.set_blocking_rsp t v).
Definition set_winsize (i c r : Z) : PState -> PState := modify i (with_winsize c r).
Definition winsize (i : Z) (s : PState) : Z * Z :=
  match find i s with Some p => (term_cols p, term_rows p) | None => (0, 0) end.
Definition set_parent (i v : Z) : PState -> PState := modify i (with_parent v).
Definition wakeup_ipc_waiter (i retval : Z) : PState -> PState :=
  on_main i (fun t => Thread.wakeup_ipc_waiter t retval).
Definition add_thread_to_process (i t : Z) : PState -> PState :=
  modify i (fun p => with_threads (p_threads p ++ [t]) p).
Definition remove_thread_from_process (i t : Z) : PState -> PState :=
  modify i (fun p => with_threads (retain (fun x => negb (x =? t)) (p_threads p)) p).

(** ** Enumeration *)

Definition pactive (p : Process) : bool :=
  match p_state p with Ready | Running | Sleeping => true | _ => false end.
Definition not_empty (p : Process) : bool := negb (bool_decide (p_state p = Empty)).
Definition is_live (i : Z) (s : PState) : bool := existsb (fun p => is_pid i p && pactive p) (procs s).
Definition active_pid_after (i : Z) (s : PState) : option Z :=
  min_opt (pid <$> retain (fun p => (bool_decide (p_state p = Ready) || bool_decide (p_state p = Running))
                                    && (i <? pid p)) (procs s)).
Definition count (s : PState) : Z := Z.of_nat (length (retain not_empty (procs s))).
Definition user_memory_total (s : PState) : Z :=
  wrap64 (zsum p_memory (retain (fun p => negb (pid p =? 0) && not_empty p) (procs s))).
Definition first_pid (s : PState) : option Z := pid <$> find_first not_empty (procs s).
Definition next_pid_after (i : Z) (s : PState) : option Z :=
  min_opt (pid <$> retain (fun p => not_empty p && (i <? pid p)) (procs s)).
Definition active_count (s : PState) : Z := Z.of_nat (length (retain pactive (procs s))).

(** * Creation *)

Definition kernel_name : list Z := [107; 101; 114; 110; 101; 108].
(** [name[..len].copy_from_slice(&bytes[..len])] into a zeroed 32-byte array. *)
Definition fixed_name (bytes : list Z) : list Z :=
  let b := take (IMAGE_NAME_LEN - 1) bytes in b ++ replicate (IMAGE_NAME_LEN - length b) 0.

Definition kernel_process : Process :=
  mkProc 0 Running (kernel_name ++ replicate 26 0) 0 0 0 0 0 false false false false false false 0 0 0
         Driver None [].

Definition init (s : PState) : PState :=
  if p_initialized s then s
  else mkPState (Thread.init (ts s)) (ss s) [kernel_process] 1 true.

Definition create_process (name : list Z) (privilege : PrivilegeLevel) (main now : Z) (s : PState) : Z * PState :=
  let s := init s in
  let i := next_pid s in
  let p := mkProc i Sleeping (fixed_name name) now 0 0 0 0 false false false false false false 0 0 0
                  privilege (Some main) [main] in
  (i, mkPState (ts s) (ss s) (procs s ++ [p]) (wrap64 (i + 1)) (p_initialized s)).

(** The common body of [spawn], [spawn_kernel_task] and [spawn_user_process]: the
    thread is created first, with pid 0, and [finish] completes the new process. *)
Definition spawn_with (cpu : nat) (cpu_count now entry arg : Z) (name : list Z) (l : PrivilegeLevel)
    (finish : Z -> Z -> PState -> PState) (s : PState) : Z * PState :=
  let '(t, ts') := create_kernel_thread cpu cpu_count 0 entry arg l (ts s) in
  let s := set_ts ts' s in
  if t =? 0 then (0, s) else
  let '(i, s) := create_process name l t now s in
  if i =? 0 then (0, on_ts (remove_thread t) s)
  else (i, finish i t (on_ts (set_thread_pid t i) s)).

Definition spawn (cpu : nat) (cpu_count now : Z) (name : list Z) : PState -> Z * PState :=
  spawn_with cpu cpu_count now 0 0 name System (fun i _ => set_ready i).
Definition spawn_kernel_task (cpu : nat) (cpu_count now : Z) (name : list Z) (entry arg : Z)
    (l : PrivilegeLevel) : PState -> Z * PState :=
  spawn_with cpu cpu_count now entry arg name l
    (fun i t s => set_ready i (on_ts (Thread.set_user_context t
       (mkCtx 0 0 0 0 0 0 0 0 0 0 0 0 0 0 0 entry 0 514 0 0 0)) s)).
Definition spawn_user_process (cpu : nat) (cpu_count now : Z) (name : list Z) (entry stack_top cr3 : Z)
    (l : PrivilegeLevel) (argc argv : Z) : PState -> Z * PState :=
  spawn_with cpu cpu_count now entry 0 name l
    (fun _ t => on_ts (Thread.set_user_context t (entry_context entry stack_top cr3 argc argv))).

Definition spawn_user_thread (cpu : nat) (cpu_count entry arg stack_top : Z) (s : PState) : Z * PState :=
  let i := current_pid cpu s in
  if i =? 0 then (0, s) else
  match Thread.user_cr3 (current_tid cpu s) (ts s) with
  | None => (0, s)
  | Some c =>
      let '(t, ts') := create_user_thread cpu cpu_count i entry stack_top c (privilege_level i s) arg 0 (ts s) in
      let s := set_ts ts' s in
      if t =? 0 then (0, s)
      else (t, on_ts (Thread.set_ready t) (add_thread_to_process i t s))
  end.

(** * Blocking *)

Definition block_current (cpu : nat) (w : WaitTarget) (s : PState) : PState :=
  match current_user_tid cpu (ss s) with
  | Some t => on_ts (fun x => Thread.set_sleeping t (Thread.set_wait_target t w x)) s
  | None => s
  end.

Definition alive (t : Z) (x : TState) : bool :=
  match Thread.state t x with Some Exited | Some Empty | None => false | _ => true end.

Definition join_current (cpu : nat) (t : Z) (s : PState) : bool * PState :=
  if negb (alive t (ts s)) then (false, s)
  else (true, block_current cpu (WTid t) s).

Definition live_thread_count (i : Z) (s : PState) : Z :=
  match find i s with
  | Some p => Z.of_nat (length (retain (fun t => alive t (ts s)) (p_threads p)))
  | None => 0
  end.

(** * Signals and killing *)

Definition SIGNAL_SIGINT : Z := 1.
Definition SIGNAL_SIGTERM : Z := 2.

(** Wake a thread parked in a blocking syscall, delivering the stored return value. *)
Definition interrupt_thread (t : Z) (x : TState) : TState :=
  match Thread.state t x with
  | Some Sleeping =>
      Thread.set_wait_target t WNone (Thread.set_ready t (apply_blocking_return_if_pending t x).2)
  | _ => x
  end.

Definition is_kill_pending (i : Z) (s : PState) : bool := default false (kill_pending <$> find i s).
Definition set_kill_pending (i : Z) : PState -> PState := modify i with_kill.

Definition kill_pid (i : Z) (s : PState) : PState :=
  if i =? 0 then s else
  match find i s with
  | None => s
  | Some p =>
      if level (p_privilege p) <=? level Driver then s
      else on_main i Thread.set_ready (modify i with_kill s)
  end.

Definition send_sigint (i : Z) (s : PState) : PState :=
  match find i s with
  | None => s
  | Some p =>
      if level (p_privilege p) <=? level Driver then s
      else if sigint_catch p
      then let s := modify i with_sigint_pending s in
           match p_main p with Some t => on_ts (interrupt_thread t) s | None => s end
      else kill_pid i s
  end.
Definition sigint_catches (i : Z) (s : PState) : bool := default false (sigint_catch <$> find i s).
Definition send_driver_exit (i : Z) (s : PState) : PState :=
  match find i s with
  | None => s
  | Some p =>
      let s := modify i with_sigint_pending s in
      match p_main p with Some t => on_ts (interrupt_thread t) s | None => s end
  end.
Definition signal_set_catch (i mask : Z) : PState -> PState :=
  modify i (fun p => with_signals (negb (Z.land mask SIGNAL_SIGINT =? 0)) (sigint_pending p)
                       (negb (Z.land mask SIGNAL_SIGTERM =? 0)) (sigterm_pending p) (kill_pending p) p).
Definition signal_check_and_clear (i : Z) (s : PState) : Z * PState :=
  match find i s with
  | Some p =>
      (Z.lor (if sigint_pending p then SIGNAL_SIGINT else 0) (if sigterm_pending p then SIGNAL_SIGTERM else 0),
       modify i (fun p => with_signals (sigint_catch p) false (sigterm_catch p) false (kill_pending p) p) s)
  | None => (0, s)
  end.

Definition term_flags (p : Process) : Process :=
  if sigterm_catch p then with_sigterm_pending p else with_kill p.
Definition send_sigterm (i : Z) (s : PState) : PState := on_main i Thread.set_ready (modify i term_flags s).

(** The two shutdown sweeps visit every process but the kernel's. *)
Definition sweep (f : Process -> Process) (s : PState) : PState :=
  set_ts (foldl (fun x p => if pid p =? 0 then x
                            else match p_main p with Some t => Thread.set_ready t x | None => x end)
                (ts s) (procs s))
    (set_procs ((fun p => if pid p =? 0 then p else f p) <$> procs s) s).
Definition shutdown_sigterm_all : PState -> PState := sweep term_flags.
Definition shutdown_sigkill_all : PState -> PState := sweep with_kill.
Definition shutdown_complete (s : PState) : bool :=
  forallb (fun p => (pid p =? 0) || terminal (p_state p)) (procs s).

Fixpoint kill_each (l : list Z) (s : PState) : PState :=
  match l with [] => s | i :: l' => kill_each l' (kill_pid i s) end.
Definition kill_children (i : Z) (s : PState) : PState :=
  kill_each (pid <$> retain (fun p => p_parent p =? i) (procs s)) s.

(** The loop of [oom_victim], keeping the best (pid, memory) so far. *)
Definition killable (exclude : Z) (p : Process) : bool :=
  negb (pid p =? 0) && negb (pid p =? exclude) && (level Driver <? level (p_privilege p)) &&
  negb (terminal (p_state p)).
Fixpoint oom_loop (exclude : Z) (l : list Process) (best : option (Z * Z)) : option (Z * Z) :=
  match l with
  | [] => best
  | p :: l' =>
      let better := match best with None => true | Some (_, bm) => bm <? p_memory p end in
      oom_loop exclude l' (if killable exclude p && better then Some (pid p, p_memory p) else best)
  end.
Definition oom_victim (exclude : Z) (s : PState) : option Z := fst <$> oom_loop exclude (procs s) None.

(** ** Foreground process *)

Definition main_wait (p : Process) (s : PState) : option WaitTarget := t ← p_main p; wait_target t (ts s).
Definition waits_on_pid (p : Process) (s : PState) : bool :=
  match main_wait p s with Some (WPid _) => true | _ => false end.
Definition waited_on (i : Z) (s : PState) : bool :=
  existsb (fun q => match main_wait q s with Some (WPid j) => j =? i | _ => false end) (procs s).
Definition foreground_pid (s : PState) : option Z :=
  pid <$> find_first (fun p => negb (pid p =? 0) && negb (terminal (p_state p)) &&
                               waited_on (pid p) s && negb (waits_on_pid p s)) (procs s).

Definition waits_on (i : Z) (s : PState) : option Z :=
  match (p ← find i s; main_wait p s) with Some (WPid j) => Some j | _ => None end.
Fixpoint follow (n : nat) (cur : Z) (s : PState) : Z :=
  match n with
  | O => cur
  | S n' => match waits_on cur s with Some next => follow n' next s | None => cur end
  end.
Definition foreground_leaf (root : Z) (s : PState) : Z := follow 64 root s.

(** * Exit *)

Inductive Call :=
  | CFbRelease (pid : Z)
  | CFdCloseAll (pid : Z)
  | CReleaseIrq (pid : Z)
  | CFreeDma (pid : Z)
  | CFreePciMmio (pid : Z)
  | CFreeHeap (pid : Z) (cr3 : option Z)
  | CShmCleanup (pid cr3 : Z)
  | CSwitchToKernel
  | CFreeUserSpace (cr3 : Z)
  | CFreeImage (pid : Z).

Definition exit_current_thread (cpu : nat) (s : PState) : PState :=
  let i := current_pid cpu s in
  let t := current_tid cpu s in
  let s := remove_thread_from_process i t s in
  let s := set_ss (clear_current_user cpu i (ss s)) s in
  let s := clear_current_pid cpu s in
  if t =? 0 then s else
  let s := on_ts (Thread.set_state t Exited) s in
  let s := on_ts (wakeup_thread_waiters t) s in
  let stack_base := default 0 (Thread.kernel_stack_base t (ts s)) in
  let s := on_ts (remove_thread t) s in
  on_ts (defer_free_kernel_stack cpu stack_base) s.

Definition remove_process (i : Z) (s : PState) : PState :=
  match position (is_pid i) (procs s) with
  | None => s
  | Some pos =>
      let dead := match procs s !! pos with Some p => p_threads p | None => [] end in
      on_ts (fun x => foldl (fun x t => remove_thread t x) x dead) (set_procs (swap_remove pos (procs s)) s)
  end.

(** What the called subsystems do to this state: closing descriptors wakes pipe readers;
    the other calls leave the tables alone.  The descriptor and pipe code is in [Fd.v] and
    [Pipe.v]; here it is only required not to disturb the tables. *)
Class TeardownEffects := { effect : Call -> PState -> PState }.

(** Make the call, appending it to the trace of calls. *)
Definition call `{TeardownEffects} (c : Call) (st : list Call * PState) : list Call * PState :=
  (fst st ++ [c], effect c (snd st)).

Definition exit_current `{TeardownEffects} (cpu : nat) (s : PState) : list Call * PState :=
  let i := current_pid cpu s in
  if negb (i =? 0) && (1 <? live_thread_count i s)
  then ([], exit_current_thread cpu (set_kill_pending i s))
  else
    let t := current_tid cpu s in
    let '(calls, s) :=
      if i =? 0 then ([], modify 0 (with_pstate Running) s)
      else
        let stack_base := default 0 (Thread.kernel_stack_base t (ts s)) in
        let s := kill_children i s in
        let '(calls, s) := call (CFbRelease i) ([], s) in
        let s := set_ss (clear_current_user cpu i (ss s)) s in
        let st := call (CFreePciMmio i) (call (CFreeDma i) (call (CReleaseIrq i) (call (CFdCloseAll i) (calls, s)))) in
        let st := call (CFreeHeap i (user_cr3 i (snd st))) st in
        let st := match user_cr3 i (snd st) with
                  | Some c => call (CFreeUserSpace c) (call CSwitchToKernel (call (CShmCleanup i c) st))
                  | None => st
                  end in
        let '(calls, s) := call (CFreeImage i) st in
        let s := remove_process i s in
        let s := on_ts (wakeup_pid_waiters i) s in
        (calls, on_ts (defer_free_kernel_stack cpu stack_base) s) in
    let s := clear_current_pid cpu s in
    if t =? 0 then (calls, s)
    else (calls, on_ts (fun x => wakeup_thread_waiters t (Thread.set_state t Exited x)) s).

(** * Keys: the parts of the tables that killing and teardown calls never change *)

Definition pkey (p : Process) : Z * option Z * list Z := (pid p, p_main p, p_threads p).
Definition tkey (t : Thread) : Z * Z * Z := (tid t, cr3 (t_context t), t_stack_base t).

Record same_keys (s s' : PState) : Prop := {
  sk_procs : pkey <$> procs s' = pkey <$> procs s;
  sk_threads : tkey <$> threads (ts s') = tkey <$> threads (ts s);
  sk_ss : ss s' = ss s;
}.

Lemma same_keys_refl (s : PState) : same_keys s s.
Proof. done. Qed.

Lemma same_keys_trans (s1 s2 s3 : PState) : same_keys s1 s2 -> same_keys s2 s3 -> same_keys s1 s3.
Proof. intros [H1 H2 H3] [H4 H5 H6]. split; congruence. Qed.

Lemma find_first_key {A B : Type} (g : A -> B) (P : A -> bool) (Q : B -> bool) (l l' : list A) :
  (forall x, P x = Q (g x)) -> g <$> l' = g <$> l -> g <$> find_first P l' = g <$> find_first P l.
Proof. intros HP Hl. by rewrite !(find_first_fmap g P Q), Hl. Qed.

Lemma find_key (i : Z) (s s' : PState) : same_keys s s' -> pkey <$> find i s' = pkey <$> find i s.
Proof. intros [H _ _]. by apply (find_first_key pkey _ (fun k => (fst (fst k)) =? i)). Qed.

Lemma tfind_key (i : Z) (s s' : PState) :
  same_keys s s' -> tkey <$> Thread.find i (ts s') = tkey <$> Thread.find i (ts s).
Proof. intros [_ H _]. by apply (find_first_key tkey _ (fun k => (fst (fst k)) =? i)). Qed.

Lemma main_tid_key (i : Z) (s s' : PState) : same_keys s s' -> main_tid i s' = main_tid i s.
Proof.
  intros H%(find_key i). unfold main_tid. destruct (find i s'), (find i s); simpl in *; try done.
  unfold pkey in H. congruence.
Qed.

Lemma user_cr3_key (i : Z) (s s' : PState) : same_keys s s' -> user_cr3 i s' = user_cr3 i s.
Proof.
  intros H. unfold user_cr3. rewrite (main_tid_key i s s' H). destruct (main_tid i s) as [t|]; simpl; [|done].
  pose proof (tfind_key t s s' H) as Ht. unfold Thread.user_cr3, Thread.user_context.
  destruct (Thread.find t (ts s')), (Thread.find t (ts s)); simpl in *; try done.
  unfold tkey in Ht. congruence.
Qed.

Lemma keys_modify (i : Z) (f : Process -> Process) (s : PState) :
  (forall p, pkey (f p) = pkey p) -> same_keys s (modify i f s).
Proof. intros Hf. split; [|done..]. simpl. by apply update_first_map. Qed.

Lemma keys_tmodify (t : Z) (f : Thread -> Thread) (s : PState) :
  (forall u, tkey (f u) = tkey u) -> same_keys s (on_ts (Thread.modify t f) s).
Proof. intros Hf. split; [done| |done]. simpl. by apply update_first_map. Qed.

Lemma keys_set_ready (t : Z) (s : PState) : same_keys s (on_ts (Thread.set_ready t) s).
Proof. apply keys_tmodify. intros u. by destruct (t_state u). Qed.

Lemma keys_on_main_ready (i : Z) (s : PState) : same_keys s (on_main i Thread.set_ready s).
Proof. unfold on_main. destruct (main_tid i s); [apply keys_set_ready|apply same_keys_refl]. Qed.

Lemma keys_kill_pid (i : Z) (s : PState) : same_keys s (kill_pid i s).
Proof.
  unfold kill_pid. destruct (i =? 0); [apply same_keys_refl|]. destruct (find i s); [|apply same_keys_refl].
  destruct (_ <=? _); [apply same_keys_refl|]. eapply same_keys_trans; [|apply keys_on_main_ready].
  by apply keys_modify.
Qed.

Lemma keys_kill_children (i : Z) (s : PState) : same_keys s (kill_children i s).
Proof.
  unfold kill_children. generalize (pid <$> retain (fun p => p_parent p =? i) (procs s)). intros l.
  revert s. induction l as [|j l IH]; intros s; simpl; [apply same_keys_refl|].
  eapply same_keys_trans; [apply keys_kill_pid|apply IH].
Qed.

(** What no teardown call touches: everything of a process but its memory account; of a
    thread its identity, its owner and whether it has finished. *)
Definition pview (p : Process) : Process := with_memory 0 p.
Definition okey (t : Thread) : (Z * Z * Z) * Z * PrivilegeLevel * Z * bool :=
  (tkey t, t_pid t, t_privilege t, t_cpu t, terminal (t_state t)).

Record spared (s s' : PState) : Prop := {
  sp_procs : pview <$> procs s' = pview <$> procs s;
  sp_threads : okey <$> threads (ts s') = okey <$> threads (ts s);
  sp_ss : ss s' = ss s;
}.

Lemma spared_keys (s s' : PState) : spared s s' -> same_keys s s'.
Proof.
  intros [Hp Ht Hs]. split; [| |done].
  - apply (f_equal (fmap pkey)) in Hp. by rewrite <- !list_fmap_compose in Hp.
  - apply (f_equal (fmap (fun k => fst (fst (fst (fst k)))))) in Ht. by rewrite <- !list_fmap_compose in Ht.
Qed.

(** What exit relies on about the subsystems it calls: closing descriptors and releasing
    the interrupt wake threads, freeing memory changes the account of the process. *)
Class TeardownLaws `{TeardownEffects} := { effect_spares c s : spared s (effect c s) }.

(** ** Killing the children *)

(** What the exit of process [i] does to process [q]. *)
Definition doomed (i : Z) (q : Process) : Process :=
  if (p_parent q =? i) && negb (pid q =? 0) && (level Driver <? level (p_privilege q)) then with_kill q else q.

Lemma update_first_unique (j : Z) (f : Process -> Process) (l : list Process) :
  NoDup (pid <$> l) -> update_first (is_pid j) f l = (fun q => if pid q =? j then f q else q) <$> l.
Proof.
  induction l as [|q l IH]; simpl; [done|]. intros [Hn Hd]%NoDup_cons. unfold is_pid at 1. destruct (pid q =? j) eqn:E; [|by rewrite IH].
  f_equal. zbool. subst j. symmetry. rewrite <- (list_fmap_id l) at 2. apply list_fmap_ext. intros k x Hx.
  assert (pid x <> pid q) as ?%Z.eqb_neq; [|by rewrite H]. intros Hp. apply Hn. rewrite <- Hp. apply list_elem_of_fmap_2. by eapply list_elem_of_lookup_2.
Qed.

Lemma kill_pid_procs (j : Z) (s : PState) :
  NoDup (pid <$> procs s) ->
  procs (kill_pid j s) = (fun q => if (pid q =? j) && negb (pid q =? 0) && (level Driver <? level (p_privilege q)) then with_kill q else q) <$> procs s.
Proof.
  intros Hnd. assert (forall g : Process -> Process, (forall q, q ∈ procs s -> g q = q) -> procs s = g <$> procs s) as Hid.
  { intros g Hg. rewrite <- (list_fmap_id (procs s)) at 1. apply list_fmap_ext. intros k q Hq. symmetry. apply Hg. by eapply list_elem_of_lookup_2. }
  unfold kill_pid. destruct (j =? 0) eqn:Ej; zbool.
  { apply Hid. intros q _. subst j. by destruct (pid q =? 0). }
  destruct (find j s) as [p|] eqn:Ef; unfold find in Ef.
  - assert (p ∈ procs s /\ pid p = j) as [Hp Hpj] by (apply find_first_Some in Ef as [? Hpj]; unfold is_pid in Hpj; zbool; done).
    assert (forall q, q ∈ procs s -> pid q = j -> q = p) as Hone.
    { intros q Hq Hqj. apply list_elem_of_lookup in Hq as [a Ha]. apply list_elem_of_lookup in Hp as [b Hb].
      assert (a = b) as ->; [|congruence]. apply (NoDup_lookup (pid <$> procs s) a b j Hnd); rewrite list_lookup_fmap; [by rewrite Ha, <- Hqj|by rewrite Hb, <- Hpj]. }
    destruct (level (p_privilege p) <=? level Driver) eqn:El; zbool.
    + apply Hid. intros q Hq. destruct (pid q =? j) eqn:E; [|done]. zbool. rewrite (Hone q Hq E).
      replace (level Driver <? level (p_privilege p)) with false by (symmetry; apply Z.ltb_ge; lia). by rewrite !andb_false_r.
    + transitivity (procs (modify j with_kill s)); [unfold on_main; by destruct (main_tid _ _)|]. simpl. rewrite update_first_unique by done.
      apply list_fmap_ext. intros k q Hk. destruct (pid q =? j) eqn:E; [|done]. zbool. rewrite (Hone q (list_elem_of_lookup_2 _ _ _ Hk) E).
      replace (pid p =? 0) with false by (symmetry; apply Z.eqb_neq; lia).
      destruct (_ <? level (p_privilege p)) eqn:E2; [by rewrite ?Hpj, ?Z.eqb_refl|]. apply Z.ltb_ge in E2. simpl in El. lia.
  - apply Hid. intros q Hq. rewrite find_first_None in Ef. specialize (Ef q Hq). unfold is_pid in Ef. by rewrite Ef.
Qed.

Lemma kill_each_procs (l : list Z) (s : PState) :
  NoDup (pid <$> procs s) ->
  procs (kill_each l s) = (fun q => if bool_decide (pid q ∈ l) && negb (pid q =? 0) && (level Driver <? level (p_privilege q)) then with_kill q else q) <$> procs s.
Proof.
  revert s. induction l as [|j l IH]; intros s Hnd; simpl.
  - rewrite <- (list_fmap_id (procs s)) at 1. apply list_fmap_ext. intros k q _. done.
  - pose proof (kill_pid_procs j s Hnd) as Hk. rewrite IH; rewrite Hk.
    + rewrite <- list_fmap_compose. apply list_fmap_ext. intros k q _. unfold compose.
      destruct (pid q =? j) eqn:E; zbool; simpl.
      * rewrite (bool_decide_true (pid q ∈ j :: l)) by set_solver. simpl.
        destruct (pid q =? 0) eqn:E0, (_ <? level (p_privilege q)) eqn:E1; simpl; rewrite ?E0, ?E1, ?andb_false_r; simpl;
          try done. by destruct (bool_decide (pid q ∈ l)).
      * by rewrite (bool_decide_ext (pid q ∈ l) (pid q ∈ j :: l)) by set_solver.
    + rewrite <- list_fmap_compose. rewrite (list_fmap_ext _ pid) by (intros; unfold compose; by destruct (_ && _)). done.
Qed.

Lemma kill_children_procs (i : Z) (s : PState) : NoDup (pid <$> procs s) -> procs (kill_children i s) = doomed i <$> procs s.
Proof.
  intros Hnd. unfold kill_children. rewrite kill_each_procs by done. apply list_fmap_ext. intros k q Hq. unfold doomed.
  replace (bool_decide (pid q ∈ pid <$> retain (fun p => p_parent p =? i) (procs s))) with (p_parent q =? i); [done|].
  apply list_elem_of_lookup_2 in Hq. symmetry. apply eq_bool_prop_intro. rewrite bool_decide_spec. split.
  - intros (q' & Hp & [Hpar Hq']%elem_of_retain)%list_elem_of_fmap. apply Is_true_true.
    replace q with q'; [done|]. apply list_elem_of_lookup in Hq as [a Ha]. apply list_elem_of_lookup in Hq' as [b Hb].
    assert (a = b) as ->; [|congruence]. apply (NoDup_lookup (pid <$> procs s) a b (pid q) Hnd); rewrite list_lookup_fmap; [by rewrite Ha|by rewrite Hb, Hp].
  - intros Hpar%Is_true_true. apply list_elem_of_fmap_2, elem_of_retain. done.
Qed.

Lemma kill_pid_okeys (j : Z) (s : PState) : okey <$> threads (ts (kill_pid j s)) = okey <$> threads (ts s).
Proof.
  unfold kill_pid. destruct (j =? 0); [done|]. destruct (find j s); [|done]. destruct (_ <=? _); [done|].
  unfold on_main. destruct (main_tid _ _); [|done]. apply update_first_map. intros u _. by destruct u as [? ? []].
Qed.
Lemma kill_children_okeys (i : Z) (s : PState) : okey <$> threads (ts (kill_children i s)) = okey <$> threads (ts s).
Proof.
  unfold kill_children. generalize (pid <$> retain (fun p => p_parent p =? i) (procs s)). intros l. revert s.
  induction l as [|j l IH]; intros s; simpl; [done|]. by rewrite IH, kill_pid_okeys.
Qed.

(** ** Removing a process *)

Lemma tids_remove_all (l : list Z) (x : TState) (u : Thread) :
  u ∈ threads (foldl (fun x t => remove_thread t x) x l) <-> u ∈ threads x /\ tid u ∉ l.
Proof.
  revert x. induction l as [|t l IH]; intros x; simpl; [set_solver|].
  rewrite IH. simpl. rewrite elem_of_retain, not_elem_of_cons. split.
  - intros [[Hn Hu] Hl]. zbool. done.
  - intros (Hu & Hn & Hl). split; [|done]. split; [|done]. apply negb_true_iff, Z.eqb_neq. done.
Qed.

Lemma retain_fmap {A B : Type} (g : A -> B) (P : A -> bool) (Q : B -> bool) (l : list A) :
  (forall x, P x = Q (g x)) -> g <$> retain P l = retain Q (g <$> l).
Proof. intros HP. induction l as [|x l IH]; simpl; [done|]. rewrite <- HP. destruct (P x); [exact (f_equal (cons (g x)) IH)|exact IH]. Qed.
Lemma retain_all {A : Type} (P : A -> bool) (l : list A) : Forall (fun x => P x = true) l -> retain P l = l.
Proof. induction 1 as [|x l Hx _ IH]; simpl; [done|]. by rewrite Hx, IH. Qed.
Lemma retain_perm {A : Type} (P : A -> bool) (l k : list A) : l ≡ₚ k -> retain P l ≡ₚ retain P k.
Proof. rewrite !retain_filter. by intros ->. Qed.

Lemma remove_all_threads (l : list Z) (x : TState) :
  threads (foldl (fun x t => remove_thread t x) x l) = retain (fun u => negb (bool_decide (tid u ∈ l))) (threads x).
Proof.
  revert x. induction l as [|t l IH]; intros x; simpl.
  - symmetry. apply retain_all, Forall_true. intros u. done.
  - rewrite IH. simpl. rewrite !retain_filter, list_filter_filter. apply list_filter_iff. intros u.
    rewrite !negb_true_iff, !bool_decide_eq_false, Z.eqb_neq. set_solver.
Qed.

Lemma remove_process_spec (i : Z) (s : PState) (p : Process) :
  NoDup (pid <$> procs s) -> find i s = Some p ->
  procs (remove_process i s) ≡ₚ retain (fun q => negb (pid q =? i)) (procs s) /\
  threads (ts (remove_process i s)) = retain (fun u => negb (bool_decide (tid u ∈ p_threads p))) (threads (ts s)).
Proof.
  intros Hnd Hp. unfold remove_process, find in *. rewrite find_first_position in Hp.
  destruct (position (is_pid i) (procs s)) as [k|] eqn:Ek; [|done]. rewrite Hp.
  apply position_Some in Ek as (p' & Hk & Hpid & _). rewrite Hk in Hp. simplify_eq. unfold is_pid in Hpid. zbool.
  split; [|apply remove_all_threads]. simpl. pose proof (swap_remove_perm k (procs s) p Hk) as Hperm.
  rewrite (retain_perm _ _ _ Hperm). simpl. rewrite Hpid, Z.eqb_refl. simpl. rewrite retain_all; [done|].
  rewrite Hperm in Hnd. simpl in Hnd. apply NoDup_cons in Hnd as [Hni _]. apply Forall_forall. intros q Hq.
  apply negb_true_iff, Z.eqb_neq. intros Hqi. apply Hni. rewrite Hpid, <- Hqi. by apply list_elem_of_fmap_2.
Qed.

Definition exit_calls (i : Z) (c : option Z) : list Call :=
  [CFbRelease i; CFdCloseAll i; CReleaseIrq i; CFreeDma i; CFreePciMmio i; CFreeHeap i c] ++
  (match c with Some c => [CShmCleanup i c; CSwitchToKernel; CFreeUserSpace c] | None => [] end) ++
  [CFreeImage i].

Section Exit.
Context `{TL : TeardownLaws}.

Lemma user_cr3_set_ss (i : Z) (x : SState) (s : PState) : user_cr3 i (set_ss x s) = user_cr3 i s.
Proof. done. Qed.

Lemma user_cr3_effect (i : Z) (c : Call) (s : PState) : user_cr3 i (effect c s) = user_cr3 i s.
Proof. apply user_cr3_key, spared_keys, effect_spares. Qed.

(** Everything up to the removal of the process: which calls, and what is kept. *)
Lemma teardown_calls (cpu : nat) (i : Z) (s : PState) :
  let s1 := kill_children i s in
  let '(calls, s2) := call (CFbRelease i) ([], s1) in
  let s2 := set_ss (clear_current_user cpu i (ss s2)) s2 in
  let st := call (CFreePciMmio i) (call (CFreeDma i) (call (CReleaseIrq i) (call (CFdCloseAll i) (calls, s2)))) in
  let st := call (CFreeHeap i (user_cr3 i (snd st))) st in
  let st := match user_cr3 i (snd st) with
            | Some c => call (CFreeUserSpace c) (call CSwitchToKernel (call (CShmCleanup i c) st))
            | None => st
            end in
  let '(calls, s3) := call (CFreeImage i) st in
  calls = exit_calls i (user_cr3 i s) /\
  pview <$> procs s3 = pview <$> procs s1 /\ okey <$> threads (ts s3) = okey <$> threads (ts s) /\
  ss s3 = clear_current_user cpu i (ss s).
Proof.
  cbv zeta. unfold call. cbn [fst snd app].
  rewrite !user_cr3_effect, !user_cr3_set_ss, !user_cr3_effect, (user_cr3_key i _ _ (keys_kill_children i s)).
  assert (forall c s, pview <$> procs (effect c s) = pview <$> procs s) as He by (intros c s0; by destruct (effect_spares c s0)).
  assert (forall c s, okey <$> threads (ts (effect c s)) = okey <$> threads (ts s)) as Ht by (intros c s0; by destruct (effect_spares c s0)).
  assert (forall c s, ss (effect c s) = ss s) as Hss by (intros c s0; by destruct (effect_spares c s0)).
  rewrite <- (kill_children_okeys i s), <- (sk_ss _ _ (keys_kill_children i s)).
  unfold exit_calls. destruct (user_cr3 i s) as [c|]; cbn [fst snd app]; (split; [done|]);
    rewrite !He, !Ht, !Hss; unfold set_ss; cbn [procs ts ss]; by rewrite He, Ht, ?Hss.
Qed.

Lemma find_pkey (i : Z) (s s' : PState) (p : Process) :
  pkey <$> procs s' = pkey <$> procs s -> find i s = Some p ->
  exists p', find i s' = Some p' /\ p_threads p' = p_threads p /\ p_main p' = p_main p.
Proof.
  intros Hk Hp. pose proof (find_first_key pkey (is_pid i) (fun k => (fst (fst k)) =? i) (procs s) (procs s')) as Hf.
  specialize (Hf ltac:(done) Hk). unfold find in *. rewrite Hp in Hf.
  destruct (find_first (is_pid i) (procs s')) as [p'|]; [|done]. exists p'. simpl in Hf. unfold pkey in Hf.
  split_and!; congruence.
Qed.

(** The CPU is left without a current process, thread or hand-over; the others keep theirs. *)
Definition off_cpu (cpu : nat) (x x' : SState) : Prop :=
  current_user_pids x' = <[cpu := None]> (current_user_pids x) /\
  current_user_tids x' = <[cpu := None]> (current_user_tids x) /\
  next_user_pids x' = <[cpu := None]> (next_user_pids x) /\ idle_flags x' = idle_flags x.

Lemma off_cpu_cleared (cpu : nat) (s : PState) (x : SState) :
  current_pid cpu s <> 0 -> x = set_current cpu None None (clear_current_user cpu (current_pid cpu s) (ss s)) ->
  off_cpu cpu (ss s) x.
Proof.
  unfold current_pid. destruct (current_user_pid cpu (ss s)) as [i|] eqn:E; [|done]. intros _ ->. simpl.
  unfold clear_current_user. rewrite decide_True by done. unfold set_current, off_cpu. simpl. by rewrite !list_insert_insert_eq.
Qed.

(** What the last thread's exit leaves behind: the calls in their order; exactly the
    other processes, the killable children flagged and nothing else of them changed but
    possibly their memory account; exactly the threads of the others, in place, each
    finished or not as before; nobody who waits for what is gone; and an idle CPU. *)
Definition last_exit_post (cpu : nat) (s : PState) (i t : Z) (p : Process) (r : list Call * PState) : Prop :=
  let '(calls, s') := r in
  calls = exit_calls i (user_cr3 i s) /\ off_cpu cpu (ss s) (ss s') /\
  pview <$> procs s' ≡ₚ (fun q => pview (doomed i q)) <$> retain (fun q => negb (pid q =? i)) (procs s) /\
  okey <$> threads (ts s') = okey <$> retain (fun u => negb (bool_decide (tid u ∈ p_threads p))) (threads (ts s)) /\
  Forall (fun u => waits (WPid i) u = false) (threads (ts s')) /\
  Forall (fun u => waits (WTid t) u = false) (threads (ts s')).

Lemma wake_okeys (P : Thread -> bool) (r : Z) (x : TState) :
  (forall u, P u = true -> terminal (t_state u) = false) -> okey <$> threads (wake_all P r x) = okey <$> threads x.
Proof.
  intros HP. simpl. rewrite <- list_fmap_compose. apply list_fmap_ext. intros k u _. unfold compose. destruct (P u) eqn:E; [|done].
  apply HP in E. unfold okey. rewrite E. unfold wake, restore_ctx_from_blocking_frame. by destruct (_ =? 0).
Qed.
Lemma waits_live (w : WaitTarget) (u : Thread) : waits w u = true -> terminal (t_state u) = false.
Proof. intros ->%waits_sleeping. done. Qed.

(** The state of a thread that is not in the table cannot be set. *)
Lemma set_exited_absent (t : Z) (x : TState) : t ∉ tid <$> threads x -> threads (Thread.set_state t Exited x) = threads x.
Proof.
  intros Hn. unfold Thread.set_state, Thread.modify. simpl. induction (threads x) as [|u l IH]; simpl in *; [done|].
  apply not_elem_of_cons in Hn as [Hu Hl]. replace (tid u =? t) with false by (symmetry; apply Z.eqb_neq; congruence). by rewrite IH.
Qed.

Lemma last_exit (cpu : nat) (s : PState) (p : Process) :
  let i := current_pid cpu s in
  let t := current_tid cpu s in
  NoDup (pid <$> procs s) -> i <> 0 -> find i s = Some p -> t <> 0 -> t ∈ p_threads p -> live_thread_count i s <= 1 ->
  last_exit_post cpu s i t p (exit_current cpu s).
Proof.
  intros i t Hnd Hi Hp Ht Htp Hlive. unfold exit_current. fold i t.
  assert ((i =? 0) = false) as -> by (by apply Z.eqb_neq).
  assert ((1 <? live_thread_count i s) = false) as -> by (apply Z.ltb_ge; lia). cbn [negb andb].
  pose proof (teardown_calls cpu i s) as Htc. cbv zeta in *.
  destruct (call (CFbRelease i) ([], kill_children i s)) as [c1 s1].
  set (st := match user_cr3 i _ with Some _ => _ | None => _ end) in *.
  destruct (call (CFreeImage i) st) as [c3 s3]. destruct Htc as (Hcalls & Hpv & Hok & Hsched). clear st.
  rewrite kill_children_procs, <- list_fmap_compose in Hpv by done.
  assert (pkey <$> procs s3 = pkey <$> procs s) as Hpk.
  { apply (f_equal (fmap pkey)) in Hpv. rewrite <- !list_fmap_compose in Hpv. etransitivity; [exact Hpv|].
    apply list_fmap_ext. intros k q _. unfold compose, doomed. by destruct (_ && _). }
  assert (pid <$> procs s3 = pid <$> procs s) as Hpids.
  { apply (f_equal (fmap (fun k => fst (fst k)))) in Hpk. by rewrite <- !list_fmap_compose in Hpk. }
  destruct (find_pkey i s s3 p Hpk Hp) as (p3 & Hp3 & Hth & _).
  destruct (remove_process_spec i s3 p3) as (Hprocs & Hthreads); [by rewrite Hpids|done|]. rewrite Hth in Hthreads.
  set (s4 := remove_process i s3) in *. set (b := default 0 _). set (x1 := wakeup_pid_waiters i (ts s4)).
  assert (forall b, threads (defer_free_kernel_stack cpu b x1) = threads x1) as Hdf
    by (intros c; unfold defer_free_kernel_stack, free_kernel_stack; by destruct (_ =? 0)).
  assert (okey <$> threads x1 = okey <$> retain (fun u => negb (bool_decide (tid u ∈ p_threads p))) (threads (ts s))) as Hx1.
  { unfold x1, wakeup_pid_waiters. rewrite wake_okeys by apply waits_live. rewrite Hthreads.
    rewrite !(retain_fmap okey _ (fun k => negb (bool_decide (fst (fst (fst (fst (fst (fst k))))) ∈ p_threads p)))) by done. by rewrite Hok. }
  assert (t ∉ tid <$> threads x1) as Hgone.
  { intros Hin. apply (f_equal (fmap (fun k => fst (fst (fst (fst (fst (fst k)))))))) in Hx1. rewrite <- !list_fmap_compose in Hx1.
    change (tid <$> threads x1 = tid <$> retain (fun u => negb (bool_decide (tid u ∈ p_threads p))) (threads (ts s))) in Hx1.
    rewrite Hx1 in Hin. apply list_elem_of_fmap in Hin as (u & -> & [Hu _]%elem_of_retain). by rewrite bool_decide_true in Hu. }
  apply Z.eqb_neq in Ht as ->. unfold last_exit_post. cbn -[wakeup_thread_waiters Thread.set_state]. fold x1.
  assert (threads (Thread.set_state t Exited (defer_free_kernel_stack cpu b x1)) = threads x1) as Hss by (rewrite set_exited_absent; by rewrite Hdf).
  split; [done|split; [|split; [|split; [|split; [|apply wake_all_none]]]]].
  - apply (off_cpu_cleared cpu s); [done|]. unfold s4, remove_process. destruct (position _ _); simpl; by rewrite Hsched.
  - rewrite Hprocs. rewrite (retain_fmap pview _ (fun q => negb (pid q =? i))) by done. rewrite Hpv.
    rewrite <- (retain_fmap (compose pview (doomed i)) (fun q => negb (pid q =? i))); [done|].
    intros q. unfold compose, doomed. by destruct (_ && _).
  - unfold wakeup_thread_waiters. rewrite wake_okeys by apply waits_live. by rewrite Hss.
  - apply wake_all_keeps. rewrite Hss. apply wake_all_none.
Qed.

(** C8: when the last live thread of a process exits, the subsystems are torn down in the
    fixed order (framebuffer, descriptors, interrupts, DMA, MMIO, heap, shared memory,
    address space, image); the process and its threads are gone; of the other processes
    exactly the killable children are flagged to die and nothing else is changed but the
    memory accounts; the threads of the others are all still there, unfinished if they
    were, and none is left waiting for the exited process or thread. *)
Theorem exit_current_last (cpu : nat) (s : PState) (p : Process) :
  let i := current_pid cpu s in
  let t := current_tid cpu s in
  NoDup (pid <$> procs s) -> i <> 0 -> find i s = Some p -> t <> 0 -> t ∈ p_threads p -> live_thread_count i s <= 1 ->
  last_exit_post cpu s i t p (exit_current cpu s).
Proof. apply last_exit. Qed.
End Exit.

(** ** Exit of a thread that is not the last *)

Lemma exit_thread_tids (cpu : nat) (s : PState) :
  let t := current_tid cpu s in
  t <> 0 ->
  (forall u, u ∈ threads (ts (exit_current_thread cpu s)) -> tid u <> t) /\
  (forall u, u ∈ threads (ts s) -> tid u <> t ->
     exists u', u' ∈ threads (ts (exit_current_thread cpu s)) /\ tkey u' = tkey u) /\
  Forall (fun u => waits (WTid t) u = false) (threads (ts (exit_current_thread cpu s))).
Proof.
  intros t Ht. unfold exit_current_thread. fold t.
  assert ((t =? 0) = false) as -> by (by apply Z.eqb_neq). cbn -[wakeup_thread_waiters].
  set (x1 := wakeup_thread_waiters t _). set (b := default 0 _).
  assert (threads (defer_free_kernel_stack cpu b (remove_thread t x1)) = threads (remove_thread t x1)) as ->.
  { unfold defer_free_kernel_stack, free_kernel_stack. by destruct (_ =? 0). }
  cbn. split_and!.
  - intros u [Hn _]%elem_of_retain. zbool. done.
  - intros u Hu Hne.
    set (x0 := Thread.modify t (with_state Exited) (ts s)) in *.
    assert (tkey u ∈ tkey <$> threads x0) as (v & Hk & Hv)%list_elem_of_fmap.
    { unfold x0. simpl. rewrite (update_first_map tkey) by done. by apply list_elem_of_fmap_2. }
    exists (if waits (WTid t) v then wake (kmem x0) 0 v else v).
    assert (tkey (if waits (WTid t) v then wake (kmem x0) 0 v else v) = tkey v) as Hkv.
    { destruct (waits _ v); [|done]. unfold wake, restore_ctx_from_blocking_frame. by destruct (_ =? 0). }
    split; [|congruence]. apply elem_of_retain. split.
    + apply negb_true_iff, Z.eqb_neq. unfold tkey in *. congruence.
    + unfold x1. apply list_elem_of_fmap. eauto.
  - apply Forall_forall. intros u [_ Hu]%elem_of_retain.
    pose proof (wake_all_none (WTid t) 0 (Thread.modify t (with_state Exited) (ts s))) as Hall.
    rewrite Forall_forall in Hall. by apply Hall.
Qed.

Lemma proc_find_modify (i : Z) (f : Process -> Process) (s : PState) (p : Process) :
  (forall p, pid (f p) = pid p) -> find i s = Some p -> find i (modify i f s) = Some (f p).
Proof.
  intros Hf Hp. unfold find, modify in *. simpl.
  rewrite find_first_update_first_eq, Hp; [done|]. intros q. unfold is_pid. by rewrite Hf.
Qed.

Lemma exit_thread_procs (cpu : nat) (s : PState) :
  procs (exit_current_thread cpu s) =
  procs (remove_thread_from_process (current_pid cpu s) (current_tid cpu s) s).
Proof. unfold exit_current_thread. by destruct (_ =? 0). Qed.

Lemma exit_thread_find (cpu : nat) (s : PState) (p : Process) :
  let i := current_pid cpu s in
  let t := current_tid cpu s in
  find i s = Some p ->
  find i (exit_current_thread cpu (set_kill_pending i s)) =
  Some (with_threads (retain (fun x => negb (x =? t)) (p_threads p)) (with_kill p)).
Proof.
  intros i t Hp. unfold find. rewrite exit_thread_procs.
  change (current_pid cpu (set_kill_pending i s)) with i. change (current_tid cpu (set_kill_pending i s)) with t.
  change (find_first (is_pid i) (procs (remove_thread_from_process i t (set_kill_pending i s))))
    with (find i (modify i (fun p => with_threads (retain (fun x => negb (x =? t)) (p_threads p)) p)
                    (modify i with_kill s))).
  rewrite (proc_find_modify i _ _ (with_kill p)); [done|done|]. by apply proc_find_modify.
Qed.

(** What the exit of a thread with live siblings leaves behind: no teardown call; of the
    processes only its own changed, by the thread struck off and the kill flag; of the
    threads exactly it is gone; nobody waits for it; an idle CPU. *)
Definition sibling_exit_post (cpu : nat) (s : PState) (i t : Z) (r : list Call * PState) : Prop :=
  let '(calls, s') := r in
  calls = [] /\ off_cpu cpu (ss s) (ss s') /\
  procs s' = (fun q => if pid q =? i then with_threads (retain (fun x => negb (x =? t)) (p_threads q)) (with_kill q) else q) <$> procs s /\
  okey <$> threads (ts s') = okey <$> retain (fun u => negb (tid u =? t)) (threads (ts s)) /\
  Forall (fun u => waits (WTid t) u = false) (threads (ts s')).

Lemma retain_update_first {A : Type} (P : A -> bool) (f : A -> A) (l : list A) :
  (forall x, P (f x) = P x) -> retain (fun x => negb (P x)) (update_first P f l) = retain (fun x => negb (P x)) l.
Proof.
  intros Hf. induction l as [|x l IH]; simpl; [done|]. destruct (P x) eqn:E; simpl; rewrite ?Hf, ?E; simpl; [done|by rewrite IH].
Qed.

Lemma exit_thread_okeys (cpu : nat) (s : PState) :
  let t := current_tid cpu s in
  t <> 0 -> okey <$> threads (ts (exit_current_thread cpu s)) = okey <$> retain (fun u => negb (tid u =? t)) (threads (ts s)).
Proof.
  intros t Ht. unfold exit_current_thread. fold t. apply Z.eqb_neq in Ht as ->. cbn -[wakeup_thread_waiters].
  assert (forall b x, threads (defer_free_kernel_stack cpu b x) = threads x) as ->
    by (intros; unfold defer_free_kernel_stack, free_kernel_stack; by destruct (_ =? 0)).
  cbn -[wakeup_thread_waiters]. pose proof (fun u => retain_fmap okey (fun u => negb (tid u =? t)) (fun k => negb (fst (fst (fst (fst (fst (fst k))))) =? t)) u ltac:(done)) as Hr.
  rewrite Hr. unfold wakeup_thread_waiters. rewrite wake_okeys by apply waits_live. rewrite <- Hr. f_equal.
  by apply (retain_update_first (fun u => tid u =? t)).
Qed.

Section NotLast.
Context `{TeardownEffects}.

Lemma sibling_exit (cpu : nat) (s : PState) :
  let i := current_pid cpu s in
  let t := current_tid cpu s in
  NoDup (pid <$> procs s) -> i <> 0 -> t <> 0 -> 1 < live_thread_count i s ->
  sibling_exit_post cpu s i t (exit_current cpu s).
Proof.
  intros i t Hnd Hi Ht Hlive. unfold exit_current. fold i.
  assert ((i =? 0) = false) as -> by (by apply Z.eqb_neq).
  assert ((1 <? live_thread_count i s) = true) as -> by (by apply Z.ltb_lt). cbn [negb andb].
  split; [done|]. split; [|split; [|split]].
  - apply (off_cpu_cleared cpu s); [done|]. unfold exit_current_thread. by destruct (_ =? 0).
  - rewrite exit_thread_procs. change (current_pid cpu (set_kill_pending i s)) with i.
    change (current_tid cpu (set_kill_pending i s)) with t. cbn -[update_first with_kill with_threads]. rewrite !update_first_unique; [|done|].
    + rewrite <- list_fmap_compose. apply list_fmap_ext. intros k q _. unfold compose. destruct (pid q =? i) eqn:E; simpl; by rewrite E.
    + rewrite update_first_unique, <- list_fmap_compose by done. erewrite list_fmap_ext; [exact Hnd|]. intros k q _. unfold compose. by destruct (pid q =? i).
  - exact (exit_thread_okeys cpu (set_kill_pending i s) Ht).
  - by destruct (exit_thread_tids cpu (set_kill_pending i s) Ht) as (_ & _ & H3).
Qed.

(** A thread that exits while siblings are alive takes nothing with it: no teardown
    call is made (so the shared address space and descriptors stay), only its own entry
    disappears from the thread table and from the process, the process is flagged to die,
    and every joiner of the thread is woken. *)
Theorem exit_current_not_last (cpu : nat) (s : PState) (p : Process) :
  let i := current_pid cpu s in
  let t := current_tid cpu s in
  i <> 0 -> t <> 0 -> find i s = Some p -> 1 < live_thread_count i s ->
  let '(calls, s') := exit_current cpu s in
  calls = [] /\
  (exists p', find i s' = Some p' /\ kill_pending p' = true /\ p_main p' = p_main p /\
              p_threads p' = retain (fun x => negb (x =? t)) (p_threads p)) /\
  (forall u, u ∈ threads (ts s') -> tid u <> t) /\
  (forall u, u ∈ threads (ts s) -> tid u <> t -> exists u', u' ∈ threads (ts s') /\ tkey u' = tkey u) /\
  Forall (fun u => waits (WTid t) u = false) (threads (ts s')).
Proof.
  intros i t Hi Ht Hp Hlive. unfold exit_current. fold i.
  assert ((i =? 0) = false) as -> by (by apply Z.eqb_neq).
  assert ((1 <? live_thread_count i s) = true) as -> by (by apply Z.ltb_lt). cbn [negb andb].
  destruct (exit_thread_tids cpu (set_kill_pending i s) Ht) as (H1 & H2 & H3).
  split_and!; [done| |exact H1|exact H2|exact H3].
  eexists. split; [by apply exit_thread_find|done].
Qed.
End NotLast.

Section Leak.
Context `{TL : TeardownLaws}.

(** Either way the exiting thread ends: the two outcomes of [exit_current] in one. *)
Definition exit_post (cpu : nat) (s : PState) (i t : Z) (p : Process) (r : list Call * PState) : Prop :=
  if 1 <? live_thread_count i s then sibling_exit_post cpu s i t r else last_exit_post cpu s i t p r.

Lemma exit_ends (cpu : nat) (s : PState) (p : Process) :
  let i := current_pid cpu s in
  let t := current_tid cpu s in
  NoDup (pid <$> procs s) -> i <> 0 -> find i s = Some p -> t <> 0 -> t ∈ p_threads p ->
  exit_post cpu s i t p (exit_current cpu s).
Proof.
  intros i t Hnd Hi Hp Ht Htp. unfold exit_post. destruct (1 <? live_thread_count i s) eqn:E; zbool.
  - by apply sibling_exit.
  - apply last_exit; try done; lia.
Qed.

Lemma exit_post_gone (cpu : nat) (s x : PState) (i t : Z) (p : Process) (calls : list Call) :
  t ∈ p_threads p -> exit_post cpu s i t p (calls, x) -> t ∉ tid <$> threads (ts x).
Proof.
  intros Htp Hpost. assert (exists P, (forall u, P u = true -> tid u <> t) /\ okey <$> threads (ts x) = okey <$> retain P (threads (ts s))) as (P & HP & Hx).
  { unfold exit_post in Hpost. destruct (1 <? live_thread_count i s).
    - destruct Hpost as (_ & _ & _ & Hx & _). eexists. split; [|exact Hx]. intros u Hu. by apply negb_true_iff, Z.eqb_neq in Hu.
    - destruct Hpost as (_ & _ & _ & Hx & _). eexists. split; [|exact Hx]. intros u Hu Hut. cbv beta in Hu. by rewrite Hut, bool_decide_true in Hu. }
  apply (f_equal (fmap (fun k => fst (fst (fst (fst (fst (fst k)))))))) in Hx. rewrite <- !list_fmap_compose in Hx.
  change (tid <$> threads (ts x) = tid <$> retain P (threads (ts s))) in Hx. rewrite Hx.
  intros (u & -> & [Hu _]%elem_of_retain)%list_elem_of_fmap. by apply (HP u).
Qed.

(** A process whose main thread exits before its workers never gives its address
    space back.  After the main thread's exit the process no longer has a page-table root
    on record, so when a worker exits last, the teardown skips shared memory and the
    address space and frees the heap without one. *)
Theorem main_exit_first_leaks (cpu cpu2 : nat) (s : PState) (p : Process) :
  let i := current_pid cpu s in
  let t := current_tid cpu s in
  let s1 := snd (exit_current cpu s) in
  i <> 0 -> t <> 0 -> find i s = Some p -> p_main p = Some t -> 1 < live_thread_count i s ->
  current_pid cpu2 s1 = i -> live_thread_count i s1 <= 1 ->
  user_cr3 i s1 = None /\ fst (exit_current cpu2 s1) = exit_calls i None /\
  forall c, CFreeUserSpace c ∉ fst (exit_current cpu2 s1).
Proof.
  intros i t s1 Hi Ht Hp Hmain Hlive Hcur Hlast.
  assert (user_cr3 i s1 = None) as Hnone.
  { unfold s1, exit_current. fold i.
    assert ((i =? 0) = false) as -> by (by apply Z.eqb_neq).
    assert ((1 <? live_thread_count i s) = true) as -> by (by apply Z.ltb_lt). cbn [negb andb snd].
    destruct (exit_thread_tids cpu (set_kill_pending i s) Ht) as (H1 & _ & _).
    unfold user_cr3, main_tid. pose proof (exit_thread_find cpu s p Hp) as Hf.
    cbv zeta in Hf. fold i t in Hf. rewrite Hf. simpl. rewrite Hmain. simpl.
    unfold Thread.user_cr3, Thread.user_context.
    destruct (Thread.find t (ts (exit_current_thread cpu (set_kill_pending i s)))) as [u|] eqn:E; [|done].
    apply Thread.find_Some in E as [Hu Htid]. by destruct (H1 u Hu). }
  assert (fst (exit_current cpu2 s1) = exit_calls i None) as Hcalls.
  { unfold exit_current. rewrite Hcur.
    assert ((i =? 0) = false) as -> by (by apply Z.eqb_neq).
    assert ((1 <? live_thread_count i s1) = false) as -> by (apply Z.ltb_ge; lia). cbn [negb andb].
    pose proof (teardown_calls cpu2 i s1) as Htc. cbv zeta in *. rewrite Hnone in Htc.
    destruct (call (CFbRelease i) ([], kill_children i s1)) as [c1 s2].
    set (st := match user_cr3 i _ with Some _ => _ | None => _ end) in *.
    destruct (call (CFreeImage i) st) as [c3 s3]. destruct Htc as [-> _].
    by destruct (current_tid cpu2 s1 =? 0). }
  split_and!; [done..|]. intros c. rewrite Hcalls. unfold exit_calls. simpl.
  rewrite !not_elem_of_cons. split_and!; try done. apply not_elem_of_nil.
Qed.
End Leak.

(** * Killing and victims *)

Definition kill_pid_post (i : Z) (s s' : PState) : Prop :=
  match find i s with
  | Some p =>
      if (i =? 0) || (level (p_privilege p) <=? level Driver) then s' = s
      else find i s' = Some (with_kill p) /\
           (forall j, j <> i -> find j s' = find j s) /\
           forall t u, p_main p = Some t -> Thread.find t (ts s) = Some u ->
             exists u', Thread.find t (ts s') = Some u' /\
               t_state u' = if terminal (t_state u) then t_state u else Ready
  | None => s' = s
  end.

(** [kill_pid] never touches the kernel, a driver or a system process, and never
    frees anything: for a user process it sets the kill flag, makes the main thread
    runnable unless it has already finished, and leaves every other process as it was. *)
Theorem kill_pid_spec (i : Z) (s : PState) : kill_pid_post i s (kill_pid i s).
Proof.
  unfold kill_pid_post, kill_pid. destruct (find i s) as [p|] eqn:Hp; [|by destruct (i =? 0)].
  destruct (i =? 0); simpl; [done|]. destruct (_ <=? _); [done|].
  assert (find i (modify i with_kill s) = Some (with_kill p)) as Hk by (by apply proc_find_modify).
  assert (procs (on_main i Thread.set_ready (modify i with_kill s)) = procs (modify i with_kill s)) as Hpr.
  { unfold on_main. by destruct (main_tid _ _). }
  split_and!.
  - unfold find. rewrite Hpr. exact Hk.
  - intros j Hj. unfold find. rewrite Hpr. simpl. apply find_first_update_first_ne.
    intros q. unfold is_pid. simpl. rewrite !Z.eqb_eq, !Z.eqb_neq. lia.
  - intros t u Hm Hu. unfold on_main, main_tid. rewrite Hk. simpl. rewrite Hm. simpl.
    unfold Thread.set_ready. rewrite Thread.find_modify by (intros v; by destruct (t_state v)).
    rewrite Z.eqb_refl, Hu. simpl. eexists. split; [done|]. by destruct (t_state u) eqn:E; simpl; rewrite ?E.
Qed.

Lemma oom_loop_spec (exclude : Z) (l : list Process) (best : option (Z * Z)) :
  match oom_loop exclude l best with
  | None => best = None /\ forall p, p ∈ l -> killable exclude p = false
  | Some (v, m) =>
      (best = Some (v, m) \/ exists p, p ∈ l /\ killable exclude p = true /\ pid p = v /\ p_memory p = m) /\
      (forall v' m', best = Some (v', m') -> m' <= m) /\
      forall p, p ∈ l -> killable exclude p = true -> p_memory p <= m
  end.
Proof.
  revert best. induction l as [|p l IH]; intros best; simpl.
  { destruct best as [[v m]|]; [|split; [done|by intros p ?%elem_of_nil]].
    split_and!; [by left|intros v' m' [= <- <-]; lia|by intros p ?%elem_of_nil]. }
  destruct (killable exclude p) eqn:Ek; simpl.
  - set (better := match best with None => true | Some (_, bm) => bm <? p_memory p end).
    specialize (IH (if better then Some (pid p, p_memory p) else best)).
    destruct (oom_loop exclude l _) as [[v m]|].
    + destruct IH as (H1 & H2 & H3).
      assert (p_memory p <= m /\ forall v' m', best = Some (v', m') -> m' <= m) as [Hpm Hbm].
      { destruct best as [[bv bm]|]; simpl in better; [destruct better eqn:Eb; unfold better in Eb; zbool|].
        - specialize (H2 _ _ eq_refl). split; [done|]. intros v' m' [= <- <-]. lia.
        - specialize (H2 _ _ eq_refl). split; [lia|]. intros v' m' [= <- <-]. done.
        - specialize (H2 _ _ eq_refl). split; [done|]. intros v' m' [=]. }
      split_and!; [|done|].
      * destruct H1 as [H1|(q & ? & ? & ? & ?)]; [|right; exists q; set_solver].
        destruct better; [right; exists p; simplify_eq; set_solver|by left].
      * intros q [->|Hq]%elem_of_cons; auto.
    + destruct IH as [H1 _]. destruct best as [[bv bm]|]; simpl in better; [|done].
      by destruct better.
  - specialize (IH best). destruct (oom_loop exclude l best) as [[v m]|].
    + destruct IH as (H1 & H2 & H3). split_and!; [|done|].
      * destruct H1 as [?|(q & ? & ? & ? & ?)]; [by left|right; exists q; set_solver].
      * intros q [->|Hq]%elem_of_cons; [congruence|auto].
    + destruct IH as [H1 H2]. split; [done|]. intros q [->|Hq]%elem_of_cons; auto.
Qed.

(** The out-of-memory victim is a live user process other than the kernel, the
    drivers and the requester, and no killable process uses more memory than it; there is
    no victim exactly when there is no such process. *)
Theorem oom_victim_spec (exclude : Z) (s : PState) :
  match oom_victim exclude s with
  | Some v => exists p, p ∈ procs s /\ pid p = v /\ killable exclude p = true /\
                forall q, q ∈ procs s -> killable exclude q = true -> p_memory q <= p_memory p
  | None => forall p, p ∈ procs s -> killable exclude p = false
  end.
Proof.
  unfold oom_victim. pose proof (oom_loop_spec exclude (procs s) None) as Hl.
  destruct (oom_loop exclude (procs s) None) as [[v m]|]; simpl; [|tauto].
  destruct Hl as ([|(p & ? & ? & ? & <-)] & _ & Hmax); [done|]. exists p. auto.
Qed.

(** ** Witnesses: a two-thread process *)

Module Example.
(** Subsystems with nothing to release. *)
#[local] Instance idle_effects : TeardownEffects := {| effect _ s := s |}.
#[local] Instance idle_laws : TeardownLaws.
Proof. constructor. intros c s. by split. Qed.

Definition ctx : UserContext := entry_context 4198400 8192 77824 0 0.
Definition thr (id : Z) (cpu : Z) : Thread := mkThread id 5 Running 0 ctx 0 0 false 0 0 WNone User cpu.
Definition proc : Process :=
  mkProc 5 Running (fixed_name [97]) 0 0 0 0 0 false false false false false false 0 0 0 User (Some 1) [1; 2].
(** Thread 1 (main) runs on CPU 0, thread 2 on CPU 1; thread 3 of process 6 waits for 5. *)
Definition waiter : Thread := mkThread 3 6 Sleeping 0 ctx 0 0 false 4096 0 (WPid 5) User 0.
Definition proc6 : Process :=
  mkProc 6 Running (fixed_name [98]) 0 0 0 0 0 false false false false false false 0 0 0 User (Some 3) [3].
Definition sched : SState :=
  mkSState (Some 5 :: Some 5 :: replicate 14 None) (Some 1 :: Some 2 :: replicate 14 None)
           (replicate 16 None) (replicate 16 false).
Definition st : PState :=
  mkPState (mkTState [thr 1 0; thr 2 1; waiter] 4 true 0 (replicate 16 0) ∅ Allocator.ALLOCATOR)
           sched [kernel_process; proc; proc6] 7 true.
(** The same after thread 2 has exited. *)
Definition st1 : PState :=
  mkPState (mkTState [thr 1 0; waiter] 4 true 0 (replicate 16 0) ∅ Allocator.ALLOCATOR)
           sched [kernel_process; with_threads [1] proc; proc6] 7 true.

Lemma exit_current_not_last_witness :
  let '(calls, s') := exit_current 1 st in
  calls = [] /\
  (exists p', find 5 s' = Some p' /\ kill_pending p' = true /\ p_main p' = Some 1 /\
              p_threads p' = retain (fun x => negb (x =? 2)) [1; 2]) /\
  (forall u, u ∈ threads (ts s') -> tid u <> 2) /\
  (forall u, u ∈ threads (ts st) -> tid u <> 2 -> exists u', u' ∈ threads (ts s') /\ tkey u' = tkey u) /\
  Forall (fun u => waits (WTid 2) u = false) (threads (ts s')).
Proof. apply (exit_current_not_last 1 st proc); done. Defined.

Lemma exit_current_last_witness : last_exit_post 0 st1 5 1 (with_threads [1] proc) (exit_current 0 st1).
Proof.
  apply (exit_current_last 0 st1 (with_threads [1] proc)); [repeat constructor; set_solver|done..|by left|done].
Defined.

Lemma main_exit_first_leaks_witness :
  let s1 := snd (exit_current 0 st) in
  user_cr3 5 s1 = None /\ fst (exit_current 1 s1) = exit_calls 5 None /\
  forall c, CFreeUserSpace c ∉ fst (exit_current 1 s1).
Proof. apply (main_exit_first_leaks 0 1 st proc); done. Defined.
End Example.

End Process.
