(* ===== verification/Dispatch.v ===== *)
(** CPU dispatch: [scheduler::enter_next_process] and the timer interrupt
    ([timer_handler_inner] in [crates/kernel/src/handlers/interrupts.rs]).

    The state adds, per CPU, the page-table root in CR3, the TSS kernel stack
    and the kernel return stack, and the tick counters.  [enter_next_process]
    is one pass of its wait loop: [None] is the [hlt] of an idle CPU.  Leaving
    by [iretq] is a value of [Launch].  [temp_top] gives each CPU's temporary
    stack, [idle] the address of [idle_loop]; keyboard polling, which the
    handler may run first, is the argument [poll]. *)
From stdpp Require Import base list numbers option gmap.
From S2P Require Import Prelude Allocator Thread Scheduler Process.

Open Scope Z_scope.

Module Dispatch.
Import Thread Scheduler Process.

Record DState := mkDState {
  ps : PState;
  active_cr3 : list Z;
  tss_rsp0 : list Z;
  return_stack : list Z;
  kernel_cr3 : Z;
  last_tsc : list Z;
  timer_ticks : Z;
  kernel_ticks : Z;
  idle_ticks : Z;
  user_ticks : Z;
  kernel_ticks_cpu : list Z;
  idle_ticks_cpu : list Z;
  user_ticks_cpu : list Z;
  keyboard_polling : bool;
  exiting_pid_tmps : list Z;
  teardowns : list Call
}.

Definition on_ps (f : PState -> PState) (d : DState) : DState :=
  mkDState (f (ps d)) (active_cr3 d) (tss_rsp0 d) (return_stack d) (kernel_cr3 d) (last_tsc d) (timer_ticks d)
    (kernel_ticks d) (idle_ticks d) (user_ticks d) (kernel_ticks_cpu d) (idle_ticks_cpu d) (user_ticks_cpu d)
    (keyboard_polling d) (exiting_pid_tmps d) (teardowns d).
Definition set_cr3 (cpu : nat) (c : Z) (d : DState) : DState :=
  mkDState (ps d) (<[cpu := c]> (active_cr3 d)) (tss_rsp0 d) (return_stack d) (kernel_cr3 d) (last_tsc d) (timer_ticks d)
    (kernel_ticks d) (idle_ticks d) (user_ticks d) (kernel_ticks_cpu d) (idle_ticks_cpu d) (user_ticks_cpu d)
    (keyboard_polling d) (exiting_pid_tmps d) (teardowns d).
Definition set_rsp0 (cpu : nat) (v : Z) (d : DState) : DState :=
  mkDState (ps d) (active_cr3 d) (<[cpu := v]> (tss_rsp0 d)) (return_stack d) (kernel_cr3 d) (last_tsc d) (timer_ticks d)
    (kernel_ticks d) (idle_ticks d) (user_ticks d) (kernel_ticks_cpu d) (idle_ticks_cpu d) (user_ticks_cpu d)
    (keyboard_polling d) (exiting_pid_tmps d) (teardowns d).
Definition set_last_tsc (cpu : nat) (now : Z) (d : DState) : DState :=
  mkDState (ps d) (active_cr3 d) (tss_rsp0 d) (return_stack d) (kernel_cr3 d) (<[cpu := now]> (last_tsc d))
    (wrap64 (timer_ticks d + 1))
    (kernel_ticks d) (idle_ticks d) (user_ticks d) (kernel_ticks_cpu d) (idle_ticks_cpu d) (user_ticks_cpu d)
    (keyboard_polling d) (exiting_pid_tmps d) (teardowns d).

(** [if let Some(v) = arr.get_mut(cpu) { *v = v.saturating_add(delta) }]. *)
Definition bump (cpu : nat) (delta : Z) (l : list Z) : list Z := alter (fun v => saturating_add v delta) cpu l.

Inductive Meter := MUser | MIdle | MKernel.
Definition charge (m : Meter) (cpu : nat) (delta : Z) (d : DState) : DState :=
  mkDState (ps d) (active_cr3 d) (tss_rsp0 d) (return_stack d) (kernel_cr3 d) (last_tsc d) (timer_ticks d)
    (match m with MKernel => saturating_add (kernel_ticks d) delta | _ => kernel_ticks d end)
    (match m with MIdle => saturating_add (idle_ticks d) delta | _ => idle_ticks d end)
    (match m with MUser => saturating_add (user_ticks d) delta | _ => user_ticks d end)
    (match m with MKernel => bump cpu delta (kernel_ticks_cpu d) | _ => kernel_ticks_cpu d end)
    (match m with MIdle => bump cpu delta (idle_ticks_cpu d) | _ => idle_ticks_cpu d end)
    (match m with MUser => bump cpu delta (user_ticks_cpu d) | _ => user_ticks_cpu d end)
    (keyboard_polling d) (exiting_pid_tmps d) (teardowns d).
Definition note_exit (cpu : nat) (i : Z) (calls : list Call) (p : PState) (d : DState) : DState :=
  mkDState p (active_cr3 d) (tss_rsp0 d) (return_stack d) (kernel_cr3 d) (last_tsc d) (timer_ticks d)
    (kernel_ticks d) (idle_ticks d) (user_ticks d) (kernel_ticks_cpu d) (idle_ticks_cpu d) (user_ticks_cpu d)
    (keyboard_polling d) (<[cpu := i]> (exiting_pid_tmps d)) (teardowns d ++ calls).

Definition cr3_of (cpu : nat) (d : DState) : Z := default 0 (active_cr3 d !! cpu).
Definition tst (d : DState) : TState := ts (ps d).

Definition set_current_tid (cpu : nat) (id : option Z) : DState -> DState :=
  on_ps (fun p => set_ss (set_current_user_tid cpu id (ts p) (ss p)) p).
Definition on_threads (f : TState -> TState) : DState -> DState := on_ps (on_ts f).

(** How a CPU leaves the kernel. *)
Inductive Launch :=
  | LBlocked (id rsp retval : Z)     (* pop the blocked syscall frame, rax = retval *)
  | LPreempted (id rsp : Z)          (* pop the interrupted kernel frame *)
  | LUser (id frame : Z)             (* pop the launch frame *)
  | LKernel (id rsp : Z)             (* first entry of a kernel thread *)
  | LBug (id : Z)                    (* assigned to another CPU: halt *)
  | LHalt.

(** [ctx.cr3 != 0] then [switch_cr3]. *)
Definition load_cr3 (cpu : nat) (id : Z) (d : DState) : DState :=
  match Thread.user_context id (tst d) with
  | Some c => if cr3 c =? 0 then d else set_cr3 cpu (cr3 c) d
  | None => d
  end.
Definition load_rsp0 (cpu : nat) (id : Z) (d : DState) : DState :=
  match Thread.kernel_stack_top id (tst d) with Some top => set_rsp0 cpu top d | None => d end.
Definition start (cpu : nat) (i : Z) : DState -> DState := on_ps (Process.set_running cpu i).

(** Write a frame for [c] on this CPU's temporary stack. *)
Definition put_frame (top : Z) (c : UserContext)
    (setup : Z -> UserContext -> gmap Z Z -> Z * gmap Z Z) (d : DState) : Z * DState :=
  let '(p, m) := setup top c (kmem (tst d)) in (p, on_threads (set_kmem m) d).

Definition resume_preempted (cpu : nat) (id : Z) (d : DState) : DState :=
  match Thread.user_context id (tst d) with
  | Some _ => set_current_tid cpu (Some id) (load_cr3 cpu id d)
  | None => set_current_tid cpu None d
  end.

Definition enter_next_process (temp_top : nat -> Z) (cpu : nat) (d : DState) : option Launch * DState :=
  let id := schedule_next (Z.of_nat cpu) 0 (tst d) in
  if id =? 0 then
    (None, set_current_tid cpu None
             (on_ps (clear_current_pid cpu) (on_ps (fun p => set_ss (set_idle cpu true (ss p)) p) d)))
  else if negb (default true ((fun c => c =? Z.of_nat cpu) <$> assigned_cpu id (tst d)))
  then (Some (LBug id), d)
  else
    let i := default 0 (thread_pid id (tst d)) in
    match take_blocking_rsp id (tst d) with
    | (Some rsp, t1) =>
        let d := on_threads (fun _ => t1) d in
        let '(retval, t2) := take_blocking_retval id (tst d) in
        let d := on_threads (fun _ => t2) d in
        let d := set_current_tid cpu (Some id) (load_cr3 cpu id d) in
        (Some (LBlocked id rsp retval), start cpu i (load_rsp0 cpu id d))
    | (None, _) =>
        match (if is_kernel_preempted id (tst d) then Thread.kernel_rsp id (tst d) else None) with
        | Some rsp =>
            (Some (LPreempted id rsp), start cpu i (load_rsp0 cpu id (resume_preempted cpu id d)))
        | None =>
            match Thread.user_context id (tst d) with
            | Some c =>
                let d := set_current_tid cpu (Some id) (load_cr3 cpu id d) in
                let d := start cpu i (load_rsp0 cpu id d) in
                let '(p, d) := put_frame (temp_top cpu) c setup_user_frame_on_temp_stack d in
                (Some (LUser id p), d)
            | None =>
                match Thread.kernel_rsp id (tst d) with
                | Some rsp => (Some (LKernel id rsp), start cpu i (set_current_tid cpu None d))
                | None => (Some LHalt, d)
                end
            end
        end
    end.

(** ** The timer interrupt *)

Definition restore_entry_cr3 (cpu : nat) (entry : Z) (d : DState) : DState :=
  if cr3_of cpu d =? entry then d else set_cr3 cpu entry d.

(** Time accounting for the interval since this CPU's last tick. *)
Definition account (cpu : nat) (delta : Z) (d : DState) : DState :=
  if delta =? 0 then d else
  match current_user_pid cpu (ss (ps d)) with
  | Some _ =>
      let d := match current_user_tid cpu (ss (ps d)) with
               | Some t => on_threads (Thread.add_cpu_ticks t delta) d
               | None => d
               end in
      charge MUser cpu delta d
  | None =>
      if is_idle cpu (ss (ps d)) then charge MIdle cpu delta d
      else charge MKernel cpu delta (on_ps (Process.add_cpu_ticks 0 delta) d)
  end.

(** Reap the interrupted ring-3 thread if its process is flagged to die. *)
Definition reap `{TeardownEffects} (cpu : nat) (user : bool) (cur : Z) (d : DState) : bool * DState :=
  match current_user_pid cpu (ss (ps d)) with
  | Some i =>
      if user && negb (cur =? 0) && negb (i =? 0) && is_kill_pending i (ps d)
      then let '(calls, p) := exit_current cpu (ps d) in
           (true, set_cr3 cpu (kernel_cr3 d) (note_exit cpu i calls p d))
      else (false, d)
  | None => (false, d)
  end.

(** Save the interrupted thread and make it runnable again. *)
Definition preempt (user : bool) (cur saved_rsp : Z) (d : DState) : DState :=
  if cur =? 0 then d else
  let d := if user
           then on_threads (fun x => Thread.set_kernel_preempted cur false (save_user_context cur saved_rsp x)) d
           else on_threads (fun x => Thread.set_kernel_preempted cur true (save_kernel_context cur saved_rsp x)) d in
  on_threads (Thread.set_ready cur) d.

(** The switch to [next]; the result is the handler's return value (0 keeps the stack). *)
Definition switch_to (temp_top : nat -> Z) (cpu : nat) (user : bool) (saved_rsp next : Z) (d : DState)
  : Z * DState :=
  let i := default 0 (thread_pid next (tst d)) in
  match (if is_kernel_preempted next (tst d) then Thread.kernel_rsp next (tst d) else None) with
  | Some rsp => (rsp, start cpu i (load_rsp0 cpu next (resume_preempted cpu next d)))
  | None =>
      let d := on_threads (fun x => (apply_blocking_return_if_pending next x).2) d in
      match Thread.user_context next (tst d) with
      | Some c =>
          let d := set_current_tid cpu (Some next) d in
          let d := start cpu i (load_rsp0 cpu next d) in
          let d := if cr3 c =? 0 then d else set_cr3 cpu (cr3 c) d in
          if user
          then (0, on_threads (fun x => set_kmem (restore_user_frame saved_rsp c (kmem x)) x) d)
          else put_frame (temp_top cpu) c setup_user_frame_for_timer_on_temp_stack d
      | None =>
          match Thread.kernel_rsp next (tst d) with
          | Some rsp => (rsp, start cpu i (set_current_tid cpu None d))
          | None => (0, d)
          end
      end
  end.

(** [ring3] is [cs_ring == 3]; otherwise ring 0 was interrupted. *)
Definition timer_handler `{TeardownEffects} (temp_top : nat -> Z) (idle : Z) (poll : PState -> PState)
    (cpu : nat) (now saved_rsp : Z) (ring3 : bool) (d : DState) : Z * DState :=
  let entry := cr3_of cpu d in
  let last := default 0 (last_tsc d !! cpu) in
  let delta := if last =? 0 then 0 else saturating_sub now last in
  let d := account cpu delta (set_last_tsc cpu now d) in
  let d := if keyboard_polling d then on_ps poll d else d in
  let d := on_threads (fun x => wake_tick_sleepers (wake_timer_sleepers now x)) d in
  let cur := Process.current_tid cpu (ps d) in
  let '(reaped, d) := reap cpu ring3 cur d in
  let entry := if reaped then kernel_cr3 d else entry in
  let d := if reaped then d else preempt ring3 cur saved_rsp d in
  let next := schedule_next (Z.of_nat cpu) cur (tst d) in
  if next =? 0 then
    let d := restore_entry_cr3 cpu entry (set_current_tid cpu None d) in
    if reaped then
      let d := on_ps (fun p => set_ss (set_idle cpu true (ss p)) p) (on_ps (clear_current_pid cpu) d) in
      let '(p, m) := setup_idle_frame_on_temp_stack (temp_top cpu) idle (default 0 (return_stack d !! cpu)) (kmem (tst d)) in
      (p, on_threads (set_kmem m) d)
    else (0, d)
  else
    let d := on_ps (fun p => set_ss (set_idle cpu false (ss p)) p) d in
    if negb ring3 && (next =? cur) then (0, restore_entry_cr3 cpu entry d)
    else if negb ring3 && bool_decide (is_Some (Thread.user_context next (tst d))) && (default 0 (return_stack d !! cpu) =? 0)
    then (0, restore_entry_cr3 cpu entry d)
    else switch_to temp_top cpu ring3 saved_rsp next d.

(** * Launching *)

Definition launch_id (l : Launch) : option Z :=
  match l with
  | LBlocked id _ _ | LPreempted id _ | LUser id _ | LKernel id _ | LBug id => Some id
  | LHalt => None
  end.

(** Arrays cover the CPU. *)
Definition cpu_ok (cpu : nat) (d : DState) : Prop :=
  (cpu < length (active_cr3 d))%nat /\ (cpu < length (tss_rsp0 d))%nat /\
  (cpu < length (current_user_tids (ss (ps d))))%nat.

(** The common tail of every launch. *)
Definition launched (cpu : nat) (id i : Z) (d : DState) : DState :=
  start cpu i (load_rsp0 cpu id (set_current_tid cpu (Some id) (load_cr3 cpu id d))).

(** Thread [id] runs on [cpu] in [d'], entered from [d]. *)
Definition runs (cpu : nat) (id : Z) (t : Thread) (d d' : DState) : Prop :=
  (exists t', Thread.find id (tst d') = Some t' /\ t_state t' = Running /\ t_context t' = t_context t) /\
  (forall j, j <> id -> Thread.find j (tst d') = Thread.find j (tst d)) /\
  current_user_tid cpu (ss (ps d')) = Some id /\
  cr3_of cpu d' = (if cr3 (t_context t) =? 0 then cr3_of cpu d else cr3 (t_context t)) /\
  tss_rsp0 d' !! cpu = Some (wrap64 (t_stack_base t + KERNEL_STACK_SIZE)).

Lemma tst_load_cr3 cpu id d : tst (load_cr3 cpu id d) = tst d /\ ss (ps (load_cr3 cpu id d)) = ss (ps d) /\
  procs (ps (load_cr3 cpu id d)) = procs (ps d) /\ tss_rsp0 (load_cr3 cpu id d) = tss_rsp0 d.
Proof. unfold load_cr3. destruct (Thread.user_context _ _); [|done]. by destruct (_ =? 0). Qed.

Lemma start_find (cpu : nat) (i id j : Z) (d : DState) :
  current_user_tid cpu (ss (ps d)) = Some id ->
  Thread.find j (tst (start cpu i d)) =
  if j =? id then (fun t => if terminal (t_state t) then t else with_state Running t) <$> Thread.find id (tst d)
  else Thread.find j (tst d).
Proof.
  intros Hc. unfold tst, start, Process.set_running. cbn -[Thread.find Thread.set_running].
  rewrite Hc. cbn -[Thread.find Thread.set_running]. unfold Thread.set_running.
  rewrite Thread.find_modify; [done|]. intros t. by destruct (terminal _).
Qed.

Lemma start_ss (cpu : nat) (i : Z) (d : DState) : ss (ps (start cpu i d)) = ss (ps d).
Proof.
  unfold start, Process.set_running. simpl. by destruct (current_user_tid cpu (ss (ps d))).
Qed.

Lemma launched_runs (cpu : nat) (id i : Z) (d : DState) (t : Thread) :
  cpu_ok cpu d -> Thread.find id (tst d) = Some t -> terminal (t_state t) = false ->
  runs cpu id t d (launched cpu id i d).
Proof.
  intros (H1 & H2 & H3) Ht Hterm. unfold launched.
  set (d1 := load_cr3 cpu id d). destruct (tst_load_cr3 cpu id d) as (E1 & E2 & _ & E3). fold d1 in E1, E2, E3.
  set (d2 := set_current_tid cpu (Some id) d1).
  assert (tst d2 = tst d) as E4 by exact E1.
  assert (current_user_tid cpu (ss (ps d2)) = Some id) as Hcur.
  { unfold d2, current_user_tid. simpl. rewrite E2, list_lookup_insert_eq by done. done. }
  set (d3 := load_rsp0 cpu id d2).
  assert (tst d3 = tst d /\ ss (ps d3) = ss (ps d2) /\ active_cr3 d3 = active_cr3 d1 /\
          tss_rsp0 d3 !! cpu = Some (wrap64 (t_stack_base t + KERNEL_STACK_SIZE))) as (E5 & E6 & E7 & E8).
  { unfold d3, load_rsp0. rewrite E4. unfold Thread.kernel_stack_top, Thread.kernel_stack_base. rewrite Ht. simpl.
    split_and!; [exact E4|done..|]. rewrite E3. by apply list_lookup_insert_eq. }
  assert (forall j, Thread.find j (tst (start cpu i d3)) =
            if j =? id then Some (with_state Running t) else Thread.find j (tst d)) as Hfind.
  { intros j. rewrite (start_find cpu i id j d3) by (by rewrite E6). rewrite E5, Ht. simpl. by rewrite Hterm. }
  unfold runs. split_and!.
  - eexists. rewrite Hfind, Z.eqb_refl. done.
  - intros j Hj. rewrite Hfind. by apply Z.eqb_neq in Hj as ->.
  - rewrite start_ss, E6. exact Hcur.
  - unfold cr3_of. assert (active_cr3 (start cpu i d3) = active_cr3 d3) as -> by done. rewrite E7.
    unfold d1, load_cr3, Thread.user_context. rewrite Ht. simpl.
    destruct (cr3 (t_context t) =? 0) eqn:E0; [done|]. simpl. by rewrite list_lookup_insert_eq.
  - exact E8.
Qed.

Lemma schedule_next_ready (cpu cur : Z) (x : TState) :
  wf x -> schedule_next cpu cur x <> 0 ->
  exists t, Thread.find (schedule_next cpu cur x) x = Some t /\ ready_on cpu t = true.
Proof.
  intros Hwf Hn. pose proof (schedule_next_meets cpu cur x) as Hs. unfold next_of in Hs.
  case_decide; [done|]. destruct Hs as [(t & Ht & Hr & <-)%elem_of_min_tids _].
  exists t. split; [by apply Thread.find_elem|done].
Qed.

Lemma runs_frame (cpu : nat) (id : Z) (t t0 : Thread) (d0 d d' : DState) :
  runs cpu id t d d' -> t_context t = t_context t0 -> t_stack_base t = t_stack_base t0 ->
  (forall j, j <> id -> Thread.find j (tst d) = Thread.find j (tst d0)) -> active_cr3 d = active_cr3 d0 ->
  runs cpu id t0 d0 d'.
Proof.
  intros ((t' & Hf & Hs & Hc) & Hoth & Hcur & Hcr & Hr) Ec Eb Hj Ea. unfold runs, cr3_of in *.
  rewrite Ec in *. rewrite Eb in *. rewrite Ea in *. split_and!; try done; [eauto|].
  intros j Hne. rewrite Hoth by done. by apply Hj.
Qed.

(** One pass of [enter_next_process].  It idles exactly when no thread assigned to
    this CPU is ready; otherwise it launches such a thread (never one assigned to another
    CPU), which afterwards is [Running] and the CPU's current thread, with its own page
    tables and kernel stack installed and its context intact, while every other thread is
    exactly as before. *)
Theorem enter_next_process_spec (temp_top : nat -> Z) (cpu : nat) (d : DState) :
  wf (tst d) -> cpu_ok cpu d ->
  match fst (enter_next_process temp_top cpu d) with
  | None => ready_tids (Z.of_nat cpu) (tst d) = []
  | Some l =>
      exists id t, launch_id l = Some id /\ Thread.find id (tst d) = Some t /\
        ready_on (Z.of_nat cpu) t = true /\ l <> LBug id /\
        runs cpu id t d (snd (enter_next_process temp_top cpu d))
  end.
Proof.
  intros Hwf Hcpu. unfold enter_next_process.
  destruct (schedule_next (Z.of_nat cpu) 0 (tst d) =? 0) eqn:E0; zbool.
  { simpl. pose proof (schedule_next_meets (Z.of_nat cpu) 0 (tst d)) as Hs. unfold next_of in Hs.
    case_decide as Hd; [done|]. destruct Hs as [(t & Ht & _ & Htid)%elem_of_min_tids _].
    pose proof (wf_tids _ Hwf) as Hpos. rewrite Forall_forall in Hpos. specialize (Hpos t Ht). lia. }
  destruct (schedule_next_ready _ _ _ Hwf E0) as (t & Ht & Hr).
  set (id := schedule_next (Z.of_nat cpu) 0 (tst d)) in *.
  assert (terminal (t_state t) = false /\ t_cpu t = Z.of_nat cpu) as [Hterm Hac].
  { unfold ready_on, is_state in Hr. apply andb_true_iff in Hr as [H1 H2%bool_decide_eq_true].
    rewrite H2. zbool. done. }
  unfold assigned_cpu. rewrite Ht. cbn [fmap option_fmap option_map default].
  rewrite Hac, Z.eqb_refl. cbn [negb].
  set (i := default 0 (thread_pid id (tst d))). unfold take_blocking_rsp. rewrite Ht.
  destruct (t_blocking_rsp t =? 0) eqn:Eb.
  - destruct (if is_kernel_preempted id (tst d) then _ else _) as [rsp|].
    + cbn [fst snd]. exists id, t. split_and!; try done. unfold resume_preempted, Thread.user_context.
      rewrite Ht. cbn. by apply launched_runs.
    + unfold Thread.user_context. rewrite Ht. cbn [fmap option_fmap option_map].
      fold (launched cpu id i d). cbn [fst snd put_frame]. unfold put_frame, setup_user_frame_on_temp_stack.
      cbn [fst snd]. exists id, t. split_and!; try done. by apply (launched_runs cpu id i d t).
  - set (t1 := with_blocking_rsp 0 t).
    assert (Thread.find id (Thread.modify id (with_blocking_rsp 0) (tst d)) = Some t1) as Ht1.
    { rewrite Thread.find_modify by done. by rewrite Z.eqb_refl, Ht. }
    unfold take_blocking_retval.
    change (tst (on_threads (fun _ => Thread.modify id (with_blocking_rsp 0) (tst d)) d))
      with (Thread.modify id (with_blocking_rsp 0) (tst d)). rewrite Ht1. cbn [fst snd].
    set (x := Thread.modify id (with_blocking_retval 0) (Thread.modify id (with_blocking_rsp 0) (tst d))).
    set (d1 := on_threads (fun _ => x) _).
    exists id, t. split_and!; try done.
    apply (runs_frame cpu id (with_blocking_retval 0 t1) t d d1); try done.
    + apply (launched_runs cpu id i d1); try done. change (tst d1) with x. unfold x.
      rewrite Thread.find_modify by done. by rewrite Z.eqb_refl, Ht1.
    + intros j Hj. change (tst d1) with x. unfold x. rewrite !Thread.find_modify by done.
      by apply Z.eqb_neq in Hj as ->.
Qed.

(** The dispatcher adds and removes no thread. *)
Definition tids (d : DState) : list Z := tid <$> threads (tst d).

Lemma tids_load_cr3 (cpu : nat) (id : Z) (d : DState) : tids (load_cr3 cpu id d) = tids d.
Proof. unfold load_cr3. destruct (Thread.user_context _ _); [|done]. by destruct (_ =? 0). Qed.
Lemma tids_load_rsp0 (cpu : nat) (id : Z) (d : DState) : tids (load_rsp0 cpu id d) = tids d.
Proof. unfold load_rsp0. by destruct (Thread.kernel_stack_top _ _). Qed.
Lemma tids_set_current_tid (cpu : nat) (id : option Z) (d : DState) : tids (set_current_tid cpu id d) = tids d.
Proof. done. Qed.
Lemma tids_on_modify (id : Z) (f : Thread -> Thread) (x : TState) (d : DState) :
  (forall u, tid (f u) = tid u) -> tids (on_threads (fun _ => Thread.modify id f x) d) = tid <$> threads x.
Proof. intros Hf. unfold tids. simpl. by apply update_first_map. Qed.
Lemma tids_start (cpu : nat) (i : Z) (d : DState) : tids (start cpu i d) = tids d.
Proof.
  unfold tids, tst, start, on_ps. cbn [ps]. unfold Process.set_running. destruct (current_user_tid cpu _); [|done]. simpl.
  apply update_first_map. intros u _. by destruct (terminal _).
Qed.

Lemma enter_next_tids (temp_top : nat -> Z) (cpu : nat) (d : DState) : tids (snd (enter_next_process temp_top cpu d)) = tids d.
Proof.
  unfold enter_next_process. destruct (_ =? 0); [done|]. destruct (negb _); [done|].
  set (id := schedule_next _ _ _). destruct (take_blocking_rsp id (tst d)) as [o t1] eqn:Er. destruct o as [rsp|].
  - assert (tid <$> threads t1 = tids d) as Ht1.
    { unfold take_blocking_rsp in Er. destruct (Thread.find id (tst d)); [|done]. destruct (_ =? 0); [done|]. simplify_eq. by apply update_first_map. }
    destruct (take_blocking_retval _ _) as [rv t2] eqn:Ev. cbn [snd]. rewrite tids_start, tids_load_rsp0, tids_set_current_tid, tids_load_cr3.
    unfold take_blocking_retval in Ev. destruct (Thread.find _ _); simplify_eq; [|exact Ht1]. rewrite tids_on_modify by done. exact Ht1.
  - destruct (if is_kernel_preempted id (tst d) then _ else _) as [rsp|].
    + cbn [snd]. rewrite tids_start, tids_load_rsp0. unfold resume_preempted. destruct (Thread.user_context _ _); [|done].
      by rewrite tids_set_current_tid, tids_load_cr3.
    + destruct (Thread.user_context id (tst d)) as [c|].
      * unfold put_frame. destruct (setup_user_frame_on_temp_stack _ _ _) as [p m] eqn:E. cbn [snd].
        transitivity (tids (start cpu (default 0 (thread_pid id (tst d))) (load_rsp0 cpu id (set_current_tid cpu (Some id) (load_cr3 cpu id d))))); [done|].
        by rewrite tids_start, tids_load_rsp0, tids_set_current_tid, tids_load_cr3.
      * destruct (Thread.kernel_rsp id (tst d)); cbn [snd]; [by rewrite tids_start|done].
Qed.

(** What it launches is in the table. *)
Lemma enter_next_launches (temp_top : nat -> Z) (cpu : nat) (d : DState) (l : Launch) (id : Z) :
  fst (enter_next_process temp_top cpu d) = Some l -> launch_id l = Some id -> id ∈ tids d.
Proof.
  unfold enter_next_process. pose proof (schedule_next_meets (Z.of_nat cpu) 0 (tst d)) as Hs. unfold next_of in Hs.
  set (n := schedule_next _ _ _) in *. destruct (n =? 0) eqn:E0; [done|]. zbool.
  assert (n ∈ tids d) as Hn.
  { case_decide; [done|]. destruct Hs as [(t & Ht & _ & <-)%elem_of_min_tids _]. by apply list_elem_of_fmap_2. }
  intros Hl Hid. assert (id = n) as ->; [|done].
  destruct (negb _); [by simplify_eq/=|]. destruct (take_blocking_rsp n (tst d)) as [[rsp|] t1].
  - destruct (take_blocking_retval _ _). by simplify_eq/=.
  - destruct (if is_kernel_preempted n (tst d) then _ else _); [by simplify_eq/=|].
    destruct (Thread.user_context n (tst d)); [destruct (put_frame _ _ _ _); by simplify_eq/=|].
    destruct (Thread.kernel_rsp n (tst d)); by simplify_eq/=.
Qed.

(** A thread that is not in the table is neither put back nor launched. *)
Lemma gone_stays_gone (temp_top : nat -> Z) (cpu : nat) (t : Z) (d d' : DState) (next : option Launch) :
  t ∉ tids d -> enter_next_process temp_top cpu d = (next, d') -> t ∉ tids d' /\ (next ≫= launch_id) <> Some t.
Proof.
  intros Ht He. pose proof (enter_next_tids temp_top cpu d) as H1. pose proof (enter_next_launches temp_top cpu d) as H2.
  rewrite He in H1, H2. cbn [fst snd] in *. rewrite H1. split; [done|]. intros Hl. destruct next as [l|]; [|done]. by apply Ht, (H2 l).
Qed.

(** ** Witness: thread 2 is ready on CPU 0 *)

Definition demo : DState :=
  mkDState (mkPState table3 SState_new [kernel_process] 2 true) (replicate 16 4096) (replicate 16 0)
    (replicate 16 0) 4096 (replicate 16 0) 0 0 0 0 (replicate 16 0) (replicate 16 0) (replicate 16 0)
    false (replicate 16 0) [].

Lemma enter_next_process_spec_witness :
  match fst (enter_next_process (fun _ => 65536) 0 demo) with
  | None => ready_tids 0 (tst demo) = []
  | Some l =>
      exists id t, launch_id l = Some id /\ Thread.find id (tst demo) = Some t /\
        ready_on 0 t = true /\ l <> LBug id /\
        runs 0 id t demo (snd (enter_next_process (fun _ => 65536) 0 demo))
  end.
Proof.
  apply (enter_next_process_spec (fun _ => 65536) 0 demo).
  - split; simpl; [repeat constructor; set_solver by lia|repeat constructor; simpl; lia|lia|done].
  - split_and!; simpl; lia.
Defined.

End Dispatch.
