(* ===== verification/Lock.v ===== *)
(** Kernel locks: [crates/kernel/src/util.rs].

    The re-entrant lock [ReentrantSpinLock] and the guards [IrqGuard] and
    [ReentrantIrqGuard] that the thread lock uses ([with_threads_lock] in
    [task/thread.rs]); the plain [SpinLock] is in [Spin.v].  Every atomic access of [lock]
    and [unlock] is one step, steps of different CPUs interleave freely, a weak
    compare-exchange may fail spuriously, and an interrupt may arrive between
    any two steps of a CPU whose interrupt flag is set.  A CPU is the stack of
    the contexts its interrupts have suspended.

    The interleaving is sequentially consistent; the source's relaxed accesses
    concern only [owner] and [depth], whose values a CPU acts on only when it
    wrote them itself. *)
From stdpp Require Import base list numbers option functions fin.
From S2P Require Import Prelude.

Open Scope Z_scope.

Module Lock.

(** * Data *)

Record ReentrantSpinLock := mkLock { locked : bool; owner : Z; depth : Z }.

Definition new : ReentrantSpinLock := mkLock false u64_max 0.

(** Where a context is inside [lock], [unlock] or a guard's drop. *)
Inductive Pc :=
  | Run               (* outside of both *)
  | LockOwner         (* owner.load() == cpu *)
  | LockLocked        (* locked.load() *)
  | LockAdd           (* depth.fetch_add(1) *)
  | LockSpin          (* locked.compare_exchange_weak(false, true) *)
  | LockStoreOwner    (* owner.store(cpu) *)
  | LockStoreDepth    (* depth.store(1) *)
  | UnlockSub         (* depth.fetch_sub(1) == 1 *)
  | UnlockOwner       (* owner.store(usize::MAX) *)
  | UnlockLocked      (* locked.store(false) *)
  | RestoreFlags.     (* IrqGuard::drop *)
#[export] Instance Pc_eq_dec : EqDecision Pc.
Proof. solve_decision. Defined.

(** [c_if] is the interrupt flag, [c_guards] the flags saved by the guards that
    are alive, newest first. *)
Record Ctx := mkCtx { c_pc : Pc; c_if : bool; c_guards : list bool }.

(** A CPU: the context that runs and the ones its interrupts suspended. *)
Record Cpu := mkCpu { running : Ctx; suspended : list Ctx }.

(** The kernel starts at most [MAX_CPUS] processors. *)
Definition MAX_CPUS : nat := 16.
Definition CpuId : Type := fin MAX_CPUS.
#[export] Instance CpuId_eq_dec : EqDecision CpuId := fin_dec.

Record LState := mkL { mem : ReentrantSpinLock; cpus : CpuId -> Cpu }.

Inductive Action :=
  | GuardNew                 (* ReentrantIrqGuard::new *)
  | GuardDrop                (* the guard goes out of scope *)
  | Micro (spurious : bool)  (* the next atomic access *)
  | SetIf (b : bool)         (* cli, sti and popfq outside of the guards *)
  | IrqEnter                 (* an interrupt is delivered *)
  | IrqExit.                 (* iretq of its handler *)
#[export] Instance Action_eq_dec : EqDecision Action.
Proof. solve_decision. Defined.

(** * Steps *)

(** [irq_save]: the flag before, and interrupts off. *)
Definition irq_save (c : Ctx) : Ctx := mkCtx (c_pc c) false (c_if c :: c_guards c).

(** [IrqGuard::drop]: [restore_flags(self.flags)]. *)
Definition irq_restore (c : Ctx) : Ctx :=
  match c_guards c with
  | f :: gs => mkCtx (c_pc c) f gs
  | [] => c
  end.

Definition goto (p : Pc) (c : Ctx) : Ctx := mkCtx p (c_if c) (c_guards c).

(** One atomic access of [lock], for the CPU of index [cpu]. *)
Definition lock_micro (cpu : Z) (spurious : bool) (p : Pc) (m : ReentrantSpinLock)
    : option (Pc * ReentrantSpinLock) :=
  match p with
  | LockOwner => Some (if owner m =? cpu then LockLocked else LockSpin, m)
  | LockLocked => Some (if locked m then LockAdd else LockSpin, m)
  | LockAdd => Some (Run, mkLock (locked m) (owner m) (wrap64 (depth m + 1)))
  | LockSpin =>
      if locked m || spurious then Some (LockSpin, m)
      else Some (LockStoreOwner, mkLock true (owner m) (depth m))
  | LockStoreOwner => Some (LockStoreDepth, mkLock (locked m) cpu (depth m))
  | LockStoreDepth => Some (Run, mkLock (locked m) (owner m) 1)
  | _ => None
  end.

(** One atomic access of [unlock]; the guard's flags are restored after it. *)
Definition unlock_micro (p : Pc) (m : ReentrantSpinLock) : option (Pc * ReentrantSpinLock) :=
  match p with
  | UnlockSub =>
      Some (if depth m =? 1 then UnlockOwner else RestoreFlags,
            mkLock (locked m) (owner m) (wrap64 (depth m - 1)))
  | UnlockOwner => Some (UnlockLocked, mkLock (locked m) u64_max (depth m))
  | UnlockLocked => Some (RestoreFlags, mkLock false (owner m) (depth m))
  | _ => None
  end.

Definition micro (cpu : Z) (spurious : bool) (c : Ctx) (m : ReentrantSpinLock)
    : option (Ctx * ReentrantSpinLock) :=
  match c_pc c with
  | Run => None
  | RestoreFlags => Some (goto Run (irq_restore c), m)
  | p =>
      '(q, m') ← (match lock_micro cpu spurious p m with
                  | Some r => Some r
                  | None => unlock_micro p m
                  end);
      Some (goto q c, m')
  end.

(** One step of a CPU. *)
Definition cpu_step (cpu : Z) (a : Action) (k : Cpu) (m : ReentrantSpinLock)
    : option (Cpu * ReentrantSpinLock) :=
  let c := running k in
  match a with
  | GuardNew =>
      if bool_decide (c_pc c = Run)
      then Some (mkCpu (goto LockOwner (irq_save c)) (suspended k), m) else None
  | GuardDrop =>
      if bool_decide (c_pc c = Run) && negb (bool_decide (c_guards c = []))
      then Some (mkCpu (goto UnlockSub c) (suspended k), m) else None
  | Micro sp => '(c', m') ← micro cpu sp c m; Some (mkCpu c' (suspended k), m')
  | SetIf b =>
      if bool_decide (c_pc c = Run) && bool_decide (c_guards c = [])
      then Some (mkCpu (mkCtx Run b []) (suspended k), m) else None
  | IrqEnter =>
      if c_if c then Some (mkCpu (mkCtx Run false []) (c :: suspended k), m) else None
  | IrqExit =>
      match suspended k with
      | c' :: cs =>
          if bool_decide (c_pc c = Run) && bool_decide (c_guards c = [])
          then Some (mkCpu c' cs, m) else None
      | [] => None
      end
  end.

(** The machine: any CPU may take the next step. *)
Definition step_on (idx : CpuId -> Z) (s : LState) (e : CpuId * Action) : option LState :=
  '(k, m) ← cpu_step (idx (fst e)) (snd e) (cpus s (fst e)) (mem s);
  Some (mkL m (<[fst e := k]> (cpus s))).

Definition step (idx : CpuId -> Z) (s : LState) (e : CpuId * Action) (s' : LState) : Prop :=
  step_on idx s e = Some s'.

Fixpoint run (idx : CpuId -> Z) (s : LState) (es : list (CpuId * Action)) : option LState :=
  match es with
  | [] => Some s
  | e :: es' => s' ← step_on idx s e; run idx s' es'
  end.

Definition boot_cpu : Cpu := mkCpu (mkCtx Run true []) [].
Definition boot : LState := mkL new (fun _ => boot_cpu).

(** * The critical section *)

(** How many [lock] calls of a context have returned and not begun to be undone. *)
Definition held (c : Ctx) : nat :=
  match c_pc c with
  | Run | UnlockSub => length (c_guards c)
  | _ => length (c_guards c) - 1
  end.

Definition in_cs (k : Cpu) : Prop := (0 < held (running k))%nat.

(** Between the winning compare-exchange and the store that releases. *)
Definition in_transit (p : Pc) : bool :=
  match p with LockStoreOwner | LockStoreDepth | UnlockOwner | UnlockLocked => true | _ => false end.

Definition owns (k : Cpu) : Prop := in_cs k \/ in_transit (c_pc (running k)) = true.

(** ** Invariant *)

(** A suspended context was interrupted outside of the lock. *)
Definition quiet (c : Ctx) : Prop := c_pc c = Run /\ c_guards c = [].

(** How many guards each program point allows. *)
Definition pc_ok (c : Ctx) : Prop :=
  match c_pc c with
  | Run => True
  | LockOwner | UnlockSub | RestoreFlags => (1 <= length (c_guards c))%nat
  | LockLocked | LockAdd => (2 <= length (c_guards c))%nat
  | _ => length (c_guards c) = 1%nat
  end.

(** Only the outermost guard can have found interrupts enabled. *)
Fixpoint saved_ok (gs : list bool) : Prop :=
  match gs with
  | [] => True
  | f :: gs' => (gs' <> [] -> f = false) /\ saved_ok gs'
  end.

Record cpu_wf (n : nat) (k : Cpu) : Prop := {
  cw_suspended : Forall quiet (suspended k);
  cw_masked : c_guards (running k) <> [] -> c_if (running k) = false;
  cw_saved : saved_ok (c_guards (running k));
  cw_pc : pc_ok (running k);
  cw_bound : (length (c_guards (running k)) <= n)%nat
}.

(** What the owner's program point says of the lock's words. *)
Definition words_ok (cpu : Z) (k : Cpu) (m : ReentrantSpinLock) : Prop :=
  locked m = true /\
  match c_pc (running k) with
  | LockStoreOwner => owner m = u64_max /\ depth m = 0
  | LockStoreDepth => owner m = cpu /\ depth m = 0
  | UnlockOwner => owner m = cpu /\ depth m = 0
  | UnlockLocked => owner m = u64_max /\ depth m = 0
  | _ => owner m = cpu /\ depth m = Z.of_nat (held (running k))
  end.

Record Inv (idx : CpuId -> Z) (n : nat) (s : LState) : Prop := {
  inv_cpus : forall i, cpu_wf n (cpus s i);
  inv_owner :
    (mem s = new /\ forall i, ~ owns (cpus s i)) \/
    (exists i, owns (cpus s i) /\ words_ok (idx i) (cpus s i) (mem s) /\
               forall j, j <> i -> ~ owns (cpus s j))
}.

(** ** Every step keeps it *)

(** What a CPU that does not own the lock may see in it. *)
Definition foreign (cpu : Z) (m : ReentrantSpinLock) : Prop :=
  m = new \/ (locked m = true /\ owner m <> cpu).

(** The lock as one CPU sees it. *)
Definition view (cpu : Z) (k : Cpu) (m : ReentrantSpinLock) : Prop :=
  (~ owns k /\ foreign cpu m) \/ (owns k /\ words_ok cpu k m).

(** What a step of one CPU may do to the ownership: nothing, take the free
    lock, go on owning it, free it. *)
Definition ownership_step (cpu : Z) (k k' : Cpu) (m m' : ReentrantSpinLock) : Prop :=
  (~ owns k /\ ~ owns k' /\ m' = m) \/
  (~ owns k /\ m = new /\ owns k' /\ words_ok cpu k' m') \/
  (owns k /\ owns k' /\ words_ok cpu k' m') \/
  (owns k /\ ~ owns k' /\ m' = new).

Lemma quiet_idle (n : nat) (k : Cpu) :
  cpu_wf n k -> c_if (running k) = true -> quiet (running k).
Proof.
  intros [_ Hm _ Hp _] Hif. destruct k as [[p f gs] sus]. simpl in *.
  assert (gs = []) as ->. { destruct gs; [done|]. by rewrite Hm in Hif. }
  destruct p; unfold pc_ok in Hp; simpl in Hp; (done || lia).
Qed.

Lemma quiet_not_owns (c : Ctx) (cs : list Ctx) : quiet c -> ~ owns (mkCpu c cs).
Proof.
  destruct c as [p f gs]. intros [Hp Hg]. simpl in *. subst.
  unfold owns, in_cs, held. cbn. intros [?|?]; [lia|done].
Qed.

(** Interrupts find and leave the lock alone. *)
Lemma irq_step_ok (cpu : Z) (a : Action) (k k' : Cpu) (m m' : ReentrantSpinLock) (n : nat) :
  (a = IrqEnter \/ a = IrqExit) ->
  cpu_wf n k -> cpu_step cpu a k m = Some (k', m') ->
  cpu_wf (S n) k' /\ ~ owns k /\ ~ owns k' /\ m' = m.
Proof.
  intros Ha Hwf Hs. destruct k as [c cs]. destruct Ha as [-> | ->]; cbn in Hs.
  - destruct (c_if c) eqn:Hif; simplify_eq. pose proof (quiet_idle n _ Hwf Hif) as Hq.
    destruct Hwf as [Hsus _ _ _ _]. split_and!.
    + constructor; simpl; [by constructor|done..|lia].
    + by apply quiet_not_owns.
    + by apply quiet_not_owns.
    + done.
  - destruct cs as [|c' cs]; [done|]. repeat case_bool_decide; simplify_eq/=.
    destruct Hwf as [Hsus _ _ _ _]. apply Forall_cons_1 in Hsus as [[Hp Hg] Hsus].
    split_and!.
    + constructor; simpl; [done|by rewrite Hg|by rewrite Hg| |rewrite Hg; simpl; lia].
      unfold pc_ok. by rewrite Hp.
    + by apply quiet_not_owns.
    + by apply quiet_not_owns.
    + done.
Qed.

(** Split a step of one CPU into its program points and its tests. *)
Ltac cpu_cases :=
  lazymatch goal with
  | H : cpu_step _ ?a ?k ?m = Some _ |- _ =>
      destruct k as [[[] ? [|? [|? ?]]] sus]; destruct m; destruct a;
      unfold cpu_step, micro, lock_micro, unlock_micro in H; cbn in H;
      repeat match type of H with
             | context [bool_decide ?P] => destruct (bool_decide_reflect P)
             | context [match ?x with _ => _ end] =>
                 lazymatch type of x with bool => destruct x eqn:? | list _ => destruct x end
             end; cbn in H;
      simplify_eq/=
  end.

Ltac lock_crush :=
  unfold view, ownership_step, owns, words_ok, foreign, in_cs, held, new, wrap64 in *; cbn in *;
  repeat split; intros;
  destruct_and?; destruct_or?; destruct_and?; destruct_or?; destruct_and?; zbool; simplify_eq/=;
  try done; try lia; try (constructor; done).

Lemma guard_step_wf (cpu : Z) (a : Action) (k k' : Cpu) (m m' : ReentrantSpinLock) (n : nat) :
  (a <> IrqEnter /\ a <> IrqExit) -> cpu <> u64_max ->
  cpu_wf n k -> view cpu k m -> cpu_step cpu a k m = Some (k', m') -> cpu_wf (S n) k'.
Proof.
  intros [Ha Ha'] Hcpu [Hsus Hm Hsv Hpc Hb] Hv Hs.
  cpu_cases; try done; constructor; unfold pc_ok in *; cbn in *; try done; try lia;
    try exact (proj1 Hsv); try exact (proj2 Hsv); lock_crush.

Qed.

#[export] Instance owns_dec (k : Cpu) : Decision (owns k).
Proof. unfold owns, in_cs. apply _. Defined.

Lemma not_owns_inv (k : Cpu) :
  ~ owns k -> held (running k) = 0%nat /\ in_transit (c_pc (running k)) = false.
Proof.
  unfold owns, in_cs. intros H. split.
  - destruct (held _) eqn:E; [done|]. exfalso. apply H. left. lia.
  - destruct (in_transit _) eqn:E; [|done]. exfalso. apply H. by right.
Qed.

Lemma not_owns_intro (k : Cpu) :
  held (running k) = 0%nat -> in_transit (c_pc (running k)) = false -> ~ owns k.
Proof. unfold owns, in_cs. intros -> ->. intros [?|?]; [lia|done]. Qed.

(** A CPU without the lock leaves it as it is, or takes it while it is free. *)
Lemma outsider_step (cpu : Z) (a : Action) (k k' : Cpu) (m m' : ReentrantSpinLock) (n : nat) :
  (a <> IrqEnter /\ a <> IrqExit) -> cpu_wf n k -> ~ owns k -> foreign cpu m ->
  cpu_step cpu a k m = Some (k', m') ->
  (~ owns k' /\ m' = m) \/ (m = new /\ owns k' /\ words_ok cpu k' m').
Proof.
  intros [Ha Ha'] [_ _ _ Hpc _] Hno Hf Hs.
  apply not_owns_inv in Hno as [Hh Ht].
  cpu_cases; unfold pc_ok in *; cbn in *; try done; try lia.
  all: try (left; split; [apply not_owns_intro; done|done]).
  match goal with E : _ || _ = false |- _ => apply orb_false_iff in E as [-> ->] end.
  destruct Hf as [[= -> ->]|[? ?]]; [|done]. right. split_and!; [done|by right|done].
Qed.

(** The CPU with the lock keeps it, or frees it. *)
Lemma owner_step (cpu : Z) (a : Action) (k k' : Cpu) (m m' : ReentrantSpinLock) (n : nat) :
  (a <> IrqEnter /\ a <> IrqExit) -> Z.of_nat n < u64_max -> 
  cpu_wf n k -> owns k -> words_ok cpu k m -> cpu_step cpu a k m = Some (k', m') ->
  (owns k' /\ words_ok cpu k' m') \/ (~ owns k' /\ m' = new).
Proof.
  intros [Ha Ha'] Hn [_ _ _ Hpc Hb] Ho [Hl Hw] Hs.
  cpu_cases; unfold pc_ok in *; cbn in Hpc, Hw; try (exfalso; clear - Hpc; lia);
    destruct Hw as [Hw1 Hw2]; subst; try done.
  all: try (exfalso; destruct Ho as [Ho|Ho]; [unfold in_cs, held in Ho; cbn in Ho; lia|done]).
  all: try (right; split; [apply not_owns_intro; done| done]).
  all: left; split; [first [by right|left; unfold in_cs, held; cbn; lia]|].
  all: split; [done|]; cbn; split; [done|].
  all: rewrite ?wrap64_small by (unfold is_u64, u64_max in *; lia); try lia.
  all: zbool; lia.
Qed.

Lemma cpu_wf_mono (n : nat) (k : Cpu) : cpu_wf n k -> cpu_wf (S n) k.
Proof. intros []. constructor; auto. Qed.

Lemma spin_not_owns (n : nat) (k : Cpu) :
  cpu_wf n k -> c_pc (running k) = LockSpin -> ~ owns k.
Proof.
  intros [_ _ _ Hpc _] Hp. unfold pc_ok in Hpc. rewrite Hp in Hpc.
  apply not_owns_intro; [unfold held; by rewrite Hp, Hpc|by rewrite Hp].
Qed.

(** The owner is never stuck: it is inside [lock] or [unlock], or it may drop a guard. *)
Lemma owner_can_step (n : nat) (cpu : Z) (k : Cpu) (m : ReentrantSpinLock) :
  cpu_wf n k -> owns k ->
  exists a k' m', (a = Micro false \/ a = GuardDrop) /\ cpu_step cpu a k m = Some (k', m').
Proof.
  intros _ Ho. destruct k as [[p f gs] sus]. destruct (decide (p = Run)) as [->|Hp].
  - exists GuardDrop. unfold cpu_step. simpl. destruct gs; [|by eauto].
    destruct Ho as [Ho|Ho]; [unfold in_cs, held in Ho; cbn in Ho; lia|done].
  - exists (Micro false). unfold cpu_step, micro. simpl.
    destruct p; simpl; try done; try (by eauto).
    destruct (locked m || false); eauto.
Qed.

(** * The machine *)

Section Machine.
(** [current_cpu_index]: distinct for the CPUs the ACPI tables list, and in
    range, so never the [usize::MAX] that marks a lock without owner. *)
Context (idx : CpuId -> Z) (idx_inj : forall i j, idx i = idx j -> i = j)
  (idx_max : forall i, idx i <> u64_max).

Lemma owner_word (i : CpuId) (k : Cpu) (m : ReentrantSpinLock) :
  words_ok (idx i) k m -> owner m = idx i \/ owner m = u64_max.
Proof. intros [_ Hw]. destruct (c_pc (running k)), Hw; auto. Qed.

Lemma inv_view (n : nat) (s : LState) (i : CpuId) : Inv idx n s -> view (idx i) (cpus s i) (mem s).
Proof.
  intros [_ [[Hm Hno]|(j & Ho & Hw & Hno)]]; [left; split; [done|by left]|].
  destruct (decide (i = j)) as [->|Hij]; [by right|]. left. split; [auto|]. right.
  split; [apply Hw|]. destruct (owner_word j _ _ Hw) as [-> | ->].
  - intros ?%idx_inj. congruence.
  - intros Hi. by apply (idx_max i).
Qed.

Lemma cpu_step_ok (i : CpuId) (n : nat) (a : Action) (s : LState) (k' : Cpu) (m' : ReentrantSpinLock) :
  Z.of_nat n < u64_max -> Inv idx n s ->
  cpu_step (idx i) a (cpus s i) (mem s) = Some (k', m') ->
  cpu_wf (S n) k' /\ ownership_step (idx i) (cpus s i) k' (mem s) m'.
Proof.
  intros Hn Hinv Hs. pose proof (inv_view n s i Hinv) as Hv. pose proof (inv_cpus _ _ _ Hinv i) as Hwf.
  destruct (decide (a = IrqEnter \/ a = IrqExit)) as [Ha|[? ?]%Decidable.not_or].
  - destruct (irq_step_ok _ _ _ _ _ _ _ Ha Hwf Hs) as (? & ? & ? & ?). split; [done|by left].
  - split; [by eapply guard_step_wf|]. unfold ownership_step. destruct Hv as [[Hno Hf]|[Ho Hw]].
    + destruct (outsider_step _ _ _ _ _ _ _ (conj H H0) Hwf Hno Hf Hs) as [[]|(? & ? & ?)]; auto 6.
    + destruct (owner_step _ _ _ _ _ _ _ (conj H H0) Hn Hwf Ho Hw Hs) as [[]|[]]; auto 7.
Qed.

Lemma inv_unique (n : nat) (s : LState) :
  Inv idx n s -> forall i j, owns (cpus s i) -> owns (cpus s j) -> i = j.
Proof.
  intros [_ [[_ Hno]|(o & _ & _ & Hno)]] i j Hi Hj; [by destruct (Hno i)|].
  destruct (decide (i = o)) as [->|Hio]; [|by destruct (Hno i Hio)].
  destruct (decide (j = o)) as [->|Hjo]; [done|by destruct (Hno j Hjo)].
Qed.

Lemma lock_step_inv (n : nat) (s s' : LState) (e : CpuId * Action) :
  Z.of_nat n < u64_max -> Inv idx n s -> step idx s e s' -> Inv idx (S n) s'.
Proof.
  intros Hn Hinv Hs. destruct e as [i a]. unfold step, step_on in Hs. simpl in Hs.
  destruct (cpu_step _ _ _ _) as [[k' m']|] eqn:E; simplify_eq/=.
  destruct (cpu_step_ok i n a s k' m' Hn Hinv E) as [Hwf Hos]. destruct Hinv as [Hcpus Hown].
  split; simpl.
  { intros j. destruct (decide (j = i)) as [->|Hj].
    - by rewrite fn_lookup_insert.
    - rewrite fn_lookup_insert_ne by done. by apply cpu_wf_mono. }
  assert (forall j, j <> i -> ~ owns (cpus s j) -> ~ owns (<[i:=k']> (cpus s) j)) as Hkeep.
  { intros j Hj. by rewrite fn_lookup_insert_ne. }
  assert (owns (cpus s i) \/ mem s = new -> forall j, j <> i -> ~ owns (cpus s j)) as Hothers.
  { intros Hi j Hj. destruct Hown as [[_ Hno]|(o & Ho & Hw & Hno)]; [done|].
    destruct Hi as [Hi|Hi].
    - apply Hno. intros ->. by apply (Hno i).
    - destruct Hw as [Hl _]. by rewrite Hi in Hl. }
  destruct Hos as [(Hno & Hno' & ->)|[(Hno & Hm & Ho & Hw)|[(Hi & Ho & Hw)|(Hi & Hno & ->)]]].
  - destruct Hown as [[Hm Hall]|(o & Ho & Hw & Hall)].
    + left. split; [done|]. intros j. destruct (decide (j = i)) as [->|Hj];
        [by rewrite fn_lookup_insert|auto].
    + right. exists o. assert (o <> i) as Hoi by (by intros ->).
      rewrite fn_lookup_insert_ne by done. split_and!; [done..|]. intros j Hj.
      destruct (decide (j = i)) as [->|Hji]; [by rewrite fn_lookup_insert|auto].
  - right. exists i. rewrite fn_lookup_insert. split_and!; [done..|]. auto.
  - right. exists i. rewrite fn_lookup_insert. split_and!; [done..|]. auto.
  - left. split; [done|]. intros j. destruct (decide (j = i)) as [->|Hj];
      [by rewrite fn_lookup_insert|auto].
Qed.

Lemma lock_boot_inv : Inv idx 0 boot.
Proof.
  split; simpl; [intros i; by constructor|]. left. split; [done|].
  intros i. by apply not_owns_intro.
Qed.

Lemma reachable_inv (es : list (CpuId * Action)) (n : nat) (s s' : LState) :
  Inv idx n s -> Z.of_nat (n + length es) <= u64_max -> trace (step idx) s es s' ->
  Inv idx (n + length es) s'.
Proof.
  intros Hinv Hb Htr. revert n Hinv Hb.
  induction Htr as [s|s e s1 es s2 Hs Htr IH]; simpl; intros n Hinv Hb.
  - by rewrite Nat.add_0_r.
  - rewrite <- Nat.add_succ_comm in *. apply IH; [|done]. eapply lock_step_inv; [lia|done..].
Qed.

(** C2: the thread lock is a mutual exclusion lock.  In every interleaving of
    the CPUs' steps, spurious compare-exchange failures and interrupts
    included, at most one CPU is inside a [with_threads_lock] section; while it
    is, its interrupts are masked, no context it has suspended is inside the
    lock, and the lock word is set.  ([u64::MAX] steps keep the depth counter
    from wrapping.) *)
Theorem mutual_exclusion (es : list (CpuId * Action)) (s : LState) :
  Z.of_nat (length es) <= u64_max -> trace (step idx) boot es s ->
  (forall i j, in_cs (cpus s i) -> in_cs (cpus s j) -> i = j) /\
  (forall i, in_cs (cpus s i) ->
     c_if (running (cpus s i)) = false /\ Forall quiet (suspended (cpus s i)) /\
     locked (mem s) = true).
Proof.
  intros Hb Htr. pose proof (reachable_inv es 0 boot s lock_boot_inv Hb Htr) as Hinv.
  split; [intros i j Hi Hj; by apply (inv_unique _ _ Hinv); left|].
  intros i Hi. destruct Hinv as [Hcpus Hown]. destruct (Hcpus i) as [Hsus Hm _ _ _].
  split_and!; [|done|].
  - apply Hm. unfold in_cs, held in Hi. intros Hg. rewrite Hg in Hi.
    destruct (c_pc _); simpl in Hi; lia.
  - destruct Hown as [[_ Hno]|(o & _ & [Hl _] & _)]; [|done]. exfalso. apply (Hno i). by left.
Qed.

(** C35: the thread lock cannot deadlock.  A CPU that spins does not own the
    lock, so a nested acquisition never waits for itself; and either its next
    compare-exchange takes the lock, or some other CPU owns the lock, does not
    spin, and can take its next step towards releasing it. *)
Theorem lock_progress (es : list (CpuId * Action)) (s : LState) (i : CpuId) :
  Z.of_nat (length es) <= u64_max -> trace (step idx) boot es s ->
  c_pc (running (cpus s i)) = LockSpin ->
  ~ owns (cpus s i) /\
  ((exists s', step idx s (i, Micro false) s' /\ owns (cpus s' i)) \/
   (exists j a s', j <> i /\ owns (cpus s j) /\ c_pc (running (cpus s j)) <> LockSpin /\
      (a = Micro false \/ a = GuardDrop) /\ step idx s (j, a) s')).
Proof.
  intros Hb Htr Hpc. pose proof (reachable_inv es 0 boot s lock_boot_inv Hb Htr) as Hinv.
  assert (forall j, c_pc (running (cpus s j)) = LockSpin -> ~ owns (cpus s j)) as Hspin.
  { intros j Hj. by apply (spin_not_owns (0 + length es)), Hj; apply Hinv. }
  split; [by apply Hspin|].
  destruct (inv_owner _ _ _ Hinv) as [[Hm Hno]|(j & Ho & Hw & Hno)].
  - left. eexists. unfold step, step_on, cpu_step, micro. simpl. rewrite Hpc, Hm. simpl.
    split; [done|]. simpl. rewrite fn_lookup_insert. by right.
  - right. destruct (owner_can_step (0 + length es) (idx j) (cpus s j) (mem s)) as (a & k & m & Ha & Hs);
      [apply Hinv|done|].
    exists j, a, (mkL m (<[j:=k]> (cpus s))). split_and!; [|done| |done|].
    + intros ->. by apply (Hspin i).
    + intros Hj. by apply (Hspin j).
    + unfold step, step_on. simpl. by rewrite Hs.
Qed.
End Machine.

(** * Nested guards *)

Fixpoint cpu_run (cpu : Z) (acts : list Action) (k : Cpu) (m : ReentrantSpinLock)
    : option (Cpu * ReentrantSpinLock) :=
  match acts with
  | [] => Some (k, m)
  | a :: acts' => '(k', m') ← cpu_step cpu a k m; cpu_run cpu acts' k' m'
  end.

(** The steps of [n] guards nested in each other, inside of one already held. *)
Fixpoint nested (n : nat) : list Action :=
  match n with
  | O => []
  | S n' => [GuardNew; Micro false; Micro false; Micro false] ++ nested n' ++
            [GuardDrop; Micro false; Micro false]
  end.

(** The steps of a section that nests [n] more. *)
Definition section (n : nat) : list Action :=
  [GuardNew; Micro false; Micro false; Micro false; Micro false] ++ nested n ++
  [GuardDrop; Micro false; Micro false; Micro false; Micro false].

Lemma cpu_run_app (cpu : Z) (l1 l2 : list Action) (k : Cpu) (m : ReentrantSpinLock) :
  cpu_run cpu (l1 ++ l2) k m = '(k', m') ← cpu_run cpu l1 k m; cpu_run cpu l2 k' m'.
Proof.
  revert k m. induction l1 as [|a l1 IH]; intros k m; simpl; [done|].
  destruct (cpu_step cpu a k m) as [[k' m']|]; simpl; auto.
Qed.

Ltac cpu_eval :=
  cbn -[u64_max];
  repeat (first [ rewrite bool_decide_true by done | rewrite bool_decide_false by done
                | rewrite Z.eqb_refl | rewrite (proj2 (Z.eqb_neq _ _)) by (assumption || lia) ];
          cbn -[u64_max]).

Lemma enter_nested (cpu d : Z) (f : bool) (gs : list bool) (sus : list Ctx) :
  cpu_run cpu [GuardNew; Micro false; Micro false; Micro false]
    (mkCpu (mkCtx Run f gs) sus) (mkLock true cpu d) =
  Some (mkCpu (mkCtx Run false (f :: gs)) sus, mkLock true cpu (wrap64 (d + 1))).
Proof. by cpu_eval. Qed.

Lemma leave_nested (cpu d : Z) (b f : bool) (gs : list bool) (sus : list Ctx) :
  d <> 1 ->
  cpu_run cpu [GuardDrop; Micro false; Micro false]
    (mkCpu (mkCtx Run b (f :: gs)) sus) (mkLock true cpu d) =
  Some (mkCpu (mkCtx Run f gs) sus, mkLock true cpu (wrap64 (d - 1))).
Proof. intros Hd. by cpu_eval. Qed.

Lemma enter_free (cpu : Z) (f : bool) (sus : list Ctx) :
  u64_max <> cpu ->
  cpu_run cpu [GuardNew; Micro false; Micro false; Micro false; Micro false]
    (mkCpu (mkCtx Run f []) sus) new =
  Some (mkCpu (mkCtx Run false [f]) sus, mkLock true cpu 1).
Proof. intros Hc. by cpu_eval. Qed.

Lemma leave_last (cpu : Z) (b f : bool) (sus : list Ctx) :
  cpu_run cpu [GuardDrop; Micro false; Micro false; Micro false; Micro false]
    (mkCpu (mkCtx Run b [f]) sus) (mkLock true cpu 1) =
  Some (mkCpu (mkCtx Run f []) sus, new).
Proof. by cpu_eval. Qed.

Lemma nested_run (cpu : Z) (n : nat) (d : Z) (gs : list bool) (sus : list Ctx) :
  1 <= d -> d + Z.of_nat n < u64_bound ->
  cpu_run cpu (nested n) (mkCpu (mkCtx Run false gs) sus) (mkLock true cpu d) =
  Some (mkCpu (mkCtx Run false gs) sus, mkLock true cpu d).
Proof.
  revert d gs. induction n as [|n IH]; intros d gs Hd Hn; [done|].
  cbn [nested]. rewrite cpu_run_app, enter_nested. cbn [mbind option_bind].
  rewrite wrap64_small by (unfold is_u64; lia). rewrite cpu_run_app, IH by lia.
  cbn [mbind option_bind]. rewrite leave_nested by lia.
  rewrite Z.add_simpl_r, wrap64_small by (unfold is_u64; lia). done.
Qed.

(** A section of [n] nested guards on a free lock runs to its end in a fixed
    number of steps without spinning, and leaves the lock and the CPU, its
    interrupt flag included, exactly as they were. *)
Theorem section_roundtrip (cpu : Z) (n : nat) (k : Cpu) :
  cpu <> u64_max -> Z.of_nat n < u64_max -> quiet (running k) ->
  cpu_run cpu (section n) k new = Some (k, new).
Proof.
  intros Hcpu Hn [Hp Hg]. destruct k as [[p f gs] sus]. simpl in Hp, Hg. subst.
  unfold section. rewrite cpu_run_app, enter_free by congruence. cbn [mbind option_bind].
  rewrite cpu_run_app, nested_run by (unfold u64_max in Hn; lia). cbn [mbind option_bind].
  apply leave_last.
Qed.

Lemma section_roundtrip_witness :
  cpu_run 3 (section 2) boot_cpu new = Some (boot_cpu, new).
Proof. apply section_roundtrip; [done|reflexivity|done]. Defined.

Lemma lock_run_trace (idx : CpuId -> Z) (es : list (CpuId * Action)) (s s' : LState) :
  run idx s es = Some s' -> trace (step idx) s es s'.
Proof.
  revert s. induction es as [|e es IH]; simpl; intros s Hr; simplify_eq; [constructor|].
  destruct (step_on idx s e) as [s1|] eqn:E; [|done]. econstructor; [done|]. by apply IH.
Qed.

(** CPU 1 interrupts, takes the lock and nests; CPU 0 spins on it. *)
Definition contention : list (CpuId * Action) :=
  [(1%fin, IrqEnter); (0%fin, GuardNew); (1%fin, GuardNew); (0%fin, Micro false);
   (1%fin, Micro false); (1%fin, Micro true); (1%fin, Micro false); (0%fin, Micro false);
   (1%fin, Micro false); (1%fin, Micro false); (1%fin, GuardNew); (1%fin, Micro false);
   (1%fin, Micro false); (1%fin, Micro false); (0%fin, Micro false)].

Definition cpu_number (i : CpuId) : Z := Z.of_nat (fin_to_nat i).

Definition contended : LState := default boot (run cpu_number boot contention).

Lemma cpu_number_inj (i j : CpuId) : cpu_number i = cpu_number j -> i = j.
Proof. unfold cpu_number. intros H. apply fin_to_nat_inj. lia. Qed.

Lemma cpu_number_max (i : CpuId) : cpu_number i <> u64_max.
Proof.
  unfold cpu_number, u64_max, u64_bound. pose proof (fin_to_nat_lt i). unfold MAX_CPUS in *. lia.
Qed.

Lemma contention_trace : trace (step cpu_number) boot contention contended.
Proof.
  apply lock_run_trace. unfold contended.
  destruct (run cpu_number boot contention) eqn:E; [done|]. vm_compute in E. discriminate.
Qed.

Lemma mutual_exclusion_witness :
  in_cs (cpus contended 1%fin) /\
  c_if (running (cpus contended 1%fin)) = false /\
  (forall j, in_cs (cpus contended j) -> j = 1%fin).
Proof.
  assert (in_cs (cpus contended 1%fin)) as Hcs by (apply Nat.ltb_lt; vm_compute; reflexivity).
  pose proof (mutual_exclusion cpu_number cpu_number_inj cpu_number_max
                contention contended ltac:(vm_compute; discriminate) contention_trace) as [H1 H2].
  split_and!; [done|by apply H2|]. intros j Hj. by apply H1.
Defined.

Lemma lock_progress_witness : ~ owns (cpus contended 0%fin).
Proof.
  apply (lock_progress cpu_number cpu_number_inj cpu_number_max
           contention contended 0%fin ltac:(vm_compute; discriminate) contention_trace).
  vm_compute. reflexivity.
Defined.

End Lock.
