(* ===== verification/Ipc.v ===== *)
(** Message channels: [crates/kernel/src/ipc.rs].

    The static [CHANNELS] vector is a list of slots; a channel id is its index
    plus one.  Every function runs under the thread lock, so each is one step.
    Waking and putting to sleep go through the processes of [Process.v]. *)
From stdpp Require Import base list numbers option gmap.
From S2P Require Import Prelude Thread Process.

Open Scope Z_scope.

Module Ipc.
Import Process.

Definition MAX_CHANNELS : nat := 32.
Definition MAX_MSG_SIZE : nat := 8192.
Definition MAX_QUEUE : nat := 8.
Definition NAME_LEN : nat := 32.

(** A [Message] is its bytes. *)
Definition Message : Type := list Z.

Record Channel := mkChan {
  c_name : list Z;          (* [u8; NAME_LEN], zero padded *)
  c_name_len : nat;
  c_queue : list Message;
  c_recv_waiters : list Z;
  c_send_waiters : list Z;
  c_refs : Z
}.

Record IState := mkI { chans : list (option Channel); ps : PState }.

Definition set_ps (p : PState) (s : IState) : IState := mkI (chans s) p.
Definition on_ps (f : PState -> PState) (s : IState) : IState := mkI (chans s) (f (ps s)).

Definition with_queue (q : list Message) (c : Channel) : Channel :=
  mkChan (c_name c) (c_name_len c) q (c_recv_waiters c) (c_send_waiters c) (c_refs c).
Definition with_recv_waiters (w : list Z) (c : Channel) : Channel :=
  mkChan (c_name c) (c_name_len c) (c_queue c) w (c_send_waiters c) (c_refs c).
Definition with_send_waiters (w : list Z) (c : Channel) : Channel :=
  mkChan (c_name c) (c_name_len c) (c_queue c) (c_recv_waiters c) w (c_refs c).
Definition with_refs (r : Z) (c : Channel) : Channel :=
  mkChan (c_name c) (c_name_len c) (c_queue c) (c_recv_waiters c) (c_send_waiters c) r.

(** * Operations *)

(** [slot]: [None] for id 0, an id past the table and a closed channel. *)
Definition slot (s : IState) (id : Z) : option Channel :=
  if id <? 1 then None else match chans s !! Z.to_nat (id - 1) with Some o => o | None => None end.
Definition set_slot (id : Z) (o : option Channel) (s : IState) : IState :=
  mkI (<[Z.to_nat (id - 1) := o]> (chans s)) (ps s).

(** The bytes of the name: [c.name[..c.name_len]]. *)
Definition name_of (c : Channel) : list Z := take (c_name_len c) (c_name c).
Definition has_name (name : list Z) (o : option Channel) : bool :=
  match o with
  | Some c => bool_decide (c_name_len c = length name) && bool_decide (name_of c = name)
  | None => false
  end.

Definition new_channel (name : list Z) : Channel :=
  mkChan (name ++ replicate (NAME_LEN - length name) 0) (length name) [] [] [] 1.

Definition is_none_slot (o : option Channel) : bool := match o with None => true | Some _ => false end.

Definition open (name : list Z) (s : IState) : Z * IState :=
  if bool_decide (name = []) || (NAME_LEN <? length name)%nat then (u64_max, s)
  else
  match position (has_name name) (chans s) with
  | Some i =>
      (Z.of_nat i + 1,
       mkI (alter (fmap (fun c => with_refs (c_refs c + 1) c)) i (chans s)) (ps s))
  | None =>
      match position is_none_slot (chans s) with
      | Some i => (Z.of_nat i + 1, mkI (<[i := Some (new_channel name)]> (chans s)) (ps s))
      | None =>
          if (MAX_CHANNELS <=? length (chans s))%nat then (u64_max, s)
          else (Z.of_nat (length (chans s)) + 1, mkI (chans s ++ [Some (new_channel name)]) (ps s))
      end
  end.

Inductive SendResult := SendOk | SendBlock | SendError.
Inductive RecvResult := RecvOk (len : nat) | RecvBlock | RecvError.

(** [if !recv_waiters.is_empty() { wakeup_ipc_waiter(recv_waiters.remove(0), 0) }]. *)
Definition wake_receiver (c : Channel) (p : PState) : Channel * PState :=
  match c_recv_waiters c with
  | [] => (c, p)
  | w :: ws => (with_recv_waiters ws c, wakeup_ipc_waiter w 0 p)
  end.
Definition wake_sender (c : Channel) (p : PState) : Channel * PState :=
  match c_send_waiters c with
  | [] => (c, p)
  | w :: ws => (with_send_waiters ws c, wakeup_ipc_waiter w 0 p)
  end.

(** Enqueue and wake the first receiver that waits. *)
Definition enqueue (id : Z) (data : Message) (c : Channel) (s : IState) : IState :=
  let '(c', p) := wake_receiver (with_queue (c_queue c ++ [data]) c) (ps s) in
  set_ps p (set_slot id (Some c') s).

Definition try_send_reliable (id sender : Z) (data : Message) (s : IState) : SendResult * IState :=
  if (MAX_MSG_SIZE <? length data)%nat then (SendError, s)
  else
  match slot s id with
  | None => (SendError, s)
  | Some c =>
      if (MAX_QUEUE <=? length (c_queue c))%nat then (SendBlock, s)
      else (SendOk, enqueue id data c s)
  end.

(** [while queue.len() >= MAX_QUEUE { queue.pop_front(); }]. *)
Fixpoint make_room (q : list Message) : list Message :=
  match q with
  | [] => []
  | _ :: q' => if (MAX_QUEUE <=? length q)%nat then make_room q' else q
  end.

Definition try_send (id sender : Z) (data : Message) (s : IState) : SendResult * IState :=
  if (MAX_MSG_SIZE <? length data)%nat then (SendError, s)
  else
  match slot s id with
  | None => (SendError, s)
  | Some c => (SendOk, enqueue id data (with_queue (make_room (c_queue c)) c) s)
  end.

Definition wait_send_space (id i : Z) (s : IState) : bool * IState :=
  match slot s id with
  | None => (false, s)
  | Some c =>
      if (length (c_queue c) <? MAX_QUEUE)%nat then (false, s)
      else if negb (i =? 0) && negb (bool_decide (i ∈ c_send_waiters c)) then
        (true, on_ps (fun p => set_sleeping i (set_wait_target i (Thread.WIpc id) p))
                 (set_slot id (Some (with_send_waiters (c_send_waiters c ++ [i]) c)) s))
      else (true, s)
  end.

(** [buf[..len].copy_from_slice(&msg.data[..len])] with [len] the smaller length. *)
Definition copy_out (msg : Message) (buf : list Z) : nat * list Z :=
  let len := Nat.min (length msg) (length buf) in (len, take len msg ++ drop len buf).

(** The result, the caller's buffer, the state. *)
Definition dequeue (id : Z) (buf : list Z) (msg : Message) (q : list Message) (c : Channel)
    (s : IState) : RecvResult * list Z * IState :=
  let '(len, buf') := copy_out msg buf in
  let '(c', p) := wake_sender (with_queue q c) (ps s) in
  (RecvOk len, buf', set_ps p (set_slot id (Some c') s)).

Definition try_recv (id : Z) (buf : list Z) (i : Z) (s : IState) : RecvResult * list Z * IState :=
  match slot s id with
  | None => (RecvError, buf, s)
  | Some c =>
      match c_queue c with
      | [] =>
          (RecvBlock, buf,
           if i =? 0 then s
           else on_ps (fun p => set_sleeping i (set_wait_target i (Thread.WIpc id) p))
                  (set_slot id (Some (with_recv_waiters (c_recv_waiters c ++ [i]) c)) s))
      | msg :: q => dequeue id buf msg q c s
      end
  end.

Definition try_recv_nonblock (id : Z) (buf : list Z) (s : IState) : RecvResult * list Z * IState :=
  match slot s id with
  | None => (RecvError, buf, s)
  | Some c =>
      match c_queue c with
      | [] => (RecvBlock, buf, s)
      | msg :: q => dequeue id buf msg q c s
      end
  end.

Definition abort_senders (id : Z) (s : IState) : IState :=
  match slot s id with
  | None => s
  | Some c =>
      on_ps (fun p => foldl (fun p w => wakeup_ipc_waiter w 0 p) p (c_send_waiters c))
        (set_slot id (Some (with_send_waiters [] (with_queue [] c))) s)
  end.

Definition add_send_waiter (id i : Z) (s : IState) : IState :=
  match slot s id with
  | None => s
  | Some c => set_slot id (Some (with_send_waiters (c_send_waiters c ++ [i]) c)) s
  end.

Definition close (id : Z) (s : IState) : IState :=
  match slot s id with
  | None => s
  | Some c =>
      if 1 <? c_refs c then set_slot id (Some (with_refs (c_refs c - 1) c)) s
      else if negb (bool_decide (c_queue c = [])) then set_slot id (Some (with_refs 0 c)) s
      else set_slot id None s
  end.

(** * The table as a step system *)

Inductive op :=
  | Open (name : list Z)
  | Send (id sender : Z) (data : Message)
  | SendReliable (id sender : Z) (data : Message)
  | WaitSendSpace (id i : Z)
  | Recv (id : Z) (buf : list Z) (i : Z)
  | RecvNonblock (id : Z) (buf : list Z)
  | AbortSenders (id : Z)
  | AddSendWaiter (id i : Z)
  | Close (id : Z)
  | Kernel (p : PState).   (* anything else the kernel does between two operations *)

(** What the caller of an operation gets. *)
Inductive answer :=
  | AId (id : Z)
  | ASend (r : SendResult)
  | ARecv (r : RecvResult) (buf : list Z)
  | ABool (b : bool)
  | AUnit.

Definition perform (o : op) (s : IState) : answer * IState :=
  match o with
  | Open name => let '(r, s') := open name s in (AId r, s')
  | Send id sender data => let '(r, s') := try_send id sender data s in (ASend r, s')
  | SendReliable id sender data => let '(r, s') := try_send_reliable id sender data s in (ASend r, s')
  | WaitSendSpace id i => let '(r, s') := wait_send_space id i s in (ABool r, s')
  | Recv id buf i => let '(r, b, s') := try_recv id buf i s in (ARecv r b, s')
  | RecvNonblock id buf => let '(r, b, s') := try_recv_nonblock id buf s in (ARecv r b, s')
  | AbortSenders id => (AUnit, abort_senders id s)
  | AddSendWaiter id i => (AUnit, add_send_waiter id i s)
  | Close id => (AUnit, close id s)
  | Kernel p => (AUnit, set_ps p s)
  end.

Definition step (s : IState) (e : op * answer) (s' : IState) : Prop := perform (fst e) s = (snd e, s').

(** ** Effect of an operation on the slots *)

Lemma slot_Some_pos (s : IState) (id : Z) (c : Channel) :
  slot s id = Some c -> 1 <= id /\ chans s !! Z.to_nat (id - 1) = Some (Some c).
Proof.
  unfold slot. intros H. split_ifs. split; [lia|].
  destruct (chans s !! _) as [[c'|]|] eqn:E; naive_solver.
Qed.

Lemma slot_index (s : IState) (i : nat) :
  slot s (Z.of_nat i + 1) = (match chans s !! i with Some o => o | None => None end).
Proof.
  unfold slot. rewrite (proj2 (Z.ltb_ge _ _)) by lia.
  by replace (Z.to_nat (Z.of_nat i + 1 - 1)) with i by lia.
Qed.

Lemma slot_set_slot (s : IState) (id id' : Z) (c : Channel) (o : option Channel) :
  slot s id = Some c ->
  slot (set_slot id o s) id' = (if id' =? id then o else slot s id').
Proof.
  intros [Hid Hc]%slot_Some_pos. unfold slot, set_slot. simpl.
  destruct (id' =? id) eqn:E; zbool; subst.
  - rewrite (proj2 (Z.ltb_ge _ _)) by lia. rewrite list_lookup_insert_eq; [done|].
    by eapply lookup_lt_Some.
  - destruct (id' <? 1) eqn:E'; [done|]. zbool. rewrite list_lookup_insert_ne by lia. done.
Qed.

(** The one place an operation other than [open] writes to. *)
Definition changes (id : Z) (s s' : IState) (c : Channel) (o : option Channel) : Prop :=
  slot s id = Some c /\ chans s' = <[Z.to_nat (id - 1) := o]> (chans s).

Lemma changes_slot (id id' : Z) (s s' : IState) (c : Channel) (o : option Channel) :
  changes id s s' c o -> slot s' id' = (if id' =? id then o else slot s id').
Proof.
  intros [Hc Hs']. rewrite <- (slot_set_slot s id id' c o Hc). unfold slot. by rewrite Hs'.
Qed.

Definition op_id (o : op) : Z :=
  match o with
  | Open _ | Kernel _ => 0
  | Send id _ _ | SendReliable id _ _ | WaitSendSpace id _ | Recv id _ _ | RecvNonblock id _
  | AbortSenders id | AddSendWaiter id _ | Close id => id
  end.

(** The channel's queue before and after, by operation and answer. *)
Inductive queue_change : op -> answer -> Channel -> Channel -> Prop :=
  | qc_send id sender data c c' :
      (length data <= MAX_MSG_SIZE)%nat ->
      c_queue c' = make_room (c_queue c) ++ [data] ->
      queue_change (Send id sender data) (ASend SendOk) c c'
  | qc_reliable id sender data c c' :
      (length data <= MAX_MSG_SIZE)%nat -> (length (c_queue c) < MAX_QUEUE)%nat ->
      c_queue c' = c_queue c ++ [data] ->
      queue_change (SendReliable id sender data) (ASend SendOk) c c'
  | qc_recv id buf i msg c c' :
      c_queue c = msg :: c_queue c' ->
      queue_change (Recv id buf i) (ARecv (RecvOk (fst (copy_out msg buf))) (snd (copy_out msg buf))) c c'
  | qc_recv_nb id buf msg c c' :
      c_queue c = msg :: c_queue c' ->
      queue_change (RecvNonblock id buf) (ARecv (RecvOk (fst (copy_out msg buf))) (snd (copy_out msg buf))) c c'
  | qc_abort id c c' : c_queue c' = [] -> queue_change (AbortSenders id) AUnit c c'
  | qc_same o a c c' : c_queue c' = c_queue c ->
      (forall n b, a <> ARecv (RecvOk n) b) -> a <> ASend SendOk -> queue_change o a c c'.

Lemma name_wake (c : Channel) (p : PState) :
  c_name (fst (wake_receiver c p)) = c_name c /\ c_name_len (fst (wake_receiver c p)) = c_name_len c /\
  c_refs (fst (wake_receiver c p)) = c_refs c /\ c_queue (fst (wake_receiver c p)) = c_queue c.
Proof. unfold wake_receiver. by destruct (c_recv_waiters c). Qed.

Lemma name_wake_sender (c : Channel) (p : PState) :
  c_name (fst (wake_sender c p)) = c_name c /\ c_name_len (fst (wake_sender c p)) = c_name_len c /\
  c_refs (fst (wake_sender c p)) = c_refs c /\ c_queue (fst (wake_sender c p)) = c_queue c.
Proof. unfold wake_sender. by destruct (c_send_waiters c). Qed.

(** [c'] is [c] under the same name. *)
Definition same_name (c c' : Channel) : Prop := c_name c' = c_name c /\ c_name_len c' = c_name_len c.

(** The answers that carry no message. *)
Definition no_transfer (a : answer) : Prop :=
  (forall n b, a <> ARecv (RecvOk n) b) /\ a <> ASend SendOk.

(** Every operation but [open] leaves the table alone, or changes the channel it
    names, or frees its slot. *)
Definition effect (o : op) (a : answer) (s s' : IState) : Prop :=
  (chans s' = chans s /\ no_transfer a) \/
  (exists c c', changes (op_id o) s s' c (Some c') /\ same_name c c' /\ queue_change o a c c' /\
     (c_refs c' = c_refs c \/
      (o = Close (op_id o) /\ (1 < c_refs c -> c_refs c' = c_refs c - 1)))) \/
  (exists c, o = Close (op_id o) /\ a = AUnit /\ changes (op_id o) s s' c None /\
     c_queue c = [] /\ c_refs c <= 1).

Lemma effect_none (o : op) (a : answer) (s : IState) : no_transfer a -> effect o a s s.
Proof. by left. Qed.

Lemma no_transfer_unit : no_transfer AUnit.
Proof. by split. Qed.
Lemma no_transfer_bool (b : bool) : no_transfer (ABool b).
Proof. by split. Qed.
Lemma no_transfer_send (r : SendResult) : r <> SendOk -> no_transfer (ASend r).
Proof. split; congruence. Qed.
Lemma no_transfer_recv (r : RecvResult) (b : list Z) : (forall n, r <> RecvOk n) -> no_transfer (ARecv r b).
Proof. intros H. split; [|done]. intros n b' [= -> ->]. by apply (H n). Qed.
#[local] Hint Resolve effect_none no_transfer_unit no_transfer_bool no_transfer_send no_transfer_recv : kazu.

(** A change of the waiters or of nothing but the process table. *)
Lemma effect_same (o : op) (a : answer) (s s' : IState) (c c' : Channel) :
  changes (op_id o) s s' c (Some c') -> no_transfer a ->
  same_name c c' -> c_queue c' = c_queue c -> c_refs c' = c_refs c -> effect o a s s'.
Proof.
  intros Hc [Ha1 Ha2] Hn Hq Hr. right. left. exists c, c'. split_and!; [done..| |by left].
  by apply qc_same.
Qed.

Lemma enqueue_effect (o : op) (data : Message) (s : IState) (c d : Channel) :
  slot s (op_id o) = Some c -> same_name c d -> c_refs d = c_refs c ->
  (forall c', c_queue c' = c_queue d ++ [data] -> queue_change o (ASend SendOk) c c') ->
  effect o (ASend SendOk) s (enqueue (op_id o) data d s).
Proof.
  intros Hc [Hn1 Hn2] Hr Hq. right. left. unfold enqueue.
  pose proof (name_wake (with_queue (c_queue d ++ [data]) d) (ps s)) as (E1 & E2 & E3 & E4).
  destruct (wake_receiver _ _) as [c' p']. simpl in *.
  exists c, c'. split_and!; [done| |by apply Hq|left; congruence].
  split; congruence.
Qed.

Lemma dequeue_effect (o : op) (buf : list Z) (msg : Message) (q : list Message) (c : Channel)
    (s s' : IState) (r : RecvResult) (b : list Z) :
  slot s (op_id o) = Some c -> c_queue c = msg :: q ->
  (forall c', c_queue c = msg :: c_queue c' ->
     queue_change o (ARecv (RecvOk (fst (copy_out msg buf))) (snd (copy_out msg buf))) c c') ->
  dequeue (op_id o) buf msg q c s = (r, b, s') -> effect o (ARecv r b) s s'.
Proof.
  intros Hc Hcq Hq Hd. right. left. unfold dequeue in Hd.
  destruct (copy_out msg buf) as [len buf'].
  pose proof (name_wake_sender (with_queue q c) (ps s)) as (E1 & E2 & E3 & E4).
  destruct (wake_sender _ _) as [c' p']. simpl in *. simplify_eq/=.
  exists c, c'. split_and!; [done|done|apply Hq; congruence|by left].
Qed.

Lemma close_effect (id : Z) (s : IState) : effect (Close id) AUnit s (close id s).
Proof.
  unfold close. destruct (slot s id) as [c|] eqn:Hc; [|auto with kazu].
  destruct (1 <? c_refs c) eqn:E; zbool; [|case_bool_decide; simpl].
  - right. left. eexists c, _. split_and!; [done..| |by right]. by apply qc_same.
  - right. right. exists c. done.
  - right. left. eexists c, _. split_and!; [done..| |right; split; [done|simpl; lia]]. by apply qc_same.
Qed.

Lemma perform_effect (o : op) (a : answer) (s s' : IState) :
  perform o s = (a, s') -> (forall name, o <> Open name) -> effect o a s s'.
Proof.
  intros Hp Hopen. destruct o; simpl in Hp.
  - by destruct (Hopen name).
  - unfold try_send in Hp. destruct (_ <? _)%nat eqn:E; simplify_eq; [auto with kazu|].
    apply Nat.ltb_ge in E. destruct (slot s id) as [c|] eqn:Hc; simplify_eq; [|auto with kazu].
    eapply enqueue_effect; simpl; [done..|]. intros. by apply qc_send.
  - unfold try_send_reliable in Hp. destruct (_ <? _)%nat eqn:E; simplify_eq; [auto with kazu|].
    apply Nat.ltb_ge in E. destruct (slot s id) as [c|] eqn:Hc; simplify_eq; [|auto with kazu].
    destruct (_ <=? _)%nat eqn:E'; simplify_eq; [auto with kazu|]. apply Nat.leb_gt in E'.
    eapply enqueue_effect; simpl; [done..|]. intros. by apply qc_reliable.
  - unfold wait_send_space in Hp. destruct (slot s id) as [c|] eqn:Hc; simplify_eq; [|auto with kazu].
    destruct (_ <? _)%nat; simplify_eq; [auto with kazu|].
    destruct (_ && _); simplify_eq; [|auto with kazu].
    eapply effect_same; [done|auto with kazu|done..].
  - unfold try_recv in Hp. destruct (slot s id) as [c|] eqn:Hc; simplify_eq; [|auto with kazu].
    destruct (c_queue c) as [|msg q] eqn:Hq.
    + destruct (i =? 0); simplify_eq; [auto with kazu|].
      eapply effect_same; [done|auto with kazu|done..].
    + destruct (dequeue id buf msg q c s) as [[r b] s1] eqn:E. simplify_eq.
      eapply (dequeue_effect (Recv id buf i)); [done..| |done]. intros. by apply qc_recv.
  - unfold try_recv_nonblock in Hp. destruct (slot s id) as [c|] eqn:Hc; simplify_eq; [|auto with kazu].
    destruct (c_queue c) as [|msg q] eqn:Hq; simplify_eq; [auto with kazu|].
    destruct (dequeue id buf msg q c s) as [[r b] s1] eqn:E. simplify_eq.
    eapply (dequeue_effect (RecvNonblock id buf)); [done..| |done]. intros. by apply qc_recv_nb.
  - simplify_eq. unfold abort_senders. destruct (slot s id) as [c|] eqn:Hc; [|auto with kazu].
    right. left. eexists c, _. split_and!; [done..| |by left]. by apply qc_abort.
  - simplify_eq. unfold add_send_waiter. destruct (slot s id) as [c|] eqn:Hc; [|auto with kazu].
    eapply effect_same; [done|auto with kazu|done..].
  - simplify_eq. apply close_effect.
  - simplify_eq. left. split; [done|auto with kazu].
Qed.

(** [open]: refused, one more reference to the channel of that name, or a new
    channel in a free slot. *)
Lemma open_effect (name : list Z) (s s' : IState) (r : Z) :
  open name s = (r, s') ->
  (chans s' = chans s /\ r = u64_max) \/
  ((0 < length name <= NAME_LEN)%nat /\
   ((exists c, changes r s s' c (Some (with_refs (c_refs c + 1) c)) /\ has_name name (Some c) = true) \/
    (slot s r = None /\ (forall id, slot s' id = if id =? r then Some (new_channel name) else slot s id) /\
     (forall id c, slot s id = Some c -> has_name name (Some c) = false)))).
Proof.
  unfold open. intros Ho. case_bool_decide as He; cbn [orb] in Ho; simplify_eq; [by left|].
  destruct (NAME_LEN <? length name)%nat eqn:El; simplify_eq; [by left|]. apply Nat.ltb_ge in El.
  assert (0 < length name)%nat by (destruct name; [done|simpl; lia]).
  destruct (position (has_name name) (chans s)) as [i|] eqn:Ep; simplify_eq.
  { right. split; [done|]. left. apply position_Some in Ep as ([c|] & Hi & Hn & _); [|done].
    exists c. split; [|done]. split; [by rewrite slot_index, Hi|]. simpl.
    replace (Z.to_nat _) with i by lia. symmetry.
    by erewrite list_insert_alter, list_alter_ext with (g := fmap (fun c => with_refs (c_refs c + 1) c));
      [|intros x Hx; simplify_eq|]. }
  assert (forall id c, slot s id = Some c -> has_name name (Some c) = false) as Hno.
  { intros id c [_ Hc]%slot_Some_pos. rewrite position_None in Ep. apply Ep.
    by apply list_elem_of_lookup_2 in Hc. }
  destruct (position is_none_slot (chans s)) as [i|] eqn:Eq; simplify_eq.
  - right. split; [done|]. right. apply position_Some in Eq as ([c|] & Hi & Hn & _); [done|].
    split_and!; [by rewrite slot_index, Hi| |done]. intros id. unfold slot. simpl.
    destruct (id =? Z.of_nat i + 1) eqn:E; zbool.
    + subst. rewrite (proj2 (Z.ltb_ge _ _)) by lia. replace (Z.to_nat _) with i by lia.
      by rewrite list_lookup_insert_eq by (by eapply lookup_lt_Some).
    + destruct (id <? 1) eqn:E1; zbool; [done|]. by rewrite list_lookup_insert_ne by lia.
  - destruct (_ <=? _)%nat eqn:Em; simplify_eq; [by left|]. right. split; [done|]. right.
    split_and!; [by rewrite slot_index, lookup_ge_None_2| |done]. intros id. unfold slot. simpl.
    destruct (id =? Z.of_nat (length (chans s)) + 1) eqn:E; zbool.
    + subst. rewrite (proj2 (Z.ltb_ge _ _)) by lia.
      replace (Z.to_nat _) with (length (chans s)) by lia. by rewrite list_lookup_middle.
    + destruct (id <? 1) eqn:E1; zbool; [done|].
      destruct (decide (Z.to_nat (id - 1) < length (chans s))%nat).
      * by rewrite lookup_app_l.
      * rewrite (lookup_ge_None_2 (chans s)), lookup_ge_None_2; [done|..]; rewrite ?length_app; simpl; lia.
Qed.

(** * Invariant *)

Record chan_wf (c : Channel) : Prop := {
  cwf_name : length (c_name c) = NAME_LEN;
  cwf_name_len : (0 < c_name_len c <= NAME_LEN)%nat;
  cwf_queue : (length (c_queue c) <= MAX_QUEUE)%nat;
  cwf_msgs : Forall (fun m => (length m <= MAX_MSG_SIZE)%nat) (c_queue c)
}.

Record wf (s : IState) : Prop := {
  wf_table : (length (chans s) <= MAX_CHANNELS)%nat;
  wf_chans : forall id c, slot s id = Some c -> chan_wf c;
  wf_names : forall id id' c c', slot s id = Some c -> slot s id' = Some c' -> name_of c = name_of c' -> id = id'
}.

Lemma make_room_suffix (q : list Message) : make_room q `suffix_of` q.
Proof.
  induction q as [|m q IH]; cbn [make_room]; [done|]. destruct (_ <=? _)%nat; [|done]. by apply suffix_cons_r.
Qed.

Lemma length_make_room (q : list Message) : (length (make_room q) < MAX_QUEUE)%nat.
Proof.
  induction q as [|m q IH]; cbn [make_room]; [unfold MAX_QUEUE; simpl; lia|].
  destruct (_ <=? _)%nat eqn:E; [done|]. by apply Nat.leb_gt in E.
Qed.

Lemma make_room_id (q : list Message) : (length q < MAX_QUEUE)%nat -> make_room q = q.
Proof.
  destruct q as [|m q]; [done|]. intros H. cbn [make_room]. rewrite (proj2 (Nat.leb_gt _ _) H). done.
Qed.

Lemma new_channel_wf (name : list Z) : (0 < length name <= NAME_LEN)%nat -> chan_wf (new_channel name).
Proof.
  intros H. constructor; simpl; [|done|lia|constructor]. rewrite length_app, length_replicate. lia.
Qed.

Lemma name_of_new (name : list Z) : name_of (new_channel name) = name.
Proof. unfold name_of. simpl. apply take_app_length. Qed.

Lemma has_name_iff (name : list Z) (c : Channel) :
  chan_wf c -> has_name name (Some c) = true <-> name_of c = name.
Proof.
  intros Hc. simpl. rewrite andb_true_iff, !bool_decide_eq_true. split; [naive_solver|].
  intros <-. split; [|done]. unfold name_of. rewrite length_take, (cwf_name _ Hc).
  pose proof (cwf_name_len _ Hc). lia.
Qed.

Lemma queue_change_wf (o : op) (a : answer) (c c' : Channel) :
  chan_wf c -> same_name c c' -> queue_change o a c c' -> chan_wf c'.
Proof.
  intros [H1 H2 H3 H4] [E1 E2] Hq.
  assert ((length (c_queue c') <= MAX_QUEUE)%nat /\
          Forall (fun m => (length m <= MAX_MSG_SIZE)%nat) (c_queue c')) as [? ?];
    [|by constructor; rewrite ?E1, ?E2].
  destruct Hq as [? ? data c c' Hd ->|? ? data c c' Hd Hl ->|? ? ? msg c c' E|? ? msg c c' E|? c c' ->|? ? c c' -> _ _];
    try done.
  - split; [rewrite length_app; simpl; pose proof (length_make_room (c_queue c)); lia|].
    apply Forall_app_2; [|by constructor]. destruct (make_room_suffix (c_queue c)) as [k Hk].
    rewrite Hk in H4. by apply Forall_app in H4 as [_ ?].
  - split; [rewrite length_app; simpl; lia|]. apply Forall_app_2; [done|by constructor].
  - rewrite E in H3, H4. split; [simpl in H3; lia|by apply Forall_cons_1 in H4 as [_ ?]].
  - rewrite E in H3, H4. split; [simpl in H3; lia|by apply Forall_cons_1 in H4 as [_ ?]].
  - split; [simpl; lia|constructor].
Qed.

Lemma name_of_same (c c' : Channel) : same_name c c' -> name_of c' = name_of c.
Proof. intros [E1 E2]. unfold name_of. by rewrite E1, E2. Qed.

(** Replacing a channel by one of the same name keeps the table well-formed. *)
Lemma changes_wf (id : Z) (s s' : IState) (c c' : Channel) :
  wf s -> changes id s s' c (Some c') -> same_name c c' -> chan_wf c' -> wf s'.
Proof.
  intros [Hl Hc Hn] Hch Hs Hc'. constructor.
  - destruct Hch as [_ ->]. by rewrite length_insert.
  - intros i d. rewrite (changes_slot _ i _ _ _ _ Hch). destruct (i =? id); [by intros [= <-]|eauto].
  - destruct Hch as [Hid Hch'] eqn:E. clear E.
    intros i i' d d'. rewrite !(changes_slot _ _ _ _ _ _ Hch).
    pose proof (name_of_same c c' Hs) as Hnm.
    destruct (i =? id) eqn:Ei, (i' =? id) eqn:Ei'; zbool; subst; intros; simplify_eq; try done;
      eapply Hn; eauto; congruence.
Qed.

Lemma changes_None_wf (id : Z) (s s' : IState) (c : Channel) :
  wf s -> changes id s s' c None -> wf s'.
Proof.
  intros [Hl Hc Hn] Hch. constructor.
  - destruct Hch as [_ ->]. by rewrite length_insert.
  - intros i d. rewrite (changes_slot _ i _ _ _ _ Hch). destruct (i =? id); [done|eauto].
  - intros i i' d d'. rewrite !(changes_slot _ _ _ _ _ _ Hch).
    destruct (i =? id), (i' =? id); try done. apply Hn.
Qed.

Lemma slots_same (s s' : IState) : chans s' = chans s -> forall id, slot s' id = slot s id.
Proof. intros H id. unfold slot. by rewrite H. Qed.

Lemma wf_same (s s' : IState) : wf s -> chans s' = chans s -> wf s'.
Proof.
  intros [Hl Hc Hn] E. constructor; [by rewrite E|..]; intros *; rewrite !(slots_same s s' E); eauto.
Qed.

Lemma open_length (name : list Z) (s : IState) :
  (length (chans s) <= MAX_CHANNELS)%nat -> (length (chans (snd (open name s))) <= MAX_CHANNELS)%nat.
Proof.
  intros Hl. unfold open. destruct (_ || _); [done|]. destruct (position _ _) as [i|].
  { cbn [snd chans]. by rewrite length_alter. }
  destruct (position _ _) as [i|]; [cbn [snd chans]; by rewrite length_insert|].
  destruct (_ <=? _)%nat eqn:E; [done|]. apply Nat.leb_gt in E.
  cbn [snd chans]. rewrite length_app. cbn [length]. lia.
Qed.

Lemma open_wf (name : list Z) (s : IState) : wf s -> wf (snd (open name s)).
Proof.
  intros Hwf. pose proof (open_length name s (wf_table s Hwf)) as Hlen.
  destruct (open name s) as [r s'] eqn:E. cbn [snd] in *.
  destruct (open_effect name s s' r E) as [[Hs _]|[Hl [(c & Hch & Hn)|(Hr & Hsl & Hno)]]].
  - by apply (wf_same s).
  - eapply changes_wf; [done..|]. destruct (wf_chans s Hwf r c (proj1 Hch)). by constructor.
  - destruct Hwf as [Ht Hc Hnm]. constructor; [done|..].
    + intros id c. rewrite Hsl. destruct (id =? r); [|eauto].
      intros [= <-]. by apply new_channel_wf.
    + assert (forall id c, slot s id = Some c -> name_of c <> name) as Hne.
      { intros id c Hc' He. apply (has_name_iff name c (Hc id c Hc')) in He. by rewrite (Hno id c Hc') in He. }
      intros id id' c c'. rewrite !Hsl.
      destruct (id =? r) eqn:E1, (id' =? r) eqn:E2; zbool; subst; intros H1 H2 H3; simplify_eq; try done.
      * rewrite name_of_new in H3. by destruct (Hne id' c' H2).
      * rewrite name_of_new in H3. by destruct (Hne id c H1).
      * eauto.
Qed.

Lemma open_or_not (o : op) : (exists name, o = Open name) \/ (forall name, o <> Open name).
Proof. destruct o; eauto. Qed.

Lemma perform_wf (s s' : IState) (e : op * answer) : wf s -> step s e s' -> wf s'.
Proof.
  destruct e as [o a]. unfold step. simpl. intros Hwf Hp.
  destruct (open_or_not o) as [[name ->]|Hno].
  { simpl in Hp. pose proof (open_wf name s Hwf) as H. destruct (open name s). by simplify_eq. }
  destruct (perform_effect o a s s' Hp Hno) as [[Hs _]|[(c & c' & Hch & Hn & Hq & _)|(c & _ & _ & Hch & _)]].
  - by apply (wf_same s).
  - eapply changes_wf; [done..|]. eapply queue_change_wf; [|done..]. by eapply wf_chans, Hch.
  - by eapply changes_None_wf.
Qed.

(** The boot state: an empty table. *)
Definition boot (p : PState) : IState := mkI [] p.

Lemma boot_wf (p : PState) : wf (boot p).
Proof.
  assert (forall id, slot (boot p) id = None) as H.
  { intros id. unfold slot. simpl. by destruct (id <? 1). }
  constructor; [simpl; unfold MAX_CHANNELS; lia|..]; intros *; by rewrite H.
Qed.

(** * Message transport *)

Definition queue_of (s : IState) (id : Z) : list Message :=
  match slot s id with Some c => c_queue c | None => [] end.

(** The message an operation put into channel [id]. *)
Definition sent1 (id : Z) (e : op * answer) : list Message :=
  match e with
  | (Send i _ data, ASend SendOk) | (SendReliable i _ data, ASend SendOk) =>
      if i =? id then [data] else []
  | _ => []
  end.
(** The bytes an operation handed out of channel [id], with the size of the buffer. *)
Definition delivered1 (id : Z) (e : op * answer) : list (list Z * nat) :=
  match e with
  | (Recv i buf _, ARecv (RecvOk n) b) | (RecvNonblock i buf, ARecv (RecvOk n) b) =>
      if i =? id then [(take n b, length buf)] else []
  | _ => []
  end.
Definition sent (id : Z) (es : list (op * answer)) : list Message := es ≫= sent1 id.
Definition delivered (id : Z) (es : list (op * answer)) : list (list Z * nat) := es ≫= delivered1 id.

(** Operations that may drop messages of channel [id]. *)
Definition lossy (id : Z) (e : op * answer) : bool :=
  match fst e with
  | Send i _ _ | AbortSenders i => i =? id
  | _ => false
  end.

(** [d] is what a buffer receives of message [m]. *)
Definition carries (d : list Z * nat) (m : Message) : Prop := fst d = take (snd d) m.

(** [popped] left the queue, [added] entered it, in order; exactly so if not lossy. *)
Definition transported (loss : bool) (q q' : list Message) (out : list (list Z * nat))
    (added : list Message) : Prop :=
  exists popped, Forall2 carries out popped /\ popped ++ q' `sublist_of` q ++ added /\
                 (loss = false -> popped ++ q' = q ++ added).

Lemma transported_same (loss : bool) (q : list Message) : transported loss q q [] [].
Proof. exists []. split_and!; [constructor|by rewrite app_nil_r|by rewrite app_nil_r]. Qed.

Lemma transported_trans (l1 l2 : bool) q1 q2 q3 o1 o2 a1 a2 :
  transported l1 q1 q2 o1 a1 -> transported l2 q2 q3 o2 a2 ->
  transported (l1 || l2) q1 q3 (o1 ++ o2) (a1 ++ a2).
Proof.
  intros (p1 & F1 & S1 & E1) (p2 & F2 & S2 & E2). exists (p1 ++ p2). split_and!.
  - by apply Forall2_app.
  - rewrite <- app_assoc. etrans; [by apply sublist_app; [reflexivity|apply S2]|].
    rewrite !app_assoc. by apply sublist_app.
  - intros [L1 L2]%orb_false_iff. rewrite <- app_assoc, E2, !app_assoc, E1 by done. done.
Qed.

Lemma carries_copy_out (msg : Message) (buf : list Z) :
  carries (take (fst (copy_out msg buf)) (snd (copy_out msg buf)), length buf) msg.
Proof.
  unfold carries, copy_out. simpl. rewrite take_app_length' by (rewrite length_take; lia).
  destruct (decide (length msg <= length buf)%nat).
  - by rewrite Nat.min_l, !take_ge by lia.
  - by rewrite Nat.min_r by lia.
Qed.

Lemma no_transfer_nil (id : Z) (o : op) (a : answer) :
  no_transfer a -> delivered1 id (o, a) = [] /\ sent1 id (o, a) = [].
Proof.
  intros [H1 H2]. split; destruct o; try done; destruct a as [|[]|[] |  |]; try done;
    by destruct (H1 len buf0).
Qed.

Lemma other_id_nil (id : Z) (o : op) (a : answer) :
  op_id o <> id -> delivered1 id (o, a) = [] /\ sent1 id (o, a) = [].
Proof.
  intros H. split; destruct o; try done; destruct a as [|[]|[] |  |]; try done; simpl in *;
    by rewrite (proj2 (Z.eqb_neq _ _)).
Qed.

Lemma queue_change_transported (id : Z) (o : op) (a : answer) (c c' : Channel) :
  op_id o = id -> queue_change o a c c' ->
  transported (lossy id (o, a)) (c_queue c) (c_queue c') (delivered1 id (o, a)) (sent1 id (o, a)).
Proof.
  intros <- Hq.
  destruct Hq as [i ? data c c' Hd E|i ? data c c' Hd Hl E|i ? ? msg c c' E|i ? msg c c' E|i c c' E|o a c c' E H1 H2].
  1-5: cbn [delivered1 sent1 lossy op_id fst]; rewrite ?Z.eqb_refl.
  - exists []. rewrite E. split_and!; [constructor| |done]. simpl.
    apply sublist_app; [|done]. destruct (make_room_suffix (c_queue c)) as [k Hk]. rewrite Hk at 2. by apply sublist_inserts_l.
  - exists []. rewrite E. by split_and!; [constructor|..].
  - exists [msg]. rewrite E, app_nil_r. split_and!; [|done..]. constructor; [apply carries_copy_out|done].
  - exists [msg]. rewrite E, app_nil_r. split_and!; [|done..]. constructor; [apply carries_copy_out|done].
  - exists []. rewrite E, app_nil_r. split_and!; [constructor|apply sublist_nil_l|done].
  - rewrite E.
    destruct (no_transfer_nil (op_id o) o a) as [-> ->]; [done|apply transported_same].
Qed.

Lemma step_transported (id : Z) (s s' : IState) (e : op * answer) :
  step s e s' ->
  transported (lossy id e) (queue_of s id) (queue_of s' id) (delivered1 id e) (sent1 id e).
Proof.
  destruct e as [o a]. unfold step. cbn [fst snd]. intros Hp. unfold queue_of.
  destruct (open_or_not o) as [[name ->]|Hno].
  { simpl in *. destruct (open name s) as [r s1] eqn:E. simplify_eq.
    destruct (open_effect name s s' r E) as [[Hs _]|[_ [(c & Hch & _)|(Hr & Hsl & _)]]].
    - rewrite (slots_same s s' Hs). apply transported_same.
    - rewrite (changes_slot _ id _ _ _ _ Hch). destruct (id =? r) eqn:Ei; zbool; [|apply transported_same].
      subst. rewrite (proj1 Hch). apply transported_same.
    - rewrite Hsl. destruct (id =? r) eqn:Ei; zbool; [|apply transported_same].
      subst. rewrite Hr. apply transported_same. }
  destruct (perform_effect o a s s' Hp Hno) as [[Hs Ha]|[(c & c' & Hch & _ & Hq & _)|(c & -> & -> & Hch & Hq & _)]].
  - rewrite (slots_same s s' Hs). destruct (no_transfer_nil id o a Ha) as [-> ->]. apply transported_same.
  - rewrite (changes_slot _ id _ _ _ _ Hch). destruct (id =? op_id o) eqn:Ei; zbool.
    + subst. rewrite (proj1 Hch). by apply queue_change_transported.
    + destruct (other_id_nil id o a) as [-> ->]; [done|]. apply transported_same.
  - rewrite (changes_slot _ id _ _ _ _ Hch). destruct (id =? _) eqn:Ei; zbool; [|apply transported_same].
    subst. rewrite (proj1 Hch), Hq. apply transported_same.
Qed.

Lemma trace_transported (id : Z) (s s' : IState) (es : list (op * answer)) :
  trace step s es s' ->
  transported (existsb (lossy id) es) (queue_of s id) (queue_of s' id) (delivered id es) (sent id es).
Proof.
  induction 1 as [s|s e s1 es s2 Hs Htr IH]; [apply transported_same|].
  cbn [existsb]. unfold delivered, sent. rewrite !bind_cons.
  eapply transported_trans; [by apply step_transported|done].
Qed.

(** A dropping send drops nothing while there is room: it is then the reliable one. *)
Definition drops (id : Z) (s : IState) (e : op * answer) : Prop :=
  match fst e with
  | Send i _ _ => i = id /\ (MAX_QUEUE <= length (queue_of s id))%nat
  | AbortSenders i => i = id
  | _ => False
  end.
Definition gentle_step (id : Z) (s : IState) (e : op * answer) (s' : IState) : Prop := step s e s' /\ ~ drops id s e.

Lemma make_room_room (q : list Message) : (length q < MAX_QUEUE)%nat -> make_room q = q.
Proof. intros Hl. destruct q as [|m q]; [done|]. cbn [make_room]. by rewrite (proj2 (Nat.leb_gt _ _)) by done. Qed.

Lemma gentle_transported (id : Z) (s s' : IState) (e : op * answer) :
  gentle_step id s e s' -> transported false (queue_of s id) (queue_of s' id) (delivered1 id e) (sent1 id e).
Proof.
  intros [Hs Hd]. destruct (lossy id e) eqn:El; [|rewrite <- El; by apply step_transported].
  destruct e as [[| i sender data| | | | |i| | |] a]; cbn [lossy fst] in El; try done; zbool; subst i; [|by destruct Hd].
  assert (step s (SendReliable id sender data, a) s') as Hr; [|exact (step_transported id s s' _ Hr)].
  unfold step in *. cbn [fst snd perform] in *. rewrite <- Hs. unfold try_send, try_send_reliable. unfold drops, queue_of in Hd. cbn [fst] in Hd.
  destruct (_ <? _)%nat; [done|]. destruct (slot s id) as [c|]; [|done]. assert (length (c_queue c) < MAX_QUEUE)%nat as Hl by lia.
  rewrite (make_room_room _ Hl), (proj2 (Nat.leb_gt _ _) Hl). by destruct c.
Qed.

Lemma gentle_trace_transported (id : Z) (s s' : IState) (es : list (op * answer)) :
  trace (gentle_step id) s es s' -> transported false (queue_of s id) (queue_of s' id) (delivered id es) (sent id es).
Proof.
  induction 1 as [s|s e s1 es s2 Hs Htr IH]; [apply transported_same|]. unfold delivered, sent. rewrite !bind_cons.
  apply (transported_trans false false _ (queue_of s1 id)); [by apply gentle_transported|done].
Qed.

(** C36: the channel table is well-formed at every point of every run: at most
    [MAX_CHANNELS] slots, no two channels of one name, every name and message
    within its limit, no queue longer than [MAX_QUEUE]. *)
Theorem channels_well_formed (p : PState) (es : list (op * answer)) (s : IState) :
  trace step (boot p) es s -> wf s.
Proof. apply trace_invariant; [intros *; apply perform_wf|apply boot_wf]. Qed.

(** C6: channels deliver in order.  Over any run, interleaved with any other
    operations and closings and reopenings, what receivers got from channel [id]
    is, message by message and cut to their buffers, followed by what is still
    queued, a subsequence of what was queued at first followed by what was sent;
    without dropping sends ([try_send]) and aborts on [id], it is all of it:
    nothing lost, duplicated or reordered. *)
Theorem channel_fifo (id : Z) (s s' : IState) (es : list (op * answer)) :
  trace step s es s' ->
  exists popped,
    Forall2 carries (delivered id es) popped /\
    popped ++ queue_of s' id `sublist_of` queue_of s id ++ sent id es /\
    (existsb (lossy id) es = false -> popped ++ queue_of s' id = queue_of s id ++ sent id es).
Proof. apply trace_transported. Qed.

(** ** Stability of ids *)

Definition is_close (id : Z) (e : op * answer) : bool :=
  match fst e with Close i => i =? id | _ => false end.

Lemma step_keeps (id : Z) (s s' : IState) (e : op * answer) (c : Channel) :
  step s e s' -> slot s id = Some c -> (is_close id e = true -> 1 < c_refs c) ->
  exists c', slot s' id = Some c' /\ same_name c c' /\
             c_refs c - (if is_close id e then 1 else 0) <= c_refs c'.
Proof.
  destruct e as [o a]. unfold step. cbn [fst snd]. intros Hp Hc Hr.
  destruct (open_or_not o) as [[name ->]|Hno].
  { simpl in *. destruct (open name s) as [r s1] eqn:E. simplify_eq.
    destruct (open_effect name s s' r E) as [[Hs _]|[_ [(d & Hch & _)|(Hr' & Hsl & _)]]].
    - exists c. rewrite (slots_same s s' Hs). split_and!; [done..|lia].
    - rewrite (changes_slot _ id _ _ _ _ Hch). destruct (id =? r) eqn:Ei; zbool.
      + subst. destruct Hch as [Hd _]. simplify_eq. eexists. split_and!; [done..|simpl; lia].
      + exists c. split_and!; [done..|lia].
    - rewrite Hsl. destruct (id =? r) eqn:Ei; zbool; [congruence|]. exists c. split_and!; [done..|lia]. }
  destruct (perform_effect o a s s' Hp Hno) as [[Hs Ha]|[(d & d' & Hch & Hn & _ & Hrefs)|(d & Ho & -> & Hch & Hq & Hd)]].
  - exists c. rewrite (slots_same s s' Hs). split_and!; [done..|case_match; lia].
  - rewrite (changes_slot _ id _ _ _ _ Hch). destruct (id =? op_id o) eqn:Ei; zbool.
    + subst. destruct Hch as [Hd _]. simplify_eq. exists d'. split_and!; [done..|].
      destruct Hrefs as [-> |[Ho Hd']]; [case_match; lia|].
      rewrite Ho in *. unfold is_close in *. simpl in *. rewrite Z.eqb_refl in *.
      rewrite Hd' by auto. lia.
    + exists c. split_and!; [done..|case_match; lia].
  - rewrite (changes_slot _ id _ _ _ _ Hch). destruct (id =? op_id o) eqn:Ei; zbool.
    + subst. destruct Hch as [Hd' _]. simplify_eq. rewrite Ho in Hr. unfold is_close in Hr. simpl in Hr.
      rewrite Z.eqb_refl in Hr. specialize (Hr eq_refl). lia.
    + exists c. split_and!; [done..|case_match; lia].
Qed.

Lemma trace_keeps (id : Z) (s s' : IState) (es : list (op * answer)) (c : Channel) :
  trace step s es s' -> slot s id = Some c ->
  Z.of_nat (length (retain (is_close id) es)) < c_refs c ->
  exists c', slot s' id = Some c' /\ same_name c c'.
Proof.
  intros Htr. revert c. induction Htr as [s|s e s1 es s2 Hs Htr IH]; intros c Hc Hn.
  { exists c. done. }
  cbn [retain] in Hn.
  destruct (step_keeps id s s1 e c Hs Hc) as (c1 & Hc1 & [N1 N2] & Hr1).
  { intros He. rewrite He in Hn. cbn [length] in Hn. lia. }
  destruct (IH c1 Hc1) as (c2 & Hc2 & [N3 N4]).
  { destruct (is_close id e); cbn [length] in Hn; lia. }
  exists c2. split; [done|]. split; congruence.
Qed.

(** A channel id keeps naming the same channel while references to it are
    held: if fewer closings of [id] happen than it has references, then after any
    run, other channels opened and closed meanwhile, [id] is still the channel of
    that name. *)
Theorem channel_id_stable (id : Z) (s s' : IState) (es : list (op * answer)) (c : Channel) :
  slot s id = Some c -> trace step s es s' ->
  Z.of_nat (length (retain (is_close id) es)) < c_refs c ->
  exists c', slot s' id = Some c' /\ name_of c' = name_of c.
Proof.
  intros Hc Htr Hn. destruct (trace_keeps id s s' es c Htr Hc Hn) as (c' & ? & ?).
  exists c'. split; [done|]. by apply name_of_same.
Qed.

(** * Blocking receivers *)

(** The state and wait target of the main thread of process [i]. *)
Definition main_thread (i : Z) (s : PState) : option Thread.Thread :=
  t ← main_tid i s; Thread.find t (ts s).

Definition asleep_ipc (t : Thread.Thread) : Prop :=
  Thread.t_state t = Thread.Sleeping /\ exists id, Thread.t_wait t = Thread.WIpc id.

(** Still to be woken, or already woken. *)
Definition pending_or_ready (t : Thread.Thread) : Prop :=
  asleep_ipc t \/ Thread.t_state t = Thread.Ready.

Lemma main_tid_on_ts (i : Z) (f : Thread.TState -> Thread.TState) (s : PState) :
  main_tid i (on_ts f s) = main_tid i s.
Proof. done. Qed.

Lemma main_tid_wakeup (i w r : Z) (s : PState) : main_tid i (wakeup_ipc_waiter w r s) = main_tid i s.
Proof. unfold wakeup_ipc_waiter, on_main. by destruct (main_tid w s). Qed.

(** Thread-level effect of a wakeup, seen from any thread. *)
Lemma wakeup_find (t id r : Z) (s : Thread.TState) :
  Thread.find t (Thread.wakeup_ipc_waiter id r s) =
  (if t =? id then (fun x => if Thread.is_state Thread.Sleeping x && (match Thread.t_wait x with Thread.WIpc _ => true | _ => false end)
                             then Thread.wake (Thread.kmem s) r x else x) <$> Thread.find id s
   else Thread.find t s).
Proof.
  unfold Thread.wakeup_ipc_waiter. apply Thread.find_modify. intros x. case_match; [apply Thread.tid_wake|done].
Qed.

Lemma wakeup_keeps (i w r : Z) (s : PState) (t : Thread.Thread) :
  main_thread i s = Some t -> pending_or_ready t ->
  exists t', main_thread i (wakeup_ipc_waiter w r s) = Some t' /\ pending_or_ready t'.
Proof.
  unfold main_thread. rewrite main_tid_wakeup. destruct (main_tid i s) as [m|]; [|done]. simpl.
  unfold wakeup_ipc_waiter, on_main. intros Hf Ht. destruct (main_tid w s) as [mw|]; [|eauto].
  simpl. rewrite wakeup_find. destruct (m =? mw) eqn:E; zbool; [|eauto]. subst. rewrite Hf. simpl.
  eexists. split; [done|]. case_match; [by right|done].
Qed.

Lemma wakeup_wakes (i r : Z) (s : PState) (t : Thread.Thread) :
  main_thread i s = Some t -> pending_or_ready t ->
  exists t', main_thread i (wakeup_ipc_waiter i r s) = Some t' /\ Thread.t_state t' = Thread.Ready.
Proof.
  unfold main_thread. rewrite main_tid_wakeup. unfold wakeup_ipc_waiter, on_main.
  destruct (main_tid i s) as [m|]; [|done]. simpl. intros Hf Ht. rewrite wakeup_find, Z.eqb_refl, Hf. simpl.
  eexists. split; [done|]. destruct Ht as [[Hs [id Hw]]|Hr].
  - unfold Thread.is_state. rewrite bool_decide_true, Hw by done. done.
  - unfold Thread.is_state. rewrite bool_decide_false by congruence. done.
Qed.

Lemma ready_stays (i w r : Z) (s : PState) (t : Thread.Thread) :
  main_thread i s = Some t -> Thread.t_state t = Thread.Ready ->
  exists t', main_thread i (wakeup_ipc_waiter w r s) = Some t' /\ Thread.t_state t' = Thread.Ready.
Proof.
  unfold main_thread. rewrite main_tid_wakeup. destruct (main_tid i s) as [m|]; [|done]. simpl.
  unfold wakeup_ipc_waiter, on_main. intros Hf Ht. destruct (main_tid w s) as [mw|]; [|eauto].
  simpl. rewrite wakeup_find. destruct (m =? mw) eqn:E; zbool; [|eauto]. subst. rewrite Hf. simpl.
  eexists. split; [done|]. by case_match.
Qed.

(** One send: the first waiter leaves the list and is woken. *)
Lemma try_send_wakes (id sender : Z) (data : Message) (s : IState) (c : Channel) :
  slot s id = Some c -> (length data <= MAX_MSG_SIZE)%nat ->
  fst (try_send id sender data s) = SendOk /\
  exists c', slot (snd (try_send id sender data s)) id = Some c' /\
    c_recv_waiters c' = tail (c_recv_waiters c) /\
    ps (snd (try_send id sender data s)) =
      (match c_recv_waiters c with [] => ps s | w :: _ => wakeup_ipc_waiter w 0 (ps s) end).
Proof.
  intros Hc Hd. unfold try_send. apply Nat.ltb_ge in Hd. rewrite Hd, Hc. cbn [fst snd].
  split; [done|]. unfold enqueue, wake_receiver. cbn [c_recv_waiters with_queue].
  apply slot_Some_pos in Hc as [Hid Hc].
  destruct (c_recv_waiters c) as [|w ws] eqn:Ew; eexists;
    (split; [unfold slot, set_ps, set_slot; cbn [chans]; rewrite (proj2 (Z.ltb_ge _ _)) by lia;
             rewrite list_lookup_insert_eq by (by eapply lookup_lt_Some); reflexivity|simpl; by rewrite ?Ew]).
Qed.

Definition send_all (id : Z) (msgs : list Message) (s : IState) : IState :=
  foldl (fun s m => snd (try_send id 0 m s)) s msgs.

Lemma send_all_ready (id i : Z) (msgs : list Message) (s : IState) (c : Channel) (t : Thread.Thread) :
  slot s id = Some c -> Forall (fun m => (length m <= MAX_MSG_SIZE)%nat) msgs ->
  main_thread i (ps s) = Some t -> Thread.t_state t = Thread.Ready ->
  exists t', main_thread i (ps (send_all id msgs s)) = Some t' /\ Thread.t_state t' = Thread.Ready.
Proof.
  intros Hc Hm. revert s c t Hc. induction Hm as [|m msgs Hm _ IH]; intros s c t Hc Ht Hr; [eauto|].
  cbn [send_all foldl]. destruct (try_send_wakes id 0 m s c Hc Hm) as (_ & c' & Hc' & _ & Hps).
  assert (exists t', main_thread i (ps (snd (try_send id 0 m s))) = Some t' /\ Thread.t_state t' = Thread.Ready)
    as (t' & Ht' & Hr').
  { rewrite Hps. destruct (c_recv_waiters c); [eauto|]. by eapply ready_stays. }
  by eapply IH.
Qed.

Lemma send_all_wakes (id i : Z) (ws1 ws2 : list Z) (msgs : list Message) (s : IState) (c : Channel)
    (t : Thread.Thread) :
  slot s id = Some c -> c_recv_waiters c = ws1 ++ i :: ws2 ->
  Forall (fun m => (length m <= MAX_MSG_SIZE)%nat) msgs -> (length ws1 < length msgs)%nat ->
  main_thread i (ps s) = Some t -> pending_or_ready t ->
  exists t', main_thread i (ps (send_all id msgs s)) = Some t' /\ Thread.t_state t' = Thread.Ready.
Proof.
  intros Hc Hw Hm. revert s c t ws1 Hc Hw.
  induction Hm as [|m msgs Hm Hms IH]; intros s c t ws1 Hc Hw Hl Ht Hp; simpl in Hl; [lia|].
  destruct (try_send_wakes id 0 m s c Hc Hm) as (_ & c' & Hc' & Hw' & Hps).
  cbn [send_all foldl]. rewrite Hw in Hw', Hps. destruct ws1 as [|w ws1]; simpl in Hw', Hps.
  - destruct (wakeup_wakes i 0 (ps s) t Ht Hp) as (t' & Ht' & Hr). rewrite <- Hps in Ht'.
    by eapply send_all_ready.
  - destruct (wakeup_keeps i w 0 (ps s) t Ht Hp) as (t' & Ht' & Hr). rewrite <- Hps in Ht'.
    apply (IH _ c' t' ws1 Hc' Hw'); [simpl in Hl; lia|done|done].
Qed.

(** Going to sleep on a channel. *)
Lemma sleep_on_ipc (i id : Z) (s : PState) (t : Thread.Thread) :
  main_thread i s = Some t -> Thread.terminal (Thread.t_state t) = false ->
  exists t', main_thread i (set_sleeping i (set_wait_target i (Thread.WIpc id) s)) = Some t' /\ asleep_ipc t'.
Proof.
  unfold main_thread. intros Hf Hl. unfold set_wait_target, set_sleeping, on_main.
  destruct (main_tid i s) as [m|] eqn:Em; [|done]. simpl in Hf.
  assert (main_tid i (on_ts (Thread.set_wait_target m (Thread.WIpc id)) s) = Some m) as E1 by done.
  set (s1 := on_ts _ s) in *.
  set (f := fun p => if Thread.terminal (p_state p) then p else with_pstate Thread.Sleeping p).
  assert (main_tid i (modify i f s1) = Some m) as E2.
  { rewrite (main_tid_key i s1); [done|]. apply keys_modify. intros p. unfold f. by case_match. }
  rewrite E2. rewrite main_tid_on_ts, E2. simpl.
  unfold Thread.set_sleeping, Thread.set_wait_target.
  rewrite !Thread.find_modify, !Z.eqb_refl, Hf by (intros; by repeat case_match). simpl.
  rewrite Hl. eexists. split; [done|]. split; [done|]. by eexists.
Qed.

(** C12: no wakeup is lost.  When a receive finds channel [id] empty and blocks
    process [i], the process is asleep and registered; from then on it takes no
    more sends than there are registered receivers to make it ready, whoever
    registered before it. *)
Theorem recv_no_lost_wakeup (id i : Z) (buf b : list Z) (s s1 : IState) (t : Thread.Thread)
    (msgs : list Message) :
  i <> 0 -> main_thread i (ps s) = Some t -> Thread.terminal (Thread.t_state t) = false ->
  try_recv id buf i s = (RecvBlock, b, s1) ->
  Forall (fun m => (length m <= MAX_MSG_SIZE)%nat) msgs ->
  exists c1 t1, slot s1 id = Some c1 /\ c_queue c1 = [] /\ i ∈ c_recv_waiters c1 /\
    main_thread i (ps s1) = Some t1 /\ asleep_ipc t1 /\
    (length msgs = length (c_recv_waiters c1) ->
     exists t2, main_thread i (ps (send_all id msgs s1)) = Some t2 /\ Thread.t_state t2 = Thread.Ready).
Proof.
  intros Hi Ht Hl Hr Hm. unfold try_recv in Hr. destruct (slot s id) as [c|] eqn:Hc; [|done].
  destruct (c_queue c) as [|msg q] eqn:Hq.
  2:{ unfold dequeue in Hr. destruct (copy_out msg buf). by destruct (wake_sender _ _). }
  rewrite (proj2 (Z.eqb_neq _ _) Hi) in Hr. simplify_eq.
  destruct (sleep_on_ipc i id (ps s) t Ht Hl) as (t1 & Ht1 & Ha).
  set (c1 := with_recv_waiters (c_recv_waiters c ++ [i]) c). set (s1 := on_ps _ _).
  assert (slot s1 id = Some c1) as Hc1.
  { pose proof (slot_set_slot s id id c (Some c1) Hc) as H. by rewrite Z.eqb_refl in H. }
  exists c1, t1. split_and!; [done|done|simpl; set_solver|done|done|].
  intros Hlen. eapply (send_all_wakes id i (c_recv_waiters c) [] msgs s1 c1 t1); [done..| |done|by left].
  simpl in Hlen. rewrite length_app in Hlen. simpl in Hlen. lia.
Qed.

(** * Witnesses *)

(** Run operations, recording their answers. *)
Fixpoint run_ops (os : list op) (s : IState) : list (op * answer) * IState :=
  match os with
  | [] => ([], s)
  | o :: os' =>
      let '(a, s1) := perform o s in
      let '(es, s2) := run_ops os' s1 in ((o, a) :: es, s2)
  end.

Lemma run_ops_trace (os : list op) (s : IState) :
  trace step s (fst (run_ops os s)) (snd (run_ops os s)).
Proof.
  revert s. induction os as [|o os IH]; intros s; simpl; [constructor|].
  destruct (perform o s) as [a s1] eqn:E. specialize (IH s1).
  destruct (run_ops os s1) as [es s2]. econstructor; [exact E|done].
Qed.

Module Example.
(** Two channels; a message goes through the first, a second one stays queued. *)
Definition script : list op :=
  [Open [65; 66]; SendReliable 1 5 [7; 8; 9]; Open [67]; SendReliable 1 5 [4];
   Recv 1 [0; 0] 6; Close 2; Open [68]].
Definition start : IState := boot Process.Example.st.

Lemma channels_well_formed_witness : wf (snd (run_ops script start)).
Proof. apply (channels_well_formed Process.Example.st (fst (run_ops script start))), run_ops_trace. Defined.

Lemma channel_fifo_witness :
  delivered 1 (fst (run_ops script start)) = [([7; 8], 2%nat)] /\
  exists popped,
    Forall2 carries (delivered 1 (fst (run_ops script start))) popped /\
    popped ++ queue_of (snd (run_ops script start)) 1 `sublist_of`
      queue_of start 1 ++ sent 1 (fst (run_ops script start)) /\
    (existsb (lossy 1) (fst (run_ops script start)) = false ->
     popped ++ queue_of (snd (run_ops script start)) 1 = queue_of start 1 ++ sent 1 (fst (run_ops script start))).
Proof. split; [vm_compute; reflexivity|]. apply channel_fifo, run_ops_trace. Defined.

Definition opened : IState := snd (run_ops [Open [65; 66]] start).

Lemma channel_id_stable_witness :
  exists c', slot (snd (run_ops [Open [67]; Close 2; Send 1 5 [3]; Open [65; 66]; Close 7] opened)) 1 = Some c' /\
             name_of c' = [65; 66].
Proof.
  apply (channel_id_stable 1 opened
           (snd (run_ops [Open [67]; Close 2; Send 1 5 [3]; Open [65; 66]; Close 7] opened))
           (fst (run_ops [Open [67]; Close 2; Send 1 5 [3]; Open [65; 66]; Close 7] opened))
           (new_channel [65; 66])); [vm_compute; reflexivity|apply run_ops_trace|vm_compute; reflexivity].
Defined.

(** Process 5 registers and blocks behind process 6; two sends make it ready. *)
Definition one_waits : IState := snd (try_recv 1 [0; 0] 6 opened).

Lemma recv_no_lost_wakeup_witness :
  exists t2, main_thread 5 (ps (send_all 1 [[1]; [2]] (snd (try_recv 1 [0; 0] 5 one_waits)))) = Some t2 /\
             Thread.t_state t2 = Thread.Ready.
Proof.
  destruct (recv_no_lost_wakeup 1 5 [0; 0] [0; 0] one_waits (snd (try_recv 1 [0; 0] 5 one_waits))
              (Process.Example.thr 1 0) [[1]; [2]]) as (c1 & t1 & Hc & _ & _ & _ & _ & H);
    [done|vm_compute; reflexivity|reflexivity|apply pair_fst; vm_compute; reflexivity| |].
  - repeat constructor; apply Nat.leb_le; vm_compute; reflexivity.
  - apply H. assert (slot (snd (try_recv 1 [0; 0] 5 one_waits)) 1 =
      Some (with_recv_waiters [6; 5] (new_channel [65; 66]))) as E by (vm_compute; reflexivity).
    rewrite E in Hc. by simplify_eq.
Defined.
End Example.

End Ipc.
