(* ===== verification/Pipe.v ===== *)
(** Pipes: [crates/kernel/src/fs/pipe.rs], with [notify_pipe_readers] of
    [crates/kernel/src/task/thread.rs].

    The static [PIPES] vector is a list of slots, a pipe id its index.  Every
    function runs under the thread lock.  [notify_pipe_readers] copies into the
    reader's address space: user memory is a byte map per [cr3]. *)
From stdpp Require Import base list numbers option gmap.
From S2P Require Import Prelude Thread Uaccess.

Open Scope Z_scope.

Module Pipe.

Record PipeState := mkPipe { data : list Z; write_refs : Z; read_refs : Z }.
#[export] Instance PipeState_eq_dec : EqDecision PipeState.
Proof. solve_decision. Defined.

Notation Pipes := (list (option PipeState)).

(** Reference counts are [u32]. *)
Definition wrap32 (x : Z) : Z := x mod 2 ^ 32.
#[global] Arguments wrap32 : simpl never.

(** [pipes().get_mut(id)] with both options present. *)
Definition slot (id : Z) (ps : Pipes) : option PipeState :=
  match ps !! Z.to_nat id with Some o => o | None => None end.
Definition set_slot (id : Z) (o : option PipeState) (ps : Pipes) : Pipes := <[Z.to_nat id := o]> ps.

Definition empty_pipe : PipeState := mkPipe [] 0 0.
Definition is_none_slot (o : option PipeState) : bool := match o with None => true | Some _ => false end.

Definition create (ps : Pipes) : Z * Pipes :=
  match position is_none_slot ps with
  | Some i => (Z.of_nat i, <[i := Some empty_pipe]> ps)
  | None => (Z.of_nat (length ps), ps ++ [Some empty_pipe])
  end.

Definition clone_write (id : Z) (ps : Pipes) : Pipes :=
  match slot id ps with
  | Some p => set_slot id (Some (mkPipe (data p) (wrap32 (write_refs p + 1)) (read_refs p))) ps
  | None => ps
  end.
Definition clone_read (id : Z) (ps : Pipes) : Pipes :=
  match slot id ps with
  | Some p => set_slot id (Some (mkPipe (data p) (write_refs p) (wrap32 (read_refs p + 1)))) ps
  | None => ps
  end.

Definition write (id : Z) (bytes : list Z) (ps : Pipes) : nat * Pipes :=
  match slot id ps with
  | Some p =>
      if read_refs p =? 0 then (0%nat, ps)
      else (length bytes, set_slot id (Some (mkPipe (data p ++ bytes) (write_refs p) (read_refs p))) ps)
  | None => (0%nat, ps)
  end.

(** [n = max_len.min(data.len())]: the bytes handed out, and the pipe after
    [drain(..n)]. *)
Definition take_out (id : Z) (max_len : nat) (ps : Pipes) : list Z * Pipes :=
  match slot id ps with
  | Some p =>
      let n := Nat.min max_len (length (data p)) in
      (take n (data p), set_slot id (Some (mkPipe (drop n (data p)) (write_refs p) (read_refs p))) ps)
  | None => ([], ps)
  end.

(** The count, the caller's buffer, the pipes. *)
Definition read (id : Z) (buf : list Z) (ps : Pipes) : nat * list Z * Pipes :=
  let '(out, ps') := take_out id (length buf) ps in
  (length out, out ++ drop (length out) buf, ps').

(** The same into user memory [ub]. *)
Definition read_raw (id buf_ptr : Z) (max_len : nat) (ub : gmap Z Z) (ps : Pipes) : nat * gmap Z Z * Pipes :=
  let '(out, ps') := take_out id max_len ps in (length out, Uaccess.store ub buf_ptr out, ps').

Definition is_empty (id : Z) (ps : Pipes) : bool :=
  match slot id ps with Some p => bool_decide (data p = []) | None => true end.
Definition writer_closed (id : Z) (ps : Pipes) : bool :=
  match slot id ps with Some p => write_refs p =? 0 | None => true end.

(** Free the slot when neither end is referenced. *)
Definition settle (id : Z) (p : PipeState) (ps : Pipes) : Pipes :=
  set_slot id (if (write_refs p =? 0) && (read_refs p =? 0) then None else Some p) ps.

Definition close_write (id : Z) (ps : Pipes) : Pipes :=
  match slot id ps with
  | Some p => settle id (mkPipe (data p) (saturating_sub (write_refs p) 1) (read_refs p)) ps
  | None => ps
  end.
Definition close_read (id : Z) (ps : Pipes) : Pipes :=
  match slot id ps with
  | Some p => settle id (mkPipe (data p) (write_refs p) (saturating_sub (read_refs p) 1)) ps
  | None => ps
  end.

(** * Waking blocked readers *)

Record State := mkState {
  pipes : Pipes;
  tst : Thread.TState;
  tables : gmap Z Z;              (* physical words: the page tables *)
  active_cr3 : Z;
  umem : gmap Z (gmap Z Z)        (* user bytes, per address space *)
}.

Definition set_pipes (ps : Pipes) (s : State) : State :=
  mkState ps (tst s) (tables s) (active_cr3 s) (umem s).

(** The loop body for one thread: the thread, the pipes, user memory. *)
Definition notify_thread (id : Z) (s : State) (t : Thread.Thread) (acc : Pipes * gmap Z (gmap Z Z))
    : Thread.Thread * (Pipes * gmap Z (gmap Z Z)) :=
  match Thread.t_state t, Thread.t_wait t with
  | Thread.Sleeping, Thread.WPipeRead id' buf_ptr buf_len =>
      if id' =? id then
        let reader_cr3 := Thread.cr3 (Thread.t_context t) in
        match Uaccess.validate_range_in reader_cr3 buf_ptr buf_len true (tables s) with
        | Some true =>
            let switch := negb (reader_cr3 =? 0) && negb (reader_cr3 =? active_cr3 s) in
            let space := if switch then reader_cr3 else active_cr3 s in
            let '(n, ub, ps) :=
              read_raw id buf_ptr (Z.to_nat buf_len) (default ∅ (snd acc !! space)) (fst acc) in
            (Thread.wake (Thread.kmem (tst s)) (Z.of_nat n)
               (Thread.with_blocking_retval (Z.of_nat n) t),
             (ps, <[space := ub]> (snd acc)))
        | _ => (t, acc)
        end
      else (t, acc)
  | _, _ => (t, acc)
  end.

Fixpoint notify_loop (id : Z) (s : State) (l : list Thread.Thread) (acc : Pipes * gmap Z (gmap Z Z))
    : list Thread.Thread * (Pipes * gmap Z (gmap Z Z)) :=
  match l with
  | [] => ([], acc)
  | t :: l' =>
      let '(t', acc1) := notify_thread id s t acc in
      let '(l'', acc2) := notify_loop id s l' acc1 in (t' :: l'', acc2)
  end.

Definition notify_pipe_readers (id : Z) (s : State) : State :=
  let '(l, (ps, um)) := notify_loop id s (Thread.threads (tst s)) (pipes s, umem s) in
  mkState ps (Thread.set_threads l (tst s)) (tables s) (active_cr3 s) um.

(** * Slots *)

Lemma slot_lt (id : Z) (ps : Pipes) (p : PipeState) :
  slot id ps = Some p -> (Z.to_nat id < length ps)%nat.
Proof.
  unfold slot. intros H. destruct (ps !! Z.to_nat id) as [o|] eqn:E; [|done].
  by eapply lookup_lt_Some.
Qed.

Lemma pipe_set_slot (id id' : Z) (o : option PipeState) (ps : Pipes) (p : PipeState) :
  0 <= id -> 0 <= id' -> slot id ps = Some p ->
  slot id' (set_slot id o ps) = (if id' =? id then o else slot id' ps).
Proof.
  intros H0 H0' H%slot_lt. unfold slot, set_slot. destruct (id' =? id) eqn:E; zbool.
  - subst. by rewrite list_lookup_insert_eq.
  - rewrite list_lookup_insert_ne by lia. done.
Qed.

(** [create] takes a free slot, of an id at most the table's length, and leaves
    the others alone. *)
Lemma create_spec (ps : Pipes) :
  slot (fst (create ps)) ps = None /\ 0 <= fst (create ps) <= Z.of_nat (length ps) /\
  forall id, 0 <= id ->
    slot id (snd (create ps)) = (if id =? fst (create ps) then Some empty_pipe else slot id ps).
Proof.
  unfold create. destruct (position _ ps) as [i|] eqn:E; cbn [fst snd].
  - apply position_Some in E as ([p|] & Hi & Hn & _); [done|]. pose proof (lookup_lt_Some _ _ _ Hi).
    unfold slot. rewrite Nat2Z.id, Hi. split_and!; [done|lia|lia|]. intros id Hid.
    destruct (id =? Z.of_nat i) eqn:Ei; zbool.
    + subst. rewrite Nat2Z.id. by rewrite list_lookup_insert_eq.
    + rewrite list_lookup_insert_ne by lia. done.
  - unfold slot. rewrite Nat2Z.id, lookup_ge_None_2 by lia. split_and!; [done|lia|lia|]. intros id Hid.
    destruct (id =? Z.of_nat (length ps)) eqn:Ei; zbool.
    + subst. rewrite Nat2Z.id. by rewrite list_lookup_middle.
    + destruct (decide (id < Z.of_nat (length ps))).
      * rewrite lookup_app_l by lia. done.
      * rewrite (lookup_ge_None_2 ps), lookup_ge_None_2; [done|..]; rewrite ?length_app; simpl; lia.
Qed.

(** * The byte stream *)

Inductive op :=
  | Create
  | CloneWrite (id : Z)
  | CloneRead (id : Z)
  | Write (id : Z) (bytes : list Z)
  | Read (id : Z) (buf : list Z)
  | CloseWrite (id : Z)
  | CloseRead (id : Z).

(** The answer of an operation: an id, a count, or a count with the buffer. *)
Inductive answer := AId (id : Z) | ACount (n : nat) | ABuf (n : nat) (buf : list Z) | AUnit.

Definition perform (o : op) (ps : Pipes) : answer * Pipes :=
  match o with
  | Create => let '(i, ps') := create ps in (AId i, ps')
  | CloneWrite id => (AUnit, clone_write id ps)
  | CloneRead id => (AUnit, clone_read id ps)
  | Write id bytes => let '(n, ps') := write id bytes ps in (ACount n, ps')
  | Read id buf => let '(n, b, ps') := read id buf ps in (ABuf n b, ps')
  | CloseWrite id => (AUnit, close_write id ps)
  | CloseRead id => (AUnit, close_read id ps)
  end.

Definition op_id (o : op) : Z :=
  match o with
  | Create => 0
  | CloneWrite id | CloneRead id | Write id _ | Read id _ | CloseWrite id | CloseRead id => id
  end.

(** Ids are [u64]. *)
Definition step (ps : Pipes) (e : op * answer) (ps' : Pipes) : Prop :=
  0 <= op_id (fst e) /\ perform (fst e) ps = (snd e, ps').

(** All bytes writers passed to pipe [id], and all bytes readers got from it. *)
Definition written1 (id : Z) (e : op * answer) : list Z :=
  match e with (Write i bytes, _) => if i =? id then bytes else [] | _ => [] end.
Definition got1 (id : Z) (e : op * answer) : list Z :=
  match e with (Read i _, ABuf n b) => if i =? id then take n b else [] | _ => [] end.
Definition is_close_read (id : Z) (e : op * answer) : bool :=
  match fst e with CloseRead i => i =? id | _ => false end.
Definition closes (id : Z) (es : list (op * answer)) : Z :=
  Z.of_nat (length (retain (is_close_read id) es)).

Lemma step_other (id : Z) (ps ps' : Pipes) (e : op * answer) (p : PipeState) :
  0 <= id -> step ps e ps' -> slot id ps = Some p -> op_id (fst e) <> id \/ fst e = Create ->
  slot id ps' = Some p.
Proof.
  intros Hid [Ho Hs] Hp Hne. destruct e as [o a]. cbn [fst snd] in *.
  destruct o; cbn [perform op_id] in *; simplify_eq.
  1:{ pose proof (create_spec ps) as (Hn & _ & Hsl). destruct (create ps) as [i ps1]. simplify_eq.
      cbn [fst snd] in *. rewrite Hsl by done. destruct (id =? i) eqn:E; zbool; [congruence|done]. }
  all: destruct Hne as [Hne|Hne]; [|done].
  all: unfold clone_write, clone_read, write, read, take_out, close_write, close_read, settle in *.
  all: destruct (slot id0 ps) as [q|] eqn:Hq; [|simplify_eq; done].
  all: try destruct (read_refs q =? 0); simplify_eq; try done;
    rewrite (pipe_set_slot id0 id _ ps q), (proj2 (Z.eqb_neq _ _)) by done; done.
Qed.

(** One step on a pipe with a reader. *)
Lemma step_stream (id : Z) (ps ps' : Pipes) (e : op * answer) (p : PipeState) :
  0 <= id -> step ps e ps' -> slot id ps = Some p ->
  (if is_close_read id e then 1 else 0) < read_refs p < 2 ^ 32 - 1 ->
  exists p', slot id ps' = Some p' /\ got1 id e ++ data p' = data p ++ written1 id e /\
    read_refs p - (if is_close_read id e then 1 else 0) <= read_refs p' <= read_refs p + 1.
Proof.
  intros Hid Hs Hp Hr.
  assert ((op_id (fst e) <> id \/ fst e = Create) \/ (op_id (fst e) = id /\ fst e <> Create))
    as [Hne|[Heq Hnc]].
  { destruct (decide (op_id (fst e) = id)); [|by left; left]. destruct (fst e); auto. }
  { exists p. split; [by eapply step_other|]. destruct e as [o a]. cbn [fst] in *.
    unfold is_close_read in *. cbn [fst] in *.
    destruct o; cbn [op_id got1 written1] in *; rewrite ?app_nil_r; (split; [done|lia]) || idtac.
    all: destruct Hne as [Hne|?]; [|done]; rewrite (proj2 (Z.eqb_neq _ _) Hne) in *;
      (split; [|lia]); rewrite ?app_nil_r; try done. by destruct a. }
  assert (forall o, slot id (set_slot id o ps) = o) as Hset.
  { intros o. rewrite (pipe_set_slot id id o ps p) by done. by rewrite Z.eqb_refl. }
  destruct Hs as [_ Hs]. destruct e as [o a]. unfold is_close_read in *. cbn [fst snd] in *.
  assert (wrap32 (read_refs p + 1) = read_refs p + 1) as Hwrap.
  { unfold wrap32. apply Z.mod_small. repeat case_match; lia. }
  destruct o; cbn [op_id] in Heq; subst; cbn [perform got1 written1] in *; rewrite ?Z.eqb_refl in *; [done|..].
  all: unfold clone_write, clone_read, write, read, take_out, close_write, close_read, settle in Hs;
    rewrite Hp in Hs; cbn [data write_refs read_refs] in Hs.
  - simplify_eq. rewrite Hset. eexists. split; [done|]. simpl. rewrite app_nil_r. split; [done|lia].
  - simplify_eq. rewrite Hset. eexists. split; [done|]. simpl. rewrite app_nil_r, Hwrap. split; [done|lia].
  - rewrite (proj2 (Z.eqb_neq _ _)) in Hs by lia. simplify_eq. rewrite Hset.
    eexists. split; [done|]. simpl. split; [done|lia].
  - simplify_eq. rewrite Hset. eexists. split; [done|]. cbn [data read_refs].
    rewrite take_app_length, app_nil_r, take_drop. split; [done|lia].
  - simplify_eq. rewrite (proj2 (Z.eqb_neq (read_refs p) 0)), andb_false_r by lia. rewrite Hset.
    eexists. split; [done|]. simpl. rewrite app_nil_r. split; [done|lia].
  - simplify_eq. unfold saturating_sub. rewrite (proj2 (Z.eqb_neq (Z.max _ _) 0)), andb_false_r by lia.
    rewrite Hset. eexists. split; [done|]. cbn [data read_refs]. rewrite app_nil_r. split; [done|lia].
Qed.

Lemma trace_stream (id : Z) (ps ps' : Pipes) (es : list (op * answer)) (p : PipeState) :
  0 <= id -> trace step ps es ps' -> slot id ps = Some p ->
  closes id es < read_refs p -> read_refs p + Z.of_nat (length es) < 2 ^ 32 ->
  exists p', slot id ps' = Some p' /\ (es ≫= got1 id) ++ data p' = data p ++ (es ≫= written1 id).
Proof.
  intros Hid Htr. revert p. unfold closes.
  induction Htr as [ps|ps e ps1 es ps2 Hs Htr IH]; intros p Hp Hc Hb.
  { exists p. split; [done|]. by rewrite app_nil_r. }
  cbn [retain length] in Hc, Hb.
  assert (Z.of_nat (length (if is_close_read id e then e :: retain (is_close_read id) es
                            else retain (is_close_read id) es)) =
          (if is_close_read id e then 1 else 0) + Z.of_nat (length (retain (is_close_read id) es))) as El.
  { destruct (is_close_read id e); cbn [length]; lia. }
  rewrite El in Hc.
  destruct (step_stream id ps ps1 e p Hid Hs Hp) as (p1 & Hp1 & E1 & Hr1); [lia|].
  destruct (IH p1 Hp1) as (p2 & Hp2 & E2); [lia|lia|].
  exists p2. split; [done|]. rewrite !bind_cons, <- app_assoc, E2, !app_assoc, E1. done.
Qed.

(** C33: a pipe is a lossless byte stream.  As long as its read end stays
    referenced (fewer closings of it than references), over any run the bytes
    readers got followed by the bytes still buffered are exactly the bytes
    buffered at first followed by the bytes written, in order, whatever happens
    to other pipes and to the write end. *)
Theorem pipe_stream (id : Z) (ps ps' : Pipes) (es : list (op * answer)) (p : PipeState) :
  0 <= id -> trace step ps es ps' -> slot id ps = Some p ->
  closes id es < read_refs p -> read_refs p + Z.of_nat (length es) < 2 ^ 32 ->
  exists p', slot id ps' = Some p' /\ (es ≫= got1 id) ++ data p' = data p ++ (es ≫= written1 id).
Proof. apply trace_stream. Qed.

(** ** Wakeups at an empty pipe *)

Definition reads_pipe (id : Z) (s : State) (t : Thread.Thread) : Prop :=
  exists buf_ptr buf_len, Thread.t_state t = Thread.Sleeping /\
    Thread.t_wait t = Thread.WPipeRead id buf_ptr buf_len /\
    Uaccess.validate_range_in (Thread.cr3 (Thread.t_context t)) buf_ptr buf_len true (tables s) = Some true.

Lemma take_out_empty (id : Z) (n : nat) (ps : Pipes) (p : PipeState) :
  slot id ps = Some p -> data p = [] -> take_out id n ps = ([], ps).
Proof.
  intros Hp Hd. unfold take_out. rewrite Hp, Hd. simpl. rewrite Nat.min_0_r. simpl. f_equal.
  unfold set_slot. apply list_insert_id. unfold slot in Hp.
  destruct (ps !! Z.to_nat id) as [o|] eqn:E; [|done]. subst. f_equal. f_equal. by destruct p; simpl in *; subst.
Qed.

Lemma notify_thread_empty (id : Z) (s : State) (t : Thread.Thread) (ps : Pipes) um (p : PipeState) :
  slot id ps = Some p -> data p = [] ->
  fst (snd (notify_thread id s t (ps, um))) = ps /\
  (reads_pipe id s t ->
   Thread.t_state (fst (notify_thread id s t (ps, um))) = Thread.Ready /\
   Thread.t_blocking_retval (fst (notify_thread id s t (ps, um))) = 0 /\
   (Thread.t_blocking_rsp t <> 0 ->
    Thread.rax (Thread.t_context (fst (notify_thread id s t (ps, um)))) = 0)).
Proof.
  intros Hp Hd. unfold notify_thread, read_raw. cbn [fst snd]. split.
  - repeat case_match; simplify_eq; try done.
    all: match goal with H : take_out _ _ _ = _ |- _ => rewrite (take_out_empty id _ ps p) in H by done end;
      by simplify_eq.
  - intros (bp & bl & Hs & Hw & Hv). rewrite Hs, Hw, Z.eqb_refl, Hv.
    rewrite (take_out_empty id _ ps p) by done. cbn [fst snd].
    unfold Thread.wake, Thread.restore_ctx_from_blocking_frame. cbn [Thread.t_blocking_rsp Thread.with_blocking_retval].
    destruct (Thread.t_blocking_rsp t =? 0) eqn:E; zbool; split_and!; done.
Qed.

Lemma notify_loop_empty (id : Z) (s : State) (l : list Thread.Thread) (ps : Pipes) um (p : PipeState) :
  slot id ps = Some p -> data p = [] ->
  fst (snd (notify_loop id s l (ps, um))) = ps /\
  forall k t, l !! k = Some t -> reads_pipe id s t ->
    exists t', fst (notify_loop id s l (ps, um)) !! k = Some t' /\ Thread.t_state t' = Thread.Ready /\
      Thread.t_blocking_retval t' = 0 /\
      (Thread.t_blocking_rsp t <> 0 -> Thread.rax (Thread.t_context t') = 0).
Proof.
  intros Hp Hd. revert um. induction l as [|t l IH]; intros um; simpl; [done|].
  destruct (notify_thread_empty id s t ps um p Hp Hd) as [H1 H2].
  destruct (notify_thread id s t (ps, um)) as [t' [ps1 um1]]. simpl in *. subst ps1.
  destruct (IH um1) as [H3 H4]. destruct (notify_loop id s l (ps, um1)) as [l' acc]. simpl in *.
  split; [done|]. intros [|k] u Hu Hr; simpl in *; simplify_eq; [|eauto]. exists t'. split; [done|]. auto.
Qed.

(** * Witness *)

Fixpoint run_ops (os : list op) (ps : Pipes) : list (op * answer) * Pipes :=
  match os with
  | [] => ([], ps)
  | o :: os' =>
      let '(a, ps1) := perform o ps in
      let '(es, ps2) := run_ops os' ps1 in ((o, a) :: es, ps2)
  end.

Lemma pipe_ops_trace (os : list op) (ps : Pipes) :
  Forall (fun o => 0 <= op_id o) os -> trace step ps (fst (run_ops os ps)) (snd (run_ops os ps)).
Proof.
  intros Hos. revert ps. induction Hos as [|o os Ho _ IH]; intros ps; simpl; [constructor|].
  destruct (perform o ps) as [a ps1] eqn:E. specialize (IH ps1).
  destruct (run_ops os ps1) as [es ps2]. econstructor; [split; [exact Ho|exact E]|done].
Qed.

(** Two pipes; bytes written in two pieces are read in three. *)
Definition script : list op :=
  [Write 0 [1; 2; 3]; Create; Read 0 [0; 0]; CloseWrite 0; Write 0 [4]; Read 0 [0]; Read 0 [0; 0; 0]].

Lemma pipe_stream_witness :
  exists p', slot 0 (snd (run_ops script [Some (mkPipe [] 1 1)])) = Some p' /\
    (fst (run_ops script [Some (mkPipe [] 1 1)]) ≫= got1 0) ++ data p' =
    [] ++ (fst (run_ops script [Some (mkPipe [] 1 1)]) ≫= written1 0).
Proof.
  apply (pipe_stream 0 [Some (mkPipe [] 1 1)] (snd (run_ops script [Some (mkPipe [] 1 1)]))
           (fst (run_ops script [Some (mkPipe [] 1 1)])) (mkPipe [] 1 1));
    [lia|apply pipe_ops_trace; repeat constructor; simpl; lia|reflexivity|vm_compute; reflexivity|vm_compute; reflexivity].
Defined.

End Pipe.
