(* ===== verification/Fd.v ===== *)
(** File descriptors: [crates/kernel/src/fs/fd.rs], and the pipe system call of
    [crates/kernel/src/syscall/runtime.rs].

    The static [TABLES] vector is a list with one optional table per pid.  A
    device entry names its driver's operations table by a number; the calls of
    the drivers' [close] functions are recorded, the drivers themselves are not
    part of the model.

    Each function of [fd.rs] and [pipe.rs] runs under the thread lock, but a system call
    makes several of them and the lock is free in between.  The section "Calls in
    progress" therefore cuts the calls into their lock sections, which the calls of
    different processes interleave freely. *)
From stdpp Require Import base list numbers option gmap.
From S2P Require Import Prelude Allocator Thread Uaccess Pipe.

Open Scope Z_scope.

Module Fd.

Definition MAX_FD : nat := 1024.

Inductive FdEntry :=
  | Empty
  | File (node generation offset : Z)
  | Device (ops handle : Z)
  | ConsoleOut
  | ConsoleIn
  | PipeRead (id : Z)
  | PipeWrite (id : Z).
#[export] Instance FdEntry_eq_dec : EqDecision FdEntry.
Proof. solve_decision. Defined.

(** [FdTable]: its [entries]. *)
Notation FdTable := (list FdEntry).

Record State := mkState {
  tables : list (option FdTable);
  world : Pipe.State;
  dev_closed : list (Z * Z)        (* calls of [(ops.close)(handle)], oldest first *)
}.

Definition on_pipes (f : list (option Pipe.PipeState) -> list (option Pipe.PipeState)) (s : State) : State :=
  mkState (tables s) (Pipe.set_pipes (f (Pipe.pipes (world s))) (world s)) (dev_closed s).
Definition set_tables (l : list (option FdTable)) (s : State) : State :=
  mkState l (world s) (dev_closed s).

(** [tables.get(pid)] with both options present. *)
Definition table (pid : Z) (s : State) : option FdTable :=
  match tables s !! Z.to_nat pid with Some o => o | None => None end.
Definition set_table (pid : Z) (t : FdTable) (s : State) : State :=
  set_tables (<[Z.to_nat pid := Some t]> (tables s)) s.

(** [Vec::resize(n, x)] where it grows. *)
Definition grow {A : Type} (n : nat) (x : A) (l : list A) : list A := l ++ replicate (n - length l) x.

Definition ensure_table (pid : Z) (s : State) : State :=
  let idx := Z.to_nat pid in
  let l := if (length (tables s) <=? idx)%nat then grow (idx + 1) None (tables s) else tables s in
  set_tables (match l !! idx with Some None => <[idx := Some []]> l | _ => l end) s.

Definition pipe_clone (e : FdEntry) (s : State) : State :=
  match e with
  | PipeWrite id => on_pipes (Pipe.clone_write id) s
  | PipeRead id => on_pipes (Pipe.clone_read id) s
  | _ => s
  end.

Definition close_entry (e : FdEntry) (s : State) : State :=
  match e with
  | Device ops handle => mkState (tables s) (world s) (dev_closed s ++ [(ops, handle)])
  | PipeWrite id =>
      let s := on_pipes (Pipe.close_write id) s in
      mkState (tables s) (Pipe.notify_pipe_readers id (world s)) (dev_closed s)
  | PipeRead id => on_pipes (Pipe.close_read id) s
  | _ => s
  end.

Definition alloc_fd_at (pid : Z) (fd : nat) (e : FdEntry) (s : State) : bool * State :=
  if (MAX_FD <=? fd)%nat then (false, s)
  else
  let s := ensure_table pid s in
  match table pid s with
  | Some t =>
      let t := if (length t <=? fd)%nat then grow (fd + 1) Empty t else t in
      (true, set_table pid (<[fd := e]> t) (pipe_clone e s))
  | None => (false, s)
  end.

Definition is_empty_entry (e : FdEntry) : bool := bool_decide (e = Empty).

Definition alloc_fd (pid : Z) (e : FdEntry) (s : State) : option nat * State :=
  let s := ensure_table pid s in
  match table pid s with
  | None => (None, s)
  | Some t =>
      match position is_empty_entry t with
      | Some i => (Some i, set_table pid (<[i := e]> t) (pipe_clone e s))
      | None =>
          if (length t <? MAX_FD)%nat
          then (Some (length t), set_table pid (t ++ [e]) (pipe_clone e s))
          else (None, s)
      end
  end.

Definition get_fd (pid : Z) (fd : nat) (s : State) : option FdEntry := t ← table pid s; t !! fd.

Definition set_fd (pid : Z) (fd : nat) (e : FdEntry) (s : State) : bool * State :=
  match table pid s with
  | Some t => if (fd <? length t)%nat then (true, set_table pid (<[fd := e]> t) s) else (false, s)
  | None => (false, s)
  end.

Definition free_fd (pid : Z) (fd : nat) (s : State) : bool * State :=
  match table pid s with
  | Some t =>
      match t !! fd with
      | Some e => (true, set_table pid (<[fd := Empty]> t) (close_entry e s))
      | None => (false, s)
      end
  | None => (false, s)
  end.

Definition close_all (pid : Z) (s : State) : State :=
  match table pid s with
  | Some t => set_table pid [] (foldl (fun s e => close_entry e s) s t)
  | None => s
  end.

(** [sys_pipe] for [caller]; [write_ok] is whether the two numbers could be
    written to the caller's memory, and the result carries the numbers. *)
Definition sys_pipe (caller out_ptr : Z) (write_ok : bool) (s : State) : Z * option (nat * nat) * State :=
  let '(pipe_id, ps) := Pipe.create (Pipe.pipes (world s)) in
  let s := on_pipes (fun _ => ps) s in
  let '(read_fd, s) := alloc_fd caller (PipeRead pipe_id) s in
  let '(write_fd, s) := alloc_fd caller (PipeWrite pipe_id) s in
  match read_fd, write_fd with
  | Some r, Some w =>
      if negb (out_ptr =? 0) && negb write_ok
      then (u64_max, None, snd (free_fd caller w (snd (free_fd caller r s))))
      else (0, Some (r, w), s)
  | _, _ =>
      let s := match read_fd with Some r => snd (free_fd caller r s) | None => s end in
      let s := match write_fd with Some w => snd (free_fd caller w s) | None => s end in
      (u64_max, None, s)
  end.

(** * Calls in progress *)

(** What the spawner does with the descriptors of a new process: install an entry, or a
    copy of one of its own ([None]: skip if it has none). *)
Inductive Item :=
  | Put (fd : nat) (e : FdEntry)
  | Dup (fd src : nat) (dflt : option FdEntry).

Definition NO_FD : Z := 65535.
Definition std_item (fd : nat) (arg : Z) (dflt : FdEntry) : Item :=
  if arg =? NO_FD then Put fd dflt else Dup fd (Z.to_nat arg) (Some dflt).
Definition spawn_items (stdin_fd stdout_fd : Z) (ctty : bool) : list Item :=
  (if (stdin_fd =? NO_FD) && (stdout_fd =? NO_FD)
   then [Put 0 ConsoleIn; Put 1 ConsoleOut; Put 2 ConsoleOut]
   else [Put 2 ConsoleOut; std_item 0 stdin_fd ConsoleIn; std_item 1 stdout_fd ConsoleOut]) ++
  (if ctty then [Dup 3 0 None] else []).

(** Where a call is between two lock sections: a file was read or written and the offset
    is to be stored; a pipe was made; its read end was installed; descriptors are to be
    given back; a new process is to get its descriptors; it is to get this one. *)
Inductive Pending :=
  | PAdvance (fd : nat) (node generation offset : Z)
  | PPipe (id : Z)
  | PPipeEnd (id : Z) (read_fd : option nat)
  | PRollback (l : list nat)
  | PSpawn (child : Z) (l : list Item)
  | PPut (child : Z) (fd : nat) (e : FdEntry) (l : list Item).

Record Kernel := mkKernel { fds : State; pend : gmap Z Pending }.
Definition put_fds (s : State) (k : Kernel) : Kernel := mkKernel s (pend k).
Definition go_on (pid : Z) (q : Pending) (k : Kernel) : Kernel := mkKernel (fds k) (<[pid := q]> (pend k)).
Definition finish (pid : Z) (k : Kernel) : Kernel := mkKernel (fds k) (delete pid (pend k)).

Inductive Call :=
  | COpen (e : FdEntry)                        (* [sys_open], [sys_create] *)
  | CClose (fd : nat)                          (* [sys_close] *)
  | CExit                                      (* [exit_current] *)
  | CFileIo (fd : nat) (n : Z)                 (* [sys_read], [sys_write] of a file: [n] bytes *)
  | CPipeRead (id : Z) (buf : list Z)          (* [sys_read] of a pipe *)
  | CPipeWrite (id : Z) (bytes : list Z)       (* [sys_write] to a pipe *)
  | CPipe                                      (* [sys_pipe] *)
  | CSpawn (child stdin_fd stdout_fd : Z) (ctty : bool).   (* [sys_exec], [child] made *)

(** The first lock section of a call of [pid]. *)
Definition begin (pid : Z) (c : Call) (k : Kernel) : Kernel :=
  let s := fds k in
  match c with
  | COpen e => put_fds (snd (alloc_fd pid e s)) k
  | CClose fd => put_fds (snd (free_fd pid fd s)) k
  | CExit => put_fds (close_all pid s) k
  | CFileIo fd n =>
      match get_fd pid fd s with Some (File node g off) => go_on pid (PAdvance fd node g (off + n)) k | _ => k end
  | CPipeRead id buf => put_fds (on_pipes (fun ps => snd (Pipe.read id buf ps)) s) k
  | CPipeWrite id bytes =>
      let s := on_pipes (fun ps => snd (Pipe.write id bytes ps)) s in
      put_fds (mkState (tables s) (Pipe.notify_pipe_readers id (world s)) (dev_closed s)) k
  | CPipe =>
      let '(id, ps) := Pipe.create (Pipe.pipes (world s)) in go_on pid (PPipe id) (put_fds (on_pipes (fun _ => ps) s) k)
  | CSpawn child i o ctty => go_on pid (PSpawn child (spawn_items i o ctty)) k
  end.

(** The next lock section of the call [pid] is in; [ok] is whether the two numbers of a
    new pipe could be written to the caller. *)
Definition resume (pid : Z) (ok : bool) (k : Kernel) : Kernel :=
  let s := fds k in
  match pend k !! pid with
  | Some (PAdvance fd node g off) => finish pid (put_fds (snd (set_fd pid fd (File node g off) s)) k)
  | Some (PPipe id) => let '(r, s) := alloc_fd pid (PipeRead id) s in go_on pid (PPipeEnd id r) (put_fds s k)
  | Some (PPipeEnd id r) =>
      let '(w, s) := alloc_fd pid (PipeWrite id) s in
      match r, w with
      | Some rfd, Some wfd => if ok then finish pid (put_fds s k) else go_on pid (PRollback [rfd; wfd]) (put_fds s k)
      | _, _ => go_on pid (PRollback (option_list r ++ option_list w)) (put_fds s k)
      end
  | Some (PRollback (fd :: l)) => go_on pid (PRollback l) (put_fds (snd (free_fd pid fd s)) k)
  | Some (PRollback []) => finish pid k
  | Some (PSpawn child (Put fd e :: l)) => go_on pid (PPut child fd e l) k
  | Some (PSpawn child (Dup fd src dflt :: l)) =>
      match (match get_fd pid src s with Some e => Some e | None => dflt end) with
      | Some e => go_on pid (PPut child fd e l) k
      | None => go_on pid (PSpawn child l) k
      end
  | Some (PPut child fd e l) => go_on pid (PSpawn child l) (put_fds (snd (alloc_fd_at child fd e s)) k)
  | Some (PSpawn child []) => finish pid k
  | None => k
  end.

(** * Counting descriptors *)

Definition ind (e x : FdEntry) : Z := if bool_decide (x = e) then 1 else 0.
(** How many descriptors of all processes are [e]. *)
Definition cnt (s : State) (e : FdEntry) : Z :=
  zsum (fun o => zsum (ind e) (default [] o)) (tables s).

Lemma ind_nonneg (e x : FdEntry) : 0 <= ind e x.
Proof. unfold ind. case_match; lia. Qed.

Lemma cnt_table_nonneg (e : FdEntry) (o : option FdTable) : 0 <= zsum (ind e) (default [] o).
Proof. apply zsum_nonneg, ind_nonneg. Qed.

Lemma table_lookup (pid : Z) (s : State) (t : FdTable) :
  table pid s = Some t -> tables s !! Z.to_nat pid = Some (Some t).
Proof. unfold table. destruct (tables s !! _) as [o|]; [|done]. by intros ->. Qed.

Lemma cnt_set_table (pid : Z) (s s' : State) (t t' : FdTable) (e : FdEntry) :
  table pid s = Some t -> tables s' = <[Z.to_nat pid := Some t']> (tables s) ->
  cnt s' e = cnt s e - zsum (ind e) t + zsum (ind e) t'.
Proof.
  intros Ht%table_lookup Hs'. unfold cnt. rewrite Hs', (zsum_insert _ _ _ _ _ Ht). simpl. lia.
Qed.

Lemma cnt_nonneg (s : State) (e : FdEntry) : 0 <= cnt s e.
Proof. apply zsum_nonneg. intros o. apply cnt_table_nonneg. Qed.

Lemma cnt_lookup (pid : Z) (s : State) (t : FdTable) (e : FdEntry) :
  table pid s = Some t -> zsum (ind e) t <= cnt s e.
Proof.
  intros Ht%table_lookup. unfold cnt.
  apply (zsum_lookup_le (fun o => zsum (ind e) (default [] o)) (tables s) (Z.to_nat pid) (Some t)); [|done].
  intros o. apply cnt_table_nonneg.
Qed.

(** [ensure_table] adds no descriptor and gives [pid] a table. *)
Lemma ensure_table_spec (pid : Z) (s : State) :
  (exists t, table pid (ensure_table pid s) = Some t) /\
  world (ensure_table pid s) = world s /\
  (forall e, cnt (ensure_table pid s) e = cnt s e) /\
  (forall pid' t, 0 <= pid -> 0 <= pid' -> table pid' (ensure_table pid s) = Some t ->
     table pid' s = Some t \/ t = []).
Proof.
  unfold ensure_table.
  set (l := if (length (tables s) <=? Z.to_nat pid)%nat then grow (Z.to_nat pid + 1) None (tables s) else tables s).
  assert (is_Some (l !! Z.to_nat pid)) as [o Ho].
  { apply lookup_lt_is_Some. unfold l, grow. destruct (_ <=? _)%nat eqn:E.
    - rewrite length_app, length_replicate. lia.
    - apply Nat.leb_gt in E. lia. }
  assert (forall e, zsum (fun o => zsum (ind e) (default [] o)) l = cnt s e) as Hcnt.
  { intros e. unfold l, cnt, grow. destruct (_ <=? _)%nat; [|done].
    rewrite zsum_app, (zsum_replicate _ _ None) by done. lia. }
  assert (forall i t, l !! i = Some (Some t) -> tables s !! i = Some (Some t)) as Hold.
  { intros i t. unfold l, grow. destruct (_ <=? _)%nat; [|done]. rewrite lookup_app.
    destruct (tables s !! i) eqn:E; [done|]. intros [? _]%lookup_replicate. done. }
  rewrite Ho. unfold table, set_tables. cbn [tables world]. split_and!.
  - destruct o as [t|]; [rewrite Ho; eauto|]. rewrite list_lookup_insert_eq by (by eapply lookup_lt_Some). eauto.
  - done.
  - intros e. unfold cnt at 1. cbn [tables]. destruct o as [t|]; [done|].
    rewrite (zsum_insert _ _ _ _ _ Ho), Hcnt. simpl. lia.
  - intros pid' t Hpid Hpid' Ht. destruct o as [t0|].
    + left. destruct (l !! Z.to_nat pid') as [o|] eqn:E; [|done]. subst. by rewrite (Hold _ _ E).
    + destruct (decide (pid' = pid)) as [->|Hne].
      * rewrite list_lookup_insert_eq in Ht by (by eapply lookup_lt_Some). right. by simplify_eq.
      * rewrite list_lookup_insert_ne in Ht by lia. left.
        destruct (l !! Z.to_nat pid') as [o|] eqn:E; [|done]. subst. by rewrite (Hold _ _ E).
Qed.

(** * Reference counts *)

Definition refs_of (id : Z) (ps : list (option Pipe.PipeState)) : option (Z * Z) :=
  (fun p => (Pipe.write_refs p, Pipe.read_refs p)) <$> Pipe.slot id ps.

(** The pipes' counts are those of [C]; a pipe that is gone has none. *)
Definition agree (C : FdEntry -> Z) (ps : list (option Pipe.PipeState)) : Prop :=
  forall id, 0 <= id ->
    match refs_of id ps with
    | Some (w, r) => w = C (PipeWrite id) /\ r = C (PipeRead id)
    | None => C (PipeWrite id) = 0 /\ C (PipeRead id) = 0
    end.

(** A pipe entry's id is a [u64]. *)
Definition entry_ok (e : FdEntry) : Prop :=
  match e with PipeRead id | PipeWrite id => 0 <= id | _ => True end.

Lemma refs_take_out (id id' : Z) (n : nat) (ps : list (option Pipe.PipeState)) :
  0 <= id -> 0 <= id' -> refs_of id' (snd (Pipe.take_out id n ps)) = refs_of id' ps.
Proof.
  intros H H'. unfold Pipe.take_out, refs_of. destruct (Pipe.slot id ps) as [p|] eqn:E; [|done].
  cbn [snd]. rewrite (Pipe.pipe_set_slot id id' _ ps p) by done.
  destruct (id' =? id) eqn:Ei; zbool; [|done]. subst. by rewrite E.
Qed.

Lemma refs_notify_thread (id id' : Z) (s : Pipe.State) (t : Thread.Thread) acc :
  0 <= id -> 0 <= id' -> refs_of id' (fst (snd (Pipe.notify_thread id s t acc))) = refs_of id' (fst acc).
Proof.
  intros H H'. unfold Pipe.notify_thread, Pipe.read_raw. destruct acc as [ps um]. cbn [fst snd].
  destruct (Thread.t_state t); try done. destruct (Thread.t_wait t); try done.
  destruct (_ =? _); [|done]. destruct (Uaccess.validate_range_in _ _ _ _ _) as [[]|]; try done.
  pose proof (refs_take_out id id' (Z.to_nat buf_len) ps H H') as E.
  destruct (Pipe.take_out _ _ _) as [out ps']. done.
Qed.

Lemma refs_notify (id id' : Z) (s : Pipe.State) :
  0 <= id -> 0 <= id' -> refs_of id' (Pipe.pipes (Pipe.notify_pipe_readers id s)) = refs_of id' (Pipe.pipes s).
Proof.
  intros H H'. unfold Pipe.notify_pipe_readers.
  assert (forall l acc, refs_of id' (fst (snd (Pipe.notify_loop id s l acc))) = refs_of id' (fst acc)) as Hl.
  { induction l as [|t l IH]; intros acc; [done|]. cbn [Pipe.notify_loop].
    pose proof (refs_notify_thread id id' s t acc H H') as Ht.
    destruct (Pipe.notify_thread id s t acc) as [t' acc1]. cbn [fst snd] in Ht.
    specialize (IH acc1). destruct (Pipe.notify_loop id s l acc1) as [l' acc2]. cbn [fst snd] in *. congruence. }
  specialize (Hl (Thread.threads (Pipe.tst s)) (Pipe.pipes s, Pipe.umem s)).
  destruct (Pipe.notify_loop _ _ _ _) as [l [ps um]]. done.
Qed.

(** Two pipe tables that differ at [id] only, by [f] on its counts. *)
Definition refs_at (id : Z) (f : Z * Z -> option (Z * Z)) (ps ps' : list (option Pipe.PipeState)) : Prop :=
  forall id', 0 <= id' ->
    refs_of id' ps' = (if id' =? id then refs_of id ps ≫= f else refs_of id' ps).

Lemma refs_set_slot (id : Z) (ps : list (option Pipe.PipeState)) (p : Pipe.PipeState)
    (o : option Pipe.PipeState) (f : Z * Z -> option (Z * Z)) :
  0 <= id -> Pipe.slot id ps = Some p ->
  (fun p => (Pipe.write_refs p, Pipe.read_refs p)) <$> o = f (Pipe.write_refs p, Pipe.read_refs p) ->
  refs_at id f ps (Pipe.set_slot id o ps).
Proof.
  intros H Hp Hf id' H'. unfold refs_of. rewrite (Pipe.pipe_set_slot id id' o ps p) by done.
  destruct (id' =? id) eqn:E; [|done]. by rewrite Hp.
Qed.

Lemma refs_none (id : Z) (f : Z * Z -> option (Z * Z)) (ps : list (option Pipe.PipeState)) :
  Pipe.slot id ps = None -> refs_at id f ps ps.
Proof.
  intros Hp id' H'. destruct (id' =? id) eqn:E; zbool; [|done]. subst. unfold refs_of. by rewrite Hp.
Qed.

(** The count after dropping one reference, as [settle] leaves it. *)
Definition settled (w r : Z) : option (Z * Z) := if (w =? 0) && (r =? 0) then None else Some (w, r).

Lemma refs_clone_write (id : Z) (ps : list (option Pipe.PipeState)) :
  0 <= id -> refs_at id (fun '(w, r) => Some (Pipe.wrap32 (w + 1), r)) ps (Pipe.clone_write id ps).
Proof.
  intros H. unfold Pipe.clone_write. destruct (Pipe.slot id ps) as [p|] eqn:E; [|by apply refs_none].
  by apply (refs_set_slot id ps p).
Qed.

Lemma refs_clone_read (id : Z) (ps : list (option Pipe.PipeState)) :
  0 <= id -> refs_at id (fun '(w, r) => Some (w, Pipe.wrap32 (r + 1))) ps (Pipe.clone_read id ps).
Proof.
  intros H. unfold Pipe.clone_read. destruct (Pipe.slot id ps) as [p|] eqn:E; [|by apply refs_none].
  by apply (refs_set_slot id ps p).
Qed.

Lemma refs_close_write (id : Z) (ps : list (option Pipe.PipeState)) :
  0 <= id -> refs_at id (fun '(w, r) => settled (saturating_sub w 1) r) ps (Pipe.close_write id ps).
Proof.
  intros H. unfold Pipe.close_write, Pipe.settle. destruct (Pipe.slot id ps) as [p|] eqn:E; [|by apply refs_none].
  apply (refs_set_slot id ps p); [done..|]. unfold settled. cbn [Pipe.write_refs Pipe.read_refs]. by case_match.
Qed.

Lemma refs_close_read (id : Z) (ps : list (option Pipe.PipeState)) :
  0 <= id -> refs_at id (fun '(w, r) => settled w (saturating_sub r 1)) ps (Pipe.close_read id ps).
Proof.
  intros H. unfold Pipe.close_read, Pipe.settle. destruct (Pipe.slot id ps) as [p|] eqn:E; [|by apply refs_none].
  apply (refs_set_slot id ps p); [done..|]. unfold settled. cbn [Pipe.write_refs Pipe.read_refs]. by case_match.
Qed.

Lemma agree_ext (C C' : FdEntry -> Z) (ps : list (option Pipe.PipeState)) :
  (forall id, C (PipeWrite id) = C' (PipeWrite id) /\ C (PipeRead id) = C' (PipeRead id)) ->
  agree C ps -> agree C' ps.
Proof. intros HC H id Hid. specialize (H id Hid). destruct (HC id) as [<- <-]. done. Qed.

(** The pipe an entry refers to is live and its count can still grow. *)
Definition can_clone (e : FdEntry) (ps : list (option Pipe.PipeState)) : Prop :=
  match e with
  | PipeWrite id => exists w r, refs_of id ps = Some (w, r) /\ w < 2 ^ 32 - 1
  | PipeRead id => exists w r, refs_of id ps = Some (w, r) /\ r < 2 ^ 32 - 1
  | _ => True
  end.

Lemma wrap32_small (x : Z) : 0 <= x < 2 ^ 32 -> Pipe.wrap32 x = x.
Proof. apply Z.mod_small. Qed.

Lemma ind_same (e : FdEntry) : ind e e = 1.
Proof. unfold ind. by rewrite bool_decide_true. Qed.
Lemma ind_ne (e x : FdEntry) : x <> e -> ind e x = 0.
Proof. intros H. unfold ind. by rewrite bool_decide_false. Qed.

(** A change of [C] at one entry of pipe [i] only. *)
Lemma agree_at (C C' : FdEntry -> Z) (i : Z) (f : Z * Z -> option (Z * Z)) (ps ps' : list (option Pipe.PipeState)) :
  0 <= i -> agree C ps -> refs_at i f ps ps' ->
  (forall id, id <> i -> C' (PipeWrite id) = C (PipeWrite id) /\ C' (PipeRead id) = C (PipeRead id)) ->
  match refs_of i ps ≫= f with
  | Some (w, r) => w = C' (PipeWrite i) /\ r = C' (PipeRead i)
  | None => C' (PipeWrite i) = 0 /\ C' (PipeRead i) = 0
  end -> agree C' ps'.
Proof.
  intros Hi Ha Hr Hne Heq id Hid. rewrite (Hr id Hid). destruct (id =? i) eqn:E; zbool; [by subst|].
  destruct (Hne id E) as [-> ->]. by apply Ha.
Qed.

Lemma agree_clone (C : FdEntry -> Z) (e : FdEntry) (s : State) :
  (forall x, 0 <= C x) -> entry_ok e -> can_clone e (Pipe.pipes (world s)) ->
  agree C (Pipe.pipes (world s)) ->
  agree (fun x => C x + ind x e) (Pipe.pipes (world (pipe_clone e s))).
Proof.
  intros HC He Hcl Ha.
  destruct e as [| | | | |i|i]; cbn [pipe_clone entry_ok can_clone] in *;
    try (eapply agree_ext; [|done]; intros id; cbn beta; rewrite !ind_ne by done; lia).
  - destruct Hcl as (w & r & Er & Hlt). pose proof (Ha i He) as Hi. rewrite Er in Hi. destruct Hi as [-> ->].
    pose proof (HC (PipeRead i)).
    eapply (agree_at C _ i); [done|done|by apply refs_clone_read|intros id Hid; cbn beta; rewrite !ind_ne by congruence; lia|].
    rewrite Er. simpl. rewrite ind_same, ind_ne, wrap32_small by (done || lia). lia.
  - destruct Hcl as (w & r & Er & Hlt). pose proof (Ha i He) as Hi. rewrite Er in Hi. destruct Hi as [-> ->].
    pose proof (HC (PipeWrite i)).
    eapply (agree_at C _ i); [done|done|by apply refs_clone_write|intros id Hid; cbn beta; rewrite !ind_ne by congruence; lia|].
    rewrite Er. simpl. rewrite ind_same, ind_ne, wrap32_small by (done || lia). lia.
Qed.

Lemma agree_settled (C : FdEntry -> Z) (i w r : Z) :
  w = C (PipeWrite i) -> r = C (PipeRead i) ->
  match settled w r with
  | Some (w, r) => w = C (PipeWrite i) /\ r = C (PipeRead i)
  | None => C (PipeWrite i) = 0 /\ C (PipeRead i) = 0
  end.
Proof. intros -> ->. unfold settled. destruct (_ && _) eqn:E; [|done]. by zbool. Qed.

Lemma agree_close (C : FdEntry -> Z) (e : FdEntry) (s : State) :
  entry_ok e -> 1 <= C e -> agree C (Pipe.pipes (world s)) ->
  agree (fun x => C x - ind x e) (Pipe.pipes (world (close_entry e s))).
Proof.
  intros He Hc Ha.
  destruct e as [| | | | |i|i]; cbn [close_entry entry_ok] in *;
    try (eapply agree_ext; [|done]; intros id; cbn beta; rewrite !ind_ne by done; lia).
  - pose proof (Ha i He) as Hi. destruct (refs_of i _) as [[w r]|] eqn:Er; [|lia]. destruct Hi as [-> ->].
    eapply (agree_at C _ i); [done|done|by apply refs_close_read|intros id Hid; cbn beta; rewrite !ind_ne by congruence; lia|].
    rewrite Er. simpl. apply (agree_settled (fun x => C x - ind x (PipeRead i))).
    + rewrite ind_ne by done. lia.
    + rewrite ind_same. unfold saturating_sub. lia.
  - pose proof (Ha i He) as Hi. destruct (refs_of i _) as [[w r]|] eqn:Er; [|lia]. destruct Hi as [-> ->].
    eapply (agree_at C _ i (fun '(w, r) => settled (saturating_sub w 1) r) (Pipe.pipes (world s)));
      [done|done| |intros id Hid; cbn beta; rewrite !ind_ne by congruence; lia|].
    + intros id Hid. cbn [world]. rewrite refs_notify by done. by apply refs_close_write.
    + rewrite Er. simpl. apply (agree_settled (fun x => C x - ind x (PipeWrite i))).
      * rewrite ind_same. unfold saturating_sub. lia.
      * rewrite ind_ne by done. lia.
Qed.

Lemma tables_close_entry (e : FdEntry) (s : State) : tables (close_entry e s) = tables s.
Proof. by destruct e. Qed.
Lemma tables_pipe_clone (e : FdEntry) (s : State) : tables (pipe_clone e s) = tables s.
Proof. by destruct e. Qed.

(** * The invariant *)

Record inv (s : State) : Prop := {
  inv_refs : agree (cnt s) (Pipe.pipes (world s));
  inv_entries : forall pid t, 0 <= pid -> table pid s = Some t -> Forall entry_ok t
}.

(** Replacing the table of [pid], the pipes agreeing with the change. *)
Lemma inv_set_table (pid : Z) (s s' : State) (t t' : FdTable) :
  0 <= pid -> inv s -> table pid s = Some t -> tables s' = tables s -> Forall entry_ok t' ->
  agree (fun e => cnt s e - zsum (ind e) t + zsum (ind e) t') (Pipe.pipes (world s')) ->
  inv (set_table pid t' s').
Proof.
  intros Hpid Hinv Ht Hs Hok Ha. split.
  - eapply agree_ext; [|exact Ha]. intros id. cbn beta.
    by rewrite <- !(cnt_set_table pid s (set_table pid t' s') t t') by (simpl; congruence).
  - intros pid' u Hpid'. unfold table, set_table. simpl. rewrite Hs.
    destruct (decide (pid' = pid)) as [->|Hne].
    + rewrite list_lookup_insert_eq by (by eapply lookup_lt_Some, table_lookup). by intros [= <-].
    + rewrite list_lookup_insert_ne by lia. intros Hu. eapply (inv_entries s Hinv pid'); [done|].
      unfold table. done.
Qed.

Definition is_pipe (e : FdEntry) : bool := match e with PipeRead _ | PipeWrite _ => true | _ => false end.

Lemma ind_not_pipe (e x : FdEntry) : is_pipe e = true -> is_pipe x = false -> ind e x = 0.
Proof. intros He Hx. apply ind_ne. intros ->. congruence. Qed.

Lemma ensure_inv (pid : Z) (s : State) : 0 <= pid -> inv s -> inv (ensure_table pid s).
Proof.
  intros Hpid [Ha He]. destruct (ensure_table_spec pid s) as (_ & Hw & Hc & Ht). split.
  - rewrite Hw. eapply agree_ext; [|exact Ha]. intros id. by rewrite !Hc.
  - intros pid' t Hpid' Hin. destruct (Ht pid' t Hpid Hpid' Hin) as [?| ->]; [eauto|constructor].
Qed.

Lemma zsum_ind_grow (e : FdEntry) (n : nat) (t : FdTable) :
  is_pipe e = true -> zsum (ind e) (grow n Empty t) = zsum (ind e) t.
Proof.
  intros He. unfold grow. rewrite zsum_app, (zsum_replicate _ _ Empty); [lia|]. by apply ind_not_pipe.
Qed.

(** Installing [e] over an entry that is not a pipe end. *)
Lemma install_inv (pid : Z) (s : State) (t t' : FdTable) (e : FdEntry) :
  0 <= pid -> inv s -> table pid s = Some t -> entry_ok e -> can_clone e (Pipe.pipes (world s)) ->
  Forall entry_ok t' ->
  (forall x, is_pipe x = true -> zsum (ind x) t' = zsum (ind x) t + ind x e) ->
  inv (set_table pid t' (pipe_clone e s)).
Proof.
  intros Hpid Hinv Ht He Hcl Hok Hz. apply (inv_set_table pid s _ t); [done..|apply tables_pipe_clone|done|].
  eapply agree_ext; [|apply (agree_clone (cnt s)); [apply cnt_nonneg|done|done|apply Hinv]].
  intros id. cbn beta. rewrite !Hz by done. split; lia.
Qed.

Lemma Forall_entry_insert (fd : nat) (t : FdTable) (e : FdEntry) :
  Forall entry_ok t -> entry_ok e -> Forall entry_ok (<[fd := e]> t).
Proof. intros. by apply Forall_insert. Qed.

Lemma alloc_fd_inv (pid : Z) (e : FdEntry) (s : State) :
  0 <= pid -> inv s -> entry_ok e -> can_clone e (Pipe.pipes (world s)) -> inv (snd (alloc_fd pid e s)).
Proof.
  intros Hpid Hinv He Hcl. unfold alloc_fd. pose proof (ensure_inv pid s Hpid Hinv) as Hinv'.
  destruct (ensure_table_spec pid s) as ((t & Ht) & Hw & _ & _). rewrite Ht. rewrite <- Hw in Hcl.
  pose proof (inv_entries _ Hinv' pid t Hpid Ht) as Hok.
  destruct (position is_empty_entry t) as [i|] eqn:Ep; cbn [snd].
  - apply position_Some in Ep as (x & Hx & Hemp & _). apply bool_decide_eq_true in Hemp as ->.
    eapply install_inv; [done..|by apply Forall_entry_insert|].
    intros x Hxp. rewrite (zsum_insert _ _ _ _ _ Hx), (ind_not_pipe x Empty) by done. lia.
  - destruct (_ <? _)%nat; [|done]. cbn [snd].
    eapply install_inv; [done..|by apply Forall_app_2; [|constructor]|].
    intros x Hxp. rewrite zsum_app. simpl. lia.
Qed.

Lemma alloc_fd_at_inv (pid : Z) (fd : nat) (e : FdEntry) (s : State) :
  0 <= pid -> inv s -> entry_ok e -> can_clone e (Pipe.pipes (world s)) ->
  (forall old, get_fd pid fd s = Some old -> is_pipe old = false) ->
  inv (snd (alloc_fd_at pid fd e s)).
Proof.
  intros Hpid Hinv He Hcl Hold. unfold alloc_fd_at. destruct (_ <=? _)%nat; [done|].
  pose proof (ensure_inv pid s Hpid Hinv) as Hinv'.
  destruct (ensure_table_spec pid s) as ((t & Ht) & Hw & _ & Hsub). rewrite Ht. rewrite <- Hw in Hcl.
  pose proof (inv_entries _ Hinv' pid t Hpid Ht) as Hok. cbn [snd].
  set (t' := if (length t <=? fd)%nat then grow (fd + 1) Empty t else t).
  assert (exists old, t' !! fd = Some old /\ is_pipe old = false) as (old & Hfd & Hnp).
  { unfold t'. destruct (_ <=? _)%nat eqn:E.
    - apply Nat.leb_le in E. exists Empty. split; [|done]. unfold grow. rewrite lookup_app_r by lia.
      apply lookup_replicate_2. lia.
    - apply Nat.leb_gt in E. destruct (lookup_lt_is_Some_2 t fd E) as [old Ho]. exists old. split; [done|].
      apply Hold. unfold get_fd. destruct (Hsub pid t Hpid Hpid Ht) as [-> | ->]; [done|].
      by rewrite lookup_nil in Ho. }
  assert (Forall entry_ok t') as Hok'.
  { unfold t', grow. destruct (_ <=? _)%nat; [|done]. apply Forall_app_2; [done|]. by apply Forall_replicate. }
  assert (forall x, is_pipe x = true -> zsum (ind x) t' = zsum (ind x) t) as Hz.
  { intros x Hx. unfold t'. destruct (_ <=? _)%nat; [by apply zsum_ind_grow|done]. }
  eapply install_inv; [done..|by apply Forall_entry_insert|].
  intros x Hx. rewrite (zsum_insert _ _ _ _ _ Hfd), Hz, (ind_not_pipe x old) by done. lia.
Qed.

Lemma set_fd_inv (pid : Z) (fd : nat) (e : FdEntry) (s : State) :
  0 <= pid -> inv s -> is_pipe e = false ->
  (forall old, get_fd pid fd s = Some old -> is_pipe old = false) -> inv (snd (set_fd pid fd e s)).
Proof.
  intros Hpid Hinv He Hold. unfold set_fd. unfold get_fd in Hold.
  destruct (table pid s) as [t|] eqn:Ht; [|done].
  destruct (fd <? length t)%nat eqn:E; [|done]. apply Nat.ltb_lt in E.
  destruct (lookup_lt_is_Some_2 t fd E) as [old Ho]. specialize (Hold old Ho). cbn [snd].
  apply (inv_set_table pid s _ t); [done..|apply Forall_entry_insert; [by eapply inv_entries|by destruct e]|].
  eapply agree_ext; [|apply Hinv]. intros id. cbn beta.
  rewrite !(zsum_insert _ _ _ _ _ Ho), !(ind_not_pipe _ old), !(ind_not_pipe _ e) by done. split; lia.
Qed.

Lemma free_fd_inv (pid : Z) (fd : nat) (s : State) : 0 <= pid -> inv s -> inv (snd (free_fd pid fd s)).
Proof.
  intros Hpid Hinv. unfold free_fd. destruct (table pid s) as [t|] eqn:Ht; [|done].
  destruct (t !! fd) as [e|] eqn:Hfd; [|done]. cbn [snd].
  pose proof (inv_entries s Hinv pid t Hpid Ht) as Hok.
  assert (entry_ok e) as He by (by eapply Forall_lookup_1).
  apply (inv_set_table pid s _ t); [done..|apply tables_close_entry|by apply Forall_entry_insert|].
  assert (1 <= cnt s e) as Hc.
  { pose proof (cnt_lookup pid s t e Ht). pose proof (zsum_lookup_le (ind e) t fd e (ind_nonneg e) Hfd) as H1.
    rewrite ind_same in H1. lia. }
  eapply agree_ext; [|apply (agree_close (cnt s) e s He Hc), Hinv]. intros id. cbn beta.
  rewrite !(zsum_insert _ _ _ _ _ Hfd), !(ind_not_pipe _ Empty) by done. split; lia.
Qed.

Lemma close_fold (l : FdTable) (C : FdEntry -> Z) (s : State) :
  Forall entry_ok l -> (forall x, zsum (ind x) l <= C x) -> agree C (Pipe.pipes (world s)) ->
  agree (fun x => C x - zsum (ind x) l) (Pipe.pipes (world (foldl (fun s e => close_entry e s) s l))) /\
  tables (foldl (fun s e => close_entry e s) s l) = tables s.
Proof.
  intros Hok. revert C s. induction Hok as [|e l He Hok IH]; intros C s HC Ha; cbn [foldl].
  - split; [|done]. eapply agree_ext; [|exact Ha]. intros id. cbn. split; lia.
  - destruct (IH (fun x => C x - ind x e) (close_entry e s)) as [H1 H2].
    + intros x. specialize (HC x). cbn [zsum foldr] in HC. fold (zsum (ind x) l) in HC. lia.
    + apply agree_close; [done| |done]. specialize (HC e). cbn [zsum foldr] in HC. rewrite ind_same in HC.
      fold (zsum (ind e) l) in HC. pose proof (zsum_nonneg (ind e) l (ind_nonneg e)). lia.
    + split; [|by rewrite H2, tables_close_entry].
      eapply agree_ext; [|exact H1]. intros id. cbn. unfold zsum. split; lia.
Qed.

Lemma close_all_inv (pid : Z) (s : State) : 0 <= pid -> inv s -> inv (close_all pid s).
Proof.
  intros Hpid Hinv. unfold close_all. destruct (table pid s) as [t|] eqn:Ht; [|done].
  destruct (close_fold t (cnt s) s) as [H1 H2].
  - by eapply inv_entries.
  - intros x. by eapply cnt_lookup.
  - apply Hinv.
  - apply (inv_set_table pid s _ t); [done..|constructor|].
    eapply agree_ext; [|exact H1]. intros id. cbn. split; lia.
Qed.

(** Pipe operations that move bytes. *)
Lemma inv_same_refs (s s' : State) :
  inv s -> tables s' = tables s ->
  (forall id, 0 <= id -> refs_of id (Pipe.pipes (world s')) = refs_of id (Pipe.pipes (world s))) -> inv s'.
Proof.
  intros [Ha He] Ht Hr. split.
  - intros id Hid. rewrite Hr by done. unfold cnt. rewrite Ht. by apply Ha.
  - intros pid t. unfold table. rewrite Ht. apply He.
Qed.

Lemma create_inv (s : State) : inv s -> inv (on_pipes (fun ps => snd (Pipe.create ps)) s).
Proof.
  intros [Ha He]. split; [|done]. intros id Hid. cbn [on_pipes world Pipe.set_pipes Pipe.pipes].
  destruct (Pipe.create_spec (Pipe.pipes (world s))) as (Hn & _ & Hs). unfold refs_of. rewrite Hs by done.
  specialize (Ha id Hid). unfold refs_of in Ha.
  destruct (id =? _) eqn:E; zbool; [|done]. subst. rewrite Hn in Ha. simpl in *. destruct Ha. done.
Qed.

Lemma same_refs_read (id : Z) (buf : list Z) (s : State) :
  0 <= id -> forall i, 0 <= i -> refs_of i (Pipe.pipes (world (on_pipes (fun ps => snd (Pipe.read id buf ps)) s))) = refs_of i (Pipe.pipes (world s)).
Proof.
  intros Hid i Hi. cbn [on_pipes world Pipe.set_pipes Pipe.pipes]. unfold Pipe.read.
  pose proof (refs_take_out id i (length buf) (Pipe.pipes (world s)) Hid Hi) as H. by destruct (Pipe.take_out _ _ _) as [out ps].
Qed.

Lemma same_refs_write (id : Z) (bytes : list Z) (s : State) :
  0 <= id -> forall i, 0 <= i -> refs_of i (Pipe.pipes (world (on_pipes (fun ps => snd (Pipe.write id bytes ps)) s))) = refs_of i (Pipe.pipes (world s)).
Proof.
  intros Hid i Hi. cbn [on_pipes world Pipe.set_pipes Pipe.pipes]. unfold Pipe.write, refs_of. destruct (Pipe.slot id _) as [p|] eqn:E; [|done].
  destruct (_ =? _); [done|]. cbn [snd]. rewrite (Pipe.pipe_set_slot id i _ _ p) by done.
  destruct (i =? id) eqn:Ei; zbool; [subst; by rewrite E|done].
Qed.

(** ** What an operation leaves alone *)

Lemma table_ensure_other (pid pid' : Z) (s : State) :
  0 <= pid -> 0 <= pid' -> pid' <> pid -> table pid' (ensure_table pid s) = table pid' s.
Proof.
  intros H H' Hne. unfold ensure_table, table, set_tables. cbn [tables].
  set (l := if (_ <=? _)%nat then _ else _).
  assert (match l !! Z.to_nat pid' with Some o => o | None => None end = match tables s !! Z.to_nat pid' with Some o => o | None => None end) as Hl.
  { unfold l, grow. destruct (_ <=? _)%nat; [|done]. rewrite lookup_app. destruct (tables s !! Z.to_nat pid'); [done|].
    destruct (replicate _ _ !! _) as [o|] eqn:E; [|done]. by apply lookup_replicate in E as [-> _]. }
  destruct (l !! Z.to_nat pid) as [[t|]|]; [done| |done]. rewrite list_lookup_insert_ne by lia. done.
Qed.

Lemma table_set_other (pid pid' : Z) (t : FdTable) (s : State) :
  0 <= pid -> 0 <= pid' -> pid' <> pid -> table pid' (set_table pid t s) = table pid' s.
Proof. intros H H' Hne. unfold table, set_table, set_tables. cbn [tables]. by rewrite list_lookup_insert_ne by lia. Qed.

(** Only the table of [w] may differ. *)
Definition only_table (w : Z) (s s' : State) : Prop := forall p, 0 <= p -> p <> w -> table p s' = table p s.

Lemma table_ext (p : Z) (s s' : State) : tables s' = tables s -> table p s' = table p s.
Proof. unfold table. by intros ->. Qed.

Lemma only_alloc_fd (pid : Z) (e : FdEntry) (s : State) : 0 <= pid -> only_table pid s (snd (alloc_fd pid e s)).
Proof.
  intros H p Hp Hne. unfold alloc_fd. rewrite <- (table_ensure_other pid p s) by done. destruct (table pid (ensure_table pid s)) as [t|]; [|done].
  destruct (position _ t); [|destruct (_ <? _)%nat; [|done]]; cbn [snd]; rewrite table_set_other by done; apply table_ext, tables_pipe_clone.
Qed.
Lemma only_alloc_fd_at (pid : Z) (fd : nat) (e : FdEntry) (s : State) : 0 <= pid -> only_table pid s (snd (alloc_fd_at pid fd e s)).
Proof.
  intros H p Hp Hne. unfold alloc_fd_at. destruct (_ <=? _)%nat; [done|]. rewrite <- (table_ensure_other pid p s) by done.
  destruct (table pid (ensure_table pid s)) as [t|]; [|done]. cbn [snd]. rewrite table_set_other by done. apply table_ext, tables_pipe_clone.
Qed.
Lemma only_set_fd (pid : Z) (fd : nat) (e : FdEntry) (s : State) : 0 <= pid -> only_table pid s (snd (set_fd pid fd e s)).
Proof. intros H p Hp Hne. unfold set_fd. destruct (table pid s); [|done]. destruct (_ <? _)%nat; [|done]. by apply table_set_other. Qed.
Lemma only_free_fd (pid : Z) (fd : nat) (s : State) : 0 <= pid -> only_table pid s (snd (free_fd pid fd s)).
Proof.
  intros H p Hp Hne. unfold free_fd. destruct (table pid s) as [t|]; [|done]. destruct (t !! fd); [|done]. cbn [snd].
  rewrite table_set_other by done. apply table_ext, tables_close_entry.
Qed.
Lemma tables_close_fold (l : FdTable) (s : State) : tables (foldl (fun s e => close_entry e s) s l) = tables s.
Proof. revert s. induction l as [|e l IH]; intros s; simpl; [done|]. by rewrite IH, tables_close_entry. Qed.
Lemma only_close_all (pid : Z) (s : State) : 0 <= pid -> only_table pid s (close_all pid s).
Proof.
  intros H p Hp Hne. unfold close_all. destruct (table pid s) as [t|]; [|done]. rewrite table_set_other by done. apply table_ext, tables_close_fold.
Qed.

Definition pipe_of (e : FdEntry) : option Z := match e with PipeRead id | PipeWrite id => Some id | _ => None end.

Lemma refs_at_other (id i : Z) f (ps ps' : list (option Pipe.PipeState)) :
  refs_at id f ps ps' -> 0 <= i -> i <> id -> refs_of i ps' = refs_of i ps.
Proof. intros Hr Hi Hne. rewrite (Hr i Hi). by apply Z.eqb_neq in Hne as ->. Qed.

Lemma refs_clone_other (e : FdEntry) (s : State) (i : Z) :
  entry_ok e -> 0 <= i -> pipe_of e <> Some i -> refs_of i (Pipe.pipes (world (pipe_clone e s))) = refs_of i (Pipe.pipes (world s)).
Proof.
  intros He Hi Hne. destruct e as [| | | | |j|j]; try done; cbn [pipe_clone on_pipes world Pipe.set_pipes Pipe.pipes entry_ok pipe_of] in *.
  - eapply refs_at_other; [by apply refs_clone_read|done|congruence].
  - eapply refs_at_other; [by apply refs_clone_write|done|congruence].
Qed.
Lemma refs_close_other (e : FdEntry) (s : State) (i : Z) :
  entry_ok e -> 0 <= i -> pipe_of e <> Some i -> refs_of i (Pipe.pipes (world (close_entry e s))) = refs_of i (Pipe.pipes (world s)).
Proof.
  intros He Hi Hne. destruct e as [| | | | |j|j]; try done; cbn [close_entry on_pipes world Pipe.set_pipes Pipe.pipes entry_ok pipe_of] in *.
  - eapply refs_at_other; [by apply refs_close_read|done|congruence].
  - rewrite refs_notify by done. eapply refs_at_other; [by apply refs_close_write|done|congruence].
Qed.
Lemma refs_close_fold (l : FdTable) (s : State) (i : Z) :
  Forall entry_ok l -> 0 <= i -> Forall (fun e => pipe_of e <> Some i) l ->
  refs_of i (Pipe.pipes (world (foldl (fun s e => close_entry e s) s l))) = refs_of i (Pipe.pipes (world s)).
Proof.
  intros Hok Hi. revert s. induction Hok as [|e l He Hok IH]; intros s Hl; simpl; [done|]. apply Forall_cons in Hl as [He' Hl].
  rewrite IH by done. by apply refs_close_other.
Qed.

Lemma refs_alloc_fd (pid : Z) (e : FdEntry) (s : State) (i : Z) :
  entry_ok e -> 0 <= i -> pipe_of e <> Some i -> refs_of i (Pipe.pipes (world (snd (alloc_fd pid e s)))) = refs_of i (Pipe.pipes (world s)).
Proof.
  intros He Hi Hne. destruct (ensure_table_spec pid s) as (_ & Hw & _). rewrite <- Hw. unfold alloc_fd.
  destruct (table pid _) as [t|]; [|done]. destruct (position _ t); [|destruct (_ <? _)%nat; [|done]]; cbn [snd]; by apply refs_clone_other.
Qed.
Lemma refs_alloc_fd_at (pid : Z) (fd : nat) (e : FdEntry) (s : State) (i : Z) :
  entry_ok e -> 0 <= i -> pipe_of e <> Some i -> refs_of i (Pipe.pipes (world (snd (alloc_fd_at pid fd e s)))) = refs_of i (Pipe.pipes (world s)).
Proof.
  intros He Hi Hne. unfold alloc_fd_at. destruct (_ <=? _)%nat; [done|]. destruct (ensure_table_spec pid s) as (_ & Hw & _). rewrite <- Hw.
  destruct (table pid _) as [t|]; [|done]. by apply refs_clone_other.
Qed.

(** A pipe nobody has a descriptor for yet. *)
Definition idle (s : State) (id : Z) : Prop := 0 <= id /\ refs_of id (Pipe.pipes (world s)) = Some (0, 0).

Lemma held_count (pid : Z) (s : State) (t : FdTable) (e : FdEntry) : table pid s = Some t -> e ∈ t -> 1 <= cnt s e.
Proof.
  intros Ht [fd Hfd]%list_elem_of_lookup. pose proof (cnt_lookup pid s t e Ht).
  pose proof (zsum_lookup_le (ind e) t fd e (ind_nonneg e) Hfd) as H1. rewrite ind_same in H1. lia.
Qed.

Lemma held_live (pid : Z) (s : State) (t : FdTable) (e : FdEntry) (id : Z) :
  inv s -> 0 <= pid -> table pid s = Some t -> e ∈ t -> pipe_of e = Some id ->
  0 <= id /\ exists w r, refs_of id (Pipe.pipes (world s)) = Some (w, r) /\ w = cnt s (PipeWrite id) /\ r = cnt s (PipeRead id) /\ 1 <= w + r.
Proof.
  intros Hinv Hpid Ht He Hid. pose proof (held_count pid s t e Ht He) as Hc.
  pose proof (inv_entries s Hinv pid t Hpid Ht) as Hok. rewrite Forall_forall in Hok. specialize (Hok e He).
  assert (0 <= id) as Hpos by (destruct e; naive_solver). split; [done|]. pose proof (inv_refs s Hinv id Hpos) as Ha.
  pose proof (cnt_nonneg s (PipeWrite id)). pose proof (cnt_nonneg s (PipeRead id)).
  destruct (refs_of id _) as [[w r]|].
  - exists w, r. split_and!; [done|naive_solver..|]. destruct Ha as [-> ->]. destruct e; simplify_eq/=; lia.
  - destruct Ha. destruct e; simplify_eq/=; lia.
Qed.

Lemma idle_not_held (pid : Z) (s : State) (t : FdTable) (id : Z) :
  inv s -> 0 <= pid -> table pid s = Some t -> idle s id -> Forall (fun e => pipe_of e <> Some id) t.
Proof.
  intros Hinv Hpid Ht [Hpos Hidle]. apply Forall_forall. intros e He Hid.
  destruct (held_live pid s t e id Hinv Hpid Ht He Hid) as (_ & w & r & Hr & _ & _ & Hwr). rewrite Hidle in Hr. simplify_eq. lia.
Qed.

Lemma get_fd_elem (pid : Z) (fd : nat) (s : State) (e : FdEntry) : get_fd pid fd s = Some e -> exists t, table pid s = Some t /\ e ∈ t.
Proof. unfold get_fd. destruct (table pid s) as [t|]; [|done]. simpl. intros H. exists t. split; [done|]. by eapply list_elem_of_lookup_2. Qed.

(** ** Sizes *)

(** Pids are handed out in order; this many are out of reach. *)
Definition PIDS : Z := 2 ^ 21.
Definition small (s : State) : Prop :=
  Z.of_nat (length (tables s)) <= PIDS /\ Forall (fun o => (length (default [] o) <= MAX_FD)%nat) (tables s).

Lemma zsum_ind_length (e : FdEntry) (t : FdTable) : zsum (ind e) t <= Z.of_nat (length t).
Proof. induction t as [|x t IH]; simpl; [lia|]. unfold ind at 1. fold (zsum (ind e) t). case_match; lia. Qed.

Lemma cnt_small (s : State) (e : FdEntry) : small s -> cnt s e <= 2 ^ 31.
Proof.
  intros [Hl Hf]. assert (cnt s e <= 1024 * Z.of_nat (length (tables s))); [|unfold PIDS in Hl; lia]. unfold cnt. clear Hl.
  induction Hf as [|o l Ho _ IH]; simpl; [lia|]. pose proof (zsum_ind_length e (default [] o)). unfold MAX_FD in Ho.
  fold (zsum (fun o => zsum (ind e) (default [] o)) l). lia.
Qed.

Lemma small_table (pid : Z) (s : State) (t : FdTable) : small s -> table pid s = Some t -> (length t <= MAX_FD)%nat.
Proof. intros [_ Hf] Ht%table_lookup. by apply (Forall_lookup_1 _ _ _ _ Hf) in Ht. Qed.
Lemma small_set (pid : Z) (t : FdTable) (s s' : State) : small s -> tables s' = tables s -> (length t <= MAX_FD)%nat -> small (set_table pid t s').
Proof.
  intros [Hl Hf] Hs Ht. unfold set_table, set_tables. split; cbn [tables]; rewrite Hs; [by rewrite length_insert|]. by apply Forall_insert.
Qed.
Lemma small_ensure (pid : Z) (s : State) : 0 <= pid < PIDS -> small s -> small (ensure_table pid s).
Proof.
  intros Hp [Hl Hf]. unfold ensure_table. set (l := if (_ <=? _)%nat then _ else _).
  assert (Z.of_nat (length l) <= PIDS /\ Forall (fun o => (length (default [] o) <= MAX_FD)%nat) l) as [Hl1 Hf1].
  { unfold l, grow. destruct (_ <=? _)%nat eqn:E; [|done]. apply Nat.leb_le in E. split.
    - rewrite length_app, length_replicate. lia.
    - apply Forall_app_2; [done|]. apply Forall_replicate. simpl. lia. }
  split; cbn [set_tables tables]; destruct (l !! Z.to_nat pid) as [[t|]|]; try done.
  - by rewrite length_insert.
  - apply Forall_insert; [done|]. simpl. lia.
Qed.
Lemma small_same (s s' : State) : tables s' = tables s -> small s -> small s'.
Proof. unfold small. by intros ->. Qed.

Lemma small_alloc_fd (pid : Z) (e : FdEntry) (s : State) : 0 <= pid < PIDS -> small s -> small (snd (alloc_fd pid e s)).
Proof.
  intros Hp Hs%(small_ensure pid s Hp). unfold alloc_fd. destruct (table pid _) as [t|] eqn:Ht; [|done].
  pose proof (small_table pid _ t Hs Ht). destruct (position _ t); [|destruct (_ <? _)%nat eqn:E; [apply Nat.ltb_lt in E|done]]; cbn [snd];
    (eapply small_set; [exact Hs|apply tables_pipe_clone|]).
  - by rewrite length_insert.
  - rewrite length_app. simpl. lia.
Qed.
Lemma small_alloc_fd_at (pid : Z) (fd : nat) (e : FdEntry) (s : State) : 0 <= pid < PIDS -> small s -> small (snd (alloc_fd_at pid fd e s)).
Proof.
  intros Hp Hs. unfold alloc_fd_at. destruct (MAX_FD <=? fd)%nat eqn:Ef; [done|]. apply Nat.leb_gt in Ef. apply (small_ensure pid s Hp) in Hs.
  destruct (table pid _) as [t|] eqn:Ht; [|done]. pose proof (small_table pid _ t Hs Ht). cbn [snd].
  eapply small_set; [exact Hs|apply tables_pipe_clone|]. rewrite length_insert. unfold grow. destruct (_ <=? _)%nat; [|done].
  rewrite length_app, length_replicate. lia.
Qed.
Lemma small_set_fd (pid : Z) (fd : nat) (e : FdEntry) (s : State) : small s -> small (snd (set_fd pid fd e s)).
Proof.
  intros Hs. unfold set_fd. destruct (table pid s) as [t|] eqn:Ht; [|done]. destruct (_ <? _)%nat; [|done].
  eapply small_set; [exact Hs|done|]. rewrite length_insert. by eapply small_table.
Qed.
Lemma small_free_fd (pid : Z) (fd : nat) (s : State) : small s -> small (snd (free_fd pid fd s)).
Proof.
  intros Hs. unfold free_fd. destruct (table pid s) as [t|] eqn:Ht; [|done]. destruct (t !! fd); [|done].
  eapply small_set; [exact Hs|apply tables_close_entry|]. rewrite length_insert. by eapply small_table.
Qed.
Lemma small_close_all (pid : Z) (s : State) : small s -> small (close_all pid s).
Proof.
  intros Hs. unfold close_all. destruct (table pid s) as [t|] eqn:Ht; [|done].
  eapply small_set; [exact Hs|apply tables_close_fold|]. simpl. lia.
Qed.

(** ** Runs *)

Inductive Event := EBegin (pid : Z) (c : Call) | EResume (pid : Z) (ok : bool).
Definition perform (e : Event) (k : Kernel) : Kernel :=
  match e with EBegin pid c => begin pid c k | EResume pid ok => resume pid ok k end.

(** The new process a call is setting up; it does not run before the call is over. *)
Definition child_of (q : Pending) : option Z := match q with PSpawn c _ | PPut c _ _ _ => Some c | _ => None end.
Definition is_child (p : Z) (k : Kernel) : Prop := exists p' q, pend k !! p' = Some q /\ child_of q = Some p.

(** When a process may enter a call: it is in none (at most one of its threads is), and
    it has been started.  A file or device that is opened is no pipe end; a new process
    has a pid of its own and no descriptors. *)
Definition may (pid : Z) (c : Call) (k : Kernel) : Prop :=
  0 <= pid < PIDS /\ pend k !! pid = None /\ ~ is_child pid k /\
  match c with
  | COpen e => is_pipe e = false
  | CPipeRead id _ | CPipeWrite id _ => 0 <= id
  | CSpawn child _ _ _ =>
      0 <= child < PIDS /\ child <> pid /\ pend k !! child = None /\ ~ is_child child k /\
      (table child (fds k) = None \/ table child (fds k) = Some [])
  | _ => True
  end.

Definition step (k : Kernel) (e : Event) (k' : Kernel) : Prop :=
  (match e with EBegin pid c => may pid c k | EResume _ _ => True end) /\ k' = perform e k.

(** No tables, no pipes, no calls. *)
Definition boot (w : Pipe.State) : State := mkState [] (Pipe.set_pipes [] w) [].
Definition start (w : Pipe.State) : Kernel := mkKernel (boot w) ∅.

(** *** What is known in the middle of a call *)

Definition no_pipe (pid : Z) (s : State) (fd : nat) : Prop := forall old, get_fd pid fd s = Some old -> is_pipe old = false.
Definition target (i : Item) : nat := match i with Put fd _ | Dup fd _ _ => fd end.
Definition targets (l : list Item) : list nat := target <$> l.
Definition plain (i : Item) : Prop :=
  match i with Put _ e => is_pipe e = false | Dup _ _ (Some e) => is_pipe e = false | Dup _ _ None => True end.
Definition held (e : FdEntry) (pid : Z) (s : State) : Prop := is_pipe e = false \/ exists fd, get_fd pid fd s = Some e.
Definition idle_of (q : Pending) : option Z := match q with PPipe id | PPipeEnd id None => Some id | _ => None end.

Definition setting_up (c : Z) (l : list nat) (s : State) : Prop := 0 <= c < PIDS /\ NoDup l /\ Forall (no_pipe c s) l.
Definition pend_ok (s : State) (pid : Z) (q : Pending) : Prop :=
  match q with
  | PAdvance fd _ _ _ => no_pipe pid s fd
  | PPipe id | PPipeEnd id None => idle s id
  | PPipeEnd id (Some r) => 0 <= id /\ get_fd pid r s = Some (PipeRead id)
  | PRollback _ => True
  | PSpawn c l => setting_up c (targets l) s /\ Forall plain l
  | PPut c fd e l => setting_up c (fd :: targets l) s /\ Forall plain l /\ held e pid s
  end.

Record kinv (k : Kernel) : Prop := {
  k_inv : inv (fds k);
  k_small : small (fds k);
  k_pend : forall p q, pend k !! p = Some q -> 0 <= p < PIDS /\ pend_ok (fds k) p q;
  k_child : forall p q c, pend k !! p = Some q -> child_of q = Some c ->
    pend k !! c = None /\ forall p' q', pend k !! p' = Some q' -> child_of q' = Some c -> p' = p;
  k_idle : forall p q p' q' id, pend k !! p = Some q -> pend k !! p' = Some q' ->
    idle_of q = Some id -> idle_of q' = Some id -> p' = p
}.

Lemma get_fd_table (p : Z) (fd : nat) (s s' : State) : table p s' = table p s -> get_fd p fd s' = get_fd p fd s.
Proof. unfold get_fd. by intros ->. Qed.

Lemma setting_up_table (c : Z) (l : list nat) (s s' : State) : table c s' = table c s -> setting_up c l s -> setting_up c l s'.
Proof.
  intros Ht (Hc & Hnd & Hl). split; [done|]. split; [done|]. eapply Forall_impl; [exact Hl|]. intros fd Hfd old. rewrite (get_fd_table c fd s s') by done. apply Hfd.
Qed.

(** Knowledge survives what the others do. *)
Lemma pend_frame (s s' : State) (p : Z) (q : Pending) :
  table p s' = table p s -> (forall c, child_of q = Some c -> table c s' = table c s) ->
  (forall id, idle_of q = Some id -> refs_of id (Pipe.pipes (world s')) = refs_of id (Pipe.pipes (world s))) ->
  pend_ok s p q -> pend_ok s' p q.
Proof.
  intros Hp Hc Hi. destruct q as [fd ? ? ?|id|id [r|]|l|c l|c fd e l]; cbn [pend_ok child_of idle_of] in *.
  - intros Hok old. rewrite (get_fd_table p fd s s') by done. apply Hok.
  - intros [? ?]. split; [done|]. by rewrite Hi.
  - intros [? ?]. split; [done|]. by rewrite (get_fd_table p r s s').
  - intros [? ?]. split; [done|]. by rewrite Hi.
  - done.
  - intros [? ?]. split; [|done]. eapply setting_up_table; [|done]. by apply Hc.
  - intros (? & ? & Hh). split_and!; [|done|]. { eapply setting_up_table; [|done]. by apply Hc. }
    destruct Hh as [?|[fd' Hfd']]; [by left|]. right. exists fd'. by rewrite (get_fd_table p fd' s s').
Qed.

Lemma pend_child (s : State) (p c : Z) (q : Pending) : pend_ok s p q -> child_of q = Some c -> 0 <= c < PIDS.
Proof. destruct q; try done; cbn [pend_ok child_of]; by intros ((? & _) & _) [= <-]. Qed.
Lemma pend_idle (s : State) (p id : Z) (q : Pending) : pend_ok s p q -> idle_of q = Some id -> idle s id.
Proof. destruct q as [|?|? [|]| | |]; try done; cbn [pend_ok idle_of]; by intros ? [= <-]. Qed.

(** One lock section of process [pid], which may write table [w] and leaves the process
    at [o]. *)
Lemma kinv_section (k : Kernel) (pid w : Z) (s' : State) (o : option Pending) :
  kinv k -> 0 <= pid < PIDS -> ~ is_child pid k -> inv s' -> small s' -> only_table w (fds k) s' ->
  (w = pid \/ exists q, pend k !! pid = Some q /\ child_of q = Some w) ->
  (forall p q id, p <> pid -> pend k !! p = Some q -> idle_of q = Some id -> idle (fds k) id ->
     refs_of id (Pipe.pipes (world s')) = refs_of id (Pipe.pipes (world (fds k)))) ->
  (forall q, o = Some q -> pend_ok s' pid q) ->
  (forall q c, o = Some q -> child_of q = Some c ->
     (exists q0, pend k !! pid = Some q0 /\ child_of q0 = Some c) \/ (c <> pid /\ pend k !! c = None /\ ~ is_child c k)) ->
  (forall q id p q', o = Some q -> idle_of q = Some id -> p <> pid -> pend k !! p = Some q' -> idle_of q' <> Some id) ->
  kinv (mkKernel s' (partial_alter (fun _ => o) pid (pend k))).
Proof.
  intros Hk Hpid Hnc Hinv Hsm Hot Hw Hrefs Ho Hch Hid.
  assert (forall p q, partial_alter (fun _ => o) pid (pend k) !! p = Some q -> (p = pid /\ o = Some q) \/ (p <> pid /\ pend k !! p = Some q)) as Hlk.
  { intros p q. destruct (decide (p = pid)) as [->|Hne]; [rewrite lookup_partial_alter_eq; by left|rewrite lookup_partial_alter_ne by done; by right]. }
  assert (forall q c, o = Some q -> child_of q = Some c -> c <> pid /\ pend k !! c = None /\ forall p q', p <> pid -> pend k !! p = Some q' -> child_of q' <> Some c) as Hfresh.
  { intros q c Hq Hc. destruct (Hch q c Hq Hc) as [(q0 & Hq0 & Hc0)|(? & ? & Hn)].
    - destruct (k_child k Hk pid q0 c Hq0 Hc0) as [Hnone Huniq]. split_and!; [|done|].
      + intros ->. congruence.
      + intros p q' Hp Hq' Hc'. by apply Hp, (Huniq p q').
    - split_and!; [done|done|]. intros p q' _ Hq' Hc'. apply Hn. by exists p, q'. }
  split; cbn [fds pend]; [done|done|..].
  - intros p q [[-> Hq]|[Hne Hq]]%Hlk; [split; [done|by apply Ho]|]. destruct (k_pend k Hk p q Hq) as [Hp Hok]. split; [done|].
    apply (pend_frame (fds k)); [| | |done].
    + apply Hot; [lia|]. destruct Hw as [->|(q0 & Hq0 & Hc0)]; [done|]. intros ->. destruct (k_child k Hk pid q0 w Hq0 Hc0). congruence.
    + intros c Hc. pose proof (pend_child (fds k) p c q Hok Hc) as Hcb. apply Hot; [lia|].
      destruct Hw as [->|(q0 & Hq0 & Hc0)]; [intros ->; apply Hnc; by exists p, q|]. intros ->.
      destruct (k_child k Hk pid q0 w Hq0 Hc0) as [_ Hu]. by apply Hne, (Hu p q).
    + intros id Hi. apply (Hrefs p q id); try done. by apply (pend_idle (fds k) p id q).
  - intros p q c Hp Hc. apply Hlk in Hp as [[-> Hq]|[Hne Hq]].
    + destruct (Hfresh q c Hq Hc) as (H1 & H2 & H3). split; [by rewrite lookup_partial_alter_ne|].
      intros p' q' [[-> _]|[Hne' Hq']]%Hlk Hc'; [done|]. by destruct (H3 p' q').
    + destruct (k_child k Hk p q c Hq Hc) as [H1 H2]. split.
      * rewrite lookup_partial_alter_ne; [done|]. intros <-. apply Hnc. by exists p, q.
      * intros p' q' [[-> Hq']|[Hne' Hq']]%Hlk Hc'; [|by apply (H2 p' q')]. destruct (Hfresh q' c Hq' Hc') as (_ & _ & H3). by destruct (H3 p q).
  - intros p q p' q' id Hp Hp' Hi Hi'. apply Hlk in Hp as [[-> Hq]|[Hne Hq]], Hp' as [[-> Hq']|[Hne' Hq']].
    + done.
    + by destruct (Hid q id p' q').
    + by destruct (Hid q' id p q).
    + by apply (k_idle k Hk p q p' q' id).
Qed.

Lemma kinv_quiet (k : Kernel) (pid : Z) (s' : State) :
  kinv k -> pend k !! pid = None -> 0 <= pid < PIDS -> ~ is_child pid k -> inv s' -> small s' -> only_table pid (fds k) s' ->
  (forall id, idle (fds k) id -> refs_of id (Pipe.pipes (world s')) = refs_of id (Pipe.pipes (world (fds k)))) ->
  kinv (put_fds s' k).
Proof.
  intros Hk Hn Hp Hc Hi Hs Ho Hr. unfold put_fds. rewrite <- (delete_id (pend k) pid Hn).
  apply (kinv_section k pid pid s' None); try done; [by left|]. intros p q id _ _ _. apply Hr.
Qed.

Lemma refs_free_idle (pid : Z) (fd : nat) (s : State) (id : Z) :
  inv s -> 0 <= pid -> idle s id -> refs_of id (Pipe.pipes (world (snd (free_fd pid fd s)))) = refs_of id (Pipe.pipes (world s)).
Proof.
  intros Hinv Hp Hid. unfold free_fd. destruct (table pid s) as [t|] eqn:Ht; [|done]. destruct (t !! fd) as [e|] eqn:He; [|done].
  cbn [snd set_table set_tables world]. apply refs_close_other; [by eapply Forall_lookup_1; [eapply inv_entries|]|apply Hid|].
  pose proof (idle_not_held pid s t id Hinv Hp Ht Hid) as Hf. by apply (Forall_lookup_1 _ _ _ _ Hf) in He.
Qed.
Lemma refs_close_all_idle (pid : Z) (s : State) (id : Z) :
  inv s -> 0 <= pid -> idle s id -> refs_of id (Pipe.pipes (world (close_all pid s))) = refs_of id (Pipe.pipes (world s)).
Proof.
  intros Hinv Hp Hid. unfold close_all. destruct (table pid s) as [t|] eqn:Ht; [|done]. cbn [set_table set_tables world].
  apply refs_close_fold; [by eapply inv_entries|apply Hid|by eapply idle_not_held].
Qed.

Lemma alloc_fd_get (pid : Z) (e : FdEntry) (s : State) (r : nat) : fst (alloc_fd pid e s) = Some r -> get_fd pid r (snd (alloc_fd pid e s)) = Some e.
Proof.
  unfold alloc_fd, get_fd. destruct (table pid (ensure_table pid s)) as [t|] eqn:Ht; [|done].
  assert (Z.to_nat pid < length (tables (pipe_clone e (ensure_table pid s))))%nat as Hlt by (rewrite tables_pipe_clone; by eapply lookup_lt_Some, table_lookup).
  destruct (position is_empty_entry t) as [i|] eqn:Ep; [|destruct (_ <? _)%nat; [|done]]; cbn [fst snd]; intros [= <-];
    unfold table, set_table, set_tables; cbn [tables]; rewrite list_lookup_insert_eq by done; cbn [mbind option_bind].
  - apply position_Some in Ep as (x & Hx & _). by rewrite list_lookup_insert_eq by (by eapply lookup_lt_Some).
  - by rewrite lookup_app_r, Nat.sub_diag by lia.
Qed.

Lemma alloc_fd_at_other (c : Z) (fd fd' : nat) (e old : FdEntry) (s : State) :
  0 <= c -> fd' <> fd -> get_fd c fd' (snd (alloc_fd_at c fd e s)) = Some old -> get_fd c fd' s = Some old \/ old = Empty.
Proof.
  intros Hc Hne. unfold alloc_fd_at. destruct (_ <=? _)%nat; [by left|].
  destruct (ensure_table_spec c s) as ((t & Ht) & _ & _ & Hsub). rewrite Ht. cbn [snd]. unfold get_fd at 1, table, set_table, set_tables. cbn [tables].
  rewrite tables_pipe_clone, list_lookup_insert_eq by (by eapply lookup_lt_Some, table_lookup). cbn [mbind option_bind].
  rewrite list_lookup_insert_ne by done. intros Hold.
  assert (t !! fd' = Some old \/ old = Empty) as [Hin| ->]; [|left|by right].
  { destruct (_ <=? _)%nat; [|by left]. unfold grow in Hold. apply lookup_app_Some in Hold as [?|[_ Hr]]; [by left|]. right.
    by apply lookup_replicate in Hr as [-> _]. }
  unfold get_fd. destruct (Hsub c t Hc Hc Ht) as [-> | ->]; [done|]. by rewrite lookup_nil in Hin.
Qed.

Lemma spawn_items_ok (i o : Z) (ctty : bool) : NoDup (targets (spawn_items i o ctty)) /\ Forall plain (spawn_items i o ctty).
Proof.
  unfold spawn_items, std_item. split.
  - destruct (i =? NO_FD), (o =? NO_FD), ctty; simpl; repeat constructor; set_solver.
  - destruct (i =? NO_FD), (o =? NO_FD), ctty; simpl; repeat constructor.
Qed.

Lemma begin_kinv (k : Kernel) (pid : Z) (c : Call) : kinv k -> may pid c k -> kinv (begin pid c k).
Proof.
  intros Hk (Hpid & Hn & Hnc & Hc). pose proof (k_inv k Hk) as Hinv. pose proof (k_small k Hk) as Hsm.
  destruct c as [e|fd| |fd n|id buf|id bytes| |child i o ctty]; cbn [begin].
  - apply (kinv_quiet k pid); try done.
    + by apply alloc_fd_inv; [lia|done|destruct e|destruct e].
    + by apply small_alloc_fd.
    + apply only_alloc_fd; lia.
    + intros id [? _]. apply refs_alloc_fd; [by destruct e|done|by destruct e].
  - apply (kinv_quiet k pid); try done; [apply free_fd_inv; [lia|done]|by apply small_free_fd|apply only_free_fd; lia|].
    intros id Hid. apply refs_free_idle; [done|lia|done].
  - apply (kinv_quiet k pid); try done; [apply close_all_inv; [lia|done]|by apply small_close_all|apply only_close_all; lia|].
    intros id Hid. apply refs_close_all_idle; [done|lia|done].
  - destruct (get_fd pid fd (fds k)) as [[]|] eqn:E; try done.
    apply (kinv_section k pid pid (fds k) (Some _)); try done; [by left|..].
    + intros q [= <-] old Hold. rewrite E in Hold. by simplify_eq.
    + by intros q c' [= <-].
    + by intros q id p q' [= <-].
  - apply (kinv_quiet k pid); try done.
    + apply (inv_same_refs (fds k)); [done..|]. by apply same_refs_read.
    + intros i [Hi _]. by apply same_refs_read.
  - assert (forall i, 0 <= i -> refs_of i (Pipe.pipes (Pipe.notify_pipe_readers id (world (on_pipes (fun ps => snd (Pipe.write id bytes ps)) (fds k))))) = refs_of i (Pipe.pipes (world (fds k)))) as Hr.
    { intros i Hi. rewrite refs_notify by done. by apply same_refs_write. }
    apply (kinv_quiet k pid); try done.
    + apply (inv_same_refs (fds k)); done.
    + intros i [Hi _]. by apply Hr.
  - assert (inv (on_pipes (fun _ => snd (Pipe.create (Pipe.pipes (world (fds k))))) (fds k))) as Hci by exact (create_inv (fds k) Hinv).
    destruct (Pipe.create_spec (Pipe.pipes (world (fds k)))) as (Hnone & Hid & Hslots).
    destruct (Pipe.create (Pipe.pipes (world (fds k)))) as [id ps]. cbn [fst snd] in *.
    assert (forall i, 0 <= i -> i <> id -> refs_of i ps = refs_of i (Pipe.pipes (world (fds k)))) as Hother.
    { intros i Hi Hne. unfold refs_of. rewrite Hslots by done. by apply Z.eqb_neq in Hne as ->. }
    assert (forall i, idle (fds k) i -> i <> id) as Hne by (intros i [_ Hr] ->; unfold refs_of in Hr; by rewrite Hnone in Hr).
    apply (kinv_section k pid pid _ (Some (PPipe id))); try done; [by left|..].
    + intros p q i _ Hq Hi Hidle. apply Hother; [apply Hidle|by apply Hne].
    + intros q [= <-]. split; [lia|]. cbn. unfold refs_of. rewrite Hslots, Z.eqb_refl by lia. done.
    + by intros q c' [= <-].
    + intros q i p q' [= <-] [= <-] Hp Hq' Hi. destruct (k_pend k Hk p q' Hq') as [_ Hok].
      by apply (Hne id); [apply (pend_idle _ p id q')|].
  - destruct Hc as (Hcb & Hcp & Hcn & Hcc & Ht). destruct (spawn_items_ok i o ctty) as [Hnd Hpl].
    apply (kinv_section k pid pid (fds k) (Some _)); try done; [by left|..].
    + intros q [= <-]. split; [|done]. split; [done|]. split; [done|]. apply Forall_true. intros fd old. unfold get_fd.
      destruct Ht as [-> | ->]; [done|]. simpl. by rewrite lookup_nil.
    + intros q c' [= <-] [= <-]. by right.
    + by intros q id p q' [= <-].
Qed.

Lemma world_set_fd (pid : Z) (fd : nat) (e : FdEntry) (s : State) : world (snd (set_fd pid fd e s)) = world s.
Proof. unfold set_fd. destruct (table pid s); [|done]. by destruct (_ <? _)%nat. Qed.
Lemma alloc_fd_full (pid : Z) (e : FdEntry) (s : State) : fst (alloc_fd pid e s) = None -> world (snd (alloc_fd pid e s)) = world s.
Proof.
  destruct (ensure_table_spec pid s) as (_ & Hw & _). unfold alloc_fd. destruct (table pid _) as [t|]; [|done].
  destruct (position _ t); [done|]. by destruct (_ <? _)%nat.
Qed.

Lemma held_clone (e : FdEntry) (pid : Z) (s : State) :
  inv s -> small s -> 0 <= pid -> held e pid s -> entry_ok e /\ can_clone e (Pipe.pipes (world s)) /\ forall id, idle s id -> pipe_of e <> Some id.
Proof.
  intros Hinv Hsm Hpid [Hnp|[fd Hfd]]; [by destruct e|]. destruct (get_fd_elem pid fd s e Hfd) as (t & Ht & He).
  assert (entry_ok e) as Hok by (pose proof (inv_entries s Hinv pid t Hpid Ht) as Hf; rewrite Forall_forall in Hf; by apply Hf).
  split_and!; [done| |].
  - destruct (pipe_of e) as [id|] eqn:Hid; [|by destruct e].
    destruct (held_live pid s t e id Hinv Hpid Ht He Hid) as (_ & w & r & Hr & Hw & Hrd & _).
    pose proof (cnt_small s (PipeWrite id) Hsm). pose proof (cnt_small s (PipeRead id) Hsm).
    destruct e; simplify_eq/=; exists (cnt s (PipeWrite id)), (cnt s (PipeRead id)); (split; [done|lia]).
  - intros id Hidle. pose proof (idle_not_held pid s t id Hinv Hpid Ht Hidle) as Hf. rewrite Forall_forall in Hf. by apply Hf.
Qed.

Lemma setting_up_next (c : Z) (fd : nat) (l : list nat) (e : FdEntry) (s : State) :
  setting_up c (fd :: l) s -> setting_up c l (snd (alloc_fd_at c fd e s)).
Proof.
  intros (Hc & [Hni Hnd]%NoDup_cons & [_ Hl]%Forall_cons). split_and!; [lia|lia|done|]. rewrite Forall_forall in Hl |- *. intros fd' Hin old Hold.
  apply alloc_fd_at_other in Hold as [Hold| ->]; [by apply (Hl fd')|done|lia|by intros ->].
Qed.
Lemma setting_up_skip (c : Z) (fd : nat) (l : list nat) (s : State) : setting_up c (fd :: l) s -> setting_up c l s.
Proof. by intros (Hc & [_ Hnd]%NoDup_cons & [_ Hl]%Forall_cons). Qed.

Section Resume.
Context (k : Kernel) (pid : Z) (q : Pending) (Hk : kinv k) (Hq : pend k !! pid = Some q).

Lemma resumed_pid : 0 <= pid < PIDS /\ pend_ok (fds k) pid q /\ ~ is_child pid k.
Proof.
  destruct (k_pend k Hk pid q Hq) as [Hp Hok]. split_and!; [lia|lia|done|]. intros (p' & q' & Hq' & Hc).
  destruct (k_child k Hk p' q' pid Hq' Hc). congruence.
Qed.

(** A section that only reads, or writes the process's own table. *)
Lemma own_section (s' : State) (o : option Pending) :
  inv s' -> small s' -> only_table pid (fds k) s' ->
  (forall id, idle (fds k) id -> idle_of q <> Some id -> refs_of id (Pipe.pipes (world s')) = refs_of id (Pipe.pipes (world (fds k)))) ->
  (forall q', o = Some q' -> pend_ok s' pid q' /\ (forall c, child_of q' = Some c -> child_of q = Some c) /\ (forall id, idle_of q' = Some id -> idle_of q = Some id)) ->
  kinv (mkKernel s' (partial_alter (fun _ => o) pid (pend k))).
Proof.
  intros Hi Hs Ho Hr Hnew. destruct resumed_pid as (Hp & Hok & Hnc). apply (kinv_section k pid pid); try done; [by left|..].
  - intros p q0 id Hne Hq0 Hid Hidle. apply Hr; [done|]. intros Hid'. by apply Hne, (k_idle k Hk pid q p q0 id).
  - intros q' Hq'. by apply Hnew.
  - intros q' c Hq' Hc. left. exists q. split; [done|]. destruct (Hnew q' Hq') as (_ & Hch & _). by apply Hch.
  - intros q' id p q0 Hq' Hid Hne Hq0 Hid0. destruct (Hnew q' Hq') as (_ & _ & Hid'). by apply Hne, (k_idle k Hk pid q p q0 id); [..|apply Hid'|].
Qed.

(** Installing an end of the call's own pipe. *)
Lemma pipe_end_section (id : Z) (e : FdEntry) :
  pipe_of e = Some id -> q = PPipe id \/ (exists r, q = PPipeEnd id r) ->
  let '(r, s') := alloc_fd pid e (fds k) in
  inv s' /\ small s' /\ only_table pid (fds k) s' /\ 0 <= id /\
  (forall i, idle (fds k) i -> idle_of q <> Some i -> refs_of i (Pipe.pipes (world s')) = refs_of i (Pipe.pipes (world (fds k)))) /\
  (forall fd, r = Some fd -> get_fd pid fd s' = Some e) /\ (r = None -> world s' = world (fds k)).
Proof.
  intros Hid Hcase. destruct resumed_pid as (Hp & Hok & _). pose proof (k_inv k Hk) as Hinv. pose proof (k_small k Hk) as Hsm.
  assert (entry_ok e /\ can_clone e (Pipe.pipes (world (fds k))) /\ 0 <= id /\ forall i, idle (fds k) i -> idle_of q <> Some i -> pipe_of e <> Some i) as (He & Hcl & Hpos & Hne).
  { assert ((idle (fds k) id /\ idle_of q = Some id) \/ exists r, get_fd pid r (fds k) = Some (PipeRead id) /\ 0 <= id) as [[[Hpos Hidle] Hqi]|(r & Hr & Hpos)].
    { destruct Hcase as [->|[[r|] ->]]; cbn [pend_ok idle_of] in Hok |- *; [by left| |by left]. right. exists r. naive_solver. }
    - split_and!; [by destruct e; simplify_eq/=| |done|].
      + destruct e; simplify_eq/=; exists 0, 0; (split; [done|lia]).
      + intros i _ Hi. rewrite Hid. congruence.
    - destruct (held_clone (PipeRead id) pid (fds k) Hinv Hsm ltac:(lia)) as (_ & _ & Hno); [right; by exists r|].
      destruct (get_fd_elem pid r (fds k) _ Hr) as (t & Ht & Hel).
      destruct (held_live pid (fds k) t _ id Hinv ltac:(lia) Ht Hel eq_refl) as (_ & w & rd & Hrefs & Hw & Hrd & _).
      pose proof (cnt_small (fds k) (PipeWrite id) Hsm). pose proof (cnt_small (fds k) (PipeRead id) Hsm).
      split_and!; [by destruct e; simplify_eq/=| |done|].
      + destruct e; simplify_eq/=; exists (cnt (fds k) (PipeWrite id)), (cnt (fds k) (PipeRead id)); (split; [done|lia]).
      + intros i Hi _. rewrite Hid. by apply (Hno i). }
  pose proof (alloc_fd_inv pid e (fds k) ltac:(lia) Hinv He Hcl) as H1. pose proof (small_alloc_fd pid e (fds k) Hp Hsm) as H2.
  pose proof (only_alloc_fd pid e (fds k) ltac:(lia)) as H3. pose proof (alloc_fd_get pid e (fds k)) as H4. pose proof (alloc_fd_full pid e (fds k)) as H5.
  assert (forall i, idle (fds k) i -> idle_of q <> Some i -> refs_of i (Pipe.pipes (world (snd (alloc_fd pid e (fds k))))) = refs_of i (Pipe.pipes (world (fds k)))) as H6.
  { intros i Hi Hqi. apply refs_alloc_fd; [done|apply Hi|by apply Hne]. }
  destruct (alloc_fd pid e (fds k)) as [r s']. cbn [fst snd] in *. by split_and!.
Qed.
End Resume.

Lemma resume_kinv (k : Kernel) (pid : Z) (ok : bool) : kinv k -> kinv (resume pid ok k).
Proof.
  intros Hk. unfold resume. destruct (pend k !! pid) as [q|] eqn:Hq; [|done].
  destruct (resumed_pid k pid q Hk Hq) as (Hp & Hok & Hnc). pose proof (k_inv k Hk) as Hinv. pose proof (k_small k Hk) as Hsm.
  destruct q as [fd node g off|id|id r|[|fd l]|c [|[fd e|fd src dflt] l]|c fd e l]; cbn [pend_ok] in Hok.
  - apply (own_section k pid _ Hk Hq _ None); [by apply set_fd_inv; [lia| | |]|by apply small_set_fd|apply only_set_fd; lia| |done].
    intros id _ _. cbn [put_fds fds]. by rewrite world_set_fd.
  - pose proof (pipe_end_section k pid _ Hk Hq id (PipeRead id) eq_refl ltac:(by left)) as Hs.
    destruct (alloc_fd pid (PipeRead id) (fds k)) as [r s']. destruct Hs as (H1 & H2 & H3 & H4 & H5 & H6 & H7).
    apply (own_section k pid _ Hk Hq _ (Some _)); try done. intros q' [= <-]. destruct r as [r|]; cbn; [by split_and!; [|apply H6|..]|].
    split; [split; [done|]; cbn [put_fds fds]; rewrite H7 by done; apply Hok|done].
  - pose proof (pipe_end_section k pid _ Hk Hq id (PipeWrite id) eq_refl ltac:(right; by eexists)) as Hs.
    destruct (alloc_fd pid (PipeWrite id) (fds k)) as [w s']. destruct Hs as (H1 & H2 & H3 & H4 & H5 & _).
    assert (forall o, o = None \/ (exists l, o = Some (PRollback l)) -> kinv (mkKernel s' (partial_alter (fun _ => o) pid (pend k)))) as Hend.
    { intros o Ho. apply (own_section k pid _ Hk Hq); try done. intros q' ->. by destruct Ho as [?|[l [= ->]]]. }
    destruct r as [rfd|], w as [wfd|]; [destruct ok|..]; (apply (Hend None); by left) || (apply (Hend (Some _)); right; by eexists).
  - by apply (own_section k pid _ Hk Hq (fds k) None).
  - apply (own_section k pid _ Hk Hq _ (Some _)); [apply free_fd_inv; [lia|done]|by apply small_free_fd|apply only_free_fd; lia| |by intros q' [= <-]].
    intros id Hid _. apply refs_free_idle; [done|lia|done].
  - by apply (own_section k pid _ Hk Hq (fds k) None).
  - destruct Hok as [Hup [Hpl Hl]%Forall_cons]. apply (own_section k pid _ Hk Hq (fds k) (Some _)); try done.
    intros q' [= <-]. cbn. split_and!; [done|done|by left|naive_solver|done].
  - destruct Hok as [Hup [Hpl Hl]%Forall_cons].
    assert (forall e, held e pid (fds k) -> kinv (go_on pid (PPut c fd e l) k)) as Hput.
    { intros e He. apply (own_section k pid _ Hk Hq (fds k) (Some _)); try done. intros q' [= <-]. cbn. split_and!; [done|done|done|naive_solver|done]. }
    destruct (get_fd pid src (fds k)) as [e|] eqn:Eg; [apply Hput; right; by eexists|].
    destruct dflt as [e|]; [apply Hput; by left|]. apply (own_section k pid _ Hk Hq (fds k) (Some _)); try done.
    intros q' [= <-]. cbn. split_and!; [by apply setting_up_skip in Hup|done|naive_solver|done].
  - destruct Hok as (Hup & Hl & Hheld). destruct (held_clone e pid (fds k) Hinv Hsm ltac:(lia) Hheld) as (He & Hcl & Hno).
    pose proof Hup as (Hc & _ & [Hnp _]%Forall_cons).
    apply (kinv_section k pid c _ (Some _)); try done.
    + by apply alloc_fd_at_inv; [lia|..].
    + by apply small_alloc_fd_at.
    + apply only_alloc_fd_at. lia.
    + right. by eexists.
    + intros p q id _ _ _ Hid. apply refs_alloc_fd_at; [done|apply Hid|by apply Hno].
    + intros q [= <-]. split; [by apply setting_up_next|done].
    + intros q c' [= <-] [= <-]. left. by eexists.
    + by intros q id p q' [= <-].
Qed.

Lemma fd_boot_inv (w : Pipe.State) : inv (boot w).
Proof. split; [by intros id Hid|]. intros pid t _. by unfold table. Qed.

Lemma run_inv (w : Pipe.State) (es : list Event) (k : Kernel) : trace step (start w) es k -> kinv k.
Proof.
  intros Htr. apply (trace_invariant step kinv (start w) es k); [| |done].
  - intros k0 [pid c|pid ok] k1 Hk [Hm ->]; [by apply begin_kinv|by apply resume_kinv].
  - split; [apply fd_boot_inv|split; [done|constructor]|..]; intros p q; simpl; intros *; by rewrite lookup_empty.
Qed.


(** With two threads of one process it fails.  One thread reads or writes a file and has
    taken the descriptor's entry; before it stores the new offset, the other closes the
    file and makes a pipe, whose read end gets the same number.  The late [set_fd]
    overwrites that end without closing it: from then on the pipe counts one reader more
    than there are descriptors, so that it is never freed. *)
Theorem late_offset_leaks_pipe (pid : Z) (fd : nat) (id node g off : Z) (s : State) :
  inv s -> 0 <= pid -> get_fd pid fd s = Some (PipeRead id) ->
  let s' := snd (set_fd pid fd (File node g off) s) in
  exists wr rd, refs_of id (Pipe.pipes (world s')) = Some (wr, rd) /\ rd = cnt s' (PipeRead id) + 1.
Proof.
  intros Hinv Hpid Hfd s'. destruct (get_fd_elem pid fd s _ Hfd) as (t & Ht & He).
  destruct (held_live pid s t _ id Hinv Hpid Ht He eq_refl) as (Hid & w & r & Hr & _ & Hrd & _).
  unfold get_fd in Hfd. rewrite Ht in Hfd. simpl in Hfd. pose proof (lookup_lt_Some _ _ _ Hfd) as Hlt.
  exists w, r. unfold s'. rewrite world_set_fd. split; [done|]. unfold set_fd. rewrite Ht, (proj2 (Nat.ltb_lt _ _) Hlt). cbn [snd].
  rewrite (cnt_set_table pid s _ t (<[fd := File node g off]> t)) by done.
  rewrite (zsum_insert _ _ _ _ _ Hfd), ind_same, ind_ne by done. lia.
Qed.

(** A call that nobody interleaves with does what [sys_pipe] does. *)
Fixpoint resumes (n : nat) (pid : Z) (ok : bool) (k : Kernel) : Kernel :=
  match n with O => k | S n' => resumes n' pid ok (resume pid ok k) end.

Theorem pipe_call_alone (pid out_ptr : Z) (write_ok : bool) (k : Kernel) :
  pend k !! pid = None ->
  resumes 5 pid ((out_ptr =? 0) || write_ok) (begin pid CPipe k) = put_fds (snd (sys_pipe pid out_ptr write_ok (fds k))) k.
Proof.
  intros Hn. set (ok := (out_ptr =? 0) || write_ok).
  assert (forall q s, resume pid ok (mkKernel s (<[pid := q]> (pend k))) =
    match q with
    | PPipe id => let '(r, s) := alloc_fd pid (PipeRead id) s in mkKernel s (<[pid := PPipeEnd id r]> (pend k))
    | PPipeEnd id r =>
        let '(w, s) := alloc_fd pid (PipeWrite id) s in
        match r, w with
        | Some rfd, Some wfd => if ok then mkKernel s (pend k) else mkKernel s (<[pid := PRollback [rfd; wfd]]> (pend k))
        | _, _ => mkKernel s (<[pid := PRollback (option_list r ++ option_list w)]> (pend k))
        end
    | PRollback (fd :: l) => mkKernel (snd (free_fd pid fd s)) (<[pid := PRollback l]> (pend k))
    | PRollback [] => mkKernel s (pend k)
    | _ => resume pid ok (mkKernel s (<[pid := q]> (pend k)))
    end) as Hr.
  { intros q s. unfold resume, go_on, finish, put_fds. cbn [fds pend]. rewrite lookup_insert_eq.
    destruct q as [| | |[|? ?]| |]; try done.
    - destruct (alloc_fd _ _ _). by rewrite insert_insert_eq.
    - destruct (alloc_fd _ _ _) as [w s1]. destruct read_fd, w; try destruct ok; by rewrite ?insert_insert_eq, ?delete_insert_eq, ?delete_id.
    - by rewrite delete_insert_eq, delete_id.
    - by rewrite insert_insert_eq. }
  assert (forall s, resume pid ok (mkKernel s (pend k)) = mkKernel s (pend k)) as Hend by (intros s; unfold resume; cbn [pend]; by rewrite Hn).
  cbn [begin]. unfold sys_pipe. destruct (Pipe.create _) as [id ps]. cbn [resumes]. unfold go_on, put_fds. cbn [pend fds].
  rewrite Hr. destruct (alloc_fd pid (PipeRead id) _) as [r s1]. rewrite Hr. destruct (alloc_fd pid (PipeWrite id) s1) as [w s2].
  destruct r as [r|], w as [w|]; cbn -[resume free_fd].
  - assert ((negb (out_ptr =? 0) && negb write_ok) = negb ok) as -> by (unfold ok; by rewrite negb_orb).
    destruct ok; cbn [negb snd]; [by rewrite !Hend|by do 3 (rewrite Hr; cbn iota)].
  - do 2 (rewrite Hr; cbn iota). by rewrite !Hend.
  - do 2 (rewrite Hr; cbn iota). by rewrite !Hend.
  - rewrite Hr. cbn iota. by rewrite !Hend.
Qed.

Lemma settled_not_zero (w r : Z) : settled w r <> Some (0, 0).
Proof. unfold settled. destruct (_ && _) eqn:E; [done|]. by intros [= -> ->]. Qed.

(** Closing the last descriptor of a pipe frees it, and no earlier closing
    does: after a descriptor for an end of pipe [id] is closed, the pipe is gone
    exactly if no descriptor for either end is left. *)
Theorem last_close_frees_pipe (pid : Z) (fd : nat) (id : Z) (e : FdEntry) (s : State) :
  inv s -> 0 <= pid -> get_fd pid fd s = Some e -> e = PipeRead id \/ e = PipeWrite id ->
  let s' := snd (free_fd pid fd s) in
  Pipe.slot id (Pipe.pipes (world s')) = None <->
  cnt s' (PipeWrite id) = 0 /\ cnt s' (PipeRead id) = 0.
Proof.
  intros Hinv Hpid Hget He s'. pose proof (free_fd_inv pid fd s Hpid Hinv) as Hinv'. fold s' in Hinv'.
  unfold get_fd in Hget. destruct (table pid s) as [t|] eqn:Ht; [|done]. simpl in Hget.
  assert (0 <= id) as Hid.
  { pose proof (Forall_lookup_1 _ _ _ _ (inv_entries s Hinv pid t Hpid Ht) Hget) as Hok.
    by destruct He as [-> | ->]. }
  pose proof (inv_refs s' Hinv' id Hid) as Ha. unfold refs_of in Ha.
  destruct (Pipe.slot id (Pipe.pipes (world s'))) as [p|] eqn:Hp; simpl in Ha; [|done].
  split; [done|]. intros [Hw Hr]. exfalso. destruct Ha as [Ew Er]. rewrite Hw in Ew. rewrite Hr in Er.
  assert (forall i, 0 <= i -> refs_of i (Pipe.pipes (world s')) = Some (0, 0) ->
                    i = id -> False) as Hno; [|by apply (Hno id Hid); [unfold refs_of; rewrite Hp; simpl; congruence|]].
  clear Ew Er Hw Hr Hp p. intros i Hi Hrefs ->. unfold s', free_fd in Hrefs. rewrite Ht, Hget in Hrefs.
  cbn [snd set_table set_tables world] in Hrefs.
  destruct He as [-> | ->]; cbn [close_entry] in Hrefs.
  - cbn [on_pipes world Pipe.set_pipes Pipe.pipes] in Hrefs.
    rewrite (refs_close_read id _ Hid id Hid), Z.eqb_refl in Hrefs.
    destruct (refs_of id _) as [[w r]|]; simpl in Hrefs; [|done]. by eapply settled_not_zero.
  - cbn [world] in Hrefs. rewrite refs_notify in Hrefs by done.
    cbn [on_pipes world Pipe.set_pipes Pipe.pipes] in Hrefs.
    rewrite (refs_close_write id _ Hid id Hid), Z.eqb_refl in Hrefs.
    destruct (refs_of id _) as [[w r]|]; simpl in Hrefs; [|done]. by eapply settled_not_zero.
Qed.

(** Closing one of several write ends reports end of file to blocked readers.
    If pipe [id] is empty and has a second writer, closing one write descriptor
    leaves the pipe open for writing, and still every thread blocked reading it
    becomes ready with the result 0, the value that means end of file. *)
Theorem close_one_writer_spurious_eof (pid : Z) (fd : nat) (id : Z) (s : State) (p : Pipe.PipeState)
    (k : nat) (t : Thread.Thread) :
  0 <= id -> get_fd pid fd s = Some (PipeWrite id) ->
  Pipe.slot id (Pipe.pipes (world s)) = Some p -> Pipe.data p = [] -> 2 <= Pipe.write_refs p ->
  Thread.threads (Pipe.tst (world s)) !! k = Some t -> Pipe.reads_pipe id (world s) t ->
  let w' := world (snd (free_fd pid fd s)) in
  Pipe.writer_closed id (Pipe.pipes w') = false /\
  exists t', Thread.threads (Pipe.tst w') !! k = Some t' /\ Thread.t_state t' = Thread.Ready /\
    Thread.t_blocking_retval t' = 0 /\
    (Thread.t_blocking_rsp t <> 0 -> Thread.rax (Thread.t_context t') = 0).
Proof.
  intros Hid Hget Hp Hd Hw Hk Hr w'. unfold get_fd in Hget.
  destruct (table pid s) as [tb|] eqn:Ht; [|done]. simpl in Hget.
  assert (Pipe.slot id (Pipe.close_write id (Pipe.pipes (world s))) =
          Some (Pipe.mkPipe [] (Pipe.write_refs p - 1) (Pipe.read_refs p))) as Hp1.
  { unfold Pipe.close_write, Pipe.settle. rewrite Hp. rewrite (Pipe.pipe_set_slot id id _ _ p), Z.eqb_refl by done.
    cbn [Pipe.write_refs Pipe.read_refs]. unfold saturating_sub.
    rewrite (proj2 (Z.eqb_neq (Z.max _ _) 0)) by lia. cbn [andb]. rewrite Hd. f_equal. f_equal. lia. }
  set (s1 := Pipe.set_pipes (Pipe.close_write id (Pipe.pipes (world s))) (world s)).
  assert (w' = Pipe.notify_pipe_readers id s1) as ->.
  { unfold w', free_fd. by rewrite Ht, Hget. }
  destruct (Pipe.notify_loop_empty id s1 (Thread.threads (Pipe.tst s1)) (Pipe.pipes s1) (Pipe.umem s1) _ Hp1 eq_refl)
    as [H1 H2].
  specialize (H2 k t Hk Hr). unfold Pipe.notify_pipe_readers.
  destruct (Pipe.notify_loop id s1 _ _) as [l [ps um]]. cbn [fst snd] in *. subst ps. split; [|done].
  unfold Pipe.writer_closed, s1. cbn [Pipe.pipes Pipe.set_pipes]. rewrite Hp1. apply Z.eqb_neq. simpl. lia.
Qed.

(** * Witnesses *)

Fixpoint run (es : list Event) (k : Kernel) : Kernel :=
  match es with [] => k | e :: es' => run es' (perform e k) end.
Fixpoint all_allowed (es : list Event) (k : Kernel) : Prop :=
  match es with
  | [] => True
  | e :: es' => (match e with EBegin pid c => may pid c k | EResume _ _ => True end) /\ all_allowed es' (perform e k)
  end.

Lemma fd_run_trace (es : list Event) (k : Kernel) : all_allowed es k -> trace step k es (run es k).
Proof.
  revert k. induction es as [|e es IH]; intros k; simpl; [constructor|]. intros [H1 H2].
  econstructor; [done|]. by apply IH.
Qed.

Lemma no_child (pid : Z) (k : Kernel) : map_Forall (fun _ q => child_of q <> Some pid) (pend k) -> ~ is_child pid k.
Proof. intros Hm (p & q & Hq & Hc). exact (Hm p q Hq Hc). Qed.

Module Example.
(** Thread 1 of process 5 is blocked reading pipe 0 into an empty buffer. *)
Definition reader : Thread.Thread :=
  Thread.mkThread 1 5 Thread.Sleeping 0 Thread.EMPTY_USER_CONTEXT 0 0 false 4096 0
    (Thread.WPipeRead 0 0 0) Thread.User 0.
Definition w0 : Pipe.State :=
  Pipe.mkState [] (Thread.mkTState [reader] 2 true 0 (replicate 16 0) ∅ Allocator.Allocator.ALLOCATOR) ∅ 0 ∅.
(** Process 5 makes a pipe, starts 6 and 7 with the write end as their standard output
    (while 8 opens a file) and closes its own write end. *)
Definition setup : list Event :=
  [EBegin 5 CPipe; EResume 5 true; EResume 5 true; EBegin 5 (CSpawn 6 65535 1 false); EResume 5 true; EResume 5 true; EResume 5 true;
   EBegin 8 (COpen (File 1 0 0)); EResume 5 true; EResume 5 true; EResume 5 true; EResume 5 true; EBegin 5 (CSpawn 7 65535 1 false)] ++
  replicate 7 (EResume 5 true).
Definition script : list Event := setup ++ [EBegin 5 (CClose 1)].
Definition last_state : Kernel := run script (start w0).
Definition three : State := fds last_state.
Definition shared : State := fds (run setup (start w0)).

Ltac may_ok :=
  split_and!; try done;
  first [apply no_child; apply (bool_decide_eq_true_1 _); vm_compute; reflexivity|vm_compute; reflexivity|left; vm_compute; reflexivity|idtac].
Lemma script_trace : trace step (start w0) script last_state.
Proof.
  apply fd_run_trace. cbn [all_allowed script setup app replicate perform]. unfold may.
  repeat (split; [first [exact I|may_ok]|]). exact I.
Qed.


Lemma three_counts : refs_of 0 (Pipe.pipes (world three)) = Some (2, 1) /\ cnt three (PipeWrite 0) = 2 /\ cnt three (PipeRead 0) = 1.
Proof. vm_compute. done. Qed.

Lemma late_offset_leaks_pipe_witness :
  exists wr rd, refs_of 0 (Pipe.pipes (world (snd (set_fd 5 0 (File 1 0 9) three)))) = Some (wr, rd) /\
    rd = cnt (snd (set_fd 5 0 (File 1 0 9) three)) (PipeRead 0) + 1.
Proof.
  apply (late_offset_leaks_pipe 5 0 0 1 0 9 three); [exact (k_inv _ (run_inv w0 script last_state script_trace))|lia|vm_compute; reflexivity].
Defined.

Lemma pipe_call_alone_witness :
  resumes 5 5 ((0 =? 0) || false) (begin 5 CPipe last_state) = put_fds (snd (sys_pipe 5 0 false (fds last_state))) last_state.
Proof. apply (pipe_call_alone 5 0 false last_state). vm_compute. reflexivity. Defined.

Lemma last_close_frees_pipe_witness :
  Pipe.slot 0 (Pipe.pipes (world (snd (free_fd 6 1 three)))) = None <->
  cnt (snd (free_fd 6 1 three)) (PipeWrite 0) = 0 /\ cnt (snd (free_fd 6 1 three)) (PipeRead 0) = 0.
Proof.
  apply (last_close_frees_pipe 6 1 0 (PipeWrite 0) three); [|lia|vm_compute; reflexivity|by right].
  exact (k_inv _ (run_inv w0 script last_state script_trace)).
Defined.

Lemma close_one_writer_spurious_eof_witness :
  Pipe.writer_closed 0 (Pipe.pipes (world (snd (free_fd 6 1 shared)))) = false.
Proof.
  apply (close_one_writer_spurious_eof 6 1 0 shared (Pipe.mkPipe [] 3 1) 0 reader);
    [lia|vm_compute; reflexivity|vm_compute; reflexivity|done|simpl; lia|vm_compute; reflexivity|].
  exists 0, 0. split_and!; [done|done|vm_compute; reflexivity].
Defined.
End Example.

End Fd.
