(* ===== verification/Vfs.v ===== *)
(** In-memory file system and device registry: [crates/kernel/src/fs/vfs.rs] and
    [crates/kernel/src/fs/devfs.rs].

    The static [NODES] vector is a list of slots; every function runs under
    [FS_LOCK], so each is one step.  A [&str] is the list of its UTF-8 bytes:
    the separators the code looks for are ASCII.  A device's operations table is
    named by a number. *)
From stdpp Require Import base numbers option sets list.
From S2P Require Import Prelude Str.

Open Scope Z_scope.

Module Vfs.
Export Str.Str.

(** * Data *)

Definition MAGIC : list Z := [75; 70; 83; 0].
Definition VERSION : Z := 1.
Definition HEADER_SIZE : Z := 28.
Definition ENTRY_SIZE : Z := 32.
Definition FLAG_DIR : Z := 1.
Definition FLAG_FILE : Z := 2.
Definition PATH_CAP : nat := 96.

Record Node := mkNode { n_path : str; n_dir : bool; n_data : list Z }.
Record Slot := mkSlot { generation : Z; node : option Node }.

Inductive FsError :=
  | NotInitialized | InvalidImage | InvalidPath | NotFound | NotAFile | NotADirectory
  | BufferTooSmall | AlreadyExists | NotEmpty.
#[export] Instance FsError_eq_dec : EqDecision FsError.
Proof. solve_decision. Defined.

Inductive FileType := FtFile | FtDirectory.
Inductive VfsNode := VFile (node generation : Z) (len : nat) | VDir | VDevice (ops : Z).
Record Metadata := mkMeta { m_len : nat; m_kind : FileType }.
Record DirEntry := mkEntry { e_path : list Z; e_path_len : nat; e_kind : FileType; e_len : nat }.

(** * Helpers *)

Definition ROOT : str := [SLASH].

Definition has_path (path : str) (s : Slot) : bool :=
  match node s with Some n => bool_decide (n_path n = path) | None => false end.
Definition find (nodes : list Slot) (path : str) : option nat := position (has_path path) nodes.
(** [nodes[id].node.as_ref()]. *)
Definition node_at (nodes : list Slot) (id : nat) : option Node := s ← nodes !! id; node s.

Definition parent_of (path : str) : str :=
  match rfind SLASH path with
  | None | Some O => ROOT
  | Some i => take i path
  end.

(** [Ok(())] as [true]. *)
Definition validate_path (path : str) : bool :=
  negb (negb (starts_with [SLASH] path)
        || ((1 <? length path)%nat && ends_with SLASH path)
        || contains [SLASH; SLASH] path
        || contains [SLASH; DOT; SLASH] path
        || contains [SLASH; DOT; DOT; SLASH] path).

Definition is_child (parent child : str) : bool :=
  if bool_decide (child = parent) then false
  else
  let rest := if bool_decide (parent = ROOT) then strip_prefix [SLASH] child
              else v ← strip_prefix parent child; strip_prefix [SLASH] v in
  match rest with
  | Some v => negb (bool_decide (v = [])) && negb (contains [SLASH] v)
  | None => false
  end.

(** ** The boot image *)

(** [data.get(a..b)]. *)
Definition get_range (data : list Z) (a b : Z) : option (list Z) :=
  if (a <=? b) && (b <=? Z.of_nat (length data))
  then Some (take (Z.to_nat (b - a)) (drop (Z.to_nat a) data)) else None.

Definition read_le (n : Z) (data : list Z) (offset : Z) : option Z :=
  from_le <$> get_range data offset (offset + n).
Definition read_u16 : list Z -> Z -> option Z := read_le 2.
Definition read_u32 : list Z -> Z -> option Z := read_le 4.
Definition read_u64 : list Z -> Z -> option Z := read_le 8.

Definition push (path : str) (is_dir : bool) (data : list Z) (nodes : list Slot) : list Slot :=
  nodes ++ [mkSlot 0 (Some (mkNode path is_dir data))].

(** The recursion shortens the path at every level. *)
Fixpoint ensure_parents_fuel (fuel : nat) (nodes : list Slot) (path : str) : list Slot :=
  match fuel with
  | O => nodes
  | S n =>
      let parent := parent_of path in
      if bool_decide (parent = ROOT) then nodes
      else
      let nodes := ensure_parents_fuel n nodes parent in
      match find nodes parent with
      | None => push parent true [] nodes
      | Some _ => nodes
      end
  end.
Definition ensure_parents (nodes : list Slot) (path : str) : list Slot :=
  ensure_parents_fuel (S (length path)) nodes path.

(** The fields of one entry: its path, data offset, size and flags. *)
Definition read_entry (image : list Z) (paths_start base : Z) : Result (str * Z * Z * Z) FsError :=
  match read_u16 image base, read_u16 image (base + 2), read_u64 image (base + 4),
        read_u64 image (base + 12), read_u32 image (base + 20) with
  | Some path_len, Some path_off, Some data_off, Some size, Some flags =>
      match get_range image (paths_start + path_off) (paths_start + path_off + path_len) with
      | Some path =>
          if negb (utf8_valid path) then Err InvalidImage
          else if negb (validate_path path) then Err InvalidPath
          else Ok (path, data_off, size, flags)
      | None => Err InvalidImage
      end
  | _, _, _, _, _ => Err InvalidImage
  end.

Definition add_entry (image : list Z) (paths_start base : Z) (nodes : list Slot)
    : Result unit FsError * list Slot :=
  match read_entry image paths_start base with
  | Err e => (Err e, nodes)
  | Ok (path, data_off, size, flags) =>
      let nodes := ensure_parents nodes path in
      match find nodes path with
      | Some _ => (Ok tt, nodes)
      | None =>
          if negb (Z.land flags FLAG_FILE =? 0) then
            match (end_ ← checked_add data_off size; get_range image data_off end_) with
            | Some data => (Ok tt, push path false data nodes)
            | None => (Err InvalidImage, nodes)
            end
          else if negb (Z.land flags FLAG_DIR =? 0) then (Ok tt, push path true [] nodes)
          else (Err InvalidImage, nodes)
      end
  end.

Fixpoint add_entries (count : nat) (index : Z) (image : list Z) (paths_start : Z) (nodes : list Slot)
    : Result unit FsError * list Slot :=
  match count with
  | O => (Ok tt, nodes)
  | S n =>
      match add_entry image paths_start (HEADER_SIZE + index * ENTRY_SIZE) nodes with
      | (Ok _, nodes) => add_entries n (index + 1) image paths_start nodes
      | (Err e, nodes) => (Err e, nodes)
      end
  end.

Definition init (image : list Z) (nodes : list Slot) : Result unit FsError * list Slot :=
  if (Z.of_nat (length image) <? HEADER_SIZE) || negb (bool_decide (take 4 image = MAGIC))
  then (Err InvalidImage, nodes)
  else
  match read_u32 image 4, read_u32 image 8 with
  | Some version, Some file_count =>
      if negb (version =? VERSION) then (Err InvalidImage, nodes)
      else
      let paths_start := HEADER_SIZE + file_count * ENTRY_SIZE in
      if Z.of_nat (length image) <? paths_start then (Err InvalidImage, nodes)
      else add_entries (Z.to_nat file_count) 0 image paths_start (push ROOT true [] [])
  | _, _ => (Err InvalidImage, nodes)
  end.

(** * Device registry *)

Definition MAX_DEV : nat := 16.
Record DevEntry := mkDev { d_name : list Z; d_name_len : nat; d_ops : Z }.
Definition Registry : Type := list (option DevEntry).
Definition empty_registry : Registry := replicate MAX_DEV None.

Definition register (name : str) (ops : Z) (reg : Registry) : Registry :=
  if (32 <? length name)%nat then reg
  else match position (fun o : option DevEntry => match o with None => true | _ => false end) reg with
       | Some i => <[i := Some (mkDev (name ++ replicate (32 - length name) 0) (length name) ops)]> reg
       | None => reg
       end.

(** The names [for_each] passes to its callback, in order. *)
Definition for_each (reg : Registry) : list str :=
  omap (fun o => d ← o; let name := take (d_name_len d) (d_name d) in
                 if utf8_valid name then Some name else None) reg.

Definition dev_matches (name : str) (o : option DevEntry) : bool :=
  match o with
  | Some d => (d_name_len d =? length name)%nat && bool_decide (take (d_name_len d) (d_name d) = name)
  | None => false
  end.
Definition dev_lookup (name : str) (reg : Registry) : option Z :=
  o ← find_first (dev_matches name) reg; d_ops <$> o.

(** * Lookups *)

Definition DEV_PREFIX : str := [47; 100; 101; 118; 47].   (* "/dev/" *)

Definition lookup (path : str) (reg : Registry) (nodes : list Slot) : Result VfsNode FsError :=
  if negb (validate_path path) then Err InvalidPath
  else
  match (if starts_with DEV_PREFIX path then dev_lookup path reg else None) with
  | Some ops => Ok (VDevice ops)
  | None =>
      match find nodes path with
      | None => Err NotFound
      | Some id =>
          match nodes !! id with
          | Some (mkSlot g (Some n)) =>
              if n_dir n then Ok VDir else Ok (VFile (Z.of_nat id) g (length (n_data n)))
          | _ => Err NotFound
          end
      end
  end.

Definition kind_of (n : Node) : FileType := if n_dir n then FtDirectory else FtFile.

(** The node at a valid path. *)
Definition resolve (path : str) (nodes : list Slot) : Result (nat * Node) FsError :=
  if negb (validate_path path) then Err InvalidPath
  else match find nodes path with
       | None => Err NotFound
       | Some id => match node_at nodes id with Some n => Ok (id, n) | None => Err NotFound end
       end.

Definition metadata (path : str) (nodes : list Slot) : Result Metadata FsError :=
  match resolve path nodes with
  | Ok (_, n) => Ok (mkMeta (length (n_data n)) (kind_of n))
  | Err e => Err e
  end.

Definition read_file (path : str) (nodes : list Slot) : Result (list Z) FsError :=
  match resolve path nodes with
  | Ok (_, n) => if n_dir n then Err NotAFile else Ok (n_data n)
  | Err e => Err e
  end.

Definition dir_entry (n : Node) : DirEntry :=
  let take_len := Nat.min (length (n_path n)) PATH_CAP in
  mkEntry (take take_len (n_path n) ++ replicate (PATH_CAP - take_len) 0) take_len (kind_of n)
          (length (n_data n)).

(** The loop over the slots, filling [out] from index [count]. *)
Fixpoint dir_loop (path : str) (l : list Slot) (count : nat) (out : list DirEntry)
    : Result nat FsError * list DirEntry :=
  match l with
  | [] => (Ok count, out)
  | mkSlot _ (Some n) :: l' =>
      if negb (is_child path (n_path n)) then dir_loop path l' count out
      else if (length out <=? count)%nat then (Err BufferTooSmall, out)
      else dir_loop path l' (S count) (<[count := dir_entry n]> out)
  | mkSlot _ None :: l' => dir_loop path l' count out
  end.

Definition read_dir (path : str) (out : list DirEntry) (nodes : list Slot)
    : Result nat FsError * list DirEntry :=
  match resolve path nodes with
  | Ok (_, n) => if negb (n_dir n) then (Err NotADirectory, out) else dir_loop path nodes 0 out
  | Err e => (Err e, out)
  end.

(** * Handles *)

Definition live (nodes : list Slot) (id : nat) (g : Z) : option Node :=
  s ← nodes !! id; if generation s =? g then node s else None.

Definition set_node (id : nat) (o : option Node) (nodes : list Slot) : list Slot :=
  alter (fun s => mkSlot (generation s) o) id nodes.

(** The count and the caller's buffer. *)
Definition read_at (id : nat) (g : Z) (offset : nat) (buf : list Z) (nodes : list Slot) : nat * list Z :=
  match live nodes id g with
  | None => (0%nat, buf)
  | Some n =>
      if n_dir n || (length (n_data n) <=? offset)%nat then (0%nat, buf)
      else
      let len := Nat.min (length buf) (length (n_data n) - offset) in
      (len, take len (drop offset (n_data n)) ++ drop len buf)
  end.

Definition truncate (id : nat) (g : Z) (nodes : list Slot) : list Slot :=
  match live nodes id g with
  | Some n => if n_dir n then nodes else set_node id (Some (mkNode (n_path n) false [])) nodes
  | None => nodes
  end.

(** [data.resize(end, 0)] if it grows, then [data[offset..end]] overwritten.
    (Offsets are positions in files held in memory, so [offset + src.len()] does
    not reach [2^64].) *)
Definition overwrite (offset : nat) (src data : list Z) : list Z :=
  let data' := data ++ replicate (offset + length src - length data) 0 in
  take offset data' ++ src ++ drop (offset + length src) data'.

Definition write_at (id : nat) (g : Z) (offset : nat) (src : list Z) (nodes : list Slot) : nat * list Slot :=
  match live nodes id g with
  | None => (0%nat, nodes)
  | Some n =>
      if n_dir n then (0%nat, nodes)
      else (length src, set_node id (Some (mkNode (n_path n) false (overwrite offset src (n_data n)))) nodes)
  end.

(** * Mutations *)

Definition wrap32 (x : Z) : Z := x mod 2 ^ 32.
#[global] Arguments wrap32 : simpl never.

Definition is_free (s : Slot) : bool := match node s with None => true | Some _ => false end.

Definition make (path : str) (is_dir : bool) (nodes : list Slot) : Result (nat * Z) FsError * list Slot :=
  if negb (validate_path path) then (Err InvalidPath, nodes)
  else if bool_decide (path = ROOT) then (Err AlreadyExists, nodes)
  else
  match find nodes path with
  | Some _ => (Err AlreadyExists, nodes)
  | None =>
      match (id ← find nodes (parent_of path); node_at nodes id) with
      | None => (Err NotFound, nodes)
      | Some p =>
          if negb (n_dir p) then (Err NotADirectory, nodes)
          else
          let n := mkNode path is_dir [] in
          match position is_free nodes with
          | Some i =>
              let g := wrap32 (default 0 (generation <$> nodes !! i) + 1) in
              (Ok (i, g), <[i := mkSlot g (Some n)]> nodes)
          | None => (Ok (length nodes, 0), nodes ++ [mkSlot 0 (Some n)])
          end
      end
  end.

Definition create (path : str) : list Slot -> Result (nat * Z) FsError * list Slot := make path false.
Definition mkdir (path : str) (nodes : list Slot) : Result unit FsError * list Slot :=
  match make path true nodes with
  | (Ok _, nodes) => (Ok tt, nodes)
  | (Err e, nodes) => (Err e, nodes)
  end.

Definition unlink (path : str) (nodes : list Slot) : Result unit FsError * list Slot :=
  match resolve path nodes with
  | Ok (id, n) => if n_dir n then (Err NotAFile, nodes) else (Ok tt, set_node id None nodes)
  | Err e => (Err e, nodes)
  end.

Definition has_child (path : str) (nodes : list Slot) : bool :=
  existsb (fun s => match node s with Some n => is_child path (n_path n) | None => false end) nodes.

Definition rmdir (path : str) (nodes : list Slot) : Result unit FsError * list Slot :=
  if negb (validate_path path) then (Err InvalidPath, nodes)
  else if bool_decide (path = ROOT) then (Err NotEmpty, nodes)
  else
  match resolve path nodes with
  | Ok (id, n) =>
      if negb (n_dir n) then (Err NotADirectory, nodes)
      else if has_child path nodes then (Err NotEmpty, nodes)
      else (Ok tt, set_node id None nodes)
  | Err e => (Err e, nodes)
  end.

(** * Paths *)

Lemma strip_prefix_Some (p l r : str) : strip_prefix p l = Some r <-> l = p ++ r.
Proof.
  revert l. induction p as [|x p IH]; intros l; simpl; [naive_solver|].
  destruct l as [|y l]; [done|]. destruct (x =? y) eqn:E; zbool.
  - subst. rewrite IH. naive_solver.
  - split; [done|]. naive_solver.
Qed.

Lemma starts_with_iff (p l : str) : starts_with p l = true <-> exists r, l = p ++ r.
Proof.
  unfold starts_with. rewrite bool_decide_eq_true. unfold is_Some.
  by setoid_rewrite strip_prefix_Some.
Qed.

Lemma contains_iff (p l : str) : contains p l = true <-> exists a b, l = a ++ p ++ b.
Proof.
  induction l as [|y l IH]; simpl; rewrite orb_true_iff, starts_with_iff.
  - split.
    + intros [[r Hr]|?]; [|done]. by exists [], r.
    + intros (a & b & H). left. exists b. by destruct a.
  - rewrite IH. split.
    + intros [[r Hr]|(a & b & ->)]; [by exists [], r|by exists (y :: a), b].
    + intros ([|x a] & b & H); simplify_eq/=; [left; eauto|right; eauto].
Qed.

Lemma contains_single (c : Z) (l : str) : contains [c] l = false <-> c ∉ l.
Proof.
  rewrite <- not_true_iff_false, contains_iff. split.
  - intros H (a & b & ->)%list_elem_of_split. by apply H; exists a, b.
  - intros Hn (a & b & ->). apply Hn. set_solver.
Qed.

Lemma rfind_split (c : Z) (l : str) :
  match rfind c l with
  | Some i => exists rest, l = take i l ++ c :: rest /\ c ∉ rest /\ (i < length l)%nat
  | None => c ∉ l
  end.
Proof.
  induction l as [|x l IH]; simpl; [by apply not_elem_of_nil|]. destruct (rfind c l) as [i|].
  - destruct IH as (rest & H & Hn & Hl). exists rest. simpl. rewrite <- H. split_and!; [done..|lia].
  - destruct (x =? c) eqn:E; zbool.
    + subst. exists l. split_and!; [done..|lia].
    + rewrite not_elem_of_cons. split; [congruence|done].
Qed.

Lemma rfind_app (c : Z) (a b : str) : c ∉ b -> rfind c (a ++ c :: b) = Some (length a).
Proof.
  intros Hb. assert (rfind c b = None) as Hn.
  { pose proof (rfind_split c b) as H. destruct (rfind c b) as [i|]; [|done].
    destruct H as (rest & H & _). destruct Hb. rewrite H. set_solver. }
  induction a as [|x a IH]; simpl; [by rewrite Hn, Z.eqb_refl|by rewrite IH].
Qed.

(** What [validate_path] guarantees. *)
Lemma validate_path_inv (p : str) :
  validate_path p = true ->
  (exists r, p = SLASH :: r) /\ ((1 < length p)%nat -> last p <> Some SLASH) /\
  (forall a b, p <> a ++ SLASH :: SLASH :: b).
Proof.
  unfold validate_path. rewrite negb_true_iff, !orb_false_iff, negb_false_iff, starts_with_iff.
  intros ((((Hs & He) & Hd) & _) & _). split_and!; [done| |].
  - intros Hl Hlast. apply Nat.ltb_lt in Hl. rewrite Hl in He. unfold ends_with in He.
    by rewrite bool_decide_true in He.
  - intros a b ->. rewrite <- not_true_iff_false, contains_iff in Hd. apply Hd. by exists a, b.
Qed.

(** A valid path other than the root: its parent, a slash, and its last component. *)
Lemma path_split (p : str) :
  validate_path p = true -> p <> ROOT ->
  exists name, name <> [] /\ SLASH ∉ name /\
    ((parent_of p = ROOT /\ p = SLASH :: name) \/
     (parent_of p <> ROOT /\ parent_of p <> [] /\ p = parent_of p ++ SLASH :: name)).
Proof.
  intros Hv Hr. destruct (validate_path_inv p Hv) as ((r & Hp) & Hlast & Hdd).
  pose proof (rfind_split SLASH p) as H. unfold parent_of. destruct (rfind SLASH p) as [i|].
  2:{ destruct H. rewrite Hp. set_solver. }
  destruct H as (name & Hsp & Hn & Hi). exists name.
  assert (name <> []) as Hne.
  { intros ->. apply Hlast; [|rewrite Hsp; apply last_snoc].
    destruct p as [|x [|y p]]; simpl in *; [done| |lia]. by simplify_eq. }
  split_and!; [done..|]. destruct i as [|i]; [left; split; [done|exact Hsp]|]. right.
  assert (take (S i) p <> ROOT) as Hnr.
  { intros Ht. rewrite Ht in Hsp. by apply (Hdd [] name). }
  split_and!; [done| |done]. rewrite Hp. done.
Qed.

(** [is_child] is "has as its parent". *)
Lemma is_child_iff (p c : str) :
  validate_path p = true -> validate_path c = true -> c <> ROOT ->
  is_child p c = true <-> parent_of c = p.
Proof.
  intros Hvp Hv Hr. unfold is_child. split.
  - case_bool_decide; [done|]. case_bool_decide as Hp.
    + subst. destruct (strip_prefix [SLASH] c) as [v|] eqn:E; [|done].
      apply strip_prefix_Some in E as ->. rewrite andb_true_iff, !negb_true_iff.
      intros [_ Hn%contains_single]. unfold parent_of. change ([SLASH] ++ v) with ([] ++ SLASH :: v).
      by rewrite (rfind_app SLASH [] v Hn).
    + destruct (strip_prefix p c) as [v|] eqn:E; cbn [mbind option_bind]; [|done]. apply strip_prefix_Some in E as ->.
      destruct (strip_prefix [SLASH] v) as [w|] eqn:E; [|done]. apply strip_prefix_Some in E as ->.
      rewrite andb_true_iff, !negb_true_iff. intros [_ Hn%contains_single].
      unfold parent_of. change (p ++ [SLASH] ++ w) with (p ++ SLASH :: w). rewrite (rfind_app SLASH p w Hn).
      destruct (validate_path_inv p Hvp) as ((r & ->) & _). simpl.
      by rewrite take_app_length.
  - intros <-. destruct (path_split c Hv Hr) as (name & Hne & Hn & [[-> Hc]|(Hnr & Hnn & Hc)]).
    + rewrite (bool_decide_false (c = ROOT)), (bool_decide_true (ROOT = ROOT)) by done.
      rewrite Hc. cbn [strip_prefix]. rewrite Z.eqb_refl.
      rewrite bool_decide_false, (proj2 (contains_single SLASH name)) by done. done.
    + rewrite (bool_decide_false (parent_of c = ROOT)) by done.
      rewrite bool_decide_false.
      2:{ intros E. rewrite Hc in E at 1. apply (f_equal length) in E. rewrite length_app in E. simpl in E. lia. }
      assert (strip_prefix (parent_of c) c = Some (SLASH :: name)) as -> by (by apply strip_prefix_Some).
      cbn [mbind option_bind strip_prefix]. rewrite Z.eqb_refl.
      rewrite bool_decide_false, (proj2 (contains_single SLASH name)) by done. done.
Qed.

(** * The node table *)

Lemma vfs_find_Some (nodes : list Slot) (path : str) (id : nat) :
  find nodes path = Some id -> exists n, node_at nodes id = Some n /\ n_path n = path.
Proof.
  intros (s & Hs & Hp & _)%position_Some. unfold node_at, has_path in *. rewrite Hs. simpl.
  destruct (node s) as [n|]; [|done]. apply bool_decide_eq_true in Hp. eauto.
Qed.

Lemma vfs_find_None (nodes : list Slot) (path : str) :
  find nodes path = None -> forall i n, node_at nodes i = Some n -> n_path n <> path.
Proof.
  unfold find. rewrite position_None. intros H i n Hn Hp. unfold node_at in Hn.
  destruct (nodes !! i) as [s|] eqn:Hs; simpl in Hn; [|done].
  specialize (H s (list_elem_of_lookup_2 _ _ _ Hs)). unfold has_path in H. rewrite Hn in H.
  by rewrite bool_decide_true in H.
Qed.

Lemma node_at_lt (nodes : list Slot) (i : nat) (n : Node) :
  node_at nodes i = Some n -> (i < length nodes)%nat.
Proof. unfold node_at. destruct (nodes !! i) eqn:E; [|done]. intros _. by eapply lookup_lt_Some. Qed.

Lemma node_at_set_node (nodes : list Slot) (id i : nat) (o : option Node) :
  (id < length nodes)%nat -> node_at (set_node id o nodes) i = if decide (i = id) then o else node_at nodes i.
Proof.
  intros Hl. unfold node_at, set_node. destruct (decide (i = id)) as [->|Hne].
  - rewrite list_lookup_alter_eq. destruct (lookup_lt_is_Some_2 nodes id Hl) as [s ->]. done.
  - by rewrite list_lookup_alter_ne.
Qed.

Lemma resolve_Ok (path : str) (nodes : list Slot) (id : nat) (n : Node) :
  resolve path nodes = Ok (id, n) ->
  validate_path path = true /\ node_at nodes id = Some n /\ n_path n = path.
Proof.
  unfold resolve. destruct (validate_path path); [|done]. simpl.
  destruct (find nodes path) as [i|] eqn:Hf; [|done]. apply vfs_find_Some in Hf as (m & Hm & Hp).
  rewrite Hm. intros [= <- <-]. done.
Qed.

(** ** Invariant: a tree *)

Record inv (nodes : list Slot) : Prop := {
  inv_unique : forall i j n m,
    node_at nodes i = Some n -> node_at nodes j = Some m -> n_path n = n_path m -> i = j;
  inv_valid : forall i n, node_at nodes i = Some n -> validate_path (n_path n) = true;
  inv_root : exists i n, node_at nodes i = Some n /\ n_path n = ROOT /\ n_dir n = true;
  inv_parent : forall i n, node_at nodes i = Some n -> n_path n <> ROOT ->
    exists j m, node_at nodes j = Some m /\ n_dir m = true /\ n_path m = parent_of (n_path n)
}.

(** A change of a node that keeps its path and kind. *)
Lemma inv_set_same (nodes : list Slot) (id : nat) (n n' : Node) :
  inv nodes -> node_at nodes id = Some n -> n_path n' = n_path n -> n_dir n' = n_dir n ->
  inv (set_node id (Some n') nodes).
Proof.
  intros [Hu Hv (r & nr & Hr & Hrp & Hrd) Hp] Hn Ep Ed. pose proof (node_at_lt _ _ _ Hn) as Hl.
  assert (forall i m', node_at (set_node id (Some n') nodes) i = Some m' ->
            exists m, node_at nodes i = Some m /\ n_path m' = n_path m /\ n_dir m' = n_dir m) as Hback.
  { intros i m'. rewrite node_at_set_node by done. case_decide; [|eauto]. intros [= <-]. subst. eauto. }
  assert (forall i m, node_at nodes i = Some m ->
            exists m', node_at (set_node id (Some n') nodes) i = Some m' /\ n_path m' = n_path m /\ n_dir m' = n_dir m) as Hfwd.
  { intros i m Hm. rewrite node_at_set_node by done. case_decide; [|eauto]. subst. simplify_eq. eauto. }
  split.
  - intros i j a b (a0 & Ha & Ea & _)%Hback (b0 & Hb & Eb & _)%Hback E. apply (Hu i j a0 b0); congruence.
  - intros i a (a0 & Ha & Ea & _)%Hback. rewrite Ea. eauto.
  - destruct (Hfwd r nr Hr) as (r' & ? & E1 & E2). exists r, r'. split_and!; congruence.
  - intros i a (a0 & Ha & Ea & _)%Hback Hne. rewrite Ea in *.
    destruct (Hp i a0 Ha Hne) as (j & m & Hm & Hd & Em). destruct (Hfwd j m Hm) as (m' & ? & E1 & E2).
    exists j, m'. split_and!; congruence.
Qed.

(** Removing a node that is nobody's parent. *)
Lemma inv_remove (nodes : list Slot) (id : nat) (n : Node) :
  inv nodes -> node_at nodes id = Some n -> n_path n <> ROOT ->
  (forall i m, node_at nodes i = Some m -> n_path m <> ROOT -> parent_of (n_path m) <> n_path n) ->
  inv (set_node id None nodes).
Proof.
  intros [Hu Hv (r & nr & Hr & Hrp & Hrd) Hp] Hn Hroot Hleaf. pose proof (node_at_lt _ _ _ Hn) as Hl.
  assert (forall i m, node_at (set_node id None nodes) i = Some m <-> i <> id /\ node_at nodes i = Some m) as Hiff.
  { intros i m. rewrite node_at_set_node by done. case_decide; naive_solver. }
  split.
  - intros i j a b [_ Ha]%Hiff [_ Hb]%Hiff. by apply Hu.
  - intros i a [_ Ha]%Hiff. eauto.
  - exists r, nr. rewrite Hiff. split_and!; [|done..]. intros ->. congruence.
  - intros i a [_ Ha]%Hiff Hne. destruct (Hp i a Ha Hne) as (j & m & Hm & Hd & Em).
    exists j, m. rewrite Hiff. split_and!; [|done..]. intros ->. simplify_eq. by apply (Hleaf i a).
Qed.

(** Adding a node at a fresh path below a directory. *)
Lemma inv_add (nodes nodes' : list Slot) (k : nat) (n : Node) :
  inv nodes -> node_at nodes k = None ->
  (forall i, node_at nodes' i = if decide (i = k) then Some n else node_at nodes i) ->
  validate_path (n_path n) = true -> n_path n <> ROOT ->
  (forall i m, node_at nodes i = Some m -> n_path m <> n_path n) ->
  (exists j m, node_at nodes j = Some m /\ n_dir m = true /\ n_path m = parent_of (n_path n)) ->
  inv nodes'.
Proof.
  intros [Hu Hv (r & nr & Hr & Hrp & Hrd) Hp] Hk Hn' Hval Hroot Hfresh (j0 & m0 & Hm0 & Hd0 & Ep0).
  assert (forall j m, node_at nodes j = Some m -> node_at nodes' j = Some m) as Hold.
  { intros j m Hm. rewrite Hn'. case_decide; [congruence|done]. }
  split.
  - intros i j a b. rewrite !Hn'. repeat case_decide; intros; simplify_eq; try done; try (by eapply Hu);
      exfalso; by eapply Hfresh.
  - intros i a. rewrite Hn'. case_decide; intros; simplify_eq; eauto.
  - exists r, nr. split_and!; auto.
  - intros i a. rewrite Hn'. case_decide; intros; simplify_eq; [eauto 6|].
    destruct (Hp i a) as (j & m & ? & ? & ?); [done..|]. eauto 6.
Qed.

(** ** The operations keep it *)

Inductive op :=
  | Make (path : str) (is_dir : bool)
  | Unlink (path : str)
  | Rmdir (path : str)
  | Truncate (id : nat) (g : Z)
  | WriteAt (id : nat) (g : Z) (offset : nat) (src : list Z).

Definition perform (o : op) (nodes : list Slot) : list Slot :=
  match o with
  | Make path is_dir => snd (make path is_dir nodes)
  | Unlink path => snd (unlink path nodes)
  | Rmdir path => snd (rmdir path nodes)
  | Truncate id g => truncate id g nodes
  | WriteAt id g offset src => snd (write_at id g offset src nodes)
  end.

Definition step (nodes : list Slot) (o : op) (nodes' : list Slot) : Prop := nodes' = perform o nodes.

(** Where [make] succeeds and what it writes. *)
Lemma make_cases (path : str) (is_dir : bool) (nodes : list Slot) :
  (exists e, make path is_dir nodes = (Err e, nodes)) \/
  (exists i g nodes', make path is_dir nodes = (Ok (i, g), nodes') /\
     validate_path path = true /\ path <> ROOT /\ find nodes path = None /\
     (exists j m, node_at nodes j = Some m /\ n_dir m = true /\ n_path m = parent_of path) /\
     ((exists s, nodes !! i = Some s /\ node s = None /\ g = wrap32 (generation s + 1) /\
                 nodes' = <[i := mkSlot g (Some (mkNode path is_dir []))]> nodes) \/
      (i = length nodes /\ g = 0 /\ nodes' = nodes ++ [mkSlot 0 (Some (mkNode path is_dir []))]))).
Proof.
  unfold make. destruct (validate_path path) eqn:Hv; simpl; [|eauto].
  case_bool_decide as Hr; [eauto|]. destruct (find nodes path) as [?|] eqn:Hf; [eauto|].
  destruct (find nodes (parent_of path)) as [j|] eqn:Hp; simpl; [|eauto].
  apply vfs_find_Some in Hp as (m & Hm & Em). rewrite Hm. destruct (n_dir m) eqn:Hd; simpl; [|eauto].
  right. destruct (position is_free nodes) as [i|] eqn:Ep.
  - apply position_Some in Ep as (s & Hs & Hfree & _). rewrite Hs. simpl.
    eexists _, _, _. split_and!; [done..|eauto|]. left. exists s. split_and!; [done| |done..].
    unfold is_free in Hfree. by destruct (node s).
  - eexists _, _, _. split_and!; [done..|eauto|]. by right.
Qed.

Lemma make_inv (path : str) (is_dir : bool) (nodes : list Slot) :
  inv nodes -> inv (snd (make path is_dir nodes)).
Proof.
  intros Hinv. destruct (make_cases path is_dir nodes) as [[e ->]|(i & g & nodes' & -> & Hv & Hr & Hf & Hpar & Hcase)];
    [done|]. cbn [snd].
  destruct Hcase as [(s & Hs & Hn & -> & ->)|(-> & -> & ->)].
  - apply (inv_add nodes _ i (mkNode path is_dir [])); [done| | |done|done|by apply vfs_find_None|done].
    + unfold node_at. by rewrite Hs.
    + intros k. unfold node_at. case_decide as Hk; [subst|by rewrite list_lookup_insert_ne].
      by rewrite list_lookup_insert_eq by (by eapply lookup_lt_Some).
  - apply (inv_add nodes _ (length nodes) (mkNode path is_dir [])); [done| | |done|done|by apply vfs_find_None|done].
    + unfold node_at. by rewrite lookup_ge_None_2.
    + intros k. unfold node_at. case_decide as Hk; [subst; by rewrite list_lookup_middle|].
      destruct (decide (k < length nodes)%nat); [by rewrite lookup_app_l|].
      rewrite (lookup_ge_None_2 nodes), lookup_ge_None_2; [done|..]; rewrite ?length_app; simpl; lia.
Qed.

Lemma unlink_inv (path : str) (nodes : list Slot) : inv nodes -> inv (snd (unlink path nodes)).
Proof.
  intros Hinv. unfold unlink. destruct (resolve path nodes) as [[id n]|] eqn:Hr; [|done].
  apply resolve_Ok in Hr as (Hv & Hn & Hp). destruct (n_dir n) eqn:Hd; [done|]. cbn [snd].
  apply (inv_remove nodes id n); [done..| |].
  - intros Hroot. destruct (inv_root _ Hinv) as (r & nr & Hnr & Hrp & Hrd).
    assert (r = id) as -> by (eapply (inv_unique _ Hinv); [done..|congruence]). congruence.
  - intros i m Hm Hne Hpar. destruct (inv_parent _ Hinv i m Hm Hne) as (j & d & Hj & Hjd & Hjp).
    assert (j = id) as -> by (eapply (inv_unique _ Hinv); [done..|congruence]). congruence.
Qed.

Lemma rmdir_inv (path : str) (nodes : list Slot) : inv nodes -> inv (snd (rmdir path nodes)).
Proof.
  intros Hinv. unfold rmdir. destruct (validate_path path); [|done]. simpl. case_bool_decide as Hroot; [done|].
  destruct (resolve path nodes) as [[id n]|] eqn:Hr; [|done]. apply resolve_Ok in Hr as (Hv & Hn & Hp).
  destruct (n_dir n); [|done]. simpl. destruct (has_child path nodes) eqn:Hc; [done|]. cbn [snd].
  apply (inv_remove nodes id n); [done..|congruence|]. intros i m Hm Hne Hpar.
  assert (has_child path nodes = true); [|congruence]. unfold has_child. apply existsb_exists.
  unfold node_at in Hm. destruct (nodes !! i) as [s|] eqn:Hs; [|done]. simpl in Hm. exists s.
  split; [by eapply list_elem_of_In, list_elem_of_lookup_2|]. rewrite Hm.
  apply is_child_iff; [done| |done|congruence].
  eapply (inv_valid _ Hinv i). unfold node_at. by rewrite Hs.
Qed.

Lemma live_node (nodes : list Slot) (id : nat) (g : Z) (n : Node) :
  live nodes id g = Some n -> node_at nodes id = Some n.
Proof.
  unfold live, node_at. destruct (nodes !! id) as [s|]; [|done]. simpl. by destruct (_ =? _).
Qed.

Lemma step_tree (nodes nodes' : list Slot) (o : op) : inv nodes -> step nodes o nodes' -> inv nodes'.
Proof.
  intros Hinv ->. destruct o; simpl.
  - by apply make_inv.
  - by apply unlink_inv.
  - by apply rmdir_inv.
  - unfold truncate. destruct (live nodes id g) as [n|] eqn:Hl; [|done]. destruct (n_dir n) eqn:Hd; [done|].
    apply live_node in Hl. by apply (inv_set_same nodes id n).
  - unfold write_at. destruct (live nodes id g) as [n|] eqn:Hl; [|done]. destruct (n_dir n) eqn:Hd; [done|].
    apply live_node in Hl. by apply (inv_set_same nodes id n).
Qed.

(** C10: the file system is a tree at all times.  Starting from a tree, after any
    sequence of creations, removals, truncations and writes, successful or
    refused: every path is valid and belongs to one node, the root is a
    directory, and the parent of every other node exists and is a directory (so
    removing a file or an empty directory never leaves an orphan). *)
Theorem vfs_stays_a_tree (nodes nodes' : list Slot) (os : list op) :
  inv nodes -> trace step nodes os nodes' -> inv nodes'.
Proof. intros Hinv. apply trace_invariant; [intros *; apply step_tree|done]. Qed.

(** ** Handles never alias *)

(** The node is the same file or directory, whatever its contents. *)
Definition same_file (n n' : Node) : Prop := n_path n' = n_path n /\ n_dir n' = n_dir n.

Definition is_make (o : op) : bool := match o with Make _ _ => true | _ => false end.

(** One slot over one step: its node goes on, is removed, or a free slot gets a new
    node and the next generation. *)
Lemma step_slot (nodes : list Slot) (o : op) (i : nat) (s : Slot) :
  nodes !! i = Some s ->
  exists s', perform o nodes !! i = Some s' /\
    ((generation s' = generation s /\
      (node s' = None \/ exists n n', node s = Some n /\ node s' = Some n' /\ same_file n n')) \/
     (is_make o = true /\ node s = None /\ generation s' = wrap32 (generation s + 1))).
Proof.
  intros Hs.
  assert (forall id v, (v = None \/ exists n n', node_at nodes id = Some n /\ v = Some n' /\ same_file n n') ->
    exists s', set_node id v nodes !! i = Some s' /\ generation s' = generation s /\
      (node s' = None \/ exists n n', node s = Some n /\ node s' = Some n' /\ same_file n n')) as Hset.
  { intros id v Hv. unfold set_node. destruct (decide (i = id)) as [->|Hne].
    - rewrite list_lookup_alter_eq, Hs. eexists. split_and!; [done..|]. simpl.
      unfold node_at in Hv. rewrite Hs in Hv. done.
    - rewrite list_lookup_alter_ne by done. exists s. split_and!; [done..|].
      destruct (node s) as [n|]; [right; by exists n, n|by left]. }
  assert (exists s', nodes !! i = Some s' /\ generation s' = generation s /\
      (node s' = None \/ exists n n', node s = Some n /\ node s' = Some n' /\ same_file n n')) as Hsame.
  { exists s. split_and!; [done..|]. destruct (node s) as [n|]; [right; by exists n, n|by left]. }
  destruct o as [path is_dir|path|path|id g|id g offset src]; simpl.
  - destruct (make_cases path is_dir nodes) as [[e ->]|(k & g & nodes' & -> & _ & _ & _ & _ & Hcase)];
      [destruct Hsame as (s' & ? & ? & ?); eauto|]. cbn [snd].
    destruct Hcase as [(t & Ht & Hn & -> & ->)|(-> & -> & ->)].
    + destruct (decide (i = k)) as [->|Hne].
      * rewrite list_lookup_insert_eq by (by eapply lookup_lt_Some). simplify_eq. eexists. split; [done|]. by right.
      * rewrite list_lookup_insert_ne by done. destruct Hsame as (s' & ? & ? & ?); eauto.
    + rewrite lookup_app_l by (by eapply lookup_lt_Some). destruct Hsame as (s' & ? & ? & ?); eauto.
  - unfold unlink. destruct (resolve path nodes) as [[id n]|]; [|destruct Hsame as (s' & ? & ? & ?); eauto].
    destruct (n_dir n); [destruct Hsame as (s' & ? & ? & ?); eauto|].
    destruct (Hset id None) as (s' & ? & ? & ?); [by left|eauto].
  - unfold rmdir. repeat (case_match; try (destruct Hsame as (s' & ? & ? & ?); by eauto)). cbn [snd].
    destruct (Hset n None) as (s' & ? & ? & ?); [by left|eauto].
  - unfold truncate. destruct (live nodes id g) as [n|] eqn:Hl; [|destruct Hsame as (s' & ? & ? & ?); eauto].
    destruct (n_dir n) eqn:Hd; [destruct Hsame as (s' & ? & ? & ?); eauto|]. apply live_node in Hl.
    destruct (Hset id (Some (mkNode (n_path n) false []))) as (s' & ? & ? & ?); [right; by eexists _, _|eauto].
  - unfold write_at. destruct (live nodes id g) as [n|] eqn:Hl; [|destruct Hsame as (s' & ? & ? & ?); eauto].
    destruct (n_dir n) eqn:Hd; [destruct Hsame as (s' & ? & ? & ?); eauto|]. apply live_node in Hl.
    destruct (Hset id (Some (mkNode (n_path n) false (overwrite offset src (n_data n))))) as (s' & ? & ? & ?);
      [right; by eexists _, _|eauto].
Qed.

Lemma wrap32_range (x : Z) : 0 <= wrap32 x < 2 ^ 32.
Proof. apply Z.mod_pos_bound. lia. Qed.

Lemma wrap32_succ (x k : Z) : wrap32 (wrap32 (x + k) + 1) = wrap32 (x + (k + 1)).
Proof. unfold wrap32. rewrite Zplus_mod_idemp_l. f_equal. lia. Qed.

(** After a run with [m] creations a slot has been reused some [k <= m] times. *)
Lemma trace_slot (nodes nodes' : list Slot) (os : list op) (i : nat) (s : Slot) :
  trace step nodes os nodes' -> nodes !! i = Some s -> 0 <= generation s < 2 ^ 32 ->
  exists s' k, nodes' !! i = Some s' /\ 0 <= k <= Z.of_nat (length (retain is_make os)) /\
    generation s' = wrap32 (generation s + k) /\
    (k = 0 -> node s' = None \/ exists n n', node s = Some n /\ node s' = Some n' /\ same_file n n').
Proof.
  intros Htr. revert s. induction Htr as [nodes|nodes o nodes1 os nodes2 Hs Htr IH]; intros s Hi Hg.
  - exists s, 0. rewrite Z.add_0_r. unfold wrap32. rewrite Z.mod_small by done.
    split_and!; [done|lia|simpl; lia|done|]. intros _. destruct (node s) as [n|]; [right; by exists n, n|by left].
  - unfold step in Hs. subst. destruct (step_slot nodes o i s Hi) as (s1 & Hi1 & Hcase).
    destruct Hcase as [[Hg1 Hn1]|(Hm & Hn & Hg1)].
    + destruct (IH s1 Hi1) as (s2 & k & Hi2 & Hk & Hg2 & Hn2); [by rewrite Hg1|].
      exists s2, k. rewrite <- Hg1. split_and!; [done|lia| |done|].
      * simpl. destruct (is_make o); simpl; lia.
      * intros Hk0. destruct (Hn2 Hk0) as [?|(n1 & n2 & E1 & E2 & [P2 D2])]; [by left|].
        destruct Hn1 as [?|(n & n1' & E & E1' & [P1 D1])]; [congruence|]. right.
        exists n, n2. split_and!; [done..|]. simplify_eq. split; congruence.
    + destruct (IH s1 Hi1) as (s2 & k & Hi2 & Hk & Hg2 & Hn2); [rewrite Hg1; apply wrap32_range|].
      exists s2, (k + 1). cbn [retain]. rewrite Hm. split_and!; [done|lia|simpl; lia| |lia].
      rewrite Hg2, Hg1. unfold wrap32. rewrite Zplus_mod_idemp_l. f_equal. lia.
Qed.

(** C11: a handle never reaches another file.  A handle taken for a node is, after
    any run with fewer than [2^32] creations, either dead (reads and writes
    through it do nothing) or still that same file or directory, however often the
    path was removed and slots were reused in between. *)
Theorem stale_handle_never_aliases (nodes nodes' : list Slot) (os : list op) (id : nat) (g : Z)
    (n n' : Node) :
  live nodes id g = Some n -> 0 <= g < 2 ^ 32 -> trace step nodes os nodes' ->
  Z.of_nat (length (retain is_make os)) < 2 ^ 32 ->
  live nodes' id g = Some n' -> n_path n' = n_path n /\ n_dir n' = n_dir n.
Proof.
  intros Hl Hg Htr Hm Hl'. unfold live in Hl. destruct (nodes !! id) as [s|] eqn:Hs; simpl in Hl; [|done].
  destruct (generation s =? g) eqn:Eg; [|done]. apply Z.eqb_eq in Eg. subst g.
  destruct (trace_slot nodes nodes' os id s Htr Hs Hg) as (s' & k & Hs' & Hk & Hg' & Hn).
  unfold live in Hl'. rewrite Hs' in Hl'. simpl in Hl'.
  destruct (generation s' =? generation s) eqn:Eg'; [|done]. apply Z.eqb_eq in Eg'.
  assert (k = 0) as Hk0.
  { rewrite Hg' in Eg'. unfold wrap32 in Eg'. pose proof (Z.div_mod (generation s + k) (2 ^ 32) ltac:(lia)).
    rewrite Eg' in H. assert (k = 2 ^ 32 * ((generation s + k) / 2 ^ 32)) as E by lia. nia. }
  destruct (Hn Hk0) as [?|(a & b & Ea & Eb & Hab)]; [congruence|]. simplify_eq. exact Hab.
Qed.

(** ** Contents *)

(** A file byte after a write: the new byte, the old byte, a zero in a gap. *)
Lemma overwrite_lookup (offset : nat) (src data : list Z) (p : nat) :
  overwrite offset src data !! p =
  if decide (offset <= p < offset + length src)%nat then src !! (p - offset)%nat
  else if decide (p < length data)%nat then data !! p
  else if decide (p < offset)%nat then Some 0 else None.
Proof.
  unfold overwrite. set (z := replicate _ 0).
  assert (length (data ++ z) = Nat.max (length data) (offset + length src)) as Hlen.
  { unfold z. rewrite length_app, length_replicate. lia. }
  assert (forall q, (data ++ z) !! q = if decide (q < length data)%nat then data !! q
                                     else if decide (q < offset + length src)%nat then Some 0 else None) as Hz.
  { intros q. case_decide; [by rewrite lookup_app_l|]. rewrite lookup_app_r by lia. unfold z.
    case_decide; [apply lookup_replicate_2; lia|]. apply lookup_ge_None_2. rewrite length_replicate. lia. }
  assert (length (take offset (data ++ z)) = offset) as Ht by (rewrite length_take; lia).
  destruct (decide (p < offset)%nat).
  - rewrite lookup_app_l, lookup_take_lt, Hz by lia. rewrite (decide_False (P := (offset <= p < _)%nat)) by lia.
    case_decide; [done|]. by rewrite !decide_True by lia.
  - rewrite lookup_app_r by lia. rewrite Ht. destruct (decide (p < offset + length src)%nat).
    + rewrite decide_True by lia. by rewrite lookup_app_l by lia.
    + rewrite (decide_False (P := (offset <= p < _)%nat)) by lia. rewrite lookup_app_r by lia.
      rewrite lookup_drop. replace (offset + length src + (p - offset - length src))%nat with p by lia.
      rewrite Hz. case_decide; [done|]. by rewrite decide_False by lia.
Qed.

Lemma live_set_node (nodes : list Slot) (id : nat) (g : Z) (n n' : Node) :
  live nodes id g = Some n -> live (set_node id (Some n') nodes) id g = Some n'.
Proof.
  unfold live, set_node. rewrite list_lookup_alter_eq. destruct (nodes !! id) as [s|]; [|done]. simpl.
  by destruct (_ =? _).
Qed.

(** A write to a live file is complete and reads back.  It returns its full
    length; reading at the same offset returns the bytes written; every other byte
    of the file is as before, a gap before the offset is filled with zeros; and no
    other node is touched. *)
Theorem write_at_spec (id : nat) (g : Z) (offset : nat) (src : list Z) (nodes : list Slot) (n : Node) :
  live nodes id g = Some n -> n_dir n = false ->
  let '(k, nodes') := write_at id g offset src nodes in
  k = length src /\
  (forall buf, length buf = length src -> read_at id g offset buf nodes' = (length src, src)) /\
  (exists n', live nodes' id g = Some n' /\ n_path n' = n_path n /\
     forall p, n_data n' !! p =
       if decide (offset <= p < offset + length src)%nat then src !! (p - offset)%nat
       else if decide (p < length (n_data n))%nat then n_data n !! p
       else if decide (p < offset)%nat then Some 0 else None) /\
  (forall j, j <> id -> nodes' !! j = nodes !! j).
Proof.
  intros Hl Hd. unfold write_at. rewrite Hl, Hd. split_and!; [done| | |].
  - intros buf Hb. unfold read_at. rewrite (live_set_node nodes id g n) by done. cbn [n_dir n_data orb].
    assert (take (length src) (drop offset (overwrite offset src (n_data n))) = src) as Hsrc.
    { apply list_eq. intros q. destruct (decide (q < length src)%nat).
      - rewrite lookup_take_lt, lookup_drop, overwrite_lookup by done. rewrite decide_True by lia. f_equal. lia.
      - rewrite lookup_take_ge, lookup_ge_None_2 by lia. done. }
    assert (offset + length src <= length (overwrite offset src (n_data n)))%nat as Hlen.
    { unfold overwrite. rewrite !length_app, length_take, length_app, length_replicate, length_drop. lia. }
    destruct (_ <=? offset)%nat eqn:E.
    + apply Nat.leb_le in E. destruct src; [by destruct buf|simpl in Hlen; lia].
    + apply Nat.leb_gt in E. rewrite Hb, Nat.min_l by lia. rewrite Hsrc, drop_ge, app_nil_r by lia. done.
  - eexists. split; [by eapply live_set_node|]. split; [done|]. intros p. apply overwrite_lookup.
  - intros j Hj. unfold set_node. by rewrite list_lookup_alter_ne.
Qed.

(** * Unpacking the boot image *)

Lemma contains_app_l (p a b : str) : contains p (a ++ b) = false -> contains p a = false.
Proof.
  rewrite <- !not_true_iff_false, !contains_iff. intros H (x & y & ->). apply H.
  exists x, (y ++ b). by rewrite <- !app_assoc.
Qed.

Lemma parent_valid (p : str) : validate_path p = true -> p <> ROOT -> validate_path (parent_of p) = true.
Proof.
  intros Hv Hr. destruct (path_split p Hv Hr) as (name & _ & _ & [[-> _]|(Hnr & Hnn & Hp)]); [reflexivity|].
  destruct (validate_path_inv p Hv) as ((r & Hp1) & _ & Hdd).
  unfold validate_path in *. rewrite negb_true_iff, !orb_false_iff, negb_false_iff in *.
  destruct Hv as ((((_ & _) & H1) & H2) & H3). rewrite Hp in H1, H2, H3.
  apply contains_app_l in H1, H2, H3. split_and!; [| |done..].
  - apply starts_with_iff. destruct (parent_of p) as [|x q]; [done|]. rewrite Hp in Hp1. simplify_eq/=. by exists q.
  - apply andb_false_iff. right. unfold ends_with. apply bool_decide_eq_false. intros Hlast.
    apply last_Some in Hlast as [q Hq]. rewrite Hq, <- app_assoc in Hp. by apply (Hdd q name).
Qed.

Lemma parent_shorter (p : str) :
  validate_path p = true -> p <> ROOT -> parent_of p <> ROOT -> (length (parent_of p) < length p)%nat.
Proof.
  intros Hv Hr Hp. destruct (path_split p Hv Hr) as (name & _ & _ & [[? _]|(_ & _ & E)]); [done|].
  rewrite E at 2. rewrite length_app. simpl. lia.
Qed.

(** While unpacking, parents exist (but may be files if the image says so). *)
Record inv0 (nodes : list Slot) : Prop := {
  inv0_unique : forall i j n m,
    node_at nodes i = Some n -> node_at nodes j = Some m -> n_path n = n_path m -> i = j;
  inv0_valid : forall i n, node_at nodes i = Some n -> validate_path (n_path n) = true;
  inv0_root : exists i n, node_at nodes i = Some n /\ n_path n = ROOT /\ n_dir n = true;
  inv0_parent : forall i n, node_at nodes i = Some n -> n_path n <> ROOT ->
    exists j m, node_at nodes j = Some m /\ n_path m = parent_of (n_path n)
}.

Definition files_are_leaves (nodes : list Slot) : Prop :=
  forall i n j m, node_at nodes i = Some n -> n_dir n = false -> node_at nodes j = Some m ->
    n_path m <> ROOT -> parent_of (n_path m) <> n_path n.

Lemma inv0_inv (nodes : list Slot) : inv0 nodes -> files_are_leaves nodes -> inv nodes.
Proof.
  intros [Hu Hv Hr Hp] Hf. split; [done..|]. intros i n Hn Hne.
  destruct (Hp i n Hn Hne) as (j & m & Hm & Em). exists j, m. split_and!; [done| |done].
  destruct (n_dir m) eqn:Hd; [done|]. by destruct (Hf j m i n Hm Hd Hn Hne).
Qed.

Lemma node_at_push (path : str) (d : bool) (data : list Z) (nodes : list Slot) (i : nat) :
  node_at (push path d data nodes) i =
  if decide (i = length nodes) then Some (mkNode path d data) else node_at nodes i.
Proof.
  unfold node_at, push. case_decide as Hk; [subst; by rewrite list_lookup_middle|].
  destruct (decide (i < length nodes)%nat); [by rewrite lookup_app_l|].
  rewrite (lookup_ge_None_2 nodes), lookup_ge_None_2; [done|..]; rewrite ?length_app; simpl; lia.
Qed.

Lemma push_inv0 (path : str) (d : bool) (data : list Z) (nodes : list Slot) :
  inv0 nodes -> validate_path path = true -> path <> ROOT -> find nodes path = None ->
  (exists j m, node_at nodes j = Some m /\ n_path m = parent_of path) ->
  inv0 (push path d data nodes).
Proof.
  intros [Hu Hv (r & nr & Hr & Hrp & Hrd) Hp] Hval Hroot Hf (j0 & m0 & Hm0 & Ep0).
  pose proof (vfs_find_None _ _ Hf) as Hfresh.
  assert (forall j m, node_at nodes j = Some m -> node_at (push path d data nodes) j = Some m) as Hold.
  { intros j m Hm. rewrite node_at_push. case_decide; [|done]. apply node_at_lt in Hm. lia. }
  split.
  - intros i j a b. rewrite !node_at_push. repeat case_decide; intros; simplify_eq/=; try done; try (by eapply Hu);
      exfalso; by eapply Hfresh.
  - intros i a. rewrite node_at_push. case_decide; intros; simplify_eq/=; eauto.
  - exists r, nr. split_and!; auto.
  - intros i a. rewrite node_at_push. case_decide; intros; simplify_eq/=; [eauto 6|].
    destruct (Hp i a) as (j & m & ? & ?); [done..|]. eauto 6.
Qed.

Lemma find_is_Some (nodes : list Slot) (path : str) (i : nat) (n : Node) :
  node_at nodes i = Some n -> n_path n = path -> find nodes path <> None.
Proof. intros Hn Hp Hf. by apply (vfs_find_None _ _ Hf i n Hn). Qed.

(** [ensure_parents] keeps the invariant and makes the parent exist. *)
Lemma ensure_parents_inv0 (fuel : nat) (nodes : list Slot) (path : str) :
  (length path < fuel)%nat -> inv0 nodes -> validate_path path = true -> path <> ROOT ->
  let nodes' := ensure_parents_fuel fuel nodes path in
  inv0 nodes' /\ exists j m, node_at nodes' j = Some m /\ n_path m = parent_of path.
Proof.
  revert path nodes. induction fuel as [|fuel IH]; intros path nodes Hl Hinv Hv Hr; [lia|].
  cbn [ensure_parents_fuel]. case_bool_decide as Hp.
  - split; [done|]. destruct (inv0_root _ Hinv) as (r & nr & ? & E & _). exists r, nr. by rewrite E, Hp.
  - pose proof (parent_shorter path Hv Hr Hp). pose proof (parent_valid path Hv Hr) as Hpv.
    destruct (IH (parent_of path) nodes) as [Hinv1 Hpar1]; [lia|done..|].
    destruct (find _ (parent_of path)) as [j|] eqn:Hf.
    + split; [done|]. apply vfs_find_Some in Hf as (m & ? & ?). eauto.
    + split; [by apply push_inv0|]. eexists _, _. rewrite node_at_push, decide_True by done. done.
Qed.

Lemma add_entry_inv0 (image : list Z) (paths_start base : Z) (nodes : list Slot) :
  inv0 nodes -> inv0 (snd (add_entry image paths_start base nodes)).
Proof.
  intros Hinv. unfold add_entry.
  destruct (read_entry image paths_start base) as [[[[path data_off] size] flags]|e] eqn:Hre; [|done].
  assert (validate_path path = true) as Hv.
  { unfold read_entry in Hre. repeat case_match; simplify_eq. by apply negb_false_iff. }
  destruct (decide (path = ROOT)) as [->|Hr].
  { assert (ensure_parents nodes ROOT = nodes) as -> by reflexivity.
    destruct (inv0_root _ Hinv) as (r & nr & Hnr & E & _). pose proof (find_is_Some nodes ROOT r nr Hnr E).
    by destruct (find nodes ROOT). }
  destruct (ensure_parents_inv0 (S (length path)) nodes path) as [Hinv1 Hpar]; [lia|done..|].
  fold (ensure_parents nodes path) in *. destruct (find _ path) as [j|] eqn:Hf; [done|].
  destruct (negb _); [destruct (_ ≫= _); [by apply push_inv0|done]|].
  destruct (negb _); [by apply push_inv0|done].
Qed.

Lemma add_entries_inv0 (count : nat) (index : Z) (image : list Z) (paths_start : Z) (nodes : list Slot) :
  inv0 nodes -> inv0 (snd (add_entries count index image paths_start nodes)).
Proof.
  revert index nodes. induction count as [|count IH]; intros index nodes Hinv; [done|].
  cbn [add_entries].
  pose proof (add_entry_inv0 image paths_start (HEADER_SIZE + index * ENTRY_SIZE) nodes Hinv) as Hinv1.
  destruct (add_entry _ _ _ _) as [[?|?] nodes1]; [by apply IH|done].
Qed.

Lemma root_inv0 : inv0 (push ROOT true [] []).
Proof.
  assert (forall i n, node_at (push ROOT true [] []) i = Some n -> i = 0%nat /\ n = mkNode ROOT true []) as H.
  { intros i n. rewrite node_at_push. case_decide; [naive_solver|]. unfold node_at. by rewrite lookup_nil. }
  split.
  - intros i j n m [-> _]%H [-> _]%H. done.
  - intros i n [_ ->]%H. reflexivity.
  - by exists 0%nat, (mkNode ROOT true []).
  - intros i n [_ ->]%H. done.
Qed.

(** Unpacking the boot image yields a tree.  When [init] accepts an image, the
    node table has unique valid paths, a root directory, and every ancestor of
    every entry, created on the way if the image does not list it; if the image
    puts nothing below a file, it is a tree in the sense of the running system. *)
Theorem init_builds_tree (image : list Z) (old nodes : list Slot) :
  init image old = (Ok tt, nodes) ->
  inv0 nodes /\ (files_are_leaves nodes -> inv nodes).
Proof.
  unfold init. destruct (_ || _); [done|]. destruct (read_u32 image 4) as [v|]; [|done].
  destruct (read_u32 image 8) as [c|]; [|done]. destruct (negb _); [done|]. destruct (_ <? _); [done|].
  intros He. pose proof (add_entries_inv0 (Z.to_nat c) 0 image (HEADER_SIZE + c * ENTRY_SIZE) _ root_inv0) as H.
  rewrite He in H. split; [done|]. by apply inv0_inv.
Qed.

(** * Witnesses *)

Fixpoint run (os : list op) (nodes : list Slot) : list Slot :=
  match os with [] => nodes | o :: os' => run os' (perform o nodes) end.

Lemma vfs_run_trace (os : list op) (nodes : list Slot) : trace step nodes os (run os nodes).
Proof. revert nodes. induction os as [|o os IH]; intros nodes; simpl; econstructor; [done|apply IH]. Qed.

Module Example.
(** An image with the one file "/a/b" of two bytes. *)
Definition image : list Z :=
  MAGIC ++ [1; 0; 0; 0] ++ [1; 0; 0; 0] ++ replicate 16 0 ++
  [4; 0; 0; 0] ++ [64; 0; 0; 0; 0; 0; 0; 0] ++ [2; 0; 0; 0; 0; 0; 0; 0] ++ [2; 0; 0; 0] ++ replicate 8 0 ++
  [47; 97; 47; 98] ++ [7; 8].
(** The root, the synthesized "/a" and the file. *)
Definition nodes0 : list Slot := snd (init image []).

Lemma nodes0_val : nodes0 =
  [mkSlot 0 (Some (mkNode ROOT true [])); mkSlot 0 (Some (mkNode [47; 97] true []));
   mkSlot 0 (Some (mkNode [47; 97; 47; 98] false [7; 8]))].
Proof. vm_compute. reflexivity. Qed.

Lemma nodes0_leaves : files_are_leaves nodes0.
Proof.
  rewrite nodes0_val. intros [|[|[|i]]] n [|[|[|j]]] m; cbn; intros; simplify_eq/=; try done;
    unfold node_at in *; rewrite ?lookup_nil in *; simplify_eq/=.
Qed.

Lemma init_builds_tree_witness : inv nodes0.
Proof. apply (init_builds_tree image [] nodes0); [vm_compute; reflexivity|exact nodes0_leaves]. Defined.

Lemma nodes0_inv : inv nodes0.
Proof.
  apply inv0_inv; [|exact nodes0_leaves]. unfold nodes0, init.
  apply (add_entries_inv0 1 0 image 60 _ root_inv0).
Qed.

Definition script : list op :=
  [Make [47; 99] false; Unlink [47; 97; 47; 98]; Make [47; 100] true; Rmdir [47; 97]; WriteAt 3 0 2 [5]].

Lemma vfs_stays_a_tree_witness : inv (run script nodes0).
Proof. apply (vfs_stays_a_tree nodes0 (run script nodes0) script); [exact nodes0_inv|apply vfs_run_trace]. Defined.

(** A handle on "/c" outlives the removal and reuse of other slots. *)
Definition nodes1 : list Slot := run [Make [47; 99] false] nodes0.
Definition later : list op := [Unlink [47; 97; 47; 98]; Make [47; 100] true; WriteAt 3 0 2 [5]; Truncate 2 0].

Lemma stale_handle_never_aliases_witness :
  n_path (mkNode [47; 99] false [0; 0; 5]) = [47; 99] /\ n_dir (mkNode [47; 99] false [0; 0; 5]) = false.
Proof.
  apply (stale_handle_never_aliases nodes1 (run later nodes1) later 3 0 (mkNode [47; 99] false [])
           (mkNode [47; 99] false [0; 0; 5]));
    [vm_compute; reflexivity|lia|apply vfs_run_trace|vm_compute; reflexivity|vm_compute; reflexivity].
Defined.

Lemma write_at_spec_witness :
  let '(k, nodes') := write_at 2 0 4 [9] nodes0 in
  k = 1%nat /\
  (forall buf, length buf = 1%nat -> read_at 2 0 4 buf nodes' = (1%nat, [9])) /\
  (exists n', live nodes' 2 0 = Some n' /\ n_path n' = [47; 97; 47; 98] /\
     forall p, n_data n' !! p =
       if decide (4 <= p < 4 + 1)%nat then [9] !! (p - 4)%nat
       else if decide (p < 2)%nat then [7; 8] !! p
       else if decide (p < 4)%nat then Some 0 else None) /\
  (forall j, j <> 2%nat -> nodes' !! j = nodes0 !! j).
Proof.
  apply (write_at_spec 2 0 4 [9] nodes0 (mkNode [47; 97; 47; 98] false [7; 8])); vm_compute; reflexivity.
Defined.
End Example.

End Vfs.
