(* ===== verification/Keyboard.v ===== *)
(** Keyboard input: [crates/kernel/src/drivers/keyboard.rs].

    The two static ring buffers ([BUF] with [HEAD]/[TAIL], [EBUF] with
    [EHEAD]/[ETAIL]) are [Ring]s over arrays of their sizes; the decoder state is
    the four flags.  Every function holds [KeyboardGuard], so each is one step.
    The 8042 controller is the list of (status, data) pairs that successive loop
    iterations read from ports [0x64] and [0x60]; an empty list is a status byte
    with no output pending.  The framebuffer owner ([fb_owner::OWNER]) decides
    the focus and is part of the state; waking and signalling go to [Process.v]. *)
From stdpp Require Import base list numbers option gmap.
From S2P Require Import Prelude Thread Scheduler Process.

Open Scope Z_scope.

Module Keyboard.
Import Thread.Thread Process.Process.

Definition BUF_SIZE : nat := 1024.
Definition EBUF_SIZE : nat := 512.
#[global] Arguments BUF_SIZE : simpl never.
#[global] Arguments EBUF_SIZE : simpl never.

Definition KEY_RELEASE : Z := 256.
Definition MOD_SHIFT : Z := 512.
Definition MOD_CTRL : Z := 1024.
Definition MOD_ALT : Z := 2048.

Definition KEY_LEFT : Z := 128.
Definition KEY_RIGHT : Z := 129.
Definition KEY_UP : Z := 130.
Definition KEY_DOWN : Z := 131.
Definition KEY_LSHIFT : Z := 132.
Definition KEY_RSHIFT : Z := 133.
Definition KEY_LCTRL : Z := 134.
Definition KEY_RCTRL : Z := 135.
Definition KEY_LALT : Z := 136.
Definition KEY_RALT : Z := 137.
Definition KEY_CAPS : Z := 138.
Definition KEY_ESC : Z := 139.
Definition KEY_F1 : Z := 144.

(** * Ring buffers *)

Record Ring := mkRing { cells : list Z; head : nat; tail : nat }.

(** A write at [head] unless that would meet [tail]: one cell stays free. *)
Definition ring_put (size : nat) (x : Z) (r : Ring) : Ring :=
  let next := ((head r + 1) mod size)%nat in
  if (next =? tail r)%nat then r else mkRing (<[head r := x]> (cells r)) next (tail r).

Definition ring_get (size : nat) (r : Ring) : option Z * Ring :=
  if (head r =? tail r)%nat then (None, r)
  else (Some (default 0 (cells r !! tail r)), mkRing (cells r) (head r) ((tail r + 1) mod size)%nat).

Definition ring_reset (r : Ring) : Ring := mkRing (cells r) 0 0.
Definition ring_new (size : nat) : Ring := mkRing (replicate size 0) 0 0.

(** * State *)

Record Keys := mkKeys {
  BUF : Ring; EBUF : Ring;
  SHIFT : bool; CTRL : bool; ALT : bool; EXTENDED : bool }.

Record State := mkState { keys : Keys; owner : option Z; ps : PState }.

Definition with_BUF (r : Ring) (k : Keys) : Keys := mkKeys r (EBUF k) (SHIFT k) (CTRL k) (ALT k) (EXTENDED k).
Definition with_EBUF (r : Ring) (k : Keys) : Keys := mkKeys (BUF k) r (SHIFT k) (CTRL k) (ALT k) (EXTENDED k).
Definition with_SHIFT (b : bool) (k : Keys) : Keys := mkKeys (BUF k) (EBUF k) b (CTRL k) (ALT k) (EXTENDED k).
Definition with_CTRL (b : bool) (k : Keys) : Keys := mkKeys (BUF k) (EBUF k) (SHIFT k) b (ALT k) (EXTENDED k).
Definition with_ALT (b : bool) (k : Keys) : Keys := mkKeys (BUF k) (EBUF k) (SHIFT k) (CTRL k) b (EXTENDED k).
Definition with_EXTENDED (b : bool) (k : Keys) : Keys := mkKeys (BUF k) (EBUF k) (SHIFT k) (CTRL k) (ALT k) b.
Definition on_keys (f : Keys -> Keys) (s : State) : State := mkState (f (keys s)) (owner s) (ps s).
Definition set_ps (p : PState) (s : State) : State := mkState (keys s) (owner s) p.

(** * Translation tables (scan code set 1) *)

Definition sc128 (l : list Z) : list Z := l ++ replicate (128 - length l) 0.

Definition SCANCODE : list Z := sc128
  [0; 0; 49; 50; 51; 52; 53; 54; 55; 56; 57; 48; 45; 61; 8; 9;
   113; 119; 101; 114; 116; 121; 117; 105; 111; 112; 91; 93; 10; 0;
   97; 115; 100; 102; 103; 104; 106; 107; 108; 59; 39; 96; 0; 92;
   122; 120; 99; 118; 98; 110; 109; 44; 46; 47; 0; 32; 0; 0; 0; 0; 0;
   0; 0; 0; 0; 0; 0; 0; 0; 55; 56; 57; 45; 52; 53; 54; 43; 49; 50;
   51; 48; 46].

Definition SCANCODE_SHIFT : list Z := sc128
  [0; 0; 33; 64; 35; 36; 37; 94; 38; 42; 40; 41; 95; 43; 8; 9;
   81; 87; 69; 82; 84; 89; 85; 73; 79; 80; 123; 125; 10; 0;
   65; 83; 68; 70; 71; 72; 74; 75; 76; 58; 34; 126; 0; 124;
   90; 88; 67; 86; 66; 78; 77; 60; 62; 63; 0; 32; 0; 0; 0; 0; 0;
   0; 0; 0; 0; 0; 0; 0; 0; 55; 56; 57; 45; 52; 53; 54; 43; 49; 50;
   51; 48; 46].

(** * The two streams *)

Definition buffer_byte (ch : Z) : State -> State :=
  on_keys (fun k => with_BUF (ring_put BUF_SIZE ch (BUF k)) k).

(** Who Ctrl+C interrupts: the graphical owner if it catches SIGINT, the
    foreground command when the console has the focus. *)
Definition sigint_target (s : State) : option Z :=
  match owner s with
  | Some o => if sigint_catches o (ps s) then Some o else None
  | None => foreground_pid (ps s)
  end.

(** Wake a blocked reader that has the focus. *)
Definition wake_reader (ch : Z) (s : State) : Z * State :=
  let '(n, x) := match owner s with
                 | Some o => wakeup_key_waiter_for_pid o ch (ts (ps s))
                 | None => wakeup_key_waiters ch (ts (ps s))
                 end in
  (n, set_ps (set_ts x (ps s)) s).

Definition deliver (ch : Z) (s : State) : State :=
  let '(n, s') := wake_reader ch s in
  if 0 <? n then s' else buffer_byte ch s'.

Definition push_byte (ch : Z) (s : State) : State :=
  match (if ch =? 3 then sigint_target s else None) with
  | Some pid => set_ps (send_sigint pid (ps s)) s
  | None => deliver ch s
  end.

Definition inject_keys (l : list Z) (s : State) : State := foldl (fun s ch => push_byte ch s) s l.

Definition mods (k : Keys) : Z :=
  Z.lor (Z.lor (if SHIFT k then MOD_SHIFT else 0) (if CTRL k then MOD_CTRL else 0))
        (if ALT k then MOD_ALT else 0).

Definition push_event (ev : Z) (s : State) : State :=
  match owner s with
  | None => s
  | Some _ => on_keys (fun k => with_EBUF (ring_put EBUF_SIZE ev (EBUF k)) k) s
  end.

Definition event_word (k : Keys) (code : Z) (release : bool) : Z :=
  Z.lor (Z.lor (Z.land code 255) (mods k)) (if release then KEY_RELEASE else 0).

Definition emit_key (code : Z) (release : bool) (s : State) : State :=
  push_event (event_word (keys s) code release) s.

(** * Decoding *)

(** A modifier key sets its flag, then reports itself. *)
Definition modifier (set : bool -> Keys -> Keys) (code : Z) (release : bool) (s : State) : State :=
  emit_key code release (on_keys (set (negb release)) s).

Definition arrow_code (base : Z) : Z :=
  if base =? 75 then KEY_LEFT else if base =? 77 then KEY_RIGHT
  else if base =? 72 then KEY_UP else if base =? 80 then KEY_DOWN else 0.

(** The [match base] after an [0xE0] prefix. *)
Definition decode_extended (base : Z) (release : bool) (s : State) : State :=
  if base =? 29 then modifier with_CTRL KEY_RCTRL release s
  else if base =? 56 then modifier with_ALT KEY_RALT release s
  else
    let code := arrow_code base in
    if code =? 0 then s
    else emit_key code release (if release then s else push_byte code s).

Definition plain_char (base : Z) (k : Keys) : Z :=
  if base =? 57 then 32
  else default 0 ((if SHIFT k then SCANCODE_SHIFT else SCANCODE) !! Z.to_nat base).

Definition ctrl_char (plain : Z) : Z :=
  if (97 <=? plain) && (plain <=? 122) then plain - 97 + 1
  else if (65 <=? plain) && (plain <=? 90) then plain - 65 + 1
  else 0.

Definition decode_char (base : Z) (release : bool) (s : State) : State :=
  let plain := plain_char base (keys s) in
  if release then (if plain =? 0 then s else emit_key plain true s)
  else if CTRL (keys s) then
    let c := ctrl_char plain in
    if c =? 0 then s else emit_key c false (push_byte c s)
  else if plain =? 0 then s else emit_key plain false (push_byte plain s).

Definition decode_plain (base : Z) (release : bool) (s : State) : State :=
  if base =? 42 then modifier with_SHIFT KEY_LSHIFT release s
  else if base =? 54 then modifier with_SHIFT KEY_RSHIFT release s
  else if base =? 29 then modifier with_CTRL KEY_LCTRL release s
  else if base =? 56 then modifier with_ALT KEY_LALT release s
  else if base =? 58 then emit_key KEY_CAPS release s
  else if base =? 1 then emit_key KEY_ESC release s
  else if (59 <=? base) && (base <=? 68) then emit_key (KEY_F1 + (base - 59)) release s
  else if base =? 87 then emit_key (KEY_F1 + 10) release s
  else if base =? 88 then emit_key (KEY_F1 + 11) release s
  else decode_char base release s.

(** One scan code. *)
Definition decode (sc : Z) (s : State) : State :=
  if sc =? 224 then on_keys (with_EXTENDED true) s
  else
    let release := negb (Z.land sc 128 =? 0) in
    let base := Z.land sc 127 in
    if EXTENDED (keys s) then decode_extended base release (on_keys (with_EXTENDED false) s)
    else decode_plain base release s.

(** At most [n] iterations; the rest of the reads stay with the controller. *)
Fixpoint poll_loop (n : nat) (reads : list (Z * Z)) (s : State) : list (Z * Z) * State :=
  match n, reads with
  | O, _ | _, [] => (reads, s)
  | S n', (status, sc) :: reads' =>
      if Z.land status 1 =? 0 then (reads', s)
      else if negb (Z.land status 32 =? 0) then (reads, s)
      else poll_loop n' reads' (decode sc s)
  end.

Definition poll (reads : list (Z * Z)) (s : State) : list (Z * Z) * State := poll_loop 32 reads s.

Definition flush (s : State) : State :=
  on_keys (fun k => with_EBUF (ring_reset (EBUF k)) (with_BUF (ring_reset (BUF k)) k)) s.

Definition init (s : State) : State :=
  on_keys (fun _ => mkKeys (ring_new BUF_SIZE) (ring_new EBUF_SIZE) false false false false) s.

(** * Readers *)

Inductive Key := Char (c : Z) | Left | Right.

Definition get_raw (s : State) : option Z * State :=
  let '(o, r) := ring_get BUF_SIZE (BUF (keys s)) in (o, on_keys (with_BUF r) s).

Definition get_event (s : State) : option Z * State :=
  let '(o, r) := ring_get EBUF_SIZE (EBUF (keys s)) in (o, on_keys (with_EBUF r) s).

Definition key_of (ch : Z) : Key :=
  if ch =? 128 then Left else if ch =? 129 then Right else Char ch.

Definition get_key (s : State) : option Key * State :=
  let '(o, r) := ring_get BUF_SIZE (BUF (keys s)) in (key_of <$> o, on_keys (with_BUF r) s).

Definition get (s : State) : option Z * State :=
  let '(k, s') := get_key s in
  (match k with Some (Char c) => Some c | _ => None end, s').

(** * The rings are bounded queues *)

Section RingQueue.
Context (size : nat) (Hsize : (1 < size)%nat).

Definition ring_wf (r : Ring) : Prop :=
  length (cells r) = size /\ (head r < size)%nat /\ (tail r < size)%nat.

Definition held (r : Ring) : nat := ((head r + size - tail r) mod size)%nat.
Definition contents (r : Ring) : list Z :=
  (fun k => default 0 (cells r !! ((tail r + k) mod size)%nat)) <$> seq 0 (held r).

(** Reduction of an index that overshot by less than one turn. *)
Lemma mod_once (a : nat) :
  (a < 2 * size)%nat -> (a mod size)%nat = if decide (a < size)%nat then a else (a - size)%nat.
Proof using Hsize.
  intros Ha. case_decide; [by apply Nat.mod_small|].
  replace a with ((a - size) + 1 * size)%nat at 1 by lia.
  rewrite Nat.Div0.mod_add. apply Nat.mod_small. lia.
Qed.

Lemma held_alt (r : Ring) :
  ring_wf r -> held r = if decide (tail r <= head r)%nat then (head r - tail r)%nat
                        else (head r + size - tail r)%nat.
Proof using Hsize.
  intros (_ & Hh & Ht). unfold held. rewrite mod_once by lia. repeat case_decide; lia.
Qed.

Lemma length_contents (r : Ring) : length (contents r) = held r.
Proof. unfold contents. by rewrite length_fmap, length_seq. Qed.

Lemma held_lt (r : Ring) : ring_wf r -> (held r < size)%nat.
Proof using Hsize. intros H. rewrite held_alt by done. destruct H as (_ & ? & ?). case_decide; lia. Qed.

Lemma ring_new_wf : ring_wf (ring_new size).
Proof using Hsize. unfold ring_wf, ring_new. simpl. rewrite length_replicate. lia. Qed.

Lemma contents_empty (c : list Z) : contents (mkRing c 0 0) = [].
Proof using Hsize. unfold contents, held. simpl. by rewrite Nat.sub_0_r, Nat.Div0.mod_same. Qed.

Lemma ring_put_wf (x : Z) (r : Ring) : ring_wf r -> ring_wf (ring_put size x r).
Proof using Hsize.
  intros (Hl & Hh & Ht). unfold ring_put. case_match; [done|].
  unfold ring_wf. simpl. rewrite length_insert. split_and!; [done| |done]. apply Nat.mod_upper_bound. lia.
Qed.

Lemma ring_get_wf (r : Ring) : ring_wf r -> ring_wf (ring_get size r).2.
Proof using Hsize.
  intros (Hl & Hh & Ht). unfold ring_get. case_match; [done|].
  unfold ring_wf. simpl. split_and!; [done..|]. apply Nat.mod_upper_bound. lia.
Qed.

Lemma ring_put_contents (x : Z) (r : Ring) :
  ring_wf r ->
  contents (ring_put size x r) =
    if decide (length (contents r) = size - 1)%nat then contents r else contents r ++ [x].
Proof using Hsize.
  intros Hwf. pose proof (held_alt r Hwf) as Hn. pose proof (held_lt r Hwf) as Hlt. pose proof Hwf as (Hl & Hh & Ht).
  rewrite length_contents. unfold ring_put. rewrite mod_once by lia.
  destruct (Nat.eqb_spec (if decide (head r + 1 < size)%nat then (head r + 1)%nat else (head r + 1 - size)%nat) (tail r)) as [He|He].
  { rewrite (decide_True (P := held r = (size - 1)%nat)); [done|]. rewrite Hn. repeat case_decide; lia. }
  rewrite (decide_False (P := held r = (size - 1)%nat)) by (rewrite Hn; repeat case_decide; lia).
  set (r' := mkRing _ _ _).
  assert (Hwf' : ring_wf r').
  { unfold ring_wf, r'. simpl. rewrite length_insert. repeat case_decide; lia. }
  assert (held r' = (held r + 1)%nat) as Hn'.
  { rewrite held_alt by done. rewrite Hn. unfold r'. simpl. repeat case_decide; lia. }
  unfold contents at 1. rewrite Hn', seq_app, fmap_app. unfold r'. simpl. f_equal.
  - apply list_fmap_ext. intros i k [-> Hk]%lookup_seq. simpl.
    rewrite list_lookup_insert_ne; [done|]. rewrite mod_once by lia. revert Hn. repeat case_decide; lia.
  - f_equal.
    replace ((tail r + held r) mod size)%nat with (head r).
    + by rewrite list_lookup_insert_eq by lia.
    + rewrite mod_once by lia. rewrite Hn. repeat case_decide; lia.
Qed.

Lemma ring_get_contents (r : Ring) :
  ring_wf r ->
  match contents r with
  | [] => ring_get size r = (None, r)
  | x :: q => (ring_get size r).1 = Some x /\ contents (ring_get size r).2 = q
  end.
Proof using Hsize.
  intros Hwf. pose proof (held_alt r Hwf) as Hn. pose proof (held_lt r Hwf) as Hlt. pose proof Hwf as (Hl & Hh & Ht).
  unfold ring_get. destruct (Nat.eqb_spec (head r) (tail r)) as [He|He].
  { unfold contents. rewrite Hn. rewrite decide_True, He, Nat.sub_diag by lia. done. }
  destruct (held r) as [|n] eqn:Hh0; [exfalso; revert Hn; case_decide; lia|]. clear Hlt.
  unfold contents at 1. rewrite Hh0. simpl. rewrite Nat.add_0_r, (Nat.mod_small (tail r)) by lia.
  split; [done|]. unfold contents.
  assert (held (mkRing (cells r) (head r) ((tail r + 1) mod size)%nat) = n) as ->.
  { rewrite held_alt; [simpl|].
    - rewrite mod_once by lia. revert Hn. repeat case_decide; lia.
    - unfold ring_wf. simpl. split_and!; [done..|]. apply Nat.mod_upper_bound. lia. }
  rewrite <- (fmap_S_seq 0), <- list_fmap_compose.
  apply list_fmap_ext. intros i k [-> Hk]%lookup_seq. simpl. do 2 f_equal.
  rewrite Nat.Div0.add_mod_idemp_l. f_equal. lia.
Qed.
End RingQueue.

(** * Types and bounds of the keyboard state *)

Definition byte_ok (x : Z) : Prop := 0 <= x < 256.
Definition event_ok (x : Z) : Prop := 0 <= x < 4096.

(** The indices stay inside their arrays, the cells inside [u8] and the twelve
    bits of an event word. *)
Record keys_wf (k : Keys) : Prop := {
  kw_buf : ring_wf BUF_SIZE (BUF k);
  kw_ebuf : ring_wf EBUF_SIZE (EBUF k);
  kw_bytes : Forall byte_ok (cells (BUF k));
  kw_events : Forall event_ok (cells (EBUF k)) }.

Lemma BUF_SIZE_gt : (1 < BUF_SIZE)%nat.
Proof. unfold BUF_SIZE. lia. Qed.
Lemma EBUF_SIZE_gt : (1 < EBUF_SIZE)%nat.
Proof. unfold EBUF_SIZE. lia. Qed.
#[local] Hint Resolve BUF_SIZE_gt EBUF_SIZE_gt : core.

Lemma ring_put_cells (P : Z -> Prop) (size : nat) (x : Z) (r : Ring) :
  P x -> Forall P (cells r) -> Forall P (cells (ring_put size x r)).
Proof. intros Hx Hr. unfold ring_put. case_match; [done|]. simpl. by apply Forall_insert. Qed.

Lemma ring_get_cells (P : Z -> Prop) (size : nat) (r : Ring) :
  Forall P (cells r) -> Forall P (cells (ring_get size r).2).
Proof. intros Hr. unfold ring_get. by destruct (_ =? _)%nat. Qed.

(** Bits of the event word. *)
Lemma lor_event_ok (a b : Z) : event_ok a -> event_ok b -> event_ok (Z.lor a b).
Proof.
  unfold event_ok. change 4096 with (2 ^ 12). intros [Ha Ha'] [Hb Hb'].
  assert (0 <= Z.lor a b) by (by apply Z.lor_nonneg). split; [done|].
  destruct (decide (Z.lor a b = 0)) as [->|]; [done|].
  apply Z.log2_lt_pow2; [lia|]. rewrite Z.log2_lor by done.
  apply Z.max_lub_lt.
  - destruct (decide (a = 0)) as [->|]; [done|]. apply Z.log2_lt_pow2; lia.
  - destruct (decide (b = 0)) as [->|]; [done|]. apply Z.log2_lt_pow2; lia.
Qed.

Lemma event_word_ok (k : Keys) (code : Z) (release : bool) : event_ok (event_word k code release).
Proof.
  unfold event_word. apply lor_event_ok; [apply lor_event_ok|].
  - change 255 with (Z.ones 8). rewrite Z.land_ones by lia. unfold event_ok.
    pose proof (Z.mod_pos_bound code (2 ^ 8) ltac:(done)). change (2 ^ 8) with 256 in *. lia.
  - unfold mods. destruct (SHIFT k), (CTRL k), (ALT k); unfold event_ok; vm_compute; (split; [discriminate|reflexivity]).
  - destruct release; unfold event_ok, KEY_RELEASE; lia.
Qed.

Section KeysWf.
Implicit Types (s : State) (k : Keys).
Notation ok s := (keys_wf (keys s)).

(** Changing flags only. *)
Lemma keys_wf_flags k k' : BUF k' = BUF k -> EBUF k' = EBUF k -> keys_wf k -> keys_wf k'.
Proof. intros H1 H2 [????]. split; rewrite ?H1, ?H2; done. Qed.

Lemma push_byte_wf (ch : Z) s : byte_ok ch -> ok s -> ok (push_byte ch s).
Proof.
  intros Hc Hs. unfold push_byte. case_match; [done|].
  unfold deliver, wake_reader.
  destruct (match owner s with Some o => _ | None => _ end) as [n x].
  destruct (0 <? n); [done|]. destruct Hs as [H1 H2 H3 H4].
  split; simpl; [by apply ring_put_wf|done|by apply ring_put_cells|done].
Qed.

Lemma emit_key_wf (code : Z) (release : bool) s : ok s -> ok (emit_key code release s).
Proof.
  intros Hs. unfold emit_key, push_event. case_match; [|done]. destruct Hs as [H1 H2 H3 H4].
  split; simpl; [done|by apply ring_put_wf|done|]. apply ring_put_cells; [apply event_word_ok|done].
Qed.

Lemma modifier_wf set (code : Z) (release : bool) s :
  (forall b k, BUF (set b k) = BUF k /\ EBUF (set b k) = EBUF k) -> ok s -> ok (modifier set code release s).
Proof.
  intros Hset Hs. apply emit_key_wf. destruct (Hset (negb release) (keys s)).
  by apply (keys_wf_flags (keys s)).
Qed.
#[local] Hint Resolve push_byte_wf emit_key_wf modifier_wf : kazu.
#[local] Hint Extern 2 (forall _ _, _ /\ _) => done : kazu.

Lemma scancodes_bytes : Forall byte_ok SCANCODE /\ Forall byte_ok SCANCODE_SHIFT.
Proof. split; apply (bool_decide_unpack _); vm_compute; exact I. Qed.

Lemma plain_char_ok (base : Z) k : byte_ok (plain_char base k).
Proof.
  unfold plain_char, byte_ok. case_match; [lia|]. destruct scancodes_bytes as [H1 H2].
  destruct (_ !! _) eqn:Hl; simpl; [|lia].
  destruct (SHIFT k); [by apply (Forall_lookup_1 _ _ _ _ H2 Hl)|by apply (Forall_lookup_1 _ _ _ _ H1 Hl)].
Qed.

Lemma arrow_code_ok (base : Z) : byte_ok (arrow_code base).
Proof. unfold byte_ok, arrow_code, KEY_LEFT, KEY_RIGHT, KEY_UP, KEY_DOWN. repeat case_match; lia. Qed.

Lemma ctrl_char_ok (plain : Z) : byte_ok (ctrl_char plain).
Proof. unfold byte_ok, ctrl_char. split_ifs; lia. Qed.
#[local] Hint Resolve plain_char_ok arrow_code_ok ctrl_char_ok : kazu.

Lemma decode_wf (sc : Z) s : ok s -> ok (decode sc s).
Proof.
  intros Hs. unfold decode. case_match; [by apply (keys_wf_flags (keys s))|].
  set (base := Z.land sc 127). set (release := negb _). case_match.
  - assert (ok (on_keys (with_EXTENDED false) s)) as Hs' by by apply (keys_wf_flags (keys s)).
    unfold decode_extended. repeat case_match; eauto with kazu.
  - unfold decode_plain, decode_char. repeat case_match; eauto with kazu.
Qed.

Lemma poll_loop_wf (n : nat) (reads : list (Z * Z)) s : ok s -> ok (poll_loop n reads s).2.
Proof.
  revert reads s. induction n as [|n IH]; intros [|[st sc] reads] s Hs; simpl; try done.
  case_match; [done|]. case_match; [done|]. by apply IH, decode_wf.
Qed.

Lemma inject_keys_wf (l : list Z) s : Forall byte_ok l -> ok s -> ok (inject_keys l s).
Proof.
  unfold inject_keys. intros Hl. revert s. induction Hl as [|x l Hx Hl IH]; intros s Hs; simpl; [done|].
  by apply IH, push_byte_wf.
Qed.

Lemma flush_wf s : ok s -> ok (flush s).
Proof.
  intros [(?&?&?) (?&?&?) ? ?]. split; simpl; try done; (split; [done|]); simpl; lia.
Qed.

Lemma init_wf s : ok (init s).
Proof.
  split; cbn [init on_keys keys BUF EBUF]; [by apply ring_new_wf..| |];
    unfold ring_new; cbn [cells]; apply Forall_replicate; unfold byte_ok, event_ok; lia.
Qed.

Lemma read_buf_wf s : ok s -> ok (on_keys (with_BUF (ring_get BUF_SIZE (BUF (keys s))).2) s).
Proof. intros [????]. split; simpl; [by apply ring_get_wf|done|by apply ring_get_cells|done]. Qed.

Lemma read_ebuf_wf s : ok s -> ok (on_keys (with_EBUF (ring_get EBUF_SIZE (EBUF (keys s))).2) s).
Proof. intros [????]. split; simpl; [done|by apply ring_get_wf|done|by apply ring_get_cells]. Qed.
End KeysWf.

Lemma get_raw_state (s : State) : (get_raw s).2 = on_keys (with_BUF (ring_get BUF_SIZE (BUF (keys s))).2) s.
Proof. unfold get_raw. by destruct (ring_get _ _). Qed.
Lemma get_event_state (s : State) : (get_event s).2 = on_keys (with_EBUF (ring_get EBUF_SIZE (EBUF (keys s))).2) s.
Proof. unfold get_event. by destruct (ring_get _ _). Qed.
Lemma get_key_state (s : State) : (get_key s).2 = on_keys (with_BUF (ring_get BUF_SIZE (BUF (keys s))).2) s.
Proof. unfold get_key. by destruct (ring_get _ _). Qed.
Lemma get_state (s : State) : (get s).2 = (get_key s).2.
Proof. unfold get. by destruct (get_key s). Qed.

(** Everything that happens to the keyboard state: its own entry points, a focus
    change ([fb_owner] sets the owner, then flushes), and any step of the rest of
    the kernel on the process state. *)
Inductive kstep : State -> unit -> State -> Prop :=
  | K_inject s l : Forall byte_ok l -> kstep s tt (inject_keys l s)
  | K_init s : kstep s tt (init s)
  | K_poll s reads : kstep s tt (poll reads s).2
  | K_flush s : kstep s tt (flush s)
  | K_event s : kstep s tt (get_event s).2
  | K_key s : kstep s tt (get_key s).2
  | K_get s : kstep s tt (get s).2
  | K_raw s : kstep s tt (get_raw s).2
  | K_focus s o : kstep s tt (flush (mkState (keys s) o (ps s)))
  | K_kernel s p : kstep s tt (set_ps p s).

Lemma kstep_wf (s s' : State) (u : unit) : keys_wf (keys s) -> kstep s u s' -> keys_wf (keys s').
Proof.
  intros Hs Hst. destruct Hst; rewrite ?get_state, ?get_event_state, ?get_key_state, ?get_raw_state;
    unfold poll; auto using inject_keys_wf, init_wf, poll_loop_wf, flush_wf, read_buf_wf, read_ebuf_wf.
Qed.

(** C37: Bounds and types of the keyboard driver.  From [init] on, under any
    sequence of polls with any controller input, injected keys, reads, flushes
    and focus changes, all four ring indices stay inside their arrays, each
    queue holds fewer keys than its array has cells, every byte handed out by
    [get_raw] fits [u8] and every event handed out by [get_event] fits the twelve
    bits of the documented event word. *)
Theorem keyboard_bounds (s0 s : State) (us : list unit) :
  trace kstep (init s0) us s ->
  ring_wf BUF_SIZE (BUF (keys s)) /\ ring_wf EBUF_SIZE (EBUF (keys s)) /\
  (length (contents BUF_SIZE (BUF (keys s))) < BUF_SIZE)%nat /\
  (length (contents EBUF_SIZE (EBUF (keys s))) < EBUF_SIZE)%nat /\
  (forall c s', get_raw s = (Some c, s') -> byte_ok c) /\
  (forall e s', get_event s = (Some e, s') -> event_ok e).
Proof.
  intros Htr. assert (keys_wf (keys s)) as [H1 H2 H3 H4].
  { apply (trace_invariant kstep (fun s => keys_wf (keys s)) (init s0) us s); [|apply init_wf|done].
    intros ??? Hw Hst. by apply (kstep_wf _ _ _ Hw Hst). }
  rewrite !length_contents. split_and!; [done..|by apply held_lt|by apply held_lt| |];
    intros c s' Hg; unfold get_raw, get_event, ring_get in Hg; split_ifs;
    match goal with |- _ (default 0 (?l !! ?i)) => destruct (l !! i) eqn:Hl end;
    simpl; try (unfold byte_ok, event_ok; lia); eapply Forall_lookup_1; eauto.
Qed.

(** * Typing *)

(** The US layout by scan code: the first code of each row, its unshifted and
    shifted characters. *)
Definition us_rows : list (Z * list Z * list Z) :=
  [(2, [49; 50; 51; 52; 53; 54; 55; 56; 57; 48; 45; 61], [33; 64; 35; 36; 37; 94; 38; 42; 40; 41; 95; 43]);
   (16, [113; 119; 101; 114; 116; 121; 117; 105; 111; 112; 91; 93],
        [81; 87; 69; 82; 84; 89; 85; 73; 79; 80; 123; 125]);
   (30, [97; 115; 100; 102; 103; 104; 106; 107; 108; 59; 39; 96],
        [65; 83; 68; 70; 71; 72; 74; 75; 76; 58; 34; 126]);
   (43, [92], [124]);
   (44, [122; 120; 99; 118; 98; 110; 109; 44; 46; 47], [90; 88; 67; 86; 66; 78; 77; 60; 62; 63]);
   (57, [32], [32])].

Fixpoint find_key (c : Z) (rows : list (Z * list Z * list Z)) : option (bool * Z) :=
  match rows with
  | [] => None
  | (first, plain, shifted) :: rows' =>
      match position (Z.eqb c) plain, position (Z.eqb c) shifted with
      | Some i, _ => Some (false, first + Z.of_nat i)
      | None, Some i => Some (true, first + Z.of_nat i)
      | None, None => find_key c rows'
      end
  end.

(** Make and break codes that type [c], with the left shift key where needed. *)
Definition strokes (c : Z) : list Z :=
  match find_key c us_rows with
  | Some (false, k) => [k; k + 128]
  | Some (true, k) => [42; k; k + 128; 42 + 128]
  | None => []
  end.

Definition pending (l : list Z) : list (Z * Z) := (fun sc => (1, sc)) <$> l.

Definition printable (c : Z) : Prop := 32 <= c <= 126.

(** [n] timer ticks. *)
Fixpoint poll_ticks (n : nat) (reads : list (Z * Z)) (s : State) : list (Z * Z) * State :=
  match n with O => (reads, s) | S n' => let '(reads', s') := poll reads s in poll_ticks n' reads' s' end.

(** [n] reads with the polling read of the system call. *)
Fixpoint read_n (n : nat) (s : State) : list Z * State :=
  match n with
  | O => ([], s)
  | S n' => match get_raw s with
            | (Some c, s') => let '(l, s'') := read_n n' s' in (c :: l, s'')
            | (None, s') => ([], s')
            end
  end.

(** No key but possibly shift held, console focus, and no thread blocked on the keyboard. *)
Record resting (shift : bool) (s : State) : Prop := {
  rest_flags : SHIFT (keys s) = shift /\ CTRL (keys s) = false /\ EXTENDED (keys s) = false;
  rest_owner : owner s = None;
  rest_readers : find_first (waits WKeyboard) (threads (ts (ps s))) = None }.

Lemma poll_loop_pending (a b : nat) (l : list Z) (s : State) :
  poll_loop (a + b) (pending l) s =
  let '(r, s') := poll_loop a (pending l) s in poll_loop b r s'.
Proof.
  revert l s. induction a as [|a IH]; intros l s; [done|].
  destruct l as [|x l]; simpl; [by destruct b|]. apply IH.
Qed.

Lemma poll_loop_decodes (n : nat) (l : list Z) (s : State) :
  poll_loop n (pending l) s = (pending (drop n l), foldl (fun s sc => decode sc s) s (take n l)).
Proof.
  revert l s. induction n as [|n IH]; intros l s; simpl; [done|].
  destruct l as [|x l]; simpl; [done|]. apply IH.
Qed.

Lemma poll_ticks_decodes (n : nat) (l : list Z) (s : State) :
  poll_ticks n (pending l) s = (pending (drop (32 * n) l), foldl (fun s sc => decode sc s) s (take (32 * n) l)).
Proof.
  revert l s. induction n as [|n IH]; intros l s; [done|].
  cbn [poll_ticks]. unfold poll. rewrite poll_loop_decodes, IH, drop_drop.
  replace (32 * S n)%nat with (32 + 32 * n)%nat by lia.
  rewrite <- take_take_drop, foldl_app. done.
Qed.

(** In console mode with no key held, an event leaves no trace. *)
Lemma emit_key_console (code : Z) (release : bool) (s : State) : owner s = None -> emit_key code release s = s.
Proof. intros Ho. unfold emit_key, push_event. by rewrite Ho. Qed.

Lemma push_byte_resting (shift : bool) (c : Z) (s : State) : c <> 3 -> resting shift s -> push_byte c s = buffer_byte c s.
Proof.
  intros Hc [_ Ho Hr]. unfold push_byte. rewrite (proj2 (Z.eqb_neq c 3) Hc).
  unfold deliver, wake_reader. rewrite Ho. unfold wakeup_key_waiters, wake_first. rewrite Hr. simpl.
  f_equal. by destruct s as [k o [? ? ? ? ?]].
Qed.

Lemma resting_buffer (shift : bool) (c : Z) (s : State) : resting shift s -> resting shift (buffer_byte c s).
Proof. by intros [???]. Qed.

(** A key of the main block: its make code is not special and translates to
    [c] in the given shift state; its break code is its make code plus [0x80]. *)
Definition types_char (shift : bool) (k c : Z) : bool :=
  let special := [42; 54; 29; 56; 58; 1; 59; 60; 61; 62; 63; 64; 65; 66; 67; 68; 87; 88] in
  negb (existsb (Z.eqb k) special) && negb (k =? 224) && negb (k + 128 =? 224) &&
  (Z.land k 128 =? 0) && (Z.land k 127 =? k) && negb (Z.land (k + 128) 128 =? 0) && (Z.land (k + 128) 127 =? k) &&
  negb (c =? 0) && negb (c =? 3) &&
  ((if k =? 57 then 32 else default 0 ((if shift then SCANCODE_SHIFT else SCANCODE) !! Z.to_nat k)) =? c).

Lemma decode_plain_ordinary (shift : bool) (k c : Z) (release : bool) (s : State) :
  types_char shift k c = true -> decode_plain k release s = decode_char k release s.
Proof.
  unfold types_char. intros H. zbool.
  match goal with H : existsb _ _ = false |- _ => cbn [existsb] in H end. zbool.
  unfold decode_plain.
  repeat match goal with |- context [?k =? ?n] => rewrite (proj2 (Z.eqb_neq k n)) by done end.
  destruct (_ && _)%bool eqn:Hf; [|done]. zbool. lia.
Qed.

Lemma key_press (shift : bool) (k c : Z) (s : State) :
  types_char shift k c = true -> resting shift s ->
  decode k s = buffer_byte c s /\ decode (k + 128) s = s.
Proof.
  intros Ht Hr. pose proof Ht as Ht'. unfold types_char in Ht'. zbool.
  pose proof Hr as [(Hs & Hc & He) Ho Hw]. unfold decode.
  rewrite (proj2 (Z.eqb_neq k 224)), (proj2 (Z.eqb_neq (k + 128) 224)) by done.
  rewrite He. repeat match goal with H : Z.land _ 127 = _ |- _ => rewrite H; clear H end.
  rewrite !(decode_plain_ordinary shift k c) by done. unfold decode_char, plain_char.
  rewrite Hs, Hc. repeat match goal with H : _ = c |- _ => rewrite H; clear H end.
  rewrite (proj2 (Z.eqb_eq (Z.land k 128) 0)), (proj2 (Z.eqb_neq (Z.land (k + 128) 128) 0)) by done.
  rewrite (proj2 (Z.eqb_neq c 0)) by done. simpl. split; [|by apply emit_key_console].
  rewrite (push_byte_resting shift) by done. by apply emit_key_console.
Qed.

(** The code's tables agree with the layout on every printable character. *)
Lemma find_key_printable (c : Z) :
  printable c -> exists shift k, find_key c us_rows = Some (shift, k) /\ types_char shift k c = true.
Proof.
  intros Hc.
  assert (Forall (fun c => (match find_key c us_rows with Some (b, k) => types_char b k c | None => false end) = true)
            (seqZ 32 95)) as Hall.
  { apply (bool_decide_unpack _). vm_compute. exact I. }
  rewrite Forall_forall in Hall. specialize (Hall c). rewrite elem_of_seqZ in Hall.
  specialize (Hall ltac:(unfold printable in Hc; lia)).
  destruct (find_key c us_rows) as [[b k]|]; [|done]. by exists b, k.
Qed.

Lemma shift_press (release : bool) (s : State) :
  owner s = None -> EXTENDED (keys s) = false ->
  decode (if release then 42 + 128 else 42) s = on_keys (with_SHIFT (negb release)) s.
Proof. intros Ho He. unfold decode. rewrite He. by destruct release; apply emit_key_console. Qed.

Lemma strokes_type (c : Z) (s : State) :
  printable c -> resting false s -> foldl (fun s sc => decode sc s) s (strokes c) = buffer_byte c s.
Proof.
  intros Hc Hr. destruct (find_key_printable c Hc) as (b & k & Hk & Ht). unfold strokes. rewrite Hk.
  destruct b; cbn [foldl].
  - pose proof Hr as [(Hs & Hct & He) Ho Hw].
    rewrite (shift_press false s) by done. set (s1 := on_keys _ s).
    assert (resting true s1) as Hr1 by by split.
    destruct (key_press true k c s1 Ht Hr1) as [-> _].
    destruct (key_press true k c (buffer_byte c s1) Ht (resting_buffer _ _ _ Hr1)) as [_ ->].
    rewrite (shift_press true) by done. unfold buffer_byte, s1, on_keys. destruct s as [[] ? ?]. simpl in *. by subst.
  - destruct (key_press false k c s Ht Hr) as [-> _].
    by destruct (key_press false k c (buffer_byte c s) Ht (resting_buffer _ _ _ Hr)) as [_ ->].
Qed.

Lemma type_text (text : list Z) (s : State) :
  Forall printable text -> resting false s ->
  foldl (fun s sc => decode sc s) s (text ≫= strokes) = foldl (fun s c => buffer_byte c s) s text.
Proof.
  intros Ht. revert s. induction Ht as [|c text Hc Ht IH]; intros s Hr; [done|].
  rewrite bind_cons, foldl_app, strokes_type by done. cbn [foldl]. by apply IH, resting_buffer.
Qed.

Lemma buffer_text (text : list Z) (s : State) :
  ring_wf BUF_SIZE (BUF (keys s)) ->
  (length (contents BUF_SIZE (BUF (keys s))) + length text < BUF_SIZE)%nat ->
  let s' := foldl (fun s c => buffer_byte c s) s text in
  ring_wf BUF_SIZE (BUF (keys s')) /\
  contents BUF_SIZE (BUF (keys s')) = contents BUF_SIZE (BUF (keys s)) ++ text.
Proof.
  revert s. induction text as [|c text IH]; intros s Hw Hl; cbn [foldl]; [by rewrite app_nil_r|].
  simpl in Hl.
  assert (contents BUF_SIZE (BUF (keys (buffer_byte c s))) = contents BUF_SIZE (BUF (keys s)) ++ [c]) as Hb.
  { cbn [buffer_byte on_keys keys BUF with_BUF]. rewrite ring_put_contents by done. apply decide_False. lia. }
  destruct (IH (buffer_byte c s)) as [Hw' Hc'].
  - by apply ring_put_wf.
  - rewrite Hb, length_app. simpl. lia.
  - split; [done|]. rewrite Hc', Hb. by rewrite <- (assoc_L (++)).
Qed.

Lemma read_n_contents (n : nat) (s : State) :
  ring_wf BUF_SIZE (BUF (keys s)) ->
  (read_n n s).1 = take n (contents BUF_SIZE (BUF (keys s))).
Proof.
  revert s. induction n as [|n IH]; intros s Hw; cbn [read_n]; [done|].
  pose proof (ring_get_contents BUF_SIZE BUF_SIZE_gt _ Hw) as Hg.
  pose proof (get_raw_state s) as Hst. unfold get_raw in *.
  destruct (ring_get BUF_SIZE (BUF (keys s))) as [o r] eqn:Hr. cbn [fst snd] in *.
  destruct (contents BUF_SIZE (BUF (keys s))) as [|x q].
  - injection Hg as -> ->. done.
  - destruct Hg as [-> Hq]. specialize (IH (on_keys (with_BUF r) s)).
    destruct (read_n n (on_keys (with_BUF r) s)) as [l s'']. cbn [fst] in *. rewrite IH.
    + cbn [on_keys with_BUF keys BUF]. by rewrite Hq.
    + cbn [on_keys with_BUF keys BUF]. pose proof (ring_get_wf BUF_SIZE BUF_SIZE_gt _ Hw) as Hw'. by rewrite Hr in Hw'.
Qed.

(** C21: What is typed is read.  In console mode, with no key held and nobody
    blocked on the keyboard, the make and break codes of any printable text that
    fits the buffer (at most 1023 characters, with capitals and symbols typed
    through the shift key on a US layout), fed to [poll] over enough timer ticks
    (32 scan codes each), leave the controller drained, and [get_raw] then
    returns exactly the earlier contents followed by that text, in order. *)
Theorem typing_roundtrip (text : list Z) (s : State) (ticks : nat) :
  keys_wf (keys s) -> resting false s -> Forall printable text ->
  (length (contents BUF_SIZE (BUF (keys s))) + length text < BUF_SIZE)%nat ->
  (length (text ≫= strokes) <= 32 * ticks)%nat ->
  let '(reads, s') := poll_ticks ticks (pending (text ≫= strokes)) s in
  reads = [] /\
  (forall n, (read_n n s').1 = take n (contents BUF_SIZE (BUF (keys s)) ++ text)) /\
  resting false s'.
Proof.
  intros [Hw _ _ _] Hr Ht Hl Hn. rewrite poll_ticks_decodes, drop_ge, take_ge by done.
  rewrite type_text by done. destruct (buffer_text text s Hw Hl) as [Hw' Hc].
  split; [done|]. split; [intros n; by rewrite read_n_contents, Hc|].
  clear Hl Hn Hw' Hc Hw. revert s Hr. induction Ht as [|c text Hc Ht IH]; intros s Hr; cbn [foldl]; [done|].
  by apply IH, resting_buffer.
Qed.

(** * Keyboard focus *)

Section Focus.
Context (o : Z).

Definition other_threads (x : TState) : list Thread := retain (fun t => negb (t_pid t =? o)) (threads x).
Definition other_procs (p : PState) : list Process := retain (fun q => negb (pid q =? o)) (procs p).
Definition ids (x : TState) : list (Z * Z) := (fun t => (tid t, t_pid t)) <$> threads x.

(** The main thread of [o] belongs to [o]. *)
Definition owns (p : PState) : Prop := forall t k, main_tid o p = Some t -> (t, k) ∈ ids (ts p) -> k = o.

(** Nothing of another process changed. *)
Record kept (p p' : PState) : Prop := {
  kept_threads : other_threads (ts p') = other_threads (ts p);
  kept_ids : ids (ts p') = ids (ts p);
  kept_procs : other_procs p' = other_procs p;
  kept_main : main_tid o p' = main_tid o p }.

Lemma kept_refl p : kept p p.
Proof. done. Qed.
Lemma kept_trans p q r : kept p q -> kept q r -> kept p r.
Proof. intros [] []. split; congruence. Qed.
Lemma kept_owns p p' : kept p p' -> owns p -> owns p'.
Proof. intros [_ Hi _ Hm] Hp t k. rewrite Hi, Hm. apply Hp. Qed.

(** Changing threads of [o] only. *)
Lemma kept_update p (P : Thread -> bool) f :
  (forall t, P t = true -> t ∈ threads (ts p) -> t_pid t = o) ->
  (forall t, tid (f t) = tid t /\ t_pid (f t) = t_pid t) ->
  kept p (on_ts (fun x => set_threads (update_first P f (threads x)) x) p).
Proof.
  intros HP Hf. split; simpl; [| |done|done].
  - unfold other_threads. simpl. induction (threads (ts p)) as [|t l IH]; simpl; [done|].
    destruct (P t) eqn:Ht; simpl.
    + destruct (Hf t) as [_ ->]. rewrite (HP t Ht) by left. by rewrite Z.eqb_refl.
    + rewrite IH; [done|]. intros u Hu Hin. apply HP; [done|by right].
  - unfold ids. simpl. apply update_first_map. intros t _. by destruct (Hf t) as [-> ->].
Qed.

Lemma kept_modify p t f :
  owns p -> main_tid o p = Some t ->
  (forall u, tid (f u) = tid u /\ t_pid (f u) = t_pid u) ->
  kept p (on_ts (Thread.modify t f) p).
Proof.
  intros Ho Hm Hf. apply kept_update; [|done]. intros u Hu Hin. zbool.
  apply (Ho t _ Hm). subst t. by apply (list_elem_of_fmap_2 (fun u => (tid u, t_pid u))).
Qed.

Lemma restore_ids m v t :
  tid (restore_ctx_from_blocking_frame m v t) = tid t /\ t_pid (restore_ctx_from_blocking_frame m v t) = t_pid t.
Proof. unfold restore_ctx_from_blocking_frame. by case_match. Qed.

Lemma kept_interrupt p t :
  owns p -> main_tid o p = Some t -> kept p (on_ts (interrupt_thread t) p).
Proof.
  intros Ho Hm. unfold interrupt_thread, on_ts at 1.
  destruct (Thread.state t (ts p)) as [[]|]; try (by destruct p as [? ? ? ? ?]).
  set (q := set_ts (apply_blocking_return_if_pending t (ts p)).2 p).
  assert (kept p q) as Hq.
  { unfold q, apply_blocking_return_if_pending. destruct (Thread.find t (ts p)) as [u|]; [|by destruct p].
    case_match; [by destruct p|]. apply (kept_modify p t _ Ho Hm). intros v. apply (restore_ids _ _ (with_blocking_retval 0 v)). }
  assert (kept q (on_ts (Thread.set_ready t) q)) as Hr.
  { apply kept_modify; [by apply (kept_owns p)|by rewrite (kept_main _ _ Hq)|]. intros v. by repeat case_match. }
  apply (kept_trans _ _ _ Hq), (kept_trans _ _ _ Hr).
  apply (kept_modify (on_ts (Thread.set_ready t) q)); [..|done].
  - by apply (kept_owns q), (kept_owns p).
  - by rewrite (kept_main _ _ Hr), (kept_main _ _ Hq).
Qed.

Lemma kept_pending p : kept p (Process.modify o with_sigint_pending p).
Proof.
  split; simpl; [done|done| |].
  - unfold other_procs. simpl. induction (procs p) as [|q l IH]; simpl; [done|].
    unfold is_pid at 1. destruct (pid q =? o) eqn:Hq; simpl; rewrite Hq; simpl; [done|]. by rewrite IH.
  - unfold main_tid, Process.find. simpl.
    rewrite find_first_update_first_eq by done. by destruct (find_first _ _).
Qed.

Lemma kept_sigint p : owns p -> sigint_catches o p = true -> kept p (send_sigint o p).
Proof.
  intros Ho Hc. unfold send_sigint, sigint_catches in *. destruct (Process.find o p) as [q|] eqn:Hf; [|done].
  simpl in Hc. case_match; [done|]. rewrite Hc.
  destruct (p_main q) as [t|] eqn:Hm; [|apply kept_pending].
  eapply kept_trans; [apply kept_pending|]. apply kept_interrupt.
  - eapply kept_owns; [apply kept_pending|done].
  - rewrite (kept_main _ _ (kept_pending p)). unfold main_tid. by rewrite Hf.
Qed.

Lemma kept_push_byte (ch : Z) (s : State) :
  owner s = Some o -> owns (ps s) ->
  owner (push_byte ch s) = Some o /\ kept (ps s) (ps (push_byte ch s)).
Proof.
  intros Hs Ho. unfold push_byte, sigint_target. rewrite Hs.
  destruct (if ch =? 3 then _ else _) as [i|] eqn:Hi.
  { repeat case_match; simplify_eq. split; [done|]. by apply kept_sigint. }
  unfold deliver, wake_reader. rewrite Hs. unfold wakeup_key_waiter_for_pid, wake_first.
  destruct (find_first _ _) as [u|]; simpl; (split; [done|]); [|by destruct (ps s)].
  apply (kept_update (ps s)).
  - intros t Ht _. by zbool.
  - intros t. apply restore_ids.
Qed.

Lemma emit_key_frame (code : Z) (release : bool) (s : State) :
  owner (emit_key code release s) = owner s /\ ps (emit_key code release s) = ps s.
Proof. unfold emit_key, push_event. destruct (owner s) eqn:Ho; simpl; by rewrite ?Ho. Qed.

(** Keys held in the state of [decode]: every branch is a byte, an event, or flags. *)
Definition focused (s s' : State) : Prop := owner s' = Some o /\ kept (ps s) (ps s').

Lemma focused_emit (code : Z) (release : bool) (s s' : State) :
  focused s s' -> focused s (emit_key code release s').
Proof. unfold focused. by destruct (emit_key_frame code release s') as [-> ->]. Qed.

Lemma kept_decode (sc : Z) (s : State) : owner s = Some o -> owns (ps s) -> focused s (decode sc s).
Proof.
  intros Hs Ho.
  assert (forall f, focused s (on_keys f s)) as Hk by (intros f; split; [done|apply kept_refl]).
  assert (focused s s) as Hr by (split; [done|apply kept_refl]).
  assert (forall ch f, focused s (push_byte ch (on_keys f s))) as Hp.
  { intros ch f. by apply (kept_push_byte ch (on_keys f s)). }
  assert (forall ch, focused s (push_byte ch s)) as Hp' by (intros ch; by apply kept_push_byte).
  unfold decode. case_match; [done|]. case_match.
  - unfold decode_extended, modifier. repeat case_match; try apply focused_emit; auto.
  - unfold decode_plain, modifier, decode_char. repeat case_match; try apply focused_emit; auto.
Qed.

Lemma kept_poll_loop (n : nat) (reads : list (Z * Z)) (s : State) :
  owner s = Some o -> owns (ps s) -> focused s (poll_loop n reads s).2.
Proof.
  revert reads s. induction n as [|n IH]; intros [|[st sc] reads] s Hs Ho; simpl;
    try (split; [done|apply kept_refl]).
  case_match; [split; [done|apply kept_refl]|]. case_match; [split; [done|apply kept_refl]|].
  destruct (kept_decode sc s Hs Ho) as [Hd Hk].
  destruct (IH reads (decode sc s) Hd (kept_owns _ _ Hk Ho)) as [Hp Hk2]. split; [done|by apply (kept_trans _ _ _ Hk)].
Qed.
End Focus.

(** C22: Keyboard focus.  While a graphical program [o] owns the framebuffer,
    whatever the controller delivers to [poll] - Ctrl+C included - reaches no
    other process: the process table entries and the threads of every other
    process are left exactly as they are (no reader woken, no signal set), and
    the focus stays with [o].  A focus change empties both queues, so keys typed
    under one focus never surface under another. *)
Theorem focus_isolation (o : Z) (reads : list (Z * Z)) (s : State) :
  owner s = Some o -> owns o (ps s) ->
  let s' := (poll reads s).2 in
  owner s' = Some o /\ other_threads o (ts (ps s')) = other_threads o (ts (ps s)) /\
  other_procs o (ps s') = other_procs o (ps s) /\
  contents BUF_SIZE (BUF (keys (flush s'))) = [] /\ contents EBUF_SIZE (EBUF (keys (flush s'))) = [].
Proof.
  intros Hs Ho. destruct (kept_poll_loop o 32 reads s Hs Ho) as [Hp [H1 _ H3 _]].
  split_and!; [done..| |]; by apply contents_empty.
Qed.

(** The numeric keypad of scan code set 1 starts at [0x47]; its characters are in
    the table from [0x45] on: every keypad key types the character of the key
    two positions later, and the two lock keys before it type [7] and [8]. *)
Definition keypad : list Z := [55; 56; 57; 45; 52; 53; 54; 43; 49; 50; 51; 48; 46].
Theorem keypad_off_by_two (i : nat) (c : Z) (s : State) :
  keypad !! i = Some c -> resting false s -> decode (69 + Z.of_nat i) s = buffer_byte c s.
Proof.
  intros Hi Hr. apply (key_press false); [|done].
  do 13 (destruct i as [|i]; [injection Hi as <-; done|]). done.
Qed.

(** The shift flag follows the last shift key that moved: with both held,
    releasing one clears it. *)
Theorem either_shift_release_clears (s : State) :
  owner s = None -> EXTENDED (keys s) = false ->
  SHIFT (keys (foldl (fun s sc => decode sc s) s [42; 54; 54 + 128])) = false.
Proof. destruct s as [[] ? ?]. simpl. intros -> ->. reflexivity. Qed.

Module Example.
Definition st0 : State := mkState (mkKeys (ring_new 0) (ring_new 0) true true true true) None Process.Example.st.
Definition st : State := init st0.

Lemma st_resting : resting false st.
Proof. by split. Qed.

(** "Hi!" *)
Lemma typing_roundtrip_witness :
  let '(reads, s') := poll_ticks 1 (pending ([72; 105; 33] ≫= strokes)) st in
  reads = [] /\
  (forall n, (read_n n s').1 = take n (contents BUF_SIZE (BUF (keys st)) ++ [72; 105; 33])) /\
  resting false s'.
Proof.
  apply (typing_roundtrip [72; 105; 33] st 1);
    [apply init_wf|apply st_resting|repeat constructor; done|vm_compute; lia|vm_compute; lia].
Defined.

Definition st_hi : State := inject_keys [104; 105] st.
Lemma keyboard_bounds_witness :
  ring_wf BUF_SIZE (BUF (keys st_hi)) /\ ring_wf EBUF_SIZE (EBUF (keys st_hi)) /\
  (length (contents BUF_SIZE (BUF (keys st_hi))) < BUF_SIZE)%nat /\
  (length (contents EBUF_SIZE (EBUF (keys st_hi))) < EBUF_SIZE)%nat /\
  (forall c s', get_raw st_hi = (Some c, s') -> byte_ok c) /\
  (forall e s', get_event st_hi = (Some e, s') -> event_ok e).
Proof.
  apply (keyboard_bounds st0 st_hi [tt]).
  apply (trace_cons kstep (init st0) tt st_hi); [|apply trace_nil].
  apply (K_inject (init st0)). repeat constructor; done.
Defined.

(** Process 5 owns the framebuffer; Ctrl+C and a letter arrive. *)
Definition st_focus : State := mkState (keys st) (Some 5) (ps st).
Lemma focus_isolation_witness :
  let s' := (poll (pending [29; 46; 46 + 128; 30]) st_focus).2 in
  owner s' = Some 5 /\ other_threads 5 (ts (ps s')) = other_threads 5 (ts (ps st_focus)) /\
  other_procs 5 (ps s') = other_procs 5 (ps st_focus) /\
  contents BUF_SIZE (BUF (keys (flush s'))) = [] /\ contents EBUF_SIZE (EBUF (keys (flush s'))) = [].
Proof.
  apply (focus_isolation 5 (pending [29; 46; 46 + 128; 30]) st_focus); [done|].
  intros t k Ht Hk. injection Ht as <-. unfold ids in Hk. simpl in Hk. set_solver.
Defined.
End Example.

End Keyboard.
