(* ===== verification/Tty.v ===== *)
(** The line editor of the kernel terminal: [crates/kernel/src/terminal/tty.rs].

    The input line is the fixed array [input] with its length and cursor.  Calls
    into the console are a log of [Out] values in call order; a screen position
    to the right of the prompt is named by the text whose width separates it from
    [prompt_start].  The time stamp counter is an argument. *)
From stdpp Require Import base list numbers option.
From S2P Require Import Prelude Str Keyboard.

Open Scope Z_scope.

Module Tty.
Import Str.Str Keyboard.Keyboard.

Definition INPUT_CAP : nat := 128.
#[global] Arguments INPUT_CAP : simpl never.

(** Console calls: [draw_cursor], [clear_rect] over the width of a text,
    [set_position] after a text, [print!], [println!("")]. *)
Inductive Out :=
  | ODrawCursor (after : list Z) (visible : bool)
  | OClear (width_of : list Z)
  | OPosition (after : list Z)
  | OPrint (text : list Z)
  | ONewline.

Record Line := mkLine { buf : list Z; line_len : nat }.
Definition as_str (l : Line) : list Z :=
  let b := take (line_len l) (buf l) in if utf8_valid b then b else [].

Record Tty := mkTty {
  input : list Z; len : nat; cursor : nat;
  cursor_visible : bool; next_blink : Z; tsc_per_ms : Z;
  out : list Out }.

Definition new (tsc : Z) : Tty := mkTty (replicate INPUT_CAP 0) 0 0 false 0 tsc [].

Definition emit (o : list Out) (t : Tty) : Tty :=
  mkTty (input t) (len t) (cursor t) (cursor_visible t) (next_blink t) (tsc_per_ms t) (out t ++ o).
Definition set_text (i : list Z) (l c : nat) (t : Tty) : Tty :=
  mkTty i l c (cursor_visible t) (next_blink t) (tsc_per_ms t) (out t).
Definition set_blink (v : bool) (n : Z) (t : Tty) : Tty :=
  mkTty (input t) (len t) (cursor t) v n (tsc_per_ms t) (out t).
Definition deadline (now : Z) (t : Tty) : Z := wrap64 (now + wrap64 (tsc_per_ms t * 500)).

Definition prompt (now : Z) (p : list Z) (t : Tty) : Tty :=
  let t := emit [OPrint p] t in
  set_blink false (deadline now t) (set_text (input t) 0 0 t).

(** [self.input[..self.cursor]]: the text left of the cursor. *)
Definition cursor_position (t : Tty) : list Z := take (cursor t) (input t).

(** [now] and [later] are the two readings of the counter. *)
Definition update_cursor (now later : Z) (t : Tty) : Tty :=
  if next_blink t <=? now then
    let v := negb (cursor_visible t) in
    set_blink v (deadline later t) (emit [ODrawCursor (cursor_position t) v] t)
  else t.

Definition show_cursor (now : Z) (t : Tty) : Tty :=
  set_blink true (deadline now t) (emit [ODrawCursor (cursor_position t) true] t).

Definition hide_cursor (t : Tty) : Tty :=
  if cursor_visible t then set_blink false (next_blink t) (emit [ODrawCursor (cursor_position t) false] t) else t.

Definition redraw_input (t : Tty) : Tty :=
  let text := take (len t) (input t) in
  emit ([OClear text; OPosition []] ++ (if utf8_valid text then [OPrint text] else []) ++
        [OPosition (cursor_position t)]) t.

(** [input[i + 1] = input[i]] for [i] from [len - 1] down to [cursor]. *)
Fixpoint shift_right (n c : nat) (l : list Z) : list Z :=
  match n with
  | O => l
  | S n' => shift_right n' c (<[(c + n' + 1)%nat := default 0 (l !! (c + n')%nat)]> l)
  end.

(** [input[i - 1] = input[i]] for [i] from [c] on, [n] times. *)
Fixpoint shift_left (n c : nat) (l : list Z) : list Z :=
  match n with
  | O => l
  | S n' => shift_left n' (c + 1) (<[(c - 1)%nat := default 0 (l !! c)]> l)
  end.

Definition is_ascii (c : Z) : bool := c <? 128.
(** [char::is_control] on the characters of a byte: C0, DEL and C1. *)
Definition is_control (c : Z) : bool := (c <? 32) || ((127 <=? c) && (c <? 160)).

Definition push (ch : Z) (t : Tty) : Tty :=
  if (len t <? INPUT_CAP - 1)%nat && is_ascii ch then
    let i := <[cursor t := ch]> (shift_right (len t - cursor t) (cursor t) (input t)) in
    redraw_input (set_text i (len t + 1) (cursor t + 1) t)
  else t.

Definition backspace (t : Tty) : Tty :=
  if (0 <? cursor t)%nat then
    redraw_input (set_text (shift_left (len t - cursor t) (cursor t) (input t)) (len t - 1) (cursor t - 1) t)
  else t.

Definition move_left (t : Tty) : Tty :=
  if (0 <? cursor t)%nat then set_text (input t) (len t) (cursor t - 1) t else t.

Definition move_right (t : Tty) : Tty :=
  if (cursor t <? len t)%nat then set_text (input t) (len t) (cursor t + 1) t else t.

Definition submit (t : Tty) : option Line * Tty :=
  let text := take (len t) (input t) in
  let line := mkLine (text ++ replicate (INPUT_CAP - len t) 0) (len t) in
  let t := emit [OPosition text; ONewline] t in
  (Some line, set_blink false (next_blink t) (set_text (input t) 0 0 t)).

Definition dispatch_key (key : Key) (t : Tty) : option Line * Tty :=
  match key with
  | Char c =>
      if c =? 10 then submit t
      else if c =? 8 then (None, backspace t)
      else if negb (is_control c) then (None, push c t)
      else (None, t)
  | Left => (None, move_left t)
  | Right => (None, move_right t)
  end.

Definition handle_key (now : Z) (key : Key) (t : Tty) : option Line * Tty :=
  let '(line, t) := dispatch_key key (hide_cursor t) in
  match line with Some _ => (line, t) | None => (None, show_cursor now t) end.

(** * Refinement: a line is a text with a gap *)

(** The reference editor: the characters left of the cursor, nearest first, and
    those right of it. *)
Record Zip := mkZip { before : list Z; after : list Z }.

Definition zip_text (z : Zip) : list Z := reverse (before z) ++ after z.

Definition zip_key (key : Key) (z : Zip) : option (list Z) * Zip :=
  match key with
  | Char c =>
      if c =? 10 then (Some (zip_text z), mkZip [] [])
      else if c =? 8 then (None, mkZip (List.tl (before z)) (after z))
      else if negb (is_control c) && is_ascii c && (length (zip_text z) <? INPUT_CAP - 1)%nat
      then (None, mkZip (c :: before z) (after z))
      else (None, z)
  | Left => (None, match before z with c :: b => mkZip b (c :: after z) | [] => z end)
  | Right => (None, match after z with c :: a => mkZip (c :: before z) a | [] => z end)
  end.

Record wf (t : Tty) : Prop := {
  wf_input : length (input t) = INPUT_CAP;
  wf_len : (len t < INPUT_CAP)%nat;
  wf_cursor : (cursor t <= len t)%nat;
  wf_ascii : Forall ascii (input t) }.

Definition represents (t : Tty) (z : Zip) : Prop :=
  reverse (before z) = take (cursor t) (input t) /\ after z = drop (cursor t) (take (len t) (input t)).

Lemma length_shift_right n c l : length (shift_right n c l) = length l.
Proof. revert l. induction n as [|n IH]; intros l; simpl; [done|]. by rewrite IH, length_insert. Qed.
Lemma length_shift_left n c l : length (shift_left n c l) = length l.
Proof. revert c l. induction n as [|n IH]; intros c l; simpl; [done|]. by rewrite IH, length_insert. Qed.

(** After the loop of [push], cell [c + k + 1] holds what cell [c + k] held. *)
Lemma shift_right_lookup n c l j :
  (c + n < length l)%nat ->
  shift_right n c l !! j = if decide (c < j <= c + n)%nat then l !! (j - 1)%nat else l !! j.
Proof.
  revert l. induction n as [|n IH]; intros l Hl; simpl; [by rewrite decide_False by lia|].
  rewrite IH by (rewrite length_insert; lia).
  destruct (lookup_lt_is_Some_2 l (c + n)%nat ltac:(lia)) as [x Hx]. rewrite Hx. simpl.
  destruct (decide (j = c + n + 1)%nat) as [->|Hj].
  - rewrite decide_False, decide_True by lia. rewrite list_lookup_insert_eq by lia.
    rewrite <- Hx. f_equal. lia.
  - repeat case_decide; try lia; by rewrite list_lookup_insert_ne by lia.
Qed.

Lemma shift_left_lookup n c l j :
  (0 < c)%nat -> (c + n <= length l)%nat ->
  shift_left n c l !! j = if decide (c - 1 <= j < c - 1 + n)%nat then l !! (j + 1)%nat else l !! j.
Proof.
  revert c l. induction n as [|n IH]; intros c l Hc Hl; simpl; [by rewrite decide_False by lia|].
  rewrite IH by (rewrite ?length_insert; lia).
  destruct (lookup_lt_is_Some_2 l c ltac:(lia)) as [x Hx]. rewrite Hx. simpl.
  destruct (decide (j = c - 1)%nat) as [->|Hj].
  - rewrite decide_False, decide_True by lia. rewrite list_lookup_insert_eq by lia.
    rewrite <- Hx. f_equal. lia.
  - repeat case_decide; try lia; by rewrite list_lookup_insert_ne by lia.
Qed.

Lemma default_ascii l i : Forall ascii l -> ascii (default 0 (l !! i)).
Proof.
  intros Hl. destruct (l !! i) eqn:He; simpl; [|unfold ascii; lia]. by apply (Forall_lookup_1 _ _ _ _ Hl He).
Qed.
Lemma shift_right_ascii n c l : Forall ascii l -> Forall ascii (shift_right n c l).
Proof.
  revert l. induction n as [|n IH]; intros l Hl; simpl; [done|].
  by apply IH, Forall_insert, default_ascii.
Qed.
Lemma shift_left_ascii n c l : Forall ascii l -> Forall ascii (shift_left n c l).
Proof.
  revert c l. induction n as [|n IH]; intros c l Hl; simpl; [done|].
  by apply IH, Forall_insert, default_ascii.
Qed.

Lemma push_left ch n c l :
  (c + n < length l)%nat -> take (c + 1) (<[c := ch]> (shift_right n c l)) = take c l ++ [ch].
Proof.
  intros Hl.
  rewrite Nat.add_1_r, (take_S_r _ _ ch) by (rewrite list_lookup_insert_eq; [done|rewrite length_shift_right; lia]).
  rewrite take_insert_ge by lia. f_equal. apply list_eq. intros j.
  destruct (decide (j < c)%nat).
  - rewrite !lookup_take_lt, shift_right_lookup, decide_False by lia. done.
  - rewrite !lookup_take_ge by lia. done.
Qed.

Lemma push_right ch n c l :
  (c + n < length l)%nat ->
  drop (c + 1) (take (c + n + 1) (<[c := ch]> (shift_right n c l))) = drop c (take (c + n) l).
Proof.
  intros Hl. apply list_eq. intros j. rewrite !lookup_drop.
  destruct (decide (j < n)%nat).
  - rewrite !lookup_take_lt by lia. rewrite list_lookup_insert_ne, shift_right_lookup, decide_True by lia. f_equal. lia.
  - rewrite !lookup_take_ge by lia. done.
Qed.

Lemma backspace_left n c l :
  (0 < c)%nat -> (c + n <= length l)%nat -> take (c - 1) (shift_left n c l) = take (c - 1) l.
Proof.
  intros Hc Hl. apply list_eq. intros j. destruct (decide (j < c - 1)%nat).
  - by rewrite !lookup_take_lt, shift_left_lookup, decide_False by lia.
  - by rewrite !lookup_take_ge by lia.
Qed.

Lemma backspace_right n c l :
  (0 < c)%nat -> (c + n <= length l)%nat ->
  drop (c - 1) (take (c + n - 1) (shift_left n c l)) = drop c (take (c + n) l).
Proof.
  intros Hc Hl. apply list_eq. intros j. rewrite !lookup_drop. destruct (decide (j < n)%nat).
  - rewrite !lookup_take_lt by lia. rewrite shift_left_lookup, decide_True by lia. f_equal. lia.
  - by rewrite !lookup_take_ge by lia.
Qed.

(** The console log and the blink state do not matter to the text. *)
Definition same_text (t t' : Tty) : Prop := input t' = input t /\ len t' = len t /\ cursor t' = cursor t.

Lemma same_text_wf t t' : same_text t t' -> wf t -> wf t'.
Proof. intros (Hi & Hl & Hc) []. split; rewrite ?Hi, ?Hl, ?Hc; done. Qed.
Lemma same_text_represents t t' z : same_text t t' -> represents t z -> represents t' z.
Proof. intros (Hi & Hl & Hc). unfold represents. by rewrite Hi, Hl, Hc. Qed.

Lemma hide_same t : same_text t (hide_cursor t).
Proof. unfold hide_cursor. by case_match. Qed.
Lemma show_same now t : same_text t (show_cursor now t).
Proof. done. Qed.

Lemma represents_text t z : wf t -> represents t z -> zip_text z = take (len t) (input t).
Proof.
  intros [Hi Hl Hc _] [Hb Ha]. unfold zip_text. rewrite Hb, Ha.
  rewrite <- (take_drop (cursor t) (take (len t) (input t))) at 2. by rewrite take_take, Nat.min_l by lia.
Qed.

Lemma length_zip_text t z : wf t -> represents t z -> length (zip_text z) = len t.
Proof. intros Hw Hr. rewrite (represents_text t z) by done. destruct Hw. rewrite length_take. lia. Qed.

Lemma length_before t z : wf t -> represents t z -> length (before z) = cursor t.
Proof. intros [] [Hb _]. rewrite <- length_reverse, Hb, length_take. lia. Qed.

Lemma push_refines c t z :
  wf t -> represents t z -> 0 <= c -> is_ascii c = true -> (len t < INPUT_CAP - 1)%nat ->
  wf (push c t) /\ represents (push c t) (mkZip (c :: before z) (after z)).
Proof.
  intros [Hi Hl Hc Has] [Hb Ha] Hc0 Hasc Hlt. unfold push. rewrite Hasc, (proj2 (Nat.ltb_lt _ _) Hlt). simpl.
  assert (len t = cursor t + (len t - cursor t))%nat as Hn by lia.
  split; [split; simpl; rewrite ?length_insert, ?length_shift_right; try lia|].
  { apply Forall_insert; [by apply shift_right_ascii|]. unfold is_ascii in Hasc. zbool. done. }
  split; simpl.
  - by rewrite reverse_cons, Hb, push_left by lia.
  - rewrite Ha. rewrite Hn at 2. by rewrite push_right, <- Hn by lia.
Qed.

Lemma backspace_refines t z :
  wf t -> represents t z ->
  wf (backspace t) /\ represents (backspace t) (mkZip (List.tl (before z)) (after z)).
Proof.
  intros Hw Hr. pose proof (length_before t z Hw Hr) as Hlen. pose proof Hw as [Hi Hl Hc Has]. pose proof Hr as [Hb Ha].
  unfold backspace. destruct (Nat.ltb_spec 0 (cursor t)) as [H0|H0].
  - assert (len t = cursor t + (len t - cursor t))%nat as Hn by lia.
    split; [split; simpl; rewrite ?length_shift_left; try lia; by apply shift_left_ascii|]. split; simpl.
    + destruct (before z) as [|x b]; simpl in *; [lia|].
      rewrite backspace_left by lia. rewrite reverse_cons in Hb.
      rewrite <- (take_app_length' (reverse b) [x] (cursor t - 1)) by (rewrite length_reverse; lia).
      rewrite Hb, take_take. f_equal. lia.
    + rewrite Ha. rewrite Hn at 2. by rewrite backspace_right, <- Hn by lia.
  - split; [done|]. destruct z as [[|x b] a]; simpl in *; [done|lia].
Qed.

Lemma move_left_refines t z :
  wf t -> represents t z ->
  wf (move_left t) /\
  represents (move_left t) (match before z with c :: b => mkZip b (c :: after z) | [] => z end).
Proof.
  intros Hw Hr. pose proof (length_before t z Hw Hr) as Hlen. pose proof Hw as [Hi Hl Hc Has]. pose proof Hr as [Hb Ha].
  unfold move_left. destruct (before z) as [|x b] eqn:Hz; simpl in Hlen.
  - rewrite <- Hlen. simpl. split; [done|]. done.
  - rewrite (proj2 (Nat.ltb_lt 0 (cursor t))) by lia. split; [split; simpl; done || lia|].
    rewrite reverse_cons in Hb.
    assert (input t !! (cursor t - 1)%nat = Some x) as Hx.
    { rewrite <- (lookup_take_lt _ (cursor t)) by lia. rewrite <- Hb.
      apply list_lookup_middle. rewrite length_reverse. lia. }
    split; simpl.
    + rewrite <- (take_app_length' (reverse b) [x] (cursor t - 1)) by (rewrite length_reverse; lia).
      rewrite Hb, take_take. f_equal. lia.
    + rewrite Ha. rewrite (drop_S _ x (cursor t - 1)) by (by rewrite lookup_take_lt by lia). do 2 f_equal. lia.
Qed.

Lemma move_right_refines t z :
  wf t -> represents t z ->
  wf (move_right t) /\
  represents (move_right t) (match after z with c :: a => mkZip (c :: before z) a | [] => z end).
Proof.
  intros Hw Hr. pose proof Hw as [Hi Hl Hc Has]. pose proof Hr as [Hb Ha].
  assert (length (after z) = len t - cursor t)%nat as Hlen by (rewrite Ha, length_drop, length_take; lia).
  unfold move_right. destruct (after z) as [|x a] eqn:Hz; simpl in Hlen.
  - rewrite (proj2 (Nat.ltb_ge (cursor t) (len t))) by lia. done.
  - rewrite (proj2 (Nat.ltb_lt (cursor t) (len t))) by lia. split; [split; simpl; done || lia|].
    assert (input t !! cursor t = Some x) as Hx.
    { rewrite <- (lookup_take_lt _ (len t)) by lia. rewrite <- (Nat.add_0_r (cursor t)), <- lookup_drop, <- Ha. done. }
    split; simpl.
    + by rewrite reverse_cons, Hb, Nat.add_1_r, (take_S_r _ _ x).
    + rewrite (drop_S _ x (cursor t)) in Ha by (by rewrite lookup_take_lt by lia).
      injection Ha as ->. by rewrite Nat.add_1_r.
Qed.

(** A key as the driver produces it. *)
Definition key_ok (k : Key) : Prop := match k with Char c => 0 <= c < 256 | _ => True end.

Lemma submit_refines t z :
  wf t -> represents t z ->
  as_str <$> (submit t).1 = Some (zip_text z) /\ wf (submit t).2 /\ represents (submit t).2 (mkZip [] []).
Proof.
  intros Hw Hr. pose proof (represents_text t z Hw Hr) as Ht. destruct Hw as [Hi Hl Hc Ha].
  split; [|split; [split; simpl; done || lia|done]].
  unfold submit, as_str. simpl. rewrite take_app_length' by (rewrite length_take; lia).
  rewrite ascii_utf8 by by apply Forall_take. by rewrite Ht.
Qed.

Lemma dispatch_refines key t z :
  wf t -> represents t z -> key_ok key ->
  as_str <$> (dispatch_key key t).1 = (zip_key key z).1 /\
  wf (dispatch_key key t).2 /\ represents (dispatch_key key t).2 (zip_key key z).2.
Proof.
  intros Hw Hr Hk. destruct key as [c| |]; cbn [dispatch_key zip_key].
  - destruct (c =? 10); [by apply submit_refines|].
    destruct (c =? 8); [split; [done|by apply backspace_refines]|].
    rewrite (length_zip_text t z) by done.
    destruct (is_control c); cbn [negb andb]; [done|].
    destruct (is_ascii c) eqn:Ha; cbn [andb]; [|unfold push; by rewrite Ha, andb_false_r].
    destruct (Nat.ltb_spec (len t) (INPUT_CAP - 1)) as [Hlt|Hge].
    + split; [done|]. apply push_refines; done || (simpl in Hk; lia).
    + unfold push. by rewrite (proj2 (Nat.ltb_ge _ _) Hge).
  - split; [done|]. by apply move_left_refines.
  - split; [done|]. by apply move_right_refines.
Qed.

Lemma handle_refines now key t z :
  wf t -> represents t z -> key_ok key ->
  as_str <$> (handle_key now key t).1 = (zip_key key z).1 /\
  wf (handle_key now key t).2 /\ represents (handle_key now key t).2 (zip_key key z).2.
Proof.
  intros Hw Hr Hk.
  assert (wf (hide_cursor t)) as Hw' by apply (same_text_wf _ _ (hide_same t) Hw).
  assert (represents (hide_cursor t) z) as Hr' by apply (same_text_represents _ _ _ (hide_same t) Hr).
  pose proof (dispatch_refines key _ z Hw' Hr' Hk) as (H1 & H2 & H3). unfold handle_key.
  destruct (dispatch_key key (hide_cursor t)) as [[l|] t']; simpl in *; [done|].
  split; [done|]. split.
  - by apply (same_text_wf _ _ (show_same now t')).
  - by apply (same_text_represents _ _ _ (show_same now t')).
Qed.

(** A session: keys with the time each arrives. *)
Fixpoint session (ks : list (Z * Key)) (t : Tty) : list (list Z) * Tty :=
  match ks with
  | [] => ([], t)
  | (now, k) :: ks' =>
      let '(line, t') := handle_key now k t in
      let '(lines, t'') := session ks' t' in
      (match line with Some l => as_str l :: lines | None => lines end, t'')
  end.

Fixpoint zip_session (ks : list Key) (z : Zip) : list (list Z) * Zip :=
  match ks with
  | [] => ([], z)
  | k :: ks' =>
      let '(line, z') := zip_key k z in
      let '(lines, z'') := zip_session ks' z' in
      (match line with Some l => l :: lines | None => lines end, z'')
  end.

(** C24: The line editor refines a text with a gap.  From any well-formed
    terminal, for every sequence of keys the driver can produce, the lines
    submitted by [handle_key] are those of the reference editor (insert at the
    gap, delete before it, move over one character, a line of at most 127 ASCII
    characters), the array shifts never leave the 128 cells, and the state keeps
    representing the reference state: no character is lost, duplicated or moved
    by editing in the middle of a line. *)
Theorem line_editor_refines (ks : list (Z * Key)) (t : Tty) (z : Zip) :
  wf t -> represents t z -> Forall (fun k => key_ok k.2) ks ->
  let '(lines, t') := session ks t in
  let '(lines', z') := zip_session (ks.*2) z in
  lines = lines' /\ wf t' /\ represents t' z'.
Proof.
  intros Hw Hr Hk. revert t z Hw Hr. induction Hk as [|[now k] ks Hk Hks IH]; intros t z Hw Hr; [done|].
  rewrite fmap_cons. cbn [session zip_session snd].
  destruct (handle_refines now k t z Hw Hr Hk) as (H1 & H2 & H3).
  destruct (handle_key now k t) as [line t'], (zip_key k z) as [line' z']. cbn [fst snd] in *.
  specialize (IH t' z' H2 H3). destruct (session ks t') as [ls t''], (zip_session (ks.*2) z') as [ls' z''].
  destruct IH as (-> & ? & ?). split; [|done]. by destruct line; simplify_eq/=.
Qed.

Lemma new_wf tsc : wf (new tsc).
Proof.
  unfold new. split; cbn [input len cursor]; rewrite ?length_replicate; unfold INPUT_CAP; [lia..|].
  apply Forall_replicate. unfold ascii. lia.
Qed.

Lemma prompt_ready now p t : wf t -> wf (prompt now p t) /\ represents (prompt now p t) (mkZip [] []).
Proof. intros [Hi Hl Hc Ha]. split; [split; simpl; done || (unfold INPUT_CAP; lia)|done]. Qed.

(** Typing "ac", going left, inserting "b", deleting it again, submitting. *)
Lemma line_editor_refines_witness :
  let ks := [(10, Char 97); (20, Char 99); (30, Left); (40, Char 98); (50, Char 8); (60, Char 10)] in
  let '(lines, t') := session ks (prompt 0 [62] (new 1000)) in
  let '(lines', z') := zip_session (ks.*2) (mkZip [] []) in
  lines = lines' /\ wf t' /\ represents t' z'.
Proof.
  apply (line_editor_refines [(10, Char 97); (20, Char 99); (30, Left); (40, Char 98); (50, Char 8); (60, Char 10)]
           (prompt 0 [62] (new 1000)) (mkZip [] [])).
  - apply prompt_ready, new_wf.
  - apply prompt_ready, new_wf.
  - repeat constructor; done.
Defined.

End Tty.
