(* ===== verification/Shm.v ===== *)
(** Shared memory objects: [crates/kernel/src/memory/shm.rs].

    The static [OBJECTS] vector is a list in vector order.  Page tables are those
    of [Vmm.v], frames come from any [FrameAllocator] of [Pmm.v], memory accounting
    and liveness from [Process.v].  Each function is one step: all but [create]
    run under the object lock (and the thread lock where the source takes it),
    and the three sections of [create] commute with other steps, since the
    reserved id and the frames are not visible before the last one.  The current
    process and the loaded [cr3] of the calling CPU are arguments. *)
From stdpp Require Import base sets list numbers option gmap.
From S2P Require Import Prelude Pmm Vmm Thread Scheduler Process.

Open Scope Z_scope.

Module Shm.
Import Process.Process.
Notation current_user_pid := Scheduler.Scheduler.current_user_pid (only parsing).

Definition PAGE_SIZE : Z := 4096.
Definition USER_SHM_BASE : Z := 755914244096.   (* 0x0000_00B0_0000_0000 *)
Definition USER_SHM_LIMIT : Z := 824633720832.  (* 0x0000_00C0_0000_0000 *)
Definition MAX_SIZE : Z := 134217728.

Record Mapping := mkMapping { m_pid : Z; m_virt : Z }.
Record Shm := mkShm {
  id : Z; owner : Z; frames : list Z; holders : list Z; mappings : list Mapping }.

Section Ops.
Context {A F : Type} `{TableAllocator A} `{FrameAllocator F}.

Record State := mkState {
  objects : list Shm;
  next_id : Z;
  vm : Vmm.State A;
  pool : F;
  fmem : gmap Z Z;
  ps : PState }.

Definition set_objects (l : list Shm) (s : State) : State :=
  mkState l (next_id s) (vm s) (pool s) (fmem s) (ps s).
Definition set_vm (v : Vmm.State A) (s : State) : State :=
  mkState (objects s) (next_id s) v (pool s) (fmem s) (ps s).
Definition set_pool (f : F) (s : State) : State :=
  mkState (objects s) (next_id s) (vm s) f (fmem s) (ps s).
Definition set_ps (p : PState) (s : State) : State :=
  mkState (objects s) (next_id s) (vm s) (pool s) (fmem s) p.

Definition holds (p : Z) (o : Shm) : bool := existsb (Z.eqb p) (holders o).
Definition byte_size (o : Shm) : Z := Z.of_nat (length (frames o)) * PAGE_SIZE.

(** The caller: the current process and its address space, unless the kernel's is loaded. *)
Definition current_context (cpu : nat) (cr3 : Z) (s : State) : option (Z * Z) :=
  match current_user_pid cpu (ss (ps s)) with
  | Some p => if cr3 =? Vmm.kernel_pml4 (vm s) then None else Some (p, cr3)
  | None => None
  end.

(** * [create] *)

Definition free_frames (l : list Z) (f : F) : F := foldl (fun f a => fa_free a f) f l.

(** The [for _ in 0..pages] loop, each new frame zeroed; on failure the frames so
    far go back. *)
Fixpoint alloc_pages (n : nat) (acc : list Z) (f : F) (m : gmap Z Z) : option (list Z) * F * gmap Z Z :=
  match n with
  | O => (Some acc, f, m)
  | S n' =>
      match fa_alloc f with
      | (Some a, f') => alloc_pages n' (acc ++ [a]) f' (Thread.zero_region a PAGE_SIZE m)
      | (None, f') => (None, free_frames acc f', m)
      end
  end.

Definition create (cpu : nat) (size : Z) (s : State) : Z * State :=
  match current_user_pid cpu (ss (ps s)) with
  | None => (u64_max, s)
  | Some p =>
      if (size =? 0) || (MAX_SIZE <? size) then (u64_max, s)
      else match checked_add (next_id s) 1 with
      | None => (u64_max, s)
      | Some n =>
          let '(r, f, m) := alloc_pages (Z.to_nat (div_ceil size PAGE_SIZE)) [] (pool s) (fmem s) in
          match r with
          | None => (u64_max, mkState (objects s) n (vm s) f m (ps s))
          | Some l => (next_id s, mkState (objects s ++ [mkShm (next_id s) p l [p] []]) n (vm s) f m (ps s))
          end
      end
  end.

(** * [grant] *)

Definition add_holder (target : Z) (o : Shm) : Shm :=
  if holds target o then o else mkShm (id o) (owner o) (frames o) (holders o ++ [target]) (mappings o).

Definition grant (cpu : nat) (i target : Z) (s : State) : Z * State :=
  match current_user_pid cpu (ss (ps s)) with
  | None => (u64_max, s)
  | Some caller =>
      if (target =? 0) || negb (is_live target (ps s)) then (u64_max, s)
      else
        let sel o := (id o =? i) && (owner o =? caller) && holds caller o in
        match find_first sel (objects s) with
        | None => (u64_max, s)
        | Some _ => (0, set_objects (update_first sel (add_holder target) (objects s)) s)
        end
  end.

(** * [find_free_range] *)

(** The two nested loops over the mappings of [pid]: the largest end of a mapping
    that meets [candidate, stop), if any; [None] when an end overflows. *)
Fixpoint meet_mappings (l : list Mapping) (p size candidate stop : Z) (next : option Z) : option (option Z) :=
  match l with
  | [] => Some next
  | m :: l' =>
      if negb (m_pid m =? p) then meet_mappings l' p size candidate stop next
      else
        e ← checked_add (m_virt m) size;
        meet_mappings l' p size candidate stop
          (if (candidate <? e) && (m_virt m <? stop)
           then Some (match next with None => e | Some v => Z.max v e end) else next)
  end.

Fixpoint meet_objects (l : list Shm) (p candidate stop : Z) (next : option Z) : option (option Z) :=
  match l with
  | [] => Some next
  | o :: l' =>
      next' ← meet_mappings (mappings o) p (byte_size o) candidate stop next;
      meet_objects l' p candidate stop next'
  end.

(** Some page of the range is already mapped. *)
Definition any_mapped (cr3 candidate size : Z) (m : gmap Z Z) : bool :=
  existsb (fun k => bool_decide (is_Some (Vmm.translate cr3 (candidate + Z.of_nat k * PAGE_SIZE) m)))
          (seq 0 (Z.to_nat (div_ceil size PAGE_SIZE))).

(** One iteration of the [loop]: the result, or the next candidate. *)
Definition range_step (l : list Shm) (p cr3 size : Z) (m : gmap Z Z) (candidate : Z) : option Z + Z :=
  match checked_add candidate size with
  | None => inl None
  | Some stop =>
      if USER_SHM_LIMIT <? stop then inl None
      else match meet_objects l p candidate stop None with
      | None => inl None
      | Some (Some v) => inr v
      | Some None =>
          if any_mapped cr3 candidate size m then
            match checked_add candidate PAGE_SIZE with None => inl None | Some c => inr c end
          else inl (Some candidate)
      end
  end.

Definition find_free_range (l : list Shm) (p cr3 size : Z) (m : gmap Z Z) : option Z :=
  match loop (range_step l p cr3 size m) 37 USER_SHM_BASE with inl r => r | inr _ => None end.

(** * [map] *)

Definition SHM_FLAGS : Z := Vmm.no_execute Vmm.USER_READ_WRITE.

Fixpoint map_frames (l : list Z) (page cr3 virt : Z) (v : Vmm.State A) : bool * Vmm.State A :=
  match l with
  | [] => (true, v)
  | f :: l' =>
      match Vmm.map_page cr3 (virt + page * PAGE_SIZE) f SHM_FLAGS v with
      | (Ok _, v') => map_frames l' (page + 1) cr3 virt v'
      | (Err _, v') => (false, Vmm.unmap_range cr3 virt (page * PAGE_SIZE) v')
      end
  end.

Definition add_mapping (m : Mapping) (o : Shm) : Shm :=
  mkShm (id o) (owner o) (frames o) (holders o) (mappings o ++ [m]).

Definition map (cpu : nat) (cr3 i : Z) (s : State) : Z * State :=
  match current_context cpu cr3 s with
  | None => (u64_max, s)
  | Some (p, c) =>
      let sel o := (id o =? i) && holds p o in
      match find_first sel (objects s) with
      | None => (u64_max, s)
      | Some o =>
          match find_first (fun m => m_pid m =? p) (mappings o) with
          | Some m => (m_virt m, s)
          | None =>
              match find_free_range (objects s) p c (byte_size o) (Vmm.mem (vm s)) with
              | None => (u64_max, s)
              | Some virt =>
                  match map_frames (frames o) 0 c virt (vm s) with
                  | (false, v) => (u64_max, set_vm v s)
                  | (true, v) =>
                      let l := update_first sel (add_mapping (mkMapping p virt)) (objects s) in
                      (virt, set_ps (if byte_size o =? 0 then ps s else add_memory_bytes p (byte_size o) (ps s))
                               (set_objects l (set_vm v s)))
                  end
              end
          end
      end
  end.

(** * [unmap], [close], [cleanup_pid] *)

Definition drop_mapping (k : nat) (o : Shm) : Shm :=
  mkShm (id o) (owner o) (frames o) (holders o) (swap_remove k (mappings o)).

Definition unmap_holder (i p cr3 : Z) (s : State) : option Z * State :=
  match find_first (fun o => id o =? i) (objects s) with
  | None => (None, s)
  | Some o =>
      match position (fun m => m_pid m =? p) (mappings o) with
      | None => (None, s)
      | Some k =>
          let virt := match mappings o !! k with Some m => m_virt m | None => 0 end in
          (Some (byte_size o),
           set_objects (update_first (fun o => id o =? i) (drop_mapping k) (objects s))
             (set_vm (Vmm.unmap_range cr3 virt (byte_size o) (vm s)) s))
      end
  end.

Definition unmap (cpu : nat) (cr3 i : Z) (s : State) : Z * State :=
  match current_context cpu cr3 s with
  | None => (u64_max, s)
  | Some (p, c) =>
      if negb (live_thread_count p (ps s) =? 1) then (u64_max, s)
      else match unmap_holder i p c s with
      | (Some size, s') => (0, set_ps (sub_memory_bytes p size (ps s')) s')
      | (None, s') => (u64_max, s')
      end
  end.

Definition drop_holder (k : nat) (o : Shm) : Shm :=
  mkShm (id o) (owner o) (frames o) (swap_remove k (holders o)) (mappings o).

Definition account (p unmapped : Z) (s : State) : State :=
  if unmapped =? 0 then s else set_ps (sub_memory_bytes p unmapped (ps s)) s.

(** The object at [index] after the holder left: dropped when that was the last. *)
Definition leave (index : nat) (s : State) : list Z * State :=
  match objects s !! index with
  | Some o =>
      match holders o with
      | [] => (frames o, set_objects (swap_remove index (objects s)) s)
      | _ :: _ => ([], s)
      end
  | None => ([], s)
  end.

Definition close (cpu : nat) (cr3 i : Z) (s : State) : Z * State :=
  match current_context cpu cr3 s with
  | None => (u64_max, s)
  | Some (p, c) =>
      if negb (live_thread_count p (ps s) =? 1) then (u64_max, s)
      else match position (fun o => (id o =? i) && holds p o) (objects s) with
      | None => (u64_max, s)
      | Some index =>
          let '(u, s1) := unmap_holder i p c s in
          match objects s1 !! index with
          | None => (u64_max, s1)
          | Some o =>
              match position (Z.eqb p) (holders o) with
              | None => (u64_max, s1)
              | Some k =>
                  let s2 := set_objects (<[index := drop_holder k o]> (objects s1)) s1 in
                  let '(freed, s3) := leave index s2 in
                  let s4 := account p (default 0 u) s3 in
                  (0, set_pool (free_frames freed (pool s4)) s4)
              end
          end
      end
  end.

Definition drop_pid (p : Z) (o : Shm) : Shm :=
  mkShm (id o) (owner o) (frames o) (retain (fun h => negb (h =? p)) (holders o)) (mappings o).

(** The [while index < objects.len()] loop: every iteration visits one object, so
    as many iterations as objects. *)
Fixpoint cleanup_loop (n : nat) (index : nat) (p cr3 unmapped : Z) (freed : list Z) (s : State)
    : Z * list Z * State :=
  match n with
  | O => (unmapped, freed, s)
  | S n' =>
      match objects s !! index with
      | None => (unmapped, freed, s)
      | Some o =>
          let '(u, s1) := unmap_holder (id o) p cr3 s in
          let s2 := set_objects (alter (drop_pid p) index (objects s1)) s1 in
          let gone := match objects s2 !! index with Some o => bool_decide (holders o = []) | None => false end in
          let '(fr, s3) := leave index s2 in
          cleanup_loop n' (if gone then index else index + 1)%nat p cr3 (unmapped + default 0 u) (freed ++ fr) s3
      end
  end.

Definition cleanup_pid (p cr3 : Z) (s : State) : State :=
  let '(unmapped, freed, s1) := cleanup_loop (length (objects s)) 0 p cr3 0 [] s in
  let s2 := account p unmapped s1 in
  set_pool (free_frames freed (pool s2)) s2.
End Ops.
#[global] Arguments State A F : clear implicits.

(** * The search for a free range *)

(** The range of a mapping: whole pages inside the window. *)
Definition mapping_ok (o : Shm) (m : Mapping) : Prop :=
  USER_SHM_BASE <= m_virt m /\ m_virt m mod PAGE_SIZE = 0 /\ m_virt m + byte_size o <= USER_SHM_LIMIT.

Definition apart (a sa b sb : Z) : Prop := a + sa <= b \/ b + sb <= a.

(** No mapping of [p] meets [v, v + size), and none of its pages is mapped otherwise. *)
Definition free_at (l : list Shm) (p cr3 size : Z) (mem : gmap Z Z) (v : Z) : Prop :=
  (forall o m, o ∈ l -> m ∈ mappings o -> m_pid m = p -> apart v size (m_virt m) (byte_size o)) /\
  forall k, 0 <= k < div_ceil size PAGE_SIZE -> Vmm.translate cr3 (v + k * PAGE_SIZE) mem = None.

Definition pages (x : Z) : Prop := x mod PAGE_SIZE = 0.

Lemma byte_size_pages (o : Shm) : pages (byte_size o) /\ 0 <= byte_size o.
Proof. unfold byte_size, pages. split; [apply Z.mod_mul; done|]. unfold PAGE_SIZE. lia. Qed.

Lemma pages_add (x y : Z) : pages x -> pages y -> pages (x + y).
Proof. unfold pages. intros Hx Hy. by rewrite Zplus_mod, Hx, Hy. Qed.

Lemma limit_u64 : USER_SHM_LIMIT < u64_bound.
Proof. done. Qed.

Section Search.
Context (l : list Shm) (p cr3 size : Z) (mem : gmap Z Z).
Context (Hsize : 0 < size) (Hok : Forall (fun o => Forall (mapping_ok o) (mappings o)) l).

Notation meets v o m := (~ apart v size (m_virt m) (byte_size o)).

(** What [next] means while scanning: the end of a met mapping, aligned, that no
    range starting in [candidate, next) can avoid. *)
Definition blocked (c : Z) (next : option Z) : Prop :=
  forall v, next = Some v -> c < v /\ pages v /\
    exists o m, o ∈ l /\ m ∈ mappings o /\ m_pid m = p /\ m_virt m < c + size /\ v = m_virt m + byte_size o.

Lemma meet_mappings_spec (o : Shm) (ms : list Mapping) (c : Z) (next : option Z) :
  o ∈ l -> (forall m, m ∈ ms -> m ∈ mappings o) -> blocked c next ->
  exists r, meet_mappings ms p (byte_size o) c (c + size) next = Some r /\ blocked c r /\
    (r = None -> next = None /\ forall m, m ∈ ms -> m_pid m = p -> apart c size (m_virt m) (byte_size o)).
Proof using Hok.
  intros Ho. revert next. induction ms as [|m ms IH]; intros next Hin Hb; simpl.
  { exists next. split_and!; [done..|]. intros ->. split; [done|]. intros m Hm. by apply elem_of_nil in Hm. }
  assert (m ∈ mappings o) as Hm by (apply Hin; left).
  assert (forall m, m ∈ ms -> m ∈ mappings o) as Hin' by (intros; apply Hin; by right).
  destruct (m_pid m =? p) eqn:Hp; zbool; simpl.
  2:{ destruct (IH next Hin' Hb) as (r & -> & Hr & Hn). exists r. split_and!; [done..|].
      intros Hr0. destruct (Hn Hr0) as [-> Ha]. split; [done|]. intros m' [->|?]%elem_of_cons ?; [done|by apply Ha]. }
  rewrite Forall_forall in Hok. pose proof (Hok o Ho) as Hoo. rewrite Forall_forall in Hoo.
  destruct (Hoo m Hm) as (Hm1 & Hm2 & Hm3). destruct (byte_size_pages o) as [Hbp Hb0].
  assert (checked_add (m_virt m) (byte_size o) = Some (m_virt m + byte_size o)) as ->.
  { apply checked_add_Some. split; [done|]. pose proof limit_u64. lia. }
  simpl. set (e := m_virt m + byte_size o).
  destruct (_ && _) eqn:Hc; zbool.
  - destruct (IH (Some (match next with None => e | Some v => Z.max v e end)) Hin') as (r & -> & Hr & Hn).
    { intros v [= <-].
      assert (blocked c (Some e)) as Hbe.
      { intros ? [= <-]. split_and!; [done|by apply pages_add|]. by exists o, m. }
      destruct next as [w|]; [|by apply Hbe].
      destruct (Z.max_spec w e) as [[_ ->]|[_ ->]]; [by apply Hbe|by apply Hb]. }
    exists r. split_and!; [done..|]. intros Hr0. by destruct (Hn Hr0).
  - destruct (IH next Hin' Hb) as (r & -> & Hr & Hn). exists r. split_and!; [done..|].
    intros Hr0. destruct (Hn Hr0) as [-> Ha]. split; [done|].
    intros m' [->|?]%elem_of_cons ?; [|by apply Ha]. unfold apart. apply andb_false_iff in Hc. fold e.
    destruct Hc as [Hc|Hc]; zbool; lia.
Qed.

Lemma meet_objects_spec (os : list Shm) (c : Z) (next : option Z) :
  (forall o, o ∈ os -> o ∈ l) -> blocked c next ->
  exists r, meet_objects os p c (c + size) next = Some r /\ blocked c r /\
    (r = None -> next = None /\ forall o m, o ∈ os -> m ∈ mappings o -> m_pid m = p ->
                                            apart c size (m_virt m) (byte_size o)).
Proof using Hok.
  revert next. induction os as [|o os IH]; intros next Hin Hb; simpl.
  { exists next. split_and!; [done..|]. intros ->. split; [done|]. intros o m Ho. by apply elem_of_nil in Ho. }
  destruct (meet_mappings_spec o (mappings o) c next) as (r1 & -> & Hr1 & Hn1); [apply Hin; left|done|done|].
  simpl. destruct (IH r1) as (r & -> & Hr & Hn); [intros; apply Hin; by right|done|].
  exists r. split_and!; [done..|]. intros Hr0. destruct (Hn Hr0) as [-> Ha]. destruct (Hn1 eq_refl) as [-> Ha1].
  split; [done|]. intros o' m [->|?]%elem_of_cons ??; [by apply Ha1|by apply (Ha o')].
Qed.

Lemma any_mapped_spec (c : Z) :
  any_mapped cr3 c size mem = false <->
  forall k, 0 <= k < div_ceil size PAGE_SIZE -> Vmm.translate cr3 (c + k * PAGE_SIZE) mem = None.
Proof using Hsize.
  unfold any_mapped. set (n := div_ceil size PAGE_SIZE).
  assert (0 <= n) by (apply div_ceil_nonneg; [lia|done]).
  rewrite <- not_true_iff_false, existsb_exists. split.
  - intros Hne k Hk. apply eq_None_not_Some. intros Hs. apply Hne. exists (Z.to_nat k). split.
    + apply in_seq. lia.
    + rewrite Z2Nat.id by lia. by apply bool_decide_eq_true_2.
  - intros Hall (k & Hk%in_seq & Hs%bool_decide_eq_true). rewrite Hall in Hs by lia. by destruct Hs.
Qed.

(** One iteration: no aligned start below the next candidate is free. *)
Definition tried (c : Z) : Prop :=
  USER_SHM_BASE <= c /\ pages c /\
  forall w, USER_SHM_BASE <= w < c -> pages w -> ~ free_at l p cr3 size mem w.

Lemma meets_block (c v w : Z) :
  blocked c (Some v) -> c <= w < v -> ~ free_at l p cr3 size mem w.
Proof using Hsize.
  intros Hb Hw [Hf _]. destruct (Hb v eq_refl) as (_ & _ & o & m & Ho & Hm & Hp & Hlt & ->).
  destruct (Hf o m Ho Hm Hp) as [?|?]; lia.
Qed.

Lemma pages_next (c w : Z) : pages c -> pages w -> c < w -> c + PAGE_SIZE <= w.
Proof. unfold pages, PAGE_SIZE. intros Hc Hw Hlt. pose proof (Z.div_mod c 4096). pose proof (Z.div_mod w 4096). lia. Qed.

Lemma range_step_spec (c : Z) :
  tried c ->
  match range_step l p cr3 size mem c with
  | inr v => c < v /\ c <= USER_SHM_LIMIT /\ tried v
  | inl (Some v) => v = c /\ c + size <= USER_SHM_LIMIT /\ free_at l p cr3 size mem c
  | inl None => USER_SHM_LIMIT < c + size
  end.
Proof using Hsize Hok.
  intros (Hc0 & Hc1 & Hc2). unfold range_step.
  destruct (checked_add c size) as [stop|] eqn:Hs.
  2:{ unfold checked_add in Hs. split_ifs. pose proof limit_u64. lia. }
  apply checked_add_Some in Hs as [-> Hs]. destruct (Z.ltb_spec USER_SHM_LIMIT (c + size)); [done|].
  destruct (meet_objects_spec l c None) as (r & -> & Hb & Hn); [done|done|].
  destruct r as [v|].
  - destruct (Hb v eq_refl) as (Hv1 & Hv2 & _). split_and!; [done|lia|]. split_and!; [lia|done|].
    intros w Hw Hwp. destruct (decide (w < c)); [by apply Hc2; [lia|]|]. apply (meets_block c v); [done|lia].
  - destruct (Hn eq_refl) as [_ Ha]. destruct (any_mapped cr3 c size mem) eqn:Hm.
    + assert (checked_add c PAGE_SIZE = Some (c + PAGE_SIZE)) as ->.
      { apply checked_add_Some. split; [done|]. unfold USER_SHM_LIMIT, PAGE_SIZE in *. rewrite u64_bound_val. lia. }
      split_and!; [unfold PAGE_SIZE; lia|lia|]. split_and!; [unfold PAGE_SIZE; lia|by apply pages_add|].
      intros w Hw Hwp. destruct (decide (w < c)); [by apply Hc2; [lia|]|].
      destruct (decide (w = c)) as [->|]; [|pose proof (pages_next c w Hc1 Hwp ltac:(lia)); lia].
      intros [_ Hf]. apply any_mapped_spec in Hf. congruence.
    + split_and!; [done|lia|]. split; [by apply Ha|]. by apply any_mapped_spec.
Qed.

Lemma tried_base : tried USER_SHM_BASE.
Proof. split_and!; [lia|done|]. intros w Hw. lia. Qed.

Lemma range_step_tried (c c' : Z) : tried c -> range_step l p cr3 size mem c = inr c' -> tried c'.
Proof using Hsize Hok. intros Hc E. pose proof (range_step_spec c Hc) as Hs. rewrite E in Hs. by destruct Hs as (_ & _ & ?). Qed.

Lemma range_loop_stops : exists r, loop (range_step l p cr3 size mem) 37 USER_SHM_BASE = inl r.
Proof using Hsize Hok.
  apply (loop_terminates _ tried range_step_tried (fun c => Z.max 0 (USER_SHM_LIMIT + 1 - c))).
  - intros c c' Hc E. pose proof (range_step_spec c Hc) as Hs. rewrite E in Hs. lia.
  - lia.
  - apply tried_base.
  - vm_compute. reflexivity.
Qed.
End Search.

Lemma find_free_range_meets (l : list Shm) (p cr3 size : Z) (mem : gmap Z Z) :
  0 < size -> Forall (fun o => Forall (mapping_ok o) (mappings o)) l ->
  (exists r, loop (range_step l p cr3 size mem) 37 USER_SHM_BASE = inl r) /\
  match find_free_range l p cr3 size mem with
  | Some v =>
      USER_SHM_BASE <= v /\ pages v /\ v + size <= USER_SHM_LIMIT /\ free_at l p cr3 size mem v /\
      forall w, USER_SHM_BASE <= w < v -> pages w -> ~ free_at l p cr3 size mem w
  | None =>
      forall w, USER_SHM_BASE <= w -> w + size <= USER_SHM_LIMIT -> pages w -> ~ free_at l p cr3 size mem w
  end.
Proof.
  intros Hs Hok. destruct (range_loop_stops l p cr3 size mem Hs Hok) as [r Hr].
  split; [by exists r|]. unfold find_free_range. rewrite Hr.
  destruct (loop_result _ (tried l p cr3 size mem) (range_step_tried l p cr3 size mem Hs Hok)
              37 USER_SHM_BASE r (tried_base l p cr3 size mem) Hr) as (c & Hc & E).
  pose proof (range_step_spec l p cr3 size mem Hs Hok c Hc) as Hspec. rewrite E in Hspec.
  destruct Hc as (Hc0 & Hc1 & Hc2). destruct r as [v|].
  - destruct Hspec as (-> & ? & ?). by split_and!.
  - intros w Hw Hw2 Hwp. apply Hc2; [lia|done].
Qed.

(** The search for a shared-memory range terminates and is first fit.
    For every table of page-aligned mappings and every page-table state, the
    [loop] of [find_free_range] stops (within the [2^37] iterations the model
    allows), and returns the lowest page-aligned address of the window at which
    [size] bytes meet no mapping of the process and no mapped page; it reports
    failure only when the window has no such address. *)
Theorem find_free_range_spec (l : list Shm) (p cr3 size : Z) (mem : gmap Z Z) :
  0 < size -> Forall (fun o => Forall (mapping_ok o) (mappings o)) l ->
  (exists r, loop (range_step l p cr3 size mem) 37 USER_SHM_BASE = inl r) /\
  match find_free_range l p cr3 size mem with
  | Some v =>
      USER_SHM_BASE <= v /\ pages v /\ v + size <= USER_SHM_LIMIT /\ free_at l p cr3 size mem v /\
      forall w, USER_SHM_BASE <= w < v -> pages w -> ~ free_at l p cr3 size mem w
  | None =>
      forall w, USER_SHM_BASE <= w -> w + size <= USER_SHM_LIMIT -> pages w -> ~ free_at l p cr3 size mem w
  end.
Proof. apply find_free_range_meets. Qed.

(** * The object table *)

Record obj_ok (o : Shm) : Prop := {
  ok_frames : frames o <> [];
  ok_holders : NoDup (holders o);
  ok_pids : NoDup (m_pid <$> mappings o);
  ok_held m : m ∈ mappings o -> m_pid m ∈ holders o;
  ok_ranges : Forall (mapping_ok o) (mappings o) }.

(** Mappings of one process in different objects are apart. *)
Definition disjoint_ranges (o o' : Shm) : Prop :=
  forall m m', m ∈ mappings o -> m' ∈ mappings o' -> m_pid m = m_pid m' ->
    apart (m_virt m) (byte_size o) (m_virt m') (byte_size o').

Section Inv.
Context {A F : Type} `{TableAllocator A} `{FrameAllocator F} `{!FrameAllocatorLaws F}.
Implicit Types (s : State A F) (l : list Shm) (o : Shm).

Notation frames_of l := (l ≫= frames).

Record table_ok (n : Z) (l : list Shm) : Prop := {
  tb_ids : NoDup (id <$> l);
  tb_next : Forall (fun o => id o < n) l;
  tb_objs : Forall obj_ok l;
  tb_frames : NoDup (frames_of l);
  tb_apart o o' : o ∈ l -> o' ∈ l -> id o <> id o' -> disjoint_ranges o o' }.

(** The table is well formed, every object has a holder, and the frames of all
    objects are in use. *)
Record inv (s : State A F) : Prop := {
  inv_table : table_ok (next_id s) (objects s);
  inv_holders : Forall (fun o => holders o <> []) (objects s);
  inv_pool : fa_wf (pool s);
  inv_used a : a ∈ frames_of (objects s) -> fa_used (pool s) a }.

Lemma holds_elem (p : Z) o : holds p o = true <-> p ∈ holders o.
Proof.
  unfold holds. rewrite existsb_exists, list_elem_of_In. setoid_rewrite Z.eqb_eq. naive_solver.
Qed.

(** ** Changing one object in place *)

Lemma disjoint_sym o o' : disjoint_ranges o o' -> disjoint_ranges o' o.
Proof. intros Hd m m' Hm Hm' Hp. destruct (Hd m' m Hm' Hm (eq_sym Hp)); unfold apart; lia. Qed.

Lemma elem_of_table_insert l (i : nat) o o' x :
  NoDup (id <$> l) -> l !! i = Some o -> x ∈ <[i := o']> l -> x = o' \/ (x ∈ l /\ id x <> id o).
Proof.
  intros Hnd Hi (j & Hj)%list_elem_of_lookup. pose proof (lookup_lt_Some _ _ _ Hi).
  destruct (decide (i = j)) as [->|Hne]; [rewrite list_lookup_insert_eq in Hj by done; left; congruence|].
  rewrite list_lookup_insert_ne in Hj by done. right. split; [by apply (list_elem_of_lookup_2 _ j)|].
  intros He. apply Hne. apply (NoDup_lookup _ i j (id o) Hnd); rewrite list_lookup_fmap, ?Hi, ?Hj; simpl; congruence.
Qed.

Lemma frames_insert l (i : nat) o o' :
  l !! i = Some o -> frames o' = frames o -> frames_of (<[i := o']> l) = frames_of l.
Proof.
  intros Hl Hf. rewrite <- (take_drop_middle l i o Hl) at 2. rewrite insert_take_drop by by eapply lookup_lt_Some.
  by rewrite !bind_app, !bind_cons, Hf.
Qed.

Lemma table_insert (n : Z) l (i : nat) o o' :
  table_ok n l -> l !! i = Some o ->
  id o' = id o -> frames o' = frames o -> obj_ok o' ->
  (forall x, x ∈ l -> id x <> id o -> disjoint_ranges o' x) ->
  table_ok n (<[i := o']> l).
Proof.
  intros [Hi Hn Ho Hfr Hap] Hl Hid Hf Hok Hd. pose proof (list_elem_of_lookup_2 _ _ _ Hl) as Hin.
  rewrite Forall_forall in Hn, Ho. pose proof (elem_of_table_insert l i o o') as Hel.
  split.
  - rewrite list_fmap_insert, Hid, list_insert_id; [done|]. by rewrite list_lookup_fmap, Hl.
  - apply Forall_forall. intros x [->|[? _]]%Hel; [rewrite Hid|..]; auto.
  - apply Forall_forall. intros x [->|[? _]]%Hel; auto.
  - by rewrite (frames_insert l i o o').
  - intros x y [->|[Hx Hxn]]%Hel [->|[Hy Hyn]]%Hel Hne; try done; auto. apply disjoint_sym. auto.
Qed.

Lemma update_first_insert (P : Shm -> bool) f l o :
  find_first P l = Some o ->
  exists i, position P l = Some i /\ l !! i = Some o /\ P o = true /\ update_first P f l = <[i := f o]> l.
Proof.
  induction l as [|x l IH]; simpl; [done|]. destruct (P x) eqn:Hx.
  - intros [= ->]. by exists 0%nat.
  - intros (i & -> & Hi & HP & ->)%IH. by exists (S i).
Qed.

Lemma holders_insert l (i : nat) o' :
  Forall (fun o => holders o <> []) l -> holders o' <> [] -> Forall (fun o => holders o <> []) (<[i := o']> l).
Proof. intros. by apply Forall_insert. Qed.

(** ** Removing objects *)

Lemma table_swap_remove (n : Z) l (i : nat) o :
  table_ok n l -> l !! i = Some o -> table_ok n (swap_remove i l).
Proof.
  intros [Hi Hn Ho Hfr Hap] Hl. pose proof (swap_remove_perm i l o Hl) as Hp.
  assert (forall x, x ∈ swap_remove i l -> x ∈ l) as Hsub by (intros x Hx; rewrite Hp; by right).
  rewrite Forall_forall in Hn, Ho. split.
  - rewrite Hp in Hi. by apply NoDup_cons in Hi as [_ ?].
  - apply Forall_forall. auto.
  - apply Forall_forall. auto.
  - rewrite Hp, bind_cons in Hfr. by apply NoDup_app in Hfr as (_ & _ & ?).
  - intros. apply Hap; auto.
Qed.
End Inv.

Section Keep.
Context {A F : Type} `{TableAllocator A} `{FrameAllocator F} `{!FrameAllocatorLaws F}.
Implicit Types (s : State A F) (l : list Shm) (o : Shm).
Notation frames_of l := (l ≫= frames).

(** ** Frames *)

Lemma free_frames_spec (l : list Z) (f : F) :
  fa_wf f -> NoDup l -> (forall a, a ∈ l -> fa_used f a) ->
  fa_wf (free_frames l f) /\ forall b, fa_used (free_frames l f) b <-> b ∉ l /\ fa_used f b.
Proof using All.
  intros Hw Hnd. revert f Hw. unfold free_frames.
  induction Hnd as [|a l Ha Hnd IH]; intros f Hw Hu; simpl; [set_solver|].
  destruct (fa_free_used f a Hw) as [Hw' Hu']; [set_solver|].
  destruct (IH (fa_free a f) Hw') as [Hw2 Hu2].
  - intros b Hb. apply Hu'. set_solver.
  - split; [done|]. intros b. rewrite Hu2, Hu', not_elem_of_cons. tauto.
Qed.

Lemma alloc_pages_spec (n : nat) (acc : list Z) (f0 f : F) (m : gmap Z Z) :
  fa_wf f -> NoDup acc -> (forall a, a ∈ acc -> ~ fa_used f0 a) ->
  (forall b, fa_used f b <-> b ∈ acc \/ fa_used f0 b) ->
  let '(r, f', _) := alloc_pages n acc f m in
  fa_wf f' /\
  match r with
  | Some l => NoDup l /\ length l = (length acc + n)%nat /\ (forall a, a ∈ l -> ~ fa_used f0 a) /\
              forall b, fa_used f' b <-> b ∈ l \/ fa_used f0 b
  | None => forall b, fa_used f' b <-> fa_used f0 b
  end.
Proof using All.
  revert acc f m. induction n as [|n IH]; intros acc f m Hw Hnd Hd Hu; simpl.
  { split_and!; [done|done|lia|done|done]. }
  destruct (fa_alloc f) as [[a|] f'] eqn:E.
  - destruct (fa_alloc_Some f f' a Hw E) as (Hw' & _ & _ & Hn & Hu').
    rewrite Hu in Hn.
    specialize (IH (acc ++ [a]) f' (Thread.zero_region a PAGE_SIZE m) Hw').
    destruct (alloc_pages n (acc ++ [a]) f' _) as [[r f''] m'']. destruct IH as [Hw'' Hr].
    + apply NoDup_app. split; [done|]. split; [set_solver|apply NoDup_singleton].
    + intros b [?| ->%list_elem_of_singleton]%elem_of_app; [by apply Hd|tauto].
    + intros b. rewrite Hu', Hu, elem_of_app, list_elem_of_singleton. tauto.
    + split; [done|]. destruct r as [l|]; [|done]. destruct Hr as (? & Hl & ? & ?).
      rewrite length_app in Hl. simpl in Hl. split_and!; [done|lia|done|done].
  - rewrite (fa_alloc_None f f' Hw E).
    destruct (free_frames_spec acc f Hw Hnd) as [Hw' Hu']; [intros; apply Hu; auto|].
    split; [done|]. intros b. rewrite Hu', Hu. split; [tauto|]. intros Hb. split; [|auto].
    intros Hin. by apply (Hd b).
Qed.

Lemma div_ceil_pos (x : Z) : 0 < x -> (0 < Z.to_nat (div_ceil x PAGE_SIZE))%nat.
Proof. intros Hx. destruct (div_ceil_spec x PAGE_SIZE) as [Hd _]; [lia|done|]. unfold PAGE_SIZE in *. lia. Qed.

Lemma shm_create_inv (cpu : nat) (size : Z) s : 0 <= size -> inv s -> inv (create cpu size s).2.
Proof using All.
  intros Hsz Hs. pose proof Hs as [[Hi Hn Ho Hf Ha] Hh Hp Hu]. unfold create.
  destruct (Scheduler.Scheduler.current_user_pid cpu (ss (ps s))) as [p|]; [|done].
  destruct ((size =? 0) || (MAX_SIZE <? size)) eqn:Hz; [done|]. zbool.
  destruct (checked_add (next_id s) 1) as [n|] eqn:Hc; [|done]. apply checked_add_Some in Hc as [-> _].
  pose proof (alloc_pages_spec (Z.to_nat (div_ceil size PAGE_SIZE)) [] (pool s) (pool s) (fmem s) Hp) as Hal.
  destruct (alloc_pages _ [] (pool s) (fmem s)) as [[r f] m].
  destruct Hal as [Hw Hr]; [constructor|set_solver|set_solver|].
  assert (Forall (fun o => id o < next_id s + 1) (objects s)) as Hn'.
  { eapply Forall_impl; [exact Hn|]. simpl. lia. }
  destruct r as [l|]; simpl.
  2:{ split; simpl; [by split|done|done|]. intros a Hin. apply Hr, Hu, Hin. }
  destruct Hr as (Hnd & Hlen & Hd & Hu'). pose proof (div_ceil_pos size ltac:(lia)) as Hpos.
  rewrite Forall_forall in Hn. split; simpl; [split| |done|].
  - rewrite fmap_app. apply NoDup_app. split_and!; [done| |apply NoDup_singleton].
    intros x (o & -> & Hin)%list_elem_of_fmap Hx%list_elem_of_singleton. specialize (Hn o Hin). simpl in *. lia.
  - apply Forall_app. split; [done|]. repeat constructor. simpl. lia.
  - apply Forall_app. split; [done|]. apply Forall_singleton. split; cbn [frames holders mappings].
    + intros ->. simpl in Hlen. lia.
    + apply NoDup_singleton.
    + constructor.
    + intros m0 Hm0. by apply elem_of_nil in Hm0.
    + constructor.
  - rewrite bind_app. simpl. rewrite app_nil_r. apply NoDup_app. split_and!; [done| |done].
    intros a Ha1 Ha2. apply (Hd a Ha2). by apply Hu.
  - intros o o' [Hx| ->%list_elem_of_singleton]%elem_of_app [Hy| ->%list_elem_of_singleton]%elem_of_app Hne.
    + by apply Ha.
    + intros m1 m2 _ Hm2. by apply elem_of_nil in Hm2.
    + intros m1 m2 Hm1. by apply elem_of_nil in Hm1.
    + done.
  - apply Forall_app. split; [done|]. by repeat constructor.
  - intros a. rewrite bind_app. simpl. rewrite app_nil_r, elem_of_app. intros [Hin|Hin]; apply Hu'; auto.
Qed.

(** ** In-place steps *)

Lemma inv_insert s (i : nat) o o' :
  inv s -> objects s !! i = Some o ->
  id o' = id o -> frames o' = frames o -> obj_ok o' -> holders o' <> [] ->
  (forall x, x ∈ objects s -> id x <> id o -> disjoint_ranges o' x) ->
  inv (set_objects (<[i := o']> (objects s)) s).
Proof using All.
  intros [Ht Hh Hp Hu] Hi Hid Hf Hok Hne Hd. split; simpl; [|by apply holders_insert|done|].
  - by apply (table_insert _ _ _ o).
  - intros a. rewrite (frames_insert _ _ o) by done. apply Hu.
Qed.

Lemma inv_obj s o : inv s -> o ∈ objects s -> obj_ok o /\ holders o <> [].
Proof using All. intros [[] Hh _ _] Ho. rewrite !Forall_forall in *. auto. Qed.

Lemma shm_inv_apart s o x : inv s -> o ∈ objects s -> x ∈ objects s -> id x <> id o -> disjoint_ranges o x.
Proof using All. intros [[] _ _ _] Ho Hx Hne. by apply tb_apart0. Qed.

(** Fewer mappings stay apart. *)
Lemma disjoint_fewer o o' x :
  frames o' = frames o -> (forall m, m ∈ mappings o' -> m ∈ mappings o) -> disjoint_ranges o x -> disjoint_ranges o' x.
Proof. intros Hf Hm Hd m m' H1 H2 Hp. unfold byte_size. rewrite Hf. apply Hd; auto. Qed.

Lemma grant_inv (cpu : nat) (i target : Z) s : inv s -> inv (grant cpu i target s).2.
Proof using All.
  intros Hs. unfold grant. destruct (Scheduler.Scheduler.current_user_pid _ _) as [c|]; [|done].
  destruct (_ || _); [done|].
  destruct (find_first _ (objects s)) as [o|] eqn:Hf; [|done]. simpl.
  destruct (update_first_insert _ (add_holder target) _ _ Hf) as (k & _ & Hk & _ & ->).
  pose proof (list_elem_of_lookup_2 _ _ _ Hk) as Hin. destruct (inv_obj s o Hs Hin) as [Hok Hne].
  unfold add_holder. destruct (holds target o) eqn:Hh; (eapply inv_insert; [done|exact Hk|..]); try done.
  - intros x Hx Hd. by apply (shm_inv_apart s).
  - destruct Hok as [K1 K2 K3 K4 K5]. split; simpl; try done.
    + apply NoDup_app. split_and!; [done| |apply NoDup_singleton].
      intros x Hx ->%list_elem_of_singleton. apply holds_elem in Hx. congruence.
    + intros m Hm. apply elem_of_app. left. auto.
  - simpl. by destruct (holders o).
  - intros x Hx Hd. apply (disjoint_fewer o); [done|done|by apply (shm_inv_apart s)].
Qed.

Lemma swap_remove_sub {B} (k : nat) (l : list B) x y : l !! k = Some x -> y ∈ swap_remove k l -> y ∈ l.
Proof. intros Hk Hy. rewrite (elem_of_swap_remove k l x y Hk). by right. Qed.

Lemma drop_mapping_ok (k : nat) o m : mappings o !! k = Some m -> obj_ok o -> obj_ok (drop_mapping k o).
Proof.
  intros Hk [H1 H2 H3 H4 H5]. pose proof (swap_remove_perm k _ _ Hk) as Hp. split; simpl; try done.
  - rewrite Hp in H3. by apply NoDup_cons in H3 as [_ ?].
  - intros x Hx. apply H4. by apply (swap_remove_sub k _ m).
  - rewrite Forall_forall in *. intros x Hx. apply H5. by apply (swap_remove_sub k _ m).
Qed.

(** [unmap_holder]: the one mapping of [p] in object [i] goes, and nothing else. *)
Lemma unmap_holder_shape (i p cr3 : Z) s :
  (unmap_holder i p cr3 s).2 = s \/
  exists j o k m, objects s !! j = Some o /\ id o = i /\ mappings o !! k = Some m /\ m_pid m = p /\
    unmap_holder i p cr3 s =
      (Some (byte_size o), set_objects (<[j := drop_mapping k o]> (objects s))
                             (set_vm (Vmm.unmap_range cr3 (m_virt m) (byte_size o) (vm s)) s)).
Proof.
  unfold unmap_holder. destruct (find_first _ _) as [o|] eqn:Hf; [|by left].
  destruct (position _ _) as [k|] eqn:Hp; [|by left]. right.
  apply position_Some in Hp as (m & Hm & Hpm & _). zbool.
  destruct (update_first_insert _ (drop_mapping k) _ _ Hf) as (j & _ & Hj & Hid & ->). zbool.
  exists j, o, k, m. by rewrite Hm.
Qed.

Lemma inv_set_vm s v : inv s -> inv (set_vm v s).
Proof. by intros [? ? ? ?]. Qed.
Lemma inv_set_ps s p : inv s -> inv (set_ps p s).
Proof. by intros [? ? ? ?]. Qed.

Lemma unmap_holder_inv (i p cr3 : Z) s : inv s -> inv (unmap_holder i p cr3 s).2.
Proof using All.
  intros Hs. destruct (unmap_holder_shape i p cr3 s) as [->|(j & o & k & m & Hj & Hi & Hk & Hm & ->)]; [done|].
  simpl. pose proof (list_elem_of_lookup_2 _ _ _ Hj) as Hin. destruct (inv_obj s o Hs Hin) as [Hok Hne].
  apply (inv_insert (set_vm _ s) j o); try done; [by apply inv_set_vm|by apply (drop_mapping_ok k o m)|].
  intros x Hx Hd. apply (disjoint_fewer o); [done|intros y; by apply (swap_remove_sub k _ m)|by apply (shm_inv_apart s)].
Qed.

Lemma map_inv (cpu : nat) (cr3 i : Z) s : inv s -> inv (map cpu cr3 i s).2.
Proof using All.
  intros Hs. unfold map. destruct (current_context _ _ _) as [[p c]|]; [|done].
  destruct (find_first _ (objects s)) as [o|] eqn:Hf; [|done].
  destruct (find_first _ (mappings o)) as [m|] eqn:Hm; [done|].
  destruct (find_free_range _ _ _ _ _) as [virt|] eqn:Hr; [|done].
  destruct (map_frames _ _ _ _ _) as [[|] v]; [|by apply inv_set_vm]. simpl. apply inv_set_ps.
  destruct (update_first_insert _ (add_mapping (mkMapping p virt)) _ _ Hf) as (k & _ & Hk & HP & ->). zbool.
  pose proof (list_elem_of_lookup_2 _ _ _ Hk) as Hin. destruct (inv_obj s o Hs Hin) as [Hok Hne].
  pose proof Hs as [[_ _ Hobjs _ _] _ _ _].
  destruct (find_free_range_meets (objects s) p c (byte_size o) (Vmm.mem (vm s))) as [_ Hfree].
  { destruct Hok. unfold byte_size, PAGE_SIZE. destruct (frames o); [done|]. simpl. lia. }
  { eapply Forall_impl; [exact Hobjs|]. by intros ? []. }
  rewrite Hr in Hfree. destruct Hfree as (Hb & Hpg & Hlim & [Hap _] & _).
  apply (inv_insert (set_vm v s) k o); try done; [by apply inv_set_vm|..].
  - destruct Hok as [K1 K2 K3 K4 K5]. split; simpl; try done.
    + rewrite fmap_app. apply NoDup_app. split_and!; [done| |apply NoDup_singleton].
      intros x (y & -> & Hy)%list_elem_of_fmap He%list_elem_of_singleton. simpl in He.
      rewrite find_first_None in Hm. specialize (Hm y Hy). zbool. done.
    + intros x [?| ->%list_elem_of_singleton]%elem_of_app; [by apply K4|]. simpl. by apply holds_elem.
    + apply Forall_app. split; [done|]. by repeat constructor.
  - intros x Hx Hd m1 m2 [Hm1| ->%list_elem_of_singleton]%elem_of_app Hm2 Hp; simpl in *.
    + by apply (shm_inv_apart s o x).
    + apply (Hap x m2); [done|done|congruence].
Qed.
End Keep.

(** ** Holders leave *)

Section Leave.
Context {A F : Type} `{TableAllocator A} `{FrameAllocator F} `{!FrameAllocatorLaws F}.
Implicit Types (s : State A F) (l : list Shm) (o : Shm).
Notation frames_of l := (l ≫= frames).

(** [o] after its mapping of [p] went. *)
Record unmapped (p : Z) (o o' : Shm) : Prop := {
  um_id : id o' = id o; um_owner : owner o' = owner o; um_frames : frames o' = frames o;
  um_holders : holders o' = holders o;
  um_maps m : m ∈ mappings o' <-> m ∈ mappings o /\ m_pid m <> p }.

Lemma first_of_id l (i : nat) o :
  NoDup (id <$> l) -> l !! i = Some o -> position (fun x => id x =? id o) l = Some i.
Proof.
  intros Hnd Hi. apply position_Some. exists o. split_and!; [done|by apply Z.eqb_refl|].
  intros j y Hj Hy. apply Z.eqb_neq. intros He.
  assert (j = i); [|lia]. apply (NoDup_lookup _ j i (id o) Hnd); rewrite list_lookup_fmap, ?Hi, ?Hy; simpl; congruence.
Qed.

Lemma unmap_holder_at (p cr3 : Z) s (i : nat) o :
  inv s -> objects s !! i = Some o ->
  exists o1, unmapped p o o1 /\ objects (unmap_holder (id o) p cr3 s).2 = <[i := o1]> (objects s) /\
             pool (unmap_holder (id o) p cr3 s).2 = pool s /\ obj_ok o1.
Proof using All.
  intros Hs Hi. pose proof (list_elem_of_lookup_2 _ _ _ Hi) as Hin. destruct (inv_obj s o Hs Hin) as [Hok _].
  pose proof Hs as [[Hnd _ _ _ _] _ _ _]. pose proof (first_of_id _ _ _ Hnd Hi) as Hpos.
  unfold unmap_holder.
  assert (find_first (fun x => id x =? id o) (objects s) = Some o) as Hf by by rewrite find_first_position, Hpos.
  rewrite Hf. destruct (position (fun m => m_pid m =? p) (mappings o)) as [k|] eqn:Hk.
  - destruct (update_first_insert _ (drop_mapping k) _ _ Hf) as (j & Hj & _ & _ & ->).
    rewrite Hpos in Hj. injection Hj as <-.
    apply position_Some in Hk as (m & Hm & Hp & _). zbool. exists (drop_mapping k o). simpl.
    split; [|split_and!; [done|done|by apply (drop_mapping_ok k o m)]].
    split; [done..|]. intros x. simpl. destruct Hok as [_ _ Hpids _ _].
    pose proof (swap_remove_perm k _ _ Hm) as Hperm. rewrite Hperm in Hpids. simpl in Hpids.
    apply NoDup_cons in Hpids as [Hn _]. rewrite (elem_of_swap_remove k _ m x Hm). split.
    + intros Hx. split; [by right|]. intros He. apply Hn. rewrite Hp, <- He. by apply list_elem_of_fmap_2.
    + intros [[->|Hx] Hne]; done.
  - rewrite position_None in Hk. exists o. simpl. split; [|split_and!; [by rewrite list_insert_id|done|done]].
    split; [done..|]. intros x. split; [|by intros [? _]]. intros Hx. split; [done|]. specialize (Hk x Hx). by zbool.
Qed.

(** A list that loses elements of the table. *)
Definition sub_holders (hs : list Z) (o : Shm) : Shm := mkShm (id o) (owner o) (frames o) hs (mappings o).

Lemma sub_holders_ok (hs : list Z) o :
  obj_ok o -> NoDup hs -> (forall m, m ∈ mappings o -> m_pid m ∈ hs) -> obj_ok (sub_holders hs o).
Proof. intros [K1 K2 K3 K4 K5] ??. by split. Qed.

(** The departure of a holder at [i]: the object stays, or its frames are handed over
    and it goes, with all of the table in order. *)
Lemma depart s (i : nat) o (hs : list Z) :
  inv s -> objects s !! i = Some o -> NoDup hs -> (forall m, m ∈ mappings o -> m_pid m ∈ hs) ->
  let '(fr, s') := leave i (set_objects (<[i := sub_holders hs o]> (objects s)) s) in
  inv s' /\ pool s' = pool s /\
  fr = (if decide (hs = []) then frames o else []) /\
  objects s' = (if decide (hs = []) then swap_remove i (<[i := sub_holders hs o]> (objects s))
                else <[i := sub_holders hs o]> (objects s)) /\
  NoDup fr /\ (forall a, a ∈ fr -> fa_used (pool s) a /\ a ∉ frames_of (objects s')).
Proof using All.
  intros Hs Hi Hnd Hm. pose proof (list_elem_of_lookup_2 _ _ _ Hi) as Hin.
  destruct (inv_obj s o Hs Hin) as [Hok _]. pose proof Hs as [Ht Hh Hp Hu].
  pose proof (sub_holders_ok hs o Hok Hnd Hm) as Hok'.
  assert (forall x, x ∈ objects s -> id x <> id o -> disjoint_ranges (sub_holders hs o) x) as Hd.
  { intros x Hx Hne. apply (disjoint_fewer o); [done|done|by apply (shm_inv_apart s)]. }
  pose proof (table_insert _ _ i o (sub_holders hs o) Ht Hi eq_refl eq_refl Hok' Hd) as Ht'.
  set (l := <[i := sub_holders hs o]> (objects s)) in *.
  assert (l !! i = Some (sub_holders hs o)) as Hli.
  { apply list_lookup_insert_eq. by eapply lookup_lt_Some. }
  assert (frames_of l = frames_of (objects s)) as Hfl by by apply (frames_insert _ _ o).
  unfold leave. cbn [objects set_objects]. rewrite Hli. cbn [holders sub_holders frames].
  destruct hs as [|h hs]; cbn [fst snd].
  - rewrite !decide_True by done.
    pose proof (swap_remove_perm i l _ Hli) as Hperm.
    assert (frames_of l ≡ₚ frames o ++ frames_of (swap_remove i l)) as Hfp by (rewrite Hperm at 1; done).
    rewrite Hfl in Hfp. pose proof (tb_frames _ _ Ht) as Hfn. rewrite Hfp in Hfn.
    apply NoDup_app in Hfn as (Hn1 & Hn2 & Hn3).
    split_and!; try done.
    + split; cbn [objects set_objects next_id pool]; [by apply (table_swap_remove _ _ _ _ Ht' Hli)| |done|].
      * rewrite Forall_forall in Hh |- *. intros x Hx.
        destruct (elem_of_table_insert (objects s) i o (sub_holders [] o) x) as [->|[Hx' _]]; [apply Ht|done|..].
        -- fold l. by apply (swap_remove_sub i l _ x Hli).
        -- exfalso. pose proof (tb_ids _ _ Ht') as Hids. fold l in Hids. rewrite Hperm in Hids. simpl in Hids.
           apply NoDup_cons in Hids as [Hids _]. apply Hids. by apply (list_elem_of_fmap_2 id _ _ Hx).
        -- by apply Hh.
      * intros a Ha. apply Hu. rewrite Hfp. apply elem_of_app. by right.
    + intros a Ha. split; [apply Hu; rewrite Hfp; apply elem_of_app; by left|]. by apply Hn2.
  - rewrite !decide_False by done. split_and!; try done.
    + by apply (inv_insert s i o).
    + constructor.
    + intros a Ha. by apply elem_of_nil in Ha.
Qed.

Lemma inv_free s (fr : list Z) :
  inv s -> NoDup fr -> (forall a, a ∈ fr -> fa_used (pool s) a /\ a ∉ frames_of (objects s)) ->
  inv (set_pool (free_frames fr (pool s)) s) /\
  forall b, fa_used (free_frames fr (pool s)) b <-> b ∉ fr /\ fa_used (pool s) b.
Proof using All.
  intros [Ht Hh Hp Hu] Hnd Hf. destruct (free_frames_spec fr (pool s) Hp Hnd) as [Hw Hb]; [intros; by apply Hf|].
  split; [|done]. split; cbn [objects set_pool next_id pool]; try done.
  intros a Ha. apply Hb. split; [|by apply Hu]. intros Hin. by apply (Hf a Hin).
Qed.

Lemma account_frame (p u : Z) s :
  (inv s -> inv (account p u s)) /\ objects (account p u s) = objects s /\ pool (account p u s) = pool s.
Proof. unfold account. case_match; [done|]. split; [apply inv_set_ps|done]. Qed.
End Leave.

Section Release.
Context {A F : Type} `{TableAllocator A} `{FrameAllocator F} `{!FrameAllocatorLaws F}.
Implicit Types (s : State A F) (l : list Shm) (o : Shm).
Notation frames_of l := (l ≫= frames).

(** [o] after process [p] gave it up, someone else still holding it. *)
Record without (p : Z) (o o' : Shm) : Prop := {
  wo_id : id o' = id o; wo_owner : owner o' = owner o; wo_frames : frames o' = frames o;
  wo_holders h : h ∈ holders o' <-> h ∈ holders o /\ h <> p;
  wo_maps m : m ∈ mappings o' <-> m ∈ mappings o /\ m_pid m <> p;
  wo_held : holders o' <> [] }.

Lemma without_sub (p : Z) o o1 (hs : list Z) :
  unmapped p o o1 -> (forall h, h ∈ hs <-> h ∈ holders o /\ h <> p) -> hs <> [] -> without p o (sub_holders hs o1).
Proof. intros [] Hh Hne. by split. Qed.

Lemma sole_holder (p : Z) (hs hs' : list Z) :
  NoDup hs -> hs <> [] -> (forall h, h ∈ hs' <-> h ∈ hs /\ h <> p) -> hs' = [] <-> hs = [p].
Proof.
  intros Hnd Hne Hh. split.
  - intros ->. assert (forall h, h ∈ hs -> h = p) as Hall.
    { intros h Hin. destruct (decide (h = p)); [done|]. by destruct (not_elem_of_nil h); apply Hh. }
    destruct hs as [|x [|y hs]]; [done|f_equal; apply Hall; left|].
    apply NoDup_cons in Hnd as [Hn _]. destruct Hn. rewrite (Hall x), (Hall y) by (left || (right; left)). left.
  - intros ->. destruct hs' as [|h hs']; [done|]. destruct (proj1 (Hh h)) as [He Hn]; [left|].
    by apply list_elem_of_singleton in He.
Qed.

(** What unmapping and dropping [p] from the holders at [i] does. *)
Lemma part (p cr3 : Z) s (i : nat) o (hs : list Z) :
  inv s -> objects s !! i = Some o -> NoDup hs -> (forall h, h ∈ hs <-> h ∈ holders o /\ h <> p) ->
  exists o1, unmapped p o o1 /\ objects (unmap_holder (id o) p cr3 s).2 !! i = Some o1 /\
  let s1 := (unmap_holder (id o) p cr3 s).2 in
  let '(fr, s') := leave i (set_objects (<[i := sub_holders hs o1]> (objects s1)) s1) in
  inv s' /\ pool s' = pool s /\
  fr = (if decide (holders o = [p]) then frames o else []) /\
  (if decide (holders o = [p]) then objects s' = swap_remove i (<[i := sub_holders hs o1]> (objects s))
   else without p o (sub_holders hs o1) /\ objects s' = <[i := sub_holders hs o1]> (objects s)) /\
  NoDup fr /\ (forall a, a ∈ fr -> fa_used (pool s) a /\ a ∉ frames_of (objects s')).
Proof using All.
  intros Hs Hi Hnd Hh. destruct (unmap_holder_at p cr3 s i o Hs Hi) as (o1 & Hum & Hob & Hpool & Hok1).
  pose proof (lookup_lt_Some _ _ _ Hi) as Hlt. pose proof (list_elem_of_lookup_2 _ _ _ Hi) as Hin.
  destruct (inv_obj s o Hs Hin) as [Hok Hne].
  pose proof (unmap_holder_inv (id o) p cr3 s Hs) as Hs1. set (s1 := (unmap_holder (id o) p cr3 s).2) in *.
  assert (objects s1 !! i = Some o1) as Hi1 by (by rewrite Hob, list_lookup_insert_eq).
  exists o1. split; [done|]. split; [done|]. cbv zeta.
  pose proof (depart s1 i o1 hs Hs1 Hi1 Hnd) as Hdep.
  rewrite Hob, list_insert_insert_eq in Hdep |- *.
  destruct (leave i _) as [fr s'] eqn:Hl. rewrite Hpool, (um_frames _ _ _ Hum) in Hdep.
  destruct Hdep as (Hi' & Hp' & Hfr & Hobj & Hndf & Hused).
  { intros m [Hm Hmp]%(um_maps _ _ _ Hum). apply Hh. split; [|done]. by apply (ok_held o Hok). }
  pose proof (sole_holder p (holders o) hs (ok_holders o Hok) Hne Hh) as Hsole.
  split_and!; [done|done| | |done|done].
  - rewrite Hfr. by repeat case_decide; try tauto.
  - repeat case_decide; try tauto. split; [|done]. by apply without_sub.
Qed.

Definition close_post (p i : Z) s s' : Prop :=
  inv s' /\ exists k o, objects s !! k = Some o /\ id o = i /\ p ∈ holders o /\
  if decide (holders o = [p]) then
    objects s ≡ₚ o :: objects s' /\
    forall b, fa_used (pool s') b <-> fa_used (pool s) b /\ b ∉ frames o
  else
    (exists o', without p o o' /\ objects s' = <[k := o']> (objects s)) /\
    forall b, fa_used (pool s') b <-> fa_used (pool s) b.

Lemma swap_remove_insert_perm {B} (i : nat) (l : list B) x y :
  l !! i = Some x -> l ≡ₚ x :: swap_remove i (<[i := y]> l).
Proof.
  intros Hi. pose proof (lookup_lt_Some _ _ _ Hi) as Hlt.
  assert (<[i := y]> l !! i = Some y) as Hy by by apply list_lookup_insert_eq.
  pose proof (swap_remove_perm i _ _ Hy) as Hp. rewrite insert_take_drop in Hp at 1 by done.
  rewrite <- (take_drop_middle l i x Hi) at 1.
  rewrite <- Permutation_middle in Hp |- *. apply Permutation_cons_inv in Hp. by rewrite Hp.
Qed.

Lemma leave_state (i : nat) s : exists l, (leave i s).2 = set_objects l s.
Proof.
  unfold leave. repeat case_match; simpl; eauto; exists (objects s); by destruct s.
Qed.

Lemma close_meets (cpu : nat) (cr3 i p c : Z) s :
  inv s -> current_context cpu cr3 s = Some (p, c) ->
  match close cpu cr3 i s with
  | (0, s') => close_post p i s s'
  | (_, s') => s' = s
  end.
Proof using All.
  intros Hs Hc. unfold close. rewrite Hc. destruct (negb _); [done|].
  destruct (position _ (objects s)) as [k|] eqn:Hk; [|done].
  apply position_Some in Hk as (o & Hko & Hsel & _). zbool.
  match goal with H : holds p o = true |- _ => apply holds_elem in H as Hin end. subst i.
  pose proof (list_elem_of_lookup_2 _ _ _ Hko) as Hino. destruct (inv_obj s o Hs Hino) as [Hok Hne].
  destruct (position (Z.eqb p) (holders o)) as [q|] eqn:Hq.
  2:{ rewrite position_None in Hq. specialize (Hq p Hin). by rewrite Z.eqb_refl in Hq. }
  apply position_Some in Hq as Hq'. destruct Hq' as (x & Hx & Hxp & _). zbool. subst x.
  pose proof (swap_remove_perm q _ _ Hx) as Hperm. pose proof (ok_holders o Hok) as Hnd. rewrite Hperm in Hnd.
  apply NoDup_cons in Hnd as [Hnp Hnd].
  destruct (part p c s k o (swap_remove q (holders o)) Hs Hko Hnd) as (o1 & Hum & Ho1 & Hpart).
  { intros h. rewrite (elem_of_swap_remove q _ p h Hx). split; [|naive_solver].
    intros Hh. split; [by right|]. by intros ->. }
  destruct (unmap_holder (id o) p c s) as [u s1]. cbn [snd] in *. rewrite Ho1.
  rewrite (um_holders _ _ _ Hum), Hq.
  assert (drop_holder q o1 = sub_holders (swap_remove q (holders o)) o1) as ->.
  { unfold drop_holder, sub_holders. by rewrite (um_holders _ _ _ Hum). }
  destruct (leave k _) as [fr s3]. destruct Hpart as (Hi3 & Hp3 & Hfr & Hobj & Hndf & Hused).
  destruct (account_frame p (default 0 u) s3) as (Ha1 & Ha2 & Ha3). rewrite Ha3, Hp3.
  destruct (inv_free (account p (default 0 u) s3) fr (Ha1 Hi3) Hndf) as [Hi4 Hu4].
  { intros a Ha. rewrite Ha2, Ha3, Hp3. by apply Hused. }
  rewrite Ha3, Hp3 in Hi4, Hu4. split; [done|]. exists k, o. split_and!; try done.
  cbn [objects set_pool pool]. rewrite Ha2. case_decide; subst fr.
  - split; [|intros b; rewrite Hu4; tauto]. rewrite Hobj. by apply swap_remove_insert_perm.
  - destruct Hobj as [Hw Hobj]. split; [by exists (sub_holders (swap_remove q (holders o)) o1)|].
    intros b. rewrite Hu4. set_solver.
Qed.
End Release.

Section Cleanup.
Context {A F : Type} `{TableAllocator A} `{FrameAllocator F} `{!FrameAllocatorLaws F}.
Implicit Types (s : State A F) (l : list Shm) (o : Shm).
Notation frames_of l := (l ≫= frames).

(** The loop over the table: the objects before [index] are done, those from it
    on are untouched, and the frames of the objects that went are collected. *)
Record progress (p : Z) (L : list Shm) (pool0 : F) (index : nat) (freed : list Z) s : Prop := {
  pg_inv : inv s;
  pg_pool : pool s = pool0;
  pg_nodup : NoDup freed;
  pg_used a : a ∈ freed -> fa_used pool0 a /\ a ∉ frames_of (objects s);
  pg_split : exists gone kept todo,
    L ≡ₚ gone ++ kept ++ todo /\ Forall (fun o => holders o = [p]) gone /\ freed = frames_of gone /\
    Forall2 (without p) kept (take index (objects s)) /\ drop index (objects s) ≡ₚ todo }.

Lemma drop_pid_sub (p : Z) o : drop_pid p o = sub_holders (retain (fun h => negb (h =? p)) (holders o)) o.
Proof. done. Qed.

Lemma elem_of_retain_ne (p h : Z) (hs : list Z) : h ∈ retain (fun h => negb (h =? p)) hs <-> h ∈ hs /\ h <> p.
Proof. rewrite elem_of_retain, negb_true_iff, Z.eqb_neq. tauto. Qed.

Lemma NoDup_retain {B} (P : B -> bool) (l : list B) : NoDup l -> NoDup (retain P l).
Proof. rewrite retain_filter. apply NoDup_filter. Qed.

Lemma drop_swap_remove {B} (i : nat) (l : list B) x :
  l !! i = Some x -> take i (swap_remove i l) = take i l /\ drop (S i) l ≡ₚ drop i (swap_remove i l).
Proof.
  intros Hi. pose proof (lookup_lt_Some _ _ _ Hi) as Hlt.
  assert (take i (swap_remove i l) = take i l) as Ht.
  { unfold swap_remove. destruct (last l) as [z|] eqn:Hz; [|apply last_None in Hz; by subst].
    rewrite take_take, take_insert_ge by lia. f_equal. lia. }
  split; [done|]. pose proof (swap_remove_perm i l x Hi) as Hp.
  rewrite <- (take_drop_middle l i x Hi) in Hp at 1. rewrite <- (take_drop i (swap_remove i l)), Ht in Hp.
  rewrite <- Permutation_middle in Hp. apply Permutation_cons_inv in Hp. by apply Permutation_app_inv_l in Hp.
Qed.

Lemma alter_at {B} (f : B -> B) (i : nat) (l : list B) x : l !! i = Some x -> alter f i l = <[i := f x]> l.
Proof.
  revert i. induction l as [|y l IH]; intros [|i] Hi; simpl in *; simplify_eq; [done|].
  unfold alter, insert in *. simpl. f_equal. by apply IH.
Qed.

Lemma progress_gone (p : Z) (L : list Shm) (pool0 : F) (index : nat) (freed : list Z) s s3 o x :
  progress p L pool0 index freed s -> objects s !! index = Some o -> holders o = [p] ->
  inv s3 -> pool s3 = pool s -> objects s3 = swap_remove index (<[index := x]> (objects s)) ->
  progress p L pool0 index (freed ++ frames o) s3.
Proof using All.
  intros [Hi Hp Hnd Hu (gone & kept & todo & HL & Hgone & Hfr & Hkept & Htodo)] Ho Hsole Hi3 Hp3 Hobj.
  pose proof (lookup_lt_Some _ _ _ Ho) as Hlt.
  assert (objects s ≡ₚ o :: objects s3) as Hperm by (rewrite Hobj; by apply swap_remove_insert_perm).
  assert (frames_of (objects s) ≡ₚ frames o ++ frames_of (objects s3)) as Hfp by by rewrite Hperm at 1.
  pose proof (tb_frames _ _ (inv_table _ Hi)) as Hfn. rewrite Hfp in Hfn. apply NoDup_app in Hfn as (Hn1 & Hn2 & _).
  split; [done|congruence| | |].
  - apply NoDup_app. split_and!; [done| |done]. intros a Ha Ha'. apply (Hu a Ha). rewrite Hfp. set_solver.
  - intros a [Ha|Ha]%elem_of_app.
    + destruct (Hu a Ha) as [Hu1 Hu2]. split; [done|]. intros Hin. apply Hu2. rewrite Hfp. set_solver.
    + split; [|by apply Hn2]. rewrite <- Hp. apply (inv_used _ Hi). rewrite Hfp. set_solver.
  - assert (<[index := x]> (objects s) !! index = Some x) as Hx by by apply list_lookup_insert_eq.
    destruct (drop_swap_remove _ _ _ Hx) as [Ht Hd]. rewrite Hobj.
    exists (gone ++ [o]), kept, (drop (S index) (objects s)). split_and!.
    + rewrite HL, <- Htodo, (drop_S _ o index Ho). solve_Permutation.
    + apply Forall_app. split; [done|]. by repeat constructor.
    + rewrite bind_app, Hfr. simpl. by rewrite app_nil_r.
    + by rewrite Ht, take_insert_ge by lia.
    + by rewrite <- Hd, drop_insert_lt by lia.
Qed.

Lemma progress_kept (p : Z) (L : list Shm) (pool0 : F) (index : nat) (freed : list Z) s s3 o o' :
  progress p L pool0 index freed s -> objects s !! index = Some o -> without p o o' ->
  inv s3 -> pool s3 = pool s -> objects s3 = <[index := o']> (objects s) ->
  progress p L pool0 (index + 1) freed s3.
Proof using All.
  intros [Hi Hp Hnd Hu (gone & kept & todo & HL & Hgone & Hfr & Hkept & Htodo)] Ho Hw Hi3 Hp3 Hobj.
  pose proof (lookup_lt_Some _ _ _ Ho) as Hlt.
  split; [done|congruence|done| |].
  - intros a Ha. rewrite Hobj, (frames_insert _ _ o); [by apply Hu|done|by apply Hw].
  - exists gone, (kept ++ [o]), (drop (S index) (objects s)). split_and!; [| done|done| |].
    + rewrite HL, <- Htodo, (drop_S _ o index Ho). solve_Permutation.
    + rewrite Hobj, Nat.add_1_r, (take_S_r _ _ o') by by apply list_lookup_insert_eq.
      rewrite take_insert_ge by lia. apply Forall2_app; [done|]. constructor; [done|constructor].
    + by rewrite Hobj, Nat.add_1_r, drop_insert_lt by lia.
Qed.

(** One iteration. *)
Lemma cleanup_step (p cr3 : Z) (L : list Shm) (pool0 : F) (index : nat) (freed : list Z) s o :
  progress p L pool0 index freed s -> objects s !! index = Some o ->
  let '(u, s1) := unmap_holder (id o) p cr3 s in
  let s2 := set_objects (alter (drop_pid p) index (objects s1)) s1 in
  let gone := match objects s2 !! index with Some o => bool_decide (holders o = []) | None => false end in
  let '(fr, s3) := leave index s2 in
  let index' := (if gone then index else index + 1)%nat in
  progress p L pool0 index' (freed ++ fr) s3 /\
  (length (objects s3) - index' = length (objects s) - index - 1)%nat.
Proof using All.
  intros Hpg Ho. pose proof Hpg as [Hi _ _ _ _].
  pose proof (lookup_lt_Some _ _ _ Ho) as Hlt. pose proof (list_elem_of_lookup_2 _ _ _ Ho) as Hin.
  destruct (inv_obj s o Hi Hin) as [Hok Hne].
  set (hs := retain (fun h => negb (h =? p)) (holders o)).
  assert (forall h, h ∈ hs <-> h ∈ holders o /\ h <> p) as Hhs by (intros h; apply elem_of_retain_ne).
  destruct (part p cr3 s index o hs Hi Ho) as (o1 & Hum & Ho1 & Hpart); [by apply NoDup_retain, ok_holders|done|].
  pose proof (sole_holder p (holders o) hs (ok_holders o Hok) Hne Hhs) as Hsole.
  destruct (unmap_holder (id o) p cr3 s) as [u s1]. cbn [snd] in *. cbv zeta in Hpart |- *.
  cbn [objects set_objects]. rewrite list_lookup_alter_eq, Ho1. cbn [fmap option_fmap option_map].
  rewrite (alter_at _ _ _ o1 Ho1), drop_pid_sub, (um_holders _ _ _ Hum). cbn [holders sub_holders]. fold hs.
  destruct (leave index _) as [fr s3]. destruct Hpart as (Hi3 & Hp3 & Hfr3 & Hobj & _ & _). subst fr.
  assert (bool_decide (hs = []) = bool_decide (holders o = [p])) as -> by by apply bool_decide_ext.
  case_decide as Hd.
  - rewrite bool_decide_eq_true_2 by done. split; [by eapply progress_gone|].
    assert (<[index := sub_holders hs o1]> (objects s) !! index = Some (sub_holders hs o1)) as Hx
      by by apply list_lookup_insert_eq.
    pose proof (length_swap_remove _ _ _ Hx) as Hlen. rewrite length_insert in Hlen. rewrite Hobj. lia.
  - rewrite bool_decide_eq_false_2 by done. destruct Hobj as [Hw Hobj]. rewrite app_nil_r.
    split; [by eapply progress_kept|]. rewrite Hobj, length_insert. lia.
Qed.

Lemma cleanup_loop_progress (n : nat) (p cr3 : Z) (L : list Shm) (pool0 : F) (index : nat) (u : Z) (freed : list Z) s :
  progress p L pool0 index freed s -> (length (objects s) - index = n)%nat ->
  let '(_, freed', s') := cleanup_loop n index p cr3 u freed s in
  exists index', progress p L pool0 index' freed' s' /\ (length (objects s') <= index')%nat.
Proof using All.
  revert index u freed s. induction n as [|n IH]; intros index u freed s Hpg Hn; cbn [cleanup_loop].
  { exists index. split; [done|]. lia. }
  destruct (objects s !! index) as [o|] eqn:Ho.
  2:{ exists index. split; [done|]. by apply lookup_ge_None in Ho. }
  pose proof (cleanup_step p cr3 L pool0 index freed s o Hpg Ho) as Hst.
  destruct (unmap_holder (id o) p cr3 s) as [u' s1]. cbv zeta in Hst |- *.
  destruct (leave index _) as [fr s3]. destruct Hst as [Hpg3 Hlen]. apply IH; [done|lia].
Qed.

(** [p] left: the objects it alone held are gone with their frames, the others live
    on without it. *)
Definition cleanup_post (p : Z) s s' : Prop :=
  inv s' /\ exists gone kept,
    objects s ≡ₚ gone ++ kept /\ Forall (fun o => holders o = [p]) gone /\
    Forall2 (without p) kept (objects s') /\
    forall b, fa_used (pool s') b <-> fa_used (pool s) b /\ b ∉ frames_of gone.

Lemma cleanup_meets (p cr3 : Z) s : inv s -> cleanup_post p s (cleanup_pid p cr3 s).
Proof using All.
  intros Hs. unfold cleanup_pid.
  assert (progress p (objects s) (pool s) 0 [] s) as H0'.
  { split; [done|done|constructor|intros a Ha; by apply elem_of_nil in Ha|].
    exists [], [], (objects s). rewrite take_0, drop_0. by split_and!. }
  pose proof (cleanup_loop_progress (length (objects s)) p cr3 (objects s) (pool s) 0 0 [] s H0' ltac:(lia)) as Hl.
  destruct (cleanup_loop _ _ _ _ _ _ _) as [[u freed] s1]. destruct Hl as (ix & [Hi Hp Hnd Hu Hsp] & Hix).
  destruct Hsp as (gone & kept & todo & HL & Hgone & -> & Hkept & Htodo).
  rewrite drop_ge in Htodo by done. apply Permutation_nil in Htodo as ->. rewrite app_nil_r in HL.
  rewrite take_ge in Hkept by done.
  destruct (account_frame p u s1) as (Ha1 & Ha2 & Ha3).
  destruct (inv_free (account p u s1) (frames_of gone) (Ha1 Hi) Hnd) as [Hi' Hu'].
  { intros a Ha. rewrite Ha2, Ha3, Hp. by apply Hu. }
  split; [done|]. exists gone, kept. cbn [objects set_pool pool]. rewrite Ha2. split_and!; try done.
  intros b. rewrite Hu', Ha3, Hp. tauto.
Qed.
End Cleanup.

(** ** Page tables *)

Section Pages.
Context {A F : Type} `{TA : TableAllocator A} `{!TableAllocatorLaws A} `{FA : FrameAllocator F} `{!FrameAllocatorLaws F}.
Implicit Types (v : Vmm.State A) (kinds : gmap Z (Z * list Z)).
Context (cr3 root virt : Z) (Hcr : Z.land cr3 Vmm.ADDR_MASK = root) (Hal : virt mod 4096 = 0).

(** Page [k] counted from [virt]. *)
Notation page_of w := (w / 4096 - virt / 4096).
Notation space kinds r := (kinds !! r = Some (r, @nil Z)).

Lemma page_of_page (k : Z) : (virt + k * 4096) / 4096 = virt / 4096 + k.
Proof. rewrite Z.div_add; lia. Qed.

Lemma shm_flags_ok : Vmm.user_flags SHM_FLAGS.
Proof. by split. Qed.

Lemma unmap_pages_leaves (n : nat) (page : Z) v kinds :
  Vmm.inv v kinds -> space kinds root -> 0 <= page ->
  (forall k, page <= k < page + Z.of_nat n -> Vmm.is_user (virt + k * 4096)) ->
  Vmm.inv (Vmm.unmap_pages n page cr3 virt v) kinds /\
  forall root' w, space kinds root' -> Vmm.is_user w ->
    Vmm.leaf (Vmm.mem (Vmm.unmap_pages n page cr3 virt v)) root' w =
    if decide (root' = root /\ page <= page_of w < page + Z.of_nat n) then None
    else Vmm.leaf (Vmm.mem v) root' w.
Proof using All.
  revert page v. induction n as [|n IH]; intros page v Hi Hr Hp Hu; cbn [Vmm.unmap_pages].
  { split; [done|]. intros root' w _ _. rewrite decide_False by lia. done. }
  pose proof (Hu page ltac:(lia)) as Hup.
  rewrite wrap64_small
    by (unfold Vmm.is_user, Vmm.USER_MIN, Vmm.USER_MAX, Vmm.PAGE_SIZE in *; unfold is_u64; rewrite u64_bound_val; lia).
  unfold Vmm.PAGE_SIZE. destruct (Vmm.unmap_page_spec v kinds cr3 root _ Hi Hr Hcr Hup) as [Hi' Hl].
  destruct (IH (page + 1) _ Hi' Hr ltac:(lia)) as [Hi2 Hl2]; [intros k Hk; apply Hu; lia|].
  split; [done|]. intros root' w Hr' Hw. rewrite Hl2, Hl, page_of_page by done.
  destruct (decide (root' = root)) as [->|]; [|by rewrite !decide_False by tauto].
  repeat case_decide; try done; lia.
Qed.

Lemma unmap_range_leaves (n : Z) v kinds :
  Vmm.inv v kinds -> space kinds root -> 0 <= n ->
  (forall k, 0 <= k < n -> Vmm.is_user (virt + k * 4096)) ->
  Vmm.inv (Vmm.unmap_range cr3 virt (n * 4096) v) kinds /\
  forall root' w, space kinds root' -> Vmm.is_user w ->
    Vmm.leaf (Vmm.mem (Vmm.unmap_range cr3 virt (n * 4096) v)) root' w =
    if decide (root' = root /\ 0 <= page_of w < n) then None else Vmm.leaf (Vmm.mem v) root' w.
Proof using All.
  intros Hi Hr Hn Hu. unfold Vmm.unmap_range. destruct (n * 4096 =? 0) eqn:E; zbool.
  { split; [done|]. intros. by rewrite decide_False by lia. }
  unfold Vmm.PAGE_SIZE. rewrite div_ceil_mul by lia.
  destruct (unmap_pages_leaves (Z.to_nat n) 0 v kinds Hi Hr) as [Hi' Hl]; [lia|intros k Hk; apply Hu; lia|].
  split; [done|]. intros root' w Hr' Hw. rewrite Hl by done. by rewrite Z2Nat.id by lia.
Qed.

(** Either all frames are mapped in order, or some were and are unmapped again. *)
Lemma map_frames_leaves (l : list Z) (page : Z) v kinds :
  Vmm.inv v kinds -> space kinds root -> 0 <= page ->
  (forall k, 0 <= k < page + Z.of_nat (length l) -> Vmm.is_user (virt + k * 4096)) ->
  let '(ok, v') := map_frames l page cr3 virt v in
  (exists kinds', kinds ⊆ kinds' /\ Vmm.inv v' kinds') /\
  exists n, 0 <= n <= Z.of_nat (length l) /\ (ok = true -> n = Z.of_nat (length l)) /\
  forall root' w, space kinds root' -> Vmm.is_user w ->
    Vmm.leaf (Vmm.mem v') root' w =
    if ok then
      if decide (root' = root /\ page <= page_of w < page + Z.of_nat (length l))
      then (fun f => Vmm.leaf_entry f SHM_FLAGS) <$> l !! Z.to_nat (page_of w - page)
      else Vmm.leaf (Vmm.mem v) root' w
    else
      if decide (root' = root /\ 0 <= page_of w < page + n) then None else Vmm.leaf (Vmm.mem v) root' w.
Proof using All.
  revert page v kinds. induction l as [|f l IH]; intros page v kinds Hi Hr Hp Hu; cbn [map_frames].
  { split; [by exists kinds|]. exists 0. split_and!; [simpl; lia|simpl; lia|done|]. intros root' w _ _.
    by rewrite decide_False by (simpl; lia). }
  pose proof (Hu page ltac:(simpl; lia)) as Hup. unfold PAGE_SIZE.
  pose proof (Vmm.map_page_meets v kinds cr3 root _ f SHM_FLAGS Hi Hr Hcr Hup shm_flags_ok) as Hmp.
  destruct (Vmm.map_page cr3 (virt + page * 4096) f SHM_FLAGS v) as [[[]|e] v1].
  - destruct Hmp as [(_ & _ & Hl1) (k1 & Hs1 & Hi1)].
    pose proof (lookup_weaken _ _ _ _ Hr Hs1) as Hr1.
    specialize (IH (page + 1) v1 k1 Hi1 Hr1 ltac:(lia)). destruct (map_frames l (page + 1) cr3 virt v1) as [ok v'].
    destruct IH as [(k2 & Hs2 & Hi2) (n & Hn & Hok & Hl)]; [intros k Hk; apply Hu; simpl; lia|].
    split; [exists k2; split; [by etransitivity|done]|].
    exists (n + 1). split_and!; [simpl; lia|simpl; lia|intros; rewrite Hok by done; simpl; lia|].
    intros root' w Hr' Hw. rewrite (Hl root' w (lookup_weaken _ _ _ _ Hr' Hs1) Hw), (Hl1 root' w Hr' Hw), page_of_page.
    destruct (decide (root' = root)) as [->|]; [|by destruct ok; rewrite !decide_False by tauto].
    destruct ok; simpl length; repeat case_decide; try done; try lia.
    + replace (Z.to_nat (page_of w - page)) with (S (Z.to_nat (page_of w - (page + 1)))) by lia. done.
    + replace (Z.to_nat (page_of w - page)) with 0%nat by lia. done.
  - destruct Hmp as [He (k1 & Hs1 & Hi1)]. pose proof (lookup_weaken _ _ _ _ Hr Hs1) as Hr1.
    destruct (unmap_range_leaves page v1 k1 Hi1 Hr1 Hp) as [Hi2 Hl]; [intros k Hk; apply Hu; lia|].
    split; [by exists k1|]. exists 0. split_and!; [lia|lia|done|].
    intros root' w Hr' Hw. rewrite (Hl root' w (lookup_weaken _ _ _ _ Hr' Hs1) Hw), Z.add_0_r.
    case_decide; [done|]. destruct e; [by apply He|]. by destruct He as [-> _].
Qed.
End Pages.

Section Claims.
Context {A F : Type} `{TA : TableAllocator A} `{!TableAllocatorLaws A} `{FA : FrameAllocator F} `{!FrameAllocatorLaws F}.
Implicit Types (s : State A F) (o : Shm).
Notation frames_of l := (l ≫= frames).
Notation space kinds r := (kinds !! r = Some (r, @nil Z)).

(** Every step on the object table, and any other step of the kernel: it may
    change page tables, processes and the frames that belong to no object. *)
Inductive step : State A F -> unit -> State A F -> Prop :=
  | S_create s cpu size : 0 <= size -> step s tt (create cpu size s).2
  | S_grant s cpu i target : step s tt (grant cpu i target s).2
  | S_map s cpu cr3 i : step s tt (map cpu cr3 i s).2
  | S_unmap s cpu cr3 i : step s tt (unmap cpu cr3 i s).2
  | S_close s cpu cr3 i : step s tt (close cpu cr3 i s).2
  | S_cleanup s p cr3 : step s tt (cleanup_pid p cr3 s)
  | S_kernel s v f m p :
      fa_wf f -> (forall a, a ∈ frames_of (objects s) -> fa_used f a) ->
      step s tt (mkState (objects s) (next_id s) v f m p).

Lemma unmap_inv (cpu : nat) (cr3 i : Z) s : inv s -> inv (unmap cpu cr3 i s).2.
Proof using All.
  intros Hs. unfold unmap. destruct (current_context _ _ _) as [[p c]|]; [|done]. destruct (negb _); [done|].
  pose proof (unmap_holder_inv i p c s Hs) as Hu.
  destruct (unmap_holder i p c s) as [[n|] s']; simpl in *; [by apply inv_set_ps|done].
Qed.

Lemma close_inv (cpu : nat) (cr3 i : Z) s : inv s -> inv (close cpu cr3 i s).2.
Proof using All.
  intros Hs. destruct (current_context cpu cr3 s) as [[p c]|] eqn:Hc.
  - pose proof (close_meets cpu cr3 i p c s Hs Hc) as Hm. destruct (close cpu cr3 i s) as [r s'].
    destruct r; [by destruct Hm|by subst..].
  - unfold close. by rewrite Hc.
Qed.

Lemma shm_step_inv s s' u : inv s -> step s u s' -> inv s'.
Proof using All.
  intros Hs Hst. destruct Hst; auto using shm_create_inv, grant_inv, map_inv, unmap_inv, close_inv.
  - by destruct (cleanup_meets p cr3 s Hs).
  - destruct Hs. by split.
Qed.

(** C15: Shared memory stays consistent.  Starting with no objects, under any
    sequence of [create], [grant], [map], [unmap], [close] and process exits on
    any CPUs, interleaved with any other kernel steps: object ids are unique, no
    frame belongs to two objects, every frame of an object is allocated in the
    frame manager (so none is reused while it is shared), every object has a
    holder, only holders have mappings and at most one each, and the mappings of
    one process never overlap and lie page-aligned inside the window. *)
Theorem shm_consistent (s0 s : State A F) (us : list unit) :
  objects s0 = [] -> fa_wf (pool s0) -> trace step s0 us s ->
  NoDup (id <$> objects s) /\ NoDup (frames_of (objects s)) /\
  (forall a, a ∈ frames_of (objects s) -> fa_used (pool s) a) /\
  (forall o, o ∈ objects s -> holders o <> [] /\ NoDup (m_pid <$> mappings o) /\
     forall m, m ∈ mappings o -> m_pid m ∈ holders o /\ mapping_ok o m) /\
  (forall o o', o ∈ objects s -> o' ∈ objects s -> id o <> id o' -> disjoint_ranges o o').
Proof using All.
  intros H0 Hw Htr. assert (inv s) as Hs.
  { apply (trace_invariant step inv s0 us s); [|split; rewrite ?H0; try done|done].
    - intros ??? Hi Hst. by apply (shm_step_inv _ _ _ Hi Hst).
    - split; simpl; [constructor..|]. intros x y Hx. by apply elem_of_nil in Hx.
    - intros a Ha. by apply elem_of_nil in Ha. }
  pose proof Hs as [[Hids _ _ Hfr Hap] _ _ Hu]. split_and!; [done|done|done| |done].
  - intros o Ho. destruct (inv_obj s o Hs Ho) as [[K1 K2 K3 K4 K5] Hne]. split_and!; try done.
    intros m Hm. split; [by apply K4|]. rewrite Forall_forall in K5. by apply K5.
Qed.

(** Process exit returns exactly the right frames.  [cleanup_pid] ends with
    a consistent table in which the leaving process holds and maps nothing;
    exactly the objects it alone held are gone, exactly their frames are free
    again, and every other object keeps its id, owner, frames, and the holders
    and mappings of the other processes. *)
Theorem cleanup_pid_spec (p cr3 : Z) s : inv s -> cleanup_post p s (cleanup_pid p cr3 s).
Proof using All. apply cleanup_meets. Qed.

(** [close] gives up one object: when the caller was the last holder, exactly its
    frames become free and the object goes; otherwise only the caller's entry and
    mapping go.  Any failure leaves the state as it was. *)
Theorem close_spec (cpu : nat) (cr3 i p c : Z) s :
  inv s -> current_context cpu cr3 s = Some (p, c) ->
  match close cpu cr3 i s with
  | (0, s') => close_post p i s s'
  | (_, s') => s' = s
  end.
Proof using All. apply close_meets. Qed.

Definition map_post (cr3 root : Z) (kinds : gmap Z (Z * list Z)) o s (r : Z) s' : Prop :=
  let same cr w := Vmm.translate cr w (Vmm.mem (vm s')) = Vmm.translate cr w (Vmm.mem (vm s)) in
  if decide (r = u64_max) then
    objects s' = objects s /\
    forall cr w, let root' := Z.land cr Vmm.ADDR_MASK in space kinds root' -> Vmm.is_user w -> same cr w
  else
    USER_SHM_BASE <= r /\ r + byte_size o <= USER_SHM_LIMIT /\
    (forall k f, frames o !! k = Some f ->
       Vmm.translate cr3 (r + Z.of_nat k * PAGE_SIZE) (Vmm.mem (vm s')) = Some f) /\
    (forall cr w, let root' := Z.land cr Vmm.ADDR_MASK in space kinds root' -> Vmm.is_user w ->
       root' <> root \/ w < r \/ r + byte_size o <= w -> same cr w).

Lemma window_user (w : Z) : USER_SHM_BASE <= w < USER_SHM_LIMIT -> Vmm.is_user w.
Proof. unfold USER_SHM_BASE, USER_SHM_LIMIT, Vmm.is_user, Vmm.USER_MIN, Vmm.USER_MAX. lia. Qed.

Lemma map_object (cpu : nat) (cr3 i p root : Z) kinds o s :
  inv s -> Vmm.inv (vm s) kinds -> space kinds root -> Z.land cr3 Vmm.ADDR_MASK = root ->
  current_context cpu cr3 s = Some (p, cr3) ->
  find_first (fun o => (id o =? i) && holds p o) (objects s) = Some o ->
  find_first (fun m => m_pid m =? p) (mappings o) = None ->
  Forall (fun f => 0 <= f < 2 ^ 52 /\ f mod 4096 = 0) (frames o) ->
  let '(r, s') := map cpu cr3 i s in map_post cr3 root kinds o s r s'.
Proof using All.
  intros Hs Hv Hroot Hcr Hctx Hf Hm Hfr. unfold map. rewrite Hctx, Hf, Hm.
  assert (forall r s', r = u64_max -> s' = s -> map_post cr3 root kinds o s r s') as Hfail.
  { intros r s' -> ->. unfold map_post. by rewrite decide_True by done. }
  destruct (update_first_insert _ (fun x => x) _ _ Hf) as (k & _ & Hk & _ & _).
  pose proof (list_elem_of_lookup_2 _ _ _ Hk) as Hin. destruct (inv_obj s o Hs Hin) as [Hok _].
  pose proof (find_free_range_meets (objects s) p cr3 (byte_size o) (Vmm.mem (vm s))) as Hrange.
  destruct (find_free_range _ _ _ _ _) as [virt|]; [|by apply Hfail].
  destruct Hrange as [_ (Hb & Hpg & Hlim & [_ Hfree] & _)].
  { destruct Hok. unfold byte_size, PAGE_SIZE. destruct (frames o); [done|]. simpl. lia. }
  { pose proof Hs as [[_ _ Hobjs _ _] _ _ _]. eapply Forall_impl; [exact Hobjs|]. by intros ? []. }
  unfold byte_size in Hfree. rewrite div_ceil_mul in Hfree by (lia || done).
  assert (forall j, 0 <= j < Z.of_nat (length (frames o)) -> Vmm.is_user (virt + j * 4096)) as Huser.
  { intros j Hj. apply window_user. unfold byte_size, PAGE_SIZE in Hlim. lia. }
  pose proof (map_frames_leaves cr3 root virt Hcr Hpg (frames o) 0 (vm s) kinds Hv Hroot) as Hl.
  destruct (map_frames (frames o) 0 cr3 virt (vm s)) as [ok v].
  destruct Hl as [_ (n & Hn & Hn' & Hl)]; [lia|intros j Hj; apply Huser; lia|].
  assert (virt / 4096 * 4096 = virt) as Hvd.
  { unfold pages, PAGE_SIZE in Hpg. pose proof (Z.div_mod virt 4096). lia. }
  destruct ok; unfold map_post.
  - rewrite decide_False by (unfold USER_SHM_LIMIT, u64_max in *; rewrite u64_bound_val;
      destruct (byte_size_pages o); lia).
    split_and!; [done|done| |]; cbn [vm set_ps set_objects set_vm].
    + intros j f Hj. pose proof (lookup_lt_Some _ _ _ Hj) as Hlt. unfold PAGE_SIZE.
      rewrite Vmm.translate_leaf, Hcr, Hl by (done || (apply Huser; lia)).
      rewrite page_of_page, decide_True by lia.
      replace (Z.to_nat _) with j by lia. rewrite Hj. simpl. f_equal.
      rewrite Forall_lookup in Hfr. destruct (Hfr j f Hj). by apply Vmm.entry_addr; [..|apply shm_flags_ok].
    + intros cr w. cbv zeta. intros Hsp Hw Hout. rewrite !Vmm.translate_leaf, Hl by done.
      rewrite decide_False; [done|]. intros [He Hk']. unfold byte_size, PAGE_SIZE in Hout.
      pose proof (Z.div_mod w 4096 ltac:(lia)). pose proof (Z.mod_pos_bound w 4096 ltac:(lia)). lia.
  - rewrite decide_True by done. split; [done|]. intros cr w. cbv zeta. intros Hsp Hw. cbn [vm set_vm].
    rewrite !Vmm.translate_leaf, Hl by done. case_decide as Hd; [|done]. destruct Hd as [Hr Hj].
    specialize (Hfree (w / 4096 - virt / 4096) ltac:(lia)). rewrite Vmm.translate_leaf, Hcr in Hfree.
    rewrite Hr. simpl. symmetry.
    replace (Vmm.leaf (Vmm.mem (vm s)) root w) with (Vmm.leaf (Vmm.mem (vm s)) root (virt + (w / 4096 - virt / 4096) * PAGE_SIZE)).
    + done.
    + unfold Vmm.leaf. f_equal. apply Vmm.idxs_page; [apply Huser; lia|done|]. unfold PAGE_SIZE. rewrite page_of_page. lia.
Qed.

(** Mapping a shared object.  For a holder with no mapping of it yet, [map]
    either fails and leaves the table and every user translation of every address
    space as they were - a run of pages mapped before the failure is taken back -
    or returns an address in the window at which page [k] translates to frame [k]
    of the object, with every user page outside the new range, and every other
    address space, untouched. *)
Theorem shm_map_spec (cpu : nat) (cr3 i p root : Z) kinds o s :
  inv s -> Vmm.inv (vm s) kinds -> space kinds root -> Z.land cr3 Vmm.ADDR_MASK = root ->
  current_context cpu cr3 s = Some (p, cr3) ->
  find_first (fun o => (id o =? i) && holds p o) (objects s) = Some o ->
  find_first (fun m => m_pid m =? p) (mappings o) = None ->
  Forall (fun f => 0 <= f < 2 ^ 52 /\ f mod 4096 = 0) (frames o) ->
  let '(r, s') := map cpu cr3 i s in map_post cr3 root kinds o s r s'.
Proof using All. apply map_object. Qed.
End Claims.

(** * Witnesses: sixteen frames, the address space of [VmmExample], process 5 *)

Module Example.
Import VmmExample.
Definition pool0 : option Pmm.Pmm := Some (Pmm.mkPmm [1; 0] 16 16 0).
Definition s0 : State Vmm.HeapTables (option Pmm.Pmm) := mkState [] 1 space0 pool0 ∅ Process.Example.st.
(** Two pages. *)
Definition s1 : State Vmm.HeapTables (option Pmm.Pmm) := (create 0 5000 s0).2.

Lemma pool0_wf : fa_wf pool0.
Proof. split; [split; simpl; [done| |lia]; repeat constructor; lia|done]. Qed.

Lemma s0_inv : inv s0.
Proof.
  split; [split; simpl; [constructor..|]|constructor|apply pool0_wf|].
  - intros x y Hx. by apply elem_of_nil in Hx.
  - intros a Ha. by apply elem_of_nil in Ha.
Qed.

Lemma s1_inv : inv s1.
Proof. apply (shm_create_inv 0 5000 s0); [lia|apply s0_inv]. Qed.

Definition obj : Shm := mkShm 1 5 [4096; 8192] [5] [].
Lemma s1_objects : objects s1 = [obj].
Proof. vm_compute. reflexivity. Qed.

Lemma find_free_range_spec_witness :
  (exists r, loop (range_step [] 5 root0 4096 ∅) 37 USER_SHM_BASE = inl r) /\
  match find_free_range [] 5 root0 4096 ∅ with
  | Some v =>
      USER_SHM_BASE <= v /\ pages v /\ v + 4096 <= USER_SHM_LIMIT /\ free_at [] 5 root0 4096 ∅ v /\
      forall w, USER_SHM_BASE <= w < v -> pages w -> ~ free_at [] 5 root0 4096 ∅ w
  | None =>
      forall w, USER_SHM_BASE <= w -> w + 4096 <= USER_SHM_LIMIT -> pages w -> ~ free_at [] 5 root0 4096 ∅ w
  end.
Proof. apply (find_free_range_spec [] 5 root0 4096 ∅); [lia|constructor]. Defined.

Lemma shm_consistent_witness :
  NoDup (id <$> objects s1) /\ NoDup (objects s1 ≫= frames) /\
  (forall a, a ∈ objects s1 ≫= frames -> fa_used (pool s1) a) /\
  (forall o, o ∈ objects s1 -> holders o <> [] /\ NoDup (m_pid <$> mappings o) /\
     forall m, m ∈ mappings o -> m_pid m ∈ holders o /\ mapping_ok o m) /\
  (forall o o', o ∈ objects s1 -> o' ∈ objects s1 -> id o <> id o' -> disjoint_ranges o o').
Proof.
  apply (shm_consistent s0 s1 [tt]); [done|apply pool0_wf|].
  apply (trace_cons step s0 tt s1); [|apply trace_nil]. apply (S_create s0 0 5000). lia.
Defined.

Lemma cleanup_pid_spec_witness : cleanup_post 5 s1 (cleanup_pid 5 root0 s1).
Proof. apply (cleanup_pid_spec 5 root0 s1), s1_inv. Defined.

Lemma shm_map_spec_witness :
  let '(r, s') := map 0 root0 1 s1 in map_post root0 root0 kinds0 obj s1 r s'.
Proof.
  apply (shm_map_spec 0 root0 1 5 root0 kinds0 obj s1).
  - apply s1_inv.
  - apply space0_inv.
  - apply space0_inv.
  - done.
  - vm_compute. reflexivity.
  - rewrite s1_objects. reflexivity.
  - reflexivity.
  - repeat constructor; done.
Defined.

(** It succeeds: the second page of the object is visible at the second page. *)
Lemma map_example :
  Vmm.translate root0 (USER_SHM_BASE + 4096) (Vmm.mem (vm (map 0 root0 1 s1).2)) = Some 8192.
Proof. vm_compute. reflexivity. Qed.
End Example.

End Shm.
