(* ===== verification/Exec.v ===== *)
(** The program loader: [crates/kernel/src/task/exec.rs], with [sys_exec] of
    [crates/kernel/src/syscall/runtime.rs], the image writer [build_kxe] of
    [crates/kernel/build.rs] and the argument encoder [sys_exec_with] of
    [userspace/runtime/runtime.rs].

    Page tables, frames and processes are those of [Vmm.v], [Pmm.v] and
    [Process.v]; physical memory seen as bytes is [pmem] (the kernel reaches it
    through the identity map), descriptors and files those of [Fd.v] and [Vfs.v].
    Of the descriptor state only the tables and pipe counts are used here. *)
From stdpp Require Import base sets list numbers option gmap.
From S2P Require Import Prelude Pmm Vmm Uaccess Thread Scheduler Process Pipe Fd Str Vfs.

Open Scope Z_scope.

Module Exec.
Import Process.Process.

Definition KXE_MAGIC : list Z := [75; 88; 69; 0].
Definition USER_BASE : Z := 549755813888.        (* 0x0000_0080_0000_0000 *)
Definition USER_STACK_TOP : Z := 551903297536.   (* 0x0000_0080_8000_0000 *)
Definition USER_STACK_SIZE : Z := 65536.
Definition KXE_FLAG_DRIVER : Z := 1.

(** [size_of::<KxeHeader>()]: a packed [4 + 8 + 8 + 8 + 4 + 4] bytes. *)
Definition HEADER_LEN : nat := 36.

Record KxeHeader := mkHeader {
  magic : list Z; h_entry : Z; code_offset : Z; h_code_size : Z; h_flags : Z; reserved : Z }.

Definition field (image : list Z) (off n : nat) : Z := from_le (take n (drop off image)).
Definition read_header (image : list Z) : KxeHeader :=
  mkHeader (take 4 image) (field image 4 8) (field image 12 8) (field image 20 8) (field image 28 4) (field image 32 4).

Record KxeImage := mkImage { entry : Z; code : list Z; flags : Z }.

Definition parse_kxe (image : list Z) : option KxeImage :=
  if (length image <? HEADER_LEN)%nat then None
  else
    let h := read_header image in
    if negb (bool_decide (magic h = KXE_MAGIC)) then None
    else
      stop ← checked_add (code_offset h) (h_code_size h);
      if (code_offset h <? Z.of_nat HEADER_LEN) || (Z.of_nat (length image) <? stop) then None
      else Some (mkImage (wrap64 (USER_BASE + h_entry h))
                         (take (Z.to_nat (h_code_size h)) (drop (Z.to_nat (code_offset h)) image)) (h_flags h)).

(** The image writer of the build. *)
Definition build_kxe (c : list Z) (e f : Z) : list Z :=
  KXE_MAGIC ++ to_le 8 e ++ to_le 8 (Z.of_nat HEADER_LEN) ++ to_le 8 (Z.of_nat (length c)) ++ to_le 4 f ++ to_le 4 0 ++ c.

(** * The argument block of [SYS_EXEC] *)

(** [sys_exec_with]: the path, then each argument, every one followed by a zero
    byte, and one more zero byte. *)
Definition terminated (args : list (list Z)) : list Z := args ≫= (fun a => a ++ [0]).
Definition encode_args (path : list Z) (args : list (list Z)) : list Z := path ++ [0] ++ terminated args ++ [0].

(** [bytes.iter().position(|&b| b == 0)]. *)
Definition is_zero (b : Z) : bool := b =? 0.

(** The inner loop: up to the next zero byte, which is skipped. *)
Fixpoint take_arg (l : list Z) : list Z * list Z :=
  match l with
  | [] => ([], [])
  | b :: l' => if is_zero b then ([], l') else let '(a, r) := take_arg l' in (b :: a, r)
  end.

(** The outer loop: until the end or an empty argument. *)
Fixpoint parse_args (fuel : nat) (l : list Z) : list (list Z) :=
  match fuel, l with
  | O, _ | _, [] => []
  | S n, b :: _ => if is_zero b then [] else let '(a, r) := take_arg l in a :: parse_args n r
  end.

(** The path and the arguments of a block. *)
Definition split_block (bytes : list Z) : list Z * list (list Z) :=
  let path_end := default (length bytes) (position is_zero bytes) in
  let path := take path_end bytes in
  ((if Str.utf8_valid path then path else []),
   if (path_end <? length bytes - 1)%nat then parse_args (length bytes) (drop (path_end + 1) bytes) else []).

(** * The initial stack *)

(** Writes of the [for i in 0..argc] loop: the pointer slot [i + 1], the string,
    its terminator. *)
Fixpoint push_loop (args : list (list Z)) (slot string_kva string_uva : Z) (m : gmap Z Z) : gmap Z Z :=
  match args with
  | [] => m
  | a :: args' =>
      let m := Uaccess.store m slot (to_le 8 string_uva) in
      let m := Uaccess.store m string_kva (a ++ [0]) in
      let n := Z.of_nat (length a) + 1 in
      push_loop args' (slot + 8) (wrap64 (string_kva + n)) (wrap64 (string_uva + n)) m
  end.

Definition string_bytes (args : list (list Z)) : Z := zsum (fun a => Z.of_nat (length a) + 1) args.
Definition argv_array_size (args : list (list Z)) : Z := (Z.of_nat (length args) + 2) * 8.
Definition total_size (args : list (list Z)) : Z := argv_array_size args + string_bytes args.

(** [(USER_STACK_TOP - total_size) & !0xF], with wrapping subtraction. *)
Definition args_base_of (args : list (list Z)) : Z :=
  Z.land (wrap64 (USER_STACK_TOP - total_size args)) (Z.lnot 15).

Definition push_args_onto_stack (stack_phys stack_base : Z) (args : list (list Z)) (m : gmap Z Z)
    : Z * Z * Z * gmap Z Z :=
  let argc := Z.of_nat (length args) in
  if argc =? 0 then (USER_STACK_TOP, 0, 0, m)
  else
    let args_base := args_base_of args in
    let stack_offset := wrap64 (args_base - stack_base) in
    let kva := wrap64 (stack_phys + stack_offset) in
    let m := push_loop args (kva + 8) (kva + argv_array_size args) (args_base + argv_array_size args) m in
    let m := Uaccess.store m (kva + 8 * (argc + 1)) (to_le 8 0) in
    let m := Uaccess.store m kva (to_le 8 argc) in
    (args_base, argc, args_base + 8, m).

(** * Address spaces and processes *)

Record ImageAlloc := mkAlloc { a_pid : Z; a_phys : Z; a_pages : Z }.
Record ProcessSpace := mkSpace { sp_cr3 : Z; initial_rsp : Z; sp_argc : Z; sp_argv : Z; sp_frames : list (Z * Z) }.

Section Ops.
Context {A : Type} `{TableAllocator A}.

Record State := mkState {
  vm : Vmm.State A;
  pool : option Pmm.Pmm;
  pmem : gmap Z Z;
  images : list ImageAlloc;
  nodes : list Vfs.Slot;
  fds : Fd.State;
  ps : PState }.

Definition set_vm (v : Vmm.State A) (s : State) : State := mkState v (pool s) (pmem s) (images s) (nodes s) (fds s) (ps s).
Definition set_pool (p : option Pmm.Pmm) (s : State) : State := mkState (vm s) p (pmem s) (images s) (nodes s) (fds s) (ps s).
Definition set_pmem (m : gmap Z Z) (s : State) : State := mkState (vm s) (pool s) m (images s) (nodes s) (fds s) (ps s).
Definition set_images (l : list ImageAlloc) (s : State) : State := mkState (vm s) (pool s) (pmem s) l (nodes s) (fds s) (ps s).
Definition set_fds (f : Fd.State) (s : State) : State := mkState (vm s) (pool s) (pmem s) (images s) (nodes s) f (ps s).
Definition set_ps (p : PState) (s : State) : State := mkState (vm s) (pool s) (pmem s) (images s) (nodes s) (fds s) p.

Definition alloc_page_range (size : Z) (s : State) : option (Z * Z) * State :=
  let n := Z.max (div_ceil size 4096) 1 in
  match Pmm.alloc_frames n (pool s) with
  | (None, p) => (None, set_pool p s)
  | (Some phys, p) => (Some (phys, n), set_pmem (Thread.zero_region phys (n * 4096) (pmem s)) (set_pool p s))
  end.

(** A page-table operation inside the loader's state. *)
Definition on_vm {R : Type} (f : SE (Vmm.State A) Vmm.MapError R) (s : State) : Result R Vmm.MapError * State :=
  let '(r, v) := f (vm s) in (r, set_vm v s).

Definition create_process_space (e : Z) (c : list Z) (args : list (list Z)) (s : State) : option ProcessSpace * State :=
  match on_vm Vmm.create_address_space s with
  | (Err _, s) => (None, s)
  | (Ok cr3, s) =>
      let code_size_bytes := Z.max (div_ceil (Z.of_nat (length c)) 4096) 1 * 4096 in
      match alloc_page_range code_size_bytes s with
      | (None, s) => (None, s)
      | (Some (code_phys, code_count), s) =>
          let s := set_pmem (Uaccess.store (pmem s) code_phys c) s in
          match on_vm (Vmm.map_range cr3 (Z.land e (Z.lnot 4095)) code_phys code_size_bytes Vmm.USER_READ_WRITE) s with
          | (Err _, s) => (None, s)
          | (Ok _, s) =>
              let stack_base := USER_STACK_TOP - USER_STACK_SIZE in
              match alloc_page_range USER_STACK_SIZE s with
              | (None, s) => (None, s)
              | (Some (stack_phys, stack_count), s) =>
                  match on_vm (Vmm.map_range cr3 stack_base stack_phys USER_STACK_SIZE
                                 (Vmm.no_execute Vmm.USER_READ_WRITE)) s with
                  | (Err _, s) => (None, s)
                  | (Ok _, s) =>
                      let '(rsp, argc, argv, m) := push_args_onto_stack stack_phys stack_base args (pmem s) in
                      (Some (mkSpace cr3 rsp argc argv [(code_phys, code_count); (stack_phys, stack_count)]),
                       set_pmem m s)
                  end
              end
          end
      end
  end.

Definition record_image_alloc (p phys n : Z) (s : State) : State := set_images (images s ++ [mkAlloc p phys n]) s.

Definition free_ranges (l : list (Z * Z)) (s : State) : State :=
  foldl (fun s r => set_pool (Pmm.free_frames (fst r) (snd r) (pool s)) s) s l.
Definition record_ranges (p : Z) (l : list (Z * Z)) (s : State) : State :=
  foldl (fun s r => record_image_alloc p (fst r) (snd r) s) s l.

(** What the environment supplies: the CPU, the number of CPUs, the clock. *)
Record Env := mkEnv { e_cpu : nat; e_cpu_count : Z; e_now : Z }.

Definition spawn_kxe (env : Env) (path : list Z) (image : KxeImage) (args : list (list Z)) (l : Thread.PrivilegeLevel)
    (s : State) : Z * State :=
  match create_process_space (entry image) (code image) args s with
  | (None, s) => (0, s)
  | (Some sp, s) =>
      let '(p, x) := spawn_user_process (e_cpu env) (e_cpu_count env) (e_now env) path (entry image) (initial_rsp sp)
                       (sp_cr3 sp) l (sp_argc sp) (sp_argv sp) (ps s) in
      let s := set_ps x s in
      if p =? 0 then (0, free_ranges (sp_frames sp) s)
      else
        let s := record_ranges p (sp_frames sp) s in
        (p, set_ps (set_memory_bytes p (Z.of_nat (length (code image)) + USER_STACK_SIZE) (ps s)) s)
  end.

(** Read and parse: the common head of the spawn functions. *)
Definition load_image (path : list Z) (s : State) : option KxeImage :=
  match Vfs.read_file path (nodes s) with Ok data => parse_kxe data | Err _ => None end.

Definition make_ready (p : Z) (s : State) : State := if p =? 0 then s else set_ps (set_ready p (ps s)) s.

Definition spawn_process (env : Env) (path : list Z) (args : list (list Z)) (l : Thread.PrivilegeLevel) (s : State) : Z * State :=
  match load_image path s with
  | None => (0, s)
  | Some k => let '(p, s) := spawn_kxe env path k args l s in (p, make_ready p s)
  end.

Definition spawn (env : Env) (path : list Z) : State -> Z * State := spawn_process env path [] Thread.System.

Definition spawn_driver (env : Env) (path : list Z) (s : State) : Z * State :=
  match load_image path s with
  | None => (0, s)
  | Some k =>
      if Z.land (flags k) KXE_FLAG_DRIVER =? 0 then (0, s)
      else let '(p, s) := spawn_kxe env path k [] Thread.Driver s in (p, make_ready p s)
  end.

Definition spawn_user_with_args (env : Env) (path : list Z) (args : list (list Z)) (s : State) : Z * State :=
  match load_image path s with
  | None => (0, s)
  | Some k => spawn_kxe env path k args Thread.User s
  end.

Definition put_fd (p : Z) (fd : nat) (e : Fd.FdEntry) (s : State) : State :=
  set_fds (snd (Fd.alloc_fd_at p fd e (fds s))) s.

Definition inherited (caller fd : Z) (dflt : Fd.FdEntry) (s : State) : Fd.FdEntry :=
  if fd =? 65535 then dflt else default dflt (Fd.get_fd caller (Z.to_nat fd) (fds s)).

Definition spawn_user_with_fds_and_args (env : Env) (path : list Z) (args : list (list Z))
    (caller stdin_fd stdout_fd : Z) (s : State) : Z * State :=
  match load_image path s with
  | None => (0, s)
  | Some k =>
      let '(p, s) := spawn_kxe env path k args Thread.User s in
      if p =? 0 then (0, s)
      else
        let s := put_fd p 2 Fd.ConsoleOut s in
        let s := put_fd p 0 (inherited caller stdin_fd Fd.ConsoleIn s) s in
        let s := put_fd p 1 (inherited caller stdout_fd Fd.ConsoleOut s) s in
        (p, s)
  end.

Definition free_image_for_pid (p : Z) (s : State) : State :=
  let '(gone, rest) := drain (fun a => a_pid a =? p) (images s) in
  free_ranges ((fun a => (a_phys a, a_pages a)) <$> gone) (set_images rest s).

(** * [sys_exec] *)

Definition STDIO_CTTY : Z := 281474976710656.

(** [ub] is the caller's memory under its page tables [cr3]. *)
Definition sys_exec (env : Env) (cr3 : Z) (ub : gmap Z Z) (ptr len stdio_pack : Z) (s : State) : Z * State :=
  if (ptr =? 0) || (len =? 0) then (u64_max, s)
  else
  match Uaccess.read_bytes cr3 (Vmm.mem (vm s)) ub ptr len with
  | None => (u64_max, s)
  | Some bytes =>
      let '(path, args) := split_block bytes in
      let stdin_fd := Z.land stdio_pack 65535 in
      let stdout_fd := Z.land (Z.shiftr stdio_pack 16) 65535 in
      let caller := current_pid (e_cpu env) (ps s) in
      let '(p, s) :=
        if (stdin_fd =? 65535) && (stdout_fd =? 65535) then
          let '(p, s) := spawn_user_with_args env path args s in
          if p =? 0 then (p, s)
          else (p, put_fd p 2 Fd.ConsoleOut (put_fd p 1 Fd.ConsoleOut (put_fd p 0 Fd.ConsoleIn s)))
        else spawn_user_with_fds_and_args env path args caller stdin_fd stdout_fd s in
      if (p =? 0) || (p =? u64_max) then (p, s)
      else
        let s := set_ps (set_parent p caller (ps s)) s in
        let '(cols, rows) := winsize caller (ps s) in
        let s := if negb (cols =? 0) && negb (rows =? 0) then set_ps (set_winsize p cols rows (ps s)) s else s in
        let s := if negb (Z.land stdio_pack STDIO_CTTY =? 0) then
                   match Fd.get_fd caller 0 (fds s) with Some tty => put_fd p 3 tty s | None => s end
                 else s in
        (p, set_ps (set_ready p (ps s)) s)
  end.
End Ops.
#[global] Arguments State A : clear implicits.

(** * Program images *)

Lemma parse_build (c : list Z) (e f : Z) :
  0 <= e < 2 ^ 64 -> 0 <= f < 2 ^ 32 -> Z.of_nat (length c) < 2 ^ 63 ->
  parse_kxe (build_kxe c e f) = Some (mkImage (wrap64 (USER_BASE + e)) c f).
Proof.
  intros He Hf Hc. unfold parse_kxe.
  assert (length (build_kxe c e f) = HEADER_LEN + length c)%nat as Hlen.
  { unfold build_kxe. rewrite !length_app, !length_to_le. simpl. done. }
  assert (read_header (build_kxe c e f) = mkHeader KXE_MAGIC e (Z.of_nat HEADER_LEN) (Z.of_nat (length c)) f 0) as Hh.
  { unfold read_header. f_equal.
    - change (from_le (to_le 8 e) = e). apply from_to_le. change (256 ^ Z.of_nat 8) with (2 ^ 64). lia.
    - change (from_le (to_le 8 (Z.of_nat (length c))) = Z.of_nat (length c)). apply from_to_le.
      change (256 ^ Z.of_nat 8) with (2 ^ 64). lia.
    - change (from_le (to_le 4 f) = f). apply from_to_le. change (256 ^ Z.of_nat 4) with (2 ^ 32). lia. }
  rewrite Hlen, Hh. rewrite (proj2 (Nat.ltb_ge (HEADER_LEN + length c) HEADER_LEN)) by lia.
  cbn [magic code_offset h_code_size h_entry h_flags]. rewrite bool_decide_eq_true_2 by done. simpl negb.
  assert (checked_add (Z.of_nat HEADER_LEN) (Z.of_nat (length c)) = Some (Z.of_nat (HEADER_LEN + length c))) as ->.
  { apply checked_add_Some. rewrite u64_bound_val. unfold HEADER_LEN. lia. }
  cbn [mbind option_bind]. rewrite Z.ltb_irrefl, Z.ltb_irrefl. cbn [orb].
  rewrite !Nat2Z.id. do 2 f_equal. change (drop HEADER_LEN (build_kxe c e f)) with c. by apply take_ge.
Qed.

(** What the build writes, the loader reads.  For any code, entry offset and
    flags, [parse_kxe] of the image written by [build_kxe] returns exactly that
    code, those flags, and the entry point at that offset above the user base. *)
Theorem kxe_roundtrip (c : list Z) (e f : Z) :
  0 <= e < 2 ^ 64 - USER_BASE -> 0 <= f < 2 ^ 32 -> Z.of_nat (length c) < 2 ^ 63 ->
  parse_kxe (build_kxe c e f) = Some (mkImage (USER_BASE + e) c f).
Proof.
  intros He Hf Hc. rewrite parse_build by (unfold USER_BASE in *; lia).
  rewrite wrap64_small; [done|]. unfold is_u64, USER_BASE in *. rewrite u64_bound_val. lia.
Qed.

(** The loader never reads outside the file.  Whatever bytes a program file
    holds, an accepted image's code is the file's bytes between an offset past the
    header and an end inside the file; a file that is too short, has another magic
    number, or whose sizes overflow or overrun it is refused. *)
Theorem parse_kxe_bounds (image : list Z) :
  Forall (fun b => 0 <= b < 256) image ->
  match parse_kxe image with
  | Some k => exists off, (HEADER_LEN <= off)%nat /\ (off + length (code k) <= length image)%nat /\
                          code k = take (length (code k)) (drop off image) /\ take 4 image = KXE_MAGIC
  | None =>
      (length image < HEADER_LEN)%nat \/ take 4 image <> KXE_MAGIC \/
      u64_bound <= field image 12 8 + field image 20 8 \/ field image 12 8 < Z.of_nat HEADER_LEN \/
      Z.of_nat (length image) < field image 12 8 + field image 20 8
  end.
Proof.
  intros Hb. assert (forall off n, 0 <= field image off n) as Hpos.
  { intros off n. unfold field. assert (Forall (fun b => 0 <= b < 256) (take n (drop off image))) as Hl
      by by apply Forall_take, Forall_drop.
    induction Hl; simpl; lia. }
  pose proof (Hpos 12%nat 8%nat) as H12. pose proof (Hpos 20%nat 8%nat) as H20.
  unfold parse_kxe. destruct (Nat.ltb_spec (length image) HEADER_LEN); [by left|].
  cbn [read_header magic code_offset h_code_size h_entry h_flags].
  case_bool_decide as Hm; cbn [negb]; [|by right; left].
  destruct (checked_add _ _) as [stop|] eqn:Hs; cbn [mbind option_bind].
  2:{ unfold checked_add in Hs. split_ifs. right. right. left. lia. }
  apply checked_add_Some in Hs as [-> Hlt].
  destruct (_ || _) eqn:Ho.
  { right. right. right. apply orb_true_iff in Ho as [?|?]; zbool; [by left|by right]. }
  zbool. cbn [code]. set (off := field image 12 8) in *. set (n := field image 20 8) in *.
  exists (Z.to_nat off).
  assert (length (take (Z.to_nat n) (drop (Z.to_nat off) image)) = Z.to_nat n) as Hl.
  { rewrite length_take, length_drop. lia. }
  rewrite Hl. split_and!; [lia|lia|done|done].
Qed.

(** The entry point is not checked: the offset is added modulo [2^64], so an image
    can name any address at all, kernel addresses included. *)
Theorem kxe_entry_anywhere (x : Z) :
  is_u64 x -> exists image k, parse_kxe image = Some k /\ entry k = x.
Proof.
  intros Hx. exists (build_kxe [] (wrap64 (x - USER_BASE)) 0). eexists. split.
  - apply parse_build; [apply wrap64_range|lia|done].
  - cbn [entry]. unfold wrap64. rewrite Zplus_mod_idemp_r. replace (USER_BASE + (x - USER_BASE)) with x by lia.
    by apply Z.mod_small.
Qed.

(** * Arguments *)

(** A string with no zero byte. *)
Definition no_zero (a : list Z) : Prop := Forall (fun b => b <> 0) a.

Lemma take_arg_app (a r : list Z) : no_zero a -> take_arg (a ++ 0 :: r) = (a, r).
Proof.
  induction 1 as [|b a Hb Ha IH]; simpl; [done|]. unfold is_zero. rewrite (proj2 (Z.eqb_neq b 0)) by done. by rewrite IH.
Qed.

Lemma parse_args_cons (a r : list Z) (fuel : nat) :
  no_zero a -> a <> [] -> parse_args (S fuel) (a ++ 0 :: r) = a :: parse_args fuel r.
Proof.
  intros Hz Hne. cbn [parse_args]. rewrite take_arg_app by done. destruct a as [|b a]; [done|]. cbn [app].
  apply Forall_cons in Hz as [Hb _]. unfold is_zero. by rewrite (proj2 (Z.eqb_neq b 0)).
Qed.

Lemma parse_args_app (args : list (list Z)) (fuel : nat) (r : list Z) :
  Forall (fun a => no_zero a /\ a <> []) args -> (length args < fuel)%nat ->
  parse_args fuel (terminated args ++ 0 :: r) = args.
Proof.
  intros Ha. revert fuel. induction Ha as [|a args [Hz Hne] Ha IH]; intros [|fuel] Hf; simpl in Hf; try lia; [done|].
  unfold terminated. rewrite bind_cons, <- !(assoc_L (++)). cbn [app]. rewrite parse_args_cons by done. f_equal. apply IH. lia.
Qed.

Lemma position_zero (p r : list Z) : no_zero p -> position is_zero (p ++ 0 :: r) = Some (length p).
Proof.
  induction 1 as [|b p Hb Hp IH]; simpl; [done|]. unfold is_zero at 1. rewrite (proj2 (Z.eqb_neq b 0)) by done.
  by rewrite IH.
Qed.

Lemma length_blocks (args : list (list Z)) : (length args <= length (terminated args))%nat.
Proof. unfold terminated. induction args as [|a args IH]; [done|]. rewrite bind_cons, !length_app. cbn [length]. lia. Qed.

(** The block ends at the first empty argument. *)
Lemma split_block_app (path : list Z) (args : list (list Z)) (r : list Z) :
  no_zero path -> Str.utf8_valid path = true -> Forall (fun a => no_zero a /\ a <> []) args ->
  split_block (path ++ 0 :: terminated args ++ 0 :: r) = (path, args).
Proof.
  intros Hp Hu Ha. unfold split_block. rewrite position_zero by done. cbv zeta. cbn [from_option id].
  rewrite take_app_length, Hu. f_equal. pose proof (length_blocks args) as Hlb.
  set (blk := terminated args) in *.
  assert (length (path ++ 0 :: blk ++ 0 :: r) = (length path + 2 + length blk + length r)%nat) as Hlen.
  { rewrite length_app. simpl. rewrite length_app. simpl. lia. }
  rewrite (proj2 (Nat.ltb_lt _ _)) by lia.
  rewrite drop_app_add. cbn [drop]. apply parse_args_app; [done|lia].
Qed.

(** Program arguments survive the system call.  For every path and every
    list of non-empty arguments without zero bytes, the block the user runtime
    encodes ([sys_exec_with]) is split by [sys_exec] into exactly that path and
    those arguments. *)
Theorem args_roundtrip (path : list Z) (args : list (list Z)) :
  no_zero path -> Str.utf8_valid path = true -> Forall (fun a => no_zero a /\ a <> []) args ->
  split_block (encode_args path args) = (path, args).
Proof. apply split_block_app. Qed.

(** An empty argument ends the list: it and everything after it is lost. *)
Theorem empty_arg_truncates (path : list Z) (args rest : list (list Z)) :
  no_zero path -> Str.utf8_valid path = true -> Forall (fun a => no_zero a /\ a <> []) args ->
  split_block (encode_args path (args ++ [] :: rest)) = (path, args).
Proof.
  intros Hp Hu Ha. unfold encode_args, terminated. cbn [app]. rewrite bind_app, bind_cons, <- !(assoc_L (++)). cbn [app].
  by apply split_block_app.
Qed.

(** * The initial stack *)

Lemma byte_run_ext (m m' : gmap Z Z) (p n : Z) :
  (forall a, p <= a < p + n -> m' !! a = m !! a) -> Uaccess.byte_run m' p n = Uaccess.byte_run m p n.
Proof.
  intros He. unfold Uaccess.byte_run. apply list_fmap_ext. intros i k Hk%lookup_seqZ.
  destruct Hk as [-> Hk]. rewrite He by lia. done.
Qed.

Lemma store_outside (m : gmap Z Z) (p : Z) (src : list Z) (a : Z) :
  ~ (p <= a < p + Z.of_nat (length src)) -> Uaccess.store m p src !! a = m !! a.
Proof. intros Ha. by rewrite Uaccess.store_lookup, decide_False. Qed.

Lemma string_bytes_nonneg (args : list (list Z)) : 0 <= string_bytes args.
Proof. apply zsum_nonneg. intros a. lia. Qed.

(** The loop writes the pointer slots and the strings, in two separate regions. *)
Lemma push_loop_spec (args : list (list Z)) (slot ks us : Z) (m : gmap Z Z) :
  slot + 8 * Z.of_nat (length args) <= ks -> 0 <= ks -> 0 <= us ->
  ks + string_bytes args < u64_bound -> us + string_bytes args < u64_bound ->
  let m' := push_loop args slot ks us m in
  (forall a, ~ (slot <= a < slot + 8 * Z.of_nat (length args)) -> ~ (ks <= a < ks + string_bytes args) ->
             m' !! a = m !! a) /\
  forall i arg, args !! i = Some arg ->
    let off := string_bytes (take i args) in
    Uaccess.byte_run m' (slot + 8 * Z.of_nat i) 8 = to_le 8 (us + off) /\
    Uaccess.byte_run m' (ks + off) (Z.of_nat (length arg) + 1) = arg ++ [0].
Proof.
  revert slot ks us m. induction args as [|a args IH]; intros slot ks us m Hs Hk Hu Hkb Hub; cbn [push_loop].
  { split; [done|]. intros i arg Hi. done. }
  set (n := Z.of_nat (length a) + 1) in *.
  assert (string_bytes (a :: args) = n + string_bytes args) as Hsb by done.
  pose proof (string_bytes_nonneg args) as Hnn. rewrite Hsb in *. cbn [length] in Hs.
  rewrite !wrap64_small by (unfold is_u64; lia).
  set (m1 := Uaccess.store (Uaccess.store m slot (to_le 8 us)) ks (a ++ [0])).
  assert (Z.of_nat (length (a ++ [0])) = n) as Hla by (rewrite length_app; simpl; lia).
  assert (Z.of_nat (length (to_le 8 us)) = 8) as Hl8 by (by rewrite length_to_le).
  destruct (IH (slot + 8) (ks + n) (us + n) m1) as [Hout Hin]; [lia..|]. cbv zeta. split.
  - intros x Hx1 Hx2. cbn [length] in Hx1. rewrite Hout by lia. unfold m1.
    rewrite store_outside by lia. by rewrite store_outside by lia.
  - intros [|i] arg Hi; simpl in Hi.
    + injection Hi as <-. cbn [take]. change (string_bytes []) with 0. rewrite !Z.add_0_r. split.
      * rewrite (byte_run_ext (Uaccess.store m slot (to_le 8 us))).
        -- pose proof (Uaccess.byte_run_store m slot (to_le 8 us)) as Hr. by rewrite Hl8 in Hr.
        -- intros x Hx. rewrite Hout by lia. unfold m1. by rewrite store_outside by lia.
      * rewrite (byte_run_ext m1).
        -- pose proof (Uaccess.byte_run_store (Uaccess.store m slot (to_le 8 us)) ks (a ++ [0])) as Hr.
           by rewrite Hla in Hr.
        -- intros x Hx. apply Hout; lia.
    + destruct (Hin i arg Hi) as [H1 H2]. cbn [take].
      change (string_bytes (a :: take i args)) with (n + string_bytes (take i args)). split.
      * replace (slot + 8 * Z.of_nat (S i)) with (slot + 8 + 8 * Z.of_nat i) by lia.
        rewrite H1. f_equal. lia.
      * rewrite <- H2. f_equal. lia.
Qed.

Definition stack_base : Z := USER_STACK_TOP - USER_STACK_SIZE.

(** Arguments that fit are placed inside the stack, at a 16-byte boundary. *)
Lemma args_base_fits (args : list (list Z)) :
  total_size args <= USER_STACK_SIZE ->
  args_base_of args mod 16 = 0 /\ stack_base <= args_base_of args /\
  args_base_of args + total_size args <= USER_STACK_TOP.
Proof.
  intros Ht. unfold args_base_of, stack_base.
  assert (0 <= total_size args) as H0.
  { unfold total_size, argv_array_size. pose proof (string_bytes_nonneg args). lia. }
  rewrite wrap64_small by (unfold is_u64, USER_STACK_TOP, USER_STACK_SIZE in *; rewrite u64_bound_val; lia).
  change 15 with (Z.ones 4). rewrite land_lnot_ones by lia. change (2 ^ 4) with 16.
  unfold USER_STACK_TOP, USER_STACK_SIZE in *. split.
  - rewrite Zminus_mod_idemp_r, Z.sub_diag. done.
  - pose proof (Z.mod_pos_bound (551903297536 - total_size args) 16 ltac:(lia)).
    pose proof (Z.div_mod (551903297536 - total_size args) 16 ltac:(lia)). lia.
Qed.

(** The bytes a program sees at user address [u] of its stack. *)
Definition stack_view (m : gmap Z Z) (stack_phys u n : Z) : list Z :=
  Uaccess.byte_run m (u - stack_base + stack_phys) n.

(** The kernel address the argument block is written at. *)
Lemma stack_kva (args : list (list Z)) (stack_phys : Z) :
  total_size args <= USER_STACK_SIZE -> 0 <= stack_phys -> stack_phys + USER_STACK_SIZE < u64_bound ->
  wrap64 (stack_phys + wrap64 (args_base_of args - stack_base)) = args_base_of args - stack_base + stack_phys.
Proof.
  intros Ht Hp Hb. destruct (args_base_fits args Ht) as (_ & H1 & H2).
  assert (0 <= total_size args) as H0.
  { unfold total_size, argv_array_size. pose proof (string_bytes_nonneg args). lia. }
  rewrite (wrap64_small (args_base_of args - stack_base)); [rewrite wrap64_small|];
    unfold is_u64, stack_base, USER_STACK_TOP, USER_STACK_SIZE in *; rewrite u64_bound_val in *; lia.
Qed.

Definition stack_layout (args : list (list Z)) (stack_phys : Z) (m : gmap Z Z) (r : Z * Z * Z * gmap Z Z) : Prop :=
  let '(rsp, argc, argv, m') := r in
  argc = Z.of_nat (length args) /\ argv = rsp + 8 /\ rsp mod 16 = 0 /\
  stack_base <= rsp /\ rsp + total_size args <= USER_STACK_TOP /\
  stack_view m' stack_phys rsp 8 = to_le 8 argc /\
  (forall i arg, args !! i = Some arg -> exists u,
     stack_view m' stack_phys (argv + 8 * Z.of_nat i) 8 = to_le 8 u /\
     rsp <= u /\ u + Z.of_nat (length arg) + 1 <= USER_STACK_TOP /\
     stack_view m' stack_phys u (Z.of_nat (length arg) + 1) = arg ++ [0]) /\
  stack_view m' stack_phys (argv + 8 * argc) 8 = to_le 8 0 /\
  (forall a, ~ (stack_phys <= a < stack_phys + USER_STACK_SIZE) -> m' !! a = m !! a).

Lemma string_bytes_take (args : list (list Z)) (i : nat) (arg : list Z) :
  args !! i = Some arg ->
  0 <= string_bytes (take i args) /\ string_bytes (take i args) + Z.of_nat (length arg) + 1 <= string_bytes args.
Proof.
  intros Hi. split; [apply string_bytes_nonneg|]. rewrite <- (take_drop_middle args i arg Hi) at 2.
  unfold string_bytes at 2. rewrite zsum_app. cbn [zsum foldr].
  pose proof (string_bytes_nonneg (drop (S i) args)) as Hd. unfold string_bytes, zsum in *. lia.
Qed.

Lemma push_args_layout (args : list (list Z)) (stack_phys : Z) (m : gmap Z Z) :
  args <> [] -> total_size args <= USER_STACK_SIZE -> 0 <= stack_phys -> stack_phys + USER_STACK_SIZE < u64_bound ->
  stack_layout args stack_phys m (push_args_onto_stack stack_phys stack_base args m).
Proof.
  intros Hne Ht Hp Hb. unfold push_args_onto_stack.
  destruct (Z.of_nat (length args) =? 0) eqn:E0; zbool; [destruct args; simpl in *; [done|lia]|].
  rewrite (stack_kva args stack_phys Ht Hp Hb). destruct (args_base_fits args Ht) as (Hal & Hlo & Hhi).
  set (base := args_base_of args) in *. set (kva := base - stack_base + stack_phys).
  set (n := Z.of_nat (length args)) in *. pose proof (string_bytes_nonneg args) as Hsb.
  assert (total_size args = (n + 2) * 8 + string_bytes args) as Hts by done.
  assert (argv_array_size args = (n + 2) * 8) as Has by done. rewrite Has.
  assert (0 <= stack_base /\ stack_base + USER_STACK_SIZE = USER_STACK_TOP /\ USER_STACK_TOP < u64_bound)
    as (Hs0 & Hs1 & Hs2) by done.
  destruct (push_loop_spec args (kva + 8) (kva + (n + 2) * 8) (base + (n + 2) * 8) m) as [Hout Hin];
    [fold n; lia|lia|lia|lia|lia|]. fold n in Hout.
  set (m1 := push_loop _ _ _ _ _) in *.
  set (m2 := Uaccess.store m1 (kva + 8 * (n + 1)) (to_le 8 0)). set (m3 := Uaccess.store m2 kva (to_le 8 n)).
  assert (forall v, Z.of_nat (length (to_le 8 v)) = 8) as Hl8 by (intros v; by rewrite length_to_le).
  assert (forall a k, ~ (kva <= a < kva + 8) -> ~ (kva + 8 * (n + 1) <= a < kva + 8 * (n + 2)) -> k = m1 !! a ->
                      m3 !! a = k) as Hm3.
  { intros a k H1 H2 ->. unfold m3. rewrite store_outside by (rewrite Hl8; lia). unfold m2.
    by rewrite store_outside by (rewrite Hl8; lia). }
  split_and!; [done|done|done|done|lia| | | |].
  - pose proof (Uaccess.byte_run_store m2 kva (to_le 8 n)) as Hr. by rewrite Hl8 in Hr.
  - intros i arg Hi. pose proof (lookup_lt_Some _ _ _ Hi) as Hlt. destruct (Hin i arg Hi) as [H1 H2].
    destruct (string_bytes_take args i arg Hi) as [Ho1 Ho2]. set (off := string_bytes (take i args)) in *.
    exists (base + (n + 2) * 8 + off). split_and!; [|lia|lia|]; unfold stack_view.
    + replace (base + 8 + 8 * Z.of_nat i - stack_base + stack_phys) with (kva + 8 + 8 * Z.of_nat i) by lia.
      rewrite (byte_run_ext m1); [done|]. intros a Ha. apply Hm3; [lia|lia|done].
    + replace (base + (n + 2) * 8 + off - stack_base + stack_phys) with (kva + (n + 2) * 8 + off) by lia.
      rewrite (byte_run_ext m1); [done|]. intros a Ha. apply Hm3; [lia|lia|done].
  - unfold stack_view. replace (base + 8 + 8 * n - stack_base + stack_phys) with (kva + 8 * (n + 1)) by lia.
    rewrite (byte_run_ext m2).
    + pose proof (Uaccess.byte_run_store m1 (kva + 8 * (n + 1)) (to_le 8 0)) as Hr. by rewrite Hl8 in Hr.
    + intros a Ha. unfold m3. by rewrite store_outside by (rewrite Hl8; lia).
  - intros a Ha. apply Hm3; [lia|lia|]. symmetry. apply Hout; lia.
Qed.

(** The argument stack.  For every non-empty argument list that fits the 64 KiB
    stack, [push_args_onto_stack] builds the documented layout as the new program
    will see it: a 16-byte aligned stack pointer at [argc], then [argc] pointers
    and a null pointer, each pointer a user address inside the stack at which the
    argument's bytes stand, followed by a zero byte; and it writes nothing outside
    of the stack's frames. *)
Theorem argv_layout (args : list (list Z)) (stack_phys : Z) (m : gmap Z Z) :
  args <> [] -> total_size args <= USER_STACK_SIZE -> 0 <= stack_phys -> stack_phys + USER_STACK_SIZE < u64_bound ->
  stack_layout args stack_phys m (push_args_onto_stack stack_phys stack_base args m).
Proof. apply push_args_layout. Qed.

(** Arguments larger than the stack.  Nothing bounds the argument block by the
    stack size ([sys_exec] accepts 16 MiB): with more than 64 KiB the block starts
    below the stack, and the loader writes the argument count through the identity
    map into physical memory below the stack's frames, which belongs to someone
    else. *)
Theorem args_overflow_stack (args : list (list Z)) (stack_phys : Z) (m : gmap Z Z) :
  args <> [] -> USER_STACK_SIZE < total_size args -> total_size args + 16 <= stack_phys ->
  stack_phys < 2 ^ 52 -> total_size args < USER_STACK_TOP ->
  let '(rsp, argc, _, m') := push_args_onto_stack stack_phys stack_base args m in
  rsp < stack_base /\ exists a, a < stack_phys /\ Uaccess.byte_run m' a 8 = to_le 8 argc.
Proof.
  intros Hne Ht Hsp Hb Htop. unfold push_args_onto_stack.
  destruct (Z.of_nat (length args) =? 0) eqn:E0; zbool; [destruct args; simpl in *; [done|lia]|].
  assert (args_base_of args = USER_STACK_TOP - total_size args - (USER_STACK_TOP - total_size args) mod 16) as Hab.
  { unfold args_base_of. rewrite wrap64_small by (unfold is_u64, USER_STACK_TOP, USER_STACK_SIZE in *; rewrite u64_bound_val; lia).
    change 15 with (Z.ones 4). by rewrite land_lnot_ones by lia. }
  pose proof (Z.mod_pos_bound (USER_STACK_TOP - total_size args) 16 ltac:(lia)) as Hm.
  assert (wrap64 (stack_phys + wrap64 (args_base_of args - stack_base)) = stack_phys + (args_base_of args - stack_base)) as ->.
  { unfold wrap64. rewrite Zplus_mod_idemp_r. apply Z.mod_small.
    unfold stack_base, USER_STACK_TOP, USER_STACK_SIZE in *. rewrite u64_bound_val. lia. }
  split; [unfold stack_base; lia|]. exists (stack_phys + (args_base_of args - stack_base)).
  split; [unfold stack_base; lia|].
  match goal with |- Uaccess.byte_run (Uaccess.store ?x ?p ?l) _ _ = _ =>
    pose proof (Uaccess.byte_run_store x p l) as Hr end.
  by rewrite length_to_le in Hr.
Qed.

(** * The address space of a new process *)

Lemma zero_region_lookup (base size : Z) (m : gmap Z Z) (a : Z) :
  ~ (base <= a < base + size) -> Thread.zero_region base size m !! a = m !! a.
Proof.
  intros Ha. unfold Thread.zero_region. rewrite map_lookup_filter.
  destruct (m !! a) as [v|] eqn:E; simpl; [|done]. by rewrite option_guard_True.
Qed.

Section Space.
Context {A : Type} `{TA : TableAllocator A} `{!TableAllocatorLaws A}.
Implicit Types (v : Vmm.State A) (kinds : gmap Z (Z * list Z)) (s : State A).
Notation space kinds r := (kinds !! r = Some (r, @nil Z)).

(** A whole number of pages, as leaves. *)
Lemma map_range_leaves v v' kinds (cr3 root virt phys n fl : Z) :
  Vmm.inv v kinds -> space kinds root -> Z.land cr3 Vmm.ADDR_MASK = root -> Vmm.user_flags fl ->
  0 < n -> virt mod 4096 = 0 -> Vmm.USER_MIN <= virt -> virt + n * 4096 <= Vmm.USER_MAX ->
  0 <= phys -> phys + n * 4096 <= 2 ^ 52 ->
  Vmm.map_range cr3 virt phys (n * 4096) fl v = (Ok tt, v') ->
  (exists kinds', kinds ⊆ kinds' /\ Vmm.inv v' kinds') /\
  forall root' w, space kinds root' -> Vmm.is_user w ->
    Vmm.leaf (Vmm.mem v') root' w =
    if decide (root' = root /\ 0 <= w / 4096 - virt / 4096 < n)
    then Some (Vmm.leaf_entry (phys + (w / 4096 - virt / 4096) * 4096) fl) else Vmm.leaf (Vmm.mem v) root' w.
Proof using All.
  intros Hi Hr Hcr Hf Hn Hal Hlo Hhi Hp Hpb. unfold Vmm.map_range.
  destruct (n * 4096 =? 0) eqn:E0; zbool; [lia|]. unfold Vmm.PAGE_SIZE. rewrite div_ceil_mul by lia.
  intros Hm. destruct (Vmm.map_pages_spec (Z.to_nat n) v v' kinds 0 cr3 root virt phys fl) as [Hinv Hl]; try done.
  { intros k Hk. unfold Vmm.is_user. rewrite u64_bound_val. lia. }
  split; [done|]. intros root' w Hr' Hw. rewrite (Hl root' w Hr' Hw). cbv zeta. by rewrite Z2Nat.id by lia.
Qed.

(** [alloc_page_range]: a run of free frames, marked used and zeroed. *)
Lemma alloc_page_range_spec (size : Z) s (phys n : Z) s' (p : Pmm.Pmm) :
  pool s = Some p -> Pmm.wf p -> alloc_page_range size s = (Some (phys, n), s') ->
  exists f p', phys = f * 4096 /\ 0 <= f /\ n = Z.max (div_ceil size 4096) 1 /\ f + n < Pmm.total_frames p /\
    s' = set_pmem (Thread.zero_region phys (n * 4096) (pmem s)) (set_pool (Some p') s) /\ Pmm.wf p' /\
    Pmm.total_frames p' = Pmm.total_frames p /\
    (forall g, f <= g < f + n -> Pmm.used p g = false /\ Pmm.used p' g = true) /\
    (forall g, Pmm.frame_ok p g -> Pmm.used p g = true -> Pmm.used p' g = true).
Proof.
  intros Hp Hw. unfold alloc_page_range. set (n0 := Z.max (div_ceil size 4096) 1). rewrite Hp.
  pose proof (Pmm.alloc_frames_meets p n0 Hw ltac:(lia)) as Hpost.
  assert (forall q, snd (Pmm.alloc_frames n0 (Some p)) = Some q -> Pmm.total_frames q = Pmm.total_frames p) as Htot.
  { unfold Pmm.alloc_frames. intros q. destruct (Pmm.find_run _ _ _ _); intros [= <-]; done. }
  destruct (Pmm.alloc_frames n0 (Some p)) as [[a|] [p'|]]; try done. cbn [Pmm.alloc_frames_post] in Hpost.
  destruct Hpost as (f & -> & Hf0 & Hlt & Hw' & Hfree & Hused & _). intros [= <- <- <-].
  unfold Pmm.FRAME_SIZE. exists f, p'. split_and!; try done; [by apply Htot| |].
  - intros g Hg. split; [by apply Hfree|]. rewrite Hused by (unfold Pmm.frame_ok; lia).
    rewrite (proj2 (Z.leb_le f g)), (proj2 (Z.ltb_lt g (f + n0))) by lia. done.
  - intros g Hg Hu. rewrite Hused, Hu by done. apply orb_true_r.
Qed.
(** The pages of the code. *)
Definition code_pages (c : list Z) : Z := Z.max (div_ceil (Z.of_nat (length c)) 4096) 1.

(** What a new process finds: [e] its entry point, [c] its code. *)
Definition space_post kinds s (e : Z) (c : list Z) (args : list (list Z)) (sp : ProcessSpace) s' : Prop :=
  let root := sp_cr3 sp in
  let base := Z.land e (Z.lnot 4095) in
  kinds !! root = None /\
  (exists kinds', <[root := (root, [])]> kinds ⊆ kinds' /\ Vmm.inv (vm s') kinds') /\
  Vmm.spaces_same kinds (vm s) (vm s') /\
  exists cp kp p p',
    pool s = Some p /\ pool s' = Some p' /\ Pmm.wf p' /\
    sp_frames sp = [(cp * 4096, code_pages c); (kp * 4096, 16)] /\
    (forall g, cp <= g < cp + code_pages c \/ kp <= g < kp + 16 -> Pmm.used p g = false /\ Pmm.used p' g = true) /\
    (cp + code_pages c <= kp \/ kp + 16 <= cp) /\
    (forall w, Vmm.is_user w -> Vmm.leaf (Vmm.mem (vm s')) root w =
       if decide (0 <= w / 4096 - base / 4096 < code_pages c)
       then Some (Vmm.leaf_entry (cp * 4096 + (w / 4096 - base / 4096) * 4096) Vmm.USER_READ_WRITE)
       else if decide (stack_base <= w < USER_STACK_TOP)
       then Some (Vmm.leaf_entry (kp * 4096 + (w / 4096 - stack_base / 4096) * 4096)
                    (Vmm.no_execute Vmm.USER_READ_WRITE))
       else None) /\
    Uaccess.byte_run (pmem s') (cp * 4096) (Z.of_nat (length c)) = c /\
    (args <> [] -> exists m, stack_layout args (kp * 4096) m (initial_rsp sp, sp_argc sp, sp_argv sp, pmem s')).

(** Arguments leave everything outside of the stack's frames alone. *)
Lemma push_args_outside (args : list (list Z)) (kva : Z) (m : gmap Z Z) (a : Z) :
  total_size args <= USER_STACK_SIZE -> 0 <= kva -> kva + USER_STACK_SIZE < u64_bound ->
  ~ (kva <= a < kva + USER_STACK_SIZE) -> snd (push_args_onto_stack kva stack_base args m) !! a = m !! a.
Proof.
  intros Ht Hk Hb Ha. destruct (decide (args = [])) as [->|Hne]; [done|].
  pose proof (push_args_layout args kva m Hne Ht Hk Hb) as Hl. unfold stack_layout in Hl.
  destruct (push_args_onto_stack kva stack_base args m) as [[[rsp argc] argv] m']. cbn [snd]. by apply Hl.
Qed.

Lemma code_pages_bound (c : list Z) : 0 < code_pages c /\ Z.of_nat (length c) <= code_pages c * 4096.
Proof. unfold code_pages. pose proof (div_ceil_spec (Z.of_nat (length c)) 4096 ltac:(lia) ltac:(lia)). lia. Qed.

Lemma user_rw_nx_flags : Vmm.user_flags Vmm.USER_READ_WRITE /\ Vmm.user_flags (Vmm.no_execute Vmm.USER_READ_WRITE).
Proof. split; (split; [vm_compute; reflexivity|vm_compute; reflexivity]). Qed.

Lemma space_meets kinds s (e : Z) (c : list Z) (args : list (list Z)) (sp : ProcessSpace) s' (p : Pmm.Pmm) :
  Vmm.inv (vm s) kinds -> Vmm.table_ok (Vmm.kernel_pml4 (vm s)) -> ta_owned (Vmm.tables (vm s)) (Vmm.kernel_pml4 (vm s)) ->
  pool s = Some p -> Pmm.wf p -> Pmm.total_frames p * 4096 <= 2 ^ 52 ->
  Vmm.USER_MIN <= Z.land e (Z.lnot 4095) -> Z.land e (Z.lnot 4095) + code_pages c * 4096 <= stack_base ->
  total_size args <= USER_STACK_SIZE ->
  create_process_space e c args s = (Some sp, s') -> space_post kinds s e c args sp s'.
Proof using All.
  intros Hi Hk Hown Hp Hw Hbig Hlo Hhi Ht. unfold create_process_space, on_vm.
  destruct (Vmm.create_address_space (vm s)) as [[cr3|?] v1] eqn:E1; [|done].
  pose proof (Vmm.create_meets _ _ _ _ Hi Hk Hown E1) as (Hnew & Hi1 & Hss1 & Hleaf1 & _).
  fold (code_pages c). destruct (code_pages_bound c) as [Hcp0 Hcpl].
  destruct (alloc_page_range _ (set_vm v1 s)) as [[[cphys cn]|] s2] eqn:E2; [|done].
  edestruct (alloc_page_range_spec _ (set_vm v1 s) cphys cn s2 p Hp Hw E2)
    as (cf & p2 & -> & Hcf0 & -> & Hcf1 & -> & Hw2 & Ht2 & Hc2 & Hmono2).
  assert (Z.max (div_ceil (code_pages c * 4096) 4096) 1 = code_pages c) as Hdc by (rewrite div_ceil_mul; lia).
  rewrite Hdc in *. clear Hdc E2. cbn [set_pmem set_pool set_vm vm pmem pool].
  set (m2 := Uaccess.store _ _ c) in *.
  set (base := Z.land e (Z.lnot 4095)) in *.
  assert (base mod 4096 = 0) as Hal.
  { unfold base. change 4095 with (Z.ones 12). rewrite land_lnot_ones by lia. change (2 ^ 12) with 4096.
    rewrite Zminus_mod_idemp_r, Z.sub_diag. done. }
  destruct (Vmm.map_range cr3 base _ _ _ v1) as [[u3|?] v3] eqn:E3; [destruct u3|done].
  assert (space (<[cr3:=(cr3, [])]> kinds) cr3) as Hroot by by rewrite lookup_insert_eq.
  destruct (Vmm.inv_table _ _ Hi1 _ _ _ Hroot) as [[Hcr0 Hcr1] _].
  assert (Z.land cr3 Vmm.ADDR_MASK = cr3) as Hcr by (apply Vmm.land_addr_mask_id; [lia|done]).
  destruct user_rw_nx_flags as [Hfl Hfn].
  assert (stack_base < Vmm.USER_MAX /\ Vmm.USER_MIN <= stack_base /\ stack_base mod 4096 = 0 /\
          stack_base + 16 * 4096 = USER_STACK_TOP /\ USER_STACK_TOP < Vmm.USER_MAX) as (Hsb1 & Hsb2 & Hsb3 & Hsb4 & Hsb5) by done.
  destruct (map_range_leaves v1 v3 _ cr3 cr3 base (cf * 4096) (code_pages c) _ Hi1 Hroot Hcr Hfl)
    as [(k3 & Hs3 & Hi3) Hleaf3]; [lia|done|lia|lia|lia|lia|done|].
  match goal with |- context [alloc_page_range USER_STACK_SIZE ?x] => set (s3 := x) end.
  destruct (alloc_page_range USER_STACK_SIZE s3) as [[[kphys kn]|] s4] eqn:E4; [|done].
  edestruct (alloc_page_range_spec _ s3 kphys kn s4 p2 eq_refl Hw2 E4)
    as (kf & p4 & -> & Hkf0 & -> & Hkf1 & -> & Hw4 & Ht4 & Hc4 & Hmono4).
  change (Z.max (div_ceil USER_STACK_SIZE 4096) 1) with 16 in *. clear E4.
  cbn [set_pmem set_pool set_vm vm pmem pool s3].
  change USER_STACK_SIZE with (16 * 4096) at 1.
  destruct (Vmm.map_range cr3 _ _ _ _ v3) as [[u5|?] v5] eqn:E5; [destruct u5|done].
  fold stack_base in E5 |- *.
  pose proof (lookup_weaken _ _ _ _ Hroot Hs3) as Hroot3.
  destruct (map_range_leaves v3 v5 k3 cr3 cr3 stack_base (kf * 4096) 16 _ Hi3 Hroot3 Hcr Hfn)
    as [(k5 & Hs5 & Hi5) Hleaf5]; [lia|done|lia|lia|lia|lia|done|].
  assert (kf * 4096 + USER_STACK_SIZE < u64_bound) as Hkb
    by (rewrite u64_bound_val; change USER_STACK_SIZE with (16 * 4096); lia).
  assert (cf + code_pages c <= kf \/ kf + 16 <= cf) as Hdisj.
  { destruct (decide (cf + code_pages c <= kf \/ kf + 16 <= cf)) as [|Hn]; [done|]. exfalso.
    destruct (Hc2 (Z.max cf kf) ltac:(lia)) as [_ Hu]. destruct (Hc4 (Z.max cf kf) ltac:(lia)) as [Hu' _]. congruence. }
  set (m4 := Thread.zero_region _ _ _).
  change (pmem (set_vm v5 _)) with m4.
  pose proof (push_args_outside args (kf * 4096) m4) as Hout.
  pose proof (push_args_layout args (kf * 4096) m4) as Hlay.
  destruct (push_args_onto_stack (kf * 4096) stack_base args m4) as [[[rsp argc] argv] m5]. cbn [snd] in Hout.
  intros [= <- <-]. unfold space_post.
  cbn [sp_cr3 sp_frames initial_rsp sp_argc sp_argv vm pool pmem set_pmem set_pool set_vm]. fold base.
  assert (Vmm.spaces_same kinds (vm s) v5) as Hss.
  { intros r w Hr Hu. assert (r <> cr3) as Hne by congruence.
    assert (space (<[cr3:=(cr3, [])]> kinds) r) as Hr1 by by rewrite lookup_insert_ne.
    rewrite (Hleaf5 r w (lookup_weaken _ _ _ _ Hr1 Hs3) Hu), decide_False by tauto.
    rewrite (Hleaf3 r w Hr1 Hu), decide_False by tauto. by apply Hss1. }
  split_and!; [done|exists k5; split; [by etransitivity|done]|done|].
  exists cf, kf, p, p4. split_and!; try done.
  - intros g [Hg|Hg].
    + destruct (Hc2 g Hg) as [Hu1 Hu2]. split; [done|]. apply Hmono4; [|done]. unfold Pmm.frame_ok. lia.
    + destruct (Hc4 g Hg) as [Hu1 Hu2]. split; [|done]. destruct (Pmm.used p g) eqn:Eu; [|done].
      rewrite Hmono2 in Hu1; [done| |done]. unfold Pmm.frame_ok. lia.
  - intros w Hu. rewrite (Hleaf5 cr3 w Hroot3 Hu), (Hleaf3 cr3 w Hroot Hu), (Hleaf1 w Hu).
    pose proof (Z.div_mod w 4096 ltac:(lia)). pose proof (Z.mod_pos_bound w 4096 ltac:(lia)).
    pose proof (Z.div_mod base 4096 ltac:(lia)). pose proof (Z.div_mod stack_base 4096 ltac:(lia)).
    repeat case_decide; try done; exfalso; lia.
  - rewrite (byte_run_ext m2); [apply Uaccess.byte_run_store|]. intros a Ha.
    rewrite Hout; [|done|lia|done|change USER_STACK_SIZE with (16 * 4096); lia]. unfold m4.
    apply zero_region_lookup. lia.
  - intros Hne. exists m4. apply Hlay; [done|done|lia|done].
Qed.

(** The address space of a new process.  When [create_process_space] succeeds it
    returns a page-table root no other space uses; in it the code's pages (readable,
    writable, user) and the sixteen stack pages (not executable) are mapped, page by
    page, to frames that were free and are now in use, and no other user page is
    mapped; the code frames hold the image's code and the stack frames the argument
    layout; every other address space translates as before. *)
Theorem process_space_spec kinds s (e : Z) (c : list Z) (args : list (list Z)) (sp : ProcessSpace) s' (p : Pmm.Pmm) :
  Vmm.inv (vm s) kinds -> Vmm.table_ok (Vmm.kernel_pml4 (vm s)) -> ta_owned (Vmm.tables (vm s)) (Vmm.kernel_pml4 (vm s)) ->
  pool s = Some p -> Pmm.wf p -> Pmm.total_frames p * 4096 <= 2 ^ 52 ->
  Vmm.USER_MIN <= Z.land e (Z.lnot 4095) -> Z.land e (Z.lnot 4095) + code_pages c * 4096 <= stack_base ->
  total_size args <= USER_STACK_SIZE ->
  create_process_space e c args s = (Some sp, s') -> space_post kinds s e c args sp s'.
Proof. apply space_meets. Qed.
End Space.

(** * A machine with 64 free frames, and its witnesses *)

Module Example.
Definition frames (n : nat) : Pmm.Pmm := Pmm.mkPmm (replicate n 0) (8 * Z.of_nat n) (8 * Z.of_nat n) 0.
Definition boot (n : nat) : State HeapTables :=
  mkState VmmExample.boot (Some (frames n)) ∅ [] Vfs.Example.nodes0 (Fd.boot Fd.Example.w0) Process.Example.st.
Definition prog : list Z := [144; 235; 254].
Definition args2 : list (list Z) := [[97]; [98; 99]].

Lemma frames_wf : Pmm.wf (frames 8).
Proof. split; simpl; [done| |lia]. repeat constructor; lia. Qed.

Definition made : ProcessSpace :=
  default (mkSpace 0 0 0 0 []) (fst (create_process_space USER_BASE prog args2 (boot 8))).
Definition after : State HeapTables := snd (create_process_space USER_BASE prog args2 (boot 8)).

Lemma made_ok : create_process_space USER_BASE prog args2 (boot 8) = (Some made, after).
Proof. unfold after. apply (pair_fst (create_process_space USER_BASE prog args2 (boot 8)) (Some made)). vm_compute. reflexivity. Qed.

Lemma process_space_spec_witness : space_post ∅ (boot 8) USER_BASE prog args2 made after.
Proof.
  destruct VmmExample.boot_inv as [Hi Hown].
  apply (process_space_spec ∅ (boot 8) USER_BASE prog args2 made after (frames 8));
    [exact Hi|split; [simpl; lia|reflexivity]|exact Hown|reflexivity|exact frames_wf|done|done|done|done|exact made_ok].
Defined.

Lemma kxe_roundtrip_witness : parse_kxe (build_kxe prog 1 1) = Some (mkImage (USER_BASE + 1) prog 1).
Proof. apply (kxe_roundtrip prog 1 1); [done|done|simpl; lia]. Defined.

(** An image whose code size says one byte too many. *)
Definition short_image : list Z := KXE_MAGIC ++ to_le 8 0 ++ to_le 8 36 ++ to_le 8 4 ++ to_le 4 0 ++ to_le 4 0 ++ prog.
Lemma parse_kxe_bounds_witness :
  (length short_image < HEADER_LEN)%nat \/ take 4 short_image <> KXE_MAGIC \/
  u64_bound <= field short_image 12 8 + field short_image 20 8 \/ field short_image 12 8 < Z.of_nat HEADER_LEN \/
  Z.of_nat (length short_image) < field short_image 12 8 + field short_image 20 8.
Proof.
  assert (Forall (fun b => 0 <= b < 256) short_image) as Hb by (vm_compute; repeat constructor; done).
  exact (parse_kxe_bounds short_image Hb).
Defined.

Lemma args_roundtrip_witness : split_block (encode_args [47; 97] args2) = ([47; 97], args2).
Proof.
  apply (args_roundtrip [47; 97] args2); [by repeat constructor|reflexivity|by repeat constructor].
Defined.

Lemma argv_layout_witness : stack_layout args2 4096 ∅ (push_args_onto_stack 4096 stack_base args2 ∅).
Proof. apply (argv_layout args2 4096 ∅); done. Defined.

Definition huge : list (list Z) := [replicate 65536 97].
Lemma args_overflow_stack_witness :
  let '(rsp, argc, _, m') := push_args_onto_stack 1048576 stack_base huge ∅ in
  rsp < stack_base /\ exists a, a < 1048576 /\ Uaccess.byte_run m' a 8 = to_le 8 argc.
Proof.
  assert (total_size huge = 65561) as Ht by (vm_compute; reflexivity).
  apply (args_overflow_stack huge 1048576 ∅); [done|by rewrite Ht|rewrite Ht; lia|done|by rewrite Ht].
Defined.

(** When the stack cannot be allocated, the code's frame stays in use and nothing
    records it: every failed spawn loses memory, and a page-table root. *)
Definition free_count (s : State HeapTables) : option Z := Pmm.st_free_frames <$> Pmm.stats (pool s).
Theorem failed_exec_leaks :
  let '(r, s) := create_process_space USER_BASE prog [] (boot 2) in
  r = None /\ free_count (boot 2) = Some 16 /\ free_count s = Some 15 /\ images s = [] /\
  length (ht_live (Vmm.tables (vm s))) = 5%nat /\ length (ht_live (Vmm.tables (vm (boot 2)))) = 1%nat.
Proof. vm_compute. split_and!; reflexivity. Qed.
End Example.

End Exec.
