(* ===== verification/Acpi.v ===== *)
(** ACPI tables: [crates/kernel/src/drivers/acpi.rs].

    Physical memory is a map from byte address, read through the identity map.  The
    packed structures are read field by field at their offsets ([Rsdp]: signature 0,
    revision 15, RSDT 16, XSDT 24; [SdtHeader]: signature 0, length 4, 36 bytes in
    all; [Madt]: LAPIC address 36, 44 bytes in all).  Address and length arithmetic
    is the source's 64-bit one. *)
From stdpp Require Import base list numbers option gmap.
From S2P Require Import Prelude Uaccess.

Open Scope Z_scope.

Module Acpi.

Definition RSDP_SIGNATURE : list Z := [82; 83; 68; 32; 80; 84; 82; 32].  (* "RSD PTR " *)
Definition APIC : list Z := [65; 80; 73; 67].
Definition SDT_HEADER : Z := 36.
Definition MADT : Z := 44.
Definition LOCAL_APIC : Z := 8.
Definition IO_APIC : Z := 12.
Definition SOURCE_OVERRIDE : Z := 10.

Section Memory.
Variable m : gmap Z Z.

(** [read_phys] of an [n]-byte integer and of [n] raw bytes. *)
Definition read_bytes (addr n : Z) : list Z := Uaccess.byte_run m addr n.
Definition read_int (addr n : Z) : Z := from_le (read_bytes addr n).

Definition parse_rsdp (rsdp_phys : Z) : option (Z * bool) :=
  if rsdp_phys =? 0 then None
  else if negb (bool_decide (read_bytes rsdp_phys 8 = RSDP_SIGNATURE)) then None
  else
    let revision := read_int (rsdp_phys + 15) 1 in
    let rsdt_addr := read_int (rsdp_phys + 16) 4 in
    let xsdt_addr := read_int (rsdp_phys + 24) 8 in
    if (2 <=? revision) && negb (xsdt_addr =? 0) then Some (xsdt_addr, true) else Some (rsdt_addr, false).

(** The entry slices of an RSDT ([w = 4]) and an XSDT ([w = 8]), as start and count. *)
Definition table_entries (w table_phys : Z) : Z * Z :=
  let length := read_int (table_phys + 4) 4 in
  (wrap64 (table_phys + SDT_HEADER), wrap64 (length - SDT_HEADER) / w).

(** The scan of the entries for a signature. *)
Fixpoint scan_entries (n : nat) (w entry : Z) (sig : list Z) : option Z :=
  match n with
  | O => None
  | S n' =>
      let entry_phys := read_int entry w in
      if bool_decide (read_bytes entry_phys 4 = sig) then Some entry_phys else scan_entries n' w (entry + w) sig
  end.

Definition find_table (sdt_phys : Z) (is_xsdt : bool) (sig : list Z) : option Z :=
  let w := if is_xsdt then 8 else 4 in
  let '(start, count) := table_entries w sdt_phys in scan_entries (Z.to_nat count) w start sig.
Definition find_madt (sdt_phys : Z) (is_xsdt : bool) : option Z := find_table sdt_phys is_xsdt APIC.

(** ** The interrupt controller table *)

(** [while ptr + 2 <= data_end], with the entry's type and length handed to [body]. *)
Fixpoint madt_loop {S : Type} (body : Z -> Z -> Z -> S -> S) (fuel : nat) (ptr data_end : Z) (s : S) : S :=
  match fuel with
  | O => s
  | Datatypes.S n =>
      if data_end <? wrap64 (ptr + 2) then s
      else
        let ty := read_int ptr 1 in
        let len := read_int (ptr + 1) 1 in
        if len =? 0 then s else madt_loop body n (wrap64 (ptr + len)) data_end (body ptr ty len s)
  end.

Record IoApicInfo := mkIoApic { io_id : Z; io_addr : Z; global_irq_base : Z }.
Record IrqOverride := mkOverride { bus_irq : Z; global_irq : Z; ov_flags : Z }.

(** A table of [length] bytes takes at most [length] turns. *)
Definition madt_walk {S : Type} (body : Z -> Z -> Z -> S -> S) (madt_phys : Z) (s : S) : S :=
  let header_length := read_int (madt_phys + 4) 4 in
  madt_loop body (Z.to_nat header_length + 1) (wrap64 (madt_phys + MADT)) (wrap64 (madt_phys + header_length)) s.

Definition lapic_body (ptr ty len : Z) (ids : list Z) : list Z :=
  if (ty =? 0) && (LOCAL_APIC <=? len) then
    if negb (Z.land (read_int (ptr + 4) 4) 1 =? 0) then ids ++ [read_int (ptr + 3) 1] else ids
  else ids.
Definition parse_cpu_lapic_ids (madt_phys : Z) : list Z := madt_walk lapic_body madt_phys [].

Record MadtInfo := mkInfo { ioapic : option IoApicInfo; irq_override : option IrqOverride; bsp_apic_id : Z }.

Definition madt_body (ptr ty len : Z) (i : MadtInfo) : MadtInfo :=
  if ty =? 0 then
    if LOCAL_APIC <=? len then
      if (read_int (ptr + 2) 1 =? 0) && negb (Z.land (read_int (ptr + 4) 4) 1 =? 0)
      then mkInfo (ioapic i) (irq_override i) (read_int (ptr + 3) 1) else i
    else i
  else if ty =? 1 then
    if IO_APIC <=? len
    then mkInfo (Some (mkIoApic (read_int (ptr + 2) 1) (read_int (ptr + 4) 4) (read_int (ptr + 8) 4))) (irq_override i) (bsp_apic_id i)
    else i
  else if (ty =? 2) && (SOURCE_OVERRIDE <=? len)
  then mkInfo (ioapic i) (Some (mkOverride (read_int (ptr + 3) 1) (read_int (ptr + 4) 4) (read_int (ptr + 8) 2))) (bsp_apic_id i)
  else i.
Definition parse_madt (madt_phys : Z) : Z * MadtInfo :=
  (read_int (madt_phys + 36) 4, madt_walk madt_body madt_phys (mkInfo None None 0)).
End Memory.

(** * What the tables say *)

(** A table entry: its type and the bytes after its two-byte header. *)
Record Entry := mkEntry { e_type : Z; e_body : list Z }.
Definition entry_len (e : Entry) : Z := 2 + Z.of_nat (length (e_body e)).
Definition encode_entry (e : Entry) : list Z := e_type e :: entry_len e :: e_body e.
Definition encode (es : list Entry) : list Z := es ≫= encode_entry.
Definition entry_ok (e : Entry) : Prop := entry_len e < 256.

(** An integer field inside an entry's body. *)
Definition field (e : Entry) (off n : nat) : Z := from_le (take n (drop off (e_body e))).

(** The meaning of one entry, from its own bytes. *)
Definition lapic_id (e : Entry) : option Z :=
  if (e_type e =? 0) && (6 <=? Z.of_nat (length (e_body e))) && Z.odd (field e 2 4) then Some (field e 1 1) else None.
Definition io_apic (e : Entry) : option IoApicInfo :=
  if (e_type e =? 1) && (10 <=? Z.of_nat (length (e_body e)))
  then Some (mkIoApic (field e 0 1) (field e 2 4) (field e 6 4)) else None.
Definition source_override (e : Entry) : option IrqOverride :=
  if (e_type e =? 2) && (8 <=? Z.of_nat (length (e_body e)))
  then Some (mkOverride (field e 1 1) (field e 2 4) (field e 6 2)) else None.
Definition boot_apic (e : Entry) : option Z :=
  if field e 0 1 =? 0 then lapic_id e else None.

(** [m] holds the bytes [l] from address [a] on. *)
Definition holds (m : gmap Z Z) (a : Z) (l : list Z) : Prop := Uaccess.byte_run m a (Z.of_nat (length l)) = l.

Lemma holds_app (m : gmap Z Z) (a : Z) (l1 l2 : list Z) :
  holds m a (l1 ++ l2) <-> holds m a l1 /\ holds m (a + Z.of_nat (length l1)) l2.
Proof.
  unfold holds, Uaccess.byte_run. rewrite length_app, Nat2Z.inj_add, seqZ_app by lia. rewrite fmap_app.
  assert (forall n, (fun k => default 0 (m !! (a + k))) <$> seqZ (0 + Z.of_nat (length l1)) n =
                    (fun k => default 0 (m !! (a + Z.of_nat (length l1) + k))) <$> seqZ 0 n) as ->.
  { intros n. rewrite <- (Z.add_0_r (0 + _)) at 1. replace (0 + Z.of_nat (length l1) + 0) with (Z.of_nat (length l1) + 0) by lia.
    rewrite <- (fmap_add_seqZ _ 0). rewrite <- list_fmap_compose. apply list_fmap_ext. intros i k _. simpl. do 2 f_equal. lia. }
  split.
  - intros Heq. apply app_inj_1 in Heq as [H1 H2]; [|rewrite length_fmap, length_seqZ; lia].
    rewrite H1 at 1. by rewrite H2 at 1.
  - intros [H1 H2]. rewrite H1 at 1. by rewrite H2 at 1.
Qed.

(** Reading a part of what is held. *)
Lemma holds_read (m : gmap Z Z) (a : Z) (l : list Z) (off n : nat) :
  holds m a l -> (off + n <= length l)%nat ->
  read_int m (a + Z.of_nat off) (Z.of_nat n) = from_le (take n (drop off l)).
Proof.
  intros Hl Hb. rewrite <- (take_drop off l) in Hl. apply holds_app in Hl as [_ Hl].
  rewrite length_take, Nat.min_l in Hl by lia. rewrite <- (take_drop n (drop off l)) in Hl.
  apply holds_app in Hl as [Hl _]. unfold holds in Hl. rewrite length_take, length_drop, Nat.min_l in Hl by lia.
  unfold read_int, read_bytes. by rewrite Hl at 1.
Qed.

Section Walk.
Context {S : Type} (m : gmap Z Z) (body : Z -> Z -> Z -> S -> S) (sem : Entry -> S -> S).
Hypothesis body_sem : forall ptr e s, holds m ptr (encode_entry e) -> body ptr (e_type e) (entry_len e) s = sem e s.

Lemma madt_loop_spec (fuel : nat) (ptr : Z) (es : list Entry) (s : S) :
  Forall entry_ok es -> holds m ptr (encode es) -> 0 <= ptr -> ptr + Z.of_nat (length (encode es)) + 2 < u64_bound ->
  (length es < fuel)%nat ->
  madt_loop m body fuel ptr (ptr + Z.of_nat (length (encode es))) s = foldl (fun s e => sem e s) s es.
Proof using body_sem.
  intros Hok. revert fuel ptr s. induction Hok as [|e es He Hes IH]; intros [|fuel] ptr s Hh Hp Hb Hf; simpl in Hf; try lia.
  - cbn [madt_loop encode mbind list_bind length]. rewrite wrap64_small by (unfold is_u64; cbn in Hb; lia).
    by rewrite (proj2 (Z.ltb_lt _ _)) by lia.
  - assert (encode (e :: es) = encode_entry e ++ encode es) as Henc by done. rewrite Henc in *.
    apply holds_app in Hh as [He' Hes']. rewrite length_app in *.
    assert (Z.of_nat (length (encode_entry e)) = entry_len e) as Hel by (unfold entry_len; simpl; lia).
    unfold entry_ok in He. assert (2 <= entry_len e) as He2 by (unfold entry_len; lia).
    rewrite Nat2Z.inj_add, Hel in *. cbn [madt_loop foldl].
    assert (read_int m ptr 1 = e_type e) as Hty.
    { pose proof (holds_read m ptr _ 0 1 He' ltac:(simpl; lia)) as H0. rewrite Z.add_0_r in H0.
      change (Z.of_nat 1) with 1 in H0. rewrite H0. simpl. lia. }
    assert (read_int m (ptr + 1) 1 = entry_len e) as Hlen.
    { pose proof (holds_read m ptr _ 1 1 He' ltac:(simpl; lia)) as H1. change (Z.of_nat 1) with 1 in H1.
      rewrite H1. simpl. lia. }
    rewrite Hty, Hlen, wrap64_small by (unfold is_u64; lia). rewrite (proj2 (Z.ltb_ge _ _)) by lia.
    rewrite (proj2 (Z.eqb_neq _ _)) by lia. rewrite wrap64_small by (unfold is_u64; lia).
    rewrite body_sem by done. replace (ptr + (entry_len e + Z.of_nat (length (encode es))))
      with (ptr + entry_len e + Z.of_nat (length (encode es))) by lia.
    apply IH; [done|lia|lia|lia].
Qed.
End Walk.

(** A multiple-APIC table: [mid] and [tail] are the header bytes the kernel ignores. *)
Definition madt_bytes (sig mid tail : list Z) (lapic : Z) (es : list Entry) : list Z :=
  sig ++ to_le 4 (MADT + Z.of_nat (length (encode es))) ++ mid ++ to_le 4 lapic ++ tail ++ encode es.

Record madt_at (m : gmap Z Z) (p : Z) (lapic : Z) (es : list Entry) : Prop := {
  ma_bytes : exists sig mid tail, length sig = 4%nat /\ length mid = 28%nat /\ length tail = 4%nat /\
               holds m p (madt_bytes sig mid tail lapic es);
  ma_entries : Forall entry_ok es;
  ma_addr : 0 <= p /\ p + 2 ^ 32 + 2 < u64_bound;
  ma_size : MADT + Z.of_nat (length (encode es)) < 2 ^ 32;
  ma_lapic : 0 <= lapic < 2 ^ 32;
}.

Lemma length_encode (es : list Entry) : (2 * length es <= length (encode es))%nat.
Proof.
  unfold encode. induction es as [|e es IH]; [done|]. rewrite bind_cons, length_app. simpl. lia.
Qed.

Lemma madt_fields (m : gmap Z Z) (p lapic : Z) (es : list Entry) :
  madt_at m p lapic es ->
  read_int m (p + 4) 4 = MADT + Z.of_nat (length (encode es)) /\ read_int m (p + 36) 4 = lapic /\
  holds m (p + MADT) (encode es).
Proof.
  intros [(sig & mid & tl & Hs & Hm & Ht & Hb) _ _ Hz Hl]. unfold madt_bytes in Hb.
  assert (forall l1 l2 v, holds m p (l1 ++ to_le 4 v ++ l2) -> 0 <= v < 2 ^ 32 ->
            read_int m (p + Z.of_nat (length l1)) 4 = v) as Hrd.
  { intros l1 l2 v Hh Hv. pose proof (holds_read m p _ (length l1) 4 Hh) as Hr. rewrite drop_app_length in Hr.
    rewrite take_app_le in Hr by (by rewrite length_to_le). rewrite take_ge in Hr by (by rewrite length_to_le).
    change (Z.of_nat 4) with 4 in Hr. rewrite Hr; [by apply from_to_le|]. rewrite !length_app, length_to_le. lia. }
  split_and!.
  - pose proof (Hrd sig _ _ Hb) as H1. rewrite Hs in H1. apply H1. unfold MADT in *. lia.
  - replace (p + 36) with (p + Z.of_nat (length (sig ++ to_le 4 (MADT + Z.of_nat (length (encode es))) ++ mid)))
      by (rewrite !length_app, length_to_le; lia).
    eapply Hrd; [|done]. rewrite <- !(assoc_L (++)). exact Hb.
  - rewrite !(assoc_L (++)) in Hb. apply holds_app in Hb as [_ Hb]. rewrite !length_app, !length_to_le in Hb.
    rewrite Hs, Hm, Ht in Hb. exact Hb.
Qed.

Lemma madt_walk_spec {S : Type} (m : gmap Z Z) (body : Z -> Z -> Z -> S -> S) (sem : Entry -> S -> S)
    (p lapic : Z) (es : list Entry) (s : S) :
  (forall ptr e s, holds m ptr (encode_entry e) -> body ptr (e_type e) (entry_len e) s = sem e s) ->
  madt_at m p lapic es -> madt_walk m body p s = foldl (fun s e => sem e s) s es.
Proof.
  intros Hsem Hm. destruct (madt_fields m p lapic es Hm) as (H1 & _ & H3). destruct Hm as [_ Hok [Hp0 Hp1] Hz _].
  unfold madt_walk. rewrite H1. unfold MADT in *.
  rewrite !wrap64_small by (unfold is_u64; lia). rewrite Z.add_assoc.
  apply madt_loop_spec; [done|done|done|lia|lia|]. pose proof (length_encode es). lia.
Qed.

(** A field of an entry in memory. *)
Lemma entry_read (m : gmap Z Z) (ptr : Z) (e : Entry) (off n : nat) :
  holds m ptr (encode_entry e) -> (off + n <= length (e_body e))%nat ->
  read_int m (ptr + Z.of_nat (2 + off)) (Z.of_nat n) = field e off n.
Proof. intros Hh Hb. rewrite (holds_read m ptr _ (2 + off) n Hh) by (simpl; lia). done. Qed.

Lemma odd_land (x : Z) : negb (Z.land x 1 =? 0) = Z.odd x.
Proof.
  change 1 with (Z.ones 1). rewrite Z.land_ones by lia. change (2 ^ 1) with 2. rewrite Zmod_odd. by destruct (Z.odd x).
Qed.

Lemma lapic_body_sem (m : gmap Z Z) (ptr : Z) (e : Entry) (ids : list Z) :
  holds m ptr (encode_entry e) ->
  lapic_body m ptr (e_type e) (entry_len e) ids = ids ++ option_list (lapic_id e).
Proof.
  intros Hh. unfold lapic_body, lapic_id, LOCAL_APIC, entry_len.
  destruct (e_type e =? 0); cbn [andb]; [|by rewrite app_nil_r].
  destruct (Z.leb_spec 6 (Z.of_nat (length (e_body e)))).
  2:{ rewrite (proj2 (Z.leb_gt _ _)) by lia. by rewrite app_nil_r. }
  rewrite (proj2 (Z.leb_le _ _)) by lia. cbn [andb].
  pose proof (entry_read m ptr e 2 4 Hh ltac:(lia)) as H4. pose proof (entry_read m ptr e 1 1 Hh ltac:(lia)) as H3.
  change (read_int m (ptr + 4) 4 = field e 2 4) in H4. change (read_int m (ptr + 3) 1 = field e 1 1) in H3.
  rewrite H4, H3, odd_land. destruct (Z.odd _); [done|by rewrite app_nil_r].
Qed.

(** Later entries replace earlier ones. *)
Definition later {A : Type} (new old : option A) : option A := match new with Some x => Some x | None => old end.
Definition madt_sem (e : Entry) (i : MadtInfo) : MadtInfo :=
  mkInfo (later (io_apic e) (ioapic i)) (later (source_override e) (irq_override i))
         (default (bsp_apic_id i) (boot_apic e)).

Lemma madt_body_sem (m : gmap Z Z) (ptr : Z) (e : Entry) (i : MadtInfo) :
  holds m ptr (encode_entry e) -> madt_body m ptr (e_type e) (entry_len e) i = madt_sem e i.
Proof.
  intros Hh. unfold madt_body, madt_sem, io_apic, source_override, boot_apic, lapic_id, LOCAL_APIC, IO_APIC, SOURCE_OVERRIDE.
  assert (entry_len e = 2 + Z.of_nat (length (e_body e))) as -> by done.
  set (n := Z.of_nat (length (e_body e))) in *.
  pose proof (fun o k H => entry_read m ptr e o k Hh H) as Hrd.
  destruct (Z.eqb_spec (e_type e) 0) as [E0|E0].
  { rewrite E0. cbn [Z.eqb andb later]. destruct (Z.leb_spec 6 n) as [Hn|Hn].
    - rewrite (proj2 (Z.leb_le _ _)) by lia.
      pose proof (Hrd 2%nat 4%nat ltac:(lia)) as H4. pose proof (Hrd 1%nat 1%nat ltac:(lia)) as H3.
      pose proof (Hrd 0%nat 1%nat ltac:(lia)) as H2.
      change (read_int m (ptr + 4) 4 = field e 2 4) in H4. change (read_int m (ptr + 3) 1 = field e 1 1) in H3.
      change (read_int m (ptr + 2) 1 = field e 0 1) in H2. rewrite H2, H3, H4, odd_land. cbn [andb].
      destruct (field e 0 1 =? 0), (Z.odd _); by destruct i.
    - rewrite (proj2 (Z.leb_gt _ _)) by lia. cbn [andb]. by destruct (field e 0 1 =? 0), i. }
  cbn [andb]. assert (default (bsp_apic_id i) (if field e 0 1 =? 0 then None else None) = bsp_apic_id i) as ->
    by by destruct (_ =? 0).
  destruct (Z.eqb_spec (e_type e) 1) as [E1|E1].
  { rewrite E1. cbn [Z.eqb andb later]. destruct (Z.leb_spec 10 n) as [Hn|Hn].
    - rewrite (proj2 (Z.leb_le _ _)) by lia.
      pose proof (Hrd 0%nat 1%nat ltac:(lia)) as H2. pose proof (Hrd 2%nat 4%nat ltac:(lia)) as H4.
      pose proof (Hrd 6%nat 4%nat ltac:(lia)) as H8.
      change (read_int m (ptr + 2) 1 = field e 0 1) in H2. change (read_int m (ptr + 4) 4 = field e 2 4) in H4.
      change (read_int m (ptr + 8) 4 = field e 6 4) in H8. by rewrite H2, H4, H8.
    - rewrite (proj2 (Z.leb_gt _ _)) by lia. by destruct i. }
  cbn [andb later]. destruct (Z.eqb_spec (e_type e) 2) as [E2|E2]; cbn [andb]; [|by destruct i].
  destruct (Z.leb_spec 8 n) as [Hn|Hn].
  - rewrite (proj2 (Z.leb_le _ _)) by lia.
    pose proof (Hrd 1%nat 1%nat ltac:(lia)) as H3. pose proof (Hrd 2%nat 4%nat ltac:(lia)) as H4.
    pose proof (Hrd 6%nat 2%nat ltac:(lia)) as H8.
    change (read_int m (ptr + 3) 1 = field e 1 1) in H3. change (read_int m (ptr + 4) 4 = field e 2 4) in H4.
    change (read_int m (ptr + 8) 2 = field e 6 2) in H8. by rewrite H3, H4, H8.
  - rewrite (proj2 (Z.leb_gt _ _)) by lia. by destruct i.
Qed.

Lemma later_last {A : Type} (f : Entry -> option A) (e : Entry) (es : list Entry) (o : option A) :
  later (last (omap f es)) (later (f e) o) = later (last (omap f (e :: es))) o.
Proof.
  rewrite omap_cons_app, last_app. destruct (last (omap f es)); [done|]. by destruct (f e).
Qed.

Lemma default_later {A : Type} (o : option A) (d : A) : default d o = default d (later o (Some d)).
Proof. by destruct o. Qed.

Lemma madt_fold (es : list Entry) (i : MadtInfo) :
  foldl (fun i e => madt_sem e i) i es =
  mkInfo (later (last (omap io_apic es)) (ioapic i)) (later (last (omap source_override es)) (irq_override i))
         (default (bsp_apic_id i) (last (omap boot_apic es))).
Proof.
  revert i. induction es as [|e es IH]; intros i; [by destruct i|]. cbn [foldl]. rewrite IH. unfold madt_sem.
  cbn [ioapic irq_override bsp_apic_id]. rewrite !later_last. f_equal.
  rewrite (default_later (last (omap boot_apic (e :: es)))), <- later_last.
  destruct (last (omap boot_apic es)); simpl; [done|]. by destruct (boot_apic e).
Qed.

Lemma parse_cpu_lapic_ids_spec (m : gmap Z Z) (p lapic : Z) (es : list Entry) :
  madt_at m p lapic es -> parse_cpu_lapic_ids m p = omap lapic_id es.
Proof.
  intros Hm. unfold parse_cpu_lapic_ids. rewrite (madt_walk_spec m _ (fun e ids => ids ++ option_list (lapic_id e)) p lapic es []);
    [|intros; by apply lapic_body_sem|done].
  assert (forall l, foldl (fun ids e => ids ++ option_list (lapic_id e)) l es = l ++ omap lapic_id es) as Hf.
  { clear Hm. induction es as [|e es IH]; intros l; [by rewrite app_nil_r|]. cbn [foldl]. rewrite IH. simpl.
    destruct (lapic_id e); simpl; by rewrite <- (assoc_L (++)). }
  apply (Hf []).
Qed.

(** The ACPI interrupt table is read as written.  For every list of entries (of
    any type and any length below 256) laid out in a table, the walk ends, visits
    each entry once and reads only bytes of that entry: [parse_cpu_lapic_ids] returns
    the identifiers of exactly the enabled local APICs, in order, and [parse_madt]
    the table's LAPIC address, the last I/O APIC, the last interrupt override and the
    enabled processor 0. *)
Theorem madt_roundtrip (m : gmap Z Z) (p lapic : Z) (es : list Entry) :
  madt_at m p lapic es ->
  parse_cpu_lapic_ids m p = omap lapic_id es /\
  parse_madt m p = (lapic, mkInfo (last (omap io_apic es)) (last (omap source_override es))
                                  (default 0 (last (omap boot_apic es)))).
Proof.
  intros Hm. split; [by eapply parse_cpu_lapic_ids_spec|].
  unfold parse_madt. destruct (madt_fields m p lapic es Hm) as (_ & H2 & _). rewrite H2.
  rewrite (madt_walk_spec m _ madt_sem p lapic es _ (madt_body_sem m) Hm), madt_fold. simpl.
  by destruct (last (omap io_apic es)), (last (omap source_override es)).
Qed.

(** * Finding a table *)

(** A root table of [w]-byte entries. *)
Record sdt_at (m : gmap Z Z) (w : nat) (p : Z) (tables : list Z) : Prop := {
  sa_length : read_int m (p + 4) 4 = SDT_HEADER + Z.of_nat w * Z.of_nat (length tables);
  sa_entries : holds m (p + SDT_HEADER) (tables ≫= to_le w);
  sa_range : Forall (fun a => 0 <= a < 256 ^ Z.of_nat w) tables;
  sa_addr : 0 <= p /\ p + SDT_HEADER + Z.of_nat w * Z.of_nat (length tables) < u64_bound;
}.

Lemma scan_entries_spec (m : gmap Z Z) (w : nat) (a : Z) (tables sig : list Z) :
  holds m a (tables ≫= to_le w) -> Forall (fun a => 0 <= a < 256 ^ Z.of_nat w) tables ->
  scan_entries m (length tables) (Z.of_nat w) a sig =
  find_first (fun t => bool_decide (read_bytes m t 4 = sig)) tables.
Proof.
  intros Hh Hr. revert a Hh. induction Hr as [|t tables Ht Hr IH]; intros a Hh; [done|].
  rewrite bind_cons in Hh. cbn [length scan_entries find_first].
  assert (read_int m a (Z.of_nat w) = t) as ->.
  { pose proof (holds_read m a _ 0 w Hh) as H0. rewrite Z.add_0_r in H0. rewrite H0.
    - rewrite drop_0, take_app_le, take_ge by (by rewrite length_to_le). by apply from_to_le.
    - rewrite length_app, length_to_le. lia. }
  case_bool_decide; [done|]. apply holds_app in Hh as [_ Hh]. rewrite length_to_le in Hh. by apply IH.
Qed.

(** [find_table] returns the first listed table that carries the signature, through
    either kind of root table. *)
Theorem find_table_spec (m : gmap Z Z) (is_xsdt : bool) (p : Z) (tables sig : list Z) :
  sdt_at m (if is_xsdt then 8 else 4)%nat p tables ->
  find_table m p is_xsdt sig = find_first (fun t => bool_decide (read_bytes m t 4 = sig)) tables.
Proof.
  intros [Hl He Hr [Hp Hb]]. unfold find_table.
  assert ((if is_xsdt then 8 else 4) = Z.of_nat (if is_xsdt then 8 else 4)) as -> by by destruct is_xsdt.
  set (w := (if is_xsdt then 8 else 4)%nat) in *. assert (0 < Z.of_nat w) as Hw by (subst w; by destruct is_xsdt).
  unfold table_entries. rewrite Hl. unfold SDT_HEADER in *.
  rewrite !wrap64_small by (unfold is_u64; lia).
  replace (36 + Z.of_nat w * Z.of_nat (length tables) - 36) with (Z.of_nat (length tables) * Z.of_nat w) by lia.
  rewrite Z.div_mul, Nat2Z.id by lia. by apply scan_entries_spec.
Qed.

Module Example.
(** An enabled processor 0, an I/O APIC, the keyboard moved to line 9 and, after it,
    line 11 overridden. *)
Definition entries : list Entry :=
  [mkEntry 0 [0; 7; 1; 0; 0; 0]; mkEntry 1 [2; 0; 0; 0; 192; 254; 0; 0; 0; 0];
   mkEntry 2 [0; 1; 9; 0; 0; 0; 15; 0]; mkEntry 2 [0; 11; 11; 0; 0; 0; 13; 0]].
Definition table : list Z := madt_bytes APIC (replicate 28 0) (replicate 4 0) 4276092928 entries.
Definition mem0 : gmap Z Z := Uaccess.store ∅ 4096 table.

Lemma table_at : madt_at mem0 4096 4276092928 entries.
Proof.
  split.
  - exists APIC, (replicate 28 0), (replicate 4 0). split_and!; [done..|]. apply Uaccess.byte_run_store.
  - repeat constructor.
  - rewrite u64_bound_val. lia.
  - vm_compute. done.
  - lia.
Qed.

Lemma madt_roundtrip_witness :
  parse_cpu_lapic_ids mem0 4096 = [7] /\
  parse_madt mem0 4096 = (4276092928, mkInfo (Some (mkIoApic 2 4273995776 0)) (Some (mkOverride 11 11 13)) 7).
Proof. apply (madt_roundtrip mem0 4096 4276092928 entries table_at). Defined.

(** Only the last override is kept: here the keyboard's (bus line 1) is lost. *)
Theorem keyboard_override_lost :
  mkOverride 1 9 15 ∈ omap source_override entries /\
  irq_override (snd (parse_madt mem0 4096)) = Some (mkOverride 11 11 13).
Proof. split; vm_compute; [by repeat constructor|done]. Qed.
End Example.

End Acpi.
