(* ===== verification/Pci.v ===== *)
(** PCI configuration space: [crates/kernel/src/drivers/pci.rs].

    A register file behind an address and a data port.  What a device does with a
    configuration write is the device's: the parameter [hw_write], from the register's
    address, its old value and the value written to its new value.  Each access holds
    the configuration lock
    with interrupts off, which makes it one step here. *)
From stdpp Require Import base list numbers option gmap.
From S2P Require Import Prelude Uaccess Acpi.

Open Scope Z_scope.

Module Pci.

Definition wrap8 (x : Z) : Z := x mod 256.
Definition wrap16 (x : Z) : Z := x mod 2 ^ 16.
Definition wrap32 (x : Z) : Z := x mod 2 ^ 32.
Definition CONFIG_ADDRESS : Z := 3320.  (* 0xCF8 *)
Definition CONFIG_DATA : Z := 3324.     (* 0xCFC *)

Record Device := mkDevice {
  bus : Z; device : Z; function : Z; vendor_id : Z; device_id : Z;
  class_code : Z; subclass : Z; prog_if : Z; header_type : Z }.

Inductive BarType := Io | Mmio32 | Mmio64.
#[export] Instance BarType_eq : EqDecision BarType.
Proof. solve_decision. Defined.

Definition bar_type (bar : Z) : BarType :=
  if Z.land bar 1 =? 1 then Io else if Z.land (Z.shiftr bar 1) 3 =? 2 then Mmio64 else Mmio32.

Definition config_address (b d f offset : Z) : Z :=
  wrap32 (Z.lor (Z.lor (Z.lor (Z.lor (2 ^ 31) (Z.shiftl b 16)) (Z.shiftl d 11)) (Z.shiftl f 8)) (Z.land offset 252)).

(** The address latch and the registers. *)
Record State := mkState { latch : Z; regs : gmap Z Z }.
Definition reg (a : Z) (s : State) : Z := default 0 (regs s !! a).

Section Config.
Variable hw_write : Z -> Z -> Z -> Z.

(** The two ports. *)
Definition outd (port value : Z) (s : State) : State :=
  if port =? CONFIG_ADDRESS then mkState value (regs s)
  else if port =? CONFIG_DATA then mkState (latch s) (<[latch s := hw_write (latch s) (reg (latch s) s) value]> (regs s))
  else s.
Definition ind (port : Z) (s : State) : Z := if port =? CONFIG_DATA then reg (latch s) s else 0.

Definition read_u32 (b d f offset : Z) (s : State) : Z * State :=
  let s := outd CONFIG_ADDRESS (config_address b d f offset) s in (ind CONFIG_DATA s, s).
Definition write_u32 (b d f offset value : Z) (s : State) : State :=
  outd CONFIG_DATA value (outd CONFIG_ADDRESS (config_address b d f offset) s).

Definition read_bar (b d f bar_index : Z) : State -> Z * State := read_u32 b d f (wrap8 (16 + bar_index * 4)).

Definition bar_phys_addr (b d f bar_index : Z) (s : State) : option Z * State :=
  let '(low, s) := read_u32 b d f (wrap8 (16 + bar_index * 4)) s in
  if low =? 0 then (None, s)
  else match bar_type low with
       | Io => (Some (Z.land low 4294967292), s)
       | Mmio32 => (Some (Z.land low 4294967280), s)
       | Mmio64 =>
           let '(high, s) := read_u32 b d f (wrap8 (16 + (bar_index + 1) * 4)) s in
           (Some (Z.lor (Z.shiftl high 32) (Z.land low 4294967280)), s)
       end.

Definition read_command (b d f : Z) (s : State) : Z * State :=
  let '(v, s) := read_u32 b d f 4 s in (Z.land v 65535, s).
Definition read_interrupt_line (b d f : Z) (s : State) : Z * State :=
  let '(v, s) := read_u32 b d f 60 s in (Z.land v 255, s).
Definition write_command (b d f value : Z) (s : State) : State :=
  let '(v, s) := read_u32 b d f 4 s in
  let address := Z.land v 4294901760 in write_u32 b d f 4 (Z.lor address value) s.

(** [(!x).wrapping_add(1)] at 32 and 64 bits. *)
Definition neg32 (x : Z) : Z := wrap32 (- x).
Definition neg64 (x : Z) : Z := wrap64 (- x).

Definition bar_size (b d f bar_index : Z) (s : State) : Z * State :=
  let offset := wrap8 (16 + bar_index * 4) in
  let '(original, s) := read_u32 b d f offset s in
  if original =? 0 then (0, s)
  else
    let ty := bar_type original in
    let '(command, s) := read_command b d f s in
    let s := write_command b d f (Z.land command (Z.lnot 3)) s in
    let '(size, s) :=
      if bool_decide (ty = Mmio64) then
        if 5 <=? bar_index then (0, s)
        else
          let high_offset := wrap8 (offset + 4) in
          let '(original_high, s) := read_u32 b d f high_offset s in
          let s := write_u32 b d f offset (2 ^ 32 - 1) s in
          let s := write_u32 b d f high_offset (2 ^ 32 - 1) s in
          let '(decoded_low, s) := read_u32 b d f offset s in
          let '(decoded_high, s) := read_u32 b d f high_offset s in
          let s := write_u32 b d f high_offset original_high s in
          let s := write_u32 b d f offset original s in
          (neg64 (Z.lor (Z.shiftl decoded_high 32) (Z.land decoded_low 4294967280)), s)
      else
        let address_mask := if bool_decide (ty = Io) then 4294967292 else 4294967280 in
        let s := write_u32 b d f offset (2 ^ 32 - 1) s in
        let '(decoded, s) := read_u32 b d f offset s in
        let s := write_u32 b d f offset original s in
        (neg32 (Z.land decoded address_mask), s) in
    (size, write_command b d f command s).

(** ** Enumeration *)

Definition build_device (b d f vendor_device : Z) (s : State) : Device * State :=
  let '(class_reg, s) := read_u32 b d f 8 s in
  let '(header_reg, s) := read_u32 b d f 12 s in
  (mkDevice b d f (Z.land vendor_device 65535) (wrap16 (Z.shiftr vendor_device 16)) (wrap8 (Z.shiftr class_reg 24))
     (wrap8 (Z.shiftr class_reg 16)) (wrap8 (Z.shiftr class_reg 8)) (wrap8 (Z.shiftr header_reg 16)), s).

Definition read_config_device (b d f : Z) (s : State) : option Device * State :=
  let '(vendor_device, s) := read_u32 b d f 0 s in
  if Z.land vendor_device 65535 =? 65535 then (None, s)
  else let '(dev, s) := build_device b d f vendor_device s in (Some dev, s).

(** [for function in 0..8] inside [for device in 0..32] inside [for bus in lo..=hi]. *)
Definition slots (lo hi : Z) : list (Z * Z * Z) :=
  b ← seqZ lo (hi - lo + 1); d ← seqZ 0 32; f ← seqZ 0 8; [(b, d, f)].

(** A scan pushes the devices its probe finds. *)
Fixpoint scan_slots (probe : Z * Z * Z -> State -> option Device * State) (l : list (Z * Z * Z)) (s : State) : list Device * State :=
  match l with
  | [] => ([], s)
  | x :: l' =>
      let '(o, s) := probe x s in
      let '(ds, s) := scan_slots probe l' s in
      (option_list o ++ ds, s)
  end.

Definition scan_pci : State -> list Device * State :=
  scan_slots (fun '(b, d, f) => read_config_device b d f) (slots 0 255).

(** The memory-mapped window of a bus range; [m] is physical memory. *)
Definition read_ecam_device (m : gmap Z Z) (base start_bus b d f : Z) (s : State) : option Device * State :=
  let bus_offset := saturating_sub b start_bus in
  let addr := wrap64 (base + Z.shiftl bus_offset 20 + Z.shiftl d 15 + Z.shiftl f 12) in
  if Acpi.read_int m addr 2 =? 65535 then (None, s)
  else let '(dev, s) := build_device b d f (Acpi.read_int m addr 4) s in (Some dev, s).

Fixpoint scan_windows (m : gmap Z Z) (n : nat) (entry : Z) (s : State) : list Device * State :=
  match n with
  | O => ([], s)
  | S n' =>
      let base := Acpi.read_int m entry 8 in
      let start_bus := Acpi.read_int m (entry + 10) 1 in
      let end_bus := Acpi.read_int m (entry + 11) 1 in
      let '(ds, s) := scan_slots (fun '(b, d, f) => read_ecam_device m base start_bus b d f) (slots start_bus end_bus) s in
      let '(rest, s) := scan_windows m n' (entry + 16) s in
      (ds ++ rest, s)
  end.

Definition MCFG : list Z := [77; 67; 70; 71].
Definition mcfg (m : gmap Z Z) (rsdp : Z) : option Z :=
  '(sdt, is_xsdt) ← Acpi.parse_rsdp m rsdp; Acpi.find_table m sdt is_xsdt MCFG.
Definition pcie_available (m : gmap Z Z) (rsdp : Z) : bool := bool_decide (is_Some (mcfg m rsdp)).

Definition scan_pcie (m : gmap Z Z) (rsdp : Z) (s : State) : list Device * State :=
  match mcfg m rsdp with
  | None => ([], s)
  | Some mcfg_phys =>
      let length := Acpi.read_int m (mcfg_phys + 4) 4 in
      if length <? Acpi.SDT_HEADER + 8 + 16 then ([], s)
      else scan_windows m (Z.to_nat ((length - Acpi.SDT_HEADER - 8) / 16)) (mcfg_phys + Acpi.SDT_HEADER + 8) s
  end.
End Config.

(** * Addresses of configuration registers *)

(** Fields of disjoint bit ranges add up. *)
Lemma land_shift (x y k : Z) : 0 <= k -> 0 <= y < 2 ^ k -> Z.land (Z.shiftl x k) y = 0.
Proof.
  intros Hk Hy. apply Z.bits_inj'. intros n Hn. rewrite Z.land_spec, Z.bits_0, Z.shiftl_spec by done.
  destruct (Z.ltb_spec n k); [by rewrite Z.testbit_neg_r by lia|].
  rewrite <- (Z.mod_small y (2 ^ k)) by done. by rewrite Z.mod_pow2_bits_high, andb_false_r by lia.
Qed.

Lemma lor_shift (x y k : Z) : 0 <= k -> 0 <= y < 2 ^ k -> Z.lor (Z.shiftl x k) y = x * 2 ^ k + y.
Proof.
  intros Hk Hy. pose proof (land_shift x y k Hk Hy) as Hl.
  by rewrite <- Z.shiftl_mul_pow2, Z.add_nocarry_lxor, Z.lxor_lor by done.
Qed.

Lemma config_address_eq (b d f offset : Z) :
  0 <= b < 256 -> 0 <= d < 32 -> 0 <= f < 8 -> 0 <= offset < 256 -> offset mod 4 = 0 ->
  config_address b d f offset = 2 ^ 31 + b * 2 ^ 16 + d * 2 ^ 11 + f * 2 ^ 8 + offset.
Proof.
  intros Hb Hd Hf Ho H4. unfold config_address.
  assert (Z.land offset 252 = offset) as ->.
  { change 252 with (Z.land (Z.lnot 3) (Z.ones 8)). change 3 with (Z.ones 2).
    rewrite Z.land_assoc, land_lnot_ones, Z.land_ones by lia. change (2 ^ 2) with 4. change (2 ^ 8) with 256.
    rewrite H4, Z.sub_0_r. by apply Z.mod_small. }
  rewrite <- !Z.lor_assoc. change (2 ^ 31) with (Z.shiftl 32768 16) at 1.
  rewrite (lor_shift f offset 8), (lor_shift d _ 11), (lor_shift b _ 16), (Z.lor_comm (Z.shiftl 32768 16)) by lia.
  rewrite Z.lor_comm. change (Z.shiftl 32768 16) with (Z.shiftl 1 31). rewrite (lor_shift 1 _ 31) by lia.
  unfold wrap32. rewrite Z.mod_small by lia. lia.
Qed.

(** Every register has an address of its own.  Over all buses, the 32 devices of a
    bus, the 8 functions of a device and the 64 double words of a function, the
    configuration address determines bus, device, function and offset. *)
Theorem config_address_injective (b d f o b' d' f' o' : Z) :
  0 <= b < 256 -> 0 <= d < 32 -> 0 <= f < 8 -> 0 <= o < 256 -> o mod 4 = 0 ->
  0 <= b' < 256 -> 0 <= d' < 32 -> 0 <= f' < 8 -> 0 <= o' < 256 -> o' mod 4 = 0 ->
  config_address b d f o = config_address b' d' f' o' -> b = b' /\ d = d' /\ f = f' /\ o = o'.
Proof. intros. rewrite !config_address_eq in * by done. lia. Qed.

(** Device numbers above 31 spill into the bus bits: the system calls accept them, and
    then address another bus. *)
Theorem device_number_spills (b f o : Z) :
  config_address (2 * b) 32 f o = config_address (2 * b + 1) 0 f o.
Proof.
  unfold config_address. do 3 f_equal.
  assert (Z.shiftl (2 * b + 1) 16 = Z.lor (Z.shiftl (2 * b) 16) (Z.shiftl 32 11)) as ->.
  { replace (Z.shiftl (2 * b) 16) with (Z.shiftl b 17) by (rewrite !Z.shiftl_mul_pow2 by done; lia).
    rewrite (lor_shift b (Z.shiftl 32 11) 17) by done. rewrite !Z.shiftl_mul_pow2 by done. lia. }
  by rewrite Z.shiftl_0_l, Z.lor_0_r, Z.lor_assoc.
Qed.

(** * Sizing a base address register *)

(** [land] with an address mask drops the low [w] bits. *)
Lemma land_mask32 (x w : Z) :
  (w = 2 \/ w = 4) -> 0 <= x < 2 ^ 32 -> Z.land x (2 ^ 32 - 2 ^ w) = x - x mod 2 ^ w.
Proof.
  intros Hw Hx. assert (2 ^ 32 - 2 ^ w = Z.land (Z.lnot (Z.ones w)) (Z.ones 32)) as -> by (by destruct Hw as [-> | ->]).
  rewrite Z.land_assoc, land_lnot_ones, Z.land_ones by lia. apply Z.mod_small.
  assert (0 < 2 ^ w) by (by destruct Hw as [-> | ->]). pose proof (Z.mod_pos_bound x (2 ^ w) ltac:(lia)).
  pose proof (Z.mod_le x (2 ^ w) ltac:(lia) ltac:(lia)). lia.
Qed.

Lemma land_ones32 (x : Z) : 0 <= x < 2 ^ 32 -> Z.land (2 ^ 32 - 1) x = x.
Proof. intros Hx. rewrite Z.land_comm. change (2 ^ 32 - 1) with (Z.ones 32). rewrite Z.land_ones by lia. by apply Z.mod_small. Qed.

(** What an all-ones write reads back as, with the type bits [ro] masked away. *)
Lemma decoded_mask (M ro w : Z) :
  (w = 2 \/ w = 4) -> 0 <= M < 2 ^ 32 -> M mod 2 ^ w = 0 -> 0 <= ro < 2 ^ w ->
  Z.land (Z.lor (Z.land (2 ^ 32 - 1) M) ro) (2 ^ 32 - 2 ^ w) = M.
Proof.
  intros Hw HM Hm Hr. rewrite land_ones32 by done. pose proof (Z.div_mod M (2 ^ w)) as Hd. rewrite Hm in Hd.
  assert (0 <= w) as Hw0 by lia. assert (2 ^ w <> 0) as Hp by (by destruct Hw as [-> | ->]).
  assert (Z.lor M ro = M + ro) as ->.
  { replace M with (Z.shiftl (M / 2 ^ w) w) at 1 by (rewrite Z.shiftl_mul_pow2 by done; lia). rewrite lor_shift by done. lia. }
  rewrite land_mask32; [|done|].
  - rewrite Z.add_mod, Hm, Z.add_0_l, Z.mod_mod, Z.mod_small by lia. lia.
  - destruct Hw as [-> | ->]; [change (2 ^ 2) with 4 in *|change (2 ^ 4) with 16 in *]; lia.
Qed.

Lemma read_u32_eq (hw_write : Z -> Z -> Z -> Z) (b d f o : Z) (s : State) :
  read_u32 hw_write b d f o s = (reg (config_address b d f o) s, mkState (config_address b d f o) (regs s)).
Proof. done. Qed.

Lemma write_u32_eq (hw_write : Z -> Z -> Z -> Z) (b d f o v : Z) (s : State) :
  write_u32 hw_write b d f o v s =
  mkState (config_address b d f o) (<[config_address b d f o := hw_write (config_address b d f o) (reg (config_address b d f o) s) v]> (regs s)).
Proof. done. Qed.

Section BarSize.
Variable hw_write : Z -> Z -> Z -> Z.
Variables b d f i : Z.
Hypothesis addr_ok : 0 <= b < 256 /\ 0 <= d < 32 /\ 0 <= f < 8.
Hypothesis index_ok : 0 <= i <= 5.

Definition bar_addr (j : Z) : Z := config_address b d f (16 + 4 * j).
Definition cmd_addr : Z := config_address b d f 4.

(** The register of a window: writable in the bits of [M], its type bits [ro] fixed. *)
Definition window_reg (a M ro : Z) : Prop := forall old v, hw_write a old v = Z.lor (Z.land v M) ro.
(** The command register: its low half holds the implemented bits [cm] of what is
    written; the status half may do anything. *)
Definition command_reg (cm : Z) : Prop := forall old v, Z.land (hw_write cmd_addr old v) 65535 = Z.land v cm.

Lemma bar_offset (j : Z) : 0 <= j <= 6 -> wrap8 (16 + j * 4) = 16 + 4 * j.
Proof. intros Hj. unfold wrap8. rewrite Z.mod_small by lia. lia. Qed.

Lemma bar_addr_eq (j : Z) : 0 <= j <= 6 ->
  bar_addr j = 2 ^ 31 + b * 2 ^ 16 + d * 2 ^ 11 + f * 2 ^ 8 + (16 + 4 * j).
Proof using addr_ok.
  intros Hj. destruct addr_ok as (Hb & Hd & Hf). apply config_address_eq; [done..|lia|].
  rewrite Z.mul_comm, Z.add_mod, Z.mod_mul by lia. done.
Qed.
Lemma cmd_addr_eq : cmd_addr = 2 ^ 31 + b * 2 ^ 16 + d * 2 ^ 11 + f * 2 ^ 8 + 4.
Proof using addr_ok. destruct addr_ok as (Hb & Hd & Hf). by apply config_address_eq. Qed.

Lemma reg_insert (a a' v l : Z) (r : gmap Z Z) :
  reg a' (mkState l (<[a := v]> r)) = if decide (a' = a) then v else reg a' (mkState l r).
Proof. unfold reg. simpl. case_decide; subst; [by rewrite lookup_insert_eq|by rewrite lookup_insert_ne]. Qed.

(** Everything but the status half of the command register is as before. *)
Definition config_same (s s' : State) : Prop :=
  (forall a, a <> cmd_addr -> reg a s' = reg a s) /\ Z.land (reg cmd_addr s') 65535 = Z.land (reg cmd_addr s) 65535.

Lemma write_command_reg (v cm : Z) (s : State) :
  command_reg cm -> 0 <= cm < 65536 ->
  (forall a, a <> cmd_addr -> reg a (write_command hw_write b d f v s) = reg a s) /\
  Z.land (reg cmd_addr (write_command hw_write b d f v s)) 65535 = Z.land v cm.
Proof.
  intros Hc Hcm. unfold write_command, read_u32, write_u32, outd, ind. simpl. fold cmd_addr. split.
  - intros a Ha. rewrite reg_insert, decide_False by done. done.
  - rewrite reg_insert, decide_True by done. rewrite Hc, Z.land_lor_distr_l, <- Z.land_assoc.
    change 4294901760 with (Z.shiftl 65535 16). rewrite land_shift by done. by rewrite Z.land_0_r.
Qed.

(** The value and the bits of a configured window. *)
Record window (s : State) (j M ro : Z) : Prop := {
  w_reg : window_reg (bar_addr j) M ro;
  w_val : reg (bar_addr j) s = Z.lor (Z.land (reg (bar_addr j) s) M) ro;
}.

(** Probing one register: all ones, read back, restore. *)
Lemma probe_window (s0 s : State) (j M ro : Z) :
  0 <= j <= 6 -> window s0 j M ro -> (forall a, a <> cmd_addr -> reg a s = reg a s0) ->
  let s' := write_u32 hw_write b d f (16 + 4 * j) (reg (bar_addr j) s0)
              (write_u32 hw_write b d f (16 + 4 * j) (2 ^ 32 - 1) s) in
  reg (bar_addr j) (write_u32 hw_write b d f (16 + 4 * j) (2 ^ 32 - 1) s) = Z.lor (Z.land (2 ^ 32 - 1) M) ro /\
  (forall a, a <> cmd_addr -> reg a s' = reg a s0) /\ reg cmd_addr s' = reg cmd_addr s.
Proof using addr_ok.
  intros Hj [Hw Hv] Hs. pose proof (bar_addr_eq j Hj) as Hb. pose proof cmd_addr_eq as Hcm.
  unfold write_u32, outd. simpl. fold (bar_addr j). split_and!.
  - by rewrite reg_insert, decide_True, Hw by done.
  - intros a Ha. rewrite reg_insert. case_decide as E; [subst a; by rewrite Hw, <- Hv|].
    rewrite reg_insert, decide_False by done. by apply Hs.
  - rewrite reg_insert, decide_False by lia. rewrite reg_insert, decide_False by lia. done.
Qed.

(** Register [i] (and [i + 1] for a 64-bit one) decodes a window of [2^k] bytes. *)
Definition sized (s : State) (k : Z) : Prop :=
  match bar_type (reg (bar_addr i) s) with
  | Io => 2 <= k <= 31 /\ exists ro, 0 <= ro < 2 ^ 2 /\ window s i (2 ^ 32 - 2 ^ k) ro
  | Mmio32 => 4 <= k <= 31 /\ exists ro, 0 <= ro < 2 ^ 4 /\ window s i (2 ^ 32 - 2 ^ k) ro
  | Mmio64 => 4 <= k <= 63 /\ i < 5 /\ exists ro, 0 <= ro < 2 ^ 4 /\
                window s i ((2 ^ 64 - 2 ^ k) mod 2 ^ 32) ro /\ window s (i + 1) ((2 ^ 64 - 2 ^ k) / 2 ^ 32) 0
  end.

(** The probe of a 32-bit register with [w] type bits. *)
Lemma probe32 (s0 s : State) (k w ro : Z) :
  (w = 2 \/ w = 4) -> w <= k <= 31 -> 0 <= ro < 2 ^ w -> window s0 i (2 ^ 32 - 2 ^ k) ro ->
  (forall a, a <> cmd_addr -> reg a s = reg a s0) ->
  neg32 (Z.land (reg (bar_addr i) (write_u32 hw_write b d f (16 + 4 * i) (2 ^ 32 - 1) s)) (2 ^ 32 - 2 ^ w)) = 2 ^ k.
Proof using addr_ok index_ok.
  intros Hw Hk Hr Hwin Hs. destruct (probe_window s0 s i _ ro ltac:(lia) Hwin Hs) as [-> _].
  assert (0 < 2 ^ k <= 2 ^ 31) as Hp by (split; [apply Z.pow_pos_nonneg; lia|apply Z.pow_le_mono_r; lia]).
  assert (0 < 2 ^ w) as Hpw by (apply Z.pow_pos_nonneg; lia).
  rewrite decoded_mask; [|done|change (2 ^ 32) with 4294967296 in *; change (2 ^ 31) with 2147483648 in *; lia| |done].
  - unfold neg32, wrap32. replace (- (2 ^ 32 - 2 ^ k)) with (2 ^ k + (-1) * 2 ^ 32) by lia.
    rewrite Z.mod_add by lia. apply Z.mod_small. change (2 ^ 32) with 4294967296. change (2 ^ 31) with 2147483648 in *. lia.
  - replace (2 ^ k) with (2 ^ (k - w) * 2 ^ w) by (rewrite <- Z.pow_add_r by lia; f_equal; lia).
    replace (2 ^ 32) with (2 ^ (32 - w) * 2 ^ w) by (rewrite <- Z.pow_add_r by lia; f_equal; lia).
    rewrite <- Z.mul_sub_distr_r. by apply Z.mod_mul, Z.neq_sym, Z.lt_neq.
Qed.

(** The probe of a 64-bit pair. *)
Lemma probe64 (k ro : Z) :
  4 <= k <= 63 -> 0 <= ro < 2 ^ 4 ->
  neg64 (Z.lor (Z.shiftl (Z.lor (Z.land (2 ^ 32 - 1) ((2 ^ 64 - 2 ^ k) / 2 ^ 32)) 0) 32)
           (Z.land (Z.lor (Z.land (2 ^ 32 - 1) ((2 ^ 64 - 2 ^ k) mod 2 ^ 32)) ro) 4294967280)) = 2 ^ k.
Proof.
  intros Hk Hr. assert (0 < 2 ^ k <= 2 ^ 63) as Hp by (split; [apply Z.pow_pos_nonneg; lia|apply Z.pow_le_mono_r; lia]).
  set (M := 2 ^ 64 - 2 ^ k) in *.
  assert (0 <= M < 2 ^ 64) as HM by (unfold M; change (2 ^ 64) with 18446744073709551616; change (2 ^ 63) with 9223372036854775808 in *; lia).
  pose proof (Z.mod_pos_bound M (2 ^ 32) ltac:(lia)) as Hlo.
  assert (0 <= M / 2 ^ 32 < 2 ^ 32) as Hhi by (split; [apply Z.div_pos; lia|apply Z.div_lt_upper_bound; lia]).
  change 4294967280 with (2 ^ 32 - 2 ^ 4). rewrite decoded_mask; [|by right|done| |done].
  - rewrite Z.lor_0_r, land_ones32, lor_shift by (done || lia).
    replace (M / 2 ^ 32 * 2 ^ 32 + M mod 2 ^ 32) with M by (pose proof (Z.div_mod M (2 ^ 32)); lia).
    unfold neg64, wrap64, M. replace (- (2 ^ 64 - 2 ^ k)) with (2 ^ k + (-1) * 2 ^ 64) by lia.
    change (2 ^ 64) with u64_bound. rewrite Z.mod_add by done. apply Z.mod_small. rewrite u64_bound_val.
    change (2 ^ 63) with 9223372036854775808 in *. lia.
  - change (2 ^ 32) with (2 ^ 4 * 2 ^ 28). rewrite Z.rem_mul_r by lia. rewrite (Z.mul_comm (2 ^ 4)), Z.mod_add by lia.
    rewrite Z.mod_mod by lia. unfold M. replace (2 ^ k) with (2 ^ (k - 4) * 2 ^ 4) by (rewrite <- Z.pow_add_r by lia; f_equal; lia).
    change (2 ^ 64) with (2 ^ 60 * 2 ^ 4). rewrite <- Z.mul_sub_distr_r. by apply Z.mod_mul.
Qed.

(** Sizing a PCI window finds its size and leaves the device as it was.  For an
    I/O, a 32-bit or a 64-bit base address register that decodes [2^k] bytes,
    [bar_size] returns [2^k]; afterwards every configuration register of the machine
    and the command bits have the values they had. *)
Theorem bar_size_spec (s : State) (cm k : Z) :
  command_reg cm -> 0 <= cm < 65536 -> Z.land (Z.land (reg cmd_addr s) 65535) cm = Z.land (reg cmd_addr s) 65535 ->
  reg (bar_addr i) s <> 0 -> sized s k ->
  let '(size, s') := bar_size hw_write b d f i s in size = 2 ^ k /\ config_same s s'.
Proof using addr_ok index_ok.
  intros Hc Hcm Hcv Hne Hsz. unfold bar_size. rewrite bar_offset, read_u32_eq by lia.
  fold (bar_addr i). set (s1 := mkState (bar_addr i) (regs s)).
  rewrite (proj2 (Z.eqb_neq _ 0)) by done. unfold read_command. rewrite read_u32_eq. fold cmd_addr.
  change (reg cmd_addr s1) with (reg cmd_addr s). set (c := Z.land (reg cmd_addr s) 65535) in *.
  match goal with |- context [write_command _ b d f (Z.land c _) ?x] => set (s2 := x) end.
  destruct (write_command_reg (Z.land c (Z.lnot 3)) cm s2 Hc Hcm) as [Hs3 _].
  set (s3 := write_command hw_write b d f (Z.land c (Z.lnot 3)) s2) in *.
  assert (forall a, a <> cmd_addr -> reg a s3 = reg a s) as Hkeep by (intros a Ha; by rewrite Hs3).
  assert (forall s4, (forall a, a <> cmd_addr -> reg a s4 = reg a s) ->
            config_same s (write_command hw_write b d f c s4)) as Hend.
  { intros s4 H4. destruct (write_command_reg c cm s4 Hc Hcm) as [H5 H6].
    split; [intros a Ha; rewrite H5 by done; by apply H4|]. by rewrite H6. }
  pose proof (bar_addr_eq i ltac:(lia)) as Hb0. pose proof (bar_addr_eq (i + 1) ltac:(lia)) as Hb1. pose proof cmd_addr_eq as Hcma.
  unfold sized in Hsz. destruct (bar_type (reg (bar_addr i) s)).
  - destruct Hsz as (Hk & ro & Hr & Hw). rewrite bool_decide_eq_false_2, bool_decide_eq_true_2 by done.
    rewrite read_u32_eq. fold (bar_addr i). split; [by apply (probe32 s s3 k 2 ro ltac:(lia))|]. apply Hend.
    by destruct (probe_window s s3 i _ ro ltac:(lia) Hw Hkeep) as (_ & H' & _).
  - destruct Hsz as (Hk & ro & Hr & Hw). rewrite bool_decide_eq_false_2, bool_decide_eq_false_2 by done.
    rewrite read_u32_eq. fold (bar_addr i). split; [by apply (probe32 s s3 k 4 ro ltac:(lia))|]. apply Hend.
    by destruct (probe_window s s3 i _ ro ltac:(lia) Hw Hkeep) as (_ & H' & _).
  - destruct Hsz as (Hk & Hi5 & ro & Hr & [Hw0 Hv0] & [Hw1 Hv1]). rewrite bool_decide_eq_true_2 by done.
    rewrite (proj2 (Z.leb_gt 5 i)) by lia.
    assert (wrap8 (16 + 4 * i + 4) = 16 + 4 * (i + 1)) as -> by (unfold wrap8; rewrite Z.mod_small; lia).
    fold (bar_addr i) (bar_addr (i + 1)). rewrite !read_u32_eq, !write_u32_eq. fold (bar_addr i) (bar_addr (i + 1)). cbn [regs].
    repeat (rewrite reg_insert, ?decide_True, ?(decide_False (P := bar_addr i = bar_addr (i + 1))),
              ?(decide_False (P := bar_addr (i + 1) = bar_addr i)) by (done || lia)).
    change (reg ?a (mkState _ (regs s3))) with (reg a s3). rewrite !Hkeep, !Hw0, !Hw1 by lia. split; [by apply probe64|].
    apply Hend. intros a Ha. rewrite reg_insert. case_decide; [subst; by rewrite <- Hv0|].
    rewrite reg_insert. case_decide; [subst; by rewrite <- Hv1|].
    rewrite !reg_insert, !decide_False by done. by apply Hkeep.
Qed.
End BarSize.

(** The status half of the register is write-one-to-clear, and [write_command] writes
    back the bits it read: every pending status bit is lost. *)
Theorem write_command_clears_status (hw_write : Z -> Z -> Z -> Z) (b d f v : Z) (s : State) :
  (forall old x, Z.land (hw_write (cmd_addr b d f) old x) 4294901760 = Z.land (Z.land old (Z.lnot x)) 4294901760) ->
  Z.land (reg (cmd_addr b d f) (write_command hw_write b d f v s)) 4294901760 = 0.
Proof.
  intros Hrw. unfold write_command. rewrite read_u32_eq, write_u32_eq. fold (cmd_addr b d f).
  rewrite reg_insert, decide_True by done. rewrite Hrw. change (reg _ (mkState _ (regs s))) with (reg (cmd_addr b d f) s).
  set (x := reg _ s). apply Z.bits_inj'. intros n Hn. rewrite !Z.land_spec, Z.lnot_spec, Z.lor_spec, Z.land_spec, Z.bits_0 by done.
  by destruct (Z.testbit x n), (Z.testbit 4294901760 n), (Z.testbit v n).
Qed.

(** * Enumeration *)

(** The device at a slot, from the registers. *)
Definition device_at (s : State) (x : Z * Z * Z) : option Device :=
  let '(b, d, f) := x in
  let r o := reg (config_address b d f o) s in
  if Z.land (r 0) 65535 =? 65535 then None
  else Some (mkDevice b d f (Z.land (r 0) 65535) (wrap16 (Z.shiftr (r 0) 16)) (wrap8 (Z.shiftr (r 8) 24))
               (wrap8 (Z.shiftr (r 8) 16)) (wrap8 (Z.shiftr (r 8) 8)) (wrap8 (Z.shiftr (r 12) 16))).

Lemma read_config_device_eq (hw_write : Z -> Z -> Z -> Z) (b d f : Z) (s : State) :
  fst (read_config_device hw_write b d f s) = device_at s (b, d, f) /\
  regs (snd (read_config_device hw_write b d f s)) = regs s.
Proof.
  unfold read_config_device, build_device, device_at. rewrite read_u32_eq.
  cbv zeta. by destruct (Z.land (reg (config_address b d f 0) s) 65535 =? 65535).
Qed.

Lemma device_at_regs (s s' : State) (x : Z * Z * Z) : regs s' = regs s -> device_at s' x = device_at s x.
Proof. intros Hr. unfold device_at, reg. by rewrite Hr. Qed.

Lemma scan_slots_spec (hw_write : Z -> Z -> Z -> Z) (l : list (Z * Z * Z)) (s : State) :
  let '(ds, s') := scan_slots (fun '(b, d, f) => read_config_device hw_write b d f) l s in
  ds = omap (device_at s) l /\ regs s' = regs s.
Proof.
  revert s. induction l as [|[[b d] f] l IH]; intros s; [done|]. cbn [scan_slots].
  destruct (read_config_device_eq hw_write b d f s) as [H1 H2].
  destruct (read_config_device hw_write b d f s) as [o s1]. cbn [fst snd] in H1, H2.
  specialize (IH s1). destruct (scan_slots _ l s1) as [ds s2]. destruct IH as [-> Hr]. split; [|congruence].
  rewrite omap_cons_app, H1. f_equal. clear -H2. induction l as [|x l IH]; [done|]. by rewrite !omap_cons_app, (device_at_regs s s1 x H2), IH.
Qed.

Lemma elem_of_slots (lo hi b d f : Z) :
  (b, d, f) ∈ slots lo hi <-> lo <= b <= hi /\ 0 <= d < 32 /\ 0 <= f < 8.
Proof.
  unfold slots. rewrite list_elem_of_bind. setoid_rewrite list_elem_of_bind. setoid_rewrite list_elem_of_bind.
  setoid_rewrite elem_of_seqZ. setoid_rewrite list_elem_of_singleton. split.
  - intros (b' & (d' & (f' & [= -> -> ->] & Hf) & Hd) & Hb). lia.
  - intros (Hb & Hd & Hf). exists b. split; [|lia]. exists d. split; [|lia]. exists f. split; [done|lia].
Qed.

(** A bus scan finds what is there.  [scan_pci] changes no register and reports a
    device exactly when some bus (0 to 255), device (0 to 31) and function (0 to 7)
    answers with a vendor number other than 0xFFFF, with the fields of that function's
    registers; no function is reported twice. *)
Theorem scan_pci_spec (hw_write : Z -> Z -> Z -> Z) (s : State) :
  let '(ds, s') := scan_pci hw_write s in
  regs s' = regs s /\ NoDup ((fun d => (bus d, device d, function d)) <$> ds) /\
  forall dev, dev ∈ ds <->
    exists b d f, 0 <= b <= 255 /\ 0 <= d < 32 /\ 0 <= f < 8 /\ device_at s (b, d, f) = Some dev.
Proof.
  unfold scan_pci. pose proof (scan_slots_spec hw_write (slots 0 255) s) as Hs.
  destruct (scan_slots _ (slots 0 255) s) as [ds s']. destruct Hs as [-> Hr]. split_and!; [done| |].
  - assert (forall l : list (Z * Z * Z), (fun d => (bus d, device d, function d)) <$> omap (device_at s) l =
                      filter (fun x => is_Some (device_at s x)) l) as Hf.
    { induction l as [|[[b d] f] l IH]; [done|]. rewrite filter_cons, omap_cons_app, fmap_app, IH.
      destruct (device_at s (b, d, f)) as [dev|] eqn:E; [|by rewrite decide_False by (by intros [? ?])].
      rewrite decide_True by done. simpl. f_equal. unfold device_at in E. by split_ifs. }
    rewrite Hf. apply NoDup_filter. unfold slots.
    apply NoDup_bind; [| |apply NoDup_seqZ].
    + intros b b' x Hb Hb'. rewrite !list_elem_of_bind. setoid_rewrite list_elem_of_bind. setoid_rewrite list_elem_of_singleton. naive_solver.
    + intros b _. apply NoDup_bind; [| |apply NoDup_seqZ].
      * intros d d' x _ _. rewrite !list_elem_of_bind. setoid_rewrite list_elem_of_singleton. naive_solver.
      * intros d _. apply NoDup_bind; [| |apply NoDup_seqZ]; [|intros; apply NoDup_singleton].
        intros f f' x _ _. rewrite !list_elem_of_singleton. naive_solver.
  - intros dev. rewrite list_elem_of_omap. split.
    + intros ([[b d] f] & Hx & Hd). apply elem_of_slots in Hx. exists b, d, f. split_and!; [lia..|done].
    + intros (b & d & f & Hb & Hd & Hf & He). exists (b, d, f). split; [apply elem_of_slots; lia|done].
Qed.

Module Example.
(** A device at 0:1.0 with a 1 MiB 64-bit window at 0xFE00_0000. *)
Definition hw (a old v : Z) : Z :=
  if a =? config_address 0 1 0 16 then Z.lor (Z.land v ((2 ^ 64 - 2 ^ 20) mod 2 ^ 32)) 4
  else if a =? config_address 0 1 0 20 then Z.lor (Z.land v ((2 ^ 64 - 2 ^ 20) / 2 ^ 32)) 0
  else if a =? config_address 0 1 0 4 then Z.land v 1031
  else v.
Definition st : State :=
  mkState 0 (<[config_address 0 1 0 16 := 4261412868]> (<[config_address 0 1 0 4 := 7]> ∅)).

Lemma bar_size_spec_witness :
  let '(size, s') := bar_size hw 0 1 0 0 st in size = 2 ^ 20 /\ config_same 0 1 0 st s'.
Proof.
  apply (bar_size_spec hw 0 1 0 0 ltac:(done) ltac:(done) st 1031 20); [|done|reflexivity|done|].
  - intros old v. change (hw (cmd_addr 0 1 0) old v) with (Z.land v 1031). by rewrite <- Z.land_assoc.
  - change (sized hw 0 1 0 0 st 20) with (4 <= 20 <= 63 /\ 0 < 5 /\ exists ro, 0 <= ro < 2 ^ 4 /\
      window hw 0 1 0 st 0 ((2 ^ 64 - 2 ^ 20) mod 2 ^ 32) ro /\ window hw 0 1 0 st 1 ((2 ^ 64 - 2 ^ 20) / 2 ^ 32) 0).
    split; [lia|]. split; [lia|]. exists 4. split; [done|].
    split; (split; [intros old v; reflexivity|vm_compute; reflexivity]).
Defined.

Lemma config_address_injective_witness : 3 = 3 /\ 31 = 31 /\ 7 = 7 /\ 252 = 252.
Proof. apply (config_address_injective 3 31 7 252 3 31 7 252); done. Defined.
End Example.

End Pci.
