(* ===== verification/Spin.v ===== *)
(** The plain spin lock: [SpinLock] with [irq_save] and [IrqGuard] of
    [crates/kernel/src/util.rs], as its clients use it (the keyboard, the console, the file
    system, shared memory, PCI configuration space): interrupts off, [lock], the
    accesses of the critical section, [unlock], flags restored.

    Every access of a section is a step of its own, steps of different CPUs interleave
    freely, the weak compare-exchange may fail spuriously, and an interrupt may arrive
    wherever the interrupt flag is set.  What a section accesses is an argument.  The
    theorems are what the other files rely on when they model each locked operation as one
    step; the two-port protocol of [crates/kernel/src/drivers/pci.rs] is the instance. *)
From stdpp Require Import base list numbers option functions fin.
From S2P Require Import Prelude Lock Pci.

Open Scope Z_scope.

Module Spin.
Import Lock.Lock (CpuId, CpuId_eq_dec).

Section Machine.
(** The accesses of a critical section and what they do to the shared data. *)
Context {W X : Type} (exec : X -> W -> X).

Inductive Pc :=
  | Out                      (* outside *)
  | Spinning (work : list W) (* compare_exchange_weak(false, true) *)
  | Hold (work : list W)     (* inside, with the accesses still to make *)
  | Restore.                 (* unlocked; the saved flags are restored next *)

(** [flag] is the interrupt flag, [saved] what [irq_save] returned. *)
Record Ctx := mkCtx { pc : Pc; flag : bool; saved : option bool }.
Record Cpu := mkCpu { running : Ctx; suspended : list Ctx }.

(** [history] is bookkeeping: the sections in the order in which they got the lock. *)
Record State := mkState { locked : bool; shared : X; cpus : CpuId -> Cpu; history : list (list W) }.

Inductive Action :=
  | Enter (guarded : bool) (work : list W)
  | Try (spurious : bool)
  | Access
  | Unlock
  | RestoreFlags
  | SetIf (b : bool)
  | IrqEnter
  | IrqExit.

(** [irq_save] when [guarded], then the call of [lock]. *)
Definition enter (guarded : bool) (work : list W) (c : Ctx) : Ctx :=
  if guarded then mkCtx (Spinning work) false (Some (flag c)) else mkCtx (Spinning work) (flag c) None.

(** One step of a CPU: its new state, the lock, the data, the section that begins. *)
Definition cpu_step (a : Action) (k : Cpu) (l : bool) (x : X) : option (Cpu * bool * X * list (list W)) :=
  let c := running k in
  let go c' l' x' h := Some (mkCpu c' (suspended k), l', x', h) in
  match a, pc c with
  | Enter g w, Out => go (enter g w c) l x []
  | Try sp, Spinning w =>
      if l || sp then go c l x [] else go (mkCtx (Hold w) (flag c) (saved c)) true x [w]
  | Access, Hold (w :: ws) => go (mkCtx (Hold ws) (flag c) (saved c)) l (exec x w) []
  | Unlock, Hold [] => go (mkCtx Restore (flag c) (saved c)) false x []
  | RestoreFlags, Restore => go (mkCtx Out (default (flag c) (saved c)) None) l x []
  | SetIf b, Out => go (mkCtx Out b None) l x []
  | IrqEnter, _ => if flag c then Some (mkCpu (mkCtx Out false None) (c :: suspended k), l, x, []) else None
  | IrqExit, Out => match suspended k with c' :: cs => Some (mkCpu c' cs, l, x, []) | [] => None end
  | _, _ => None
  end.

Definition step_on (s : State) (e : CpuId * Action) : option State :=
  '(k, l, x, h) ← cpu_step (snd e) (cpus s (fst e)) (locked s) (shared s);
  Some (mkState l x (<[fst e := k]> (cpus s)) (history s ++ h)).

(** The clients' discipline: interrupts are off when [lock] is called. *)
Definition disciplined (s : State) (e : CpuId * Action) : Prop :=
  match snd e with Enter g _ => g = true \/ flag (running (cpus s (fst e))) = false | _ => True end.
Definition step (s : State) (e : CpuId * Action) (s' : State) : Prop := disciplined s e /\ step_on s e = Some s'.

Definition boot (x : X) : State := mkState false x (fun _ => mkCpu (mkCtx Out true None) []) [].

(** * The invariant *)

Definition holds (k : Cpu) : option (list W) := match pc (running k) with Hold w => Some w | _ => None end.

(** Interrupts stay off from the call of [lock] to the restored flags, so that no
    suspended context is anywhere in between. *)
Definition cpu_ok (k : Cpu) : Prop :=
  (pc (running k) = Out \/ flag (running k) = false) /\ Forall (fun c => pc c = Out) (suspended k).

Definition owner_of (s : State) (o : option (CpuId * list W)) : Prop :=
  forall i, holds (cpus s i) = match o with Some (j, w) => if decide (i = j) then Some w else None | None => None end.

(** The data, once the running section is finished, is what the sections make of it one
    after the other. *)
Record Inv (x0 : X) (o : option (CpuId * list W)) (s : State) : Prop := {
  inv_cpus : forall i, cpu_ok (cpus s i);
  inv_owner : owner_of s o;
  inv_locked : locked s = bool_decide (is_Some o);
  inv_data : foldl exec (shared s) (default [] (snd <$> o)) = foldl (foldl exec) x0 (history s)
}.

Lemma spin_boot_inv (x : X) : Inv x None (boot x).
Proof. split; try done. intros i. split; [by left|constructor]. Qed.

Lemma owner_update (s : State) (o o' : option (CpuId * list W)) (i : CpuId) (k : Cpu) (l : bool) (x : X) (h : list (list W)) :
  owner_of s o ->
  holds k = match o' with Some (j, w) => if decide (i = j) then Some w else None | None => None end ->
  (forall j, j <> i -> match o' with Some (a, w) => if decide (j = a) then Some w else None | None => None end =
                       match o with Some (a, w) => if decide (j = a) then Some w else None | None => None end) ->
  owner_of (mkState l x (<[i := k]> (cpus s)) h) o'.
Proof.
  intros Ho Hk Hr j. simpl. destruct (decide (i = j)) as [<-|Hn]; [by rewrite fn_lookup_insert|].
  rewrite fn_lookup_insert_ne by done. rewrite (Ho j). symmetry. by apply Hr.
Qed.

Lemma cpus_update (s : State) (i : CpuId) (k : Cpu) : (forall j, cpu_ok (cpus s j)) -> cpu_ok k -> forall j, cpu_ok (<[i := k]> (cpus s) j).
Proof. intros Ho Hk j. destruct (decide (i = j)) as [<-|Hn]; [by rewrite fn_lookup_insert|by rewrite fn_lookup_insert_ne]. Qed.

(** A step that neither takes nor gives the lock nor touches the data. *)
Lemma idle_inv (x0 : X) (o : option (CpuId * list W)) (s : State) (i : CpuId) (k : Cpu) :
  Inv x0 o s -> cpu_ok k -> holds k = holds (cpus s i) -> Inv x0 o (mkState (locked s) (shared s) (<[i := k]> (cpus s)) (history s ++ [])).
Proof.
  intros [Hc Ho Hl Hd] Hk Hh. rewrite app_nil_r. split; simpl; [by apply cpus_update| |done..].
  eapply owner_update; [done| |done]. by rewrite Hh, (Ho i).
Qed.

Lemma not_holding (x0 : X) (o : option (CpuId * list W)) (s : State) (i : CpuId) :
  Inv x0 o s -> holds (cpus s i) = None -> forall w, o <> Some (i, w).
Proof. intros [_ Ho _ _] Hn w ->. specialize (Ho i). simpl in Ho. rewrite decide_True in Ho by done. congruence. Qed.

Lemma holding (x0 : X) (o : option (CpuId * list W)) (s : State) (i : CpuId) (w : list W) :
  Inv x0 o s -> holds (cpus s i) = Some w -> o = Some (i, w).
Proof.
  intros [_ Ho _ _] Hh. rewrite (Ho i) in Hh. destruct o as [[j v]|]; [|done]. destruct (decide (i = j)) as [<-|]; [|done]. by simplify_eq.
Qed.

Lemma spin_step_inv (x0 : X) (o : option (CpuId * list W)) (s s' : State) (e : CpuId * Action) :
  Inv x0 o s -> step s e s' -> exists o', Inv x0 o' s'.
Proof.
  intros HI [Hdis Hs]. destruct e as [i a]. unfold step_on in Hs. cbn [fst snd] in *.
  destruct (cpu_step a (cpus s i) (locked s) (shared s)) as [[[[k l] x] h]|] eqn:E; [|done]. cbn in Hs. simplify_eq.
  pose proof (inv_cpus _ _ _ HI i) as [Hif Hsus]. unfold disciplined in Hdis. cbn [fst snd] in Hdis.
  destruct (cpus s i) as [[p fl sv] sus] eqn:Ek. unfold cpu_step in E. cbn in E, Hif, Hsus, Hdis.
  assert (holds (cpus s i) = match p with Hold w => Some w | _ => None end) as Hh by (by rewrite Ek).
  destruct a as [g w|sp| | | |b| |], p as [|w'|w'|]; try discriminate E; simplify_eq.
  - (* Enter *) exists o. apply idle_inv; [done| |by rewrite Hh; unfold holds, enter; destruct g].
    unfold enter. destruct g; split; simpl; try done; [by right|]. right. by destruct Hdis.
  - (* Try *) destruct (locked s || sp) eqn:El; simplify_eq.
    + exists o. apply idle_inv; [done|by split|by rewrite Hh].
    + apply orb_false_iff in El as [El _]. destruct HI as [Hc Ho Hl Hd]. rewrite El in Hl.
      destruct o as [o|]; [by rewrite bool_decide_true in Hl|]. exists (Some (i, w')). split; simpl.
      * apply cpus_update; [done|]. split; [destruct Hif as [Hx|Hx]; [discriminate Hx|by right]|done].
      * eapply owner_update; [done|simpl; by rewrite decide_True|]. intros j Hj. simpl. by rewrite decide_False.
      * done.
      * rewrite foldl_snoc. simpl in Hd. by rewrite Hd.
  - (* Access *) destruct w' as [|w ws]; simplify_eq. pose proof (holding _ _ _ _ _ HI Hh) as ->. destruct HI as [Hc Ho Hl Hd].
    exists (Some (i, ws)). rewrite app_nil_r. split; simpl; [apply cpus_update; [done|split; [destruct Hif as [Hx|Hx]; [discriminate Hx|by right]|done]]| |done|exact Hd].
    eapply owner_update; [done|simpl; by rewrite decide_True|]. intros j Hj. simpl. by rewrite !decide_False.
  - (* Unlock *) destruct w' as [|w ws]; simplify_eq. pose proof (holding _ _ _ _ _ HI Hh) as ->. destruct HI as [Hc Ho Hl Hd].
    exists None. rewrite app_nil_r. split; simpl; [apply cpus_update; [done|split; [destruct Hif as [Hx|Hx]; [discriminate Hx|by right]|done]]| |done|exact Hd].
    eapply owner_update; [done|done|]. intros j Hj. simpl. by rewrite decide_False.
  - (* RestoreFlags *) exists o. apply idle_inv; [done| |by rewrite Hh]. split; [by left|done].
  - (* SetIf *) exists o. apply idle_inv; [done| |by rewrite Hh]. split; [by left|done].
  - (* IrqEnter *) destruct fl; simplify_eq. exists o. apply idle_inv; [done| |by rewrite Hh]. split; [by left|]. by constructor.
  - destruct fl; simplify_eq. by destruct Hif.
  - destruct fl; simplify_eq. by destruct Hif.
  - destruct fl; simplify_eq. by destruct Hif.
  - (* IrqExit *) destruct sus as [|c' cs]; simplify_eq. apply Forall_cons_1 in Hsus as [Hc' Hcs]. exists o.
    apply idle_inv; [done|split; [by left|done]|]. rewrite Hh. unfold holds. simpl. by rewrite Hc'.
Qed.

Lemma spin_reachable (x0 : X) (es : list (CpuId * Action)) (s : State) : trace step (boot x0) es s -> exists o, Inv x0 o s.
Proof.
  intros Ht. apply (trace_invariant step (fun s => exists o, Inv x0 o s) (boot x0) es s); [|eexists; apply spin_boot_inv|done].
  intros s1 e s2 [o HI] Hs. by eapply spin_step_inv.
Qed.

(** A critical section is one step.  However the accesses of the CPUs, their attempts and
    their interrupts interleave: never two CPUs are inside; and the shared data is what
    the sections make of it one after the other, in the order in which they got the lock,
    with only the accesses still to come of the one that is inside missing. *)
Theorem sections_serialize (x0 : X) (es : list (CpuId * Action)) (s : State) :
  trace step (boot x0) es s ->
  (forall i j v w, holds (cpus s i) = Some v -> holds (cpus s j) = Some w -> i = j) /\
  ((forall i, holds (cpus s i) = None) -> shared s = foldl (foldl exec) x0 (history s)) /\
  (forall i w, holds (cpus s i) = Some w -> foldl exec (shared s) w = foldl (foldl exec) x0 (history s)).
Proof.
  intros [o HI]%spin_reachable. split_and!.
  - intros i j v w Hi Hj. pose proof (holding _ _ _ _ _ HI Hi) as Ho. pose proof (holding _ _ _ _ _ HI Hj). congruence.
  - intros Hn. destruct HI as [_ Ho _ Hd]. destruct o as [[j w]|]; [|done]. specialize (Hn j). rewrite (Ho j), decide_True in Hn by done. done.
  - intros i w Hi. pose proof (holding _ _ _ _ _ HI Hi) as ->. exact (inv_data _ _ _ HI).
Qed.

(** ** Progress *)

Lemma own_step (x0 : X) (s : State) (j : CpuId) (v : list W) :
  Inv x0 (Some (j, v)) s ->
  exists s', trace step s (match v with [] => [(j, Unlock)] | _ :: _ => [(j, Access)] end) s' /\
    Inv x0 (match v with [] => None | _ :: v' => Some (j, v') end) s' /\ forall i, i <> j -> cpus s' i = cpus s i.
Proof.
  intros HI. pose proof (inv_owner _ _ _ HI j) as Hj. simpl in Hj. rewrite decide_True in Hj by done. unfold holds in Hj.
  destruct (pc (running (cpus s j))) as [| |u|] eqn:Ep; try done. injection Hj as ->.
  set (e := (j, match v with [] => Unlock | _ :: _ => Access end)).
  assert (exists s', step_on s e = Some s' /\ forall i, i <> j -> cpus s' i = cpus s i) as (s' & Es & Hn).
  { unfold e, step_on, cpu_step. cbn [fst snd]. rewrite Ep. destruct v; eexists; (split; [reflexivity|]); intros i Hi; simpl; by rewrite fn_lookup_insert_ne. }
  assert (step s e s') as Hs by (split; [by destruct v|done]).
  assert (holds (cpus s' j) = match v with [] => None | _ :: v' => Some v' end) as Hh.
  { unfold e, step_on, cpu_step in Es. cbn [fst snd] in Es. rewrite Ep in Es. destruct v; cbn in Es; simplify_eq; simpl; by rewrite fn_lookup_insert. }
  exists s'. split; [destruct v; by repeat econstructor|]. split; [|done].
  destruct (spin_step_inv _ _ _ _ _ HI Hs) as [o' HI']. destruct v as [|w v]; [|by rewrite <-(holding _ _ _ _ _ HI' Hh)].
  destruct o' as [[a u]|]; [|done]. exfalso. pose proof (inv_owner _ _ _ HI' a) as Ha. simpl in Ha. rewrite decide_True in Ha by done.
  destruct (decide (a = j)) as [->|Haj]; [congruence|]. rewrite Hn in Ha by done. pose proof (holding _ _ _ _ _ HI Ha). congruence.
Qed.

Lemma owner_leaves (x0 : X) (v : list W) (s : State) (j : CpuId) :
  Inv x0 (Some (j, v)) s -> exists es s', trace step s es s' /\ Inv x0 None s' /\ forall i, i <> j -> cpus s' i = cpus s i.
Proof.
  revert s. induction v as [|w v IH]; intros s HI; destruct (own_step _ _ _ _ HI) as (s1 & T1 & I1 & N1); [by eauto|].
  destruct (IH s1 I1) as (es & s2 & T2 & I2 & N2). exists ([(j, Access)] ++ es), s2. split; [by eapply trace_app|]. split; [done|].
  intros i Hi. by rewrite N2, N1.
Qed.

(** A CPU that waits for the lock can always get it: the CPU inside is not interrupted,
    so that after its remaining accesses and its [unlock] the next attempt succeeds. *)
Theorem spin_progress (x0 : X) (es : list (CpuId * Action)) (s : State) (i : CpuId) (w : list W) :
  trace step (boot x0) es s -> pc (running (cpus s i)) = Spinning w ->
  exists es' s', trace step s es' s' /\ holds (cpus s' i) = Some w.
Proof.
  intros [o HI]%spin_reachable Hi.
  assert (exists es1 s1, trace step s es1 s1 /\ Inv x0 None s1 /\ cpus s1 i = cpus s i) as (es1 & s1 & T1 & I1 & E1).
  { destruct o as [[j v]|]; [|exists [], s; split_and!; [constructor|done..]].
    destruct (owner_leaves _ _ _ _ HI) as (es1 & s1 & T1 & I1 & N1). exists es1, s1. split_and!; [done..|]. apply N1. intros ->.
    pose proof (inv_owner _ _ _ HI j) as Hj. simpl in Hj. rewrite decide_True in Hj by done. unfold holds in Hj. by rewrite Hi in Hj. }
  assert (exists s2, step s1 (i, Try false) s2 /\ holds (cpus s2 i) = Some w) as (s2 & S2 & H2).
  { unfold step, step_on, cpu_step. cbn [fst snd]. rewrite E1, Hi, (inv_locked _ _ _ I1). cbn. eexists. split; [done|]. simpl. by rewrite fn_lookup_insert. }
  exists (es1 ++ [(i, Try false)]), s2. split; [|done]. eapply trace_app; [done|]. econstructor; [exact S2|constructor].
Qed.

(** ** What the guard is for *)

Fixpoint run (s : State) (es : list (CpuId * Action)) : option State :=
  match es with [] => Some s | e :: es' => s' ← step_on s e; run s' es' end.

Definition no_hold (c : Ctx) : Prop := match pc c with Hold _ => False | _ => True end.
(** CPU [i] spins in a handler on a lock that the code it interrupted holds. *)
Definition stuck (i : CpuId) (K : Cpu) (s : State) : Prop :=
  locked s = true /\ cpus s i = K /\ forall j, j <> i -> no_hold (running (cpus s j)) /\ Forall no_hold (suspended (cpus s j)).

Lemma stuck_step (i : CpuId) (w : list W) (sv : option bool) (sus : list Ctx) (s s' : State) (e : CpuId * Action) :
  stuck i (mkCpu (mkCtx (Spinning w) false sv) sus) s -> step_on s e = Some s' -> stuck i (mkCpu (mkCtx (Spinning w) false sv) sus) s'.
Proof.
  intros (Hl & Hi & Ho) Hs. destruct e as [j a]. unfold step_on in Hs. cbn [fst snd] in Hs. rewrite Hl in Hs.
  destruct (decide (j = i)) as [->|Hj].
  - rewrite Hi in Hs. unfold cpu_step in Hs. cbn in Hs. destruct a; cbn in Hs; try done. simplify_eq. split; [done|]. simpl.
    split; [by rewrite fn_lookup_insert|]. intros j Hj. rewrite fn_lookup_insert_ne by done. by apply Ho.
  - destruct (Ho j Hj) as [Hr Hsu]. destruct (cpus s j) as [[p fl sv'] su] eqn:Ek. cbn in Hr, Hsu.
    destruct (cpu_step a _ true (shared s)) as [[[[k l] x] h]|] eqn:Es; [|done]. cbn in Hs. simplify_eq.
    assert (l = true /\ no_hold (running k) /\ Forall no_hold (suspended k)) as (-> & A & B).
    { unfold cpu_step in Es. cbn in Es. destruct a, p as [| | |]; cbn in Es; try done; simplify_eq; cbn; try (by split_and!).
      - by destruct guarded.
      - destruct fl; simplify_eq; cbn; split_and!; try done; by constructor.
      - destruct fl; simplify_eq; cbn; split_and!; try done; by constructor.
      - destruct fl; simplify_eq; cbn; split_and!; try done; by constructor.
      - destruct su as [|c cs]; simplify_eq. apply Forall_cons_1 in Hsu as [? ?]. by split_and!. }
    split; [done|]. simpl. split; [by rewrite fn_lookup_insert_ne|]. intros a' Ha'.
    destruct (decide (j = a')) as [<-|]; [by rewrite fn_lookup_insert|]. rewrite fn_lookup_insert_ne by done. by apply Ho.
Qed.

(** Without the guard a CPU can lock itself out.  If an interrupt arrives while a CPU is
    inside a section that it entered with interrupts on, and the handler takes the same
    lock, then whatever the CPUs do afterwards, the handler never gets it. *)
Theorem unguarded_lock_deadlocks (x0 : X) (i : CpuId) (w w' : list W) (g : bool) (es : list (CpuId * Action)) (s : State) :
  run (boot x0) ([(i, Enter false w); (i, Try false); (i, IrqEnter); (i, Enter g w')] ++ es) = Some s ->
  pc (running (cpus s i)) = Spinning w' /\ locked s = true.
Proof.
  set (s4 := mkState true x0 (<[i := mkCpu (enter g w' (mkCtx Out false None)) [mkCtx (Hold w) true None]]> (fun _ => mkCpu (mkCtx Out true None) [])) [w]).
  assert (exists f, run (boot x0) ([(i, Enter false w); (i, Try false); (i, IrqEnter); (i, Enter g w')] ++ es) =
    run (mkState true x0 f [w]) es /\ forall j, f j = cpus s4 j) as (f & -> & Hf).
  { eexists. split.
    - cbn [run app]. unfold step_on, cpu_step. cbn -[run]. repeat (rewrite fn_lookup_insert; cbn -[run]). reflexivity.
    - intros j. unfold s4. cbn. destruct (decide (i = j)) as [<-|]; [by rewrite !fn_lookup_insert|by rewrite !fn_lookup_insert_ne]. }
  assert (stuck i (mkCpu (enter g w' (mkCtx Out false None)) [mkCtx (Hold w) true None]) (mkState true x0 f [w])) as Hst.
  { split; [done|]. simpl. rewrite Hf. split; [unfold s4; simpl; by rewrite fn_lookup_insert|].
    intros j Hj. rewrite Hf. unfold s4. simpl. rewrite fn_lookup_insert_ne by done. by split. }
  clearbody s4. revert Hst. generalize (mkState true x0 f [w]). clear Hf f s4.
  assert (exists sv, enter g w' (mkCtx Out false None) = mkCtx (Spinning w') false sv) as [sv ->] by (destruct g; by eexists).
  induction es as [|e es IH]; intros s0 Hst; cbn [run].
  - intros [= <-]. destruct Hst as (? & -> & _). done.
  - destruct (step_on s0 e) as [s1|] eqn:E; [|done]. cbn. apply IH. by eapply stuck_step.
Qed.

(** Only sections that were entered get the lock. *)
Definition spins (P : list W -> Prop) (c : Ctx) : Prop := match pc c with Spinning w => P w | _ => True end.
Definition entered (P : list W -> Prop) (e : CpuId * Action) : Prop := match snd e with Enter _ w => P w | _ => True end.
Definition all_from (P : list W -> Prop) (s : State) : Prop :=
  Forall P (history s) /\ forall i, spins P (running (cpus s i)) /\ Forall (spins P) (suspended (cpus s i)).

Lemma from_step (P : list W -> Prop) (s s' : State) (e : CpuId * Action) : step_on s e = Some s' -> entered P e -> all_from P s -> all_from P s'.
Proof.
  intros Hs He [Hh Hc]. destruct e as [i a]. unfold step_on in Hs. cbn [fst snd] in Hs. destruct (Hc i) as [Hr Hsu].
  destruct (cpus s i) as [[p fl sv] su] eqn:Ek. cbn in Hr, Hsu.
  destruct (cpu_step a _ (locked s) (shared s)) as [[[[k l] x] h]|] eqn:Es; [|done]. cbn in Hs. simplify_eq.
  assert (Forall P h /\ spins P (running k) /\ Forall (spins P) (suspended k)) as (A & B & C).
  { unfold cpu_step in Es. cbn in Es. destruct a, p as [| |[|]|]; cbn in Es; try done; repeat case_match; simplify_eq; cbn;
      repeat match goal with H : Forall _ (_ :: _) |- _ => apply Forall_cons_1 in H as [? ?] end;
      split_and!; try done; try (by constructor); try (unfold enter; by destruct guarded). }
  split; simpl; [by apply Forall_app|]. intros j. destruct (decide (i = j)) as [<-|]; [by rewrite fn_lookup_insert|]. rewrite fn_lookup_insert_ne by done. apply Hc.
Qed.

Lemma history_entered (P : list W -> Prop) (x0 : X) (es : list (CpuId * Action)) (s : State) :
  trace step (boot x0) es s -> Forall (entered P) es -> Forall P (history s).
Proof.
  intros Ht He. cut (all_from P s); [by intros []|]. assert (all_from P (boot x0)) as Hb by (split; [constructor|done]).
  revert Hb He. induction Ht as [|s1 e s2 es s3 [_ Hs] Ht IH]; [done|]. intros Hb [He1 He2]%Forall_cons_1. apply IH; [|done]. by eapply from_step.
Qed.
End Machine.

(** * PCI configuration space *)

(** The accesses of [read_u32] and [write_u32] to the two ports; the values read are
    collected in order. *)
Inductive Port := Outd (port value : Z) | Ind (port : Z).
Definition port_access (hw : Z -> Z -> Z -> Z) (x : Pci.State * list Z) (p : Port) : Pci.State * list Z :=
  match p with
  | Outd port v => (Pci.outd hw port v (fst x), snd x)
  | Ind port => (fst x, snd x ++ [Pci.ind port (fst x)])
  end.

Inductive Config := Read (b d f offset : Z) | Write (b d f offset value : Z).
Definition section_of (c : Config) : list Port :=
  match c with
  | Read b d f o => [Outd Pci.CONFIG_ADDRESS (Pci.config_address b d f o); Ind Pci.CONFIG_DATA]
  | Write b d f o v => [Outd Pci.CONFIG_ADDRESS (Pci.config_address b d f o); Outd Pci.CONFIG_DATA v]
  end.
(** The two functions as [Pci.v] has them, in one step. *)
Definition config_access (hw : Z -> Z -> Z -> Z) (x : Pci.State * list Z) (c : Config) : Pci.State * list Z :=
  match c with
  | Read b d f o => let '(v, s) := Pci.read_u32 hw b d f o (fst x) in (s, snd x ++ [v])
  | Write b d f o v => (Pci.write_u32 hw b d f o v (fst x), snd x)
  end.

(** C39: Configuration accesses of all CPUs are atomic.  However their port accesses
    interleave, once nobody is inside the registers hold, and the reads have returned,
    what the one-step accesses of [Pci.v] give in the order in which they got the lock:
    no data access lands at an address that another CPU selected. *)
Theorem config_access_atomic (hw : Z -> Z -> Z -> Z) (st : Pci.State) (es : list (CpuId * Action)) (s : State) :
  trace (step (port_access hw)) (boot (st, [])) es s ->
  Forall (entered (fun w => exists c, w = section_of c)) es -> (forall i, holds (cpus s i) = None) ->
  exists cs, history s = section_of <$> cs /\ shared s = foldl (config_access hw) (st, []) cs.
Proof.
  intros Ht He Hn. pose proof (history_entered _ _ _ _ _ Ht He) as Hh.
  assert (exists cs, history s = section_of <$> cs) as [cs Hcs].
  { clear -Hh. induction Hh as [|w l [c ->] _ [cs ->]]; [by exists []|by exists (c :: cs)]. }
  exists cs. split; [done|]. destruct (sections_serialize (port_access hw) _ _ _ Ht) as (_ & -> & _); [|done]. rewrite Hcs.
  clear. generalize (st, @nil Z). induction cs as [|c cs IH]; intros x; [done|]. simpl. rewrite <-IH. f_equal. by destruct c.
Qed.
Module Example.
(** A run in which every section is guarded keeps the discipline. *)
Definition guarded {W : Type} (e : CpuId * @Action W) : bool := match snd e with Enter g _ => g | _ => true end.
Lemma guarded_trace {W X : Type} (exec : X -> W -> X) (s s' : State) (es : list (CpuId * Action)) :
  run exec s es = Some s' -> forallb guarded es = true -> trace (step exec) s es s'.
Proof.
  revert s. induction es as [|e es IH]; intros s Hr Hg; cbn [run forallb] in *; [simplify_eq; constructor|].
  destruct (step_on exec s e) as [s1|] eqn:E; [|done]. apply andb_true_iff in Hg as [Hg Hgs]. econstructor; [|by apply IH].
  split; [|done]. unfold disciplined, guarded in *. destruct (snd e); try done. by left.
Qed.

(** Two CPUs meet at the lock: CPU 1 reads a register while CPU 0 writes one. *)
Definition hw (address old value : Z) : Z := value.
Definition write_it : Config := Write 0 1 0 4 7.
Definition read_it : Config := Read 0 2 0 60.
Definition meeting : list (CpuId * @Action Port) :=
  [(0%fin, Enter true (section_of write_it)); (1%fin, Enter true (section_of read_it)); (0%fin, Try false); (1%fin, Try false);
   (0%fin, Access); (1%fin, Try true); (0%fin, Access); (0%fin, Unlock); (1%fin, Try false)].
Definition start : @State Port (Pci.State * list Z) := boot (Pci.mkState 0 ∅, []).
Definition met : State := default start (run (port_access hw) start meeting).
Lemma met_run : run (port_access hw) start meeting = Some met.
Proof. unfold met. by destruct (run (port_access hw) start meeting) eqn:E; [|vm_compute in E; discriminate]. Qed.
Definition leaving : list (CpuId * @Action Port) := [(1%fin, Access); (1%fin, Access); (1%fin, Unlock)].
Definition left_it : State := default start (run (port_access hw) start (meeting ++ leaving)).
Lemma left_run : run (port_access hw) start (meeting ++ leaving) = Some left_it.
Proof. unfold left_it. by destruct (run (port_access hw) start (meeting ++ leaving)) eqn:E; [|vm_compute in E; discriminate]. Qed.

Lemma sections_serialize_witness :
  foldl (port_access hw) (shared met) (section_of read_it) = foldl (foldl (port_access hw)) (Pci.mkState 0 ∅, []) (history met).
Proof.
  apply (proj2 (proj2 (sections_serialize (port_access hw) _ meeting met (guarded_trace _ _ _ _ met_run eq_refl))) 1%fin).
  by vm_compute.
Defined.

Lemma config_access_atomic_witness :
  exists cs, history left_it = section_of <$> cs /\ shared left_it = foldl (config_access hw) (Pci.mkState 0 ∅, []) cs.
Proof.
  apply (config_access_atomic hw _ (meeting ++ leaving) left_it (guarded_trace _ _ _ _ left_run eq_refl)).
  - unfold meeting, leaving. cbn [app]. repeat (apply Forall_cons_2; [cbn; first [done|by exists write_it|by exists read_it]|]). constructor.
  - intros i. do 16 (inv_fin i; [by vm_compute|intros i]). inv_fin i.
Defined.

(** CPU 0 spins while CPU 1 is inside. *)
Definition waiting_for : list (CpuId * @Action Port) := meeting ++ [(0%fin, RestoreFlags); (0%fin, Enter true (section_of write_it))].
Definition waits_now : State := default start (run (port_access hw) start waiting_for).
Lemma waits_run : run (port_access hw) start waiting_for = Some waits_now.
Proof. unfold waits_now. by destruct (run (port_access hw) start waiting_for) eqn:E; [|vm_compute in E; discriminate]. Qed.

Lemma spin_progress_witness :
  exists es' s', trace (step (port_access hw)) waits_now es' s' /\ holds (cpus s' 0%fin) = Some (section_of write_it).
Proof.
  apply (spin_progress (port_access hw) _ waiting_for waits_now 0%fin _ (guarded_trace _ _ _ _ waits_run eq_refl)). by vm_compute.
Defined.

(** The handler tries three times. *)
Definition tries : list (CpuId * @Action Port) := replicate 3 (0%fin, Try false).
Lemma unguarded_lock_deadlocks_witness :
  exists s, run (port_access hw) start ([(0%fin, Enter false []); (0%fin, Try false); (0%fin, IrqEnter); (0%fin, Enter true [])] ++ tries) = Some s /\
    pc (running (cpus s 0%fin)) = Spinning [] /\ locked s = true.
Proof.
  destruct (run (port_access hw) start ([(0%fin, Enter false []); (0%fin, Try false); (0%fin, IrqEnter); (0%fin, Enter true [])] ++ tries)) as [s|] eqn:E;
    [|vm_compute in E; discriminate].
  exists s. split; [done|]. exact (unguarded_lock_deadlocks (port_access hw) _ 0%fin [] [] true tries s E).
Defined.
End Example.

End Spin.
