(* ===== verification/Ioapic.v ===== *)
(** The I/O APIC: [crates/kernel/src/drivers/ioapic.rs].

    The chip is an index register and a window on a register file; the registers hold
    what is written to them.  Register numbers are bytes, as in the source. *)
From stdpp Require Import base list numbers option gmap.
From S2P Require Import Prelude.

Open Scope Z_scope.

Module Ioapic.

Definition wrap8 (x : Z) : Z := x mod 256.
Definition wrap32 (x : Z) : Z := x mod 2 ^ 32.

Record IoApic := mkIoApic { sel : Z; regs : gmap Z Z }.

(** The two volatile accesses. *)
Definition write_sel (v : Z) (s : IoApic) : IoApic := mkIoApic v (regs s).
Definition read_win (s : IoApic) : Z := default 0 (regs s !! sel s).
Definition write_win (v : Z) (s : IoApic) : IoApic := mkIoApic (sel s) (<[sel s := v]> (regs s)).

Definition read_reg (reg : Z) (s : IoApic) : Z * IoApic := let s := write_sel reg s in (read_win s, s).
Definition write_reg (reg value : Z) (s : IoApic) : IoApic := write_win value (write_sel reg s).

Definition low_reg (irq : Z) : Z := wrap8 (16 + irq * 2).
Definition high_reg (irq : Z) : Z := wrap8 (low_reg irq + 1).
Definition MASKED : Z := 2 ^ 16.

Definition max_redirection_entry (s : IoApic) : Z * IoApic :=
  let '(v, s) := read_reg 1 s in (Z.land (Z.shiftr v 16) 255, s).

(** The loop [for i in 0..=max]. *)
Fixpoint mask_loop (n : nat) (i : Z) (s : IoApic) : IoApic :=
  match n with
  | O => s
  | S n' =>
      let s := write_reg (high_reg i) 0 s in
      let '(low, s) := read_reg (low_reg i) s in
      mask_loop n' (i + 1) (write_reg (low_reg i) (Z.lor low MASKED) s)
  end.
Definition mask_all (s : IoApic) : IoApic :=
  let '(max, s) := max_redirection_entry s in mask_loop (Z.to_nat (max + 1)) 0 s.

(** The new low half of an entry. *)
Definition entry_low (low vector flags : Z) : Z :=
  let low := Z.land low (Z.lnot 129023) in   (* !0x1F7FF *)
  let low := Z.lor low vector in
  let polarity := Z.land flags 3 in
  let trigger := Z.land (Z.shiftr flags 2) 3 in
  let low := if negb (polarity =? 0) then Z.lor (Z.land low (Z.lnot (2 ^ 13))) (Z.shiftl (Z.land polarity 1) 13) else low in
  if negb (trigger =? 0) then Z.lor (Z.land low (Z.lnot (2 ^ 15))) (Z.shiftl (Z.land trigger 1) 15) else low.

Definition set_irq_ext (irq vector lapic_id flags : Z) (s : IoApic) : IoApic :=
  let s := write_reg (high_reg irq) (wrap32 (Z.shiftl lapic_id 24)) s in
  let '(low, s) := read_reg (low_reg irq) s in
  write_reg (low_reg irq) (entry_low low vector flags) s.

Definition unmask_irq (irq : Z) (s : IoApic) : IoApic :=
  let '(low, s) := read_reg (low_reg irq) s in write_reg (low_reg irq) (Z.land low (Z.lnot MASKED)) s.
Definition mask_irq (irq : Z) (s : IoApic) : IoApic :=
  let '(low, s) := read_reg (low_reg irq) s in write_reg (low_reg irq) (Z.lor low MASKED) s.

(** ** Lines of user-mode drivers: the statics and the chip at [base] *)

Record Lines := mkLines { base : Z; lapic : Z; chip : IoApic }.
Definition set_chip (c : IoApic) (l : Lines) : Lines := mkLines (base l) (lapic l) c.

Definition configure_driver_irqs (b lapic_id : Z) (l : Lines) : Lines := mkLines b lapic_id (chip l).
Definition mask_driver_irq (irq : Z) (masked : bool) (l : Lines) : bool * Lines :=
  if base l =? 0 then (false, l)
  else (true, set_chip (if masked then mask_irq irq (chip l) else unmask_irq irq (chip l)) l).
Definition route_driver_irq (irq : Z) (enable : bool) (l : Lines) : bool * Lines :=
  if base l =? 0 then (false, l)
  else (true, set_chip (if enable then unmask_irq irq (set_irq_ext irq 49 (lapic l) 15 (chip l)) else mask_irq irq (chip l)) l).

(** * Entries *)

Definition reg (r : Z) (s : IoApic) : Z := default 0 (regs s !! r).
Definition low (irq : Z) (s : IoApic) : Z := reg (low_reg irq) s.
Definition high (irq : Z) (s : IoApic) : Z := reg (high_reg irq) s.
Definition masked (irq : Z) (s : IoApic) : bool := Z.testbit (low irq s) 16.

(** Lines whose registers exist as bytes. *)
Definition line (irq : Z) : Prop := 0 <= irq < 120.

Lemma low_reg_eq (irq : Z) : line irq -> low_reg irq = 16 + irq * 2 /\ high_reg irq = 17 + irq * 2.
Proof.
  intros Hi. unfold line in Hi. unfold high_reg, low_reg, wrap8. rewrite (Z.mod_small (16 + irq * 2)) by lia.
  split; [done|]. rewrite Z.mod_small by lia. lia.
Qed.

Lemma reg_write (r r' v : Z) (s : IoApic) : reg r' (write_reg r v s) = if decide (r' = r) then v else reg r' s.
Proof. unfold reg, write_reg. simpl. case_decide; subst; [by rewrite lookup_insert_eq|by rewrite lookup_insert_ne]. Qed.

(** Lines have separate registers. *)
Lemma line_regs (irq irq' : Z) : line irq -> line irq' ->
  low_reg irq <> high_reg irq' /\ (irq <> irq' -> low_reg irq <> low_reg irq' /\ high_reg irq <> high_reg irq').
Proof. intros Hi Hj. destruct (low_reg_eq irq Hi), (low_reg_eq irq' Hj). lia. Qed.

(** An update of one line's low register. *)
Lemma update_low (irq : Z) (g : Z -> Z) (s s' : IoApic) :
  line irq -> s' = write_reg (low_reg irq) (g (low irq s)) (write_sel (low_reg irq) s) ->
  low irq s' = g (low irq s) /\ high irq s' = high irq s /\
  forall j, line j -> j <> irq -> low j s' = low j s /\ high j s' = high j s.
Proof.
  intros Hi ->. unfold low, high. destruct (line_regs irq irq Hi Hi) as [Hne _]. split_and!.
  - by rewrite reg_write, decide_True.
  - by rewrite reg_write, decide_False.
  - intros j Hj Hji. destruct (line_regs irq j Hi Hj) as [H1 H2]. destruct (H2 ltac:(done)).
    by rewrite !reg_write, !decide_False by done.
Qed.

Lemma unmask_irq_spec (irq : Z) (s : IoApic) :
  line irq -> low irq (unmask_irq irq s) = Z.land (low irq s) (Z.lnot MASKED) /\ high irq (unmask_irq irq s) = high irq s /\
  forall j, line j -> j <> irq -> low j (unmask_irq irq s) = low j s /\ high j (unmask_irq irq s) = high j s.
Proof. intros Hi. by apply (update_low irq (fun l => Z.land l (Z.lnot MASKED))). Qed.
Lemma mask_irq_spec (irq : Z) (s : IoApic) :
  line irq -> low irq (mask_irq irq s) = Z.lor (low irq s) MASKED /\ high irq (mask_irq irq s) = high irq s /\
  forall j, line j -> j <> irq -> low j (mask_irq irq s) = low j s /\ high j (mask_irq irq s) = high j s.
Proof. intros Hi. by apply (update_low irq (fun l => Z.lor l MASKED)). Qed.

Lemma set_irq_ext_spec (irq v lap fl : Z) (s : IoApic) :
  line irq ->
  let s' := set_irq_ext irq v lap fl s in
  low irq s' = entry_low (low irq s) v fl /\ high irq s' = wrap32 (Z.shiftl lap 24) /\
  forall j, line j -> j <> irq -> low j s' = low j s /\ high j s' = high j s.
Proof.
  intros Hi. cbv zeta. unfold set_irq_ext, low, high. cbn [read_reg].
  destruct (line_regs irq irq Hi Hi) as [Hne _].
  change (read_win (write_sel (low_reg irq) ?x)) with (reg (low_reg irq) x).
  rewrite (reg_write (high_reg irq) (low_reg irq)), decide_False by done. split_and!.
  - by rewrite reg_write, decide_True.
  - rewrite reg_write, decide_False by done. change (reg ?a (write_sel _ ?x)) with (reg a x). by rewrite reg_write, decide_True.
  - intros j Hj Hji. destruct (line_regs irq j Hi Hj) as [H1 H2], (line_regs j irq Hj Hi) as [H3 _]. destruct (H2 ltac:(done)).
    rewrite !reg_write, !decide_False by done. change (reg ?a (write_sel _ ?x)) with (reg a x).
    by rewrite !reg_write, !decide_False by done.
Qed.

(** The bits of the entry. *)
Lemma entry_low_bits (lo v fl n : Z) :
  0 <= v < 256 -> 0 <= n ->
  Z.testbit (entry_low lo v fl) n =
  if decide (n < 8) then Z.testbit v n
  else if decide (n = 13) then negb (Z.land fl 3 =? 0) && Z.testbit fl 0
  else if decide (n = 15) then negb (Z.land (Z.shiftr fl 2) 3 =? 0) && Z.testbit fl 2
  else Z.testbit lo n && negb (Z.testbit 129023 n).
Proof.
  intros Hv Hn.
  assert (Z.testbit 129023 n = (n <? 11) || ((12 <=? n) && (n <=? 16))) as Hm.
  { destruct (Z.ltb_spec n 17).
    - assert (Forall (fun n => Z.testbit 129023 n = (n <? 11) || ((12 <=? n) && (n <=? 16))) (seqZ 0 17)) as Hc by repeat constructor.
      rewrite Forall_forall in Hc. apply Hc, elem_of_seqZ. lia.
    - rewrite Z.bits_above_log2 by (change (Z.log2 129023) with 16; lia). by destruct (Z.ltb_spec n 11), (Z.leb_spec n 16), (Z.leb_spec 12 n); try lia. }
  assert (8 <= n -> Z.testbit v n = false) as Hvh.
  { intros H8. rewrite <- (Z.mod_small v (2 ^ 8)) by done. by apply Z.mod_pow2_bits_high. }
  assert (forall k, 0 <= k -> Z.testbit (Z.lnot (2 ^ k)) n = negb (n =? k)) as Hp.
  { intros k Hk. rewrite Z.lnot_spec by done. rewrite Z.pow2_bits_eqb by done. by rewrite Z.eqb_sym. }
  assert (forall x k, 0 <= k -> Z.testbit (Z.shiftl (Z.land x 1) k) n = (n =? k) && Z.testbit x 0) as Hs.
  { intros x k Hk. rewrite Z.shiftl_spec by done. change 1 with (Z.ones 1). rewrite Z.land_ones by lia.
    destruct (Z.eqb_spec n k) as [->|Hne]; [by rewrite Z.sub_diag, Z.mod_pow2_bits_low|].
    destruct (Z.ltb_spec n k); [by rewrite Z.testbit_neg_r by lia|]. by rewrite Z.mod_pow2_bits_high by lia. }
  assert (Z.testbit (Z.land fl 3) 0 = Z.testbit fl 0) as H30 by (change 3 with (Z.ones 2); rewrite Z.land_ones, Z.mod_pow2_bits_low; lia || done).
  assert (Z.testbit (Z.land (Z.shiftr fl 2) 3) 0 = Z.testbit fl 2) as H32
    by (change 3 with (Z.ones 2); rewrite Z.land_ones, Z.mod_pow2_bits_low, Z.shiftr_spec; lia || done).
  unfold entry_low. destruct (Z.land fl 3 =? 0), (Z.land (Z.shiftr fl 2) 3 =? 0); cbn [negb andb];
    rewrite ?Z.lor_spec, ?Z.land_spec, ?Z.lor_spec, ?Z.land_spec, ?Hs, ?Hp, ?H30, ?H32, ?Z.lor_spec, ?Z.land_spec, ?(Z.lnot_spec 129023) by lia;
    rewrite Hm; repeat case_decide; try (rewrite Hvh by lia);
    destruct (Z.testbit lo n), (Z.testbit fl 0), (Z.testbit fl 2), (Z.testbit v n);
    destruct (Z.eqb_spec n 13), (Z.eqb_spec n 15), (Z.ltb_spec n 11), (Z.leb_spec 12 n), (Z.leb_spec n 16); simpl; try done; try lia.
Qed.

(** Programming a line.  [set_irq_ext] makes the line deliver [vector] in fixed
    mode to the given APIC, unmasked, and touches no other line; but the polarity and
    trigger it programs are not those of the flags: "active high" (1) and "active low"
    (3) both set the active-low bit, "edge" (1) and "level" (3) both set the level bit,
    since the low bit of each two-bit field is used. *)
Theorem set_irq_ext_entry (irq v lap fl : Z) (s : IoApic) :
  line irq -> 0 <= v < 256 -> 0 <= lap < 256 ->
  let s' := set_irq_ext irq v lap fl s in
  Z.land (low irq s') 255 = v /\ Z.land (Z.shiftr (low irq s') 8) 7 = 0 /\ masked irq s' = false /\
  Z.shiftr (high irq s') 24 = lap /\
  (Z.land fl 3 = 1 \/ Z.land fl 3 = 3 -> Z.testbit (low irq s') 13 = true) /\
  (Z.land (Z.shiftr fl 2) 3 = 1 \/ Z.land (Z.shiftr fl 2) 3 = 3 -> Z.testbit (low irq s') 15 = true) /\
  forall j, line j -> j <> irq -> low j s' = low j s /\ high j s' = high j s.
Proof.
  intros Hi Hv Hl. cbv zeta. destruct (set_irq_ext_spec irq v lap fl s Hi) as (H1 & H2 & H3).
  unfold masked. rewrite H1, H2. pose proof (fun n => entry_low_bits (low irq s) v fl n Hv) as Hb.
  assert (forall x, Z.land x 3 = 1 \/ Z.land x 3 = 3 -> Z.testbit x 0 = true) as H0.
  { intros x Hx. change 3 with (Z.ones 2) in Hx. rewrite Z.land_ones in Hx by lia.
    rewrite <- (Z.mod_pow2_bits_low x 2 0) by lia. by destruct Hx as [-> | ->]. }
  split_and!; [..|done].
  - change 255 with (Z.ones 8). rewrite Z.land_ones by lia. apply Z.bits_inj'. intros n Hn.
    destruct (Z.ltb_spec n 8).
    + by rewrite Z.mod_pow2_bits_low, Hb, decide_True by lia.
    + rewrite Z.mod_pow2_bits_high by lia. rewrite <- (Z.mod_small v (2 ^ 8)) by done. by rewrite Z.mod_pow2_bits_high by lia.
  - change 7 with (Z.ones 3). rewrite Z.land_ones by lia. apply Z.bits_inj'. intros n Hn. rewrite Z.bits_0.
    destruct (Z.ltb_spec n 3); [|by rewrite Z.mod_pow2_bits_high by lia].
    rewrite Z.mod_pow2_bits_low, Z.shiftr_spec, Hb, !decide_False by lia.
    assert (n = 0 \/ n = 1 \/ n = 2) as [->|[->| ->]] by lia; by rewrite andb_false_r.
  - rewrite Hb, !decide_False by lia. by rewrite andb_false_r.
  - unfold wrap32. rewrite Z.shiftl_mul_pow2, Z.mod_small, Z.shiftr_div_pow2, Z.div_mul by lia. done.
  - intros Hp. rewrite Hb, decide_False, decide_True by lia. rewrite (H0 fl Hp).
    by destruct Hp as [-> | ->].
  - intros Ht. rewrite Hb, !decide_False, decide_True by lia. pose proof (H0 _ Ht) as H2'. rewrite Z.shiftr_spec in H2' by lia. change (0 + 2) with 2 in H2'.
    rewrite H2'. by destruct Ht as [-> | ->].
Qed.

Lemma set_irq_ext_entry_witness :
  let s' := set_irq_ext 9 33 0 5 (mkIoApic 0 ∅) in
  Z.land (low 9 s') 255 = 33 /\ Z.land (Z.shiftr (low 9 s') 8) 7 = 0 /\ masked 9 s' = false /\
  Z.shiftr (high 9 s') 24 = 0 /\
  (Z.land 5 3 = 1 \/ Z.land 5 3 = 3 -> Z.testbit (low 9 s') 13 = true) /\
  (Z.land (Z.shiftr 5 2) 3 = 1 \/ Z.land (Z.shiftr 5 2) 3 = 3 -> Z.testbit (low 9 s') 15 = true) /\
  forall j, line j -> j <> 9 -> low j s' = low j (mkIoApic 0 ∅) /\ high j s' = high j (mkIoApic 0 ∅).
Proof. apply (set_irq_ext_entry 9 33 0 5 (mkIoApic 0 ∅)); [done|lia|lia]. Defined.

(** ** Masking everything *)

Lemma masked_lor (x : Z) : Z.testbit (Z.lor x MASKED) 16 = true.
Proof. by rewrite Z.lor_spec, orb_true_r. Qed.

(** One turn of the loop. *)
Lemma mask_turn (i : Z) (s : IoApic) :
  line i ->
  let s' := write_reg (low_reg i) (Z.lor (low i (write_reg (high_reg i) 0 s)) MASKED)
              (write_sel (low_reg i) (write_reg (high_reg i) 0 s)) in
  masked i s' = true /\ forall j, line j -> j <> i -> low j s' = low j s.
Proof.
  intros Hi. cbv zeta. set (s1 := write_reg (high_reg i) 0 s).
  destruct (update_low i (fun l => Z.lor l MASKED) s1 _ Hi eq_refl) as (H1 & _ & H3). split.
  - unfold masked. rewrite H1. apply masked_lor.
  - intros j Hj Hji. destruct (H3 j Hj Hji) as [-> _]. unfold s1, low. rewrite reg_write, decide_False; [done|].
    by destruct (line_regs j i Hj Hi).
Qed.

Lemma mask_loop_spec (n : nat) (i : Z) (s : IoApic) :
  0 <= i -> i + Z.of_nat n <= 120 ->
  (forall j, i <= j < i + Z.of_nat n -> masked j (mask_loop n i s) = true) /\
  forall j, line j -> ~ (i <= j < i + Z.of_nat n) -> low j (mask_loop n i s) = low j s.
Proof.
  revert i s. induction n as [|n IH]; intros i s Hi Hn; cbn [mask_loop]; [split; [lia|done]|].
  destruct (mask_turn i s) as [Hm Ho]; [unfold line; lia|]. cbn [read_reg] in *.
  match goal with |- context [mask_loop n (i + 1) ?x] => set (s' := x) in * end.
  destruct (IH (i + 1) s') as [H1 H2]; [lia|lia|]. split.
  - intros j Hj. destruct (decide (j = i)) as [->|]; [|apply H1; lia].
    unfold masked. rewrite H2 by (unfold line; lia). exact Hm.
  - intros j Hj Hout. rewrite H2 by (done || lia). apply Ho; [done|lia].
Qed.

(** [mask_all] masks every line the chip has. *)
Theorem mask_all_spec (s : IoApic) :
  let n := Z.land (Z.shiftr (reg 1 s) 16) 255 in
  n < 120 -> forall j, 0 <= j <= n -> masked j (mask_all s) = true.
Proof.
  intros n Hn j Hj. unfold mask_all, max_redirection_entry. cbn [read_reg].
  change (read_win (write_sel 1 s)) with (reg 1 s). fold n.
  destruct (mask_loop_spec (Z.to_nat (n + 1)) 0 (write_sel 1 s)) as [H1 _]; [lia|lia|]. apply H1. lia.
Qed.

End Ioapic.
