(* ===== verification/Umem.v ===== *)
(** User memory system calls: the heap, DMA and PCI-window calls of
    [crates/kernel/src/syscall/runtime.rs] ([sys_heap_alloc], [sys_heap_free],
    [free_heap_for_pid], [sys_dma_alloc], [sys_dma_free], [free_dma_for_pid],
    [sys_pci_bar_map], [sys_pci_bar_unmap], [free_pci_mmio_for_pid]).

    Heap pages are single frames of [Pmm.v] mapped by [Vmm.v]; DMA buffers are blocks
    of the kernel heap, which page tables come from as well, so that both sit behind
    one allocator interface ([BlockAllocator]).  The heap lock is held for whole
    updates of the bookkeeping, which makes each a single step here.  The retry loop
    of [sys_heap_alloc] around the out-of-memory killer takes a number of attempts;
    [None] says that it is still retrying. *)
From stdpp Require Import base sets list numbers option gmap.
From S2P Require Import Prelude Pmm Allocator Vmm Uaccess Thread Scheduler Process Pci.

Open Scope Z_scope.

(** Page-aligned zeroed blocks, from the allocator that also holds the page tables. *)
Class BlockAllocator (A : Type) := {
  ba_alloc : Z -> A -> option Z * A;
  ba_dealloc : Z -> A -> A;
}.

Module Umem.
Import Process.Process.

Definition DMA_VA_BASE : Z := 687194767360.        (* 0x0000_00A0_0000_0000 *)
Definition HEAP_VA_BASE : Z := 824633720832.       (* 0x0000_00C0_0000_0000 *)
Definition PCI_MMIO_VA_BASE : Z := 962072674304.   (* 0x0000_00E0_0000_0000 *)
Definition MAX_ALLOC : Z := 128 * 1024 * 1024.

Record HeapAlloc := mkHeapAlloc { h_pid : Z; h_virt : Z; h_size : Z }.
Record DmaAlloc := mkDmaAlloc { d_pid : Z; d_virt : Z; d_phys : Z; d_size : Z }.
Record PciMmioAlloc := mkPciMmioAlloc { m_pid : Z; m_virt : Z; m_size : Z }.

(** [(size + 4095) & !4095]. *)
Definition page_align (size : Z) : Z := Z.land (wrap64 (size + 4095)) (Z.lnot 4095).

Section Ops.
Context {A : Type} `{TableAllocator A} `{BlockAllocator A}.

Record State := mkState {
  vm : Vmm.State A;
  pool : option Pmm.Pmm;
  pmem : gmap Z Z;
  ps : PState;
  heap_bump : Z;
  heap_allocs : list HeapAlloc;
  dma_bump : Z;
  dma_allocs : list DmaAlloc;
  mmio_bump : Z;
  mmio_allocs : list PciMmioAlloc;
  cfg : Pci.State }.

Definition set_vm (v : Vmm.State A) (s : State) : State :=
  mkState v (pool s) (pmem s) (ps s) (heap_bump s) (heap_allocs s) (dma_bump s) (dma_allocs s) (mmio_bump s) (mmio_allocs s) (cfg s).
Definition set_pool (p : option Pmm.Pmm) (s : State) : State :=
  mkState (vm s) p (pmem s) (ps s) (heap_bump s) (heap_allocs s) (dma_bump s) (dma_allocs s) (mmio_bump s) (mmio_allocs s) (cfg s).
Definition set_pmem (m : gmap Z Z) (s : State) : State :=
  mkState (vm s) (pool s) m (ps s) (heap_bump s) (heap_allocs s) (dma_bump s) (dma_allocs s) (mmio_bump s) (mmio_allocs s) (cfg s).
Definition set_ps (p : PState) (s : State) : State :=
  mkState (vm s) (pool s) (pmem s) p (heap_bump s) (heap_allocs s) (dma_bump s) (dma_allocs s) (mmio_bump s) (mmio_allocs s) (cfg s).
Definition set_heap (b : Z) (l : list HeapAlloc) (s : State) : State :=
  mkState (vm s) (pool s) (pmem s) (ps s) b l (dma_bump s) (dma_allocs s) (mmio_bump s) (mmio_allocs s) (cfg s).
Definition set_dma (b : Z) (l : list DmaAlloc) (s : State) : State :=
  mkState (vm s) (pool s) (pmem s) (ps s) (heap_bump s) (heap_allocs s) b l (mmio_bump s) (mmio_allocs s) (cfg s).
Definition set_mmio (b : Z) (l : list PciMmioAlloc) (s : State) : State :=
  mkState (vm s) (pool s) (pmem s) (ps s) (heap_bump s) (heap_allocs s) (dma_bump s) (dma_allocs s) b l (cfg s).
Definition set_cfg (c : Pci.State) (s : State) : State :=
  mkState (vm s) (pool s) (pmem s) (ps s) (heap_bump s) (heap_allocs s) (dma_bump s) (dma_allocs s) (mmio_bump s) (mmio_allocs s) c.
Definition on_vm (f : Vmm.State A -> Vmm.State A) (s : State) : State := set_vm (f (vm s)) s.

(** ** The user heap *)

(** [for i in 0..pages], counting up from [i]. *)
Fixpoint free_pages_loop (n : nat) (i cr3 virt : Z) (s : State) : State :=
  match n with
  | O => s
  | S n' =>
      let v := virt + i * 4096 in
      let s := match Vmm.translate cr3 v (Vmm.mem (vm s)) with
               | Some phys => set_pool (Pmm.free_frame phys (pool s)) s
               | None => s
               end in
      free_pages_loop n' (i + 1) cr3 virt (on_vm (Vmm.unmap_page cr3 v) s)
  end.
Definition free_user_pages (cr3 virt pages : Z) : State -> State := free_pages_loop (Z.to_nat pages) 0 cr3 virt.

Definition oom_kill (caller : Z) (s : State) : bool * State :=
  match oom_victim 0 (ps s) with
  | Some victim => if negb (victim =? caller) then (true, set_ps (kill_pid victim (ps s)) s) else (false, s)
  | None => (false, s)
  end.

(** The inner [loop]: a frame, or [Some None] when there is nobody to kill. *)
Fixpoint get_frame (fuel : nat) (caller cr3 : Z) (s : State) : option (option Z) * State :=
  match fuel with
  | O => (None, s)
  | S n =>
      match Pmm.alloc_frame (pool s) with
      | (Some f, p) => (Some (Some f), set_pool p s)
      | (None, p) =>
          let '(killed, s) := oom_kill caller (set_pool p s) in
          let s := on_vm (Vmm.switch_cr3 cr3) s in
          if killed then get_frame n caller cr3 s else (Some None, s)
      end
  end.

(** The loop over the pages: whether all are mapped. *)
Fixpoint map_heap (fuel n : nat) (i caller cr3 virt : Z) (s : State) : option bool * State :=
  match n with
  | O => (Some true, s)
  | S n' =>
      match get_frame fuel caller cr3 s with
      | (None, s) => (None, s)
      | (Some None, s) => (Some false, free_user_pages cr3 virt i s)
      | (Some (Some frame), s) =>
          let s := set_pmem (Thread.zero_region frame 4096 (pmem s)) s in
          match Vmm.map_page cr3 (virt + i * 4096) frame Vmm.USER_READ_WRITE (vm s) with
          | (Err _, v) =>
              let s := set_vm v s in
              let s := set_pool (Pmm.free_frame frame (pool s)) s in
              (Some false, free_user_pages cr3 virt i s)
          | (Ok _, v) => map_heap fuel n' (i + 1) caller cr3 virt (set_vm v s)
          end
      end
  end.

Definition sys_heap_alloc (fuel : nat) (cpu : nat) (size : Z) (s : State) : option Z * State :=
  if (size =? 0) || (MAX_ALLOC <? size) then (Some u64_max, s)
  else
    let aligned := page_align size in
    let pages := aligned / 4096 in
    match Scheduler.current_user_pid cpu (ss (ps s)) with
    | None => (Some u64_max, s)
    | Some caller =>
        match user_cr3 caller (ps s) with
        | None => (Some u64_max, s)
        | Some cr3 =>
            let virt := heap_bump s in
            let s := set_heap (wrap64 (virt + aligned)) (heap_allocs s) s in
            match map_heap fuel (Z.to_nat pages) 0 caller cr3 virt s with
            | (None, s) => (None, s)
            | (Some false, s) => (Some u64_max, s)
            | (Some true, s) =>
                let s := set_heap (heap_bump s) (heap_allocs s ++ [mkHeapAlloc caller virt aligned]) s in
                (Some virt, set_ps (add_memory_bytes caller aligned (ps s)) s)
            end
        end
    end.

Definition heap_entry (caller virt : Z) (a : HeapAlloc) : bool := (h_virt a =? virt) && (h_pid a =? caller).

Definition sys_heap_free (cpu : nat) (virt : Z) (s : State) : Z * State :=
  if virt =? 0 then (u64_max, s)
  else
    match Scheduler.current_user_pid cpu (ss (ps s)) with
    | None => (u64_max, s)
    | Some caller =>
        match position (heap_entry caller virt) (heap_allocs s) with
        | None => (u64_max, s)
        | Some pos =>
            let a := default (mkHeapAlloc 0 0 0) (heap_allocs s !! pos) in
            let s := set_heap (heap_bump s) (swap_remove pos (heap_allocs s)) s in
            match user_cr3 caller (ps s) with
            | None => (u64_max, s)
            | Some cr3 =>
                let s := free_user_pages cr3 (h_virt a) (h_size a / 4096) s in
                (0, set_ps (sub_memory_bytes caller (h_size a) (ps s)) s)
            end
        end
    end.

(** The loop of [free_heap_for_pid]: at most one turn per entry, and the last one. *)
Fixpoint free_heap_loop (n : nat) (p : Z) (s : State) : State :=
  match n with
  | O => s
  | S n' =>
      match position (fun a => h_pid a =? p) (heap_allocs s) with
      | None => s
      | Some pos =>
          let a := default (mkHeapAlloc 0 0 0) (heap_allocs s !! pos) in
          let s := set_heap (heap_bump s) (swap_remove pos (heap_allocs s)) s in
          let s := match user_cr3 p (ps s) with
                   | Some cr3 => free_user_pages cr3 (h_virt a) (h_size a / 4096) s
                   | None => s
                   end in
          free_heap_loop n' p s
      end
  end.
Definition free_heap_for_pid (p : Z) (s : State) : State := free_heap_loop (S (length (heap_allocs s))) p s.

(** ** DMA buffers *)

(** Above driver privilege. *)
Definition unprivileged (caller : Z) (s : State) : bool := Thread.level Thread.Driver <? Thread.level (privilege_level caller (ps s)).

Definition on_tables (f : A -> A) (v : Vmm.State A) : Vmm.State A :=
  Vmm.mkState (Vmm.mem v) (f (Vmm.tables v)) (Vmm.kernel_pml4 v) (Vmm.current_pml4 v).

(** [ub] is the caller's memory; the result comes with what it becomes. *)
Definition sys_dma_alloc (cpu : nat) (size phys_out_ptr : Z) (ub : gmap Z Z) (s : State) : Z * gmap Z Z * State :=
  let caller := current_pid cpu (ps s) in
  if unprivileged caller s then (u64_max, ub, s)
  else if (size =? 0) || (MAX_ALLOC <? size) then (u64_max, ub, s)
  else
    let aligned := page_align size in
    match ba_alloc aligned (Vmm.tables (vm s)) with
    | (None, t) => (u64_max, ub, on_vm (on_tables (fun _ => t)) s)
    | (Some phys, t) =>
        let s := set_pmem (Thread.zero_region phys aligned (pmem s)) (on_vm (on_tables (fun _ => t)) s) in
        let dealloc := on_vm (on_tables (ba_dealloc phys)) in
        match user_cr3 caller (ps s) with
        | None => (u64_max, ub, dealloc s)
        | Some cr3 =>
            let virt := dma_bump s in
            let s := set_dma (wrap64 (virt + aligned)) (dma_allocs s) s in
            match Vmm.map_range cr3 virt phys aligned Vmm.USER_READ_WRITE (vm s) with
            | (Err _, v) => (u64_max, ub, dealloc (set_vm v s))
            | (Ok _, v) =>
                let s := set_vm v s in
                let '(ok, ub) :=
                  if phys_out_ptr =? 0 then (true, ub)
                  else Uaccess.write_value (Vmm.current_pml4 (vm s)) (Vmm.mem (vm s)) ub phys_out_ptr (to_le 8 phys) in
                if ok then (virt, ub, set_dma (dma_bump s) (dma_allocs s ++ [mkDmaAlloc caller virt phys aligned]) s)
                else (u64_max, ub, dealloc (on_vm (Vmm.unmap_range cr3 virt aligned) s))
            end
        end
    end.

Definition sys_dma_free (cpu : nat) (virt : Z) (s : State) : Z * State :=
  if virt =? 0 then (u64_max, s)
  else
    let caller := current_pid cpu (ps s) in
    match position (fun a => (d_virt a =? virt) && (d_pid a =? caller)) (dma_allocs s) with
    | None => (u64_max, s)
    | Some pos =>
        let a := default (mkDmaAlloc 0 0 0 0) (dma_allocs s !! pos) in
        let s := set_dma (dma_bump s) (swap_remove pos (dma_allocs s)) s in
        match user_cr3 caller (ps s) with
        | None => (u64_max, s)
        | Some cr3 =>
            (0, on_vm (on_tables (ba_dealloc (d_phys a))) (on_vm (Vmm.unmap_range cr3 (d_virt a) (d_size a)) s))
        end
    end.

(** The body of the cleanup loop for a removed entry. *)
Definition release_dma (p : Z) (s : State) (a : DmaAlloc) : State :=
  let s := match user_cr3 p (ps s) with
           | Some cr3 => on_vm (Vmm.unmap_range cr3 (d_virt a) (d_size a)) s
           | None => s
           end in
  on_vm (on_tables (ba_dealloc (d_phys a))) s.

Definition free_dma_for_pid (p : Z) (s : State) : State :=
  let '(gone, rest) := drain (fun a => d_pid a =? p) (dma_allocs s) in
  foldl (release_dma p) (set_dma (dma_bump s) rest s) gone.

(** ** PCI register windows *)

Definition sys_pci_bar_map (hw_write : Z -> Z -> Z -> Z) (cpu : nat) (bdf bar_index : Z) (s : State) : Z * State :=
  let caller := current_pid cpu (ps s) in
  if unprivileged caller s then (u64_max, s)
  else
    let bus := Z.land (Z.shiftr bdf 16) 255 in
    let device := Z.land (Z.shiftr bdf 8) 255 in
    let function := Z.land bdf 255 in
    let bar_idx := Z.land bar_index 255 in
    if 5 <? bar_idx then (u64_max, s)
    else
      let '(bar_val, c) := Pci.read_bar hw_write bus device function bar_idx (cfg s) in
      if negb (Z.land bar_val 1 =? 0) then (u64_max, set_cfg c s)
      else
        let '(phys, c) := Pci.bar_phys_addr hw_write bus device function bar_idx c in
        match phys with
        | None => (u64_max, set_cfg c s)
        | Some phys =>
            let '(size, c) := Pci.bar_size hw_write bus device function bar_idx c in
            let s := set_cfg c s in
            if size =? 0 then (u64_max, s)
            else
              let aligned := page_align size in
              match user_cr3 caller (ps s) with
              | None => (u64_max, s)
              | Some cr3 =>
                  let virt := mmio_bump s in
                  let s := set_mmio (wrap64 (virt + aligned)) (mmio_allocs s) s in
                  match Vmm.map_range cr3 virt phys aligned Vmm.USER_MMIO (vm s) with
                  | (Err _, v) => (u64_max, set_vm v s)
                  | (Ok _, v) =>
                      (virt, set_mmio (mmio_bump s) (mmio_allocs s ++ [mkPciMmioAlloc caller virt aligned]) (set_vm v s))
                  end
              end
        end.

Definition sys_pci_bar_unmap (cpu : nat) (virt : Z) (s : State) : Z * State :=
  if virt =? 0 then (u64_max, s)
  else
    let caller := current_pid cpu (ps s) in
    match position (fun a => (m_virt a =? virt) && (m_pid a =? caller)) (mmio_allocs s) with
    | None => (u64_max, s)
    | Some pos =>
        let a := default (mkPciMmioAlloc 0 0 0) (mmio_allocs s !! pos) in
        let s := set_mmio (mmio_bump s) (swap_remove pos (mmio_allocs s)) s in
        match user_cr3 caller (ps s) with
        | None => (u64_max, s)
        | Some cr3 => (0, on_vm (Vmm.unmap_range cr3 (m_virt a) (m_size a)) s)
        end
    end.

Definition release_mmio (p : Z) (s : State) (a : PciMmioAlloc) : State :=
  match user_cr3 p (ps s) with
  | Some cr3 => on_vm (Vmm.unmap_range cr3 (m_virt a) (m_size a)) s
  | None => s
  end.

Definition free_pci_mmio_for_pid (p : Z) (s : State) : State :=
  let '(gone, rest) := drain (fun a => m_pid a =? p) (mmio_allocs s) in
  foldl (release_mmio p) (set_mmio (mmio_bump s) rest s) gone.
End Ops.
#[global] Arguments State A : clear implicits.

(** * The heap's pages *)

Section Heap.
Context {A : Type} `{TA : TableAllocator A} `{!TableAllocatorLaws A} `{BA : BlockAllocator A}.
Implicit Types (s : State A) (kinds : gmap Z (Z * list Z)) (fs : list Z).
Notation space kinds r := (kinds !! r = Some (r, @nil Z)).
Notation leaf s root w := (Vmm.leaf (Vmm.mem (vm s)) root w).

(** The heap entry of frame [f]. *)
Definition heap_leaf (f : Z) : Z := Vmm.leaf_entry (f * 4096) Vmm.USER_READ_WRITE.

Lemma rw_flags : Vmm.user_flags Vmm.USER_READ_WRITE.
Proof. split; reflexivity. Qed.

Lemma heap_leaf_addr (f : Z) : 0 <= f -> f * 4096 < 2 ^ 52 -> Z.land (heap_leaf f) Vmm.ADDR_MASK = f * 4096.
Proof. intros H0 H1. apply Vmm.entry_addr; [lia|by rewrite Z.mod_mul|apply rw_flags]. Qed.

(** Freeing a run of mapped pages. *)
Lemma free_pages_spec (n : nat) (i cr3 root virt : Z) s kinds (p : Pmm.Pmm) fs :
  Vmm.inv (vm s) kinds -> space kinds root -> Z.land cr3 Vmm.ADDR_MASK = root ->
  virt mod 4096 = 0 -> 0 <= i -> Vmm.USER_MIN <= virt -> virt + (i + Z.of_nat n) * 4096 <= Vmm.USER_MAX ->
  length fs = n ->
  (forall k f, fs !! k = Some f -> leaf s root (virt + (i + Z.of_nat k) * 4096) = Some (heap_leaf f) /\ 0 <= f /\ f * 4096 < 2 ^ 52) ->
  pool s = Some p -> Pmm.wf p ->
  let s' := free_pages_loop n i cr3 virt s in
  s' = set_pool (pool s') (set_vm (vm s') s) /\ Vmm.inv (vm s') kinds /\
  (exists p', pool s' = Some p' /\ Pmm.wf p' /\ Pmm.total_frames p' = Pmm.total_frames p /\
     Pmm.abs p' = Pmm.abs p ∖ list_to_set fs) /\
  forall root' w, space kinds root' -> Vmm.is_user w ->
    leaf s' root' w =
    if decide (root' = root /\ i <= w / 4096 - virt / 4096 < i + Z.of_nat n) then None else leaf s root' w.
Proof using All.
  revert i s p fs. induction n as [|n IH]; intros i s p fs Hi Hroot Hcr Hal Hi0 Hlo Hhi Hlen Hfs Hp Hw.
  { destruct fs; [|done]. cbn [free_pages_loop]. split_and!; [by destruct s|done| |].
    - exists p. split_and!; try done. set_solver.
    - intros root' w _ _. by rewrite decide_False by lia. }
  destruct fs as [|f fs]; [done|]. injection Hlen as Hlen. cbn [free_pages_loop].
  destruct (Hfs 0%nat f eq_refl) as (Hleaf & Hf0 & Hf1). rewrite Z.add_0_r in Hleaf.
  set (v := virt + i * 4096) in *.
  assert (Vmm.is_user v) as Hu by (unfold Vmm.is_user, v; lia).
  assert (Vmm.translate cr3 v (Vmm.mem (vm s)) = Some (f * 4096)) as Htr.
  { rewrite Vmm.translate_leaf, Hcr, Hleaf. simpl. by rewrite heap_leaf_addr. }
  rewrite Htr. destruct (Pmm.free_frame (f * 4096) (pool s)) as [p1|] eqn:E1.
  2:{ exfalso. revert E1. rewrite Hp. unfold Pmm.free_frame, Pmm.free_frame_nolock. by destruct (_ <? _). }
  rewrite Hp in E1. assert (is_u64 (f * 4096)) as Hfu by (unfold is_u64; rewrite u64_bound_val; lia).
  destruct (Pmm.free_frame_spec _ _ _ Hw Hfu E1) as (Hw1 & Ht1 & Habs1).
  unfold Pmm.FRAME_SIZE in Habs1. rewrite Z.div_mul in Habs1 by done.
  destruct (Vmm.unmap_page_spec (vm s) kinds cr3 root v Hi Hroot Hcr Hu) as [Hi1 Hl1].
  set (s1 := on_vm (Vmm.unmap_page cr3 v) (set_pool (Some p1) s)).
  assert (v / 4096 = virt / 4096 + i) as Hdv by (unfold v; rewrite Z.div_add; lia).
  destruct (IH (i + 1) s1 p1 fs) as (Heq & Hi2 & (p2 & Hp2 & Hw2 & Ht2 & Habs2) & Hl2);
    [exact Hi1|done|done|done|lia|done|lia|done| |done|done|].
  { intros k g Hk. destruct (Hfs (S k) g Hk) as (Hlk & Hg). split; [|done]. cbn [s1 on_vm set_vm set_pool vm].
    rewrite (Hl1 root _ Hroot) by (pose proof (lookup_lt_Some _ _ _ Hk); unfold Vmm.is_user; lia).
    rewrite decide_False; [|rewrite Hdv, Z.div_add by lia; intros [_ ?]; lia].
    rewrite <- Hlk. f_equal. lia. }
  split_and!; [|done| |].
  - rewrite Heq. unfold s1. by destruct s.
  - exists p2. split_and!; [done|done|congruence|]. rewrite Habs2, Habs1. cbn [list_to_set]. set_solver.
  - intros root' w Hr' Hw'. rewrite (Hl2 root' w Hr' Hw'). cbn [s1 on_vm set_vm set_pool vm]. rewrite (Hl1 root' w Hr' Hw'), Hdv.
    destruct (decide (root' = root)) as [->|]; [|by rewrite !decide_False by tauto].
    repeat case_decide; try done; lia.
Qed.

(** [switch_cr3] changes no table. *)
Lemma inv_switch (v : Vmm.State A) kinds (cr3 : Z) : Vmm.inv v kinds -> Vmm.inv (Vmm.switch_cr3 cr3 v) kinds.
Proof. intros [H1 H2 H3 H4]. by split. Qed.

(** What changes while a frame is fetched: the pool, the process flags, the active root. *)
Definition fetched s s' : Prop :=
  s' = set_ps (ps s') (set_pool (pool s') (set_vm (vm s') s)) /\ Vmm.mem (vm s') = Vmm.mem (vm s) /\
  same_keys (ps s) (ps s') /\ forall kinds, Vmm.inv (vm s) kinds -> Vmm.inv (vm s') kinds.

Lemma oom_kill_keys (caller : Z) s : exists q, snd (oom_kill caller s) = set_ps q s /\ same_keys (ps s) q.
Proof.
  unfold oom_kill. destruct (oom_victim 0 (ps s)) as [v|]; [|exists (ps s); split; [by destruct s|apply same_keys_refl]].
  destruct (negb _); [|exists (ps s); split; [by destruct s|apply same_keys_refl]].
  exists (kill_pid v (ps s)). split; [done|apply keys_kill_pid].
Qed.

Lemma get_frame_spec (fuel : nat) (caller cr3 : Z) s (p : Pmm.Pmm) (r : option (option Z)) s' :
  pool s = Some p -> Pmm.wf p -> get_frame fuel caller cr3 s = (r, s') ->
  fetched s s' /\
  match r with
  | Some (Some a) => exists f p', a = f * 4096 /\ pool s' = Some p' /\ Pmm.wf p' /\
      Pmm.total_frames p' = Pmm.total_frames p /\ Pmm.abs p' = {[f]} ∪ Pmm.abs p /\ f ∉ Pmm.abs p /\ 0 <= f < Pmm.total_frames p
  | _ => pool s' = Some p
  end.
Proof.
  revert s. induction fuel as [|fuel IH]; intros s Hp Hw; cbn [get_frame].
  { intros [= <- <-]. split; [|done]. split_and!; [by destruct s|done|apply same_keys_refl|done]. }
  rewrite Hp. destruct (Pmm.alloc_frame (Some p)) as [[a|] o] eqn:Ea.
  - intros [= <- <-]. split; [split_and!; [by destruct s|done|apply same_keys_refl|done]|].
    destruct o as [p'|]; [|by pose proof (Pmm.alloc_frame_meets p Hw) as Hm; rewrite Ea in Hm].
    destruct (Pmm.alloc_frame_abs _ _ _ Hw Ea) as (Hs & Hw' & Ht).
    remember (Pmm.abs p') as U' eqn:EU. inversion Hs as [U f Hf Hn HU Ha' HU'| | | |]. subst.
    exists f, p'. split_and!; try done; lia.
  - assert (o = Some p) as -> by (pose proof (Pmm.alloc_frame_meets p Hw) as Hm; rewrite Ea in Hm; by destruct Hm).
    destruct (oom_kill_keys caller (set_pool (Some p) s)) as (q & Hq & Hk).
    destruct (oom_kill caller _) as [killed s1]. cbn [snd] in Hq. subst s1.
    assert (fetched s (on_vm (Vmm.switch_cr3 cr3) (set_ps q (set_pool (Some p) s)))) as Hf1.
    { split_and!; [by destruct s|done|done|intros kinds; apply inv_switch]. }
    destruct killed; [|intros [= <- <-]; by split].
    intros Hg. apply IH in Hg as [(H1 & H2 & H3 & H4) Hr]; [|done|done]. split; [|done]. split_and!.
    + rewrite H1. by destruct s.
    + by rewrite H2.
    + by eapply same_keys_trans.
    + intros kinds Hi. by apply H4, inv_switch.
Qed.

(** State [s] is [s0] with the pages of frames [fs] mapped from [virt] on in [root]:
    the frames were free, are distinct, zeroed and now in use, and nothing else of the
    page tables, the pool or memory differs. *)
Record mapped s0 s kinds (root virt : Z) fs : Prop := {
  md_rest : s = set_ps (ps s) (set_pmem (pmem s) (set_pool (pool s) (set_vm (vm s) s0)));
  md_keys : same_keys (ps s0) (ps s);
  md_pool : exists p0 p, pool s0 = Some p0 /\ pool s = Some p /\ Pmm.wf p /\
              Pmm.total_frames p = Pmm.total_frames p0 /\ Pmm.abs p = list_to_set fs ∪ Pmm.abs p0 /\
              forall f, f ∈ fs -> f ∉ Pmm.abs p0 /\ 0 <= f < Pmm.total_frames p0;
  md_nodup : NoDup fs;
  md_inv : exists kinds', kinds ⊆ kinds' /\ Vmm.inv (vm s) kinds';
  md_leaf root' w : space kinds root' -> Vmm.is_user w ->
    leaf s root' w = if decide (root' = root /\ 0 <= w / 4096 - virt / 4096 < Z.of_nat (length fs))
                     then heap_leaf <$> fs !! Z.to_nat (w / 4096 - virt / 4096) else leaf s0 root' w;
  md_zero a : pmem s !! a = if decide (a / 4096 ∈ fs) then None else pmem s0 !! a;
}.

(** State [s] is [s0] with the attempt undone: the pool holds what it held, no page
    of the reserved range is mapped, every other page is as before. *)
Record undone s0 s kinds (root virt n : Z) : Prop := {
  un_rest : s = set_ps (ps s) (set_pmem (pmem s) (set_pool (pool s) (set_vm (vm s) s0)));
  un_keys : same_keys (ps s0) (ps s);
  un_pool : exists p0 p, pool s0 = Some p0 /\ pool s = Some p /\ Pmm.wf p /\
              Pmm.total_frames p = Pmm.total_frames p0 /\ Pmm.abs p = Pmm.abs p0;
  un_inv : exists kinds', kinds ⊆ kinds' /\ Vmm.inv (vm s) kinds';
  un_leaf root' w : space kinds root' -> Vmm.is_user w ->
    leaf s root' w = leaf s0 root' w \/
    (root' = root /\ 0 <= w / 4096 - virt / 4096 < n /\ leaf s root' w = None);
}.

Lemma mapped_nil s kinds (root virt : Z) (p : Pmm.Pmm) :
  Vmm.inv (vm s) kinds -> pool s = Some p -> Pmm.wf p -> mapped s s kinds root virt [].
Proof.
  intros Hi Hp Hw. split.
  - by destruct s.
  - apply same_keys_refl.
  - exists p, p. split_and!; try done; set_solver.
  - constructor.
  - by exists kinds.
  - intros root' w _ _. by rewrite decide_False by (simpl; lia).
  - intros a. rewrite decide_False; [done|]. set_solver.
Qed.

(** Fetching a frame keeps the relation but for the frame itself. *)
Section Step.
Context (s0 : State A) (kinds : gmap Z (Z * list Z)) (cr3 root virt : Z) (p0 : Pmm.Pmm).
Hypothesis Hroot : space kinds root.
Hypothesis Hcr : Z.land cr3 Vmm.ADDR_MASK = root.
Hypothesis Hal : virt mod 4096 = 0.
Hypothesis Hlo : Vmm.USER_MIN <= virt.
Hypothesis Hp0 : pool s0 = Some p0.
Hypothesis Hbig : Pmm.total_frames p0 * 4096 <= 2 ^ 52.

(** Rolling back from a state whose pages and pool are those of [mapped]. *)
Lemma rollback s s1 fs (p : Pmm.Pmm) kinds1 (n : Z) :
  mapped s0 s kinds root virt fs -> Z.of_nat (length fs) <= n -> virt + n * 4096 <= Vmm.USER_MAX ->
  s1 = set_ps (ps s1) (set_pmem (pmem s1) (set_pool (pool s1) (set_vm (vm s1) s))) -> same_keys (ps s) (ps s1) ->
  pool s1 = Some p -> Pmm.wf p -> Pmm.total_frames p = Pmm.total_frames p0 ->
  Pmm.abs p = list_to_set fs ∪ Pmm.abs p0 -> kinds ⊆ kinds1 -> Vmm.inv (vm s1) kinds1 ->
  (forall root' w, space kinds root' -> Vmm.is_user w -> leaf s1 root' w = leaf s root' w) ->
  undone s0 (free_user_pages cr3 virt (Z.of_nat (length fs)) s1) kinds root virt n.
Proof using All.
  intros [Hrest Hk (q0 & q & Hq0 & Hq & Hwq & Htq & Habs & Hfree) Hnd _ Hleaf _] Hn Hmax Hr1 Hk1 Hp Hw Ht Hab Hsub Hi Hsame.
  assert (q0 = p0) as -> by congruence. unfold free_user_pages. rewrite Nat2Z.id.
  assert (forall k f, fs !! k = Some f -> leaf s1 root (virt + (0 + Z.of_nat k) * 4096) = Some (heap_leaf f) /\ 0 <= f /\ f * 4096 < 2 ^ 52) as Hfs.
  { intros k f Hf. pose proof (lookup_lt_Some _ _ _ Hf) as Hlt. rewrite Z.add_0_l.
    assert (Vmm.is_user (virt + Z.of_nat k * 4096)) as Hu by (unfold Vmm.is_user; lia).
    rewrite Hsame, Hleaf, Z.div_add by (done || lia). rewrite decide_True by lia.
    replace (virt / 4096 + Z.of_nat k - virt / 4096) with (Z.of_nat k) by lia. rewrite Nat2Z.id, Hf.
    destruct (Hfree f) as [_ ?]; [by eapply list_elem_of_lookup_2|]. split; [done|lia]. }
  destruct (free_pages_spec (length fs) 0 cr3 root virt s1 kinds1 p fs Hi (lookup_weaken _ _ _ _ Hroot Hsub) Hcr Hal
              ltac:(lia) Hlo ltac:(lia) eq_refl Hfs Hp Hw) as (Heq & Hi' & (p' & Hp' & Hw' & Ht' & Ha') & Hl').
  set (s2 := free_pages_loop _ _ _ _ _) in *.
  assert (ps s2 = ps s1) as Hps by (rewrite Heq; by destruct s1).
  split.
  - rewrite Heq, Hr1, Hrest. by destruct s0.
  - rewrite Hps. by eapply same_keys_trans.
  - exists p0, p'. split_and!; [done..|congruence|]. rewrite Ha', Hab.
    apply set_eq. intros f. rewrite elem_of_difference, elem_of_union, elem_of_list_to_set. split; [tauto|].
    intros Hf. split; [by right|]. intros Hin. by destruct (Hfree f Hin).
  - by exists kinds1.
  - intros root' w Hr' Hu. rewrite (Hl' root' w (lookup_weaken _ _ _ _ Hr' Hsub) Hu).
    case_decide as Hd; [right; split_and!; [tauto|lia|lia|done]|left].
    rewrite Hsame, Hleaf, decide_False by (done || lia). done.
Qed.

(** One more page. *)
Lemma mapped_snoc s s1 fs (f : Z) (p1 : Pmm.Pmm) v :
  mapped s0 s kinds root virt fs -> virt + (Z.of_nat (length fs) + 1) * 4096 <= Vmm.USER_MAX ->
  fetched s s1 -> pool s1 = Some p1 -> Pmm.wf p1 -> Pmm.total_frames p1 = Pmm.total_frames p0 ->
  Pmm.abs p1 = {[f]} ∪ (list_to_set fs ∪ Pmm.abs p0) -> f ∉ fs -> f ∉ Pmm.abs p0 -> 0 <= f < Pmm.total_frames p0 ->
  Vmm.map_page cr3 (virt + Z.of_nat (length fs) * 4096) (f * 4096) Vmm.USER_READ_WRITE (vm s1) = (Ok tt, v) ->
  mapped s0 (set_vm v (set_pmem (Thread.zero_region (f * 4096) 4096 (pmem s1)) s1)) kinds root virt (fs ++ [f]).
Proof using All.
  intros [Hrest Hk (q0 & q & Hq0 & Hq & Hwq & Htq & Habs & Hfree) Hnd (k1 & Hs1 & Hi1) Hleaf Hz] Hmax
    (Hf1 & Hf2 & Hf3 & Hf4) Hp1 Hw1 Ht1 Hab1 Hnf Hnu Hfr Hmap.
  assert (q0 = p0) as -> by congruence.
  set (va := virt + Z.of_nat (length fs) * 4096) in *. assert (Vmm.is_user va) as Hu by (unfold Vmm.is_user, va; lia).
  assert (va / 4096 = virt / 4096 + Z.of_nat (length fs)) as Hdv by (unfold va; rewrite Z.div_add; lia).
  pose proof (Vmm.map_page_meets (vm s1) k1 cr3 root va (f * 4096) _ (Hf4 _ Hi1) (lookup_weaken _ _ _ _ Hroot Hs1) Hcr Hu rw_flags) as Hm.
  rewrite Hmap in Hm. destruct Hm as [(_ & _ & Hl) (k2 & Hs2 & Hi2)]. split; cbn [set_vm set_pmem vm pool pmem ps].
  - rewrite Hf1, Hrest. by destruct s0.
  - by eapply same_keys_trans.
  - exists p0, p1. split_and!; [done..|rewrite Hab1, list_to_set_app_L; set_solver|].
    intros g [Hg|Hg%list_elem_of_singleton]%elem_of_app; [by apply Hfree|by subst].
  - apply NoDup_app. split_and!; [done|set_solver|apply NoDup_singleton].
  - exists k2. split; [by etransitivity|done].
  - intros root' w Hr' Hw. rewrite (Hl root' w (lookup_weaken _ _ _ _ Hr' Hs1) Hw), Hf2, (Hleaf root' w Hr' Hw), Hdv, length_app.
    cbn [length]. destruct (decide (root' = root)) as [->|]; [|by rewrite !decide_False by tauto].
    set (k := w / 4096 - virt / 4096). destruct (decide (k = Z.of_nat (length fs))) as [E|E].
    + rewrite decide_True by lia. rewrite decide_True by lia. rewrite E, Nat2Z.id.
      rewrite lookup_app_r, Nat.sub_diag by lia. done.
    + rewrite decide_False by lia. destruct (decide (0 <= k < Z.of_nat (length fs))).
      * rewrite !decide_True by lia. by rewrite lookup_app_l by lia.
      * by rewrite !decide_False by lia.
  - intros a. assert (pmem s1 = pmem s) as -> by (rewrite Hf1; by destruct s).
    unfold Thread.zero_region. rewrite map_lookup_filter, Hz.
    assert (f * 4096 <= a < f * 4096 + 4096 <-> a / 4096 = f) as Hdiv.
    { pose proof (Z.div_mod a 4096 ltac:(lia)). pose proof (Z.mod_pos_bound a 4096 ltac:(lia)). lia. }
    destruct (decide (a / 4096 ∈ fs)) as [Hin|Hout]; [by rewrite decide_True by set_solver|].
    destruct (pmem s0 !! a) as [x|] eqn:E; simpl; [|by case_decide].
    destruct (decide (a / 4096 = f)) as [Ef|Ef].
    + rewrite decide_True by set_solver. by rewrite option_guard_False by tauto.
    + rewrite decide_False by set_solver. by rewrite option_guard_True by tauto.
Qed.
End Step.

(** The page loop, from any number of pages already mapped. *)
Lemma map_heap_spec (fuel n : nat) (caller cr3 root virt : Z) s0 kinds (p0 : Pmm.Pmm) s fs (r : option bool) s' :
  space kinds root -> Z.land cr3 Vmm.ADDR_MASK = root -> virt mod 4096 = 0 -> Vmm.USER_MIN <= virt ->
  virt + (Z.of_nat (length fs) + Z.of_nat n) * 4096 <= Vmm.USER_MAX ->
  pool s0 = Some p0 -> Pmm.total_frames p0 * 4096 <= 2 ^ 52 ->
  mapped s0 s kinds root virt fs ->
  map_heap fuel n (Z.of_nat (length fs)) caller cr3 virt s = (r, s') ->
  match r with
  | Some true => exists fs', length fs' = (length fs + n)%nat /\ mapped s0 s' kinds root virt fs'
  | Some false => undone s0 s' kinds root virt (Z.of_nat (length fs) + Z.of_nat n)
  | None => True
  end.
Proof using All.
  intros Hroot Hcr Hal Hlo. revert s fs. induction n as [|n IH]; intros s fs Hmax Hp0 Hbig Hm.
  { intros [= <- <-]. exists fs. split; [lia|done]. }
  cbn [map_heap]. pose proof (md_pool _ _ _ _ _ _ Hm) as (q0 & p & Hq0 & Hp & Hw & Ht & Hab & Hfree).
  assert (q0 = p0) as -> by congruence.
  destruct (get_frame fuel caller cr3 s) as [g s1] eqn:Eg.
  destruct (get_frame_spec fuel caller cr3 s p g s1 Hp Hw Eg) as [Hfet Hg].
  pose proof Hfet as (Hf1 & Hf2 & Hf3 & Hf4). pose proof (md_inv _ _ _ _ _ _ Hm) as (k1 & Hs1 & Hi1).
  assert (forall root' w, leaf s1 root' w = leaf s root' w) as Hsame by (intros; by rewrite Hf2).
  destruct g as [[a|]|]; [|intros [= <- <-]|intros [= <- <-]; done].
  2:{ eapply (rollback s0 kinds cr3 root virt p0 Hroot Hcr Hal Hlo Hp0 Hbig s s1 fs p k1);
        [done|lia|lia|rewrite Hf1; by destruct s|done|done|done|done|done|done|by apply Hf4|done]. }
  destruct Hg as (f & p1 & -> & Hp1 & Hw1 & Ht1 & Hab1 & Hnf & Hfr).
  assert (f ∉ fs /\ f ∉ Pmm.abs p0) as [Hn1 Hn2] by (rewrite Hab in Hnf; set_solver).
  set (s2 := set_pmem _ s1). set (va := virt + Z.of_nat (length fs) * 4096).
  assert (Vmm.is_user va) as Hu by (unfold Vmm.is_user, va; lia).
  pose proof (Vmm.map_page_meets (vm s2) k1 cr3 root va (f * 4096) _ (Hf4 _ Hi1) (lookup_weaken _ _ _ _ Hroot Hs1) Hcr Hu rw_flags) as Hmp.
  destruct (Vmm.map_page cr3 va (f * 4096) _ (vm s2)) as [[u|e] v] eqn:Emp.
  - destruct u. intros Hrec.
    assert (mapped s0 (set_vm v s2) kinds root virt (fs ++ [f])) as Hm'.
    { apply (mapped_snoc s0 kinds cr3 root virt p0 Hroot Hcr Hal Hlo Hp0 Hbig s s1 fs f p1 v); try done; [lia|congruence| |congruence].
      by rewrite Hab1, Hab. }
    apply (IH (set_vm v s2) (fs ++ [f])) in Hm'; [|rewrite length_app; cbn [length]; lia|done|done|].
    + rewrite length_app in Hm'. cbn [length] in Hm'. destruct r as [[]|]; [|replace (Z.of_nat (length fs) + Z.of_nat (S n)) with (Z.of_nat (length fs + 1) + Z.of_nat n) by lia; done|done].
      destruct Hm' as (fs' & Hl & Hm'). exists fs'. split; [lia|done].
    + rewrite length_app. cbn [length]. rewrite Nat2Z.inj_add. exact Hrec.
  - intros [= <- <-]. destruct Hmp as [Herr (k2 & Hs2 & Hi2)].
    assert (forall root' w, space kinds root' -> Vmm.is_user w -> Vmm.leaf (Vmm.mem v) root' w = leaf s root' w) as Hsp.
    { intros root' w Hr' Hw'. rewrite <- Hsame. destruct e; [|by destruct Herr as [-> _]].
      apply Herr; [by eapply lookup_weaken|done]. }
    cbn [set_vm pool]. destruct (Pmm.free_frame (f * 4096) (pool s2)) as [p2|] eqn:E2.
    2:{ exfalso. revert E2. unfold s2. cbn [set_pmem pool]. rewrite Hp1. unfold Pmm.free_frame, Pmm.free_frame_nolock. by destruct (_ <? _). }
    unfold s2 in E2. cbn [set_pmem pool] in E2. rewrite Hp1 in E2.
    assert (is_u64 (f * 4096)) as Hfu by (unfold is_u64; rewrite u64_bound_val; lia).
    destruct (Pmm.free_frame_spec _ _ _ Hw1 Hfu E2) as (Hw2 & Ht2 & Hab2). unfold Pmm.FRAME_SIZE in Hab2.
    rewrite Z.div_mul in Hab2 by done.
    eapply (rollback s0 kinds cr3 root virt p0 Hroot Hcr Hal Hlo Hp0 Hbig s _ fs p2 k2);
      [done|lia|lia|unfold s2; rewrite Hf1; by destruct s|cbn [ps set_pool set_vm]; exact Hf3|cbn; first [done|rewrite Hp1; exact E2]|done|cbn; congruence| |by etransitivity|done|done].
    rewrite Hab2, Hab1, Hab. set_solver.
Qed.

Lemma page_align_spec (size : Z) :
  0 < size <= MAX_ALLOC ->
  page_align size mod 4096 = 0 /\ size <= page_align size < size + 4096 /\ page_align size = page_align size / 4096 * 4096.
Proof.
  intros Hs. unfold page_align, MAX_ALLOC in *. rewrite wrap64_small by (unfold is_u64; rewrite u64_bound_val; lia).
  change 4095 with (Z.ones 12) at 2 4 6 8 10. rewrite !land_lnot_ones by lia. change (2 ^ 12) with 4096.
  pose proof (Z.div_mod (size + 4095) 4096 ltac:(lia)). pose proof (Z.mod_pos_bound (size + 4095) 4096 ltac:(lia)).
  assert ((size + 4095 - (size + 4095) mod 4096) mod 4096 = 0) as Hm by (rewrite Zminus_mod_idemp_r, Z.sub_diag; done).
  split_and!; [done|lia|lia|]. pose proof (Z.div_mod (size + 4095 - (size + 4095) mod 4096) 4096 ltac:(lia)). lia.
Qed.

(** What [sys_heap_alloc] of [n] pages leaves behind. *)
Definition heap_alloc_post s kinds (caller root n : Z) (r : Z) s' : Prop :=
  let s0 := set_heap (heap_bump s + n * 4096) (heap_allocs s) s in
  (r = u64_max /\ undone s0 s' kinds root (heap_bump s) n) \/
  (r = heap_bump s /\ exists fs s1, Z.of_nat (length fs) = n /\ mapped s0 s1 kinds root (heap_bump s) fs /\
     s' = set_ps (add_memory_bytes caller (n * 4096) (ps s1))
            (set_heap (heap_bump s + n * 4096) (heap_allocs s ++ [mkHeapAlloc caller (heap_bump s) (n * 4096)]) s1)).

Lemma heap_alloc_meets (fuel cpu : nat) (size : Z) s kinds (caller cr3 root : Z) (p : Pmm.Pmm) (r : Z) s' :
  0 < size <= MAX_ALLOC -> Scheduler.current_user_pid cpu (ss (ps s)) = Some caller -> user_cr3 caller (ps s) = Some cr3 ->
  Vmm.inv (vm s) kinds -> space kinds root -> Z.land cr3 Vmm.ADDR_MASK = root ->
  pool s = Some p -> Pmm.wf p -> Pmm.total_frames p * 4096 <= 2 ^ 52 ->
  heap_bump s mod 4096 = 0 -> Vmm.USER_MIN <= heap_bump s -> heap_bump s + page_align size <= Vmm.USER_MAX ->
  sys_heap_alloc fuel cpu size s = (Some r, s') ->
  heap_alloc_post s kinds caller root (page_align size / 4096) r s'.
Proof using All.
  intros Hs Hc Hcr3 Hi Hroot Hcr Hp Hw Hbig Hal Hlo Hhi. unfold sys_heap_alloc, heap_alloc_post.
  destruct (page_align_spec size Hs) as (Hm & Hsz & Hn). set (n := page_align size / 4096) in *.
  rewrite (proj2 (Z.eqb_neq size 0)), (proj2 (Z.ltb_ge MAX_ALLOC size)) by lia. cbn [orb]. rewrite Hc, Hcr3, Hn.
  assert (0 <= n) as Hn0 by lia.
  rewrite (wrap64_small (heap_bump s + n * 4096)) by (unfold is_u64; rewrite u64_bound_val; unfold Vmm.USER_MAX, Vmm.USER_MIN in *; lia).
  set (s0 := set_heap (heap_bump s + n * 4096) (heap_allocs s) s).
  destruct (map_heap fuel (Z.to_nat n) 0 caller cr3 (heap_bump s) s0) as [b s1] eqn:Em.
  pose proof (map_heap_spec fuel (Z.to_nat n) caller cr3 root (heap_bump s) s0 kinds p s0 [] b s1 Hroot Hcr Hal Hlo) as Hspec.
  cbn [length] in Hspec. rewrite Z2Nat.id, Z.add_0_l in Hspec by done.
  specialize (Hspec ltac:(lia) Hp Hbig (mapped_nil s0 kinds root _ p Hi Hp Hw) Em).
  destruct b as [[]|]; [| |done]; intros [= <- <-].
  - right. split; [done|]. destruct Hspec as (fs & Hl & Hm'). exists fs, s1. split; [lia|]. split; [done|].
    assert (heap_bump s1 = heap_bump s + n * 4096 /\ heap_allocs s1 = heap_allocs s) as [-> ->]; [|done].
    destruct Hm' as [Hr _ _ _ _ _ _]. rewrite Hr. done.
  - left. by split.
Qed.

(** ** The retry loop *)

(** With a free frame, or nobody to kill, one attempt decides. *)
Lemma get_frame_decides (fuel : nat) (caller cr3 : Z) s :
  (exists f p, Pmm.alloc_frame (pool s) = (Some f, p)) \/ (forall v, oom_victim 0 (ps s) = Some v -> v = caller) ->
  exists r s', get_frame (S fuel) caller cr3 s = (Some r, s').
Proof.
  intros Hd. cbn [get_frame]. destruct (Pmm.alloc_frame (pool s)) as [[f|] o] eqn:Ea; [by eauto|].
  destruct Hd as [(f & p & [=])|Hv]. unfold oom_kill. cbn [set_pool ps].
  destruct (oom_victim 0 (ps s)) as [v|]; [|by eauto]. rewrite (Hv v eq_refl), Z.eqb_refl. cbn [negb]. by eauto.
Qed.

(** At least [n] frames are free. *)
Definition enough (n : nat) (p : Pmm.Pmm) : Prop :=
  exists F : gset Z, (n <= size F)%nat /\ F ## Pmm.abs p /\ forall f, f ∈ F -> 0 <= f < Pmm.total_frames p.

Definition may_retry (caller : Z) s : Prop := exists v, oom_victim 0 (ps s) = Some v /\ v <> caller.

Lemma enough_alloc (n : nat) (p : Pmm.Pmm) : Pmm.wf p -> enough (S n) p ->
  exists a p', Pmm.alloc_frame (Some p) = (Some a, Some p') /\ Pmm.wf p' /\ enough n p'.
Proof.
  intros Hw (F & Hsz & Hd & Hr). pose proof (Pmm.alloc_frame_meets p Hw) as Hm.
  destruct (Pmm.alloc_frame (Some p)) as [[a|] [p'|]] eqn:Ea; [|done| |by destruct Hm].
  - destruct (Pmm.alloc_frame_abs _ _ _ Hw Ea) as (Hs & Hw' & Ht). exists a, p'. split; [done|]. split; [done|].
    remember (Pmm.abs p') as U' eqn:EU. inversion Hs as [U f Hf Hn HU Ha' HU'| | | |]. subst.
    exists (F ∖ {[f]}). split_and!; [|rewrite <- HU'; set_solver|rewrite Ht; set_solver].
    pose proof (size_union_alt {[f]} F) as H1. rewrite size_singleton in H1.
    pose proof (subseteq_size F ({[f]} ∪ F) ltac:(set_solver)). lia.
  - destruct Hm as [_ Hfull]. destruct (set_choose_L F) as [f Hf]; [intros ->; rewrite size_empty in Hsz; lia|].
    destruct (Hd f Hf). apply Pmm.elem_of_abs. split; [by apply Hr|]. by apply Hfull, Hr.
Qed.

(** The loop over the pages ends unless it waits for a victim. *)
Lemma map_heap_decides (fuel n : nat) (i caller cr3 virt : Z) s (p : Pmm.Pmm) :
  pool s = Some p -> Pmm.wf p -> enough n p \/ ~ may_retry caller s ->
  exists b s', map_heap (S fuel) n i caller cr3 virt s = (Some b, s').
Proof.
  revert i s p. induction n as [|n IH]; intros i s p Hp Hw Hd; [cbn [map_heap]; by eauto|].
  cbn [map_heap]. destruct (get_frame_decides fuel caller cr3 s) as (g & s1 & Eg).
  { destruct Hd as [He|Hn]; [|right; intros v Hv; destruct (decide (v = caller)); [done|destruct Hn; by exists v]].
    left. destruct (enough_alloc n p Hw He) as (a & p' & Ha & _). rewrite Hp. by eauto. }
  rewrite Eg. destruct g as [f|]; [|by eauto].
  destruct (Vmm.map_page _ _ _ _ _) as [[[]|e] v]; [|by eauto].
  destruct (get_frame_spec _ _ _ _ _ _ _ Hp Hw Eg) as [Hfe (f' & p1 & -> & Hp1 & Hw1 & Ht & Ha & Hf & Hr)].
  eapply IH; [exact Hp1|done|]. destruct Hd as [He|Hn].
  - left. destruct (enough_alloc n p Hw He) as (a & p' & Hal & Hw' & He').
    revert Eg. cbn [get_frame]. rewrite Hp, Hal. intros [= _ <-]. simplify_eq/=. done.
  - right. intros (v' & Hv & Hne). apply Hn. exists v'. split; [|done]. revert Eg Hv. cbn [get_frame].
    destruct (Pmm.alloc_frame (pool s)) as [[f2|] o]; [intros [= _ <-]; done|].
    unfold oom_kill. cbn [set_pool ps]. destruct (oom_victim 0 (ps s)) as [v0|] eqn:Ev; [|done].
    destruct (decide (v0 = caller)) as [->|Hc]; [by rewrite Z.eqb_refl|]. destruct Hn. by exists v0.
Qed.

(** Heap allocation.  [sys_heap_alloc] returns, unless there are fewer free frames
    than pages asked for and another process may be killed for its memory, in which
    case it may still be retrying.  When it returns an address, it is the reserved
    one, page after page of it is mapped writable in the caller's space only, to
    distinct frames that were free, are now in use and hold zeroes, and the allocation
    is recorded; when it fails (out of frames with nobody left to kill, or no memory
    for a page table) every frame it took is back in the pool and no page stays
    mapped.  Either way no other page of any address space changes. *)
Theorem heap_alloc_spec (fuel cpu : nat) (size : Z) s kinds (caller cr3 root : Z) (p : Pmm.Pmm) :
  0 < size <= MAX_ALLOC -> Scheduler.current_user_pid cpu (ss (ps s)) = Some caller -> user_cr3 caller (ps s) = Some cr3 ->
  Vmm.inv (vm s) kinds -> space kinds root -> Z.land cr3 Vmm.ADDR_MASK = root ->
  pool s = Some p -> Pmm.wf p -> Pmm.total_frames p * 4096 <= 2 ^ 52 ->
  heap_bump s mod 4096 = 0 -> Vmm.USER_MIN <= heap_bump s -> heap_bump s + page_align size <= Vmm.USER_MAX ->
  match sys_heap_alloc (S fuel) cpu size s with
  | (Some r, s') => heap_alloc_post s kinds caller root (page_align size / 4096) r s'
  | (None, _) => ~ enough (Z.to_nat (page_align size / 4096)) p /\ may_retry caller s
  end.
Proof.
  intros Hs Hc Hcr3 Hi Hroot Hcr Hp Hw Hbig Hal Hlo Hhi.
  destruct (sys_heap_alloc (S fuel) cpu size s) as [[r|] s'] eqn:E; [by eapply heap_alloc_meets|].
  revert E. unfold sys_heap_alloc. rewrite (proj2 (Z.eqb_neq size 0)), (proj2 (Z.ltb_ge MAX_ALLOC size)) by lia.
  cbn [orb]. rewrite Hc, Hcr3. set (s0 := set_heap _ _ s). intros E.
  pose proof (map_heap_decides fuel (Z.to_nat (page_align size / 4096)) 0 caller cr3 (heap_bump s) s0 p Hp Hw) as Hd.
  assert (~ (enough (Z.to_nat (page_align size / 4096)) p \/ ~ may_retry caller s)) as Hn.
  { intros [He|Hn]; [destruct (Hd (or_introl He)) as (b & s1 & Em)|destruct (Hd (or_intror Hn)) as (b & s1 & Em)];
      rewrite Em in E; by destruct b. }
  split; [tauto|]. unfold may_retry. destruct (oom_victim 0 (ps s)) as [v|] eqn:Ev.
  - destruct (decide (v = caller)) as [->|]; [|by eauto]. destruct Hn. right. intros (v & Hv & Hne). simplify_eq.
  - destruct Hn. right. intros (v & Hv & Hne). congruence.
Qed.

(** Killing flags a process; it frees nothing and selects the same victim again. *)
Lemma oom_loop_kill (l : list Process) (i : Z) (best : option (Z * Z)) :
  oom_loop 0 (update_first (is_pid i) with_kill l) best = oom_loop 0 l best.
Proof.
  revert best. induction l as [|q l IH]; intros best; [done|]. simpl. destruct (is_pid i q); [done|]. apply IH.
Qed.

Lemma kill_pid_victim (i : Z) (q : PState) : oom_victim 0 (kill_pid i q) = oom_victim 0 q.
Proof.
  unfold kill_pid. destruct (i =? 0); [done|]. destruct (find i q) as [x|]; [|done].
  destruct (_ <=? _); [done|]. unfold oom_victim.
  assert (procs (on_main i Thread.set_ready (modify i with_kill q)) = update_first (is_pid i) with_kill (procs q)) as ->.
  { unfold on_main. by destruct (main_tid i (modify i with_kill q)). }
  by rewrite oom_loop_kill.
Qed.

(** The out-of-memory loop never ends by itself.  With every frame in use and a
    killable process other than the caller, each turn of [sys_heap_alloc]'s retry loop
    selects that same process again, which is only flagged for killing: after any
    number of turns the loop is still retrying, and no frame has been freed.  (Another
    CPU has to run the victim to its end for the call to return.) *)
Theorem oom_retry_spins (fuel : nat) (caller cr3 victim : Z) s (p : Pmm.Pmm) :
  pool s = Some p -> Pmm.wf p -> (forall f, Pmm.frame_ok p f -> Pmm.used p f = true) ->
  oom_victim 0 (ps s) = Some victim -> victim <> caller ->
  exists s', get_frame fuel caller cr3 s = (None, s') /\ pool s' = Some p /\ oom_victim 0 (ps s') = Some victim.
Proof.
  intros Hp Hw Hfull. revert s Hp. induction fuel as [|fuel IH]; intros s Hp Hv Hne; cbn [get_frame]; [by exists s|].
  pose proof (Pmm.alloc_frame_meets p Hw) as Hm. rewrite Hp. destruct (Pmm.alloc_frame (Some p)) as [[a|] o] eqn:Ea.
  { destruct o as [p'|]; [|done]. destruct Hm as (k & _ & (Hok & Hu & _) & _). rewrite Hfull in Hu by done. done. }
  destruct Hm as [-> _]. unfold oom_kill. cbn [set_pool ps]. rewrite Hv, (proj2 (Z.eqb_neq _ _) Hne). cbn [negb].
  apply IH; [done| |done]. cbn. by rewrite kill_pid_victim.
Qed.

(** * Isolation of heap pages *)

(** A recorded allocation: whole pages below the bump pointer, each mapped in its
    owner's space to the frame [M] gives for the address. *)
Record alloc_ok s kinds (M : gmap Z Z) (a : HeapAlloc) (cr3 : Z) : Prop := {
  ao_pages : 0 < h_size a /\ h_size a mod 4096 = 0 /\ h_virt a mod 4096 = 0;
  ao_range : HEAP_VA_BASE <= h_virt a /\ h_virt a + h_size a <= heap_bump s;
  ao_cr3 : user_cr3 (h_pid a) (ps s) = Some cr3;
  ao_space : space kinds (Z.land cr3 Vmm.ADDR_MASK);
  ao_mapped k : 0 <= k < h_size a / 4096 ->
    exists f, M !! (h_virt a + k * 4096) = Some f /\
              leaf s (Z.land cr3 Vmm.ADDR_MASK) (h_virt a + k * 4096) = Some (heap_leaf f);
}.

Record heap_inv s kinds (M : gmap Z Z) : Prop := {
  hv_vm : Vmm.inv (vm s) kinds;
  hv_pool : exists p, pool s = Some p /\ Pmm.wf p /\ Pmm.total_frames p * 4096 <= 2 ^ 52 /\
              forall v f, M !! v = Some f -> f ∈ Pmm.abs p;
  hv_inj v v' f : M !! v = Some f -> M !! v' = Some f -> v = v';
  hv_bump : heap_bump s mod 4096 = 0 /\ HEAP_VA_BASE <= heap_bump s <= Vmm.USER_MAX;
  hv_spaces i cr3 : user_cr3 i (ps s) = Some cr3 -> cr3 <> 0 -> space kinds (Z.land cr3 Vmm.ADDR_MASK);
  hv_alloc a : a ∈ heap_allocs s -> exists cr3, alloc_ok s kinds M a cr3;
  hv_apart (i j : nat) a b : i <> j -> heap_allocs s !! i = Some a -> heap_allocs s !! j = Some b ->
    h_virt a + h_size a <= h_virt b \/ h_virt b + h_size b <= h_virt a;
}.
Definition heap_ok s : Prop := exists kinds M, heap_inv s kinds M.

(** Accounting does not move address spaces. *)
Lemma user_cr3_memory (i j : Z) (g : Process -> Process) (q : PState) :
  (forall x, pkey (g x) = pkey x) -> user_cr3 i (modify j g q) = user_cr3 i q.
Proof. intros Hg. apply user_cr3_key. by apply keys_modify. Qed.

(** The page addresses of a range and the frames behind them. *)
Definition page_map (virt : Z) fs : gmap Z Z :=
  list_to_map (imap (fun k f => (virt + Z.of_nat k * 4096, f)) fs).

Lemma lookup_page_map (virt : Z) fs (v f : Z) :
  page_map virt fs !! v = Some f <-> exists k, v = virt + Z.of_nat k * 4096 /\ fs !! k = Some f.
Proof.
  unfold page_map. rewrite <- elem_of_list_to_map.
  - rewrite list_elem_of_lookup. setoid_rewrite list_lookup_imap. split.
    + intros (k & Hk). destruct (fs !! k) as [g|] eqn:E; simplify_eq/=. by exists k.
    + intros (k & -> & Hk). exists k. by rewrite Hk.
  - apply NoDup_alt. intros i j x. rewrite !list_lookup_fmap, !list_lookup_imap.
    destruct (fs !! i), (fs !! j); intros; simplify_eq/=; lia.
Qed.

Lemma page_below s kinds (M : gmap Z Z) (a : HeapAlloc) (cr3 k : Z) :
  alloc_ok s kinds M a cr3 -> 0 <= k < h_size a / 4096 -> 
  HEAP_VA_BASE <= h_virt a + k * 4096 /\ h_virt a + k * 4096 + 4096 <= h_virt a + h_size a.
Proof.
  intros [(H1 & H2 & H3) (H4 & H5) _ _ _] Hk. pose proof (Z.div_mod (h_size a) 4096 ltac:(lia)). lia.
Qed.

Lemma heap_base_user (v : Z) : HEAP_VA_BASE <= v < Vmm.USER_MAX -> Vmm.is_user v.
Proof. unfold Vmm.is_user, HEAP_VA_BASE, Vmm.USER_MIN. lia. Qed.

(** An allocation survives whatever leaves its pages and its owner alone. *)
Lemma alloc_ok_keep s s' kinds kinds' (M M' : gmap Z Z) (a : HeapAlloc) (cr3 : Z) :
  alloc_ok s kinds M a cr3 -> kinds ⊆ kinds' -> heap_bump s <= heap_bump s' -> heap_bump s <= Vmm.USER_MAX ->
  user_cr3 (h_pid a) (ps s') = user_cr3 (h_pid a) (ps s) ->
  (forall v, h_virt a <= v < h_virt a + h_size a -> M' !! v = M !! v) ->
  (forall root w, space kinds root -> Vmm.is_user w -> h_virt a <= w < h_virt a + h_size a -> leaf s' root w = leaf s root w) ->
  alloc_ok s' kinds' M' a cr3.
Proof.
  intros Ha Hsub Hb Hmax Hcr HM Hl. pose proof Ha as [H1 H2 H3 H4 H5]. split; [done|lia|by rewrite Hcr|by eapply lookup_weaken|].
  intros k Hk. destruct (H5 k Hk) as (f & Hf & Hlf). pose proof (page_below _ _ _ _ _ k Ha Hk) as [Hp1 Hp2]. exists f.
  split; [rewrite HM by lia; done|]. rewrite Hl; [done|done|apply heap_base_user; lia|lia].
Qed.

Lemma heap_alloc_inv (fuel cpu : nat) (size : Z) s kinds (M : gmap Z Z) (caller cr3 : Z) (r : Z) s' :
  heap_inv s kinds M -> 0 < size <= MAX_ALLOC ->
  Scheduler.current_user_pid cpu (ss (ps s)) = Some caller -> user_cr3 caller (ps s) = Some cr3 -> cr3 <> 0 ->
  heap_bump s + page_align size <= Vmm.USER_MAX ->
  sys_heap_alloc fuel cpu size s = (Some r, s') -> heap_ok s'.
Proof using All.
  intros Hinv Hs Hc Hcr3 Hne Hhi Hrun. pose proof Hinv as [Hi (p & Hp & Hw & Hbig & HM) Hinj [Hb1 Hb2] Hsp Hal Hap].
  pose proof (Hsp _ _ Hcr3 Hne) as Hroot. destruct (page_align_spec size Hs) as (Hm & Hsz & Hn).
  set (n := page_align size / 4096) in *. set (root := Z.land cr3 Vmm.ADDR_MASK) in *.
  pose proof (heap_alloc_meets fuel cpu size s kinds caller cr3 root p r s' Hs Hc Hcr3 Hi Hroot eq_refl Hp Hw Hbig Hb1
                ltac:(unfold HEAP_VA_BASE, Vmm.USER_MIN in *; lia) Hhi Hrun) as Hpost.
  fold n in Hpost. unfold heap_alloc_post in Hpost. set (s0 := set_heap (heap_bump s + n * 4096) (heap_allocs s) s) in *.
  assert ((heap_bump s + n * 4096) mod 4096 = 0) as Hb3 by (by rewrite Z.mod_add).
  assert (forall w, 0 <= w / 4096 - heap_bump s / 4096 -> heap_bump s <= w) as Hge.
  { intros w Hk. pose proof (Z.div_mod (heap_bump s) 4096 ltac:(lia)). pose proof (Z.div_mod w 4096 ltac:(lia)).
    pose proof (Z.mod_pos_bound w 4096 ltac:(lia)). lia. }
  destruct Hpost as [[-> Hun]|(-> & fs & s1 & Hlen & Hmd & ->)].
  - destruct Hun as [Hr Hk (q0 & q & Hq0 & Hq & Hwq & Htq & Habs) (k1 & Hs1 & Hi1) Hlf].
    change (pool s0) with (pool s) in Hq0. change (ps s0) with (ps s) in Hk. assert (q0 = p) as -> by congruence.
    assert (heap_bump s' = heap_bump s + n * 4096 /\ heap_allocs s' = heap_allocs s) as [Hb' Ha'] by (rewrite Hr; done).
    exists k1, M. split.
    + done.
    + exists q. split_and!; [done|done|by rewrite Htq|]. intros v f Hv. rewrite Habs. by eapply HM.
    + done.
    + rewrite Hb'. split; [done|lia].
    + intros i c Hu Hc0. rewrite (user_cr3_key i _ _ Hk) in Hu. eapply lookup_weaken; [by eapply Hsp|done].
    + intros a Hin. rewrite Ha' in Hin. destruct (Hal a Hin) as (c & Hok). exists c.
      apply (alloc_ok_keep s s' kinds k1 M M a c Hok Hs1); [lia|lia|by rewrite (user_cr3_key _ _ _ Hk)|done|].
      intros root' w Hr' Hw' Hin'. destruct (Hlf root' w Hr' Hw') as [?|(_ & Hrange & _)]; [done|]. exfalso.
      destruct (ao_range _ _ _ _ _ Hok). specialize (Hge w ltac:(lia)). lia.
    + intros i j a b. rewrite Ha'. apply Hap.
  - destruct Hmd as [Hr Hk (q0 & q & Hq0 & Hq & Hwq & Htq & Habs & Hfree) Hnd (k1 & Hs1 & Hi1) Hlf _].
    change (pool s0) with (pool s) in Hq0. change (ps s0) with (ps s) in Hk. assert (q0 = p) as -> by congruence.
    set (na := mkHeapAlloc caller (heap_bump s) (n * 4096)).
    assert (forall i, user_cr3 i (add_memory_bytes caller (n * 4096) (ps s1)) = user_cr3 i (ps s)) as Hucr.
    { intros i. unfold add_memory_bytes. rewrite user_cr3_memory by done. by rewrite (user_cr3_key i _ _ Hk). }
    set (M' := page_map (heap_bump s) fs ∪ M).
    assert (forall v, v < heap_bump s -> M' !! v = M !! v) as Hold.
    { intros v Hv. unfold M'. apply lookup_union_r. apply eq_None_not_Some. intros [f (k & -> & _)%lookup_page_map]. lia. }
    assert (forall v f, M' !! v = Some f -> (exists k, v = heap_bump s + Z.of_nat k * 4096 /\ fs !! k = Some f) \/ M !! v = Some f) as Hcases.
    { intros v f [Hv|[_ Hv]]%lookup_union_Some_raw; [left; by apply lookup_page_map|by right]. }
    exists k1, M'. split; cbn [vm pool ps heap_bump heap_allocs set_ps set_heap].
    + done.
    + exists q. split_and!; [done|done|by rewrite Htq|]. intros v f [(k & -> & Hkf)|Hv]%Hcases; rewrite Habs.
      * apply elem_of_union_l, elem_of_list_to_set. by eapply list_elem_of_lookup_2.
      * apply elem_of_union_r. by eapply HM.
    + intros v v' f Hv Hv'. apply Hcases in Hv as [(k & -> & Hkf)|Hv], Hv' as [(k' & -> & Hkf')|Hv'].
      * by rewrite (NoDup_lookup _ _ _ _ Hnd Hkf Hkf').
      * exfalso. destruct (Hfree f); [by eapply list_elem_of_lookup_2|]. by eapply HM in Hv'.
      * exfalso. destruct (Hfree f); [by eapply list_elem_of_lookup_2|]. by eapply HM in Hv.
      * by eapply Hinj.
    + split; [done|lia].
    + intros i c Hu Hc0. rewrite Hucr in Hu. eapply lookup_weaken; [by eapply Hsp|done].
    + intros a [Hin|Hin%list_elem_of_singleton]%elem_of_app.
      * destruct (Hal a Hin) as (c & Hok). exists c. destruct (ao_range _ _ _ _ _ Hok) as [Hr1 Hr2].
        eapply (alloc_ok_keep s _ kinds k1 M M' a c Hok Hs1); cbn [ps set_ps heap_bump set_heap vm]; [lia|lia|by rewrite Hucr|intros v Hv; apply Hold; lia|].
        intros root' w Hr' Hw' Hin'. rewrite (Hlf root' w Hr' Hw'), decide_False; [done|].
        intros [_ Hrange]. specialize (Hge w ltac:(lia)). lia.
      * subst a. exists cr3. split; cbn [ps set_ps heap_bump set_heap vm na h_size h_virt h_pid].
        -- rewrite Z.mod_mul by lia. lia.
        -- lia.
        -- by rewrite Hucr.
        -- by eapply lookup_weaken.
        -- intros k Hk'. rewrite Z.div_mul in Hk' by lia. destruct (lookup_lt_is_Some_2 fs (Z.to_nat k)) as [f Hf]; [lia|].
           exists f. split.
           ++ apply lookup_union_Some_l, lookup_page_map. exists (Z.to_nat k). split; [lia|done].
           ++ fold root. rewrite (Hlf root); [|done|apply heap_base_user; lia]. rewrite Z.div_add by lia.
              replace (heap_bump s / 4096 + k - heap_bump s / 4096) with k by lia.
              rewrite decide_True by lia. by rewrite Hf.
    + intros i j a b Hij Ha Hb.
      assert (forall i a, (heap_allocs s ++ [na]) !! i = Some a ->
                (i < length (heap_allocs s))%nat /\ heap_allocs s !! i = Some a /\ h_virt a + h_size a <= heap_bump s \/ i = length (heap_allocs s) /\ a = na) as Hsnoc.
      { intros i' a' Hl. destruct (decide (i' < length (heap_allocs s))%nat).
        - rewrite lookup_app_l in Hl by lia. left. split_and!; [lia|done|].
          destruct (Hal a') as (c & Hok); [by eapply list_elem_of_lookup_2|]. by destruct (ao_range _ _ _ _ _ Hok).
        - rewrite lookup_app_r in Hl by lia. right. apply list_lookup_singleton_Some in Hl as [? <-]. split; [lia|done]. }
      apply Hsnoc in Ha as [(Hi' & Ha & Hae)|[-> ->]], Hb as [(Hj' & Hb & Hbe)|[-> ->]].
      * by eapply Hap.
      * left. exact Hae.
      * right. exact Hbe.
      * done.
Qed.

(** Removing an entry leaves the others, still apart from each other and from it. *)
Lemma apart_remove (l : list HeapAlloc) (pos : nat) (a : HeapAlloc) (R : HeapAlloc -> HeapAlloc -> Prop) :
  l !! pos = Some a -> (forall (i j : nat) x y, i <> j -> l !! i = Some x -> l !! j = Some y -> R x y) ->
  (forall b, b ∈ swap_remove pos l -> R a b) /\
  forall (i j : nat) x y, i <> j -> swap_remove pos l !! i = Some x -> swap_remove pos l !! j = Some y -> R x y.
Proof.
  intros Hpos HR. pose proof (swap_remove_perm pos l a Hpos) as Hperm. symmetry in Hperm.
  apply Permutation_inj in Hperm as (_ & g & Hinj & Hg). split.
  - intros b (i & Hi)%list_elem_of_lookup. pose proof (Hg 0%nat) as H0. pose proof (Hg (S i)) as Hs. simpl in H0, Hs.
    apply (HR (g 0%nat) (g (S i))); [by intros ?%Hinj|by rewrite <- H0|by rewrite <- Hs].
  - intros i j x y Hij Hx Hy. pose proof (Hg (S i)) as Hi. pose proof (Hg (S j)) as Hj. simpl in Hi, Hj.
    apply (HR (g (S i)) (g (S j))); [intros ?%Hinj; lia|by rewrite <- Hi|by rewrite <- Hj].
Qed.

(** The pages of a recorded allocation, freed. *)
Lemma free_alloc_spec s kinds (M : gmap Z Z) (a : HeapAlloc) (cr3 : Z) s1 :
  heap_inv s kinds M -> alloc_ok s kinds M a cr3 -> vm s1 = vm s -> pool s1 = pool s ->
  let s2 := free_user_pages cr3 (h_virt a) (h_size a / 4096) s1 in
  s2 = set_pool (pool s2) (set_vm (vm s2) s1) /\ Vmm.inv (vm s2) kinds /\
  (exists p p', pool s = Some p /\ pool s2 = Some p' /\ Pmm.wf p' /\ Pmm.total_frames p' = Pmm.total_frames p /\
     forall f, f ∈ Pmm.abs p' <-> f ∈ Pmm.abs p /\ ~ exists v, h_virt a <= v < h_virt a + h_size a /\ v mod 4096 = 0 /\ M !! v = Some f) /\
  forall root w, space kinds root -> Vmm.is_user w ->
    leaf s2 root w = if decide (root = Z.land cr3 Vmm.ADDR_MASK /\ h_virt a <= w < h_virt a + h_size a) then None else leaf s root w.
Proof using All.
  intros Hinv Hok Hvm Hpool. pose proof Hok as [(Ha1 & Ha2 & Ha3) (Hr1 & Hr2) _ Hroot Hmap].
  pose proof Hinv as [Hi (p & Hp & Hw & Hbig & HM) Hinj [Hb1 Hb2] _ _ _].
  set (n := h_size a / 4096) in *. assert (h_size a = n * 4096) as Hn by (pose proof (Z.div_mod (h_size a) 4096 ltac:(lia)); lia).
  set (fs := (fun k => default 0 (M !! (h_virt a + Z.of_nat k * 4096))) <$> seq 0 (Z.to_nat n)).
  assert (forall k f, fs !! k = Some f <-> (k < Z.to_nat n)%nat /\ M !! (h_virt a + Z.of_nat k * 4096) = Some f) as Hfs.
  { intros k f. unfold fs. rewrite list_lookup_fmap, fmap_Some. setoid_rewrite lookup_seq. split.
    - intros (? & [-> Hk] & ->). split; [lia|]. destruct (Hmap (Z.of_nat (0 + k)) ltac:(lia)) as (g & Hg & _). simpl in *. by rewrite Hg.
    - intros [Hk Hg]. exists k. split; [split; [done|lia]|]. by rewrite Hg. }
  pose proof (free_pages_spec (Z.to_nat n) 0 cr3 (Z.land cr3 Vmm.ADDR_MASK) (h_virt a) s1 kinds p fs) as Hspec.
  rewrite Hvm in Hspec. unfold HEAP_VA_BASE, Vmm.USER_MIN in *.
  destruct Hspec as (Heq & Hi' & (p' & Hp' & Hw' & Ht' & Habs) & Hl); try done; [lia|lia| | |by rewrite Hpool|].
  { unfold fs. by rewrite length_fmap, length_seq. }
  { intros k f [Hk Hf]%Hfs. rewrite Z.add_0_l. destruct (Hmap (Z.of_nat k) ltac:(lia)) as (g & Hg & Hlg). rewrite Hf in Hg.
    injection Hg as <-. split; [done|]. apply HM in Hf as Hf'. apply Pmm.elem_of_abs in Hf' as [[? ?] _]. lia. }
  unfold free_user_pages. fold n. split_and!; [done|done| |].
  - exists p, p'. split_and!; [done..|]. intros f. rewrite Habs, elem_of_difference, elem_of_list_to_set.
    assert (f ∈ fs <-> exists v, h_virt a <= v < h_virt a + h_size a /\ v mod 4096 = 0 /\ M !! v = Some f) as Hiff; [|by rewrite Hiff].
    rewrite list_elem_of_lookup. setoid_rewrite Hfs. split.
    + intros (k & Hk & Hf). exists (h_virt a + Z.of_nat k * 4096). split_and!; [lia|lia|by rewrite Z.mod_add|done].
    + intros (v & Hv & Hv0 & Hf). exists (Z.to_nat (v / 4096 - h_virt a / 4096)).
      pose proof (Z.div_mod v 4096 ltac:(lia)). pose proof (Z.div_mod (h_virt a) 4096 ltac:(lia)).
      split; [lia|]. rewrite <- Hf. f_equal. lia.
  - intros root w Hr Hu. rewrite (Hl root w Hr Hu).
    pose proof (Z.div_mod w 4096 ltac:(lia)). pose proof (Z.mod_pos_bound w 4096 ltac:(lia)).
    pose proof (Z.div_mod (h_virt a) 4096 ltac:(lia)).
    assert (root = Z.land cr3 Vmm.ADDR_MASK /\ 0 <= w / 4096 - h_virt a / 4096 < 0 + Z.of_nat (Z.to_nat n) <->
            root = Z.land cr3 Vmm.ADDR_MASK /\ h_virt a <= w < h_virt a + h_size a) as Hiff by lia.
    by rewrite (decide_ext _ _ _ _ Hiff).
Qed.

(** Freeing an entry keeps the invariant. *)
Lemma free_entry_inv s kinds (M : gmap Z Z) (pos : nat) (a : HeapAlloc) (cr3 : Z) :
  heap_inv s kinds M -> heap_allocs s !! pos = Some a -> user_cr3 (h_pid a) (ps s) = Some cr3 ->
  let s1 := set_heap (heap_bump s) (swap_remove pos (heap_allocs s)) s in
  exists M', heap_inv (free_user_pages cr3 (h_virt a) (h_size a / 4096) s1) kinds M'.
Proof using All.
  intros Hinv Hpos Hcr s1. pose proof Hinv as [Hi (p & Hp & Hw & Hbig & HM) Hinj [Hb1 Hb2] Hsp Hal Hap].
  destruct (Hal a) as (c & Hok); [by eapply list_elem_of_lookup_2|].
  assert (c = cr3) as -> by (pose proof (ao_cr3 _ _ _ _ _ Hok); congruence).
  destruct (free_alloc_spec s kinds M a cr3 s1 Hinv Hok eq_refl eq_refl) as (Heq & Hi2 & (p0 & p' & Hp0 & Hp' & Hw' & Ht' & Habs) & Hl).
  assert (p0 = p) as -> by congruence.
  set (s2 := free_user_pages _ _ _ _) in *.
  assert (heap_bump s2 = heap_bump s /\ heap_allocs s2 = swap_remove pos (heap_allocs s) /\ ps s2 = ps s) as (Hbump & Hallocs & Hps)
    by (rewrite Heq; done).
  destruct (apart_remove (heap_allocs s) pos a _ Hpos Hap) as [Hapa Hapr].
  set (M' := filter (fun '(v, _) => ~ (h_virt a <= v < h_virt a + h_size a)) M).
  assert (forall v f, M' !! v = Some f <-> M !! v = Some f /\ ~ (h_virt a <= v < h_virt a + h_size a)) as HM'.
  { intros v f. unfold M'. apply map_lookup_filter_Some. }
  exists M'. split.
  - done.
  - exists p'. split_and!; [done..|by rewrite Ht'|]. intros v f [Hv Hout]%HM'. apply Habs. split; [by eapply HM|].
    intros (v' & Hv' & _ & Hf'). pose proof (Hinj _ _ _ Hv Hf'). subst v'. done.
  - intros v v' f [Hv _]%HM' [Hv' _]%HM'. by eapply Hinj.
  - rewrite Hbump. split; [done|lia].
  - intros i c. rewrite Hps. apply Hsp.
  - intros b Hb. rewrite Hallocs in Hb. pose proof (Hapa b Hb) as Hab.
    assert (b ∈ heap_allocs s) as Hb' by (apply (elem_of_swap_remove pos _ a b Hpos); by right).
    destruct (Hal b Hb') as (c & Hokb). exists c.
    apply (alloc_ok_keep s s2 kinds kinds M M' b c Hokb); [done|lia|lia|by rewrite Hps| |].
    + intros v Hv. apply option_eq. intros f. rewrite HM'. split; [tauto|]. intros Hf. split; [done|lia].
    + intros root w Hr Hu Hin. rewrite (Hl root w Hr Hu), decide_False by lia. done.
  - intros i j x y. rewrite Hallocs. apply Hapr.
Qed.

(** The cleanup loop: enough turns empty the process's list, and the invariant stays. *)
Lemma free_heap_loop_inv (n : nat) (p : Z) s kinds (M : gmap Z Z) :
  heap_inv s kinds M -> (length (heap_allocs s) < n)%nat ->
  let s' := free_heap_loop n p s in
  (exists M', heap_inv s' kinds M') /\ (forall a, a ∈ heap_allocs s' <-> a ∈ heap_allocs s /\ h_pid a <> p) /\
  heap_bump s' = heap_bump s /\ ps s' = ps s.
Proof using All.
  revert s M. induction n as [|n IH]; intros s M Hinv Hn; [lia|]. cbn [free_heap_loop].
  destruct (position _ (heap_allocs s)) as [pos|] eqn:Ep.
  - apply position_Some in Ep as (a & Ha & Hpa & _). zbool. rewrite Ha. cbn [from_option id].
    destruct (hv_alloc _ _ _ Hinv a) as (cr3 & Hok); [by eapply list_elem_of_lookup_2|].
    pose proof (ao_cr3 _ _ _ _ _ Hok) as Hcr. rewrite Hpa in Hcr. cbn [ps set_heap]. rewrite Hcr.
    set (s1 := set_heap (heap_bump s) (swap_remove pos (heap_allocs s)) s).
    destruct (free_entry_inv s kinds M pos a cr3 Hinv Ha ltac:(by rewrite Hpa)) as (M' & Hinv'). fold s1 in Hinv'.
    destruct (free_alloc_spec s kinds M a cr3 s1 Hinv Hok eq_refl eq_refl) as (Heq & _).
    set (s2 := free_user_pages cr3 _ _ s1) in *.
    assert (heap_allocs s2 = swap_remove pos (heap_allocs s) /\ heap_bump s2 = heap_bump s /\ ps s2 = ps s) as (H1 & H2 & H3)
      by (rewrite Heq; done).
    destruct (IH s2 M' Hinv') as (Hi' & Hin & Hb & Hps).
    { rewrite H1. pose proof (length_swap_remove pos (heap_allocs s) a Ha). lia. }
    split_and!; [done| |congruence|congruence]. intros b. rewrite Hin, H1.
    rewrite (elem_of_swap_remove pos (heap_allocs s) a b Ha). split; [tauto|]. intros [[->|?] Hne]; [done|tauto].
  - split_and!; [by exists M| |done|done]. intros a. split; [|tauto]. intros Ha. split; [done|]. intros Hp.
    pose proof (proj1 (position_None _ _) Ep a Ha) as Hn'. simpl in Hn'. zbool. done.
Qed.

(** A process's heap is wholly returned when it exits.  [free_heap_for_pid] ends,
    leaves no entry of the process and every entry of the others, and keeps the heap
    consistent. *)
Theorem free_heap_for_pid_spec (p : Z) s :
  heap_ok s ->
  let s' := free_heap_for_pid p s in
  heap_ok s' /\ forall a, a ∈ heap_allocs s' <-> a ∈ heap_allocs s /\ h_pid a <> p.
Proof using All.
  intros (kinds & M & Hinv). destruct (free_heap_loop_inv (S (length (heap_allocs s))) p s kinds M Hinv ltac:(lia)) as ((M' & Hi') & Hin & _).
  split; [by exists kinds, M'|done].
Qed.

(** ** Histories *)

Inductive heap_event := HAlloc (cpu : nat) (size r : Z) | HFree (cpu : nat) (virt r : Z) | HExit (p : Z) | HSwitch.

(** Calls that return, and context switches, in any order. *)
Inductive heap_step s : heap_event -> State A -> Prop :=
  | hs_alloc (fuel cpu : nat) (size r caller cr3 : Z) s' :
      0 < size <= MAX_ALLOC -> Scheduler.current_user_pid cpu (ss (ps s)) = Some caller ->
      user_cr3 caller (ps s) = Some cr3 -> cr3 <> 0 -> heap_bump s + page_align size <= Vmm.USER_MAX ->
      sys_heap_alloc fuel cpu size s = (Some r, s') -> heap_step s (HAlloc cpu size r) s'
  | hs_free (cpu : nat) (virt r : Z) s' : sys_heap_free cpu virt s = (r, s') -> heap_step s (HFree cpu virt r) s'
  | hs_exit (p : Z) : heap_step s (HExit p) (free_heap_for_pid p s)
  | hs_switch (q : PState) : (forall i, user_cr3 i q = user_cr3 i (ps s)) -> heap_step s HSwitch (set_ps q s).

(** Only the process table changed, and no address space with it. *)
Lemma heap_inv_ps s kinds (M : gmap Z Z) (q : PState) :
  heap_inv s kinds M -> (forall i, user_cr3 i q = user_cr3 i (ps s)) -> heap_inv (set_ps q s) kinds M.
Proof.
  intros [H1 H2 H3 H4 H5 H6 H7] Hq. split; try done.
  - intros i cr3. cbn. rewrite Hq. apply H5.
  - intros a Ha. destruct (H6 a Ha) as (cr3 & [G1 G2 G3 G4 G5]). exists cr3. split; try done. cbn. by rewrite Hq.
Qed.

Lemma heap_free_inv (cpu : nat) (virt r : Z) s s' :
  heap_ok s -> sys_heap_free cpu virt s = (r, s') -> heap_ok s'.
Proof using All.
  intros (kinds & M & Hinv). unfold sys_heap_free. destruct (virt =? 0); [intros [= <- <-]; by exists kinds, M|].
  destruct (Scheduler.current_user_pid cpu _) as [caller|]; [|intros [= <- <-]; by exists kinds, M].
  destruct (position _ _) as [pos|] eqn:Ep; [|intros [= <- <-]; by exists kinds, M].
  apply position_Some in Ep as (a & Ha & Hpa & _). unfold heap_entry in Hpa. zbool. rewrite Ha. cbn [from_option id].
  destruct (hv_alloc _ _ _ Hinv a) as (cr3 & Hok); [by eapply list_elem_of_lookup_2|].
  pose proof (ao_cr3 _ _ _ _ _ Hok) as Hcr. assert (h_pid a = caller) as Hpid by lia. rewrite Hpid in Hcr.
  cbn [ps set_heap]. rewrite Hcr. intros [= <- <-].
  destruct (free_entry_inv s kinds M pos a cr3 Hinv Ha ltac:(by rewrite Hpid)) as (M' & Hinv').
  exists kinds, M'. apply heap_inv_ps; [done|]. intros i. unfold sub_memory_bytes. by rewrite user_cr3_memory.
Qed.

Lemma heap_step_ok s (e : heap_event) s' : heap_ok s -> heap_step s e s' -> heap_ok s'.
Proof using All.
  intros Hok Hs. destruct Hs as [fuel cpu size r caller cr3 s' H1 H2 H3 H4 H5 H6|cpu virt r s' Hr|p|q Hq].
  - destruct Hok as (kinds & M & Hinv). by eapply heap_alloc_inv.
  - by eapply heap_free_inv.
  - destruct Hok as (kinds & M & Hinv).
    destruct (free_heap_loop_inv (S (length (heap_allocs s))) p s kinds M Hinv ltac:(lia)) as ((M' & Hi') & _). by exists kinds, M'.
  - destruct Hok as (kinds & M & Hinv). exists kinds, M. by apply heap_inv_ps.
Qed.

(** Page [k] of entry [i], with its physical address. *)
Definition heap_page s (i : nat) (k phys : Z) : Prop :=
  exists a cr3, heap_allocs s !! i = Some a /\ 0 <= k < h_size a / 4096 /\ user_cr3 (h_pid a) (ps s) = Some cr3 /\
    Vmm.translate cr3 (h_virt a + k * 4096) (Vmm.mem (vm s)) = Some phys.

Definition heap_isolated s : Prop :=
  (forall i a k, heap_allocs s !! i = Some a -> 0 <= k < h_size a / 4096 -> exists phys, heap_page s i k phys) /\
  (forall i k phys, heap_page s i k phys -> exists p, pool s = Some p /\ phys mod 4096 = 0 /\ phys / 4096 ∈ Pmm.abs p) /\
  (forall i j k l phys, heap_page s i k phys -> heap_page s j l phys -> i = j /\ k = l).

Lemma heap_ok_isolated s : heap_ok s -> heap_isolated s.
Proof using All.
  intros (kinds & M & Hinv). pose proof Hinv as [Hi (p & Hp & Hw & Hbig & HM) Hinj _ _ Hal Hap].
  assert (forall i a k cr3, heap_allocs s !! i = Some a -> 0 <= k < h_size a / 4096 -> user_cr3 (h_pid a) (ps s) = Some cr3 ->
            exists f, M !! (h_virt a + k * 4096) = Some f /\ f ∈ Pmm.abs p /\
                      Vmm.translate cr3 (h_virt a + k * 4096) (Vmm.mem (vm s)) = Some (f * 4096)) as Hpg.
  { intros i a k cr3 Ha Hk Hcr. destruct (Hal a) as (c & Hok); [by eapply list_elem_of_lookup_2|].
    assert (c = cr3) as -> by (pose proof (ao_cr3 _ _ _ _ _ Hok); congruence).
    destruct (ao_mapped _ _ _ _ _ Hok k Hk) as (f & Hf & Hlf). exists f. pose proof (HM _ _ Hf) as Hu. split_and!; [done..|].
    apply Pmm.elem_of_abs in Hu as [[? ?] _]. rewrite Vmm.translate_leaf, Hlf. simpl. rewrite heap_leaf_addr by lia. done. }
  split_and!.
  - intros i a k Ha Hk. destruct (Hal a) as (c & Hok); [by eapply list_elem_of_lookup_2|].
    destruct (Hpg i a k c Ha Hk (ao_cr3 _ _ _ _ _ Hok)) as (f & _ & _ & Ht). exists (f * 4096), a, c.
    split_and!; [done|lia|lia|apply (ao_cr3 _ _ _ _ _ Hok)|done].
  - intros i k phys (a & cr3 & Ha & Hk & Hcr & Ht). destruct (Hpg i a k cr3 Ha Hk Hcr) as (f & _ & Hf & Ht').
    exists p. split; [done|]. assert (phys = f * 4096) as -> by congruence. by rewrite Z.mod_mul, Z.div_mul.
  - intros i j k l phys (a & c & Ha & Hk & Hc & Ht) (b & d & Hb & Hl & Hd & Ht').
    destruct (Hpg i a k c Ha Hk Hc) as (f & Hf & _ & E1). destruct (Hpg j b l d Hb Hl Hd) as (g & Hg & _ & E2).
    assert (f = g) as <- by (rewrite Ht in E1; rewrite Ht' in E2; simplify_eq; lia).
    pose proof (Hinj _ _ _ Hf Hg) as Heq.
    destruct (Hal a) as (ca & Hoka); [by eapply list_elem_of_lookup_2|].
    destruct (Hal b) as (cb & Hokb); [by eapply list_elem_of_lookup_2|].
    pose proof (page_below _ _ _ _ _ k Hoka Hk). pose proof (page_below _ _ _ _ _ l Hokb Hl).
    destruct (decide (i = j)) as [->|Hne]; [split; [done|]; rewrite Ha in Hb; simplify_eq; lia|].
    destruct (Hap i j a b Hne Ha Hb); lia.
Qed.


(** Allocating and freeing gives everything back.  If [sys_heap_alloc] returns an
    address, [sys_heap_free] of it by the same process succeeds; then the frame pool
    holds exactly the frames it held, the records are those from before, no page of
    the range is mapped and every other page of every space is as it was. *)
Theorem heap_alloc_free_roundtrip (fuel cpu : nat) (size : Z) s kinds (M : gmap Z Z) (caller cr3 : Z) (r : Z) s1 :
  heap_inv s kinds M -> 0 < size <= MAX_ALLOC ->
  Scheduler.current_user_pid cpu (ss (ps s)) = Some caller -> user_cr3 caller (ps s) = Some cr3 -> cr3 <> 0 ->
  heap_bump s + page_align size <= Vmm.USER_MAX ->
  sys_heap_alloc fuel cpu size s = (Some r, s1) -> r <> u64_max ->
  exists s2 p p2, sys_heap_free cpu r s1 = (0, s2) /\ pool s = Some p /\ pool s2 = Some p2 /\
    Pmm.abs p2 = Pmm.abs p /\ heap_allocs s2 = heap_allocs s /\
    forall root w, space kinds root -> Vmm.is_user w ->
      leaf s2 root w = if decide (root = Z.land cr3 Vmm.ADDR_MASK /\ r <= w < r + page_align size) then None else leaf s root w.
Proof using All.
  intros Hinv Hs Hc Hcr3 Hne Hhi Hrun Hr. pose proof Hinv as [Hi (p & Hp & Hw & Hbig & HM) _ [Hb1 Hb2] Hsp Hal _].
  pose proof (Hsp _ _ Hcr3 Hne) as Hroot. destruct (page_align_spec size Hs) as (Hm & Hsz & Hn).
  set (n := page_align size / 4096) in *. set (root := Z.land cr3 Vmm.ADDR_MASK) in *.
  assert (Vmm.USER_MIN <= heap_bump s) as Hlo by (unfold HEAP_VA_BASE, Vmm.USER_MIN in *; lia).
  pose proof (heap_alloc_meets fuel cpu size s kinds caller cr3 root p r s1 Hs Hc Hcr3 Hi Hroot eq_refl Hp Hw Hbig Hb1 Hlo Hhi Hrun) as Hpost.
  fold n in Hpost. destruct Hpost as [[-> _]|(-> & fs & m1 & Hlen & Hmd & ->)]; [done|]. clear Hrun Hr.
  destruct Hmd as [Hrest Hk (q0 & q & Hq0 & Hq & Hwq & Htq & Habs & Hfree) Hnd (k1 & Hs1 & Hi1) Hlf _].
  set (s0 := set_heap _ (heap_allocs s) s) in *. change (pool s0) with (pool s) in Hq0. change (ps s0) with (ps s) in Hk.
  assert (q0 = p) as -> by congruence. unfold sys_heap_free.
  rewrite (proj2 (Z.eqb_neq (heap_bump s) 0)) by (unfold HEAP_VA_BASE in *; lia).
  cbn [ps set_ps set_heap heap_allocs heap_bump].
  assert (ss (add_memory_bytes caller (n * 4096) (ps m1)) = ss (ps s)) as -> by (change (ss (ps m1) = ss (ps s)); apply Hk).
  rewrite Hc. set (na := mkHeapAlloc caller (heap_bump s) (n * 4096)).
  assert (position (heap_entry caller (heap_bump s)) (heap_allocs s ++ [na]) = Some (length (heap_allocs s))) as ->.
  { assert (forall l, (forall a, a ∈ l -> a ∈ heap_allocs s) -> position (heap_entry caller (heap_bump s)) (l ++ [na]) = Some (length l)) as Hpos.
    { induction l as [|a l IH]; intros Hin.
      - cbn [app position]. unfold heap_entry. cbn [na h_virt h_pid]. by rewrite !Z.eqb_refl.
      - cbn [app position]. destruct (Hal a) as (c & [(Ha1 & _ & _) [_ Ha2] _ _ _]); [apply Hin; left|].
        unfold heap_entry at 1. rewrite (proj2 (Z.eqb_neq (h_virt a) (heap_bump s))) by lia. cbn [andb].
        rewrite IH by (intros b Hb; apply Hin; by right). done. }
    by apply Hpos. }
  rewrite list_lookup_middle by done. cbn [from_option id na h_virt h_size].
  assert (user_cr3 caller (add_memory_bytes caller (n * 4096) (ps m1)) = Some cr3) as Hcr.
  { unfold add_memory_bytes. rewrite user_cr3_memory by done. by rewrite (user_cr3_key _ _ _ Hk). }
  rewrite Hcr, Z.div_mul by done.
  match goal with |- context [free_user_pages cr3 (heap_bump s) n ?x] => set (s2 := x) end.
  destruct (free_pages_spec (Z.to_nat n) 0 cr3 root (heap_bump s) s2 k1 q fs Hi1 (lookup_weaken _ _ _ _ Hroot Hs1) eq_refl Hb1
              ltac:(lia) Hlo) as (Heq & _ & (p2 & Hp2 & _ & _ & Hab2) & Hl2); [lia|lia| |done|done|].
  { intros k f Hf. pose proof (lookup_lt_Some _ _ _ Hf). rewrite Z.add_0_l. split.
    - change (leaf s2 root ?w) with (leaf m1 root w). rewrite (Hlf root); [|done|unfold Vmm.is_user; lia]. rewrite Z.div_add by lia.
      replace (heap_bump s / 4096 + Z.of_nat k - heap_bump s / 4096) with (Z.of_nat k) by lia.
      rewrite decide_True by lia. by rewrite Nat2Z.id, Hf.
    - destruct (Hfree f) as [_ ?]; [by eapply list_elem_of_lookup_2|]. lia. }
  unfold free_user_pages. set (s3 := free_pages_loop _ _ _ _ _) in *.
  eexists _, p, p2. split; [reflexivity|]. cbn [pool set_ps heap_allocs vm]. split_and!; [done|done| | |].
  - rewrite Hab2, Habs. apply set_eq. intros f. rewrite elem_of_difference, elem_of_union, elem_of_list_to_set.
    split; [tauto|]. intros Hf. split; [by right|]. intros Hin. by destruct (Hfree f Hin).
  - rewrite Heq. cbn [heap_allocs set_pool set_vm s2 set_ps set_heap]. unfold swap_remove.
    rewrite last_snoc, length_app. cbn [length]. replace (length (heap_allocs s) + 1 - 1)%nat with (length (heap_allocs s)) by lia.
    rewrite insert_app_r_alt, Nat.sub_diag by lia. cbn. by rewrite take_app_length.
  - intros root' w Hr' Hw'. rewrite (Hl2 root' w (lookup_weaken _ _ _ _ Hr' Hs1) Hw').
    change (leaf s2 root' w) with (leaf m1 root' w). rewrite (Hlf root' w Hr' Hw').
    pose proof (Z.div_mod w 4096 ltac:(lia)). pose proof (Z.mod_pos_bound w 4096 ltac:(lia)).
    pose proof (Z.div_mod (heap_bump s) 4096 ltac:(lia)).
    destruct (decide (root' = root)) as [->|]; [|by rewrite !decide_False by tauto].
    destruct (decide (heap_bump s <= w < heap_bump s + page_align size)).
    + rewrite (decide_True (P := root = root /\ heap_bump s <= w < _)) by tauto. by rewrite decide_True by lia.
    + rewrite (decide_False (P := root = root /\ heap_bump s <= w < _)) by tauto. by rewrite !decide_False by lia.
Qed.
End Heap.

(** * The allocator behind it: the kernel heap *)

#[export] Instance heap_blocks : BlockAllocator HeapTables := {|
  ba_alloc size h :=
    match Allocator.alloc (ht_cpu h) size 4096 (ht_heap h) with
    | (Some p, heap') =>
        let b := match Allocator.headers heap' !! (p - Allocator.HEADER) with
                 | Some hd => Allocator.mkNode (Allocator.block_addr hd) (Allocator.block_size hd)
                 | None => Allocator.mkNode 0 0
                 end in
        (Some p, mkHeapTables (ht_start h) (ht_size h) (ht_cpu h) heap' (Allocator.mkLive p size b :: ht_live h))
    | (None, heap') => (None, mkHeapTables (ht_start h) (ht_size h) (ht_cpu h) heap' (ht_live h))
    end;
  ba_dealloc p h :=
    match Allocator.dealloc (ht_cpu h) p (ht_heap h) with
    | Some heap' => mkHeapTables (ht_start h) (ht_size h) (ht_cpu h) heap' (retain (fun e => negb (Allocator.l_ptr e =? p)) (ht_live h))
    | None => h
    end;
|}.

(** * Cleanup of DMA buffers and register windows *)

Section Cleanup.
Context {A : Type} `{TA : TableAllocator A} `{BA : BlockAllocator A}.

Lemma release_dma_allocs (p : Z) (l : list DmaAlloc) (s : State A) :
  dma_allocs (foldl (release_dma p) s l) = dma_allocs s.
Proof.
  revert s. induction l as [|a l IH]; intros s; [done|]. cbn [foldl]. rewrite IH. unfold release_dma.
  by destruct (user_cr3 p (ps s)).
Qed.
Lemma release_mmio_allocs (p : Z) (l : list PciMmioAlloc) (s : State A) :
  mmio_allocs (foldl (release_mmio p) s l) = mmio_allocs s.
Proof.
  revert s. induction l as [|a l IH]; intros s; [done|]. cbn [foldl]. rewrite IH. unfold release_mmio.
  by destruct (user_cr3 p (ps s)).
Qed.

(** Exit leaves no DMA buffer and no register window of the process on record, and
    those of every other process in place. *)
Theorem free_dma_for_pid_spec (p : Z) (s : State A) (a : DmaAlloc) :
  a ∈ dma_allocs (free_dma_for_pid p s) <-> a ∈ dma_allocs s /\ d_pid a <> p.
Proof.
  unfold free_dma_for_pid. pose proof (drain_spec (fun a => d_pid a =? p) (dma_allocs s)) as Hd.
  destruct (drain _ _) as [gone rest]. rewrite release_dma_allocs. cbn [dma_allocs set_dma].
  destruct Hd as (Hp & Hg & Hr). rewrite Hp, elem_of_app. rewrite Forall_forall in Hg, Hr. split.
  - intros Ha. specialize (Hr a Ha). zbool. tauto.
  - intros [[Ha|Ha] Hne]; [|done]. specialize (Hg a Ha). zbool. done.
Qed.
Theorem free_pci_mmio_for_pid_spec (p : Z) (s : State A) (a : PciMmioAlloc) :
  a ∈ mmio_allocs (free_pci_mmio_for_pid p s) <-> a ∈ mmio_allocs s /\ m_pid a <> p.
Proof.
  unfold free_pci_mmio_for_pid. pose proof (drain_spec (fun a => m_pid a =? p) (mmio_allocs s)) as Hd.
  destruct (drain _ _) as [gone rest]. rewrite release_mmio_allocs. cbn [mmio_allocs set_mmio].
  destruct Hd as (Hp & Hg & Hr). rewrite Hp, elem_of_app. rewrite Forall_forall in Hg, Hr. split.
  - intros Ha. specialize (Hr a Ha). zbool. tauto.
  - intros [[Ha|Ha] Hne]; [|done]. specialize (Hg a Ha). zbool. done.
Qed.
End Cleanup.

Module Example.
(** Process 5 runs on CPU 0 in the address space of [VmmExample]; 64 free frames. *)
Definition ctx : Thread.UserContext := Thread.entry_context 4198400 8192 VmmExample.root0 0 0.
Definition thr : Thread.Thread := Thread.mkThread 1 5 Thread.Running 0 ctx 0 0 false 0 0 Thread.WNone Thread.User 0.
Definition proc5 (l : Thread.PrivilegeLevel) (mem : Z) : Process :=
  mkProc 5 Thread.Running (fixed_name [97]) 0 0 0 0 mem false false false false false false 0 0 0 l (Some 1) [1].
Definition sched : Scheduler.SState :=
  Scheduler.mkSState (Some 5 :: replicate 15 None) (Some 1 :: replicate 15 None) (replicate 16 None) (replicate 16 false).
Definition procs1 (l : Thread.PrivilegeLevel) (others : list Process) : PState :=
  mkPState (Thread.mkTState [thr] 2 true 0 (replicate 16 0) ∅ Allocator.ALLOCATOR) sched (kernel_process :: proc5 l 0 :: others) 7 true.
Definition frames : Pmm.Pmm := Pmm.mkPmm (replicate 8 0) 64 64 0.
Definition st0 : State HeapTables :=
  mkState VmmExample.space0 (Some frames) ∅ (procs1 Thread.User []) HEAP_VA_BASE [] DMA_VA_BASE [] PCI_MMIO_VA_BASE [] (Pci.mkState 0 ∅).

Lemma pool_frames_wf : Pmm.wf frames.
Proof. split; simpl; [done| |lia]. repeat constructor; lia. Qed.

Lemma st0_inv : heap_inv st0 VmmExample.kinds0 ∅.
Proof.
  destruct VmmExample.space0_inv as [Hi Hroot]. split.
  - exact Hi.
  - exists frames. split_and!; [done|apply pool_frames_wf|done|]. intros v f. by rewrite lookup_empty.
  - intros v v' f. by rewrite lookup_empty.
  - split; [reflexivity|done].
  - intros i cr3. destruct (decide (i = 0)) as [->|H0]; [intros Hx; vm_compute in Hx; done|].
    destruct (decide (i = 5)) as [->|H5]; [intros Hx; vm_compute in Hx; injection Hx as <-; intros _; exact Hroot|].
    assert (find i (ps st0) = None) as Hn.
    { apply find_first_None. intros x [->|[->|[]%elem_of_nil]%elem_of_cons]%elem_of_cons; apply Z.eqb_neq; cbn; lia. }
    unfold user_cr3, main_tid. by rewrite Hn.
  - intros a. by rewrite elem_of_nil.
  - intros i j a b _ Ha. done.
Qed.

Definition st1 : State HeapTables := snd (sys_heap_alloc 1 0 5000 st0).
Lemma st1_run : sys_heap_alloc 1 0 5000 st0 = (Some HEAP_VA_BASE, st1).
Proof. unfold st1. apply (pair_fst (sys_heap_alloc 1 0 5000 st0) (Some HEAP_VA_BASE)). vm_compute. reflexivity. Qed.
Lemma st1_ok : heap_ok st1.
Proof.
  apply (heap_alloc_inv 1 0 5000 st0 VmmExample.kinds0 ∅ 5 VmmExample.root0 HEAP_VA_BASE st1);
    [exact st0_inv|done|reflexivity|vm_compute; reflexivity|done|vm_compute; done|exact st1_run].
Qed.

Lemma heap_alloc_spec_witness :
  heap_alloc_post st0 VmmExample.kinds0 5 VmmExample.root0 (page_align 5000 / 4096) HEAP_VA_BASE st1.
Proof.
  destruct VmmExample.space0_inv as [Hi Hroot].
  pose proof (heap_alloc_spec 0 0 5000 st0 VmmExample.kinds0 5 VmmExample.root0 VmmExample.root0 frames) as H.
  rewrite st1_run in H. apply H;
    [done|reflexivity|vm_compute; reflexivity|exact Hi|exact Hroot|reflexivity|reflexivity|apply pool_frames_wf|done|reflexivity|done|vm_compute; done].
Defined.

Lemma heap_alloc_free_roundtrip_witness :
  exists s2 p p2, sys_heap_free 0 HEAP_VA_BASE st1 = (0, s2) /\ pool st0 = Some p /\ pool s2 = Some p2 /\
    Pmm.abs p2 = Pmm.abs p /\ heap_allocs s2 = heap_allocs st0 /\
    forall root w, VmmExample.kinds0 !! root = Some (root, []) -> Vmm.is_user w ->
      Vmm.leaf (Vmm.mem (vm s2)) root w =
      if decide (root = Z.land VmmExample.root0 Vmm.ADDR_MASK /\ HEAP_VA_BASE <= w < HEAP_VA_BASE + page_align 5000)
      then None else Vmm.leaf (Vmm.mem (vm st0)) root w.
Proof.
  apply (heap_alloc_free_roundtrip 1 0 5000 st0 VmmExample.kinds0 ∅ 5 VmmExample.root0 HEAP_VA_BASE st1);
    [exact st0_inv|done|reflexivity|vm_compute; reflexivity|done|vm_compute; done|exact st1_run|done].
Defined.

Definition st2 : State HeapTables := snd (sys_heap_alloc 1 0 4096 st1).
Lemma st2_run : sys_heap_alloc 1 0 4096 st1 = (Some (HEAP_VA_BASE + 8192), st2).
Proof. unfold st2. apply (pair_fst (sys_heap_alloc 1 0 4096 st1) (Some (HEAP_VA_BASE + 8192))). vm_compute. reflexivity. Qed.


Lemma free_heap_for_pid_spec_witness :
  let s' := free_heap_for_pid 5 st1 in
  heap_ok s' /\ forall a, a ∈ heap_allocs s' <-> a ∈ heap_allocs st1 /\ h_pid a <> 5.
Proof. apply (free_heap_for_pid_spec 5 st1 st1_ok). Defined.

(** Every frame in use, and a bigger process 6. *)
Definition full : Pmm.Pmm := Pmm.mkPmm [255] 8 8 0.
Definition proc6 : Process := mkProc 6 Thread.Sleeping (fixed_name [98]) 0 0 0 0 4096 false false false false false false 0 0 0 Thread.User None [].
Definition st_full : State HeapTables := set_pool (Some full) (set_ps (procs1 Thread.User [proc6]) st0).

Lemma oom_retry_spins_witness :
  exists s', get_frame 1000 5 VmmExample.root0 st_full = (None, s') /\ pool s' = Some full /\ oom_victim 0 (ps s') = Some 6.
Proof.
  apply (oom_retry_spins 1000 5 VmmExample.root0 6 st_full full); [reflexivity| | |reflexivity|done].
  - split; simpl; [done| |lia]. repeat constructor; lia.
  - intros f Hf. unfold Pmm.frame_ok in Hf. simpl in Hf.
    assert (f = 0 \/ f = 1 \/ f = 2 \/ f = 3 \/ f = 4 \/ f = 5 \/ f = 6 \/ f = 7) as Hc by lia.
    by repeat (destruct Hc as [->|Hc]; [reflexivity|]); subst.
Defined.

(** A driver asks for two pages of DMA memory that straddle a 2 MiB boundary, and the
    second page table cannot be allocated: the call fails and frees the buffer, but the
    first page stays mapped, writable, to the freed kernel memory. *)
Definition small : Vmm.State HeapTables :=
  let t0 := mkHeapTables 1048576 57344 0 (Allocator.init 1048576 57344 Allocator.ALLOCATOR) [] in
  snd (Vmm.create_address_space (Vmm.mkState ∅ (snd (ta_alloc t0)) 1052672 1052672)).
Definition edge : Z := DMA_VA_BASE + 2097152 - 4096.
Definition st_dma : State HeapTables :=
  mkState small (Some frames) ∅ (procs1 Thread.Driver []) HEAP_VA_BASE [] edge [] PCI_MMIO_VA_BASE [] (Pci.mkState 0 ∅).

Theorem dma_alloc_leaves_mapping :
  let '(r, _, s') := sys_dma_alloc 0 8192 0 ∅ st_dma in
  r = u64_max /\ dma_allocs s' = [] /\
  exists phys, Vmm.translate VmmExample.root0 edge (Vmm.mem (vm s')) = Some phys /\
    Vmm.user_accessible VmmExample.root0 edge true (Vmm.mem (vm s')) = true /\
    Forall (fun e => Allocator.l_ptr e <> phys) (ht_live (Vmm.tables (vm s'))).
Proof. vm_compute. split_and!; [done..|]. eexists. split_and!; [reflexivity|reflexivity|]. repeat constructor; done. Qed.
End Example.

End Umem.
