(* ===== verification/SysFile.v ===== *)
(** File, console and waiting system calls: [sys_open], [sys_close], [sys_create],
    [sys_unlink], [sys_mkdir], [sys_rmdir], [sys_read], [sys_try_read], [sys_write],
    [sys_ioctl], [sys_readdir], [sys_wait], [sys_sleep] and [print_user_bytes] of
    [crates/kernel/src/syscall/runtime.rs].

    The calls run over the descriptor tables of [Fd.v] (whose world holds the pipes,
    the threads and user memory), the file nodes of [Vfs.v], the keyboard rings of
    [Keyboard.v] and the process table.  What the drivers behind device descriptors do
    is an interface, [DeviceOps]: the operations table of every registered driver
    over the drivers' state [D] and the process table. *)
From stdpp Require Import base sets list numbers option gmap.
From S2P Require Import Prelude Str Vmm Uaccess Thread Scheduler Process Pipe Fd Vfs Keyboard.

Open Scope Z_scope.

(** [devfs::DeviceOps], for the table numbered [ops].  A read returns the bytes it puts
    into the buffer of the given length. *)
Class DeviceOps (D : Type) := {
  dev_open : Z -> D * Process.PState -> Z * (D * Process.PState);
  dev_close : Z -> Z -> D * Process.PState -> D * Process.PState;
  dev_read : Z -> Z -> nat -> D * Process.PState -> list Z * (D * Process.PState);
  dev_write : Z -> Z -> list Z -> D * Process.PState -> nat * (D * Process.PState);
  dev_ioctl : Z -> Z -> Z -> Z -> D * Process.PState -> Z * (D * Process.PState);
}.

Module SysFile.
Import Process.Process.

Definition BLOCK_TO_SCHEDULER : Z := u64_max - 2.
Definition READDIR_NAME_LEN : nat := 32.
Definition READDIR_CAP : nat := 64.
Definition CHUNK : nat := Z.to_nat 8192.
Definition PRINT_CHUNK : nat := 256.
#[global] Arguments CHUNK : simpl never.
#[global] Arguments PRINT_CHUNK : simpl never.
#[global] Arguments READDIR_CAP : simpl never.

Section Ops.
Context {D : Type} `{DeviceOps D}.

Record State := mkState {
  nodes : list Vfs.Slot;
  registry : Vfs.Registry;
  fds : Fd.State;
  kbd : Keyboard.Keys;
  owner : option Z;             (* [fb_owner::OWNER] *)
  procs : PState;               (* the process table; its threads are the world's *)
  dev : D;
  screen : list Z;              (* bytes given to [console::screen_print] *)
  serial : list Z;              (* bytes given to [serial_print!] *)
  verbose : bool }.

Definition set_nodes (n : list Vfs.Slot) (s : State) : State :=
  mkState n (registry s) (fds s) (kbd s) (owner s) (procs s) (dev s) (screen s) (serial s) (verbose s).
Definition set_fds (f : Fd.State) (s : State) : State :=
  mkState (nodes s) (registry s) f (kbd s) (owner s) (procs s) (dev s) (screen s) (serial s) (verbose s).
Definition set_kbd (k : Keyboard.Keys) (s : State) : State :=
  mkState (nodes s) (registry s) (fds s) k (owner s) (procs s) (dev s) (screen s) (serial s) (verbose s).
Definition set_procs (p : PState) (s : State) : State :=
  mkState (nodes s) (registry s) (fds s) (kbd s) (owner s) p (dev s) (screen s) (serial s) (verbose s).
Definition set_dev (d : D) (s : State) : State :=
  mkState (nodes s) (registry s) (fds s) (kbd s) (owner s) (procs s) d (screen s) (serial s) (verbose s).
Definition print (fb ser : list Z) (s : State) : State :=
  mkState (nodes s) (registry s) (fds s) (kbd s) (owner s) (procs s) (dev s) (screen s ++ fb) (serial s ++ ser) (verbose s).

Definition world (s : State) : Pipe.State := Fd.world (fds s).
Definition set_world (w : Pipe.State) (s : State) : State :=
  set_fds (Fd.mkState (Fd.tables (fds s)) w (Fd.dev_closed (fds s))) s.

(** The process table with the current threads, and back. *)
Definition view (s : State) : PState := set_ts (Pipe.tst (world s)) (procs s).
Definition set_view (p : PState) (s : State) : State :=
  let w := world s in
  set_world (Pipe.mkState (Pipe.pipes w) (ts p) (Pipe.tables w) (Pipe.active_cr3 w) (Pipe.umem w)) (set_procs p s).
Definition on_view (f : PState -> PState) (s : State) : State := set_view (f (view s)) s.
Definition on_dev {R : Type} (f : D * PState -> R * (D * PState)) (s : State) : R * State :=
  let '(r, (d, p)) := f (dev s, view s) in (r, set_view p (set_dev d s)).

(** The caller and its memory. *)
Definition caller (cpu : nat) (s : State) : Z := current_pid cpu (procs s).
Definition user_bytes (s : State) : gmap Z Z := default ∅ (Pipe.umem (world s) !! Pipe.active_cr3 (world s)).
Definition set_user_bytes (b : gmap Z Z) (s : State) : State :=
  let w := world s in
  set_world (Pipe.mkState (Pipe.pipes w) (Pipe.tst w) (Pipe.tables w) (Pipe.active_cr3 w) (<[Pipe.active_cr3 w := b]> (Pipe.umem w))) s.
Definition validate_range (ptr len : Z) (write : bool) (s : State) : bool :=
  bool_decide (Uaccess.validate_range_in (Pipe.active_cr3 (world s)) ptr len write (Pipe.tables (world s)) = Some true).
Definition copy_to_user (ptr : Z) (b : list Z) (s : State) : State := set_user_bytes (Uaccess.store (user_bytes s) ptr b) s.
Definition copy_from_user (ptr len : Z) (s : State) : list Z := Uaccess.byte_run (user_bytes s) ptr len.
Definition read_str (ptr len : Z) (s : State) : option (list Z) :=
  Uaccess.read_str (Pipe.active_cr3 (world s)) (Pipe.tables (world s)) (user_bytes s) ptr len.

(** ** Paths *)

Definition read_user_path (ptr len : Z) (s : State) : option (list Z) :=
  if (ptr =? 0) || (len =? 0) || (256 <? len) then None else read_str ptr len s.

Definition alloc_fd (cpu : nat) (e : Fd.FdEntry) (s : State) : option nat * State :=
  let '(o, f) := Fd.alloc_fd (caller cpu s) e (fds s) in (o, set_fds f s).
Definition fd_number (o : option nat) : Z := match o with Some fd => Z.of_nat fd | None => u64_max end.

Definition sys_create (cpu : nat) (ptr len : Z) (s : State) : Z * State :=
  match read_user_path ptr len s with
  | None => (u64_max, s)
  | Some path =>
      let '(h, s) :=
        match Vfs.create path (nodes s) with
        | (Ok (id, g), n) => (Some (Z.of_nat id, g), set_nodes n s)
        | (Err Vfs.AlreadyExists, n) =>
            let s := set_nodes n s in
            match Vfs.lookup path (registry s) (nodes s) with
            | Ok (Vfs.VFile node g _) => (Some (node, g), set_nodes (Vfs.truncate (Z.to_nat node) g (nodes s)) s)
            | _ => (None, s)
            end
        | (Err _, n) => (None, set_nodes n s)
        end in
      match h with
      | None => (u64_max, s)
      | Some (node, g) => let '(o, s) := alloc_fd cpu (Fd.File node g 0) s in (fd_number o, s)
      end
  end.

(** [unlink], [mkdir] and [rmdir]: [map_or(u64::MAX, |_| 0)]. *)
Definition path_call (f : list Z -> list Vfs.Slot -> Result unit Vfs.FsError * list Vfs.Slot) (ptr len : Z) (s : State) : Z * State :=
  match read_user_path ptr len s with
  | None => (u64_max, s)
  | Some path =>
      match f path (nodes s) with
      | (Ok _, n) => (0, set_nodes n s)
      | (Err _, n) => (u64_max, set_nodes n s)
      end
  end.
Definition sys_unlink : Z -> Z -> State -> Z * State := path_call Vfs.unlink.
Definition sys_mkdir : Z -> Z -> State -> Z * State := path_call Vfs.mkdir.
Definition sys_rmdir : Z -> Z -> State -> Z * State := path_call Vfs.rmdir.

Definition sys_open (cpu : nat) (ptr len : Z) (s : State) : Z * State :=
  match read_user_path ptr len s with
  | None => (u64_max, s)
  | Some path =>
      match Vfs.lookup path (registry s) (nodes s) with
      | Ok (Vfs.VDevice ops) =>
          let '(handle, s) := on_dev (dev_open ops) s in
          if handle =? u64_max then (u64_max, s)
          else
            let '(o, s) := alloc_fd cpu (Fd.Device ops handle) s in
            match o with
            | Some fd => (Z.of_nat fd, s)
            | None => (u64_max, snd (on_dev (fun x => (tt, dev_close ops handle x)) s))
            end
      | Ok (Vfs.VFile node g _) => let '(o, s) := alloc_fd cpu (Fd.File node g 0) s in (fd_number o, s)
      | Ok Vfs.VDir => (u64_max, s)
      | Err _ => (u64_max, s)
      end
  end.

Definition sys_close (cpu : nat) (fd : Z) (s : State) : Z * State :=
  let '(ok, f) := Fd.free_fd (caller cpu s) (Z.to_nat fd) (fds s) in
  (if ok then 0 else u64_max, set_fds f s).

(** ** The console *)

Definition console_writable (cpu : nat) (s : State) : bool :=
  match owner s with None => true | Some o => o =? caller cpu s end.
Definition kbd_locked_out (cpu : nat) (s : State) : bool :=
  match owner s with Some o => negb (o =? caller cpu s) | None => false end.

(** One turn: the text of the next chunk, and how many bytes it takes. *)
Definition next_chunk (rest : list Z) : list Z * nat :=
  let chunk := take PRINT_CHUNK rest in
  if Str.utf8_valid chunk then (chunk, length chunk)
  else match Str.valid_up_to chunk with O => ([], length chunk) | v => (take v chunk, v) end.

Fixpoint print_loop (fuel : nat) (rest : list Z) (do_fb : bool) (s : State) : State :=
  match fuel, rest with
  | O, _ | _, [] => s
  | S n, _ =>
      let '(text, consumed) := next_chunk rest in
      print_loop n (drop consumed rest) do_fb (print (if do_fb then text else []) (if verbose s then text else []) s)
  end.
(** Every turn consumes a byte. *)
Definition print_user_bytes (ptr len : Z) (do_fb : bool) (s : State) : State :=
  print_loop (Z.to_nat len) (copy_from_user ptr len s) do_fb s.

(** ** Reading and writing *)

Definition get_raw (s : State) : option Z * State :=
  let '(o, r) := Keyboard.ring_get Keyboard.BUF_SIZE (Keyboard.BUF (kbd s)) in (o, set_kbd (Keyboard.with_BUF r (kbd s)) s).

Definition on_pipes (f : list (option Pipe.PipeState) -> list (option Pipe.PipeState)) (s : State) : State :=
  set_world (Pipe.set_pipes (f (Pipe.pipes (world s))) (world s)) s.

(** Read a pipe into the caller's buffer. *)
Definition pipe_into (id ptr len : Z) (s : State) : Z * State :=
  let '(n, kbuf, ps) := Pipe.read id (replicate (Z.to_nat len) 0) (Pipe.pipes (world s)) in
  (Z.of_nat n, copy_to_user ptr (take n kbuf) (on_pipes (fun _ => ps) s)).

Definition sys_try_read (cpu : nat) (fd ptr len : Z) (s : State) : Z * State :=
  if (ptr =? 0) || (len =? 0) then (0, s)
  else if negb (validate_range ptr len true s) then (u64_max, s)
  else
  match Fd.get_fd (caller cpu s) (Z.to_nat fd) (fds s) with
  | Some Fd.ConsoleIn =>
      if kbd_locked_out cpu s then (0, s)
      else match get_raw s with
           | (Some ch, s) => (1, copy_to_user ptr [ch] s)
           | (None, s) => (0, s)
           end
  | Some (Fd.PipeRead id) =>
      if Pipe.is_empty id (Pipe.pipes (world s))
      then (if Pipe.writer_closed id (Pipe.pipes (world s)) then u64_max else 0, s)
      else pipe_into id ptr len s
  | _ => (u64_max, s)
  end.

(** [set_wait_target] and [set_sleeping] of the current process, if there is one. *)
Definition block_on (cpu : nat) (w : Thread.WaitTarget) (s : State) : State :=
  match Scheduler.current_user_pid cpu (ss (procs s)) with
  | Some p => on_view (fun v => set_sleeping p (set_wait_target p w v)) s
  | None => s
  end.

(** The chunked loop over a device read: the bytes delivered so far. *)
Fixpoint dev_read_loop (fuel : nat) (ops handle : Z) (remain : nat) (s : State) : list Z * State :=
  match fuel with
  | O => ([], s)
  | S f =>
      if (remain =? 0)%nat then ([], s)
      else
        let n := Nat.min remain CHUNK in
        let '(b, s) := on_dev (dev_read ops handle n) s in
        if (length b =? 0)%nat then ([], s)
        else if (length b <? n)%nat then (b, s)
        else let '(more, s) := dev_read_loop f ops handle (remain - length b) s in (b ++ more, s)
  end.

Fixpoint dev_write_loop (fuel : nat) (ops handle : Z) (src : list Z) (total : nat) (s : State) : nat * State :=
  match fuel with
  | O => (total, s)
  | S f =>
      if (length src =? 0)%nat then (total, s)
      else
        let n := Nat.min (length src) CHUNK in
        let '(written, s) := on_dev (dev_write ops handle (take n src)) s in
        if (written =? 0)%nat then (total, s)
        else if (written <? n)%nat then ((total + written)%nat, s)
        else dev_write_loop f ops handle (drop written src) (total + written) s
  end.

Definition set_fd (cpu : nat) (fd : Z) (e : Fd.FdEntry) (s : State) : State :=
  set_fds (snd (Fd.set_fd (caller cpu s) (Z.to_nat fd) e (fds s))) s.

Definition sys_read (cpu : nat) (fd ptr len : Z) (s : State) : Z * State :=
  if (ptr =? 0) || (len =? 0) then (0, s)
  else if negb (validate_range ptr len true s) then (u64_max, s)
  else
  match Fd.get_fd (caller cpu s) (Z.to_nat fd) (fds s) with
  | Some Fd.ConsoleIn =>
      let '(ch, s) := if kbd_locked_out cpu s then (None, s) else get_raw s in
      match ch with
      | Some ch => (1, copy_to_user ptr [ch] s)
      | None => (BLOCK_TO_SCHEDULER, block_on cpu Thread.WKeyboard s)
      end
  | Some (Fd.PipeRead id) =>
      if negb (Pipe.is_empty id (Pipe.pipes (world s))) then pipe_into id ptr len s
      else if Pipe.writer_closed id (Pipe.pipes (world s)) then (0, s)
      else (BLOCK_TO_SCHEDULER, block_on cpu (Thread.WPipeRead id ptr len) s)
  | Some (Fd.File node g offset) =>
      let '(n, kbuf) := Vfs.read_at (Z.to_nat node) g (Z.to_nat offset) (replicate (Z.to_nat len) 0) (nodes s) in
      if (n =? 0)%nat then (0, s)
      else (Z.of_nat n, set_fd cpu fd (Fd.File node g (offset + Z.of_nat n)) (copy_to_user ptr (take n kbuf) s))
  | Some (Fd.Device ops handle) =>
      let '(b, s) := dev_read_loop (Z.to_nat len) ops handle (Z.to_nat len) s in
      (Z.of_nat (length b), copy_to_user ptr b s)
  | _ => (u64_max, s)
  end.

Definition sys_write (cpu : nat) (fd ptr len : Z) (s : State) : Z * State :=
  if (ptr =? 0) || (len =? 0) then (0, s)
  else if negb (validate_range ptr len false s) then (u64_max, s)
  else
  let src := copy_from_user ptr len s in
  match Fd.get_fd (caller cpu s) (Z.to_nat fd) (fds s) with
  | Some Fd.ConsoleOut =>
      let do_fb := match owner s with None => true | Some o => o =? caller cpu s end in
      (len, print_user_bytes ptr len do_fb s)
  | Some (Fd.PipeWrite id) =>
      let '(n, ps) := Pipe.write id src (Pipe.pipes (world s)) in
      let s := on_pipes (fun _ => ps) s in
      (Z.of_nat n, set_world (Pipe.notify_pipe_readers id (world s)) s)
  | Some (Fd.File node g offset) =>
      let '(n, ns) := Vfs.write_at (Z.to_nat node) g (Z.to_nat offset) src (nodes s) in
      (Z.of_nat n, set_fd cpu fd (Fd.File node g (offset + Z.of_nat n)) (set_nodes ns s))
  | Some (Fd.Device ops handle) =>
      let '(total, s) := dev_write_loop (Z.to_nat len) ops handle src 0 s in (Z.of_nat total, s)
  | _ => (u64_max, s)
  end.

(** [BLOCK_TO_SCHEDULER as i64]. *)
Definition BLOCK_I64 : Z := -3.
Definition sys_ioctl (cpu : nat) (fd cmd arg : Z) (s : State) : Z * State :=
  match Fd.get_fd (caller cpu s) (Z.to_nat fd) (fds s) with
  | Some (Fd.Device ops handle) =>
      let '(r, s) := on_dev (dev_ioctl ops handle cmd arg) s in
      (if r =? BLOCK_I64 then BLOCK_TO_SCHEDULER else wrap64 r, s)
  | _ => (u64_max, s)
  end.

(** ** Directories *)

(** A [UserDirEntry]: the kind and 32 bytes of name. *)
Definition dirent (kind : Z) (name : list Z) : list Z :=
  let b := take (READDIR_NAME_LEN - 1) name in kind :: b ++ replicate (READDIR_NAME_LEN - length b) 0.
Definition write_dirent (out : Z) (idx : nat) (kind : Z) (name : list Z) (s : State) : State :=
  if (READDIR_CAP <=? idx)%nat then s else copy_to_user (out + Z.of_nat idx * 33) (dirent kind name) s.
Fixpoint write_dirents (out : Z) (idx : nat) (l : list (Z * list Z)) (s : State) : State :=
  match l with [] => s | (kind, name) :: l' => write_dirents out (S idx) l' (write_dirent out idx kind name s) end.

(** [DirEntry::name]: the whole path, as far as the entry holds it. *)
Definition entry_name (e : Vfs.DirEntry) : list Z :=
  let path := take (Vfs.e_path_len e) (Vfs.e_path e) in if Str.utf8_valid path then path else [].
Definition entry_kind (e : Vfs.DirEntry) : Z := match Vfs.e_kind e with Vfs.FtDirectory => 1 | Vfs.FtFile => 0 end.
Definition empty_entry : Vfs.DirEntry := Vfs.mkEntry (replicate Vfs.PATH_CAP 0) 0 Vfs.FtFile 0.

Definition DEV : list Z := [47; 100; 101; 118].
Definition sys_readdir (ptr len out_ptr : Z) (s : State) : Z * State :=
  if out_ptr =? 0 then (u64_max, s)
  else if negb (validate_range out_ptr (Z.of_nat READDIR_CAP * 33) true s) then (u64_max, s)
  else
  match (if (ptr =? 0) || (len =? 0) then Some Vfs.ROOT else read_str ptr len s) with
  | None => (u64_max, s)
  | Some path =>
      if bool_decide (path = DEV) || bool_decide (path = DEV ++ [Str.SLASH]) then
        let l := (fun name => (2, default name (Str.strip_prefix (DEV ++ [Str.SLASH]) name))) <$> Vfs.for_each (registry s) in
        (Z.of_nat (Nat.min (length l) READDIR_CAP), write_dirents out_ptr 0 l s)
      else
        match Vfs.read_dir path (replicate READDIR_CAP empty_entry) (nodes s) with
        | (Err _, _) => (u64_max, s)
        | (Ok count, entries) =>
            let l := (fun e => (entry_kind e, entry_name e)) <$> take count entries in
            let l := if bool_decide (path = Vfs.ROOT) then l ++ [(1, drop 1 DEV)] else l in
            (Z.of_nat (Nat.min (length l) READDIR_CAP), write_dirents out_ptr 0 l s)
        end
  end.

(** ** Waiting *)

(** The two steps of [sys_wait]: the test, and the block if it asks for one. *)
Definition wait_test (target : Z) (p : PState) : bool :=
  match find target p with
  | Some x => match p_state x with Thread.Exited => false | _ => true end
  | None => false
  end.
Definition sys_wait (cpu : nat) (target : Z) (p : PState) : Z * PState :=
  if wait_test target p then (BLOCK_TO_SCHEDULER, block_current cpu (Thread.WPid target) p) else (1, p).

Definition SLEEP_UNIT_US : Z := 1.
Definition SLEEP_UNIT_TICK : Z := 2.
(** The duration in time-stamp ticks; [None] when the call returns at once. *)
Definition sleep_ticks (tsc_per_ms duration unit : Z) : option Z :=
  if unit =? SLEEP_UNIT_US then
    match checked_mul tsc_per_ms duration with
    | Some v => if v / 1000 =? 0 then None else Some (v / 1000)
    | None => None
    end
  else checked_mul tsc_per_ms duration.
Definition sys_sleep (cpu : nat) (now tsc_per_ms duration unit : Z) (p : PState) : Z * PState :=
  if duration =? 0 then (0, p)
  else if unit =? SLEEP_UNIT_TICK then (BLOCK_TO_SCHEDULER, block_current cpu Thread.WTick p)
  else match sleep_ticks tsc_per_ms duration unit with
       | None => (0, p)
       | Some t => (BLOCK_TO_SCHEDULER, block_current cpu (Thread.WTimer (wrap64 (now + t))) p)
       end.
End Ops.
#[global] Arguments State D : clear implicits.

(** * Printing *)

Section Facts.
Context {D : Type} `{DeviceOps D}.
Implicit Types (s : State D).

Lemma print_print (a b c d : list Z) s : print c d (print a b s) = print (a ++ c) (b ++ d) s.
Proof. unfold print. cbn. by rewrite !(assoc_L (++)). Qed.

(** A turn of the loop on valid text takes whole characters, at least one. *)
Lemma next_chunk_spec (rest : list Z) :
  Str.utf8_valid rest = true -> rest <> [] ->
  exists k, next_chunk rest = (take k rest, k) /\ (0 < k <= length rest)%nat /\ Str.utf8_valid (drop k rest) = true.
Proof.
  intros Hv Hne. unfold next_chunk. destruct (Str.valid_up_to_take rest PRINT_CHUNK Hv) as (H1 & H2 & H3 & H4 & H5).
  specialize (H5 ltac:(unfold PRINT_CHUNK; lia) Hne). set (chunk := take PRINT_CHUNK rest) in *.
  assert (length chunk = Nat.min PRINT_CHUNK (length rest)) as Hl by (unfold chunk; apply length_take).
  destruct (Str.utf8_valid chunk) eqn:E.
  - exists (length chunk). pose proof (Str.valid_up_to_valid chunk E) as Hvu. rewrite Hvu in *. split_and!; [|lia|lia|done].
    f_equal. unfold chunk at 1. rewrite Hl. destruct (Nat.min_spec PRINT_CHUNK (length rest)) as [[? ->]|[? ->]]; [done|].
    by rewrite !take_ge by lia.
  - destruct (Str.valid_up_to chunk) as [|v] eqn:Ev; [lia|]. exists (S v). split_and!; [|lia|lia|done].
    f_equal. unfold chunk. rewrite take_take. f_equal. lia.
Qed.

Lemma print_loop_spec (fuel : nat) (rest : list Z) (do_fb : bool) s :
  Str.utf8_valid rest = true -> (length rest <= fuel)%nat ->
  print_loop fuel rest do_fb s = print (if do_fb then rest else []) (if verbose s then rest else []) s.
Proof.
  revert rest s. induction fuel as [|fuel IH]; intros rest s Hv Hl.
  { destruct rest; [|simpl in Hl; lia]. unfold print. cbn. destruct s. by destruct do_fb; cbn; destruct verbose0; rewrite !app_nil_r. }
  destruct rest as [|b rest'] eqn:Er; [unfold print; destruct s; by destruct do_fb; cbn; destruct verbose0; rewrite !app_nil_r|].
  rewrite <- Er in *. assert (rest <> []) as Hne by (by subst).
  destruct (next_chunk_spec rest Hv Hne) as (k & Hk & Hkl & Hd).
  assert (print_loop (S fuel) rest do_fb s =
          print_loop fuel (drop k rest) do_fb (print (if do_fb then take k rest else []) (if verbose s then take k rest else []) s)) as ->.
  { cbn [print_loop]. rewrite Hk, Er. done. }
  rewrite IH by (done || rewrite length_drop; lia). rewrite print_print.
  change (verbose (print _ _ s)) with (verbose s).
  destruct do_fb, (verbose s); by rewrite ?take_drop.
Qed.

(** Console output is exact.  For every valid UTF-8 text, whatever its length and
    wherever the 256-byte chunks cut its characters, [print_user_bytes] ends and has
    printed exactly that text, once and in order, on the screen (if the caller may draw)
    and on the serial line (if verbose). *)
Theorem print_exact (ptr len : Z) (do_fb : bool) s :
  let text := copy_from_user ptr len s in
  Str.utf8_valid text = true ->
  print_user_bytes ptr len do_fb s = print (if do_fb then text else []) (if verbose s then text else []) s.
Proof.
  intros text Hv. unfold print_user_bytes. apply print_loop_spec; [done|].
  unfold text, copy_from_user, Uaccess.byte_run. rewrite length_fmap, length_seqZ. lia.
Qed.

(** * Files through descriptors *)

Lemma length_from_user (ptr len : Z) s : length (copy_from_user ptr len s) = Z.to_nat len.
Proof. unfold copy_from_user, Uaccess.byte_run. by rewrite length_fmap, length_seqZ. Qed.

Lemma get_set_fd (pid : Z) (fd fd' : nat) (e x : Fd.FdEntry) (f : Fd.State) :
  Fd.get_fd pid fd f = Some x ->
  Fd.get_fd pid fd' (snd (Fd.set_fd pid fd e f)) = if decide (fd' = fd) then Some e else Fd.get_fd pid fd' f.
Proof.
  unfold Fd.get_fd, Fd.set_fd. destruct (Fd.table pid f) as [t|] eqn:Et; [|done]. simpl. intros Hx.
  pose proof (lookup_lt_Some _ _ _ Hx) as Hlt. rewrite (proj2 (Nat.ltb_lt fd (length t))) by done. cbn [snd].
  assert (Fd.table pid (Fd.set_table pid (<[fd:=e]> t) f) = Some (<[fd:=e]> t)) as ->.
  { unfold Fd.table, Fd.set_table. cbn. rewrite list_lookup_insert_eq; [done|]. unfold Fd.table in Et.
    destruct (Fd.tables f !! Z.to_nat pid) eqn:E; [|done]. by eapply lookup_lt_Some. }
  simpl. case_decide as Hd; [subst; by apply list_lookup_insert_eq|by rewrite list_lookup_insert_ne].
Qed.

Lemma other_tables (pid pid' : Z) (fd fd' : nat) (e : Fd.FdEntry) (f : Fd.State) :
  Z.to_nat pid' <> Z.to_nat pid -> Fd.get_fd pid' fd' (snd (Fd.set_fd pid fd e f)) = Fd.get_fd pid' fd' f.
Proof.
  intros Hne. unfold Fd.get_fd, Fd.set_fd. destruct (Fd.table pid f) as [t|]; [|done]. destruct (_ <? _)%nat; [|done].
  cbn [snd]. unfold Fd.table, Fd.set_table. cbn. by rewrite list_lookup_insert_ne.
Qed.

(** What a [sys_write] of [src] at a file descriptor does. *)
Definition file_write_post (cpu : nat) (fd : Z) (node g offset : Z) (n : Vfs.Node) (src : list Z) s (r : Z * State D) : Prop :=
  let '(ret, s') := r in
  let off := Z.to_nat offset in
  ret = Z.of_nat (length src) /\
  Vfs.live (nodes s') (Z.to_nat node) g = Some (Vfs.mkNode (Vfs.n_path n) false (Vfs.overwrite off src (Vfs.n_data n))) /\
  (forall id h, id <> Z.to_nat node -> Vfs.live (nodes s') id h = Vfs.live (nodes s) id h) /\
  (forall fd', Fd.get_fd (caller cpu s) fd' (fds s') =
     if decide (fd' = Z.to_nat fd) then Some (Fd.File node g (offset + Z.of_nat (length src)))
     else Fd.get_fd (caller cpu s) fd' (fds s)) /\
  (forall p fd', Z.to_nat p <> Z.to_nat (caller cpu s) -> Fd.get_fd p fd' (fds s') = Fd.get_fd p fd' (fds s)).

Lemma live_after_set (id : nat) (g : Z) (ns : list Vfs.Slot) (n n' : Vfs.Node) :
  Vfs.live ns id g = Some n ->
  Vfs.live (Vfs.set_node id (Some n') ns) id g = Some n' /\
  forall id' h, id' <> id -> Vfs.live (Vfs.set_node id (Some n') ns) id' h = Vfs.live ns id' h.
Proof.
  unfold Vfs.live, Vfs.set_node. destruct (ns !! id) as [[g0 o]|] eqn:E; [|done]. simpl.
  destruct (g0 =? g) eqn:Eg; [|done]. intros _. split.
  - rewrite list_lookup_alter_eq, E. simpl. by rewrite Eg.
  - intros id' h Hne. by rewrite list_lookup_alter_ne.
Qed.

(** Writing through a descriptor.  For an open file whose node is still the one the
    descriptor names, [sys_write] of a readable buffer returns its length, overwrites
    the file at the descriptor's position (zero-filling a gap), moves that position
    past what was written, and changes no other file and no other descriptor of any
    process. *)
Theorem sys_write_file_spec (cpu : nat) (fd ptr len node g offset : Z) (n : Vfs.Node) s :
  ptr <> 0 -> 0 < len -> validate_range ptr len false s = true ->
  Fd.get_fd (caller cpu s) (Z.to_nat fd) (fds s) = Some (Fd.File node g offset) ->
  Vfs.live (nodes s) (Z.to_nat node) g = Some n -> Vfs.n_dir n = false ->
  file_write_post cpu fd node g offset n (copy_from_user ptr len s) s (sys_write cpu fd ptr len s).
Proof.
  intros Hp Hl Hv Hfd Hlive Hd. unfold sys_write. rewrite (proj2 (Z.eqb_neq ptr 0)), (proj2 (Z.eqb_neq len 0)) by lia.
  cbn [orb]. rewrite Hv, Hfd. cbn [negb]. set (src := copy_from_user ptr len s). unfold Vfs.write_at. rewrite Hlive, Hd.
  cbn [file_write_post]. destruct (live_after_set _ g (nodes s) n (Vfs.mkNode (Vfs.n_path n) false (Vfs.overwrite (Z.to_nat offset) src (Vfs.n_data n))) Hlive) as [H1 H2].
  split_and!; [done|done|done| |].
  - intros fd'. by apply (get_set_fd _ (Z.to_nat fd) fd' _ _ (fds s) Hfd).
  - intros p fd' Hne. by apply other_tables.
Qed.

(** * Pipes through descriptors *)

Lemma user_bytes_copy (ptr : Z) (b : list Z) s :
  Uaccess.byte_run (user_bytes (copy_to_user ptr b s)) ptr (Z.of_nat (length b)) = b.
Proof.
  unfold copy_to_user, user_bytes, set_user_bytes, world, set_world. cbn. rewrite lookup_insert_eq. cbn.
  apply Uaccess.byte_run_store.
Qed.

(** What a [sys_read] of [len] bytes at a pipe's read end does. *)
Definition pipe_read_post (cpu : nat) (id ptr len : Z) s (r : Z * State D) : Prop :=
  let '(ret, s') := r in
  let held := match Pipe.slot id (Pipe.pipes (world s)) with Some p => Pipe.data p | None => [] end in
  let n := Nat.min (Z.to_nat len) (length held) in
  if decide (held = []) then
    Pipe.pipes (world s') = Pipe.pipes (world s) /\
    if Pipe.writer_closed id (Pipe.pipes (world s)) then ret = 0 /\ s' = s
    else ret = BLOCK_TO_SCHEDULER /\ s' = block_on cpu (Thread.WPipeRead id ptr len) s
  else
    ret = Z.of_nat n /\ 0 < ret /\
    Uaccess.byte_run (user_bytes s') ptr ret = take n held /\
    Pipe.slot id (Pipe.pipes (world s')) =
      (fun p => Pipe.mkPipe (drop n held) (Pipe.write_refs p) (Pipe.read_refs p)) <$> Pipe.slot id (Pipe.pipes (world s)) /\
    view s' = view s.

(** No pipe data is lost at the end of a stream.  [sys_read] on a pipe delivers
    buffered bytes, from the front, as long as there are any, even when every writer
    has closed; it reports the end of the stream only when the pipe is empty and no
    writer is left, and otherwise puts the caller to sleep on this pipe with its buffer
    recorded, leaving the pipe as it is. *)
Theorem sys_read_pipe_spec (cpu : nat) (fd id ptr len : Z) s :
  ptr <> 0 -> 0 < len -> validate_range ptr len true s = true -> 0 <= id ->
  Fd.get_fd (caller cpu s) (Z.to_nat fd) (fds s) = Some (Fd.PipeRead id) ->
  pipe_read_post cpu id ptr len s (sys_read cpu fd ptr len s).
Proof.
  intros Hp Hl Hv Hid Hfd. unfold sys_read. rewrite (proj2 (Z.eqb_neq ptr 0)), (proj2 (Z.eqb_neq len 0)) by lia.
  cbn [orb]. rewrite Hv, Hfd. cbn [negb]. unfold pipe_read_post, Pipe.is_empty.
  destruct (Pipe.slot id (Pipe.pipes (world s))) as [p|] eqn:Ep.
  - destruct (decide (Pipe.data p = [])) as [Hd|Hd].
    + rewrite bool_decide_eq_true_2 by done. cbn [negb].
      destruct (Pipe.writer_closed id _) eqn:Ew; [done|]. split; [|done].
      unfold block_on. by destruct (Scheduler.current_user_pid cpu (ss (procs s))).
    + rewrite bool_decide_eq_false_2 by done. cbn [negb]. unfold pipe_into, Pipe.read, Pipe.take_out.
      rewrite Ep, length_replicate. set (n := Nat.min (Z.to_nat len) (length (Pipe.data p))).
      assert (length (take n (Pipe.data p)) = n) as Hn by (rewrite length_take; lia).
      cbv beta iota zeta. rewrite ?Ep. cbv beta iota. fold n. rewrite Hn. rewrite take_app_le, take_ge by lia.
      assert (0 < n)%nat as Hn0 by (destruct (Pipe.data p); [done|simpl in *; lia]). split_and!; [done|lia| | |].
      * match goal with |- context [copy_to_user ptr ?b ?x] => pose proof (user_bytes_copy ptr b x) as Hub end. by rewrite Hn in Hub.
      * cbn. rewrite (Pipe.pipe_set_slot id id _ _ p Hid Hid Ep), Z.eqb_refl. done.
      * done.
  - cbn [negb]. unfold Pipe.writer_closed. rewrite Ep. cbv beta iota zeta. rewrite ?Ep. cbv beta iota. by rewrite decide_True by done.
Qed.

(** Updates of a process's main thread touch no other thread. *)
Lemma on_main_other (p t u : Z) (g : Z -> Thread.TState -> Thread.TState) (q : PState) :
  main_tid p q = Some t -> u <> t -> (forall x, Thread.find u (g t x) = Thread.find u x) ->
  Thread.find u (ts (on_main p g q)) = Thread.find u (ts q) /\ main_tid p (on_main p g q) = Some t.
Proof. intros Hm Hne Hg. unfold on_main. rewrite Hm. split; [apply Hg|exact Hm]. Qed.

(** The blocking reads put the process's main thread to sleep, whichever thread made
    the call: any other calling thread is left as it was, still running. *)
Theorem blocking_read_sleeps_main (cpu : nat) (w : Thread.WaitTarget) s (p t u : Z) :
  Scheduler.current_user_pid cpu (ss (procs s)) = Some p -> main_tid p (view s) = Some t -> u <> t ->
  Thread.find u (ts (view (block_on cpu w s))) = Thread.find u (ts (view s)).
Proof.
  intros Hc Hm Hne. unfold block_on. rewrite Hc. unfold on_view.
  change (ts (view (set_view ?q s))) with (ts q). set (q := view s) in *.
  destruct (on_main_other p t u (fun t => Thread.set_wait_target t w) q Hm Hne) as [H1 H2].
  { intros x. unfold Thread.set_wait_target. rewrite Thread.find_modify by done. by rewrite (proj2 (Z.eqb_neq u t)). }
  change (on_main p (fun t => Thread.set_wait_target t w) q) with (set_wait_target p w q) in H1, H2.
  unfold set_sleeping. set (q' := modify p _ (set_wait_target p w q)).
  assert (main_tid p q' = Some t) as Hm'.
  { rewrite <- H2. apply main_tid_key, keys_modify. intros x. by destruct (Thread.terminal (p_state x)). }
  destruct (on_main_other p t u Thread.set_sleeping q' Hm' Hne) as [H3 _].
  { intros x. unfold Thread.set_sleeping. rewrite Thread.find_modify by (intros y; by destruct (Thread.t_state y)).
    by rewrite (proj2 (Z.eqb_neq u t)). }
  rewrite H3. exact H1.
Qed.

(** A sleep whose length in time-stamp ticks does not fit 64 bits returns at once. *)
Theorem long_sleep_returns (cpu : nat) (now tsc_per_ms duration : Z) (p : PState) :
  0 < duration -> u64_bound <= tsc_per_ms * duration ->
  sys_sleep cpu now tsc_per_ms duration 0 p = (0, p) /\ sys_sleep cpu now tsc_per_ms duration SLEEP_UNIT_US p = (0, p).
Proof.
  intros Hd Hb. unfold sys_sleep, sleep_ticks. rewrite (proj2 (Z.eqb_neq duration 0)) by lia.
  assert (checked_mul tsc_per_ms duration = None) as ->; [|done].
  unfold checked_mul. split_if; zbool; [lia|done].
Qed.
End Facts.

Module Example.
(** No device drivers. *)
#[local] Instance no_devices : DeviceOps unit := {|
  dev_open _ x := (u64_max, x); dev_close _ _ x := x; dev_read _ _ _ x := ([], x);
  dev_write _ _ _ x := (0%nat, x); dev_ioctl _ _ _ _ x := (-1, x) |}.

(** Process 5 on CPU 0 in the space of [VmmExample], with the file "/a/b" at descriptor
    4 and a pipe holding three bytes, its writers gone, at descriptor 5; one page at
    [Vmm.USER_MIN] is mapped and starts with the bytes 65 66 67. *)
Definition page : Z := Vmm.USER_MIN.
Definition tab : list Fd.FdEntry :=
  [Fd.ConsoleIn; Fd.ConsoleOut; Fd.ConsoleOut; Fd.Empty; Fd.File 2 0 1; Fd.PipeRead 0].
Definition w : Pipe.State :=
  Pipe.mkState [Some (Pipe.mkPipe [7; 8; 9] 0 1)] (ts Process.Example.st) (Vmm.mem VmmExample.space1) VmmExample.root0
    (<[VmmExample.root0 := Uaccess.store ∅ page [65; 66; 67]]> ∅).
Definition st : State unit :=
  mkState Vfs.Example.nodes0 Vfs.empty_registry (Fd.mkState (replicate 5 None ++ [Some tab]) w [])
    (Keyboard.mkKeys (Keyboard.ring_new Keyboard.BUF_SIZE) (Keyboard.ring_new Keyboard.EBUF_SIZE) false false false false)
    None Process.Example.st tt [] [] true.

Lemma print_exact_witness : print_user_bytes page 3 true st = print [65; 66; 67] [65; 66; 67] st.
Proof. apply (print_exact page 3 true st). vm_compute. reflexivity. Defined.

Lemma sys_write_file_spec_witness :
  file_write_post 0 4 2 0 1 (Vfs.mkNode [47; 97; 47; 98] false [7; 8]) (copy_from_user page 3 st) st (sys_write 0 4 page 3 st).
Proof.
  apply (sys_write_file_spec 0 4 page 3 2 0 1 (Vfs.mkNode [47; 97; 47; 98] false [7; 8]) st);
    [done|lia|vm_compute; reflexivity|reflexivity|vm_compute; reflexivity|reflexivity].
Defined.

Lemma sys_read_pipe_spec_witness : pipe_read_post 0 0 page 2 st (sys_read 0 5 page 2 st).
Proof. apply (sys_read_pipe_spec 0 5 0 page 2 st); [done|lia|vm_compute; reflexivity|lia|reflexivity]. Defined.

(** Subsystems with nothing to release. *)
#[local] Instance no_effects : TeardownEffects := {| effect _ s := s |}.

(** Process 6 runs on CPU 0 and waits for process 5, which runs on CPU 1. *)
Definition waiting : PState :=
  mkPState (Thread.mkTState [Thread.mkThread 1 5 Thread.Running 0 Process.Example.ctx 0 0 false 0 0 Thread.WNone Thread.User 1;
                             Thread.mkThread 3 6 Thread.Running 0 Process.Example.ctx 0 0 false 0 0 Thread.WNone Thread.User 0]
              4 true 0 (replicate 16 0) ∅ Allocator.Allocator.ALLOCATOR)
    (Scheduler.mkSState (Some 6 :: Some 5 :: replicate 14 None) (Some 3 :: Some 1 :: replicate 14 None) (replicate 16 None) (replicate 16 false))
    [kernel_process; with_threads [1] Process.Example.proc; Process.Example.proc6] 7 true.

(** A wake-up can be lost.  [sys_wait] tests whether the process still runs and
    then goes to sleep, as two separate steps: if the process exits on another CPU
    between the two, its exit wakes nobody and the caller then sleeps waiting for a
    process that no longer exists. *)
Theorem sys_wait_lost_wakeup :
  wait_test 5 waiting = true /\
  let gone := snd (exit_current 1 waiting) in
  find 5 gone = None /\
  let after := block_current 0 (Thread.WPid 5) gone in
  (exists t, Thread.find 3 (ts after) = Some t /\ Thread.t_state t = Thread.Sleeping /\ Thread.t_wait t = Thread.WPid 5) /\
  find 5 after = None.
Proof. vm_compute. split_and!; [reflexivity|reflexivity| |reflexivity]. eexists. split_and!; reflexivity. Qed.
End Example.

End SysFile.
