(* ===== verification/Audio.v ===== *)
(** The audio device: [crates/kernel/src/drivers/audio.rs], a device driver in front of
    a message channel to the user-mode audio driver.

    The statics are the channel number and the online flag; channels are those of
    [Ipc.v].  The five functions are an instance of the device interface of
    [SysFile.v] (table number [AUDIO_OPS]) for the CPU the caller runs on. *)
From stdpp Require Import base list numbers option gmap.
From S2P Require Import Prelude Str Vmm Uaccess Thread Scheduler Process Ipc Pipe Fd Vfs Keyboard SysFile.

Open Scope Z_scope.

Module Audio.
Import Process.Process.

Record Audio := mkAudio { channel : Z; online : bool; chans : list (option Ipc.Channel) }.
Definition AUDIO_OPS : Z := 1.

(** "module_audio" and "/dev/audio". *)
Definition CHANNEL_NAME : list Z := [109; 111; 100; 117; 108; 101; 95; 97; 117; 100; 105; 111].
Definition DEVICE_NAME : list Z := [47; 100; 101; 118; 47; 97; 117; 100; 105; 111].

(** The channels with the process table. *)
Definition join (x : Audio * PState) : Ipc.IState := Ipc.mkI (chans (fst x)) (snd x).
Definition split (a : Audio) (i : Ipc.IState) : Audio * PState := (mkAudio (channel a) (online a) (Ipc.chans i), Ipc.ps i).

Definition init (x : Audio * PState) (reg : Vfs.Registry) : (Audio * PState) * Vfs.Registry :=
  let '(ch, i) := Ipc.open CHANNEL_NAME (join x) in
  let '(a, p) := split (fst x) i in
  ((mkAudio ch (online a) (chans a), p), Vfs.register DEVICE_NAME AUDIO_OPS reg).

Definition driver_started (x : Audio * PState) : Audio * PState := (mkAudio (channel (fst x)) true (chans (fst x)), snd x).
Definition driver_stopped (x : Audio * PState) : Audio * PState :=
  let a := mkAudio (channel (fst x)) false (chans (fst x)) in
  split a (Ipc.abort_senders (channel a) (join (a, snd x))).

Definition send (cpu : nat) (command : Z) (data : list Z) (x : Audio * PState) : Ipc.SendResult * (Audio * PState) :=
  if negb (online (fst x)) then (Ipc.SendError, x)
  else
    let '(r, i) := Ipc.try_send_reliable (channel (fst x)) (current_pid cpu (snd x)) (command :: data) (join x) in
    (r, split (fst x) i).

Definition audio_write (cpu : nat) (buf : list Z) (x : Audio * PState) : nat * (Audio * PState) :=
  if (length buf =? 0)%nat || (Z.to_nat 8191 <? length buf)%nat then (0%nat, x)
  else match send cpu 2 buf x with
       | (Ipc.SendOk, x) => (length buf, x)
       | (_, x) => (0%nat, x)
       end.

(** [Ok => 0, _ => -1]. *)
Definition send_status (r : Ipc.SendResult * (Audio * PState)) : Z * (Audio * PState) :=
  match r with (Ipc.SendOk, x) => (0, x) | (_, x) => (-1, x) end.

Definition audio_ioctl (cpu : nat) (cmd arg : Z) (x : Audio * PState) : Z * (Audio * PState) :=
  if cmd =? 0 then send_status (send cpu 0 [] x)
  else if cmd =? 1 then send_status (send cpu 3 (to_le 4 (arg mod 2 ^ 32)) x)
  else if cmd =? 2 then send_status (send cpu 1 [if arg =? 1 then 1 else 2] x)
  else if cmd =? 3 then
    if negb (online (fst x)) then (-1, x)
    else
      let '(blocked, i) := Ipc.wait_send_space (channel (fst x)) (current_pid cpu (snd x)) (join x) in
      (if blocked then SysFile.BLOCK_I64 else 0, split (fst x) i)
  else (-1, x).

Definition audio_open : Z := 1.

Definition audio_ops (cpu : nat) : DeviceOps Audio := {|
  dev_open _ x := (audio_open, x);
  dev_close _ _ x := x;
  dev_read _ _ _ x := ([], x);
  dev_write _ _ buf x := audio_write cpu buf x;
  dev_ioctl _ _ cmd arg x := audio_ioctl cpu cmd arg x;
|}.

(** * Sound data through [sys_write] *)

Section Write.
Variable cpu : nat.
#[local] Instance ops : DeviceOps Audio := audio_ops cpu.
Implicit Types (s : SysFile.State Audio).

(** The message that carries a buffer. *)
Definition sound (data : list Z) : Ipc.Message := 2 :: data.

(** A buffer the driver takes, with room in the queue, becomes one message. *)
Lemma audio_write_queues (buf : list Z) (a : Audio) (p : PState) (c : Ipc.Channel) :
  (0 < length buf <= Z.to_nat 8191)%nat -> online a = true ->
  Ipc.slot (join (a, p)) (channel a) = Some c -> (length (Ipc.c_queue c) < Ipc.MAX_QUEUE)%nat ->
  exists x' c', audio_write cpu buf (a, p) = (length buf, x') /\
    Ipc.slot (join x') (channel a) = Some c' /\ Ipc.c_queue c' = Ipc.c_queue c ++ [sound buf].
Proof.
  intros Hl Hon Hc Hroom. unfold audio_write, send.
  rewrite (proj2 (Nat.eqb_neq (length buf) 0)), (proj2 (Nat.ltb_ge (Z.to_nat 8191) (length buf))) by lia.
  cbn [orb fst]. rewrite Hon. cbn [negb]. unfold Ipc.try_send_reliable.
  assert (Ipc.MAX_MSG_SIZE = Z.to_nat 8192) as HM by done.
  rewrite (proj2 (Nat.ltb_ge Ipc.MAX_MSG_SIZE (length (2 :: buf)))) by (rewrite length_cons; lia).
  rewrite Hc, (proj2 (Nat.leb_gt Ipc.MAX_QUEUE (length (Ipc.c_queue c)))) by lia.
  unfold Ipc.enqueue. set (c1 := Ipc.with_queue _ c).
  destruct (Ipc.name_wake c1 (Ipc.ps (join (a, p)))) as (_ & _ & _ & Hq).
  destruct (Ipc.wake_receiver c1 _) as [c' q]. cbn [fst] in Hq.
  eexists _, c'. split; [reflexivity|]. split; [|by rewrite Hq].
  pose proof (Ipc.slot_set_slot (join (a, p)) (channel a) (channel a) c (Some c') Hc) as H.
  by rewrite Z.eqb_refl in H.
Qed.

(** Sound writes and their size.  A buffer of at most 8191 bytes written to the
    audio device while its driver is online and its queue has room is queued as one
    message (command 2 and the bytes) and [sys_write] returns its length; a buffer of
    8192 bytes or more is never accepted, not even in part: [sys_write] cuts it into
    chunks of 8192, one more than the driver takes, so that the call returns 0 and
    nothing is sent. *)
Theorem audio_sys_write (fd ptr len handle : Z) s (c : Ipc.Channel) :
  ptr <> 0 -> 0 < len -> SysFile.validate_range ptr len false s = true ->
  Fd.get_fd (SysFile.caller cpu s) (Z.to_nat fd) (SysFile.fds s) = Some (Fd.Device AUDIO_OPS handle) ->
  let a := SysFile.dev s in
  let src := SysFile.copy_from_user ptr len s in
  online a = true -> Ipc.slot (Ipc.mkI (chans a) (SysFile.view s)) (channel a) = Some c ->
  (length (Ipc.c_queue c) < Ipc.MAX_QUEUE)%nat ->
  let '(r, s') := SysFile.sys_write cpu fd ptr len s in
  if decide (len <= 8191)
  then r = len /\ exists c', Ipc.slot (Ipc.mkI (chans (SysFile.dev s')) (SysFile.view s')) (channel a) = Some c' /\
         Ipc.c_queue c' = Ipc.c_queue c ++ [sound src]
  else r = 0 /\ SysFile.dev s' = a /\ SysFile.view s' = SysFile.view s.
Proof.
  intros Hp Hl Hv Hfd a src Hon Hc Hroom. unfold SysFile.sys_write.
  rewrite (proj2 (Z.eqb_neq ptr 0)), (proj2 (Z.eqb_neq len 0)) by lia. cbn [orb]. rewrite Hv, Hfd. cbn [negb]. fold src.
  assert (length src = Z.to_nat len) as Hsl by apply SysFile.length_from_user.
  destruct (Z.to_nat len) as [|f] eqn:Ef; [lia|]. cbn [SysFile.dev_write_loop]. rewrite Hsl. cbn [Nat.eqb].
  assert (length (take (Nat.min (S f) SysFile.CHUNK) src) = Nat.min (S f) SysFile.CHUNK) as Htl by (rewrite length_take; lia).
  assert (SysFile.CHUNK = Z.to_nat 8192) as HC by done.
  destruct (decide (len <= 8191)) as [Hs|Hs].
  - rewrite (firstn_all2 src) in * by lia. rewrite Nat.min_l in * by lia.
    destruct (audio_write_queues src a (SysFile.view s) c) as ([a' q] & c' & Hw & Hslot & Hq); [lia|done..|].
    unfold SysFile.on_dev. cbn [dev_write ops audio_ops]. fold a. rewrite Hw, Hsl.
    cbn [Nat.eqb]. rewrite Nat.ltb_irrefl, drop_ge by lia.
    replace (SysFile.dev_write_loop _ _ _ [] _ _) with ((0 + S f)%nat, SysFile.set_view q (SysFile.set_dev a' s))
      by (by destruct f).
    split; [lia|]. by exists c'.
  - unfold SysFile.on_dev. cbn [dev_write ops audio_ops]. unfold audio_write. rewrite Htl.
    rewrite (proj2 (Nat.eqb_neq (Nat.min (S f) SysFile.CHUNK) 0)) by lia. cbn [orb].
    rewrite (proj2 (Nat.ltb_lt (Z.to_nat 8191) (Nat.min (S f) SysFile.CHUNK))) by lia. by cbn [Nat.eqb].
Qed.
End Write.

Module Example.
(** The process of [SysFile.Example] with the audio device at descriptor 4, its driver
    online behind channel 1. *)
Definition dev0 : Audio := mkAudio 1 true [Some (Ipc.new_channel CHANNEL_NAME)].
Definition st : SysFile.State Audio :=
  let s := SysFile.Example.st in
  SysFile.mkState (SysFile.nodes s) (SysFile.registry s)
    (Fd.mkState (replicate 5 None ++ [Some (replicate 4 Fd.Empty ++ [Fd.Device AUDIO_OPS 1])]) SysFile.Example.w [])
    (SysFile.kbd s) None Process.Example.st dev0 [] [] true.

Lemma audio_sys_write_witness :
  fst (@SysFile.sys_write Audio (audio_ops 0) 0 4 SysFile.Example.page 3 st) = 3.
Proof.
  pose proof (audio_sys_write 0 4 SysFile.Example.page 3 1 st (Ipc.new_channel CHANNEL_NAME)) as H.
  destruct (SysFile.sys_write 0 4 SysFile.Example.page 3 st) as [r s'] eqn:E.
  apply H; [done|lia|vm_compute; reflexivity|reflexivity..|vm_compute; lia].
Defined.
End Example.

End Audio.
