(* ===== verification/Irq.v ===== *)
(** Interrupt lines and PCI devices of user-mode drivers: [sys_irq_claim],
    [sys_irq_ack], [sys_irq_release], [release_irq_for_pid], [sys_pci_enable],
    [build_pci_cache] and [sys_pci_info] of [crates/kernel/src/syscall/runtime.rs],
    [SYS_IRQ_WAIT] of [crates/kernel/src/syscall/device.rs] and the interrupt
    [hda_irq_handler_inner] of [crates/kernel/src/handlers/interrupts.rs].

    One line can be claimed at a time.  The state joins the statics of the claim with
    the configuration space of [Pci.v], the interrupt router of [Ioapic.v], the audio
    device of [Audio.v] and the process table.  What hardware does with a
    configuration write, the firmware tables in physical memory and the address of
    their root are parameters.  The claim is four atomics written without a lock, so
    ownership is stated of the single steps of [sys_irq_claim], [sys_irq_release] and
    [release_irq_for_pid] ([begin], [resume]), interleaved; uninterrupted they are the
    one-step definitions ([claim_alone], [release_alone], [exit_alone]).  The other calls
    only read the claim and are one step each; the wait and the interrupt's wake-up
    exclude each other by the thread lock. *)
From stdpp Require Import base list numbers option gmap.
From S2P Require Import Prelude Uaccess Thread Scheduler Process Ipc Pci Ioapic SysFile Audio.

Open Scope Z_scope.

Module Irq.
Import Process.Process.

Record State := mkState {
  owner : Z;                    (* [DRIVER_IRQ_OWNER] *)
  number : Z;                   (* [DRIVER_IRQ_NUMBER] *)
  bdf : Z;                      (* [DRIVER_IRQ_BDF] *)
  is_audio : bool;              (* [DRIVER_IRQ_AUDIO] *)
  ready : bool;                 (* [PCI_CACHE_READY] *)
  cache : list Pci.Device;      (* [PCI_CACHE] *)
  cfg : Pci.State;
  lines : Ioapic.Lines;
  audio : Audio.Audio;
  use_ioapic : bool;            (* [USE_IOAPIC] *)
  ps : PState }.

(** The four atomics of the claim. *)
Definition set_claim (o n b : Z) (a : bool) (s : State) : State :=
  mkState o n b a (ready s) (cache s) (cfg s) (lines s) (audio s) (use_ioapic s) (ps s).
Definition set_cache (r : bool) (c : list Pci.Device) (s : State) : State :=
  mkState (owner s) (number s) (bdf s) (is_audio s) r c (cfg s) (lines s) (audio s) (use_ioapic s) (ps s).
Definition set_cfg (c : Pci.State) (s : State) : State :=
  mkState (owner s) (number s) (bdf s) (is_audio s) (ready s) (cache s) c (lines s) (audio s) (use_ioapic s) (ps s).
Definition set_lines (l : Ioapic.Lines) (s : State) : State :=
  mkState (owner s) (number s) (bdf s) (is_audio s) (ready s) (cache s) (cfg s) l (audio s) (use_ioapic s) (ps s).
Definition set_use_ioapic (u : bool) (s : State) : State :=
  mkState (owner s) (number s) (bdf s) (is_audio s) (ready s) (cache s) (cfg s) (lines s) (audio s) u (ps s).
Definition on_audio (f : Audio.Audio * PState -> Audio.Audio * PState) (s : State) : State :=
  let '(a, p) := f (audio s, ps s) in
  mkState (owner s) (number s) (bdf s) (is_audio s) (ready s) (cache s) (cfg s) (lines s) a (use_ioapic s) p.
Definition set_ps (p : PState) (s : State) : State :=
  mkState (owner s) (number s) (bdf s) (is_audio s) (ready s) (cache s) (cfg s) (lines s) (audio s) (use_ioapic s) p.

(** [irq as u8], and the bytes of a device address. *)
Definition u8 (x : Z) : Z := x mod 256.
Definition bdf_bus (x : Z) : Z := Z.land (Z.shiftr x 16) 255.
Definition bdf_device (x : Z) : Z := Z.land (Z.shiftr x 8) 255.
Definition bdf_function (x : Z) : Z := Z.land x 255.

(** [privilege_level(caller) > PrivilegeLevel::Driver]. *)
Definition unprivileged (caller : Z) (s : State) : bool :=
  Thread.level Thread.Driver <? Thread.level (privilege_level caller (ps s)).

Definition claimed_driver_irq (s : State) : Z := number s.
Definition owns_driver_irq (pid irq : Z) (s : State) : bool := (owner s =? pid) && (number s =? irq).

Section Ops.
Variable hw_write : Z -> Z -> Z -> Z.
Variable phys : gmap Z Z.
Variable rsdp : Z.

(** A configuration access inside the state. *)
Definition on_cfg {R : Type} (f : Pci.State -> R * Pci.State) (s : State) : R * State :=
  let '(r, c) := f (cfg s) in (r, set_cfg c s).

Definition build_pci_cache (s : State) : State :=
  if ready s then s
  else
    let '(ds, s) := on_cfg (if Pci.pcie_available phys rsdp then Pci.scan_pcie hw_write phys rsdp else Pci.scan_pci hw_write) s in
    set_cache true ds s.

Definition at_bdf (x : Z) (d : Pci.Device) : bool :=
  (Pci.bus d =? bdf_bus x) && (Pci.device d =? bdf_device x) && (Pci.function d =? bdf_function x).

Definition route_driver_irq (irq : Z) (enable : bool) (s : State) : bool * State :=
  let '(ok, l) := Ioapic.route_driver_irq irq enable (lines s) in (ok, set_lines l s).
Definition mask_driver_irq (irq : Z) (masked : bool) (s : State) : bool * State :=
  let '(ok, l) := Ioapic.mask_driver_irq irq masked (lines s) in (ok, set_lines l s).
Definition wakeup_irq_waiter (irq : Z) (s : State) : State :=
  set_ps (on_ts (fun t => snd (Thread.wakeup_irq_waiter irq t)) (ps s)) s.

Definition sys_irq_claim (cpu : nat) (x : Z) (s : State) : Z * State :=
  let caller := current_pid cpu (ps s) in
  if (caller =? 0) || unprivileged caller s then (u64_max, s)
  else
    let s := build_pci_cache s in
    match find_first (at_bdf x) (cache s) with
    | None => (u64_max, s)
    | Some dev =>
        let '(irq, s) := on_cfg (Pci.read_interrupt_line hw_write (bdf_bus x) (bdf_device x) (bdf_function x)) s in
        if (irq =? 0) || (irq =? 255) then (u64_max, s)
        else if negb (owner s =? 0) then (u64_max, s)
        else
          let a := (Pci.class_code dev =? 4) && (Pci.subclass dev =? 3) in
          let s := set_claim caller irq (x mod 2 ^ 32) a s in
          match route_driver_irq irq true s with
          | (false, s) => (u64_max, set_claim 0 0 0 false s)
          | (true, s) =>
              let s := set_use_ioapic true s in
              (irq, if a then on_audio Audio.driver_started s else s)
          end
    end.

Definition sys_irq_ack (cpu : nat) (irq : Z) (s : State) : Z * State :=
  let caller := current_pid cpu (ps s) in
  if negb (owns_driver_irq caller (u8 irq) s) then (u64_max, s)
  else let '(ok, s) := mask_driver_irq (u8 irq) false s in (if ok then 0 else u64_max, s).

Definition sys_irq_wait (cpu : nat) (irq : Z) (s : State) : Z * State :=
  let caller := current_pid cpu (ps s) in
  if unprivileged caller s then (u64_max, s)
  else if negb (owns_driver_irq caller (u8 irq) s) then (u64_max, s)
  else (SysFile.BLOCK_TO_SCHEDULER, set_ps (block_current cpu (Thread.WIrq (u8 irq)) (ps s)) s).

(** [if DRIVER_IRQ_AUDIO.swap(false) { audio::driver_stopped() }] and
    [DRIVER_IRQ_OWNER.store(0)]. *)
Definition drop_claim (s : State) : State :=
  let a := is_audio s in
  let s := set_claim (owner s) (number s) (bdf s) false s in
  let s := if a then on_audio Audio.driver_stopped s else s in
  set_claim 0 (number s) (bdf s) (is_audio s) s.

Definition sys_irq_release (cpu : nat) (irq : Z) (s : State) : Z * State :=
  let caller := current_pid cpu (ps s) in
  if negb (owner s =? caller) || negb (number s =? u8 irq) then (u64_max, s)
  else
    let '(_, s) := route_driver_irq (u8 irq) false s in
    let s := wakeup_irq_waiter (u8 irq) s in
    let s := set_claim (owner s) 0 0 (is_audio s) s in
    (0, drop_claim s).

(** [command & !0x06] of the claimed device. *)
Definition quiesce (x : Z) (s : State) : State :=
  let '(command, s) := on_cfg (Pci.read_command hw_write (bdf_bus x) (bdf_device x) (bdf_function x)) s in
  set_cfg (Pci.write_command hw_write (bdf_bus x) (bdf_device x) (bdf_function x) (Z.land command (Z.lnot 6)) (cfg s)) s.

Definition release_irq_for_pid (pid : Z) (s : State) : State :=
  if negb (owner s =? pid) then s
  else
    let irq := number s in
    let s := set_claim (owner s) 0 (bdf s) (is_audio s) s in
    let s := if negb (irq =? 0) then snd (route_driver_irq irq false s) else s in
    let x := bdf s in
    let s := set_claim (owner s) (number s) 0 (is_audio s) s in
    let s := if negb (x =? 0) then quiesce x s else s in
    drop_claim s.

Definition sys_pci_enable (cpu : nat) (x : Z) (enable : bool) (s : State) : Z * State :=
  let caller := current_pid cpu (ps s) in
  if unprivileged caller s then (u64_max, s)
  else
    let s := build_pci_cache s in
    if negb (bool_decide (is_Some (find_first (at_bdf x) (cache s)))) then (u64_max, s)
    else
      let '(command, s) := on_cfg (Pci.read_command hw_write (bdf_bus x) (bdf_device x) (bdf_function x)) s in
      let command := if enable then Z.lor command 6 else Z.land command (Z.lnot 6) in
      let s := set_cfg (Pci.write_command hw_write (bdf_bus x) (bdf_device x) (bdf_function x) command (cfg s)) s in
      on_cfg (Pci.read_interrupt_line hw_write (bdf_bus x) (bdf_device x) (bdf_function x)) s.

(** [PciDeviceInfo] as its twelve bytes. *)
Definition device_info (d : Pci.Device) : list Z :=
  [Pci.bus d; Pci.device d; Pci.function d; 0] ++ to_le 2 (Pci.vendor_id d) ++ to_le 2 (Pci.device_id d) ++
  [Pci.class_code d; Pci.subclass d; Pci.prog_if d; Pci.header_type d].

(** [ub] is the caller's memory under [cr3] and the tables [m]. *)
Definition sys_pci_info (cr3 : Z) (m ub : gmap Z Z) (index out_ptr : Z) (s : State) : Z * gmap Z Z * State :=
  let s := build_pci_cache s in
  match cache s !! Z.to_nat index with
  | None => (u64_max, ub, s)
  | Some dev =>
      if out_ptr =? 0 then (Z.of_nat (length (cache s)), ub, s)
      else
        match Uaccess.write_value cr3 m ub out_ptr (device_info dev) with
        | (false, ub) => (u64_max, ub, s)
        | (true, ub) => (Z.of_nat (length (cache s)), ub, s)
        end
  end.

(** The interrupt of the claimed line (its end-of-interrupt goes to hardware). *)
Definition hda_irq_handler (s : State) : State :=
  let irq := claimed_driver_irq s in
  if negb (irq =? 0) then wakeup_irq_waiter irq (snd (mask_driver_irq irq true s)) else s.
End Ops.

(** * The calls in progress *)

(** A claim, a release and the release at process exit run without a lock: every access
    to one of the four atomics, and every call of another component, is one step, and
    the steps of calls on different CPUs interleave.  [Stage] is the next step of a call:
    the claim's ([CExchange] to [CStart]), the withdrawal of a claim whose line cannot be
    routed ([UNumber] to [UOwner]), the release's ([ROwner] to [RBdf]), the exit's
    ([XOwner] to [XWrite]) and the end the last two share ([DAudio] to [DOwner]). *)
Inductive Stage :=
  | CExchange (x irq : Z) (a : bool)
  | CBdf (x irq : Z) (a : bool)
  | CAudio (x irq : Z) (a : bool)
  | CNumber (x irq : Z) (a : bool)
  | CRoute (x irq : Z) (a : bool)
  | UNumber | UBdf | UAudio | UOwner
  | CIoapic (irq : Z) (a : bool)
  | CStart (irq : Z)
  | ROwner (irq : Z)
  | RNumber (irq : Z)
  | RRoute (irq : Z)
  | RWake (irq : Z)
  | RClear
  | RBdf
  | XOwner
  | XNumber
  | XRoute (irq : Z)
  | XBdf
  | XRead (x : Z)
  | XWrite (x command : Z)
  | DAudio | DStop | DOwner.

(** A call: the process that makes it (for an exit, the one that ends) and its stage. *)
Record Call := mkCall { caller : Z; stage : Stage }.

Definition set_owner (o : Z) (s : State) : State := set_claim o (number s) (bdf s) (is_audio s) s.
Definition set_number (n : Z) (s : State) : State := set_claim (owner s) n (bdf s) (is_audio s) s.
Definition set_bdf (x : Z) (s : State) : State := set_claim (owner s) (number s) x (is_audio s) s.
Definition set_is_audio (a : bool) (s : State) : State := set_claim (owner s) (number s) (bdf s) a s.

Inductive entry := Claim (cpu : nat) (x : Z) | Release (cpu : nat) (irq : Z) | Exit (pid : Z).

Section Calls.
Variable hw_write : Z -> Z -> Z -> Z.
Variable phys : gmap Z Z.
Variable rsdp : Z.

(** A call up to its first access to the claim: the next stage, or the result. *)
Definition begin (e : entry) (s : State) : State * (Call + Z) :=
  match e with
  | Claim cpu x =>
      let caller := current_pid cpu (ps s) in
      if (caller =? 0) || unprivileged caller s then (s, inr u64_max)
      else
        let s := build_pci_cache hw_write phys rsdp s in
        match find_first (at_bdf x) (cache s) with
        | None => (s, inr u64_max)
        | Some dev =>
            let '(irq, s) := on_cfg (Pci.read_interrupt_line hw_write (bdf_bus x) (bdf_device x) (bdf_function x)) s in
            if (irq =? 0) || (irq =? 255) then (s, inr u64_max)
            else
              (s, inl (mkCall caller (CExchange (x mod 2 ^ 32) irq ((Pci.class_code dev =? 4) && (Pci.subclass dev =? 3)))))
        end
  | Release cpu irq => (s, inl (mkCall (current_pid cpu (ps s)) (ROwner (u8 irq))))
  | Exit pid => (s, inl (mkCall pid XOwner))
  end.

(** One step of a call. *)
Definition resume (c : Call) (s : State) : State * (Call + Z) :=
  let next g := inl (mkCall (caller c) g) in
  match stage c with
  | CExchange x irq a =>
      if negb (owner s =? 0) then (s, inr u64_max) else (set_owner (caller c) s, next (CBdf x irq a))
  | CBdf x irq a => (set_bdf x s, next (CAudio x irq a))
  | CAudio x irq a => (set_is_audio a s, next (CNumber x irq a))
  | CNumber x irq a => (set_number irq s, next (CRoute x irq a))
  | CRoute x irq a =>
      let '(ok, s) := route_driver_irq irq true s in
      (s, next (if ok then CIoapic irq a else UNumber))
  | UNumber => (set_number 0 s, next UBdf)
  | UBdf => (set_bdf 0 s, next UAudio)
  | UAudio => (set_is_audio false s, next UOwner)
  | UOwner => (set_owner 0 s, inr u64_max)
  | CIoapic irq a => (set_use_ioapic true s, if a then next (CStart irq) else inr irq)
  | CStart irq => (on_audio Audio.driver_started s, inr irq)
  | ROwner irq => if negb (owner s =? caller c) then (s, inr u64_max) else (s, next (RNumber irq))
  | RNumber irq => if negb (number s =? irq) then (s, inr u64_max) else (s, next (RRoute irq))
  | RRoute irq => (snd (route_driver_irq irq false s), next (RWake irq))
  | RWake irq => (wakeup_irq_waiter irq s, next RClear)
  | RClear => (set_number 0 s, next RBdf)
  | RBdf => (set_bdf 0 s, next DAudio)
  | XOwner => if negb (owner s =? caller c) then (s, inr 0) else (s, next XNumber)
  | XNumber => (set_number 0 s, next (if negb (number s =? 0) then XRoute (number s) else XBdf))
  | XRoute irq => (snd (route_driver_irq irq false s), next XBdf)
  | XBdf => (set_bdf 0 s, next (if negb (bdf s =? 0) then XRead (bdf s) else DAudio))
  | XRead x =>
      let '(command, s) := on_cfg (Pci.read_command hw_write (bdf_bus x) (bdf_device x) (bdf_function x)) s in
      (s, next (XWrite x command))
  | XWrite x command =>
      (set_cfg (Pci.write_command hw_write (bdf_bus x) (bdf_device x) (bdf_function x) (Z.land command (Z.lnot 6)) (cfg s)) s,
       next DAudio)
  | DAudio => (set_is_audio false s, next (if is_audio s then DStop else DOwner))
  | DStop => (on_audio Audio.driver_stopped s, next DOwner)
  | DOwner => (set_owner 0 s, inr 0)
  end.

(** A call that nothing interrupts. *)
Fixpoint finish (n : nat) (c : Call) (s : State) : option (Z * State) :=
  match n with
  | O => None
  | S n => match resume c s with (s, inl c) => finish n c s | (s, inr r) => Some (r, s) end
  end.
Definition alone (e : entry) (s : State) : option (Z * State) :=
  match begin e s with (s, inl c) => finish 10 c s | (s, inr r) => Some (r, s) end.

Lemma finish_S (n : nat) (c : Call) (s : State) :
  finish (S n) c s = match resume c s with (s', inl c') => finish n c' s' | (s', inr r) => Some (r, s') end.
Proof. done. Qed.

Lemma finish_more (n m : nat) (c : Call) (s : State) (r : Z * State) :
  (n <= m)%nat -> finish n c s = Some r -> finish m c s = Some r.
Proof.
  revert m c s. induction n as [|n IH]; intros [|m] c s Hle H; try done; [lia|]. simpl in *.
  destruct (resume c s) as [s' [c'|r']]; [|done]. apply IH; [lia|done].
Qed.

(** Uninterrupted, the calls are the one-step definitions. *)
Lemma claim_alone (cpu : nat) (x : Z) (s : State) :
  alone (Claim cpu x) s = Some (sys_irq_claim hw_write phys rsdp cpu x s).
Proof.
  unfold alone, begin, sys_irq_claim. destruct (_ || _); [done|]. set (s1 := build_pci_cache _ _ _ s).
  destruct (find_first _ _) as [dev|]; [|done]. destruct (on_cfg _ s1) as [irq s2]. destruct (_ || _); [done|].
  rewrite finish_S. cbn [resume stage caller]. destruct (negb _); [done|].
  do 4 (rewrite finish_S; cbn [resume stage caller]).
  replace (route_driver_irq irq true (set_number irq _)) with
    (route_driver_irq irq true (set_claim (current_pid cpu (ps s)) irq (x mod 2 ^ 32)
       ((Pci.class_code dev =? 4) && (Pci.subclass dev =? 3)) s2)) by done.
  destruct (route_driver_irq _ _ _) as [[|] s3]; [|done]. destruct (_ && _); reflexivity.
Qed.

Lemma release_alone (cpu : nat) (irq : Z) (s : State) :
  alone (Release cpu irq) s = Some (sys_irq_release cpu irq s).
Proof.
  unfold alone, begin, sys_irq_release. rewrite finish_S. cbn [resume stage caller].
  destruct (negb (owner s =? _)); [done|]. cbn [orb]. rewrite finish_S. cbn [resume stage caller].
  destruct (negb _); [done|]. destruct (route_driver_irq (u8 irq) false s) as [ok s1] eqn:E.
  do 5 (rewrite finish_S; cbn [resume stage caller]). rewrite E. cbn [snd].
  unfold drop_claim. cbn [set_bdf set_number set_claim is_audio]. unfold wakeup_irq_waiter, set_ps. cbn [is_audio].
  by destruct (is_audio s1).
Qed.

Lemma exit_alone (pid : Z) (s : State) : alone (Exit pid) s = Some (0, release_irq_for_pid hw_write pid s).
Proof.
  unfold alone, begin, release_irq_for_pid. rewrite finish_S. cbn [resume stage caller].
  destruct (negb (owner s =? _)); [done|]. rewrite finish_S. cbn [resume stage caller].
  change (set_claim (owner s) 0 (bdf s) (is_audio s) s) with (set_number 0 s).
  assert (forall s, finish 6 (mkCall pid XBdf) s = Some (0,
    drop_claim (if negb (bdf s =? 0) then quiesce hw_write (bdf s) (set_claim (owner s) (number s) 0 (is_audio s) s)
                else set_claim (owner s) (number s) 0 (is_audio s) s))) as Hend.
  { intros s1. rewrite finish_S. cbn [resume stage caller]. change (set_claim _ _ 0 _ s1) with (set_bdf 0 s1).
    destruct (negb (bdf s1 =? 0)).
    - rewrite finish_S. cbn [resume stage caller]. unfold quiesce. destruct (on_cfg _ _) as [cm s2].
      do 2 (rewrite finish_S; cbn [resume stage caller]). unfold drop_claim. destruct (is_audio _); reflexivity.
    - rewrite finish_S. cbn [resume stage caller]. unfold drop_claim. destruct (is_audio _); reflexivity. }
  destruct (negb (number s =? 0)).
  - rewrite finish_S. cbn [resume stage caller].
    apply (finish_more 6); [lia|]. apply Hend.
  - apply (finish_more 6); [lia|]. apply Hend.
Qed.
End Calls.

(** * Ownership of the line *)

(** What a claim is made of. *)
Definition claim (s : State) : Z * Z * Z * bool * bool :=
  (owner s, number s, bdf s, is_audio s, Audio.online (audio s)).
Definition no_claim : Z * Z * Z * bool * bool := (0, 0, 0, false, false).

(** Calls in progress, by the thread that makes them. *)
Record Kernel := mkKernel { st : State; calls : gmap Z Call }.

(** What does not write the claim. *)
Inductive event :=
  | Ack (cpu : nat) (irq : Z)
  | Wait (cpu : nat) (irq : Z)
  | Interrupt
  | Enable (cpu : nat) (x : Z) (enable : bool)
  | Info
  | Rest (p : PState) (chs : list (option Ipc.Channel)).   (* anything else the kernel does *)

Inductive action := Start (t : Z) (e : entry) | Go (t : Z) | Other (e : event).

(** The process a call is made for. *)
Definition entry_pid (e : entry) (s : State) : Z :=
  match e with Claim cpu _ | Release cpu _ => current_pid cpu (ps s) | Exit pid => pid end.

Section Ownership.
Variable hw_write : Z -> Z -> Z -> Z.
Variable phys : gmap Z Z.
Variable rsdp : Z.

Definition perform (e : event) (s : State) : State :=
  match e with
  | Ack cpu irq => snd (sys_irq_ack cpu irq s)
  | Wait cpu irq => snd (sys_irq_wait cpu irq s)
  | Interrupt => hda_irq_handler s
  | Enable cpu x enable => snd (sys_pci_enable hw_write phys rsdp cpu x enable s)
  | Info => build_pci_cache hw_write phys rsdp s
  | Rest p chs => on_audio (fun x => (Audio.mkAudio (Audio.channel (fst x)) (Audio.online (fst x)) chs, p)) s
  end.

(** Thread [t] goes on with what its last step left to do. *)
Definition record (t : Z) (r : State * (Call + Z)) (k : Kernel) : Kernel :=
  mkKernel (fst r) (match snd r with inl c => <[t := c]> (calls k) | inr _ => delete t (calls k) end).
Definition act (a : action) (k : Kernel) : Kernel :=
  match a with
  | Start t e => record t (begin hw_write phys rsdp e (st k)) k
  | Go t => match calls k !! t with Some c => record t (resume hw_write c (st k)) k | None => k end
  | Other e => mkKernel (perform e (st k)) (calls k)
  end.

(** A thread makes one call at a time, calls are made by processes, and a process makes
    one of these calls at a time. *)
Definition may (a : action) (k : Kernel) : Prop :=
  match a with
  | Start t e => calls k !! t = None /\ entry_pid e (st k) <> 0 /\
                 forall t' c, calls k !! t' = Some c -> caller c <> entry_pid e (st k)
  | _ => True
  end.
Definition step (k : Kernel) (a : action) (k' : Kernel) : Prop := may a k /\ k' = act a k.

(** Free and claimed lines, and the audio device. *)
Record inv (s : State) : Prop := {
  inv_online : Audio.online (audio s) = is_audio s;
  inv_free : owner s = 0 -> number s = 0 /\ bdf s = 0 /\ is_audio s = false;
  inv_claimed : owner s <> 0 -> 0 < number s < 255 }.

Lemma build_claim (s : State) :
  claim (build_pci_cache hw_write phys rsdp s) = claim s /\ ps (build_pci_cache hw_write phys rsdp s) = ps s /\
  lines (build_pci_cache hw_write phys rsdp s) = lines s.
Proof. unfold build_pci_cache, on_cfg. destruct (ready s); [done|]. 
  destruct (Pci.pcie_available phys rsdp); [by destruct (Pci.scan_pcie _ _ _ _)|by destruct (Pci.scan_pci _ _)].
Qed.

Lemma mask_claim (irq : Z) (m : bool) (s : State) : claim (snd (mask_driver_irq irq m s)) = claim s.
Proof. unfold mask_driver_irq. by destruct (Ioapic.mask_driver_irq _ _ _). Qed.
Lemma route_claim (irq : Z) (m : bool) (s : State) : claim (snd (route_driver_irq irq m s)) = claim s.
Proof. unfold route_driver_irq. by destruct (Ioapic.route_driver_irq _ _ _). Qed.

(** Dropping a claim whose number and device are cleared. *)
Lemma drop_claim_spec (s : State) :
  Audio.online (audio s) = is_audio s -> claim (drop_claim s) = (0, number s, bdf s, false, false).
Proof.
  intros Ho. unfold drop_claim. destruct (is_audio s); cbv zeta.
  - unfold on_audio, Audio.driver_stopped. simpl. unfold Audio.split. done.
  - unfold claim. simpl. by rewrite Ho.
Qed.

Lemma exit_spec (pid : Z) (s : State) :
  inv s -> let s' := release_irq_for_pid hw_write pid s in
  (pid <> owner s /\ s' = s) \/ (pid = owner s /\ claim s' = (0, 0, 0, false, false)).
Proof.
  intros [Hon _ _]. cbv zeta. unfold release_irq_for_pid.
  destruct (owner s =? pid) eqn:Eo; cbn [negb]; zbool; [|by left]. right. split; [done|].
  set (s1 := set_claim (owner s) 0 (bdf s) (is_audio s) s).
  set (s2 := if negb (number s =? 0) then _ else s1).
  assert (claim s2 = claim s1) as H2 by (unfold s2; destruct (negb _); [apply route_claim|done]).
  set (s3 := set_claim _ _ 0 _ s2). set (s4 := if negb (bdf s2 =? 0) then _ else s3).
  assert (claim s4 = claim s3) as H4.
  { unfold s4. destruct (negb (bdf s2 =? 0)); [|reflexivity]. unfold quiesce, on_cfg. destruct (Pci.read_command _ _ _ _ _). reflexivity. }
  unfold claim in H2, H4. cbn in H2, H4. injection H2 as A1 A2 A3 A4 A5. injection H4 as B1 B2 B3 B4 B5.
  rewrite drop_claim_spec by congruence. congruence.
Qed.

(** Events keep the claim. *)
Lemma perform_claim (e : event) (s : State) : claim (perform e s) = claim s.
Proof.
  destruct e as [cpu irq|cpu irq| |cpu x en| |p chs]; cbn [perform].
  - unfold sys_irq_ack. destruct (negb _); [done|]. pose proof (mask_claim (u8 irq) false s) as Hm.
    by destruct (mask_driver_irq _ _ s).
  - unfold sys_irq_wait. destruct (unprivileged _ _); [done|]. by destruct (negb _).
  - unfold hda_irq_handler. destruct (negb _); [|done]. apply (mask_claim (claimed_driver_irq s) true s).
  - unfold sys_pci_enable. destruct (unprivileged _ _); [done|]. destruct (build_claim s) as [Hb _].
    set (s1 := build_pci_cache hw_write phys rsdp s) in *. destruct (negb _); [done|]. unfold on_cfg.
    destruct (Pci.read_command _ _ _ _ _). by destruct (Pci.read_interrupt_line _ _ _ _ _).
  - apply build_claim.
  - done.
Qed.

Lemma claim_inv (s s' : State) : claim s' = claim s -> inv s -> inv s'.
Proof. unfold claim. intros [= E1 E2 E3 E4 E5] [H1 H2 H3]. split; rewrite ?E1, ?E2, ?E3, ?E4, ?E5; done. Qed.
Lemma free_inv (s : State) : claim s = (0, 0, 0, false, false) -> inv s.
Proof. unfold claim. intros [= E1 E2 E3 E4 E5]. split; rewrite ?E1, ?E2, ?E3, ?E4, ?E5; done. Qed.

(** The stages at which a call has made sure that the line is its process's. *)
Definition inside (c : Call) : bool :=
  match stage c with CExchange _ _ _ | ROwner _ | XOwner => false | _ => true end.

(** What a call in progress knows of the claim. *)
Definition knows (p : Z) (g : Stage) (s : State) : Prop :=
  match g with
  | CExchange x irq a => 0 < irq < 255
  | CBdf x irq a => 0 < irq < 255 /\ claim s = (p, 0, 0, false, false)
  | CAudio x irq a => 0 < irq < 255 /\ claim s = (p, 0, x, false, false)
  | CNumber x irq a => 0 < irq < 255 /\ claim s = (p, 0, x, a, false)
  | CRoute x irq a => 0 < irq < 255 /\ claim s = (p, irq, x, a, false)
  | UNumber => exists n x a, claim s = (p, n, x, a, false)
  | UBdf => exists x a, claim s = (p, 0, x, a, false)
  | UAudio => exists a, claim s = (p, 0, 0, a, false)
  | UOwner => claim s = (p, 0, 0, false, false)
  | CIoapic irq a => 0 < irq < 255 /\ exists x, claim s = (p, irq, x, a, false)
  | CStart irq => 0 < irq < 255 /\ exists x, claim s = (p, irq, x, true, false)
  | ROwner _ | XOwner => True
  | RNumber _ | RRoute _ | RWake _ | RClear | XNumber => owner s = p /\ inv s
  | RBdf | XRoute _ | XBdf => exists x a, claim s = (p, 0, x, a, a)
  | XRead _ | XWrite _ _ | DAudio => exists a, claim s = (p, 0, 0, a, a)
  | DStop => exists o, claim s = (p, 0, 0, false, o)
  | DOwner => claim s = (p, 0, 0, false, false)
  end.

Record kinv (k : Kernel) : Prop := {
  k_knows : forall t c, calls k !! t = Some c -> caller c <> 0 /\ knows (caller c) (stage c) (st k);
  k_one : forall t t' c c', calls k !! t = Some c -> calls k !! t' = Some c' -> caller c = caller c' -> t = t';
  k_rest : (forall t c, calls k !! t = Some c -> inside c = false) -> inv (st k) }.

Lemma knows_owner (p : Z) (g : Stage) (s : State) : inside (mkCall p g) = true -> knows p g s -> owner s = p.
Proof. destruct g; cbn; try done; unfold claim; naive_solver. Qed.
Lemma knows_claim (p : Z) (g : Stage) (s s' : State) : claim s' = claim s -> knows p g s -> knows p g s'.
Proof.
  intros Hc. assert (owner s' = owner s) as Ho by (unfold claim in Hc; congruence).
  destruct g; cbn; rewrite ?Hc, ?Ho; try done; intros [? ?]; split; try done; by eapply claim_inv.
Qed.
Lemma knows_outside (p : Z) (g : Stage) (s s' : State) : inside (mkCall p g) = false -> knows p g s -> knows p g s'.
Proof. by destruct g. Qed.

(** How a step of the call [c] moves the claim: not at all, or its compare-exchange
    takes the free line, or the call is the owner's and leaves the owner or nothing. *)
Definition moves (c : Call) (s s' : State) : Prop :=
  claim s' = claim s \/
  (owner s = 0 /\ owner s' = caller c /\ exists x irq a, stage c = CExchange x irq a) \/
  (owner s = caller c /\ (owner s' = owner s \/ claim s' = no_claim)).

(** What a step of a call leaves behind. *)
Definition leaves (c : Call) (s : State) (r : State * (Call + Z)) : Prop :=
  moves c s (fst r) /\
  match snd r with
  | inl c' => caller c' = caller c /\ inside c' = true /\ knows (caller c) (stage c') (fst r)
  | inr _ => if inside c then inv (fst r) else claim (fst r) = claim s
  end.

Lemma resume_claim (p : Z) (g : Stage) (s : State) :
  match g with
  | CExchange _ _ _ | CBdf _ _ _ | CAudio _ _ _ | CNumber _ _ _ | CRoute _ _ _
  | UNumber | UBdf | UAudio | UOwner | CIoapic _ _ | CStart _ => True | _ => False end ->
  p <> 0 -> knows p g s -> (inside (mkCall p g) = false -> owner s = 0 \/ owner s = p -> inv s) ->
  leaves (mkCall p g) s (resume hw_write (mkCall p g) s).
Proof.
  intros Hg Hp Hk Hin. destruct g; try done; clear Hg; cbn [knows] in Hk; unfold resume; cbn [stage caller].
  - destruct (owner s =? 0) eqn:E; cbn [negb]; [|by split; [left|]]. zbool.
    destruct (Hin eq_refl (or_introl E)) as [H1 H2 _]. destruct (H2 E) as (Hn & Hb & Ha).
    split; [right; left; cbn; eauto 8|]. cbn. unfold claim. cbn. rewrite H1, Hn, Hb, Ha. done.
  - destruct Hk as [Hi [= H1 H2 H3 H4 H5]]. split; [right; right; cbn; auto|]. cbn. unfold claim. cbn. split_and!; congruence || lia.
  - destruct Hk as [Hi [= H1 H2 H3 H4 H5]]. split; [right; right; cbn; auto|]. cbn. unfold claim. cbn. split_and!; congruence || lia.
  - destruct Hk as [Hi [= H1 H2 H3 H4 H5]]. split; [right; right; cbn; auto|]. cbn. unfold claim. cbn. split_and!; congruence || lia.
  - destruct Hk as [Hi Hc]. pose proof (route_claim irq true s) as Hr. destruct (route_driver_irq _ _ _) as [ok s1].
    cbn [snd] in Hr. split; [by left|]. cbn. destruct ok; cbn; rewrite Hr; eauto 6.
  - destruct Hk as (n & x & a & [= H1 H2 H3 H4 H5]). split; [right; right; cbn; auto|]. cbn. split_and!; [done..|].
    exists x, a. unfold claim. cbn. congruence.
  - destruct Hk as (x & a & [= H1 H2 H3 H4 H5]). split; [right; right; cbn; auto|]. cbn. split_and!; [done..|].
    exists a. unfold claim. cbn. congruence.
  - destruct Hk as (a & [= H1 H2 H3 H4 H5]). split; [right; right; cbn; auto|]. cbn. unfold claim. cbn. split_and!; congruence.
  - injection Hk as H1 H2 H3 H4 H5. assert (claim (set_owner 0 s) = no_claim) as Hn by (unfold claim; cbn; unfold no_claim; congruence).
    split; [right; right; cbn; auto|]. cbn. by apply free_inv.
  - destruct Hk as (Hi & x & Hc). split; [by left|]. destruct a; cbn.
    + eauto.
    + injection Hc as H1 H2 H3 H4 H5. split; cbn; [congruence|congruence|lia].
  - destruct Hk as (Hi & x & [= H1 H2 H3 H4 H5]). split; [right; right; cbn; auto|]. cbn.
    split; cbn; [congruence|congruence|lia].
Qed.

Lemma resume_giving_up (p : Z) (g : Stage) (s : State) :
  match g with
  | ROwner _ | RNumber _ | RRoute _ | RWake _ | RClear | RBdf | XOwner | XNumber | XRoute _ | XBdf
  | XRead _ | XWrite _ _ | DAudio | DStop | DOwner => True | _ => False end ->
  p <> 0 -> knows p g s -> (inside (mkCall p g) = false -> owner s = 0 \/ owner s = p -> inv s) ->
  leaves (mkCall p g) s (resume hw_write (mkCall p g) s).
Proof.
  intros Hg Hp Hk Hin. destruct g; try done; clear Hg; cbn [knows] in Hk; unfold resume; cbn [stage caller].
  - destruct (owner s =? p) eqn:E; cbn [negb]; zbool; split; [by left| |by left|done]. cbn. split_and!; auto.
  - destruct (number s =? irq) eqn:E; cbn [negb]; zbool; split; [by left|done|by left|]. by destruct Hk.
  - split; [left; apply route_claim|]. split_and!; [done..|]. eapply (knows_claim p RClear); [apply route_claim|done].
  - split; [by left|]. split_and!; [done..|]. eapply (knows_claim p RClear); [|done]. done.
  - destruct Hk as [Ho [H1 _ _]]. split; [right; right; cbn; auto|]. cbn. split_and!; [done..|].
    exists (bdf s), (is_audio s). unfold claim. cbn. congruence.
  - destruct Hk as (x & a & [= H1 H2 H3 H4 H5]). split; [right; right; cbn; auto|]. cbn. split_and!; [done..|].
    exists a. unfold claim. cbn. congruence.
  - destruct (owner s =? p) eqn:E; cbn [negb]; zbool; split; [by left| |by left|done]. cbn. split_and!; auto.
  - destruct Hk as [Ho [H1 _ _]]. split; [right; right; cbn; auto|]. cbn.
    assert (exists x a, claim (set_number 0 s) = (p, 0, x, a, a)) as Hx.
    { exists (bdf s), (is_audio s). unfold claim. cbn. congruence. }
    by destruct (negb _).
  - split; [left; apply route_claim|]. split_and!; [done..|]. eapply (knows_claim p XBdf); [apply route_claim|done].
  - destruct Hk as (x & a & [= H1 H2 H3 H4 H5]). split; [right; right; cbn; auto|]. cbn.
    assert (exists a, claim (set_bdf 0 s) = (p, 0, 0, a, a)) as Hx by (exists a; unfold claim; cbn; congruence).
    by destruct (negb _).
  - unfold on_cfg. destruct (Pci.read_command _ _ _ _ _). split; [by left|done].
  - split; [by left|done].
  - destruct Hk as (a & [= H1 H2 H3 H4 H5]). split; [right; right; cbn; auto|]. cbn. unfold claim. cbn.
    destruct (is_audio s) eqn:E; cbn; split_and!; try done; [exists a|]; unfold claim; cbn; congruence.
  - destruct Hk as (o & [= H1 H2 H3 H4 H5]). split; [right; right; cbn; auto|]. cbn. unfold claim, on_audio.
    cbn. split_and!; congruence.
  - injection Hk as H1 H2 H3 H4 H5. assert (claim (set_owner 0 s) = no_claim) as Hn by (unfold claim; cbn; unfold no_claim; congruence).
    split; [right; right; cbn; auto|]. cbn. by apply free_inv.
Qed.

Lemma resume_leaves (c : Call) (s : State) :
  caller c <> 0 -> knows (caller c) (stage c) s -> (inside c = false -> owner s = 0 \/ owner s = caller c -> inv s) ->
  leaves c s (resume hw_write c s).
Proof. destruct c as [p []]; intros; first [by apply resume_claim|by apply resume_giving_up]. Qed.

(** A step that changes one call: [s'] is the new state, [o] what is left of the call. *)
Lemma kinv_call (k : Kernel) (t p : Z) (s' : State) (o : option Call) :
  kinv k -> (forall t' c, t' <> t -> calls k !! t' = Some c -> caller c <> p) ->
  (forall t' c, t' <> t -> calls k !! t' = Some c -> knows (caller c) (stage c) s') ->
  (forall c, o = Some c -> caller c = p /\ p <> 0 /\ knows p (stage c) s') ->
  ((forall c, o = Some c -> inside c = false) -> (forall t' c, t' <> t -> calls k !! t' = Some c -> inside c = false) -> inv s') ->
  kinv (mkKernel s' (partial_alter (fun _ => o) t (calls k))).
Proof.
  intros Hk Hp Hkn Ho Hr.
  assert (forall t' c, partial_alter (fun _ => o) t (calls k) !! t' = Some c ->
    (t' = t /\ o = Some c) \/ (t' <> t /\ calls k !! t' = Some c)) as Hl.
  { intros t' c. destruct (decide (t' = t)) as [->|Hne]; [rewrite lookup_partial_alter_eq; by left|].
    rewrite lookup_partial_alter_ne by done. by right. }
  split; cbn [calls st].
  - intros t' c [[-> Hc]|[Hne Hc]]%Hl.
    + destruct (Ho c Hc) as (-> & ? & ?). by split.
    + destruct (k_knows k Hk t' c Hc). split; [done|by apply (Hkn t' c)].
  - intros t1 t2 c1 c2 [[-> H1]|[N1 H1]]%Hl [[-> H2]|[N2 H2]]%Hl He; try done.
    + destruct (Ho _ H1) as [E1 _]. destruct (Hp t2 c2 N2 H2). congruence.
    + destruct (Ho _ H2) as [E2 _]. destruct (Hp t1 c1 N1 H1). congruence.
    + by apply (k_one k Hk t1 t2 c1 c2).
  - intros Hall. apply Hr.
    + intros c ->. apply (Hall t). by rewrite lookup_partial_alter_eq.
    + intros t' c Hne Hc. apply (Hall t'). by rewrite lookup_partial_alter_ne.
Qed.

Lemma record_alter (t : Z) (s' : State) (r : Call + Z) (k : Kernel) :
  record t (s', r) k =
  mkKernel s' (partial_alter (fun _ => match r with inl c => Some c | inr _ => None end) t (calls k)).
Proof. by destruct r. Qed.

(** A process is inside alone. *)
Lemma inside_owner (k : Kernel) (t : Z) (c : Call) :
  kinv k -> calls k !! t = Some c -> inside c = true -> owner (st k) = caller c /\ caller c <> 0.
Proof.
  intros Hk Hc Hi. destruct (k_knows k Hk t c Hc). split; [|done]. destruct c. by eapply knows_owner.
Qed.

(** Where the line is free, or belongs to a process that is outside, the claim is at rest. *)
Lemma at_rest (k : Kernel) (t : Z) (c : Call) :
  kinv k -> calls k !! t = Some c -> inside c = false -> owner (st k) = 0 \/ owner (st k) = caller c -> inv (st k).
Proof.
  intros Hk Hc Hi Ho. apply (k_rest k Hk). intros t' c' Hc'. destruct (inside c') eqn:E; [|done].
  destruct (inside_owner k t' c' Hk Hc' E). assert (t = t') as <-; [|congruence].
  apply (k_one k Hk t t' c c' Hc Hc'). destruct Ho; congruence.
Qed.

Lemma go_leaves (k : Kernel) (t : Z) (c : Call) :
  kinv k -> calls k !! t = Some c -> leaves c (st k) (resume hw_write c (st k)).
Proof. intros Hk Hc. destruct (k_knows k Hk t c Hc). apply resume_leaves; [done..|]. by apply (at_rest k t c). Qed.

Lemma go_kinv (k : Kernel) (t : Z) (c : Call) :
  kinv k -> calls k !! t = Some c -> kinv (record t (resume hw_write c (st k)) k).
Proof.
  intros Hk Hc. destruct (go_leaves k t c Hk Hc) as [Hm Hl]. destruct (k_knows k Hk t c Hc) as [H0 _].
  destruct (resume hw_write c (st k)) as [s' r]. cbn [fst snd] in *. rewrite record_alter.
  assert (forall t' c', t' <> t -> calls k !! t' = Some c' -> caller c' <> caller c) as Hother.
  { intros t' c' Hne Hc' He. by destruct Hne; apply (k_one k Hk t' t c' c). }
  apply (kinv_call k t (caller c)); try done.
  - intros t' c' Hne Hc'. destruct (k_knows k Hk t' c' Hc') as [N0 Hkn].
    destruct (inside c') eqn:E; [|destruct c'; by eapply knows_outside].
    destruct (inside_owner k t' c' Hk Hc' E) as [Ho _]. specialize (Hother t' c' Hne Hc').
    destruct Hm as [Hm|[[Hm _]|[Hm _]]]; [by eapply knows_claim|congruence|congruence].
  - intros c' Ho. destruct r as [c1|]; [|done]. injection Ho as ->. destruct Hl as (-> & _ & ?). done.
  - intros Hno Hall. destruct r as [c1|].
    + destruct Hl as (_ & Hi & _). specialize (Hno c1 eq_refl). congruence.
    + destruct (inside c) eqn:E; [done|]. apply (claim_inv (st k)); [done|]. apply (k_rest k Hk).
      intros t' c' Hc'. destruct (decide (t' = t)) as [->|Hne]; [congruence|by apply (Hall t' c')].
Qed.

(** The beginning of a call does not touch the claim. *)
Lemma begin_spec (e : entry) (s : State) :
  claim (fst (begin hw_write phys rsdp e s)) = claim s /\
  forall c, snd (begin hw_write phys rsdp e s) = inl c ->
    caller c = entry_pid e s /\ inside c = false /\ (forall s', knows (caller c) (stage c) s') /\
    (forall cpu x, e = Claim cpu x -> unprivileged (caller c) s = false).
Proof.
  destruct e as [cpu x|cpu irq|pid]; cbn [begin fst snd].
  2, 3: split; [done|]; intros c [= <-]; by split_and!.
  destruct (current_pid cpu (ps s) =? 0); [done|]. destruct (unprivileged _ s) eqn:Eu; [done|]. cbn [orb].
  destruct (build_claim s) as [Hb _]. set (s1 := build_pci_cache hw_write phys rsdp s) in *.
  destruct (find_first (at_bdf x) (cache s1)) as [dev|]; [|done]. unfold on_cfg.
  destruct (Pci.read_interrupt_line _ _ _ _ _) as [irq c1] eqn:Er.
  assert (0 <= irq < 256) as Hirq.
  { revert Er. unfold Pci.read_interrupt_line. destruct (Pci.read_u32 _ _ _ _ _ _) as [v c2]. intros [= <- _].
    change 255 with (Z.ones 8). rewrite Z.land_ones by lia. by apply Z.mod_pos_bound. }
  destruct (irq =? 0) eqn:E0; [done|]. destruct (irq =? 255) eqn:E1; [done|]. cbn [orb fst snd]. zbool.
  split; [done|]. intros c [= <-]. cbn. split_and!; try done. intros _. lia.
Qed.

Lemma step_kinv (k k' : Kernel) (a : action) : kinv k -> step k a k' -> kinv k'.
Proof.
  intros Hk [Hm ->]. destruct a as [t e|t|e]; cbn [act].
  - destruct Hm as (Hn & H0 & Hone). destruct (begin_spec e (st k)) as [Hc Hb].
    destruct (begin _ _ _ e (st k)) as [s' r]. cbn [fst snd] in *. rewrite record_alter.
    apply (kinv_call k t (entry_pid e (st k))); try done; [by intros t' c _; apply Hone|..].
    + intros t' c _ Ht. eapply knows_claim; [exact Hc|]. by apply (k_knows k Hk t' c).
    + intros c Ho. destruct r as [c1|]; [|done]. injection Ho as ->. destruct (Hb c eq_refl) as (E & _ & Hkn & _).
      rewrite <- E. split_and!; [done|congruence|apply Hkn].
    + intros _ Hall. apply (claim_inv (st k)); [done|]. apply (k_rest k Hk). intros t' c' Hc'.
      apply (Hall t' c'); [congruence|done].
  - destruct (calls k !! t) as [c|] eqn:E; [by apply go_kinv|done].
  - pose proof (perform_claim e (st k)) as Hc. split; cbn [calls st].
    + intros t c Ht. destruct (k_knows k Hk t c Ht). split; [done|]. by eapply knows_claim.
    + apply (k_one k Hk).
    + intros Hall. eapply claim_inv; [exact Hc|]. by apply (k_rest k Hk).
Qed.

Lemma run_kinv (s0 : State) (es : list action) (k : Kernel) :
  claim s0 = no_claim -> trace step (mkKernel s0 ∅) es k -> kinv k.
Proof.
  intros H0 Htr. eapply (trace_invariant step kinv); [|split|exact Htr].
  - intros x a y. apply step_kinv.
  - intros t c Hc. cbn in Hc. by rewrite lookup_empty in Hc.
  - intros t t' c c' Hc. cbn in Hc. by rewrite lookup_empty in Hc.
  - intros _. by apply free_inv.
Qed.

(** How the line passes in one step. *)
Inductive passes (k : Kernel) (a : action) (k' : Kernel) : Prop :=
  | Keeps : claim (st k') = claim (st k) -> passes k a k'
  | Takes t c x irq au : a = Go t -> calls k !! t = Some c -> stage c = CExchange x irq au ->
      owner (st k) = 0 -> owner (st k') = caller c -> passes k a k'
  | Works t c : a = Go t -> calls k !! t = Some c -> caller c = owner (st k) -> owner (st k') = owner (st k) -> passes k a k'
  | Frees t c : a = Go t -> calls k !! t = Some c -> caller c = owner (st k) -> claim (st k') = no_claim -> passes k a k'.

Lemma step_passes (k k' : Kernel) (a : action) : kinv k -> step k a k' -> passes k a k'.
Proof.
  intros Hk [_ ->]. destruct a as [t e|t|e]; cbn [act].
  - apply Keeps. apply (begin_spec e (st k)).
  - destruct (calls k !! t) as [c|] eqn:E; [|by apply Keeps].
    destruct (go_leaves k t c Hk E) as [[Hm|[(H1 & H2 & x & irq & a & H3)|[H1 [H2|H2]]]] _].
    + by apply Keeps.
    + by eapply Takes.
    + by eapply Works.
    + by eapply Frees.
  - apply Keeps, perform_claim.
Qed.

End Ownership.

(** * Delivery, and the end of a driver *)

Lemma masked_mask (irq : Z) (c : Ioapic.IoApic) : Ioapic.line irq -> Ioapic.masked irq (Ioapic.mask_irq irq c) = true.
Proof.
  intros Hi. unfold Ioapic.masked. destruct (Ioapic.mask_irq_spec irq c Hi) as (-> & _).
  rewrite Z.lor_spec. change (Z.testbit Ioapic.MASKED 16) with true. by rewrite orb_true_r.
Qed.
Lemma masked_unmask (irq : Z) (c : Ioapic.IoApic) : Ioapic.line irq -> Ioapic.masked irq (Ioapic.unmask_irq irq c) = false.
Proof.
  intros Hi. unfold Ioapic.masked. destruct (Ioapic.unmask_irq_spec irq c Hi) as (-> & _).
  rewrite Z.land_spec, Z.lnot_spec by lia. change (Z.testbit Ioapic.MASKED 16) with true. by rewrite andb_false_r.
Qed.

Definition chip (s : State) : Ioapic.IoApic := Ioapic.chip (lines s).
(** The entries of every line but [irq] are the same. *)
Definition other_lines (irq : Z) (s s' : State) : Prop :=
  forall j, Ioapic.line j -> j <> irq ->
    Ioapic.low j (chip s') = Ioapic.low j (chip s) /\ Ioapic.high j (chip s') = Ioapic.high j (chip s).

Lemma mask_driver_spec (irq : Z) (m : bool) (s : State) :
  Ioapic.line irq -> Ioapic.base (lines s) <> 0 ->
  exists l, mask_driver_irq irq m s = (true, set_lines l s) /\ Ioapic.base l = Ioapic.base (lines s) /\
    Ioapic.masked irq (chip (set_lines l s)) = m /\ other_lines irq s (set_lines l s).
Proof.
  intros Hi Hb. unfold mask_driver_irq, Ioapic.mask_driver_irq. rewrite (proj2 (Z.eqb_neq _ _) Hb).
  eexists. split; [done|]. split; [done|]. split.
  - destruct m; [by apply masked_mask|by apply masked_unmask].
  - intros j Hj Hne. unfold chip. cbn [set_lines lines Ioapic.set_chip Ioapic.chip].
    destruct m; [by apply Ioapic.mask_irq_spec|by apply Ioapic.unmask_irq_spec].
Qed.

(** With one thread that fits, waking the first that fits is waking that one. *)
Lemma wake_only (P : Thread.Thread -> bool) (r id : Z) (t : Thread.Thread) (x : Thread.TState) :
  NoDup (Thread.tid <$> Thread.threads x) -> Thread.find id x = Some t -> P t = true ->
  (forall u, u ∈ Thread.threads x -> P u = true -> u = t) ->
  Thread.wake_first P r x = (true, Thread.modify id (Thread.wake (Thread.kmem x) r) x).
Proof.
  intros Hn Hf Hp Hu. unfold Thread.wake_first, Thread.modify.
  destruct (Thread.find_Some _ _ _ Hf) as [Hin Hid].
  assert (forall u, u ∈ Thread.threads x -> P u = (Thread.tid u =? id)) as Heq.
  { intros u Hu'. destruct (P u) eqn:E; [by rewrite (Hu u Hu' E), Hid, Z.eqb_refl|].
    symmetry. apply Z.eqb_neq. intros Hd. assert (u = t) as ->; [|congruence].
    apply list_elem_of_lookup in Hu' as [i Hi], Hin as [j Hj]. assert (i = j) as ->; [|congruence].
    eapply (NoDup_lookup _ i j (Thread.tid t) Hn); rewrite list_lookup_fmap; [rewrite Hi|rewrite Hj]; cbn; congruence. }
  destruct (find_first P (Thread.threads x)) as [u|] eqn:E.
  - f_equal. f_equal. clear -Heq. induction (Thread.threads x) as [|a l IH]; [done|]. simpl.
    rewrite (Heq a) by set_solver. destruct (_ =? _); [done|]. rewrite IH by set_solver. done.
  - pose proof (proj1 (find_first_None P _) E t Hin). congruence.
Qed.

(** A blocked driver gets its interrupt.  When a thread waits for the claimed line,
    the interrupt makes exactly that thread ready, with the result 0, and masks the line
    until the driver has served the device; the owner's acknowledgement then unmasks it.
    No other thread and no other line changes. *)
Theorem irq_delivery (cpu : nat) (irq tid : Z) (t : Thread.Thread) (s : State) :
  number s = irq -> 0 < irq -> Ioapic.line irq -> Ioapic.base (lines s) <> 0 ->
  NoDup (Thread.tid <$> Thread.threads (ts (ps s))) ->
  Thread.find tid (ts (ps s)) = Some t -> Thread.waits (Thread.WIrq irq) t = true ->
  (forall u, u ∈ Thread.threads (ts (ps s)) -> Thread.waits (Thread.WIrq irq) u = true -> u = t) ->
  let s1 := hda_irq_handler s in
  Ioapic.masked irq (chip s1) = true /\ other_lines irq s s1 /\
  Thread.find tid (ts (ps s1)) = Some (Thread.wake (Thread.kmem (ts (ps s))) 0 t) /\
  (forall u, u <> tid -> Thread.find u (ts (ps s1)) = Thread.find u (ts (ps s))) /\
  (current_pid cpu (ps s) = owner s ->
   let '(r, s2) := sys_irq_ack cpu irq s1 in r = 0 /\ Ioapic.masked irq (chip s2) = false /\ other_lines irq s1 s2).
Proof.
  intros Hn H0 Hl Hb Hnd Hf Hw Hu. cbv zeta. unfold hda_irq_handler, claimed_driver_irq.
  rewrite Hn, (proj2 (Z.eqb_neq irq 0)) by lia. cbn [negb].
  destruct (mask_driver_spec irq true s Hl Hb) as (l & -> & Hbase & Hm & Ho). cbn [snd].
  unfold wakeup_irq_waiter, Thread.wakeup_irq_waiter, on_ts. cbn [set_lines ps set_ps ts set_ts].
  rewrite (wake_only _ 0 tid t _ Hnd Hf Hw Hu). cbn [snd].
  set (s1 := set_ps _ (set_lines l s)).
  assert (forall u, Thread.find u (ts (ps s1)) =
    if u =? tid then Thread.wake (Thread.kmem (ts (ps s))) 0 <$> Thread.find tid (ts (ps s)) else Thread.find u (ts (ps s))) as Hfind.
  { intros u. apply (Thread.find_modify tid u _ (ts (ps s))). intros v. apply Thread.tid_wake. }
  split_and!; [done|done|by rewrite Hfind, Z.eqb_refl, Hf|intros u Hne; by rewrite Hfind, (proj2 (Z.eqb_neq _ _) Hne)|].
  intros Hc. unfold sys_irq_ack, owns_driver_irq. change (current_pid cpu (ps s1)) with (current_pid cpu (ps s)).
  assert (u8 irq = irq) as -> by (unfold u8; unfold Ioapic.line in Hl; rewrite Z.mod_small; lia).
  change (owner s1) with (owner s). change (number s1) with (number s). rewrite Hc, Hn, !Z.eqb_refl. cbn [andb negb].
  assert (Ioapic.base (lines s1) <> 0) as Hb1.
  { change (lines s1) with l. by rewrite Hbase. }
  destruct (mask_driver_spec irq false s1 Hl Hb1) as (l2 & -> & _ & Hm2 & Ho2). done.
Qed.

(** An interrupt between acknowledging and waiting is lost for good.  When the
    claimed line fires while no thread waits for it - the driver has acknowledged the
    last interrupt but not yet called [SYS_IRQ_WAIT] - nobody is woken and the line is
    masked; the wait then puts the driver to sleep with the line still masked, so no
    further interrupt can come to wake it. *)
Theorem irq_lost_before_wait (cpu : nat) (irq tid : Z) (t : Thread.Thread) (s : State) :
  number s = irq -> 0 < irq -> Ioapic.line irq -> Ioapic.base (lines s) <> 0 ->
  current_pid cpu (ps s) = owner s -> unprivileged (owner s) s = false ->
  Scheduler.current_user_tid cpu (ss (ps s)) = Some tid -> Thread.find tid (ts (ps s)) = Some t ->
  Thread.t_state t = Thread.Running ->
  (forall u, u ∈ Thread.threads (ts (ps s)) -> Thread.waits (Thread.WIrq irq) u = false) ->
  let '(r, s') := sys_irq_wait cpu irq (hda_irq_handler s) in
  r = SysFile.BLOCK_TO_SCHEDULER /\ Ioapic.masked irq (chip s') = true /\
  exists t', Thread.find tid (ts (ps s')) = Some t' /\ Thread.waits (Thread.WIrq irq) t' = true.
Proof.
  intros Hn H0 Hl Hb Hc Hp Ht Hf Hr Hno. unfold hda_irq_handler, claimed_driver_irq.
  rewrite Hn, (proj2 (Z.eqb_neq irq 0)) by lia. cbn [negb].
  destruct (mask_driver_spec irq true s Hl Hb) as (l & -> & _ & Hm & _). cbn [snd].
  assert (wakeup_irq_waiter irq (set_lines l s) = set_lines l s) as ->.
  { unfold wakeup_irq_waiter, Thread.wakeup_irq_waiter, Thread.wake_first, on_ts. cbn [set_lines ps].
    rewrite (proj2 (find_first_None _ _) Hno). cbn [snd]. destruct s as [? ? ? ? ? ? ? ? ? ? []]. done. }
  unfold sys_irq_wait. change (current_pid cpu (ps (set_lines l s))) with (current_pid cpu (ps s)).
  rewrite Hc. change (unprivileged (owner s) (set_lines l s)) with (unprivileged (owner s) s). rewrite Hp.
  assert (u8 irq = irq) as -> by (unfold u8; unfold Ioapic.line in Hl; rewrite Z.mod_small; lia).
  unfold owns_driver_irq. cbn [set_lines owner number]. rewrite Hn, !Z.eqb_refl. cbn [andb negb].
  split; [done|]. split; [done|]. unfold block_current. cbn [set_lines set_ps ps]. rewrite Ht.
  unfold on_ts. cbn [ts set_ts]. unfold Thread.set_sleeping, Thread.set_wait_target.
  rewrite Thread.find_modify by (intros u; by destruct (Thread.terminal _)). rewrite Z.eqb_refl.
  rewrite Thread.find_modify by done. rewrite Z.eqb_refl, Hf. cbn. rewrite Hr. cbn.
  eexists. split; [done|]. unfold Thread.waits. cbn. by rewrite bool_decide_eq_true_2.
Qed.

Lemma drop_claim_hw (s : State) : lines (drop_claim s) = lines s /\ cfg (drop_claim s) = cfg s.
Proof. unfold drop_claim. destruct (is_audio s); [|done]. cbv zeta. unfold on_audio. by destruct (Audio.driver_stopped _). Qed.

Lemma bdf_fields (b d f : Z) : 0 <= b < 256 -> 0 <= d < 256 -> 0 <= f < 256 ->
  let x := b * 2 ^ 16 + d * 2 ^ 8 + f in bdf_bus x = b /\ bdf_device x = d /\ bdf_function x = f.
Proof.
  intros Hb Hd Hf. cbv zeta. unfold bdf_bus, bdf_device, bdf_function. rewrite !Z.shiftr_div_pow2 by lia.
  change 255 with (Z.ones 8). rewrite !Z.land_ones by lia. change (2 ^ 16) with 65536. change (2 ^ 8) with 256.
  split_and!.
  - rewrite Z.mod_small; Z.to_euclidean_division_equations; lia.
  - Z.to_euclidean_division_equations; lia.
  - Z.to_euclidean_division_equations; lia.
Qed.

(** A driver's end silences its device.  When the owner of the line exits, the line
    is masked and every other one left alone, memory decoding and bus mastering of the
    claimed device are switched off and no other configuration register is touched,
    the audio device is offline if it was the owner's, and the line is free. *)
Theorem driver_exit_quiesces (hw_write : Z -> Z -> Z -> Z) (p b d f cm : Z) (s : State) :
  inv s -> owner s = p -> p <> 0 -> Ioapic.line (number s) -> Ioapic.base (lines s) <> 0 ->
  bdf s = b * 2 ^ 16 + d * 2 ^ 8 + f -> bdf s <> 0 -> 0 <= b < 256 -> 0 <= d < 32 -> 0 <= f < 8 ->
  Pci.command_reg hw_write b d f cm -> 0 <= cm < 65536 ->
  let s' := release_irq_for_pid hw_write p s in
  claim s' = (0, 0, 0, false, false) /\
  Ioapic.masked (number s) (chip s') = true /\ other_lines (number s) s s' /\
  Z.land (Pci.reg (Pci.cmd_addr b d f) (cfg s')) 6 = 0 /\
  (forall a, a <> Pci.cmd_addr b d f -> Pci.reg a (cfg s') = Pci.reg a (cfg s)).
Proof.
  intros Hi Ho Hp0 Hl Hbase Hbdf Hb0 Hb Hd Hf Hcm Hcmr. cbv zeta.
  destruct (exit_spec hw_write p s Hi) as [[Hne _]|[_ Hcl]]; [congruence|]. split; [done|].
  destruct (inv_claimed s Hi) as [Hn _]; [congruence|]. destruct (bdf_fields b d f) as (E1 & E2 & E3); [lia..|].
  rewrite <- Hbdf in E1, E2, E3. unfold release_irq_for_pid. rewrite Ho, Z.eqb_refl, (proj2 (Z.eqb_neq (number s) 0)) by lia.
  cbn [negb]. unfold route_driver_irq, Ioapic.route_driver_irq. cbn [set_claim lines].
  rewrite (proj2 (Z.eqb_neq _ _) Hbase). cbn [snd set_lines set_claim bdf]. rewrite (proj2 (Z.eqb_neq _ _) Hb0). cbn [negb].
  unfold quiesce. rewrite E1, E2, E3. cbn [number owner is_audio]. set (s1 := set_claim _ _ 0 _ _).
  pose proof (Pci.read_u32_eq hw_write b d f 4 (cfg s)) as Hr. fold (Pci.cmd_addr b d f) in Hr.
  unfold on_cfg, Pci.read_command. change (cfg s1) with (cfg s). rewrite Hr. cbn [set_cfg cfg].
  set (v := Z.land (Z.land _ 65535) (Z.lnot 6)). set (c1 := Pci.mkState _ _).
  destruct (Pci.write_command_reg hw_write b d f v cm c1 Hcm Hcmr) as [Hoth Hcmd].
  match goal with |- context [drop_claim ?x] => set (s2 := x) end.
  destruct (drop_claim_hw s2) as [Hlines Hcfg]. unfold other_lines, chip. rewrite Hlines, Hcfg.
  split_and!.
  - by apply masked_mask.
  - intros j Hj Hne. by apply Ioapic.mask_irq_spec.
  - change (cfg s2) with (Pci.write_command hw_write b d f v c1).
    change 6 with (Z.land 65535 6). rewrite Z.land_assoc, Hcmd, <- Z.land_assoc, (Z.land_comm cm), Z.land_assoc.
    unfold v. rewrite <- (Z.land_assoc _ (Z.lnot 6)). change (Z.land (Z.lnot 6) 6) with 0. by rewrite Z.land_0_r.
  - intros a Ha. change (cfg s2) with (Pci.write_command hw_write b d f v c1). rewrite (Hoth a Ha). done.
Qed.

Module Example.
(** An audio driver, process 5 on CPU 0 (thread 1), and its interrupt thread 2; the
    controller at 0:1.0 is wired to line 11. *)
Definition thread (id : Z) (st : Thread.ThreadState) (w : Thread.WaitTarget) (cpu : Z) : Thread.Thread :=
  Thread.mkThread id 5 st 0 Process.Example.ctx 0 0 false 0 0 w Thread.Driver cpu.
Definition proc : Process :=
  mkProc 5 Thread.Running (fixed_name [97]) 0 0 0 0 0 false false false false false false 0 0 0 Thread.Driver (Some 1) [1; 2].
Definition procs_with (w : Thread.Thread) : PState :=
  mkPState (Thread.mkTState [thread 1 Thread.Running Thread.WNone 0; w] 3 true 0 (replicate 16 0) ∅ Allocator.Allocator.ALLOCATOR)
    (Scheduler.mkSState (Some 5 :: replicate 15 None) (Some 1 :: replicate 15 None) (replicate 16 None) (replicate 16 false))
    [kernel_process; proc] 7 true.
Definition hda : Pci.Device := Pci.mkDevice 0 1 0 32902 9832 4 3 0 0.
Definition cfg0 : Pci.State := Pci.mkState 0 (<[Pci.config_address 0 1 0 60 := 11]> (<[Pci.config_address 0 1 0 4 := 7]> ∅)).
Definition free (w : Thread.Thread) : State :=
  mkState 0 0 0 false true [hda] cfg0 (Ioapic.mkLines 4273995776 0 (Ioapic.mkIoApic 0 ∅))
    (Audio.mkAudio 1 false [Some (Ipc.new_channel Audio.CHANNEL_NAME)]) false (procs_with w).
Definition idle : Thread.Thread := thread 2 Thread.Ready Thread.WNone 1.
Definition waiting : Thread.Thread := thread 2 Thread.Sleeping (Thread.WIrq 11) 1.
Definition claimed (w : Thread.Thread) : State := snd (sys_irq_claim Pci.Example.hw ∅ 0 0 256 (free w)).

Lemma claim_run (w : Thread.Thread) : fst (sys_irq_claim Pci.Example.hw ∅ 0 0 256 (free w)) = 11.
Proof. reflexivity. Qed.

(** Two drivers: process 5 runs on CPUs 0 and 1, process 6 on CPU 2. *)
Definition proc6 : Process :=
  mkProc 6 Thread.Running (fixed_name [98]) 0 0 0 0 0 false false false false false false 0 0 0 Thread.Driver (Some 3) [3].
Definition two : State :=
  set_ps (mkPState (ts (procs_with idle))
    (Scheduler.mkSState (Some 5 :: Some 5 :: Some 6 :: replicate 13 None) (Some 1 :: Some 2 :: Some 3 :: replicate 13 None)
      (replicate 16 None) (replicate 16 false))
    [kernel_process; proc; proc6] 7 true) (free idle).
Definition acts (k : Kernel) (es : list action) : Kernel := fold_left (fun k a => act Pci.Example.hw ∅ 0 a k) es k.

(** Both claim; the compare-exchange of process 6 comes first. *)
Definition both : list action := [Start 1 (Claim 0 256); Start 3 (Claim 2 256); Go 3; Go 1; Go 3; Go 3; Go 3; Go 3; Go 3; Go 3].

(** A run of allowed actions is a trace. *)
Fixpoint allowed (k : Kernel) (es : list action) : Prop :=
  match es with [] => True | a :: es => may a k /\ allowed (act Pci.Example.hw ∅ 0 a k) es end.
Lemma acts_trace (es : list action) (k : Kernel) :
  allowed k es -> trace (step Pci.Example.hw ∅ 0) k es (acts k es).
Proof.
  revert k. induction es as [|a es IH]; intros k; [constructor|]. intros [Hm Ha].
  eapply trace_cons; [by split|]. apply (IH _ Ha).
Qed.

Lemma both_run : trace (step Pci.Example.hw ∅ 0) (mkKernel two ∅) both (acts (mkKernel two ∅) both).
Proof.
  apply acts_trace. split.
  - split_and!; [done..|]. intros t' c Hc. cbn in Hc. by rewrite lookup_empty in Hc.
  - split; [|by split_and!]. set (k := act _ _ _ _ _).
    assert (calls k = {[1 := mkCall 5 (CExchange 256 11 true)]}) as E by reflexivity.
    assert (entry_pid (Claim 2 256) (st k) = 6) as Ep by reflexivity.
    split_and!; [by rewrite E|by rewrite Ep|]. intros t' c Hc. rewrite Ep. rewrite E in Hc.
    by apply lookup_singleton_Some in Hc as [_ <-].
Qed.


(** Process 5 owns the line.  Two of its threads release it: both pass the tests of
    owner and number, the first finishes, process 6 claims the line and is told its
    number, and the second goes on. *)
Definition owned5 : Kernel := acts (mkKernel two ∅) (Start 1 (Claim 0 256) :: replicate 7 (Go 1)).
Definition racing : Kernel :=
  acts owned5 ([Start 1 (Release 0 11); Start 2 (Release 1 11); Go 1; Go 1; Go 2; Go 2] ++ replicate 7 (Go 1) ++
    Start 3 (Claim 2 256) :: replicate 7 (Go 3)).
Lemma irq_delivery_witness : Ioapic.masked 11 (chip (hda_irq_handler (claimed waiting))) = true.
Proof.
  apply (irq_delivery 0 11 2 waiting (claimed waiting)); try done; [by apply (bool_decide_unpack _)|].
  intros u Hu Hw. change (u ∈ [thread 1 Thread.Running Thread.WNone 0; waiting]) in Hu.
  apply elem_of_cons in Hu as [->|Hu]; [by vm_compute in Hw|]. by apply list_elem_of_singleton in Hu.
Defined.

Lemma irq_lost_before_wait_witness :
  let '(r, s') := sys_irq_wait 0 11 (hda_irq_handler (claimed idle)) in
  r = SysFile.BLOCK_TO_SCHEDULER /\ Ioapic.masked 11 (chip s') = true /\
  exists t', Thread.find 1 (ts (ps s')) = Some t' /\ Thread.waits (Thread.WIrq 11) t' = true.
Proof.
  apply (irq_lost_before_wait 0 11 1 (thread 1 Thread.Running Thread.WNone 0) (claimed idle)); try done.
  apply Forall_forall. vm_compute. repeat constructor.
Defined.

Lemma driver_exit_quiesces_witness :
  Z.land (Pci.reg (Pci.cmd_addr 0 1 0) (cfg (release_irq_for_pid Pci.Example.hw 5 (claimed idle)))) 6 = 0.
Proof.
  apply (driver_exit_quiesces Pci.Example.hw 5 0 1 0 1031 (claimed idle)); try done.
  intros old v. change (Pci.Example.hw (Pci.cmd_addr 0 1 0) old v) with (Z.land v 1031). by rewrite <- Z.land_assoc.
Defined.
End Example.

(** A second release wipes another driver's claim.  When two threads of the owner are
    both past the tests of [sys_irq_release] (runtime.rs:352-356), the first frees the
    line, another process claims it and is given its number, and the stores of the
    second then clear that claim: the line is masked, the audio device offline and the
    new owner's calls are refused, without a step of the new owner. *)
Theorem release_race :
  let act := act Pci.Example.hw ∅ 0 in
  claim (st Example.owned5) = (5, 11, 256, true, true) /\
  claim (st Example.racing) = (6, 11, 256, true, true) /\ Ioapic.masked 11 (chip (st Example.racing)) = false /\
  calls Example.racing !! 3 = None /\ calls Example.racing !! 2 = Some (mkCall 5 (RRoute 11)) /\
  let k := fold_left (fun k a => act a k) (replicate 7 (Go 2)) Example.racing in
  claim (st k) = no_claim /\ Ioapic.masked 11 (chip (st k)) = true /\
  fst (sys_irq_ack 2 11 (st k)) = u64_max.
Proof. vm_compute. by split_and!. Qed.

End Irq.
