(* ===== verification/DriverModule.v ===== *)
(** Driver modules: [crates/kernel/src/driver_module.rs], with the handler of
    [crates/kernel/src/syscall/driver.rs], the exit notification of
    [crates/kernel/src/syscall.rs] ([syscall_return_to_kernel]) and
    [crates/kernel/src/syscall/context.rs], the fault exit of
    [crates/kernel/src/handlers/faults.rs], and the reader of the listing,
    [parse_entry] of [userspace/programs/drivers.rs].

    The table is sixteen optional entries; loading goes through the loader of
    [Exec.v].  A result [None] is a panic: [name[..32]] cuts a name inside of a
    character. *)
From stdpp Require Import base sets list numbers option gmap.
From S2P Require Import Prelude Str Pmm Vmm Uaccess Thread Scheduler Process Fd Vfs Exec.

Open Scope Z_scope.

Module DriverModule.
Import Process.Process.

Definition MAX_DRIVERS : nat := 16.
Definition MAX_NAME : nat := 32.
Definition ENTRY_SIZE : Z := 48.

Inductive DriverStatus := Running | Unloading | Failed.
Definition status_code (x : DriverStatus) : Z := match x with Running => 0 | Unloading => 1 | Failed => 2 end.

Record DriverEntry := mkEntry { id : Z; name : list Z; name_len : nat; pid : Z; status : DriverStatus }.
Record DriverTable := mkTable { entries : list (option DriverEntry); next_id : Z }.

Definition set_status (x : DriverStatus) (e : DriverEntry) : DriverEntry := mkEntry (id e) (name e) (name_len e) (pid e) x.

(** The name of a path: after the last slash, before the last dot of that. *)
Definition extract_name (path : list Z) : list Z :=
  let base := match Str.rfind Str.SLASH path with Some i => drop (i + 1) path | None => path end in
  match Str.rfind Str.DOT base with Some i => take i base | None => base end.

(** [str::is_char_boundary]. *)
Definition is_char_boundary (s : list Z) (i : nat) : bool :=
  match s !! i with Some b => negb (Str.cont b) | None => (i =? length s)%nat end.

Definition same_name (n : list Z) (o : option DriverEntry) : bool :=
  match o with Some e => (name_len e =? length n)%nat && bool_decide (take (name_len e) (name e) = n) | None => false end.
Definition is_free (o : option DriverEntry) : bool := match o with None => true | Some _ => false end.
Definition has_id (i : Z) (o : option DriverEntry) : bool := match o with Some e => id e =? i | None => false end.
Definition has_pid (p : Z) (o : option DriverEntry) : bool := match o with Some e => pid e =? p | None => false end.

(** The entry for a new driver. *)
Definition new_entry (i p : Z) (n : list Z) : DriverEntry :=
  let len := Nat.min (length n) MAX_NAME in mkEntry i (take len n ++ replicate (MAX_NAME - len) 0) len p Running.

Section Ops.
Context {A : Type} `{TableAllocator A}.

Record State := mkState { table : DriverTable; tmps : list Z; world : Exec.State A }.
Definition set_table (t : DriverTable) (s : State) : State := mkState t (tmps s) (world s).
Definition set_world (w : Exec.State A) (s : State) : State := mkState (table s) (tmps s) w.
Definition on_ps (f : PState -> PState) (s : State) : State := set_world (Exec.set_ps (f (Exec.ps (world s))) (world s)) s.

Definition load (env : Exec.Env) (path : list Z) (s : State) : option Z * State :=
  let n := extract_name path in
  if existsb (same_name n) (entries (table s)) then (Some u64_max, s)
  else
    let '(p, w) := Exec.spawn_driver env path (world s) in
    let s := set_world w s in
    if p =? 0 then (Some u64_max, s)
    else
      let t := table s in
      match position is_free (entries t) with
      | Some i =>
          let s := set_table (mkTable (entries t) ((next_id t + 1) mod 2 ^ 32)) s in
          if is_char_boundary n (Nat.min (length n) MAX_NAME) then
            (Some (next_id t),
             set_table (mkTable (<[i := Some (new_entry (next_id t) p n)]> (entries (table s))) (next_id (table s))) s)
          else (None, s)
      | None => (Some u64_max, on_ps (kill_pid p) s)
      end.

Definition unload (i : Z) (s : State) : bool * State :=
  match find_first (has_id i) (entries (table s)) with
  | Some (Some e) =>
      (true, on_ps (send_driver_exit (pid e))
               (set_table (mkTable (update_first (has_id i) (fmap (set_status Unloading)) (entries (table s))) (next_id (table s))) s))
  | _ => (false, s)
  end.

Definition on_process_exit (p : Z) (s : State) : State :=
  set_table (mkTable (update_first (has_pid p) (fun _ => None) (entries (table s))) (next_id (table s))) s.

(** The bytes of an entry, and their reader in user space. *)
Definition entry_bytes (e : DriverEntry) : list Z :=
  to_le 4 (id e) ++ to_le 4 (pid e mod 2 ^ 32) ++ to_le 4 (status_code (status e)) ++ name e ++ to_le 4 (Z.of_nat (name_len e)).

(** [ub] is the caller's memory. *)
Definition write_entry (ub : gmap Z Z) (ptr : Z) (e : DriverEntry) : gmap Z Z := Uaccess.store ub ptr (entry_bytes e).

(** The loop of [list]: the number written and the buffer. *)
Fixpoint list_loop (l : list (option DriverEntry)) (max count ptr : Z) (ub : gmap Z Z) : Z * gmap Z Z :=
  match l with
  | [] => (count, ub)
  | o :: l' =>
      if max <=? count then (count, ub)
      else
        match o with
        | Some e => list_loop l' max (count + 1) ptr (write_entry ub (ptr + count * ENTRY_SIZE) e)
        | None => list_loop l' max count ptr ub
        end
  end.

Definition list_drivers (cr3 : Z) (m ub : gmap Z Z) (buf_ptr buf_len : Z) (s : State) : Z * gmap Z Z :=
  let max := buf_len / ENTRY_SIZE in
  if max =? 0 then (0, ub)
  else
    match Uaccess.validate_range_in cr3 buf_ptr (max * ENTRY_SIZE) true m with
    | Some true => list_loop (entries (table s)) max 0 buf_ptr ub
    | _ => (u64_max, ub)
    end.

Definition info (cr3 : Z) (m ub : gmap Z Z) (i buf_ptr : Z) (s : State) : Z * gmap Z Z :=
  match Uaccess.validate_range_in cr3 buf_ptr ENTRY_SIZE true m with
  | Some true =>
      match find_first (has_id i) (entries (table s)) with
      | Some (Some e) => (0, write_entry ub buf_ptr e)
      | _ => (u64_max, ub)
      end
  | _ => (u64_max, ub)
  end.

(** ** The list of drivers to load at boot *)

Fixpoint load_lines (env : Exec.Env) (l : list (list Z)) (s : State) : option unit * State :=
  match l with
  | [] => (Some (), s)
  | line :: l' =>
      let line := Str.trim line in
      if negb (bool_decide (line = [])) && negb (Str.starts_with [35] line) then
        match load env line s with
        | (None, s) => (None, s)
        | (Some _, s) => load_lines env l' s
        end
      else load_lines env l' s
  end.

Definition load_from_list (env : Exec.Env) (path : list Z) (s : State) : option unit * State :=
  match Vfs.read_file path (Exec.nodes (world s)) with
  | Err _ => (Some (), s)
  | Ok data => if Str.utf8_valid data then load_lines env (Str.lines data) s else (Some (), s)
  end.

(** ** How the table learns of an exit *)

Definition exiting_pid_tmp (cpu : nat) (s : State) : Z := default 0 (tmps s !! cpu).
Definition set_exiting_pid_tmp (cpu : nat) (v : Z) (s : State) : State := mkState (table s) (<[cpu := v]> (tmps s)) (world s).

(** [syscall_return_to_kernel], up to the dispatch. *)
Definition return_to_kernel (cpu : nat) (s : State) : State :=
  let p := exiting_pid_tmp cpu s in
  let s := set_exiting_pid_tmp cpu 0 s in
  let s := on_ps (set_current_pid cpu None) s in
  if negb (p =? 0) then on_process_exit p s else s.

(** A user-mode fault ends the process and dispatches at once; [SYS_EXIT] goes through
    [return_to_kernel]. *)
Context `{TeardownEffects}.
Definition user_fault (cpu : nat) (s : State) : State :=
  let p := current_pid cpu (Exec.ps (world s)) in
  if negb (p =? 0) then on_ps (fun x => snd (exit_current cpu x)) (set_exiting_pid_tmp cpu p s) else s.
Definition sys_exit (cpu : nat) (s : State) : State :=
  let s := match Scheduler.current_user_pid cpu (ss (Exec.ps (world s))) with
           | Some p => set_exiting_pid_tmp cpu p s
           | None => s
           end in
  return_to_kernel cpu (on_ps (fun x => snd (exit_current cpu x)) s).

(** The system calls of the handler. *)
Inductive Call := DriverLoad (ptr len : Z) | DriverUnload (i : Z) | DriverList (ptr len : Z) | DriverInfo (i ptr : Z).

Definition handle (env : Exec.Env) (cr3 : Z) (ub : gmap Z Z) (c : Call) (s : State) : option Z * gmap Z Z * State :=
  let m := Vmm.mem (Exec.vm (world s)) in
  match c with
  | DriverLoad ptr len =>
      if (ptr =? 0) || (len =? 0) then (Some u64_max, ub, s)
      else
        match Uaccess.read_str cr3 m ub ptr len with
        | Some path => let '(r, s) := load env path s in (r, ub, s)
        | None => (Some u64_max, ub, s)
        end
  | DriverUnload i => let '(ok, s) := unload (i mod 2 ^ 32) s in (Some (if ok then 0 else u64_max), ub, s)
  | DriverList ptr len => let '(r, ub) := list_drivers cr3 m ub ptr len s in (Some r, ub, s)
  | DriverInfo i ptr => let '(r, ub) := info cr3 m ub (i mod 2 ^ 32) ptr s in (Some r, ub, s)
  end.
End Ops.
#[global] Arguments State A : clear implicits.

(** [parse_entry] of the program that lists drivers. *)
Definition parse_entry (buf : list Z) : Z * Z * Z * list Z * Z :=
  (from_le (take 4 buf), from_le (take 4 (drop 4 buf)), from_le (take 4 (drop 8 buf)), take 32 (drop 12 buf),
   from_le (take 4 (drop 44 buf))).

(** * The table *)

(** The name an entry keeps. *)
Definition stored (e : DriverEntry) : list Z := take (name_len e) (name e).
Definition listed (t : DriverTable) (i : nat) (e : DriverEntry) : Prop := entries t !! i = Some (Some e).

Record table_ok (t : DriverTable) : Prop := {
  tk_len : length (entries t) = MAX_DRIVERS;
  tk_entry : forall i e, listed t i e -> 1 <= id e < next_id t /\ length (name e) = MAX_NAME /\ (name_len e <= MAX_NAME)%nat;
  tk_id : forall i j e e', listed t i e -> listed t j e' -> id e = id e' -> i = j;
  tk_name : forall i j e e', listed t i e -> listed t j e' -> stored e = stored e' -> i = j }.

Lemma same_name_spec (n : list Z) (l : list (option DriverEntry)) (i : nat) (e : DriverEntry) :
  existsb (same_name n) l = false -> (length n <= MAX_NAME)%nat -> length (name e) = MAX_NAME -> (name_len e <= MAX_NAME)%nat ->
  l !! i = Some (Some e) -> stored e <> n.
Proof.
  intros Hex Hn Hl Hle Hi Hs. assert (existsb (same_name n) l = true); [|congruence].
  apply existsb_exists. exists (Some e). split; [apply list_elem_of_In; by eapply list_elem_of_lookup_2|].
  cbn [same_name]. assert (length (stored e) = name_len e) as Hlen by (unfold stored; rewrite length_take; lia).
  rewrite Hs in Hlen. rewrite Hlen, Nat.eqb_refl. by rewrite bool_decide_eq_true_2.
Qed.

Lemma stored_new (i p : Z) (n : list Z) : (length n <= MAX_NAME)%nat -> stored (new_entry i p n) = n.
Proof.
  intros Hn. unfold stored, new_entry. cbn [name name_len]. rewrite Nat.min_l by done.
  rewrite take_app_le by (rewrite length_take; lia). rewrite take_take, Nat.min_id. by apply take_ge.
Qed.

Lemma listed_insert (t : DriverTable) (k i : nat) (e x : DriverEntry) (nid : Z) :
  (k < length (entries t))%nat ->
  listed (mkTable (<[k := Some e]> (entries t)) nid) i x -> (i = k /\ x = e) \/ (i <> k /\ listed t i x).
Proof.
  intros Hk. unfold listed. cbn [entries]. destruct (decide (i = k)) as [->|Hne].
  - rewrite list_lookup_insert_eq by done. intros [= ->]. by left.
  - rewrite list_lookup_insert_ne by done. by right.
Qed.

(** A new entry in a free slot. *)
Lemma table_add (t : DriverTable) (k : nat) (p : Z) (n : list Z) :
  table_ok t -> 1 <= next_id t -> next_id t + 1 < 2 ^ 32 -> entries t !! k = Some None ->
  existsb (same_name n) (entries t) = false -> (length n <= MAX_NAME)%nat ->
  table_ok (mkTable (<[k := Some (new_entry (next_id t) p n)]> (entries t)) (next_id t + 1)).
Proof.
  intros [Hl He Hid Hnm] Hn1 Hn2 Hk Hex Hn. pose proof (lookup_lt_Some _ _ _ Hk) as Hlt. split.
  - cbn [entries]. by rewrite length_insert.
  - intros i e [[-> ->]|[_ Hi]]%listed_insert; [|destruct (He _ _ Hi) as (H1 & H2 & H3); cbn [next_id]; split_and!; lia|done].
    cbn. rewrite length_app, length_take, length_replicate. unfold MAX_NAME in *. split_and!; lia.
  - intros i j e e' [[-> ->]|[Hi Hle]]%listed_insert [[-> ->]|[Hj Hle']]%listed_insert; try done; cbn [id new_entry]; intros Heq.
    + destruct (He _ _ Hle') as [? _]. lia.
    + destruct (He _ _ Hle) as [? _]. lia.
    + by eapply Hid.
  - intros i j e e' [[-> ->]|[Hi Hle]]%listed_insert [[-> ->]|[Hj Hle']]%listed_insert; try done; rewrite ?stored_new by done; intros Heq.
    + destruct (He _ _ Hle') as (_ & H2 & H3). by destruct (same_name_spec n _ _ _ Hex Hn H2 H3 Hle').
    + destruct (He _ _ Hle) as (_ & H2 & H3). by destruct (same_name_spec n _ _ _ Hex Hn H2 H3 Hle).
    + by eapply Hnm.
Qed.

Lemma update_first_lookup {X : Type} (P : X -> bool) (f : X -> X) (l : list X) (i : nat) (y : X) :
  update_first P f l !! i = Some y -> exists x, l !! i = Some x /\ (y = x \/ (P x = true /\ y = f x)).
Proof.
  revert i. induction l as [|a l IH]; intros i; [done|]. simpl. destruct (P a) eqn:E.
  - destruct i as [|i]; simpl; [intros [= <-]; eauto|eauto].
  - destruct i as [|i]; simpl; [intros [= <-]; eauto|apply IH].
Qed.

(** Entries may go, or change their status. *)
Lemma table_update (t : DriverTable) (P : option DriverEntry -> bool) (f : option DriverEntry -> option DriverEntry) :
  (forall e, match f (Some e) with
             | Some e' => id e' = id e /\ name e' = name e /\ name_len e' = name_len e | None => True end) ->
  (forall o, P o = true -> is_Some o) ->
  table_ok t -> table_ok (mkTable (update_first P f (entries t)) (next_id t)).
Proof.
  intros Hf HP [Hl He Hid Hnm].
  assert (forall i e, listed (mkTable (update_first P f (entries t)) (next_id t)) i e ->
    exists e0, listed t i e0 /\ id e = id e0 /\ name e = name e0 /\ name_len e = name_len e0) as Hsub.
  { intros i e Hi. destruct (update_first_lookup _ _ _ _ _ Hi) as (x & Hx & [<-|[Hp Hfx]]); [by exists e|].
    destruct (HP _ Hp) as [e0 ->]. specialize (Hf e0). rewrite <- Hfx in Hf. by exists e0. }
  split.
  - cbn [entries]. by rewrite length_update_first.
  - intros i e (e0 & H0 & -> & -> & ->)%Hsub. by apply (He i).
  - intros i j e e' (e0 & H0 & E1 & _)%Hsub (e1 & H1 & E2 & _)%Hsub Heq. eapply (Hid i j e0 e1); [done..|congruence].
  - intros i j e e' (e0 & H0 & _ & E1 & E1')%Hsub (e1 & H1 & _ & E2 & E2')%Hsub Heq.
    eapply (Hnm i j e0 e1); [done..|]. unfold stored in *. congruence.
Qed.

(** ** Runs *)

Inductive event {A : Type} :=
  | Load (env : Exec.Env) (path : list Z)
  | Unload (i : Z)
  | Exit (p : Z)
  | Other (w : Exec.State A).   (* anything else the kernel does *)
#[global] Arguments event A : clear implicits.

Section Runs.
Context {A : Type} `{TableAllocator A}.

(** A load that returns (does not panic), of a name that fits. *)
Inductive step : State A -> event A -> State A -> Prop :=
  | step_load env path s r s' :
      (length (extract_name path) <= MAX_NAME)%nat -> load env path s = (Some r, s') -> step s (Load env path) s'
  | step_unload i s : step s (Unload i) (snd (unload i s))
  | step_exit p s : step s (Exit p) (on_process_exit p s)
  | step_other w s : step s (Other w) (set_world w s).

Lemma step_table (s s' : State A) (e : event A) :
  step s e s' -> table_ok (table s) -> 1 <= next_id (table s) -> next_id (table s) + 1 < 2 ^ 32 ->
  table_ok (table s') /\ next_id (table s) <= next_id (table s') <= next_id (table s) + 1.
Proof.
  intros Hs Hok H1 H2. destruct Hs as [env path s r s' Hn Hl|i s|p s|w s].
  - unfold load in Hl. destruct (existsb _ _) eqn:Hex; [simplify_eq; split; [done|lia]|].
    destruct (Exec.spawn_driver env path (world s)) as [p w]. cbn [set_world table] in Hl.
    destruct (p =? 0); [simplify_eq; split; [done|cbn; lia]|].
    destruct (position is_free (entries (table s))) as [k|] eqn:Hk; [|simplify_eq; split; [done|cbn; lia]].
    cbn [set_table table entries next_id] in Hl. destruct (is_char_boundary _ _); [|done]. simplify_eq. cbn [table set_table].
    rewrite Z.mod_small by lia. apply position_Some in Hk as (o & Hk & Ho & _). split; [|cbn; lia].
    apply table_add; try done. by destruct o.
  - unfold unload. destruct (find_first _ _) as [[e|]|]; cbn [snd]; [|split; [done|lia]..].
    split; [|cbn; lia]. apply table_update; [done|by intros [e'|]|done].
  - split; [|cbn; lia]. apply table_update; [done|by intros [e'|]|done].
  - split; [done|cbn; lia].
Qed.

(** The driver table is a table.  From the empty table on, under any loads (of names
    of up to 32 bytes, up to 2^32 of them), unloads and exits: the sixteen slots stay
    sixteen, every driver has an identifier and a name of its own, and stored names
    fit their field, so that an identifier or a name always means at most one
    driver. *)
Theorem driver_table_unique (s0 s : State A) (es : list (event A)) :
  table s0 = mkTable (replicate MAX_DRIVERS None) 1 -> trace step s0 es s -> Z.of_nat (length es) < 2 ^ 32 - 2 ->
  table_ok (table s).
Proof.
  intros H0 Htr Hlen.
  assert (table_ok (table s0)) as Hok.
  { rewrite H0. assert (forall i e, ~ listed (mkTable (replicate MAX_DRIVERS None) 1) i e) as Hno.
    { intros i e Hi. by apply lookup_replicate in Hi as [? _]. }
    split; [done|intros i e Hi; by destruct (Hno i e)|intros i j e e' Hi; by destruct (Hno i e)..]. }
  assert (1 <= next_id (table s0) /\ next_id (table s0) + Z.of_nat (length es) + 1 < 2 ^ 32) as [H1 H2] by (rewrite H0; cbn; lia).
  clear H0 Hlen. induction Htr as [s0|s0 e s1 es s2 Hs Htr IH]; [done|]. cbn [length] in H2.
  destruct (step_table _ _ _ Hs Hok H1 ltac:(lia)) as [Hok' Hn]. apply IH; [done|lia..].
Qed.
End Runs.

(** * The listing *)

Lemma length_entry_bytes (e : DriverEntry) : length (name e) = MAX_NAME -> length (entry_bytes e) = 48%nat.
Proof. intros Hn. unfold entry_bytes. rewrite !length_app, !length_to_le, Hn. done. Qed.

(** The user program reads an entry as the kernel wrote it. *)
Lemma parse_entry_bytes (e : DriverEntry) :
  0 <= id e < 2 ^ 32 -> length (name e) = MAX_NAME -> (name_len e <= MAX_NAME)%nat ->
  parse_entry (entry_bytes e) = (id e, pid e mod 2 ^ 32, status_code (status e), name e, Z.of_nat (name_len e)).
Proof.
  intros Hi Hn Hl.
  assert (forall x, 0 <= x < 2 ^ 32 -> from_le (to_le 4 x) = x) as Hr.
  { intros x Hx. apply from_to_le. by change (256 ^ Z.of_nat 4) with (2 ^ 32). }
  assert (parse_entry (entry_bytes e) =
    (from_le (to_le 4 (id e)), from_le (to_le 4 (pid e mod 2 ^ 32)), from_le (to_le 4 (status_code (status e))),
     take 32 (name e ++ to_le 4 (Z.of_nat (name_len e))),
     from_le (take 4 (drop 32 (name e ++ to_le 4 (Z.of_nat (name_len e))))))) as -> by reflexivity.
  unfold MAX_NAME in *. rewrite (take_app_length' (name e) _ 32), (drop_app_length' (name e) _ 32) by done.
  rewrite (take_ge (to_le 4 _)) by (rewrite length_to_le; lia).
  rewrite !Hr; [done|lia|by destruct (status e)|by apply Z.mod_pos_bound|done].
Qed.

(** The loop writes the entries one after the other and nothing else. *)
Lemma list_loop_spec (l : list (option DriverEntry)) (max count ptr : Z) (ub : gmap Z Z) :
  Forall (fun o => match o with Some e => length (name e) = MAX_NAME | None => True end) l -> 0 <= count <= max ->
  let '(c, ub') := list_loop l max count ptr ub in
  let es := take (Z.to_nat (max - count)) (omap (fun o => o) l) in
  c = count + Z.of_nat (length es) /\
  (forall k e, es !! k = Some e -> Uaccess.byte_run ub' (ptr + (count + Z.of_nat k) * ENTRY_SIZE) ENTRY_SIZE = entry_bytes e) /\
  (forall a, a < ptr + count * ENTRY_SIZE \/ ptr + c * ENTRY_SIZE <= a -> ub' !! a = ub !! a).
Proof.
  intros Hl. revert count ub. induction Hl as [|o l Ho Hl IH]; intros count ub Hc; cbn [list_loop].
  { cbn. rewrite take_nil. cbn. split_and!; [lia|done|done]. }
  destruct (Z.leb_spec max count) as [Hm|Hm].
  { replace (Z.to_nat (max - count)) with 0%nat by lia. cbv zeta. rewrite take_0. cbn [length]. split_and!; [lia|done|done]. }
  destruct o as [e|]; [|apply IH; lia]. specialize (IH (count + 1) (write_entry ub (ptr + count * ENTRY_SIZE) e) ltac:(lia)).
  destruct (list_loop l _ _ _ _) as [c ub']. cbn [omap list_omap]. destruct IH as (IHc & IHb & IHo).
  replace (Z.to_nat (max - count)) with (S (Z.to_nat (max - (count + 1)))) by lia. cbn [take].
  set (es := take _ (omap _ l)) in *. cbn [length]. unfold ENTRY_SIZE in *.
  assert (forall a, 0 <= a - (ptr + count * 48) < 48 ->
            ub' !! a = Uaccess.store ub (ptr + count * 48) (entry_bytes e) !! a) as Hfirst.
  { intros a Ha. apply IHo. lia. }
  split_and!; [lia| |].
  - intros [|k] x; cbn [lookup list_lookup].
    + intros [= <-]. rewrite Z.add_0_r. rewrite (Exec.byte_run_ext (Uaccess.store ub (ptr + count * 48) (entry_bytes e)) ub').
      * pose proof (Uaccess.byte_run_store ub (ptr + count * 48) (entry_bytes e)) as Hs. by rewrite (length_entry_bytes e Ho) in Hs.
      * intros a Ha. apply Hfirst. lia.
    + intros Hk. rewrite <- (IHb k x Hk). f_equal. lia.
  - intros a Ha. rewrite IHo by lia. unfold write_entry. apply Exec.store_outside. rewrite (length_entry_bytes e Ho). lia.
Qed.

Section Listing.
Context {A : Type} `{TableAllocator A}.

(** The listing round trip.  With a table in order and a writable buffer, the
    listing call returns the number of drivers, cut off at what the buffer holds; what the
    user program reads at the [k]-th place is the [k]-th driver of the table, its
    identifier, status and name as stored and its process number; the rest of the
    caller's memory is untouched. *)
Theorem driver_list_roundtrip (cr3 buf_ptr buf_len : Z) (m ub : gmap Z Z) (s : State A) :
  table_ok (table s) -> next_id (table s) < 2 ^ 32 -> ENTRY_SIZE <= buf_len ->
  Uaccess.validate_range_in cr3 buf_ptr (buf_len / ENTRY_SIZE * ENTRY_SIZE) true m = Some true ->
  let '(count, ub') := list_drivers cr3 m ub buf_ptr buf_len s in
  let es := take (Z.to_nat (buf_len / ENTRY_SIZE)) (omap (fun o => o) (entries (table s))) in
  count = Z.of_nat (length es) /\
  (forall k e, es !! k = Some e ->
     parse_entry (Uaccess.byte_run ub' (buf_ptr + Z.of_nat k * ENTRY_SIZE) ENTRY_SIZE) =
     (id e, pid e mod 2 ^ 32, status_code (status e), name e, Z.of_nat (name_len e))) /\
  (forall a, a < buf_ptr \/ buf_ptr + count * ENTRY_SIZE <= a -> ub' !! a = ub !! a).
Proof.
  intros Hok Hid Hlen Hv. unfold list_drivers, ENTRY_SIZE in *.
  assert (1 <= buf_len / 48) as Hmax by (apply Z.div_le_lower_bound; lia).
  rewrite (proj2 (Z.eqb_neq (buf_len / 48) 0)), Hv by lia.
  assert (forall e, Some e ∈ entries (table s) -> 1 <= id e < next_id (table s) /\ length (name e) = MAX_NAME /\ (name_len e <= MAX_NAME)%nat) as He.
  { intros e [i Hi]%list_elem_of_lookup. by eapply tk_entry. }
  assert (Forall (fun o => match o with Some e => length (name e) = MAX_NAME | None => True end) (entries (table s))) as Hall.
  { apply Forall_forall. intros [e|] Hin; [|done]. by apply He. }
  pose proof (list_loop_spec _ (buf_len / 48) 0 buf_ptr ub Hall ltac:(lia)) as Hs.
  destruct (list_loop _ _ _ _ _) as [count ub']. rewrite Z.sub_0_r in Hs. destruct Hs as (Hc & Hb & Ho).
  split_and!; [lia| |intros a Ha; apply Ho; unfold ENTRY_SIZE; lia].
  intros k e Hk. specialize (Hb k e Hk). rewrite Z.add_0_l in Hb. unfold ENTRY_SIZE in Hb. rewrite Hb.
  destruct (He e) as (H1 & H2 & H3); [|apply parse_entry_bytes; [lia|done|done]].
  apply lookup_take_Some in Hk as [Hk _].
  apply list_elem_of_lookup_2, list_elem_of_omap in Hk as (o & Hin & ->). done.
Qed.
End Listing.

(** * Defects *)

(** The privilege of a process, and what keeps it. *)
Definition has_level (p : Z) (l : Thread.PrivilegeLevel) (x : PState) : Prop :=
  exists q, find p x = Some q /\ p_privilege q = l.

Lemma has_level_procs (p : Z) (l : Thread.PrivilegeLevel) (x y : PState) :
  procs y = procs x -> has_level p l x -> has_level p l y.
Proof. intros E (q & Hq & Hl). exists q. split; [|done]. unfold find in *. by rewrite E. Qed.

Lemma has_level_modify (p i : Z) (l : Thread.PrivilegeLevel) (f : Process -> Process) (x : PState) :
  (forall q, Process.pid (f q) = Process.pid q /\ p_privilege (f q) = p_privilege q) -> has_level p l x -> has_level p l (modify i f x).
Proof.
  intros Hf (q & Hq & Hl). destruct (decide (i = p)) as [->|Hne].
  - exists (f q). split; [|by rewrite (proj2 (Hf q))]. apply proc_find_modify; [intros z; apply Hf|done].
  - exists q. split; [|done]. unfold find, modify in *. simpl. rewrite find_first_update_first_ne; [done|].
    intros z. unfold is_pid. rewrite (proj1 (Hf z)), !Z.eqb_eq, !Z.eqb_neq. lia.
Qed.

Lemma procs_on_main (i : Z) (f : Z -> Thread.TState -> Thread.TState) (x : PState) : procs (on_main i f x) = procs x.
Proof. unfold on_main. by destruct (main_tid i x). Qed.

Section Defects.
Context {A : Type} `{TableAllocator A}.

(** No process has the number that is handed out next. *)
Definition pids_fresh (x : PState) : Prop := p_initialized x = true /\ find (next_pid x) x = None.

Lemma alloc_range_ps (n : Z) (w : Exec.State A) : Exec.ps (snd (Exec.alloc_page_range n w)) = Exec.ps w.
Proof. unfold Exec.alloc_page_range. by destruct (Pmm.alloc_frames _ _) as [[f|] o]. Qed.
Lemma on_vm_ps {R : Type} (f : SE (Vmm.State A) Vmm.MapError R) (w : Exec.State A) : Exec.ps (snd (Exec.on_vm f w)) = Exec.ps w.
Proof. unfold Exec.on_vm. by destruct (f (Exec.vm w)). Qed.

Lemma space_ps (e : Z) (c : list Z) (args : list (list Z)) (w : Exec.State A) :
  Exec.ps (snd (Exec.create_process_space e c args w)) = Exec.ps w.
Proof.
  unfold Exec.create_process_space.
  pose proof (on_vm_ps Vmm.create_address_space w) as H1. destruct (Exec.on_vm _ w) as [[cr3|e1] w1]; cbn [snd] in *; [|done].
  match goal with |- context [Exec.alloc_page_range ?n w1] => pose proof (alloc_range_ps n w1) as H2 end.
  destruct (Exec.alloc_page_range _ w1) as [[[cp cc]|] w2]; cbn [snd] in *; [|congruence].
  match goal with |- context [Exec.on_vm ?f ?x] => pose proof (on_vm_ps f x) as H3; destruct (Exec.on_vm f x) as [[u|e2] w3] end;
    cbn [snd Exec.set_pmem Exec.ps] in *; [|congruence].
  pose proof (alloc_range_ps Exec.USER_STACK_SIZE w3) as H4.
  destruct (Exec.alloc_page_range _ w3) as [[[sp sc]|] w4]; cbn [snd] in *; [|congruence].
  match goal with |- context [Exec.on_vm ?f ?x] => pose proof (on_vm_ps f x) as H5; destruct (Exec.on_vm f x) as [[u'|e3] w5] end;
    cbn [snd] in *; [|congruence].
  destruct (Exec.push_args_onto_stack _ _ _ _) as [[[rsp argc] argv] m]. cbn [snd Exec.set_pmem Exec.ps]. congruence.
Qed.

Lemma find_app_new (p : Z) (l : list Process) (q : Process) :
  find_first (is_pid p) l = None -> is_pid p q = true -> find_first (is_pid p) (l ++ [q]) = Some q.
Proof.
  induction l as [|a l IH]; simpl; [by intros _ ->|]. destruct (is_pid p a); [done|]. apply IH.
Qed.

Lemma spawn_level (cpu : nat) (count now e top cr3 argc argv p : Z) (n : list Z) (l : Thread.PrivilegeLevel) (x x' : PState) :
  pids_fresh x -> spawn_user_process cpu count now n e top cr3 l argc argv x = (p, x') -> p <> 0 -> has_level p l x'.
Proof.
  intros [Hi Hf]. unfold spawn_user_process, spawn_with.
  destruct (Thread.create_kernel_thread _ _ _ _ _ _ _) as [t ts']. destruct (t =? 0); [intros [= <- _]; done|].
  unfold create_process, init. cbn [set_ts p_initialized]. rewrite Hi. cbn [next_pid set_ts procs].
  destruct (next_pid x =? 0) eqn:E0; [intros [= <- _]; done|]. intros [= <- <-] _.
  eexists. split; [unfold find; simpl; apply find_app_new; [exact Hf|unfold is_pid; apply Z.eqb_refl]|reflexivity].
Qed.

Lemma record_ranges_ps (p : Z) (l : list (Z * Z)) (w : Exec.State A) : Exec.ps (Exec.record_ranges p l w) = Exec.ps w.
Proof. unfold Exec.record_ranges. revert w. induction l as [|r l IH]; intros w; simpl; [done|]. by rewrite IH. Qed.

(** A spawned driver has driver privilege. *)
Lemma spawn_driver_level (env : Exec.Env) (path : list Z) (w w' : Exec.State A) (p : Z) :
  pids_fresh (Exec.ps w) -> Exec.spawn_driver env path w = (p, w') -> p <> 0 -> has_level p Thread.Driver (Exec.ps w').
Proof.
  intros Hf Hs Hp. unfold Exec.spawn_driver in Hs. destruct (Exec.load_image path w) as [k|]; [|by simplify_eq].
  destruct (_ =? 0); [by simplify_eq|]. unfold Exec.spawn_kxe in Hs.
  pose proof (space_ps (Exec.entry k) (Exec.code k) [] w) as Hps.
  destruct (Exec.create_process_space _ _ _ w) as [[sp|] w1]; cbn [snd] in Hps; [|by simplify_eq].
  destruct (spawn_user_process _ _ _ _ _ _ _ _ _ _ _) as [i x] eqn:Esp. rewrite Hps in Esp.
  destruct (i =? 0) eqn:E0; [by simplify_eq/=|]. zbool. pose proof (spawn_level _ _ _ _ _ _ _ _ _ _ _ _ _ Hf Esp E0) as Hl.
  unfold Exec.make_ready in Hs. rewrite (proj2 (Z.eqb_neq _ _) E0) in Hs. injection Hs as <- <-.
  cbn [Exec.set_ps Exec.ps]. unfold set_ready. eapply has_level_procs; [apply procs_on_main|].
  apply has_level_modify; [intros q; by destruct (p_state q)|].
  apply has_level_modify; [done|]. by rewrite record_ranges_ps.
Qed.

(** A driver that does not fit the table keeps running.  When all sixteen slots are
    taken, [load] spawns the driver, then gives up and tries to kill it; but [kill_pid]
    spares drivers.  The call reports failure while the driver, with its privileges,
    stays alive and ready, listed nowhere, so that nothing can unload it. *)
Theorem full_table_driver_survives (env : Exec.Env) (path : list Z) (p : Z) (s : State A) (w : Exec.State A) :
  pids_fresh (Exec.ps (world s)) -> existsb (same_name (extract_name path)) (entries (table s)) = false ->
  position is_free (entries (table s)) = None -> Exec.spawn_driver env path (world s) = (p, w) -> p <> 0 ->
  let '(r, s') := load env path s in
  r = Some u64_max /\ Exec.ps (world s') = Exec.ps w /\ has_level p Thread.Driver (Exec.ps (world s')) /\ table s' = table s.
Proof.
  intros Hf Hex Hfull Hsp Hp. unfold load. rewrite Hex, Hsp, (proj2 (Z.eqb_neq _ _) Hp).
  cbn [set_world table]. rewrite Hfull. pose proof (spawn_driver_level _ _ _ _ _ Hf Hsp Hp) as Hl.
  assert (kill_pid p (Exec.ps w) = Exec.ps w) as Hk.
  { destruct Hl as (q & Hq & Hql). unfold kill_pid. rewrite (proj2 (Z.eqb_neq _ _) Hp), Hq, Hql. done. }
  cbn [on_ps set_world world Exec.set_ps Exec.ps table]. rewrite Hk. done.
Qed.

(** A long name whose 32nd byte is inside of a character makes the kernel panic, after
    the driver was started. *)
Theorem load_panics_inside_character (env : Exec.Env) (path : list Z) (p : Z) (k : nat) (s : State A) (w : Exec.State A) :
  existsb (same_name (extract_name path)) (entries (table s)) = false ->
  position is_free (entries (table s)) = Some k -> Exec.spawn_driver env path (world s) = (p, w) -> p <> 0 ->
  is_char_boundary (extract_name path) (Nat.min (length (extract_name path)) MAX_NAME) = false ->
  fst (load env path s) = None.
Proof.
  intros Hex Hk Hsp Hp Hb. unfold load. rewrite Hex, Hsp, (proj2 (Z.eqb_neq _ _) Hp).
  cbn [set_world table set_table entries next_id]. by rewrite Hk, Hb.
Qed.
End Defects.

Lemma update_first_other {X : Type} (P : X -> bool) (f : X -> X) (l : list X) (i : nat) (x : X) :
  l !! i = Some x -> P x = false -> update_first P f l !! i = Some x.
Proof.
  revert i. induction l as [|a l IH]; intros i; [done|]. simpl. destruct i as [|i]; simpl.
  - intros [= ->] Hp. by rewrite Hp.
  - intros Hi Hp. destruct (P a); simpl; [done|]. by apply IH.
Qed.

Section Faults.
Context {A : Type} `{TableAllocator A} `{TeardownEffects}.
Variable p : Z.   (* the driver's process *)

Inductive exit_step : State A -> unit -> State A -> Prop :=
  | exit_fault cpu s : current_pid cpu (Exec.ps (world s)) <> p -> exit_step s () (user_fault cpu s)
  | exit_call cpu s : current_pid cpu (Exec.ps (world s)) <> p -> exit_step s () (sys_exit cpu s)
  | exit_other w s : exit_step s () (set_world w s).

(** The driver is listed and nobody remembers that it has to go. *)
Definition forgotten (i : nat) (e : DriverEntry) (s : State A) : Prop :=
  listed (table s) i e /\ forall c, exiting_pid_tmp c s <> p.

Lemma tmp_set (c cpu : nat) (v : Z) (s : State A) :
  exiting_pid_tmp c (set_exiting_pid_tmp cpu v s) = v \/ exiting_pid_tmp c (set_exiting_pid_tmp cpu v s) = exiting_pid_tmp c s.
Proof.
  unfold exiting_pid_tmp, set_exiting_pid_tmp. cbn [tmps]. destruct (decide (c = cpu)) as [->|Hne].
  - destruct (decide (cpu < length (tmps s))%nat).
    + rewrite list_lookup_insert_eq by done. by left.
    + rewrite list_insert_ge by lia. by right.
  - rewrite list_lookup_insert_ne by done. by right.
Qed.

Lemma forgotten_set (i : nat) (e : DriverEntry) (cpu : nat) (v : Z) (s : State A) :
  v <> p -> forgotten i e s -> forgotten i e (set_exiting_pid_tmp cpu v s).
Proof. intros Hv [Hl Ht]. split; [done|]. intros c. destruct (tmp_set c cpu v s) as [-> | ->]; [done|apply Ht]. Qed.

Lemma forgotten_return (i : nat) (e : DriverEntry) (cpu : nat) (s : State A) :
  p <> 0 -> pid e = p -> forgotten i e s -> forgotten i e (return_to_kernel cpu s).
Proof.
  intros Hp0 Hpe Hf. unfold return_to_kernel. pose proof (forgotten_set i e cpu 0 s ltac:(done) Hf) as [Hl Ht].
  destruct (negb _); [|done]. split; [|done]. unfold on_process_exit, listed. cbn [table set_table entries].
  apply update_first_other; [done|]. cbn [has_pid]. apply Z.eqb_neq. rewrite Hpe. destruct Hf as [_ Hf]. by apply not_eq_sym.
Qed.

Lemma exit_step_forgotten (i : nat) (e : DriverEntry) (s s' : State A) (u : unit) :
  p <> 0 -> pid e = p -> forgotten i e s -> exit_step s u s' -> forgotten i e s'.
Proof.
  intros Hp0 Hpe Hf Hs. destruct Hs as [cpu s Hc|cpu s Hc|w s]; [| |done].
  - unfold user_fault. destruct (negb _); [|done]. by apply (forgotten_set i e cpu _ s).
  - unfold sys_exit. apply forgotten_return; [done..|]. unfold current_pid in Hc.
    destruct (Scheduler.current_user_pid cpu _) as [q|]; [|done]. by apply (forgotten_set i e cpu q s).
Qed.

(** A driver that faults stays listed.  The fault handler notes the dead process for
    the table but dispatches without passing through the code that reads the note; the
    next [SYS_EXIT] on that CPU overwrites it.  From then on, whatever other processes
    exit or fault, the dead driver keeps its slot and its name, and loading it again is
    refused. *)
Theorem faulted_driver_stays_listed (cpu i : nat) (q : Z) (e : DriverEntry) (s s' : State A) (w : Exec.State A) (us : list unit) :
  p <> 0 -> q <> 0 -> q <> p -> pid e = p -> (cpu < length (tmps s))%nat -> forgotten i e s ->
  length (name e) = MAX_NAME -> (name_len e <= MAX_NAME)%nat ->
  current_pid cpu (Exec.ps (world s)) = p -> Scheduler.current_user_pid cpu (ss (Exec.ps w)) = Some q ->
  trace exit_step (sys_exit cpu (set_world w (user_fault cpu s))) us s' ->
  listed (table s') i e /\
  forall env path, extract_name path = stored e -> load env path s' = (Some u64_max, s').
Proof.
  intros Hp0 Hq0 Hqp Hpe Hcpu Hf Hnl Hle Hc Hq Htr.
  assert (forgotten i e (sys_exit cpu (set_world w (user_fault cpu s)))) as Hf1.
  { unfold sys_exit. cbn [world set_world]. rewrite Hq. apply forgotten_return; [done..|].
    destruct Hf as [Hl Ht]. split.
    - unfold user_fault. by destruct (negb _).
    - intros c. unfold user_fault. rewrite Hc, (proj2 (Z.eqb_neq _ _) Hp0). cbn [negb].
      unfold exiting_pid_tmp, set_exiting_pid_tmp, on_ps, set_world. cbn [tmps].
      rewrite list_insert_insert_eq. destruct (decide (c = cpu)) as [->|Hne].
      + by rewrite list_lookup_insert_eq.
      + rewrite list_lookup_insert_ne by done. apply Ht. }
  destruct (trace_invariant exit_step (forgotten i e) _ _ _ (fun x u y => exit_step_forgotten i e x y u Hp0 Hpe) Hf1 Htr) as [Hl _].
  split; [done|]. intros env path Hn. unfold load. rewrite Hn.
  assert (existsb (same_name (stored e)) (entries (table s')) = true) as ->; [|done].
  apply existsb_exists. exists (Some e). split; [apply list_elem_of_In; by eapply list_elem_of_lookup_2|].
  cbn [same_name]. unfold stored. rewrite length_take, Hnl, Nat.min_l, Nat.eqb_refl by done. by rewrite bool_decide_eq_true_2.
Qed.
End Faults.

Module Example.
(** A driver image at "/d.kdm" and a kernel with one process on CPU 0. *)
Definition kdm : list Z := Exec.build_kxe Exec.Example.prog 0 Exec.KXE_FLAG_DRIVER.
Definition path : list Z := [47; 100; 46; 107; 100; 109].
Definition nodes : list Vfs.Slot := [Vfs.mkSlot 0 (Some (Vfs.mkNode [47] true [])); Vfs.mkSlot 0 (Some (Vfs.mkNode path false kdm))].
Definition procs0 : PState :=
  mkPState (Thread.mkTState [] 4 true 0 (replicate 16 0) ∅ (Allocator.Allocator.init 1048576 1048576 Allocator.Allocator.ALLOCATOR))
    Process.Example.sched [kernel_process; Process.Example.proc] 7 true.
Definition w0 : Exec.State HeapTables :=
  Exec.mkState VmmExample.boot (Some (Exec.Example.frames 8)) ∅ [] nodes (Fd.boot Fd.Example.w0) procs0.
Definition env : Exec.Env := Exec.mkEnv 0 1 0.
Definition boot : State HeapTables := mkState (mkTable (replicate MAX_DRIVERS None) 1) (replicate 16 0) w0.
Definition loaded : State HeapTables := snd (load env path boot).

Lemma load_run : load env path boot = (Some 1, loaded).
Proof. unfold loaded. apply (pair_fst (load env path boot) (Some 1)). vm_compute. reflexivity. Qed.

Lemma driver_table_unique_witness : table_ok (table loaded) /\ length (omap (fun o => o) (entries (table loaded))) = 1%nat.
Proof.
  split; [|vm_compute; reflexivity].
  apply (driver_table_unique boot loaded [Load env path]); [reflexivity| |done].
  econstructor; [|constructor]. apply (step_load env path boot 1 loaded); [vm_compute; lia|apply load_run].
Defined.

Lemma boot_ok : table_ok (table boot).
Proof.
  assert (forall i e, ~ listed (table boot) i e) as Hno.
  { intros i e Hi. by apply lookup_replicate in Hi as [? _]. }
  split; [done|intros i e Hi; by destruct (Hno i e)|intros i j e e' Hi; by destruct (Hno i e)..].
Qed.
Lemma loaded_ok : table_ok (table loaded).
Proof.
  eapply (step_table boot loaded (Load env path)); [|apply boot_ok|done|done].
  apply (step_load env path boot 1 loaded); [vm_compute; lia|apply load_run].
Qed.

Lemma driver_list_roundtrip_witness :
  let '(count, ub') := list_drivers VmmExample.root0 (Vmm.mem VmmExample.space1) ∅ Vmm.USER_MIN 100 loaded in
  count = 1 /\ parse_entry (Uaccess.byte_run ub' Vmm.USER_MIN ENTRY_SIZE) = (1, 7, 0, [100] ++ replicate 31 0, 1).
Proof.
  pose proof (driver_list_roundtrip VmmExample.root0 Vmm.USER_MIN 100 (Vmm.mem VmmExample.space1) ∅ loaded loaded_ok) as H.
  destruct (list_drivers _ _ _ _ _ _) as [count ub'].
  destruct H as (Hc & He & _); [vm_compute; reflexivity|done|vm_compute; reflexivity|].
  split; [rewrite Hc; vm_compute; reflexivity|]. specialize (He 0%nat (new_entry 1 7 [100])).
  rewrite Z.add_0_r in He. rewrite He; [reflexivity|vm_compute; reflexivity].
Defined.

(** Sixteen other drivers. *)
Definition full : State HeapTables :=
  mkState (mkTable ((fun i => Some (new_entry i (100 + i) [i])) <$> seqZ 1 16) 17) (replicate 16 0) w0.

Lemma full_table_driver_survives_witness : has_level 7 Thread.Driver (Exec.ps (world (snd (load env path full)))).
Proof.
  pose proof (full_table_driver_survives env path 7 full (snd (Exec.spawn_driver env path w0))) as H.
  destruct (load env path full) as [r s'].
  apply H; [split; reflexivity|vm_compute; reflexivity|vm_compute; reflexivity| |done].
  apply (pair_fst (Exec.spawn_driver env path w0) 7). vm_compute. reflexivity.
Defined.

(** Process 5 is a driver and runs on CPU 0; process 6 runs there after it. *)
#[local] Instance no_effects : TeardownEffects := {| effect _ s := s |}.
Definition entry5 : DriverEntry := new_entry 1 5 [100].
Definition one_driver : State HeapTables := mkState (mkTable (Some entry5 :: replicate 15 None) 2) (replicate 16 0) w0.
Definition then6 : Exec.State HeapTables :=
  Exec.set_ps (mkPState (ts procs0) (Scheduler.mkSState (Some 6 :: replicate 15 None) (replicate 16 None) (replicate 16 None) (replicate 16 false))
                 (procs procs0) 7 true) w0.

Lemma faulted_driver_stays_listed_witness :
  listed (table (sys_exit 0 (set_world then6 (user_fault 0 one_driver)))) 0 entry5 /\
  forall env path, extract_name path = [100] ->
    load env path (sys_exit 0 (set_world then6 (user_fault 0 one_driver))) =
    (Some u64_max, sys_exit 0 (set_world then6 (user_fault 0 one_driver))).
Proof.
  apply (faulted_driver_stays_listed 5 0 0 6 entry5 one_driver _ then6 []); try done; [vm_compute; lia| |vm_compute; lia|constructor].
  split; [reflexivity|]. intros c. unfold exiting_pid_tmp. cbn [tmps one_driver].
  destruct (replicate 16 0 !! c) as [v|] eqn:E; [|done]. by apply lookup_replicate in E as [-> _].
Defined.
End Example.

End DriverModule.
