(* ===== verification/FbOwner.v ===== *)
(** Ownership of the framebuffer: [crates/kernel/src/drivers/fb_owner.rs], with
    [SYS_FB_ACQUIRE] and [SYS_FB_RELEASE] of [crates/kernel/src/syscall/console.rs].

    The owner is the focus of the keyboard driver ([Keyboard.v]), whose queues are
    flushed when it changes.  The framebuffer is the list of its bytes; the copy made
    on acquisition lives in a block of the kernel heap, which the page tables come
    from as well ([ByteAllocator]).  The calls run one at a time. *)
From stdpp Require Import base list numbers option gmap.
From S2P Require Import Prelude Vmm Uaccess Thread Scheduler Process Keyboard.

Open Scope Z_scope.

(** [alloc] and [dealloc] of the kernel heap, with alignment 1. *)
Class ByteAllocator (A : Type) := {
  byte_alloc : Z -> A -> option Z * A;
  byte_dealloc : Z -> A -> A;
}.

Module FbOwner.
Import Process.Process.

Definition USER_FB_VA : Z := 558345748480.   (* 0x0000_0082_0000_0000 *)

(** [console::FbParams]. *)
Record FbParams := mkParams { base : Z; width : Z; height : Z; stride : Z; format : Z }.
Definition fb_size (p : FbParams) : Z := stride p * height p * 4.

(** [FbInfo] as its bytes. *)
Definition info_bytes (p : FbParams) : list Z :=
  to_le 8 USER_FB_VA ++ to_le 4 (width p) ++ to_le 4 (height p) ++ to_le 4 (stride p) ++ to_le 4 (format p).

Section Ops.
Context {A : Type} `{TableAllocator A} `{ByteAllocator A}.

(** [backup] is [BACK_PTR] and the [BACK_LEN] bytes it points at. *)
Record State := mkState {
  kb : Keyboard.State;
  backup : option (Z * list Z);
  params : option FbParams;
  screen : list Z;
  vm : Vmm.State A;
  umem : gmap Z Z }.

Definition owner (s : State) : option Z := Keyboard.owner (kb s).
Definition set_kb (k : Keyboard.State) (s : State) : State := mkState k (backup s) (params s) (screen s) (vm s) (umem s).
Definition set_owner (o : option Z) (s : State) : State :=
  set_kb (Keyboard.mkState (Keyboard.keys (kb s)) o (Keyboard.ps (kb s))) s.
Definition flush (s : State) : State := set_kb (Keyboard.flush (kb s)) s.
Definition set_backup (b : option (Z * list Z)) (s : State) : State := mkState (kb s) b (params s) (screen s) (vm s) (umem s).
Definition set_screen (l : list Z) (s : State) : State := mkState (kb s) (backup s) (params s) l (vm s) (umem s).
Definition set_vm (v : Vmm.State A) (s : State) : State := mkState (kb s) (backup s) (params s) (screen s) v (umem s).
Definition on_heap {R : Type} (f : A -> R * A) (s : State) : R * State :=
  let v := vm s in
  let '(r, a) := f (Vmm.tables v) in (r, set_vm (Vmm.mkState (Vmm.mem v) a (Vmm.kernel_pml4 v) (Vmm.current_pml4 v)) s).

(** [cr3] is the active address space. *)
Definition write_info (cr3 out : Z) (s : State) : Z * State :=
  if out =? 0 then (u64_max, s)
  else
    match params s with
    | None => (u64_max, s)
    | Some p =>
        let '(ok, ub) := Uaccess.write_value cr3 (Vmm.mem (vm s)) (umem s) out (info_bytes p) in
        (if ok then 0 else u64_max, mkState (kb s) (backup s) (params s) (screen s) (vm s) ub)
    end.

Definition release_backup (s : State) : State :=
  let s := match backup s with
           | Some (ptr, l) =>
               if negb (length l =? 0)%nat then snd (on_heap (fun a => (tt, byte_dealloc ptr a)) s) else s
           | None => s
           end in
  set_backup None s.

(** Saving the pixels. *)
Definition save_screen (fb_bytes : Z) (s : State) : State :=
  if 0 <? fb_bytes then
    match on_heap (byte_alloc fb_bytes) s with
    | (Some ptr, s) => set_backup (Some (ptr, take (Z.to_nat fb_bytes) (screen s))) s
    | (None, s) => s
    end
  else s.

Definition acquire (pid cr3 out : Z) (s : State) : Z * State :=
  match owner s with
  | Some o => if o =? pid then write_info cr3 out s else (u64_max, s)
  | None =>
      match params s with
      | None => (u64_max, s)
      | Some p =>
          let fb_bytes := fb_size p in
          let s := save_screen fb_bytes s in
          match Vmm.map_range cr3 USER_FB_VA (base p) fb_bytes Vmm.USER_READ_WRITE (vm s) with
          | (Err _, v) => (u64_max, release_backup (set_vm v s))
          | (Ok _, v) =>
              let s := set_vm v s in
              let s := set_screen (replicate (Z.to_nat fb_bytes) 0 ++ drop (Z.to_nat fb_bytes) (screen s)) s in
              write_info cr3 out (flush (set_owner (Some pid) s))
          end
      end
  end.

(** The restored pixels: as many bytes as were saved and fit. *)
Definition restore_screen (s : State) : State :=
  match params s, backup s with
  | Some p, Some (_, l) =>
      if negb (length l =? 0)%nat then
        let copy_len := Nat.min (Z.to_nat (fb_size p)) (length l) in
        set_screen (take copy_len l ++ drop copy_len (screen s)) s
      else s
  | _, _ => s
  end.

Definition release (pid : Z) (s : State) : State :=
  if negb (bool_decide (owner s = Some pid)) then s
  else release_backup (restore_screen (flush (set_owner None s))).

(** The system calls. *)
Definition sys_fb_acquire (cpu : nat) (out : Z) (s : State) : Z * State :=
  let ps := Keyboard.ps (kb s) in
  match Scheduler.current_user_pid cpu (ss ps) with
  | Some pid =>
      match user_context pid ps with
      | Some c => acquire pid (Thread.cr3 c) out s
      | None => (u64_max, s)
      end
  | None => (u64_max, s)
  end.
Definition sys_fb_release (cpu : nat) (s : State) : Z * State :=
  (0, match Scheduler.current_user_pid cpu (ss (Keyboard.ps (kb s))) with Some pid => release pid s | None => s end).
End Ops.
#[global] Arguments State A : clear implicits.

(** * One owner at a time, and the screen it found *)

Inductive event {A : Type} :=
  | Acquire (pid cr3 out : Z)
  | Release (pid : Z)
  | Draw (l : list Z)                                            (* pixels written through the mapping *)
  | Other (k : Keyboard.Keys) (p : PState) (v : Vmm.State A) (u : gmap Z Z).   (* anything else *)
#[global] Arguments event A : clear implicits.

Section Ownership.
Context {A : Type} `{TableAllocator A} `{ByteAllocator A}.
Implicit Types s : State A.

Inductive step : State A -> event A -> State A -> Prop :=
  | step_acquire pid cr3 out s : step s (Acquire pid cr3 out) (snd (acquire pid cr3 out s))
  | step_release pid s : step s (Release pid) (release pid s)
  | step_draw l s : length l = length (screen s) -> step s (Draw l) (set_screen l s)
  | step_other k p v u s :
      step s (Other k p v u) (mkState (Keyboard.mkState k (owner s) p) (backup s) (params s) (screen s) v u).

Lemma write_info_frame (cr3 out : Z) s :
  let s' := snd (write_info cr3 out s) in
  kb s' = kb s /\ backup s' = backup s /\ params s' = params s /\ screen s' = screen s /\ vm s' = vm s.
Proof. unfold write_info. destruct (out =? 0); [done|]. destruct (params s) eqn:E; [|done]. by destruct (Uaccess.write_value _ _ _ _ _). Qed.

(** The state between an acquisition and its release. *)
Definition holds (pid : Z) (p : FbParams) (ptr : Z) (old : list Z) s : Prop :=
  owner s = Some pid /\ backup s = Some (ptr, old) /\ params s = Some p /\ length (screen s) = length old.

Lemma step_holds (pid ptr : Z) (p : FbParams) (old : list Z) s s' (e : event A) :
  step s e s' -> e <> Release pid -> holds pid p ptr old s -> holds pid p ptr old s'.
Proof.
  intros Hs He (Ho & Hb & Hp & Hl). destruct Hs as [q cr3 out s|q s|l s Hlen|k ps v u s].
  - unfold acquire. rewrite Ho. destruct (pid =? q); [|done].
    destruct (write_info_frame cr3 out s) as (E1 & E2 & E3 & E4 & _). unfold holds, owner. by rewrite E1, E2, E3, E4.
  - unfold release. rewrite Ho, bool_decide_eq_false_2; [done|]. congruence.
  - by repeat split; try done; rewrite <- Hl.
  - done.
Qed.

Lemma acquire_holds (pid cr3 out r ptr : Z) (p : FbParams) s s1 :
  owner s = None -> params s = Some p -> 0 < fb_size p -> fb_size p = Z.of_nat (length (screen s)) ->
  fst (byte_alloc (fb_size p) (Vmm.tables (vm s))) = Some ptr ->
  acquire pid cr3 out s = (r, s1) -> owner s1 = Some pid ->
  holds pid p ptr (screen s) s1 /\ screen s1 = replicate (length (screen s)) 0.
Proof.
  intros Ho Hp Hpos Hlen Ha Hacq Ho1. unfold acquire in Hacq. rewrite Ho, Hp in Hacq.
  assert (exists v, save_screen (fb_size p) s = set_backup (Some (ptr, screen s)) (set_vm v s)) as [v0 Hsave].
  { unfold save_screen, on_heap. rewrite (proj2 (Z.ltb_lt _ _) Hpos). destruct (byte_alloc _ _) as [o a]. cbn [fst] in Ha. subst o.
    cbn [screen set_vm]. rewrite take_ge by lia. by eexists. }
  rewrite Hsave in Hacq. destruct (Vmm.map_range _ _ _ _ _ _) as [[[]|e] v].
  - set (s2 := flush _) in Hacq. destruct (write_info_frame cr3 out s2) as (E1 & E2 & E3 & E4 & _).
    rewrite Hacq in E1, E2, E3, E4. cbn [snd] in *. unfold holds, owner. rewrite E1, E2, E3, E4. subst s2. cbn.
    rewrite drop_ge, app_nil_r by lia. replace (Z.to_nat (fb_size p)) with (length (screen s)) by lia.
    by rewrite length_replicate.
  - injection Hacq as _ <-. exfalso. revert Ho1. unfold release_backup, on_heap. cbn. destruct (negb _); cbn; unfold owner in *; cbn in *; congruence.
Qed.

End Ownership.

Section Mapping.
Context {A : Type} `{TableAllocator A} `{!TableAllocatorLaws A} `{ByteAllocator A}.

(** A released framebuffer stays mapped.  [acquire] maps the pixels into the caller's
    address space; nothing takes the mapping back.  After the release every page of the
    framebuffer still translates, in the former owner's page tables, to the same
    physical page as before, so that it can read and draw over whatever the next owner
    or the console shows. *)
Theorem release_keeps_mapping (pid cr3 out root r : Z) kinds (p : FbParams) (s s1 : State A) :
  owner s = None -> params s = Some p -> 0 < fb_size p -> fb_size p <= 2 ^ 32 ->
  Vmm.aligned (base p) -> 0 <= base p -> base p + fb_size p <= 2 ^ 52 ->
  Vmm.inv (vm (save_screen (fb_size p) s)) kinds -> kinds !! root = Some (root, []) -> Z.land cr3 Vmm.ADDR_MASK = root ->
  acquire pid cr3 out s = (r, s1) -> owner s1 = Some pid ->
  forall k, 0 <= k -> k * 4096 < fb_size p ->
    Vmm.translate cr3 (USER_FB_VA + k * 4096) (Vmm.mem (vm (release pid s1))) = Some (base p + k * 4096).
Proof.
  intros Ho Hp Hpos Hmax Hal Hb0 Hb1 Hi Hk Hcr Hacq Ho1 k Hk0 Hk1.
  assert (Vmm.mem (vm (release pid s1)) = Vmm.mem (vm s1)) as ->.
  { unfold release. rewrite Ho1, bool_decide_eq_true_2 by done. cbn [negb].
    assert (forall x : State A, Vmm.mem (vm (release_backup x)) = Vmm.mem (vm x)) as Hrel.
    { intros x. unfold release_backup, on_heap. destruct (backup x) as [[q l]|]; [|done]. by destruct (negb _). }
    rewrite Hrel. unfold restore_screen. cbn [params flush set_owner set_kb backup].
    destruct (params s1); [|done]. destruct (backup s1) as [[q l]|]; [|done]. by destruct (negb _). }
  unfold acquire in Hacq. rewrite Ho, Hp in Hacq. set (s0 := save_screen _ s) in *.
  destruct (Vmm.map_range _ _ _ _ _ _) as [[[]|e] v] eqn:Em.
  - match type of Hacq with write_info _ _ ?x = _ => destruct (write_info_frame cr3 out x) as (_ & _ & _ & _ & Ev) end.
    rewrite Hacq in Ev. cbn [snd] in Ev. rewrite Ev. cbn [vm flush set_owner set_kb set_screen set_vm].
    pose proof VmmExample.user_flags_rw as Hrw.
    assert (USER_FB_VA + fb_size p <= Vmm.USER_MAX) as Hum by (unfold USER_FB_VA, Vmm.USER_MAX; lia).
    destruct (Vmm.map_range_spec (vm s0) v kinds cr3 root USER_FB_VA (base p) (fb_size p) Vmm.USER_READ_WRITE) as (_ & Ht & _);
      try done. by apply Ht.
  - injection Hacq as _ <-. exfalso. revert Ho1. unfold owner in Ho. unfold owner, release_backup, on_heap.
    assert (kb (set_vm v s0) = kb s) as Hkb.
    { subst s0. unfold save_screen, on_heap. cbn [set_vm kb]. destruct (0 <? fb_size p); [|done]. by destruct (byte_alloc _ _) as [[?|] ?]. }
    destruct (backup (set_vm v s0)) as [[q l]|]; [destruct (negb _)|]; cbn [kb set_backup snd]; cbn; cbn in Hkb; rewrite Hkb, Ho; done.
Qed.
End Mapping.

Module Example.
(** The kernel heap behind the page tables of [VmmExample], with a large free region for
    plain blocks. *)
#[local] Instance blocks : ByteAllocator HeapTables := {| byte_alloc n a := (Some 1048576, a); byte_dealloc _ a := a |}.
Definition params0 : FbParams := mkParams 3221225472 2 2 2 1.
Definition keys0 : Keyboard.Keys :=
  Keyboard.mkKeys (Keyboard.ring_new Keyboard.BUF_SIZE) (Keyboard.ring_new Keyboard.EBUF_SIZE) false false false false.
Definition st : State HeapTables :=
  mkState (Keyboard.mkState keys0 None Process.Example.st) None (Some params0) (seqZ 1 16) VmmExample.space0 ∅.
Definition taken : State HeapTables := snd (acquire 5 VmmExample.root0 0 st).

Lemma taken_run : acquire 5 VmmExample.root0 0 st = (u64_max, taken).
Proof. unfold taken. apply (pair_fst (acquire 5 VmmExample.root0 0 st) u64_max). vm_compute. reflexivity. Qed.


Lemma release_keeps_mapping_witness :
  Vmm.translate VmmExample.root0 USER_FB_VA (Vmm.mem (vm (release 5 taken))) = Some 3221225472.
Proof.
  destruct VmmExample.space0_inv as [Hi Hroot].
  apply (release_keeps_mapping 5 VmmExample.root0 0 VmmExample.root0 u64_max VmmExample.kinds0 params0 st taken
           ltac:(reflexivity) ltac:(reflexivity) ltac:(done) ltac:(done) ltac:(done) ltac:(done) ltac:(done) Hi Hroot
           ltac:(reflexivity) taken_run ltac:(vm_compute; reflexivity) 0 ltac:(lia) ltac:(done)).
Defined.
End Example.

End FbOwner.
