(* ===== verification/UserHeap.v ===== *)
(** The heap of user programs: [userspace/runtime/runtime.rs], [Heap] and its
    [GlobalAlloc].

    As in [Allocator], the intrusive free list is the list of its nodes in link
    order and the allocation headers a finite map from header address to contents.
    The arenas come from the kernel, of which the heap relies on two calls: the class
    [Kernel] has the calls and [KernelLaws] what they promise (the kernel's side is
    [Umem]).  The lock is held over each operation, so each is one step. *)
From stdpp Require Import base list numbers option gmap.
From S2P Require Import Prelude Allocator.

Open Scope Z_scope.

Module UserHeap.
Import Allocator.

Class Kernel (K : Type) := {
  sys_heap_alloc : Z -> K -> Z * K;
  sys_heap_free : Z -> K -> Z * K
}.

Definition MAX_ARENAS : nat := 1024.
Definition ARENA_SIZE : Z := 131072.

(** [addr == 0] marks a free slot of [arenas]. *)
Record Heap (K : Type) := mkHeap {
  head : list FreeNode;
  arenas : list (Z * Z);
  hdrs : gmap Z AllocHeader;
  kernel : K
}.
Arguments mkHeap {K}. Arguments head {K}. Arguments arenas {K}. Arguments hdrs {K}. Arguments kernel {K}.

Section Ops.
Context {K : Type} `{Kernel K}.
Implicit Types h : Heap K.

(** [Heap::new] *)
Definition new (k : K) : Heap K := mkHeap [] (replicate MAX_ARENAS (0, 0)) ∅ k.
Definition set_head (l : list FreeNode) h : Heap K := mkHeap l (arenas h) (hdrs h) (kernel h).

(** The list after the node is linked between [prev] and [cur], merged with [cur] and
    then with [prev]; the loop that finds them is [Allocator.walk]. *)
Definition insert (addr size : Z) (l : list FreeNode) : list FreeNode :=
  let '(passed, rest) := walk addr [] l in
  let node := (size, rest) in
  let node := match rest with
              | cur :: next => if addr + size =? n_addr cur then (size + n_size cur, next) else node
              | [] => node
              end in
  match passed with
  | prev :: before =>
      if n_addr prev + n_size prev =? addr
      then reverse before ++ mkNode (n_addr prev) (n_size prev + node.1) :: node.2
      else reverse passed ++ mkNode addr node.1 :: node.2
  | [] => mkNode addr node.1 :: node.2
  end.

(** The first free slot takes the arena; with no free slot it is not recorded. *)
Definition record_arena (p want : Z) (slots : list (Z * Z)) : list (Z * Z) :=
  update_first (fun slot => slot.1 =? 0) (fun _ => (p, want)) slots.

Definition grow (min : Z) h : bool * Heap K :=
  let want := align_up (if ARENA_SIZE <? min then min else ARENA_SIZE) 4096 in
  let '(p, k) := sys_heap_alloc want (kernel h) in
  if (p =? 0) || (p =? u64_max) then (false, mkHeap (head h) (arenas h) (hdrs h) k)
  else (true, mkHeap (insert p want (head h)) (record_arena p want (arenas h)) (hdrs h) k).

(** Unlinks the first node that is exactly the arena. *)
Fixpoint unlink (a_addr a_size : Z) (passed l : list FreeNode) : option (list FreeNode) :=
  match l with
  | [] => None
  | cur :: next =>
      if (n_addr cur =? a_addr) && (n_size cur =? a_size) then Some (reverse passed ++ next)
      else unlink a_addr a_size (cur :: passed) next
  end.

(** The loop over the slots: what becomes of them, of the free list and of the kernel. *)
Fixpoint release_slots (slots : list (Z * Z)) (l : list FreeNode) (k : K) : list (Z * Z) * list FreeNode * K :=
  match slots with
  | [] => ([], l, k)
  | slot :: rest =>
      let '(slot', l', k') :=
        if slot.1 =? 0 then (slot, l, k)
        else match unlink slot.1 slot.2 [] l with
             | Some l' => ((0, 0), l', snd (sys_heap_free slot.1 k))
             | None => (slot, l, k)
             end in
      let '(rest', l'', k'') := release_slots rest l' k' in
      (slot' :: rest', l'', k'')
  end.

Definition release_empty_arenas h : Heap K :=
  let '(slots, l, k) := release_slots (arenas h) (head h) (kernel h) in mkHeap l slots (hdrs h) k.

(** [None] is the null pointer; the search loop is [Allocator.first_fit]. *)
Definition take (need header align : Z) h : option Z * Heap K :=
  match first_fit need [] (head h) with
  | None => (None, h)
  | Some (passed, cur, next) =>
      let addr := n_addr cur in
      let total := n_size cur in
      let l := reverse passed ++ next in
      let remainder := total - need in
      let '(kept, l) := if NODE_SIZE <=? remainder then (need, insert (addr + need) remainder l) else (total, l) in
      let user := align_up (addr + header) align in
      (Some user, mkHeap l (arenas h) (<[user - header := mkHeader addr kept]> (hdrs h)) (kernel h))
  end.

(** [GlobalAlloc::alloc]: the alignment and the need are computed as the kernel's
    allocator does. *)
Definition alloc (lsize lalign : Z) h : option Z * Heap K :=
  let header := HEADER in
  let align := eff_align lalign in
  let need := need_of lsize lalign in
  match take need header align h with
  | (Some ptr, h) => (Some ptr, h)
  | (None, h) =>
      match grow need h with
      | (true, h) => take need header align h
      | (false, h) => (None, h)
      end
  end.

(** [GlobalAlloc::dealloc]; [None] when no header is at [ptr - header]. *)
Definition dealloc (ptr : Z) h : option (Heap K) :=
  let header := HEADER in
  hdr ← hdrs h !! (ptr - header);
  let addr := block_addr hdr in
  let size := block_size hdr in
  Some (release_empty_arenas (set_head (insert addr size (head h)) h)).
End Ops.

(** * The free list as a set of bytes *)

(** A sorted and coalesced list is determined by the bytes it covers. *)
Lemma chain_canonical (e : Z) (l1 l2 : list FreeNode) :
  chain e l1 -> chain e l2 -> (forall x, cov x l1 = cov x l2) -> l1 = l2.
Proof.
  assert (forall e' b l (x : Z), chain e' (b :: l) -> x <= n_addr b + n_size b -> cov x (b :: l) = inb x b) as Hfst.
  { intros e' b l x (_ & _ & Hl) Hx. rewrite cov_cons, (cov_out_of_chain _ _ _ Hl Hx). lia. }
  assert (forall e' b l, chain e' (b :: l) -> cov (n_addr b) (b :: l) = 1) as Hat.
  { intros e' b l Hl. pose proof Hl as (_ & Hs & _). unfold NODE_SIZE in *. rewrite (Hfst e') by (done || lia). apply inb_1. lia. }
  revert e l2. induction l1 as [|b1 l1 IH]; intros e [|b2 l2] H1 H2 Hc; [done| | |].
  { specialize (Hc (n_addr b2)). rewrite (Hat _ _ _ H2) in Hc. done. }
  { specialize (Hc (n_addr b1)). rewrite (Hat _ _ _ H1) in Hc. done. }
  assert (b1 = b2) as ->.
  { pose proof (Hat _ _ _ H1) as Ha1. pose proof (Hat _ _ _ H2) as Ha2.
    pose proof H1 as (_ & Hs1 & _). pose proof H2 as (_ & Hs2 & _). unfold NODE_SIZE in *.
    assert (n_addr b1 = n_addr b2) as Ha.
    { destruct (Z.lt_trichotomy (n_addr b1) (n_addr b2)) as [Hlt|[?|Hlt]]; [|done|].
      - rewrite Hc, (Hfst _ _ _ _ H2) in Ha1 by lia. apply inb_1 in Ha1. lia.
      - rewrite <- Hc, (Hfst _ _ _ _ H1) in Ha2 by lia. apply inb_1 in Ha2. lia. }
    destruct (Z.lt_trichotomy (n_size b1) (n_size b2)) as [Hlt|[?|Hlt]].
    - specialize (Hc (n_addr b1 + n_size b1)). rewrite (Hfst _ _ _ _ H1), (Hfst _ _ _ _ H2) in Hc by lia.
      unfold inb in Hc. split_ifs; lia.
    - destruct b1, b2; simpl in *; congruence.
    - specialize (Hc (n_addr b1 + n_size b2)). rewrite (Hfst _ _ _ _ H1), (Hfst _ _ _ _ H2) in Hc by lia.
      unfold inb in Hc. split_ifs; lia. }
  f_equal. destruct H1 as (_ & _ & H1), H2 as (_ & _ & H2). apply (IH _ l2 H1 H2).
  intros x. specialize (Hc x). rewrite !cov_cons in Hc. lia.
Qed.

(** A byte of a chain is in one of its nodes, and a node of it is a maximal run. *)
Lemma cov_split (x : Z) (l1 l2 : list FreeNode) (b : FreeNode) : cov x (l1 ++ b :: l2) = inb x b + cov x (l1 ++ l2).
Proof. rewrite !cov_app, cov_cons. lia. Qed.

Definition free_run (a s : Z) (l : list FreeNode) : Prop :=
  (forall x, a <= x < a + s -> cov x l = 1) /\ cov (a - 1) l = 0 /\ cov (a + s) l = 0.

Lemma chain_node_run (e : Z) (l : list FreeNode) (b : FreeNode) :
  chain e l -> b ∈ l -> free_run (n_addr b) (n_size b) l.
Proof.
  revert e. induction l as [|c l IH]; intros e Hl Hb; [set_solver|].
  pose proof Hl as (H1 & H2 & H3). unfold NODE_SIZE in *. apply elem_of_cons in Hb as [->|Hb].
  - split_and!; [intros x Hx|..]; rewrite cov_cons, (cov_out_of_chain _ _ _ H3) by lia; unfold inb; split_ifs; lia.
  - destruct (IH _ H3 Hb) as (Hr & Hlo & Hhi).
    assert (n_addr c + n_size c < n_addr b) as Hlt.
    { clear IH Hr Hlo Hhi Hl H1. revert H3 Hb. generalize (n_addr c + n_size c). induction l as [|d l IH]; intros z; [set_solver|].
      intros (G1 & G2 & G3) [->|Hb]%elem_of_cons; [done|]. unfold NODE_SIZE in *. specialize (IH _ G3 Hb). lia. }
    pose proof (chain_sizes _ _ H3) as Hsz. rewrite Forall_forall in Hsz. specialize (Hsz b Hb). unfold NODE_SIZE in *.
    split_and!; [intros x Hx; rewrite cov_cons, Hr by done|rewrite cov_cons, Hlo|rewrite cov_cons, Hhi]; unfold inb; split_ifs; lia.
Qed.

Lemma chain_run_node (e a s : Z) (l : list FreeNode) :
  chain e l -> 0 < s -> free_run a s l -> mkNode a s ∈ l.
Proof.
  intros Hl Hs (Hr & Hlo & Hhi).
  assert (exists b, b ∈ l /\ inb a b = 1) as (b & Hb & Hin).
  { specialize (Hr a ltac:(lia)). clear -Hr. induction l as [|c l IH]; [done|]. rewrite cov_cons in Hr.
    destruct (decide (inb a c = 1)); [exists c; set_solver|]. destruct IH as (b & ? & ?); [|exists b; set_solver].
    assert (inb a c = 0); [|lia]. revert n. unfold inb. split_ifs; lia. }
  destruct (chain_node_run _ _ _ Hl Hb) as (Hr' & Hlo' & Hhi'). apply inb_1 in Hin.
  assert (n_addr b = a) as Ha.
  { destruct (decide (n_addr b = a)); [done|]. rewrite Hr' in Hlo by lia. done. }
  assert (n_size b = s) as Hsz.
  { destruct (Z.lt_trichotomy (n_size b) s) as [?|[?|?]]; [|done|].
    - rewrite Hr in Hhi' by lia. done.
    - rewrite Hr' in Hhi by lia. done. }
  by destruct b; simpl in *; subst.
Qed.

(** The unguarded insertion is the kernel allocator's on blocks of at least a node. *)
Lemma insert_nolock_eq (addr size : Z) (l : list FreeNode) :
  NODE_SIZE <= size -> insert addr size l = insert_nolock addr size l.
Proof.
  intros Hs. unfold insert, insert_nolock. rewrite (proj2 (Z.ltb_ge size NODE_SIZE)) by done.
  destruct (walk addr [] l) as [passed rest]. destruct rest as [|cur next]; [done|]. by destruct (_ =? n_addr cur).
Qed.

Lemma insert_chain (e addr size : Z) (l : list FreeNode) :
  NODE_SIZE <= size -> e < addr -> chain e l -> (forall x, inb x (mkNode addr size) + cov x l <= 1) ->
  chain e (insert addr size l) /\ forall x, cov x (insert addr size l) = inb x (mkNode addr size) + cov x l.
Proof.
  intros Hs He Hl Hd. rewrite insert_nolock_eq by done. split; [by apply chain_insert|].
  intros x. apply cov_insert; [done|by eapply chain_sizes].
Qed.

Definition free_all (bs l : list FreeNode) : list FreeNode := foldl (fun l b => insert (n_addr b) (n_size b) l) l bs.

Lemma free_all_spec (e : Z) (bs l : list FreeNode) :
  chain e l -> Forall (fun b => NODE_SIZE <= n_size b /\ e < n_addr b) bs -> (forall x, cov x bs + cov x l <= 1) ->
  chain e (free_all bs l) /\ forall x, cov x (free_all bs l) = cov x bs + cov x l.
Proof.
  revert l. induction bs as [|b bs IH]; intros l Hl Hb Hd; [done|].
  apply Forall_cons_1 in Hb as [[Hb1 Hb2] Hb].
  assert (mkNode (n_addr b) (n_size b) = b) as Heta by by destruct b.
  destruct (insert_chain e (n_addr b) (n_size b) l) as [Hc Hcov]; [done..| |].
  { intros x. specialize (Hd x). rewrite cov_cons in Hd. pose proof (cov_nonneg x bs). rewrite Heta. lia. }
  destruct (IH (insert (n_addr b) (n_size b) l)) as [Hc' Hcov']; [done..| |].
  - intros x. rewrite Hcov, Heta. specialize (Hd x). rewrite cov_cons in Hd. lia.
  - split; [done|]. intros x. cbn [free_all foldl]. unfold free_all in Hcov'. rewrite Hcov', Hcov, Heta, cov_cons. lia.
Qed.

(** Insertion alone commutes: disjoint blocks inserted in any two orders into the same
    sorted and coalesced free list give the same list, node for node, the one the
    kernel's allocator builds from them. *)
Theorem insert_order_irrelevant (e : Z) (bs bs' l : list FreeNode) :
  chain e l -> Forall (fun b => NODE_SIZE <= n_size b /\ e < n_addr b) bs ->
  (forall x, cov x bs + cov x l <= 1) -> bs ≡ₚ bs' ->
  free_all bs l = free_all bs' l /\
  free_all bs l = foldl (fun l b => give_raw (n_addr b) (n_size b) l) l bs' /\
  chain e (free_all bs l) /\ forall x, cov x (free_all bs l) = cov x bs + cov x l.
Proof.
  intros Hl Hb Hd Hp. destruct (free_all_spec e bs l) as [Hc Hcov]; [done..|].
  assert (Forall (fun b => NODE_SIZE <= n_size b /\ e < n_addr b) bs') as Hb' by by rewrite <- Hp.
  assert (forall x, cov x bs = cov x bs') as Hpc by (intros x; by apply zsum_perm).
  destruct (free_all_spec e bs' l) as [Hc' Hcov']; [done..|intros x; by rewrite <- Hpc|].
  assert (free_all bs l = free_all bs' l) as Heq.
  { apply (chain_canonical e); [done..|]. intros x. by rewrite Hcov, Hcov', Hpc. }
  split_and!; [done| |done|done]. rewrite Heq. clear -Hb'. revert l. unfold free_all.
  induction Hb' as [|b bs [Hs _] Hb IH]; intros l; [done|]. cbn [foldl]. rewrite IH. unfold give_raw. by rewrite insert_nolock_eq.
Qed.

(** * The kernel's promise *)

(** [ok] is the kernel's invariant and [held] the regions it has given to the process:
    disjoint, whole nodes of user addresses; an allocation of whole pages either fails
    and gives nothing or adds its region; freeing a region takes it back. *)
Class KernelLaws (K : Type) `{Kernel K} := {
  ok : K -> Prop;
  held : K -> list FreeNode;
  held_disjoint k x : ok k -> cov x (held k) <= 1;
  held_user k b : ok k -> b ∈ held k -> 0 < n_addr b /\ NODE_SIZE <= n_size b /\ n_addr b + n_size b <= 2 ^ 63;
  heap_alloc_law k want p k' : ok k -> 0 < want -> want mod 4096 = 0 -> sys_heap_alloc want k = (p, k') ->
    ok k' /\ if (p =? 0) || (p =? u64_max) then held k' = held k else held k' = held k ++ [mkNode p want];
  heap_free_law k a s l1 l2 r k' : ok k -> held k = l1 ++ mkNode a s :: l2 -> sys_heap_free a k = (r, k') ->
    ok k' /\ held k' ≡ₚ l1 ++ l2
}.

Section Safety.
Context {K : Type} `{KernelLaws K}.
Implicit Types h : Heap K.

Definition live_ok (m : gmap Z AllocHeader) (e : Live) : Prop :=
  m !! (l_ptr e - HEADER) = Some (mkHeader (n_addr (l_block e)) (n_size (l_block e))) /\
  n_addr (l_block e) + HEADER <= l_ptr e /\ 0 <= l_size e /\
  l_ptr e + l_size e <= n_addr (l_block e) + n_size (l_block e).

(** The recorded arenas, as blocks. *)
Definition recorded (slots : list (Z * Z)) : list FreeNode :=
  (fun slot => mkNode slot.1 slot.2) <$> filter (fun slot => slot.1 <> 0) slots.

(** Every byte of the regions held is in exactly one block, free or allocated; the
    free list is sorted and coalesced; every recorded arena is a region held, once. *)
Record inv h (live : list Live) : Prop := {
  inv_kernel : ok (kernel h);
  inv_part x : cov x (head h) + cov x (live_blocks live) = cov x (held (kernel h));
  inv_chain : chain 0 (head h);
  inv_live : Forall (live_ok (hdrs h)) live;
  inv_slots : recorded (arenas h) ⊆+ held (kernel h);
}.

Lemma held_byte (k : K) (x : Z) : ok k -> 0 < cov x (held k) -> 0 < x < 2 ^ 63.
Proof.
  intros Hk. assert (forall b, b ∈ held k -> 0 < n_addr b /\ n_addr b + n_size b <= 2 ^ 63) as Hb.
  { intros b Hb. destruct (held_user _ _ Hk Hb) as (? & _ & ?). lia. }
  revert Hb. generalize (held k). intros l Hb Hx. induction l as [|b l IH]; [done|]. rewrite cov_cons in Hx.
  destruct (decide (inb x b = 1)) as [E|E].
  - apply inb_1 in E. specialize (Hb b ltac:(set_solver)). lia.
  - apply IH; [set_solver|]. assert (inb x b = 0); [revert E; unfold inb; split_ifs; lia|lia].
Qed.

(** A block disjoint from the free list and inside the regions can be freed. *)
Lemma insert_inv (a s : Z) (k : K) (l : list FreeNode) :
  ok k -> NODE_SIZE <= s -> chain 0 l -> (forall x, inb x (mkNode a s) + cov x l <= cov x (held k)) ->
  chain 0 (insert a s l) /\ forall x, cov x (insert a s l) = inb x (mkNode a s) + cov x l.
Proof.
  intros Hk Hs Hl Hc. apply insert_chain; [done| |done|].
  - unfold NODE_SIZE in *. assert (inb a (mkNode a s) = 1) as Ha by (apply inb_1; simpl; lia).
    pose proof (Hc a). pose proof (cov_nonneg a l). destruct (held_byte k a Hk ltac:(lia)). lia.
  - intros x. pose proof (Hc x). pose proof (held_disjoint k x Hk). lia.
Qed.

(** [take] without the header it writes is the kernel allocator's [take_raw]. *)
Lemma take_raw_eq (need align : Z) h : 0 <= need ->
  take need HEADER align h =
  match take_raw need (head h) with
  | (Some (a, kept), l) =>
      (Some (align_up (a + HEADER) align),
       mkHeap l (arenas h) (<[align_up (a + HEADER) align - HEADER := mkHeader a kept]> (hdrs h)) (kernel h))
  | (None, _) => (None, h)
  end.
Proof.
  intros Hn. unfold take, take_raw. destruct (first_fit need [] (head h)) as [[[passed cur] next]|]; [|done].
  destruct (NODE_SIZE <=? n_size cur - need) eqn:E; [|done]. zbool. by rewrite insert_nolock_eq.
Qed.

Lemma take_inv lsize lalign h live r h' :
  inv h live -> layout_ok lsize lalign -> take (need_of lsize lalign) HEADER (eff_align lalign) h = (r, h') ->
  match r with
  | Some p => exists b, inv h' (mkLive p lsize b :: live) /\ p mod lalign = 0
  | None => h' = h /\ Forall (fun b => n_size b < need_of lsize lalign) (head h)
  end.
Proof.
  intros [Hk Hp Hch Hl Hsl] Hlay. pose proof (need_of_spec _ _ Hlay) as Hneed.
  destruct Hlay as (Hs0 & (k & Hk0 & ->) & Hb).
  assert (0 < 2 ^ k) by (apply Z.pow_pos_nonneg; lia).
  assert (2 ^ k <= eff_align (2 ^ k)) by (unfold eff_align; lia). unfold HEADER in *.
  rewrite take_raw_eq by (unfold HEADER; lia).
  assert (forall x, cov x (head h) <= 1) as Hle.
  { intros x. specialize (Hp x). pose proof (held_disjoint _ x Hk). pose proof (cov_nonneg x (live_blocks live)). lia. }
  destruct (take_raw _ (head h)) as [[[a kept]|] l] eqn:Et;
    pose proof (take_raw_spec (need_of lsize (2 ^ k)) 0 _ _ _ ltac:(unfold NODE_SIZE; lia) Hch Hle Et) as Hr; intros [= <- <-]; [|by destruct Hr as [-> Hr]].
  destruct Hr as (Hkept & Ha & Hch' & Hcov). exists (mkNode a kept).
  assert (a + kept <= 2 ^ 63) as Hend.
  { destruct (held_byte (kernel h) (a + kept - 1) Hk); [|lia].
    assert (inb (a + kept - 1) (mkNode a kept) = 1) as E by (apply inb_1; simpl; lia).
    rewrite <- Hp, Hcov, E. pose proof (cov_nonneg (a + kept - 1) l). pose proof (cov_nonneg (a + kept - 1) (live_blocks live)). lia. }
  rewrite (eff_align_pow2 _ k Hk0 eq_refl) in *. change (2 ^ 63) with 9223372036854775808 in *.
  destruct (align_up_spec (a + HEADER) (Z.max k 3)) as [Hu Hmod]; [lia|unfold HEADER; lia|rewrite ?u64_bound_val; unfold HEADER; lia|].
  set (u := align_up (a + HEADER) (2 ^ Z.max k 3)) in *. unfold HEADER in *.
  split; [split; cbn [kernel head arenas hdrs]; try done|].
  - intros x. rewrite cov_live_cons. cbn [l_block]. specialize (Hp x). rewrite Hcov in Hp. lia.
  - constructor.
    { unfold live_ok, HEADER. cbn [l_ptr l_size l_block n_addr n_size]. rewrite lookup_insert_eq. split_and!; [done|lia..]. }
    apply Forall_forall. intros e He. rewrite Forall_forall in Hl.
    destruct (Hl e He) as (Hh1 & Hh2 & Hh3 & Hh4). unfold live_ok, HEADER in *.
    rewrite lookup_insert_ne; [done|]. intros Heq.
    destruct (cov_apart (mkNode a kept) (l_block e) (live_blocks live)); cbn [n_addr n_size] in *; try lia.
    + intros x. specialize (Hp x). rewrite Hcov in Hp. pose proof (cov_nonneg x l). pose proof (held_disjoint _ x Hk). lia.
    + by apply list_elem_of_fmap_2.
  - assert ((2 ^ k | 2 ^ Z.max k 3)) as Hdiv.
    { exists (2 ^ (Z.max k 3 - k)). rewrite <- Z.pow_add_r by lia. f_equal. lia. }
    apply Z.mod_divide; [lia|]. etransitivity; [exact Hdiv|]. apply Z.mod_divide; [lia|done].
Qed.

Lemma unlink_spec (a s : Z) (passed l : list FreeNode) :
  match unlink a s passed l with
  | Some l' => exists l1 l2, l = l1 ++ mkNode a s :: l2 /\ l' = reverse passed ++ l1 ++ l2
  | None => mkNode a s ∉ l
  end.
Proof.
  revert passed. induction l as [|cur l IH]; intros passed; cbn [unlink]; [set_solver|].
  destruct (_ && _) eqn:E.
  - zbool. exists [], l. destruct cur; simpl in *. by subst.
  - specialize (IH (cur :: passed)). destruct (unlink a s (cur :: passed) l) as [l'|].
    + destruct IH as (l1 & l2 & -> & ->). exists (cur :: l1), l2. split; [done|]. by rewrite reverse_cons, <- app_assoc.
    + intros [<-|Hin]%elem_of_cons; [|done]. simpl in E. by rewrite !Z.eqb_refl in E.
Qed.

Lemma chain_remove (e : Z) (l1 l2 : list FreeNode) (b : FreeNode) : chain e (l1 ++ b :: l2) -> chain e (l1 ++ l2).
Proof.
  intros [H1 (H2 & H3 & H4)]%chain_app. apply chain_app. split; [done|]. eapply chain_weaken; [|done]. unfold NODE_SIZE in *. lia.
Qed.

Lemma recorded_cons (slot : Z * Z) slots :
  recorded (slot :: slots) = if slot.1 =? 0 then recorded slots else mkNode slot.1 slot.2 :: recorded slots.
Proof. unfold recorded. rewrite filter_cons. destruct (slot.1 =? 0) eqn:E; zbool; [by rewrite decide_False by lia|by rewrite decide_True by lia]. Qed.

Lemma record_arena_recorded (p want : Z) slots : p <> 0 -> recorded (record_arena p want slots) ⊆+ recorded slots ++ [mkNode p want].
Proof.
  intros Hp. induction slots as [|slot slots IH]; [apply submseteq_nil_l|].
  unfold record_arena in *. cbn [update_first]. destruct (slot.1 =? 0) eqn:E; rewrite !recorded_cons, E.
  - cbn [fst snd]. rewrite (proj2 (Z.eqb_neq p 0)) by done. rewrite (comm app). done.
  - by apply submseteq_skip.
Qed.

(** Giving arenas back keeps the accounting; [pre] are the arenas of the slots passed
    and [c] what else is in the regions held. *)
Lemma release_slots_inv (c : Z -> Z) slots (pre l l' : list FreeNode) (k k' : K) slots' :
  ok k -> chain 0 l -> (forall x, cov x l + c x = cov x (held k)) -> pre ++ recorded slots ⊆+ held k ->
  release_slots slots l k = (slots', l', k') ->
  ok k' /\ chain 0 l' /\ (forall x, cov x l' + c x = cov x (held k')) /\ pre ++ recorded slots' ⊆+ held k'.
Proof.
  revert pre l k slots'. induction slots as [|slot slots IH]; intros pre l k slots' Hk Hl Hc Hsl; cbn [release_slots].
  { intros [= <- <- <-]. done. }
  rewrite recorded_cons in Hsl.
  destruct (slot.1 =? 0) eqn:E.
  { destruct (release_slots slots l k) as [[r l1] k1] eqn:Er. intros [= <- <- <-]. rewrite recorded_cons, E. by eapply IH. }
  pose proof (unlink_spec slot.1 slot.2 [] l) as Hu. destruct (unlink _ _ _ _) as [l0|].
  - destruct Hu as (l1 & l2 & -> & ->). cbn [reverse app] in *.
    assert (mkNode slot.1 slot.2 ∈ held k) as Hin by (eapply elem_of_submseteq; [|exact Hsl]; set_solver).
    apply list_elem_of_split in Hin as (g1 & g2 & Hg).
    destruct (sys_heap_free slot.1 k) as [r1 k1] eqn:Ef.
    destruct (heap_free_law _ _ _ _ _ _ _ Hk Hg Ef) as [Hk1 Hg1]. cbn [snd].
    destruct (release_slots slots _ k1) as [[r l3] k3] eqn:Er. intros [= <- <- <-]. rewrite recorded_cons. cbn [fst].
    rewrite (proj2 (Z.eqb_eq 0 0)) by done. eapply IH; [done|by eapply chain_remove| | |exact Er].
    + intros x. unfold cov at 2. rewrite (zsum_perm _ _ _ Hg1). fold (cov x (g1 ++ g2)). specialize (Hc x).
      rewrite Hg, !cov_split in Hc. unfold reverse; cbn [rev_append app]. lia.
    + rewrite Hg1. apply (submseteq_app_inv_l _ _ [mkNode slot.1 slot.2]). cbn [app].
      rewrite !Permutation_middle, <- Hg. done.
  - destruct (release_slots slots l k) as [[r l1] k1] eqn:Er. intros [= <- <- <-]. rewrite recorded_cons, E.
    rewrite cons_middle, app_assoc in Hsl |- *. by eapply IH.
Qed.

Lemma release_inv h live : inv h live -> inv (release_empty_arenas h) live.
Proof.
  intros [Hk Hp Hch Hl Hsl]. unfold release_empty_arenas. destruct (release_slots _ _ _) as [[slots l] k] eqn:Er.
  destruct (release_slots_inv (fun x => cov x (live_blocks live)) _ [] _ _ _ _ _ Hk Hch Hp Hsl Er) as (? & ? & ? & ?). by split.
Qed.

Lemma user_dealloc_inv h l1 e l2 :
  inv h (l1 ++ e :: l2) ->
  inv (set_head (insert (n_addr (l_block e)) (n_size (l_block e)) (head h)) h) (l1 ++ l2) /\
  dealloc (l_ptr e) h = Some (release_empty_arenas (set_head (insert (n_addr (l_block e)) (n_size (l_block e)) (head h)) h)).
Proof.
  intros [Hk Hp Hch Hl Hsl]. apply Forall_app in Hl as [Hl1 Hl2]. apply Forall_cons_1 in Hl2 as [(He1 & He2 & He3 & He4) Hl2].
  unfold HEADER in *. assert (mkNode (n_addr (l_block e)) (n_size (l_block e)) = l_block e) as Heta by by destruct (l_block e).
  destruct (insert_inv (n_addr (l_block e)) (n_size (l_block e)) (kernel h) (head h)) as [Hc Hcov]; [done|unfold NODE_SIZE; lia|done| |].
  { intros x. rewrite Heta. specialize (Hp x). rewrite cov_live_mid in Hp. pose proof (cov_nonneg x (live_blocks (l1 ++ l2))). lia. }
  split; [|unfold dealloc, HEADER; by rewrite He1].
  split; cbn [set_head kernel head arenas hdrs]; [done| |done|by apply Forall_app|done].
  intros x. rewrite Hcov, Heta. specialize (Hp x). rewrite cov_live_mid in Hp. lia.
Qed.

(** ** Allocation *)

(** What [grow] asks the kernel for. *)
Definition arena_size (min : Z) : Z := align_up (if ARENA_SIZE <? min then min else ARENA_SIZE) 4096.

Lemma arena_size_spec (min : Z) : min < u64_bound - 4096 -> min <= arena_size min /\ 4096 <= arena_size min /\ arena_size min mod 4096 = 0.
Proof.
  intros Hm. unfold arena_size, ARENA_SIZE. change 4096 with (2 ^ 12).
  destruct (align_up_spec (if 131072 <? min then min else 131072) 12) as [Hr Hmod]; [lia| | |].
  - destruct (131072 <? min) eqn:E; zbool; lia.
  - rewrite u64_bound_val in *. destruct (131072 <? min) eqn:E; zbool; lia.
  - split_and!; [| |done]; destruct (131072 <? min) eqn:E; zbool; lia.
Qed.

Lemma need_of_bound (lsize lalign : Z) : layout_ok lsize lalign -> need_of lsize lalign < u64_bound - 4096.
Proof.
  intros (Hs & (k & Hk & ->) & Hb). pose proof (Z.pow_pos_nonneg 2 k ltac:(lia) Hk). unfold need_of. change NODE_ALIGN with (2 ^ 3).
  assert (HEADER + lsize + eff_align (2 ^ k) <= 2 ^ 63 + 24) as Hle by (unfold eff_align, NODE_ALIGN, HEADER; lia).
  change (2 ^ 63) with 9223372036854775808 in *. rewrite u64_bound_val.
  destruct (align_up_spec (HEADER + lsize + eff_align (2 ^ k)) 3) as [Hr _]; [lia| |rewrite u64_bound_val; lia|lia].
  unfold eff_align, HEADER, NODE_ALIGN. lia.
Qed.

Lemma insert_big (a s : Z) (l : list FreeNode) :
  Forall (fun b => NODE_SIZE <= n_size b) l -> exists b, b ∈ insert a s l /\ s <= n_size b.
Proof.
  intros Hl. unfold insert. destruct (walk a [] l) as [p r] eqn:Ew. apply walk_spec in Ew as (b & -> & -> & _ & _).
  rewrite app_nil_r. apply Forall_app in Hl as [Hb Hr]. rewrite Forall_reverse in Hb.
  set (node := match r with [] => _ | _ => _ end).
  assert (s <= node.1) as Hn.
  { subst node. destruct r as [|c r]; [done|]. apply Forall_cons_1 in Hr as [Hc _]. unfold NODE_SIZE in *. destruct (_ =? _); simpl; lia. }
  destruct b as [|prev before]; [eexists; split; [by left|done]|]. apply Forall_cons_1 in Hb as [Hp _]. unfold NODE_SIZE in *.
  destruct (_ =? a); (eexists; split; [apply elem_of_app; right; by left|simpl; lia]).
Qed.

Lemma grow_inv h live (min : Z) (b : bool) h' :
  inv h live -> min < u64_bound - 4096 -> grow min h = (b, h') ->
  inv h' live /\ (if b then exists n, n ∈ head h' /\ min <= n_size n
                  else head h' = head h /\ (fst (sys_heap_alloc (arena_size min) (kernel h)) = 0 \/
                                            fst (sys_heap_alloc (arena_size min) (kernel h)) = u64_max)).
Proof.
  intros [Hk Hp Hch Hl Hsl] Hm. destruct (arena_size_spec min Hm) as (Hw1 & Hw2 & Hw3). unfold grow. fold (arena_size min).
  destruct (sys_heap_alloc (arena_size min) (kernel h)) as [p k] eqn:Ea.
  destruct (heap_alloc_law _ (arena_size min) _ _ Hk ltac:(lia) Hw3 Ea) as [Hk' Hh]. cbn [fst].
  destruct (_ || _) eqn:E; intros [= <- <-].
  - split; [split; cbn; [done| |done|done|]; by rewrite Hh|]. split; [done|]. apply orb_true_iff in E as [E|E]; zbool; tauto.
  - apply orb_false_iff in E as [E1 E2]. zbool. pose proof (chain_sizes _ _ Hch) as Hsz.
    destruct (insert_inv p (arena_size min) k (head h)) as [Hc Hcov]; [done|unfold NODE_SIZE; lia|done| |].
    { intros x. rewrite Hh, cov_app, cov_cons. change (cov x []) with 0. specialize (Hp x).
      pose proof (cov_nonneg x (live_blocks live)). lia. }
    split; [split; cbn [kernel head arenas hdrs]; try done|].
    + intros x. rewrite Hcov, Hh, cov_app, cov_cons. change (cov x []) with 0. specialize (Hp x). lia.
    + rewrite Hh. etransitivity; [by apply record_arena_recorded|]. by apply submseteq_app.
    + cbn [head]. destruct (insert_big p (arena_size min) (head h) Hsz) as (n & ? & ?). exists n. split; [done|lia].
Qed.

(** What [alloc] guarantees. *)
Definition alloc_post lsize lalign h live (r : option Z * Heap K) : Prop :=
  match r with
  | (Some p, h') => exists b, inv h' (mkLive p lsize b :: live) /\ p mod lalign = 0
  | (None, h') =>
      inv h' live /\ head h' = head h /\ Forall (fun b => n_size b < need_of lsize lalign) (head h) /\
      let r := fst (sys_heap_alloc (arena_size (need_of lsize lalign)) (kernel h)) in r = 0 \/ r = u64_max
  end.

Lemma user_alloc_meets lsize lalign h live :
  inv h live -> layout_ok lsize lalign -> alloc_post lsize lalign h live (alloc lsize lalign h).
Proof.
  intros Hi Hlay. unfold alloc_post, alloc.
  destruct (take (need_of lsize lalign) HEADER (eff_align lalign) h) as [[p|] h1] eqn:Et; pose proof (take_inv _ _ _ _ _ _ Hi Hlay Et) as H1; [done|].
  destruct H1 as [-> Hsmall]. destruct (grow (need_of lsize lalign) h) as [b h1] eqn:Eg.
  destruct (grow_inv _ _ _ _ _ Hi (need_of_bound _ _ Hlay) Eg) as [Hi1 Hb]. destruct b; [|by destruct Hb].
  destruct (take _ _ _ h1) as [[p|] h2] eqn:Et2; pose proof (take_inv _ _ _ _ _ _ Hi1 Hlay Et2) as H2; [done|].
  destruct H2 as [-> Hno], Hb as (n & Hn & Hbig). rewrite Forall_forall in Hno. specialize (Hno n Hn). lia.
Qed.

(** Allocation in a user program.  Under the heap invariant [alloc] returns a block
    whose pointer is aligned as the layout asks, whose payload lies inside the block
    after its header, and keeps every byte of the arenas in exactly one free or
    allocated block; it returns null only when no free node is large enough and the
    kernel, asked for an arena, refused; the invariant then still holds and the free
    list is as before. *)
Theorem user_alloc_spec lsize lalign h live :
  inv h live -> layout_ok lsize lalign -> alloc_post lsize lalign h live (alloc lsize lalign h).
Proof. apply user_alloc_meets. Qed.

(** ** Histories of a program's allocations *)

Inductive event := EAlloc (lsize lalign : Z) (r : option Z) | EFree (ptr : Z).

Inductive step : Heap K * list Live -> event -> Heap K * list Live -> Prop :=
  | step_alloc h h' live lsize lalign p a s :
      layout_ok lsize lalign -> alloc lsize lalign h = (Some p, h') ->
      hdrs h' !! (p - HEADER) = Some (mkHeader a s) ->
      step (h, live) (EAlloc lsize lalign (Some p)) (h', mkLive p lsize (mkNode a s) :: live)
  | step_null h h' live lsize lalign :
      layout_ok lsize lalign -> alloc lsize lalign h = (None, h') -> step (h, live) (EAlloc lsize lalign None) (h', live)
  | step_free h h' l1 e l2 : dealloc (l_ptr e) h = Some h' -> step (h, l1 ++ e :: l2) (EFree (l_ptr e)) (h', l1 ++ l2).

Lemma user_step_inv s e s' : inv s.1 s.2 -> step s e s' -> inv s'.1 s'.2.
Proof.
  intros Hi Hs. destruct Hs as [h h' live ls la p a sz Hlay Ha Hh|h h' live ls la Hlay Ha|h h' l1 e l2 Hd]; cbn [fst snd] in *.
  - pose proof (user_alloc_meets _ _ _ _ Hi Hlay) as Hp. rewrite Ha in Hp. destruct Hp as (b & Hi' & _).
    pose proof (inv_live _ _ Hi') as [(Hb & _) _]%Forall_cons_1. cbn [l_ptr l_block] in Hb. rewrite Hh in Hb.
    injection Hb as -> ->. by destruct b.
  - pose proof (user_alloc_meets _ _ _ _ Hi Hlay) as Hp. rewrite Ha in Hp. by destruct Hp.
  - destruct (user_dealloc_inv _ _ _ _ Hi) as [Hi' Hd']. rewrite Hd in Hd'. injection Hd' as ->. by apply release_inv.
Qed.

Lemma new_inv (k : K) : ok k -> held k = [] -> inv (new k) [].
Proof.
  intros Hk Hh. assert (forall n, recorded (replicate n (0, 0)) = []) as Hr by (induction n; [done|cbn [replicate]; by rewrite recorded_cons]).
  unfold new. split; cbn [kernel head arenas hdrs]; [done| |done|constructor|]; rewrite ?Hh, ?Hr; done.
Qed.

Lemma live_apart h live (i j : nat) e1 e2 :
  inv h live -> (i < j)%nat -> live !! i = Some e1 -> live !! j = Some e2 -> apart e1 e2.
Proof.
  intros [Hk Hp _ Hl _] Hij H1 H2.
  pose proof (Forall_lookup_1 _ _ _ _ Hl H1) as (_ & ? & ? & ?). pose proof (Forall_lookup_1 _ _ _ _ Hl H2) as (_ & ? & ? & ?).
  assert (e2 ∈ drop (S i) live) as Hin.
  { apply list_elem_of_lookup. exists (j - S i)%nat. rewrite lookup_drop. by replace (S i + (j - S i))%nat with j by lia. }
  unfold apart, HEADER in *.
  destruct (cov_apart (l_block e1) (l_block e2) (live_blocks (drop (S i) live))); try lia.
  - intros x. specialize (Hp x). rewrite <- (take_drop_middle live i e1 H1), cov_live_mid in Hp. unfold live_blocks in *.
    rewrite fmap_app, cov_app in Hp. pose proof (cov_nonneg x (head h)). pose proof (held_disjoint _ x Hk).
    pose proof (cov_nonneg x (l_block <$> list.take i live)). lia.
  - by apply list_elem_of_fmap_2.
Qed.

(** C17: The heap of a user program is safe.  From an empty heap, under any kernel that
    keeps its promise, every sequence of allocations (successful or not) and frees keeps
    every byte of the arenas held in exactly one free or allocated block, the free list
    sorted and coalesced and the recorded arenas among those held, so that no arena is
    given back twice; two allocations held at once have disjoint headers and payloads,
    and lie in memory the kernel has given to the program and not taken back. *)
Theorem user_heap_safe (k : K) es h live :
  ok k -> held k = [] -> trace step (new k, []) es (h, live) ->
  inv h live /\
  (forall (i j : nat) e1 e2, (i < j)%nat -> live !! i = Some e1 -> live !! j = Some e2 -> apart e1 e2) /\
  forall e x, e ∈ live -> l_ptr e - HEADER <= x < l_ptr e + l_size e -> cov x (held (kernel h)) = 1.
Proof.
  intros Hk Hh Htr. assert (inv h live) as Hi.
  { apply (trace_invariant step (fun s => inv s.1 s.2)) in Htr; [done|apply user_step_inv|by apply new_inv]. }
  split_and!; [done|eauto using live_apart|]. intros e x He Hx. destruct Hi as [Hok Hp _ Hl _].
  rewrite Forall_forall in Hl. destruct (Hl e He) as (_ & H1 & H2 & H3). unfold HEADER in *.
  assert (inb x (l_block e) = 1) as Hin by (apply inb_1; lia).
  pose proof (zsum_elem_le (inb x) (live_blocks live) (l_block e) (inb_nonneg x) ltac:(by apply list_elem_of_fmap_2)) as Hle.
  fold (cov x (live_blocks live)) in Hle. pose proof (cov_nonneg x (head h)). pose proof (held_disjoint _ x Hok). specialize (Hp x). lia.
Qed.

(** ** Arenas given back *)

#[local] Instance FreeNode_eq_dec : EqDecision FreeNode.
Proof. solve_decision. Defined.

Lemma held_nodup (k : K) : ok k -> NoDup (held k).
Proof.
  intros Hk. assert (forall b, b ∈ held k -> NODE_SIZE <= n_size b) as Hs by (intros b Hb; by destruct (held_user _ _ Hk Hb) as (_ & ? & _)).
  pose proof (fun x => held_disjoint k x Hk) as Hd. revert Hs Hd. generalize (held k). intros l Hs Hd.
  induction l as [|b l IH]; constructor.
  - intros Hb. pose proof (zsum_elem_le (inb (n_addr b)) l b (inb_nonneg _) Hb) as Hle. fold (cov (n_addr b) l) in Hle.
    specialize (Hd (n_addr b)). rewrite cov_cons in Hd. specialize (Hs b ltac:(set_solver)). unfold NODE_SIZE in *.
    assert (inb (n_addr b) b = 1) by (apply inb_1; lia). lia.
  - apply IH; [set_solver|]. intros x. specialize (Hd x). rewrite cov_cons in Hd. pose proof (inb_nonneg x b). lia.
Qed.

(** Exactly the recorded arenas that are nodes of the free list are given back. *)
Lemma release_slots_held slots (l l' : list FreeNode) (k k' : K) slots' :
  ok k -> recorded slots ⊆+ held k -> release_slots slots l k = (slots', l', k') ->
  forall b, b ∈ held k' <-> b ∈ held k /\ ~ (b ∈ recorded slots /\ b ∈ l).
Proof.
  revert l k slots'. induction slots as [|slot slots IH]; intros l k slots' Hk Hsl; cbn [release_slots].
  { intros [= <- <- <-] b. set_solver. }
  rewrite recorded_cons in *.
  destruct (slot.1 =? 0) eqn:E.
  { destruct (release_slots slots l k) as [[r l1] k1] eqn:Er. intros [= <- <- <-]. by eapply IH. }
  assert (recorded slots ⊆+ held k) as Hsl' by (etransitivity; [|exact Hsl]; by apply submseteq_cons).
  pose proof (unlink_spec slot.1 slot.2 [] l) as Hu. set (n := mkNode slot.1 slot.2) in *. destruct (unlink _ _ _ _) as [l0|].
  - destruct Hu as (l1 & l2 & -> & ->).
    assert (n ∈ held k) as Hin by (eapply elem_of_submseteq; [|exact Hsl]; set_solver).
    apply list_elem_of_split in Hin as (g1 & g2 & Hg).
    destruct (sys_heap_free slot.1 k) as [r1 k1] eqn:Ef.
    destruct (heap_free_law _ _ _ _ _ _ _ Hk Hg Ef) as [Hk1 Hg1]. cbn [snd].
    pose proof (held_nodup k Hk) as Hnd. rewrite Hg, <- Permutation_middle, <- Hg1 in Hnd. apply NoDup_cons in Hnd as [Hn _].
    assert (forall b, b ∈ held k <-> b = n \/ b ∈ held k1) as Hmem.
    { intros b. rewrite Hg, <- Permutation_middle, <- Hg1. set_solver. }
    assert (recorded slots ⊆+ held k1) as Hs1.
    { rewrite Hg1. apply (submseteq_app_inv_l _ _ [n]). cbn [app]. by rewrite Permutation_middle, <- Hg. }
    destruct (release_slots slots _ k1) as [[r l3] k3] eqn:Er. intros [= <- <- <-] b.
    rewrite (IH _ _ _ Hk1 Hs1 Er).
    rewrite Hmem. unfold reverse; cbn [rev_append app]. destruct (decide (b = n)) as [->|Hne]; set_solver.
  - destruct (release_slots slots l k) as [[r l1] k1] eqn:Er. intros [= <- <- <-] b. rewrite (IH _ _ _ Hk Hsl' Er). set_solver.
Qed.

Lemma dealloc_held h l1 e l2 h' :
  inv h (l1 ++ e :: l2) -> dealloc (l_ptr e) h = Some h' ->
  let free := insert (n_addr (l_block e)) (n_size (l_block e)) (head h) in
  (forall x, cov x free + cov x (live_blocks (l1 ++ l2)) = cov x (held (kernel h))) /\
  forall b, b ∈ held (kernel h') <->
    b ∈ held (kernel h) /\ ~ (b ∈ recorded (arenas h) /\ free_run (n_addr b) (n_size b) free).
Proof.
  intros Hi Hd free. destruct (user_dealloc_inv _ _ _ _ Hi) as [[Hk Hp Hch _ Hsl] Hd']. rewrite Hd in Hd'. injection Hd' as ->.
  cbn [set_head kernel head arenas] in *. fold free in Hp, Hch |- *. split; [done|]. intros b.
  unfold release_empty_arenas. cbn [set_head arenas head kernel]. fold free. destruct (release_slots _ _ _) as [[slots l] k] eqn:Er. cbn [kernel].
  rewrite (release_slots_held _ _ _ _ _ _ Hk Hsl Er). split; intros [Hb Hn]; (split; [done|]); intros [Hr Hf]; apply Hn; (split; [done|]).
  - destruct (held_user _ _ Hk Hb) as (_ & Hs & _). unfold NODE_SIZE in *.
    replace b with (mkNode (n_addr b) (n_size b)) by by destruct b. eapply chain_run_node; [exact Hch|lia|done].
  - by eapply chain_node_run.
Qed.

(** Which arenas a program gives back.  A free returns to the kernel exactly the
    recorded arenas that it leaves wholly free with no free byte next to either end;
    every other region stays with the program. *)
Theorem arenas_returned h l1 e l2 :
  inv h (l1 ++ e :: l2) -> exists h', dealloc (l_ptr e) h = Some h' /\ inv h' (l1 ++ l2) /\
  forall b, b ∈ held (kernel h') <->
    b ∈ held (kernel h) /\ ~ (b ∈ recorded (arenas h) /\
      free_run (n_addr b) (n_size b) (insert (n_addr (l_block e)) (n_size (l_block e)) (head h))).
Proof.
  intros Hi. destruct (user_dealloc_inv _ _ _ _ Hi) as [Hi' Hd]. eexists. split; [exact Hd|].
  split; [by apply release_inv|]. by destruct (dealloc_held _ _ _ _ _ Hi Hd).
Qed.

(** Neighbouring arenas are never given back.  The free list merges free blocks
    across the border of two arenas, and the kernel places arenas one after the other:
    when the program's last allocation is freed, an arena with a neighbour stays with
    the program although not a byte of it is in use. *)
Theorem adjacent_arenas_kept h e (b c : FreeNode) :
  inv h [e] -> b ∈ held (kernel h) -> c ∈ held (kernel h) ->
  n_addr b + n_size b = n_addr c ->
  exists h', dealloc (l_ptr e) h = Some h' /\ inv h' [] /\ b ∈ held (kernel h') /\ c ∈ held (kernel h').
Proof.
  intros Hi Hb Hc Hadj. destruct (user_dealloc_inv h [] e [] Hi) as [Hi' Hd]. eexists. split; [exact Hd|].
  split; [by apply release_inv|]. pose proof (inv_kernel _ _ Hi) as Hk.
  destruct (dealloc_held h [] e [] _ Hi Hd) as [Hall Hret]. set (free := insert _ _ (head h)) in *.
  assert (forall d x, d ∈ held (kernel h) -> n_addr d <= x < n_addr d + n_size d -> cov x free <> 0) as Hfree.
  { intros d x Hin Hx. apply inb_1 in Hx. specialize (Hall x). change (cov x (live_blocks _)) with 0 in Hall.
    pose proof (zsum_elem_le (inb x) (held (kernel h)) d (inb_nonneg x) Hin) as Hle. fold (cov x (held (kernel h))) in Hle. lia. }
  destruct (held_user _ _ Hk Hb) as (_ & Hb2 & _), (held_user _ _ Hk Hc) as (_ & Hc2 & _). unfold NODE_SIZE in *.
  split; apply Hret; (split; [done|]); intros [_ (_ & Hlo & Hhi)].
  - eapply (Hfree c); [done| |exact Hhi]. lia.
  - eapply (Hfree b); [done| |exact Hlo]. lia.
Qed.

(** ** The order of frees *)

Lemma inv_perm h live live' : live ≡ₚ live' -> inv h live -> inv h live'.
Proof.
  intros Hp [Hk Hpt Hch Hl Hsl]. split; [done| |done|by rewrite <- Hp|done]. intros x. rewrite <- Hpt. f_equal. unfold cov. apply zsum_perm.
  unfold live_blocks. by rewrite Hp.
Qed.

(** What becomes of the slots. *)
Lemma release_slots_slots slots (l l' : list FreeNode) (k k' : K) slots' :
  NoDup (recorded slots) -> release_slots slots l k = (slots', l', k') ->
  slots' = (fun slot => if (slot.1 =? 0) || negb (bool_decide (mkNode slot.1 slot.2 ∈ l)) then slot else (0, 0)) <$> slots.
Proof.
  revert l k slots'. induction slots as [|slot slots IH]; intros l k slots' Hnd; cbn [release_slots]; [by intros [= <- <- <-]|].
  rewrite recorded_cons in Hnd. rewrite fmap_cons. destruct (slot.1 =? 0) eqn:E; cbn [orb].
  { destruct (release_slots slots l k) as [[r l1] k1] eqn:Er. intros [= <- <- <-]. f_equal. by eapply IH. }
  apply NoDup_cons in Hnd as [Hni Hnd]. pose proof (unlink_spec slot.1 slot.2 [] l) as Hu. destruct (unlink _ _ _ _) as [l0|].
  - destruct Hu as (l1 & l2 & -> & ->). rewrite (bool_decide_true (mkNode slot.1 slot.2 ∈ _)) by set_solver.
    destruct (release_slots slots _ _) as [[r l3] k3] eqn:Er. intros [= <- <- <-]. cbn [negb]. f_equal. rewrite (IH _ _ _ Hnd Er).
    apply list_fmap_ext. intros i s Hs. unfold reverse; cbn [rev_append app]. destruct (s.1 =? 0) eqn:E0; [done|]. cbn [orb].
    assert (mkNode s.1 s.2 <> mkNode slot.1 slot.2) as Hne.
    { intros Heq. apply Hni. rewrite <- Heq. unfold recorded. apply (list_elem_of_fmap_2 (fun slot : Z * Z => mkNode slot.1 slot.2)), list_elem_of_filter.
      split; [by zbool|by eapply list_elem_of_lookup_2]. }
    rewrite (bool_decide_ext (mkNode s.1 s.2 ∈ l1 ++ l2) (mkNode s.1 s.2 ∈ l1 ++ mkNode slot.1 slot.2 :: l2)) by set_solver. done.
  - rewrite (bool_decide_false (mkNode slot.1 slot.2 ∈ l)) by done.
    destruct (release_slots slots l k) as [[r l1] k1] eqn:Er. intros [= <- <- <-]. f_equal. by eapply IH.
Qed.

(** No two regions touch; the kernel's next-fit placement does make them touch. *)
Definition regions_apart (k : K) : Prop := forall b c, b ∈ held k -> c ∈ held k -> n_addr b + n_size b <> n_addr c.
(** No byte of [b] is allocated. *)
Definition unused (live : list Live) (b : FreeNode) : Prop := forall x, inb x b = 1 -> cov x (live_blocks live) = 0.
(** The slots that are still held. *)
Definition kept (k : K) (slots : list (Z * Z)) : list (Z * Z) :=
  (fun slot => if (slot.1 =? 0) || bool_decide (mkNode slot.1 slot.2 ∈ held k) then slot else (0, 0)) <$> slots.

Lemma held_cov (k : K) (x : Z) : 0 < cov x (held k) -> exists b, b ∈ held k /\ inb x b = 1.
Proof.
  generalize (held k). intros l. induction l as [|b l IH]; [done|]. rewrite cov_cons. intros Hx.
  destruct (decide (inb x b = 1)) as [E|E]; [exists b; set_solver|]. destruct IH as (c & ? & ?); [|exists c; set_solver].
  assert (inb x b = 0); [revert E; unfold inb; split_ifs; lia|lia].
Qed.

(** With regions apart, a region is a free node of its own as soon as it is unused. *)
Lemma unused_run h live (l : list FreeNode) b :
  ok (kernel h) -> regions_apart (kernel h) -> (forall x, cov x l + cov x (live_blocks live) = cov x (held (kernel h))) -> b ∈ held (kernel h) ->
  free_run (n_addr b) (n_size b) l <-> unused live b.
Proof.
  intros Hk Hap Hp Hb.
  assert (forall x, inb x b = 1 -> cov x (held (kernel h)) = 1) as Hone.
  { intros x Hx. pose proof (zsum_elem_le (inb x) (held (kernel h)) b (inb_nonneg x) Hb) as Hle. fold (cov x (held (kernel h))) in Hle.
    pose proof (held_disjoint _ x Hk). lia. }
  split.
  - intros (Hr & _) x Hx. pose proof (Hone x Hx). apply inb_1 in Hx. specialize (Hr x Hx). specialize (Hp x). lia.
  - intros Hu. destruct (held_user _ _ Hk Hb) as (_ & Hsz & _). unfold NODE_SIZE in Hsz.
    assert (forall x, (x = n_addr b - 1 \/ x = n_addr b + n_size b) -> cov x (held (kernel h)) = 0) as Hout.
    { intros x Hx. destruct (decide (0 < cov x (held (kernel h)))) as [Hc|Hc]; [|pose proof (cov_nonneg x (held (kernel h))); lia]. exfalso.
      destruct (held_cov _ _ Hc) as (c & Hcin & Hxc%inb_1). pose proof (Hap b c Hb Hcin) as H1. pose proof (Hap c b Hcin Hb) as H2.
      assert (b <> c) as Hne by (intros ->; lia).
      pose proof (held_disjoint _ (Z.max (n_addr b) (n_addr c)) Hk) as Hd. apply list_elem_of_split in Hb as (g1 & g2 & Hg).
      rewrite Hg, cov_split in Hd. assert (c ∈ g1 ++ g2) as Hcg by (rewrite Hg in Hcin; set_solver).
      pose proof (zsum_elem_le (inb (Z.max (n_addr b) (n_addr c))) _ c (inb_nonneg _) Hcg) as Hle. fold (cov (Z.max (n_addr b) (n_addr c)) (g1 ++ g2)) in Hle.
      revert Hd Hle. unfold inb. split_ifs; lia. }
    split_and!.
    + intros x Hx. pose proof (Hone x (proj2 (inb_1 x b) Hx)). pose proof (Hu x (proj2 (inb_1 x b) Hx)). specialize (Hp x). lia.
    + specialize (Hp (n_addr b - 1)). rewrite Hout in Hp by lia. pose proof (cov_nonneg (n_addr b - 1) l). pose proof (cov_nonneg (n_addr b - 1) (live_blocks live)). lia.
    + specialize (Hp (n_addr b + n_size b)). rewrite Hout in Hp by lia. pose proof (cov_nonneg (n_addr b + n_size b) l). pose proof (cov_nonneg (n_addr b + n_size b) (live_blocks live)). lia.
Qed.

Fixpoint free_ptrs (ps : list Z) h : option (Heap K) :=
  match ps with [] => Some h | p :: ps' => h' ← dealloc p h; free_ptrs ps' h' end.

(** One free: what it leaves. *)
Lemma dealloc_apart h e live :
  inv h (e :: live) -> regions_apart (kernel h) ->
  exists h', dealloc (l_ptr e) h = Some h' /\ inv h' live /\ hdrs h' = hdrs h /\ arenas h' = kept (kernel h') (arenas h) /\
    forall b, b ∈ held (kernel h') <-> b ∈ held (kernel h) /\ ~ (b ∈ recorded (arenas h) /\ unused live b).
Proof.
  intros Hi Hap. destruct (user_dealloc_inv h [] e live Hi) as [Hi' Hd]. eexists. split; [exact Hd|].
  split; [by apply release_inv|]. destruct (dealloc_held h [] e live _ Hi Hd) as [Hall Hret]. cbn [app] in *.
  set (free := insert _ _ (head h)) in *. pose proof (inv_kernel _ _ Hi) as Hk.
  assert (forall b, b ∈ held (kernel (release_empty_arenas (set_head free h))) <-> b ∈ held (kernel h) /\ ~ (b ∈ recorded (arenas h) /\ unused live b)) as Hheld.
  { intros b. rewrite Hret. split; intros [Hb Hn]; (split; [done|]); intros [Hr Hu]; apply Hn; (split; [done|]); by apply (unused_run h live free b Hk Hap Hall Hb). }
  assert (forall slot, slot ∈ arenas h -> slot.1 <> 0 -> mkNode slot.1 slot.2 ∈ recorded (arenas h)) as Hrec.
  { intros slot Hs Hz. unfold recorded. apply (list_elem_of_fmap_2 (fun slot : Z * Z => mkNode slot.1 slot.2)), list_elem_of_filter. done. }
  pose proof (inv_slots _ _ Hi) as Hsl. pose proof (inv_chain _ _ Hi') as Hch. cbn [set_head head] in Hch.
  assert (NoDup (recorded (arenas h))) as Hndr.
  { pose proof (held_nodup _ Hk) as Hnd. apply submseteq_Permutation in Hsl as [g Hg]. rewrite Hg in Hnd. by apply NoDup_app in Hnd as [? _]. }
  revert Hheld. unfold release_empty_arenas. cbn [set_head arenas head kernel hdrs]. destruct (release_slots _ _ _) as [[slots l] k] eqn:Er. cbn [kernel arenas hdrs].
  intros Hheld. split_and!; [done| |done]. rewrite (release_slots_slots _ _ _ _ _ _ Hndr Er). apply list_fmap_ext. intros i slot Hs.
  apply list_elem_of_lookup_2 in Hs. destruct (slot.1 =? 0) eqn:E; [done|]. zbool. cbn [orb].
  pose proof (release_slots_held _ _ _ _ _ _ Hk Hsl Er (mkNode slot.1 slot.2)) as Hm. specialize (Hrec slot Hs E).
  assert (mkNode slot.1 slot.2 ∈ held (kernel h)) as Hin by (by eapply elem_of_submseteq).
  case_bool_decide as H1; case_bool_decide as H2; try done; exfalso; naive_solver.
Qed.

Lemma elem_recorded (b : FreeNode) slots : b ∈ recorded slots <-> (n_addr b, n_size b) ∈ slots /\ n_addr b <> 0.
Proof.
  unfold recorded. rewrite list_elem_of_fmap. setoid_rewrite list_elem_of_filter. split.
  - intros ([a s] & -> & Ha & Hs). done.
  - intros [Hs Ha]. exists (n_addr b, n_size b). split; [by destruct b|done].
Qed.
Lemma recorded_kept (k : K) (b : FreeNode) slots : b ∈ recorded (kept k slots) <-> b ∈ recorded slots /\ b ∈ held k.
Proof.
  assert (mkNode (n_addr b) (n_size b) = b) as Heta by by destruct b. rewrite !elem_recorded. unfold kept. rewrite list_elem_of_fmap. split.
  - intros [([a s] & Hs & Hin) Ha]. cbn [fst snd] in *. destruct (a =? 0) eqn:E; cbn [orb] in Hs; [zbool; simplify_eq; congruence|].
    case_bool_decide as Hd; [|by injection Hs as Hs _]. injection Hs as <- <-. rewrite Heta in Hd. done.
  - intros [[Hin Ha] Hh]. split; [|done]. exists (n_addr b, n_size b). split; [|done]. cbn [fst snd]. rewrite Heta, (bool_decide_true _ Hh). by rewrite orb_true_r.
Qed.
Lemma kept_kept (k k' : K) slots : (forall b, b ∈ held k' -> b ∈ held k) -> kept k' (kept k slots) = kept k' slots.
Proof.
  intros Hsub. unfold kept. rewrite <- list_fmap_compose. apply list_fmap_ext. intros i [a s] _. unfold compose. cbn [fst snd].
  destruct (a =? 0) eqn:E; cbn [orb fst snd]; [by rewrite E|]. case_bool_decide as H1; cbn [fst snd]; [by rewrite E|].
  rewrite (bool_decide_false (mkNode a s ∈ held k')) by (intros H2; by apply H1, Hsub). done.
Qed.
Lemma kept_held h live : inv h live -> kept (kernel h) (arenas h) = arenas h.
Proof.
  intros Hi. unfold kept. rewrite <- (list_fmap_id (arenas h)) at 2. apply list_fmap_ext. intros i [a s] Hs%list_elem_of_lookup_2. cbn [fst snd].
  destruct (a =? 0) eqn:E; [done|]. zbool. rewrite bool_decide_true; [done|]. eapply elem_of_submseteq; [|exact (inv_slots _ _ Hi)]. by apply elem_recorded.
Qed.
Lemma unused_app es rest b : unused (es ++ rest) b -> unused rest b.
Proof.
  intros Hu x Hx. specialize (Hu x Hx). unfold live_blocks in *. rewrite fmap_app, cov_app in Hu.
  pose proof (cov_nonneg x (l_block <$> es)). pose proof (cov_nonneg x (l_block <$> rest)). lia.
Qed.

Lemma free_ptrs_spec es h rest :
  inv h (es ++ rest) -> regions_apart (kernel h) -> (forall b, b ∈ recorded (arenas h) -> ~ unused (es ++ rest) b) ->
  exists h', free_ptrs (l_ptr <$> es) h = Some h' /\ inv h' rest /\ hdrs h' = hdrs h /\ arenas h' = kept (kernel h') (arenas h) /\
    forall b, b ∈ held (kernel h') <-> b ∈ held (kernel h) /\ ~ (b ∈ recorded (arenas h) /\ unused rest b).
Proof.
  revert h. induction es as [|e es IH]; intros h Hi Hap Htidy; cbn [fmap list_fmap free_ptrs].
  - exists h. split_and!; [done|done|done|by rewrite (kept_held h rest)|]. intros b. split; [|by intros [? _]]. intros Hb. split; [done|].
    intros [Hr Hu]. by apply (Htidy b).
  - destruct (dealloc_apart h e (es ++ rest) Hi Hap) as (h1 & -> & Hi1 & Hh1 & Ha1 & Hheld1). cbn [mbind option_bind].
    assert (forall b, b ∈ recorded (arenas h1) <-> b ∈ recorded (arenas h) /\ b ∈ held (kernel h1)) as Hrec1 by (intros b; by rewrite Ha1, recorded_kept).
    destruct (IH h1) as (h' & -> & Hi' & Hh' & Ha' & Hheld'); [done| | |].
    + intros b c [Hb _]%Hheld1 [Hc _]%Hheld1. by apply Hap.
    + intros b [Hr Hb]%Hrec1 Hu. apply Hheld1 in Hb as [_ Hn]. by apply Hn.
    + exists h'. split; [done|]. split; [done|]. split; [congruence|].
      assert (forall b, b ∈ held (kernel h') -> b ∈ held (kernel h1)) as Hsub by (intros b [? _]%Hheld'; done).
      split; [by rewrite Ha', Ha1, kept_kept|]. intros b. rewrite Hheld', Hrec1, Hheld1. pose proof (unused_app es rest b). tauto.
Qed.

End Safety.

Module Example.
(** A kernel that hands out regions one after the other below 1 TiB, as
    [Umem.sys_heap_alloc] does while frames last. *)
Record Bump := mkBump { bump : Z; regs : list FreeNode }.
Definition LIMIT : Z := 1099511627776.
#[export] Instance bump_kernel : Kernel Bump := {|
  sys_heap_alloc want k := if bump k + want <=? LIMIT then (bump k, mkBump (bump k + want) (regs k ++ [mkNode (bump k) want])) else (u64_max, k);
  sys_heap_free a k := (0, mkBump (bump k) (filter (fun b => n_addr b <> a) (regs k)))
|}.

Definition bump_ok (k : Bump) : Prop :=
  0 < bump k <= LIMIT /\ (forall x, cov x (regs k) <= 1) /\
  Forall (fun b => 0 < n_addr b /\ NODE_SIZE <= n_size b /\ n_addr b + n_size b <= bump k) (regs k).

Lemma cov_above (x z : Z) (l : list FreeNode) : Forall (fun b => 0 < n_addr b /\ NODE_SIZE <= n_size b /\ n_addr b + n_size b <= z) l -> z <= x -> cov x l = 0.
Proof. intros Hl Hx. induction Hl as [|b l Hb Hl IH]; [done|]. rewrite cov_cons, IH. unfold inb. split_ifs; lia. Qed.

Lemma bump_alloc (k : Bump) (want p : Z) (k' : Bump) :
  bump_ok k -> 0 < want -> want mod 4096 = 0 -> sys_heap_alloc want k = (p, k') ->
  bump_ok k' /\ if (p =? 0) || (p =? u64_max) then regs k' = regs k else regs k' = regs k ++ [mkNode p want].
Proof.
  intros (Hb & Hd & Hl) Hw Hm. unfold sys_heap_alloc, bump_kernel. unfold LIMIT in *. change u64_max with 18446744073709551615.
  destruct (_ <=? _) eqn:E; zbool; intros [= <- <-]; [|by split].
  rewrite (proj2 (Z.eqb_neq (bump k) 0)), (proj2 (Z.eqb_neq (bump k) 18446744073709551615)) by lia. split; [|done].
  assert (4096 <= want) by (pose proof (Z.div_mod want 4096 ltac:(lia)); lia).
  split_and!; cbn [bump regs]; [lia|unfold LIMIT; lia| |].
  - intros x. rewrite cov_app, cov_cons. change (cov x []) with 0. specialize (Hd x).
    destruct (Z.le_gt_cases (bump k) x); [rewrite (cov_above x (bump k)) by done|]; unfold inb; split_ifs; lia.
  - apply Forall_app. split; [|constructor; [cbn; unfold NODE_SIZE; lia|constructor]].
    eapply Forall_impl; [exact Hl|]. cbn. intros b. lia.
Qed.

Lemma bump_free (k : Bump) (a s : Z) l1 l2 (r : Z) (k' : Bump) :
  bump_ok k -> regs k = l1 ++ mkNode a s :: l2 -> sys_heap_free a k = (r, k') -> bump_ok k' /\ regs k' ≡ₚ l1 ++ l2.
Proof.
  intros (Hb & Hd & Hl) Hr [= <- <-]. unfold bump_ok. cbn [bump regs]. rewrite Hr in *.
  apply Forall_app in Hl as [Hl1 Hl2]. apply Forall_cons_1 in Hl2 as [Hn Hl2]. cbn in Hn. unfold NODE_SIZE in *.
  assert (forall b, b ∈ l1 ++ l2 -> n_addr b <> a) as Hne.
  { intros b Hin Ha. pose proof (zsum_elem_le (inb a) (l1 ++ l2) b (inb_nonneg a) Hin) as Hle. fold (cov a (l1 ++ l2)) in Hle.
    specialize (Hd a). rewrite cov_split in Hd.
    assert (16 <= n_size b) as Hs.
    { apply elem_of_app in Hin as [Hin|Hin]; [rewrite Forall_forall in Hl1; by apply Hl1|rewrite Forall_forall in Hl2; by apply Hl2]. }
    assert (inb a b = 1) by (apply inb_1; lia). assert (inb a (mkNode a s) = 1) by (apply inb_1; cbn; lia). lia. }
  assert (filter (fun b => n_addr b <> a) (l1 ++ mkNode a s :: l2) = l1 ++ l2) as ->.
  { rewrite filter_app, filter_cons. rewrite decide_False by (cbn; lia). rewrite <- filter_app.
    clear -Hne. induction (l1 ++ l2) as [|b l IH]; [done|]. rewrite filter_cons, decide_True by (apply Hne; set_solver). f_equal. set_solver. }
  split; [|done]. split_and!; [lia|lia| |by apply Forall_app]. intros x. specialize (Hd x). rewrite cov_split in Hd.
  pose proof (inb_nonneg x (mkNode a s)). lia.
Qed.

#[export] Instance bump_laws : KernelLaws Bump.
Proof.
  refine {| ok := bump_ok; held := regs |}.
  - intros k x (_ & Hd & _). apply Hd.
  - intros k b (H1 & _ & Hl) Hb. rewrite Forall_forall in Hl. destruct (Hl b Hb) as (? & ? & ?). unfold LIMIT in *. lia.
  - apply bump_alloc.
  - apply bump_free.
Defined.

Definition k0 : Bump := mkBump 824633720832 [].
Definition h1 : Heap Bump := snd (alloc 100000 8 (new k0)).
Definition h2 : Heap Bump := snd (alloc 100000 8 h1).
Definition p1 : Z := 824633720848.
Definition p2 : Z := 824633820872.
Definition h3 : Heap Bump := default h2 (dealloc p2 h2).
Definition e1 : Live := mkLive p1 100000 (mkNode 824633720832 100024).
Definition e2 : Live := mkLive p2 100000 (mkNode 824633820856 100024).

Lemma k0_ok : ok k0.
Proof. unfold ok; cbn; unfold bump_ok. cbn. split_and!; [lia|unfold LIMIT; lia|intros x; unfold cov; cbn; lia|constructor]. Qed.

Lemma layout_100000 : layout_ok 100000 8.
Proof. split_and!; [lia|exists 3; split; [lia|done]|lia]. Qed.

Lemma step1 : step (new k0, []) (EAlloc 100000 8 (Some p1)) (h1, [e1]).
Proof.
  apply step_alloc; [exact layout_100000| |vm_compute; reflexivity].
  unfold h1. apply (pair_fst (alloc 100000 8 (new k0)) (Some p1)). vm_compute. reflexivity.
Qed.

Lemma step2 : step (h1, [e1]) (EAlloc 100000 8 (Some p2)) (h2, [e2; e1]).
Proof.
  apply step_alloc; [exact layout_100000| |vm_compute; reflexivity].
  unfold h2. apply (pair_fst (alloc 100000 8 h1) (Some p2)). vm_compute. reflexivity.
Qed.

Lemma step3 : step (h2, [e2; e1]) (EFree p2) (h3, [e1]).
Proof.
  apply (step_free h2 h3 [] e2 [e1]). unfold h3. destruct (dealloc p2 h2) as [h|] eqn:E; [done|].
  exfalso. revert E. vm_compute. discriminate.
Qed.

Lemma h1_inv : inv h1 [e1].
Proof. exact (user_step_inv (new k0, []) _ (h1, [e1]) (new_inv k0 k0_ok eq_refl) step1). Qed.
Lemma h3_inv : inv h3 [e1].
Proof. exact (user_step_inv (h2, [e2; e1]) _ (h3, [e1]) (user_step_inv (h1, [e1]) _ (h2, [e2; e1]) h1_inv step2) step3). Qed.

Lemma user_alloc_spec_witness : alloc_post 100000 8 h1 [e1] (alloc 100000 8 h1) /\ fst (alloc 100000 8 h1) = Some p2.
Proof. split; [apply user_alloc_spec; [exact h1_inv|exact layout_100000]|vm_compute; reflexivity]. Defined.

Lemma user_heap_safe_witness : inv h2 [e2; e1] /\ apart e2 e1.
Proof.
  destruct (user_heap_safe k0 [EAlloc 100000 8 (Some p1); EAlloc 100000 8 (Some p2)] h2 [e2; e1]) as (Hi & Hap & _).
  - exact k0_ok.
  - reflexivity.
  - eapply trace_cons; [exact step1|]. eapply trace_cons; [exact step2|]. apply trace_nil.
  - split; [exact Hi|]. apply (Hap 0%nat 1%nat); [lia|reflexivity|reflexivity].
Defined.

(** The only arena, with nothing beside it, is given back. *)
Lemma arenas_returned_witness : exists h', dealloc p1 h1 = Some h' /\ inv h' [] /\ held (kernel h') = [].
Proof.
  destruct (arenas_returned h1 [] e1 [] h1_inv) as (h' & Hd & Hi & Hret). exists h'. split_and!; [exact Hd|exact Hi|].
  destruct (held (kernel h')) as [|b l]; [reflexivity|]. destruct (proj1 (Hret b) (list_elem_of_here b l)) as [Hb Hn].
  exfalso. apply Hn. clear Hn Hret. assert (b = mkNode 824633720832 131072) as ->.
  { revert Hb. replace (held (kernel h1)) with [mkNode 824633720832 131072] by (vm_compute; reflexivity). intros Hb. by apply list_elem_of_singleton in Hb. }
  replace (recorded (arenas h1)) with [mkNode 824633720832 131072] by (vm_compute; reflexivity). split; [set_solver|].
  replace (insert _ _ (head h1)) with [mkNode 824633720832 131072] by (vm_compute; reflexivity).
  apply (chain_node_run 0); [cbn; unfold NODE_SIZE; lia|set_solver].
Defined.

(** Two arenas of the kernel's, side by side: both stay. *)
Lemma adjacent_arenas_kept_witness :
  exists h', dealloc p1 h3 = Some h' /\ inv h' [] /\ mkNode 824633720832 131072 ∈ held (kernel h') /\ mkNode 824633851904 131072 ∈ held (kernel h').
Proof.
  apply (adjacent_arenas_kept h3 e1 (mkNode 824633720832 131072) (mkNode 824633851904 131072)); [exact h3_inv| | |reflexivity];
    (replace (held (kernel h3)) with [mkNode 824633720832 131072; mkNode 824633851904 131072] by (vm_compute; reflexivity)); set_solver.
Defined.

Lemma insert_order_irrelevant_witness :
  free_all [mkNode 4096 64; mkNode 4224 32; mkNode 4160 64] [mkNode 8192 16] =
  free_all [mkNode 4160 64; mkNode 4096 64; mkNode 4224 32] [mkNode 8192 16] /\
  free_all [mkNode 4096 64; mkNode 4224 32; mkNode 4160 64] [mkNode 8192 16] = [mkNode 4096 160; mkNode 8192 16].
Proof.
  split; [|vm_compute; reflexivity]. apply (insert_order_irrelevant 0).
  - cbn. unfold NODE_SIZE. lia.
  - repeat constructor; cbn; unfold NODE_SIZE; lia.
  - intros x. unfold cov, zsum, inb. cbn. split_ifs; lia.
  - rewrite Permutation_swap. apply (Permutation_app_comm [mkNode 4224 32; mkNode 4096 64] [mkNode 4160 64]) || solve_Permutation.
Defined.

(** Two allocations in one arena, freed in either order. *)
Definition g1 : Heap Bump := snd (alloc 1000 8 (new k0)).
Definition g2 : Heap Bump := snd (alloc 2000 8 g1).
Definition q1 : Live := mkLive 824633720848 1000 (mkNode 824633720832 1024).
Definition q2 : Live := mkLive 824633721872 2000 (mkNode 824633721856 2024).

Lemma g2_inv : inv g2 [q2; q1].
Proof.
  assert (layout_ok 1000 8 /\ layout_ok 2000 8) as [L1 L2] by (split; (split_and!; [lia|exists 3; split; [lia|done]|lia])).
  assert (step (new k0, []) (EAlloc 1000 8 (Some (l_ptr q1))) (g1, [q1])) as S1.
  { apply step_alloc; [exact L1| |vm_compute; reflexivity]. unfold g1. apply (pair_fst (alloc 1000 8 (new k0)) (Some (l_ptr q1))). vm_compute. reflexivity. }
  assert (step (g1, [q1]) (EAlloc 2000 8 (Some (l_ptr q2))) (g2, [q2; q1])) as S2.
  { apply step_alloc; [exact L2| |vm_compute; reflexivity]. unfold g2. apply (pair_fst (alloc 2000 8 g1) (Some (l_ptr q2))). vm_compute. reflexivity. }
  exact (user_step_inv (g1, [q1]) _ (g2, [q2; q1]) (user_step_inv (new k0, []) _ (g1, [q1]) (new_inv k0 k0_ok eq_refl) S1) S2).
Qed.


(** With arenas side by side the order does matter: [a] fills one arena, [b1] and [b2]
    the next.  Freed in this order, both arenas go back to the kernel; freed as [b1],
    [a], [b2], the free blocks merge across the border and both arenas stay. *)
Definition a3 : Heap Bump := snd (alloc 71024 8 (snd (alloc 60000 8 (snd (alloc 131048 8 (new k0)))))).
Lemma adjacent_order_matters :
  (head <$> free_ptrs [824633720848; 824633851920; 824633911944] a3) = Some [] /\
  (head <$> free_ptrs [824633851920; 824633720848; 824633911944] a3) = Some [mkNode 824633720832 262144].
Proof. vm_compute. done. Qed.
End Example.

End UserHeap.
