(* ===== verification/F32.v ===== *)
(** [f32]: the single-precision numbers of Rust, on the Standard Library's executable
    IEEE 754 numbers, with the operations the console uses and the fact it relies on:
    on integers of less than 2^24 in size they are exact. *)
From Stdlib Require Import SpecFloat.
From stdpp Require Import base numbers.
From S2P Require Import Prelude.

Open Scope Z_scope.

Module F32.
Notation f32 := spec_float.
Definition add : f32 -> f32 -> f32 := SFadd 24 128.
Definition sub : f32 -> f32 -> f32 := SFsub 24 128.
Definition mul : f32 -> f32 -> f32 := SFmul 24 128.
Definition div : f32 -> f32 -> f32 := SFdiv 24 128.
Definition zero : f32 := S754_zero false.
(** [n as f32]: nearest, ties to even. *)
Definition of_Z (n : Z) : f32 := binary_normalize 24 128 n 0 false.
Definition lt (a b : f32) : bool := SFltb a b.
Definition ge (a b : f32) : bool := SFleb b a.
Definition is_nan (a : f32) : bool := match a with S754_nan => true | _ => false end.
(** [f32::max] and [f32::min]: a number wins over NaN. *)
Definition max (a b : f32) : f32 := if lt a b || is_nan a then b else a.
Definition min (a b : f32) : f32 := if lt b a || is_nan a then b else a.
(** [x as T] for an integer type of range [lo..=hi]: toward zero, saturating, NaN is 0. *)
Definition to_int (lo hi : Z) (x : f32) : Z :=
  match x with
  | S754_zero _ | S754_nan => 0
  | S754_infinity s => if s then lo else hi
  | S754_finite s m e =>
      let v := if 0 <=? e then Z.shiftl (Zpos m) e else Z.shiftr (Zpos m) (- e) in
      Z.max lo (Z.min hi (if s then - v else v))
  end.
Definition to_usize : f32 -> Z := to_int 0 u64_max.
Definition to_u32 : f32 -> Z := to_int 0 4294967295.
Definition to_u8 : f32 -> Z := to_int 0 255.
Definition to_i32 : f32 -> Z := to_int (-2147483648) 2147483647.

Lemma to_usize_nonneg (x : f32) : 0 <= to_usize x.
Proof. unfold to_usize, to_int. destruct x as [s|s| |s m e]; [lia|by destruct s|lia|]. apply Z.le_max_l. Qed.

(** * Exactness on small integers *)

(** The number [n * 2^0] in canonical form, for [0 < n < 2^24]. *)
Definition canon (s : bool) (n : Z) : f32 := S754_finite s (Z.to_pos (n * 2 ^ (23 - Z.log2 n))) (Z.log2 n - 23).
Definition small (n : Z) : Prop := 0 < n < 2 ^ 24.

Lemma digits_log2 (p : positive) : Zpos (digits2_pos p) = Z.log2 (Zpos p) + 1.
Proof.
  induction p as [p IH|p IH|]; [| |done]; cbn [digits2_pos]; rewrite Pos2Z.inj_succ, IH.
  - rewrite Pos2Z.inj_xI, Z.log2_succ_double by lia. lia.
  - rewrite Pos2Z.inj_xO, Z.log2_double by lia. lia.
Qed.

Lemma small_log2 (n : Z) : small n -> 0 <= Z.log2 n <= 23.
Proof. intros [H1 H2]. split; [apply Z.log2_nonneg|]. apply Z.log2_lt_pow2 in H2; lia. Qed.

Lemma iter_pos_nat {A : Type} (f : A -> A) (p : positive) (x : A) : SpecFloat.iter_pos f p x = Nat.iter (Pos.to_nat p) f x.
Proof.
  revert x. induction p as [p IH|p IH|]; intros x; cbn [SpecFloat.iter_pos]; [| |done]; rewrite !IH, <- Nat.iter_add.
  - rewrite Pos2Nat.inj_xI, <- Nat.iter_succ_r. f_equal. lia.
  - rewrite Pos2Nat.inj_xO. f_equal. lia.
Qed.

Lemma shr_iter (M : Z) (k : nat) : 0 < M ->
  Nat.iter k shr_1 (Build_shr_record (M * 2 ^ Z.of_nat k) false false) = Build_shr_record M false false.
Proof.
  intros HM. induction k as [|k IH]; [cbn; f_equal; lia|]. rewrite Nat.iter_succ_r, Nat2Z.inj_succ, Z.pow_succ_r by lia.
  rewrite <- IH. f_equal. assert (0 < M * 2 ^ Z.of_nat k) as Hp by (apply Z.mul_pos_pos; lia).
  replace (M * (2 * 2 ^ Z.of_nat k)) with (2 * (M * 2 ^ Z.of_nat k)) by lia. by destruct (M * 2 ^ Z.of_nat k).
Qed.

(** A right shift that only drops zeros. *)
Lemma shr_exact (M e p : Z) : 0 < M -> 0 <= p -> shr (Build_shr_record (M * 2 ^ p) false false) e p = (Build_shr_record M false false, e + p).
Proof.
  intros HM Hp. destruct p as [|p|p]; [cbn; f_equal; [f_equal; lia|lia]| |lia]. cbn [shr]. rewrite iter_pos_nat.
  pose proof (shr_iter M (Pos.to_nat p) HM) as Hi. rewrite positive_nat_Z in Hi. by rewrite Hi.
Qed.

Lemma digits_shift (n k : Z) : 0 < n -> 0 <= k -> Zdigits2 (n * 2 ^ k) = Z.log2 n + k + 1.
Proof.
  intros Hn Hk. assert (0 < n * 2 ^ k) as Hp by (apply Z.mul_pos_pos; lia).
  destruct (n * 2 ^ k) as [|p|p] eqn:E; [lia| |lia]. cbn [Zdigits2]. rewrite digits_log2, <- E, Z.log2_mul_pow2 by lia. lia.
Qed.

Lemma shr_fexp_exact (n k : Z) : small n -> 23 - Z.log2 n <= k ->
  shr_fexp 24 128 (n * 2 ^ k) (- k) loc_Exact = (Build_shr_record (n * 2 ^ (23 - Z.log2 n)) false false, - (23 - Z.log2 n)).
Proof.
  intros Hn Hk. pose proof (small_log2 n Hn) as Hl. destruct Hn as [H0 _]. unfold shr_fexp. cbn [shr_record_of_loc].
  set (l := Z.log2 n) in *. rewrite digits_shift by lia. fold l.
  replace (fexp 24 128 (l + k + 1 + - k) - - k) with (l - 23 + k) by (unfold fexp, emin; lia).
  replace (n * 2 ^ k) with (n * 2 ^ (23 - l) * 2 ^ (l - 23 + k)) by (rewrite <- Z.mul_assoc, <- Z.pow_add_r by lia; do 2 f_equal; lia).
  rewrite shr_exact by (try apply Z.mul_pos_pos; lia). f_equal. lia.
Qed.

(** Rounding what is exact changes nothing but the form. *)
Lemma round_aux_exact (s : bool) (n k : Z) : small n -> 23 - Z.log2 n <= k -> binary_round_aux 24 128 s (n * 2 ^ k) (- k) loc_Exact = canon s n.
Proof.
  intros Hn Hk. pose proof (small_log2 n Hn) as Hl. unfold binary_round_aux. rewrite shr_fexp_exact by done. cbn [shr_m loc_of_shr_record round_nearest_even].
  rewrite shr_fexp_exact by (done || lia). cbn [shr_m]. unfold canon. destruct Hn as [H0 _].
  assert (0 < n * 2 ^ (23 - Z.log2 n)) as Hp by (apply Z.mul_pos_pos; lia).
  destruct (n * 2 ^ (23 - Z.log2 n)) as [|m|m]; [lia| |lia]. rewrite (proj2 (Z.leb_le _ _)) by lia. f_equal. lia.
Qed.

Lemma iter_xO (m d : positive) : Zpos (Pos.iter xO m d) = Zpos m * 2 ^ Zpos d.
Proof.
  induction d as [|d IH] using Pos.peano_ind; [cbn; lia|]. rewrite Pos.iter_succ, Pos2Z.inj_xO, IH, Pos2Z.inj_succ, Z.pow_succ_r by lia. lia.
Qed.

Lemma round_exact (s : bool) (n k : Z) : small n -> 0 <= k -> binary_round 24 128 s (Z.to_pos (n * 2 ^ k)) (- k) = canon s n.
Proof.
  intros Hn Hk. pose proof (small_log2 n Hn) as Hl. pose proof Hn as [H0 _]. assert (0 < n * 2 ^ k) as Hp by (apply Z.mul_pos_pos; lia).
  unfold binary_round. rewrite digits_log2, Z2Pos.id, Z.log2_mul_pow2 by lia. set (l := Z.log2 n) in *.
  replace (fexp 24 128 (k + l + 1 + - k)) with (l - 23) by (unfold fexp, emin; lia). unfold shl_align.
  destruct (l - 23 - - k) as [|d|d] eqn:Ed.
  1,2: rewrite Z2Pos.id by lia; apply round_aux_exact; [done|fold l; lia].
  rewrite iter_xO, Z2Pos.id by lia. rewrite <- Z.mul_assoc, <- Z.pow_add_r by lia. replace (k + Zpos d) with (23 - l) by lia.
  replace (l - 23) with (- (23 - l)) by lia. apply round_aux_exact; [done|fold l; lia].
Qed.

(** Integers as numbers. *)
Definition fz (n : Z) : f32 := if n =? 0 then zero else if 0 <? n then canon false n else canon true (- n).

Lemma normalize_exact (n k : Z) : Z.abs n < 2 ^ 24 -> 0 <= k -> binary_normalize 24 128 (n * 2 ^ k) (- k) false = fz n.
Proof.
  intros Hn Hk. unfold fz. pose proof (Z.pow_pos_nonneg 2 k ltac:(lia) Hk). destruct (n =? 0) eqn:E0; zbool; [by subst|]. destruct (0 <? n) eqn:E1; zbool.
  - assert (0 < n * 2 ^ k) as Hp by (apply Z.mul_pos_pos; lia). rewrite <- (round_exact false n k) by (unfold small; lia). by destruct (n * 2 ^ k).
  - assert (0 < - n * 2 ^ k) as Hp by (apply Z.mul_pos_pos; lia). rewrite <- (round_exact true (- n) k) by (unfold small; lia).
    replace (n * 2 ^ k) with (- (- n * 2 ^ k)) by lia. by destruct (- n * 2 ^ k).
Qed.

Lemma of_Z_exact (n : Z) : Z.abs n < 2 ^ 24 -> of_Z n = fz n.
Proof. intros Hn. unfold of_Z. pose proof (normalize_exact n 0 Hn ltac:(lia)) as H. by rewrite Z.mul_1_r in H. Qed.
Lemma to_pos_shift (n k : Z) : 0 < n -> 0 <= k -> Zpos (Z.to_pos (n * 2 ^ k)) = n * 2 ^ k.
Proof. intros Hn Hk. apply Z2Pos.id, Z.mul_pos_pos; lia. Qed.

Lemma fz_0 : fz 0 = zero.
Proof. done. Qed.

(** A nonzero integer is a canonical number: its sign, its significand and exponent. *)
Lemma fz_cases (n : Z) : Z.abs n < 2 ^ 24 ->
  n = 0 \/ exists s, fz n = canon s (Z.abs n) /\ small (Z.abs n) /\ n = cond_Zopp s (Z.abs n).
Proof.
  intros Hn. unfold fz, small. destruct (n =? 0) eqn:E; zbool; [by left|right]. destruct (0 <? n) eqn:E1; zbool.
  - exists false. rewrite Z.abs_eq in * by lia. cbn. split_and!; [done|lia|lia|lia].
  - exists true. rewrite Z.abs_neq in * by lia. cbn. split_and!; [done|lia|lia|lia].
Qed.

(** Shifting a canonical number to a smaller exponent. *)
Lemma align_canon (n ez : Z) : small n -> ez <= Z.log2 n - 23 ->
  Zpos (fst (shl_align (Z.to_pos (n * 2 ^ (23 - Z.log2 n))) (Z.log2 n - 23) ez)) = n * 2 ^ (- ez).
Proof.
  intros Hn He. pose proof (small_log2 n Hn) as Hl. destruct Hn as [H0 _]. set (l := Z.log2 n) in *. unfold shl_align.
  destruct (ez - (l - 23)) as [|d|d] eqn:Ed; [|lia|]; cbn [fst].
  - rewrite to_pos_shift by lia. do 2 f_equal. lia.
  - rewrite iter_xO, to_pos_shift, <- Z.mul_assoc, <- Z.pow_add_r by lia. do 2 f_equal. lia.
Qed.

Lemma cond_Zopp_mul (s : bool) (n k : Z) : cond_Zopp s (n * k) = cond_Zopp s n * k.
Proof. destruct s; cbn; lia. Qed.

Lemma canon_sum (s t : bool) (a b : Z) : small a -> small b -> Z.abs (cond_Zopp s a + cond_Zopp t b) < 2 ^ 24 ->
  add (canon s a) (canon t b) = fz (cond_Zopp s a + cond_Zopp t b).
Proof.
  intros Ha Hb Hs. pose proof (small_log2 a Ha). pose proof (small_log2 b Hb). unfold add, canon. cbn [SFadd].
  rewrite !align_canon by (done || lia). rewrite !cond_Zopp_mul, <- Z.mul_add_distr_r.
  set (ez := Z.min _ _). rewrite <- (normalize_exact _ (- ez)) by lia. f_equal. lia.
Qed.

Lemma add_exact (a b : Z) : Z.abs a < 2 ^ 24 -> Z.abs b < 2 ^ 24 -> Z.abs (a + b) < 2 ^ 24 -> add (fz a) (fz b) = fz (a + b).
Proof.
  intros Ha Hb Hs. destruct (fz_cases a Ha) as [->|(s & -> & Ha' & Ea)]; destruct (fz_cases b Hb) as [->|(t & Fb & Hb' & Eb)]; [done| | |].
  - by rewrite Fb.
  - rewrite Z.add_0_r, fz_0. rewrite Ea at 2. unfold fz. destruct Ha' as [H _]. destruct s; cbn.
    + rewrite (proj2 (Z.eqb_neq _ _)), (proj2 (Z.ltb_ge _ _)), Z.opp_involutive by lia. done.
    + rewrite (proj2 (Z.eqb_neq _ _)), (proj2 (Z.ltb_lt _ _)) by lia. done.
  - rewrite Fb. rewrite canon_sum; [by rewrite <- Ea, <- Eb|done|done|by rewrite <- Ea, <- Eb].
Qed.

Lemma fz_opp (b : Z) : Z.abs b < 2 ^ 24 -> b <> 0 -> forall x, sub x (fz b) = add x (fz (- b)).
Proof.
  intros Hb H0 x. unfold fz. rewrite !(proj2 (Z.eqb_neq _ _)) by lia. destruct (0 <? b) eqn:E; zbool.
  - rewrite (proj2 (Z.ltb_ge _ _)), Z.opp_involutive by lia. unfold canon, sub, add. destruct x; done.
  - rewrite (proj2 (Z.ltb_lt _ _)) by lia. unfold canon, sub, add. destruct x; done.
Qed.

Lemma sub_exact (a b : Z) : Z.abs a < 2 ^ 24 -> Z.abs b < 2 ^ 24 -> Z.abs (a - b) < 2 ^ 24 -> sub (fz a) (fz b) = fz (a - b).
Proof.
  intros Ha Hb Hs. destruct (Z.eq_dec b 0) as [->|H0].
  - rewrite Z.sub_0_r, fz_0. unfold fz. destruct (a =? 0); [done|]. by destruct (0 <? a).
  - rewrite fz_opp by done. by rewrite add_exact by lia.
Qed.

Lemma mul_exact (a b : Z) : 0 <= a < 2 ^ 24 -> 0 <= b < 2 ^ 24 -> a * b < 2 ^ 24 -> mul (fz a) (fz b) = fz (a * b).
Proof.
  intros Ha Hb Hs. unfold fz. destruct (a =? 0) eqn:E1; zbool.
  { subst a. rewrite Z.mul_0_l. destruct (b =? 0) eqn:E0; zbool; [done|]. by destruct (0 <? b) eqn:E; zbool; [|lia]. }
  rewrite (proj2 (Z.ltb_lt 0 a)) by lia. destruct (b =? 0) eqn:E2; zbool.
  { subst b. by rewrite Z.mul_0_r. }
  assert (0 < a * b) as Hp by (apply Z.mul_pos_pos; lia). rewrite (proj2 (Z.ltb_lt 0 b)), (proj2 (Z.ltb_lt 0 (a * b))), (proj2 (Z.eqb_neq (a * b) 0)) by lia.
  assert (small a /\ small b /\ small (a * b)) as (Sa & Sb & Sm) by (unfold small; lia).
  pose proof (small_log2 a Sa). pose proof (small_log2 b Sb). pose proof (small_log2 _ Sm). pose proof (Z.log2_mul_below a b ltac:(lia) ltac:(lia)).
  unfold mul, canon at 1 2. cbn [SFmul xorb]. rewrite Pos2Z.inj_mul, !to_pos_shift by lia.
  set (la := Z.log2 a) in *. set (lb := Z.log2 b) in *.
  replace (a * 2 ^ (23 - la) * (b * 2 ^ (23 - lb))) with (a * b * 2 ^ (46 - la - lb)).
  - replace (la - 23 + (lb - 23)) with (- (46 - la - lb)) by lia. apply round_aux_exact; [done|lia].
  - replace (46 - la - lb) with ((23 - la) + (23 - lb)) by lia. rewrite Z.pow_add_r by lia. ring.
Qed.

(** Canonical numbers compare by exponent, then by significand. *)
Lemma canon_compare (a b : Z) : small a -> small b ->
  match (Z.log2 a - 23) ?= (Z.log2 b - 23) with
  | Lt => Lt | Gt => Gt
  | Eq => Pos.compare_cont Eq (Z.to_pos (a * 2 ^ (23 - Z.log2 a))) (Z.to_pos (b * 2 ^ (23 - Z.log2 b)))
  end = (a ?= b).
Proof.
  intros Ha Hb. pose proof (small_log2 a Ha). pose proof (small_log2 b Hb). destruct Ha as [Ha _], Hb as [Hb _].
  destruct (Z.compare_spec (Z.log2 a - 23) (Z.log2 b - 23)) as [He|He|He].
  - change (Pos.compare_cont Eq ?x ?y) with (Zpos x ?= Zpos y). rewrite !to_pos_shift by lia.
    replace (Z.log2 b) with (Z.log2 a) by lia. symmetry. rewrite !(Z.mul_comm _ (2 ^ _)). apply Zmult_compare_compat_l, Z.lt_gt. lia.
  - symmetry. apply Z.compare_lt_iff. apply Z.log2_lt_cancel. lia.
  - symmetry. apply Z.compare_gt_iff. apply Z.log2_lt_cancel. lia.
Qed.

Lemma compare_exact (a b : Z) : Z.abs a < 2 ^ 24 -> Z.abs b < 2 ^ 24 -> SFcompare (fz a) (fz b) = Some (a ?= b).
Proof.
  intros Ha Hb. destruct (fz_cases a Ha) as [->|(s & -> & Sa & Ea)]; destruct (fz_cases b Hb) as [->|(t & Fb & Sb & Eb)]; [done|..].
  - rewrite Fb, Eb. destruct Sb as [Hp _], t; cbn [SFcompare canon cond_Zopp fz Z.eqb zero]; f_equal; symmetry; [apply Z.compare_gt_iff|apply Z.compare_lt_iff]; lia.
  - rewrite Ea. rewrite fz_0. destruct Sa as [Hp _], s; cbn [SFcompare canon cond_Zopp fz Z.eqb zero]; f_equal; symmetry; [apply Z.compare_lt_iff|apply Z.compare_gt_iff]; lia.
  - rewrite Fb. replace (a ?= b) with (cond_Zopp s (Z.abs a) ?= cond_Zopp t (Z.abs b)) by (by rewrite <- Ea, <- Eb). pose proof (canon_compare _ _ Sa Sb) as Hc. destruct Sa as [Pa _], Sb as [Pb _].
    destruct s, t; cbn [SFcompare canon cond_Zopp]; f_equal.
    + rewrite Z.compare_opp, (Z.compare_antisym (Z.abs a)), <- Hc. destruct (Z.log2 (Z.abs a) - 23 ?= Z.log2 (Z.abs b) - 23); reflexivity.
    + symmetry. apply Z.compare_lt_iff. lia.
    + symmetry. apply Z.compare_gt_iff. lia.
    + exact Hc.
Qed.

Lemma lt_exact (a b : Z) : Z.abs a < 2 ^ 24 -> Z.abs b < 2 ^ 24 -> lt (fz a) (fz b) = (a <? b).
Proof. intros. unfold lt, SFltb. rewrite compare_exact by done. unfold Z.ltb. by destruct (a ?= b). Qed.
Lemma ge_exact (a b : Z) : Z.abs a < 2 ^ 24 -> Z.abs b < 2 ^ 24 -> ge (fz a) (fz b) = (b <=? a).
Proof. intros. unfold ge, SFleb. rewrite compare_exact by done. unfold Z.leb. by destruct (b ?= a). Qed.

Lemma fz_not_nan (a : Z) : is_nan (fz a) = false.
Proof. unfold fz. destruct (a =? 0); [done|]. by destruct (0 <? a). Qed.

Lemma max_exact (a b : Z) : Z.abs a < 2 ^ 24 -> Z.abs b < 2 ^ 24 -> max (fz a) (fz b) = fz (Z.max a b).
Proof.
  intros. unfold max. rewrite lt_exact, fz_not_nan, orb_false_r by done. destruct (a <? b) eqn:E; zbool; f_equal; lia.
Qed.
Lemma min_exact (a b : Z) : Z.abs a < 2 ^ 24 -> Z.abs b < 2 ^ 24 -> min (fz a) (fz b) = fz (Z.min a b).
Proof.
  intros. unfold min. rewrite lt_exact, fz_not_nan, orb_false_r by done. destruct (b <? a) eqn:E; zbool; f_equal; lia.
Qed.

Lemma to_usize_exact (n : Z) : 0 <= n < 2 ^ 24 -> to_usize (fz n) = n.
Proof.
  intros Hn. unfold fz. destruct (n =? 0) eqn:E; zbool; [by subst|]. rewrite (proj2 (Z.ltb_lt _ _)) by lia.
  assert (small n) as Sn by (unfold small; lia). pose proof (small_log2 n Sn). unfold canon, to_usize, to_int. rewrite to_pos_shift by lia.
  set (l := Z.log2 n) in *. assert ((if 0 <=? l - 23 then Z.shiftl (n * 2 ^ (23 - l)) (l - 23) else Z.shiftr (n * 2 ^ (23 - l)) (- (l - 23))) = n) as ->.
  { destruct (0 <=? l - 23) eqn:El; zbool.
    - replace l with 23 by lia. rewrite Z.shiftl_0_r. change (2 ^ (23 - 23)) with 1. lia.
    - rewrite Z.shiftr_div_pow2 by lia. replace (- (l - 23)) with (23 - l) by lia. apply Z.div_mul. lia. }
  change (2 ^ 24) with 16777216 in Hn. assert (u64_max = 18446744073709551615) as -> by (vm_compute; reflexivity). lia.
Qed.

End F32.
