(* ===== verification/Framebuffer.v ===== *)
(** The framebuffer: [crates/kernel/src/drivers/framebuffer.rs] and the built-in bitmap
    font of [crates/kernel/src/terminal/bitmap.rs].

    Memory is a finite map from addresses to bytes (an address that was never written
    reads as zero), shared with everything else in the machine, so that a write
    outside the buffer would show.  A [for] loop is [for_range]; [usize] arithmetic
    that the code leaves unchecked wraps, as in the release builds the project makes. *)
From stdpp Require Import base list numbers option gmap.
From S2P Require Import Prelude.

Open Scope Z_scope.

Module Framebuffer.

Inductive PixelFormat := Rgb | Bgr.

Record FramebufferInfo := mkFb {
  base : Z; size : Z; width : Z; height : Z; stride : Z; pixel_format : PixelFormat
}.

Notation Mem := (gmap Z Z).
Definition rd (m : Mem) (a : Z) : Z := default 0 (m !! a).

(** [for i in a..b { m = f(i, m) }] *)
Definition for_range (a b : Z) (f : Z -> Mem -> Mem) (m : Mem) : Mem := foldl (fun m i => f i m) m (seqZ a (b - a)).

Section Ops.
Implicit Types (fb : FramebufferInfo) (m : Mem).

Definition write_pixel fb (x y r g b : Z) m : Mem :=
  if (width fb <=? x) || (height fb <=? y) then m
  else
    let idx := (y * stride fb + x) * 4 in
    if size fb <=? idx + 3 then m
    else
      let ptr := base fb + idx in
      match pixel_format fb with
      | Bgr => <[ptr + 3 := 0]> (<[ptr + 2 := r]> (<[ptr + 1 := g]> (<[ptr := b]> m)))
      | Rgb => <[ptr + 3 := 0]> (<[ptr + 2 := b]> (<[ptr + 1 := g]> (<[ptr := r]> m)))
      end.

(** [((new as u16 * a + old as u16 * (255 - a)) / 255) as u8], the [u16] operations
    wrapping. *)
Definition blend (new old a : Z) : Z := ((new * a mod 2 ^ 16 + old * (255 - a) mod 2 ^ 16) mod 2 ^ 16 / 255) mod 2 ^ 8.

Definition blend_pixel fb (x y r g b alpha : Z) m : Mem :=
  if (width fb <=? x) || (height fb <=? y) then m
  else
    let idx := (y * stride fb + x) * 4 in
    if size fb <=? idx + 3 then m
    else
      let ptr := base fb + idx in
      match pixel_format fb with
      | Bgr =>
          let old_b := rd m ptr in let old_g := rd m (ptr + 1) in let old_r := rd m (ptr + 2) in
          let new_r := blend r old_r alpha in let new_g := blend g old_g alpha in let new_b := blend b old_b alpha in
          <[ptr + 2 := new_r]> (<[ptr + 1 := new_g]> (<[ptr := new_b]> m))
      | Rgb =>
          let old_r := rd m ptr in let old_g := rd m (ptr + 1) in let old_b := rd m (ptr + 2) in
          let new_r := blend r old_r alpha in let new_g := blend g old_g alpha in let new_b := blend b old_b alpha in
          <[ptr + 2 := new_b]> (<[ptr + 1 := new_g]> (<[ptr := new_r]> m))
      end.

(** [core::ptr::copy]: the bytes are read before any is written. *)
Definition copy (src dst n : Z) m : Mem := for_range 0 n (fun i m' => <[dst + i := rd m (src + i)]> m') m.
Definition write_bytes (dst v n : Z) m : Mem := for_range 0 n (fun i m' => <[dst + i := v]> m') m.

Definition scroll_up fb (pixels : Z) m : Mem :=
  let row_bytes := stride fb * 4 in
  let scroll_bytes := pixels * row_bytes in
  let visible_bytes := Z.max 0 (height fb - pixels) * row_bytes in
  let m := if 0 <? visible_bytes then copy (base fb + scroll_bytes) (base fb) visible_bytes m else m in
  let clear_start := Z.min visible_bytes (size fb) in
  let clear_bytes := size fb - clear_start in
  write_bytes (base fb + clear_start) 0 clear_bytes m.

Definition clear fb (r g b : Z) m : Mem :=
  for_range 0 (height fb) (fun y => for_range 0 (width fb) (fun x => write_pixel fb x y r g b)) m.
End Ops.

(** ** The built-in font *)

Definition FONT_7x14 : list Z := [
  0; 0; 0; 0; 0; 0; 0; 0; 0; 0; 0; 0; 0; 0; 0; 0; 16; 16; 16; 16; 16; 16; 16; 0; 16; 16; 0; 0;
  0; 108; 36; 36; 72; 0; 0; 0; 0; 0; 0; 0; 0; 0; 0; 0; 10; 10; 10; 126; 20; 20; 126; 40; 40; 40; 0; 0;
  0; 0; 8; 60; 74; 74; 40; 28; 10; 74; 74; 60; 8; 0; 0; 0; 50; 74; 76; 56; 8; 16; 28; 50; 82; 76; 0; 0;
  0; 0; 24; 36; 36; 36; 24; 50; 74; 68; 76; 50; 0; 0; 0; 24; 8; 8; 16; 0; 0; 0; 0; 0; 0; 0; 0; 0;
  0; 2; 4; 8; 8; 16; 16; 16; 16; 16; 8; 8; 4; 2; 0; 64; 32; 16; 16; 8; 8; 8; 8; 8; 16; 16; 32; 64;
  0; 0; 8; 42; 28; 8; 28; 42; 8; 0; 0; 0; 0; 0; 0; 0; 0; 0; 16; 16; 16; 124; 16; 16; 16; 0; 0; 0;
  0; 0; 0; 0; 0; 0; 0; 0; 0; 0; 48; 16; 16; 32; 0; 0; 0; 0; 0; 0; 0; 126; 0; 0; 0; 0; 0; 0;
  0; 0; 0; 0; 0; 0; 0; 0; 0; 0; 8; 28; 8; 0; 2; 2; 4; 4; 8; 8; 8; 16; 16; 32; 32; 64; 64; 0;
  0; 0; 24; 36; 66; 66; 66; 66; 66; 66; 36; 24; 0; 0; 0; 0; 8; 24; 40; 8; 8; 8; 8; 8; 8; 62; 0; 0;
  0; 0; 60; 66; 66; 2; 4; 4; 8; 16; 32; 126; 0; 0; 0; 0; 60; 66; 66; 2; 28; 2; 2; 66; 66; 60; 0; 0;
  0; 0; 4; 12; 20; 20; 36; 36; 68; 126; 4; 4; 0; 0; 0; 0; 126; 64; 64; 124; 66; 2; 2; 66; 66; 60; 0; 0;
  0; 0; 28; 34; 66; 64; 92; 98; 66; 66; 66; 60; 0; 0; 0; 0; 126; 66; 68; 4; 8; 8; 8; 8; 8; 8; 0; 0;
  0; 0; 60; 66; 66; 36; 24; 36; 66; 66; 66; 60; 0; 0; 0; 0; 60; 66; 66; 66; 70; 58; 2; 66; 68; 56; 0; 0;
  0; 0; 0; 0; 8; 28; 8; 0; 0; 8; 28; 8; 0; 0; 0; 0; 0; 0; 0; 24; 24; 0; 0; 24; 8; 8; 16; 0;
  0; 0; 4; 8; 16; 32; 64; 32; 16; 8; 4; 0; 0; 0; 0; 0; 0; 0; 0; 126; 0; 0; 126; 0; 0; 0; 0; 0;
  0; 0; 64; 32; 16; 8; 4; 8; 16; 32; 64; 0; 0; 0; 0; 0; 60; 66; 66; 4; 8; 8; 8; 0; 8; 8; 0; 0;
  0; 0; 28; 34; 78; 82; 82; 82; 82; 78; 32; 30; 0; 0; 0; 0; 24; 36; 66; 66; 66; 126; 66; 66; 66; 66; 0; 0;
  0; 0; 124; 34; 34; 34; 60; 34; 34; 34; 34; 124; 0; 0; 0; 0; 60; 66; 66; 64; 64; 64; 64; 66; 66; 60; 0; 0;
  0; 0; 124; 34; 34; 34; 34; 34; 34; 34; 34; 124; 0; 0; 0; 0; 126; 64; 64; 64; 120; 64; 64; 64; 64; 126; 0; 0;
  0; 0; 126; 64; 64; 64; 120; 64; 64; 64; 64; 64; 0; 0; 0; 0; 60; 66; 66; 64; 64; 78; 66; 66; 70; 58; 0; 0;
  0; 0; 66; 66; 66; 66; 126; 66; 66; 66; 66; 66; 0; 0; 0; 0; 62; 8; 8; 8; 8; 8; 8; 8; 8; 62; 0; 0;
  0; 0; 14; 4; 4; 4; 4; 4; 4; 68; 68; 56; 0; 0; 0; 0; 66; 68; 72; 80; 96; 80; 72; 68; 66; 66; 0; 0;
  0; 0; 64; 64; 64; 64; 64; 64; 64; 64; 64; 126; 0; 0; 0; 0; 66; 102; 102; 90; 90; 66; 66; 66; 66; 66; 0; 0;
  0; 0; 66; 66; 98; 98; 82; 74; 70; 70; 66; 66; 0; 0; 0; 0; 60; 66; 66; 66; 66; 66; 66; 66; 66; 60; 0; 0;
  0; 0; 124; 66; 66; 66; 66; 124; 64; 64; 64; 64; 0; 0; 0; 0; 60; 66; 66; 66; 66; 66; 114; 74; 70; 60; 4; 2;
  0; 0; 124; 66; 66; 66; 66; 124; 72; 68; 66; 66; 0; 0; 0; 0; 60; 66; 66; 64; 48; 12; 2; 66; 66; 60; 0; 0;
  0; 0; 254; 16; 16; 16; 16; 16; 16; 16; 16; 16; 0; 0; 0; 0; 66; 66; 66; 66; 66; 66; 66; 66; 66; 60; 0; 0;
  0; 0; 66; 66; 66; 66; 36; 36; 36; 24; 24; 24; 0; 0; 0; 0; 66; 66; 66; 66; 66; 90; 90; 102; 102; 66; 0; 0;
  0; 0; 66; 66; 36; 36; 24; 24; 36; 36; 66; 66; 0; 0; 0; 0; 68; 68; 68; 40; 40; 16; 16; 16; 16; 16; 0; 0;
  0; 0; 126; 2; 4; 8; 8; 16; 32; 32; 64; 126; 0; 0; 0; 30; 16; 16; 16; 16; 16; 16; 16; 16; 16; 16; 16; 30;
  64; 64; 32; 32; 16; 16; 16; 8; 8; 4; 4; 2; 2; 0; 0; 120; 8; 8; 8; 8; 8; 8; 8; 8; 8; 8; 8; 120;
  0; 24; 36; 66; 0; 0; 0; 0; 0; 0; 0; 0; 0; 0; 0; 0; 0; 0; 0; 0; 0; 0; 0; 0; 0; 0; 0; 126;
  0; 12; 8; 8; 4; 0; 0; 0; 0; 0; 0; 0; 0; 0; 0; 0; 0; 0; 0; 60; 66; 14; 50; 66; 70; 58; 0; 0;
  0; 0; 64; 64; 64; 92; 98; 66; 66; 66; 98; 92; 0; 0; 0; 0; 0; 0; 0; 60; 66; 64; 64; 64; 66; 60; 0; 0;
  0; 0; 2; 2; 2; 58; 70; 66; 66; 66; 70; 58; 0; 0; 0; 0; 0; 0; 0; 60; 66; 66; 126; 64; 66; 60; 0; 0;
  0; 0; 12; 18; 16; 16; 124; 16; 16; 16; 16; 16; 0; 0; 0; 0; 0; 0; 0; 58; 68; 68; 68; 56; 32; 92; 66; 60;
  0; 0; 64; 64; 64; 92; 98; 66; 66; 66; 66; 66; 0; 0; 0; 0; 8; 8; 0; 24; 8; 8; 8; 8; 8; 62; 0; 0;
  0; 0; 4; 4; 0; 12; 4; 4; 4; 4; 4; 68; 68; 56; 0; 0; 64; 64; 64; 68; 72; 80; 112; 72; 68; 66; 0; 0;
  0; 0; 24; 8; 8; 8; 8; 8; 8; 8; 8; 62; 0; 0; 0; 0; 0; 0; 0; 104; 84; 84; 84; 84; 84; 68; 0; 0;
  0; 0; 0; 0; 0; 92; 98; 66; 66; 66; 66; 66; 0; 0; 0; 0; 0; 0; 0; 60; 66; 66; 66; 66; 66; 60; 0; 0;
  0; 0; 0; 0; 0; 92; 98; 66; 66; 66; 98; 92; 64; 64; 0; 0; 0; 0; 0; 58; 70; 66; 66; 66; 70; 58; 2; 2;
  0; 0; 0; 0; 0; 92; 98; 66; 64; 64; 64; 64; 0; 0; 0; 0; 0; 0; 0; 60; 66; 32; 24; 4; 66; 60; 0; 0;
  0; 0; 16; 16; 16; 124; 16; 16; 16; 16; 18; 12; 0; 0; 0; 0; 0; 0; 0; 66; 66; 66; 66; 66; 70; 58; 0; 0;
  0; 0; 0; 0; 0; 68; 68; 68; 40; 40; 16; 16; 0; 0; 0; 0; 0; 0; 0; 68; 68; 84; 84; 84; 84; 40; 0; 0;
  0; 0; 0; 0; 0; 66; 66; 36; 24; 36; 66; 66; 0; 0; 0; 0; 0; 0; 0; 66; 66; 66; 66; 70; 58; 2; 66; 60;
  0; 0; 0; 0; 0; 126; 4; 8; 16; 16; 32; 126; 0; 0; 0; 6; 8; 8; 8; 8; 8; 16; 8; 8; 8; 8; 8; 6;
  16; 16; 16; 16; 16; 16; 16; 16; 16; 16; 16; 16; 16; 16; 0; 96; 16; 16; 16; 16; 16; 8; 16; 16; 16; 16; 16; 96;
  0; 32; 82; 74; 4; 0; 0; 0; 0; 0; 0; 0; 0; 0].

Definition GLYPH_SIZE : Z := 14.
Definition GLYPH_WIDTH : Z := 7.
Definition GLYPH_HEIGHT : Z := 14.
Definition SCALE : Z := 2.
Definition CHAR_WIDTH : Z := GLYPH_WIDTH * SCALE.
Definition CHAR_HEIGHT : Z := GLYPH_HEIGHT * SCALE.
Definition ASCENT : Z := 11 * SCALE.

(** A character is its code point; the glyph is that of its low byte. *)
Definition draw_glyph (fb : FramebufferInfo) (c x baseline_y r g b : Z) (m : Mem) : Mem :=
  let code := c mod 256 in
  if (code <? 0x20) || (0x7E <? code) then m
  else
    let idx := (code - 0x20) * GLYPH_SIZE in
    let top := Z.max 0 (baseline_y - ASCENT) in
    for_range 0 GLYPH_HEIGHT (fun row =>
      let bits := default 0 (FONT_7x14 !! Z.to_nat (idx + row)) in
      for_range 0 GLYPH_WIDTH (fun col m =>
        if Z.land bits (Z.shiftr 0x80 col) =? 0 then m
        else
          let px := wrap64 (x + col * SCALE) in
          let py := wrap64 (top + row * SCALE) in
          for_range 0 SCALE (fun dy => for_range 0 SCALE (fun dx =>
            write_pixel fb (wrap64 (px + dx)) (wrap64 (py + dy)) r g b)) m)) m.

(** * Pixels *)

Definition addr (fb : FramebufferInfo) (x y : Z) : Z := base fb + (y * stride fb + x) * 4.
Definition visible (fb : FramebufferInfo) (x y : Z) : Prop :=
  0 <= x < width fb /\ 0 <= y < height fb /\ (y * stride fb + x) * 4 + 3 < size fb.
Definition px (fb : FramebufferInfo) (m : Mem) (x y : Z) : Z * Z * Z * Z :=
  (rd m (addr fb x y), rd m (addr fb x y + 1), rd m (addr fb x y + 2), rd m (addr fb x y + 3)).
Definition colour (fb : FramebufferInfo) (r g b : Z) : Z * Z * Z * Z :=
  match pixel_format fb with Bgr => (b, g, r, 0) | Rgb => (r, g, b, 0) end.

(** The rows do not overlap and lie in the buffer. *)
Definition wf (fb : FramebufferInfo) : Prop :=
  0 <= width fb <= stride fb /\ 0 <= height fb /\ height fb * stride fb * 4 <= size fb.

(** [m'] is [m] with the visible pixels of [S] set to [c]. *)
Definition paints (fb : FramebufferInfo) (c : Z * Z * Z * Z) (S : Z -> Z -> Prop) (m m' : Mem) : Prop :=
  (forall x y, visible fb x y -> S x y -> px fb m' x y = c) /\
  (forall x y, visible fb x y -> px fb m' x y = c \/ px fb m' x y = px fb m x y) /\
  (forall a, (forall x y, visible fb x y -> S x y -> ~ (addr fb x y <= a < addr fb x y + 4)) -> m' !! a = m !! a).

Section Paint.
Context (fb : FramebufferInfo) (c : Z * Z * Z * Z).
Implicit Types (S : Z -> Z -> Prop) (m : Mem).

Lemma paints_id m : paints fb c (fun _ _ => False) m m.
Proof. split_and!; [done|by right|done]. Qed.

Lemma paints_iff S S' m m' : (forall x y, visible fb x y -> S x y <-> S' x y) -> paints fb c S m m' -> paints fb c S' m m'.
Proof.
  intros He (H1 & H2 & H3). split_and!; [intros x y Hv Hs; apply H1; [done|by apply He]|done|].
  intros a Ha. apply H3. intros x y Hv Hs. apply Ha; [done|by apply He].
Qed.

Lemma paints_trans S1 S2 m m1 m2 :
  paints fb c S1 m m1 -> paints fb c S2 m1 m2 -> paints fb c (fun x y => S1 x y \/ S2 x y) m m2.
Proof.
  intros (A1 & A2 & A3) (B1 & B2 & B3). split_and!.
  - intros x y Hv [Hs|Hs]; [|by apply B1]. destruct (B2 x y Hv) as [->| ->]; [done|by apply A1].
  - intros x y Hv. destruct (B2 x y Hv) as [->| ->]; [by left|by apply A2].
  - intros a Ha. rewrite B3, A3; [done|..]; intros x y Hv Hs; apply Ha; tauto.
Qed.

Lemma for_range_nil (a b : Z) f m : b <= a -> for_range a b f m = m.
Proof. intros H. unfold for_range. by rewrite seqZ_nil by lia. Qed.

Lemma for_range_cons (a b : Z) f m : a < b -> for_range a b f m = for_range (a + 1) b f (f a m).
Proof. intros H. unfold for_range. rewrite seqZ_cons by lia. cbn [foldl]. do 2 f_equal; lia. Qed.

(** Induction on the turns left. *)
Lemma for_range_ind (P : Z -> Mem -> Prop) (a b : Z) f m :
  a <= b -> P a m -> (forall i m, a <= i < b -> P i m -> P (i + 1) (f i m)) -> P b (for_range a b f m).
Proof.
  intros Hab. remember (Z.to_nat (b - a)) as n eqn:En. revert a m Hab En.
  induction n as [|n IH]; intros a m Hab En HP Hs.
  - rewrite for_range_nil by lia. by replace b with a by lia.
  - rewrite for_range_cons by lia. apply IH; [lia|lia|apply Hs; [lia|done]|]. intros i m' Hi. apply Hs. lia.
Qed.

Lemma paints_for S (Si : Z -> Z -> Z -> Prop) (a b : Z) f m :
  (forall i m, a <= i < b -> paints fb c (Si i) m (f i m)) ->
  (forall x y, visible fb x y -> S x y <-> exists i, a <= i < b /\ Si i x y) ->
  paints fb c S m (for_range a b f m).
Proof.
  intros Hf He. eapply paints_iff; [intros x y Hv; symmetry; by apply He|]. clear He.
  destruct (Z.le_gt_cases a b) as [Hab|Hab].
  - apply (for_range_ind (fun i m' => paints fb c (fun x y => exists j, a <= j < i /\ Si j x y) m m')); [done| |].
    + eapply paints_iff; [|apply paints_id]. intros x y _. split; [done|]. intros (j & ? & _). lia.
    + intros i m' Hi Hp. eapply paints_iff; [|eapply paints_trans; [exact Hp|by apply Hf]]. intros x y _. cbn. split.
      * intros [(j & ? & ?)|?]; [exists j; split; [lia|done]|exists i; split; [lia|done]].
      * intros (j & ? & ?). destruct (decide (j = i)) as [->|]; [by right|left; exists j; split; [lia|done]].
  - rewrite for_range_nil by lia. eapply paints_iff; [|apply paints_id]. intros x y _. split; [done|]. intros (j & ? & _). lia.
Qed.
End Paint.

Lemma rd_insert_eq (m : Mem) (a v : Z) : rd (<[a := v]> m) a = v.
Proof. unfold rd. by rewrite lookup_insert_eq. Qed.
Lemma rd_insert_ne (m : Mem) (a b v : Z) : a <> b -> rd (<[a := v]> m) b = rd m b.
Proof. intros. unfold rd. by rewrite lookup_insert_ne. Qed.

(** Distinct visible pixels have distinct bytes. *)
Lemma addr_inj fb x y x' y' a :
  width fb <= stride fb -> visible fb x y -> visible fb x' y' ->
  addr fb x y <= a < addr fb x y + 4 -> addr fb x' y' <= a < addr fb x' y' + 4 -> x = x' /\ y = y'.
Proof. unfold visible, addr. intros Hw (Hx & Hy & _) (Hx' & Hy' & _) H1 H2. assert (y = y') as -> by nia. split; [lia|done]. Qed.

Lemma write_pixel_paints fb (x y r g b : Z) (m : Mem) :
  width fb <= stride fb -> 0 <= x -> 0 <= y ->
  paints fb (colour fb r g b) (fun x' y' => x' = x /\ y' = y) m (write_pixel fb x y r g b m).
Proof.
  intros Hw Hx Hy. unfold write_pixel.
  assert (~ visible fb x y -> paints fb (colour fb r g b) (fun x' y' => x' = x /\ y' = y) m m) as Hinv.
  { intros Hn. eapply paints_iff; [|apply paints_id]. intros x' y' Hv. split; [done|]. intros [-> ->]. done. }
  destruct (_ || _) eqn:E1.
  { apply Hinv. intros (? & ? & _). apply orb_true_iff in E1 as [|]; zbool; lia. }
  apply orb_false_iff in E1 as [E1 E2]. zbool. destruct (_ <=? _) eqn:E3; zbool; [apply Hinv; intros (_ & _ & ?); lia|].
  assert (visible fb x y) as Hv by (unfold visible; lia). fold (addr fb x y). set (p := addr fb x y).
  assert (forall m' : Mem, (forall a, ~ (p <= a < p + 4) -> m' !! a = m !! a) -> px fb m' x y = colour fb r g b ->
            paints fb (colour fb r g b) (fun x' y' => x' = x /\ y' = y) m m') as Hgo.
  { intros m' Hout Hin. split_and!.
    - by intros x' y' _ [-> ->].
    - intros x' y' Hv'. destruct (decide (x' = x /\ y' = y)) as [[-> ->]|Hne]; [by left|right].
      unfold px, rd. rewrite !Hout; [done|..]; intros Ha; apply Hne;
        (eapply (addr_inj fb x' y' x y); [done..| |exact Ha]); subst p; lia.
    - intros a Ha. apply Hout. by apply Ha. }
  unfold colour in *. destruct (pixel_format fb); (apply Hgo;
    [intros a Ha; rewrite !lookup_insert_ne by lia; done|
     unfold px; fold p; rewrite !rd_insert_eq, !(rd_insert_ne _ (p + 3)), !rd_insert_eq, !(rd_insert_ne _ (p + 2)), !rd_insert_eq,
       !(rd_insert_ne _ (p + 1)), !rd_insert_eq by lia; done]).
Qed.

Lemma clear_paints fb (r g b : Z) (m : Mem) :
  width fb <= stride fb -> paints fb (colour fb r g b) (fun _ _ => True) m (clear fb r g b m).
Proof.
  intros Hw. unfold clear. eapply (paints_for fb _ _ (fun y x' y' => y' = y)).
  - intros y m' Hy. eapply (paints_for fb _ _ (fun x x' y' => x' = x /\ y' = y)).
    + intros x m2 Hx. by apply write_pixel_paints; [|lia|lia].
    + intros x' y' (? & _). split; [intros ->; exists x'; split; [lia|done]|by intros (? & ? & ? & ?)].
  - intros x' y' (_ & ? & _). split; [intros _; exists y'; split; [lia|done]|done].
Qed.

(** ** Block moves *)

Lemma copy_spec (src dst n : Z) (m : Mem) (a : Z) :
  0 <= n -> copy src dst n m !! a = if decide (dst <= a < dst + n) then Some (rd m (src + (a - dst))) else m !! a.
Proof.
  intros Hn. unfold copy.
  pose (P := fun (i : Z) (m' : Mem) => m' !! a = if decide (dst <= a < dst + i) then Some (rd m (src + (a - dst))) else m !! a).
  apply (for_range_ind P); [done|unfold P; by rewrite decide_False by lia|]. unfold P.
  intros i m' Hi Hm'. destruct (decide (a = dst + i)) as [->|Hne].
  - rewrite lookup_insert_eq, decide_True by lia. do 2 f_equal. lia.
  - rewrite lookup_insert_ne by done. rewrite Hm'. destruct (decide (dst <= a < dst + i)), (decide (dst <= a < dst + (i + 1))); done || lia.
Qed.

Lemma write_bytes_spec (dst v n : Z) (m : Mem) (a : Z) :
  0 <= n -> write_bytes dst v n m !! a = if decide (dst <= a < dst + n) then Some v else m !! a.
Proof.
  intros Hn. unfold write_bytes.
  pose (P := fun (i : Z) (m' : Mem) => m' !! a = if decide (dst <= a < dst + i) then Some v else m !! a).
  apply (for_range_ind P); [done|unfold P; by rewrite decide_False by lia|]. unfold P.
  intros i m' Hi Hm'. destruct (decide (a = dst + i)) as [->|Hne].
  - by rewrite lookup_insert_eq, decide_True by lia.
  - rewrite lookup_insert_ne by done. rewrite Hm'. destruct (decide (dst <= a < dst + i)), (decide (dst <= a < dst + (i + 1))); done || lia.
Qed.

(** Every byte after a scroll. *)
Lemma scroll_up_byte fb (pixels : Z) (m : Mem) (o : Z) :
  wf fb -> 0 <= pixels ->
  let shown := Z.max 0 (height fb - pixels) * (stride fb * 4) in
  (0 <= o < shown -> rd (scroll_up fb pixels m) (base fb + o) = rd m (base fb + o + pixels * (stride fb * 4))) /\
  (shown <= o < size fb -> rd (scroll_up fb pixels m) (base fb + o) = 0) /\
  (~ (0 <= o < size fb) -> scroll_up fb pixels m !! (base fb + o) = m !! (base fb + o)).
Proof.
  intros (Hw & Hh & Hs) Hp shown. unfold scroll_up. fold shown.
  assert (0 <= shown <= size fb) as Hsh by (subst shown; nia). rewrite (Z.min_l shown) by lia.
  set (m1 := if 0 <? shown then _ else m).
  assert (forall a, m1 !! a = if decide (base fb <= a < base fb + shown) then Some (rd m (base fb + pixels * (stride fb * 4) + (a - base fb))) else m !! a) as Hm1.
  { intros a. subst m1. destruct (0 <? shown) eqn:E; zbool; [apply copy_spec; lia|]. by rewrite decide_False by lia. }
  unfold rd at 1 3. rewrite !write_bytes_spec by lia. split_and!; intros Ho.
  - rewrite decide_False by lia. rewrite Hm1, decide_True by lia. cbn. f_equal. lia.
  - by rewrite decide_True by lia.
  - rewrite decide_False by lia. rewrite Hm1, decide_False by lia. done.
Qed.

Lemma scroll_up_px fb (pixels : Z) (m : Mem) :
  wf fb -> 0 <= pixels ->
  (forall x y, visible fb x y ->
     px fb (scroll_up fb pixels m) x y = if y + pixels <? height fb then px fb m x (y + pixels) else (0, 0, 0, 0)) /\
  (forall a, ~ (base fb <= a < base fb + size fb) -> scroll_up fb pixels m !! a = m !! a).
Proof.
  intros Hwf Hp. pose proof Hwf as (Hw & Hh & Hs). split.
  - intros x y (Hx & Hy & Hin).
    assert (forall k, 0 <= k < 4 -> rd (scroll_up fb pixels m) (addr fb x y + k) =
              if y + pixels <? height fb then rd m (addr fb x (y + pixels) + k) else 0) as Hk.
    { intros k Hk. unfold addr. set (o := (y * stride fb + x) * 4 + k).
      replace (base fb + (y * stride fb + x) * 4 + k) with (base fb + o) by (subst o; lia).
      destruct (scroll_up_byte fb pixels m o Hwf Hp) as (H1 & H2 & _). destruct (y + pixels <? height fb) eqn:E; zbool.
      - rewrite H1; [f_equal; subst o; lia|]. subst o. rewrite Z.max_r by lia. nia.
      - apply H2. subst o. nia. }
    unfold px. pose proof (Hk 0 ltac:(lia)) as H0. rewrite !Z.add_0_r in H0. rewrite H0, !Hk by lia. by destruct (_ <? _).
  - intros a Ha. destruct (scroll_up_byte fb pixels m (a - base fb) Hwf Hp) as (_ & _ & H3).
    replace (base fb + (a - base fb)) with a in H3 by lia. apply H3. lia.
Qed.

(** Scrolling.  After scrolling up by any number of pixels, every visible row shows
    what the row that many pixels below it showed, the rows uncovered at the bottom are
    black, and nothing outside the framebuffer is written, also when the scroll is
    larger than the screen. *)
Theorem scroll_up_spec fb (pixels : Z) (m : Mem) :
  wf fb -> 0 <= pixels ->
  (forall x y, visible fb x y ->
     px fb (scroll_up fb pixels m) x y = if y + pixels <? height fb then px fb m x (y + pixels) else (0, 0, 0, 0)) /\
  (forall a, ~ (base fb <= a < base fb + size fb) -> scroll_up fb pixels m !! a = m !! a).
Proof. apply scroll_up_px. Qed.

(** ** Glyphs *)

Lemma wrap64_coord (v k : Z) : 0 <= v < 2 ^ 63 -> 0 <= k <= 64 -> wrap64 (v + k) = v + k.
Proof. intros. apply wrap64_small. unfold is_u64. rewrite u64_bound_val. change (2 ^ 63) with 9223372036854775808 in *. lia. Qed.

Definition font_bit (code row col : Z) : bool :=
  negb (Z.land (default 0 (FONT_7x14 !! Z.to_nat ((code - 0x20) * GLYPH_SIZE + row))) (Z.shiftr 0x80 col) =? 0).

Lemma draw_glyph_paints fb (ch x baseline_y r g b : Z) (m : Mem) :
  width fb <= stride fb -> 0 <= x < 2 ^ 62 -> 0 <= baseline_y < 2 ^ 62 ->
  paints fb (colour fb r g b)
    (fun x' y' => 0x20 <= ch mod 256 <= 0x7E /\ exists row col dy dx, 0 <= row < GLYPH_HEIGHT /\ 0 <= col < GLYPH_WIDTH /\
       0 <= dy < SCALE /\ 0 <= dx < SCALE /\ font_bit (ch mod 256) row col = true /\
       x' = x + col * SCALE + dx /\ y' = Z.max 0 (baseline_y - ASCENT) + row * SCALE + dy)
    m (draw_glyph fb ch x baseline_y r g b m).
Proof.
  intros Hw Hx Hy. unfold draw_glyph. unfold GLYPH_HEIGHT, GLYPH_WIDTH, SCALE. change (2 ^ 62) with 4611686018427387904 in *.
  destruct (_ || _) eqn:Ec.
  { eapply paints_iff; [|apply paints_id]. intros x' y' _. split; [done|]. intros [Hc _]. apply orb_true_iff in Ec as [|]; zbool; lia. }
  apply orb_false_iff in Ec as [Ec1 Ec2]. zbool. set (top := Z.max 0 (baseline_y - ASCENT)).
  assert (0 <= top < 4611686018427387904) as Ht by (subst top; unfold ASCENT, SCALE; lia).
  eapply (paints_for fb _ _ (fun row x' y' => exists col dy dx, 0 <= col < 7 /\ 0 <= dy < 2 /\ 0 <= dx < 2 /\
            font_bit (ch mod 256) row col = true /\ x' = x + col * 2 + dx /\ y' = top + row * 2 + dy)).
  - intros row m1 Hrow.
    eapply (paints_for fb _ _ (fun col x' y' => exists dy dx, 0 <= dy < 2 /\ 0 <= dx < 2 /\
            font_bit (ch mod 256) row col = true /\ x' = x + col * 2 + dx /\ y' = top + row * 2 + dy)).
    + intros col m2 Hcol. destruct (Z.land _ _ =? 0) eqn:Eb.
      { eapply paints_iff; [|apply paints_id]. intros x' y' _. split; [done|]. intros (? & ? & _ & _ & Hb & _). unfold font_bit in Hb. by rewrite Eb in Hb. }
      eapply (paints_for fb _ _ (fun dy x' y' => exists dx, 0 <= dx < 2 /\ x' = x + col * 2 + dx /\ y' = top + row * 2 + dy)).
      * intros dy m3 Hdy. eapply (paints_for fb _ _ (fun dx x' y' => x' = x + col * 2 + dx /\ y' = top + row * 2 + dy)).
        -- intros dx m4 Hdx. rewrite !(wrap64_coord x), !(wrap64_coord top), !wrap64_coord; try (change (2 ^ 63) with 9223372036854775808; lia).
           apply write_pixel_paints; [done|lia|lia].
        -- by intros x' y' _.
      * intros x' y' _. unfold font_bit. rewrite Eb. cbn [negb]. split; [intros (dy & dx & ? & ? & _ & ? & ?); by exists dy; split; [|exists dx]|].
        intros (dy & ? & dx & ? & ? & ?). by exists dy, dx.
    + intros x' y' _. split; [intros (col & dy & dx & ? & ?); by exists col; split; [|exists dy, dx]|].
      intros (col & ? & dy & dx & ?). by exists col, dy, dx.
  - intros x' y' _. split.
    + intros [_ (row & col & dy & dx & H1 & H2 & H3 & H4 & H5 & H6 & H7)]. exists row. split; [lia|]. exists col, dy, dx. done.
    + intros (row & H1 & col & dy & dx & H2 & H3 & H4 & H5 & H6 & H7). split; [lia|]. exists row, col, dy, dx. done.
Qed.

(** ** Blending *)

Lemma blend_exact (new old a : Z) :
  0 <= new < 256 -> 0 <= old < 256 -> 0 <= a < 256 -> blend new old a = (new * a + old * (255 - a)) / 255.
Proof.
  intros Hn Ho Ha. unfold blend. change (2 ^ 16) with 65536. change (2 ^ 8) with 256.
  rewrite (Z.mod_small (new * a)), (Z.mod_small (old * (255 - a))), (Z.mod_small (_ + _)) by nia.
  apply Z.mod_small. split; [apply Z.div_pos; nia|]. apply Z.div_lt_upper_bound; nia.
Qed.

(** Blending never overflows and never overshoots.  For every colour byte, every
    byte below it and every coverage, the 16-bit intermediate values do not wrap, the
    result lies between the two bytes, no coverage keeps the old byte and full coverage
    gives the new one. *)
Theorem blend_between (new old a : Z) :
  0 <= new < 256 -> 0 <= old < 256 -> 0 <= a < 256 ->
  blend new old a = (new * a + old * (255 - a)) / 255 /\
  Z.min new old <= blend new old a <= Z.max new old /\ blend new old 0 = old /\ blend new old 255 = new.
Proof.
  intros Hn Ho Ha. rewrite !blend_exact by lia. split_and!; [done| | | |].
  - apply Z.div_le_lower_bound; nia.
  - apply Z.lt_succ_r, Z.div_lt_upper_bound; nia.
  - rewrite Z.mul_0_r, Z.sub_0_r, Z.add_0_l. by apply Z.div_mul.
  - rewrite Z.sub_diag, Z.mul_0_r, Z.add_0_r. by apply Z.div_mul.
Qed.

(** ** Nothing outside the buffer is written *)

Definition inside (fb : FramebufferInfo) (m m' : Mem) : Prop :=
  forall a, ~ (base fb <= a < base fb + size fb) -> m' !! a = m !! a.

#[export] Instance inside_preorder fb : PreOrder (inside fb).
Proof. split; [by intros m a|]. intros m1 m2 m3 H12 H23 a Ha. by rewrite H23, H12. Qed.

Section Inside.
Context (fb : FramebufferInfo).
Implicit Types m : Mem.

Lemma for_range_inside (a b : Z) f m :
  (forall i m, a <= i < b -> inside fb m (f i m)) -> inside fb m (for_range a b f m).
Proof.
  intros Hf. destruct (Z.le_gt_cases a b); [|by rewrite for_range_nil by lia].
  apply (for_range_ind (fun _ m' => inside fb m m')); [done|done|]. intros i m' Hi Hm. etransitivity; [exact Hm|by apply Hf].
Qed.

Lemma write_pixel_inside (x y r g b : Z) m : 0 <= stride fb -> 0 <= x -> 0 <= y -> inside fb m (write_pixel fb x y r g b m).
Proof.
  intros Hs Hx Hy a Ha. unfold write_pixel. destruct (_ || _); [done|]. destruct (_ <=? _) eqn:E; zbool; [done|].
  destruct (pixel_format fb); rewrite !lookup_insert_ne; (done || nia).
Qed.

Lemma blend_pixel_inside (x y r g b alpha : Z) m : 0 <= stride fb -> 0 <= x -> 0 <= y -> inside fb m (blend_pixel fb x y r g b alpha m).
Proof.
  intros Hs Hx Hy a Ha. unfold blend_pixel. destruct (_ || _); [done|]. destruct (_ <=? _) eqn:E; zbool; [done|].
  destruct (pixel_format fb); cbv zeta; rewrite !lookup_insert_ne; (done || nia).
Qed.

Lemma scroll_up_inside (pixels : Z) m : wf fb -> 0 <= pixels -> inside fb m (scroll_up fb pixels m).
Proof.
  intros Hwf Hp a Ha. destruct (scroll_up_byte fb pixels m (a - base fb) Hwf Hp) as (_ & _ & H3).
  replace (base fb + (a - base fb)) with a in H3 by lia. apply H3. lia.
Qed.

Lemma clear_inside (r g b : Z) m : 0 <= stride fb -> inside fb m (clear fb r g b m).
Proof. intros Hs. unfold clear. do 2 (apply for_range_inside; intros). apply write_pixel_inside; lia. Qed.

Lemma draw_glyph_inside (c x y r g b : Z) m : 0 <= stride fb -> inside fb m (draw_glyph fb c x y r g b m).
Proof.
  intros Hs. unfold draw_glyph. destruct (_ || _); [done|]. do 2 (apply for_range_inside; intros). destruct (_ =? _); [done|].
  do 2 (apply for_range_inside; intros). apply write_pixel_inside; [done|apply wrap64_range..].
Qed.
End Inside.

Module Example.
(** A screen of two text rows and two columns, with a row of padding bytes. *)
Definition fb0 : FramebufferInfo := mkFb 4096 7680 30 60 32 Bgr.
Lemma fb0_wf : wf fb0.
Proof. unfold wf, fb0. cbn. lia. Qed.

Lemma scroll_up_spec_witness :
  px fb0 (scroll_up fb0 28 (write_pixel fb0 5 30 1 2 3 ∅)) 5 2 = (3, 2, 1, 0).
Proof.
  destruct (scroll_up_spec fb0 28 (write_pixel fb0 5 30 1 2 3 ∅) fb0_wf ltac:(lia)) as [H _].
  rewrite (H 5 2) by (unfold visible, fb0; cbn; lia). vm_compute. reflexivity.
Defined.

Lemma blend_between_witness : 10 <= blend 200 10 127 <= 200.
Proof. apply (blend_between 200 10 127); lia. Defined.
End Example.

End Framebuffer.
