(* ===== verification/Console.v ===== *)
(** The text console: [crates/kernel/src/terminal/console.rs].

    Cursor positions and font metrics are the code's [f32] values, as the Standard
    Library's executable binary32 numbers; text is a list of code points.  The font
    library is a parameter: a [Font] is what the console asks of it.  The console lock is
    held over each operation of the last section, so each is one step; the [Console]
    methods act on the console and on memory. *)
From stdpp Require Import base list numbers option gmap.
From S2P Require Import Prelude F32 Framebuffer.

Open Scope Z_scope.

Module Console.
Import Framebuffer.
Import F32.F32.

(** What the console asks of a font at a size: the metrics and, for a character drawn
    with its origin at a point, the least corner of its box and each covered pixel's
    offset in the box and coverage. *)
Record Font := mkFont {
  f_height : f32 -> f32;
  f_line_gap : f32 -> f32;
  f_descent : f32 -> f32;
  f_advance : f32 -> Z -> f32;
  f_outline : f32 -> Z -> f32 -> f32 -> option (f32 * f32 * list (Z * Z * f32))
}.

Inductive EscapeState := Normal | Esc | Csi.

Record Console := mkConsole {
  fb : FramebufferInfo;
  font : option Font;
  font_size : f32;
  cursor_x : f32;
  cursor_y : f32;
  line_height : f32;
  font_descent : f32;
  text_color : Z * Z * Z;
  escape_state : EscapeState;
  csi_params : list Z;
  csi_param_count : Z
}.

Record CursorPosition := mkPos { pos_x : f32; pos_y : f32; pos_height : f32 }.

Definition set_cursor (x y : f32) (k : Console) : Console :=
  mkConsole (fb k) (font k) (font_size k) x y (line_height k) (font_descent k) (text_color k)
    (escape_state k) (csi_params k) (csi_param_count k).
Definition set_escape (e : EscapeState) (k : Console) : Console :=
  mkConsole (fb k) (font k) (font_size k) (cursor_x k) (cursor_y k) (line_height k) (font_descent k) (text_color k)
    e (csi_params k) (csi_param_count k).
Definition set_csi (ps : list Z) (n : Z) (k : Console) : Console :=
  mkConsole (fb k) (font k) (font_size k) (cursor_x k) (cursor_y k) (line_height k) (font_descent k) (text_color k)
    (escape_state k) ps n.

(** [try_from_vec] is the font library's; [font] is its result. *)
Definition new (fb : FramebufferInfo) (font : option Font) : Console :=
  let '(line_height, font_descent) :=
    match font with
    | Some f => (add (f_height f (of_Z 24)) (f_line_gap f (of_Z 24)), f_descent f (of_Z 24))
    | None => (of_Z CHAR_HEIGHT, of_Z (CHAR_HEIGHT - ASCENT))
    end in
  mkConsole fb font (of_Z 24) zero line_height line_height font_descent (255, 255, 255) Normal [0; 0; 0; 0] 0.

Section Methods.
Implicit Types (k : Console) (m : Mem).

Definition clear k m : Console * Mem := (set_cursor zero (line_height k) k, Framebuffer.clear (fb k) 0 0 0 m).

Definition char_width (c : Z) k : f32 :=
  match font k with Some f => f_advance f (font_size k) c | None => of_Z CHAR_WIDTH end.

Definition clear_rect k (x y w h : Z) m : Mem :=
  let max_y := Z.min (wrap64 (y + h)) (height (fb k)) in
  let max_x := Z.min (wrap64 (x + w)) (width (fb k)) in
  for_range y max_y (fun py => for_range x max_x (fun px => write_pixel (fb k) px py 0 0 0)) m.

(** [(self.cursor_y - ascent).max(0.0) as usize] *)
Definition cell_top k : Z := to_usize (max (sub (cursor_y k) (sub (line_height k) (font_descent k))) zero).
Definition cell_height k (top : Z) : Z :=
  let bottom := Z.min (wrap64 (to_usize (cursor_y k) + to_usize (font_descent k) + 1)) (height (fb k)) in
  Z.max (Z.max 0 (bottom - top)) 1.

Definition erase_to_end_of_line k m : Mem :=
  let x := to_usize (cursor_x k) in
  let top := cell_top k in
  let h := cell_height k top in
  if x <? width (fb k) then clear_rect k x top (width (fb k) - x) h m else m.

Definition clear_cell k (advance : f32) m : Mem :=
  let x := to_usize (cursor_x k) in
  let top := cell_top k in
  let h := cell_height k top in
  if x <? width (fb k) then clear_rect k x top (Z.min (wrap64 (to_usize advance + 1)) (width (fb k) - x)) h m else m.

Definition position k : CursorPosition := mkPos (cursor_x k) (cursor_y k) (line_height k).
Definition set_position (p : CursorPosition) k : Console := set_cursor (pos_x p) (pos_y p) k.

Definition draw_cursor k (p : CursorPosition) (vis : bool) m : Mem :=
  let x := to_usize (pos_x p) in
  let ascent := sub (pos_height p) (font_descent k) in
  let top := to_usize (max (sub (pos_y p) ascent) zero) in
  let h := to_usize (pos_height p) in
  let color := if vis then 255 else 0 in
  for_range top (Z.min (wrap64 (top + h)) (height (fb k))) (fun py =>
    for_range x (Z.min (wrap64 (x + 2)) (width (fb k))) (fun px => write_pixel (fb k) px py color color color)) m.

Definition newline k m : Console * Mem :=
  let k := set_cursor zero (add (cursor_y k) (line_height k)) k in
  let max_y := of_Z (height (fb k)) in
  if ge (cursor_y k) max_y then
    let truncated := to_usize (line_height k) in
    let scroll_px := Z.max (if lt (of_Z truncated) (line_height k) then wrap64 (truncated + 1) else truncated) 1 in
    (set_cursor (cursor_x k) (sub (cursor_y k) (of_Z scroll_px)) k, scroll_up (fb k) scroll_px m)
  else (k, m).

(** [i32] addition, wrapping. *)
Definition add_i32 (a b : Z) : Z := (a + b + 2147483648) mod 4294967296 - 2147483648.

(** The closure given to [outlined.draw], over the covered pixels. *)
Definition draw_outline (f : FramebufferInfo) (color : Z * Z * Z) (min_x min_y : f32) (pixels : list (Z * Z * f32)) m : Mem :=
  foldl (fun m '(offset_x, offset_y, coverage) =>
    let px := add_i32 (to_i32 min_x) offset_x in
    let py := add_i32 (to_i32 min_y) offset_y in
    if (px <? 0) || (py <? 0) then m
    else let '(r, g, b) := color in blend_pixel f px py r g b (to_u8 (mul coverage (of_Z 255))) m) m pixels.

Definition draw_char (c : Z) k m : Console * Mem :=
  let advance := char_width c k in
  let '(k, m) := if ge (add (cursor_x k) advance) (of_Z (width (fb k))) then newline k m else (k, m) in
  let '(k, m) := if ge (add (cursor_y k) (font_descent k)) (of_Z (height (fb k))) then newline k m else (k, m) in
  let m := clear_cell k advance m in
  let m :=
    match font k with
    | Some f =>
        match f_outline f (font_size k) c (cursor_x k) (cursor_y k) with
        | Some (min_x, min_y, pixels) => draw_outline (fb k) (text_color k) min_x min_y pixels m
        | None => m
        end
    | None =>
        let '(r, g, b) := text_color k in
        draw_glyph (fb k) c (to_usize (cursor_x k)) (to_usize (cursor_y k)) r g b m
    end in
  (set_cursor (add (cursor_x k) advance) (cursor_y k) k, m).

Definition csi_dispatch (cmd : Z) k m : Console * Mem :=
  let p0 := of_Z (default 0 (csi_params k !! 0%nat)) in
  let p1 := of_Z (default 0 (csi_params k !! 1%nat)) in
  let one := of_Z 1 in
  if cmd =? 74 (* J *) then
    let mode := default 0 (csi_params k !! 0%nat) in
    if (mode =? 2) || (mode =? 3) then (set_cursor zero (line_height k) k, Framebuffer.clear (fb k) 0 0 0 m)
    else if mode =? 1 then (k, clear_rect k 0 0 (width (fb k)) (cell_top k) m)
    else (k, clear_rect k 0 (cell_top k) (width (fb k)) (wrap64 (height (fb k) - cell_top k)) m)
  else if cmd =? 75 (* K *) then (k, erase_to_end_of_line k m)
  else if (cmd =? 72) || (cmd =? 102) (* H, f *) then
    let row := to_usize (sub (max p0 one) one) in
    let col := to_usize (sub (max p1 one) one) in
    (set_cursor (mul (of_Z col) (char_width 32 k)) (add (line_height k) (mul (of_Z row) (line_height k))) k, m)
  else if cmd =? 65 (* A *) then
    (set_cursor (cursor_x k) (max (sub (cursor_y k) (mul (max p0 one) (line_height k))) (line_height k)) k, m)
  else if cmd =? 66 (* B *) then
    (set_cursor (cursor_x k)
       (min (add (cursor_y k) (mul (max p0 one) (line_height k))) (sub (of_Z (height (fb k))) (font_descent k))) k, m)
  else if cmd =? 67 (* C *) then
    (set_cursor (min (add (cursor_x k) (mul (max p0 one) (char_width 32 k))) (of_Z (width (fb k)))) (cursor_y k) k, m)
  else if cmd =? 68 (* D *) then
    (set_cursor (max (sub (cursor_x k) (mul (max p0 one) (char_width 32 k))) zero) (cursor_y k) k, m)
  else (k, m).

(** [saturating_mul(10).saturating_add(d)] on [u16] *)
Definition push_digit (p d : Z) : Z := Z.min 65535 (Z.min 65535 (p * 10) + d).

Definition process_char (c : Z) k m : Console * Mem :=
  match escape_state k with
  | Normal =>
      if c =? 10 then newline k m
      else if c =? 13 then (set_cursor zero (cursor_y k) k, m)
      else if c =? 8 then (set_cursor (max (sub (cursor_x k) (char_width 32 k)) zero) (cursor_y k) k, m)
      else if c =? 27 then (set_escape Esc k, m)
      else draw_char c k m
  | Esc =>
      if c =? 91 then (set_escape Csi (set_csi [0; 0; 0; 0] 0 k), m) else (set_escape Normal k, m)
  | Csi =>
      if (48 <=? c) && (c <=? 57) then
        let i := Z.to_nat (Z.min (csi_param_count k) 3) in
        (set_csi (<[i := push_digit (default 0 (csi_params k !! i)) (c - 48)]> (csi_params k)) (csi_param_count k) k, m)
      else if c =? 59 then
        (if csi_param_count k <? 3 then set_csi (csi_params k) (csi_param_count k + 1) k else k, m)
      else
        let k := set_csi (csi_params k) (csi_param_count k + 1) k in
        let '(k, m) := csi_dispatch c k m in
        (set_escape Normal k, m)
  end.

Definition print (text : list Z) k m : Console * Mem := foldl (fun '(k, m) c => process_char c k m) (k, m) text.
Definition println (text : list Z) k m : Console * Mem := let '(k, m) := print text k m in newline k m.
End Methods.

(** ** The console of the kernel *)

Record State := mkState { CONSOLE : option Console; SAVED_CURSOR : CursorPosition; memory : Mem }.

Section Kernel.
Implicit Types s : State.

(** [if let Some(console) = ...] *)
Definition with_console (f : Console -> Mem -> Console * Mem) s : State :=
  match CONSOLE s with
  | Some k => let '(k, m) := f k (memory s) in mkState (Some k) (SAVED_CURSOR s) m
  | None => s
  end.

Definition init (k : Console) s : State := mkState (Some k) (SAVED_CURSOR s) (memory s).
Definition console_clear s : State := with_console clear s.

Definition screen_print (text : list Z) s : State :=
  match CONSOLE s with
  | Some k =>
      let m := draw_cursor k (SAVED_CURSOR s) false (memory s) in
      let '(k, m) := print text k m in
      let pos := position k in
      mkState (Some k) pos (draw_cursor k pos true m)
  | None => s
  end.

Definition screen_println (text : list Z) s : State := with_console (println text) s.

Definition console_position s : CursorPosition :=
  match CONSOLE s with Some k => position k | None => mkPos zero zero zero end.
Definition console_set_position (p : CursorPosition) s : State := with_console (fun k m => (set_position p k, m)) s.
Definition console_font_descent s : f32 := match CONSOLE s with Some k => font_descent k | None => zero end.

Definition console_size s : Z * Z :=
  match CONSOLE s with
  | Some k =>
      let cw := char_width 32 k in
      let lh := line_height k in
      if lt zero cw && lt zero lh
      then (to_u32 (div (of_Z (width (fb k))) cw), to_u32 (div (of_Z (height (fb k))) lh))
      else (80, 25)
  | None => (80, 25)
  end.

Definition text_width (text : list Z) s : f32 :=
  match CONSOLE s with Some k => foldl (fun w byte => add w (char_width byte k)) zero text | None => zero end.

Definition console_clear_rect (x y w h : Z) s : State := with_console (fun k m => (k, clear_rect k x y w h m)) s.
Definition console_draw_cursor (p : CursorPosition) (vis : bool) s : State := with_console (fun k m => (k, draw_cursor k p vis m)) s.

Definition save_cursor_pos s : State :=
  match CONSOLE s with
  | Some k => mkState (Some k) (position k) (draw_cursor k (SAVED_CURSOR s) false (memory s))
  | None => s
  end.
Definition draw_saved_cursor (vis : bool) s : State := console_draw_cursor (SAVED_CURSOR s) vis s.
Definition restore_cursor_pos s : State := console_set_position (SAVED_CURSOR s) s.

(** [_print] and [_println]: the formatted text comes in pieces, each printed. *)
Definition print_args (pieces : list (list Z)) k m : Console * Mem := foldl (fun '(k, m) text => print text k m) (k, m) pieces.
Definition _print (pieces : list (list Z)) s : State := with_console (print_args pieces) s.
Definition _println (pieces : list (list Z)) s : State :=
  with_console (fun k m => let '(k, m) := print_args pieces k m in println [] k m) s.
End Kernel.

(** * Memory safety *)

(** A sane framebuffer, and parameters that the four slots hold as [u16]. *)
Record kwf (k : Console) : Prop := {
  kw_fb : wf (fb k);
  kw_params : length (csi_params k) = 4%nat /\ Forall (fun p => 0 <= p <= 65535) (csi_params k);
  kw_count : 0 <= csi_param_count k <= 4;
  kw_csi : escape_state k = Csi -> csi_param_count k <= 3;
}.

(** The framebuffer stays the same, and only its bytes may have changed. *)
Definition safe (k : Console) (m : Mem) (r : Console * Mem) : Prop :=
  kwf r.1 /\ fb r.1 = fb k /\ inside (fb k) m r.2.

Lemma kwf_stride k : kwf k -> 0 <= stride (fb k).
Proof. intros [(? & _) _ _ _]. lia. Qed.

Lemma kwf_cursor (x y : f32) k : kwf k -> kwf (set_cursor x y k).
Proof. by intros []. Qed.
Lemma kwf_normal k : kwf k -> kwf (set_escape Normal k).
Proof. by intros [H1 H2 H3 _]. Qed.

Lemma safe_keep k m x y : kwf k -> safe k m (set_cursor x y k, m).
Proof. intros Hk. split_and!; [by apply kwf_cursor|done|done]. Qed.

Lemma clear_rect_inside k (x y w h : Z) m : kwf k -> 0 <= x -> 0 <= y -> inside (fb k) m (clear_rect k x y w h m).
Proof.
  intros Hk%kwf_stride Hx Hy. unfold clear_rect. do 2 (apply for_range_inside; intros). apply write_pixel_inside; lia.
Qed.

#[local] Hint Resolve to_usize_nonneg kwf_stride kwf_cursor kwf_normal clear_rect_inside safe_keep : console.

Lemma cell_top_nonneg k : 0 <= cell_top k.
Proof. apply to_usize_nonneg. Qed.
#[local] Hint Resolve cell_top_nonneg : console.

Lemma erase_inside k m : kwf k -> inside (fb k) m (erase_to_end_of_line k m).
Proof. intros Hk. unfold erase_to_end_of_line. destruct (_ <? _); [|done]. auto with console. Qed.

Lemma clear_cell_inside k (advance : f32) m : kwf k -> inside (fb k) m (clear_cell k advance m).
Proof. intros Hk. unfold clear_cell. destruct (_ <? _); [|done]. auto with console. Qed.

Lemma draw_cursor_inside k p vis m : kwf k -> inside (fb k) m (draw_cursor k p vis m).
Proof.
  intros Hk. unfold draw_cursor. do 2 (apply for_range_inside; intros). apply write_pixel_inside; [auto with console|..];
    etransitivity; [|apply H0| |apply H]; apply to_usize_nonneg.
Qed.

Lemma newline_safe k m : kwf k -> safe k m (newline k m).
Proof.
  intros Hk. unfold newline. destruct (ge _ _); [|auto with console]. split_and!; cbn [fst snd]; [auto with console|done|].
  apply scroll_up_inside; [by destruct Hk|lia].
Qed.

Lemma draw_outline_inside (f : FramebufferInfo) color x y pixels m : 0 <= stride f -> inside f m (draw_outline f color x y pixels m).
Proof.
  intros Hs. unfold draw_outline. revert m. induction pixels as [|[[ox oy] cv] l IH]; intros m; [done|]. cbn [foldl].
  etransitivity; [|apply IH]. destruct (_ || _) eqn:E; [done|]. apply orb_false_iff in E as [E1 E2]. zbool.
  destruct color as [[r g] b]. by apply blend_pixel_inside.
Qed.

Lemma safe_bind k m (p : Console * Mem) (g : Console -> Mem -> Console * Mem) :
  safe k m p -> (forall k1 m1, kwf k1 -> safe k1 m1 (g k1 m1)) -> safe k m (let '(k1, m1) := p in g k1 m1).
Proof.
  destruct p as [k1 m1]. intros (H1 & H2 & H3) Hg. cbn [fst snd] in *. destruct (Hg k1 m1 H1) as (G1 & G2 & G3).
  split_and!; [done|congruence|]. rewrite H2 in G3. by etransitivity.
Qed.

Lemma draw_char_safe (c : Z) k m : kwf k -> safe k m (draw_char c k m).
Proof.
  intros Hk. unfold draw_char. apply safe_bind.
  { destruct (ge _ _); [by apply newline_safe|by split_and!]. }
  intros k1 m1 Hk1. apply safe_bind; [destruct (ge _ _); [by apply newline_safe|by split_and!]|].
  intros k2 m2 Hk2. split_and!; cbn [fst snd]; [auto with console|done|]. cbn [snd].
  etransitivity; [by apply clear_cell_inside|]. destruct (font k2) as [f|].
  - destruct (f_outline f _ _ _ _) as [[[? ?] ?]|]; [|done]. apply draw_outline_inside. auto with console.
  - destruct (text_color k2) as [[r g] b]. apply draw_glyph_inside. auto with console.
Qed.

Lemma csi_dispatch_safe (cmd : Z) k m : kwf k -> safe k m (csi_dispatch cmd k m).
Proof.
  intros Hk. unfold csi_dispatch.
  assert (forall m', inside (fb k) m m' -> safe k m (k, m')) as Hpix by (intros; by split_and!).
  repeat match goal with |- safe _ _ (if ?b then _ else _) => destruct b end; auto using erase_inside with console.
  - split_and!; cbn [fst snd]; [auto with console|done|]. apply clear_inside. auto with console.
  - apply Hpix, clear_rect_inside; auto with console; lia.
  - apply Hpix, clear_rect_inside; auto with console; lia.
  - by apply Hpix.
Qed.

Lemma push_digit_range (p d : Z) : 0 <= p -> 0 <= d -> 0 <= push_digit p d <= 65535.
Proof. unfold push_digit. lia. Qed.

Lemma process_char_safe (c : Z) k m : kwf k -> safe k m (process_char c k m).
Proof.
  intros Hk. unfold process_char. destruct (escape_state k) eqn:Ee.
  - repeat match goal with |- safe _ _ (if ?b then _ else _) => destruct b end; auto using newline_safe, draw_char_safe with console.
    destruct Hk as [H1 H2 H3 _]. by split_and!.
  - destruct Hk as [H1 H2 H3 _]. destruct (_ =? _); [|by split_and!]. split_and!; [|done|done].
    split; [done|split; [done|repeat constructor; lia]|cbn; lia|cbn; lia].
  - pose proof Hk as [H1 [H2 H3] H4 H5]. specialize (H5 Ee). destruct (_ && _) eqn:Ed.
    { apply andb_true_iff in Ed as [? ?]. zbool. split_and!; [|done|done].
      split; [done|split; cbn; [by rewrite length_insert|]|done|done]. apply Forall_insert; [done|]. apply push_digit_range; [|lia].
      destruct (csi_params k !! _) as [p|] eqn:Ep; [|done]. cbn. by apply (Forall_lookup_1 _ _ _ _ H3 Ep). }
    destruct (_ =? 59); [destruct (_ <? 3) eqn:E3; zbool; (split_and!; [|done|done]); [|done]; split; [done|done|cbn; lia|cbn; lia]|].
    destruct (csi_dispatch _ _ _) as [k1 m1] eqn:Ec.
    destruct (csi_dispatch_safe c (set_csi (csi_params k) (csi_param_count k + 1) (set_escape Normal k)) m) as (G1 & G2 & G3);
      [split; [done|done|cbn; lia|done]|].
    assert (forall cmd e kk, csi_dispatch cmd (set_escape e kk) m = (set_escape e (csi_dispatch cmd kk m).1, (csi_dispatch cmd kk m).2)) as He.
    { intros cmd e kk. unfold csi_dispatch. cbn [csi_params set_escape].
      by repeat match goal with |- context [if ?b then _ else _] => destruct b end. }
    assert (csi_dispatch c (set_csi (csi_params k) (csi_param_count k + 1) (set_escape Normal k)) m = (set_escape Normal k1, m1)) as Eq.
    { change (set_csi (csi_params k) (csi_param_count k + 1) (set_escape Normal k)) with
        (set_escape Normal (set_csi (csi_params k) (csi_param_count k + 1) k)). by rewrite He, Ec. }
    rewrite Eq in *. by split_and!.
Qed.

Lemma print_safe (text : list Z) k m : kwf k -> safe k m (print text k m).
Proof.
  unfold print. revert k m. induction text as [|c text IH]; intros k m Hk; [by split_and!|]. cbn [foldl].
  destruct (process_char c k m) as [k1 m1] eqn:Ec. pose proof (process_char_safe c k m Hk) as Hs. rewrite Ec in Hs.
  apply (safe_bind k m (k1, m1) (fun k m => foldl (fun '(k, m) c => process_char c k m) (k, m) text)); [done|].
  intros k2 m2 Hk2. by apply IH.
Qed.

(** ** Any use of the console *)

Inductive op :=
  | OClear | OPrint (text : list Z) | OPrintln (text : list Z) | OArgs (pieces : list (list Z)) (ln : bool)
  | OSetPosition (p : CursorPosition) | OClearRect (x y w h : Z) | ODrawCursor (p : CursorPosition) (vis : bool)
  | OSave | ODrawSaved (vis : bool) | ORestore.

Definition run_op (o : op) (s : State) : State :=
  match o with
  | OClear => console_clear s
  | OPrint text => screen_print text s
  | OPrintln text => screen_println text s
  | OArgs pieces ln => if ln then _println pieces s else _print pieces s
  | OSetPosition p => console_set_position p s
  | OClearRect x y w h => console_clear_rect x y w h s
  | ODrawCursor p vis => console_draw_cursor p vis s
  | OSave => save_cursor_pos s
  | ODrawSaved vis => draw_saved_cursor vis s
  | ORestore => restore_cursor_pos s
  end.

(** [usize] arguments. *)
Definition op_ok (o : op) : Prop := match o with OClearRect x y _ _ => 0 <= x /\ 0 <= y | _ => True end.

Definition safe_state (f : FramebufferInfo) (s s' : State) : Prop :=
  (exists k, CONSOLE s' = Some k /\ kwf k /\ fb k = f) /\ inside f (memory s) (memory s').

Lemma with_console_safe g f s k :
  CONSOLE s = Some k -> kwf k -> fb k = f -> safe k (memory s) (g k (memory s)) -> safe_state f s (with_console g s).
Proof.
  intros Hs Hk <- Hg. unfold with_console. rewrite Hs. destruct (g k (memory s)) as [k1 m1]. destruct Hg as (H1 & H2 & H3).
  split; [by exists k1|done].
Qed.

Lemma print_args_safe pieces k m : kwf k -> safe k m (print_args pieces k m).
Proof.
  unfold print_args. revert k m. induction pieces as [|t l IH]; intros k m Hk; [by split_and!|]. cbn [foldl].
  destruct (print t k m) as [k1 m1] eqn:Ec. pose proof (print_safe t k m Hk) as Hs. rewrite Ec in Hs.
  apply (safe_bind k m (k1, m1) (fun k m => foldl (fun '(k, m) text => print text k m) (k, m) l)); [done|]. intros k2 m2 Hk2. by apply IH.
Qed.

Lemma println_safe text k m : kwf k -> safe k m (println text k m).
Proof. intros Hk. unfold println. apply safe_bind; [by apply print_safe|]. intros; by apply newline_safe. Qed.

Lemma run_op_safe f (o : op) s k :
  CONSOLE s = Some k -> kwf k -> fb k = f -> op_ok o -> safe_state f s (run_op o s).
Proof.
  intros Hs Hk Hf Ho. destruct o as [|text|text|pieces ln|p|x y w h|p vis| |vis| ]; cbn [run_op].
  - eapply with_console_safe; [done..|]. unfold clear. split_and!; cbn [fst snd]; [auto with console|done|]. apply clear_inside. auto with console.
  - unfold screen_print. rewrite Hs. pose proof (draw_cursor_inside k (SAVED_CURSOR s) false (memory s) Hk) as H0.
    destruct (print text k _) as [k1 m1] eqn:Ep. pose proof (print_safe text k (draw_cursor k (SAVED_CURSOR s) false (memory s)) Hk) as H1.
    rewrite Ep in H1. destruct H1 as (H1 & H2 & H3). cbn [fst snd] in *. split; [exists k1; split_and!; [done|done|congruence]|].
    cbn [memory]. subst f. etransitivity; [exact H0|]. etransitivity; [exact H3|]. rewrite <- H2. by apply draw_cursor_inside.
  - eapply with_console_safe; [done..|]. by apply println_safe.
  - destruct ln; (eapply with_console_safe; [done..|]); [|by apply print_args_safe].
    apply safe_bind; [by apply print_args_safe|]. intros. by apply println_safe.
  - eapply with_console_safe; [done..|]. unfold set_position. auto with console.
  - destruct Ho. eapply with_console_safe; [done..|]. split_and!; cbn [fst snd]; [done|done|auto with console].
  - eapply with_console_safe; [done..|]. split_and!; cbn [fst snd]; [done|done|by apply draw_cursor_inside].
  - unfold save_cursor_pos. rewrite Hs. split; [by exists k|]. subst f. by apply draw_cursor_inside.
  - eapply with_console_safe; [done..|]. split_and!; cbn [fst snd]; [done|done|by apply draw_cursor_inside].
  - eapply with_console_safe; [done..|]. unfold set_position. auto with console.
Qed.

(** C26: Whatever is printed, with whatever font, the console writes only framebuffer
    memory.  For every sequence of console operations on a console whose framebuffer
    description is consistent, every text (control characters, complete, broken or
    nested escape sequences with any parameters), every cursor position and every font
    (infinite or undefined metrics included), no byte outside the framebuffer changes,
    the framebuffer stays the same, and the escape parser stays within its four 16-bit
    parameters. *)
Theorem console_stays_inside (ops : list op) s k :
  CONSOLE s = Some k -> kwf k -> Forall op_ok ops -> safe_state (fb k) s (foldl (fun s o => run_op o s) s ops).
Proof.
  intros Hs Hk Ho. assert (safe_state (fb k) s s) as Hi by (split; [by exists k|done]).
  revert Hi. generalize s at 2 4. induction Ho as [|o ops Ho _ IH]; intros s1 Hi; [done|]. cbn [foldl]. apply IH.
  destruct Hi as [(k1 & H1 & H2 & H3) H4]. destruct (run_op_safe (fb k) o s1 k1 H1 H2 H3 Ho) as [G1 G2].
  split; [done|by etransitivity].
Qed.

(** * Escape sequences *)

Definition is_digit (c : Z) : Prop := 48 <= c <= 57.
Definition decimal (ds : list Z) : Z := foldl (fun v c => v * 10 + (c - 48)) 0 ds.

Lemma print_app (t1 t2 : list Z) k m : print (t1 ++ t2) k m = print t2 (print t1 k m).1 (print t1 k m).2.
Proof. unfold print. rewrite foldl_app. by destruct (foldl _ (k, m) t1). Qed.

Lemma print_cons (c : Z) (t : list Z) k m k1 m1 : process_char c k m = (k1, m1) -> print (c :: t) k m = print t k1 m1.
Proof. intros H. unfold print. cbn [foldl]. by rewrite H. Qed.

(** A parameter holds the number its digits spell, saturated. *)
Lemma print_digits (ds : list Z) k m (i : nat) (v : Z) :
  escape_state k = Csi -> csi_param_count k = Z.of_nat i -> (i <= 3)%nat -> length (csi_params k) = 4%nat ->
  Forall is_digit ds -> 0 <= v -> csi_params k !! i = Some (Z.min 65535 v) ->
  print ds k m = (set_csi (<[i := Z.min 65535 (foldl (fun v c => v * 10 + (c - 48)) v ds)]> (csi_params k)) (csi_param_count k) k, m).
Proof.
  intros He Hc Hi Hl Hd. revert k v He Hc Hl. induction Hd as [|c ds Hc0 Hd IH]; intros k v He Hc Hl Hv Hp.
  { cbn [foldl]. rewrite list_insert_id by done. by destruct k. }
  unfold is_digit in Hc0. unfold print. cbn [foldl].
  assert (process_char c k m = (set_csi (<[i := Z.min 65535 (v * 10 + (c - 48))]> (csi_params k)) (csi_param_count k) k, m)) as ->.
  { unfold process_char. rewrite He. rewrite (proj2 (Z.leb_le 48 c)), (proj2 (Z.leb_le c 57)) by lia. cbn [andb].
    rewrite Hc, Z.min_l, Nat2Z.id, Hp by lia. cbn [from_option id]. do 3 f_equal. unfold push_digit. lia. }
  fold (print ds (set_csi (<[i := Z.min 65535 (v * 10 + (c - 48))]> (csi_params k)) (csi_param_count k) k) m).
  rewrite (IH _ (v * 10 + (c - 48))); cbn; [by rewrite list_insert_insert_eq|done|done|by rewrite length_insert|lia|].
  rewrite list_lookup_insert_eq; [done|lia].
Qed.

Definition csi_text (ds1 ds2 : list Z) (cmd : Z) : list Z := 27 :: 91 :: ds1 ++ 59 :: ds2 ++ [cmd].
Definition csi_state (p0 p1 : Z) k : Console := set_csi [p0; p1; 0; 0] 2 (set_escape Csi k).

Lemma csi_sequence (ds1 ds2 : list Z) (cmd : Z) k m :
  escape_state k = Normal -> Forall is_digit ds1 -> Forall is_digit ds2 -> ~ is_digit cmd -> cmd <> 59 ->
  let '(k', m') := csi_dispatch cmd (csi_state (Z.min 65535 (decimal ds1)) (Z.min 65535 (decimal ds2)) k) m in
  print (csi_text ds1 ds2 cmd) k m = (set_escape Normal k', m').
Proof.
  intros He Hd1 Hd2 Hn H59. unfold is_digit in Hn.
  destruct (csi_dispatch _ _ _) as [k' m'] eqn:Ed. unfold csi_text.
  erewrite print_cons by (unfold process_char; rewrite He; reflexivity).
  erewrite print_cons by (unfold process_char; cbn [escape_state set_escape]; reflexivity).
  set (k1 := set_escape Csi _). rewrite print_app.
  rewrite (print_digits ds1 k1 m 0 0) by (done || lia). cbn [fst snd].
  erewrite print_cons by (unfold process_char; cbn [escape_state set_csi k1 set_escape andb Z.leb Z.compare]; reflexivity).
  cbn [csi_param_count set_csi k1 set_escape csi_params Z.ltb Z.compare Z.add Pos.add insert list_insert].
  rewrite print_app. rewrite (print_digits ds2 _ m 1 0) by (done || lia). cbn [fst snd].
  unfold print. cbn [foldl]. unfold process_char. cbn [escape_state set_csi set_escape].
  replace ((48 <=? cmd) && (cmd <=? 57)) with false by (destruct (48 <=? cmd) eqn:E1, (cmd <=? 57) eqn:E2; zbool; cbn; (done || lia)).
  rewrite (proj2 (Z.eqb_neq cmd 59)) by done. cbn [csi_params csi_param_count set_csi set_escape insert list_insert].
  match goal with |- context [csi_dispatch cmd ?x m] =>
    change x with (csi_state (Z.min 65535 (decimal ds1)) (Z.min 65535 (decimal ds2)) k) end.
  by rewrite Ed.
Qed.

(** The cell index of a one-based parameter, [(p.max(1.0) - 1.0) as usize]. *)
Definition one_based (p : Z) : Z := to_usize (sub (max (of_Z p) (of_Z 1)) (of_Z 1)).

Lemma one_based_small (p : Z) : 0 <= p <= 65535 -> one_based p = Z.max 1 p - 1.
Proof.
  intros Hp. unfold one_based. rewrite !of_Z_exact, max_exact, sub_exact, to_usize_exact; change (2 ^ 24) with 16777216; lia.
Qed.

Lemma decimal_nonneg (ds : list Z) : Forall is_digit ds -> 0 <= decimal ds.
Proof.
  unfold decimal. intros Hd. assert (forall v, 0 <= v -> 0 <= foldl (fun v c => v * 10 + (c - 48)) v ds) as H; [|by apply H].
  induction Hd as [|c ds Hc Hd IH]; intros v Hv; [done|]. cbn [foldl]. apply IH. unfold is_digit in Hc. lia.
Qed.

Lemma csi_address (ds1 ds2 : list Z) (cmd : Z) k m :
  escape_state k = Normal -> Forall is_digit ds1 -> Forall is_digit ds2 -> cmd = 72 \/ cmd = 102 ->
  let cell ds := one_based (Z.min 65535 (decimal ds)) in
  print (csi_text ds1 ds2 cmd) k m =
    (set_cursor (mul (of_Z (cell ds2)) (char_width 32 k)) (add (line_height k) (mul (of_Z (cell ds1)) (line_height k)))
       (set_csi [Z.min 65535 (decimal ds1); Z.min 65535 (decimal ds2); 0; 0] 2 k), m).
Proof.
  intros He Hd1 Hd2 Hcmd. cbv zeta.
  pose proof (csi_sequence ds1 ds2 cmd k m He Hd1 Hd2 ltac:(unfold is_digit; lia) ltac:(lia)) as Hp.
  destruct (csi_dispatch _ _ _) as [k' m'] eqn:Ed. rewrite Hp. clear Hp. revert Ed. unfold csi_dispatch.
  assert (((cmd =? 72) || (cmd =? 102)) = true) as -> by (destruct Hcmd as [-> | ->]; done).
  rewrite (proj2 (Z.eqb_neq cmd 74)), (proj2 (Z.eqb_neq cmd 75)) by lia. unfold one_based. intros [= <- <-]. destruct k. cbn in *. by subst.
Qed.

(** Cursor addressing.  From the normal state, [ESC \[ r ; c H] (or [f]) with any
    decimal digits for the row and the column, including none, draws nothing and moves
    the cursor to that cell: no digit is lost, the parameters saturate at 65535, the
    parser is back in its normal state, and cells are counted from one, a missing or
    zero parameter counting as one; the arithmetic on [f32] is exact. *)
Theorem csi_moves_cursor (ds1 ds2 : list Z) (cmd : Z) k m :
  escape_state k = Normal -> Forall is_digit ds1 -> Forall is_digit ds2 -> cmd = 72 \/ cmd = 102 ->
  let cell ds := one_based (Z.min 65535 (decimal ds)) in
  print (csi_text ds1 ds2 cmd) k m =
    (set_cursor (mul (of_Z (cell ds2)) (char_width 32 k)) (add (line_height k) (mul (of_Z (cell ds1)) (line_height k)))
       (set_csi [Z.min 65535 (decimal ds1); Z.min 65535 (decimal ds2); 0; 0] 2 k), m) /\
  forall ds, Forall is_digit ds -> cell ds = Z.max 1 (Z.min 65535 (decimal ds)) - 1.
Proof.
  intros He Hd1 Hd2 Hcmd. cbv zeta. split; [by apply csi_address|].
  intros ds Hds. pose proof (decimal_nonneg _ Hds). apply one_based_small. lia.
Qed.

(** * Text written below the screen *)

Definition screen_fb : FramebufferInfo := mkFb 2147483648 1228800 640 480 640 Bgr.

(** The built-in font's console on it, after the cursor was sent to row 100 of 17. *)
Definition below : Console := set_csi [100; 1; 0; 0] 2 (set_cursor zero (of_Z 2800) (new screen_fb None)).
Definition goto_row_100 : list Z := csi_text [49; 48; 48] [49] 72.

Lemma goto_below (m : Mem) : print goto_row_100 (new screen_fb None) m = (below, m).
Proof. vm_compute. reflexivity. Qed.

Definition printable (c : Z) : Prop := 32 <= c.

Lemma draw_glyph_hidden fb (c x y r g b : Z) (m : Mem) :
  width fb <= stride fb -> 0 <= x < 2 ^ 62 -> 0 <= y < 2 ^ 62 -> height fb <= y - ASCENT -> draw_glyph fb c x y r g b m = m.
Proof.
  intros Hw Hx Hy Hh. destruct (draw_glyph_paints fb c x y r g b m Hw Hx Hy) as (_ & _ & Hf).
  apply map_eq. intros a. apply Hf. intros x' y' (_ & Hy' & _) (_ & row & col & dy & dx & ? & ? & ? & ? & _ & _ & ->).
  unfold SCALE in *. lia.
Qed.

(** One character: a scroll by a text row, and the cursor stays where it is. *)
Lemma below_char (c : Z) (k : Console) (m : Mem) :
  printable c -> k = below \/ k = set_cursor (of_Z 14) (cursor_y below) below ->
  process_char c k m = (set_cursor (of_Z 14) (cursor_y below) below, scroll_up screen_fb 28 m).
Proof.
  unfold printable. intros Hc Hk.
  assert (process_char c k m = draw_char c k m) as ->.
  { unfold process_char. replace (escape_state k) with Normal by (destruct Hk as [-> | ->]; vm_compute; reflexivity).
    rewrite (proj2 (Z.eqb_neq c 10)), (proj2 (Z.eqb_neq c 13)), (proj2 (Z.eqb_neq c 8)), (proj2 (Z.eqb_neq c 27)) by lia. done. }
  set (kn := set_cursor zero (cursor_y below) below).
  unfold draw_char. replace (char_width c k) with (of_Z 14) by (destruct Hk as [-> | ->]; vm_compute; reflexivity).
  replace (ge (add (cursor_x k) (of_Z 14)) (of_Z (width (fb k)))) with false by (destruct Hk as [-> | ->]; vm_compute; reflexivity).
  replace (ge (add (cursor_y k) (font_descent k)) (of_Z (height (fb k)))) with true by (destruct Hk as [-> | ->]; vm_compute; reflexivity).
  assert (newline k m = (kn, scroll_up screen_fb 28 m)) as ->.
  { unfold newline. set (k1 := set_cursor zero _ k).
    replace (ge (cursor_y k1) (of_Z (height (fb k1)))) with true by (destruct Hk as [-> | ->]; vm_compute; reflexivity). cbv zeta.
    assert (fb k1 = screen_fb) as -> by (destruct Hk as [-> | ->]; vm_compute; reflexivity).
    set (px := Z.max _ 1). assert (px = 28) as -> by (destruct Hk as [-> | ->]; vm_compute; reflexivity).
    generalize (scroll_up screen_fb 28 m). intros m1. refine (f_equal (fun k => (k, m1)) _). destruct Hk as [-> | ->]; vm_compute; reflexivity. }
  generalize (scroll_up screen_fb 28 m). intros m1.
  assert (clear_cell kn (of_Z 14) m1 = m1) as ->.
  { unfold clear_cell. destruct (_ <? _); [|done]. unfold clear_rect. apply for_range_nil.
    transitivity 480; [apply Z.le_min_r|]. vm_compute. discriminate. }
  replace (font kn) with (@None Font) by (vm_compute; reflexivity).
  replace (text_color kn) with (255, 255, 255) by (vm_compute; reflexivity).
  replace (fb kn) with screen_fb by (vm_compute; reflexivity).
  replace (to_usize (cursor_x kn)) with 0 by (vm_compute; reflexivity).
  replace (to_usize (cursor_y kn)) with 2800 by (vm_compute; reflexivity).
  rewrite draw_glyph_hidden by (unfold ASCENT, SCALE; cbn; lia).
  refine (f_equal (fun k => (k, m1)) _). vm_compute. reflexivity.
Qed.

(** Text whose every character only scrolls. *)
Lemma scrolling_text (P : Console -> Prop) (text : list Z) (k : Console) (m : Mem) :
  (forall c k m, printable c -> P k -> exists k', process_char c k m = (k', scroll_up screen_fb 28 m) /\ P k') ->
  Forall printable text -> P k ->
  P (print text k m).1 /\
  forall x y, visible screen_fb x y ->
    px screen_fb (print text k m).2 x y =
      if y + 28 * Z.of_nat (length text) <? 480 then px screen_fb m x (y + 28 * Z.of_nat (length text)) else (0, 0, 0, 0).
Proof.
  intros Hstep Ht. revert k m. induction Ht as [|c text Hc Ht IH]; intros k m Hk.
  - split; [done|]. intros x y (_ & Hy & _). change (length []) with 0%nat. change (print [] k m).2 with m.
    change (height screen_fb) with 480 in Hy. replace (y + 28 * Z.of_nat 0) with y by lia. by rewrite (proj2 (Z.ltb_lt y 480)) by lia.
  - destruct (Hstep c k m Hc Hk) as (k' & Hp & Hk'). rewrite (print_cons _ _ _ _ _ _ Hp).
    destruct (IH k' (scroll_up screen_fb 28 m) Hk') as [HP Hpx]. split; [done|]. intros x y Hv. rewrite Hpx by done.
    clear -Hv. change (length (c :: text)) with (S (length text)). pose proof Hv as (Hx & Hy & Hs).
    assert (wf screen_fb) as Hwf by (unfold wf; cbn; lia).
    destruct (scroll_up_px screen_fb 28 m Hwf ltac:(lia)) as [Hsc _]. change (height screen_fb) with 480 in *. change (width screen_fb) with 640 in *.
    destruct (y + 28 * Z.of_nat (length text) <? 480) eqn:E1; zbool.
    + rewrite Hsc by (unfold visible; cbn; lia). change (height screen_fb) with 480.
      replace (y + 28 * Z.of_nat (length text) + 28) with (y + 28 * Z.of_nat (S (length text))) by lia. done.
    + by rewrite (proj2 (Z.ltb_ge (y + 28 * Z.of_nat (S (length text))) 480)) by lia.
Qed.

(** Text sent below the screen wipes it.  Cursor addressing does not stop at the
    last row.  On a 640 by 480 screen with the built-in font, once the cursor was sent
    to row 100, no character printed without moving it again appears: each one scrolls
    the whole screen up by a text row and leaves the cursor where it was, so that after
    18 characters nothing is left of what was shown. *)
Theorem text_below_screen_lost (text : list Z) (m : Mem) :
  Forall printable text -> (18 <= length text)%nat ->
  let r := print (goto_row_100 ++ text) (new screen_fb None) m in
  cursor_y r.1 = of_Z 2800 /\ forall x y, visible screen_fb x y -> px screen_fb r.2 x y = (0, 0, 0, 0).
Proof.
  intros Ht Hn r. subst r. rewrite print_app, goto_below. cbn [fst snd].
  destruct (scrolling_text (fun k => k = below \/ k = set_cursor (of_Z 14) (cursor_y below) below) text below m) as [Hc Hp].
  - intros c k m' Hc Hk. exists (set_cursor (of_Z 14) (cursor_y below) below). split; [by apply below_char|by right].
  - done.
  - by left.
  - split; [destruct Hc as [Hc|Hc]; rewrite Hc; cbn [cursor_y set_cursor]; exact eq_refl|]. intros x y Hv. rewrite (Hp x y Hv). destruct Hv as (_ & Hy & _).
    change (height screen_fb) with 480 in Hy. by rewrite (proj2 (Z.ltb_ge (y + 28 * Z.of_nat (length text)) 480)) by lia.
Qed.

(** * The built-in font, drawn *)

(** The console with the built-in font, its cursor on the pixel [x] of the baseline [y],
    on a screen whose coordinates binary32 holds exactly. *)
Record on_grid (k : Console) (x y : Z) : Prop := {
  og_font : font k = None;
  og_height : line_height k = fz CHAR_HEIGHT;
  og_descent : font_descent k = fz (CHAR_HEIGHT - ASCENT);
  og_x : cursor_x k = fz x;
  og_y : cursor_y k = fz y;
  og_normal : escape_state k = Normal;
  og_fb : wf (fb k) /\ width (fb k) < 2 ^ 20 /\ height (fb k) < 2 ^ 20;
  og_range : 0 <= x < 2 ^ 20 /\ 0 <= y < 2 ^ 20;
}.

Lemma new_on_grid f : wf f -> width f < 2 ^ 20 -> height f < 2 ^ 20 -> on_grid (new f None) 0 28.
Proof. intros. split; try done; vm_compute; split; (done || reflexivity || intros ?; discriminate). Qed.

Lemma on_grid_move k x y x' y' : on_grid k x y -> 0 <= x' < 2 ^ 20 -> 0 <= y' < 2 ^ 20 -> on_grid (set_cursor (fz x') (fz y') k) x' y'.
Proof. by intros [] Hx Hy. Qed.

Lemma paints_other fb c S m m' x y : width fb <= stride fb -> paints fb c S m m' -> visible fb x y -> ~ S x y -> px fb m' x y = px fb m x y.
Proof.
  intros Hw (_ & _ & H3) Hv Hn. unfold px, rd.
  assert (forall a, addr fb x y <= a < addr fb x y + 4 -> m' !! a = m !! a) as Ha; [|by rewrite !Ha by lia].
  intros a Ha. apply H3. intros x' y' Hv' Hs Ha'. destruct (addr_inj fb x y x' y' a) as [-> ->]; done.
Qed.

Lemma clear_rect_paints k (x y w h : Z) m :
  width (fb k) <= stride (fb k) -> 0 <= x -> 0 <= w -> 0 <= y -> 0 <= h -> x + w < 2 ^ 63 -> y + h < 2 ^ 63 ->
  paints (fb k) (colour (fb k) 0 0 0) (fun x' y' => x <= x' < x + w /\ y <= y' < y + h) m (clear_rect k x y w h m).
Proof.
  intros Hw Hx Hw0 Hy Hh Hxw Hyh. unfold clear_rect. rewrite !wrap64_small by (unfold is_u64; rewrite u64_bound_val; change (2 ^ 63) with 9223372036854775808 in *; lia).
  eapply (paints_for (fb k) _ _ (fun py x' y' => x <= x' < x + w /\ y' = py)).
  - intros py m1 Hpy. eapply (paints_for (fb k) _ _ (fun px x' y' => x' = px /\ y' = py)).
    + intros px m2 Hpx. apply write_pixel_paints; lia.
    + intros x' y' (? & _). split; [intros [? ->]; exists x'; split; [lia|done]|intros (? & ? & -> & ->); split; [lia|done]].
  - intros x' y' (_ & ? & _). split; [intros [? ?]; exists y'; split; [lia|done]|intros (? & ? & ? & ->); lia].
Qed.

(** The pixel [(dx, dy)] of the cell of a character. *)
Definition glyph_bit (c dx dy : Z) : bool := (0x20 <=? c mod 256) && (c mod 256 <=? 0x7E) && font_bit (c mod 256) (dy / SCALE) (dx / SCALE).
Definition in_box (x w y h x' y' : Z) : bool := (x <=? x') && (x' <? x + w) && (y <=? y') && (y' <? y + h).

Lemma in_box_spec x w y h x' y' : in_box x w y h x' y' = true <-> (x <= x' < x + w /\ y <= y' < y + h).
Proof. unfold in_box. rewrite !andb_true_iff, !Z.leb_le, !Z.ltb_lt. lia. Qed.

Lemma glyph_set (c x top x' y' : Z) :
  (0x20 <= c mod 256 <= 0x7E /\ exists row col dy dx, 0 <= row < GLYPH_HEIGHT /\ 0 <= col < GLYPH_WIDTH /\
     0 <= dy < SCALE /\ 0 <= dx < SCALE /\ font_bit (c mod 256) row col = true /\ x' = x + col * SCALE + dx /\ y' = top + row * SCALE + dy) <->
  in_box x CHAR_WIDTH top CHAR_HEIGHT x' y' = true /\ glyph_bit c (x' - x) (y' - top) = true.
Proof.
  rewrite in_box_spec. unfold glyph_bit. rewrite !andb_true_iff, !Z.leb_le.
  unfold CHAR_WIDTH, CHAR_HEIGHT, GLYPH_HEIGHT, GLYPH_WIDTH, SCALE. split.
  - intros (Hc & row & col & dy & dx & Hr & Hcol & Hdy & Hdx & Hb & -> & ->). split; [lia|]. split; [done|].
    replace (x + col * 2 + dx - x) with (dx + col * 2) by lia. replace (top + row * 2 + dy - top) with (dy + row * 2) by lia.
    rewrite !Z.div_add, !(Z.div_small _ 2), !Z.add_0_l by lia. done.
  - intros (Hbox & Hc & Hb). split; [done|]. pose proof (Z.div_mod (x' - x) 2 ltac:(lia)). pose proof (Z.div_mod (y' - top) 2 ltac:(lia)).
    pose proof (Z.mod_pos_bound (x' - x) 2 ltac:(lia)). pose proof (Z.mod_pos_bound (y' - top) 2 ltac:(lia)).
    exists ((y' - top) / 2), ((x' - x) / 2), ((y' - top) mod 2), ((x' - x) mod 2). split_and!; (done || lia).
Qed.

(** A character that fits to the right of the cursor: the new pixels. *)
Definition char_px k (c x y x' y' : Z) (old : Z * Z * Z * Z) : Z * Z * Z * Z :=
  let '(r, g, b) := text_color k in
  if in_box x CHAR_WIDTH (y - ASCENT) CHAR_HEIGHT x' y' && glyph_bit c (x' - x) (y' - (y - ASCENT)) then colour (fb k) r g b
  else if in_box x (CHAR_WIDTH + 1) (y - ASCENT) (CHAR_HEIGHT + 1) x' y' then (0, 0, 0, 0) else old.

Lemma clear_cell_grid k x y m :
  on_grid k x y -> x + 14 < width (fb k) -> 22 <= y -> y + 6 < height (fb k) ->
  paints (fb k) (0, 0, 0, 0) (fun x' y' => x <= x' < x + 15 /\ y - 22 <= y' < y - 22 + 29) m (clear_cell k (fz 14) m).
Proof.
  intros [_ Hlh Hd Hx Hy _ (Hwf & Hw & Hh) [Rx Ry]] H1 H2 H3. unfold clear_cell, cell_height, cell_top. rewrite Hx, Hy, Hlh, Hd.
  change (CHAR_HEIGHT - ASCENT) with 6. change CHAR_HEIGHT with 28. change (2 ^ 20) with 1048576 in *.
  rewrite (sub_exact 28) by (change (2 ^ 24) with 16777216; lia). rewrite (sub_exact y) by (change (2 ^ 24) with 16777216; lia). rewrite <- fz_0, max_exact by (change (2 ^ 24) with 16777216; lia).
  rewrite !to_usize_exact by (change (2 ^ 24) with 16777216; lia). rewrite (proj2 (Z.ltb_lt x _)) by lia.
  rewrite !wrap64_small by (unfold is_u64; rewrite u64_bound_val; lia).
  replace (Z.max (y - (28 - 6)) 0) with (y - 22) by lia. replace (Z.max (Z.max 0 (Z.min (y + 6 + 1) (height (fb k)) - (y - 22))) 1) with 29 by lia.
  replace (Z.min (14 + 1) (width (fb k) - x)) with 15 by lia.
  assert (colour (fb k) 0 0 0 = (0, 0, 0, 0)) as <- by (unfold colour; by destruct (pixel_format _)).
  apply clear_rect_paints; change (2 ^ 63) with 9223372036854775808; destruct Hwf; lia.
Qed.

Lemma draw_char_grid k (c x y : Z) m :
  on_grid k x y -> x + 14 < width (fb k) -> 22 <= y -> y + 6 < height (fb k) ->
  (draw_char c k m).1 = set_cursor (fz (x + 14)) (fz y) k /\
  forall x' y', visible (fb k) x' y' -> px (fb k) (draw_char c k m).2 x' y' = char_px k c x y x' y' (px (fb k) m x' y').
Proof.
  intros Hg H1 H2 H3. pose proof (clear_cell_grid k x y m Hg H1 H2 H3) as Hclear.
  destruct Hg as [Hf Hlh Hd Hx Hy _ (Hwf & Hw & Hh) [Rx Ry]]. change (2 ^ 20) with 1048576 in *.
  assert (draw_char c k m = (set_cursor (fz (x + 14)) (fz y) k,
            let '(r, g, b) := text_color k in draw_glyph (fb k) c x y r g b (clear_cell k (fz 14) m))) as ->.
  { unfold draw_char, char_width. rewrite Hf, Hx. change CHAR_WIDTH with 14.
    rewrite !of_Z_exact by (change (2 ^ 24) with 16777216; destruct Hwf; lia).
    rewrite add_exact, ge_exact by (change (2 ^ 24) with 16777216; destruct Hwf; lia).
    rewrite (proj2 (Z.leb_gt _ (x + 14))), Hy, Hd by lia. change (CHAR_HEIGHT - ASCENT) with 6.
    rewrite of_Z_exact, add_exact, ge_exact by (change (2 ^ 24) with 16777216; destruct Hwf; lia).
    rewrite (proj2 (Z.leb_gt _ (y + 6))), Hf, Hx, Hy by lia.
    rewrite add_exact, !to_usize_exact by (change (2 ^ 24) with 16777216; lia). done. }
  cbn [fst snd]. split; [done|]. intros x' y' Hv. unfold char_px. destruct (text_color k) as [[r g] b].
  pose proof (draw_glyph_paints (fb k) c x y r g b (clear_cell k (fz 14) m) ltac:(apply Hwf) ltac:(change (2 ^ 62) with 4611686018427387904; lia)
    ltac:(change (2 ^ 62) with 4611686018427387904; lia)) as Hglyph.
  assert (width (fb k) <= stride (fb k)) as Hws by apply Hwf.
  assert (Z.max 0 (y - ASCENT) = y - ASCENT) as Htop by (change ASCENT with 22; lia). rewrite Htop in Hglyph.
  pose proof (paints_iff _ _ _ _ _ _ (fun x' y' _ => glyph_set c x (y - ASCENT) x' y') Hglyph) as Hp. clear Hglyph.
  destruct (in_box x CHAR_WIDTH _ _ x' y' && glyph_bit _ _ _) eqn:E.
  { apply andb_true_iff in E. by apply (proj1 Hp). }
  rewrite (paints_other _ _ _ _ _ _ _ Hws Hp Hv).
  - destruct (in_box x (CHAR_WIDTH + 1) _ _ x' y') eqn:E2.
    + apply (proj1 Hclear); [done|]. apply in_box_spec in E2. change CHAR_WIDTH with 14 in E2. change CHAR_HEIGHT with 28 in E2. change ASCENT with 22 in E2. lia.
    + apply (paints_other _ _ _ _ _ _ _ Hws Hclear Hv). intros Hin. apply not_true_iff_false in E2. apply E2. apply in_box_spec.
      change CHAR_WIDTH with 14. change CHAR_HEIGHT with 28. change ASCENT with 22. lia.
  - intros [Hb1 Hb2]. by rewrite Hb1, Hb2 in E.
Qed.

(** A line of text: what the pixels of the row show afterwards. *)
Definition line_px k (text : list Z) (x y x' y' : Z) (old : Z * Z * Z * Z) : Z * Z * Z * Z :=
  let n := Z.of_nat (length text) in
  let '(r, g, b) := text_color k in
  if in_box x (n * CHAR_WIDTH) (y - ASCENT) CHAR_HEIGHT x' y' then
    if glyph_bit (default 0 (text !! Z.to_nat ((x' - x) / CHAR_WIDTH))) ((x' - x) mod CHAR_WIDTH) (y' - (y - ASCENT))
    then colour (fb k) r g b else (0, 0, 0, 0)
  else if in_box x (n * CHAR_WIDTH + 1) (y - ASCENT) (CHAR_HEIGHT + 1) x' y' && (0 <? n) then (0, 0, 0, 0) else old.

(** The first character, then the line after it. *)
Lemma line_px_cons k (c : Z) (text : list Z) (x y x' y' : Z) old :
  line_px k text (x + 14) y x' y' (char_px k c x y x' y' old) = line_px k (c :: text) x y x' y' old.
Proof.
  unfold line_px, char_px. destruct (text_color k) as [[r g] b]. change CHAR_WIDTH with 14. change CHAR_HEIGHT with 28. change ASCENT with 22.
  change (length (c :: text)) with (S (length text)). set (n := length text).
  destruct (Z.le_gt_cases (x + 14) x') as [Hx|Hx].
  - assert (in_box x 14 (y - 22) 28 x' y' = false) as -> by (apply not_true_iff_false; rewrite in_box_spec; lia). cbn [andb].
    assert (in_box x (Z.of_nat (S n) * 14) (y - 22) 28 x' y' = in_box (x + 14) (Z.of_nat n * 14) (y - 22) 28 x' y') as ->
      by (apply eq_true_iff_eq; rewrite !in_box_spec; lia).
    replace (x' - (x + 14)) with (x' - x + (-1) * 14) by lia. rewrite Z.div_add, Z.mod_add by lia.
    destruct (in_box (x + 14) (Z.of_nat n * 14) (y - 22) 28 x' y') eqn:Eb.
    + apply in_box_spec in Eb. assert (1 <= (x' - x) / 14) by (apply Z.div_le_lower_bound; lia).
      replace (Z.to_nat ((x' - x) / 14)) with (S (Z.to_nat ((x' - x) / 14 + -1))) by lia. done.
    + destruct (in_box x (14 + 1) (y - 22) (28 + 1) x' y') eqn:E1.
      * assert (in_box x (Z.of_nat (S n) * 14 + 1) (y - 22) (28 + 1) x' y' && (0 <? Z.of_nat (S n)) = true) as ->; [|by destruct (_ && _)].
        apply in_box_spec in E1. rewrite andb_true_iff, in_box_spec, Z.ltb_lt. lia.
      * assert (in_box x (Z.of_nat (S n) * 14 + 1) (y - 22) (28 + 1) x' y' && (0 <? Z.of_nat (S n)) =
                in_box (x + 14) (Z.of_nat n * 14 + 1) (y - 22) (28 + 1) x' y' && (0 <? Z.of_nat n)) as ->; [|done].
        apply not_true_iff_false in E1. rewrite in_box_spec in E1. apply eq_true_iff_eq. rewrite !andb_true_iff, !in_box_spec, !Z.ltb_lt. lia.
  - assert (forall w h, in_box (x + 14) w (y - 22) h x' y' = false) as Hb by (intros; apply not_true_iff_false; rewrite in_box_spec; lia). rewrite !Hb. cbn [andb].
    assert (in_box x (Z.of_nat (S n) * 14) (y - 22) 28 x' y' = in_box x 14 (y - 22) 28 x' y') as -> by (apply eq_true_iff_eq; rewrite !in_box_spec; lia).
    assert (in_box x (Z.of_nat (S n) * 14 + 1) (y - 22) (28 + 1) x' y' && (0 <? Z.of_nat (S n)) = in_box x (14 + 1) (y - 22) (28 + 1) x' y') as ->
      by (apply eq_true_iff_eq; rewrite !andb_true_iff, !in_box_spec, Z.ltb_lt; lia).
    destruct (in_box x 14 (y - 22) 28 x' y') eqn:E; [|done]. apply in_box_spec in E.
    rewrite Z.div_small, Z.mod_small by lia. change (default 0 ((c :: text) !! Z.to_nat 0)) with c. cbn [andb].
    assert (in_box x (14 + 1) (y - 22) (28 + 1) x' y' = true) as -> by (rewrite in_box_spec; lia). done.
Qed.

Lemma print_line k (text : list Z) x y m :
  on_grid k x y -> Forall printable text -> x + 14 * Z.of_nat (length text) < width (fb k) -> 22 <= y -> y + 6 < height (fb k) ->
  (print text k m).1 = set_cursor (fz (x + 14 * Z.of_nat (length text))) (fz y) k /\
  forall x' y', visible (fb k) x' y' -> px (fb k) (print text k m).2 x' y' = line_px k text x y x' y' (px (fb k) m x' y').
Proof.
  intros Hg Ht. revert k x m Hg. induction Ht as [|c text Hc Ht IH]; intros k x m Hg Hx Hy Hh.
  - split.
    + change (print [] k m).1 with k. change (length []) with 0%nat. replace (x + 14 * Z.of_nat 0) with x by lia.
      destruct Hg as [_ _ _ <- <- _ _ _]. by destruct k.
    + intros x' y' _. change (print [] k m).2 with m. unfold line_px. change (length []) with 0%nat. destruct (text_color k) as [[r g] b].
      assert (in_box x (Z.of_nat 0 * CHAR_WIDTH) (y - ASCENT) CHAR_HEIGHT x' y' = false) as -> by (apply not_true_iff_false; rewrite in_box_spec; lia).
      cbn [Z.of_nat Z.ltb Z.compare]. by rewrite andb_false_r.
  - change (length (c :: text)) with (S (length text)) in *. destruct (draw_char_grid k c x y m Hg ltac:(lia) Hy Hh) as [Hk Hp].
    assert (process_char c k m = draw_char c k m) as Hpc.
    { unfold process_char. rewrite (og_normal _ _ _ Hg). unfold printable in Hc. by rewrite !(proj2 (Z.eqb_neq c _)) by lia. }
    destruct (draw_char c k m) as [k1 m1] eqn:Ed. cbn [fst snd] in *. rewrite (print_cons _ _ _ _ _ _ Hpc). subst k1.
    assert (width (fb k) < 2 ^ 20) as Hw by apply Hg.
    assert (0 <= x /\ 0 <= y < 2 ^ 20) as [Hx0 Hy0] by (destruct Hg as [_ _ _ _ _ _ _ ?]; lia).
    assert (on_grid (set_cursor (fz (x + 14)) (fz y) k) (x + 14) y) as Hg1 by (eapply on_grid_move; [exact Hg|lia|done]).
    destruct (IH _ (x + 14) m1 Hg1) as [H1 H2]; cbn [fb set_cursor] in *; [lia|done|done|]. split.
    + rewrite H1. unfold set_cursor. cbn. do 2 f_equal. lia.
    + intros x' y' Hv. rewrite (H2 x' y' Hv), (Hp x' y' Hv). exact (line_px_cons k c text x y x' y' _).
Qed.

(** Text at a cell.  With the built-in font, on any screen of less than 2^20
    pixels a side and from any cursor position on its pixel grid, sending the cursor
    to a cell and printing a line that fits there shows exactly the glyphs of the line
    in its cells, white on black, leaves the cursor after the last one, and changes
    nothing else on the screen but a border one pixel wide to the right of the line
    and below it, which turns black. *)
Theorem text_at_cell_drawn k (x y : Z) (ds1 ds2 text : list Z) m :
  on_grid k x y -> Forall is_digit ds1 -> Forall is_digit ds2 -> Forall printable text ->
  let cell ds := Z.max 1 (Z.min 65535 (decimal ds)) - 1 in
  let tx := CHAR_WIDTH * cell ds2 in
  let ty := CHAR_HEIGHT + CHAR_HEIGHT * cell ds1 in
  tx + CHAR_WIDTH * Z.of_nat (length text) < width (fb k) -> ty + (CHAR_HEIGHT - ASCENT) < height (fb k) ->
  let r := print (csi_text ds1 ds2 72 ++ text) k m in
  on_grid r.1 (tx + CHAR_WIDTH * Z.of_nat (length text)) ty /\
  forall x' y', visible (fb k) x' y' -> px (fb k) r.2 x' y' = line_px k text tx ty x' y' (px (fb k) m x' y').
Proof.
  intros Hg Hd1 Hd2 Ht cell tx ty Hw Hh r. subst r. rewrite print_app.
  pose proof (decimal_nonneg _ Hd1). pose proof (decimal_nonneg _ Hd2).
  assert (0 <= cell ds1 /\ 0 <= cell ds2) as [Hc1 Hc2] by (subst cell; cbn; lia).
  assert (width (fb k) < 2 ^ 20 /\ height (fb k) < 2 ^ 20) as [Hw0 Hh0] by apply Hg.
  change CHAR_WIDTH with 14 in *. change (CHAR_HEIGHT - ASCENT) with 6 in *. change CHAR_HEIGHT with 28 in *. change (2 ^ 20) with 1048576 in *.
  assert (print (csi_text ds1 ds2 72) k m =
    (set_cursor (fz tx) (fz ty) (set_csi [Z.min 65535 (decimal ds1); Z.min 65535 (decimal ds2); 0; 0] 2 k), m)) as ->.
  { rewrite (csi_address ds1 ds2 72 k m (og_normal _ _ _ Hg) Hd1 Hd2 ltac:(lia)). unfold char_width.
    rewrite !one_based_small, (og_font _ _ _ Hg), (og_height _ _ _ Hg) by lia. fold (cell ds1) (cell ds2). change CHAR_WIDTH with 14. change CHAR_HEIGHT with 28.
    rewrite !of_Z_exact, !mul_exact, add_exact by (change (2 ^ 24) with 16777216; lia).
    rewrite (Z.mul_comm (cell ds2)), (Z.mul_comm (cell ds1)). done. }
  cbn [fst snd]. set (k1 := set_cursor _ _ _).
  assert (on_grid k1 tx ty) as Hg1.
  { subst k1. eapply on_grid_move; [|change (2 ^ 20) with 1048576; lia|change (2 ^ 20) with 1048576; lia]. instantiate (1 := y). instantiate (1 := x).
    destruct Hg. by split. }
  destruct (print_line k1 text tx ty m Hg1 Ht) as [HA HB]; [done|lia|done|]. split; [|done].
  rewrite HA. eapply on_grid_move; [exact Hg1| |]; change (2 ^ 20) with 1048576; lia.
Qed.

(** ** Sequences with one parameter *)

Lemma csi_single (ds : list Z) (cmd : Z) k m :
  escape_state k = Normal -> Forall is_digit ds -> ~ is_digit cmd -> cmd <> 59 ->
  let '(k', m') := csi_dispatch cmd (set_csi [Z.min 65535 (decimal ds); 0; 0; 0] 1 (set_escape Csi k)) m in
  print (27 :: 91 :: ds ++ [cmd]) k m = (set_escape Normal k', m').
Proof.
  intros He Hd Hn H59. unfold is_digit in Hn. destruct (csi_dispatch _ _ _) as [k' m'] eqn:Ed.
  erewrite print_cons by (unfold process_char; rewrite He; reflexivity).
  erewrite print_cons by (unfold process_char; cbn [escape_state set_escape]; reflexivity).
  set (k1 := set_escape Csi _). rewrite print_app. rewrite (print_digits ds k1 m 0 0) by (done || lia). cbn [fst snd].
  unfold print. cbn [foldl]. unfold process_char. cbn [escape_state set_csi set_escape k1].
  replace ((48 <=? cmd) && (cmd <=? 57)) with false by (destruct (48 <=? cmd) eqn:E1, (cmd <=? 57) eqn:E2; zbool; cbn; (done || lia)).
  rewrite (proj2 (Z.eqb_neq cmd 59)) by done. cbn [csi_params csi_param_count set_csi set_escape insert list_insert].
  match goal with |- context [csi_dispatch cmd ?x m] => change x with (set_csi [Z.min 65535 (decimal ds); 0; 0; 0] 1 (set_escape Csi k)) end.
  by rewrite Ed.
Qed.

(** The parameters are left over. *)
Lemma on_grid_csi k x y ps n : on_grid k x y -> on_grid (set_csi ps n k) x y.
Proof. by intros []. Qed.

Lemma escape_back k ps n : escape_state k = Normal -> set_escape Normal (set_csi ps n (set_escape Csi k)) = set_csi ps n k.
Proof. destruct k. cbn. by intros ->. Qed.

(** [ESC \[ K] at the left margin blanks the row. *)
Lemma erase_row_grid k y m :
  on_grid k 0 y -> 0 < width (fb k) -> 22 <= y -> y + 6 < height (fb k) ->
  (print [27; 91; 75] k m).1 = set_csi [0; 0; 0; 0] 1 k /\
  forall x' y', visible (fb k) x' y' -> px (fb k) (print [27; 91; 75] k m).2 x' y' =
    if (y - ASCENT <=? y') && (y' <? y - ASCENT + (CHAR_HEIGHT + 1)) then (0, 0, 0, 0) else px (fb k) m x' y'.
Proof.
  intros Hg Hw0 Hy Hh. pose proof (csi_single [] 75 k m (og_normal _ _ _ Hg) ltac:(constructor) ltac:(unfold is_digit; lia) ltac:(lia)) as Hp.
  change (csi_dispatch 75 ?k0 m) with (k0, erase_to_end_of_line k0 m) in Hp. change ([] ++ [75]) with [75] in Hp. rewrite Hp. cbn [fst snd].
  rewrite escape_back by apply Hg. split; [done|]. set (k1 := set_csi _ _ _).
  assert (erase_to_end_of_line k1 m = clear_rect k 0 (y - 22) (width (fb k)) 29 m) as ->.
  { destruct Hg as [_ Hlh Hd Hx0 Hy0 _ (Hwf & Hw & Hh0) [Rx Ry]]. change (2 ^ 20) with 1048576 in *.
    unfold erase_to_end_of_line, cell_height, cell_top. subst k1. cbn [cursor_x cursor_y line_height font_descent fb set_csi set_escape]. rewrite Hx0, Hy0, Hlh, Hd.
    change (CHAR_HEIGHT - ASCENT) with 6. change CHAR_HEIGHT with 28.
    rewrite (sub_exact 28) by (change (2 ^ 24) with 16777216; lia). rewrite (sub_exact y) by (change (2 ^ 24) with 16777216; lia).
    rewrite <- fz_0, max_exact by (change (2 ^ 24) with 16777216; lia). rewrite !to_usize_exact by (change (2 ^ 24) with 16777216; lia).
    rewrite (proj2 (Z.ltb_lt 0 _)), wrap64_small by (unfold is_u64; rewrite ?u64_bound_val; lia).
    replace (Z.max (y - (28 - 6)) 0) with (y - 22) by lia. replace (Z.max (Z.max 0 (Z.min (y + 6 + 1) (height (fb k)) - (y - 22))) 1) with 29 by lia.
    rewrite Z.sub_0_r. done. }
  intros x' y' Hv. change ASCENT with 22. change (CHAR_HEIGHT + 1) with 29. destruct Hg as [_ _ _ _ _ _ (Hwf & Hw & Hh0) [Rx Ry]]. change (2 ^ 20) with 1048576 in *.
  pose proof (clear_rect_paints k 0 (y - 22) (width (fb k)) 29 m ltac:(apply Hwf) ltac:(lia) ltac:(lia) ltac:(lia) ltac:(lia)
    ltac:(change (2 ^ 63) with 9223372036854775808; lia) ltac:(change (2 ^ 63) with 9223372036854775808; lia)) as Hc.
  destruct ((y - 22 <=? y') && (y' <? y - 22 + 29)) eqn:E.
  - assert (colour (fb k) 0 0 0 = (0, 0, 0, 0)) as <- by (unfold colour; by destruct (pixel_format _)). apply andb_true_iff in E as [E1 E2]. zbool.
    apply (proj1 Hc); [done|]. destruct Hv as (? & _). lia.
  - eapply paints_other; [apply Hwf|exact Hc|done|]. intros [_ Hin]. apply not_true_iff_false in E. apply E. rewrite andb_true_iff, Z.leb_le, Z.ltb_lt. lia.
Qed.

(** [ESC \[ n D] moves the cursor back by [n] cells. *)
Lemma cursor_back_grid k x y (ds : list Z) m :
  on_grid k x y -> Forall is_digit ds -> 1 <= decimal ds <= 65535 -> 14 * decimal ds <= x ->
  print (27 :: 91 :: ds ++ [68]) k m =
    (set_cursor (fz (x - 14 * decimal ds)) (fz y) (set_csi [decimal ds; 0; 0; 0] 1 k), m).
Proof.
  intros Hg Hd H1 Hx. pose proof (csi_single ds 68 k m (og_normal _ _ _ Hg) Hd ltac:(unfold is_digit; lia) ltac:(lia)) as Hp.
  destruct Hg as [Hf Hlh Hde Hx0 Hy0 Hn (Hwf & Hw & Hh0) [Rx Ry]]. change (2 ^ 20) with 1048576 in *.
  rewrite Z.min_r in Hp by lia. unfold csi_dispatch in Hp. cbn [Z.eqb Pos.eqb orb] in Hp. rewrite Hp. cbn [csi_params set_csi lookup list_lookup from_option id].
  unfold char_width. cbn [font set_csi set_escape cursor_x cursor_y]. rewrite Hf, Hx0, Hy0. change CHAR_WIDTH with 14.
  rewrite !of_Z_exact, max_exact, mul_exact, sub_exact by (change (2 ^ 24) with 16777216; lia). rewrite <- fz_0, max_exact by (change (2 ^ 24) with 16777216; lia).
  replace (Z.max (decimal ds) 1 * 14) with (14 * decimal ds) by lia. rewrite Z.max_l by lia.
  destruct k. cbn in *. by subst.
Qed.

Module Example.
Import Framebuffer.Example.

Definition k0 : Console := new fb0 None.
Lemma k0_kwf : kwf k0.
Proof. split; cbn; [apply fb0_wf|split; [done|repeat constructor; lia]|lia|done]. Qed.

Definition s0 : State := mkState (Some k0) (mkPos zero zero zero) ∅.

Lemma console_stays_inside_witness :
  inside fb0 ∅ (memory (foldl (fun s o => run_op o s) s0 [OPrint [72; 105; 10]; OClearRect 3 3 900 900; OArgs [[27; 91; 57]; [74; 65]] true])).
Proof.
  apply (console_stays_inside [OPrint [72; 105; 10]; OClearRect 3 3 900 900; OArgs [[27; 91; 57]; [74; 65]] true] s0 k0);
    [reflexivity|exact k0_kwf|repeat constructor; lia].
Defined.

(** [ESC \[ 2 ; H] *)
Lemma csi_moves_cursor_witness :
  cursor_y (print (csi_text [50] [] 72) k0 ∅).1 = of_Z 56 /\ cursor_x (print (csi_text [50] [] 72) k0 ∅).1 = zero.
Proof.
  destruct (csi_moves_cursor [50] [] 72 k0 ∅ eq_refl ltac:(repeat constructor; lia) ltac:(constructor) ltac:(lia)) as [Hp _].
  rewrite Hp. split; vm_compute; reflexivity.
Defined.

Lemma text_below_screen_lost_witness : px screen_fb (print (goto_row_100 ++ replicate 20 65) (new screen_fb None) ∅).2 0 0 = (0, 0, 0, 0).
Proof.
  apply (text_below_screen_lost (replicate 20 65) ∅); [repeat constructor; unfold printable; lia|cbn; lia|].
  unfold visible. cbn. lia.
Defined.
(** A 'T' in the first cell of the second row. *)
Lemma text_at_cell_drawn_witness :
  px screen_fb (print (csi_text [50] [] 72 ++ [84]) (new screen_fb None) ∅).2 0 38 = (255, 255, 255, 0).
Proof.
  destruct (text_at_cell_drawn (new screen_fb None) 0 28 [50] [] [84] ∅) as [_ Hp].
  - apply new_on_grid; [unfold wf; cbn; lia|cbn; lia|cbn; lia].
  - repeat constructor; lia.
  - constructor.
  - repeat constructor. unfold printable. lia.
  - vm_compute. reflexivity.
  - vm_compute. reflexivity.
  - refine (eq_trans (Hp 0 38 _) _); [unfold visible; cbn; lia|vm_compute; reflexivity].
Defined.
End Example.

End Console.
