(* ===== verification/Kfs.v ===== *)
(** The boot image: [build_kfs] of [crates/kernel/build.rs], which writes the image at
    build time, against [Vfs.init], which reads it at boot. *)
From stdpp Require Import base list numbers option sets.
From S2P Require Import Prelude Str Vfs.

Open Scope Z_scope.

Module Kfs.
Import Vfs.

Record Entry := mkSource { path : str; data : list Z; flags : Z }.

Definition BIN : str := [47; 98; 105; 110].                                  (* "/bin" *)
Definition DRIVERS : str := [47; 100; 114; 105; 118; 101; 114; 115].         (* "/drivers" *)
Definition KXE : str := [46; 107; 120; 101].                                 (* ".kxe" *)
Definition KDM : str := [46; 107; 100; 109].                                 (* ".kdm" *)
Definition DRIVERS_LIST : str := DRIVERS ++ [47; 100; 114; 105; 118; 101; 114; 115; 46; 108; 105; 115; 116].

Definition is_file (e : Entry) : bool := negb (Z.land (flags e) FLAG_FILE =? 0).
Definition file_in (dir ext : str) (f : str * list Z) : Entry := mkSource (dir ++ [SLASH] ++ f.1 ++ ext) f.2 FLAG_FILE.

Definition sources (kxe_files kdm_files : list (str * list Z)) (drivers_list : list Z) : list Entry :=
  [mkSource ROOT [] FLAG_DIR; mkSource BIN [] FLAG_DIR] ++ (file_in BIN KXE <$> kxe_files) ++
  [mkSource DRIVERS [] FLAG_DIR] ++ (file_in DRIVERS KDM <$> kdm_files) ++
  (if bool_decide (drivers_list = []) then [] else [mkSource DRIVERS_LIST drivers_list FLAG_FILE]).

Definition zlen {A} (l : list A) : Z := Z.of_nat (length l).

(** One record of the table; [to_le] keeps the low bytes, as the [as] casts do. *)
Definition entry_bytes (path_offset data_offset : Z) (e : Entry) : list Z :=
  to_le 2 (zlen (path e)) ++ to_le 2 path_offset ++
  (if is_file e then to_le 8 data_offset ++ to_le 8 (zlen (data e)) else to_le 8 0 ++ to_le 8 0) ++
  to_le 4 (flags e) ++ to_le 4 0 ++ to_le 4 0.

Fixpoint table (path_offset data_offset : Z) (es : list Entry) : list Z :=
  match es with
  | [] => []
  | e :: es =>
      entry_bytes path_offset data_offset e ++
      table (path_offset + zlen (path e)) (if is_file e then data_offset + zlen (data e) else data_offset) es
  end.

Definition paths (es : list Entry) : list Z := es ≫= path.
Definition datas (es : list Entry) : list Z := es ≫= (fun e => if is_file e then data e else []).

Definition image_of (es : list Entry) : list Z :=
  let paths_size := zlen (paths es) in
  let data_offset := HEADER_SIZE + ENTRY_SIZE * zlen es + paths_size in
  MAGIC ++ to_le 4 VERSION ++ to_le 4 (zlen es) ++ replicate 16 0 ++ table 0 data_offset es ++ paths es ++ datas es.

Definition build_kfs (kxe_files kdm_files : list (str * list Z)) (drivers_list : list Z) : list Z :=
  image_of (sources kxe_files kdm_files drivers_list).

(** * Reading what was written *)

Lemma zlen_app {A} (a b : list A) : zlen (a ++ b) = zlen a + zlen b.
Proof. unfold zlen. rewrite length_app. lia. Qed.
Lemma zlen_nonneg {A} (a : list A) : 0 <= zlen a.
Proof. unfold zlen. lia. Qed.
Lemma zlen_to_le (n : nat) (v : Z) : zlen (to_le n v) = Z.of_nat n.
Proof. unfold zlen. by rewrite length_to_le. Qed.

Lemma get_range_app (a b c : list Z) (x y : Z) : x = zlen a -> y = x + zlen b -> get_range (a ++ b ++ c) x y = Some b.
Proof.
  intros -> ->. unfold get_range, zlen. rewrite !length_app.
  rewrite (proj2 (Z.leb_le _ _)), (proj2 (Z.leb_le _ (Z.of_nat _))) by lia. cbn [andb]. f_equal.
  replace (Z.to_nat (Z.of_nat (length a) + Z.of_nat (length b) - Z.of_nat (length a))) with (length b) by lia.
  rewrite Nat2Z.id, drop_app_length. apply take_app_length.
Qed.

Lemma read_le_app (n : nat) (v : Z) (a c image : list Z) (x : Z) :
  image = a ++ to_le n v ++ c -> x = zlen a -> 0 <= v < 256 ^ Z.of_nat n -> read_le (Z.of_nat n) image x = Some v.
Proof.
  intros -> Hx Hv. unfold read_le. rewrite (get_range_app _ _ _ x); [|done|by rewrite zlen_to_le]. cbn. by rewrite from_to_le.
Qed.

Lemma paths_app (a b : list Entry) : paths (a ++ b) = paths a ++ paths b.
Proof. apply bind_app. Qed.
Lemma datas_app (a b : list Entry) : datas (a ++ b) = datas a ++ datas b.
Proof. apply bind_app. Qed.

Lemma paths_cons (e : Entry) (b : list Entry) : paths (e :: b) = path e ++ paths b.
Proof. done. Qed.
Lemma datas_cons (e : Entry) (b : list Entry) : datas (e :: b) = (if is_file e then data e else []) ++ datas b.
Proof. done. Qed.

Lemma zlen_entry_bytes (p d : Z) (e : Entry) : zlen (entry_bytes p d e) = ENTRY_SIZE.
Proof. unfold entry_bytes. destruct (is_file e); rewrite !zlen_app, !zlen_to_le; done. Qed.

Lemma table_app (p d : Z) (a b : list Entry) :
  table p d (a ++ b) = table p d a ++ table (p + zlen (paths a)) (d + zlen (datas a)) b.
Proof.
  revert p d. induction a as [|e a IH]; intros p d; [cbn; unfold zlen; cbn; by rewrite !Z.add_0_r|].
  cbn [app table]. rewrite IH, <- app_assoc. do 2 f_equal. rewrite paths_cons, datas_cons, !zlen_app.
  destruct (is_file e); unfold zlen; cbn [length]; f_equal; lia.
Qed.

Lemma zlen_table (p d : Z) (es : list Entry) : zlen (table p d es) = ENTRY_SIZE * zlen es.
Proof.
  revert p d. induction es as [|e es IH]; intros p d; [done|]. cbn [table]. rewrite zlen_app, zlen_entry_bytes, IH.
  unfold zlen. cbn [length]. lia.
Qed.

(** What the writer must be able to express: names and offsets in 16 bits, flags that are
    one of the two. *)
Record fits (es : list Entry) : Prop := {
  fit_paths : zlen (paths es) < 2 ^ 16;
  fit_count : zlen es < 2 ^ 32;
  fit_size : zlen (image_of es) < 2 ^ 63;
  fit_flags : Forall (fun e => flags e = FLAG_DIR \/ flags e = FLAG_FILE) es;
}.

Definition header (es : list Entry) : list Z := MAGIC ++ to_le 4 VERSION ++ to_le 4 (zlen es) ++ replicate 16 0.
Definition data_start (es : list Entry) : Z := HEADER_SIZE + ENTRY_SIZE * zlen es + zlen (paths es).

Lemma image_eq (es : list Entry) : image_of es = header es ++ table 0 (data_start es) es ++ paths es ++ datas es.
Proof. unfold image_of, header, data_start. by rewrite <- !app_assoc. Qed.

Lemma zlen_header (es : list Entry) : zlen (header es) = HEADER_SIZE.
Proof. unfold header. rewrite !zlen_app, !zlen_to_le. done. Qed.

Lemma zlen_image (es : list Entry) : zlen (image_of es) = data_start es + zlen (datas es).
Proof. rewrite image_eq, !zlen_app, zlen_header, zlen_table. unfold data_start. lia. Qed.

(** ** One entry of the image *)

Section One.
Context (a b : list Entry) (e : Entry).
Notation es := (a ++ e :: b).
Hypothesis Hfits : fits es.

(** Where its data is, and what its record says of it. *)
Definition data_at : Z := data_start es + zlen (datas a).
Definition off : Z := if is_file e then data_at else 0.
Definition len : Z := if is_file e then zlen (data e) else 0.

Lemma zlen_es : zlen es = zlen a + 1 + zlen b.
Proof. rewrite zlen_app. unfold zlen. cbn [length]. lia. Qed.
Lemma zlen_paths_es : zlen (paths es) = zlen (paths a) + zlen (path e) + zlen (paths b).
Proof. rewrite paths_app, paths_cons, !zlen_app. lia. Qed.
Lemma zlen_datas_es : zlen (datas es) = zlen (datas a) + len + zlen (datas b).
Proof. unfold len. rewrite datas_app, datas_cons, !zlen_app. destruct (is_file e); [lia|]. change (zlen []) with 0. lia. Qed.

(** Everything in sight is a length; the image is below 2^63 bytes. *)
Lemma bounds :
  0 <= zlen a /\ 0 <= zlen b /\ 0 <= zlen (paths a) /\ zlen (paths a) < 65536 /\ 0 <= zlen (path e) < 65536 /\
  0 <= data_at /\ data_at + len < 2 ^ 63 /\ 0 <= len.
Proof using Hfits.
  destruct Hfits as [Hp _ Hs _]. rewrite zlen_image in Hs. pose proof zlen_es. pose proof zlen_paths_es. pose proof zlen_datas_es.
  pose proof (zlen_nonneg a). pose proof (zlen_nonneg b). pose proof (zlen_nonneg (paths a)). pose proof (zlen_nonneg (paths b)).
  pose proof (zlen_nonneg (path e)). pose proof (zlen_nonneg (datas a)). pose proof (zlen_nonneg (datas b)).
  assert (0 <= len) by (unfold len; destruct (is_file e); [apply zlen_nonneg|lia]).
  change (2 ^ 16) with 65536 in *. unfold data_at, data_start, HEADER_SIZE, ENTRY_SIZE in *. lia.
Qed.

Definition before_record : list Z := header es ++ table 0 (data_start es) a.
Definition after_record : list Z :=
  table (zlen (paths a) + zlen (path e)) (if is_file e then data_at + zlen (data e) else data_at) b ++ paths es ++ datas es.

Lemma image_record :
  image_of es = before_record ++ to_le 2 (zlen (path e)) ++ to_le 2 (zlen (paths a)) ++ to_le 8 off ++ to_le 8 len ++
                to_le 4 (flags e) ++ to_le 4 0 ++ to_le 4 0 ++ after_record.
Proof.
  rewrite image_eq, table_app. cbn [table]. rewrite Z.add_0_l. fold data_at. unfold entry_bytes, off, len, before_record, after_record.
  destruct (is_file e); by rewrite <- !app_assoc.
Qed.

Lemma zlen_before : zlen before_record = HEADER_SIZE + zlen a * ENTRY_SIZE.
Proof. unfold before_record. rewrite zlen_app, zlen_header, zlen_table. lia. Qed.

Lemma read_path : get_range (image_of es) (HEADER_SIZE + zlen es * ENTRY_SIZE + zlen (paths a))
                    (HEADER_SIZE + zlen es * ENTRY_SIZE + zlen (paths a) + zlen (path e)) = Some (path e).
Proof.
  replace (image_of es) with ((header es ++ table 0 (data_start es) es ++ paths a) ++ path e ++ paths b ++ datas es).
  - apply get_range_app; [|done]. rewrite (zlen_app (header es)), (zlen_app (table _ _ _)), zlen_header, zlen_table. lia.
  - rewrite image_eq. rewrite (paths_app a (e :: b)), paths_cons. by rewrite <- !app_assoc.
Qed.

Lemma read_data : is_file e = true -> get_range (image_of es) off (off + len) = Some (data e) /\ checked_add off len = Some (off + len).
Proof using Hfits.
  intros Hf. pose proof bounds as Hb. unfold off, len in *. rewrite Hf in *. split.
  - replace (image_of es) with ((header es ++ table 0 (data_start es) es ++ paths es ++ datas a) ++ data e ++ datas b).
    + apply get_range_app; [|done]. rewrite (zlen_app (header es)), (zlen_app (table _ _ _)), (zlen_app (paths _)), zlen_header, zlen_table.
      unfold data_at, data_start. lia.
    + rewrite image_eq. rewrite (datas_app a (e :: b)), datas_cons, Hf. by rewrite <- !app_assoc.
  - unfold checked_add. change (2 ^ 63) with 9223372036854775808 in *.
    destruct (_ <? u64_bound) eqn:E; [done|]. rewrite u64_bound_val in E. zbool. lia.
Qed.

(** The entry is read back as written. *)
Lemma read_entry_image :
  utf8_valid (path e) = true -> validate_path (path e) = true ->
  read_entry (image_of es) (HEADER_SIZE + zlen es * ENTRY_SIZE) (HEADER_SIZE + zlen a * ENTRY_SIZE) = Ok (path e, off, len, flags e).
Proof using Hfits.
  intros Hu Hv. pose proof bounds as Hb. pose proof zlen_before as Hz. pose proof image_record as Him.
  assert (0 <= flags e < 256 ^ Z.of_nat 4) as Hfl.
  { pose proof (fit_flags _ Hfits) as [_ [Hfe _]%Forall_cons_1]%Forall_app. unfold FLAG_DIR, FLAG_FILE in Hfe.
    change (256 ^ Z.of_nat 4) with 4294967296. lia. }
  assert (0 <= off < 256 ^ Z.of_nat 8 /\ 0 <= len < 256 ^ Z.of_nat 8) as [HX HY].
  { change (256 ^ Z.of_nat 8) with 18446744073709551616. change (2 ^ 63) with 9223372036854775808 in *.
    unfold off, len in *. destruct (is_file e); lia. }
  set (f1 := to_le 2 (zlen (path e))) in *. set (f2 := to_le 2 (zlen (paths a))) in *. set (f3 := to_le 8 off) in *. set (f4 := to_le 8 len) in *.
  set (base := HEADER_SIZE + zlen a * ENTRY_SIZE) in *.
  assert (zlen f1 = 2 /\ zlen f2 = 2 /\ zlen f3 = 8 /\ zlen f4 = 8) as (L1 & L2 & L3 & L4) by (subst f1 f2 f3 f4; by rewrite !zlen_to_le).
  assert (read_u16 (image_of es) base = Some (zlen (path e))) as R1.
  { eapply (read_le_app 2 _ before_record); [rewrite Him; reflexivity|lia|change (256 ^ Z.of_nat 2) with 65536; lia]. }
  assert (read_u16 (image_of es) (base + 2) = Some (zlen (paths a))) as R2.
  { eapply (read_le_app 2 _ (before_record ++ f1)); [rewrite Him; by rewrite <- !app_assoc|rewrite zlen_app; lia|change (256 ^ Z.of_nat 2) with 65536; lia]. }
  assert (read_u64 (image_of es) (base + 4) = Some off) as R3.
  { eapply (read_le_app 8 _ (before_record ++ f1 ++ f2)); [rewrite Him; by rewrite <- !app_assoc|rewrite !zlen_app; lia|done]. }
  assert (read_u64 (image_of es) (base + 12) = Some len) as R4.
  { eapply (read_le_app 8 _ (before_record ++ f1 ++ f2 ++ f3)); [rewrite Him; by rewrite <- !app_assoc|rewrite !zlen_app; lia|done]. }
  assert (read_u32 (image_of es) (base + 20) = Some (flags e)) as R5.
  { eapply (read_le_app 4 _ (before_record ++ f1 ++ f2 ++ f3 ++ f4)); [rewrite Him; by rewrite <- !app_assoc|rewrite !zlen_app; lia|done]. }
  unfold read_entry. by rewrite R1, R2, R3, R4, R5, read_path, Hu, Hv.
Qed.
End One.
(** * Building the tree *)

Definition slot_of (e : Entry) : Slot := mkSlot 0 (Some (mkNode (path e) (negb (is_file e)) (if is_file e then data e else []))).

Lemma find_slots (l : list Entry) (p : str) : p ∉ path <$> l -> find (slot_of <$> l) p = None.
Proof.
  intros Hp. unfold find. apply position_None. intros s (e & -> & He)%list_elem_of_fmap. unfold has_path. cbn.
  apply bool_decide_eq_false. intros <-. apply Hp. by apply list_elem_of_fmap_2.
Qed.

Lemma find_slots_Some (l : list Entry) (e : Entry) :
  e ∈ l -> NoDup (path <$> l) -> exists i, find (slot_of <$> l) (path e) = Some i /\ node_at (slot_of <$> l) i = node (slot_of e).
Proof.
  intros He Hnd. destruct (find (slot_of <$> l) (path e)) as [i|] eqn:Ef.
  - exists i. split; [done|]. destruct (vfs_find_Some _ _ _ Ef) as (n & Hn & Hp). unfold node_at in *.
    rewrite list_lookup_fmap in *. destruct (l !! i) as [e'|] eqn:Ei; [|done]. cbn in Hn. injection Hn as <-. cbn in Hp. cbn.
    apply list_elem_of_lookup in He as [j Hj].
    assert (i = j) as Hij; [|subst j; rewrite Ei in Hj; by injection Hj as ->]. apply (NoDup_lookup _ _ _ (path e) Hnd); rewrite list_lookup_fmap; [by rewrite Ei, <- Hp|by rewrite Hj].
  - exfalso. unfold find in Ef. rewrite position_None in Ef. specialize (Ef (slot_of e) (list_elem_of_fmap_2 _ _ _ He)).
    unfold has_path in Ef. cbn in Ef. by rewrite bool_decide_eq_true_2 in Ef.
Qed.

(** An entry may follow [a]: its directory is the root, or one of [a] directly below
    the root; its path is valid and new. *)
Record may_follow (a : list Entry) (e : Entry) : Prop := {
  mf_parent : parent_of (path e) = ROOT \/ parent_of (parent_of (path e)) = ROOT /\ parent_of (path e) ∈ path <$> a;
  mf_utf8 : utf8_valid (path e) = true;
  mf_valid : validate_path (path e) = true;
  mf_new : path e ∉ path <$> a;
}.

Lemma ensure_parents_id (a : list Entry) (e : Entry) : may_follow a e -> ensure_parents (slot_of <$> a) (path e) = slot_of <$> a.
Proof.
  intros [Hpar _ Hv _]. unfold ensure_parents. cbn [ensure_parents_fuel]. destruct (bool_decide (parent_of (path e) = ROOT)) eqn:Er; [done|].
  apply bool_decide_eq_false in Er. destruct Hpar as [?|[Hgp Hin]]; [done|].
  assert (path e <> []) as Hne by (intros E; by rewrite E in Hv).
  assert (ensure_parents_fuel (length (path e)) (slot_of <$> a) (parent_of (path e)) = slot_of <$> a) as ->.
  { destruct (length (path e)) as [|n]; [done|]. cbn [ensure_parents_fuel]. by rewrite bool_decide_eq_true_2. }
  destruct (find _ _) eqn:Ef; [done|]. exfalso. apply list_elem_of_fmap in Hin as (d & Hd & Hin). unfold find in Ef. rewrite position_None in Ef.
  specialize (Ef (slot_of d) (list_elem_of_fmap_2 _ _ _ Hin)). unfold has_path in Ef. cbn in Ef. by rewrite bool_decide_eq_true_2 in Ef.
Qed.

Lemma add_entry_image (a b : list Entry) (e : Entry) :
  fits (a ++ e :: b) -> may_follow a e ->
  add_entry (image_of (a ++ e :: b)) (HEADER_SIZE + zlen (a ++ e :: b) * ENTRY_SIZE) (HEADER_SIZE + zlen a * ENTRY_SIZE) (slot_of <$> a) =
    (Ok tt, slot_of <$> (a ++ [e])).
Proof.
  intros Hf Hm. unfold add_entry. rewrite read_entry_image by (done || by destruct Hm).
  rewrite ensure_parents_id, find_slots by (done || by destruct Hm). rewrite fmap_app. cbn [fmap list_fmap].
  pose proof (fit_flags _ Hf) as [_ [Hfl _]%Forall_cons_1]%Forall_app.
  fold (is_file e). destruct (is_file e) eqn:Ei.
  - destruct (read_data a b e Hf Ei) as [Hr Hc]. rewrite Hc. cbn [mbind option_bind]. rewrite Hr. unfold push, slot_of. by rewrite Ei.
  - unfold is_file in Ei. destruct Hfl as [Hfl|Hfl]; [|by rewrite Hfl in Ei]. rewrite Hfl. unfold push, slot_of, is_file. by rewrite Hfl.
Qed.

Fixpoint ordered (a b : list Entry) : Prop :=
  match b with [] => True | e :: b => may_follow a e /\ ordered (a ++ [e]) b end.

Lemma add_entries_image (a b : list Entry) :
  fits (a ++ b) -> ordered a b ->
  add_entries (length b) (zlen a) (image_of (a ++ b)) (HEADER_SIZE + zlen (a ++ b) * ENTRY_SIZE) (slot_of <$> a) = (Ok tt, slot_of <$> (a ++ b)).
Proof.
  revert a. induction b as [|e b IH]; intros a Hf Ho; [by rewrite app_nil_r|]. destruct Ho as [Hm Ho]. cbn [length add_entries].
  rewrite add_entry_image by done. specialize (IH (a ++ [e])). rewrite <- app_assoc in IH. cbn [app] in IH.
  replace (zlen a + 1) with (zlen (a ++ [e])) by (rewrite zlen_app; done). by apply IH.
Qed.

Definition root_entry : Entry := mkSource ROOT [] FLAG_DIR.

(** Any list of entries that starts with the root and goes down from it is read back
    as it is. *)
Lemma init_image (es : list Entry) (old : list Slot) :
  fits (root_entry :: es) -> ordered [root_entry] es ->
  init (image_of (root_entry :: es)) old = (Ok tt, slot_of <$> root_entry :: es).
Proof.
  intros Hf Ho. set (all := root_entry :: es) in *. pose proof (zlen_nonneg (datas all)). pose proof (zlen_nonneg all). pose proof (zlen_nonneg (paths all)).
  assert (Z.of_nat (length (image_of all)) = data_start all + zlen (datas all)) as Hlen by apply zlen_image.
  unfold init, data_start, HEADER_SIZE, ENTRY_SIZE in *. rewrite (proj2 (Z.ltb_ge _ _)) by lia. cbn [orb].
  rewrite bool_decide_eq_true_2 by done. cbn [negb].
  assert (read_u32 (image_of all) 4 = Some VERSION) as ->.
  { eapply (read_le_app 4 _ MAGIC); [unfold image_of; reflexivity|done|done]. }
  assert (read_u32 (image_of all) 8 = Some (zlen all)) as ->.
  { eapply (read_le_app 4 _ (MAGIC ++ to_le 4 VERSION)); [unfold image_of; by rewrite <- !app_assoc|done|]. split; [done|]. apply (fit_count _ Hf). }
  rewrite Z.eqb_refl. cbn [negb]. rewrite (proj2 (Z.ltb_ge _ _)) by lia.
  replace (Z.to_nat (zlen all)) with (S (length es)) by (subst all; unfold zlen; cbn; lia). cbn [add_entries].
  unfold add_entry. change (28 + 0 * 32) with (HEADER_SIZE + zlen (@nil Entry) * ENTRY_SIZE).
  change (28 + zlen all * 32) with (HEADER_SIZE + zlen ([] ++ root_entry :: es) * ENTRY_SIZE). change all with ([] ++ root_entry :: es) at 1.
  rewrite read_entry_image by done.
  change (ensure_parents (push ROOT true [] []) (path root_entry)) with (slot_of <$> [root_entry]).
  change (find (slot_of <$> [root_entry]) (path root_entry)) with (Some 0%nat).
  change (0 + 1) with (zlen [root_entry]). exact (add_entries_image [root_entry] es Hf Ho).
Qed.

(** * The image the build writes *)

Definition name_ok (stem : str) : Prop := Forall (fun c => ascii c /\ c <> SLASH) stem.
Definition names_ok (files : list (str * list Z)) : Prop := NoDup (fst <$> files) /\ Forall (fun f => name_ok f.1) files.

Lemma split_unique (c : Z) (d n x b : list Z) : c ∉ d -> c ∉ x -> d ++ c :: n = x ++ c :: b -> d = x /\ n = b.
Proof.
  revert x. induction d as [|y d IH]; intros [|z x] Hd Hx E; simplify_eq/=; [done|set_solver|set_solver|].
  destruct (IH x) as [-> ->]; [set_solver..|done|done].
Qed.

Definition slashes (l : str) : nat := length (filter (fun c => c = SLASH) l).
Lemma slashes_app (a b : str) : slashes (a ++ b) = (slashes a + slashes b)%nat.
Proof. unfold slashes. by rewrite filter_app, length_app. Qed.
Lemma slashes_cons (l : str) : slashes (SLASH :: l) = S (slashes l).
Proof. done. Qed.
Lemma slashes_none (l : str) : SLASH ∉ l -> slashes l = 0%nat.
Proof.
  intros H. unfold slashes. destruct (filter (fun c => c = SLASH) l) as [|c r] eqn:E; [done|].
  exfalso. apply H. assert (c ∈ filter (fun c => c = SLASH) l) as [-> ?]%list_elem_of_filter by (rewrite E; apply list_elem_of_here). done.
Qed.

(** A path with two slashes has one component between slashes. *)
Lemma between_slashes (d n a x b : str) :
  SLASH ∉ d -> SLASH ∉ n -> SLASH ∉ x -> SLASH :: d ++ SLASH :: n = a ++ SLASH :: x ++ SLASH :: b -> d = x.
Proof.
  intros Hd Hn Hx E. destruct a as [|c a].
  - cbn in E. injection E as E. by destruct (split_unique SLASH d n x b Hd Hx E).
  - cbn in E. injection E as _ E. apply (f_equal slashes) in E. rewrite !slashes_app, !slashes_cons, !slashes_app, !slashes_cons in E.
    rewrite (slashes_none d), (slashes_none n) in E by done. lia.
Qed.

(** [dir/name] for a directory below the root other than [.] and [..]. *)
Lemma path_in_dir (d name : str) :
  SLASH ∉ d -> d <> [] -> d <> [DOT] -> d <> [DOT; DOT] -> SLASH ∉ name -> name <> [] ->
  let p := (SLASH :: d) ++ [SLASH] ++ name in
  validate_path p = true /\ parent_of p = SLASH :: d /\ parent_of (SLASH :: d) = ROOT.
Proof.
  intros Hd H0 H1 H2 Hn Hne p. split_and!.
  - unfold validate_path. apply negb_true_iff. rewrite !orb_false_iff.
    assert (forall x, SLASH ∉ x -> d <> x -> contains (SLASH :: x ++ [SLASH]) p = false) as Hc.
    { intros x Hx Hdx. apply not_true_iff_false. rewrite contains_iff. intros (a & b & E). apply Hdx.
      apply (between_slashes d name a x b); [done..|]. subst p. cbn in E |- *. rewrite E. by rewrite <- app_assoc. }
    split_and!.
    + done.
    + apply andb_false_iff. right. apply bool_decide_eq_false. destruct (last name) as [c|] eqn:El; [|by apply last_None in El].
      assert (last p = Some c) as ->; [by subst p; rewrite !last_app, El|]. intros [= ->]. by apply last_Some_elem_of in El.
    + apply (Hc []); [set_solver|done].
    + apply (Hc [DOT]); [|done]. unfold SLASH, DOT. set_solver.
    + apply (Hc [DOT; DOT]); [|done]. unfold SLASH, DOT. set_solver.
  - unfold parent_of. subst p. change ((SLASH :: d) ++ [SLASH] ++ name) with ((SLASH :: d) ++ SLASH :: name).
    rewrite rfind_app by done. cbn [length]. change (S (length d)) with (length (SLASH :: d)). by rewrite take_app_length.
  - unfold parent_of. pose proof (rfind_app SLASH [] d Hd) as Hr. cbn [app length] in Hr. by rewrite Hr.
Qed.

Lemma ordered_app (a b c : list Entry) : ordered a (b ++ c) <-> ordered a b /\ ordered (a ++ b) c.
Proof.
  revert a. induction b as [|e b IH]; intros a; cbn [app ordered]; [rewrite app_nil_r; tauto|]. rewrite IH, <- app_assoc. cbn [app]. tauto.
Qed.

(** A block of entries of one directory. *)
Lemma ordered_block (a b : list Entry) :
  NoDup (path <$> a ++ b) ->
  (forall e, e ∈ b -> utf8_valid (path e) = true /\ validate_path (path e) = true /\
     (parent_of (path e) = ROOT \/ parent_of (parent_of (path e)) = ROOT /\ parent_of (path e) ∈ path <$> a)) ->
  ordered a b.
Proof.
  revert a. induction b as [|e b IH]; intros a Hnd Hg; [done|]. destruct (Hg e ltac:(set_solver)) as (Hu & Hv & Hp). split.
  - split; [done..|]. rewrite fmap_app, fmap_cons in Hnd. apply NoDup_app in Hnd as (_ & Hd & _). intros Hin. apply (Hd _ Hin). set_solver.
  - apply IH; [by rewrite <- app_assoc|]. intros e' He'. destruct (Hg e' ltac:(set_solver)) as (? & ? & Hp'). split_and!; [done..|].
    destruct Hp' as [?|[? ?]]; [by left|right; split; [done|]]. rewrite fmap_app. set_solver.
Qed.

(** A file of a directory below the root. *)
Lemma file_in_ok (d ext : str) (f : str * list Z) :
  SLASH ∉ d -> d <> [] -> d <> [DOT] -> d <> [DOT; DOT] -> Forall ascii d -> name_ok f.1 -> name_ok ext -> ext <> [] ->
  let p := path (file_in (SLASH :: d) ext f) in
  utf8_valid p = true /\ validate_path p = true /\ parent_of p = SLASH :: d /\ parent_of (SLASH :: d) = ROOT.
Proof.
  intros Hd H0 H1 H2 Ha Hf He Hne p. split.
  - apply ascii_utf8. subst p. cbn. constructor; [unfold ascii, SLASH; lia|]. apply Forall_app. split; [done|].
    constructor; [unfold ascii, SLASH; lia|]. apply Forall_app. split; (eapply Forall_impl; [eassumption|by intros c []]).
  - apply path_in_dir; [done..| |].
    + rewrite elem_of_app. intros [Hin|Hin]; [unfold name_ok in Hf; rewrite Forall_forall in Hf; by apply (Hf _ Hin)|
        unfold name_ok in He; rewrite Forall_forall in He; by apply (He _ Hin)].
    + intros E. apply app_eq_nil in E as [_ E]. done.
Qed.

Lemma file_in_inj (dir ext : str) (f g : str * list Z) : path (file_in dir ext f) = path (file_in dir ext g) -> f.1 = g.1.
Proof. cbn. intros E%app_inv_head. injection E as E. by apply app_inv_tail in E. Qed.

Lemma files_nodup (dir ext : str) (files : list (str * list Z)) : NoDup (fst <$> files) -> NoDup (path <$> (file_in dir ext <$> files)).
Proof.
  intros Hnd. induction files as [|f files IH]; cbn [fmap list_fmap]; [constructor|]. cbn [fmap list_fmap] in Hnd. apply NoDup_cons in Hnd as [Hf Hnd].
  constructor; [|by apply IH]. intros (e & Hp & (g & -> & Hg)%list_elem_of_fmap)%list_elem_of_fmap.
  apply Hf. apply file_in_inj in Hp. rewrite Hp. by apply list_elem_of_fmap_2.
Qed.

Definition BIN_NAME : str := [98; 105; 110].
Definition DRIVERS_NAME : str := [100; 114; 105; 118; 101; 114; 115].

Definition list_entry (drivers_list : list Z) : list Entry :=
  if bool_decide (drivers_list = []) then [] else [mkSource DRIVERS_LIST drivers_list FLAG_FILE].

Lemma file_path_second (d ext : str) (c : Z) (files : list (str * list Z)) (p : str) :
  p ∈ path <$> (file_in (SLASH :: c :: d) ext <$> files) -> p !! 1%nat = Some c /\ (length d + 3 + length ext <= length p)%nat /\
    (ext <> [] -> last p = last ext).
Proof.
  intros (e & -> & (f & -> & _)%list_elem_of_fmap)%list_elem_of_fmap. cbn [path file_in].
  split_and!; [done|rewrite !length_app; cbn [length]; lia|]. intros He. rewrite !last_app.
  destruct (last ext) eqn:El; [done|by apply last_None in El].
Qed.

Lemma sources_nodup (kxe kdm : list (str * list Z)) (dl : list Z) :
  NoDup (fst <$> kxe) -> NoDup (fst <$> kdm) -> NoDup (path <$> sources kxe kdm dl).
Proof.
  intros Hx Hd. unfold sources. fold (list_entry dl). rewrite !fmap_app.
  assert (forall p, p ∈ path <$> list_entry dl -> p = DRIVERS_LIST) as Hl.
  { intros p. unfold list_entry. case_bool_decide; cbn; set_solver. }
  assert (NoDup (path <$> list_entry dl)) as Hnl by (unfold list_entry; case_bool_decide; cbn; repeat constructor; set_solver).
  pose proof (file_path_second [105; 110] KXE 98 kxe) as Fx. change (SLASH :: 98 :: [105; 110]) with BIN in Fx.
  pose proof (file_path_second [114; 105; 118; 101; 114; 115] KDM 100 kdm) as Fd. change (SLASH :: 100 :: _) with DRIVERS in Fd.
  pose proof (files_nodup BIN KXE kxe Hx) as Nx. pose proof (files_nodup DRIVERS KDM kdm Hd) as Nd.
  set (X := path <$> (file_in BIN KXE <$> kxe)) in *. set (D := path <$> (file_in DRIVERS KDM <$> kdm)) in *.
  cbn [fmap list_fmap path app].
  repeat (apply NoDup_cons; split); [..|apply NoDup_app; split_and!; [done| |]].
  - intros [E|[Hp|[E|[Hp|Hp]%elem_of_app]%elem_of_cons]%elem_of_app]%elem_of_cons; [done|by destruct (Fx _ Hp)|done|by destruct (Fd _ Hp)|by apply Hl in Hp].
  - intros [Hp|[E|[Hp|Hp]%elem_of_app]%elem_of_cons]%elem_of_app; [destruct (Fx _ Hp) as (_ & ? & _); cbn in *; lia|done|by destruct (Fd _ Hp)|by apply Hl in Hp].
  - intros p Hp [->|[Hq|Hq]%elem_of_app]%elem_of_cons; [by destruct (Fx _ Hp)|destruct (Fx _ Hp), (Fd _ Hq); congruence|apply Hl in Hq as ->; by destruct (Fx _ Hp)].
  - apply NoDup_cons. split.
    + intros [Hp|Hp]%elem_of_app; [destruct (Fd _ Hp) as (_ & ? & _); cbn in *; lia|by apply Hl in Hp].
    + apply NoDup_app. split_and!; [done| |done]. intros p Hp Hq%Hl. subst p. destruct (Fd _ Hp) as (_ & _ & E). by specialize (E ltac:(done)).
Qed.

(** Closes a statement about every character of a literal. *)
Ltac all_chars := repeat (apply Forall_cons; split); [..|apply Forall_nil; exact I]; unfold ascii, SLASH; cbn [fst]; lia.

Lemma sources_ordered (kxe kdm : list (str * list Z)) (dl : list Z) :
  names_ok kxe -> names_ok kdm -> ordered [root_entry] (tail (sources kxe kdm dl)).
Proof.
  intros [Hx1 Hx2] [Hd1 Hd2]. pose proof (sources_nodup kxe kdm dl Hx1 Hd1) as Hnd. revert Hnd. unfold sources. fold (list_entry dl). cbn [app tail].
  set (X := file_in BIN KXE <$> kxe). set (D := file_in DRIVERS KDM <$> kdm). fold root_entry. intros Hnd.
  assert (forall e, e ∈ X -> utf8_valid (path e) = true /\ validate_path (path e) = true /\ parent_of (path e) = BIN /\ parent_of BIN = ROOT) as GX.
  { intros e (f & -> & Hf)%list_elem_of_fmap. rewrite Forall_forall in Hx2. apply (file_in_ok BIN_NAME KXE f); [unfold BIN_NAME, SLASH; set_solver|done|done|done|
      all_chars|by apply Hx2|all_chars|done]. }
  assert (forall e, e ∈ D -> utf8_valid (path e) = true /\ validate_path (path e) = true /\ parent_of (path e) = DRIVERS /\ parent_of DRIVERS = ROOT) as GD.
  { intros e (f & -> & Hf)%list_elem_of_fmap. rewrite Forall_forall in Hd2. apply (file_in_ok DRIVERS_NAME KDM f); [unfold DRIVERS_NAME, SLASH; set_solver|done|done|done|
      all_chars|by apply Hd2|all_chars|done]. }
  assert (forall a b, root_entry :: mkSource BIN [] FLAG_DIR :: X ++ mkSource DRIVERS [] FLAG_DIR :: D ++ list_entry dl = a ++ b -> NoDup (path <$> a)) as Hpre.
  { intros a b E. rewrite E, fmap_app in Hnd. by apply NoDup_app in Hnd as [? _]. }
  split; [split; [by left|done|done|set_solver]|].
  apply ordered_app. split; [|split; [split; [by left|done|done|]|]].
  - apply ordered_block.
    + apply (Hpre _ (mkSource DRIVERS [] FLAG_DIR :: D ++ list_entry dl)). done.
    + intros e He. destruct (GX e He) as (? & ? & -> & ?). split_and!; [done..|]. right. split; [done|]. clear. set_solver.
  - assert (NoDup (path <$> ([root_entry] ++ [mkSource BIN [] FLAG_DIR]) ++ X ++ [mkSource DRIVERS [] FLAG_DIR])) as Hn.
    { apply (Hpre _ (D ++ list_entry dl)). by rewrite <- !app_assoc. }
    rewrite app_assoc, fmap_app in Hn. apply NoDup_app in Hn as (_ & Hdis & _). intros Hin. apply (Hdis _ Hin). clear. set_solver.
  - apply ordered_block.
    + apply (Hpre _ []). rewrite app_nil_r. by rewrite <- !app_assoc.
    + intros e [He|He]%elem_of_app.
      * destruct (GD e He) as (? & ? & -> & ?). split_and!; [done..|]. right. split; [done|].
        apply (list_elem_of_fmap_2 path _ (mkSource DRIVERS [] FLAG_DIR)), elem_of_app. right. apply list_elem_of_here.
      * revert He. unfold list_entry. case_bool_decide; [set_solver|]. intros ->%list_elem_of_singleton. split_and!; [done|done|]. right.
        split; [done|]. change (parent_of (path _)) with DRIVERS.
        apply (list_elem_of_fmap_2 path _ (mkSource DRIVERS [] FLAG_DIR)), elem_of_app. right. apply list_elem_of_here.
Qed.

Lemma read_slot (l : list Entry) (e : Entry) :
  e ∈ l -> NoDup (path <$> l) -> is_file e = true -> validate_path (path e) = true -> read_file (path e) (slot_of <$> l) = Ok (data e).
Proof.
  intros He Hnd Hf Hv. destruct (find_slots_Some l e He Hnd) as (i & Hi & Hn). unfold read_file, resolve. rewrite Hv, Hi, Hn. cbn. by rewrite Hf.
Qed.

Lemma ordered_valid (a b : list Entry) (e : Entry) : ordered a b -> e ∈ b -> validate_path (path e) = true.
Proof.
  revert a. induction b as [|x b IH]; intros a; [set_solver|]. intros [Hm Ho] [->|He]%elem_of_cons; [by destruct Hm|by eapply IH].
Qed.

(** C18: The file system the build writes is the one the kernel boots with.  For any
    programs and drivers with distinct plain names, whose paths together fit the 16-bit
    offsets of the format, the image written by [build_kfs] is accepted by [init], the
    nodes are the entries in the order written, and every program, every driver and the
    driver list are read back under their paths with exactly their bytes. *)
Theorem kfs_roundtrip (kxe kdm : list (str * list Z)) (dl : list Z) (old : list Slot) :
  names_ok kxe -> names_ok kdm -> fits (sources kxe kdm dl) ->
  exists nodes, init (build_kfs kxe kdm dl) old = (Ok tt, nodes) /\ nodes = slot_of <$> sources kxe kdm dl /\
    (forall f, f ∈ kxe -> read_file (BIN ++ [SLASH] ++ f.1 ++ KXE) nodes = Ok f.2) /\
    (forall f, f ∈ kdm -> read_file (DRIVERS ++ [SLASH] ++ f.1 ++ KDM) nodes = Ok f.2) /\
    (dl <> [] -> read_file DRIVERS_LIST nodes = Ok dl).
Proof.
  intros Hx Hd Hf. pose proof (sources_ordered kxe kdm dl Hx Hd) as Ho. pose proof (sources_nodup kxe kdm dl (proj1 Hx) (proj1 Hd)) as Hnd.
  eexists. split; [by apply (init_image (tail (sources kxe kdm dl)))|]. split; [done|].
  assert (forall e, e ∈ sources kxe kdm dl -> is_file e = true -> read_file (path e) (slot_of <$> sources kxe kdm dl) = Ok (data e)) as Hr.
  { intros e He Hfile. apply read_slot; [done..|]. apply elem_of_cons in He as [->|He]; [done|]. by eapply ordered_valid. }
  split_and!.
  - intros f Hin. apply (Hr (file_in BIN KXE f)); [|done]. unfold sources. rewrite !elem_of_app. right; left. by apply list_elem_of_fmap_2.
  - intros f Hin. apply (Hr (file_in DRIVERS KDM f)); [|done]. unfold sources. rewrite !elem_of_app. do 3 right; left. by apply list_elem_of_fmap_2.
  - intros Hne. apply (Hr (mkSource DRIVERS_LIST dl FLAG_FILE)); [|done]. unfold sources. rewrite !elem_of_app. do 4 right.
    rewrite bool_decide_eq_false_2 by done. apply list_elem_of_here.
Qed.

Module Example.
(** A program [sh], a driver [hda] and a driver list. *)
Definition kxe0 : list (str * list Z) := [([115; 104], [1; 2; 3])].
Definition kdm0 : list (str * list Z) := [([104; 100; 97], [9; 9])].

Lemma kfs_roundtrip_witness :
  exists nodes, init (build_kfs kxe0 kdm0 [104; 100; 97]) [] = (Ok tt, nodes) /\
    read_file (BIN ++ [SLASH] ++ [115; 104] ++ KXE) nodes = Ok [1; 2; 3].
Proof.
  assert (forall (n : str) d, name_ok n -> names_ok [(n, d)]) as Hone.
  { intros n d Hn. split; [apply NoDup_singleton|by repeat constructor]. }
  destruct (kfs_roundtrip kxe0 kdm0 [104; 100; 97] []) as (nodes & Hi & _ & Hx & _).
  - apply Hone. all_chars.
  - apply Hone. all_chars.
  - split; [vm_compute; reflexivity..|]. repeat constructor; unfold FLAG_DIR, FLAG_FILE; cbn; lia.
  - exists nodes. split; [exact Hi|]. apply (Hx ([115; 104], [1; 2; 3])). apply list_elem_of_here.
Defined.
End Example.

End Kfs.
