(* ===== verification/Power.v ===== *)
(** Power management: [crates/kernel/src/drivers/power.rs].

    The tables are read from physical memory as in [Acpi]; port output is the list of
    accesses in order, port input a function of the port.  The functions that never
    return are the accesses they make before their final loop.  Waiting for processes
    to stop runs against a [Machine]: what a turn of the waiting loop lets happen. *)
From stdpp Require Import base list numbers option gmap.
From S2P Require Import Prelude Uaccess Thread Scheduler Process Acpi.

Open Scope Z_scope.

Module Power.

Record PowerInfo := mkPower {
  smi_cmd : Z; acpi_enable : Z; pm1a_cnt : Z; pm1b_cnt : Z; slp_typa : Z; slp_typb : Z;
  pm1a_evt_blk : Z; pm1b_evt_blk : Z; sci_irq_line : Z; power_button_fixed : bool
}.

Definition PWRBTN_BIT : Z := 256.
Definition FACP : list Z := [70; 65; 67; 80].

Section Tables.
Variable m : gmap Z Z.

Definition read_u8 (addr : Z) : Z := Acpi.read_int m addr 1.
Definition read_u16 (addr : Z) : Z := Acpi.read_int m addr 2.
Definition read_u32 (addr : Z) : Z := Acpi.read_int m addr 4.
Definition read_u64 (addr : Z) : Z := Acpi.read_int m addr 8.
Definition read_sig (addr : Z) : list Z := [read_u8 addr; read_u8 (addr + 1); read_u8 (addr + 2); read_u8 (addr + 3)].

(** [while i < count] *)
Fixpoint find_table_loop (n : nat) (sdt : Z) (is_xsdt : bool) (sig : list Z) (i : Z) : option Z :=
  match n with
  | O => None
  | S n' =>
      let entry := if is_xsdt then read_u64 (sdt + 36 + i * 8) else read_u32 (sdt + 36 + i * 4) in
      if bool_decide (read_sig entry = sig) then Some entry else find_table_loop n' sdt is_xsdt sig (i + 1)
  end.
Definition find_table (sdt : Z) (is_xsdt : bool) (sig : list Z) : option Z :=
  let length := read_u32 (sdt + 4) in
  let entry_size := if is_xsdt then 8 else 4 in
  let count := wrap64 (length - 36) / entry_size in
  find_table_loop (Z.to_nat count) sdt is_xsdt sig 0.

(** ** The sleep type in the definition block *)

Fixpoint skip_to_package (fuel : nat) (p scan_end : Z) : Z :=
  match fuel with
  | O => p
  | S n => if (p <? scan_end) && negb (read_u8 p =? 0x12) then skip_to_package n (p + 1) scan_end else p
  end.

(** [while p < scan_end && count < 2], [n] values left to read. *)
Fixpoint slp_values (n : nat) (p scan_end : Z) : list Z :=
  match n with
  | O => []
  | S n' =>
      if scan_end <=? p then []
      else
        let op := read_u8 p in
        if op =? 0x0A then read_u8 (p + 1) :: slp_values n' (p + 2) scan_end
        else if op =? 0x0B then read_u16 (p + 1) :: slp_values n' (p + 3) scan_end
        else if op <=? 0x0F then op :: slp_values n' (p + 1) scan_end
        else []
  end.

(** [v << 10] on [u16] *)
Definition shl10 (v : Z) : Z := v * 1024 mod 65536.

(** The body of the scan at a match; [None] goes on with the next byte. *)
Definition s5_at (ptr end_ : Z) : option (Z * Z) :=
  let scan_end := Z.min (ptr + 128) end_ in
  let p := skip_to_package 128 (ptr + 4) scan_end in
  if scan_end <=? p then None
  else
    let p := p + 1 in
    if scan_end <=? p then None
    else
      let pkg_lead := read_u8 p in
      let extra := Z.shiftr pkg_lead 6 in
      let p := p + (1 + extra) in
      let p := p + 1 in
      match slp_values 2 p scan_end with
      | a :: b :: _ => Some (shl10 a, shl10 b)
      | [a] => Some (shl10 a, shl10 a)
      | [] => None
      end.

Definition is_s5 (ptr : Z) : bool :=
  (read_u8 ptr =? 95) && (read_u8 (ptr + 1) =? 83) && (read_u8 (ptr + 2) =? 53) && (read_u8 (ptr + 3) =? 95).

(** [while ptr + 8 < end]; a table of [length] bytes takes at most [length] turns. *)
Fixpoint find_s5_loop (fuel : nat) (ptr end_ : Z) : option (Z * Z) :=
  match fuel with
  | O => None
  | S n =>
      if end_ <=? ptr + 8 then None
      else
        match (if is_s5 ptr then s5_at ptr end_ else None) with
        | Some r => Some r
        | None => find_s5_loop n (ptr + 1) end_
        end
  end.
Definition find_s5 (dsdt : Z) : option (Z * Z) :=
  let length := read_u32 (dsdt + 4) in
  find_s5_loop (Z.to_nat length) (dsdt + 36) (dsdt + length).

Definition find_power_info (rsdp : Z) : option PowerInfo :=
  '(sdt, is_xsdt) ← Acpi.parse_rsdp m rsdp;
  fadt ← find_table sdt is_xsdt FACP;
  let dsdt := read_u32 (fadt + 40) in
  '(slp_typa, slp_typb) ← find_s5 dsdt;
  let fadt_flags := read_u32 (fadt + 112) in
  Some (mkPower (read_u32 (fadt + 48) mod 65536) (read_u8 (fadt + 52)) (read_u32 (fadt + 64) mod 65536)
          (read_u32 (fadt + 68) mod 65536) slp_typa slp_typb (read_u32 (fadt + 56) mod 65536) (read_u32 (fadt + 60) mod 65536)
          (read_u16 (fadt + 46) mod 256) (negb (Z.land fadt_flags 16 =? 0))).
End Tables.

(** ** Ports *)

Inductive io := Inw (port v : Z) | Outb (port v : Z) | Outw (port v : Z).

Definition sci_irq (power : option PowerInfo) : option Z := sci_irq_line <$> power.

(** [outw(port, inw(port) | PWRBTN_BIT)] *)
Definition enable_button (inw : Z -> Z) (port : Z) : list io := [Inw port (inw port); Outw port (Z.lor (inw port) PWRBTN_BIT)].

Definition setup_power_button (inw : Z -> Z) (power : option PowerInfo) : list io :=
  match power with
  | Some info =>
      if power_button_fixed info && negb (pm1a_evt_blk info =? 0) then
        enable_button inw (pm1a_evt_blk info + 2) ++
        (if pm1b_evt_blk info =? 0 then [] else enable_button inw (pm1b_evt_blk info + 2))
      else []
  | None => []
  end.

Definition qemu_shutdown : list io := [Outw 0x604 0x2000; Outw 0xB004 0x2000].

Definition shutdown (power : option PowerInfo) : list io :=
  match power with
  | Some info =>
      let slp_en := 8192 in
      (if negb (smi_cmd info =? 0) && negb (acpi_enable info =? 0) then [Outb (smi_cmd info) (acpi_enable info)] else []) ++
      [Outw (pm1a_cnt info) (Z.lor (slp_typa info) slp_en)] ++
      (if pm1b_cnt info =? 0 then [] else [Outw (pm1b_cnt info) (Z.lor (slp_typb info) slp_en)])
  | None => []
  end ++ qemu_shutdown.

Definition handle_power_button (inw : Z -> Z) (power : option PowerInfo) : list io :=
  match power with
  | None => []
  | Some info =>
      if negb (power_button_fixed info) || (pm1a_evt_blk info =? 0) then []
      else
        let sts := inw (pm1a_evt_blk info) in
        let ack := if sts =? 0 then [] else [Outw (pm1a_evt_blk info) sts] in
        if negb (sts =? 0) && negb (Z.land sts PWRBTN_BIT =? 0) then Inw (pm1a_evt_blk info) sts :: ack ++ shutdown power
        else
          Inw (pm1a_evt_blk info) sts :: ack ++
          (if pm1b_evt_blk info =? 0 then []
           else let sts_b := inw (pm1b_evt_blk info) in
                Inw (pm1b_evt_blk info) sts_b :: (if sts_b =? 0 then [] else [Outw (pm1b_evt_blk info) sts_b]))
  end.

(** The polls of the keyboard controller before the reset pulse: [busy i] is whether its
    input buffer is full at poll [i]. *)
Fixpoint kbc_polls (busy : nat -> bool) (n i : nat) : nat :=
  match n with
  | O => i
  | S n' => if busy i then kbc_polls busy n' (S i) else i
  end.
Definition reboot (busy : nat -> bool) : nat * list io := (kbc_polls busy 100000 0, [Outb 0x64 0xFE]).

(** ** Stopping the processes *)

Class Machine (W : Type) := {
  ticks : W -> Z;
  procs : W -> Process.PState;
  on_procs : (Process.PState -> Process.PState) -> W -> W;
  turn : W -> W
}.

Section Stop.
Context {W : Type} `{Machine W}.

(** [while !shutdown_complete() && timer_ticks() < deadline { pause() }]; [None] when the
    turns run out. *)
Fixpoint wait_stopped (n : nat) (deadline : Z) (w : W) : option W :=
  match n with
  | O => None
  | S n' =>
      if negb (Process.shutdown_complete (procs w)) && (ticks w <? deadline) then wait_stopped n' deadline (turn w) else Some w
  end.

Definition deadline_after (w : W) : Z := Z.min u64_max (ticks w + 100).

Definition stop_processes (n : nat) (w : W) : option W :=
  let w := on_procs Process.shutdown_sigterm_all w in
  w ← wait_stopped n (deadline_after w) w;
  if Process.shutdown_complete (procs w) then Some w
  else
    let w := on_procs Process.shutdown_sigkill_all w in
    wait_stopped n (deadline_after w) w.

(** [SHUTDOWN_STARTED.swap(true)]: only the first caller gets past it; the others spin. *)
Definition begin_shutdown (n : nat) (power : option PowerInfo) (started : bool) (w : W) : bool * option (W * list io) :=
  (true, if started then None else w ← stop_processes n w; Some (w, shutdown power)).
Definition begin_reboot (n : nat) (busy : nat -> bool) (started : bool) (w : W) : bool * option (W * list io) :=
  (true, if started then None else w ← stop_processes n w; Some (w, (reboot busy).2)).
End Stop.

(** * The sleep type *)

(** An integer as the AML compiler writes it, and the package of the soft-off state. *)
Definition aml_int (v : Z) : list Z := if v <=? 1 then [v] else if v <? 256 then [0x0A; v] else [0x0B; v mod 256; v / 256].
Definition S5 : list Z := [95; 83; 53; 95].
Definition package (lead : Z) (more : list Z) (count : Z) (elements : list Z) : list Z := [0x12; lead] ++ more ++ [count] ++ elements.

Lemma byte_at (m : gmap Z Z) (a : Z) (l : list Z) (i : nat) (v : Z) :
  Acpi.holds m a l -> l !! i = Some v -> read_u8 m (a + Z.of_nat i) = v.
Proof.
  intros Hh Hi. unfold read_u8. change 1 with (Z.of_nat 1). rewrite (Acpi.holds_read m a l i 1 Hh).
  - rewrite (drop_S _ _ _ Hi). rewrite firstn_cons, take_0. cbn [from_le]. lia.
  - apply lookup_lt_Some in Hi. lia.
Qed.

Lemma byte_head (m : gmap Z Z) (a : Z) (l : list Z) (v : Z) : Acpi.holds m a (v :: l) -> read_u8 m a = v.
Proof. intros Hh. pose proof (byte_at m a (v :: l) 0 v Hh eq_refl) as Hb. by rewrite Z.add_0_r in Hb. Qed.

Lemma slp_value (m : gmap Z Z) (n : nat) (p scan_end v : Z) :
  Acpi.holds m p (aml_int v) -> 0 <= v < 65536 -> p < scan_end ->
  slp_values m (S n) p scan_end = v :: slp_values m n (p + Z.of_nat (length (aml_int v))) scan_end.
Proof.
  intros Hh Hv Hp. cbn [slp_values]. rewrite (proj2 (Z.leb_gt scan_end p)) by lia. unfold aml_int in *.
  destruct (v <=? 1) eqn:E1; [|destruct (v <? 256) eqn:E2]; zbool; rewrite (byte_head _ _ _ _ Hh).
  - rewrite (proj2 (Z.eqb_neq v 10)), (proj2 (Z.eqb_neq v 11)), (proj2 (Z.leb_le v 15)) by lia. done.
  - rewrite Z.eqb_refl. pose proof (byte_at m p _ 1 v Hh eq_refl) as Hb. change (Z.of_nat 1) with 1 in Hb. by rewrite Hb.
  - cbn [Z.eqb Pos.eqb]. f_equal. unfold read_u16. change (p + 1) with (p + Z.of_nat 1). change 2 with (Z.of_nat 2).
    rewrite (Acpi.holds_read m p _ 1 2 Hh) by (cbn; lia). cbn [drop take from_le].
    pose proof (Z.div_mod v 256 ltac:(lia)). lia.
Qed.

(** What the code makes of the package at a match, for any elements. *)
Lemma s5_at_package (m : gmap Z Z) (ptr end_ lead count : Z) (more elements post : list Z) :
  Acpi.holds m ptr (S5 ++ package lead more count elements ++ post) -> Z.of_nat (length more) = Z.shiftr lead 6 ->
  (length more <= 3)%nat -> ptr + Z.of_nat (length (S5 ++ package lead more count elements ++ post)) = end_ ->
  let p := ptr + 4 + 3 + Z.of_nat (length more) in
  s5_at m ptr end_ = match slp_values m 2 p (Z.min (ptr + 128) end_) with
                     | a :: b :: _ => Some (shl10 a, shl10 b) | [a] => Some (shl10 a, shl10 a) | [] => None
                     end.
Proof.
  intros Hh Hm H3 He p. unfold s5_at. set (scan_end := Z.min (ptr + 128) end_).
  assert (ptr + 4 + 2 < scan_end) as Hse.
  { subst scan_end. rewrite <- He. unfold S5, package. cbn [length app]. rewrite !length_app. cbn [length]. lia. }
  assert (read_u8 m (ptr + 4) = 0x12) as H0 by exact (byte_at m ptr _ 4 _ Hh eq_refl).
  assert (read_u8 m (ptr + 5) = lead) as H1 by exact (byte_at m ptr _ 5 _ Hh eq_refl).
  assert (skip_to_package m 128 (ptr + 4) scan_end = ptr + 4) as ->.
  { cbn [skip_to_package]. rewrite H0. cbn [Z.eqb Pos.eqb negb]. by rewrite andb_false_r. }
  rewrite (proj2 (Z.leb_gt scan_end (ptr + 4))), (proj2 (Z.leb_gt scan_end (ptr + 4 + 1))) by lia.
  replace (ptr + 4 + 1) with (ptr + 5) by lia. rewrite H1, <- Hm. by replace (ptr + 5 + (1 + Z.of_nat (length more)) + 1) with p by (subst p; lia).
Qed.

Lemma is_s5_spec (m : gmap Z Z) (a : Z) (l : list Z) (i : nat) :
  Acpi.holds m a l -> (i + 4 <= length l)%nat -> is_s5 m (a + Z.of_nat i) = bool_decide (take 4 (drop i l) = S5).
Proof.
  intros Hh Hl. destruct (drop i l) as [|c0 [|c1 [|c2 [|c3 r]]]] eqn:Ed;
    try (apply (f_equal length) in Ed; rewrite length_drop in Ed; cbn in Ed; lia).
  assert (forall k c, (c0 :: c1 :: c2 :: c3 :: r) !! k = Some c -> read_u8 m (a + Z.of_nat i + Z.of_nat k) = c) as Hb.
  { intros k c Hk. rewrite <- Ed, lookup_drop in Hk. rewrite <- (byte_at m a l (i + k) c Hh Hk). f_equal. lia. }
  unfold is_s5. pose proof (Hb 0%nat c0 eq_refl) as B0. pose proof (Hb 1%nat c1 eq_refl) as B1. pose proof (Hb 2%nat c2 eq_refl) as B2.
  pose proof (Hb 3%nat c3 eq_refl) as B3. change (Z.of_nat 0) with 0 in B0. rewrite Z.add_0_r in B0.
  change (Z.of_nat 1) with 1 in B1. change (Z.of_nat 2) with 2 in B2. change (Z.of_nat 3) with 3 in B3. rewrite B0, B1, B2, B3.
  cbn [take]. apply eq_true_iff_eq. rewrite bool_decide_eq_true, !andb_true_iff, !Z.eqb_eq. unfold S5. split; [by intros [[[-> ->] ->] ->]|].
  by intros [= -> -> -> ->].
Qed.

(** No name of the state before position [n] of the block. *)
Definition no_s5_before (n : nat) (l : list Z) : Prop := forall i, (i < n)%nat -> take 4 (drop i l) <> S5.

Lemma find_s5_loop_skip (m : gmap Z Z) (a : Z) (l : list Z) (n i fuel : nat) :
  Acpi.holds m a l -> no_s5_before n l -> (i <= n)%nat -> (n + 9 <= length l)%nat -> (n - i <= fuel)%nat ->
  find_s5_loop m fuel (a + Z.of_nat i) (a + Z.of_nat (length l)) =
  find_s5_loop m (fuel - (n - i)) (a + Z.of_nat n) (a + Z.of_nat (length l)).
Proof.
  intros Hh Hn Hi Hl. revert i Hi. induction fuel as [|f IH]; intros i Hi Hf.
  { replace i with n by lia. by replace (0 - (n - n))%nat with 0%nat by lia. }
  destruct (decide (i = n)) as [->|Hne]; [by rewrite Nat.sub_diag, Nat.sub_0_r|].
  cbn [find_s5_loop]. rewrite (proj2 (Z.leb_gt (a + Z.of_nat (length l)) (a + Z.of_nat i + 8))) by lia.
  rewrite (is_s5_spec m a l i Hh) by lia. rewrite bool_decide_eq_false_2 by (apply Hn; lia).
  replace (a + Z.of_nat i + 1) with (a + Z.of_nat (S i)) by lia. rewrite IH by lia.
  by replace (S f - (n - i))%nat with (f - (n - S i))%nat by lia.
Qed.

(** The block whose first name of the state is followed by a package. *)
Record block_at (m : gmap Z Z) (dsdt : Z) (pre : list Z) (lead : Z) (more : list Z) (count : Z) (elements post : list Z) : Prop := {
  bl_bytes : Acpi.holds m (dsdt + 36) (pre ++ S5 ++ package lead more count elements ++ post);
  bl_length : read_u32 m (dsdt + 4) = 36 + Z.of_nat (length (pre ++ S5 ++ package lead more count elements ++ post));
  bl_first : no_s5_before (length pre) (pre ++ S5 ++ package lead more count elements ++ post);
  bl_more : Z.of_nat (length more) = Z.shiftr lead 6 /\ (length more <= 3)%nat;
  bl_elements : (2 <= length elements)%nat;
}.

Lemma find_s5_block (m : gmap Z Z) (dsdt : Z) pre lead more count elements post (r : Z * Z) :
  block_at m dsdt pre lead more count elements post ->
  s5_at m (dsdt + 36 + Z.of_nat (length pre)) (dsdt + 36 + Z.of_nat (length (pre ++ S5 ++ package lead more count elements ++ post))) = Some r ->
  find_s5 m dsdt = Some r.
Proof.
  intros [Hh Hl Hf Hm Hel] Hat. unfold find_s5. rewrite Hl. set (l := pre ++ _) in *.
  assert (length pre + 9 <= length l)%nat as H9 by (subst l; unfold package; rewrite !length_app; cbn [length S5]; lia).
  replace (dsdt + (36 + Z.of_nat (length l))) with (dsdt + 36 + Z.of_nat (length l)) by lia.
  pose proof (find_s5_loop_skip m (dsdt + 36) l (length pre) 0 (Z.to_nat (36 + Z.of_nat (length l))) Hh Hf ltac:(lia) H9 ltac:(lia)) as Hs.
  change (Z.of_nat 0) with 0 in Hs. rewrite Z.add_0_r in Hs. rewrite Hs.
  destruct (Z.to_nat _ - _)%nat as [|f] eqn:Ef; [lia|]. cbn [find_s5_loop].
  rewrite (proj2 (Z.leb_gt (dsdt + 36 + Z.of_nat (length l)) (dsdt + 36 + Z.of_nat (length pre) + 8))) by lia.
  rewrite (is_s5_spec m (dsdt + 36) l (length pre) Hh) by lia.
  rewrite bool_decide_eq_true_2 by (subst l; by rewrite drop_app_length). by rewrite Hat.
Qed.

Lemma block_s5 (m : gmap Z Z) (dsdt : Z) pre lead more count elements post :
  block_at m dsdt pre lead more count elements post ->
  let p := dsdt + 36 + Z.of_nat (length pre) in
  let end_ := dsdt + 36 + Z.of_nat (length (pre ++ S5 ++ package lead more count elements ++ post)) in
  Acpi.holds m (p + 7 + Z.of_nat (length more)) elements /\
  p + 7 + Z.of_nat (length more) + Z.of_nat (length elements) <= end_ /\
  s5_at m p end_ = match slp_values m 2 (p + 7 + Z.of_nat (length more)) (Z.min (p + 128) end_) with
                   | a :: b :: _ => Some (shl10 a, shl10 b) | [a] => Some (shl10 a, shl10 a) | [] => None
                   end.
Proof.
  intros [Hh Hl _ [Hm H3] _] p end_. apply Acpi.holds_app in Hh as [_ Hh]. fold p in Hh.
  assert (end_ = p + Z.of_nat (length (S5 ++ package lead more count elements ++ post))) as He by (subst end_ p; rewrite (length_app pre); lia).
  split_and!.
  - unfold package in Hh. rewrite <- !app_assoc in Hh. do 4 apply Acpi.holds_app in Hh as [_ Hh]. apply Acpi.holds_app in Hh as [Hh _].
    cbn [length] in Hh. change (length S5) with 4%nat in Hh.
    by replace (p + Z.of_nat 4 + Z.of_nat 2 + Z.of_nat (length more) + Z.of_nat 1) with (p + 7 + Z.of_nat (length more)) in Hh by lia.
  - rewrite He. unfold package. rewrite !length_app. change (length S5) with 4%nat. cbn [length]. lia.
  - rewrite (s5_at_package m p end_ lead count more elements post); [|done..|by rewrite He].
    by replace (p + 4 + 3 + Z.of_nat (length more)) with (p + 7 + Z.of_nat (length more)) by lia.
Qed.

Lemma length_aml_int (v : Z) : (1 <= length (aml_int v) <= 3)%nat.
Proof. unfold aml_int. destruct (_ <=? _); [|destruct (_ <? _)]; cbn; lia. Qed.

Lemma find_s5_spec (m : gmap Z Z) (dsdt : Z) pre lead more count a b rest post :
  block_at m dsdt pre lead more count (aml_int a ++ aml_int b ++ rest) post -> 0 <= a < 65536 -> 0 <= b < 65536 ->
  find_s5 m dsdt = Some (shl10 a, shl10 b).
Proof.
  intros Hb Ha Hbb. apply (find_s5_block m dsdt pre lead more count (aml_int a ++ aml_int b ++ rest) post _ Hb).
  destruct (block_s5 _ _ _ _ _ _ _ _ Hb) as (Hh & Hend & ->). set (p := dsdt + 36 + Z.of_nat (length pre)) in *. set (end_ := dsdt + 36 + Z.of_nat (length (pre ++ _))) in *.
  destruct (bl_more _ _ _ _ _ _ _ _ Hb) as [_ H3]. pose proof (length_aml_int a) as La. pose proof (length_aml_int b) as Lb.
  rewrite !length_app in Hend. apply Acpi.holds_app in Hh as [Hh1 Hh]. apply Acpi.holds_app in Hh as [Hh2 _].
  rewrite (slp_value m 1 _ _ a) by (done || lia). by rewrite (slp_value m 0 _ _ b) by (done || lia).
Qed.

(** The tables from the root pointer down to the definition block. *)
Record tables_at (m : gmap Z Z) (rsdp fadt : Z) : Prop := {
  ta_sdt : exists sdt is_xsdt tables, Acpi.parse_rsdp m rsdp = Some (sdt, is_xsdt) /\
    Acpi.sdt_at m (if is_xsdt then 8 else 4)%nat sdt tables /\
    find_first (fun t => bool_decide (read_sig m t = FACP)) tables = Some fadt;
}.

Lemma find_table_loop_spec (m : gmap Z Z) (sdt : Z) (is_xsdt : bool) (sig done_ tables : list Z) :
  let w := (if is_xsdt then 8 else 4)%nat in
  Acpi.holds m (sdt + 36) ((done_ ++ tables) ≫= to_le w) -> Forall (fun a => 0 <= a < 256 ^ Z.of_nat w) tables ->
  find_table_loop m (length tables) sdt is_xsdt sig (Z.of_nat (length done_)) = find_first (fun t => bool_decide (read_sig m t = sig)) tables.
Proof.
  intros w Hh Hr. revert done_ Hh. induction Hr as [|t tables Ht Hr IH]; intros done_ Hh; [done|]. cbn [length find_table_loop find_first].
  assert (length (done_ ≫= to_le w) = length done_ * w)%nat as Hlen.
  { clear. induction done_ as [|x l IH]; [done|]. rewrite bind_cons, length_app, length_to_le, IH. cbn [length]. lia. }
  assert ((if is_xsdt then read_u64 m (sdt + 36 + Z.of_nat (length done_) * 8) else read_u32 m (sdt + 36 + Z.of_nat (length done_) * 4)) = t) as ->.
  { rewrite bind_app, bind_cons in Hh. apply Acpi.holds_app in Hh as [_ Hh]. apply Acpi.holds_app in Hh as [Hh _]. rewrite Hlen in Hh.
    pose proof (Acpi.holds_read m _ _ 0 w Hh) as Hrd. rewrite length_to_le, Z.add_0_r, drop_0, take_ge in Hrd by (rewrite length_to_le; lia).
    rewrite <- (from_to_le w t Ht), <- Hrd by lia. subst w. unfold read_u64, read_u32. destruct is_xsdt; f_equal; lia. }
  case_bool_decide; [done|]. specialize (IH (done_ ++ [t])). rewrite <- app_assoc, length_app in IH. cbn [length app] in IH.
  replace (Z.of_nat (length done_ + 1)) with (Z.of_nat (length done_) + 1) in IH by lia. by apply IH.
Qed.

Lemma find_fadt (m : gmap Z Z) (rsdp fadt : Z) :
  tables_at m rsdp fadt -> exists sdt is_xsdt, Acpi.parse_rsdp m rsdp = Some (sdt, is_xsdt) /\ find_table m sdt is_xsdt FACP = Some fadt.
Proof.
  intros [(sdt & is_xsdt & tables & Hp & [Hl He Hr [H0 Hb]] & Hf)]. exists sdt, is_xsdt. split; [done|]. unfold find_table.
  unfold read_u32. rewrite Hl. unfold Acpi.SDT_HEADER in *. set (w := (if is_xsdt then 8 else 4)%nat) in *.
  assert ((if is_xsdt then 8 else 4) = Z.of_nat w) as -> by (subst w; by destruct is_xsdt).
  assert (0 < Z.of_nat w) as Hw by (subst w; by destruct is_xsdt). rewrite wrap64_small by (unfold is_u64; lia).
  replace (36 + Z.of_nat w * Z.of_nat (length tables) - 36) with (Z.of_nat (length tables) * Z.of_nat w) by lia.
  rewrite Z.div_mul, Nat2Z.id by lia. rewrite <- Hf. exact (find_table_loop_spec m sdt is_xsdt FACP [] tables He Hr).
Qed.

Lemma slp_bits (t : Z) : 0 <= t < 8 -> Z.lor (shl10 t) 8192 = t * 1024 + 8192.
Proof. intros Ht. assert (t ∈ seqZ 0 8) as Hin by (apply elem_of_seqZ; lia). revert Hin. cbn. intros Hin. repeat (apply elem_of_cons in Hin as [->|Hin]; [reflexivity|]). by apply elem_of_nil in Hin. Qed.

(** The power-off sequence.  When the ACPI tables lead from the root pointer to the
    fixed description table, and its definition block names the soft-off state with a
    package of two integers as the compiler writes them (whatever precedes it, whatever
    the width of the package length), the kernel finds both sleep types, and shutting
    down switches to ACPI mode when the table says how, then writes to each power
    control register exactly its sleep type with the enable bit, and only after that
    falls back to the emulator's ports. *)
Theorem power_off_writes_s5 (m : gmap Z Z) (rsdp fadt : Z) pre lead more count a b rest post :
  tables_at m rsdp fadt -> block_at m (read_u32 m (fadt + 40)) pre lead more count (aml_int a ++ aml_int b ++ rest) post ->
  0 <= a < 8 -> 0 <= b < 8 ->
  let pm1a := read_u32 m (fadt + 64) mod 65536 in
  let pm1b := read_u32 m (fadt + 68) mod 65536 in
  let smi := read_u32 m (fadt + 48) mod 65536 in
  let enable := read_u8 m (fadt + 52) in
  shutdown (find_power_info m rsdp) =
    (if (smi =? 0) || (enable =? 0) then [] else [Outb smi enable]) ++ [Outw pm1a (a * 1024 + 8192)] ++
    (if pm1b =? 0 then [] else [Outw pm1b (b * 1024 + 8192)]) ++ [Outw 0x604 0x2000; Outw 0xB004 0x2000].
Proof.
  intros Ht Hb Ha Hbb pm1a pm1b smi enable. destruct (find_fadt m rsdp fadt Ht) as (sdt & is_xsdt & Hp & Hf).
  pose proof (find_s5_spec _ _ _ _ _ _ _ _ _ _ Hb ltac:(lia) ltac:(lia)) as Hs5.
  unfold find_power_info. rewrite Hp. cbn [mbind option_bind]. rewrite Hf. cbn [mbind option_bind]. rewrite Hs5. cbn [mbind option_bind]. unfold shutdown. cbv zeta.
  cbn [smi_cmd acpi_enable pm1a_cnt pm1b_cnt slp_typa slp_typb]. fold pm1a pm1b smi enable. rewrite !slp_bits by done. unfold qemu_shutdown.
  destruct (smi =? 0), (enable =? 0); cbn [negb andb orb]; by rewrite <- ?app_assoc.
Qed.

(** A sleep type written as a double word is misread.  A package element encoded
    with the 32-bit integer prefix is legal, but its prefix byte is below [0x10] and is
    itself taken for the value: whatever the integer is, the kernel shuts down with
    sleep type 12 shifted into the register, not with the one of the table. *)
Theorem dword_sleep_type_misread (m : gmap Z Z) (dsdt : Z) pre lead more count (v : list Z) rest post :
  block_at m dsdt pre lead more count ([0x0C] ++ v ++ rest) post -> length v = 4%nat ->
  exists b, find_s5 m dsdt = Some (12 * 1024, b).
Proof.
  intros Hb Hv. destruct (block_s5 _ _ _ _ _ _ _ _ Hb) as (Hh & Hend & Hat).
  set (p := dsdt + 36 + Z.of_nat (length pre)) in *. set (end_ := dsdt + 36 + Z.of_nat (length (pre ++ _))) in *.
  destruct (bl_more _ _ _ _ _ _ _ _ Hb) as [_ H3]. rewrite !length_app in Hend. cbn [length] in Hend.
  pose proof (byte_head m _ _ _ Hh) as H0.
  assert (exists b, s5_at m p end_ = Some (12 * 1024, b)) as [b Hs].
  { rewrite Hat. cbn [slp_values]. rewrite (proj2 (Z.leb_gt (Z.min (p + 128) end_) _)) by lia. rewrite H0. cbn [Z.eqb Pos.eqb Z.leb Z.compare Pos.compare Pos.compare_cont].
    destruct (if _ <=? _ then _ else _) as [|b r]; by eexists. }
  exists b. by apply (find_s5_block m dsdt pre lead more count ([0x0C] ++ v ++ rest) post _ Hb).
Qed.

(** * Stopping the processes *)

(** Time passes: it does not go back, and some number of turns takes a tick; signalling
    processes takes none. *)
Class MachineLaws (W : Type) `{Machine W} := {
  turns_per_tick : nat;
  ticks_turn w : ticks w <= ticks (turn w);
  ticks_progress w : ticks w + 1 <= ticks (Nat.iter turns_per_tick turn w);
  ticks_on_procs f w : ticks (on_procs f w) = ticks w;
  procs_on_procs f w : procs (on_procs f w) = f (procs w)
}.

Section Ends.
Context {W : Type} `{MachineLaws W}.

(** The wait is over, for one of its two reasons, and not before it began. *)
Definition waited (deadline : Z) (w w' : W) : Prop :=
  ticks w <= ticks w' /\ (Process.shutdown_complete (procs w') = true \/ deadline <= ticks w').

Lemma wait_iter (k n : nat) (deadline : Z) (w : W) :
  (exists w', wait_stopped (k + n) deadline w = Some w' /\ waited deadline w w') \/
  wait_stopped (k + n) deadline w = wait_stopped n deadline (Nat.iter k turn w) /\ ticks w <= ticks (Nat.iter k turn w).
Proof.
  revert w. induction k as [|k IH]; intros w; [by right|]. cbn [Nat.add wait_stopped].
  destruct (negb _ && _) eqn:E.
  - pose proof (ticks_turn w). destruct (IH (turn w)) as [(w' & Hw & [Ht Hd])|[Hw Ht]].
    + left. exists w'. split; [done|]. split; [lia|done].
    + right. rewrite <- Nat.iter_succ_r in Hw, Ht. split; [done|lia].
  - left. exists w. split; [done|]. split; [done|]. apply andb_false_iff in E as [E|E]; [left; by apply negb_false_iff in E|right; zbool; lia].
Qed.

Lemma wait_ends (d : nat) (deadline : Z) (w : W) :
  deadline <= ticks w + Z.of_nat d -> exists w', wait_stopped (d * turns_per_tick + 1) deadline w = Some w' /\ waited deadline w w'.
Proof.
  revert w. induction d as [|d IH]; intros w Hd.
  - exists w. cbn [Nat.mul Nat.add wait_stopped]. rewrite (proj2 (Z.ltb_ge (ticks w) deadline)) by lia. rewrite andb_false_r.
    split; [done|]. split; [done|]. right. lia.
  - cbn [Nat.mul]. rewrite <- Nat.add_assoc.
    destruct (wait_iter turns_per_tick (d * turns_per_tick + 1) deadline w) as [Hw|[-> Ht]]; [done|].
    pose proof (ticks_progress w). destruct (IH (Nat.iter turns_per_tick turn w)) as (w' & -> & [Ht' Hr]); [lia|].
    exists w'. split; [done|]. split; [lia|done].
Qed.

(** Shutting down ends.  Whatever the processes do, [stop_processes] returns within
    two waits of 100 timer ticks, and when it does either every process but the kernel's
    has ended, or both waits ran out, the termination and then the kill signal having
    been sent to all; a second shutdown or reboot request never gets past the first. *)
Theorem stop_processes_ends (w : W) (power : option PowerInfo) :
  0 <= ticks w -> ticks w + 100 <= u64_max ->
  exists w', stop_processes (100 * turns_per_tick + 1) w = Some w' /\
    (Process.shutdown_complete (procs w') = true \/ Z.min u64_max (ticks w + 200) <= ticks w') /\
    begin_shutdown (100 * turns_per_tick + 1) power false w = (true, Some (w', shutdown power)) /\
    begin_shutdown (100 * turns_per_tick + 1) power true w = (true, None).
Proof.
  intros Hnn Hb. set (n := (100 * turns_per_tick + 1)%nat).
  assert (exists w', stop_processes n w = Some w' /\
    (Process.shutdown_complete (procs w') = true \/ Z.min u64_max (ticks w + 200) <= ticks w')) as (w' & Hs & Hr).
  { unfold stop_processes. set (w1 := on_procs _ w). assert (ticks w1 = ticks w) as Hw1 by apply ticks_on_procs.
    destruct (wait_ends 100 (deadline_after w1) w1) as (w2 & Hw2 & [Ht Hd]); [unfold deadline_after; lia|]. fold n in Hw2. rewrite Hw2. cbn [mbind option_bind].
    destruct (Process.shutdown_complete (procs w2)) eqn:Ec; [exists w2; by split; [|left]|].
    destruct Hd as [Hd|Hd]; [congruence|]. set (w3 := on_procs _ w2). assert (ticks w3 = ticks w2) as Hw3 by apply ticks_on_procs.
    destruct (wait_ends 100 (deadline_after w3) w3) as (w4 & Hw4 & [Ht' Hd']); [unfold deadline_after; lia|]. fold n in Hw4. rewrite Hw4.
    exists w4. split; [done|]. destruct Hd' as [?|Hd']; [by left|right]. unfold deadline_after in *. lia. }
  exists w'. split; [done|]. split; [done|]. unfold begin_shutdown. rewrite Hs. done.
Qed.
End Ends.

Module Example.
(** A machine on which a turn takes a tick and no process ever stops. *)
#[local] Instance clock : Machine (Z * Process.PState) := {|
  ticks w := w.1; procs w := w.2; on_procs f w := (w.1, f w.2); turn w := (w.1 + 1, w.2) |}.
#[local] Instance clock_laws : MachineLaws (Z * Process.PState).
Proof. refine {| turns_per_tick := 1 |}; cbn; intros; lia || done. Defined.

Lemma stop_processes_ends_witness :
  exists w', stop_processes 101 (5, Process.Example.st) = Some w' /\
    (Process.shutdown_complete (procs w') = true \/ Z.min u64_max (5 + 200) <= ticks w') /\
    begin_shutdown 101 None false (5, Process.Example.st) = (true, Some (w', shutdown None)) /\
    begin_shutdown 101 None true (5, Process.Example.st) = (true, None).
Proof.
  assert (5 + 100 <= u64_max) as Hmax by (unfold u64_max; rewrite u64_bound_val; lia).
  assert (0 <= ticks (5, Process.Example.st)) as Hnn by (cbn; lia).
  destruct (stop_processes_ends (5, Process.Example.st) None Hnn Hmax) as (w' & H1 & H2 & H3 & H4).
  change (100 * turns_per_tick + 1)%nat with 101%nat in *. exists w'. split; [exact H1|]. split; [exact H2|]. split; [exact H3|exact H4].
Defined.

(** A root pointer at 4096 to one table at 8192, whose only entry is the fixed
    description table at 12288; the definition block is at 16384. *)
Definition s5_block : list Z := [8] ++ S5 ++ package 6 [] 4 (aml_int 5 ++ aml_int 0 ++ [0; 0]) ++ [].
Definition dword_block : list Z := [8] ++ S5 ++ package 18 [] 4 ([0x0C] ++ [5; 0; 0; 0] ++ [0x0C; 5; 0; 0; 0]) ++ [].
Definition dsdt_bytes (l : list Z) : list Z := [68; 83; 68; 84] ++ to_le 4 (36 + Z.of_nat (length l)) ++ replicate 28 0 ++ l.
Definition fadt_bytes : list Z :=
  FACP ++ to_le 4 116 ++ replicate 32 0 ++ to_le 4 16384 ++ replicate 20 0 ++ to_le 4 0x604 ++ replicate 44 0 ++ to_le 4 0.
Definition rsdt_bytes : list Z := [82; 83; 68; 84] ++ to_le 4 40 ++ replicate 28 0 ++ to_le 4 12288.
Definition rsdp_bytes : list Z := Acpi.RSDP_SIGNATURE ++ replicate 8 0 ++ to_le 4 8192 ++ replicate 16 0.
Definition mem (l : list Z) : gmap Z Z :=
  Uaccess.store (Uaccess.store (Uaccess.store (Uaccess.store ∅ 4096 rsdp_bytes) 8192 rsdt_bytes) 12288 fadt_bytes) 16384 (dsdt_bytes l).

Lemma s5_block_at : block_at (mem s5_block) 16384 [8] 6 [] 4 (aml_int 5 ++ aml_int 0 ++ [0; 0]) [].
Proof.
  split; [vm_compute; reflexivity|vm_compute; reflexivity| |split; [reflexivity|cbn; lia]|vm_compute; lia].
  intros i Hi. destruct i as [|i]; [discriminate|cbn in Hi; lia].
Qed.

Lemma mem_tables : tables_at (mem s5_block) 4096 12288.
Proof.
  split. exists 8192, false, [12288]. split_and!; [vm_compute; reflexivity| |vm_compute; reflexivity].
  split; [vm_compute; reflexivity|vm_compute; reflexivity|repeat constructor; cbn; lia|].
  split; [lia|]. rewrite u64_bound_val. unfold Acpi.SDT_HEADER. cbn. lia.
Qed.

Lemma power_off_writes_s5_witness :
  shutdown (find_power_info (mem s5_block) 4096) = [Outw 0x604 (5 * 1024 + 8192); Outw 0x604 0x2000; Outw 0xB004 0x2000].
Proof.
  rewrite (power_off_writes_s5 (mem s5_block) 4096 12288 [8] 6 [] 4 5 0 [0; 0] []);
    [vm_compute; reflexivity|exact mem_tables| |lia|lia].
  replace (read_u32 (mem s5_block) (12288 + 40)) with 16384 by (vm_compute; reflexivity). exact s5_block_at.
Defined.

Lemma dword_sleep_type_misread_witness : exists b, find_s5 (mem dword_block) 16384 = Some (12 * 1024, b).
Proof.
  apply (dword_sleep_type_misread (mem dword_block) 16384 [8] 18 [] 4 [5; 0; 0; 0] [0x0C; 5; 0; 0; 0] []); [|reflexivity].
  split; [vm_compute; reflexivity|vm_compute; reflexivity| |split; [reflexivity|cbn; lia]|cbn; lia].
  intros i Hi. destruct i as [|i]; [discriminate|cbn in Hi; lia].
Defined.
End Example.

End Power.
