(* ===== verification/Desc.v ===== *)
(** Descriptor tables: [crates/kernel/src/arch/x86_64/idt.rs] and [gdt.rs], the table
    of fault entries of [handlers/faults.rs] and [SYS_IOPORT_REQUEST] of
    [syscall/device.rs].

    A table is the list of its 64-bit words; the addresses of the entry stubs, of the
    task state segments and of the interrupt stacks are parameters (the linker places
    them).  What the processor reads in a descriptor is defined beside the code's
    encoders, from the processor manual.  Loading the registers ([lidt], [lgdt], [ltr],
    the segment reloads) has no state here. *)
From stdpp Require Import base list numbers option gmap.
From S2P Require Import Prelude Thread Scheduler Process.

Open Scope Z_scope.

Module Desc.
Import Scheduler.Scheduler.

(** ** Interrupt gates *)

Record IdtEntry := mkGate { low : Z; high : Z }.
Definition missing : IdtEntry := mkGate 0 0.

Definition IdtEntry_new (handler selector ist type_attr : Z) : IdtEntry :=
  mkGate
    (Z.lor (Z.lor (Z.lor (Z.lor (Z.land handler 0xFFFF) (Z.shiftl selector 16)) (Z.shiftl (Z.land ist 7) 32)) (Z.shiftl type_attr 40))
       (Z.shiftl (Z.land (Z.shiftr handler 16) 0xFFFF) 48))
    (Z.shiftr handler 32).

Notation Idt := (list IdtEntry).

Definition set_handler (index handler : Z) (idt : Idt) : Idt := <[Z.to_nat index := IdtEntry_new handler KERNEL_CODE 0 0x8E]> idt.
Definition set_handler_with_ist (index handler ist : Z) (idt : Idt) : Idt :=
  <[Z.to_nat index := IdtEntry_new handler KERNEL_CODE ist 0x8E]> idt.
Definition set_user_handler (index handler : Z) (idt : Idt) : Idt := <[Z.to_nat index := IdtEntry_new handler KERNEL_CODE 0 0xEE]> idt.

(** [handler_addr]; [stub v] is the address of [fault<v>_asm]. *)
Definition handler_addr (stub : Z -> Z) (vector : Z) : option Z :=
  if bool_decide (vector ∈ [0; 1; 2; 3; 4; 5; 6; 7; 8; 10; 11; 12; 13; 14; 16; 17; 18; 19; 20; 21]) then Some (stub vector) else None.

(** The loop body of [init] over the first 32 vectors. *)
Definition init_fault (stub : Z -> Z) (idt : Idt) (vector : Z) : Idt :=
  match handler_addr stub vector with
  | Some handler => if vector =? 8 then set_handler_with_ist vector handler 1 idt else set_handler vector handler idt
  | None => idt
  end.

Definition idt_init (stub : Z -> Z) (keyboard timer syscall mouse hda sci : Z) (idt : Idt) : Idt :=
  let idt := foldl (init_fault stub) idt (seqZ 0 32) in
  let idt := set_handler 0x21 keyboard idt in
  let idt := set_handler 0x2C mouse idt in
  let idt := set_handler 0x30 timer idt in
  let idt := set_handler 0x31 hda idt in
  let idt := set_handler 0x32 sci idt in
  set_user_handler 0x80 syscall idt.

(** ** Segments and task states *)

Definition MAX_CPUS : nat := 16.
Definition TSS_INDEX : nat := 5.
Definition GDT_ENTRIES : nat := 5 + 2 * MAX_CPUS.
(** [size_of::<Tss>()] (packed) and [size_of::<TssIopb>()]. *)
Definition TSS_SIZE : Z := 4 + 3 * 8 + 8 + 7 * 8 + 8 + 2 + 2.
Definition TSS_IOPB_SIZE : Z := TSS_SIZE + 8192 + 1.

(** The fields of a [TssIopb] the kernel writes; the byte after the map stays 0xFF. *)
Record Tss := mkTss { rsp0 : Z; ist0 : Z; iopb_offset : Z; iopb : list Z }.
Definition tss_new : Tss := mkTss 0 0 TSS_SIZE (replicate 8192 0xFF).

Record State := mkState { gdt : list Z; tss : list Tss }.
Definition static_state : State := mkState (replicate GDT_ENTRIES 0) (replicate MAX_CPUS tss_new).

Definition tss_selector (cpu_index : nat) : Z := (Z.of_nat TSS_INDEX + Z.of_nat cpu_index * 2) * 8 mod 2 ^ 16.

Definition set_kernel_stack_top_for_cpu (r : Z) (cpu_index : nat) (s : State) : State :=
  if bool_decide (cpu_index < MAX_CPUS)%nat
  then mkState (gdt s) (alter (fun t => mkTss r (ist0 t) (iopb_offset t) (iopb t)) cpu_index (tss s)) else s.

Definition allow_bit (port : Z) (l : list Z) : list Z :=
  alter (fun b => Z.land b (Z.lnot (Z.shiftl 1 (port mod 8)))) (Z.to_nat (port / 8)) l.
Definition iopb_allow_port_for_cpu (port : Z) (cpu_index : nat) (s : State) : State :=
  if bool_decide (MAX_CPUS <= cpu_index)%nat then s
  else mkState (gdt s) (alter (fun t => mkTss (rsp0 t) (ist0 t) (iopb_offset t) (allow_bit port (iopb t))) cpu_index (tss s)).

Definition tss_descriptor_low (base limit : Z) : Z :=
  Z.lor (Z.lor (Z.lor (Z.lor (Z.lor (Z.land limit 0xffff) (Z.shiftl (Z.land base 0xffff) 16)) (Z.shiftl (Z.land (Z.shiftr base 16) 0xff) 32))
    (Z.shiftl 0x89 40)) (Z.shiftl (Z.land (Z.shiftr limit 16) 0xf) 48)) (Z.shiftl (Z.land (Z.shiftr base 24) 0xff) 56).

(** One turn of the loop of [init]; [tss_base i] and [ist_base i] are the addresses of
    [TSS[i]] and [IST_STACKS[i]]. *)
Definition init_cpu (tss_base ist_base : nat -> Z) (s : State) (i : nat) : State :=
  let idx := (TSS_INDEX + i * 2)%nat in
  let gdt := <[idx := tss_descriptor_low (tss_base i) (TSS_IOPB_SIZE - 1)]> (gdt s) in
  let gdt := <[S idx := Z.shiftr (tss_base i) 32]> gdt in
  mkState gdt (alter (fun t => mkTss (rsp0 t) (ist_base i + 16384) (iopb_offset t) (iopb t)) i (tss s)).

Definition gdt_init (tss_base ist_base : nat -> Z) (kernel_stack_top : Z) (s : State) : State :=
  let g := <[0%nat := 0]> (gdt s) in
  let g := <[1%nat := 0x00af9a000000ffff]> g in
  let g := <[2%nat := 0x00af92000000ffff]> g in
  let g := <[3%nat := 0x00affa000000ffff]> g in
  let g := <[4%nat := 0x00aff2000000ffff]> g in
  let s := foldl (init_cpu tss_base ist_base) (mkState g (tss s)) (seq 0 MAX_CPUS) in
  mkState (gdt s) (alter (fun t => mkTss kernel_stack_top (ist0 t) (iopb_offset t) (iopb t)) 0%nat (tss s)).

(** [SYS_IOPORT_REQUEST] on the CPU [cpu], for the caller [caller]. *)
Definition sys_ioport_request (cpu : nat) (caller arg0 arg1 : Z) (ps : Process.PState) (s : State) : Z * State :=
  if Thread.level Thread.Driver <? Thread.level (Process.privilege_level caller ps) then (u64_max, s)
  else
    let port := arg0 mod 2 ^ 16 in
    let count := arg1 mod 2 ^ 16 in
    (0, foldl (fun s i => iopb_allow_port_for_cpu ((port + i) mod 2 ^ 16) cpu s) s (seqZ 0 count)).

(** * What the processor reads *)

(** The [n] bits of a word from bit [k] on. *)
Definition bits (x k n : Z) : Z := x / 2 ^ k mod 2 ^ n.

Record Gate := mkReading { g_offset : Z; g_selector : Z; g_ist : Z; g_type : Z; g_dpl : Z; g_present : Z }.
Definition read_gate (e : IdtEntry) : Gate :=
  mkReading (bits (low e) 0 16 + bits (low e) 48 16 * 2 ^ 16 + bits (high e) 0 32 * 2 ^ 32) (bits (low e) 16 16) (bits (low e) 32 3)
    (bits (low e) 40 4) (bits (low e) 45 2) (bits (low e) 47 1).

(** A 16-byte system descriptor: base, limit, type, privilege, present. *)
Definition read_system (lo hi : Z) : Z * Z * Z * Z * Z :=
  (bits lo 16 24 + bits lo 56 8 * 2 ^ 24 + bits hi 0 32 * 2 ^ 32, bits lo 0 16 + bits lo 48 4 * 2 ^ 16, bits lo 40 5, bits lo 45 2, bits lo 47 1).

Lemma lor_field (a b k : Z) : 0 <= k -> 0 <= a < 2 ^ k -> Z.lor a (Z.shiftl b k) = a + b * 2 ^ k.
Proof.
  intros Hk Ha. rewrite Z.shiftl_mul_pow2 by lia. symmetry. rewrite <- Z.lxor_lor; [apply Z.add_nocarry_lxor|];
    (apply Z.bits_inj'; intros i Hi; rewrite Z.land_spec, Z.bits_0; destruct (Z.lt_ge_cases i k);
      [rewrite Z.mul_pow2_bits_low by lia; apply andb_false_r|]; replace a with (a mod 2 ^ k) by (apply Z.mod_small; lia);
      rewrite Z.mod_pow2_bits_high by lia; done).
Qed.

Lemma land_field (x n : Z) : 0 <= n -> Z.land x (2 ^ n - 1) = x mod 2 ^ n.
Proof. intros. replace (2 ^ n - 1) with (Z.ones n) by (rewrite Z.ones_equiv; lia). by apply Z.land_ones. Qed.
Lemma gate_roundtrip (handler selector ist ty : Z) :
  0 <= handler < 2 ^ 64 -> 0 <= selector < 2 ^ 16 -> 0 <= ist < 8 -> 0 <= ty < 256 ->
  read_gate (IdtEntry_new handler selector ist ty) = mkReading handler selector ist (ty mod 16) (ty / 32 mod 4) (ty / 128).
Proof.
  intros Hh Hs Hi Ht. unfold IdtEntry_new, read_gate. cbn [low high].
  change 0xFFFF with (2 ^ 16 - 1). change 7 with (2 ^ 3 - 1). rewrite !land_field, !Z.shiftr_div_pow2 by lia.
  change (2 ^ 64) with 18446744073709551616 in *. change (2 ^ 16) with 65536 in *. change (2 ^ 3) with 8 in *.
  rewrite (lor_field (handler mod 65536)) by (try change (2 ^ 16) with 65536; try apply Z.mod_pos_bound; lia).
  pose proof (Z.mod_pos_bound handler 65536 ltac:(lia)).
  rewrite (Z.mod_small ist) by lia. change (2 ^ 16) with 65536. set (a := handler mod 65536) in *.
  rewrite (lor_field _ ist) by (change (2 ^ 32) with 4294967296; lia). change (2 ^ 32) with 4294967296.
  rewrite (lor_field _ ty) by (change (2 ^ 40) with 1099511627776; lia). change (2 ^ 40) with 1099511627776.
  pose proof (Z.mod_pos_bound (handler / 65536) 65536 ltac:(lia)).
  rewrite lor_field by (change (2 ^ 48) with 281474976710656; lia). change (2 ^ 48) with 281474976710656.
  set (b := handler / 65536 mod 65536) in *. unfold bits. cbn [Z.pow Z.pow_pos Pos.iter Z.mul Pos.mul].
  f_equal; subst a b; Z.to_euclidean_division_equations; lia.
Qed.

Lemma system_roundtrip (b limit : Z) : 0 <= b < 2 ^ 64 -> 0 <= limit < 2 ^ 20 ->
  read_system (tss_descriptor_low b limit) (Z.shiftr b 32) = (b, limit, 9, 0, 1).
Proof.
  intros Hb Hl. unfold tss_descriptor_low, read_system.
  change 0xffff with (2 ^ 16 - 1). change 0xff with (2 ^ 8 - 1). change 0xf with (2 ^ 4 - 1). rewrite !land_field, !Z.shiftr_div_pow2 by lia.
  change (2 ^ 64) with 18446744073709551616 in *. change (2 ^ 20) with 1048576 in *. change (2 ^ 16) with 65536. change (2 ^ 8) with 256. change (2 ^ 4) with 16.
  change (2 ^ 24) with 16777216.
  pose proof (Z.mod_pos_bound limit 65536 ltac:(lia)). pose proof (Z.mod_pos_bound b 65536 ltac:(lia)).
  pose proof (Z.mod_pos_bound (b / 65536) 256 ltac:(lia)). pose proof (Z.mod_pos_bound (limit / 65536) 16 ltac:(lia)). pose proof (Z.mod_pos_bound (b / 16777216) 256 ltac:(lia)).
  set (l0 := limit mod 65536) in *. set (l1 := (limit / 65536) mod 16) in *. set (b0 := b mod 65536) in *. set (b1 := (b / 65536) mod 256) in *.
  set (b2 := (b / 16777216) mod 256) in *.
  rewrite (lor_field l0) by (change (2 ^ 16) with 65536; lia). change (2 ^ 16) with 65536.
  rewrite (lor_field _ b1) by (change (2 ^ 32) with 4294967296; lia). change (2 ^ 32) with 4294967296.
  rewrite (lor_field _ 0x89) by (change (2 ^ 40) with 1099511627776; lia). change (2 ^ 40) with 1099511627776.
  rewrite (lor_field _ l1) by (change (2 ^ 48) with 281474976710656; lia). change (2 ^ 48) with 281474976710656.
  rewrite (lor_field _ b2) by (change (2 ^ 56) with 72057594037927936; lia). change (2 ^ 56) with 72057594037927936.
  unfold bits. cbn [Z.pow Z.pow_pos Pos.iter Z.mul Pos.mul].
  repeat f_equal; subst l0 l1 b0 b1 b2; Z.to_euclidean_division_equations; lia.
Qed.

(** ** The interrupt table *)

(** What is installed at a vector: the handler, its interrupt stack, its privilege. *)
Section Idt.
Context (stub : Z -> Z) (keyboard timer syscall mouse hda sci : Z).

Definition installed (v : Z) : option (Z * Z * Z) :=
  match handler_addr stub v with
  | Some h => Some (h, if v =? 8 then 1 else 0, 0)
  | None =>
      if v =? 0x21 then Some (keyboard, 0, 0) else if v =? 0x2C then Some (mouse, 0, 0) else if v =? 0x30 then Some (timer, 0, 0)
      else if v =? 0x31 then Some (hda, 0, 0) else if v =? 0x32 then Some (sci, 0, 0) else if v =? 0x80 then Some (syscall, 0, 3) else None
  end.

Definition installed_entry (v : Z) : IdtEntry :=
  match installed v with Some (h, ist, dpl) => IdtEntry_new h KERNEL_CODE ist (if dpl =? 3 then 0xEE else 0x8E) | None => missing end.

Lemma idt_init_table : idt_init stub keyboard timer syscall mouse hda sci (replicate 256 missing) = installed_entry <$> seqZ 0 256.
Proof. cbv -[IdtEntry_new]. reflexivity. Qed.
End Idt.

(** The interrupt table as the processor reads it.  After [init], whatever the
    addresses of the handlers are, each vector's gate leads to exactly the handler the
    kernel meant for it, through the kernel code segment, as a present interrupt gate
    (interrupts masked); the double fault alone runs on the separate stack 1; a program
    in ring 3 can enter through vector 0x80 and no other; every other vector is absent. *)
Theorem idt_gates (stub : Z -> Z) (keyboard timer syscall mouse hda sci v : Z) :
  (forall v, 0 <= stub v < 2 ^ 64) -> Forall (fun a => 0 <= a < 2 ^ 64) [keyboard; timer; syscall; mouse; hda; sci] -> 0 <= v < 256 ->
  exists e, idt_init stub keyboard timer syscall mouse hda sci (replicate 256 missing) !! Z.to_nat v = Some e /\
    read_gate e = match installed stub keyboard timer syscall mouse hda sci v with
                  | Some (h, ist, dpl) => mkReading h KERNEL_CODE ist 14 dpl 1
                  | None => mkReading 0 0 0 0 0 0
                  end /\
    (g_present (read_gate e) = 1 /\ g_dpl (read_gate e) = 3 <-> v = 0x80).
Proof.
  intros Hst Hrest Hv. rewrite !Forall_cons in Hrest. destruct Hrest as (Hk & Ht & Hs & Hm & Hh & Hc & _).
  exists (installed_entry stub keyboard timer syscall mouse hda sci v).
  rewrite idt_init_table, list_lookup_fmap, lookup_seqZ_lt, Z2Nat.id by lia. split; [done|].
  assert (exists x, installed stub keyboard timer syscall mouse hda sci v = x) as [x Hx] by eauto.
  unfold installed_entry. rewrite Hx.
  assert (match x with Some (h, ist, dpl) => 0 <= h < 2 ^ 64 /\ 0 <= ist < 8 /\ (dpl = 0 /\ v <> 0x80 \/ dpl = 3 /\ v = 0x80) | None => v <> 0x80 end) as Hok.
  { subst x. unfold installed, handler_addr. destruct (bool_decide _) eqn:Hin.
    - split; [done|]. split; [destruct (v =? 8); lia|]. left. split; [done|]. intros ->. discriminate Hin.
    - repeat (case_match; zbool; subst); simplify_eq; (lia || (split; [done|]; split; lia)). }
  destruct x as [[[h ist] dpl]|].
  - destruct Hok as (Hh' & Hi & Hd). assert (0 <= KERNEL_CODE < 2 ^ 16) by (unfold KERNEL_CODE; lia).
    destruct Hd as [[-> Hd]|[-> Hd]]; cbn [Z.eqb Z.compare Pos.eqb]; rewrite gate_roundtrip by (done || lia);
      (split; [reflexivity|]); cbn [g_present g_dpl]; split; intros; (lia || done || by destruct_and?).
  - split; [reflexivity|]. split; [by intros [? _]|done].
Qed.

(** ** The segment table *)

(** Privilege and presence of a code or data segment, and whether it is 64-bit code. *)
Definition segment_dpl (d : Z) : Z := bits d 45 2.
Definition segment_kind (d : Z) : Z * Z * Z := (bits d 40 5, bits d 47 1, bits d 53 1).
(** The descriptor a selector names; its low two bits are the privilege it asks for. *)
Definition named (sel : Z) (g : list Z) : Z := default 0 (g !! Z.to_nat (sel / 8)).

Lemma gdt_init_table (tss_base ist_base : nat -> Z) (top : Z) (s : State) :
  gdt s = replicate GDT_ENTRIES 0 ->
  gdt (gdt_init tss_base ist_base top s) =
    [0; 0x00af9a000000ffff; 0x00af92000000ffff; 0x00affa000000ffff; 0x00aff2000000ffff] ++
    (seq 0 MAX_CPUS ≫= fun i => [tss_descriptor_low (tss_base i) (TSS_IOPB_SIZE - 1); Z.shiftr (tss_base i) 32]).
Proof.
  intros Hg. unfold gdt_init. rewrite Hg. generalize (tss s). intros t. cbv -[tss_descriptor_low Z.shiftr TSS_IOPB_SIZE alter list_alter Z.sub Z.add]. reflexivity.
Qed.

Lemma lookup_pairs {A : Type} (f g : nat -> A) (i k n : nat) :
  (i < n)%nat -> (seq k n ≫= fun i => [f i; g i]) !! (2 * i)%nat = Some (f (k + i)%nat) /\
                 (seq k n ≫= fun i => [f i; g i]) !! S (2 * i) = Some (g (k + i)%nat).
Proof.
  revert i k. induction n as [|n IH]; intros i k Hi; [lia|]. cbn [seq]. rewrite bind_cons. destruct i as [|i].
  - by rewrite Nat.add_0_r.
  - replace (2 * S i)%nat with (S (S (2 * i))) by lia. replace (k + S i)%nat with (S k + i)%nat by lia.
    exact (IH i (S k) ltac:(lia)).
Qed.

(** The segment table.  After [init] the selectors the kernel loads and puts into the
    frames of user threads name present segments of their own privilege: 64-bit code
    and data of ring 0 for the kernel, of ring 3 for user threads; and the selector of
    each of the 16 CPUs names the two words of an available 64-bit task state of ring
    0 whose base is exactly that CPU's own and whose limit takes in the whole I/O map. *)
Theorem gdt_segments (tss_base ist_base : nat -> Z) (top : Z) (cpu : nat) :
  (forall i, 0 <= tss_base i < 2 ^ 64) -> (cpu < MAX_CPUS)%nat ->
  let g := gdt (gdt_init tss_base ist_base top static_state) in
  Forall (fun sel => segment_dpl (named sel g) = sel mod 4) [KERNEL_CODE; KERNEL_DATA; USER_CODE; USER_DATA] /\
  segment_kind (named KERNEL_CODE g) = (26, 1, 1) /\ segment_kind (named USER_CODE g) = (26, 1, 1) /\
  bits (named KERNEL_DATA g) 40 5 = 18 /\ bits (named USER_DATA g) 40 5 = 18 /\
  read_system (named (tss_selector cpu) g) (named (tss_selector cpu + 8) g) = (tss_base cpu, TSS_IOPB_SIZE - 1, 9, 0, 1).
Proof.
  intros Hb Hc g. subst g. rewrite gdt_init_table by done. split_and!; [repeat constructor|reflexivity..|].
  unfold MAX_CPUS in Hc. unfold named, tss_selector, TSS_INDEX. rewrite Z.mod_small by (change (2 ^ 16) with 65536; lia).
  replace ((Z.of_nat 5 + Z.of_nat cpu * 2) * 8 + 8) with ((Z.of_nat 5 + Z.of_nat cpu * 2 + 1) * 8) by lia. rewrite !Z.div_mul by lia.
  replace (Z.to_nat (Z.of_nat 5 + Z.of_nat cpu * 2)) with (5 + 2 * cpu)%nat by lia.
  replace (Z.to_nat (Z.of_nat 5 + Z.of_nat cpu * 2 + 1)) with (5 + S (2 * cpu))%nat by lia.
  destruct (lookup_pairs (fun i => tss_descriptor_low (tss_base i) (TSS_IOPB_SIZE - 1)) (fun i => Z.shiftr (tss_base i) 32) cpu 0 MAX_CPUS) as [H1 H2]; [unfold MAX_CPUS; lia|].
  rewrite (lookup_app_r _ _ (5 + 2 * cpu)), (lookup_app_r _ _ (5 + S (2 * cpu))) by (simpl; lia).
  change (length [0; 0x00af9a000000ffff; 0x00af92000000ffff; 0x00affa000000ffff; 0x00aff2000000ffff]) with 5%nat.
  replace (5 + 2 * cpu - 5)%nat with (2 * cpu)%nat by lia. replace (5 + S (2 * cpu) - 5)%nat with (S (2 * cpu)) by lia.
  rewrite H1, H2. cbn [from_option id Nat.add]. apply system_roundtrip; [done|]. vm_compute. split; [intros ?|]; done.
Qed.

(** ** I/O ports *)

(** The processor lets ring 3 use a port if its bit of the map of the running CPU's
    task state is clear; what it reads does not depend on the process. *)
Definition io_allowed (s : State) (cpu : nat) (port : Z) : bool :=
  match tss s !! cpu with
  | Some t => negb (Z.testbit (default 0xFF (iopb t !! Z.to_nat (port / 8))) (port mod 8))
  | None => false
  end.

Definition is_port (p : Z) : Prop := 0 <= p < 65536.

(** All maps have their size. *)
Definition swf (s : State) : Prop := length (tss s) = MAX_CPUS /\ Forall (fun t => length (iopb t) = 8192%nat) (tss s).

Lemma swf_alter (f : Tss -> Tss) (cpu : nat) (s : State) :
  (forall t, length (iopb (f t)) = length (iopb t)) -> swf s -> swf (mkState (gdt s) (alter f cpu (tss s))).
Proof.
  intros Hf [Hl Hi]. split; cbn; [by rewrite length_alter|]. apply Forall_alter; [done|]. intros t _ Ht. by rewrite Hf.
Qed.

Lemma allow_bit_spec (p q : Z) (l : list Z) : is_port p -> is_port q -> length l = 8192%nat ->
  Z.testbit (default 0xFF (allow_bit p l !! Z.to_nat (q / 8))) (q mod 8) =
  Z.testbit (default 0xFF (l !! Z.to_nat (q / 8))) (q mod 8) && negb (p =? q).
Proof.
  unfold is_port. intros Hp Hq Hl. unfold allow_bit. pose proof (Z.mod_pos_bound p 8 ltac:(lia)). pose proof (Z.mod_pos_bound q 8 ltac:(lia)).
  pose proof (Z.div_mod p 8 ltac:(lia)). pose proof (Z.div_mod q 8 ltac:(lia)).
  assert (Z.to_nat (q / 8) < length l)%nat as Hlt by (rewrite Hl; apply Nat2Z.inj_lt; rewrite Z2Nat.id by lia; change (Z.of_nat 8192) with 8192; lia).
  destruct (lookup_lt_is_Some_2 l _ Hlt) as [x Hx].
  destruct (Z.eq_dec (p / 8) (q / 8)) as [He|Hne].
  - rewrite He, list_lookup_alter_eq, Hx. cbn [fmap option_fmap option_map from_option id].
    rewrite Z.land_spec, Z.lnot_spec by lia. f_equal. f_equal. rewrite Z.shiftl_spec by lia.
    destruct (p =? q) eqn:E; zbool; [subst; by rewrite Z.sub_diag|].
    destruct (Z.lt_ge_cases (q mod 8) (p mod 8)); [apply Z.testbit_neg_r; lia|]. rewrite (Z.bits_above_log2 1); [done|lia|cbn; lia].
  - rewrite list_lookup_alter_ne by lia. rewrite (proj2 (Z.eqb_neq p q)) by congruence. by rewrite andb_true_r.
Qed.

Lemma allow_port_spec (p q : Z) (cpu c : nat) (s : State) : swf s -> (cpu < MAX_CPUS)%nat -> is_port p -> is_port q ->
  swf (iopb_allow_port_for_cpu p cpu s) /\
  io_allowed (iopb_allow_port_for_cpu p cpu s) c q = io_allowed s c q || (bool_decide (c = cpu) && (p =? q)).
Proof.
  intros Hs Hc Hp Hq. unfold iopb_allow_port_for_cpu. rewrite bool_decide_eq_false_2 by lia. split.
  { apply swf_alter; [|done]. intros t. cbn. apply length_alter. }
  unfold io_allowed. cbn [tss]. destruct Hs as [Hl Hi]. case_bool_decide as E.
  - subst c. rewrite list_lookup_alter_eq. destruct (lookup_lt_is_Some_2 (tss s) cpu ltac:(lia)) as [t Ht]. rewrite Ht. cbn [fmap option_fmap option_map iopb].
    rewrite allow_bit_spec; [|done|done|by eapply (Forall_lookup_1 _ _ _ _ Hi)]. by destruct (Z.testbit _ _), (p =? q).
  - rewrite list_lookup_alter_ne by done. by rewrite orb_false_r.
Qed.

(** A run of grants: exactly those ports. *)
Lemma allow_ports_spec (ps : list Z) (q : Z) (cpu c : nat) (s : State) : swf s -> (cpu < MAX_CPUS)%nat -> Forall is_port ps -> is_port q ->
  let s' := foldl (fun s p => iopb_allow_port_for_cpu p cpu s) s ps in
  swf s' /\ io_allowed s' c q = io_allowed s c q || (bool_decide (c = cpu) && bool_decide (q ∈ ps)).
Proof.
  intros Hs Hc Hps Hq. revert s Hs. induction Hps as [|p ps Hp Hps IH]; intros s Hs; cbn [foldl].
  { split; [done|]. rewrite (bool_decide_eq_false_2 (q ∈ [])) by apply not_elem_of_nil. by rewrite andb_false_r, orb_false_r. }
  destruct (allow_port_spec p q cpu c s Hs Hc Hp Hq) as [H1 H2]. destruct (IH _ H1) as [H3 H4]. split; [done|]. rewrite H4, H2.
  rewrite <- orb_assoc, <- andb_orb_distrib_r. f_equal. f_equal.
  destruct (p =? q) eqn:E; zbool; cbn [orb].
  - subst. by rewrite bool_decide_eq_true_2 by constructor.
  - apply bool_decide_ext. rewrite elem_of_cons. split; [by right|by intros [?|?]].
Qed.

Lemma request_as_list (cpu : nat) (port count : Z) (s : State) :
  foldl (fun s i => iopb_allow_port_for_cpu ((port + i) mod 2 ^ 16) cpu s) s (seqZ 0 count) =
  foldl (fun s p => iopb_allow_port_for_cpu p cpu s) s ((fun i => (port + i) mod 2 ^ 16) <$> seqZ 0 count).
Proof. generalize (seqZ 0 count). intros l. revert s. induction l as [|i l IH]; intros s; [done|]. cbn. apply IH. Qed.

Lemma request_ports (port count : Z) : Forall is_port ((fun i => (port + i) mod 2 ^ 16) <$> seqZ 0 count).
Proof. apply Forall_fmap, Forall_true. intros i. apply Z.mod_pos_bound. lia. Qed.

Lemma request_elem (arg0 arg1 q : Z) : is_port q ->
  q ∈ ((fun i => (arg0 mod 2 ^ 16 + i) mod 2 ^ 16) <$> seqZ 0 (arg1 mod 2 ^ 16)) <-> (q - arg0) mod 65536 < arg1 mod 65536.
Proof.
  unfold is_port. intros Hq. change (2 ^ 16) with 65536. pose proof (Z.mod_pos_bound arg1 65536 ltac:(lia)). pose proof (Z.mod_pos_bound (q - arg0) 65536 ltac:(lia)).
  rewrite list_elem_of_fmap. split.
  - intros (i & -> & Hi%elem_of_seqZ). rewrite Zminus_mod_idemp_l. replace (arg0 mod 65536 + i - arg0) with (arg0 mod 65536 - arg0 + i) by lia.
    rewrite <- Zplus_mod_idemp_l, Zminus_mod_idemp_l, Z.sub_diag, Z.mod_0_l by lia. rewrite Z.mod_small by lia. lia.
  - intros Hlt. exists ((q - arg0) mod 65536). split; [|apply elem_of_seqZ; lia].
    rewrite Zplus_mod_idemp_l, Zplus_mod_idemp_r. replace (arg0 + (q - arg0)) with q by lia. by rewrite Z.mod_small.
Qed.

(** Port grants are exact.  A caller below driver privilege is refused and nothing
    changes; for any other, the call returns 0 and ring 3 may then use on the calling
    CPU exactly the ports it could use before and the requested ones (from the first
    port on, modulo 2^16), and on every other CPU exactly what it could before. *)
Theorem ioport_request_exact (cpu c : nat) (caller arg0 arg1 q : Z) (ps : Process.PState) (s : State) :
  swf s -> (cpu < MAX_CPUS)%nat -> is_port q ->
  let '(r, s') := sys_ioport_request cpu caller arg0 arg1 ps s in
  swf s' /\
  if Thread.level Thread.Driver <? Thread.level (Process.privilege_level caller ps) then r = u64_max /\ s' = s
  else r = 0 /\ io_allowed s' c q = io_allowed s c q || (bool_decide (c = cpu) && ((q - arg0) mod 65536 <? arg1 mod 65536)).
Proof.
  intros Hs Hc Hq. unfold sys_ioport_request. destruct (_ <? _); [done|]. rewrite request_as_list.
  destruct (allow_ports_spec _ q cpu c s Hs Hc (request_ports (arg0 mod 2 ^ 16) (arg1 mod 2 ^ 16)) Hq) as [H1 H2].
  split; [done|]. split; [done|]. rewrite H2. f_equal. f_equal.
  apply eq_true_iff_eq. by rewrite bool_decide_eq_true, Z.ltb_lt, request_elem.
Qed.

(** Everything the kernel does to a task state once it runs. *)
Inductive op := KernelStack (r : Z) (cpu : nat) | Request (cpu : nat) (caller arg0 arg1 : Z) (ps : Process.PState).
Definition run_op (s : State) (o : op) : State :=
  match o with
  | KernelStack r cpu => set_kernel_stack_top_for_cpu r cpu s
  | Request cpu caller arg0 arg1 ps => snd (sys_ioport_request cpu caller arg0 arg1 ps s)
  end.
Definition op_ok (o : op) : Prop := match o with KernelStack _ _ => True | Request cpu _ _ _ _ => (cpu < MAX_CPUS)%nat end.

Lemma run_op_keeps (o : op) (s : State) (c : nat) (q : Z) : swf s -> op_ok o -> is_port q ->
  swf (run_op s o) /\ (io_allowed s c q = true -> io_allowed (run_op s o) c q = true).
Proof.
  intros Hs Ho Hq. destruct o as [r cpu|cpu caller arg0 arg1 ps]; cbn [run_op].
  - unfold set_kernel_stack_top_for_cpu. case_bool_decide; [|done]. split; [by apply swf_alter|].
    unfold io_allowed. cbn [tss]. destruct (decide (c = cpu)) as [->|].
    + rewrite list_lookup_alter_eq. by destruct (tss s !! cpu).
    + by rewrite list_lookup_alter_ne.
  - unfold sys_ioport_request. destruct (_ <? _); [done|]. cbn [snd]. rewrite request_as_list.
    destruct (allow_ports_spec _ q cpu c s Hs Ho (request_ports (arg0 mod 2 ^ 16) (arg1 mod 2 ^ 16)) Hq) as [H1 H2].
    split; [done|]. intros Ha. by rewrite H2, Ha.
Qed.

(** Port grants are never taken back.  Once a driver was granted a port, every process
    that runs in ring 3 on that CPU may use it, whatever its privilege, after every
    later operation of the kernel on the task states, the driver's exit included: the
    map belongs to the CPU, and nothing sets a bit of it again. *)
Theorem port_grant_outlives_driver (ops : list op) (cpu : nat) (caller arg0 arg1 q : Z) (ps : Process.PState) (s : State) :
  swf s -> (cpu < MAX_CPUS)%nat -> Forall op_ok ops -> is_port q -> Thread.level (Process.privilege_level caller ps) <= Thread.level Thread.Driver ->
  (q - arg0) mod 65536 < arg1 mod 65536 ->
  io_allowed (foldl run_op (run_op s (Request cpu caller arg0 arg1 ps)) ops) cpu q = true.
Proof.
  intros Hs Hc Hops Hq Hpriv Hin.
  assert (swf (run_op s (Request cpu caller arg0 arg1 ps)) /\ io_allowed (run_op s (Request cpu caller arg0 arg1 ps)) cpu q = true) as [H1 H2].
  { split; [by apply (run_op_keeps _ _ cpu q)|]. cbn [run_op]. unfold sys_ioport_request. rewrite (proj2 (Z.ltb_ge _ _)) by done. cbn [snd].
    rewrite request_as_list. destruct (allow_ports_spec _ q cpu cpu s Hs Hc (request_ports (arg0 mod 2 ^ 16) (arg1 mod 2 ^ 16)) Hq) as [_ ->].
    rewrite (bool_decide_eq_true_2 (cpu = cpu)), bool_decide_eq_true_2 by (done || by apply request_elem). apply orb_true_r. }
  clear Hin Hpriv Hs. generalize dependent (run_op s (Request cpu caller arg0 arg1 ps)). intros s' H1 H2. revert s' H1 H2.
  induction Hops as [|o ops Ho Hops IH]; intros s' H1 H2; [done|]. cbn [foldl].
  destruct (run_op_keeps o s' cpu q H1 Ho Hq) as [H3 H4]. apply IH; [done|by apply H4].
Qed.

Module Example.
(** The mouse driver, process 5, asks for the keyboard controller's data port. *)
Definition driver : Process.Process :=
  Process.mkProc 5 Thread.Running (Process.fixed_name [109]) 0 0 0 0 0 false false false false false false 0 0 0 Thread.Driver (Some 1) [1].
Definition procs : Process.PState :=
  Process.mkPState (Thread.mkTState [] 3 true 0 (replicate 16 0) ∅ Allocator.Allocator.ALLOCATOR)
    (Scheduler.mkSState (Some 5 :: replicate 15 None) (Some 1 :: replicate 15 None) (replicate 16 None) (replicate 16 false))
    [Process.kernel_process; driver] 7 true.

Lemma static_swf : swf static_state.
Proof. split; cbn [tss static_state]; [apply length_replicate|]. apply Forall_replicate. cbn [iopb tss_new]. apply length_replicate. Qed.

Definition stubs (v : Z) : Z := if bool_decide (0 <= v < 256) then 0x200000 + v else 0x200000.

Lemma idt_gates_witness :
  exists e, idt_init stubs 1 2 0xFFFF800012345678 4 5 6 (replicate 256 missing) !! 128%nat = Some e /\
    read_gate e = mkReading 0xFFFF800012345678 8 0 14 3 1.
Proof.
  destruct (idt_gates stubs 1 2 0xFFFF800012345678 4 5 6 0x80) as (e & H1 & H2 & _).
  - intros v. unfold stubs. case_bool_decide; lia.
  - repeat constructor; lia.
  - lia.
  - exists e. split; [exact H1|exact H2].
Defined.

Lemma gdt_segments_witness :
  let g := gdt (gdt_init (fun i => 0x400000 + Z.of_nat (Nat.min i 15) * 8304) (fun _ => 0) 0 static_state) in
  read_system (named (tss_selector 3) g) (named (tss_selector 3 + 8) g) = (0x400000 + 3 * 8304, 8296, 9, 0, 1).
Proof. apply (gdt_segments (fun i => 0x400000 + Z.of_nat (Nat.min i 15) * 8304) (fun _ => 0) 0 3); [lia|unfold MAX_CPUS; lia]. Defined.

Lemma ioport_request_exact_witness :
  io_allowed (snd (sys_ioport_request 0 5 96 1 procs static_state)) 0 97 = io_allowed static_state 0 97 || false.
Proof.
  pose proof (ioport_request_exact 0 0 5 96 1 97 procs static_state static_swf ltac:(unfold MAX_CPUS; lia) ltac:(unfold is_port; lia)) as H.
  destruct (sys_ioport_request 0 5 96 1 procs static_state) as [r s']. destruct H as [_ [_ H]]. exact H.
Defined.

Lemma port_grant_outlives_driver_witness :
  io_allowed (foldl run_op (run_op static_state (Request 0 5 96 1 procs)) [KernelStack 4096 0; Request 0 9 0 0 procs]) 0 96 = true.
Proof.
  apply port_grant_outlives_driver; [exact static_swf|unfold MAX_CPUS; lia|repeat constructor; unfold op_ok, MAX_CPUS; lia|unfold is_port; lia|vm_compute; discriminate|reflexivity].
Defined.
End Example.

End Desc.
