(* ===== verification/Smp.v ===== *)
(** Processors: [crates/kernel/src/arch/x86_64/smp.rs] and the local interrupt
    controller of [crates/kernel/src/drivers/lapic.rs].

    Detection reads the ACPI tables of [Acpi.v]; a panic is [None].  The address of the
    stack area and of the trampoline's labels are the linker's: the layout of the
    trampoline's data is taken from the directives that lay it out, which leaves three
    numbers open, the offsets of its table of segments and of its two entry points.
    Low memory is a map from byte addresses; what the code writes to the controller is
    the list of register writes, and [icr] the values its command register reads. *)
From stdpp Require Import base list numbers option gmap.
From S2P Require Import Prelude Uaccess Acpi.

Open Scope Z_scope.

Module Smp.

Definition MAX_CPUS : nat := 16.
Definition TRAMPOLINE_PHYS : Z := 0x8000.

Record CpuData := mkCpu { cpu_index : Z; apic_id : Z; is_bsp : bool; current_tid : Z; idle : bool }.
Record State := mkState { CPU_COUNT : Z; BSP_APIC_ID : Z; APIC_IDS : list Z; CPU_DATA : list CpuData }.
Definition static_state : State := mkState 1 0 [] (replicate MAX_CPUS (mkCpu 0 0 false 0 false)).

Definition set_ids (ids : list Z) (s : State) : State := mkState (CPU_COUNT s) (BSP_APIC_ID s) ids (CPU_DATA s).

Definition apic_id_to_cpu_index (id : Z) (s : State) : option nat := position (fun i => i =? id) (APIC_IDS s).
Definition apic_id_for_cpu_index (index : nat) (s : State) : option Z := APIC_IDS s !! index.
(** [id] is what the controller of the running CPU says. *)
Definition current_cpu_index (id : Z) (s : State) : nat := default 0%nat (apic_id_to_cpu_index id s).

(** [stacks] is the address of [AP_STACKS]. *)
Definition cpu_kernel_stack_top (stacks : Z) (index : nat) : option Z :=
  if (index =? 0)%nat || (MAX_CPUS <=? index)%nat then None else Some (stacks + Z.of_nat (index - 1) * 32768 + 32768).

(** [for (i, &id) in ids.iter().enumerate()]; indexing past the array panics. *)
Fixpoint fill_data (bsp : Z) (i : nat) (ids : list Z) (d : list CpuData) : option (list CpuData) :=
  match ids with
  | [] => Some d
  | id :: ids' =>
      if (i <? length d)%nat
      then fill_data bsp (S i) ids' (<[i := mkCpu (Z.of_nat i) id (id =? bsp) 0 (negb (id =? bsp))]> d)
      else None
  end.

Definition detect_cpus (m : gmap Z Z) (rsdp : Z) (s : State) : option State :=
  if rsdp =? 0 then Some (mkState 1 0 [0] (CPU_DATA s))
  else
    match Acpi.parse_rsdp m rsdp with
    | Some (sdt_phys, is_xsdt) =>
        match Acpi.find_madt m sdt_phys is_xsdt with
        | Some madt_phys =>
            let ids := Acpi.parse_cpu_lapic_ids m madt_phys in
            let bsp := default (BSP_APIC_ID s) (head ids) in
            d ← fill_data bsp 0 ids (CPU_DATA s);
            Some (mkState (Z.max (Z.of_nat (length ids)) 1) bsp ids d)
        | None => Some (set_ids [0] s)
        end
    | None => Some (set_ids [0] s)
    end.

(** ** Starting the others *)

(** Which processors [start_aps] starts and with which stack: the body of the loop.  The
    index of the stack is an unsigned subtraction, which wraps. *)
Definition ap_stack (stacks : Z) (i : nat) : option Z :=
  let ap_index := wrap64 (Z.of_nat i - 1) in
  if Z.of_nat MAX_CPUS - 1 <=? ap_index then None else Some (stacks + ap_index * 32768 + 32768).

Fixpoint aps_from (stacks bsp_id : Z) (i : nat) (ids : list Z) : list (Z * Z) :=
  match ids with
  | [] => []
  | id :: ids' =>
      (if id =? bsp_id then [] else match ap_stack stacks i with Some top => [(id, top)] | None => [] end) ++
      aps_from stacks bsp_id (S i) ids'
  end.
(** [bsp_id] is the controller's answer on the processor that runs this. *)
Definition start_aps (stacks bsp_id : Z) (s : State) : list (Z * Z) :=
  if (1 <? length (APIC_IDS s))%nat then aps_from stacks bsp_id 0 (APIC_IDS s) else [].

(** ** The trampoline *)

(** Offsets of the trampoline's labels.  The assembler's directives put 32 bytes at
    [ap_gdt] (aligned to 16), 6 at [ap_gdt_desc], after alignment to 8 two far pointers
    of 6 bytes, then the other variables without gaps. *)
Record Layout := mkLayout { ap_protected : Z; ap_long : Z; ap_gdt : Z }.
Section Layout.
Variable l : Layout.
Definition ap_gdt_desc : Z := ap_gdt l + 32.
Definition ap_jump16 : Z := ap_gdt_desc + 8.
Definition ap_jump32 : Z := ap_jump16 + 6.
Definition ap_pml4 : Z := ap_jump32 + 6.
Definition ap_stack_cell : Z := ap_pml4 + 8.
Definition ap_started : Z := ap_stack_cell + 8.
Definition ap_in_protected : Z := ap_started + 2.
Definition ap_in_long : Z := ap_in_protected + 8.
Definition ap_done : Z := ap_in_long + 8.
Definition ap_trampoline_end : Z := ap_done + 8.
End Layout.

(** [(base.add(off) as *mut uN).write_volatile(v as uN)] for [N = 8 n]. *)
Definition write_at (n : nat) (off v : Z) (m : gmap Z Z) : gmap Z Z := Uaccess.store m (TRAMPOLINE_PHYS + off) (to_le n (v mod 256 ^ Z.of_nat n)).
Definition write_off (idx off : Z) (m : gmap Z Z) : gmap Z Z := write_at 2 (2 + idx * 2) off m.

Definition patch (l : Layout) (pml4 stack_top : Z) (m : gmap Z Z) : gmap Z Z :=
  let m := write_at 2 (ap_gdt_desc l) (ap_gdt_desc l - ap_gdt l - 1) m in
  let m := write_at 4 (ap_gdt_desc l + 2) (TRAMPOLINE_PHYS + ap_gdt l) m in
  let m := write_at 4 (ap_jump16 l) (TRAMPOLINE_PHYS + ap_protected l) m in
  let m := write_at 2 (ap_jump16 l + 4) 0x08 m in
  let m := write_at 4 (ap_jump32 l) (TRAMPOLINE_PHYS + ap_long l) m in
  let m := write_at 2 (ap_jump32 l + 4) 0x18 m in
  let m := write_off 0 (ap_started l) m in
  let m := write_off 1 (ap_gdt_desc l) m in
  let m := write_off 2 (ap_jump16 l) m in
  let m := write_off 3 (ap_in_protected l) m in
  let m := write_off 4 (ap_pml4 l) m in
  let m := write_off 5 (ap_jump32 l) m in
  let m := write_off 6 (ap_in_long l) m in
  let m := write_off 7 (ap_stack_cell l) m in
  let m := write_off 8 (ap_done l) m in
  let m := write_at 8 (ap_pml4 l) pml4 m in
  let m := write_at 8 (ap_stack_cell l) stack_top m in
  let m := write_at 2 (ap_started l) 0 m in
  let m := write_at 8 (ap_in_protected l) 0 m in
  let m := write_at 8 (ap_in_long l) 0 m in
  write_at 8 (ap_done l) 0 m.

(** ** The local interrupt controller *)

(** A register write, by offset. *)
Notation Writes := (list (Z * Z)).
Definition lapic_enable (svr : Z) : Writes := [(0xF0, Z.lor svr 0x100)].
Definition set_timer (vector initial_count : Z) : Writes :=
  [(0x320, 0x10000); (0x380, 0); (0x320, Z.lor vector 0x20000); (0x3E0, 0x3); (0x380, initial_count)].
Definition eoi : Writes := [(0xB0, 0)].
Definition local_apic_id (id_reg : Z) : Z := Z.shiftr id_reg 24 mod 256.

(** [send_ipi]: [icr] are the values the command register reads, one per turn of the
    wait; [None] if it is never idle. *)
Fixpoint send_ipi (icr : list Z) (destination vector flags : Z) : option Writes :=
  match icr with
  | [] => None
  | v :: icr' =>
      if Z.land v 0x1000 =? 0 then Some [(0x310, Z.shiftl destination 24 mod 2 ^ 32); (0x300, Z.lor flags vector)]
      else send_ipi icr' destination vector flags
  end.

(** The commands of [start_ap]: INIT, then twice the start address, each after the
    register was idle. *)
Definition start_ap_ipis (icr1 icr2 icr3 : list Z) (id : Z) : option Writes :=
  let vector := Z.shiftr TRAMPOLINE_PHYS 12 mod 256 in
  w1 ← send_ipi icr1 id 0 0xC500;
  w2 ← send_ipi icr2 id vector 0x4600;
  w3 ← send_ipi icr3 id vector 0x4600;
  Some (w1 ++ w2 ++ w3).
(** * What a starting processor reads *)

Definition rd (n : nat) (m : gmap Z Z) (a : Z) : Z := Acpi.read_int m a (Z.of_nat n).
(** [mov bx, 0x8000; add bx, \[0x8002 + 2 idx\]], on 16 bits. *)
Definition cell (m : gmap Z Z) (idx : Z) : Z := (TRAMPOLINE_PHYS + rd 2 m (TRAMPOLINE_PHYS + 2 + idx * 2)) mod 65536.
Definition far_ptr (m : gmap Z Z) (a : Z) : Z * Z := (rd 4 m a, rd 2 m (a + 4)).

Record Boot := mkBoot { b_gdt : Z * Z; b_protected : Z * Z; b_cr3 : Z; b_long : Z * Z; b_rsp : Z }.
(** The operands of [lgdt], of the two far jumps, and the values loaded into cr3 (by a
    32-bit move) and rsp. *)
Definition ap_reads (m : gmap Z Z) : Boot :=
  mkBoot (rd 2 m (cell m 1), rd 4 m (cell m 1 + 2)) (far_ptr m (cell m 2)) (rd 4 m (cell m 4)) (far_ptr m (cell m 5)) (rd 8 m (cell m 7)).

Record layout_ok (l : Layout) : Prop := {
  lo_code : 20 <= ap_protected l < ap_gdt l /\ 20 <= ap_long l < ap_gdt l;
  lo_end : ap_trampoline_end l <= 4096;
}.

Lemma byte_run_agree (m1 m2 : gmap Z Z) (a n : Z) : (forall i, 0 <= i < n -> m1 !! (a + i) = m2 !! (a + i)) -> Uaccess.byte_run m1 a n = Uaccess.byte_run m2 a n.
Proof. intros H. unfold Uaccess.byte_run. apply list_fmap_ext. intros i x Hx. apply lookup_seqZ in Hx as [-> Hi]. by rewrite H by lia. Qed.

Lemma rd_other (n k : nat) (a off v : Z) (m : gmap Z Z) :
  a + Z.of_nat k <= TRAMPOLINE_PHYS + off \/ TRAMPOLINE_PHYS + off + Z.of_nat n <= a -> rd k (write_at n off v m) a = rd k m a.
Proof.
  intros Hd. unfold rd, Acpi.read_int, Acpi.read_bytes. f_equal. apply byte_run_agree. intros i Hi.
  unfold write_at. rewrite Uaccess.store_lookup, decide_False; [done|]. rewrite length_to_le. lia.
Qed.

Lemma rd_same (n : nat) (off v : Z) (m : gmap Z Z) : rd n (write_at n off v m) (TRAMPOLINE_PHYS + off) = v mod 256 ^ Z.of_nat n.
Proof.
  unfold rd, Acpi.read_int, Acpi.read_bytes, write_at. set (w := v mod _).
  pose proof (Uaccess.byte_run_store m (TRAMPOLINE_PHYS + off) (to_le n w)) as H. rewrite length_to_le in H. rewrite H.
  apply from_to_le, Z.mod_pos_bound. lia.
Qed.

(** The low half of a word. *)
Lemma from_to_le_mod (n : nat) (v : Z) : from_le (to_le n v) = v mod 256 ^ Z.of_nat n.
Proof.
  revert v. induction n as [|n IH]; intros v; [cbn; by rewrite Z.mod_1_r|]. cbn [to_le from_le].
  rewrite IH, Nat2Z.inj_succ, Z.pow_succ_r by lia. rewrite Z.rem_mul_r by lia. done.
Qed.

Lemma rd_low (off v : Z) (m : gmap Z Z) : rd 4 (write_at 8 off v m) (TRAMPOLINE_PHYS + off) = v mod 2 ^ 32.
Proof.
  unfold rd, write_at. set (w := v mod _). set (a := TRAMPOLINE_PHYS + off).
  assert (Acpi.holds (Uaccess.store m a (to_le 8 w)) a (to_le 8 w)) as Hh by apply Uaccess.byte_run_store.
  pose proof (Acpi.holds_read _ _ _ 0 4 Hh ltac:(rewrite length_to_le; lia)) as Hr. rewrite Z.add_0_r in Hr. rewrite Hr.
  change (take 4 (drop 0 (to_le 8 w))) with (to_le 4 w). rewrite from_to_le_mod. subst w.
  change (256 ^ Z.of_nat 4) with (2 ^ 32). change (256 ^ Z.of_nat 8) with (2 ^ 32 * 2 ^ 32).
  symmetry. rewrite Z.rem_mul_r by lia. rewrite Z.mul_comm, Z.mod_add by lia. by rewrite Z.mod_mod by lia.
Qed.

Ltac layout :=
  unfold ap_trampoline_end, ap_done, ap_in_long, ap_in_protected, ap_started, ap_stack_cell, ap_pml4, ap_jump32, ap_jump16, ap_gdt_desc in *.

(** Reading a cell that one of the writes set, past the writes after it. *)
Ltac peel := repeat rewrite rd_other by (unfold TRAMPOLINE_PHYS in *; lia).

Lemma cell_patch (l : Layout) (pml4 top : Z) (m : gmap Z Z) : layout_ok l ->
  let m' := patch l pml4 top m in
  cell m' 1 = TRAMPOLINE_PHYS + ap_gdt_desc l /\ cell m' 2 = TRAMPOLINE_PHYS + ap_jump16 l /\ cell m' 4 = TRAMPOLINE_PHYS + ap_pml4 l /\
  cell m' 5 = TRAMPOLINE_PHYS + ap_jump32 l /\ cell m' 7 = TRAMPOLINE_PHYS + ap_stack_cell l.
Proof.
  intros [Hc He]. cbv zeta. unfold patch, write_off, cell. layout.
  split_and!; peel; rewrite <- Z.add_assoc, rd_same; change (256 ^ Z.of_nat 2) with 65536; rewrite Zplus_mod_idemp_r;
    apply Z.mod_small; unfold TRAMPOLINE_PHYS; lia.
Qed.

(** A starting processor finds its parameters.  Wherever the assembler put the
    trampoline's labels in its page, after the patching of [start_ap] the 16-bit, 32-bit
    and 64-bit code, which finds its data through the offset table at 0x8002, loads
    the limit and base of the trampoline's own segment table, jumps to its own
    protected-mode and long-mode entries, loads the low half of the given page-table
    root (all of it below 4 GiB) and the given stack; nothing outside the table and
    the variables is changed. *)
Theorem ap_finds_parameters (l : Layout) (pml4 top : Z) (m : gmap Z Z) :
  layout_ok l -> 0 <= top < 2 ^ 64 ->
  ap_reads (patch l pml4 top m) =
    mkBoot (31, TRAMPOLINE_PHYS + ap_gdt l) (TRAMPOLINE_PHYS + ap_protected l, 0x08) (pml4 mod 2 ^ 32)
      (TRAMPOLINE_PHYS + ap_long l, 0x18) top /\
  forall a, ~ (TRAMPOLINE_PHYS + 2 <= a < TRAMPOLINE_PHYS + 20) -> ~ (TRAMPOLINE_PHYS + ap_gdt_desc l <= a < TRAMPOLINE_PHYS + ap_trampoline_end l) ->
    patch l pml4 top m !! a = m !! a.
Proof.
  intros Hl Ht. destruct (cell_patch l pml4 top m Hl) as (H1 & H2 & H4 & H5 & H7). cbv zeta in *. destruct Hl as [Hc He].
  split.
  - unfold ap_reads, far_ptr. rewrite H1, H2, H4, H5, H7. clear H1 H2 H4 H5 H7. unfold patch, write_off. layout.
    rewrite <- !Z.add_assoc. f_equal; [f_equal|f_equal| |f_equal|]; peel; (rewrite rd_low || rewrite rd_same); [| | | | done | | |];
      change (256 ^ Z.of_nat 2) with 65536; change (256 ^ Z.of_nat 4) with 4294967296; change (256 ^ Z.of_nat 8) with (2 ^ 64);
      rewrite ?Z.mod_small; unfold TRAMPOLINE_PHYS; lia.
  - intros a Ha1 Ha2. unfold patch, write_off, write_at. layout.
    repeat (rewrite Uaccess.store_lookup, decide_False by (rewrite length_to_le; unfold TRAMPOLINE_PHYS in *; lia)). done.
Qed.

(** * Detection *)

Lemma fill_data_spec (bsp : Z) (ids : list Z) (i : nat) (d : list CpuData) :
  match fill_data bsp i ids d with
  | Some d' => (i + length ids <= Nat.max i (length d))%nat /\ length d' = length d /\
      (forall j, (j < i)%nat -> d' !! j = d !! j) /\
      (forall j id, ids !! j = Some id -> d' !! (i + j)%nat = Some (mkCpu (Z.of_nat (i + j)) id (id =? bsp) 0 (negb (id =? bsp))))
  | None => (length d < i + length ids)%nat
  end.
Proof.
  revert i d. induction ids as [|id ids IH]; intros i d; cbn [fill_data length].
  { split_and!; [lia|done|done|]. intros j id Hj. by rewrite lookup_nil in Hj. }
  destruct (i <? length d)%nat eqn:E; [|apply Nat.ltb_ge in E; lia]. apply Nat.ltb_lt in E.
  specialize (IH (S i) (<[i := mkCpu (Z.of_nat i) id (id =? bsp) 0 (negb (id =? bsp))]> d)).
  destruct (fill_data _ _ _ _) as [d'|]; rewrite length_insert in IH; [|lia].
  destruct IH as (H1 & H2 & H3 & H4). split_and!; [lia|done| |].
  - intros j Hj. rewrite H3 by lia. by rewrite list_lookup_insert_ne by lia.
  - intros [|j] id' Hj.
    + injection Hj as <-. rewrite Nat.add_0_r, H3 by lia. by rewrite list_lookup_insert_eq.
    + cbn in Hj. replace (i + S j)%nat with (S i + j)%nat by lia. by apply H4.
Qed.

Lemma position_NoDup (ids : list Z) (i : nat) (id : Z) : NoDup ids -> position (fun x => x =? id) ids = Some i <-> ids !! i = Some id.
Proof.
  intros Hn. split.
  - intros Hp. apply position_Some in Hp as (x & Hx & E & _). zbool. by subst.
  - intros Hi. destruct (position (fun x => x =? id) ids) as [j|] eqn:E.
    + apply position_Some in E as (x & Hx & E & _). zbool. subst. f_equal. by eapply NoDup_lookup.
    + pose proof (proj1 (position_None _ _) E id ltac:(by eapply list_elem_of_lookup_2)) as Hf. cbv beta in Hf. by rewrite Z.eqb_refl in Hf.
Qed.

(** Detection of processors.  When the firmware's table lists at most 16 enabled
    processors, with distinct identifiers, detection counts them, gives each its place
    in the table as index, marks the first as the boot processor and the others as
    idle, and the maps from index to identifier and back are inverse to each other;
    with more than 16 it panics. *)
Theorem cpus_detected (m : gmap Z Z) (rsdp sdt madt lapic : Z) (is_xsdt : bool) (es : list Acpi.Entry) (s : State) :
  Acpi.parse_rsdp m rsdp = Some (sdt, is_xsdt) -> Acpi.find_madt m sdt is_xsdt = Some madt -> Acpi.madt_at m madt lapic es ->
  length (CPU_DATA s) = MAX_CPUS ->
  let ids := omap Acpi.lapic_id es in
  NoDup ids ->
  match detect_cpus m rsdp s with
  | Some s' => (length ids <= 16)%nat /\ CPU_COUNT s' = Z.max (Z.of_nat (length ids)) 1 /\
      (forall i id, apic_id_for_cpu_index i s' = Some id <-> apic_id_to_cpu_index id s' = Some i) /\
      (forall i id, ids !! i = Some id ->
         apic_id_for_cpu_index i s' = Some id /\ CPU_DATA s' !! i = Some (mkCpu (Z.of_nat i) id (i =? 0)%nat 0 (negb (i =? 0)%nat)))
  | None => (16 < length ids)%nat
  end.
Proof.
  intros Hr Hf Hm Hd ids Hn. unfold detect_cpus.
  assert (rsdp <> 0) as Hr0 by (intros ->; discriminate Hr). rewrite (proj2 (Z.eqb_neq rsdp 0)) by done.
  rewrite Hr, Hf, (Acpi.parse_cpu_lapic_ids_spec m madt lapic es Hm). fold ids. set (bsp := default _ (head ids)).
  pose proof (fill_data_spec bsp ids 0 (CPU_DATA s)) as Hfill. rewrite Hd in Hfill. unfold MAX_CPUS in Hfill.
  destruct (fill_data _ _ _ _) as [d|]; cbn [mbind option_bind]; [|lia]. destruct Hfill as (H1 & _ & _ & H4).
  split_and!; [lia|done|intros i id; symmetry; by apply position_NoDup|]. intros i id Hi. split; [done|]. cbn [CPU_DATA].
  pose proof (H4 i id Hi) as H. cbn [Nat.add] in H. rewrite H.
  assert ((id =? bsp) = (i =? 0)%nat) as ->; [|done].
  assert (ids !! 0%nat = Some bsp) as Hb by (subst bsp; destruct ids; [by rewrite lookup_nil in Hi|done]).
  destruct (Nat.eqb_spec i 0) as [->|Hne]; [rewrite Hi in Hb; injection Hb as ->; apply Z.eqb_refl|].
  apply Z.eqb_neq. intros ->. by pose proof (NoDup_lookup _ _ _ _ Hn Hi Hb).
Qed.

(** ** The processors started *)

Lemma ap_stack_top (stacks : Z) (i : nat) : Z.of_nat i < 2 ^ 63 -> ap_stack stacks i = cpu_kernel_stack_top stacks i.
Proof.
  intros Hi. unfold ap_stack, cpu_kernel_stack_top, MAX_CPUS. change (2 ^ 63) with 9223372036854775808 in Hi. destruct i as [|i].
  - cbn [Nat.eqb orb]. by vm_compute.
  - rewrite wrap64_small by (unfold is_u64; rewrite u64_bound_val; lia). cbn [Nat.eqb orb].
    replace (Z.of_nat (S i) - 1) with (Z.of_nat i) by lia. replace (S i - 1)%nat with i by lia.
    destruct (16 <=? S i)%nat eqn:E; [apply Nat.leb_le in E; rewrite (proj2 (Z.leb_le _ _)) by lia; done|].
    apply Nat.leb_gt in E. by rewrite (proj2 (Z.leb_gt _ _)) by lia.
Qed.

Lemma elem_of_aps (stacks bsp : Z) (ids : list Z) (k : nat) (id top : Z) : Z.of_nat (k + length ids) < 2 ^ 63 ->
  (id, top) ∈ aps_from stacks bsp k ids <->
  exists i, ids !! i = Some id /\ id <> bsp /\ cpu_kernel_stack_top stacks (k + i) = Some top.
Proof.
  revert k. induction ids as [|a ids IH]; intros k Hk; cbn [aps_from].
  { split; [by intros ?%elem_of_nil|]. intros (i & Hi & _). by rewrite lookup_nil in Hi. }
  cbn [length] in Hk. rewrite elem_of_app, IH, ap_stack_top by lia. split.
  - intros [H|(i & Hi & Hne & Ht)].
    + destruct (a =? bsp) eqn:E; [by apply elem_of_nil in H|]. zbool. destruct (cpu_kernel_stack_top stacks k) eqn:Et; [|by apply elem_of_nil in H].
      apply list_elem_of_singleton in H. simplify_eq. exists 0%nat. by rewrite Nat.add_0_r.
    + exists (S i). by replace (k + S i)%nat with (S k + i)%nat by lia.
  - intros ([|i] & Hi & Hne & Ht); cbn in Hi.
    + left. simplify_eq. rewrite (proj2 (Z.eqb_neq _ _)) by done. rewrite Nat.add_0_r in Ht. rewrite Ht. by apply list_elem_of_singleton.
    + right. exists i. by replace (S k + i)%nat with (k + S i)%nat by lia.
Qed.

(** Every other processor is started on a stack of its own.  With the boot processor
    first in the table, exactly the processors with index 1 to 15 are started, each
    with the stack that [cpu_kernel_stack_top] names for its index, and the 32 KiB
    stacks of two of them never overlap. *)
Theorem aps_get_own_stacks (stacks bsp : Z) (s : State) :
  NoDup (APIC_IDS s) -> APIC_IDS s !! 0%nat = Some bsp -> Z.of_nat (length (APIC_IDS s)) < 2 ^ 63 ->
  (forall id top, (id, top) ∈ start_aps stacks bsp s <->
     exists i, apic_id_for_cpu_index i s = Some id /\ (1 <= i < 16)%nat /\ cpu_kernel_stack_top stacks i = Some top) /\
  (forall id1 top1 id2 top2, (id1, top1) ∈ start_aps stacks bsp s -> (id2, top2) ∈ start_aps stacks bsp s -> id1 <> id2 ->
     top1 <= top2 - 32768 \/ top2 <= top1 - 32768).
Proof.
  intros Hn Hb Hl.
  assert (forall id top, (id, top) ∈ start_aps stacks bsp s <->
     exists i, APIC_IDS s !! i = Some id /\ (1 <= i < 16)%nat /\ cpu_kernel_stack_top stacks i = Some top) as Hall.
  { intros id top. assert (start_aps stacks bsp s = aps_from stacks bsp 0 (APIC_IDS s)) as ->.
    { unfold start_aps. destruct (1 <? length _)%nat eqn:E; [done|]. apply Nat.ltb_ge in E.
      destruct (APIC_IDS s) as [|a [|]]; [done| |cbn in E; lia]. cbn in Hb. simplify_eq. cbn [aps_from]. by rewrite Z.eqb_refl. }
    rewrite elem_of_aps by done. cbn [Nat.add]. apply exist_proper. intros i. split.
    - intros (Hi & Hne & Ht). split_and!; [done| |unfold cpu_kernel_stack_top, MAX_CPUS in Ht; destruct (16 <=? i)%nat eqn:E; [by rewrite orb_true_r in Ht|by apply Nat.leb_gt in E]|done].
      destruct i; [by simplify_eq|lia].
    - intros (Hi & H1 & Ht). split_and!; [done| |done]. intros ->. pose proof (NoDup_lookup _ _ _ _ Hn Hi Hb). lia. }
  split; [exact Hall|]. intros id1 top1 id2 top2 (i & Hi & Hi1 & Ht1)%Hall (j & Hj & Hj1 & Ht2)%Hall Hne.
  assert (i <> j) as Hij by (intros ->; simplify_eq). unfold cpu_kernel_stack_top, MAX_CPUS in Ht1, Ht2.
  rewrite (proj2 (Nat.eqb_neq _ _)), (proj2 (Nat.leb_gt _ _)) in Ht1 by lia.
  rewrite (proj2 (Nat.eqb_neq _ _)), (proj2 (Nat.leb_gt _ _)) in Ht2 by lia. cbn [orb] in *. simplify_eq. lia.
Qed.

(** If the boot processor is not the first of the table, the first one is never
    started: its index less one wraps and is taken for one too many. *)
Theorem first_listed_never_started (stacks bsp a : Z) (ids : list Z) (s : State) :
  NoDup (a :: ids) -> APIC_IDS s = a :: ids -> a <> bsp -> Z.of_nat (length (a :: ids)) < 2 ^ 63 ->
  forall top, (a, top) ∉ start_aps stacks bsp s.
Proof.
  intros Hn Hs Hne Hl top. unfold start_aps. rewrite Hs. destruct (_ <? _)%nat; [|apply not_elem_of_nil].
  rewrite elem_of_aps by done. intros (i & Hi & _ & Ht). assert (i = 0)%nat as -> by (by eapply (NoDup_lookup _ i 0 a Hn)). discriminate Ht.
Qed.

Lemma send_ipi_idle (icr : list Z) (id vector flags : Z) :
  (exists v, v ∈ icr /\ Z.land v 0x1000 = 0) -> 0 <= id < 256 ->
  send_ipi icr id vector flags = Some [(0x310, id * 2 ^ 24); (0x300, Z.lor flags vector)].
Proof.
  intros (v & Hv & Hz) Hid. induction Hv as [icr|u v icr Hv IH]; cbn [send_ipi].
  - rewrite Hz. cbn [Z.eqb]. rewrite Z.shiftl_mul_pow2, Z.mod_small by lia. done.
  - destruct (_ =? 0); [|by apply IH]. rewrite Z.shiftl_mul_pow2, Z.mod_small by lia. done.
Qed.

(** The start-up sequence on the controller: once its command register is idle before
    each command, an INIT (delivery mode 5) and two start-up commands (mode 6) whose
    vector is the page of the trampoline, all sent to the given processor. *)
Theorem startup_commands (icr1 icr2 icr3 : list Z) (id : Z) :
  Forall (fun icr => exists v, v ∈ icr /\ Z.land v 0x1000 = 0) [icr1; icr2; icr3] -> 0 <= id < 256 ->
  exists init sipi, start_ap_ipis icr1 icr2 icr3 id =
    Some [(0x310, id * 2 ^ 24); (0x300, init); (0x310, id * 2 ^ 24); (0x300, sipi); (0x310, id * 2 ^ 24); (0x300, sipi)] /\
  Z.shiftr init 8 mod 8 = 5 /\ Z.shiftr sipi 8 mod 8 = 6 /\ sipi mod 256 * 4096 = TRAMPOLINE_PHYS.
Proof.
  rewrite !Forall_cons. intros (H1 & H2 & H3 & _) Hid. unfold start_ap_ipis.
  rewrite !send_ipi_idle by done. cbn [mbind option_bind app]. eexists _, _. split; [reflexivity|]. by vm_compute.
Qed.

Module Example.
Definition lay : Layout := mkLayout 64 160 256.
Lemma lay_ok : layout_ok lay.
Proof. split; vm_compute; repeat split; try discriminate. Qed.

Lemma ap_finds_parameters_witness : b_rsp (ap_reads (patch lay 0x101000 0x280000 ∅)) = 0x280000.
Proof. destruct (ap_finds_parameters lay 0x101000 0x280000 ∅ lay_ok ltac:(lia)) as [H _]. rewrite H. reflexivity. Defined.

(** A root pointer at 512, a root table at 1024 with one entry, the table at 2048: two
    enabled processors with identifiers 7 and 3. *)
Definition entries : list Acpi.Entry := [Acpi.mkEntry 0 [0; 7; 1; 0; 0; 0]; Acpi.mkEntry 0 [1; 3; 1; 0; 0; 0]].
Definition table : list Z := Acpi.madt_bytes Acpi.APIC (replicate 28 0) (replicate 4 0) 4276092928 entries.
Definition mem0 : gmap Z Z :=
  Uaccess.store (Uaccess.store (Uaccess.store ∅ 512 (Acpi.RSDP_SIGNATURE ++ replicate 8 0 ++ to_le 4 1024))
    1024 (replicate 4 0 ++ to_le 4 40 ++ replicate 28 0 ++ to_le 4 2048)) 2048 table.

Lemma smp_table_at : Acpi.madt_at mem0 2048 4276092928 entries.
Proof.
  split.
  - exists Acpi.APIC, (replicate 28 0), (replicate 4 0). split_and!; [done..|]. apply Uaccess.byte_run_store.
  - repeat constructor.
  - rewrite u64_bound_val. lia.
  - vm_compute. done.
  - lia.
Qed.

Lemma two_ids : NoDup [7; 3].
Proof. apply NoDup_cons_2; [rewrite list_elem_of_singleton; discriminate|apply NoDup_singleton]. Qed.
Definition s2 : State := mkState 2 7 [7; 3] (CPU_DATA static_state).

Lemma cpus_detected_witness : match detect_cpus mem0 512 static_state with Some s' => CPU_COUNT s' = 2 | None => False end.
Proof.
  pose proof (cpus_detected mem0 512 1024 2048 4276092928 false entries static_state eq_refl eq_refl smp_table_at eq_refl) as H.
  specialize (H two_ids). destruct (detect_cpus mem0 512 static_state); [exact (proj1 (proj2 H))|].
  change (length (omap Acpi.lapic_id entries)) with 2%nat in H. lia.
Defined.

Lemma aps_get_own_stacks_witness : (3, 0x208000) ∈ start_aps 0x200000 7 s2.
Proof.
  apply (aps_get_own_stacks 0x200000 7 s2 two_ids eq_refl); [cbn; lia|]. exists 1%nat. split_and!; [reflexivity|lia|lia|reflexivity].
Defined.

Lemma first_listed_never_started_witness : (7, 0) ∉ start_aps 0x200000 3 s2.
Proof. apply (first_listed_never_started 0x200000 3 7 [3] s2 two_ids eq_refl); [lia|cbn; lia]. Defined.

Lemma startup_commands_witness : start_ap_ipis [4096; 0] [0] [0] 3 <> None.
Proof.
  destruct (startup_commands [4096; 0] [0] [0] 3) as (i & p & H & _); [|lia|by rewrite H].
  rewrite !Forall_cons. split_and!; [exists 0; split; [by repeat constructor|done]..|done].
Defined.
End Example.

End Smp.
