(* ===== verification/ShellEdit.v ===== *)
(** The line editor of the shell: [read_line], [redraw] and [push_history] of
    [userspace/programs/shell.rs], and what the console shows of it.

    One turn of the reading loop is what its two system calls return: whether a signal
    was caught, and the bytes read ([None] when standard input is closed).  The
    result comes with the byte strings written to standard output.  The buffers are
    fixed arrays; the shifting loops are those of [Tty.v]. *)
From stdpp Require Import base list numbers option gmap.
From S2P Require Import Prelude Keyboard Tty F32 Framebuffer Console.

Open Scope Z_scope.

Module ShellEdit.

Definition BUF_SIZE : nat := 256.
Definition MAX_HISTORY : nat := 32.
Definition PROMPT : list Z := [75; 97; 122; 117; 79; 83; 62; 32].
Definition CRLF : list Z := [13; 10].
Definition CTRL_C : list Z := [94; 67; 13; 10].

(** ** History *)

Record History := mkHist { lines : list (list Z); lens : list nat; count : nat }.
Definition empty_history : History := mkHist (replicate MAX_HISTORY (replicate BUF_SIZE 0)) (replicate MAX_HISTORY 0%nat) 0.

(** [copy_nonoverlapping(src, dst, n)] onto the front of an array. *)
Definition copy_front (src : list Z) (n : nat) (dst : list Z) : list Z := take n src ++ drop n dst.

Definition push_history (buf : list Z) (len : nat) (h : History) : History :=
  let slot := (count h mod MAX_HISTORY)%nat in
  mkHist (alter (copy_front buf len) slot (lines h)) (<[slot := len]> (lens h)) (count h + 1).

(** ** Editing *)

Record Ed := mkEd { buf : list Z; len : nat; pos : nat; hist_age : nat; saved_buf : list Z; saved_len : nat }.

Definition set_line (b : list Z) (l p : nat) (e : Ed) : Ed := mkEd b l p (hist_age e) (saved_buf e) (saved_len e).

Inductive Step := Go (e : Ed) | Enter (e : Ed) | Cancel.

(** The entry of the given age, copied over the buffer. *)
Definition recall (age : nat) (h : History) (e : Ed) : Ed :=
  let slot := ((count h - age) mod MAX_HISTORY)%nat in
  let l := default 0%nat (lens h !! slot) in
  mkEd (copy_front (default [] (lines h !! slot)) l (buf e)) l l age (saved_buf e) (saved_len e).

Definition backspace (e : Ed) : Ed :=
  if (0 <? pos e)%nat then set_line (Tty.shift_left (len e - pos e) (pos e) (buf e)) (len e - 1) (pos e - 1) e else e.
Definition insert_char (c : Z) (e : Ed) : Ed :=
  if (len e <? length (buf e) - 1)%nat
  then set_line (<[pos e := c]> (Tty.shift_right (len e - pos e) (pos e) (buf e))) (len e + 1) (pos e + 1) e else e.
Definition older (h : History) (e : Ed) : Ed :=
  if (hist_age e <? Nat.min (count h) MAX_HISTORY)%nat then
    let e := if (hist_age e =? 0)%nat
             then mkEd (buf e) (len e) (pos e) (hist_age e) (copy_front (buf e) (len e) (saved_buf e)) (len e) else e in
    recall (hist_age e + 1) h e
  else e.
Definition newer (h : History) (e : Ed) : Ed :=
  if (0 <? hist_age e)%nat then
    let age := (hist_age e - 1)%nat in
    if (age =? 0)%nat
    then mkEd (copy_front (saved_buf e) (saved_len e) (buf e)) (saved_len e) (saved_len e) age (saved_buf e) (saved_len e)
    else recall age h e
  else e.

Definition key (h : History) (b : Z) (e : Ed) : Step :=
  if (b =? 0x0A) || (b =? 0x0D) then Enter e
  else if b =? 0x03 then Cancel
  else if (b =? 0x08) || (b =? 0x7F) then Go (backspace e)
  else if b =? 0x80 then Go (if (0 <? pos e)%nat then set_line (buf e) (len e) (pos e - 1) e else e)
  else if b =? 0x81 then Go (if (pos e <? len e)%nat then set_line (buf e) (len e) (pos e + 1) e else e)
  else if b =? 0x82 then Go (older h e)
  else if b =? 0x83 then Go (newer h e)
  else if (0x20 <=? b) && (b <? 0x7F) then Go (insert_char b e)
  else Go e.

(** [for i in 0..n] over the bytes of a chunk. *)
Fixpoint keys (h : History) (chunk : list Z) (e : Ed) : Step :=
  match chunk with
  | [] => Go e
  | b :: chunk' => match key h b e with Go e' => keys h chunk' e' | s => s end
  end.

(** ** Output *)

(** [put]: what does not fit in the buffer of [BUF_SIZE + 32] bytes is left out. *)
Definition put (bytes out : list Z) : list Z := out ++ take (BUF_SIZE + 32 - length out) bytes.

(** [while v > 0], least digit first; ten digits are enough for any line. *)
Fixpoint digits (fuel : nat) (v : Z) : list Z :=
  match fuel with
  | O => []
  | S n => if 0 <? v then 48 + v mod 10 :: digits n (v / 10) else []
  end.

Definition redraw (b : list Z) (l p : nat) : list Z :=
  let out := put [13; 27; 91; 75] [] in
  let out := put PROMPT out in
  let out := put (take l b) out in
  if (p <? l)%nat then
    let out := put [27; 91] out in
    let out := put (reverse (digits 10 (Z.of_nat (l - p)))) out in
    put [68] out
  else out.

(** ** The loop *)

Record Turn := mkTurn { signalled : bool; chunk : option (list Z) }.
Inductive Outcome :=
  | RLine (len : nat) (buf : list Z) (h : History)   (* the line *)
  | RCancel                                          (* 0 is returned *)
  | RExit                                            (* the shell exits *)
  | RWait (e : Ed).                                  (* still reading *)

Fixpoint read_loop (h : History) (turns : list Turn) (e : Ed) : list (list Z) * Outcome :=
  match turns with
  | [] => ([], RWait e)
  | t :: turns' =>
      if signalled t then ([CTRL_C], RCancel)
      else
        match chunk t with
        | None => ([], RExit)
        | Some [] => read_loop h turns' e
        | Some c =>
            match keys h c e with
            | Enter e' =>
                ([redraw (buf e') (len e') (len e'); CRLF],
                 RLine (len e') (buf e') (if (0 <? len e')%nat then push_history (buf e') (len e') h else h))
            | Cancel => ([CTRL_C], RCancel)
            | Go e' => let '(out, r) := read_loop h turns' e' in (redraw (buf e') (len e') (pos e') :: out, r)
            end
        end
  end.

Definition start (b : list Z) : Ed := mkEd b 0 0 0 (replicate BUF_SIZE 0) 0.
Definition read_line (b : list Z) (h : History) (turns : list Turn) : list (list Z) * Outcome :=
  let '(out, r) := read_loop h turns (start b) in (redraw b 0 0 :: out, r).
(** * Refinement: a text with a gap, and a list of commands *)

(** The reference: the text with its cursor, how far back in the history the user is,
    and the line that was being typed; the history is the list of all commands, newest
    first, of which 32 can be recalled. *)
Record Spec := mkSpec { zip : Tty.Zip; age : nat; saved : list Z }.
Definition text (s : Spec) : list Z := Tty.zip_text (zip s).
Definition at_end (t : list Z) : Tty.Zip := Tty.mkZip (reverse t) [].

Inductive SStep := SGo (s : Spec) | SEnter (t : list Z) | SCancelled.

Definition spec_key (H : list (list Z)) (b : Z) (s : Spec) : SStep :=
  let z := zip s in
  if (b =? 0x0A) || (b =? 0x0D) then SEnter (text s)
  else if b =? 0x03 then SCancelled
  else if (b =? 0x08) || (b =? 0x7F) then SGo (mkSpec (Tty.mkZip (List.tl (Tty.before z)) (Tty.after z)) (age s) (saved s))
  else if b =? 0x80 then
    SGo (mkSpec (match Tty.before z with c :: l => Tty.mkZip l (c :: Tty.after z) | [] => z end) (age s) (saved s))
  else if b =? 0x81 then
    SGo (mkSpec (match Tty.after z with c :: l => Tty.mkZip (c :: Tty.before z) l | [] => z end) (age s) (saved s))
  else if b =? 0x82 then
    match take MAX_HISTORY H !! age s with
    | Some t => SGo (mkSpec (at_end t) (S (age s)) (if (age s =? 0)%nat then text s else saved s))
    | None => SGo s
    end
  else if b =? 0x83 then
    match age s with
    | O => SGo s
    | S O => SGo (mkSpec (at_end (saved s)) 0 (saved s))
    | S (S a) => SGo (mkSpec (at_end (default [] (H !! a))) (S a) (saved s))
    end
  else if (0x20 <=? b) && (b <? 0x7F) && (length (text s) <? BUF_SIZE - 1)%nat
  then SGo (mkSpec (Tty.mkZip (b :: Tty.before z) (Tty.after z)) (age s) (saved s))
  else SGo s.

Record wf (e : Ed) : Prop := {
  wf_buf : length (buf e) = BUF_SIZE;
  wf_len : (len e < BUF_SIZE)%nat;
  wf_pos : (pos e <= len e)%nat;
  wf_saved : length (saved_buf e) = BUF_SIZE /\ (saved_len e < BUF_SIZE)%nat;
}.

Record hist_ok (h : History) (H : list (list Z)) : Prop := {
  ho_lines : length (lines h) = MAX_HISTORY /\ Forall (fun l => length l = BUF_SIZE) (lines h);
  ho_lens : length (lens h) = MAX_HISTORY;
  ho_count : count h = length H;
  ho_entries : forall a t, take MAX_HISTORY H !! a = Some t ->
    exists l b, lens h !! ((count h - S a) mod MAX_HISTORY)%nat = Some l /\ lines h !! ((count h - S a) mod MAX_HISTORY)%nat = Some b /\
      (l < BUF_SIZE)%nat /\ take l b = t;
}.

(** The text left of position [p] and right of it, in the first [l] cells. *)
Definition shows (b : list Z) (l p : nat) (z : Tty.Zip) : Prop :=
  reverse (Tty.before z) = take p b /\ Tty.after z = drop p (take l b).

Definition represents (h : History) (e : Ed) (s : Spec) : Prop :=
  shows (buf e) (len e) (pos e) (zip s) /\ hist_age e = age s /\ (age s <= Nat.min (count h) MAX_HISTORY)%nat /\
  ((0 < age s)%nat -> take (saved_len e) (saved_buf e) = saved s).

Lemma shows_text (b : list Z) (l p : nat) (z : Tty.Zip) : (p <= l)%nat -> shows b l p z -> Tty.zip_text z = take l b.
Proof.
  intros Hp [Hb Ha]. unfold Tty.zip_text. rewrite Hb, Ha. rewrite <- (take_drop p (take l b)) at 2. by rewrite take_take, Nat.min_l by lia.
Qed.

Lemma shows_end (b : list Z) (l : nat) (t : list Z) : take l b = t -> shows b l l (at_end t).
Proof. intros <-. split; cbn; [apply reverse_involutive|]. rewrite drop_ge; [done|]. rewrite length_take. lia. Qed.

(** The editor of [Tty.v] with the same text. *)
Lemma shows_length (b : list Z) (l p : nat) (z : Tty.Zip) : (p <= l <= length b)%nat -> shows b l p z ->
  length (Tty.before z) = p /\ length (Tty.after z) = (l - p)%nat.
Proof. intros Hp [Hb Ha]. rewrite <- length_reverse, Hb, Ha, length_drop, !length_take. lia. Qed.

Lemma copy_front_take (src dst : list Z) (n : nat) : (n <= length src)%nat -> take n (copy_front src n dst) = take n src.
Proof. intros Hn. unfold copy_front. by rewrite take_app_length' by (rewrite length_take; lia). Qed.
Lemma length_copy_front (src dst : list Z) (n : nat) : (n <= length src)%nat -> (n <= length dst)%nat -> length (copy_front src n dst) = length dst.
Proof. intros. unfold copy_front. rewrite length_app, length_take, length_drop. lia. Qed.

Section Shows.
Context (b : list Z) (l p : nat) (z : Tty.Zip).
Hypotheses (Hp : (p <= l <= length b)%nat) (Hs : shows b l p z).

Lemma shows_delete : (0 < p)%nat -> shows (Tty.shift_left (l - p) p b) (l - 1) (p - 1) (Tty.mkZip (List.tl (Tty.before z)) (Tty.after z)).
Proof using Hp Hs.
  intros H0. destruct (shows_length b l p z Hp Hs) as [Hlb _]. destruct Hs as [Hb Ha]. split; cbn [Tty.before Tty.after].
  - rewrite Tty.backspace_left by lia. destruct (Tty.before z) as [|x t]; cbn [List.tl length] in *; [lia|]. rewrite reverse_cons in Hb.
    rewrite <- (take_app_length' (reverse t) [x] (p - 1)) by (rewrite length_reverse; lia). rewrite Hb, take_take. f_equal. lia.
  - rewrite Ha. replace (l - 1)%nat with (p + (l - p) - 1)%nat by lia. rewrite Tty.backspace_right by lia. do 2 f_equal. lia.
Qed.

Lemma shows_insert (c : Z) : (l < length b)%nat ->
  shows (<[p := c]> (Tty.shift_right (l - p) p b)) (l + 1) (p + 1) (Tty.mkZip (c :: Tty.before z) (Tty.after z)).
Proof using Hp Hs.
  intros Hl. destruct Hs as [Hb Ha]. split; cbn [Tty.before Tty.after].
  - by rewrite reverse_cons, Hb, Tty.push_left by lia.
  - rewrite Ha. replace (l + 1)%nat with (p + (l - p) + 1)%nat by lia. rewrite Tty.push_right by lia. do 2 f_equal. lia.
Qed.

Lemma shows_left : (0 < p)%nat -> shows b l (p - 1) (match Tty.before z with c :: t => Tty.mkZip t (c :: Tty.after z) | [] => z end).
Proof using Hp Hs.
  intros H0. destruct (shows_length b l p z Hp Hs) as [Hlb _]. destruct Hs as [Hb Ha]. destruct (Tty.before z) as [|x t]; cbn [length] in Hlb; [lia|].
  rewrite reverse_cons in Hb.
  assert (b !! (p - 1)%nat = Some x) as Hx.
  { rewrite <- (lookup_take_lt _ p) by lia. rewrite <- Hb. apply list_lookup_middle. rewrite length_reverse. lia. }
  split; cbn [Tty.before Tty.after].
  - rewrite <- (take_app_length' (reverse t) [x] (p - 1)) by (rewrite length_reverse; lia). rewrite Hb, take_take. f_equal. lia.
  - rewrite Ha. rewrite (drop_S _ x (p - 1)) by (by rewrite lookup_take_lt by lia). do 2 f_equal. lia.
Qed.

Lemma shows_right : (p < l)%nat -> shows b l (p + 1) (match Tty.after z with c :: t => Tty.mkZip (c :: Tty.before z) t | [] => z end).
Proof using Hp Hs.
  intros H0. destruct (shows_length b l p z Hp Hs) as [_ Hla]. destruct Hs as [Hb Ha]. destruct (Tty.after z) as [|x t]; cbn [length] in Hla; [lia|].
  assert (b !! p = Some x) as Hx.
  { rewrite <- (lookup_take_lt _ l) by lia. rewrite <- (Nat.add_0_r p), <- lookup_drop, <- Ha. done. }
  split; cbn [Tty.before Tty.after].
  - by rewrite reverse_cons, Hb, Nat.add_1_r, (take_S_r _ _ x).
  - rewrite (drop_S _ x p) in Ha by (by rewrite lookup_take_lt by lia). injection Ha as ->. by rewrite Nat.add_1_r.
Qed.
End Shows.

(** ** History *)

Lemma take_lookup_some {A : Type} (n : nat) (l : list A) (i : nat) : (i < Nat.min (length l) n)%nat -> exists x, take n l !! i = Some x.
Proof. intros Hi. apply lookup_lt_is_Some_2. rewrite length_take. lia. Qed.

Lemma recall_spec (h : History) (H : list (list Z)) (a : nat) (t : list Z) (e : Ed) :
  hist_ok h H -> wf e -> take MAX_HISTORY H !! a = Some t ->
  wf (recall (S a) h e) /\ shows (buf (recall (S a) h e)) (len (recall (S a) h e)) (pos (recall (S a) h e)) (at_end t).
Proof.
  intros Hh [Hb Hl Hp Hs] Ht. destruct (ho_entries h H Hh a t Ht) as (l & b & Hlen & Hline & Hlt & Htake).
  assert (length b = BUF_SIZE) as Hbl by (by apply (Forall_lookup_1 _ _ _ _ (proj2 (ho_lines h H Hh)) Hline)).
  unfold recall. rewrite Hlen, Hline. cbn [from_option id buf len pos]. split.
  - split; cbn; [rewrite length_copy_front by lia; done|done|done|done].
  - apply shows_end. by rewrite copy_front_take by lia.
Qed.

Lemma push_history_ok (b : list Z) (l : nat) (h : History) (H : list (list Z)) :
  hist_ok h H -> length b = BUF_SIZE -> (l < BUF_SIZE)%nat -> hist_ok (push_history b l h) (take l b :: H).
Proof.
  intros [[Hl1 Hl2] Hl Hc He] Hb Hlt. unfold push_history. set (slot := (count h mod MAX_HISTORY)%nat).
  assert (slot < MAX_HISTORY)%nat as Hslot by (apply Nat.mod_upper_bound; done). split; cbn [lines lens count].
  - split; [by rewrite length_alter|]. apply Forall_alter; [done|]. intros x _ Hx. rewrite length_copy_front; lia.
  - by rewrite length_insert.
  - cbn [length]. lia.
  - intros [|a] t Ht.
    + cbn in Ht. injection Ht as <-. replace (count h + 1 - 1)%nat with (count h) by lia. fold slot.
      destruct (lookup_lt_is_Some_2 (lines h) slot ltac:(lia)) as [x Hx]. exists l, (copy_front b l x).
      rewrite list_lookup_insert_eq, list_lookup_alter_eq, Hx by lia. split_and!; [done|done|done|]. apply copy_front_take. lia.
    + replace (count h + 1 - S (S a))%nat with (count h - S a)%nat by lia.
      assert (take MAX_HISTORY H !! a = Some t) as Ht'.
      { apply lookup_take_Some in Ht as [Ht Ha]. apply lookup_take_Some. split; [done|]. cbn in Ha. lia. }
      destruct (He a t Ht') as (l' & b' & H1 & H2 & H3 & H4). exists l', b'.
      assert ((count h - S a) mod MAX_HISTORY <> slot)%nat as Hne.
      { apply lookup_take_Some in Ht as [Ht Ha]. apply lookup_lt_Some in Ht. cbn [length] in Ht. subst slot. unfold MAX_HISTORY in *.
        pose proof (Nat.div_mod (count h - S a) 32 ltac:(lia)). pose proof (Nat.div_mod (count h) 32 ltac:(lia)).
        pose proof (Nat.mod_upper_bound (count h - S a) 32 ltac:(lia)). pose proof (Nat.mod_upper_bound (count h) 32 ltac:(lia)). lia. }
      rewrite list_lookup_insert_ne, list_lookup_alter_ne by done. done.
Qed.

(** ** One key *)

Definition related (h : History) (st : Step) (sp : SStep) : Prop :=
  match st, sp with
  | Go e, SGo s => wf e /\ represents h e s
  | Enter e, SEnter t => wf e /\ take (len e) (buf e) = t
  | Cancel, SCancelled => True
  | _, _ => False
  end.

Section Key.
Context (h : History) (H : list (list Z)) (e : Ed) (s : Spec).
Hypotheses (Hh : hist_ok h H) (Hw : wf e) (Hr : represents h e s).

(** Editing keys change the text alone. *)
Lemma edit_refines (b : list Z) (l p : nat) (z : Tty.Zip) :
  length b = BUF_SIZE -> (l < BUF_SIZE)%nat -> (p <= l)%nat -> shows b l p z ->
  wf (set_line b l p e) /\ represents h (set_line b l p e) (mkSpec z (age s) (saved s)).
Proof using Hw Hr. intros. destruct Hw, Hr as (_ & ? & ? & ?). split; [by split|]. by split_and!. Qed.

Lemma same_refines : wf e /\ represents h e (mkSpec (zip s) (age s) (saved s)).
Proof using Hw Hr. split; [done|]. by destruct s. Qed.

Lemma older_refines :
  wf (older h e) /\ represents h (older h e)
    (match take MAX_HISTORY H !! age s with
     | Some t => mkSpec (at_end t) (S (age s)) (if (age s =? 0)%nat then text s else saved s) | None => s end).
Proof using Hh Hw Hr.
  pose proof Hw as [Hb Hl Hp [Hs1 Hs2]]. pose proof Hr as (Hsh & Ha & Hage & Hsv). unfold older. rewrite (ho_count h H Hh), Ha.
  destruct (age s <? Nat.min (length H) MAX_HISTORY)%nat eqn:E.
  - apply Nat.ltb_lt in E. destruct (take_lookup_some MAX_HISTORY H (age s) E) as [t Ht]. rewrite Ht.
    set (e1 := if (age s =? 0)%nat then _ else e).
    assert (wf e1 /\ hist_age e1 = age s /\ take (saved_len e1) (saved_buf e1) = (if (age s =? 0)%nat then text s else saved s)) as (Hw1 & Ha1 & Hs1').
    { subst e1. destruct (Nat.eqb_spec (age s) 0) as [E0|E0].
      - split; [split; cbn; try done; split; [rewrite length_copy_front; lia|done]|]. split; [done|]. cbn [saved_len saved_buf].
        rewrite copy_front_take by lia. unfold text. symmetry. by eapply shows_text.
      - split; [done|]. split; [done|]. apply Hsv. lia. }
    rewrite Ha1, Nat.add_1_r. destruct (recall_spec h H (age s) t e1 Hh Hw1 Ht) as [Hw2 Hsh2]. split; [done|]. split; [exact Hsh2|]. cbn [age saved hist_age recall].
    split_and!; [done|rewrite (ho_count h H Hh); lia|]. intros _. exact Hs1'.
  - apply Nat.ltb_ge in E. rewrite lookup_ge_None_2 by (rewrite length_take; lia). done.
Qed.

Lemma newer_refines :
  wf (newer h e) /\ represents h (newer h e)
    (match age s with O => s | S O => mkSpec (at_end (saved s)) 0 (saved s) | S (S a) => mkSpec (at_end (default [] (H !! a))) (S a) (saved s) end).
Proof using Hh Hw Hr.
  pose proof Hw as [Hb Hl Hp [Hs1 Hs2]]. pose proof Hr as (Hsh & Ha & Hage & Hsv). unfold newer. rewrite Ha. destruct (age s) as [|[|a]] eqn:Es; cbn [Nat.ltb Nat.leb Nat.sub Nat.eqb].
  - done.
  - split; [split; cbn; try done; rewrite length_copy_front; lia|]. split_and!; cbn [buf len pos hist_age age saved zip]; [|done|lia|lia].
    apply shows_end. rewrite copy_front_take by lia. apply Hsv. lia.
  - rewrite (ho_count h H Hh) in Hage. destruct (take_lookup_some MAX_HISTORY H a ltac:(lia)) as [t Ht].
    destruct (recall_spec h H a t e Hh Hw Ht) as [Hw2 Hsh2]. apply lookup_take_Some in Ht as [Ht _]. rewrite Ht. cbn [from_option id].
    split; [done|]. split; [exact Hsh2|]. cbn [age saved hist_age recall]. split_and!; [done|rewrite (ho_count h H Hh); lia|]. intros _. apply Hsv. lia.
Qed.

Lemma key_refines (b : Z) : related h (key h b e) (spec_key H b s).
Proof using Hh Hw Hr.
  pose proof Hw as [Hb Hl Hp [Hs1 Hs2]]. pose proof Hr as (Hsh & Ha & Hage & Hsv).
  assert (pos e <= len e <= length (buf e))%nat as Hb2 by lia. destruct (shows_length _ _ _ _ Hb2 Hsh) as [Hlb Hla].
  pose proof (shows_text _ _ _ _ Hp Hsh) as Htext.
  assert (length (text s) = len e) as Htl by (unfold text; rewrite Htext, length_take; lia).
  unfold key, spec_key. destruct ((b =? 10) || (b =? 13)); [by split|]. destruct (b =? 3); [done|].
  destruct ((b =? 8) || (b =? 127)).
  { unfold backspace. destruct (Nat.ltb_spec 0 (pos e)) as [H0|H0].
    - apply edit_refines; [by rewrite Tty.length_shift_left|lia|lia|by apply shows_delete].
    - destruct (Tty.before (zip s)) as [|x t] eqn:Ez; [|cbn in Hlb; lia]. cbn [List.tl].
      replace (Tty.mkZip [] (Tty.after (zip s))) with (zip s) by (destruct (zip s); cbn in *; by subst). apply same_refines. }
  destruct (b =? 128).
  { destruct (Nat.ltb_spec 0 (pos e)) as [H0|H0]; [apply edit_refines; [done|lia|lia|by apply shows_left]|].
    destruct (Tty.before (zip s)) as [|x t]; [apply same_refines|cbn in Hlb; lia]. }
  destruct (b =? 129).
  { destruct (Nat.ltb_spec (pos e) (len e)) as [H0|H0]; [apply edit_refines; [done|lia|lia|by apply shows_right]|].
    destruct (Tty.after (zip s)) as [|x t]; [apply same_refines|cbn in Hla; lia]. }
  destruct (b =? 130). { pose proof older_refines as Ho. by destruct (take MAX_HISTORY H !! age s). }
  destruct (b =? 131). { pose proof newer_refines as Hn. by destruct (age s) as [|[|]]. }
  rewrite Htl. unfold insert_char. rewrite Hb. destruct ((32 <=? b) && (b <? 127)); cbn [andb]; [|done].
  destruct (Nat.ltb_spec (len e) (BUF_SIZE - 1)) as [H0|H0]; [|done].
  apply edit_refines; [by rewrite length_insert, Tty.length_shift_right|lia|lia|apply shows_insert; [done|done|lia]].
Qed.
End Key.

(** ** Reading a line *)

Inductive SOutcome := SLine (t : list Z) (H : list (list Z)) | SCancel | SExit | SWait (s : Spec).

Fixpoint spec_keys (H : list (list Z)) (chunk : list Z) (s : Spec) : SStep :=
  match chunk with
  | [] => SGo s
  | b :: chunk' => match spec_key H b s with SGo s' => spec_keys H chunk' s' | r => r end
  end.

Fixpoint spec_read (H : list (list Z)) (turns : list Turn) (s : Spec) : SOutcome :=
  match turns with
  | [] => SWait s
  | t :: turns' =>
      if signalled t then SCancel
      else
        match chunk t with
        | None => SExit
        | Some c =>
            match spec_keys H c s with
            | SEnter l => SLine l (if bool_decide (l = []) then H else l :: H)
            | SCancelled => SCancel
            | SGo s' => spec_read H turns' s'
            end
        end
  end.

Definition outcome_related (h : History) (r : Outcome) (sr : SOutcome) : Prop :=
  match r, sr with
  | RLine l b h', SLine t H' => length b = BUF_SIZE /\ (l < BUF_SIZE)%nat /\ take l b = t /\ hist_ok h' H'
  | RCancel, SCancel | RExit, SExit => True
  | RWait e, SWait s => wf e /\ represents h e s
  | _, _ => False
  end.

Lemma keys_refine (h : History) (H : list (list Z)) (c : list Z) (e : Ed) (s : Spec) :
  hist_ok h H -> wf e -> represents h e s -> related h (keys h c e) (spec_keys H c s).
Proof.
  intros Hh. revert e s. induction c as [|b c IH]; intros e s Hw Hr; [done|]. cbn [keys spec_keys].
  pose proof (key_refines h H e s Hh Hw Hr b) as Hk. destruct (key h b e), (spec_key H b s); cbn in Hk; try done. destruct Hk. by apply IH.
Qed.

Lemma read_loop_refines (h : History) (H : list (list Z)) (turns : list Turn) (e : Ed) (s : Spec) :
  hist_ok h H -> wf e -> represents h e s -> outcome_related h (read_loop h turns e).2 (spec_read H turns s).
Proof.
  intros Hh. revert e s. induction turns as [|t turns IH]; intros e s Hw Hr; [done|]. cbn [read_loop spec_read].
  destruct (signalled t); [done|]. destruct (chunk t) as [c|]; [|done].
  pose proof (keys_refine h H c e s Hh Hw Hr) as Hk. destruct c as [|b c]; [by apply IH|].
  destruct (keys h (b :: c) e) as [e'|e'|], (spec_keys H (b :: c) s) as [s'|l|]; cbn in Hk; try done.
  - destruct Hk as [Hw' Hr']. specialize (IH e' s' Hw' Hr'). by destruct (read_loop h turns e').
  - destruct Hk as [[Hb Hl Hp Hs] Hl']. cbn [snd outcome_related]. split_and!; [done|done|done|]. subst l. case_bool_decide as E.
    + assert (len e' = 0)%nat as ->; [|done]. pose proof (f_equal length E) as El. rewrite length_take in El. cbn in El. lia.
    + destruct (Nat.ltb_spec 0 (len e')) as [H0|H0]; [by apply push_history_ok|]. exfalso. apply E. by replace (len e') with 0%nat by lia.
Qed.

Lemma read_line_refines (b : list Z) (h : History) (H : list (list Z)) (turns : list Turn) :
  length b = BUF_SIZE -> hist_ok h H ->
  outcome_related h (read_line b h turns).2 (spec_read H turns (mkSpec (Tty.mkZip [] []) 0 [])).
Proof.
  intros Hb Hh. unfold read_line.
  pose proof (read_loop_refines h H turns (start b) (mkSpec (Tty.mkZip [] []) 0 []) Hh) as Hr.
  destruct (read_loop h turns (start b)) as [out r]. apply Hr.
  - split; cbn; [done|unfold BUF_SIZE; lia|lia|]. split; [done|unfold BUF_SIZE; lia].
  - split_and!; cbn; [done|done|lia|lia].
Qed.

(** C20: The shell's line editor refines a text with a gap and a list of commands.  For
    every sequence of reads and signals, [read_line] ends the line, is cancelled, exits
    or goes on exactly when the reference does, with the same text (insertion and
    deletion at the cursor, at most 255 characters), the same recalled commands (the
    32 newest, the line being typed coming back below them) and the same history
    afterwards, although the history is a ring of arrays that is overwritten; no array
    is indexed outside its bounds. *)
Theorem shell_editor_refines (b : list Z) (h : History) (H : list (list Z)) (turns : list Turn) :
  length b = BUF_SIZE -> hist_ok h H ->
  outcome_related h (read_line b h turns).2 (spec_read H turns (mkSpec (Tty.mkZip [] []) 0 [])).
Proof. apply read_line_refines. Qed.

(** What was read after the end of the line is lost.  The bytes that follow Enter in
    the same read are never looked at: whatever they are, the line, the history and
    the output are the same, and nothing of them reaches the next line. *)
Theorem rest_of_chunk_dropped (b : list Z) (h : History) (before rest rest' : list Z) (turns : list Turn) :
  Forall (fun c => 0x20 <= c < 0x7F) before ->
  read_line b h (mkTurn false (Some (before ++ 0x0D :: rest)) :: turns) = read_line b h (mkTurn false (Some (before ++ 0x0D :: rest')) :: turns).
Proof.
  intros Hb. unfold read_line. cbn [read_loop signalled chunk].
  assert (forall e r, keys h (before ++ 0x0D :: r) e = keys h (before ++ [0x0D]) e) as Hk.
  { clear -Hb. induction Hb as [|c before Hc Hb IH]; intros e r; [done|]. cbn [app keys]. destruct (key h c e) eqn:E; [apply IH|done|done]. }
  pose proof (Hk (start b) rest) as H1. pose proof (Hk (start b) rest') as H2.
  destruct (before ++ 0x0D :: rest) as [|x c] eqn:E1; [by destruct before|]. destruct (before ++ 0x0D :: rest') as [|x' c'] eqn:E2; [by destruct before|].
  by rewrite H1, H2.
Qed.

(** * What the console shows *)

Lemma digits_spec (fuel : nat) (v : Z) : 0 <= v < 10 ^ Z.of_nat fuel ->
  Console.decimal (reverse (digits fuel v)) = v /\ Forall Console.is_digit (digits fuel v) /\ (length (digits fuel v) <= fuel)%nat.
Proof.
  revert v. induction fuel as [|n IH]; intros v Hv; [cbn in *; split_and!; [lia|constructor|lia]|].
  rewrite Nat2Z.inj_succ, Z.pow_succ_r in Hv by lia. cbn [digits]. destruct (0 <? v) eqn:E; zbool; [|split_and!; [cbn; lia|constructor|cbn; lia]].
  destruct (IH (v / 10)) as (H1 & H2 & H3); [split; [apply Z.div_pos; lia|apply Z.div_lt_upper_bound; lia]|].
  pose proof (Z.mod_pos_bound v 10 ltac:(lia)). pose proof (Z.div_mod v 10 ltac:(lia)). split_and!.
  - rewrite reverse_cons. unfold Console.decimal in *. rewrite foldl_app. cbn [foldl]. rewrite H1. lia.
  - constructor; [unfold Console.is_digit; lia|done].
  - cbn [length]. lia.
Qed.

Lemma put_fits (bytes out : list Z) : (length out + length bytes <= BUF_SIZE + 32)%nat -> put bytes out = out ++ bytes.
Proof. intros H. unfold put. by rewrite take_ge by lia. Qed.

(** A redraw always fits its buffer. *)
Lemma redraw_bytes (b : list Z) (l p : nat) : (l < BUF_SIZE)%nat ->
  redraw b l p = 13 :: [27; 91; 75] ++ (PROMPT ++ take l b) ++ (if (p <? l)%nat then 27 :: 91 :: reverse (digits 10 (Z.of_nat (l - p))) ++ [68] else []).
Proof.
  intros Hl. unfold BUF_SIZE in Hl. unfold redraw.
  assert (length (take l b) <= 255)%nat as Ht by (rewrite length_take; lia).
  destruct (digits_spec 10 (Z.of_nat (l - p))) as (_ & _ & Hd); [change (10 ^ Z.of_nat 10) with 10000000000; lia|].
  set (t := take l b) in *. set (d := digits 10 _) in *.
  rewrite (put_fits [13; 27; 91; 75] []) by (unfold BUF_SIZE; cbn; lia).
  rewrite (put_fits PROMPT), (put_fits t) by (unfold BUF_SIZE; rewrite ?length_app; cbn [length PROMPT app]; lia).
  destruct (p <? l)%nat.
  - rewrite (put_fits [27; 91]), (put_fits (reverse d)), (put_fits [68])
      by (unfold BUF_SIZE; rewrite ?length_app, ?length_reverse; cbn [length PROMPT app]; rewrite ?length_app, ?length_reverse; cbn [length app]; lia).
    cbn [app PROMPT]. rewrite <- !(assoc_L (++)). done.
  - by rewrite app_nil_r.
Qed.

(** Up to the end of the text: the row shows it and the cursor is behind it. *)
Lemma redraw_line_drawn (k : Console.Console) (x y : Z) (t : list Z) (m : gmap Z Z) :
  Console.on_grid k x y -> Forall Console.printable t ->
  14 * (8 + Z.of_nat (length t)) < Framebuffer.width (Console.fb k) -> 22 <= y -> y + 6 < Framebuffer.height (Console.fb k) ->
  let r := Console.print (13 :: [27; 91; 75] ++ PROMPT ++ t) k m in
  Console.on_grid r.1 (14 * (8 + Z.of_nat (length t))) y /\ Console.fb r.1 = Console.fb k /\
  forall x' y', Framebuffer.visible (Console.fb k) x' y' ->
    Framebuffer.px (Console.fb k) r.2 x' y' =
    Console.line_px k (PROMPT ++ t) 0 y x' y' (if (y - 22 <=? y') && (y' <? y + 7) then (0, 0, 0, 0) else Framebuffer.px (Console.fb k) m x' y').
Proof.
  intros Hg Ht Hw Hy Hh r. subst r.
  (* carriage return *)
  assert (Console.process_char 13 k m = (Console.set_cursor (F32.F32.fz 0) (F32.F32.fz y) k, m)) as Hcr.
  { unfold Console.process_char. rewrite (Console.og_normal _ _ _ Hg), <- (Console.og_y _ _ _ Hg). done. }
  rewrite (Console.print_cons _ _ _ _ _ _ Hcr). set (k1 := Console.set_cursor _ _ k).
  assert (0 <= y < 2 ^ 20) as Hyr by apply Hg.
  assert (Console.on_grid k1 0 y) as Hg1 by (eapply Console.on_grid_move; [exact Hg|lia|done]).
  (* erase *)
  rewrite Console.print_app. destruct (Console.erase_row_grid k1 y m Hg1 ltac:(cbn; lia) Hy ltac:(done)) as [He1 He2]. rewrite He1.
  set (m1 := (Console.print _ k1 m).2) in *. set (k2 := Console.set_csi _ _ k1).
  assert (Console.on_grid k2 0 y) as Hg2 by (by apply Console.on_grid_csi).
  (* prompt and text *)
  assert (Forall Console.printable (PROMPT ++ t)) as Hpr.
  { apply Forall_app. split; [|done]. unfold PROMPT, Console.printable. repeat constructor; lia. }
  assert (Z.of_nat (length (PROMPT ++ t)) = 8 + Z.of_nat (length t)) as Hlen by (rewrite length_app; cbn [length PROMPT]; lia).
  destruct (Console.print_line k2 (PROMPT ++ t) 0 y m1 Hg2 Hpr) as [Hl1 Hl2]; [cbn; lia|done|done|].
  rewrite Hl1, Hlen in *. set (m2 := (Console.print _ k2 m1).2) in *. set (k3 := Console.set_cursor _ _ k2).
  assert (Framebuffer.width (Console.fb k) < 2 ^ 20) as Hw20 by apply Hg.
  assert (Console.on_grid k3 (14 * (8 + Z.of_nat (length t))) y) as Hg3.
  { subst k3. rewrite Z.add_0_l. eapply Console.on_grid_move; [exact Hg2|lia|done]. }
  split; [exact Hg3|]. split; [done|].
  intros x' y' Hv. pose proof (Hl2 x' y' Hv) as H2. pose proof (He2 x' y' Hv) as H1. cbn [Console.fb Console.set_csi Console.set_cursor k2 k1] in H1, H2.
  rewrite H2, H1. change (Framebuffer.ASCENT) with 22. change (Framebuffer.CHAR_HEIGHT + 1) with 29. replace (y - 22 + 29) with (y + 7) by lia. done.
Qed.

(** The shell's line on the kernel console.  With the built-in font, on any screen of
    less than 2^20 pixels a side and wherever on its row the cursor was, what [redraw]
    writes for a printable line that fits the row leaves the row showing exactly the
    prompt and the line, the rest of the row black, no other row changed (but the
    pixel row below the text, black), and the cursor on the cell of the character the
    editor is at. *)
Theorem redraw_shows_line (k : Console.Console) (x y : Z) (b : list Z) (l p : nat) (m : gmap Z Z) :
  Console.on_grid k x y -> (p <= l < BUF_SIZE)%nat -> length b = BUF_SIZE -> Forall Console.printable (take l b) ->
  14 * (8 + Z.of_nat l) < Framebuffer.width (Console.fb k) -> 22 <= y -> y + 6 < Framebuffer.height (Console.fb k) ->
  let r := Console.print (redraw b l p) k m in
  Console.on_grid r.1 (14 * (8 + Z.of_nat p)) y /\
  forall x' y', Framebuffer.visible (Console.fb k) x' y' ->
    Framebuffer.px (Console.fb k) r.2 x' y' =
    Console.line_px k (PROMPT ++ take l b) 0 y x' y'
      (if (y - 22 <=? y') && (y' <? y + 7) then (0, 0, 0, 0) else Framebuffer.px (Console.fb k) m x' y').
Proof.
  intros Hg Hp Hb Ht Hw Hy Hh r. subst r. rewrite redraw_bytes by lia.
  assert (length (take l b) = l) as Hl by (rewrite length_take; unfold BUF_SIZE in *; lia).
  destruct (redraw_line_drawn k x y (take l b) m Hg Ht) as (Hg3 & Hfb & Hpx); rewrite ?Hl; [done..|]. rewrite Hl in Hg3.
  set (tail := if (p <? l)%nat then _ else []).
  change (13 :: [27; 91; 75] ++ (PROMPT ++ take l b) ++ tail) with ((13 :: [27; 91; 75] ++ PROMPT ++ take l b) ++ tail).
  rewrite Console.print_app. subst tail. revert Hg3 Hfb Hpx. set (r := Console.print _ k m). intros Hg3 Hfb Hpx.
  assert (Framebuffer.width (Console.fb k) < 2 ^ 20 /\ 0 <= y < 2 ^ 20) as [Hw20 Hyr] by (split; apply Hg).
  destruct (Nat.ltb_spec p l) as [Hlt|Hge].
  - destruct (digits_spec 10 (Z.of_nat (l - p))) as (Hd1 & Hd2 & _); [change (10 ^ Z.of_nat 10) with 10000000000; unfold BUF_SIZE in *; lia|].
    assert (Forall Console.is_digit (reverse (digits 10 (Z.of_nat (l - p))))) as Hd3 by (by apply Forall_reverse).
    rewrite (Console.cursor_back_grid r.1 (14 * (8 + Z.of_nat l)) y _ r.2 Hg3 Hd3) by (rewrite Hd1; unfold BUF_SIZE in *; lia). cbn [fst snd]. split; [|done].
    rewrite Hd1. replace (14 * (8 + Z.of_nat l) - 14 * Z.of_nat (l - p)) with (14 * (8 + Z.of_nat p)) by lia.
    eapply Console.on_grid_move; [apply Console.on_grid_csi; exact Hg3|unfold BUF_SIZE in *; lia|done].
  - change (Console.print [] r.1 r.2) with (r.1, r.2). cbn [fst snd]. replace p with l by lia. done.
Qed.

Module Example.
Definition b0 : list Z := [97; 98] ++ replicate 254 0.
Lemma empty_ok : hist_ok empty_history [].
Proof.
  split; [split; [done|by apply Forall_replicate]|done|done|]. intros a t Ha. by rewrite take_nil, lookup_nil in Ha.
Qed.

(** "ls", Enter; then the older command is recalled. *)
Lemma shell_editor_refines_witness :
  outcome_related empty_history (read_line b0 empty_history [mkTurn false (Some [108; 115; 13])]).2 (SLine [108; 115] [[108; 115]]).
Proof. apply (shell_editor_refines b0 empty_history [] [mkTurn false (Some [108; 115; 13])] eq_refl empty_ok). Defined.

Lemma rest_of_chunk_dropped_witness :
  read_line b0 empty_history [mkTurn false (Some [108; 115; 13; 112; 115; 13])] = read_line b0 empty_history [mkTurn false (Some [108; 115; 13])].
Proof. apply (rest_of_chunk_dropped b0 empty_history [108; 115] [112; 115; 13] []). repeat constructor; lia. Defined.

Lemma redraw_shows_line_witness :
  Console.cursor_x (Console.print (redraw b0 2 1) (Console.new Console.screen_fb None) ∅).1 = F32.F32.fz 126.
Proof.
  refine (Console.og_x _ _ _ (proj1 (redraw_shows_line (Console.new Console.screen_fb None) 0 28 b0 2 1 ∅ _ _ _ _ _ _ _))).
  - apply Console.new_on_grid; [unfold Framebuffer.wf; cbn; lia|cbn; lia|cbn; lia].
  - unfold BUF_SIZE. lia.
  - reflexivity.
  - cbn. repeat constructor; unfold Console.printable; lia.
  - cbn. lia.
  - lia.
  - cbn. lia.
Defined.
End Example.

End ShellEdit.
