(* ===== verification/Shell.v ===== *)
(** The commands of the shell: [userspace/programs/shell.rs] without its line editor.

    The shell runs against any kernel: a kernel is a function from the calls made so
    far to the reply to the next one, and running a command appends the calls it makes
    to the log.  Text is bytes.  The loops that run until the kernel ends them take
    fuel; [cmd_shutdown] and [cmd_reboot] end in an endless loop, which has no more
    calls. *)
From stdpp Require Import base list numbers option strings.
From S2P Require Import Prelude Str Tty Console Exec ShellEdit.

Open Scope Z_scope.

Module Shell.

Definition bytes (s : string) : list Z := (fun a => Z.of_N (Ascii.N_of_ascii a)) <$> String.list_ascii_of_string s.
Definition CRLF : list Z := [13; 10].
Definition SPACE : Z := 32.

Record ProcessInfo := mkInfo { i_pid : Z; i_state : Z; i_name : list Z; i_ticks : Z; i_memory : Z; i_parent : Z }.
Record DirEnt := mkEnt { d_kind : Z; d_name : list Z }.

Inductive Call :=
  | CWrite (data : list Z)                       (* to standard output *)
  | CExec (block : list Z) (stdio : Z)
  | CPipe | CClose (fd : Z) | CWait (pid : Z) | CKill (pid : Z)
  | CCreate (path : list Z) | COpen (path : list Z) | CUnlink (path : list Z) | CMkdir (path : list Z) | CRmdir (path : list Z)
  | CRead (fd : Z) | CWriteFd (fd : Z) (data : list Z) | CReaddir (path : list Z)
  | CMemInfo | CCpuInfo (what index : Z) | CProcessCount | CProcessNext (pid : Z) | CProcessInfo (pid : Z)
  | CShutdown | CReboot.

(** The result register, and what the call stored in the caller's memory. *)
Record Reply := mkReply { r_val : Z; r_fds : Z * Z; r_data : list Z; r_info : ProcessInfo; r_ents : list DirEnt }.

Definition STDIO_CTTY : Z := Z.shiftl 1 48.
Definition STDIO_INHERIT : Z := Z.lor (Z.lor 0 (Z.shiftl 1 16)) STDIO_CTTY.
Definition DIR_CAP : nat := 64.

(** ** Text *)

Definition is_space (b : Z) : bool := b =? SPACE.
Fixpoint rposition (P : Z -> bool) (l : list Z) : option nat :=
  match l with
  | [] => None
  | x :: l' => match rposition P l' with Some i => Some (S i) | None => if P x then Some 0%nat else None end
  end.
Definition trim (s : list Z) : list Z :=
  let start := default (length s) (position (fun b => negb (is_space b)) s) in
  let end_ := default start (S <$> rposition (fun b => negb (is_space b)) s) in
  take (end_ - start) (drop start s).

(** [split(|&b| b == b' ')] *)
Fixpoint split_spaces (cur l : list Z) : list (list Z) :=
  match l with
  | [] => [cur]
  | b :: l' => if is_space b then cur :: split_spaces [] l' else split_spaces (cur ++ [b]) l'
  end.
Definition words (l : list Z) : list (list Z) := split_spaces [] l.

Definition find_pipe (cmd : list Z) : option nat := position (fun b => b =? 124) cmd.

(** [write_u64]: twenty digits hold any value. *)
Definition u64_text (n : Z) : list Z := if n =? 0 then [48] else reverse (ShellEdit.digits 20 n).

(** ** Running *)

Section Run.
Variable kernel : list Call -> Call -> Reply.

Definition M (A : Type) : Type := list Call -> A * list Call.
Definition ret {A : Type} (a : A) : M A := fun log => (a, log).
Definition bind {A B : Type} (m : M A) (k : A -> M B) : M B := fun log => let '(a, log) := m log in k a log.
Definition reply (c : Call) : M Reply := fun log => (kernel log c, log ++ [c]).
Definition call (c : Call) : M Z := fun log => (r_val (kernel log c), log ++ [c]).
Definition do_ (c : Call) : M unit := fun log => (tt, log ++ [c]).
Notation "x <- m ;; k" := (bind m (fun x => k)) (at level 60, m at next level, right associativity).
Notation "m ;;; k" := (bind m (fun _ => k)) (at level 60, right associativity).

Definition sys_write (b : list Z) : M unit := do_ (CWrite b).
Definition write_u64 (n : Z) : M unit := sys_write (u64_text n).
Definition failed (r : Z) : bool := r =? u64_max.

Definition need_abs (path : list Z) : M bool :=
  if match path with 47 :: _ => false | _ => true end
  then sys_write (bytes "path must be absolute (start with /)" ++ CRLF);;; ret false else ret true.

Definition with_abs (path : list Z) (k : M unit) : M unit := ok <- need_abs path;; if ok : bool then k else ret tt.

Definition cmd_touch (path : list Z) : M unit :=
  with_abs path (fd <- call (CCreate path);; if failed fd then sys_write (bytes "touch: failed" ++ CRLF) else do_ (CClose fd)).
Definition cmd_rm (path : list Z) : M unit :=
  with_abs path (r <- call (CUnlink path);; if failed r then sys_write (bytes "rm: failed (not a file or not found)" ++ CRLF) else ret tt).
Definition cmd_mkdir (path : list Z) : M unit :=
  with_abs path (r <- call (CMkdir path);; if failed r then sys_write (bytes "mkdir: failed (exists or missing parent)" ++ CRLF) else ret tt).
Definition cmd_rmdir (path : list Z) : M unit :=
  with_abs path (r <- call (CRmdir path);; if failed r then sys_write (bytes "rmdir: failed (not empty or not a dir)" ++ CRLF) else ret tt).

(** [loop { let n = sys_read(fd, &mut buf); ... }] *)
Fixpoint cat_loop (fuel : nat) (fd : Z) : M unit :=
  match fuel with
  | O => ret tt
  | S n =>
      r <- reply (CRead fd);;
      if (r_val r =? 0) || failed (r_val r) then ret tt
      else sys_write (take (Z.to_nat (r_val r)) (r_data r));;; cat_loop n fd
  end.
Definition cmd_cat (fuel : nat) (path : list Z) : M unit :=
  with_abs path
    (fd <- call (COpen path);;
     if failed fd then sys_write (bytes "cat: not found" ++ CRLF)
     else cat_loop fuel fd;;; sys_write CRLF;;; do_ (CClose fd)).

Definition cmd_echo (args : list Z) : M unit :=
  match position (fun b => b =? 62) args with
  | Some pos =>
      let text := trim (take pos args) in
      let path := trim (drop (pos + 1) args) in
      with_abs path
        (fd <- call (CCreate path);;
         if failed fd then sys_write (bytes "echo: cannot create file" ++ CRLF)
         else do_ (CWriteFd fd text);;; do_ (CClose fd))
  | None => sys_write args;;; sys_write CRLF
  end.

(** The path of [try_exec_path], and the space it leaves: [None] if it does not fit the
    buffer of 128 bytes. *)
Definition exec_path (name : list Z) : option (list Z) :=
  let path :=
    if bool_decide (47 ∈ name) then (if match name with 47 :: _ => true | _ => false end then name else 47 :: name)
    else bytes "/bin/" ++ name ++ bytes ".kxe" in
  if (128 <? length path + 1)%nat then None else Some path.

(** The arguments, appended one by one with their terminators. *)
Fixpoint push_args (args : list (list Z)) (buf : list Z) : option (list Z) :=
  match args with
  | [] => Some buf
  | a :: args' =>
      let a := trim a in
      match a with
      | [] => push_args args' buf
      | _ => if (128 <? length buf + length a + 1)%nat then None else push_args args' (buf ++ a ++ [0])
      end
  end.

Definition exec_block (name args_part : list Z) : option (list Z) :=
  path ← exec_path name;
  push_args (match args_part with [] => [] | _ => words args_part end) (path ++ [0]).

Definition try_exec_path (name args_part : list Z) (stdio : Z) : M Z :=
  match exec_block name args_part with
  | None => ret u64_max
  | Some block => pid <- call (CExec block stdio);; ret (if negb (pid =? 0) && negb (failed pid) then pid else u64_max)
  end.

Definition exec_bin (cmd : list Z) (stdio : Z) : M Z :=
  let name := default cmd (head (words cmd)) in
  let args_part := if (length name + 1 <? length cmd)%nat then trim (drop (length name + 1) cmd) else [] in
  try_exec_path name args_part stdio.

Definition is_process (pid : Z) : bool := negb (pid =? 0) && negb (pid =? 1) && negb (failed pid).

Definition cmd_pipe (cmd1 cmd2 : list Z) : M unit :=
  r <- reply CPipe;;
  if negb (r_val r =? 0) then sys_write (bytes "pipe failed" ++ CRLF)
  else
    let '(read_fd, write_fd) := r_fds r in
    pid1 <- exec_bin cmd1 (Z.lor 0xFFFF (Z.shiftl write_fd 16 mod 2 ^ 64));;
    do_ (CClose write_fd);;;
    pid2 <- exec_bin cmd2 (Z.lor (Z.lor read_fd (Z.shiftl 1 16)) STDIO_CTTY);;
    do_ (CClose read_fd);;;
    (if is_process pid2 then do_ (CWait pid2) else ret tt);;;
    (if is_process pid1 then do_ (CKill pid1) else ret tt).

Definition cmd_help : M unit := sys_write (bytes "commands: help clear ls mem ps sysinfo smpinfo shutdown reboot" ++ CRLF).
Definition cmd_clear : M unit := sys_write ([27] ++ bytes "[2J" ++ [27] ++ bytes "[H").

Definition cmd_mem : M unit :=
  info <- call CMemInfo;;
  if info =? 0 then sys_write (bytes "PMM unavailable" ++ CRLF)
  else
    let total_kib := Z.shiftr info 32 in
    let used_kib := Z.land info 0xffffffff in
    let free_kib := saturating_sub total_kib used_kib in
    sys_write (bytes "total: ");;; write_u64 total_kib;;; sys_write (bytes " KiB used: ");;; write_u64 used_kib;;;
    sys_write (bytes " KiB free: ");;; write_u64 free_kib;;; sys_write (bytes " KiB" ++ CRLF).

Definition state_name (s : Z) : list Z :=
  if s =? 1 then bytes "ready   " else if s =? 2 then bytes "running " else if s =? 3 then bytes "sleeping"
  else if s =? 4 then bytes "exited  " else bytes "unknown ".
(** [position(|&b| b == 0).unwrap_or(len)] *)
Definition c_str (l : list Z) : list Z := take (default (length l) (position Exec.is_zero l)) l.

Definition print_process_info (pid : Z) (force_name : list Z) : M unit :=
  r <- reply (CProcessInfo pid);;
  if negb (r_val r =? 0) then ret tt
  else
    let info := r_info r in
    sys_write (bytes "pid=");;; write_u64 (i_pid info);;; sys_write (bytes " ppid=");;; write_u64 (i_parent info);;;
    sys_write (bytes " state=");;; sys_write (state_name (i_state info));;; sys_write (bytes " cpu=");;; write_u64 (i_ticks info);;;
    sys_write (bytes " mem=");;; write_u64 (i_memory info / 1024);;; sys_write (bytes "KiB name=");;;
    sys_write (match force_name with [] => c_str (i_name info) | _ => force_name end);;; sys_write CRLF.

(** [while pid != u64::MAX] *)
Fixpoint ps_loop (fuel : nat) (pid : Z) : M unit :=
  match fuel with
  | O => ret tt
  | S n => if failed pid then ret tt else print_process_info pid [];;; next <- call (CProcessNext pid);; ps_loop n next
  end.
Definition cmd_ps (fuel : nat) : M unit := print_process_info 0 (bytes "kernel");;; pid <- call (CProcessNext 0);; ps_loop fuel pid.

Definition cmd_sysinfo : M unit :=
  cmd_mem;;; ticks <- call (CCpuInfo 0 0);; count <- call CProcessCount;;
  sys_write (bytes "processes: ");;; write_u64 count;;; sys_write (bytes " timer_ticks: ");;; write_u64 ticks;;; sys_write CRLF.

Fixpoint smp_loop (cpus : list Z) : M unit :=
  match cpus with
  | [] => ret tt
  | i :: cpus' =>
      apic_id <- call (CCpuInfo 7 i);;
      sys_write (bytes "  cpu[");;; write_u64 i;;; sys_write (bytes "] apic_id=");;; write_u64 apic_id;;; sys_write CRLF;;; smp_loop cpus'
  end.
Definition cmd_smpinfo : M unit :=
  cpu_count <- call (CCpuInfo 4 0);; bsp_apic <- call (CCpuInfo 5 0);; current_index <- call (CCpuInfo 6 0);;
  sys_write (bytes "cpus: ");;; write_u64 cpu_count;;; sys_write (bytes " bsp_apic_id: ");;; write_u64 bsp_apic;;;
  sys_write (bytes " current_cpu: ");;; write_u64 current_index;;; sys_write CRLF;;; smp_loop (seqZ 0 cpu_count).

Fixpoint print_entries (es : list DirEnt) : M unit :=
  match es with
  | [] => ret tt
  | e :: es' =>
      sys_write (if d_kind e =? 1 then bytes "dir   " else if d_kind e =? 2 then bytes "dev   " else bytes "file  ");;;
      sys_write (c_str (d_name e));;; sys_write CRLF;;; print_entries es'
  end.
Definition list_path (path : list Z) : M unit :=
  r <- reply (CReaddir path);;
  if failed (r_val r) then sys_write (bytes "ls: failed" ++ CRLF)
  else print_entries (take (Nat.min (Z.to_nat (r_val r)) DIR_CAP) (r_ents r)).
Definition cmd_ls (cmd : list Z) : M unit :=
  let path_raw := if (3 <? length cmd)%nat then trim (drop 3 cmd) else bytes "/" in
  match path_raw with
  | 47 :: _ => list_path path_raw
  | _ => if (256 <? 1 + length path_raw)%nat then sys_write (bytes "ls: path too long" ++ CRLF) else list_path (47 :: path_raw)
  end.

Definition cmd_exec (args : list Z) : M unit :=
  let path := trim args in
  match path with
  | [] => sys_write (bytes "usage: exec <path>" ++ CRLF)
  | _ =>
      pid <- call (CExec path STDIO_INHERIT);;
      if pid =? 1 then sys_write (bytes "KazuOS: ");;; sys_write path;;; sys_write (bytes ": cannot execute driver directly" ++ CRLF)
      else if (pid =? 0) || failed pid then sys_write (bytes "exec failed: ");;; sys_write path;;; sys_write CRLF
      else sys_write (bytes "spawned pid=");;; write_u64 pid;;; sys_write CRLF
  end.

Definition cmd_shutdown : M unit := sys_write (bytes "Shutting down..." ++ CRLF);;; do_ CShutdown.
Definition cmd_reboot : M unit := sys_write (bytes "Rebooting..." ++ CRLF);;; do_ CReboot.

(** The program a command names, in the foreground or not. *)
Definition run_program (cmd : list Z) (background : bool) : M unit :=
  pid <- exec_bin cmd STDIO_INHERIT;;
  if pid =? 1 then sys_write (bytes "KazuOS: ");;; sys_write cmd;;; sys_write (bytes ": cannot execute driver directly" ++ CRLF)
  else if negb (pid =? 0) && negb (failed pid) then
    if background then sys_write (bytes "[bg] pid=");;; write_u64 pid;;; sys_write CRLF else do_ (CWait pid)
  else sys_write (bytes "KazuOS: unknown command: ");;; sys_write cmd;;; sys_write CRLF.

(** [fuel] bounds the reads of [cat] and the processes of [ps]. *)
Definition execute (fuel : nat) (cmd : list Z) : M unit :=
  let cmd := trim cmd in
  match cmd with
  | [] => ret tt
  | _ =>
      let '(cmd, background) := if Str.ends_with 38 cmd then (trim (take (length cmd - 1) cmd), true) else (cmd, false) in
      let same s := bool_decide (cmd = bytes s) in
      let starts s := Str.starts_with (bytes s) cmd in
      if same "help"%string then cmd_help
      else if same "clear"%string then cmd_clear
      else if same "mem"%string then cmd_mem
      else if same "ps"%string then cmd_ps fuel
      else if same "sysinfo"%string then cmd_sysinfo
      else if same "smpinfo"%string then cmd_smpinfo
      else if same "shutdown"%string then cmd_shutdown
      else if same "reboot"%string then cmd_reboot
      else if same "ls"%string || starts "ls "%string then cmd_ls cmd
      else if starts "touch "%string then cmd_touch (trim (drop 6 cmd))
      else if starts "rm "%string then cmd_rm (trim (drop 3 cmd))
      else if starts "mkdir "%string then cmd_mkdir (trim (drop 6 cmd))
      else if starts "rmdir "%string then cmd_rmdir (trim (drop 6 cmd))
      else if starts "cat "%string then cmd_cat fuel (trim (drop 4 cmd))
      else if starts "echo "%string then cmd_echo (trim (drop 5 cmd))
      else if starts "exec "%string then cmd_exec (drop 5 cmd)
      else
        match find_pipe cmd with
        | Some pos => cmd_pipe (trim (take pos cmd)) (trim (drop (pos + 1) cmd))
        | None => run_program cmd background
        end
  end.
End Run.
(** * Words *)

Definition blank (l : list Z) : Prop := Forall (fun b => b = SPACE) l.
Definition no_space (l : list Z) : Prop := Forall (fun b => b <> SPACE) l.

Lemma rposition_Some (P : Z -> bool) (l : list Z) (j : nat) :
  rposition P l = Some j <-> exists l1 x l2, l = l1 ++ x :: l2 /\ length l1 = j /\ P x = true /\ Forall (fun y => P y = false) l2.
Proof.
  revert j. induction l as [|a l IH]; intros j; cbn [rposition].
  { split; [done|]. intros ([|] & ? & ? & ? & _); done. }
  destruct (rposition P l) as [i|] eqn:E.
  - destruct (proj1 (IH i) eq_refl) as (l1 & x & l2 & -> & Hl & Hx & Hf). split.
    + intros [= <-]. exists (a :: l1), x, l2. by rewrite <- Hl.
    + intros (m1 & y & m2 & Heq & Hl' & Hy & Hf'). destruct m1 as [|c m1].
      { exfalso. cbn in Heq. injection Heq as _ <-. apply Forall_app in Hf' as [_ Hf']. apply Forall_cons in Hf' as [Hf' _]. congruence. }
      injection Heq as -> Heq. assert (Some i = Some (length m1)) as [= ->]; [|cbn in Hl'; by subst].
      apply IH. by exists m1, y, m2.
  - assert (Forall (fun y => P y = false) l) as Hall.
    { clear -E. induction l as [|b l IHl]; [done|]. cbn in E. destruct (rposition P l); [done|]. destruct (P b) eqn:Eb; [done|]. constructor; [done|by apply IHl]. }
    split.
    + destruct (P a) eqn:Ea; [|done]. intros [= <-]. by exists [], a, l.
    + intros (m1 & y & m2 & Heq & Hl' & Hy & Hf'). destruct m1 as [|c m1].
      * cbn in Heq. injection Heq as -> ->. rewrite Hy. by subst.
      * injection Heq as -> ->. apply Forall_app in Hall as [_ Hall]. apply Forall_cons in Hall as [Hall _]. congruence.
Qed.

Lemma rposition_None (P : Z -> bool) (l : list Z) : rposition P l = None -> Forall (fun y => P y = false) l.
Proof. induction l as [|b l IH]; [done|]. cbn. destruct (rposition P l); [done|]. destruct (P b) eqn:E; [done|]. intros _. constructor; [done|by apply IH]. Qed.

Lemma position_split (P : Z -> bool) (l : list Z) (j : nat) : position P l = Some j ->
  exists l1 x l2, l = l1 ++ x :: l2 /\ length l1 = j /\ P x = true /\ Forall (fun y => P y = false) l1.
Proof.
  intros Hp. apply position_Some in Hp as (x & Hx & HPx & Hlt). exists (take j l), x, (drop (S j) l). split_and!.
  - symmetry. by apply take_drop_middle.
  - apply length_take_le. apply lookup_lt_Some in Hx. lia.
  - done.
  - apply Forall_lookup. intros i y Hy. apply lookup_take_Some in Hy as [Hy Hi]. by eapply Hlt.
Qed.

Lemma blank_false (l : list Z) : Forall (fun y => negb (is_space y) = false) l <-> blank l.
Proof. apply Forall_iff. intros y. unfold is_space. destruct (Z.eqb_spec y SPACE); done. Qed.

(** [trim] takes the spaces off both ends, and nothing else. *)
Lemma trim_spec (s : list Z) :
  exists a b, s = a ++ trim s ++ b /\ blank a /\ blank b /\ head (trim s) <> Some SPACE /\ last (trim s) <> Some SPACE.
Proof.
  unfold trim. destruct (position _ s) as [i|] eqn:Ep.
  - destruct (position_split _ _ _ Ep) as (a & x & r & Hs & Hi & Hx & Ha). unfold is_space in Hx.
    assert (exists j, rposition (fun b => negb (is_space b)) s = Some j) as [j Ej].
    { destruct (rposition _ s) eqn:E; [by eexists|]. apply rposition_None in E. rewrite Hs in E. apply Forall_app in E as [_ E]. apply Forall_cons in E as [E _].
      unfold is_space in E. congruence. }
    rewrite Ej. cbn [from_option fmap option_fmap option_map id].
    destruct (proj1 (rposition_Some _ _ _) Ej) as (l1 & y & b & Hs2 & Hj & Hy & Hb). unfold is_space in Hy.
    assert (i <= j)%nat as Hij.
    { destruct (Nat.le_gt_cases i j) as [|Hgt]; [done|]. exfalso. apply position_Some in Ep as (_ & _ & _ & Hlt).
      specialize (Hlt j y Hgt). rewrite Hs2 in Hlt. rewrite (list_lookup_middle l1 b y j) in Hlt by done. specialize (Hlt eq_refl). unfold is_space in Hlt. congruence. }
    exists a, b. assert (take (S j - i) (drop i s) = drop i (l1 ++ [y])) as Ht.
    { assert (s = (l1 ++ [y]) ++ b) as Hs3 by (rewrite Hs2, <- (assoc_L (++)); done). rewrite Hs3 at 1.
      rewrite drop_app_le by (rewrite length_app; cbn; lia). rewrite take_app_length' by (rewrite length_drop, length_app; cbn; lia). done. }
    rewrite Ht. split_and!; [|by apply blank_false|by apply blank_false| |].
    + rewrite Hs2 at 1. assert (a = take i (l1 ++ [y])) as Ha2.
      { assert (take i s = a) as <- by (rewrite Hs; by apply take_app_length'). rewrite Hs2. replace (l1 ++ y :: b) with ((l1 ++ [y]) ++ b) by (by rewrite <- (assoc_L (++))).
        apply take_app_le. rewrite length_app. cbn. lia. }
      rewrite Ha2, (assoc_L (++)), take_drop. by rewrite <- (assoc_L (++)).
    + rewrite head_lookup, lookup_drop, Nat.add_0_r. intros Hl.
      assert ((l1 ++ [y]) !! i = s !! i) as Hli.
      { rewrite Hs2. replace (l1 ++ y :: b) with ((l1 ++ [y]) ++ b) by (by rewrite <- (assoc_L (++))). symmetry. apply lookup_app_l. rewrite length_app. cbn. lia. }
      rewrite Hli, Hs in Hl. rewrite (list_lookup_middle a r x i) in Hl by done. injection Hl as ->. done.
    + rewrite drop_app_le, last_snoc by lia. intros [= ->]. done.
  - cbn [from_option]. assert (blank s) as Hbl.
    { apply blank_false. apply Forall_forall. intros y Hy. exact (proj1 (position_None _ _) Ep y Hy). }
    assert (rposition (fun b => negb (is_space b)) s = None) as ->.
    { destruct (rposition _ s) as [j|] eqn:E; [|done]. apply rposition_Some in E as (l1 & x & l2 & -> & _ & Hx & _). apply Forall_app in Hbl as [_ Hbl].
      apply Forall_cons in Hbl as [-> _]. done. }
    cbn [fmap option_fmap option_map from_option]. rewrite Nat.sub_diag. exists s, []. change (take 0 (drop (length s) s)) with (@nil Z). rewrite !app_nil_r. by split_and!; [| |constructor| |].
Qed.

Lemma trim_no_space (w : list Z) : no_space w -> trim w = w.
Proof.
  intros Hw. destruct (trim_spec w) as (a & b & Hs & Ha & Hb & _). rewrite Hs in Hw at 1. apply Forall_app in Hw as [Hw1 Hw]. apply Forall_app in Hw as [_ Hw2].
  assert (forall l, blank l -> no_space l -> l = []) as Hnil.
  { intros [|x l] H1 H2; [done|]. apply Forall_cons in H1 as [-> _]. apply Forall_cons in H2 as [H2 _]. done. }
  rewrite (Hnil a), (Hnil b), app_nil_r in Hs by done. done.
Qed.

Lemma split_spaces_app (cur l1 l2 : list Z) : split_spaces cur (l1 ++ SPACE :: l2) = split_spaces cur l1 ++ words l2.
Proof.
  revert cur. induction l1 as [|b l1 IH]; intros cur; cbn [app split_spaces]; [done|]. destruct (is_space b); cbn [app]; by rewrite IH.
Qed.

Lemma split_spaces_no_space (cur l : list Z) : no_space l -> split_spaces cur l = [cur ++ l].
Proof.
  intros Hl. revert cur. induction Hl as [|b l Hb Hl IH]; intros cur; cbn [split_spaces]; [by rewrite app_nil_r|].
  unfold is_space. rewrite (proj2 (Z.eqb_neq b SPACE)) by done. by rewrite IH, <- (assoc_L (++)).
Qed.

Lemma words_ne (l : list Z) : words l <> [].
Proof. unfold words. generalize (@nil Z). induction l as [|b l IH]; intros cur; cbn; [done|]. destruct (is_space b); done. Qed.

Lemma words_no_space (l : list Z) : Forall no_space (words l).
Proof.
  unfold words. assert (no_space []) as H0 by constructor. revert H0. generalize (@nil Z). induction l as [|b l IH]; intros cur Hc; cbn [split_spaces].
  { by repeat constructor. }
  unfold is_space. destruct (Z.eqb_spec b SPACE); [constructor; [done|apply IH; constructor]|]. apply IH. apply Forall_app. split; [done|by repeat constructor].
Qed.

(** The words a line consists of, between any number of spaces. *)
Definition tokens (l : list Z) : list (list Z) := filter (fun w => w <> []) (words l).

Lemma tokens_app (l1 l2 : list Z) : tokens (l1 ++ SPACE :: l2) = tokens l1 ++ tokens l2.
Proof. unfold tokens, words at 1. by rewrite split_spaces_app, filter_app. Qed.

Lemma tokens_blank (l : list Z) : blank l -> tokens l = [].
Proof. induction 1 as [|b l -> Hl IH]; [done|]. exact (eq_trans (tokens_app [] l) IH). Qed.

Lemma tokens_blank_l (a l : list Z) : blank a -> tokens (a ++ l) = tokens l.
Proof. induction 1 as [|b a -> Ha IH]; [done|]. exact (eq_trans (tokens_app [] (a ++ l)) IH). Qed.

Lemma tokens_blank_r (l b : list Z) : blank b -> tokens (l ++ b) = tokens l.
Proof.
  intros [|x b' -> Hb]; [by rewrite app_nil_r|]. by rewrite tokens_app, (tokens_blank b'), app_nil_r.
Qed.

Lemma tokens_trim (l : list Z) : tokens (trim l) = tokens l.
Proof.
  destruct (trim_spec l) as (a & b & Hs & Ha & Hb & _). rewrite Hs at 2. by rewrite tokens_blank_l, tokens_blank_r.
Qed.

(** ** The block handed to the kernel *)

Definition program_path (name : list Z) : list Z :=
  if bool_decide (47 ∈ name) then (if match name with 47 :: _ => true | _ => false end then name else 47 :: name)
  else bytes "/bin/" ++ name ++ bytes ".kxe".

Lemma push_args_spec (ws : list (list Z)) (buf : list Z) : Forall no_space ws ->
  push_args ws buf =
  (let block := buf ++ Exec.terminated (filter (fun w => w <> []) ws) in if decide (block = buf \/ length block <= 128)%nat then Some block else None).
Proof.
  intros Hws. cbv zeta. revert buf. induction Hws as [|w ws Hw Hws IH]; intros buf; cbn [push_args].
  { unfold Exec.terminated. cbn. rewrite app_nil_r. by rewrite decide_True by (by left). }
  rewrite trim_no_space by done. destruct w as [|x w]; [exact (IH buf)|].
  rewrite filter_cons_True by done. unfold Exec.terminated. rewrite bind_cons. fold (Exec.terminated (filter (fun w => w <> []) ws)).
  set (t := Exec.terminated _). destruct (Nat.ltb_spec 128 (length buf + length (x :: w) + 1)) as [Hgt|Hle].
  - rewrite decide_False; [done|]. intros [H|H].
    + apply (f_equal length) in H. rewrite !length_app in H. cbn [length] in H. lia.
    + rewrite !length_app in H. cbn [length] in H. cbn [length] in Hgt. lia.
  - rewrite IH. fold t. rewrite <- !(assoc_L (++)). cbn [app]. destruct (decide (_ = _ \/ _)) as [H1|H1], (decide (_ = _ \/ _)) as [H2|H2]; try done; exfalso.
    + apply H2. right. destruct H1 as [H1|H1]; [|done]. assert (t = []) as Ht.
      { apply (f_equal length) in H1. rewrite !length_app in H1. cbn [length] in H1. rewrite !length_app in H1. cbn in H1. destruct t; [done|cbn in H1; lia]. }
      rewrite Ht. rewrite !length_app. cbn [length] in *. rewrite !length_app. cbn. lia.
    + apply H1. right. destruct H2 as [H2|H2]; [|done]. exfalso. apply (f_equal length) in H2. rewrite !length_app in H2. cbn [length] in H2. lia.
Qed.

Lemma parse_args_exact (args : list (list Z)) (fuel : nat) :
  Forall (fun a => Exec.no_zero a /\ a <> []) args -> (length args <= fuel)%nat -> Exec.parse_args fuel (Exec.terminated args) = args.
Proof.
  intros Ha. revert fuel. induction Ha as [|a args [Hz Hne] Ha IH]; intros fuel Hf; [by destruct fuel|]. destruct fuel as [|fuel]; cbn [length] in Hf; [lia|].
  unfold Exec.terminated. rewrite bind_cons, <- (assoc_L (++)). cbn [app]. rewrite Exec.parse_args_cons by done. f_equal. apply IH. lia.
Qed.

Lemma split_block_exact (path : list Z) (args : list (list Z)) :
  Exec.no_zero path -> Str.utf8_valid path = true -> Forall (fun a => Exec.no_zero a /\ a <> []) args ->
  Exec.split_block (path ++ 0 :: Exec.terminated args) = (path, args).
Proof.
  intros Hp Hu Ha. unfold Exec.split_block. rewrite Exec.position_zero by done. cbv zeta. cbn [from_option id]. rewrite take_app_length, Hu. f_equal.
  rewrite length_app. cbn [length]. pose proof (Exec.length_blocks args) as Hlb. destruct args as [|a args].
  - change (length (Exec.terminated [])) with 0%nat. by rewrite (proj2 (Nat.ltb_ge _ _)) by lia.
  - rewrite (proj2 (Nat.ltb_lt _ _)) by (cbn [length] in Hlb; lia). rewrite drop_app_add. cbn [drop]. apply parse_args_exact; [done|lia].
Qed.

(** A byte the line editor lets in. *)
Definition typed (b : Z) : Prop := 0x20 <= b < 0x7F.

Lemma typed_words (P : Z -> Prop) (l : list Z) : Forall P l -> Forall (Forall P) (words l).
Proof.
  intros Hl. unfold words. assert (Forall P []) as H0 by constructor. revert H0. generalize (@nil Z). induction Hl as [|b l Hb Hl IH]; intros cur Hc; cbn [split_spaces].
  { by repeat constructor. }
  destruct (is_space b); [constructor; [done|apply IH; constructor]|]. apply IH. apply Forall_app. by split; [|repeat constructor].
Qed.

Lemma typed_tokens (l : list Z) : Forall typed l -> Forall (fun a => Forall typed a /\ Exec.no_zero a /\ a <> []) (tokens l).
Proof.
  intros Hl. apply Forall_forall. intros a Ha. apply list_elem_of_filter in Ha as [Hne Ha].
  pose proof (proj1 (Forall_forall _ _) (typed_words typed l Hl) a Ha) as Ht. split_and!; [done| |done].
  eapply Forall_impl; [exact Ht|]. unfold typed. intros x ? ->. lia.
Qed.

Lemma program_path_typed (name : list Z) : Forall typed name -> Exec.no_zero (program_path name) /\ Str.utf8_valid (program_path name) = true.
Proof.
  intros Hn. assert (Forall typed (program_path name)) as Hp.
  { unfold program_path. assert (typed 47) by (unfold typed; lia). case_bool_decide.
    - destruct name as [|c name]; [by repeat constructor|]. by destruct (match c with 47 => true | _ => false end); [|constructor].
    - apply Forall_app. split; [repeat constructor; unfold typed; cbn; lia|]. apply Forall_app. split; [done|]. repeat constructor; unfold typed; cbn; lia. }
  split; [eapply Forall_impl; [exact Hp|]; unfold typed; intros x ? ->; lia|]. apply Str.ascii_utf8. eapply Forall_impl; [exact Hp|].
  unfold typed, Str.ascii. intros; lia.
Qed.

(** The name and the arguments [exec_bin] cuts a trimmed command into. *)
Lemma exec_bin_cut (cmd name : list Z) (args : list (list Z)) : trim cmd = cmd -> tokens cmd = name :: args ->
  default cmd (head (words cmd)) = name /\
  let part := if (length name + 1 <? length cmd)%nat then trim (drop (length name + 1) cmd) else [] in
  filter (fun w => w <> []) (match part with [] => [] | _ => words part end) = args.
Proof.
  intros Htrim Htok. cbv zeta. destruct (trim_spec cmd) as (_ & _ & _ & _ & _ & Hhead & _). rewrite Htrim in Hhead.
  destruct (position is_space cmd) as [i|] eqn:Ep.
  - destruct (position_split _ _ _ Ep) as (n & x & rest & Hs & Hi & Hx & Hn). unfold is_space in Hx. zbool. subst x.
    assert (no_space n) as Hn' by (eapply Forall_impl; [exact Hn|]; unfold is_space; intros y Hy ->; by rewrite Z.eqb_refl in Hy).
    assert (n <> []) as Hne by (intros ->; apply Hhead; by rewrite Hs).
    assert (words cmd = n :: words rest) as Hw by (rewrite Hs; unfold words at 1; rewrite split_spaces_app, split_spaces_no_space by done; done).
    unfold tokens in Htok. rewrite Hw, filter_cons_True in Htok by done. injection Htok as -> Hargs. rewrite Hw. split; [done|].
    rewrite Hs, length_app, drop_app_add. cbn [length drop]. change (filter (fun w => w <> []) (words rest)) with (tokens rest) in Hargs. destruct (Nat.ltb_spec (length name + 1) (length name + S (length rest))).
    + rewrite <- Hargs, <- (tokens_trim rest), drop_0. by destruct (trim rest).
    + destruct rest; [|cbn in *; lia]. by rewrite <- Hargs.
  - assert (no_space cmd) as Hns.
    { apply Forall_forall. intros y Hy ->. pose proof (proj1 (position_None _ _) Ep SPACE Hy). done. }
    assert (words cmd = [cmd]) as Hw by (unfold words; by rewrite split_spaces_no_space).
    unfold tokens in Htok. rewrite Hw in *. cbn [head from_option].
    destruct cmd as [|c cmd]; [done|]. rewrite filter_cons_True in Htok by done. injection Htok as <- <-. split; [done|].
    by rewrite (proj2 (Nat.ltb_ge _ _)) by lia.
Qed.

Lemma command_block (kernel : list Call -> Call -> Reply) (cmd name : list Z) (args : list (list Z)) (stdio : Z) (log : list Call) :
  Forall typed cmd -> trim cmd = cmd -> tokens cmd = name :: args ->
  let block := program_path name ++ 0 :: Exec.terminated args in
  Exec.split_block block = (program_path name, args) /\
  exec_bin kernel cmd stdio log =
    if decide (length block <= 128)%nat then
      let pid := r_val (kernel log (CExec block stdio)) in
      (if negb (pid =? 0) && negb (failed pid) then pid else u64_max, log ++ [CExec block stdio])
    else (u64_max, log).
Proof.
  intros Hty Htrim Htok block. pose proof (typed_tokens cmd Hty) as Ht. rewrite Htok in Ht. apply Forall_cons in Ht as [[Hname _] Hargs].
  destruct (program_path_typed name Hname) as [Hz Hu].
  split. { apply split_block_exact; [done|done|]. eapply Forall_impl; [exact Hargs|]. by intros ? [_ ?]. }
  destruct (exec_bin_cut cmd name args Htrim Htok) as [H1 H2]. cbv zeta in H2. unfold exec_bin. rewrite H1. unfold try_exec_path.
  set (part := if (length name + 1 <? length cmd)%nat then _ else []) in *. assert (exec_block name part = if decide (length block <= 128)%nat then Some block else None) as ->;
    [|by destruct (decide _)].
  unfold exec_block, exec_path. fold (program_path name). destruct (Nat.ltb_spec 128 (length (program_path name) + 1)) as [Hgt|Hle].
  { cbn [mbind option_bind]. rewrite decide_False; [done|]. subst block. rewrite length_app. cbn [length]. lia. }
  cbn [mbind option_bind]. rewrite push_args_spec.
  - cbv zeta. rewrite H2. replace ((program_path name ++ [0]) ++ Exec.terminated args) with block by (subst block; by rewrite <- (assoc_L (++))).
    destruct (decide (length block <= 128)%nat) as [Hl|Hl]; [by rewrite decide_True by (by right)|]. rewrite decide_False; [done|]. intros [He|He]; [|done].
    apply Hl. rewrite He, length_app. cbn. lia.
  - destruct part; [constructor|apply words_no_space].
Qed.

(** What is typed reaches the program.  For every trimmed command of typed characters,
    of words [name] and [args] with any number of spaces between them, the shell makes
    one [SYS_EXEC] call whose block the kernel's parser splits into exactly the path
    of the program (an absolute path as it is, a relative one from the root, a plain
    name in /bin with the suffix .kxe) and those words as its arguments; if the block
    would not fit the shell's 128 bytes, it makes no call and reports failure. *)
Theorem typed_command_reaches_loader (kernel : list Call -> Call -> Reply) (cmd name : list Z) (args : list (list Z)) (stdio : Z) (log : list Call) :
  Forall typed cmd -> trim cmd = cmd -> tokens cmd = name :: args ->
  let block := program_path name ++ 0 :: Exec.terminated args in
  Exec.split_block block = (program_path name, args) /\
  exec_bin kernel cmd stdio log =
    if decide (length block <= 128)%nat then
      let pid := r_val (kernel log (CExec block stdio)) in
      (if negb (pid =? 0) && negb (failed pid) then pid else u64_max, log ++ [CExec block stdio])
    else (u64_max, log).
Proof. apply command_block. Qed.

(** * Pipelines *)

(** The calls of an [exec_bin]: one or none. *)
Definition exec_calls (cmd : list Z) (stdio : Z) : list Call :=
  let name := default cmd (head (words cmd)) in
  match exec_block name (if (length name + 1 <? length cmd)%nat then trim (drop (length name + 1) cmd) else []) with
  | Some block => [CExec block stdio] | None => [] end.

Lemma exec_bin_calls (kernel : list Call -> Call -> Reply) (cmd : list Z) (stdio : Z) (log : list Call) :
  exists pid, exec_bin kernel cmd stdio log = (pid, log ++ exec_calls cmd stdio) /\ (exec_calls cmd stdio = [] -> pid = u64_max).
Proof.
  unfold exec_bin, try_exec_path, exec_calls. destruct (exec_block _ _); [by eexists|]. exists u64_max. by rewrite app_nil_r.
Qed.

(** A pipeline leaves nothing open.  Whatever the kernel answers, once the pipe exists
    the shell starts the producer with the write end as its output, closes its own
    write end before it starts the consumer with the read end as its input, then
    closes its read end, and only then waits, for the consumer alone; last it kills
    the producer.  Each end is closed exactly once on every path, also when neither
    program could be started, and a process that was not started is neither waited
    for nor killed. *)
Theorem pipeline_closes_both_ends (kernel : list Call -> Call -> Reply) (cmd1 cmd2 : list Z) (log : list Call) (read_fd write_fd : Z) :
  r_val (kernel log CPipe) = 0 -> r_fds (kernel log CPipe) = (read_fd, write_fd) ->
  exists waits kills,
    snd (cmd_pipe kernel cmd1 cmd2 log) =
      log ++ [CPipe] ++ exec_calls cmd1 (Z.lor 0xFFFF (Z.shiftl write_fd 16 mod 2 ^ 64)) ++ [CClose write_fd] ++
      exec_calls cmd2 (Z.lor (Z.lor read_fd (Z.shiftl 1 16)) STDIO_CTTY) ++ [CClose read_fd] ++ waits ++ kills /\
    (waits = [] \/ exists pid, waits = [CWait pid] /\ is_process pid = true /\ exec_calls cmd2 (Z.lor (Z.lor read_fd (Z.shiftl 1 16)) STDIO_CTTY) <> []) /\
    (kills = [] \/ exists pid, kills = [CKill pid] /\ is_process pid = true /\ exec_calls cmd1 (Z.lor 0xFFFF (Z.shiftl write_fd 16 mod 2 ^ 64)) <> []).
Proof.
  intros Hv Hf. unfold cmd_pipe, bind, reply. rewrite Hv, Hf. cbn [Z.eqb negb].
  set (io1 := Z.lor 0xFFFF _). set (io2 := Z.lor _ STDIO_CTTY).
  destruct (exec_bin_calls kernel cmd1 io1 (log ++ [CPipe])) as (pid1 & -> & H1). cbn [do_].
  destruct (exec_bin_calls kernel cmd2 io2 (((log ++ [CPipe]) ++ exec_calls cmd1 io1) ++ [CClose write_fd])) as (pid2 & -> & H2).
  assert (forall pid (e : list Call), (e = [] -> pid = u64_max) -> is_process pid = true -> e <> []) as Hne.
  { intros pid e He Hp ->. rewrite (He eq_refl) in Hp. by vm_compute in Hp. }
  exists (if is_process pid2 then [CWait pid2] else []), (if is_process pid1 then [CKill pid1] else []). split_and!.
  - destruct (is_process pid2), (is_process pid1); unfold do_, ret; cbn [snd]; rewrite ?app_nil_r, <- !(assoc_L (++)); done.
  - destruct (is_process pid2) eqn:E; [right|by left]. exists pid2. split_and!; [done|done|by eapply Hne].
  - destruct (is_process pid1) eqn:E; [right|by left]. exists pid1. split_and!; [done|done|by eapply Hne].
Qed.

(** A pipeline is never started in the background, and a command the shell knows
    itself takes a pipe in its arguments for text. *)
Theorem pipeline_ignores_background (kernel : list Call -> Call -> Reply) (fuel : nat) (log : list Call) :
  execute kernel fuel (bytes "yes | head &") log = execute kernel fuel (bytes "yes | head") log /\
  execute kernel fuel (bytes "echo a | head") log = (tt, log ++ [CWrite (bytes "a | head"); CWrite CRLF]).
Proof.
  split; [reflexivity|]. transitivity (tt, (log ++ [CWrite (bytes "a | head")]) ++ [CWrite CRLF]); [reflexivity|]. by rewrite <- (assoc_L (++)).
Qed.

(** * Output *)

(** The bytes written to standard output by a list of calls. *)
Definition written (calls : list Call) : list Z := calls ≫= (fun c => match c with CWrite b => b | _ => [] end).
#[export] Instance call_eq_dec : EqDecision Call.
Proof. solve_decision. Defined.

Definition reads (fd : Z) (calls : list Call) : nat := length (filter (fun c => c = CRead fd) calls).

(** After [log], descriptor [fd] is a file with these bytes, read 256 at a time. *)
Definition reads_file (kernel : list Call -> Call -> Reply) (log : list Call) (fd : Z) (data : list Z) : Prop :=
  forall calls, let r := kernel (log ++ calls) (CRead fd) in
    r_data r = take 256 (drop (256 * reads fd calls) data) /\ r_val r = Z.of_nat (length (r_data r)).

Lemma cat_loop_spec (kernel : list Call -> Call -> Reply) (log : list Call) (fd : Z) (data : list Z) (fuel : nat) (calls : list Call) :
  reads_file kernel log fd data -> (length data < 256 * (reads fd calls + fuel))%nat ->
  exists calls', cat_loop kernel fuel fd (log ++ calls) = (tt, log ++ calls ++ calls') /\ written calls' = drop (256 * reads fd calls) data.
Proof.
  intros Hk. revert calls. induction fuel as [|fuel IH]; intros calls Hf; cbn [cat_loop].
  { exists []. rewrite !app_nil_r. split; [done|]. symmetry. apply drop_ge. lia. }
  unfold bind, reply. destruct (Hk calls) as [Hd Hv]. cbv zeta in Hd, Hv. rewrite Hv, Hd. set (chunk := take 256 (drop (256 * reads fd calls) data)).
  assert (length chunk <= 256)%nat as Hc by (unfold chunk; rewrite length_take; lia).
  assert (failed (Z.of_nat (length chunk)) = false) as Hnf by (unfold failed, u64_max; rewrite u64_bound_val; apply Z.eqb_neq; lia). rewrite Hnf, orb_false_r.
  destruct (Z.eqb_spec (Z.of_nat (length chunk)) 0) as [E|E].
  - exists [CRead fd]. split; [by rewrite <- (assoc_L (++))|]. change (written [CRead fd]) with (@nil Z). symmetry. apply drop_ge. unfold chunk in E. rewrite length_take, length_drop in E. lia.
  - unfold sys_write, do_. rewrite Nat2Z.id, take_ge by lia. rewrite <- !(assoc_L (++)).
    assert (reads fd (calls ++ [CRead fd] ++ [CWrite chunk]) = S (reads fd calls)) as Hr.
    { unfold reads. rewrite !filter_app, !length_app. rewrite (filter_cons_True _ (CRead fd)) by done. rewrite (filter_cons_False _ (CWrite chunk)) by done. cbn. lia. }
    destruct (IH (calls ++ [CRead fd] ++ [CWrite chunk])) as (calls' & He & Hw); [rewrite Hr; lia|].
    exists ([CRead fd] ++ [CWrite chunk] ++ calls'). split; [rewrite He; by rewrite <- !(assoc_L (++))|].
    unfold written in *. rewrite !bind_app, Hw, Hr. cbn [mbind list_bind app]. rewrite app_nil_r. unfold chunk.
    rewrite <- (take_drop 256 (drop (256 * reads fd calls) data)) at 2. f_equal. rewrite drop_drop. f_equal. lia.
Qed.

(** [cat] prints the file.  For every file, of any length, whose reads deliver its bytes
    256 at a time, [cat] ends (with fuel for one read more than the file has blocks)
    having written exactly the bytes of the file and a line end, and closes the
    descriptor. *)
Theorem cat_prints_file (kernel : list Call -> Call -> Reply) (log : list Call) (path data : list Z) (fd : Z) (fuel : nat) :
  head path = Some 47 -> r_val (kernel log (COpen path)) = fd -> failed fd = false ->
  reads_file kernel (log ++ [COpen path]) fd data -> (length data < 256 * fuel)%nat ->
  exists calls, cmd_cat kernel fuel path log = (tt, log ++ [COpen path] ++ calls ++ [CClose fd]) /\ written calls = data ++ CRLF.
Proof.
  intros Hp Hv Hfd Hk Hf. unfold cmd_cat, with_abs, need_abs. destruct path as [|c path]; [done|]. injection Hp as ->. unfold bind, ret, call.
  rewrite Hv, Hfd. destruct (cat_loop_spec kernel (log ++ [COpen (47 :: path)]) fd data fuel [] Hk) as (calls & He & Hw); [cbn; lia|].
  rewrite app_nil_r in He. rewrite He. unfold sys_write, do_. exists (calls ++ [CWrite CRLF]). split; [by rewrite <- !(assoc_L (++))|].
  unfold written in *. rewrite bind_app, Hw. cbn [mbind list_bind app]. by rewrite app_nil_r.
Qed.

(** Numbers are printed in decimal, all 64 bits of them. *)
Theorem u64_text_roundtrip (n : Z) : is_u64 n -> Console.decimal (u64_text n) = n /\ Forall Console.is_digit (u64_text n) /\ (1 <= length (u64_text n) <= 20)%nat.
Proof.
  unfold is_u64. rewrite u64_bound_val. intros Hn. unfold u64_text. destruct (Z.eqb_spec n 0) as [->|H0].
  { split_and!; [done|by repeat constructor|cbn; lia..]. }
  destruct (ShellEdit.digits_spec 20 n) as (H1 & H2 & H3); [change (10 ^ Z.of_nat 20) with 100000000000000000000; lia|].
  split_and!; [done|by apply Forall_reverse| |by rewrite length_reverse]. rewrite length_reverse.
  destruct (ShellEdit.digits 20 n); [cbn in H1; lia|cbn; lia].
Qed.

(** * From the keyboard to the loader *)

(** One turn of [user_main]: a line is read and, unless it is empty, executed. *)
Definition user_main_turn (kernel : list Call -> Call -> Reply) (fuel : nat) (b : list Z) (h : ShellEdit.History)
    (turns : list ShellEdit.Turn) (log : list Call) : option (list Call) :=
  match (ShellEdit.read_line b h turns).2 with
  | ShellEdit.RLine len buf _ => Some (if (0 <? len)%nat then (execute kernel fuel (take len buf) log).2 else log)
  | ShellEdit.RCancel => Some log
  | ShellEdit.RExit | ShellEdit.RWait _ => None
  end.

Lemma spec_keys_typed (H : list (list Z)) (t rest : list Z) (z : Tty.Zip) (a : nat) (s : list Z) :
  Forall typed t -> Tty.after z = [] -> (length (Tty.before z) + length t < 256)%nat ->
  ShellEdit.spec_keys H (t ++ rest) (ShellEdit.mkSpec z a s) = ShellEdit.spec_keys H rest (ShellEdit.mkSpec (Tty.mkZip (reverse t ++ Tty.before z) []) a s).
Proof.
  intros Ht. revert z. induction Ht as [|c t Hc Ht IH]; intros z Ha Hl; cbn [app ShellEdit.spec_keys].
  { destruct z. cbn in Ha. by subst. }
  cbn [length] in Hl.
  assert (ShellEdit.spec_key H c (ShellEdit.mkSpec z a s) = ShellEdit.SGo (ShellEdit.mkSpec (Tty.mkZip (c :: Tty.before z) (Tty.after z)) a s)) as ->.
  { unfold ShellEdit.spec_key, ShellEdit.text. cbn [ShellEdit.zip ShellEdit.age ShellEdit.saved]. unfold typed in Hc.
    rewrite !(proj2 (Z.eqb_neq c _)) by lia. cbn [orb]. rewrite (proj2 (Z.leb_le _ _)), (proj2 (Z.ltb_lt _ _)) by lia.
    unfold Tty.zip_text. rewrite Ha, app_nil_r, length_reverse. unfold ShellEdit.BUF_SIZE. rewrite (proj2 (Nat.ltb_lt _ _)) by lia. done. }
  rewrite IH by (cbn; (done || lia)). rewrite reverse_cons, <- (assoc_L (++)). done.
Qed.

(** However the typed line is cut into reads. *)
Lemma spec_read_typed (H : list (list Z)) (chunks : list (list Z)) (l1 : list Z) (b : list Z) :
  Forall (Forall typed) chunks -> Forall typed l1 -> (length b + length (concat chunks ++ l1) < 256)%nat ->
  ShellEdit.spec_read H ((fun c => ShellEdit.mkTurn false (Some c)) <$> (chunks ++ [l1 ++ [13]])) (ShellEdit.mkSpec (Tty.mkZip (reverse b) []) 0 []) =
  (let t := b ++ concat chunks ++ l1 in ShellEdit.SLine t (if bool_decide (t = []) then H else t :: H)).
Proof.
  intros Hc Hl. revert b. induction Hc as [|c chunks Hc Hcs IH]; intros b Hb; cbn [app fmap list_fmap ShellEdit.spec_read ShellEdit.signalled ShellEdit.chunk concat] in *.
  - rewrite (spec_keys_typed H l1 [13]) by (done || (cbn [Tty.before]; rewrite length_reverse; cbn in Hb; lia)). cbn [ShellEdit.spec_keys Tty.before].
    change (ShellEdit.spec_key H 13 ?s) with (ShellEdit.SEnter (ShellEdit.text s)). cbn [ShellEdit.text]. unfold ShellEdit.text, Tty.zip_text. cbn [ShellEdit.zip Tty.before Tty.after].
    by rewrite app_nil_r, reverse_app, !reverse_involutive.
  - rewrite !length_app in Hb. pose proof (spec_keys_typed H c [] (Tty.mkZip (reverse b) []) 0 [] Hc eq_refl) as Hk. rewrite app_nil_r in Hk.
    rewrite Hk by (cbn; rewrite length_reverse; lia). cbn [ShellEdit.spec_keys Tty.before]. rewrite <- reverse_app.
    specialize (IH (b ++ c)). rewrite !length_app in IH. specialize (IH ltac:(lia)). rewrite <- !(assoc_L (++)) in IH. rewrite <- (assoc_L (++) c). exact IH.
Qed.

Lemma read_typed_line (chunks : list (list Z)) (l1 b : list Z) (h : ShellEdit.History) (H : list (list Z)) :
  Forall (Forall typed) chunks -> Forall typed l1 -> (length (concat chunks ++ l1) < 256)%nat -> length b = ShellEdit.BUF_SIZE -> ShellEdit.hist_ok h H ->
  exists len buf h', (ShellEdit.read_line b h ((fun c => ShellEdit.mkTurn false (Some c)) <$> (chunks ++ [l1 ++ [13]]))).2 = ShellEdit.RLine len buf h' /\
    take len buf = concat chunks ++ l1 /\ length (concat chunks ++ l1) = len.
Proof.
  intros Hc Hl Hlen Hb Hh. set (turns := _ <$> _).
  pose proof (ShellEdit.read_line_refines b h H turns Hb Hh) as Hr.
  pose proof (spec_read_typed H chunks l1 [] Hc Hl Hlen) as Hs. cbv zeta in Hs. change (reverse []) with (@nil Z) in Hs. change ([] ++ ?x) with x in Hs.
  fold turns in Hs. rewrite Hs in Hr. destruct (ShellEdit.read_line b h turns).2 as [len buf h'| | |]; try done. destruct Hr as (H1 & H2 & H3 & _).
  exists len, buf, h'. split_and!; [done|done|]. rewrite <- H3, length_take. lia.
Qed.

Lemma strip_prefix_app (p l r : list Z) : Str.strip_prefix p l = Some r -> l = p ++ r.
Proof.
  revert l. induction p as [|c p IH]; intros l Hs; cbn in Hs; [by injection Hs as ->|]. destruct l as [|d l]; [done|].
  destruct (Z.eqb_spec c d) as [->|]; [|done]. cbn. f_equal. by apply IH.
Qed.

(** The commands of the shell itself. *)
Definition builtins : list (list Z) :=
  bytes <$> ["help"; "clear"; "mem"; "ps"; "sysinfo"; "smpinfo"; "shutdown"; "reboot"; "ls"; "touch"; "rm"; "mkdir"; "rmdir"; "cat"; "echo"; "exec"]%string.

Lemma not_builtin (cmd name w : list Z) (args : list (list Z)) : trim cmd = cmd -> tokens cmd = name :: args -> name ∉ builtins -> w ∈ builtins -> no_space w ->
  bool_decide (cmd = w) = false /\ Str.starts_with (w ++ [SPACE]) cmd = false.
Proof.
  intros Htrim Htok Hn Hw Hs. destruct (exec_bin_cut cmd name args Htrim Htok) as [Hhead _]. split.
  - apply bool_decide_eq_false. intros ->. apply Hn. unfold words in Hhead. rewrite split_spaces_no_space in Hhead by done. cbn in Hhead. by subst.
  - unfold Str.starts_with. apply bool_decide_eq_false. intros [r Hr]. apply Hn. apply strip_prefix_app in Hr. subst cmd.
    rewrite <- (assoc_L (++)) in Hhead. cbn [app] in Hhead. unfold words in Hhead. rewrite split_spaces_app, split_spaces_no_space in Hhead by done. cbn in Hhead. by subst.
Qed.

(** The test for a command of the shell's own, [t] being [s] and a space. *)
Ltac off Hb s t :=
  let Hst := fresh in
  destruct (Hb (bytes s)) as [_ Hst]; [by apply (list_elem_of_fmap_2 bytes); cbn; rewrite !elem_of_cons; tauto|repeat constructor; discriminate|];
  change (bytes s ++ [SPACE]) with (bytes t) in Hst; rewrite Hst; clear Hst.

(** Any other command, without a pipe and not in the background. *)
Lemma execute_program (kernel : list Call -> Call -> Reply) (fuel : nat) (cmd name : list Z) (args : list (list Z)) (log : list Call) :
  trim cmd = cmd -> tokens cmd = name :: args -> name ∉ builtins -> 124 ∉ cmd -> last cmd <> Some 38 ->
  execute kernel fuel cmd log = run_program kernel cmd false log.
Proof.
  intros Htrim Htok Hn Hp Hl. unfold execute. rewrite Htrim. destruct cmd as [|c cmd0]; [discriminate Htok|]. set (cmd := c :: cmd0) in *.
  assert (Str.ends_with 38 cmd = false) as -> by (unfold Str.ends_with; by apply bool_decide_eq_false).
  pose proof (fun w => not_builtin cmd name w args Htrim Htok Hn) as Hb.
  repeat match goal with
  | |- context [bool_decide (cmd = bytes ?s)] =>
      destruct (Hb (bytes s)) as [-> _]; [by apply (list_elem_of_fmap_2 bytes); cbn; rewrite !elem_of_cons; tauto|repeat constructor; discriminate|]
  end.
  off Hb "ls"%string "ls "%string. off Hb "touch"%string "touch "%string. off Hb "rm"%string "rm "%string. off Hb "mkdir"%string "mkdir "%string.
  off Hb "rmdir"%string "rmdir "%string. off Hb "cat"%string "cat "%string. off Hb "echo"%string "echo "%string. off Hb "exec"%string "exec "%string.
  cbn [orb]. assert (find_pipe cmd = None) as ->; [|done].
  unfold find_pipe. apply position_None. intros y Hy. apply Z.eqb_neq. intros ->. done.
Qed.

(** The calls a straight piece of shell code makes, as one list. *)
Ltac unfold_calls :=
  unfold sys_write, write_u64, do_, bind; cbv beta iota; cbn [snd]; rewrite <- ?(assoc_L (++)); reflexivity.

(** C23: From the keyboard to the loader.  Whatever reads the keyboard's bytes arrive in,
    typing a line of at most 255 printable characters, of the words [name] and [args],
    that names no command of the shell, no pipe and no background, and then Enter,
    makes the shell issue one [SYS_EXEC] call (if it fits 128 bytes) which the kernel
    parses as the path of that program and exactly those arguments, and wait for the
    process if it was started. *)
Theorem typed_line_runs_program (kernel : list Call -> Call -> Reply) (fuel : nat) (chunks : list (list Z)) (l1 b name : list Z) (args : list (list Z))
    (h : ShellEdit.History) (H : list (list Z)) (log : list Call) :
  Forall (Forall typed) chunks -> Forall typed l1 -> length b = ShellEdit.BUF_SIZE -> ShellEdit.hist_ok h H ->
  let cmd := concat chunks ++ l1 in
  (length cmd < 256)%nat -> trim cmd = cmd -> tokens cmd = name :: args -> name ∉ builtins -> 124 ∉ cmd -> last cmd <> Some 38 ->
  let block := program_path name ++ 0 :: Exec.terminated args in
  (length block <= 128)%nat ->
  let pid := r_val (kernel log (CExec block STDIO_INHERIT)) in
  Exec.split_block block = (program_path name, args) /\
  exists calls, user_main_turn kernel fuel b h ((fun c => ShellEdit.mkTurn false (Some c)) <$> (chunks ++ [l1 ++ [13]])) log =
      Some (log ++ CExec block STDIO_INHERIT :: calls) /\
    (is_process pid = true -> calls = [CWait pid]).
Proof.
  intros Hc Hl Hb Hh cmd Hlen Htrim Htok Hn Hp Hlast block Hfit pid.
  destruct (read_typed_line chunks l1 b h H Hc Hl Hlen Hb Hh) as (len & buf & h' & Hread & Htake & Hlen').
  assert (Forall typed cmd) as Hty by (apply Forall_app; split; [|done]; clear -Hc; induction Hc; [constructor|apply Forall_app; by split]).
  destruct (command_block kernel cmd name args STDIO_INHERIT log Hty Htrim Htok) as [Hsplit Hexec]. split; [exact Hsplit|].
  unfold user_main_turn. rewrite Hread, Htake. fold cmd.
  assert (0 < len)%nat as H0.
  { rewrite <- Hlen'. fold cmd. destruct cmd; [discriminate Htok|cbn; lia]. }
  rewrite (proj2 (Nat.ltb_lt 0 len)), (execute_program kernel fuel cmd name args log) by done.
  unfold run_program, bind. rewrite Hexec, decide_True by done. cbv zeta. fold block. fold pid. unfold is_process.
  assert (forall n : Z, n = u64_max -> (n =? 1) = false /\ negb (n =? 0) && negb (failed n) = false) as Hmax by (intros n ->; split; reflexivity).
  destruct (pid =? 0) eqn:E0; [|destruct (failed pid) eqn:E1]; cbn [negb andb].
  - destruct (Hmax u64_max eq_refl) as [-> ->]. eexists. split; [unfold_calls|done].
  - destruct (Hmax u64_max eq_refl) as [-> ->]. eexists. split; [unfold_calls|by rewrite andb_false_r].
  - rewrite E0, E1. destruct (pid =? 1); cbn [negb andb]; (eexists; split; [unfold_calls|done]).
Qed.

Module Example.
Definition reply0 (v : Z) (data : list Z) : Reply := mkReply v (4, 5) data (mkInfo 0 0 [] 0 0 0) [].
(** A kernel with one file of three bytes, whose programs get pid 9. *)
Definition kernel0 (log : list Call) (c : Call) : Reply :=
  match c with
  | CExec _ _ => reply0 9 []
  | COpen _ => reply0 3 []
  | CRead _ => let d := take 256 (drop (256 * reads 3 log) [104; 105; 33]) in reply0 (Z.of_nat (length d)) d
  | _ => reply0 0 []
  end.

Lemma typed_command_reaches_loader_witness :
  exec_bin kernel0 (bytes "ls  -l /dev") 1 [] = (9, [CExec (bytes "/bin/ls.kxe" ++ 0 :: bytes "-l" ++ 0 :: bytes "/dev" ++ [0]) 1]).
Proof.
  destruct (typed_command_reaches_loader kernel0 (bytes "ls  -l /dev") (bytes "ls") [bytes "-l"; bytes "/dev"] 1 []) as [_ H].
  - repeat constructor; cbn; lia.
  - reflexivity.
  - reflexivity.
  - exact H.
Defined.

Lemma pipeline_closes_both_ends_witness :
  exists waits kills, snd (cmd_pipe kernel0 (bytes "yes") (bytes "head") []) =
    [CPipe] ++ exec_calls (bytes "yes") (Z.lor 0xFFFF (Z.shiftl 5 16 mod 2 ^ 64)) ++ [CClose 5] ++
    exec_calls (bytes "head") (Z.lor (Z.lor 4 (Z.shiftl 1 16)) STDIO_CTTY) ++ [CClose 4] ++ waits ++ kills.
Proof.
  destruct (pipeline_closes_both_ends kernel0 (bytes "yes") (bytes "head") [] 4 5 eq_refl eq_refl) as (w & k & H & _). by exists w, k.
Defined.

Lemma cat_prints_file_witness :
  exists calls, cmd_cat kernel0 1 (bytes "/a") [] = (tt, [] ++ [COpen (bytes "/a")] ++ calls ++ [CClose 3]) /\ written calls = [104; 105; 33] ++ CRLF.
Proof.
  apply (cat_prints_file kernel0 [] (bytes "/a") [104; 105; 33] 3 1); [reflexivity|reflexivity|reflexivity| |cbn; lia].
  intros calls. split; reflexivity.
Defined.

Lemma u64_text_roundtrip_witness : Console.decimal (u64_text u64_max) = u64_max.
Proof. apply u64_text_roundtrip. unfold is_u64, u64_max. rewrite u64_bound_val. lia. Defined.

(** "edit /a", typed in two pieces. *)
Lemma typed_line_runs_program_witness :
  exists calls, user_main_turn kernel0 0 (replicate 256 0) ShellEdit.empty_history
      [ShellEdit.mkTurn false (Some (bytes "ed")); ShellEdit.mkTurn false (Some (bytes "it /a" ++ [13]))] [] =
    Some ([] ++ CExec (bytes "/bin/edit.kxe" ++ 0 :: bytes "/a" ++ [0]) STDIO_INHERIT :: calls).
Proof.
  destruct (typed_line_runs_program kernel0 0 [bytes "ed"] (bytes "it /a") (replicate 256 0) (bytes "edit") [bytes "/a"] ShellEdit.empty_history [] []) as [_ (calls & Hc & _)].
  - repeat constructor; cbn; lia.
  - repeat constructor; cbn; lia.
  - reflexivity.
  - exact ShellEdit.Example.empty_ok.
  - apply Nat.ltb_lt. reflexivity.
  - reflexivity.
  - reflexivity.
  - unfold builtins. cbn. rewrite !elem_of_cons, elem_of_nil. intros Hin. repeat destruct Hin as [Hin|Hin]; discriminate || done.
  - cbn. rewrite !elem_of_cons, elem_of_nil. intros Hin. repeat destruct Hin as [Hin|Hin]; discriminate || done.
  - discriminate.
  - apply Nat.leb_le. reflexivity.
  - exists calls. exact Hc.
Defined.
End Example.

End Shell.
