(* ===== verification/Syscall.v ===== *)
(** System call entry: the [int 0x80] stub, [syscall_block_fn] and
    [syscall_return_to_kernel] of [crates/kernel/src/syscall.rs], and the per-CPU cells of
    [crates/kernel/src/syscall/context.rs].

    The stub is a function from the registers of the calling thread to the registers it
    returns with, or to how the CPU leaves the kernel instead.  The handler behind it is
    an argument, over any state with a dispatch state in it (the class [World]); the
    dispatcher of [Handlers.v] is one. *)
From stdpp Require Import base list numbers option gmap.
From S2P Require Import Prelude Pmm Vmm Uaccess Thread Scheduler Process Dispatch Pipe Fd Keyboard Ipc SysFile.

Open Scope Z_scope.

Module Syscall.
Import Thread.Thread Scheduler.Scheduler Process.Process Dispatch.Dispatch.

Definition EXIT_TO_KERNEL : Z := u64_max - 1.
Definition BLOCK_TO_SCHEDULER : Z := u64_max - 2.

(** ** The stub *)

(** What the processor and then the stub push, from the lowest address. *)
Definition int80_frame (g : Regs) : list Z :=
  [g_r15 g; g_r14 g; g_r13 g; g_r12 g; g_r11 g; g_r10 g; g_r9 g; g_r8 g; g_rdi g; g_rsi g; g_rdx g; g_rcx g; g_rbx g; g_rbp g;
   g_rip g; g_cs g; g_rflags g; g_rsp g; g_ss g].

(** The kernel's state, seen from the entry code. *)
Class World (W : Type) := { disp : W -> DState; on_disp : (DState -> DState) -> W -> W }.
Class WorldLaws (W : Type) `{World W} := { disp_on : forall f w, disp (on_disp f w) = f (disp w) }.

(** The cells of [context.rs] that [DState] does not hold. *)
Record Cells := mkCells { blocking_rsp_tmps : list Z }.
Definition blocking_rsp_tmp (cpu : nat) (c : Cells) : Z := default 0 (blocking_rsp_tmps c !! cpu).
Definition set_blocking_rsp_tmp (cpu : nat) (v : Z) (c : Cells) : Cells := mkCells (<[cpu := v]> (blocking_rsp_tmps c)).

Definition exiting_pid_tmp (cpu : nat) (d : DState) : Z := default 0 (exiting_pid_tmps d !! cpu).
Definition set_exiting_pid_tmp (cpu : nat) (v : Z) (d : DState) : DState := note_exit cpu v [] (ps d) d.

(** How a system call ends: back in the caller; blocked; or the thread is gone, its
    process being announced to the driver table if it exited. *)
Inductive Outcome :=
  | Returned (g : Regs)
  | Blocked (next : option Launch)
  | Exited (announced : option Z) (next : option Launch).

Section Entry.
Context {W : Type} `{World W}.
Variable temp_top : nat -> Z.

Definition push_frame (cpu : nat) (g : Regs) (d : DState) : Z * DState :=
  let p := default 0 (tss_rsp0 d !! cpu) - 152 in
  (p, on_threads (fun x => set_kmem (write_words p (int80_frame g) (kmem x)) x) d).

(** [syscall_block_fn] before it dispatches. *)
Definition syscall_block_fn (cpu : nat) (rsp : Z) (d : DState) : DState :=
  let d := set_cr3 cpu (kernel_cr3 d) d in
  let d := match current_user_tid cpu (ss (ps d)) with
           | Some t => on_ps (set_blocking_rsp_tid t rsp) d
           | None => d
           end in
  on_ps (clear_current_pid cpu) (on_ps (set_current_pid cpu None) d).

(** [syscall_return_to_kernel] before it dispatches; no exit handler is ever set. *)
Definition syscall_return_to_kernel (cpu : nat) (d : DState) : option Z * DState :=
  let d := set_cr3 cpu (kernel_cr3 d) d in
  let p := exiting_pid_tmp cpu d in
  let d := on_ps (set_current_pid cpu None) (set_exiting_pid_tmp cpu 0 d) in
  (if p =? 0 then None else Some p, d).

(** [enter_next_process], one pass of its loop. *)
Definition dispatch (cpu : nat) (w : W) : option Launch * W :=
  let '(l, d) := enter_next_process temp_top cpu (disp w) in (l, on_disp (fun _ => d) w).

(** [SYS_HANDLER] is [None] until [register]. *)
Definition syscall_handler (h : option (Z -> Z -> Z -> Z -> W -> Z * W)) (number arg0 arg1 arg2 : Z) (w : W) : Z * W :=
  match h with Some f => f number arg0 arg1 arg2 w | None => (0, w) end.

Definition syscall_int80 (h : option (Z -> Z -> Z -> Z -> W -> Z * W)) (cpu : nat) (g : Regs) (c : Cells) (w : W)
  : Outcome * Cells * W :=
  let '(p, d) := push_frame cpu g (disp w) in
  let w := on_disp (fun _ => d) w in
  let '(r, w) := syscall_handler h (g_rax g) (g_rdi g) (g_rsi g) (g_rdx g) w in
  if r =? EXIT_TO_KERNEL then
    let '(a, d) := syscall_return_to_kernel cpu (disp w) in
    let '(l, w) := dispatch cpu (on_disp (fun _ => d) w) in (Exited a l, c, w)
  else if r =? BLOCK_TO_SCHEDULER then
    let c := set_blocking_rsp_tmp cpu p c in
    let '(l, w) := dispatch cpu (on_disp (syscall_block_fn cpu (blocking_rsp_tmp cpu c)) w) in (Blocked l, c, w)
  else (Returned (pop_blocked (kmem (tst (disp w))) p r), c, w).
End Entry.

(** The registers a launch loads. *)
Definition launch_regs (l : Launch) (d : DState) : option Regs :=
  match l with
  | LBlocked _ rsp retval => Some (pop_blocked (kmem (tst d)) rsp retval)
  | LUser _ p => Some (pop_launch (kmem (tst d)) p)
  | LPreempted _ rsp => Some (pop_timer (kmem (tst d)) rsp)
  | _ => None
  end.

Definition with_rax (v : Z) (g : Regs) : Regs :=
  mkRegs v (g_rbx g) (g_rcx g) (g_rdx g) (g_rsi g) (g_rdi g) (g_rbp g) (g_r8 g) (g_r9 g) (g_r10 g) (g_r11 g) (g_r12 g)
         (g_r13 g) (g_r14 g) (g_r15 g) (g_rip g) (g_cs g) (g_rflags g) (g_rsp g) (g_ss g).

(** * What the stub keeps *)

(** The frame of [g] lies at [p]. *)
Definition frame_at (m : gmap Z Z) (p : Z) (g : Regs) : Prop :=
  forall (i : nat) (v : Z), int80_frame g !! i = Some v -> word m p (Z.of_nat i) = v.

Lemma frame_pushed (cpu : nat) (g : Regs) (d : DState) :
  let '(p, d') := push_frame cpu g d in frame_at (kmem (tst d')) p g.
Proof. intros i v Hi. by apply word_write_words. Qed.

Lemma pop_frame (m : gmap Z Z) (p r : Z) (g : Regs) : frame_at m p g -> pop_blocked m p r = with_rax r g.
Proof.
  intros Hf. unfold pop_blocked, with_rax. cbv zeta.
  f_equal; [exact (Hf 12%nat _ eq_refl)|exact (Hf 11%nat _ eq_refl)|exact (Hf 10%nat _ eq_refl)|exact (Hf 9%nat _ eq_refl)
    |exact (Hf 8%nat _ eq_refl)|exact (Hf 13%nat _ eq_refl)|exact (Hf 7%nat _ eq_refl)|exact (Hf 6%nat _ eq_refl)
    |exact (Hf 5%nat _ eq_refl)|exact (Hf 4%nat _ eq_refl)|exact (Hf 3%nat _ eq_refl)|exact (Hf 2%nat _ eq_refl)
    |exact (Hf 1%nat _ eq_refl)|exact (Hf 0%nat _ eq_refl)|exact (Hf 14%nat _ eq_refl)|exact (Hf 15%nat _ eq_refl)
    |exact (Hf 16%nat _ eq_refl)|exact (Hf 17%nat _ eq_refl)|exact (Hf 18%nat _ eq_refl)].
Qed.

Section Launching.
Variable temp_top : nat -> Z.

(** Thread [id] is the one this CPU runs next. *)
Definition chosen (cpu : nat) (id : Z) (t : Thread) (d : DState) : Prop :=
  id <> 0 /\ schedule_next (Z.of_nat cpu) 0 (tst d) = id /\ Thread.find id (tst d) = Some t /\ t_cpu t = Z.of_nat cpu.

Lemma kmem_start (cpu : nat) (i : Z) (d : DState) : kmem (tst (start cpu i d)) = kmem (tst d).
Proof. unfold start, Process.set_running, tst. simpl. by destruct (current_user_tid cpu (ss (ps d))). Qed.
Lemma kmem_load_rsp0 (cpu : nat) (id : Z) (d : DState) : kmem (tst (load_rsp0 cpu id d)) = kmem (tst d).
Proof. unfold load_rsp0. by destruct (Thread.kernel_stack_top _ _). Qed.
Lemma kmem_load_cr3 (cpu : nat) (id : Z) (d : DState) : kmem (tst (load_cr3 cpu id d)) = kmem (tst d).
Proof. by destruct (tst_load_cr3 cpu id d) as (-> & _). Qed.

(** A thread with a saved frame is resumed from it with its stored result. *)
Lemma enter_blocked (cpu : nat) (id : Z) (t : Thread) (d : DState) :
  chosen cpu id t d -> t_blocking_rsp t <> 0 ->
  exists d', enter_next_process temp_top cpu d = (Some (LBlocked id (t_blocking_rsp t) (t_blocking_retval t)), d') /\
    kmem (tst d') = kmem (tst d).
Proof.
  intros (Hid & Hs & Ht & Hcpu) Hb. unfold enter_next_process. rewrite Hs. apply Z.eqb_neq in Hid. rewrite Hid.
  unfold assigned_cpu. rewrite Ht. cbn [fmap option_fmap option_map default]. rewrite Hcpu, Z.eqb_refl. cbn [negb].
  unfold take_blocking_rsp. rewrite Ht. apply Z.eqb_neq in Hb. rewrite Hb. unfold take_blocking_retval.
  change (tst (on_threads (fun _ => ?x) d)) with x.
  rewrite Thread.find_modify by done. rewrite Z.eqb_refl, Ht. simpl.
  eexists. split; [done|]. rewrite kmem_start, kmem_load_rsp0. unfold set_current_tid.
  change (kmem (tst (on_ps ?f ?x))) with (kmem (ts (f (ps x)))). simpl.
  etransitivity; [apply kmem_load_cr3|done].
Qed.

(** A thread without one is launched with the registers of its context. *)
Lemma enter_user (cpu : nat) (id : Z) (t : Thread) (d : DState) :
  chosen cpu id t d -> t_blocking_rsp t = 0 -> t_preempted t = false ->
  exists p d', enter_next_process temp_top cpu d = (Some (LUser id p), d') /\
    pop_launch (kmem (tst d')) p = context_regs (t_context t).
Proof.
  intros (Hid & Hs & Ht & Hcpu) Hb Hp. unfold enter_next_process. rewrite Hs. apply Z.eqb_neq in Hid. rewrite Hid.
  unfold assigned_cpu. rewrite Ht. cbn [fmap option_fmap option_map default]. rewrite Hcpu, Z.eqb_refl. cbn [negb].
  unfold take_blocking_rsp. rewrite Ht, Hb. cbn [Z.eqb].
  assert (is_kernel_preempted id (tst d) = false) as -> by (unfold is_kernel_preempted; by rewrite Ht).
  unfold Thread.user_context. rewrite Ht. cbn [fmap option_fmap option_map].
  unfold put_frame. cbn. eexists _, _. split; [done|]. exact (launch_restores (temp_top cpu) (t_context t) _).
Qed.
End Launching.
(** Waking a thread copies its frame, with the result, into its context. *)
Lemma woken_context (m : gmap Z Z) (p r : Z) (g : Regs) (t : Thread) :
  frame_at m p g -> p <> 0 -> user_regs g ->
  let t' := wake m r (with_blocking_rsp p t) in
  context_regs (t_context t') = with_rax r g /\ t_blocking_rsp t' = 0 /\ t_preempted t' = false.
Proof.
  intros Hf Hp Hu. pose proof (pop_frame m p r g Hf) as Hpop. unfold wake, restore_ctx_from_blocking_frame. simpl.
  apply Z.eqb_neq in Hp. rewrite Hp. simpl. split_and!; [|done..]. rewrite <- Hpop.
  assert (user_regs (pop_blocked m p r)) as (E1 & E2 & E3) by (rewrite Hpop; exact Hu).
  unfold context_regs, pop_blocked in *. simpl in *. by rewrite E1, E2, E3.
Qed.

Lemma block_commits (cpu : nat) (p id : Z) (t : Thread) (d : DState) :
  current_user_tid cpu (ss (ps d)) = Some id -> Thread.find id (tst d) = Some t ->
  let d' := syscall_block_fn cpu p d in
  Thread.find id (tst d') = Some (with_blocking_rsp p t) /\ kmem (tst d') = kmem (tst d).
Proof.
  intros Hc Ht. unfold syscall_block_fn. cbn [ss ps set_cr3]. rewrite Hc.
  change (tst (on_ps _ (on_ps _ (on_ps (set_blocking_rsp_tid id p) (set_cr3 cpu (kernel_cr3 d) d)))))
    with (Thread.set_blocking_rsp id p (tst d)).
  split; [|done]. unfold Thread.set_blocking_rsp. rewrite Thread.find_modify by done. by rewrite Z.eqb_refl, Ht.
Qed.

Section Calls.
Context {W : Type} `{WorldLaws W}.
Variable temp_top : nat -> Z.
Implicit Types (h : option (Z -> Z -> Z -> Z -> W -> Z * W)) (w : W).

(** The state in which the handler starts. *)
Definition entered (cpu : nat) (g : Regs) (w : W) : W := on_disp (fun _ => snd (push_frame cpu g (disp w))) w.
Definition frame_of (cpu : nat) (w : W) : Z := default 0 (tss_rsp0 (disp w) !! cpu) - 152.

(** A system call is invisible but for its result.  A call whose handler answers with an
    ordinary value, and keeps off the caller's saved frame, continues the caller after
    the instruction with every register as it was and the answer in [rax]. *)
Theorem call_returns h (cpu : nat) (g : Regs) (c : Cells) w w1 (r : Z) :
  syscall_handler h (g_rax g) (g_rdi g) (g_rsi g) (g_rdx g) (entered cpu g w) = (r, w1) ->
  r <> EXIT_TO_KERNEL -> r <> BLOCK_TO_SCHEDULER -> frame_at (kmem (tst (disp w1))) (frame_of cpu w) g ->
  syscall_int80 temp_top h cpu g c w = (Returned (with_rax r g), c, w1).
Proof.
  intros Hh He Hb Hf. unfold syscall_int80, push_frame. unfold entered, push_frame in Hh. cbn [snd] in Hh.
  fold (frame_of cpu w) in *. rewrite Hh. apply Z.eqb_neq in He as ->. apply Z.eqb_neq in Hb as ->. by rewrite (pop_frame _ _ _ g).
Qed.

(** C19: A blocking call resumes where it was made.  When the handler of a call blocks the
    calling thread, the CPU leaves for other work with the thread's frame committed; and
    whenever the thread is then woken with a result, by any waker, and later chosen on
    its CPU, it continues after the instruction with every register as it was at the
    call and the waker's result in [rax]. *)
Theorem blocked_call_resumes h (cpu : nat) (g : Regs) (c : Cells) w w1 (id : Z) (t : Thread) :
  syscall_handler h (g_rax g) (g_rdi g) (g_rsi g) (g_rdx g) (entered cpu g w) = (BLOCK_TO_SCHEDULER, w1) ->
  current_user_tid cpu (ss (ps (disp w1))) = Some id -> Thread.find id (tst (disp w1)) = Some t ->
  (cpu < length (blocking_rsp_tmps c))%nat -> user_regs g -> frame_of cpu w <> 0 ->
  let d0 := syscall_block_fn cpu (frame_of cpu w) (disp w1) in
  let t0 := with_blocking_rsp (frame_of cpu w) t in
  (syscall_int80 temp_top h cpu g c w).1.1 = Blocked (enter_next_process temp_top cpu d0).1 /\
  Thread.find id (tst d0) = Some t0 /\
  (forall m (r : Z) d, frame_at m (frame_of cpu w) g -> chosen cpu id (wake m r t0) d ->
     exists l d', enter_next_process temp_top cpu d = (Some l, d') /\ launch_regs l d' = Some (with_rax r g)).
Proof.
  intros Hh Hc Ht Hlen Hu Hp d0 t0. split_and!.
  - unfold syscall_int80, push_frame. unfold entered, push_frame in Hh. cbn [snd] in Hh. fold (frame_of cpu w) in *. rewrite Hh.
    change (BLOCK_TO_SCHEDULER =? EXIT_TO_KERNEL) with false. rewrite Z.eqb_refl. cbn iota.
    unfold dispatch, blocking_rsp_tmp, set_blocking_rsp_tmp. cbn [blocking_rsp_tmps].
    rewrite list_lookup_insert_eq by done. cbn [default Datatypes.id from_option]. rewrite disp_on. unfold Datatypes.id. fold d0.
    by destruct (enter_next_process temp_top cpu d0).
  - by apply block_commits.
  - intros m r d Hf Hch. destruct (woken_context m (frame_of cpu w) r g t Hf Hp Hu) as (E1 & E2 & E3).
    destruct (enter_user temp_top cpu id _ d Hch E2 E3) as (p & d' & E4 & E5).
    exists (LUser id p), d'. split; [done|]. cbn [launch_regs]. rewrite E5. f_equal. exact E1.
Qed.
End Calls.

(** The other order: on another CPU the waker comes first, before the stub has committed
    the frame.  The thread then continues with the value of its [blocking_retval] cell. *)
Lemma early_wake_resumes (temp_top : nat -> Z) (cpu : nat) (p id : Z) (g : Regs) (t : Thread) (d d1 : DState) :
  current_user_tid cpu (ss (ps d)) = Some id -> Thread.find id (tst d) = Some t -> p <> 0 ->
  chosen cpu id (with_blocking_rsp p t) d1 -> frame_at (kmem (tst d1)) p g ->
  Thread.find id (tst (syscall_block_fn cpu p d)) = Some (with_blocking_rsp p t) /\
  exists l d2, enter_next_process temp_top cpu d1 = (Some l, d2) /\ launch_regs l d2 = Some (with_rax (t_blocking_retval t) g).
Proof.
  intros Hc Ht Hp Hch Hf. split; [by apply block_commits|].
  destruct (enter_blocked temp_top cpu id _ d1 Hch Hp) as (d2 & E1 & E2). eexists _, d2. split; [done|]. simpl.
  rewrite E2. f_equal. by apply (pop_frame _ p).
Qed.

(** A pipe reader gets its count in either order.  When bytes arrive for a reader that
    blocks, it continues with every register as it was and the number of bytes copied
    to it in [rax], whether the writer comes after the reader's frame was committed or,
    on another CPU, before it: the count is kept in [blocking_retval] for that case. *)
Theorem pipe_reader_gets_count (temp_top : nat -> Z) (cpu : nat) (p id pipe : Z) (g : Regs) (t : Thread) (d d1 : DState)
    (s : Pipe.State) (acc : list (option Pipe.PipeState) * gmap Z (gmap Z Z)) :
  let woken x := (Pipe.notify_thread pipe s x acc).1 in
  t_state t = Sleeping -> t_blocking_rsp t = 0 -> t_wait t <> WNone -> user_regs g -> p <> 0 ->
  t_wait (woken t) = WNone ->
  frame_at (kmem (tst d1)) p g -> frame_at (kmem (Pipe.tst s)) p g ->
  exists n : nat,
    (* the writer came first *)
    (current_user_tid cpu (ss (ps d)) = Some id -> Thread.find id (tst d) = Some (woken t) ->
     chosen cpu id (with_blocking_rsp p (woken t)) d1 ->
     exists l d2, enter_next_process temp_top cpu d1 = (Some l, d2) /\ launch_regs l d2 = Some (with_rax (Z.of_nat n) g)) /\
    (* the frame was committed first *)
    (chosen cpu id (woken (with_blocking_rsp p t)) d1 ->
     exists l d2, enter_next_process temp_top cpu d1 = (Some l, d2) /\ launch_regs l d2 = Some (with_rax (Z.of_nat n) g)).
Proof.
  intros woken Hst Hb Hw Hu Hp Hwoken Hf1 Hf2. subst woken. cbv beta in *.
  assert (exists n : nat,
    (Pipe.notify_thread pipe s t acc).1 = wake (kmem (Pipe.tst s)) (Z.of_nat n) (with_blocking_retval (Z.of_nat n) t) /\
    (Pipe.notify_thread pipe s (with_blocking_rsp p t) acc).1
      = wake (kmem (Pipe.tst s)) (Z.of_nat n) (with_blocking_rsp p (with_blocking_retval (Z.of_nat n) t))) as (n & E1 & E2).
  { revert Hwoken. unfold Pipe.notify_thread. cbn [t_state t_wait t_context with_blocking_rsp]. rewrite Hst.
    destruct (t_wait t) as [| | | | | | | | |pid' bp bl] eqn:Ew; try (cbn; intros; congruence).
    destruct (_ =? pipe); [|cbn; congruence].
    destruct (Uaccess.validate_range_in _ _ _ _ _) as [[]|]; [|cbn; congruence..].
    destruct (Pipe.read_raw _ _ _ _ _) as [[n ub] ps']; intros _; by exists n. }
  exists n. rewrite E1, E2. split.
  - intros Hc Ht Hch. pose proof (early_wake_resumes temp_top cpu p id g _ d d1 Hc Ht Hp Hch Hf1) as [_ Hr].
    assert (t_blocking_retval (wake (kmem (Pipe.tst s)) (Z.of_nat n) (with_blocking_retval (Z.of_nat n) t)) = Z.of_nat n) as E3.
    { unfold wake, restore_ctx_from_blocking_frame. cbn [t_blocking_rsp with_blocking_retval]. by rewrite Hb. }
    rewrite E3 in Hr. exact Hr.
  - intros Hch. destruct (woken_context (kmem (Pipe.tst s)) p (Z.of_nat n) g (with_blocking_retval (Z.of_nat n) t) Hf2 Hp Hu) as (F1 & F2 & F3).
    destruct (enter_user temp_top cpu id _ d1 Hch F2 F3) as (q & d2 & F4 & F5).
    exists (LUser id q), d2. split; [done|]. cbn [launch_regs]. rewrite F5. f_equal. exact F1.
Qed.

(** C40: Every other waker's result is lost in that order.  A thread that is woken with a
    result by a key, an exit, a message or an interrupt before its frame is committed
    continues with whatever its [blocking_retval] cell holds - the result of an earlier
    pipe read, or 0 - whatever the result was. *)
Theorem early_wake_loses_result (temp_top : nat -> Z) (cpu : nat) (p id r : Z) (m : gmap Z Z) (g : Regs) (t : Thread) (d d1 : DState) :
  t_blocking_rsp t = 0 -> p <> 0 ->
  current_user_tid cpu (ss (ps d)) = Some id -> Thread.find id (tst d) = Some (wake m r t) ->
  chosen cpu id (with_blocking_rsp p (wake m r t)) d1 -> frame_at (kmem (tst d1)) p g ->
  Thread.find id (tst (syscall_block_fn cpu p d)) = Some (with_blocking_rsp p (wake m r t)) /\
  exists l d2, enter_next_process temp_top cpu d1 = (Some l, d2) /\ launch_regs l d2 = Some (with_rax (t_blocking_retval t) g).
Proof.
  intros Hb Hp Hc Ht Hch Hf.
  replace (t_blocking_retval t) with (t_blocking_retval (wake m r t)); [by apply (early_wake_resumes temp_top cpu p id g _ d d1)|].
  unfold wake, restore_ctx_from_blocking_frame. by rewrite Hb.
Qed.


(** The main thread of the process that a handler puts to sleep. *)
Lemma block_on_main {D : Type} (cpu : nat) (w : WaitTarget) (pid id : Z) (t : Thread) (s : SysFile.State D) :
  current_user_pid cpu (ss (SysFile.procs s)) = Some pid -> main_tid pid (SysFile.view s) = Some id ->
  Thread.find id (ts (SysFile.view s)) = Some t -> terminal (t_state t) = false ->
  Thread.find id (ts (SysFile.view (SysFile.block_on cpu w s))) = Some (with_state Sleeping (with_wait w t)).
Proof.
  intros Hc Hm Ht Hterm. unfold SysFile.block_on. rewrite Hc. unfold SysFile.on_view.
  change (ts (SysFile.view (SysFile.set_view ?q s))) with (ts q). set (q := SysFile.view s) in *.
  unfold Process.set_sleeping, Process.set_wait_target, on_main at 2. rewrite Hm. set (q' := Process.modify pid _ _).
  assert (main_tid pid q' = Some id) as Hm'.
  { unfold q'. rewrite (main_tid_key pid (on_ts (Thread.set_wait_target id w) q)); [exact Hm|].
    apply keys_modify. intros x. by destruct (terminal (p_state x)). }
  unfold on_main. rewrite Hm'. cbn [on_ts ts set_ts]. unfold Thread.set_sleeping.
  rewrite Thread.find_modify by (intros y; by destruct (terminal (t_state y))). rewrite Z.eqb_refl.
  change (ts q') with (Thread.set_wait_target id w (ts q)). unfold Thread.set_wait_target.
  rewrite Thread.find_modify by done. rewrite Z.eqb_refl, Ht. simpl. by rewrite Hterm.
Qed.

(** A console read that has to wait returns the key as its count.  A [SYS_READ] from the
    console with no key buffered puts the process to sleep with its buffer untouched;
    the next key wakes it with the key's code as the result of the call and writes
    nothing to the buffer, so the caller sees a read of as many bytes as the code, none
    of which were stored. *)
Theorem console_read_returns_key {D : Type} `{SysFile.DeviceOps D} (cpu : nat) (fd ptr len pid id p ch : Z) (g : Regs) (t : Thread)
    (m : gmap Z Z) (s : SysFile.State D) :
  ptr <> 0 -> len <> 0 -> SysFile.validate_range ptr len true s = true ->
  Fd.get_fd (SysFile.caller cpu s) (Z.to_nat fd) (SysFile.fds s) = Some Fd.ConsoleIn ->
  SysFile.kbd_locked_out cpu s = false -> (SysFile.get_raw s).1 = None ->
  current_user_pid cpu (ss (SysFile.procs s)) = Some pid -> main_tid pid (SysFile.procs s) = Some id ->
  Thread.find id (Pipe.tst (SysFile.world s)) = Some t -> terminal (t_state t) = false ->
  user_regs g -> p <> 0 -> frame_at m p g ->
  let '(r, s') := SysFile.sys_read cpu fd ptr len s in
  r = BLOCK_TO_SCHEDULER /\ SysFile.user_bytes s' = SysFile.user_bytes s /\
  exists t', Thread.find id (Pipe.tst (SysFile.world s')) = Some t' /\ waits WKeyboard t' = true /\
    context_regs (t_context (wake m ch (with_blocking_rsp p t'))) = with_rax ch g.
Proof.
  intros Hp0 Hl0 Hv Hfd Hlock Hnone Hc Hm Ht Hterm Hu Hp Hf. unfold SysFile.sys_read.
  apply Z.eqb_neq in Hp0. apply Z.eqb_neq in Hl0. rewrite Hp0, Hl0, Hv, Hfd, Hlock. cbn [orb negb].
  unfold SysFile.get_raw in *. destruct (Keyboard.ring_get _ _) as [o k]. cbn [fst] in Hnone. subst o. cbn iota beta.
  set (s1 := SysFile.set_kbd _ s). split_and!; [done| |].
  - unfold SysFile.block_on. by destruct (current_user_pid cpu (ss (SysFile.procs s1))).
  - eexists. split; [by apply (block_on_main cpu WKeyboard pid id t s1)|]. split; [done|].
    by destruct (woken_context m p ch g (with_state Sleeping (with_wait WKeyboard t)) Hf Hp Hu) as [E _].
Qed.

(** * Witnesses *)

Module Example.
#[local] Instance dstate_world : World DState := { disp := fun d => d; on_disp := fun f d => f d }.
#[local] Instance dstate_laws : WorldLaws DState.
Proof. by constructor. Qed.

(** Thread 1 of process 5 runs on CPU 0; its kernel stack ends at 65536. *)
Definition state : DState :=
  mkDState Process.Example.st (replicate 16 4096) (replicate 16 65536) (replicate 16 32768) 4096 (replicate 16 0) 0 0 0 0
    (replicate 16 0) (replicate 16 0) (replicate 16 0) false (replicate 16 0) [].
Definition regs : Regs := mkRegs 20 1 2 3 4 5 6 7 8 9 10 11 12 13 14 4198400 USER_CODE 514 77824 USER_DATA.
Definition cells : Cells := mkCells (replicate 16 0).
(** A handler that answers 7, and one that sleeps until the next tick. *)
Definition answer7 : option (Z -> Z -> Z -> Z -> DState -> Z * DState) := Some (fun _ _ _ _ d => (7, d)).
Definition sleep_tick : option (Z -> Z -> Z -> Z -> DState -> Z * DState) :=
  Some (fun _ _ _ _ d => (BLOCK_TO_SCHEDULER, on_ps (block_current 0 WTick) d)).
Definition asleep : DState := on_ps (block_current 0 WTick) (entered 0 regs state).
Definition sleeper : Thread := with_state Sleeping (with_wait WTick (Process.Example.thr 1 0)).

Lemma frame_asleep : frame_at (kmem (tst asleep)) 65384 regs.
Proof. exact (frame_pushed 0 regs state). Qed.

Lemma call_returns_witness :
  syscall_int80 (fun _ => 98304) answer7 0 regs cells state = (Returned (with_rax 7 regs), cells, entered 0 regs state).
Proof.
  apply (call_returns (fun _ => 98304) answer7 0 regs cells state (entered 0 regs state) 7);
    [reflexivity|discriminate|discriminate|exact (frame_pushed 0 regs state)].
Defined.

(** The next tick wakes it, and the CPU takes it. *)
Definition ticked : DState := on_threads (wake_all (waits WTick) 42) (syscall_block_fn 0 65384 asleep).

Lemma blocked_call_resumes_witness :
  exists l d', enter_next_process (fun _ => 98304) 0 ticked = (Some l, d') /\ launch_regs l d' = Some (with_rax 42 regs).
Proof.
  apply (proj2 (proj2 (blocked_call_resumes (fun _ => 98304) sleep_tick 0 regs cells state asleep 1 sleeper
           eq_refl eq_refl eq_refl ltac:(simpl; lia) ltac:(by vm_compute) ltac:(discriminate))) (kmem (tst asleep)) 42 ticked frame_asleep).
  split_and!; [done|by vm_compute|by vm_compute|done].
Defined.

(** The waker on another CPU comes first. *)
Definition early : DState := on_threads (wake_all (waits WTick) 42) asleep.

Lemma early_wake_loses_result_witness :
  Thread.find 1 (tst (syscall_block_fn 0 65384 early)) = Some (with_blocking_rsp 65384 (wake (kmem (tst asleep)) 42 sleeper)) /\
  exists l d2, enter_next_process (fun _ => 98304) 0 (syscall_block_fn 0 65384 early) = (Some l, d2) /\
    launch_regs l d2 = Some (with_rax 0 regs).
Proof.
  apply (early_wake_loses_result (fun _ => 98304) 0 65384 1 42 (kmem (tst asleep)) regs sleeper early (syscall_block_fn 0 65384 early));
    [done|done|by vm_compute|by vm_compute|split_and!; [done|by vm_compute|by vm_compute|done]|exact frame_asleep].
Defined.

(** Process 5 reads the console of [SysFile.Example], where no key is waiting. *)
Lemma console_read_returns_key_witness :
  let '(r, s') := SysFile.sys_read (H := SysFile.Example.no_devices) 0 0 SysFile.Example.page 1 SysFile.Example.st in
  r = BLOCK_TO_SCHEDULER /\ SysFile.user_bytes s' = SysFile.user_bytes SysFile.Example.st /\
  exists t', Thread.find 1 (Pipe.tst (SysFile.world s')) = Some t' /\ waits WKeyboard t' = true /\
    context_regs (t_context (wake (kmem (tst asleep)) 97 (with_blocking_rsp 65384 t'))) = with_rax 97 regs.
Proof.
  apply (console_read_returns_key (H := SysFile.Example.no_devices) 0 0 SysFile.Example.page 1 5 1 65384 97 regs (Process.Example.thr 1 0)
           (kmem (tst asleep)) SysFile.Example.st);
    [done|done|by vm_compute|done|done|done|done|done|done|done|by vm_compute|done|exact frame_asleep].
Defined.
(** A reader of the pipe of [SysFile.Example], in its address space. *)
Definition reader : Thread :=
  with_state Sleeping (with_wait (WPipeRead 0 SysFile.Example.page 2)
    (with_context (mkCtx 0 0 0 0 0 0 0 0 0 0 0 0 0 0 0 0 0 0 VmmExample.root0 0 0) (Process.Example.thr 1 0))).
Definition reading : Pipe.State :=
  let w := SysFile.Example.w in
  Pipe.mkState (Pipe.pipes w) (tst asleep) (Pipe.tables w) (Pipe.active_cr3 w) (Pipe.umem w).
Definition acc : list (option Pipe.PipeState) * gmap Z (gmap Z Z) := (Pipe.pipes reading, Pipe.umem reading).
Definition with_thread (t : Thread) (d : DState) : DState := on_threads (set_threads [t]) d.

Lemma pipe_reader_gets_count_witness :
  let t' := with_blocking_rsp 65384 (Pipe.notify_thread 0 reading reader acc).1 in
  chosen 0 1 t' (with_thread t' asleep) /\
  exists n : nat, (exists l d2, enter_next_process (fun _ => 98304) 0 (with_thread t' asleep) = (Some l, d2) /\
    launch_regs l d2 = Some (with_rax (Z.of_nat n) regs)).
Proof.
  intros t'. assert (chosen 0 1 t' (with_thread t' asleep)) as Hch by (split_and!; [done|by vm_compute|by vm_compute|by vm_compute]).
  split; [exact Hch|].
  destruct (pipe_reader_gets_count (fun _ => 98304) 0 65384 1 0 regs reader
    (with_thread (Pipe.notify_thread 0 reading reader acc).1 asleep) (with_thread t' asleep) reading acc) as (n & H1 & _);
    [done|done|done|by vm_compute|done|by vm_compute|exact frame_asleep|exact frame_asleep|].
  exists n. apply H1; [by vm_compute|by vm_compute|exact Hch].
Defined.
End Example.

End Syscall.
