(* ===== verification/Handlers.v ===== *)
(** The system call dispatcher, [crates/kernel/src/syscall/dispatch.rs], the argument
    decoding of every handler file of [crates/kernel/src/syscall/], and the handlers
    that are written out there: [ipc.rs], [signals.rs], [process.rs], [system.rs],
    [memory.rs] ([SYS_MEM_INFO]) and the terminal size of [console.rs].

    A call is first decoded to a [Request] with its arguments cast as the handler casts
    them.  The requests of the components with a state of their own (files, heap, shared
    memory, devices, drivers, loader) are served by an argument of the dispatcher, the
    class [Components]; their handlers are in [SysFile.v], [Umem.v], [Shm.v], [Irq.v],
    [DriverModule.v], [Exec.v], [FbOwner.v], [Desc.v] and [Power.v].  The callers' memory is
    one physical memory, seen through the page tables that are active. *)
From stdpp Require Import base list numbers option gmap sorting.
From S2P Require Import Prelude Pmm Vmm Uaccess Thread Scheduler Process Dispatch Ipc Smp Syscall.

Open Scope Z_scope.

Module Handlers.
Import Thread.Thread Scheduler.Scheduler Process.Process Dispatch.Dispatch Syscall.Syscall.

(** ** Numbers *)

Definition SYS_CONSOLE_WRITE : Z := 1.
Definition SYS_CURSOR_SAVE : Z := 2.
Definition SYS_CURSOR_DRAW : Z := 3.
Definition SYS_CURSOR_RESTORE : Z := 4.
Definition SYS_FB_ACQUIRE : Z := 5.
Definition SYS_FB_RELEASE : Z := 6.
Definition SYS_CONSOLE_SIZE : Z := 7.
Definition SYS_EXIT : Z := 8.
Definition SYS_EXEC : Z := 9.
Definition SYS_THREAD_SPAWN : Z := 10.
Definition SYS_THREAD_EXIT : Z := 11.
Definition SYS_THREAD_JOIN : Z := 12.
Definition SYS_THREAD_NEXT : Z := 13.
Definition SYS_THREAD_INFO : Z := 14.
Definition SYS_SIGKILL : Z := 15.
Definition SYS_SIGTERM : Z := 16.
Definition SYS_WAIT : Z := 17.
Definition SYS_PROCESS_INFO : Z := 18.
Definition SYS_PROCESS_NEXT : Z := 19.
Definition SYS_SLEEP : Z := 20.
Definition SYS_MEM_INFO : Z := 21.
Definition SYS_HEAP_ALLOC : Z := 22.
Definition SYS_HEAP_FREE : Z := 23.
Definition SYS_SIGNAL_CATCH : Z := 24.
Definition SYS_SIGNAL_CHECK : Z := 25.
Definition SYS_IPC_OPEN : Z := 26.
Definition SYS_IPC_SEND : Z := 27.
Definition SYS_IPC_RECV : Z := 28.
Definition SYS_IPC_TRY_RECV : Z := 29.
Definition SYS_IPC_CLOSE : Z := 30.
Definition SYS_OPEN : Z := 31.
Definition SYS_CLOSE : Z := 32.
Definition SYS_READ : Z := 33.
Definition SYS_TRY_READ : Z := 34.
Definition SYS_WRITE : Z := 35.
Definition SYS_IOCTL : Z := 36.
Definition SYS_PIPE : Z := 37.
Definition SYS_PCI_INFO : Z := 38.
Definition SYS_IOPORT_REQUEST : Z := 39.
Definition SYS_IRQ_WAIT : Z := 40.
Definition SYS_DMA_ALLOC : Z := 41.
Definition SYS_DMA_FREE : Z := 42.
Definition SYS_PCI_BAR_MAP : Z := 43.
Definition SYS_PCI_BAR_UNMAP : Z := 44.
Definition SYS_KEYBOARD_POLL : Z := 45.
Definition SYS_CPU_INFO : Z := 46.
Definition SYS_SHUTDOWN : Z := 47.
Definition SYS_REBOOT : Z := 48.
Definition SYS_READDIR : Z := 49.
Definition SYS_DRIVER_LOAD : Z := 50.
Definition SYS_DRIVER_UNLOAD : Z := 51.
Definition SYS_DRIVER_LIST : Z := 52.
Definition SYS_DRIVER_INFO : Z := 53.
Definition SYS_CREATE : Z := 54.
Definition SYS_UNLINK : Z := 55.
Definition SYS_MKDIR : Z := 56.
Definition SYS_RMDIR : Z := 57.
Definition SYS_SIGINT_FG : Z := 58.
Definition SYS_SHM_CREATE : Z := 59.
Definition SYS_SHM_GRANT : Z := 60.
Definition SYS_SHM_MAP : Z := 61.
Definition SYS_SHM_UNMAP : Z := 62.
Definition SYS_SHM_CLOSE : Z := 63.
Definition SYS_PCI_ENABLE : Z := 64.
Definition SYS_PCI_DISABLE : Z := 65.
Definition SYS_IRQ_CLAIM : Z := 66.
Definition SYS_IRQ_RELEASE : Z := 67.
Definition SYS_IRQ_ACK : Z := 68.

(** ** Requests *)

Inductive Request :=
  | ConsoleWrite (ptr len : Z) | CursorSave | CursorRestore | CursorDraw (show : bool)
  | FbAcquire (out : Z) | FbRelease | ConsoleSize (size target : Z)
  | Exit | Exec (ptr len stdio : Z) | ThreadSpawn (entry arg stack_top : Z) | ThreadExit | ThreadJoin (id : Z)
  | ThreadNext (pid prev : Z) | ThreadInfoOf (id out : Z) | SigKill (pid : Z) | SigintFg (pid : Z) | Wait (pid : Z)
  | ProcessInfoOf (pid out : Z) | ProcessNext (pid : Z) | Sleep (duration unit : Z)
  | MemInfo | HeapAlloc (size : Z) | HeapFree (ptr : Z)
  | ShmCreate (size : Z) | ShmGrant (id pid : Z) | ShmMap (id : Z) | ShmUnmap (id : Z) | ShmClose (id : Z)
  | SignalCatch (enable : Z) | SignalCheck | SigTerm (pid : Z)
  | IpcOpen (ptr len : Z) | IpcSend (channel ptr len : Z) | IpcRecv (channel ptr len : Z) | IpcTryRecv (channel ptr len : Z)
  | IpcClose (channel : Z)
  | Open (ptr len : Z) | Close (fd : Z) | Read (fd ptr len : Z) | TryRead (fd ptr len : Z) | Write (fd ptr len : Z)
  | Ioctl (fd cmd arg : Z) | MakePipe (out : Z) | Create (ptr len : Z) | Unlink (ptr len : Z) | Mkdir (ptr len : Z) | Rmdir (ptr len : Z)
  | PciInfo (index out : Z) | IoportRequest (port count : Z) | IrqWait (irq : Z) | DmaAlloc (size out : Z) | DmaFree (ptr : Z)
  | PciBarMap (bdf bar : Z) | PciBarUnmap (ptr : Z) | PciEnable (bdf : Z) (enable : bool) | IrqClaim (bdf : Z) | IrqRelease (irq : Z)
  | IrqAck (irq : Z) | KeyboardPoll
  | CpuInfo (what index : Z) | Shutdown | Reboot | Readdir (ptr len out : Z)
  | DriverLoad (ptr len : Z) | DriverUnload (id : Z) | DriverList (ptr len : Z) | DriverInfo (id out : Z).

(** The handler files. *)
Inductive Group := GConsole | GProcess | GMemory | GSignals | GIpc | GFs | GDevice | GSystem | GDriver.

(** A [match] on numbers. *)
Fixpoint arm {A : Type} (l : list (Z * A)) (n : Z) : option A :=
  match l with [] => None | (k, v) :: l' => if n =? k then Some v else arm l' n end.

(** The dispatcher's [match]. *)
Definition route : Z -> option Group :=
  arm (((fun n => (n, GConsole)) <$> [SYS_CONSOLE_WRITE; SYS_CURSOR_SAVE; SYS_CURSOR_RESTORE; SYS_CURSOR_DRAW; SYS_FB_ACQUIRE; SYS_FB_RELEASE; SYS_CONSOLE_SIZE]) ++
  ((fun n => (n, GProcess)) <$> [SYS_EXIT; SYS_EXEC; SYS_THREAD_SPAWN; SYS_THREAD_EXIT; SYS_THREAD_JOIN; SYS_THREAD_NEXT; SYS_THREAD_INFO; SYS_SIGKILL;
     SYS_SIGINT_FG; SYS_WAIT; SYS_PROCESS_INFO; SYS_PROCESS_NEXT; SYS_SLEEP]) ++
  ((fun n => (n, GMemory)) <$> [SYS_MEM_INFO; SYS_HEAP_ALLOC; SYS_HEAP_FREE; SYS_SHM_CREATE; SYS_SHM_GRANT; SYS_SHM_MAP; SYS_SHM_UNMAP; SYS_SHM_CLOSE]) ++
  ((fun n => (n, GSignals)) <$> [SYS_SIGNAL_CATCH; SYS_SIGNAL_CHECK; SYS_SIGTERM]) ++
  ((fun n => (n, GIpc)) <$> [SYS_IPC_OPEN; SYS_IPC_SEND; SYS_IPC_RECV; SYS_IPC_TRY_RECV; SYS_IPC_CLOSE]) ++
  ((fun n => (n, GFs)) <$> [SYS_OPEN; SYS_CLOSE; SYS_READ; SYS_TRY_READ; SYS_WRITE; SYS_IOCTL; SYS_PIPE; SYS_CREATE; SYS_UNLINK; SYS_MKDIR; SYS_RMDIR]) ++
  ((fun n => (n, GDevice)) <$> [SYS_PCI_INFO; SYS_IOPORT_REQUEST; SYS_IRQ_WAIT; SYS_DMA_ALLOC; SYS_DMA_FREE; SYS_PCI_BAR_MAP; SYS_PCI_BAR_UNMAP;
     SYS_PCI_ENABLE; SYS_PCI_DISABLE; SYS_IRQ_CLAIM; SYS_IRQ_RELEASE; SYS_IRQ_ACK; SYS_KEYBOARD_POLL]) ++
  ((fun n => (n, GSystem)) <$> [SYS_CPU_INFO; SYS_SHUTDOWN; SYS_REBOOT; SYS_READDIR]) ++
  ((fun n => (n, GDriver)) <$> [SYS_DRIVER_LOAD; SYS_DRIVER_UNLOAD; SYS_DRIVER_LIST; SYS_DRIVER_INFO])).

(** The [match] of each handler file. *)
Definition console_decode (a0 a1 a2 : Z) : Z -> option Request :=
  arm [(SYS_CONSOLE_WRITE, ConsoleWrite a0 a1); (SYS_CURSOR_SAVE, CursorSave); (SYS_CURSOR_RESTORE, CursorRestore);
       (SYS_CURSOR_DRAW, CursorDraw (negb (a0 =? 0))); (SYS_FB_ACQUIRE, FbAcquire a0); (SYS_FB_RELEASE, FbRelease);
       (SYS_CONSOLE_SIZE, ConsoleSize a0 a1)].
Definition process_decode (a0 a1 a2 : Z) : Z -> option Request :=
  arm [(SYS_EXIT, Exit); (SYS_EXEC, Exec a0 a1 a2); (SYS_THREAD_SPAWN, ThreadSpawn a0 a1 a2); (SYS_THREAD_EXIT, ThreadExit);
       (SYS_THREAD_JOIN, ThreadJoin a0); (SYS_THREAD_NEXT, ThreadNext a0 a1); (SYS_THREAD_INFO, ThreadInfoOf a0 a1); (SYS_SIGKILL, SigKill a0);
       (SYS_SIGINT_FG, SigintFg a0); (SYS_WAIT, Wait a0); (SYS_PROCESS_INFO, ProcessInfoOf a0 a1); (SYS_PROCESS_NEXT, ProcessNext a0);
       (SYS_SLEEP, Sleep a0 a1)].
Definition memory_decode (a0 a1 a2 : Z) : Z -> option Request :=
  arm [(SYS_MEM_INFO, MemInfo); (SYS_HEAP_ALLOC, HeapAlloc a0); (SYS_HEAP_FREE, HeapFree a0); (SYS_SHM_CREATE, ShmCreate a0);
       (SYS_SHM_GRANT, ShmGrant a0 a1); (SYS_SHM_MAP, ShmMap a0); (SYS_SHM_UNMAP, ShmUnmap a0); (SYS_SHM_CLOSE, ShmClose a0)].
Definition signals_decode (a0 a1 a2 : Z) : Z -> option Request :=
  arm [(SYS_SIGNAL_CATCH, SignalCatch a0); (SYS_SIGNAL_CHECK, SignalCheck); (SYS_SIGTERM, SigTerm a0)].
Definition ipc_decode (a0 a1 a2 : Z) : Z -> option Request :=
  arm [(SYS_IPC_OPEN, IpcOpen a0 a1); (SYS_IPC_SEND, IpcSend a0 a1 a2); (SYS_IPC_RECV, IpcRecv a0 a1 a2); (SYS_IPC_TRY_RECV, IpcTryRecv a0 a1 a2);
       (SYS_IPC_CLOSE, IpcClose a0)].
Definition fs_decode (a0 a1 a2 : Z) : Z -> option Request :=
  arm [(SYS_OPEN, Open a0 a1); (SYS_CLOSE, Close a0); (SYS_READ, Read a0 a1 a2); (SYS_TRY_READ, TryRead a0 a1 a2); (SYS_WRITE, Write a0 a1 a2);
       (SYS_IOCTL, Ioctl a0 a1 a2); (SYS_PIPE, MakePipe a0); (SYS_CREATE, Create a0 a1); (SYS_UNLINK, Unlink a0 a1); (SYS_MKDIR, Mkdir a0 a1);
       (SYS_RMDIR, Rmdir a0 a1)].
Definition device_decode (a0 a1 a2 : Z) : Z -> option Request :=
  arm [(SYS_PCI_INFO, PciInfo a0 a1); (SYS_IOPORT_REQUEST, IoportRequest (a0 mod 2 ^ 16) (a1 mod 2 ^ 16)); (SYS_IRQ_WAIT, IrqWait (a0 mod 2 ^ 8));
       (SYS_DMA_ALLOC, DmaAlloc a0 a1); (SYS_DMA_FREE, DmaFree a0); (SYS_PCI_BAR_MAP, PciBarMap a0 a1); (SYS_PCI_BAR_UNMAP, PciBarUnmap a0);
       (SYS_PCI_ENABLE, PciEnable a0 true); (SYS_PCI_DISABLE, PciEnable a0 false); (SYS_IRQ_CLAIM, IrqClaim a0); (SYS_IRQ_RELEASE, IrqRelease a0);
       (SYS_IRQ_ACK, IrqAck a0); (SYS_KEYBOARD_POLL, KeyboardPoll)].
Definition system_decode (a0 a1 a2 : Z) : Z -> option Request :=
  arm [(SYS_CPU_INFO, CpuInfo a0 a1); (SYS_SHUTDOWN, Shutdown); (SYS_REBOOT, Reboot); (SYS_READDIR, Readdir a0 a1 a2)].
Definition driver_decode (a0 a1 a2 : Z) : Z -> option Request :=
  arm [(SYS_DRIVER_LOAD, DriverLoad a0 a1); (SYS_DRIVER_UNLOAD, DriverUnload (a0 mod 2 ^ 32)); (SYS_DRIVER_LIST, DriverList a0 a1);
       (SYS_DRIVER_INFO, DriverInfo (a0 mod 2 ^ 32) a1)].

Definition decode (gr : Group) (a0 a1 a2 : Z) : Z -> option Request :=
  match gr with
  | GConsole => console_decode a0 a1 a2 | GProcess => process_decode a0 a1 a2 | GMemory => memory_decode a0 a1 a2
  | GSignals => signals_decode a0 a1 a2 | GIpc => ipc_decode a0 a1 a2 | GFs => fs_decode a0 a1 a2
  | GDevice => device_decode a0 a1 a2 | GSystem => system_decode a0 a1 a2 | GDriver => driver_decode a0 a1 a2
  end.
(** ** State *)

(** What the handlers below use: the dispatcher's state, the channels, the page tables,
    the bytes of the frames that are mapped to programs, the frame manager, the processor
    table and the size of the text console.  There is one physical memory: two address
    spaces that map the same frame see the same bytes. *)
Record Sys := mkSys {
  ds : DState;
  chans : list (option Ipc.Channel);
  tables : gmap Z Z;
  pmem : gmap Z Z;
  pmm : option Pmm.Pmm;
  smp : Smp.State;
  screen_size : Z * Z           (* [console::console_size()] *)
}.
Definition set_ds (d : DState) (s : Sys) : Sys := mkSys d (chans s) (tables s) (pmem s) (pmm s) (smp s) (screen_size s).
#[export] Instance sys_world : World Sys := { disp := ds; on_disp := fun f s => set_ds (f (ds s)) s }.
#[export] Instance sys_world_laws : WorldLaws Sys.
Proof. by constructor. Qed.

Definition procs_of (s : Sys) : PState := ps (ds s).
Definition set_procs_of (p : PState) (s : Sys) : Sys := set_ds (on_ps (fun _ => p) (ds s)) s.
Definition on_procs (f : PState -> PState) (s : Sys) : Sys := set_procs_of (f (procs_of s)) s.
Definition on_ipc {R : Type} (f : Ipc.IState -> R * Ipc.IState) (s : Sys) : R * Sys :=
  let '(r, i) := f (Ipc.mkI (chans s) (procs_of s)) in
  (r, set_procs_of (Ipc.ps i) (mkSys (ds s) (Ipc.chans i) (tables s) (pmem s) (pmm s) (smp s) (screen_size s))).

(** The caller's memory: the address space that is active, seen through its page tables. *)
Definition space (cpu : nat) (s : Sys) : Z := cr3_of cpu (ds s).
Definition paddr (cr3 : Z) (m : gmap Z Z) (a : Z) : option Z := (fun f => f + a mod 4096) <$> Vmm.translate cr3 (Uaccess.page_of a) m.
Definition phys (cpu : nat) (a : Z) (s : Sys) : option Z := paddr (space cpu s) (tables s) a.

(** Loads and stores of the kernel through the caller's addresses.  They are made after
    [validate_range], which lets no unmapped page through; an unmapped byte would fault. *)
Definition load (cpu : nat) (a : Z) (s : Sys) : Z := match phys cpu a s with Some q => default 0 (pmem s !! q) | None => 0 end.
Definition user_bytes (cpu : nat) (ptr len : Z) (s : Sys) : list Z := (fun k => load cpu (ptr + k) s) <$> seqZ 0 len.
Fixpoint store (cr3 : Z) (m : gmap Z Z) (ptr : Z) (src : list Z) (pm : gmap Z Z) : gmap Z Z :=
  match src with
  | [] => pm
  | b :: src' => store cr3 m (ptr + 1) src' (match paddr cr3 m ptr with Some q => <[q := b]> pm | None => pm end)
  end.
Definition store_user (cpu : nat) (ptr : Z) (src : list Z) (s : Sys) : Sys :=
  mkSys (ds s) (chans s) (tables s) (store (space cpu s) (tables s) ptr src (pmem s)) (pmm s) (smp s) (screen_size s).

(** [validate_range], and [read_bytes] and [write_value] on top of it. *)
Definition validate_range (cpu : nat) (ptr len : Z) (write : bool) (s : Sys) : bool :=
  match Uaccess.validate_range_in (space cpu s) ptr len write (tables s) with Some b => b | None => false end.
Definition read_bytes (cpu : nat) (ptr len : Z) (s : Sys) : option (list Z) :=
  if validate_range cpu ptr len false s then Some (user_bytes cpu ptr len s) else None.
Definition write_value (cpu : nat) (ptr : Z) (b : list Z) (s : Sys) : bool * Sys :=
  if validate_range cpu ptr (Z.of_nat (length b)) true s then (true, store_user cpu ptr b s) else (false, s).

Definition current_user_pid (cpu : nat) (s : Sys) : option Z := Scheduler.current_user_pid cpu (ss (procs_of s)).
Definition caller (cpu : nat) (s : Sys) : Z := default 0 (current_user_pid cpu s).

(** ** Messages *)

Definition ipc_open (cpu : nat) (ptr len : Z) (s : Sys) : Z * Sys :=
  if (ptr =? 0) || (len =? 0) then (u64_max, s)
  else match read_bytes cpu ptr len s with
       | Some name => on_ipc (Ipc.open name) s
       | None => (u64_max, s)
       end.

Definition ipc_send (cpu : nat) (channel ptr len : Z) (s : Sys) : Z * Sys :=
  if (ptr =? 0) || (len =? 0) then (u64_max, s)
  else match read_bytes cpu ptr len s with
       | None => (u64_max, s)
       | Some data =>
           let '(r, s) := on_ipc (Ipc.try_send channel (caller cpu s) data) s in
           match r with
           | Ipc.SendOk => (0, s)
           | Ipc.SendError => (u64_max, s)
           | Ipc.SendBlock =>
               (BLOCK_TO_SCHEDULER,
                match current_user_pid cpu s with
                | Some p => on_procs (fun x => Process.set_sleeping p (Process.set_wait_target p (WIpc channel) x))
                              (snd (on_ipc (fun i => ((), Ipc.add_send_waiter channel p i)) s))
                | None => s
                end)
           end
       end.

(** [from_raw_parts_mut] over the caller's buffer; a receive writes the bytes it copies
    ([buf[..len].copy_from_slice]) and no others. *)
Definition with_buffer (cpu : nat) (ptr len : Z) (f : list Z -> Ipc.IState -> Ipc.RecvResult * list Z * Ipc.IState) (s : Sys) : Ipc.RecvResult * Sys :=
  let '((r, buf), s) := on_ipc (f (user_bytes cpu ptr len s)) s in
  (r, match r with Ipc.RecvOk n => store_user cpu ptr (take n buf) s | _ => s end).

Definition ipc_recv (cpu : nat) (channel ptr len : Z) (s : Sys) : Z * Sys :=
  if (ptr =? 0) || (len =? 0) then (u64_max, s)
  else if negb (validate_range cpu ptr len true s) then (u64_max, s)
  else let '(r, s) := with_buffer cpu ptr len (fun b => Ipc.try_recv channel b (caller cpu s)) s in
       (match r with Ipc.RecvOk n => Z.of_nat n | Ipc.RecvError => u64_max | Ipc.RecvBlock => BLOCK_TO_SCHEDULER end, s).

Definition ipc_try_recv (cpu : nat) (channel ptr len : Z) (s : Sys) : Z * Sys :=
  if (ptr =? 0) || (len =? 0) then (u64_max, s)
  else if negb (validate_range cpu ptr len true s) then (u64_max, s)
  else let '(r, s) := with_buffer cpu ptr len (Ipc.try_recv_nonblock channel) s in
       (match r with Ipc.RecvOk n => Z.of_nat n | Ipc.RecvError => u64_max | Ipc.RecvBlock => 0 end, s).

Definition ipc_close (channel : Z) (s : Sys) : Z * Sys := on_ipc (fun i => (0, Ipc.close channel i)) s.

(** ** Signals *)

Definition signal_catch (cpu : nat) (mask : Z) (s : Sys) : Z * Sys :=
  (0, match current_user_pid cpu s with Some p => on_procs (signal_set_catch p mask) s | None => s end).
Definition signal_check (cpu : nat) (s : Sys) : Z * Sys :=
  match current_user_pid cpu s with
  | Some p => let '(r, x) := signal_check_and_clear p (procs_of s) in (r, set_procs_of x s)
  | None => (0, s)
  end.
Definition sigterm (pid : Z) (s : Sys) : Z * Sys :=
  if pid =? 0 then (u64_max, s) else (0, on_procs (send_sigterm pid) s).

(** ** Processes and threads *)

Record ProcessInfo := mkInfo {
  pi_pid : Z; pi_state : Z; pi_name : list Z; pi_start : Z; pi_entry : Z; pi_stack_top : Z; pi_step : Z;
  pi_ticks : Z; pi_memory : Z; pi_parent : Z }.

(** [process::info]. *)
Definition info (pid : Z) (s : Sys) : option ProcessInfo :=
  (fun p =>
     let memory := if Process.pid p =? 0
                   then saturating_sub (match Pmm.stats (pmm s) with Some st => Pmm.used_kib st * 1024 | None => 0 end) (user_memory_total (procs_of s))
                   else p_memory p in
     let ticks := if Process.pid p =? 0 then kernel_ticks (ds s) else cpu_ticks_for_pid (Process.pid p) (ts (procs_of s)) in
     mkInfo (Process.pid p) (state_code (p_state p)) (image_name p) (start_tsc p) (p_entry p) (p_stack_top p) (p_step p)
       ticks memory (p_parent p)) <$>
  find_first (fun p => is_pid pid p && not_empty p) (Process.procs (procs_of s)).

(** The [repr(C)] layouts the caller reads. *)
Definition info_bytes (i : ProcessInfo) : list Z :=
  to_le 8 (pi_pid i) ++ to_le 8 (pi_state i) ++ pi_name i ++ to_le 8 (pi_start i) ++ to_le 8 (pi_entry i) ++ to_le 8 (pi_stack_top i) ++
  to_le 8 (pi_step i) ++ to_le 8 (pi_ticks i) ++ to_le 8 (pi_memory i) ++ to_le 8 (pi_parent i).
Definition thread_info_bytes (i : ThreadInfo) : list Z :=
  to_le 8 (i_tid i) ++ to_le 8 (i_pid i) ++ to_le 8 (i_state i) ++ to_le 8 (i_ticks i) ++ to_le 8 (i_cpu i).

Definition write_info (cpu : nat) (out : Z) (o : option (list Z)) (s : Sys) : Z * Sys :=
  match o with
  | Some b => let '(ok, s) := write_value cpu out b s in (if ok : bool then 0 else u64_max, s)
  | None => (u64_max, s)
  end.

Definition process_info (cpu : nat) (pid out : Z) (s : Sys) : Z * Sys :=
  if negb (out =? 0) then write_info cpu out (info_bytes <$> info pid s) s
  else (if pid =? 0 then Process.current_pid cpu (procs_of s)
        else if pid =? 1 then Process.count (procs_of s)
        else if pid =? 2 then default 0 (first_pid (procs_of s)) else u64_max, s).
Definition thread_info_of (cpu : nat) (id out : Z) (s : Sys) : Z * Sys :=
  if negb (out =? 0) then write_info cpu out (thread_info_bytes <$> thread_info id (ts (procs_of s))) s else (u64_max, s).

Definition thread_join (cpu : nat) (id : Z) (s : Sys) : Z * Sys :=
  let '(blocked, p) := join_current cpu id (procs_of s) in
  (if blocked : bool then BLOCK_TO_SCHEDULER else 0, set_procs_of p s).

Definition sigint_fg (pid : Z) (s : Sys) : Z * Sys :=
  let leaf := foreground_leaf pid (procs_of s) in
  if negb (leaf =? 0) && negb (leaf =? pid) then (1, on_procs (send_sigint leaf) s) else (0, s).

Section Exits.
Context `{TeardownEffects}.
(** [set_exiting_pid_tmp(pid)] if there is a pid, then [exit_current()]. *)
Definition exit_process (cpu : nat) (s : Sys) : Sys :=
  let '(calls, p) := exit_current cpu (procs_of s) in
  set_ds (note_exit cpu (default (exiting_pid_tmp cpu (ds s)) (current_user_pid cpu s)) calls p (ds s)) s.
Definition sys_exit (cpu : nat) (s : Sys) : Z * Sys := (EXIT_TO_KERNEL, exit_process cpu s).
Definition thread_exit (cpu : nat) (s : Sys) : Z * Sys :=
  let pid := caller cpu s in
  (EXIT_TO_KERNEL,
   if negb (pid =? 0) && (live_thread_count pid (procs_of s) <=? 1) then exit_process cpu s
   else on_procs (exit_current_thread cpu) s).
End Exits.

(** ** Counters and sizes *)

Definition mem_info (s : Sys) : Z :=
  match Pmm.stats (pmm s) with
  | Some st => Z.lor (wrap64 (Z.shiftl (Pmm.total_kib st) 32)) (Pmm.used_kib st)
  | None => 0
  end.

Definition cpu_info (cpu : nat) (what index : Z) (s : Sys) : Z :=
  let d := ds s in
  let at_cpu l := default 0 (l !! Z.to_nat index) in
  if what =? 0 then timer_ticks d else if what =? 1 then user_ticks d else if what =? 2 then kernel_ticks d
  else if what =? 3 then idle_ticks d else if what =? 4 then Smp.CPU_COUNT (smp s) else if what =? 5 then Smp.BSP_APIC_ID (smp s)
  else if what =? 6 then Z.of_nat cpu else if what =? 7 then default 255 (Smp.apic_id_for_cpu_index (Z.to_nat index) (smp s))
  else if what =? 8 then at_cpu (idle_ticks_cpu d) else if what =? 9 then at_cpu (kernel_ticks_cpu d)
  else if what =? 10 then at_cpu (user_ticks_cpu d) else default u64_max (Process.cpu_ticks what (procs_of s)).

(** [cols as u16] and [rows as u16] of the console; a terminal's own size otherwise. *)
Definition console_size (cpu : nat) (size target : Z) (s : Sys) : Z * Sys :=
  if size =? 0 then
    let '(cols, rows) := winsize (caller cpu s) (procs_of s) in
    let '(cols, rows) := if (cols =? 0) || (rows =? 0) then ((screen_size s).1 mod 2 ^ 16, (screen_size s).2 mod 2 ^ 16) else (cols, rows) in
    (Z.lor (Z.shiftl rows 32) cols, s)
  else
    let cols := Z.land size 65535 in
    let rows := Z.land (Z.shiftr size 16) 65535 in
    (0, on_procs (set_winsize (if target =? 0 then caller cpu s else target) cols rows) s).

(** ** The dispatcher *)

(** The handlers of the components that keep a state of their own. *)
Class Components := { serve : nat -> Request -> Sys -> Z * Sys }.

Section Dispatcher.
Context `{TeardownEffects} `{Components}.

Definition run (cpu : nat) (q : Request) (s : Sys) : Z * Sys :=
  match q with
  | ConsoleSize a b => console_size cpu a b s
  | Exit => sys_exit cpu s
  | ThreadSpawn entry arg top =>
      let '(r, p) := spawn_user_thread cpu (Smp.CPU_COUNT (smp s)) entry arg top (procs_of s) in (r, set_procs_of p s)
  | ThreadExit => thread_exit cpu s
  | ThreadJoin id => thread_join cpu id s
  | ThreadNext pid prev => (default u64_max (next_thread_in_pid pid prev (ts (procs_of s))), s)
  | ThreadInfoOf id out => thread_info_of cpu id out s
  | SigKill pid => (0, on_procs (kill_pid pid) s)
  | SigintFg pid => sigint_fg pid s
  | ProcessInfoOf pid out => process_info cpu pid out s
  | ProcessNext pid => (default u64_max (next_pid_after pid (procs_of s)), s)
  | MemInfo => (mem_info s, s)
  | SignalCatch mask => signal_catch cpu mask s
  | SignalCheck => signal_check cpu s
  | SigTerm pid => sigterm pid s
  | IpcOpen a b => ipc_open cpu a b s
  | IpcSend a b c => ipc_send cpu a b c s
  | IpcRecv a b c => ipc_recv cpu a b c s
  | IpcTryRecv a b c => ipc_try_recv cpu a b c s
  | IpcClose a => ipc_close a s
  | CpuInfo what index => (cpu_info cpu what index s, s)
  | _ => serve cpu q s
  end.

Definition handle (cpu : nat) (number a0 a1 a2 : Z) (s : Sys) : Z * Sys :=
  match route number with
  | Some gr => match decode gr a0 a1 a2 number with Some q => run cpu q s | None => (u64_max, s) end
  | None => (u64_max, s)
  end.

Definition syscall_dispatch (cpu : nat) (number a0 a1 a2 : Z) (s : Sys) : Z * Sys :=
  match current_user_pid cpu s with
  | Some pid =>
      if is_kill_pending pid (procs_of s) then (EXIT_TO_KERNEL, exit_process cpu s)
      else handle cpu number a0 a1 a2 s
  | None => handle cpu number a0 a1 a2 s
  end.
End Dispatcher.

(** * Routing *)

Lemma arm_None {A : Type} (l : list (Z * A)) (n lo hi : Z) :
  Forall (fun kv => lo <= kv.1 <= hi) l -> ~ (lo <= n <= hi) -> arm l n = None.
Proof.
  intros Hl Hn. induction Hl as [|[k v] l Hk _ IH]; [done|]. simpl in *.
  destruct (n =? k) eqn:E; zbool; [lia|done].
Qed.

Lemma route_None (n : Z) : ~ (1 <= n <= 68) -> route n = None.
Proof. apply arm_None. repeat constructor; simpl; vm_compute; discriminate. Qed.
Lemma decode_None (gr : Group) (a0 a1 a2 n : Z) : ~ (1 <= n <= 68) -> decode gr a0 a1 a2 n = None.
Proof. intros Hn. destruct gr; apply (arm_None _ n 1 68); try done; repeat constructor; simpl; vm_compute; discriminate. Qed.

Definition groups : list Group := [GConsole; GProcess; GMemory; GSignals; GIpc; GFs; GDevice; GSystem; GDriver].

(** C31: The two levels of the dispatcher agree.  A number is routed to a handler file exactly
    if that file has an arm for it, so that no call the files implement is unreachable
    and none that is routed falls through to the error of the file; the numbers served
    are exactly 1 to 68, and every other number is answered with an error and nothing
    else. *)
Theorem routing_exact (n : Z) (gr : Group) (a0 a1 a2 : Z) :
  (route n = Some gr <-> is_Some (decode gr a0 a1 a2 n)) /\ (is_Some (route n) <-> 1 <= n <= 68).
Proof.
  destruct (decide (1 <= n <= 68)) as [Hr|Hr].
  - assert (n ∈ seqZ 1 68) as Hn by (apply elem_of_seqZ; lia).
    split; [|split; [intros _; exact Hr|intros _]].
    all: repeat (apply elem_of_cons in Hn as [->|Hn]; [|]); try (by apply elem_of_nil in Hn).
    all: try (by eexists). all: destruct gr; simpl; split; intros Hx; try discriminate Hx; try done; try (by eexists).
    all: by destruct Hx.
  - rewrite route_None, decode_None by done. split; split; try done; by intros [? ?].
Qed.

(** * Dying processes *)

Section Dispatcher.
Context `{TeardownEffects}.
Implicit Types (s : Sys).

Lemma exiting_note (cpu : nat) (v : Z) (calls : list Call) (p : PState) (d : DState) :
  (cpu < length (exiting_pid_tmps d))%nat -> exiting_pid_tmp cpu (note_exit cpu v calls p d) = v.
Proof. intros Hl. unfold exiting_pid_tmp. simpl. by rewrite list_lookup_insert_eq. Qed.

(** The kernel after the thread has left: the exit noted, the kernel's page tables
    active, no current process. *)
Definition after_exit (cpu : nat) (calls : list Call) (x : PState) (d : DState) : DState :=
  on_ps (Process.set_current_pid cpu None) (set_cr3 cpu (kernel_cr3 d) (note_exit cpu 0 calls x d)).

Lemma returned_after_exit (cpu : nat) (pid : Z) (calls : list Call) (x : PState) (d : DState) :
  pid <> 0 -> (cpu < length (exiting_pid_tmps d))%nat ->
  syscall_return_to_kernel cpu (note_exit cpu pid calls x d) = (Some pid, after_exit cpu calls x d).
Proof.
  intros Hp Hl. unfold syscall_return_to_kernel.
  assert (exiting_pid_tmp cpu (set_cr3 cpu (kernel_cr3 (note_exit cpu pid calls x d)) (note_exit cpu pid calls x d)) = pid) as -> by (by apply exiting_note).
  apply Z.eqb_neq in Hp as ->. f_equal. unfold after_exit, set_exiting_pid_tmp, note_exit, set_cr3, on_ps. simpl. by rewrite app_nil_r, list_insert_insert_eq.
Qed.

Lemma tids_after_exit (cpu : nat) (calls : list Call) (x : PState) (d : DState) : tids (after_exit cpu calls x d) = tid <$> threads (ts x).
Proof. done. Qed.

(** Nothing but the kernel's own bookkeeping differs. *)
Definition same_services (s s' : Sys) : Prop :=
  chans s' = chans s /\ tables s' = tables s /\ pmem s' = pmem s /\ pmm s' = pmm s /\ smp s' = smp s /\ screen_size s' = screen_size s.

(** C29: A process that was told to die gets no further service.  When a thread of a process
    marked to be killed makes a system call, whatever its number and arguments and
    whatever the handlers would do, no handler runs: channels, page tables, memory,
    frames and console are as before.  Instead the thread is ended as [exit_current] ends
    it ([exit_post]: it leaves the thread table and, if it was the last, its process goes
    with it and is torn down; otherwise the siblings stay, the process still marked),
    the driver table is told of the process, and the CPU goes on with other work, never
    again with this thread. *)
Theorem killed_process_never_served `{!TeardownLaws} (temp_top : nat -> Z) (cpu : nat) (g : Regs) (c : Cells) (pid : Z) (p : Process) s :
  let t := Process.current_tid cpu (procs_of s) in
  NoDup (Process.pid <$> Process.procs (procs_of s)) ->
  current_user_pid cpu s = Some pid -> Process.find pid (procs_of s) = Some p -> is_kill_pending pid (procs_of s) = true ->
  pid <> 0 -> t <> 0 -> t ∈ p_threads p -> (cpu < length (exiting_pid_tmps (ds s)))%nat ->
  exists calls x next s',
    exit_post cpu (procs_of s) pid t p (calls, x) /\
    (forall C : Components, syscall_int80 temp_top (Some (syscall_dispatch cpu)) cpu g c s = (Exited (Some pid) next, c, s')) /\
    same_services s s' /\ enter_next_process temp_top cpu (after_exit cpu calls x (ds s)) = (next, ds s') /\
    t ∉ tids (ds s') /\ (next ≫= launch_id) <> Some t.
Proof.
  intros t Hnd Hc Hf Hk Hp Ht Htp Hl. set (s1 := set_ds (snd (push_frame cpu g (ds s))) s).
  assert (Process.current_pid cpu (procs_of s1) = pid) as Hcp.
  { change (default 0 (current_user_pid cpu s) = pid). by rewrite Hc. }
  destruct (exit_current cpu (procs_of s1)) as [calls x] eqn:Ee.
  assert (exit_post cpu (procs_of s) pid t p (calls, x)) as Hpost.
  { rewrite <- Ee, <- Hcp. apply (exit_ends cpu (procs_of s1) p); rewrite ?Hcp; done. }
  destruct (enter_next_process temp_top cpu (after_exit cpu calls x (ds s))) as [next d2] eqn:En.
  exists calls, x, next, (set_ds d2 s). split; [done|].
  assert (t ∉ tids (after_exit cpu calls x (ds s))) as Hgone by (rewrite tids_after_exit; by apply (exit_post_gone cpu (procs_of s) x pid t p calls)).
  destruct (gone_stays_gone temp_top cpu t _ d2 next Hgone En) as [Hg1 Hg2]. split; [|split; [by repeat split|by split_and!]].
  intros C. unfold syscall_int80. unfold push_frame. cbn [syscall_handler disp on_disp sys_world]. change (set_ds _ s) with s1 at 1.
  unfold syscall_dispatch. change (current_user_pid cpu s1) with (current_user_pid cpu s). rewrite Hc.
  change (is_kill_pending pid (procs_of s1)) with (is_kill_pending pid (procs_of s)). rewrite Hk, Z.eqb_refl. cbn iota.
  unfold exit_process. rewrite Ee. change (current_user_pid cpu s1) with (current_user_pid cpu s). rewrite Hc. cbn [default from_option Datatypes.id].
  change (ds (set_ds ?d s1)) with d. change (note_exit cpu pid calls x (ds s1)) with (note_exit cpu pid calls x (ds s)).
  rewrite returned_after_exit by done. unfold dispatch. cbn [disp on_disp sys_world]. change (ds (set_ds ?d ?w)) with d. by rewrite En.
Qed.
End Dispatcher.

(** * Messages from one program's memory to another's *)

Lemma route_send (n a0 a1 a2 : Z) (q : Request) (gr : Group) cpu s `{TeardownEffects} `{Components} :
  route n = Some gr -> decode gr a0 a1 a2 n = Some q -> handle cpu n a0 a1 a2 s = run cpu q s.
Proof. intros Hr Hd. unfold handle. by rewrite Hr, Hd. Qed.

(** *** Memory through the page tables *)

Lemma accessible_translates (cr3 v : Z) (write : bool) (m : gmap Z Z) :
  Vmm.user_accessible cr3 v write m = true -> exists f, Vmm.translate cr3 v m = Some f /\ f mod 4096 = 0.
Proof.
  unfold Vmm.user_accessible, Vmm.translate, Vmm.table_if_present. cbn [Vmm.access_walk].
  change (39 - 0 * 9) with 39. change (39 - (0 + 1) * 9) with 30. change (39 - (0 + 1 + 1) * 9) with 21. change (39 - (0 + 1 + 1 + 1) * 9) with 12.
  fold (Vmm.pml4_i v) (Vmm.pdpt_i v) (Vmm.pd_i v) (Vmm.pt_i v). cbn [Z.eqb Z.add Pos.add Pos.eqb].
  set (need := Z.lor _ _). set (e4 := Vmm.entry_at m _ (Vmm.pml4_i v)). destruct (Vmm.present e4); [|done]. destruct (negb (Z.land e4 need =? need)); [done|]. cbn [negb orb mbind option_bind].
  set (e3 := Vmm.entry_at m _ (Vmm.pdpt_i v)). destruct (Vmm.present e3); [|done]. destruct (negb (Z.land e3 need =? need)); [done|]. cbn [negb orb mbind option_bind].
  set (e2 := Vmm.entry_at m _ (Vmm.pd_i v)). destruct (Vmm.present e2); [|done]. destruct (negb (Z.land e2 need =? need)); [done|]. cbn [negb orb mbind option_bind].
  set (e1 := Vmm.entry_at m _ (Vmm.pt_i v)). destruct (Vmm.present e1); [|done]. intros _. eexists. split; [done|].
  rewrite Vmm.land_addr_mask. rewrite Zminus_mod, Z.mod_mod by lia. replace (2 ^ 52) with (4096 * 2 ^ 40) by lia.
  rewrite Z.rem_mul_r by lia. rewrite (Z.mul_comm 4096), Z.mod_add, Z.mod_mod by lia. by rewrite Z.sub_diag.
Qed.

Lemma validated_u64 (cpu : nat) (ptr len : Z) (write : bool) (s : Sys) :
  1 <= len -> validate_range cpu ptr len write s = true -> is_u64 ptr /\ is_u64 len.
Proof.
  intros Hl. unfold validate_range, Uaccess.validate_range_in, Uaccess.validate_range_acc. rewrite (proj2 (Z.eqb_neq len 0)) by lia.
  destruct (Uaccess.MAX_TRANSFER <? len) eqn:E1; zbool; [done|]. destruct (checked_add ptr len) as [e|] eqn:Ec; [|done].
  apply checked_add_Some in Ec as [-> Hlt]. destruct (_ || _) eqn:Er; [done|]. zbool. intros _.
  unfold is_u64. rewrite u64_bound_val in *. unfold Uaccess.USER_MIN in *. lia.
Qed.

(** What passed the check is mapped. *)
Lemma validated_mapped (cpu : nat) (ptr len : Z) (write : bool) (s : Sys) (a : Z) :
  1 <= len -> validate_range cpu ptr len write s = true -> ptr <= a < ptr + len ->
  exists f, Vmm.translate (space cpu s) (Uaccess.page_of a) (tables s) = Some f /\ f mod 4096 = 0 /\ phys cpu a s = Some (f + a mod 4096).
Proof.
  intros Hl Hv Ha. destruct (validated_u64 cpu ptr len write s Hl Hv) as [Hp Hlen].
  destruct (Uaccess.validate_range_acc_spec (fun page => Vmm.user_accessible (space cpu s) page write (tables s)) ptr len Hp Hlen) as (b & Hb & Hiff).
  unfold validate_range, Uaccess.validate_range_in in Hv. rewrite Hb in Hv. destruct (proj1 Hiff Hv) as [?|(_ & _ & _ & Hall)]; [lia|].
  destruct (accessible_translates _ _ _ _ (Hall a Ha)) as (f & Hf & Hf0). exists f. split_and!; [done|done|]. unfold phys, paddr. by rewrite Hf.
Qed.

(** The pages of the buffer lie in different frames: no frame is mapped there twice. *)
Definition apart (cpu : nat) (ptr len : Z) (s : Sys) : Prop :=
  forall a b, ptr <= a < ptr + len -> ptr <= b < ptr + len ->
    Vmm.translate (space cpu s) (Uaccess.page_of a) (tables s) = Vmm.translate (space cpu s) (Uaccess.page_of b) (tables s) ->
    Uaccess.page_of a = Uaccess.page_of b.

Lemma phys_inj (cpu : nat) (ptr len : Z) (write : bool) (s : Sys) (a b : Z) :
  1 <= len -> validate_range cpu ptr len write s = true -> apart cpu ptr len s ->
  ptr <= a < ptr + len -> ptr <= b < ptr + len -> phys cpu a s = phys cpu b s -> a = b.
Proof.
  intros Hl Hv Hap Ha Hb. destruct (validated_mapped cpu ptr len write s a Hl Hv Ha) as (fa & Hta & Hfa & ->).
  destruct (validated_mapped cpu ptr len write s b Hl Hv Hb) as (fb & Htb & Hfb & ->). intros [= Heq].
  pose proof (Z.mod_pos_bound a 4096 ltac:(lia)). pose proof (Z.mod_pos_bound b 4096 ltac:(lia)).
  pose proof (Z.div_mod fa 4096 ltac:(lia)). pose proof (Z.div_mod fb 4096 ltac:(lia)).
  assert (fa = fb) as -> by lia. assert (Uaccess.page_of a = Uaccess.page_of b) as Hpg by (apply Hap; congruence).
  rewrite !Uaccess.page_of_eq in Hpg. lia.
Qed.

Lemma store_frame (cr3 : Z) (m : gmap Z Z) (ptr : Z) (src : list Z) (pm : gmap Z Z) (q : Z) :
  (forall a, ptr <= a < ptr + Z.of_nat (length src) -> paddr cr3 m a <> Some q) -> store cr3 m ptr src pm !! q = pm !! q.
Proof.
  revert ptr pm. induction src as [|b src IH]; intros ptr pm Hq; simpl; [done|]. rewrite IH by (intros a Ha; apply Hq; simpl; lia).
  pose proof (Hq ptr ltac:(simpl; lia)) as Hp. destruct (paddr cr3 m ptr) as [q'|]; [|done]. apply lookup_insert_ne. congruence.
Qed.

Lemma store_at (cr3 : Z) (m : gmap Z Z) (ptr : Z) (src : list Z) (pm : gmap Z Z) (k : nat) (b q : Z) :
  src !! k = Some b -> paddr cr3 m (ptr + Z.of_nat k) = Some q ->
  (forall a, ptr + Z.of_nat k < a < ptr + Z.of_nat (length src) -> paddr cr3 m a <> Some q) -> store cr3 m ptr src pm !! q = Some b.
Proof.
  revert ptr pm k. induction src as [|c src IH]; intros ptr pm k Hb Hp Hq; [done|]. destruct k as [|k]; simpl in *.
  - simplify_eq. rewrite store_frame by (intros a Ha; apply Hq; lia). rewrite Z.add_0_r in Hp. rewrite Hp. apply lookup_insert_eq.
  - apply (IH _ _ k); [done| |].
    + rewrite <- Hp. f_equal. lia.
    + intros a Ha. apply Hq. lia.
Qed.

Lemma store_user_space (cpu : nat) (ptr : Z) (src : list Z) (s : Sys) (c : nat) (a : Z) : phys c a (store_user cpu ptr src s) = phys c a s.
Proof. done. Qed.

(** What was stored through the caller's addresses is read back through them. *)
Lemma stored_back (cpu : nat) (ptr len : Z) (src : list Z) (s : Sys) :
  1 <= len -> validate_range cpu ptr len true s = true -> apart cpu ptr len s -> Z.of_nat (length src) <= len ->
  user_bytes cpu ptr (Z.of_nat (length src)) (store_user cpu ptr src s) = src.
Proof.
  intros Hl Hv Hap Hlen. apply list_eq. intros k. unfold user_bytes. rewrite list_lookup_fmap. destruct (src !! k) as [b|] eqn:E.
  - pose proof (lookup_lt_Some _ _ _ E). rewrite lookup_seqZ_lt by lia. simpl. f_equal. unfold load. rewrite store_user_space.
    replace (ptr + (0 + Z.of_nat k)) with (ptr + Z.of_nat k) by lia.
    destruct (validated_mapped cpu ptr len true s (ptr + Z.of_nat k) Hl Hv ltac:(lia)) as (f & _ & _ & Hph). rewrite Hph. simpl.
    rewrite (store_at _ _ ptr src _ k b); [done|done|exact Hph|]. intros a Ha Hpa.
    assert (a = ptr + Z.of_nat k); [|lia]. apply (phys_inj cpu ptr len true s); try done; try lia. rewrite Hph. exact Hpa.
  - apply lookup_ge_None in E. by rewrite lookup_seqZ_ge by lia.
Qed.

(** ... and nothing else changed, nowhere in memory. *)
Lemma stored_frame (cpu : nat) (ptr : Z) (src : list Z) (s : Sys) (q : Z) :
  (forall a, ptr <= a < ptr + Z.of_nat (length src) -> phys cpu a s <> Some q) -> pmem (store_user cpu ptr src s) !! q = pmem s !! q.
Proof. intros Hq. by apply store_frame. Qed.

(** The caller's memory is not touched by waking and sleeping. *)
Lemma on_ipc_frame {R : Type} (f : Ipc.IState -> R * Ipc.IState) (s : Sys) :
  let s' := snd (on_ipc f s) in
  pmem s' = pmem s /\ tables s' = tables s /\ active_cr3 (ds s') = active_cr3 (ds s) /\
  Ipc.mkI (chans s') (procs_of s') = snd (f (Ipc.mkI (chans s) (procs_of s))) /\
  fst (on_ipc f s) = fst (f (Ipc.mkI (chans s) (procs_of s))).
Proof. unfold on_ipc. destruct (f _) as [r [ch p]]. done. Qed.

(** The message queued last, on a channel that had none. *)
Lemma enqueue_slot (id : Z) (data : Ipc.Message) (c : Ipc.Channel) (i : Ipc.IState) :
  Ipc.slot i id = Some c ->
  exists c', Ipc.slot (Ipc.enqueue id data c i) id = Some c' /\ Ipc.c_queue c' = Ipc.c_queue c ++ [data].
Proof.
  intros Hc. unfold Ipc.enqueue.
  destruct (Ipc.wake_receiver _ (Ipc.ps i)) as [c' p] eqn:E. exists c'. split.
  - change (Ipc.slot (Ipc.set_ps p ?x) id) with (Ipc.slot x id).
    rewrite (Ipc.slot_set_slot i id id c (Some c') Hc). by rewrite Z.eqb_refl.
  - unfold Ipc.wake_receiver in E. simpl in E. destruct (Ipc.c_recv_waiters c); by simplify_eq.
Qed.

(** A receive from a queue, through the caller's buffer. *)
Lemma recv_bytes (cpu : nat) (channel ptr len who : Z) (ch : Ipc.Channel) (msg : Ipc.Message) (s : Sys) :
  0 <= len -> Ipc.slot (Ipc.mkI (chans s) (procs_of s)) channel = Some ch -> Ipc.c_queue ch = [msg] ->
  let n := Nat.min (length msg) (Z.to_nat len) in
  let '(r, s') := with_buffer cpu ptr len (fun b => Ipc.try_recv channel b who) s in
  r = Ipc.RecvOk n /\ pmem s' = store (space cpu s) (tables s) ptr (take n msg) (pmem s) /\
  tables s' = tables s /\ active_cr3 (ds s') = active_cr3 (ds s).
Proof.
  intros Hlen Hs Hq n. unfold with_buffer. set (buf := user_bytes cpu ptr len s).
  assert (length buf = Z.to_nat len) as Hbuf by (unfold buf, user_bytes; rewrite length_fmap, length_seqZ; done).
  destruct (on_ipc_frame (Ipc.try_recv channel buf who) s) as (Hum & Htab & Hcr & _ & Hr).
  destruct (on_ipc (Ipc.try_recv channel buf who) s) as [[r b] s1]. cbn [fst snd] in *.
  assert ((r, b) = (Ipc.RecvOk n, take n msg ++ drop n buf)) as [= -> ->].
  { rewrite Hr. unfold Ipc.try_recv. rewrite Hs, Hq. unfold Ipc.dequeue, Ipc.copy_out. rewrite Hbuf. fold n.
    by destruct (Ipc.wake_sender _ _). }
  unfold store_user. cbn [pmem tables ds]. split_and!; [done| |done|done].
  rewrite take_app_le, take_take, Nat.min_id by (rewrite length_take; lia).
  assert (space cpu s1 = space cpu s) as -> by (unfold space, cr3_of; by rewrite Hcr). by rewrite Htab, Hum.
Qed.

Section Messages.
Context `{TeardownEffects} `{Components}.
Implicit Types (s : Sys).

(** C25: A message arrives as it was sent.  When a process sends the bytes of its buffer (1 to
    8192 of them) on a channel with nothing queued, the call succeeds and changes no
    memory; and when a process, in the same or another address space, then receives on
    the channel with a buffer of any size that no frame is mapped into twice, it is
    answered with the smaller of the two lengths, its buffer holds that many bytes of the
    message followed by the bytes it held before, and no other byte of physical memory
    has changed, so that other address spaces see a difference only where they share
    those very bytes. *)
Theorem message_arrives (cpuA cpuB : nat) (channel ptrA lenA ptrB lenB : Z) (ch : Ipc.Channel) s :
  ptrA <> 0 -> ptrB <> 0 -> 1 <= lenA <= 8192 -> 1 <= lenB ->
  validate_range cpuA ptrA lenA false s = true -> validate_range cpuB ptrB lenB true s = true -> apart cpuB ptrB lenB s ->
  Ipc.slot (Ipc.mkI (chans s) (procs_of s)) channel = Some ch -> Ipc.c_queue ch = [] ->
  let data := user_bytes cpuA ptrA lenA s in
  let n := Z.min lenA lenB in
  let '(r1, s1) := handle cpuA SYS_IPC_SEND channel ptrA lenA s in
  let '(r2, s2) := handle cpuB SYS_IPC_RECV channel ptrB lenB s1 in
  r1 = 0 /\ pmem s1 = pmem s /\ r2 = n /\ tables s2 = tables s /\
  user_bytes cpuB ptrB n s2 = take (Z.to_nat n) data /\
  (forall a, ptrB + n <= a < ptrB + lenB -> load cpuB a s2 = load cpuB a s) /\
  (forall q, (forall a, ptrB <= a < ptrB + n -> phys cpuB a s <> Some q) -> pmem s2 !! q = pmem s !! q).
Proof.
  intros HpA HpB HlA HlB HvA HvB Hap Hslot Hq data n.
  rewrite (route_send SYS_IPC_SEND channel ptrA lenA (IpcSend channel ptrA lenA) GIpc) by reflexivity.
  cbn [run]. unfold ipc_send. rewrite (proj2 (Z.eqb_neq ptrA 0)), (proj2 (Z.eqb_neq lenA 0)) by lia. cbn [orb].
  assert (read_bytes cpuA ptrA lenA s = Some data) as -> by (unfold read_bytes; by rewrite HvA).
  assert (length data = Z.to_nat lenA) as Hdata by (unfold data, user_bytes; rewrite length_fmap, length_seqZ; done).
  destruct (on_ipc_frame (Ipc.try_send channel (caller cpuA s) data) s) as (Hum & Htab & Hcr & Hi & Hr).
  destruct (on_ipc (Ipc.try_send channel (caller cpuA s) data) s) as [r1 s1]. cbn [fst snd] in *.
  assert (Ipc.try_send channel (caller cpuA s) data (Ipc.mkI (chans s) (procs_of s))
          = (Ipc.SendOk, Ipc.enqueue channel data ch (Ipc.mkI (chans s) (procs_of s)))) as Esend.
  { assert (Z.of_nat Ipc.MAX_MSG_SIZE = 8192) as Hmax by (vm_compute; reflexivity).
    unfold Ipc.try_send. rewrite (proj2 (Nat.ltb_ge _ _)) by lia. rewrite Hslot, Hq. cbn [Ipc.make_room].
    do 2 f_equal. destruct ch; simpl in *; by subst. }
  rewrite Esend in Hi, Hr. cbn [fst snd] in *. subst r1.
  destruct (enqueue_slot channel data ch _ Hslot) as (ch1 & Hs1 & Hq1). rewrite <- Hi in Hs1. rewrite Hq in Hq1.
  rewrite (route_send SYS_IPC_RECV channel ptrB lenB (IpcRecv channel ptrB lenB) GIpc) by reflexivity.
  cbn [run]. unfold ipc_recv. rewrite (proj2 (Z.eqb_neq ptrB 0)), (proj2 (Z.eqb_neq lenB 0)) by lia. cbn [orb].
  assert (space cpuB s1 = space cpuB s) as Hsp by (unfold space, cr3_of; by rewrite Hcr).
  assert (validate_range cpuB ptrB lenB true s1 = true) as -> by (unfold validate_range; by rewrite Hsp, Htab). cbn [negb].
  pose proof (recv_bytes cpuB channel ptrB lenB (caller cpuB s1) ch1 data s1 ltac:(lia) Hs1 Hq1) as Hrecv.
  destruct (with_buffer _ _ _ _ _) as [r2 s2]. destruct Hrecv as (-> & Hpm & Ht2 & Hc2).
  assert (Z.of_nat (length data `min` Z.to_nat lenB) = n) as En by (unfold n; lia).
  replace (length data `min` Z.to_nat lenB)%nat with (Z.to_nat n) in * by lia. set (msg := take (Z.to_nat n) data) in *.
  assert (Z.of_nat (length msg) = n) as Hmsg by (unfold msg; rewrite length_take; lia).
  rewrite Hsp, Htab, Hum in Hpm. rewrite Htab in Ht2. rewrite Hcr in Hc2.
  assert (forall a, load cpuB a s2 = load cpuB a (store_user cpuB ptrB msg s)) as Hload.
  { intros a. unfold load, phys, space, cr3_of. rewrite Ht2, Hc2. unfold store_user. cbn [pmem tables ds]. by rewrite Hpm. }
  split_and!; [done|done|done|done| | |].
  - etransitivity; [|apply (stored_back cpuB ptrB lenB msg s); (done || lia)]. rewrite Hmsg. apply list_fmap_ext. intros i k _. apply Hload.
  - intros a Ha. rewrite Hload. unfold load. rewrite store_user_space.
    destruct (validated_mapped cpuB ptrB lenB true s a HlB HvB ltac:(lia)) as (f & _ & _ & Hph). rewrite Hph. f_equal. apply stored_frame.
    intros b Hb Hpb. assert (a = b); [|lia]. apply (phys_inj cpuB ptrB lenB true s); try done; try lia. congruence.
  - intros q Hout. rewrite Hpm. apply store_frame. rewrite Hmsg. exact Hout.
Qed.
End Messages.

(** * What a program learns of the processes *)

(** The caller's reading of a [ProcessInfo], by its own declaration of the fields. *)
Definition field (k : nat) (l : list Z) : Z := from_le (take 8 (drop k l)).
Definition user_info (l : list Z) : ProcessInfo :=
  mkInfo (field 0 l) (field 8 l) (take 32 (drop 16 l)) (field 48 l) (field 56 l) (field 64 l) (field 72 l) (field 80 l) (field 88 l) (field 96 l).

Record info_ok (i : ProcessInfo) : Prop := {
  ok_words : Forall is_u64 [pi_pid i; pi_state i; pi_start i; pi_entry i; pi_stack_top i; pi_step i; pi_ticks i; pi_memory i; pi_parent i];
  ok_name : length (pi_name i) = 32%nat }.

Lemma word_field (k : nat) (v : Z) (l1 l2 : list Z) :
  length l1 = k -> is_u64 v -> field k (l1 ++ to_le 8 v ++ l2) = v.
Proof.
  intros <- Hv. unfold field. rewrite drop_app_length, take_app_le by (by rewrite length_to_le).
  rewrite take_ge by (by rewrite length_to_le). by apply from_to_le.
Qed.

Lemma info_bytes_length (i : ProcessInfo) : length (pi_name i) = 32%nat -> length (info_bytes i) = 104%nat.
Proof. intros Hn. unfold info_bytes. rewrite !length_app, !length_to_le, Hn. done. Qed.

Lemma user_info_bytes (i : ProcessInfo) : info_ok i -> user_info (info_bytes i) = i.
Proof.
  intros [Hw Hn]. decompose_Forall_hyps. destruct i as [a b nm c d e f g h k]. simpl in *.
  unfold user_info, info_bytes. cbn [pi_pid pi_state pi_name pi_start pi_entry pi_stack_top pi_step pi_ticks pi_memory pi_parent].
  f_equal.
  - by apply (word_field 0 a []).
  - apply (word_field 8 b (to_le 8 a)); [by rewrite length_to_le|done].
  - rewrite app_assoc. rewrite drop_app_length' by (by rewrite length_app, !length_to_le). by rewrite take_app_length' by done.
  - rewrite 2 app_assoc. apply word_field; [by rewrite !length_app, !length_to_le, Hn|done].
  - rewrite 3 app_assoc. apply word_field; [by rewrite !length_app, !length_to_le, Hn|done].
  - rewrite 4 app_assoc. apply word_field; [by rewrite !length_app, !length_to_le, Hn|done].
  - rewrite 5 app_assoc. apply word_field; [by rewrite !length_app, !length_to_le, Hn|done].
  - rewrite 6 app_assoc. apply word_field; [by rewrite !length_app, !length_to_le, Hn|done].
  - rewrite 7 app_assoc. apply word_field; [by rewrite !length_app, !length_to_le, Hn|done].
  - rewrite 8 app_assoc, <- (app_nil_r (to_le 8 k)). apply word_field; [by rewrite !length_app, !length_to_le, Hn|done].
Qed.

(** Dropping a member drops the count. *)
Lemma retain_lt {A : Type} (x : A) (P Q : A -> bool) (l : list A) :
  (forall y, Q y = true -> P y = true) -> x ∈ l -> P x = true -> Q x = false -> (length (retain Q l) < length (retain P l))%nat.
Proof.
  intros HQP Hx HP HQ.
  assert (forall l, (length (retain Q l) <= length (retain P l))%nat) as Hle.
  { clear -HQP. induction l as [|a l IH]; simpl; [lia|]. destruct (Q a) eqn:E; [rewrite HQP by done; simpl; lia|]. destruct (P a); simpl; lia. }
  induction l as [|y l IH]; [by apply elem_of_nil in Hx|]. apply elem_of_cons in Hx as [->|Hx]; [|specialize (IH Hx)]; simpl.
  - rewrite HP, HQ. specialize (Hle l). simpl. lia.
  - destruct (Q y) eqn:E; [rewrite HQP by done; simpl; lia|]. destruct (P y); simpl; lia.
Qed.

Section Learning.
Context `{TeardownEffects} `{Components}.
Implicit Types (s : Sys).

(** The process table crosses the boundary unchanged.  [SYS_PROCESS_INFO] with a buffer
    the caller may write answers 0 and leaves there the 104 bytes that the caller, by
    its own declaration of the record, reads as exactly what the kernel has on the
    process; it changes no other byte of memory; for a process that does not exist it
    answers an error and changes nothing. *)
Theorem process_info_read_back (cpu : nat) (pid out : Z) s :
  out <> 0 -> validate_range cpu out 104 true s = true -> apart cpu out 104 s -> (forall i, info pid s = Some i -> info_ok i) ->
  let '(r, s') := handle cpu SYS_PROCESS_INFO pid out 0 s in
  match info pid s with
  | Some i => r = 0 /\ user_info (user_bytes cpu out 104 s') = i /\
      forall q, (forall a, out <= a < out + 104 -> phys cpu a s <> Some q) -> pmem s' !! q = pmem s !! q
  | None => r = u64_max /\ s' = s
  end.
Proof.
  intros Hout Hv Hap Hok. rewrite (route_send SYS_PROCESS_INFO pid out 0 (ProcessInfoOf pid out) GProcess) by reflexivity.
  cbn [run]. unfold process_info. rewrite (proj2 (Z.eqb_neq out 0)) by done. cbn [negb].
  destruct (info pid s) as [i|]; [|done]. specialize (Hok i eq_refl). cbn [fmap option_fmap option_map write_info].
  pose proof (info_bytes_length i (ok_name i Hok)) as Hlen. assert (Z.of_nat (length (info_bytes i)) = 104) as Hz by lia.
  unfold write_value. rewrite Hz, Hv. split_and!; [done| |].
  - rewrite <- Hz at 1. rewrite (stored_back cpu out 104) by (done || lia). by apply user_info_bytes.
  - intros q Hq. apply stored_frame. by rewrite Hz.
Qed.

(** The list of processes: [SYS_PROCESS_NEXT] from its own last answer. *)
Fixpoint walk (n : nat) (i : Z) s : list Z :=
  match n with
  | O => []
  | S n' => match next_pid_after i (procs_of s) with Some j => j :: walk n' j s | None => [] end
  end.
Definition after (i : Z) (p : Process) : bool := not_empty p && (i <? pid p).

Lemma next_pid_spec (i : Z) (x : PState) :
  match next_pid_after i x with
  | Some j => i < j /\ (exists p, p ∈ Process.procs x /\ not_empty p = true /\ pid p = j) /\
      forall p, p ∈ Process.procs x -> after i p = true -> j <= pid p
  | None => forall p, p ∈ Process.procs x -> after i p = false
  end.
Proof.
  unfold next_pid_after. pose proof (min_opt_spec (pid <$> retain (after i) (Process.procs x))) as Hm. unfold after in Hm at 1.
  destruct (min_opt _) as [j|].
  - destruct Hm as [(p & -> & [Ha Hp]%elem_of_retain)%list_elem_of_fmap Hmin]. unfold after in Ha. apply andb_true_iff in Ha as [Hne Hlt]. zbool.
    split_and!; [done|by eauto|]. intros q Hq Hqa. apply Hmin, list_elem_of_fmap. exists q. split; [done|]. by apply elem_of_retain.
  - apply fmap_nil_inv in Hm. intros p Hp. destruct (after i p) eqn:E; [|done]. exfalso.
    assert (p ∈ retain (after i) (Process.procs x)) as Hin by (by apply elem_of_retain). rewrite Hm in Hin. by apply elem_of_nil in Hin.
Qed.

Lemma process_walk_spec (n : nat) (i : Z) s :
  (length (retain (after i) (Process.procs (procs_of s))) <= n)%nat ->
  StronglySorted Z.lt (walk n i s) /\
  forall j, j ∈ walk n i s <-> i < j /\ exists p, p ∈ Process.procs (procs_of s) /\ not_empty p = true /\ pid p = j.
Proof.
  revert i. induction n as [|n IH]; intros i Hn; simpl.
  - split; [constructor|]. intros j. split; [by intros ?%elem_of_nil|]. intros (Hj & p & Hp & Hne & <-). exfalso.
    assert (p ∈ retain (after i) (Process.procs (procs_of s))) as Hin.
    { apply elem_of_retain. split; [|done]. unfold after. rewrite Hne. by apply Z.ltb_lt. }
    destruct (retain _ _); [by apply elem_of_nil in Hin|simpl in Hn; lia].
  - pose proof (next_pid_spec i (procs_of s)) as Hnext. destruct (next_pid_after i (procs_of s)) as [j|].
    + destruct Hnext as (Hij & (p & Hp & Hne & Hpj) & Hmin). destruct (IH j) as [IH1 IH2].
      { apply Nat.lt_succ_r. eapply Nat.lt_le_trans; [|exact Hn].
        apply (retain_lt p); [|done| |].
        - intros q. unfold after. rewrite !andb_true_iff, !Z.ltb_lt. intros [? ?]. split; [done|lia].
        - unfold after. rewrite Hne. apply Z.ltb_lt. lia.
        - unfold after. rewrite Hne, Hpj. apply Z.ltb_irrefl. }
      split; [constructor; [done|]; apply Forall_forall; intros x [Hx _]%IH2; lia|].
      intros x. rewrite elem_of_cons, IH2. split.
      * intros [->|(Hx & q)]; [split; [done|by eauto]|]. split; [lia|done].
      * intros (Hx & q & Hq & Hqe & <-). destruct (decide (pid q = j)); [by left|right].
        split; [|by eauto]. assert (j <= pid q); [|lia]. apply Hmin; [done|]. unfold after. rewrite Hqe. by apply Z.ltb_lt.
    + split; [constructor|]. intros j. split; [by intros ?%elem_of_nil|]. intros (Hj & p & Hp & Hne & <-). exfalso.
      specialize (Hnext p Hp). unfold after in Hnext. rewrite Hne in Hnext. zbool. lia.
Qed.

(** A program can list all processes.  Asking [SYS_PROCESS_NEXT] with its own last answer,
    starting from the kernel's 0, as often as there are processes, yields the pid of
    every process but the kernel's, each once and in increasing order. *)
Theorem process_list_complete (n : nat) s :
  (length (Process.procs (procs_of s)) <= n)%nat ->
  StronglySorted Z.lt (walk n 0 s) /\
  forall j, j ∈ walk n 0 s <-> 0 < j /\ exists p, p ∈ Process.procs (procs_of s) /\ not_empty p = true /\ pid p = j.
Proof.
  intros Hn. apply process_walk_spec. etransitivity; [|exact Hn].
  induction (Process.procs (procs_of s)) as [|p l IH]; simpl; [lia|]. destruct (after 0 p); simpl in *; [|]; specialize (IH ltac:(lia)); lia.
Qed.

(** Small pids cannot be asked for.  [SYS_CPU_INFO] gives the processor time of a process
    only for pids above 10: the numbers 0 to 10 select other counters, so the answer for
    an early process is one of those, whatever it used. *)
Theorem cpu_info_shadows_pids (cpu : nat) (pid index : Z) s :
  handle cpu SYS_CPU_INFO pid index 0 s = (cpu_info cpu pid index s, s) /\
  (0 <= pid <= 10 -> forall x, cpu_info cpu pid index (set_procs_of x s) = cpu_info cpu pid index s) /\
  (10 < pid -> cpu_info cpu pid index s = default u64_max (Process.cpu_ticks pid (procs_of s))).
Proof.
  split; [done|]. unfold cpu_info. split.
  - intros Hp x. repeat (destruct (pid =? _) eqn:?; zbool; [done|]). lia.
  - intros Hp. repeat (rewrite (proj2 (Z.eqb_neq pid _)) by lia). done.
Qed.
End Learning.

(** * Witnesses *)

Module Example.
#[local] Instance idle_effects : TeardownEffects := {| effect _ s := s |}.
#[local] Instance nothing : Components := {| serve _ _ s := (u64_max, s) |}.

(** Process 5 runs on CPUs 0 and 1, with the page tables of [VmmExample] on both: the two
    see the same frame; channel 1 is open and empty. *)
Definition channel : Ipc.Channel := Ipc.new_channel [109].
Definition page : Z := Vmm.USER_MIN.
Definition procs0 : PState := Process.Example.st.
Definition disp0 : DState :=
  mkDState procs0 (VmmExample.root0 :: (VmmExample.root0 + 8) :: replicate 14 0) (replicate 16 65536) (replicate 16 32768) 4096 (replicate 16 0) 0 0 0 0
    (replicate 16 0) (replicate 16 0) (replicate 16 0) false (replicate 16 0) [].
Definition sys0 : Sys :=
  mkSys disp0 [Some channel] (Vmm.mem VmmExample.space1) (<[20480 := 65]> (<[20481 := 66]> (<[20482 := 67]> ∅))) None Smp.static_state (80, 25).

Lemma apart_page (ptr len : Z) (cpu : nat) : page <= ptr -> ptr + len <= page + 4096 -> apart cpu ptr len sys0.
Proof.
  intros H1 H2 a b Ha Hb _. assert (forall x, page <= x < page + 4096 -> Uaccess.page_of x = page) as Hp; [|rewrite !Hp; lia].
  intros x Hx. rewrite Uaccess.page_of_eq. unfold page, Vmm.USER_MIN in *. pose proof (Z.div_mod x 4096 ltac:(lia)). pose proof (Z.mod_pos_bound x 4096 ltac:(lia)). lia.
Qed.

Lemma message_arrives_witness :
  let '(r1, s1) := handle 0 SYS_IPC_SEND 1 page 3 sys0 in
  let '(r2, s2) := handle 1 SYS_IPC_RECV 1 (page + 100) 5 s1 in
  r1 = 0 /\ pmem s1 = pmem sys0 /\ r2 = 3 /\ tables s2 = tables sys0 /\ user_bytes 1 (page + 100) 3 s2 = [65; 66; 67] /\
  (forall a, page + 100 + 3 <= a < page + 100 + 5 -> load 1 a s2 = load 1 a sys0) /\
  (forall q, (forall a, page + 100 <= a < page + 100 + 3 -> phys 1 a sys0 <> Some q) -> pmem s2 !! q = pmem sys0 !! q).
Proof.
  apply (message_arrives 0 1 1 page 3 (page + 100) 5 channel sys0); [done|done|lia|lia|by vm_compute|by vm_compute| |done|done].
  apply apart_page; lia.
Defined.

(** Process 5 has been told to die; its only thread calls. *)
Definition proc5 : Process := with_kill (with_threads [1] Process.Example.proc).
Definition marked : Sys := on_procs (fun _ => set_procs [kernel_process; proc5; Process.Example.proc6] Process.Example.st1) sys0.
#[local] Instance idle_laws : TeardownLaws.
Proof. constructor. intros c s. by split. Qed.

Lemma killed_process_never_served_witness :
  exists calls x next s',
    exit_post 0 (procs_of marked) 5 1 proc5 (calls, x) /\
    (forall C : Components, syscall_int80 (fun _ => 98304) (Some (syscall_dispatch 0)) 0 Syscall.Example.regs Syscall.Example.cells marked
      = (Exited (Some 5) next, Syscall.Example.cells, s')) /\
    same_services marked s' /\ enter_next_process (fun _ => 98304) 0 (after_exit 0 calls x (ds marked)) = (next, ds s') /\
    1 ∉ tids (ds s') /\ (next ≫= launch_id) <> Some 1.
Proof.
  apply (killed_process_never_served (fun _ => 98304) 0 Syscall.Example.regs Syscall.Example.cells 5 proc5 marked);
    [repeat constructor; set_solver|done..|by left|simpl; lia].
Defined.

Lemma process_info_read_back_witness :
  let '(r, s') := handle 0 SYS_PROCESS_INFO 5 page 0 sys0 in
  match info 5 sys0 with
  | Some i => r = 0 /\ user_info (user_bytes 0 page 104 s') = i /\
      forall q, (forall a, page <= a < page + 104 -> phys 0 a sys0 <> Some q) -> pmem s' !! q = pmem sys0 !! q
  | None => r = u64_max /\ s' = sys0
  end.
Proof.
  apply (process_info_read_back 0 5 page sys0); [done|by vm_compute|apply apart_page; lia|].
  intros i Hi. vm_compute in Hi. simplify_eq. split; [|done]. repeat constructor; vm_compute; (discriminate || done).
Defined.

Lemma process_list_complete_witness :
  StronglySorted Z.lt (walk 3 0 sys0) /\
  forall j, j ∈ walk 3 0 sys0 <-> 0 < j /\ exists p, p ∈ Process.procs (procs_of sys0) /\ not_empty p = true /\ pid p = j.
Proof. apply (process_list_complete 3 sys0). simpl. lia. Defined.
End Example.

End Handlers.
