(* ===== verification/Fault.v ===== *)
(** Processor exceptions: [crates/kernel/src/handlers/faults.rs], the entry stubs
    ([no_error_stub!], [error_stub!]), [fault_handler_inner], [exception_name] and the
    page-table dump.

    The processor pushes its frame, with an error code for the vectors that have one;
    the stub pushes the registers and passes pointers into the stack.  What the kernel
    prints before it stops is a list of the values printed. *)
From stdpp Require Import base list numbers option gmap strings.
From S2P Require Import Prelude Str Vmm Thread Scheduler Process Dispatch Syscall Desc.

Open Scope Z_scope.

Module Fault.
Import Thread.Thread Scheduler.Scheduler Process.Process Dispatch.Dispatch.

(** ** The stubs *)

(** The vectors for which the processor pushes an error code. *)
Definition pushes_error (vector : Z) : bool := existsb (Z.eqb vector) [8; 10; 11; 12; 13; 14; 17; 21; 29; 30].

(** The invocations of the two macros. *)
Definition no_error_stubs : list Z := [0; 1; 2; 3; 4; 5; 6; 7; 16; 18; 19; 20].
Definition error_stubs : list Z := [8; 10; 11; 12; 13; 14; 17; 21].

(** What the processor pushes, from the lowest address. *)
Definition cpu_frame (vector error : Z) (g : Regs) : list Z :=
  (if pushes_error vector then [error] else []) ++ [g_rip g; g_cs g; g_rflags g; g_rsp g; g_ss g].

(** The fifteen registers the stub pushes, from the lowest address: [FaultRegisters]. *)
Definition saved (g : Regs) : list Z :=
  [g_r15 g; g_r14 g; g_r13 g; g_r12 g; g_r11 g; g_r10 g; g_r9 g; g_r8 g; g_rdi g; g_rsi g; g_rbp g; g_rdx g; g_rcx g; g_rbx g; g_rax g].

(** The arguments of the call. *)
Record Args := mkArgs { a_vector : Z; a_error : Z; a_registers : Z; a_stack_frame : Z }.

(** The stack below [top] after the processor and the stub of [vector]; 16-byte aligned
    [top], as the processor makes it. *)
Definition enter_stub (with_code : bool) (vector error top : Z) (g : Regs) (m : gmap Z Z) : Args * gmap Z Z :=
  let frame := saved g ++ (if with_code then [] else [0]) ++ cpu_frame vector error g in
  let rsp := top - 8 * Z.of_nat (length frame) in
  let m := write_words rsp frame m in
  (mkArgs vector (word m rsp 15) rsp (rsp + 128), m).

Definition stub (vector : Z) : option bool :=
  if existsb (Z.eqb vector) no_error_stubs then Some false
  else if existsb (Z.eqb vector) error_stubs then Some true else None.

(** ** What is printed *)

Definition exception_name (vector : Z) : string :=
  if vector =? 0 then "DIVIDE ERROR" else if vector =? 1 then "DEBUG EXCEPTION" else if vector =? 2 then "NMI"
  else if vector =? 3 then "BREAKPOINT" else if vector =? 4 then "OVERFLOW" else if vector =? 5 then "BOUND RANGE EXCEEDED"
  else if vector =? 6 then "INVALID OPCODE" else if vector =? 7 then "DEVICE NOT AVAILABLE" else if vector =? 8 then "DOUBLE FAULT"
  else if vector =? 10 then "INVALID TSS" else if vector =? 11 then "SEGMENT NOT PRESENT" else if vector =? 12 then "STACK SEGMENT FAULT"
  else if vector =? 13 then "GENERAL PROTECTION FAULT" else if vector =? 14 then "PAGE FAULT"
  else if vector =? 16 then "X87 FLOATING POINT EXCEPTION" else if vector =? 17 then "ALIGNMENT CHECK" else if vector =? 18 then "MACHINE CHECK"
  else if vector =? 19 then "SIMD FLOATING POINT EXCEPTION" else if vector =? 20 then "VIRTUALIZATION EXCEPTION"
  else if vector =? 21 then "CONTROL PROTECTION EXCEPTION" else "CPU EXCEPTION".

Inductive Line :=
  | LUserFault (name : string) (cpu tid pid vector error rip : Z)
  | LPanic (name : string) (vector error rip cs rflags : Z)
  | LValues (l : list Z)
  | LWalk (virt cr3 : Z)
  | LEntry (level index entry : Z)
  | LFlags (present user writable nx : Z)
  | LNotPresent
  | LHuge (level : Z).

(** [present={} user={} writable={} nx={}]. *)
Definition flags (e : Z) : Line :=
  LFlags (Z.land (Z.shiftr e 0) 1) (Z.land (Z.shiftr e 2) 1) (Z.land (Z.shiftr e 1) 1) (Z.land (Z.shiftr e 63) 1).

(** One level of the walk: the lines, and the next table if it goes on. *)
Definition dump_level (m : gmap Z Z) (level base index : Z) (huge : bool) : list Line * option Z :=
  let e := Vmm.entry_at m base index in
  if Z.land e 1 =? 0 then ([LEntry level index e; LNotPresent], None)
  else if huge && negb (Z.land e (Z.shiftl 1 7) =? 0) then ([LEntry level index e; flags e; LHuge level], None)
  else ([LEntry level index e; flags e], Some (Z.land e Vmm.ADDR_MASK)).

Definition dump_page_table (m : gmap Z Z) (cr3 virt : Z) : list Line :=
  LWalk virt cr3 ::
  let '(l4, t) := dump_level m 4 (Z.land cr3 Vmm.ADDR_MASK) (Z.land (Z.shiftr virt 39) 511) false in
  l4 ++ match t with
        | None => []
        | Some pdpt =>
            let '(l3, t) := dump_level m 3 pdpt (Z.land (Z.shiftr virt 30) 511) true in
            l3 ++ match t with
                  | None => []
                  | Some pd =>
                      let '(l2, t) := dump_level m 2 pd (Z.land (Z.shiftr virt 21) 511) true in
                      l2 ++ match t with
                            | None => []
                            | Some pt => fst (dump_level m 1 pt (Z.land (Z.shiftr virt 12) 511) false)
                            end
                  end
        end.

(** ** The handler *)

Inductive FaultOutcome := Killed (next : option Launch) | Halted.

(** [FaultRegisters] and [InterruptStackFrame] read through the pointers. *)
Definition read_regs (m : gmap Z Z) (registers stack_frame : Z) : Regs :=
  let w := word m registers in
  let f := word m stack_frame in
  mkRegs (w 14) (w 13) (w 12) (w 11) (w 9) (w 8) (w 10) (w 7) (w 6) (w 5) (w 4) (w 3) (w 2) (w 1) (w 0) (f 0) (f 1) (f 2) (f 3) (f 4).

Definition report (vector error cr2 : Z) (g : Regs) (pages : gmap Z Z) (cr3 : Z) : list Line :=
  [LPanic (exception_name vector) vector error (g_rip g) (g_cs g) (g_rflags g);
   LValues [g_rsp g; g_ss g; cr2]; LValues [g_rax g; g_rbx g; g_rcx g; g_rdx g]; LValues [g_rsi g; g_rdi g; g_rbp g];
   LValues [g_r8 g; g_r9 g; g_r10 g; g_r11 g]; LValues [g_r12 g; g_r13 g; g_r14 g; g_r15 g]] ++
  (if vector =? 14 then dump_page_table pages cr3 cr2 else []).

Section Handler.
Context `{TeardownEffects}.
Variable temp_top : nat -> Z.

(** [pages] is the memory the page tables are in, [cr2] the register. *)
Definition fault_handler_inner (cpu : nat) (a : Args) (m pages : gmap Z Z) (cr2 : Z) (d : DState) : FaultOutcome * list Line * DState :=
  let g := read_regs m (a_registers a) (a_stack_frame a) in
  let cr2 := if a_vector a =? 14 then cr2 else 0 in
  if Z.land (g_cs g) 3 =? 3 then
    let pid := default 0 (current_user_pid cpu (ss (ps d))) in
    let line := LUserFault (exception_name (a_vector a)) (Z.of_nat cpu) (default 0 (current_user_tid cpu (ss (ps d)))) pid (a_vector a) (a_error a) (g_rip g) in
    let d := if negb (pid =? 0) then let '(calls, p) := exit_current cpu (ps d) in note_exit cpu pid calls p d else d in
    let '(l, d) := enter_next_process temp_top cpu d in (Killed l, [line], d)
  else (Halted, report (a_vector a) (a_error a) cr2 g pages (cr3_of cpu d), d).

(** An exception in the code whose registers are [g]. *)
Definition exception (cpu : nat) (vector error top : Z) (g : Regs) (m pages : gmap Z Z) (cr2 : Z) (d : DState) : option (FaultOutcome * list Line * DState) :=
  with_code ← stub vector;
  let '(a, m) := enter_stub with_code vector error top g m in
  Some (fault_handler_inner cpu a m pages cr2 d).
End Handler.
(** * What the handler sees *)

(** The macro used for a vector fits the processor. *)
Lemma stub_kind (vector : Z) (with_code : bool) : stub vector = Some with_code -> pushes_error vector = with_code.
Proof.
  unfold stub. destruct (existsb (Z.eqb vector) no_error_stubs) eqn:E1.
  - intros [= <-]. apply existsb_exists in E1 as (v & Hv%list_elem_of_In & E). zbool. subst v.
    unfold no_error_stubs in Hv. repeat (apply elem_of_cons in Hv as [->|Hv]; [done|]). by apply elem_of_nil in Hv.
  - destruct (existsb (Z.eqb vector) error_stubs) eqn:E2; [|done].
    intros [= <-]. apply existsb_exists in E2 as (v & Hv%list_elem_of_In & E). zbool. subst v.
    unfold error_stubs in Hv. repeat (apply elem_of_cons in Hv as [->|Hv]; [done|]). by apply elem_of_nil in Hv.
Qed.

(** The words of a frame, through any pointer into it. *)
Lemma word_in_frame (p k : Z) (l : list Z) (m : gmap Z Z) (i : nat) (v : Z) :
  0 <= k -> l !! (Z.to_nat k + i)%nat = Some v -> word (write_words p l m) (p + 8 * k) (Z.of_nat i) = v.
Proof.
  intros Hk Hv. rewrite <- (word_write_words p l m _ v Hv). unfold word. do 2 f_equal. lia.
Qed.

Lemma stub_passes (vector error top : Z) (with_code : bool) (g : Regs) (m : gmap Z Z) :
  stub vector = Some with_code ->
  let '(a, m') := enter_stub with_code vector error top g m in
  a_vector a = vector /\ a_error a = (if with_code then error else 0) /\
  read_regs m' (a_registers a) (a_stack_frame a) = g.
Proof.
  intros Hs. apply stub_kind in Hs. unfold enter_stub, cpu_frame. rewrite Hs. set (l := saved g ++ _). set (p := top - _).
  cbn [a_vector a_error a_registers a_stack_frame].
  assert (forall (i : nat) v, l !! i = Some v -> word (write_words p l m) p (Z.of_nat i) = v) as Hw by (intros; by apply word_write_words).
  assert (forall (i : nat) v, l !! (16 + i)%nat = Some v -> word (write_words p l m) (p + 128) (Z.of_nat i) = v) as Hf.
  { intros i v Hv. change (p + 128) with (p + 8 * 16). by apply word_in_frame. }
  assert (l !! 15%nat = Some (if with_code then error else 0)) as H15 by (unfold l; by destruct with_code).
  split_and!; [done|exact (Hw 15%nat _ H15)|].
  unfold read_regs. cbv zeta. destruct g as [ga gb gc gd gs gi gbp g8 g9 g10 g11 g12 g13 g14 g15 gip gcs gfl gsp gss]. unfold l, saved in *.
  f_equal;
    [exact (Hw 14%nat _ eq_refl)|exact (Hw 13%nat _ eq_refl)|exact (Hw 12%nat _ eq_refl)|exact (Hw 11%nat _ eq_refl)|exact (Hw 9%nat _ eq_refl)
    |exact (Hw 8%nat _ eq_refl)|exact (Hw 10%nat _ eq_refl)|exact (Hw 7%nat _ eq_refl)|exact (Hw 6%nat _ eq_refl)|exact (Hw 5%nat _ eq_refl)
    |exact (Hw 4%nat _ eq_refl)|exact (Hw 3%nat _ eq_refl)|exact (Hw 2%nat _ eq_refl)|exact (Hw 1%nat _ eq_refl)|exact (Hw 0%nat _ eq_refl)
    |apply (Hf 0%nat)|apply (Hf 1%nat)|apply (Hf 2%nat)|apply (Hf 3%nat)|apply (Hf 4%nat)]; by destruct with_code.
Qed.

(** The stubs are those the interrupt table uses. *)
Lemma stubs_installed (addr : Z -> Z) (vector : Z) : is_Some (stub vector) <-> is_Some (Desc.handler_addr addr vector).
Proof.
  unfold stub, Desc.handler_addr. split.
  - intros Hs. rewrite bool_decide_true; [done|].
    assert (vector ∈ no_error_stubs ++ error_stubs) as Hv.
    { apply elem_of_app. destruct (existsb (Z.eqb vector) no_error_stubs) eqn:E1; [left|right; destruct (existsb (Z.eqb vector) error_stubs) eqn:E2; [|by destruct Hs]].
      all: match goal with E : existsb _ _ = true |- _ => apply existsb_exists in E as (v & Hv%list_elem_of_In & E); zbool; by subst v end. }
    unfold no_error_stubs, error_stubs in Hv. simpl in Hv. set_solver.
  - case_bool_decide as Hv; [intros _|by intros [? ?]].
    repeat (apply elem_of_cons in Hv as [->|Hv]; [done|]). by apply elem_of_nil in Hv.
Qed.

(** * The page-table dump *)

(** What a reader concludes from the dump: the frame of the last entry if the walk got to
    the last level. *)
Fixpoint concluded (l : list Line) : option Z :=
  match l with
  | [] => None
  | LEntry level _ e :: LFlags _ _ _ _ :: l' => if level =? 1 then Some (Z.land e Vmm.ADDR_MASK) else concluded l'
  | _ :: l' => concluded l'
  end.
Definition huge_line (l : list Line) : bool := existsb (fun x => match x with LHuge _ => true | _ => false end) l.

(** The dump tells the truth.  Unless it reports a large page, the dump of an address
    ends at a last-level entry exactly if the address is mapped, and names the frame it
    is mapped to. *)
Theorem dump_agrees (m : gmap Z Z) (cr3 virt : Z) :
  huge_line (dump_page_table m cr3 virt) = true \/ concluded (dump_page_table m cr3 virt) = Vmm.translate cr3 virt m.
Proof.
  unfold dump_page_table, Vmm.translate, Vmm.table_if_present, Vmm.present, dump_level.
  fold (Vmm.pml4_i virt) (Vmm.pdpt_i virt) (Vmm.pd_i virt) (Vmm.pt_i virt). change Vmm.PRESENT with 1.
  set (e4 := Vmm.entry_at m _ (Vmm.pml4_i virt)). destruct (Z.land e4 1 =? 0); [by right|]. cbn [andb negb mbind option_bind].
  set (e3 := Vmm.entry_at m _ (Vmm.pdpt_i virt)). destruct (Z.land e3 1 =? 0); [by right|]. cbn [andb negb mbind option_bind].
  destruct (Z.land e3 (Z.shiftl 1 7) =? 0); [|by left]. cbn [negb].
  set (e2 := Vmm.entry_at m _ (Vmm.pd_i virt)). destruct (Z.land e2 1 =? 0); [by right|]. cbn [andb negb mbind option_bind].
  destruct (Z.land e2 (Z.shiftl 1 7) =? 0); [|by left]. cbn [negb].
  set (e1 := Vmm.entry_at m _ (Vmm.pt_i virt)). right. by destruct (Z.land e1 1 =? 0).
Qed.

(** * Outcomes *)


Module Example.
#[local] Instance idle_effects : TeardownEffects := {| effect _ s := s |}.
#[local] Instance idle_laws : TeardownLaws.
Proof. constructor. intros c s. by split. Qed.

End Example.

End Fault.
