(* ===== verification/Interrupts.v ===== *)
(** Hardware interrupts: the entry stubs and the handlers of
    [crates/kernel/src/handlers/interrupts.rs], with the end-of-interrupt commands of
    [drivers/pic.rs] and [drivers/lapic.rs].

    A stub saves the fifteen general registers above the five words the processor pushes,
    calls its handler and pops the frame again; the frame lies below the kernel stack of
    the interrupted thread when it ran in ring 3, and below the interrupted code's own
    stack (aligned as the processor does it) in ring 0.  The timer's handler is in
    [Dispatch.v]: here it is put between its pushes and pops.  The state joins the
    dispatch state with the keyboard ([Keyboard.v]), the claimed line ([Irq.v]) and the
    power registers ([Power.v]); a handler that never returns is [None]. *)
From stdpp Require Import base list numbers option gmap.
From S2P Require Import Prelude Thread Scheduler Process Dispatch Keyboard Ioapic Irq Power Syscall.

Open Scope Z_scope.

Module Interrupts.
Import Thread.Thread Scheduler.Scheduler Process.Process Dispatch.Dispatch.

(** What the handlers write to hardware. *)
Inductive Out := Lapic (reg v : Z) | Io (a : Power.io).

Record Machine := mkMachine {
  ds : DState;
  kbd : Keyboard.Keys;
  fb_owner : option Z;
  drv : Irq.State;
  power : option Power.PowerInfo;
  outs : list Out
}.
Definition set_ds (d : DState) (m : Machine) : Machine := mkMachine d (kbd m) (fb_owner m) (drv m) (power m) (outs m).
Definition set_drv (s : Irq.State) (m : Machine) : Machine := mkMachine (ds m) (kbd m) (fb_owner m) s (power m) (outs m).
Definition emit (l : list Out) (m : Machine) : Machine := mkMachine (ds m) (kbd m) (fb_owner m) (drv m) (power m) (outs m ++ l).
Definition USE_IOAPIC (m : Machine) : bool := Irq.use_ioapic (drv m).

(** ** End of interrupt *)

Definition lapic_eoi : list Out := [Lapic 0xB0 0].
Definition pic_eoi (irq : Z) : list Out :=
  (if 8 <=? irq then [Io (Power.Outb 0xA0 0x20)] else []) ++ [Io (Power.Outb 0x20 0x20)].

(** ** The tick counters *)

Definition kernel_cpu_ticks_for_cpu (cpu : nat) (d : DState) : Z := default 0 (kernel_ticks_cpu d !! cpu).
Definition idle_cpu_ticks_for_cpu (cpu : nat) (d : DState) : Z := default 0 (idle_ticks_cpu d !! cpu).
Definition user_cpu_ticks_for_cpu (cpu : nat) (d : DState) : Z := default 0 (user_ticks_cpu d !! cpu).

(** ** The handlers *)

(** The keyboard driver's view of the machine, and back. *)
Definition keyboard_of (m : Machine) : Keyboard.State := Keyboard.mkState (kbd m) (fb_owner m) (ps (ds m)).
Definition put_keyboard (k : Keyboard.State) (m : Machine) : Machine :=
  mkMachine (on_ps (fun _ => Keyboard.ps k) (ds m)) (Keyboard.keys k) (Keyboard.owner k) (drv m) (power m) (outs m).

(** The common frame of the handlers: [entry_cr3] is restored at the end. *)
Definition guarded (cpu : nat) (body : Machine -> Machine) (m : Machine) : Machine :=
  let entry := cr3_of cpu (ds m) in
  let m := body m in
  set_ds (restore_entry_cr3 cpu entry (ds m)) m.

(** [reads] is what the keyboard controller answers. *)
Definition keyboard_handler_inner (cpu : nat) (reads : list (Z * Z)) : Machine -> Machine :=
  guarded cpu (fun m =>
    let m := put_keyboard (snd (Keyboard.poll reads (keyboard_of m))) m in
    emit (if USE_IOAPIC m then lapic_eoi else pic_eoi 1) m).

Definition wakeup_irq_waiter (irq : Z) (m : Machine) : Machine :=
  set_ds (on_threads (fun t => snd (Thread.wakeup_irq_waiter irq t)) (ds m)) m.

Definition mouse_irq_handler_inner (cpu : nat) : Machine -> Machine :=
  guarded cpu (fun m =>
    let m := wakeup_irq_waiter 12 m in
    emit (if USE_IOAPIC m then lapic_eoi else pic_eoi 12) m).

(** The claimed line, over the claim of [Irq.v] with this machine's processes. *)
Definition irq_of (m : Machine) : Irq.State := Irq.set_ps (ps (ds m)) (drv m).
Definition put_irq (s : Irq.State) (m : Machine) : Machine :=
  set_drv s (set_ds (on_ps (fun _ => Irq.ps s) (ds m)) m).

Definition hda_irq_handler_inner (cpu : nat) : Machine -> Machine :=
  guarded cpu (fun m =>
    let irq := Irq.claimed_driver_irq (irq_of m) in
    let m := put_irq (Irq.hda_irq_handler (irq_of m)) m in
    emit (if USE_IOAPIC m then lapic_eoi else if negb (irq =? 0) then pic_eoi irq else []) m).

(** [shutdown] does not return: the power button was pressed. *)
Definition pressed (inw : Z -> Z) (p : option Power.PowerInfo) : bool :=
  match p with
  | Some info =>
      Power.power_button_fixed info && negb (Power.pm1a_evt_blk info =? 0) &&
      negb (Z.land (inw (Power.pm1a_evt_blk info)) Power.PWRBTN_BIT =? 0)
  | None => false
  end.

Definition sci_handler_inner (cpu : nat) (inw : Z -> Z) (m : Machine) : option Machine :=
  if pressed inw (power m) then None
  else Some (guarded cpu (fun m =>
    let m := emit (Io <$> Power.handle_power_button inw (power m)) m in
    emit (if USE_IOAPIC m then lapic_eoi else []) m) m).

(** ** The stubs *)

(** What the stub and, before it, the processor pushed, from the lowest address. *)
Definition interrupt_frame (g : Regs) : list Z :=
  [g_r15 g; g_r14 g; g_r13 g; g_r12 g; g_rbp g; g_rbx g; g_r11 g; g_r10 g; g_r9 g; g_r8 g; g_rdi g; g_rsi g; g_rdx g; g_rcx g; g_rax g;
   g_rip g; g_cs g; g_rflags g; g_rsp g; g_ss g].

Definition ring3 (g : Regs) : bool := Z.land (g_cs g) 3 =? 3.
Definition frame_ptr (cpu : nat) (g : Regs) (d : DState) : Z :=
  (if ring3 g then default 0 (tss_rsp0 d !! cpu) else g_rsp g - g_rsp g mod 16) - 160.
Definition push_all (cpu : nat) (g : Regs) (d : DState) : Z * DState :=
  let p := frame_ptr cpu g d in
  (p, on_threads (fun x => set_kmem (write_words p (interrupt_frame g) (kmem x)) x) d).

Definition device_stub (inner : Machine -> option Machine) (cpu : nat) (g : Regs) (m : Machine) : option (Regs * Machine) :=
  let '(p, d) := push_all cpu g (ds m) in
  m' ← inner (set_ds d m); Some (pop_timer (kmem (tst (ds m'))) p, m').

Definition timer_stub `{TeardownEffects} (temp_top : nat -> Z) (idle : Z) (poll : PState -> PState)
    (cpu : nat) (now : Z) (g : Regs) (d : DState) : Regs * DState :=
  let '(p, d) := push_all cpu g d in
  let '(r, d) := timer_handler temp_top idle poll cpu now p (ring3 g) d in
  (pop_timer (kmem (tst d)) (if r =? 0 then p else r), d).

(** The device interrupts with what they read from hardware. *)
Inductive Device := DKeyboard (reads : list (Z * Z)) | DMouse | DAudio | DPower (inw : Z -> Z).
Definition handler (dev : Device) (cpu : nat) (m : Machine) : option Machine :=
  match dev with
  | DKeyboard reads => Some (keyboard_handler_inner cpu reads m)
  | DMouse => Some (mouse_irq_handler_inner cpu m)
  | DAudio => Some (hda_irq_handler_inner cpu m)
  | DPower inw => sci_handler_inner cpu inw m
  end.

(** * Kernel memory and the running threads *)

(** What an interrupted thread relies on: the saved words, who runs where, and that its
    entry is still there. *)
Definition tids (t : TState) : list Z := tid <$> threads t.
Definition same_threads (t u : TState) : Prop := kmem u = kmem t /\ tids u = tids t.
Definition same_run (p q : PState) : Prop := same_threads (ts p) (ts q) /\ ss q = ss p.

#[export] Instance same_threads_preorder : PreOrder same_threads.
Proof. split; [by intros ?|]. intros p q r [A B] [C D]. split; congruence. Qed.

#[export] Instance same_run_preorder : PreOrder same_run.
Proof. split; [by intros ?|]. intros p q r [A B] [C D]. split; [by etransitivity|congruence]. Qed.

Lemma modify_same (id : Z) (f : Thread -> Thread) (t : TState) : (forall u, tid (f u) = tid u) -> same_threads t (Thread.modify id f t).
Proof. intros Hf. split; [done|]. by apply tids_modify. Qed.
Lemma wake_first_same (P : Thread -> bool) (v : Z) (t : TState) : same_threads t (snd (wake_first P v t)).
Proof.
  unfold wake_first. destruct (find_first P (threads t)); [|reflexivity]. split; [done|]. apply update_first_map. intros x _. apply tid_wake.
Qed.
Lemma wake_all_same (P : Thread -> bool) (v : Z) (t : TState) : same_threads t (wake_all P v t).
Proof.
  split; [done|]. unfold tids, wake_all. simpl. rewrite <-list_fmap_compose. apply list_fmap_ext. intros i x _.
  unfold compose. destruct (P x); [apply tid_wake|done].
Qed.
Lemma ready_same (id : Z) (t : TState) : same_threads t (Thread.set_ready id t).
Proof. apply modify_same. intros u. by destruct (t_state u). Qed.
Lemma pending_same (id : Z) (t : TState) : same_threads t (apply_blocking_return_if_pending id t).2.
Proof.
  unfold apply_blocking_return_if_pending. destruct (Thread.find id t) as [u|]; [|reflexivity]. destruct (_ =? 0); [reflexivity|].
  apply modify_same. intros x. etransitivity; [apply tid_restore|done].
Qed.
Lemma interrupt_same (id : Z) (t : TState) : same_threads t (interrupt_thread id t).
Proof.
  unfold interrupt_thread. destruct (Thread.state id t) as [[]|]; try reflexivity. etransitivity; [apply (pending_same id)|].
  etransitivity; [apply (ready_same id)|]. by apply modify_same.
Qed.

Lemma sigint_run (i : Z) (p : PState) : same_run p (send_sigint i p).
Proof.
  unfold send_sigint, kill_pid, on_main. destruct (find i p) as [q|]; [|reflexivity]. destruct (_ <=? _); [reflexivity|].
  destruct (sigint_catch q); [destruct (p_main q); split; try done; apply interrupt_same|].
  destruct (i =? 0); [reflexivity|]. destruct (main_tid _ _); split; try done; apply ready_same.
Qed.

Lemma push_byte_run (ch : Z) (s : Keyboard.State) : same_run (Keyboard.ps s) (Keyboard.ps (Keyboard.push_byte ch s)).
Proof.
  unfold Keyboard.push_byte. destruct (if ch =? 3 then _ else _) as [pid|]; [apply sigint_run|].
  unfold Keyboard.deliver, Keyboard.wake_reader, wakeup_key_waiter_for_pid, wakeup_key_waiters.
  pose proof (fun P v => wake_first_same P v (ts (Keyboard.ps s))) as Hw.
  destruct (Keyboard.owner s) as [o|];
    match goal with |- context [wake_first ?P ?v ?t] => specialize (Hw P v); destruct (wake_first P v t) as [b x] end;
    cbn [snd] in Hw; destruct (0 <? (if b then 1 else 0)); by split.
Qed.

Lemma emit_key_ps (code : Z) (r : bool) (s : Keyboard.State) : Keyboard.ps (Keyboard.emit_key code r s) = Keyboard.ps s.
Proof. unfold Keyboard.emit_key, Keyboard.push_event. by destruct (Keyboard.owner s). Qed.

Lemma decode_run (sc : Z) (s : Keyboard.State) : same_run (Keyboard.ps s) (Keyboard.ps (Keyboard.decode sc s)).
Proof.
  unfold Keyboard.decode, Keyboard.decode_extended, Keyboard.decode_plain, Keyboard.decode_char, Keyboard.modifier. cbv zeta.
  repeat (case_match || rewrite emit_key_ps); try reflexivity; apply (push_byte_run _ _) || (etransitivity; [|apply push_byte_run]; reflexivity).
Qed.

Lemma poll_run (reads : list (Z * Z)) (s : Keyboard.State) : same_run (Keyboard.ps s) (Keyboard.ps (snd (Keyboard.poll reads s))).
Proof.
  unfold Keyboard.poll. generalize 32%nat. intros n. revert reads s.
  induction n as [|n IH]; intros reads s; [by destruct reads|]. destruct reads as [|[st sc] reads]; [reflexivity|]. cbn [Keyboard.poll_loop].
  destruct (_ =? 0); [reflexivity|]. destruct (negb _); [reflexivity|]. etransitivity; [apply (decode_run sc)|apply IH].
Qed.
(** * The device interrupts *)

Lemma frame_popped (p : Z) (g : Regs) (m : gmap Z Z) : pop_timer (write_words p (interrupt_frame g) m) p = g.
Proof. unfold pop_timer. cbv zeta. read_words. by destruct g. Qed.

Lemma write_words_outside (p : Z) (l : list Z) (m : gmap Z Z) (a : Z) :
  ~ (p <= a < p + 8 * Z.of_nat (length l)) -> write_words p l m !! a = m !! a.
Proof.
  revert p m. induction l as [|x l IH]; intros p m Ha; [done|].
  change (write_words p (x :: l) m) with (write_words (p + 8) l (<[p := x]> m)). cbn [length] in Ha.
  rewrite IH by lia. by rewrite lookup_insert_ne by lia.
Qed.

Definition is_lapic (o : Out) : Prop := match o with Lapic _ _ => True | Io _ => False end.
#[export] Instance is_lapic_dec (o : Out) : Decision (is_lapic o).
Proof. destruct o; apply _. Defined.

Lemma filter_io (l : list Power.io) : filter is_lapic (Io <$> l) = [].
Proof. induction l; [done|]. rewrite fmap_cons, filter_cons. by rewrite decide_False by (intros []). Qed.

(** What a handler may do: wake threads and write to hardware. *)
Definition quiet (m m' : Machine) : Prop :=
  same_run (ps (ds m)) (ps (ds m')) /\ active_cr3 (ds m') = active_cr3 (ds m) /\
  exists l, outs m' = outs m ++ l /\ filter is_lapic l = if USE_IOAPIC m then lapic_eoi else [].

Lemma guarded_quiet (cpu : nat) (body : Machine -> Machine) (m : Machine) : quiet m (body m) -> quiet m (guarded cpu body m).
Proof.
  intros (R & C & O). unfold guarded. assert (restore_entry_cr3 cpu (cr3_of cpu (ds m)) (ds (body m)) = ds (body m)) as ->.
  { unfold restore_entry_cr3, cr3_of. by rewrite C, Z.eqb_refl. }
  by split_and!.
Qed.

Lemma quiet_emit (m m' : Machine) (l : list Out) :
  same_run (ps (ds m)) (ps (ds m')) -> active_cr3 (ds m') = active_cr3 (ds m) -> outs m' = outs m ->
  filter is_lapic l = (if USE_IOAPIC m then lapic_eoi else []) -> quiet m (emit l m').
Proof. intros R C O F. split; [done|]. split; [done|]. exists l. split; [|done]. simpl. by rewrite O. Qed.

Lemma handler_quiet (dev : Device) (cpu : nat) (m m' : Machine) : handler dev cpu m = Some m' -> quiet m m'.
Proof.
  destruct dev as [reads| | |inw]; cbn [handler]; [intros [= <-]..|].
  - apply guarded_quiet, quiet_emit; try done; [apply poll_run|]. by destruct (USE_IOAPIC m) eqn:E; unfold USE_IOAPIC in *; simpl; rewrite E.
  - apply guarded_quiet, quiet_emit; try done; [split; [apply wake_first_same|done]|]. by destruct (USE_IOAPIC m) eqn:E; unfold USE_IOAPIC in *; simpl; rewrite E.
  - assert (same_run (ps (ds m)) (Irq.ps (Irq.hda_irq_handler (irq_of m))) /\ Irq.use_ioapic (Irq.hda_irq_handler (irq_of m)) = USE_IOAPIC m) as [R U].
    { unfold Irq.hda_irq_handler. destruct (negb _); [|by split; [split|]]. unfold Irq.mask_driver_irq.
      destruct (Ioapic.mask_driver_irq _ _ _) as [b l]. split; [split; [apply wake_first_same|done]|done]. }
    apply guarded_quiet, quiet_emit; try done. change (USE_IOAPIC (put_irq ?s m)) with (Irq.use_ioapic s). rewrite U.
    destruct (USE_IOAPIC m); [done|]. destruct (negb _); [|done]. unfold pic_eoi. by destruct (8 <=? _).
  - unfold sci_handler_inner. destruct (pressed _ _); [done|]. intros [= <-]. apply guarded_quiet.
    split; [by split|]. split; [done|]. exists ((Io <$> Power.handle_power_button inw (power m)) ++ (if USE_IOAPIC m then lapic_eoi else [])).
    split; [simpl; by rewrite app_assoc|]. rewrite filter_app, filter_io. by destruct (USE_IOAPIC m).
Qed.

(** A device interrupt leaves no trace in the code it interrupts.  Wherever and on
    whichever CPU the keyboard, the mouse, the audio device or the power button
    interrupts, in ring 3 or ring 0: when the stub returns, every register is as it was,
    the same page tables are loaded and the same threads run; of the kernel's stacks only
    the 160 bytes of the frame below the interrupted one were written; and with the I/O
    APIC in use exactly one end of interrupt was sent to the local APIC, otherwise none. *)
Theorem device_interrupt_transparent (dev : Device) (cpu : nat) (g g' : Regs) (m m' : Machine) :
  device_stub (handler dev cpu) cpu g m = Some (g', m') ->
  let p := frame_ptr cpu g (ds m) in
  g' = g /\ cr3_of cpu (ds m') = cr3_of cpu (ds m) /\ ss (ps (ds m')) = ss (ps (ds m)) /\
  (forall a, ~ (p <= a < p + 160) -> kmem (tst (ds m')) !! a = kmem (tst (ds m)) !! a) /\
  exists l, outs m' = outs m ++ l /\ filter is_lapic l = if USE_IOAPIC m then lapic_eoi else [].
Proof.
  intros Hs p. unfold device_stub, push_all in Hs. fold p in Hs.
  match type of Hs with context [handler dev cpu ?x] => destruct (handler dev cpu x) as [m1|] eqn:Hh; [|done] end.
  cbn [mbind option_bind] in Hs. injection Hs as <- <-. destruct (handler_quiet _ _ _ _ Hh) as ([[K _] S] & C & l & O & F).
  change (ts (ps (ds ?x))) with (tst (ds x)) in K. rewrite K. split; [apply frame_popped|]. split; [unfold cr3_of; by rewrite C|].
  split; [exact S|]. split; [intros a Ha; by apply write_words_outside|]. by exists l.
Qed.

(** * The timer in kernel code *)

Section Tick.
Context `{TeardownEffects}.
Variables (temp_top : nat -> Z) (idle : Z) (poll : PState -> PState).
Hypothesis poll_keeps : forall p, same_run p (poll p).

(** The tick up to the choice of the next thread changes no stack and no current thread. *)
Lemma account_run (cpu : nat) (delta : Z) (d : DState) : same_run (ps d) (ps (account cpu delta d)).
Proof.
  unfold account. destruct (delta =? 0); [reflexivity|]. destruct (current_user_pid _ _) as [i|].
  - destruct (current_user_tid _ _); split; try done. by apply modify_same.
  - destruct (is_idle _ _); [by split|]. unfold Process.add_cpu_ticks, on_main, charge. simpl.
    destruct (main_tid 0 (ps d)); split; try done. by apply modify_same.
Qed.

Definition ticked (cpu : nat) (now : Z) (d : DState) : DState :=
  let last := default 0 (last_tsc d !! cpu) in
  let d := account cpu (if last =? 0 then 0 else saturating_sub now last) (set_last_tsc cpu now d) in
  let d := if keyboard_polling d then on_ps poll d else d in
  on_threads (fun x => wake_tick_sleepers (wake_timer_sleepers now x)) d.

Lemma ticked_run (cpu : nat) (now : Z) (d : DState) : same_run (ps d) (ps (ticked cpu now d)).
Proof.
  unfold ticked. cbv zeta. set (d1 := account _ _ _).
  assert (same_run (ps d) (ps d1)) as H1 by (apply (account_run cpu _ (set_last_tsc cpu now d))).
  assert (same_run (ps d1) (ps (if keyboard_polling d1 then on_ps poll d1 else d1))) as H2 by (destruct (keyboard_polling d1); [apply poll_keeps|reflexivity]).
  etransitivity; [exact H1|]. etransitivity; [exact H2|]. split; [|done].
  etransitivity; [apply wake_all_same|]. apply wake_all_same.
Qed.

Lemma preempt_kmem (cur p : Z) (d : DState) : kmem (tst (preempt false cur p d)) = kmem (tst d).
Proof. unfold preempt. by destruct (cur =? 0). Qed.

Lemma switch_kmem (cpu : nat) (p next : Z) (d : DState) (a : Z) :
  ~ (temp_top cpu - 160 <= a < temp_top cpu) ->
  kmem (tst (snd (switch_to temp_top cpu false p next d))) !! a = kmem (tst d) !! a.
Proof.
  intros Ha. unfold switch_to. cbv zeta. destruct (if is_kernel_preempted _ _ then _ else _) as [rsp|].
  - cbn [snd]. rewrite Syscall.kmem_start, Syscall.kmem_load_rsp0. unfold resume_preempted. destruct (Thread.user_context _ _); [|done].
    change (kmem (tst (set_current_tid cpu ?o ?x))) with (kmem (tst x)). by rewrite Syscall.kmem_load_cr3.
  - set (d1 := on_threads _ d). assert (kmem (tst d1) = kmem (tst d)) as E1 by (by destruct (pending_same next (tst d))).
    destruct (Thread.user_context next (tst d1)) as [c|].
    + set (d2 := start _ _ _). assert (kmem (tst d2) = kmem (tst d)) as E2 by (unfold d2; by rewrite Syscall.kmem_start, Syscall.kmem_load_rsp0).
      set (d3 := if cr3 c =? 0 then d2 else _). assert (kmem (tst d3) = kmem (tst d)) as E3 by (unfold d3; by destruct (cr3 c =? 0)).
      cbn iota. unfold put_frame, setup_user_frame_for_timer_on_temp_stack. cbn [snd].
      change (kmem (tst (on_threads (set_kmem ?x) d3))) with x. rewrite write_words_outside; [by rewrite E3|].
      change (length (timer_frame c)) with 20%nat. lia.
    + destruct (Thread.kernel_rsp next (tst d1)) as [rsp|]; cbn [snd]; [rewrite Syscall.kmem_start|]; by rewrite <-E1.
Qed.

Lemma tick_kmem (cpu : nat) (now p : Z) (d : DState) (a : Z) :
  ~ (temp_top cpu - 160 <= a < temp_top cpu) ->
  kmem (tst (snd (timer_handler temp_top idle poll cpu now p false d))) !! a = kmem (tst d) !! a.
Proof.
  intros Ha. unfold timer_handler. cbv zeta. fold (ticked cpu now d).
  set (d1 := ticked cpu now d). assert (kmem (tst d1) = kmem (tst d)) as E1 by (by destruct (ticked_run cpu now d) as [[? _] _]).
  assert (reap cpu false (Process.current_tid cpu (ps d1)) d1 = (false, d1)) as -> by (unfold reap; by destruct (current_user_pid _ _)).
  cbn iota. set (d2 := preempt _ _ _ _). assert (kmem (tst d2) = kmem (tst d)) as E2 by (unfold d2; by rewrite preempt_kmem).
  destruct (_ =? 0).
  { cbn [snd]. unfold restore_entry_cr3. destruct (_ =? _); by rewrite <-E2. }
  set (d3 := on_ps _ d2). assert (kmem (tst d3) = kmem (tst d)) as E3 by exact E2.
  cbn [negb andb]. destruct (_ =? Process.current_tid _ _); cbn [snd].
  { unfold restore_entry_cr3. destruct (_ =? _); by rewrite <-E3. }
  destruct (_ && _); cbn [snd].
  { unfold restore_entry_cr3. destruct (_ =? _); by rewrite <-E3. }
  by rewrite switch_kmem, E3.
Qed.

(** The entry of a thread that was interrupted in the kernel. *)
Definition saved (id p : Z) (t : TState) : Prop :=
  exists u, Thread.find id t = Some u /\ t_kernel_rsp u = p /\ t_preempted u = true.

Lemma saved_modify (id p j : Z) (f : Thread -> Thread) (t : TState) :
  (forall u, tid (f u) = tid u) -> (j <> id \/ forall u, t_kernel_rsp (f u) = t_kernel_rsp u /\ t_preempted (f u) = t_preempted u) ->
  saved id p t -> saved id p (Thread.modify j f t).
Proof.
  intros Hf Hk (u & E & K & R). unfold saved. rewrite find_modify by done. destruct (id =? j) eqn:Ej; zbool; [|by exists u].
  subst j. rewrite E. destruct Hk as [?|Hk]; [done|]. exists (f u). destruct (Hk u) as [-> ->]. by split_and!.
Qed.

Lemma preempt_saves (id p : Z) (d : DState) : id <> 0 -> is_Some (Thread.find id (tst d)) -> saved id p (tst (preempt false id p d)).
Proof.
  intros Hid [u Hu]. unfold preempt. apply Z.eqb_neq in Hid as ->. cbv zeta iota.
  change (tst (on_threads ?f ?x)) with (f (tst x)). unfold Thread.set_ready. apply saved_modify.
  - intros x. by destruct (t_state x).
  - right. intros x. by destruct (t_state x).
  - change (tst (on_threads ?f ?x)) with (f (tst x)). cbv beta. unfold saved, set_kernel_preempted, save_kernel_context, Thread.set_kernel_rsp. rewrite !find_modify by done.
    rewrite Z.eqb_refl, Hu. simpl. by eexists.
Qed.

Lemma start_saved (id p : Z) (cpu : nat) (i : Z) (d : DState) : saved id p (tst d) -> saved id p (tst (start cpu i d)).
Proof.
  intros Hs. unfold start, Process.set_running, tst. cbn [on_ps ps]. destruct (current_user_tid cpu _); [|done].
  apply saved_modify; [intros u; by destruct (terminal _)|right; intros u; by destruct (terminal _)|done].
Qed.
Lemma load_rsp0_tst (cpu : nat) (id : Z) (d : DState) : tst (load_rsp0 cpu id d) = tst d.
Proof. unfold load_rsp0. by destruct (Thread.kernel_stack_top _ _). Qed.

Lemma switch_saved (id p : Z) (cpu : nat) (q next : Z) (d : DState) :
  next <> id -> saved id p (tst d) -> saved id p (tst (snd (switch_to temp_top cpu false q next d))).
Proof.
  intros Hn Hs. unfold switch_to. cbv zeta. destruct (if is_kernel_preempted _ _ then _ else _) as [rsp|]; cbn [snd].
  - apply start_saved. rewrite load_rsp0_tst. unfold resume_preempted, load_cr3. destruct (Thread.user_context _ _) as [c|]; [|done].
    by destruct (cr3 c =? 0).
  - set (d1 := on_threads _ d).
    assert (saved id p (tst d1)) as H1.
    { change (tst d1) with (apply_blocking_return_if_pending next (tst d)).2. unfold apply_blocking_return_if_pending.
      destruct (Thread.find next (tst d)) as [u|]; [|done]. destruct (_ =? 0); [done|]. cbn [snd].
      apply saved_modify; [intros x; etransitivity; [apply tid_restore|done]|by left|done]. }
    destruct (Thread.user_context next (tst d1)) as [c|]; [|destruct (Thread.kernel_rsp next (tst d1)); cbn [snd]; [by apply start_saved|done]].
    assert (saved id p (tst (start cpu (default 0 (thread_pid next (tst d))) (load_rsp0 cpu next (set_current_tid cpu (Some next) d1))))) as H2
      by (apply start_saved; by rewrite load_rsp0_tst).
    by destruct (cr3 c =? 0).
Qed.

Lemma tick_saved (cpu : nat) (now p id : Z) (d : DState) :
  id <> 0 -> current_user_tid cpu (ss (ps d)) = Some id -> is_Some (Thread.find id (tst d)) ->
  let '(r, d') := timer_handler temp_top idle poll cpu now p false d in r <> 0 -> saved id p (tst d').
Proof.
  intros Hid Hc Hf. unfold timer_handler. cbv zeta. fold (ticked cpu now d). set (d1 := ticked cpu now d).
  destruct (ticked_run cpu now d) as [[_ Ht] Hs]. fold d1 in Ht, Hs.
  assert (Process.current_tid cpu (ps d1) = id) as -> by (unfold Process.current_tid; by rewrite Hs, Hc).
  assert (reap cpu false id d1 = (false, d1)) as -> by (unfold reap; by destruct (current_user_pid _ _)). cbn iota.
  assert (saved id p (tst (preempt false id p d1))) as Hp.
  { apply preempt_saves; [done|]. destruct (Thread.find id (tst d1)) eqn:E; [done|]. exfalso. apply find_None in E. apply E.
    change (tid <$> threads (tst d1)) with (tids (ts (ps d1))). rewrite Ht. apply not_eq_None_Some in Hf.
    apply dec_stable. intros Hn. by apply Hf, find_None. }
  destruct (_ =? 0); [done|]. cbn [negb andb]. destruct (_ =? id) eqn:En; zbool; [done|].
  destruct (_ && _); [done|]. set (d2 := on_ps _ _). assert (saved id p (tst d2)) as H2 by done.
  pose proof (switch_saved id p cpu p _ d2 En H2) as H3. by destruct (switch_to _ _ _ _ _ _).
Qed.
End Tick.

Lemma frame_read (p : Z) (g : Regs) (m m' : gmap Z Z) :
  (forall a, p <= a < p + 160 -> m' !! a = write_words p (interrupt_frame g) m !! a) -> pop_timer m' p = g.
Proof.
  intros Hm. transitivity (pop_timer (write_words p (interrupt_frame g) m) p); [|apply frame_popped].
  unfold pop_timer, word. cbv zeta. by rewrite !Hm by lia.
Qed.

(** Kernel code that the timer interrupts goes on as if nothing had happened.  Whatever
    the tick does - account, poll the keyboard, wake sleepers, choose another thread:
    the frame of the interrupted code is still complete when the handler is done; if the
    handler keeps the stack, the code continues at once with every register as it was; if
    it switches, the thread is recorded as interrupted at that frame, and when it is later
    chosen with the frame unharmed it continues with every register as it was. *)
Theorem kernel_preempt_roundtrip `{TeardownEffects} (temp_top : nat -> Z) (idle : Z) (poll : PState -> PState)
    (cpu : nat) (now id : Z) (g : Regs) (d : DState) :
  (forall p, same_run p (poll p)) ->
  ring3 g = false -> current_user_tid cpu (ss (ps d)) = Some id -> id <> 0 -> is_Some (Thread.find id (tst d)) ->
  let p := frame_ptr cpu g d in
  p + 160 <= temp_top cpu - 160 \/ temp_top cpu <= p ->
  let '(r, d1) := timer_handler temp_top idle poll cpu now p false (push_all cpu g d).2 in
  pop_timer (kmem (tst d1)) p = g /\
  (r = 0 -> fst (timer_stub temp_top idle poll cpu now g d) = g) /\
  (r <> 0 -> saved id p (tst d1)) /\
  (forall d2 t, Syscall.chosen cpu id t d2 -> t_preempted t = true -> t_kernel_rsp t = p -> t_blocking_rsp t = 0 ->
     pop_timer (kmem (tst d2)) p = g ->
     exists d3, enter_next_process temp_top cpu d2 = (Some (LPreempted id p), d3) /\ Syscall.launch_regs (LPreempted id p) d3 = Some g).
Proof.
  intros Hpoll Hr Hc Hid Hf p Hd. pose proof (tick_kmem temp_top idle poll Hpoll cpu now p (push_all cpu g d).2) as Hk.
  pose proof (tick_saved temp_top idle poll Hpoll cpu now p id (push_all cpu g d).2 Hid Hc Hf) as Hs.
  unfold timer_stub, push_all. fold p. rewrite Hr. unfold push_all in Hk, Hs. fold p in Hk, Hs. cbn [snd] in *.
  destruct (timer_handler _ _ _ _ _ _ _ _) as [r d1]. cbn [snd] in Hk.
  assert (pop_timer (kmem (tst d1)) p = g) as Hg by (eapply frame_read; intros a Ha; rewrite Hk by lia; reflexivity).
  split; [done|]. split; [by intros ->|]. split; [exact Hs|].
  intros d2 t (_ & Hn & Ht & Hcpu) Hpre Hrsp Hb Hm. unfold enter_next_process. rewrite Hn. apply Z.eqb_neq in Hid as ->.
  unfold assigned_cpu. rewrite Ht. cbn [fmap option_fmap option_map default]. rewrite Hcpu, Z.eqb_refl. cbn [negb].
  unfold take_blocking_rsp. rewrite Ht, Hb. cbn iota. unfold is_kernel_preempted, Thread.kernel_rsp. rewrite Ht.
  cbn [fmap option_fmap option_map default from_option Datatypes.id]. rewrite Hpre, Hrsp. eexists. split; [done|]. cbn [Syscall.launch_regs].
  rewrite Syscall.kmem_start, Syscall.kmem_load_rsp0. unfold resume_preempted. destruct (Thread.user_context _ _); [|by rewrite <-Hm].
  change (kmem (tst (set_current_tid cpu ?o ?x))) with (kmem (tst x)). by rewrite Syscall.kmem_load_cr3, Hm.
Qed.

Module Example.
#[local] Instance idle_effects : TeardownEffects := {| effect _ s := s |}.

(** Thread 1 of process 5 runs on CPU 0; the audio driver waits for line 11. *)
Definition machine : Machine :=
  mkMachine Syscall.Example.state (Keyboard.keys Keyboard.Example.st) None (Irq.Example.claimed Irq.Example.waiting) None [].
(** The key "a" is pressed. *)
Definition key_a : Device := DKeyboard [(1, 30); (0, 0)].

Lemma device_interrupt_transparent_witness :
  exists m', device_stub (handler key_a 0) 0 Syscall.Example.regs machine = Some (Syscall.Example.regs, m') /\
    cr3_of 0 (ds m') = 4096 /\ exists l, outs m' = l /\ filter is_lapic l = lapic_eoi.
Proof.
  destruct (device_stub (handler key_a 0) 0 Syscall.Example.regs machine) as [[g' m']|] eqn:E; [|vm_compute in E; discriminate].
  destruct (device_interrupt_transparent key_a 0 Syscall.Example.regs g' machine m' E) as (-> & C & _ & _ & l & O & F).
  exists m'. split; [done|]. split; [exact C|]. exists l. split; [exact O|exact F].
Defined.

(** The same thread inside the kernel, at 60000 of its kernel stack. *)
Definition kernel_regs : Regs := mkRegs 1 2 3 4 5 6 7 8 9 10 11 12 13 14 15 1048576 KERNEL_CODE 518 60000 KERNEL_DATA.

Lemma kernel_preempt_roundtrip_witness :
  let '(r, d1) := timer_handler (fun _ => 98304) 4096 id 0 77 59840 false (push_all 0 kernel_regs Syscall.Example.state).2 in
  pop_timer (kmem (tst d1)) 59840 = kernel_regs /\ (r = 0 -> fst (timer_stub (fun _ => 98304) 4096 id 0 77 kernel_regs Syscall.Example.state) = kernel_regs).
Proof.
  assert (forall p : PState, same_run p (id p)) as Hp by reflexivity.
  assert (frame_ptr 0 kernel_regs Syscall.Example.state + 160 <= 98304 - 160) as Hd by (vm_compute; discriminate).
  assert (is_Some (Thread.find 1 (tst Syscall.Example.state))) as Hf by (by eexists).
  pose proof (kernel_preempt_roundtrip (fun _ => 98304) 4096 id 0 77 1 kernel_regs Syscall.Example.state
    Hp eq_refl eq_refl ltac:(discriminate) Hf (or_introl Hd)) as H.
  change (frame_ptr 0 kernel_regs Syscall.Example.state) with 59840 in H.
  destruct (timer_handler _ _ _ _ _ _ _ _) as [r d1]. destruct H as (A & B & _). by split.
Defined.
End Example.

End Interrupts.
