(* ===== verification/DriverRt.v ===== *)
(** The runtime of user-mode drivers, [userspace/runtime/driver_runtime.rs]: the system
    call wrappers, the life cycle of [_start] and the allocator.

    A driver talks to the kernel and to its device by events: system calls, port
    accesses and accesses to mapped registers.  The kernel and the device together are
    an arbitrary function from the events so far, with their answers, to the next
    answer; a driver is a program in the monad that threads that log. *)
From stdpp Require Import base list numbers option strings sets.
From S2P Require Import Prelude Handlers Shell.

Open Scope Z_scope.

Declare Scope driver_scope.
Delimit Scope driver_scope with driver.

Module DriverRt.
Import Handlers.

Inductive Ev :=
  | Sys (number a0 a1 a2 : Z)                       (* a call; pointers to locals are 0 *)
  | SysData (number a0 : Z) (data : list Z)         (* a call that passes a buffer *)
  | In8 (port : Z) | Out8 (port v : Z)
  | Rd (width addr : Z) | Wr (width addr v : Z).    (* mapped registers; width in bytes *)

(** The result register, or the value read, and the bytes stored in the caller's buffer. *)
Record Reply := mkReply { r_val : Z; r_data : list Z }.
Definition Log : Type := list (Ev * Reply).

Definition M (A : Type) : Type := Log -> A * Log.
Definition ret {A : Type} (a : A) : M A := fun log => (a, log).
Definition bind {A B : Type} (m : M A) (k : A -> M B) : M B := fun log => let '(a, log) := m log in k a log.

#[global] Notation "x <- m ;; k" := (bind m (fun x => k)) (at level 60, m at next level, right associativity) : driver_scope.
#[global] Notation "m ;;; k" := (bind m (fun _ => k)) (at level 60, right associativity) : driver_scope.

(** ** The wrappers *)

Section Calls.
Variable env : Log -> Ev -> Reply.
Open Scope driver_scope.

Definition event (e : Ev) : M Reply := fun log => let r := env log e in (r, log ++ [(e, r)]).
Definition do_ (e : Ev) : M unit := event e;;; ret tt.
Definition call (e : Ev) : M Z := r <- event e;; ret (r_val r).

Definition sys_write_raw (b : list Z) : M unit := do_ (SysData SYS_CONSOLE_WRITE 0 b).
(** [println!] of a fixed text. *)
Definition println (s : string) : M unit := sys_write_raw (Shell.bytes s);;; sys_write_raw Shell.CRLF.
Definition sys_exit (code : Z) : M unit := do_ (Sys SYS_EXIT code 0 0).
Definition sys_sleep_tick : M unit := do_ (Sys SYS_SLEEP 1 2 0).
Definition sys_sleep (ms : Z) : M unit := do_ (Sys SYS_SLEEP ms 0 0).
Definition sys_signal_catch (enable : bool) : M unit := do_ (Sys SYS_SIGNAL_CATCH (if enable then 1 else 0) 0 0).
Definition sys_signal_check : M bool := r <- call (Sys SYS_SIGNAL_CHECK 0 0 0);; ret (negb (r =? 0)).
Definition sys_irq_wait (irq : Z) : M bool := r <- call (Sys SYS_IRQ_WAIT irq 0 0);; ret (negb (r =? u64_max)).
Definition sys_ioport_request (port count : Z) : M bool := r <- call (Sys SYS_IOPORT_REQUEST port count 0);; ret (negb (r =? u64_max)).
Definition sys_heap_alloc (size : Z) : M Z := call (Sys SYS_HEAP_ALLOC size 0 0).
Definition sys_heap_free (ptr : Z) : M Z := call (Sys SYS_HEAP_FREE ptr 0 0).

Definition sys_shm_create (size : Z) : M Z := call (Sys SYS_SHM_CREATE size 0 0).
Definition sys_shm_grant (id pid : Z) : M Z := call (Sys SYS_SHM_GRANT id pid 0).
Definition sys_shm_map (id : Z) : M Z := call (Sys SYS_SHM_MAP id 0 0).
Definition sys_shm_unmap (id : Z) : M Z := call (Sys SYS_SHM_UNMAP id 0 0).
Definition sys_shm_close (id : Z) : M Z := call (Sys SYS_SHM_CLOSE id 0 0).
Definition sys_driver_load (path : list Z) : M Z := call (SysData SYS_DRIVER_LOAD 0 path).
Definition sys_driver_unload (id : Z) : M bool := r <- call (Sys SYS_DRIVER_UNLOAD id 0 0);; ret (negb (r =? u64_max)).
Definition sys_driver_list (cap : Z) : M (Z * list Z) := r <- event (Sys SYS_DRIVER_LIST 0 cap 0);; ret (r_val r, r_data r).
Definition sys_driver_info (id : Z) : M (bool * list Z) := r <- event (Sys SYS_DRIVER_INFO id 0 0);; ret (negb (r_val r =? u64_max), r_data r).

Record PciDeviceInfo := mkPci { p_bus : Z; p_device : Z; p_function : Z; p_class : Z; p_subclass : Z }.
(** The bytes of the [repr(C)] record. *)
Definition pci_of (b : list Z) : PciDeviceInfo :=
  let at_ i := default 0 (b !! i) in mkPci (at_ 0%nat) (at_ 1%nat) (at_ 2%nat) (at_ 8%nat) (at_ 9%nat).
Definition sys_pci_info (index : Z) : M (Z * PciDeviceInfo) := r <- event (Sys SYS_PCI_INFO index 0 0);; ret (r_val r, pci_of (r_data r)).
Definition sys_pci_enable (bdf : Z) : M Z := call (Sys SYS_PCI_ENABLE bdf 0 0).
Definition sys_pci_disable (bdf : Z) : M bool := r <- call (Sys SYS_PCI_DISABLE bdf 0 0);; ret (negb (r =? u64_max)).
Definition sys_irq_claim (bdf : Z) : M (option Z) :=
  r <- call (Sys SYS_IRQ_CLAIM bdf 0 0);; ret (if r =? u64_max then None else Some (r mod 256)).
Definition sys_irq_release (irq : Z) : M bool := r <- call (Sys SYS_IRQ_RELEASE irq 0 0);; ret (r =? 0).
Definition sys_irq_ack (irq : Z) : M bool := r <- call (Sys SYS_IRQ_ACK irq 0 0);; ret (r =? 0).
Definition sys_thread_spawn (entry arg stack_top : Z) : M Z := call (Sys SYS_THREAD_SPAWN entry arg stack_top).
Definition sys_thread_exit : M unit := do_ (Sys SYS_THREAD_EXIT 0 0 0).
Definition sys_thread_join (tid : Z) : M Z := call (Sys SYS_THREAD_JOIN tid 0 0).
Definition sys_dma_alloc (size : Z) : M (option (Z * Z)) :=
  r <- event (Sys SYS_DMA_ALLOC size 0 0);; ret (if r_val r =? u64_max then None else Some (r_val r, from_le (take 8 (r_data r)))).
Definition sys_dma_free (virt : Z) : M bool := r <- call (Sys SYS_DMA_FREE virt 0 0);; ret (r =? 0).
Definition sys_pci_bar_map (bdf bar_index : Z) : M Z := call (Sys SYS_PCI_BAR_MAP bdf bar_index 0).
Definition sys_pci_bar_unmap (va : Z) : M Z := call (Sys SYS_PCI_BAR_UNMAP va 0 0).
Definition sys_ipc_open (name : list Z) : M Z := call (SysData SYS_IPC_OPEN 0 name).
Definition sys_ipc_send (channel : Z) (data : list Z) : M Z := call (SysData SYS_IPC_SEND channel data).
(** The length, and the buffer of [cap] bytes with the message. *)
Definition sys_ipc_recv (channel cap : Z) : M (Z * list Z) :=
  r <- event (Sys SYS_IPC_RECV channel 0 cap);; ret (r_val r, r_data r).

(** ** The life cycle *)

Class Driver (S : Type) := { kdm_init : M (option S); kdm_run : S -> M (option S); kdm_exit : S -> M unit }.

(** [_start]; [None] from [kdm_init] is its [false], from [kdm_run] that it did not end
    within the fuel of the instance. *)
Definition start {S : Type} `{Driver S} : M bool :=
  sys_signal_catch true;;;
  o <- kdm_init;;
  match o with
  | None => sys_exit 1;;; ret true
  | Some s =>
      o <- kdm_run s;;
      match o with
      | None => ret false
      | Some s => kdm_exit s;;; sys_exit 0;;; ret true
      end
  end.

(** ** The allocator *)

(** [KazuAlloc]: a null pointer is [None]. *)
Definition alloc (size : Z) : M (option Z) := ptr <- sys_heap_alloc size;; ret (if ptr =? 0 then None else Some ptr).
Definition dealloc (ptr : Z) : M unit := sys_heap_free ptr;;; ret tt.

(** ** Polling *)

(** [for _ in 0..n { if check { break; } nap; }] *)
Fixpoint poll (n : nat) (check : M bool) (nap : M unit) : M unit :=
  match n with
  | O => ret tt
  | S n' => b <- check;; if b : bool then ret tt else nap;;; poll n' check nap
  end.
End Calls.

(** * Programs that hold no resource *)

(** A call that takes or gives back something: device windows, DMA buffers, lines. *)
Definition takes (e : Ev) : bool :=
  match e with
  | Sys n _ _ _ => existsb (Z.eqb n) [SYS_PCI_BAR_MAP; SYS_PCI_BAR_UNMAP; SYS_DMA_ALLOC; SYS_DMA_FREE; SYS_IRQ_CLAIM; SYS_IRQ_RELEASE]
  | _ => false
  end.

(** A program that only extends the log, by events that satisfy [P]. *)
Definition extends {A : Type} (P : Ev -> bool) (m : M A) : Prop :=
  forall log, exists l, snd (m log) = log ++ l /\ Forall (fun er => P (fst er) = true) l.
Definition keeps {A : Type} (m : M A) : Prop := extends (fun e => negb (takes e)) m.

Lemma extends_ret {A : Type} (P : Ev -> bool) (a : A) : extends P (ret a).
Proof. intros log. exists []. rewrite app_nil_r. by split. Qed.
Lemma extends_bind {A B : Type} (P : Ev -> bool) (m : M A) (k : A -> M B) :
  extends P m -> (forall a, extends P (k a)) -> extends P (bind m k).
Proof.
  intros Hm Hk log. unfold bind. destruct (Hm log) as (l1 & E1 & F1). destruct (m log) as [a log1]. simpl in E1. subst log1.
  destruct (Hk a (log ++ l1)) as (l2 & E2 & F2). exists (l1 ++ l2). rewrite E2, app_assoc. split; [done|]. by apply Forall_app.
Qed.
Lemma extends_event (P : Ev -> bool) (env : Log -> Ev -> Reply) (e : Ev) : P e = true -> extends P (event env e).
Proof. intros He log. eexists. split; [done|]. by constructor. Qed.
Lemma extends_poll (P : Ev -> bool) (n : nat) (check : M bool) (nap : M unit) :
  extends P check -> extends P nap -> extends P (poll n check nap).
Proof.
  intros Hc Hn. induction n as [|n IH]; simpl; [apply extends_ret|]. apply extends_bind; [done|]. intros [].
  - apply extends_ret.
  - by apply extends_bind.
Qed.

(** * What a program holds *)

Inductive Res := RWindow (va : Z) | RDma (va : Z) | RLine (irq : Z).
#[export] Instance Res_eq_dec : EqDecision Res.
Proof. solve_decision. Defined.

Fixpoint drop_one (x : Res) (l : list Res) : list Res :=
  match l with [] => [] | y :: l' => if decide (y = x) then l' else y :: drop_one x l' end.

(** The effect of an event on what is held. *)
Definition settle (held : list Res) (er : Ev * Reply) : list Res :=
  match er with
  | (Sys n a _ _, r) =>
      let v := r_val r in
      if n =? SYS_PCI_BAR_MAP then (if v =? u64_max then held else RWindow v :: held)
      else if n =? SYS_PCI_BAR_UNMAP then drop_one (RWindow a) held
      else if n =? SYS_DMA_ALLOC then (if v =? u64_max then held else RDma v :: held)
      else if n =? SYS_DMA_FREE then drop_one (RDma a) held
      else if n =? SYS_IRQ_CLAIM then (if v =? u64_max then held else RLine (v mod 256) :: held)
      else if n =? SYS_IRQ_RELEASE then drop_one (RLine a) held
      else held
  | _ => held
  end.
Definition held (log : Log) : list Res := foldl settle [] log.

Lemma settle_neutral (h : list Res) (er : Ev * Reply) : takes (fst er) = false -> settle h er = h.
Proof.
  destruct er as [[n a b c| | | | |] r]; [|done..]. cbn [takes fst]. intros Ht. unfold settle.
  assert (forall k, k ∈ [SYS_PCI_BAR_MAP; SYS_PCI_BAR_UNMAP; SYS_DMA_ALLOC; SYS_DMA_FREE; SYS_IRQ_CLAIM; SYS_IRQ_RELEASE] -> (n =? k) = false) as Hk.
  { intros k Hk. destruct (n =? k) eqn:E; [|done]. exfalso.
    assert (existsb (Z.eqb n) [SYS_PCI_BAR_MAP; SYS_PCI_BAR_UNMAP; SYS_DMA_ALLOC; SYS_DMA_FREE; SYS_IRQ_CLAIM; SYS_IRQ_RELEASE] = true) as He; [|congruence].
    apply existsb_exists. exists k. split; [by apply list_elem_of_In|done]. }
  rewrite !Hk by set_solver. done.
Qed.

Lemma held_keeps (log l : Log) : Forall (fun er => negb (takes (fst er)) = true) l -> held (log ++ l) = held log.
Proof.
  unfold held. rewrite foldl_app. generalize (foldl settle [] log). induction l as [|er l IH]; intros h Hl; [done|]. simpl.
  apply Forall_cons in Hl as [He Hl]. rewrite settle_neutral by (by apply negb_true_iff). by apply IH.
Qed.

(** A small program logic: from holding [L], [m] ends with a result and holdings in [Q]. *)
Definition spec {A : Type} (L : list Res) (m : M A) (Q : A -> list Res -> Prop) : Prop :=
  forall log, held log = L -> let '(a, log') := m log in Q a (held log').

Lemma spec_ret {A : Type} (L : list Res) (a : A) (Q : A -> list Res -> Prop) : Q a L -> spec L (ret a) Q.
Proof. intros HQ log <-. done. Qed.
Lemma spec_bind {A B : Type} (L : list Res) (m : M A) (k : A -> M B) (R : A -> list Res -> Prop) (Q : B -> list Res -> Prop) :
  spec L m R -> (forall a L', R a L' -> spec L' (k a) Q) -> spec L (bind m k) Q.
Proof.
  intros Hm Hk log HL. unfold bind. specialize (Hm log HL). destruct (m log) as [a log']. exact (Hk a _ Hm log' eq_refl).
Qed.
(** A step that holds nothing new. *)
Lemma spec_keeps {A B : Type} (L : list Res) (m : M A) (k : A -> M B) (Q : B -> list Res -> Prop) :
  keeps m -> (forall a, spec L (k a) Q) -> spec L (bind m k) Q.
Proof.
  intros Hm Hk. apply (spec_bind L m k (fun _ L' => L' = L)); [|by intros a L' ->].
  intros log HL. destruct (Hm log) as (l & E & F). destruct (m log) as [a log']. simpl in E. subst log'. by rewrite held_keeps.
Qed.
Lemma spec_event {B : Type} (env : Log -> Ev -> Reply) (L : list Res) (e : Ev) (k : Reply -> M B) (Q : B -> list Res -> Prop) :
  (forall r, (exists log, r = env log e) -> spec (settle L (e, r)) (k r) Q) -> spec L (bind (event env e) k) Q.
Proof.
  intros Hk log HL. unfold bind, event. specialize (Hk (env log e) (ex_intro _ log eq_refl) (log ++ [(e, env log e)])).
  unfold held in Hk at 1. rewrite foldl_app in Hk. fold (held log) in Hk. rewrite HL in Hk. by apply Hk.
Qed.

(** Binding associates. *)
Lemma spec_assoc {A B C : Type} (L : list Res) (m : M A) (f : A -> M B) (k : B -> M C) (Q : C -> list Res -> Prop) :
  spec L (bind m (fun a => bind (f a) k)) Q -> spec L (bind (bind m f) k) Q.
Proof. intros Hs log HL. specialize (Hs log HL). unfold bind in *. by destruct (m log). Qed.
Lemma spec_ret_bind {A B : Type} (L : list Res) (a : A) (k : A -> M B) (Q : B -> list Res -> Prop) :
  spec L (k a) Q -> spec L (bind (ret a) k) Q.
Proof. intros Hs log HL. exact (Hs log HL). Qed.

Lemma drop_here (x : Res) (l : list Res) : drop_one x (x :: l) = l.
Proof. simpl. by rewrite decide_True. Qed.

(** The allocator of a driver hands out an invalid pointer when memory runs out.  The
    kernel answers a failed [SYS_HEAP_ALLOC] with [u64::MAX]; the allocator tests for 0,
    so it returns that value as the address of the new object instead of failing. *)
Theorem driver_alloc_misses_failure (env : Log -> Ev -> Reply) (size : Z) (log : Log) :
  r_val (env log (Sys SYS_HEAP_ALLOC size 0 0)) = u64_max ->
  fst (alloc env size log) = Some u64_max.
Proof. intros Hr. unfold alloc, sys_heap_alloc, call, event, bind, ret. cbn [fst]. by rewrite Hr. Qed.

End DriverRt.
