(* ===== verification/Hda.v ===== *)
(** The audio driver, [userspace/drivers/hda.rs]: controller reset, codec verbs and
    discovery, the ring of four chunks that the controller plays, and the driver's life
    cycle with its interrupt thread.

    Registers and system calls are events of [DriverRt.v].  The DMA buffers (the buffer
    descriptor list and the sample ring) belong to the state of the driver. *)
From stdpp Require Import base list numbers option strings.
From S2P Require Import Prelude Handlers DriverRt.

Open Scope Z_scope.

Module Hda.
Import Handlers DriverRt.
Open Scope driver_scope.

Definition HDA_GCAP : Z := 0.
Definition HDA_GCTL : Z := 8.
Definition HDA_STATESTS : Z := 14.
Definition HDA_INTCTL : Z := 32.
Definition HDA_INTSTS : Z := 36.
Definition HDA_ICO : Z := 96.
Definition HDA_IRI : Z := 100.
Definition HDA_ICS : Z := 104.
Definition SD_CTL : Z := 0.
Definition SD_STS : Z := 3.
Definition SD_LPIB : Z := 4.
Definition SD_CBL : Z := 8.
Definition SD_LVI : Z := 12.
Definition SD_FMT : Z := 18.
Definition SD_BDPL : Z := 24.
Definition SD_BDPU : Z := 28.
Definition CHUNK_FRAMES : Z := 1200.
Definition CHUNKS : Z := 4.
Definition CHUNK_BYTES : Z := CHUNK_FRAMES * 4.
Definition PCM_BYTES : Z := CHUNK_BYTES * CHUNKS.
Definition STREAM_ID : Z := 1.
Definition PARAM_SUB_NODE_COUNT : Z := 4.
Definition PARAM_FN_GROUP_TYPE : Z := 5.
Definition PARAM_AUDIO_WIDGET_CAP : Z := 9.
Definition PARAM_PIN_CAP : Z := 12.
Definition PARAM_CONN_LIST_LEN : Z := 14.
Definition PARAM_OUT_AMP_CAP : Z := 18.

Record BdlEntry := mkBdl { address : Z; length_ : Z; ioc : Z }.

Record Hda := mkHda {
  bdf : Z; mmio : Z; bdl : Z; bdl_phys : Z; pcm : Z; pcm_phys : Z;
  codec : Z; dac : Z; pin : Z; stream_base : Z; channels : Z;
  written : Z; completed : Z; last_lpib : Z; wraps : Z;
  bdl_mem : list BdlEntry;       (* the buffer [bdl] points to *)
  pcm_mem : list Z               (* the bytes of the buffer [pcm] points to *)
}.

Definition set_codec (c : Z) (h : Hda) : Hda :=
  mkHda (bdf h) (mmio h) (bdl h) (bdl_phys h) (pcm h) (pcm_phys h) c (dac h) (pin h) (stream_base h) (channels h)
    (written h) (completed h) (last_lpib h) (wraps h) (bdl_mem h) (pcm_mem h).
Definition set_nodes (d p : Z) (h : Hda) : Hda :=
  mkHda (bdf h) (mmio h) (bdl h) (bdl_phys h) (pcm h) (pcm_phys h) (codec h) d p (stream_base h) (channels h)
    (written h) (completed h) (last_lpib h) (wraps h) (bdl_mem h) (pcm_mem h).
Definition set_stream (b : Z) (l : list BdlEntry) (h : Hda) : Hda :=
  mkHda (bdf h) (mmio h) (bdl h) (bdl_phys h) (pcm h) (pcm_phys h) (codec h) (dac h) (pin h) b (channels h)
    (written h) (completed h) (last_lpib h) (wraps h) l (pcm_mem h).
Definition set_channels (c : Z) (h : Hda) : Hda :=
  mkHda (bdf h) (mmio h) (bdl h) (bdl_phys h) (pcm h) (pcm_phys h) (codec h) (dac h) (pin h) (stream_base h) c
    (written h) (completed h) (last_lpib h) (wraps h) (bdl_mem h) (pcm_mem h).
Definition set_position (w c l r : Z) (h : Hda) : Hda :=
  mkHda (bdf h) (mmio h) (bdl h) (bdl_phys h) (pcm h) (pcm_phys h) (codec h) (dac h) (pin h) (stream_base h) (channels h)
    w c l r (bdl_mem h) (pcm_mem h).
Definition set_pcm (b : list Z) (h : Hda) : Hda :=
  mkHda (bdf h) (mmio h) (bdl h) (bdl_phys h) (pcm h) (pcm_phys h) (codec h) (dac h) (pin h) (stream_base h) (channels h)
    (written h) (completed h) (last_lpib h) (wraps h) (bdl_mem h) b.

(** The statics. *)
Record Statics := mkStatics {
  HDA : option Hda; COMMAND_CH : Z; IRQ_NUMBER : Z; IRQ_RUNNING : bool; IRQ_MMIO : Z; IRQ_STREAM_BASE : Z; IRQ_TID : Z; IRQ_COUNT : Z }.

Section Driver.
Variable env : Log -> Ev -> Reply.

Definition bdf_of (i : PciDeviceInfo) : Z := Z.lor (Z.lor (Z.shiftl (p_bus i) 16) (Z.shiftl (p_device i) 8)) (p_function i).

(** The answer of the search, or [None] when the fuel ends first. *)
Fixpoint find_hda (fuel : nat) (index : Z) : M (option (option Z)) :=
  match fuel with
  | O => ret None
  | S n =>
      r <- sys_pci_info env index;;
      let '(total, info) := r in
      if total =? u64_max then ret (Some None)
      else if (p_class info =? 4) && (p_subclass info =? 3) then ret (Some (Some (bdf_of info)))
      else if total <=? index + 1 then ret (Some None) else find_hda n (index + 1)
  end.

Definition sleep_us (us : Z) : M unit := sys_sleep env (Z.max ((us + 999) / 1000) 1).

Definition read8 (h : Hda) (off : Z) : M Z := r <- call env (Rd 1 (mmio h + off));; ret (r mod 2 ^ 8).
Definition read16 (h : Hda) (off : Z) : M Z := r <- call env (Rd 2 (mmio h + off));; ret (r mod 2 ^ 16).
Definition read32 (h : Hda) (off : Z) : M Z := r <- call env (Rd 4 (mmio h + off));; ret (r mod 2 ^ 32).
Definition write8 (h : Hda) (off v : Z) : M unit := do_ env (Wr 1 (mmio h + off) v).
Definition write16 (h : Hda) (off v : Z) : M unit := do_ env (Wr 2 (mmio h + off) v).
Definition write32 (h : Hda) (off v : Z) : M unit := do_ env (Wr 4 (mmio h + off) v).

(** [value & !bits] on 32 bits. *)
Definition clear_bits (bits v : Z) : Z := Z.land v (Z.lnot bits).

Definition reset (h : Hda) : M bool :=
  v <- read32 h HDA_GCTL;; write32 h HDA_GCTL (clear_bits 1 v);;;
  sleep_us 100;;;
  poll 100 (v <- read32 h HDA_GCTL;; ret (Z.land v 1 =? 0)) (sleep_us 1000);;;
  v <- read32 h HDA_GCTL;; write32 h HDA_GCTL (Z.lor v 1);;;
  sleep_us 100;;;
  poll 100 (v <- read32 h HDA_GCTL;; ret (negb (Z.land v 1 =? 0))) (sleep_us 1000);;;
  v <- read32 h HDA_GCTL;;
  if Z.land v 1 =? 0 then ret false
  else sleep_us 500000;;; s <- read16 h HDA_STATESTS;; ret (negb (s =? 0)).

(** The second loop of [verb]: the response, or 0 when it does not come. *)
Fixpoint await_response (n : nat) (h : Hda) : M Z :=
  match n with
  | O => ret 0
  | S n' =>
      sleep_us 100;;;
      status <- read16 h HDA_ICS;;
      if (Z.land status 1 =? 0) && negb (Z.land status 2 =? 0)
      then response <- read32 h HDA_IRI;; write16 h HDA_ICS 2;;; ret response
      else await_response n' h
  end.

Definition verb (h : Hda) (value : Z) : M Z :=
  poll (Z.to_nat 1000) (s <- read16 h HDA_ICS;; ret (Z.land s 1 =? 0)) (sleep_us 100);;;
  s <- read16 h HDA_ICS;;
  if negb (Z.land s 1 =? 0) then ret 0
  else
    write16 h HDA_ICS 2;;; write32 h HDA_ICO value;;;
    s <- read16 h HDA_ICS;; write16 h HDA_ICS (Z.lor s 1);;;
    await_response (Z.to_nat 10000) h.

Definition command (h : Hda) (node v : Z) : M Z :=
  verb h (Z.lor (Z.lor (Z.shiftl (codec h) 28 mod 2 ^ 32) (Z.shiftl node 20)) v).
Definition param (p : Z) : Z := Z.lor 0xf0000 p.

(** [start..start.saturating_add(count)] over bytes. *)
Definition node_range (r : Z) : list Z :=
  let start := Z.shiftr r 16 mod 256 in seqZ start (Z.min 255 (start + r mod 256) - start).

Fixpoint find_afg (h : Hda) (nodes : list Z) : M Z :=
  match nodes with
  | [] => ret 0
  | node :: l => t <- command h node (param PARAM_FN_GROUP_TYPE);; if Z.land t 255 =? 1 then ret node else find_afg h l
  end.

Fixpoint find_widgets (nodes : list Z) (h : Hda) : M Hda :=
  match nodes with
  | [] => ret h
  | node :: l =>
      cap <- command h node (param PARAM_AUDIO_WIDGET_CAP);;
      let kind := Z.land (Z.shiftr cap 20) 15 in
      if (kind =? 0) && (dac h =? 0) then find_widgets l (set_nodes node (pin h) h)
      else if (kind =? 4) && (pin h =? 0) then
        c <- command h node (param PARAM_PIN_CAP);;
        find_widgets l (if negb (Z.land c 16 =? 0) then set_nodes (dac h) node h else h)
      else find_widgets l h
  end.

Definition first_codec (states : Z) : Z := default 255 (head (filter (fun i => Z.testbit states i = true) (seqZ 0 15))).

Definition discover (h : Hda) : M (bool * Hda) :=
  states <- read16 h HDA_STATESTS;;
  let h := set_codec (first_codec states) h in
  if codec h =? 255 then ret (false, h)
  else
    root <- command h 0 (param PARAM_SUB_NODE_COUNT);;
    afg <- find_afg h (node_range root);;
    if afg =? 0 then ret (false, h)
    else
      command h afg 0x70500;;; sleep_us 10000;;;
      nodes <- command h afg (param PARAM_SUB_NODE_COUNT);;
      h <- find_widgets (node_range nodes) h;;
      ret (negb (dac h =? 0) && negb (pin h =? 0), h).

Fixpoint connect_entries (h : Hda) (entries index : Z) (offsets : list Z) : M unit :=
  match offsets with
  | [] => ret tt
  | offset :: l =>
      (if Z.land (Z.shiftr entries (offset * 8)) 255 =? dac h then command h (pin h) (Z.lor 0x70100 (index + offset));;; ret tt else ret tt);;;
      connect_entries h entries index l
  end.
Fixpoint connect (h : Hda) (indices : list Z) : M unit :=
  match indices with
  | [] => ret tt
  | index :: l =>
      entries <- command h (pin h) (Z.lor 0xf0200 index);;
      connect_entries h entries index [0; 1; 2; 3];;; connect h l
  end.

Definition configure_codec (h : Hda) : M unit :=
  command h (dac h) 0x70500;;; command h (pin h) 0x70500;;; sleep_us 10000;;;
  command h (pin h) 0x707c0;;; command h (pin h) 0x70c02;;;
  c <- command h (pin h) (param PARAM_CONN_LIST_LEN);;
  connect h (seqZ 0 (Z.land c 127));;;
  command h (dac h) 0x20011;;; command h (dac h) (Z.lor 0x70600 (Z.shiftl STREAM_ID 4));;;
  a <- command h (dac h) (param PARAM_OUT_AMP_CAP);;
  command h (dac h) (Z.lor (Z.lor 0x30000 0xb000) (Z.max (Z.land (Z.shiftr a 8) 127) 1));;; ret tt.

Definition bdl_entry (h : Hda) (index : Z) : BdlEntry := mkBdl (wrap64 (pcm_phys h + index * CHUNK_BYTES)) CHUNK_BYTES 1.

Definition setup_stream (h : Hda) : M Hda :=
  cap <- read16 h HDA_GCAP;;
  let base := 128 + Z.land (Z.shiftr cap 8) 15 * 32 in
  write8 h (base + SD_CTL) 0;;; sleep_us 10000;;; write8 h (base + SD_CTL) 1;;; sleep_us 10000;;; write8 h (base + SD_CTL) 0;;; sleep_us 10000;;;
  let h := set_stream base ((fun i => bdl_entry h i) <$> seqZ 0 CHUNKS) h in
  write32 h (base + SD_CBL) PCM_BYTES;;; write16 h (base + SD_LVI) (CHUNKS - 1);;; write16 h (base + SD_FMT) 17;;;
  write32 h (base + SD_BDPL) (bdl_phys h mod 2 ^ 32);;; write32 h (base + SD_BDPU) (Z.shiftr (bdl_phys h) 32);;;
  write8 h (base + SD_CTL + 2) (Z.shiftl STREAM_ID 4);;; ret h.

(** ** The ring *)

(** [refresh] after reading [lpib]. *)
Definition refresh_at (lpib : Z) (h : Hda) : Hda :=
  let position := lpib mod PCM_BYTES in
  let wraps' := if position <? last_lpib h then wraps h + 1 else wraps h in
  set_position (written h) ((wraps' * PCM_BYTES + position) / CHUNK_BYTES) position wraps' h.
Definition refresh (h : Hda) : M Hda := v <- read32 h (stream_base h + SD_LPIB);; ret (refresh_at v h).

Definition frame_bytes (h : Hda) : Z := Z.max 1 (Z.min (channels h) 2) * 2.

(** One frame into the ring at byte [target + 4 * frame]: a mono sample twice, or the four
    bytes of a stereo frame. *)
Definition put_frame (mono : bool) (data : list Z) (target frame : nat) (mem : list Z) : list Z :=
  let s := if mono then take 2 (drop (frame * 2) data) ++ take 2 (drop (frame * 2) data) else take 4 (drop (frame * 4) data) in
  list_inserts (target + 4 * frame) s mem.
Fixpoint put_frames (n : nat) (mono : bool) (data : list Z) (target frame : nat) (mem : list Z) : list Z :=
  match n with O => mem | S n' => put_frames n' mono data target (S frame) (put_frame mono data target frame mem) end.

Definition full (h : Hda) : bool := CHUNKS - 1 <=? saturating_sub (written h) (completed h).
Definition frames_of (h : Hda) (data : list Z) : Z := Z.min (Z.of_nat (length data) / frame_bytes h) CHUNK_FRAMES.

(** The copy into the chunk, the silence after it, and the count. *)
Definition fill_chunk (data : list Z) (h : Hda) : Hda :=
  let frames := Z.to_nat (frames_of h data) in
  let target := Z.to_nat (written h mod CHUNKS * CHUNK_BYTES) in
  let mem := put_frames frames (frame_bytes h =? 2) data target 0 (pcm_mem h) in
  let mem := list_inserts (target + 4 * frames) (replicate (Z.to_nat (CHUNK_FRAMES * 4) - 4 * frames) 0) mem in
  set_position (written h + 1) (completed h) (last_lpib h) (wraps h) (set_pcm mem h).

Definition write_pcm (data : list Z) (h : Hda) : M (Z * Hda) :=
  h <- refresh h;;
  if full h then ret (0, h)
  else
    let n := frames_of h data * frame_bytes h in
    let h := fill_chunk data h in
    c <- read8 h (stream_base h + SD_CTL);;
    (if Z.land c 2 =? 0 then write8 h (stream_base h + SD_STS) 7;;; write8 h (stream_base h + SD_CTL) 6 else ret tt);;;
    ret (n, h).

Definition stop (h : Hda) : M Hda :=
  if stream_base h =? 0 then ret h
  else
    c <- read8 h (stream_base h + SD_CTL);;
    write8 h (stream_base h + SD_CTL) (clear_bits 2 c);;;
    poll 100 (c <- read8 h (stream_base h + SD_CTL);; ret (Z.land c 2 =? 0)) (sleep_us 1000);;;
    ret (set_position 0 0 0 0 h).

Definition release (h : Hda) : M unit :=
  h <- stop h;;
  write32 h HDA_INTCTL 0;;; sys_pci_disable env (bdf h);;; sys_pci_bar_unmap env (mmio h);;;
  sys_dma_free env (bdl h);;; sys_dma_free env (pcm h);;; ret tt.

(** ** The life cycle *)

Definition new_hda (b m bd bdp pc pcp : Z) : Hda :=
  mkHda b m bd bdp pc pcp 255 0 0 0 2 0 0 0 0 (replicate 256 (mkBdl 0 0 0)) (replicate (Z.to_nat PCM_BYTES) 0).
Definition AUDIO_CHANNEL : list Z := [109; 111; 100; 117; 108; 101; 95; 97; 117; 100; 105; 111].

(** [entry] is the address of [irq_worker]; [fuel] bounds the search of the devices, which
    ends the start-up, with nothing taken, when it runs out. *)
Definition kdm_init (fuel : nat) (entry : Z) : M (option Statics) :=
  o <- find_hda fuel 0;;
  match o with
  | None => ret None
  | Some None => println env "hda: no controller";;; ret None
  | Some (Some b) =>
  m <- sys_pci_bar_map env b 0;;
  if m =? u64_max then ret None else
  e <- sys_pci_enable env b;;
  if e =? u64_max then sys_pci_bar_unmap env m;;; ret None else
  o <- sys_dma_alloc env 4096;;
  match o with
  | None => sys_pci_bar_unmap env m;;; ret None
  | Some (bd, bdp) =>
  o <- sys_dma_alloc env PCM_BYTES;;
  match o with
  | None => sys_dma_free env bd;;; sys_pci_bar_unmap env m;;; ret None
  | Some (pc, pcp) =>
  let h := new_hda b m bd bdp pc pcp in
  write32 h HDA_INTCTL 0;;;
  ok <- reset h;;
  r <- (if ok : bool then discover h else ret (false, h));;
  let '(ok, h) := r in
  if negb ok then println env "hda: controller initialization failed";;; release h;;; ret None else
  configure_codec h;;;
  h <- setup_stream h;;
  o <- sys_irq_claim env b;;
  match o with
  | None => release h;;; ret None
  | Some irq =>
  stack <- sys_heap_alloc env 65536;;
  if stack =? u64_max then sys_irq_release env irq;;; release h;;; ret None else
  let stack_top := Z.land (stack + 65536) (Z.lnot 15) - 8 in
  tid <- sys_thread_spawn env entry 0 stack_top;;
  if tid =? 0 then sys_irq_release env irq;;; release h;;; ret None else
  cap <- read16 h HDA_GCAP;;
  write32 h HDA_INTCTL (Z.lor (Z.shiftl 1 31) (Z.shiftl 1 (Z.land (Z.shiftr cap 8) 15)));;;
  ch <- sys_ipc_open env AUDIO_CHANNEL;;
  if ch =? u64_max then sys_irq_release env irq;;; sys_thread_join env tid;;; release h;;; ret None else
  ret (Some (mkStatics (Some h) ch irq true m (stream_base h) tid 0))
  end end end end.

(** [while write_pcm(data) == 0 { if signal { return } sleep(1) }]: [None] when the fuel
    ends first; the flag says that the driver returns. *)
Fixpoint play (fuel : nat) (data : list Z) (h : Hda) : M (option (bool * Hda)) :=
  match fuel with
  | O => ret None
  | S n =>
      r <- write_pcm data h;;
      let '(k, h) := r in
      if k =? 0 then
        s <- sys_signal_check env;;
        if s : bool then ret (Some (true, h)) else sys_sleep env 1;;; play n data h
      else ret (Some (false, h))
  end.

(** One message. *)
Definition handle_message (fuel : nat) (data : list Z) (h : Hda) : M (option (bool * Hda)) :=
  match data with
  | [] => ret (Some (false, h))
  | c :: rest =>
      if c =? 0 then h <- stop h;; ret (Some (false, h))
      else if (c =? 1) && (2 <=? length data)%nat then ret (Some (false, set_channels (Z.max 1 (Z.min (default 0 (data !! 1%nat)) 2)) h))
      else if c =? 2 then play fuel rest h
      else ret (Some (false, h))
  end.

(** [None] when the turns end first, and when [&message[..length]] panics: then
    [kdm_run] does not return. *)
Fixpoint kdm_run (turns fuel : nat) (s : Statics) : M (option Statics) :=
  match turns with
  | O => ret None
  | S n =>
      sig <- sys_signal_check env;;
      if sig : bool then ret (Some s) else
      r <- sys_ipc_recv env (COMMAND_CH s) 8192;;
      let '(len, message) := r in
      if len =? u64_max then ret (Some s)
      else if 8192 <? len then ret None
      else let data := take (Z.to_nat len) message in
           match HDA s with
           | None => if bool_decide (data = []) then kdm_run n fuel s else ret (Some s)
           | Some h =>
               o <- handle_message fuel data h;;
               match o with
               | None => ret None
               | Some (leave, h) =>
                   let s := mkStatics (Some h) (COMMAND_CH s) (IRQ_NUMBER s) (IRQ_RUNNING s) (IRQ_MMIO s) (IRQ_STREAM_BASE s) (IRQ_TID s) (IRQ_COUNT s) in
                   if leave : bool then ret (Some s) else kdm_run n fuel s
               end
           end
  end.

Definition kdm_exit (s : Statics) : M unit :=
  h <- match HDA s with Some h => h <- stop h;; write32 h HDA_INTCTL 0;;; ret (Some h) | None => ret None end;;
  (if negb (IRQ_NUMBER s =? 0) then sys_irq_release env (IRQ_NUMBER s);;; ret tt else ret tt);;;
  (if negb (IRQ_TID s =? 0) then sys_thread_join env (IRQ_TID s);;; ret tt else ret tt);;;
  match h with Some h => release h | None => ret tt end;;;
  (if negb (COMMAND_CH s =? u64_max) then do_ env (Sys SYS_IPC_CLOSE (COMMAND_CH s) 0 0) else ret tt).

(** One turn of [irq_worker]; the flag says whether it goes on. *)
Definition irq_turn (running : bool) (s : Statics) : M (bool * Statics) :=
  if (IRQ_NUMBER s =? 0) || negb (IRQ_RUNNING s) then ret (false, s)
  else
    do_ env (Sys SYS_IRQ_WAIT (IRQ_NUMBER s) 0 0);;;
    if negb running then ret (false, s)       (* [IRQ_RUNNING] may have changed meanwhile *)
    else
      let s := mkStatics (HDA s) (COMMAND_CH s) (IRQ_NUMBER s) (IRQ_RUNNING s) (IRQ_MMIO s) (IRQ_STREAM_BASE s) (IRQ_TID s) (wrap64 (IRQ_COUNT s + 1)) in
      if negb (IRQ_MMIO s =? 0) && negb (IRQ_STREAM_BASE s =? 0) then
        r <- call env (Rd 4 (IRQ_MMIO s + HDA_INTSTS));;
        do_ env (Wr 4 (IRQ_MMIO s + HDA_INTSTS) (r mod 2 ^ 32));;;
        do_ env (Wr 1 (IRQ_MMIO s + IRQ_STREAM_BASE s + SD_STS) 7);;;
        sys_irq_ack env (IRQ_NUMBER s);;; ret (true, s)
      else ret (true, s).
End Driver.
(** * The ring *)

Definition ring_ok (h : Hda) : Prop := length (pcm_mem h) = Z.to_nat PCM_BYTES /\ 0 <= written h.

(** The bytes of [n] frames as the controller plays them. *)
Definition frame_at (mono : bool) (data : list Z) (frame : nat) : list Z :=
  if mono then take 2 (drop (frame * 2) data) ++ take 2 (drop (frame * 2) data) else take 4 (drop (frame * 4) data).
Definition played (mono : bool) (data : list Z) (n : nat) : list Z := mjoin (frame_at mono data <$> seq 0 n).

Lemma frame_at_length (mono : bool) (data : list Z) (frame n : nat) :
  (frame < n)%nat -> (n * (if mono then 2 else 4) <= length data)%nat -> length (frame_at mono data frame) = 4%nat.
Proof. intros Hf Hn. unfold frame_at. destruct mono; rewrite ?length_app, !length_take, !length_drop; lia. Qed.

Lemma put_frames_join (n : nat) (mono : bool) (data : list Z) (target frame : nat) (mem : list Z) :
  ((frame + n) * (if mono then 2 else 4) <= length data)%nat ->
  put_frames n mono data target frame mem = list_inserts (target + 4 * frame) (mjoin (frame_at mono data <$> seq frame n)) mem.
Proof.
  revert frame mem. induction n as [|n IH]; intros frame mem Hn; [done|]. cbn [put_frames seq fmap list_fmap mjoin list_join].
  rewrite list_inserts_app_l, (frame_at_length mono data frame (frame + S n)) by (done || lia). rewrite IH by lia.
  unfold put_frame. fold (frame_at mono data frame). f_equal. lia.
Qed.

Lemma join_length4 (ls : list (list Z)) : Forall (fun l => length l = 4%nat) ls -> length (mjoin ls) = (4 * length ls)%nat.
Proof. induction 1 as [|l ls Hl _ IH]; simpl; [done|]. rewrite length_app. lia. Qed.

Lemma played_length (mono : bool) (data : list Z) (n : nat) :
  (n * (if mono then 2 else 4) <= length data)%nat -> length (played mono data n) = (4 * n)%nat.
Proof.
  intros Hn. unfold played. rewrite join_length4; [by rewrite length_fmap, length_seq|].
  apply Forall_fmap, Forall_forall. intros f Hf%elem_of_seq. simpl. by apply (frame_at_length mono data f n); [lia|].
Qed.

Lemma frames_fit (h : Hda) (data : list Z) :
  (Z.to_nat (frames_of h data) * (if (frame_bytes h =? 2)%Z then 2 else 4) <= length data)%nat /\ 0 <= frames_of h data <= CHUNK_FRAMES.
Proof.
  assert (frame_bytes h = 2 \/ frame_bytes h = 4) as Hf by (unfold frame_bytes; lia).
  unfold frames_of, CHUNK_FRAMES. pose proof (Z.div_pos (Z.of_nat (length data)) (frame_bytes h) ltac:(lia) ltac:(lia)).
  pose proof (Z.mul_div_le (Z.of_nat (length data)) (frame_bytes h) ltac:(lia)).
  split; [|lia]. destruct Hf as [E|E]; rewrite E in *; cbn [Z.eqb Pos.eqb]; lia.
Qed.

(** What one write leaves in the ring: the chunk holds the frames and then silence, and no
    other byte changes. *)
Lemma fill_chunk_ring (data : list Z) (h : Hda) :
  ring_ok h ->
  let n := Z.to_nat (frames_of h data) in
  let target := Z.to_nat (written h mod CHUNKS * CHUNK_BYTES) in
  let mem := pcm_mem (fill_chunk data h) in
  (target + Z.to_nat CHUNK_BYTES <= Z.to_nat PCM_BYTES)%nat /\
  take (Z.to_nat CHUNK_BYTES) (drop target mem) = played (frame_bytes h =? 2) data n ++ replicate (Z.to_nat CHUNK_BYTES - 4 * n) 0 /\
  (forall i, ~ (target <= i < target + Z.to_nat CHUNK_BYTES)%nat -> mem !! i = pcm_mem h !! i) /\
  length mem = Z.to_nat PCM_BYTES.
Proof.
  intros [Hlen Hw] n target mem. destruct (frames_fit h data) as [Hfit Hn]. fold n in Hfit.
  assert (0 <= written h mod CHUNKS < CHUNKS) as Hmod by (apply Z.mod_pos_bound; done).
  set (C := Z.to_nat CHUNK_BYTES).
  assert (target + C <= Z.to_nat PCM_BYTES)%nat as Ht by (unfold target, C, PCM_BYTES, CHUNK_BYTES, CHUNK_FRAMES, CHUNKS in *; lia).
  assert (4 * n <= C)%nat as Hn4 by (unfold n, C, CHUNK_BYTES, CHUNK_FRAMES in *; lia).
  set (src := played (frame_bytes h =? 2) data n). set (pad := replicate (C - 4 * n) 0).
  assert (length src = 4 * n)%nat as Hsrc by (by apply played_length).
  assert (length (src ++ pad) = C)%nat as Hall by (unfold pad; rewrite length_app, length_replicate, Hsrc; lia).
  assert (mem = list_inserts target (src ++ pad) (pcm_mem h)) as Hmem.
  { rewrite list_inserts_app_l, Hsrc. unfold mem, fill_chunk. cbn [pcm_mem set_position set_pcm].
    fold n. fold target. rewrite put_frames_join by done. fold (played (frame_bytes h =? 2) data n). fold src.
    replace (target + 4 * 0)%nat with target by lia. by replace (4 * n + target)%nat with (target + 4 * n)%nat by lia. }
  split_and!; [done| | |].
  - apply list_eq. intros i. destruct (decide (i < C)%nat) as [Hi|Hi].
    + rewrite lookup_take_lt by lia. rewrite lookup_drop, Hmem, list_lookup_inserts by lia. f_equal. lia.
    + rewrite lookup_take_ge by lia. symmetry. apply lookup_ge_None. lia.
  - intros i Hi. rewrite Hmem. destruct (decide (i < target)%nat); [by apply list_lookup_inserts_lt|].
    apply list_lookup_inserts_ge. lia.
  - rewrite Hmem, length_inserts. exact Hlen.
Qed.

(** The position register counts within the ring; [refresh] recovers the bytes played in
    all, as long as it is called at least once in every turn of the ring. *)
Definition tracks (h : Hda) (p : Z) : Prop := 0 <= last_lpib h < PCM_BYTES /\ wraps h * PCM_BYTES + last_lpib h = p.

Lemma refresh_tracks (h : Hda) (p p' : Z) :
  tracks h p -> p <= p' < p + PCM_BYTES ->
  tracks (refresh_at (p' mod PCM_BYTES) h) p' /\ completed (refresh_at (p' mod PCM_BYTES) h) = p' / CHUNK_BYTES.
Proof.
  intros [Hl Hp] Hp'. unfold tracks, refresh_at. cbn [last_lpib wraps completed set_position].
  rewrite Z.mod_mod by done. pose proof (Z.mod_pos_bound p' PCM_BYTES ltac:(done)) as Hb.
  pose proof (Z.div_mod p' PCM_BYTES ltac:(done)) as Hd. set (q := p' mod PCM_BYTES) in *. set (k := p' / PCM_BYTES) in *.
  assert ((if q <? last_lpib h then wraps h + 1 else wraps h) * PCM_BYTES + q = p') as E.
  { change PCM_BYTES with 19200 in *. destruct (q <? last_lpib h) eqn:Eq; zbool; nia. }
  rewrite E. done.
Qed.

(** Writing stays ahead of playing.  While data is queued ahead of the controller, which
    has played [p] bytes in all, and [refresh] ran within the last turn of the ring, a
    write that is accepted goes to a chunk that is neither being played nor still to be
    played; that chunk then holds the frames of the message (a mono sample on both
    channels) followed by silence, and the other three are untouched. *)
Theorem chunk_written_ahead (data : list Z) (h0 : Hda) (p0 p : Z) :
  tracks h0 p0 -> p0 <= p < p0 + PCM_BYTES -> ring_ok h0 -> p / CHUNK_BYTES < written h0 ->
  let h := refresh_at (p mod PCM_BYTES) h0 in
  full h = false ->
  let target := written h mod CHUNKS in
  let h' := fill_chunk data h in
  (forall k, p / CHUNK_BYTES <= k < written h -> k mod CHUNKS <> target) /\ written h' = written h + 1 /\
  take (Z.to_nat CHUNK_BYTES) (drop (Z.to_nat (target * CHUNK_BYTES)) (pcm_mem h')) =
    played (frame_bytes h =? 2) data (Z.to_nat (frames_of h data)) ++ replicate (Z.to_nat CHUNK_BYTES - 4 * Z.to_nat (frames_of h data)) 0 /\
  (forall i, ~ (Z.to_nat (target * CHUNK_BYTES) <= i < Z.to_nat (target * CHUNK_BYTES) + Z.to_nat CHUNK_BYTES)%nat -> pcm_mem h' !! i = pcm_mem h !! i).
Proof.
  intros Htr Hp Hok Hahead h Hfull target h'. destruct (refresh_tracks h0 p0 p Htr Hp) as [_ Hc]. fold h in Hc.
  destruct (fill_chunk_ring data h Hok) as (_ & H1 & H2 & _). split_and!; [|done|exact H1|exact H2].
  intros k Hk. unfold full, saturating_sub in Hfull. rewrite Hc in Hfull. zbool. unfold target. change CHUNKS with 4 in *.
  intros Heq. pose proof (Z.div_mod k 4 ltac:(done)). pose proof (Z.div_mod (written h) 4 ltac:(done)). lia.
Qed.

(** After an underrun the driver runs behind.  Once the controller has played past the
    last chunk written, the next write is accepted at once although nothing is queued,
    and the position is not caught up: when the driver is a multiple of four chunks
    behind (or just level), the write goes into the very chunk being played. *)
Theorem underrun_overwrites_playing (data : list Z) (h0 : Hda) (p0 p : Z) :
  tracks h0 p0 -> p0 <= p < p0 + PCM_BYTES -> written h0 <= p / CHUNK_BYTES -> (p / CHUNK_BYTES - written h0) mod CHUNKS = 0 ->
  let h := refresh_at (p mod PCM_BYTES) h0 in
  full h = false /\ written h mod CHUNKS = p / CHUNK_BYTES mod CHUNKS.
Proof.
  intros Htr Hp Hbehind Hmod h. destruct (refresh_tracks h0 p0 p Htr Hp) as [_ Hc]. fold h in Hc.
  change (written h) with (written h0). split.
  - unfold full, saturating_sub. rewrite Hc. change (written h) with (written h0). apply Z.leb_gt. change CHUNKS with 4. lia.
  - change CHUNKS with 4 in *. set (c := p / CHUNK_BYTES) in *. pose proof (Z.div_mod c 4 ltac:(done)). pose proof (Z.div_mod (written h0) 4 ltac:(done)).
    pose proof (Z.div_mod (c - written h0) 4 ltac:(done)). pose proof (Z.mod_pos_bound c 4 ltac:(done)). pose proof (Z.mod_pos_bound (written h0) 4 ltac:(done)). lia.
Qed.

(** * What the driver holds *)

(** Decomposes a program that neither takes nor gives back a resource. *)
Ltac keeps_step :=
  match goal with
  | |- keeps ?m => unfold keeps
  | |- extends _ (ret _) => apply extends_ret
  | |- extends _ (event _ _) => apply extends_event; reflexivity
  | |- extends _ (poll _ _ _) => apply extends_poll
  | |- extends _ (bind _ _) => apply extends_bind; [|intros ?]
  | |- extends _ (let '(_, _) := ?r in _) => destruct r
  | |- extends _ (if ?b then _ else _) => destruct b
  | |- extends _ (match ?o with None => _ | Some _ => _ end) => destruct o
  end.
Create HintDb keeps.
Ltac keeps_known := match goal with |- extends _ ?m => change (keeps m) | _ => idtac end; solve [auto 2 with keeps nocore].
Ltac keeps_tac := repeat first [keeps_known | keeps_step].

Section Keeps.
Variable env : Log -> Ev -> Reply.

Lemma keeps_find (fuel : nat) (index : Z) : keeps (find_hda env fuel index).
Proof. revert index. induction fuel as [|n IH]; intros index; cbn [find_hda]; unfold sys_pci_info; keeps_tac. Qed.
Lemma keeps_sleep (us : Z) : keeps (sleep_us env us).
Proof. unfold sleep_us, sys_sleep, do_. keeps_tac. Qed.
Lemma keeps_call (e : Ev) : takes e = false -> keeps (call env e).
Proof. intros He. unfold call. apply extends_bind; [apply extends_event; by rewrite He|]. intros r. apply extends_ret. Qed.
Lemma keeps_do (e : Ev) : takes e = false -> keeps (do_ env e).
Proof. intros He. unfold do_. apply extends_bind; [apply extends_event; by rewrite He|]. intros r. apply extends_ret. Qed.
Lemma keeps_read8 (h : Hda) (off : Z) : keeps (read8 env h off).
Proof. unfold read8, call. keeps_tac. Qed.
Lemma keeps_read16 (h : Hda) (off : Z) : keeps (read16 env h off).
Proof. unfold read16, call. keeps_tac. Qed.
Lemma keeps_read32 (h : Hda) (off : Z) : keeps (read32 env h off).
Proof. unfold read32, call. keeps_tac. Qed.
Lemma keeps_write8 (h : Hda) (off v : Z) : keeps (write8 env h off v).
Proof. unfold write8, do_. keeps_tac. Qed.
Lemma keeps_write16 (h : Hda) (off v : Z) : keeps (write16 env h off v).
Proof. unfold write16, do_. keeps_tac. Qed.
Lemma keeps_write32 (h : Hda) (off v : Z) : keeps (write32 env h off v).
Proof. unfold write32, do_. keeps_tac. Qed.
Lemma keeps_println (s : string) : keeps (println env s).
Proof. unfold println, sys_write_raw, do_. keeps_tac. Qed.
#[local] Hint Resolve keeps_find keeps_sleep keeps_read8 keeps_read16 keeps_read32 keeps_write8 keeps_write16 keeps_write32 keeps_println : keeps.

Lemma keeps_reset (h : Hda) : keeps (reset env h).
Proof. unfold reset. keeps_tac. Qed.
Lemma keeps_await (n : nat) (h : Hda) : keeps (await_response env n h).
Proof. induction n as [|n IH]; cbn [await_response]; keeps_tac. Qed.
#[local] Hint Resolve keeps_await : keeps.
Lemma keeps_verb (h : Hda) (v : Z) : keeps (verb env h v).
Proof. unfold verb. generalize (Z.to_nat 1000) (Z.to_nat 10000). intros n1 n2. keeps_tac. Qed.
Lemma keeps_command (h : Hda) (node v : Z) : keeps (command env h node v).
Proof. apply keeps_verb. Qed.
#[local] Hint Resolve keeps_reset keeps_command : keeps.
Lemma keeps_find_afg (h : Hda) (nodes : list Z) : keeps (find_afg env h nodes).
Proof. induction nodes as [|n l IH]; cbn [find_afg]; keeps_tac. Qed.
Lemma keeps_find_widgets (nodes : list Z) (h : Hda) : keeps (find_widgets env nodes h).
Proof. revert h. induction nodes as [|n l IH]; intros h; cbn [find_widgets]; keeps_tac. Qed.
#[local] Hint Resolve keeps_find_afg keeps_find_widgets : keeps.
Lemma keeps_discover (h : Hda) : keeps (discover env h).
Proof. unfold discover. keeps_tac. Qed.
Lemma keeps_connect (h : Hda) (l : list Z) : keeps (connect env h l).
Proof.
  assert (forall e i o, keeps (connect_entries env h e i o)) as Hc.
  { intros e i o. induction o as [|x o IH]; cbn [connect_entries]; keeps_tac. }
  induction l as [|i l IH]; cbn [connect]; keeps_tac.
Qed.
#[local] Hint Resolve keeps_connect : keeps.
Lemma keeps_configure (h : Hda) : keeps (configure_codec env h).
Proof. unfold configure_codec. keeps_tac. Qed.
Lemma keeps_setup (h : Hda) : keeps (setup_stream env h).
Proof. unfold setup_stream. keeps_tac. Qed.
Lemma keeps_stop (h : Hda) : keeps (stop env h).
Proof. unfold stop. keeps_tac. Qed.
End Keeps.
#[export] Hint Resolve keeps_find keeps_sleep keeps_read8 keeps_read16 keeps_read32 keeps_write8 keeps_write16 keeps_write32 keeps_println
  keeps_reset keeps_command keeps_discover keeps_configure keeps_setup keeps_stop : keeps.

(** The handles of what the driver holds do not change. *)
Definition handles (h : Hda) : Z * Z * Z := (mmio h, bdl h, pcm h).

(** Every result of a program satisfies [P]. *)
Definition results {A : Type} (P : A -> Prop) (m : M A) : Prop := forall log, P (fst (m log)).
Lemma results_ret {A : Type} (P : A -> Prop) (a : A) : P a -> results P (ret a).
Proof. by intros HP log. Qed.
Lemma results_bind {A B : Type} (P : B -> Prop) (m : M A) (k : A -> M B) : (forall a, results P (k a)) -> results P (bind m k).
Proof. intros Hk log. unfold bind. destruct (m log) as [a log']. apply Hk. Qed.
Lemma results_then {A B : Type} (R : A -> Prop) (P : B -> Prop) (m : M A) (k : A -> M B) :
  results R m -> (forall a, R a -> results P (k a)) -> results P (bind m k).
Proof. intros Hm Hk log. unfold bind. specialize (Hm log). destruct (m log) as [a log']. by apply Hk. Qed.
Lemma spec_results {A B : Type} (L : list Res) (P : A -> Prop) (m : M A) (k : A -> M B) (Q : B -> list Res -> Prop) :
  keeps m -> results P m -> (forall a, P a -> spec L (k a) Q) -> spec L (bind m k) Q.
Proof.
  intros Hm HP Hk. apply (spec_bind L m k (fun a L' => P a /\ L' = L)); [|by intros a L' [Ha ->]; apply Hk].
  intros log HL. destruct (Hm log) as (l & E & F). specialize (HP log). destruct (m log) as [a log']. simpl in E, HP. subst log'.
  by rewrite held_keeps.
Qed.

Ltac results_tac :=
  repeat match goal with
  | |- results _ (ret _) => apply results_ret
  | |- results _ (bind _ _) => apply results_bind; intros ?
  | |- results _ (if ?b then _ else _) => destruct b
  | |- results _ (let '(_, _) := ?r in _) => destruct r
  end.

Section Held.
Variable env : Log -> Ev -> Reply.

Lemma find_widgets_handles (nodes : list Z) (h : Hda) : results (fun h' => handles h' = handles h) (find_widgets env nodes h).
Proof.
  revert h. induction nodes as [|n l IH]; intros h; cbn [find_widgets]; results_tac; [done|exact (IH (set_nodes n (pin h) h))| |apply IH].
  match goal with |- results _ (find_widgets _ _ (if ?b then _ else _)) => destruct b end; [exact (IH (set_nodes (dac h) n h))|apply IH].
Qed.
Lemma discover_handles (h : Hda) : results (fun r => handles (snd r) = handles h) (discover env h).
Proof.
  unfold discover. apply results_bind. intros st. cbn zeta. destruct (_ =? _); [by apply results_ret|].
  do 2 (apply results_bind; intros ?). destruct (_ =? _); [by apply results_ret|]. do 3 (apply results_bind; intros ?).
  eapply results_then; [apply find_widgets_handles|]. intros h' Hh. by apply results_ret.
Qed.
Lemma setup_handles (h : Hda) : results (fun h' => handles h' = handles h) (setup_stream env h).
Proof. unfold setup_stream. by results_tac. Qed.
Lemma stop_handles (h : Hda) : results (fun h' => handles h' = handles h) (stop env h).
Proof. unfold stop. by results_tac. Qed.
Lemma write_pcm_handles (data : list Z) (h : Hda) : results (fun r => handles (snd r) = handles h) (write_pcm env data h).
Proof.
  unfold write_pcm, refresh. eapply (results_then (fun h' => handles h' = handles h)); [by results_tac|].
  intros h' Hh. by results_tac.
Qed.
Lemma play_handles (fuel : nat) (data : list Z) (h : Hda) : results (fun o => forall b h', o = Some (b, h') -> handles h' = handles h) (play env fuel data h).
Proof.
  revert h. induction fuel as [|n IH]; intros h; cbn [play]; [by apply results_ret|].
  eapply results_then; [apply write_pcm_handles|]. intros [k h1] Hh. simpl in Hh. results_tac; [by intros ? ? [= <- <-]| |by intros ? ? [= <- <-]].
  intros log b h' E. rewrite <-Hh. by eapply IH.
Qed.
Lemma handle_handles (fuel : nat) (data : list Z) (h : Hda) :
  results (fun o => forall b h', o = Some (b, h') -> handles h' = handles h) (handle_message env fuel data h).
Proof.
  destruct data as [|c rest]; simpl; [apply results_ret; by intros ? ? [= <- <-]|]. destruct (c =? 0).
  { eapply results_then; [apply stop_handles|]. intros h' Hh. apply results_ret. by intros ? ? [= <- <-]. }
  results_tac; try (by intros ? ? [= <- <-]). apply play_handles.
Qed.
Lemma keeps_play (fuel : nat) (data : list Z) (h : Hda) : keeps (play env fuel data h).
Proof.
  revert h. induction fuel as [|n IH]; intros h; cbn [play]; unfold write_pcm, refresh, sys_signal_check, sys_sleep, call, do_; keeps_tac.
Qed.
#[local] Hint Resolve keeps_play : keeps.
Lemma keeps_handle (fuel : nat) (data : list Z) (h : Hda) : keeps (handle_message env fuel data h).
Proof. destruct data as [|c rest]; unfold handle_message; keeps_tac. Qed.
#[local] Hint Resolve keeps_handle : keeps.

(** What a driver that runs keeps: the handles, the line and the thread. *)
Definition same_hold (s s' : Statics) : Prop :=
  IRQ_NUMBER s' = IRQ_NUMBER s /\ IRQ_TID s' = IRQ_TID s /\ handles <$> HDA s' = handles <$> HDA s.

Lemma run_holds (turns fuel : nat) (s : Statics) :
  keeps (kdm_run env turns fuel s) /\ results (fun o => forall s', o = Some s' -> same_hold s s') (kdm_run env turns fuel s).
Proof.
  revert s. induction turns as [|n IH]; intros s; cbn [kdm_run]; [split; [apply extends_ret|by apply results_ret]|].
  assert (forall s, keeps (kdm_run env n fuel s)) as IHk by (intros; apply IH). split.
  - unfold sys_signal_check, sys_ipc_recv, call. keeps_tac.
  - assert (forall s', Some s = Some s' -> same_hold s s') as Hrefl by (intros s' [= <-]; by repeat split).
    unfold sys_signal_check, sys_ipc_recv, call. results_tac; [done..|].
    destruct (HDA s) as [h|] eqn:Eh; [|results_tac; [apply IH|done]].
    eapply results_then; [apply handle_handles|]. intros [[leave h']|] Ho; [|by apply results_ret].
    specialize (Ho _ _ eq_refl). match goal with |- context [mkStatics (Some h') ?a ?b ?c ?d ?e ?f ?g] => set (s1 := mkStatics (Some h') a b c d e f g) end.
    assert (same_hold s s1) as Hs1 by (repeat split; simpl; rewrite Eh; simpl; by rewrite Ho).
    results_tac; [by intros ? [= <-]|]. intros log s' E. destruct (proj2 (IH s1) log s' E) as (E1 & E2 & E3). unfold same_hold. rewrite E1, E2, E3. exact Hs1.
Qed.
End Held.

(** What a driver with state [s] holds beside [L]. *)
Definition owned (s : Statics) (L : list Res) : list Res :=
  match HDA s with
  | Some h => RLine (IRQ_NUMBER s) :: RDma (pcm h) :: RDma (bdl h) :: RWindow (mmio h) :: L
  | None => L
  end.

Lemma settle_unmap (L : list Res) (a b c : Z) (r : Reply) : settle L (Sys SYS_PCI_BAR_UNMAP a b c, r) = drop_one (RWindow a) L.
Proof. done. Qed.
Lemma settle_free (L : list Res) (a b c : Z) (r : Reply) : settle L (Sys SYS_DMA_FREE a b c, r) = drop_one (RDma a) L.
Proof. done. Qed.
Lemma settle_release (L : list Res) (a b c : Z) (r : Reply) : settle L (Sys SYS_IRQ_RELEASE a b c, r) = drop_one (RLine a) L.
Proof. done. Qed.
Lemma settle_map (L : list Res) (a b c : Z) (r : Reply) : settle L (Sys SYS_PCI_BAR_MAP a b c, r) = if r_val r =? u64_max then L else RWindow (r_val r) :: L.
Proof. done. Qed.
Lemma settle_alloc (L : list Res) (a b c : Z) (r : Reply) : settle L (Sys SYS_DMA_ALLOC a b c, r) = if r_val r =? u64_max then L else RDma (r_val r) :: L.
Proof. done. Qed.
Lemma settle_claim (L : list Res) (a b c : Z) (r : Reply) :
  settle L (Sys SYS_IRQ_CLAIM a b c, r) = if r_val r =? u64_max then L else RLine (r_val r mod 256) :: L.
Proof. done. Qed.
Lemma settle_disable (L : list Res) (a b c : Z) (r : Reply) : settle L (Sys SYS_PCI_DISABLE a b c, r) = L.
Proof. done. Qed.
Lemma settle_enable (L : list Res) (a b c : Z) (r : Reply) : settle L (Sys SYS_PCI_ENABLE a b c, r) = L.
Proof. done. Qed.
Lemma settle_heap (L : list Res) (a b c : Z) (r : Reply) : settle L (Sys SYS_HEAP_ALLOC a b c, r) = L.
Proof. done. Qed.
Lemma settle_spawn (L : list Res) (a b c : Z) (r : Reply) : settle L (Sys SYS_THREAD_SPAWN a b c, r) = L.
Proof. done. Qed.
Lemma settle_join (L : list Res) (a b c : Z) (r : Reply) : settle L (Sys SYS_THREAD_JOIN a b c, r) = L.
Proof. done. Qed.
Lemma settle_data (L : list Res) (n a : Z) (b : list Z) (r : Reply) : settle L (SysData n a b, r) = L.
Proof. done. Qed.
#[export] Hint Rewrite settle_unmap settle_free settle_release settle_disable settle_enable settle_heap settle_spawn settle_join settle_data drop_here : settle.

(** After [kdm_init]: nothing more is held when it fails, and the four resources when it
    succeeds. *)
Definition after_init (L : list Res) (o : option Statics) (L' : list Res) : Prop :=
  match o with None => L' = L | Some s => L' = owned s L /\ HDA s <> None /\ IRQ_NUMBER s <> 0 end.

Lemma same_owned (s s' : Statics) (L : list Res) : IRQ_NUMBER s' = IRQ_NUMBER s -> handles <$> HDA s' = handles <$> HDA s -> owned s' L = owned s L.
Proof. intros E1 E2. unfold owned. rewrite E1. destruct (HDA s) as [h|], (HDA s') as [h'|]; [|done..]. injection E2 as E3 E4 E5. by rewrite E3, E4, E5. Qed.

Section Cycle.
Variable env : Log -> Ev -> Reply.
Hypothesis no_line_0 : forall log b, r_val (env log (Sys SYS_IRQ_CLAIM b 0 0)) mod 256 <> 0.

(** Runs the program logic over calls whose effect is known. *)
Ltac spec_call :=
  repeat match goal with
  | |- spec _ (bind (bind _ _) _) _ => apply spec_assoc
  | |- spec _ (bind (event _ _) _) _ => apply spec_event; intros ? ?
  | |- spec _ (bind (ret _) _) _ => apply spec_ret_bind
  | |- spec _ (ret _) _ => apply spec_ret
  end.

Lemma drop_two (L : list Res) (a b : Z) : drop_one (RDma a) (drop_one (RDma b) (RDma a :: RDma b :: L)) = L.
Proof.
  simpl. destruct (decide (RDma a = RDma b)) as [E|E]; [rewrite E; by rewrite drop_here|]. by rewrite decide_True, drop_here.
Qed.

Lemma drop_window (L : list Res) (a b m : Z) : drop_one (RWindow m) (RDma a :: RDma b :: RWindow m :: L) = RDma a :: RDma b :: L.
Proof. simpl. by rewrite decide_True. Qed.

Lemma hda_release_spec (L : list Res) (h : Hda) :
  spec (RDma (pcm h) :: RDma (bdl h) :: RWindow (mmio h) :: L) (release env h) (fun _ L' => L' = L).
Proof.
  unfold release. eapply spec_results; [apply keeps_stop|apply stop_handles|]. intros h' [= E1 E2 E3].
  apply spec_keeps; [apply keeps_write32|]. intros _. unfold sys_pci_disable, sys_pci_bar_unmap, sys_dma_free, call. rewrite E1, E2, E3.
  spec_call. autorewrite with settle. rewrite drop_window. apply drop_two.
Qed.

Lemma release_after (L : list Res) (h : Hda) (m b p : Z) :
  handles h = (m, b, p) -> spec (RDma p :: RDma b :: RWindow m :: L) (release env h;;; ret (@None Statics)) (after_init L).
Proof.
  intros [= <- <- <-]. eapply spec_bind; [apply hda_release_spec|]. intros _ L' ->. by apply spec_ret.
Qed.

Lemma hda_init_spec (L : list Res) (fuel : nat) (entry : Z) :
  spec L (kdm_init env fuel entry) (after_init L).
Proof.
  unfold kdm_init. apply spec_keeps; [apply keeps_find|]. intros [[b|]|]; [| |by apply spec_ret].
  2:{ apply spec_keeps; [apply keeps_println|]. intros _. by apply spec_ret. }
  unfold sys_pci_bar_map, sys_pci_enable, sys_pci_bar_unmap, sys_dma_alloc, sys_dma_free, sys_irq_claim, sys_heap_alloc, sys_irq_release,
    sys_thread_spawn, sys_thread_join, sys_ipc_open, call.
  spec_call. rewrite settle_map. destruct (_ =? u64_max); [by apply spec_ret|]. set (m := r_val r).
  spec_call. autorewrite with settle. destruct (_ =? u64_max); [by spec_call; autorewrite with settle|].
  spec_call. rewrite settle_alloc. destruct (_ =? u64_max); [by spec_call; autorewrite with settle|]. set (bd := r_val r1).
  spec_call. rewrite settle_alloc. destruct (_ =? u64_max); [by spec_call; autorewrite with settle|]. set (pc := r_val r2).
  apply spec_keeps; [apply keeps_write32|]. intros _. apply spec_keeps; [apply keeps_reset|]. intros ok.
  match goal with |- context [new_hda ?a ?b ?c ?d ?e ?f] => set (h := new_hda a b c d e f) end.
  assert (handles h = (m, bd, pc)) as Hh by done. clearbody h.
  apply (spec_results _ (fun r => handles (snd r) = (m, bd, pc))).
  { destruct ok; [apply keeps_discover|apply extends_ret]. }
  { destruct ok; [rewrite <-Hh; apply discover_handles|by apply results_ret]. }
  clear h Hh. intros [[] h] Hh; simpl in Hh; cbn [negb].
  2:{ apply spec_keeps; [apply keeps_println|]. intros _. by apply release_after. }
  apply spec_keeps; [apply keeps_configure|]. intros _.
  eapply spec_results; [apply keeps_setup|apply setup_handles|]. intros h1 Hh1. rewrite Hh in Hh1. clear h Hh ok.
  spec_call. rewrite settle_claim. destruct (_ =? u64_max); [by apply release_after|].
  set (irq := r_val r3 mod 256).
  spec_call. autorewrite with settle. destruct (_ =? u64_max).
  { spec_call. autorewrite with settle. by apply release_after. }
  spec_call. autorewrite with settle. destruct (_ =? 0).
  { spec_call. autorewrite with settle. by apply release_after. }
  apply spec_keeps; [apply keeps_read16|]. intros cap. apply spec_keeps; [apply keeps_write32|]. intros _.
  spec_call. autorewrite with settle. destruct (_ =? u64_max).
  { spec_call. autorewrite with settle. by apply release_after. }
  apply spec_ret. injection Hh1 as E1 E2 E3. unfold after_init, owned. cbn [HDA IRQ_NUMBER]. rewrite E1, E2, E3.
  split_and!; [done..|]. unfold irq. by match goal with H : exists log, r3 = _ |- _ => destruct H as [? ->] end.
Qed.

Lemma hda_exit_spec (L : list Res) (s : Statics) :
  HDA s <> None -> IRQ_NUMBER s <> 0 -> spec (owned s L) (kdm_exit env s) (fun _ L' => L' = L).
Proof.
  intros Hs Hn. unfold kdm_exit, owned. destruct (HDA s) as [h|]; [|done].
  apply spec_assoc. eapply spec_results; [apply keeps_stop|apply stop_handles|]. intros h' [= E1 E2 E3].
  apply spec_assoc, spec_keeps; [apply keeps_write32|]. intros _. apply spec_ret_bind.
  rewrite (proj2 (Z.eqb_neq _ _) Hn). cbn [negb]. unfold sys_irq_release, sys_thread_join, call. spec_call. autorewrite with settle.
  rewrite <-E1, <-E2, <-E3. apply spec_keeps.
  { destruct (negb _); keeps_tac. }
  intros _. eapply spec_bind; [apply hda_release_spec|]. intros _ L' ->. unfold do_.
  destruct (negb _); spec_call; done.
Qed.
(** The instance that [_start] runs. *)
Definition hda_driver (devices turns fuel : nat) (entry : Z) : Driver Statics :=
  {| DriverRt.kdm_init := kdm_init env devices entry; DriverRt.kdm_run := kdm_run env turns fuel; DriverRt.kdm_exit := kdm_exit env |}.

Lemma start_spec (devices turns fuel : nat) (entry : Z) (L : list Res) :
  spec L (@start env _ (hda_driver devices turns fuel entry))
    (fun ended L' => if ended : bool then L' = L else exists s, HDA s <> None /\ L' = owned s L).
Proof.
  unfold start. apply spec_keeps; [unfold sys_signal_catch; by apply keeps_do|]. intros _.
  eapply spec_bind; [apply hda_init_spec|]. intros [s|] L' HL'.
  2:{ apply spec_keeps; [unfold sys_exit; by apply keeps_do|]. intros _. by apply spec_ret. }
  destruct HL' as (-> & Hs & Hn). cbn [DriverRt.kdm_run DriverRt.kdm_exit hda_driver]. destruct (run_holds env turns fuel s) as [Hk Hr].
  eapply spec_results; [exact Hk|exact Hr|]. intros [s'|] Ho.
  2:{ apply spec_ret. by exists s. }
  destruct (Ho s' eq_refl) as (E1 & _ & E3). eapply spec_bind.
  { rewrite <-(same_owned s s' L) by done. apply hda_exit_spec; [|by rewrite E1]. by destruct (HDA s), (HDA s'). }
  intros _ L' ->. apply spec_keeps; [unfold sys_exit; by apply keeps_do|]. intros _. by apply spec_ret.
Qed.
End Cycle.

(** C34: The driver gives back what it takes.  Whatever the kernel and the controller answer,
    and wherever the start-up fails, when [_start] ends the device window, both DMA
    buffers and the interrupt line it took have been given back, provided that no device
    is wired to line 0; while it still runs (or when it panicked on a length beyond its
    buffer, and never came to its exit) it holds these four and nothing else. *)
Theorem driver_gives_back (env : Log -> Ev -> Reply) (devices turns fuel : nat) (entry : Z) (log : Log) :
  (forall log b, r_val (env log (Sys SYS_IRQ_CLAIM b 0 0)) mod 256 <> 0) ->
  let '(ended, log') := @start env _ (hda_driver env devices turns fuel entry) log in
  if ended : bool then held log' = held log
  else exists s, HDA s <> None /\ held log' = owned s (held log).
Proof.
  intros Hline. apply (start_spec env Hline devices turns fuel entry (held log) log eq_refl).
Qed.

(** * Messages that do not fit a chunk *)

Lemma write_pcm_channels (env : Log -> Ev -> Reply) (data : list Z) (h : Hda) :
  results (fun r => channels (snd r) = channels h) (write_pcm env data h).
Proof.
  unfold write_pcm, refresh. eapply (results_then (fun h' => channels h' = channels h)); [by results_tac|].
  intros h' Hh. by results_tac.
Qed.
Lemma write_pcm_short (env : Log -> Ev -> Reply) (data : list Z) (h : Hda) :
  Z.of_nat (length data) < frame_bytes h ->
  results (fun r => fst r = 0 /\ channels (snd r) = channels h) (write_pcm env data h).
Proof.
  intros Hd. unfold write_pcm, refresh. eapply (results_then (fun h' => channels h' = channels h)); [by results_tac|].
  intros h' Hh. assert (frames_of h' data = 0) as Hf.
  { unfold frames_of, frame_bytes in *. rewrite Hh, Z.div_small by lia. done. }
  results_tac; simpl; rewrite ?Hf; done.
Qed.

(** A message with less than one frame of samples holds the driver up for good: nothing
    can be copied, so [write_pcm] answers 0 as it does when the ring is full, and the loop
    goes on, queueing a chunk of silence each time, until the driver is told to end. *)
Theorem short_message_never_ends (env : Log -> Ev -> Reply) (fuel : nat) (data : list Z) (h : Hda) (log : Log) :
  (forall log, r_val (env log (Sys SYS_SIGNAL_CHECK 0 0 0)) = 0) -> Z.of_nat (length data) < frame_bytes h ->
  fst (play env fuel data h log) = None.
Proof.
  intros Hsig. revert h log. induction fuel as [|n IH]; intros h log Hd; [done|]. cbn [play].
  apply (results_then (fun r => fst r = 0 /\ channels (snd r) = channels h) (fun o => o = None)); [by apply write_pcm_short|].
  intros [k h'] [Hk Hc] log1. simpl in Hk, Hc. subst k. cbn [Z.eqb]. unfold sys_signal_check, call, event, bind, ret. rewrite Hsig. simpl.
  apply IH. unfold frame_bytes in *. by rewrite Hc.
Qed.

Lemma put_frames_prefix (n : nat) (mono : bool) (data tail : list Z) (target frame : nat) (mem : list Z) :
  ((frame + n) * (if mono then 2 else 4) <= length data)%nat ->
  put_frames n mono (data ++ tail) target frame mem = put_frames n mono data target frame mem.
Proof.
  revert frame mem. induction n as [|n IH]; intros frame mem Hn; [done|]. cbn [put_frames]. rewrite IH by lia. f_equal. unfold put_frame.
  destruct mono; rewrite !drop_app_le by lia; rewrite !take_app_le by (rewrite length_drop; lia); done.
Qed.

Lemma tail_no_effect (data tail : list Z) (h : Hda) :
  Z.of_nat (length data) = CHUNK_FRAMES * frame_bytes h ->
  frames_of h (data ++ tail) = frames_of h data /\ fill_chunk (data ++ tail) h = fill_chunk data h.
Proof.
  intros Hd. destruct (frames_fit h data) as [Hfit _].
  assert (0 < frame_bytes h) as Hp by (unfold frame_bytes; lia).
  assert (frames_of h (data ++ tail) = frames_of h data) as E.
  { unfold frames_of. rewrite length_app, Nat2Z.inj_add, Hd, Z.div_mul by lia.
    assert (CHUNK_FRAMES <= (CHUNK_FRAMES * frame_bytes h + Z.of_nat (length tail)) / frame_bytes h); [|lia].
    apply Z.div_le_lower_bound; lia. }
  split; [done|]. unfold fill_chunk. rewrite E. rewrite put_frames_prefix; [done|]. destruct (frame_bytes h =? 2)%Z; lia.
Qed.

Lemma write_pcm_tail (env : Log -> Ev -> Reply) (data tail : list Z) (h : Hda) (log : Log) :
  Z.of_nat (length data) = CHUNK_FRAMES * frame_bytes h -> write_pcm env (data ++ tail) h log = write_pcm env data h log.
Proof.
  intros Hd. unfold write_pcm, bind. destruct (refresh env h log) as [h1 log1] eqn:Er.
  assert (frame_bytes h1 = frame_bytes h) as E by (unfold refresh, read32, call, event, bind, ret in Er; by injection Er as <- _).
  rewrite <-E in Hd. destruct (tail_no_effect data tail h1 Hd) as [-> ->]. done.
Qed.

(** The rest of a message longer than a chunk is lost.  The message loop only asks
    whether [write_pcm] copied anything, not how much: what follows the first chunk of
    samples has no effect at all, though the kernel passes on messages of 8191 bytes. *)
Theorem tail_of_message_lost (env : Log -> Ev -> Reply) (fuel : nat) (data tail : list Z) (h : Hda) (log : Log) :
  Z.of_nat (length data) = CHUNK_FRAMES * frame_bytes h ->
  play env fuel (data ++ tail) h log = play env fuel data h log.
Proof.
  intros Hd. revert h log Hd. induction fuel as [|n IH]; intros h log Hd; [done|]. cbn [play]. unfold bind.
  rewrite write_pcm_tail by done. pose proof (write_pcm_channels env data h log) as Hc. destruct (write_pcm env data h log) as [[k h1] log1].
  simpl in Hc. destruct (k =? 0); [|done]. destruct (sys_signal_check env log1) as [[] log2]; [done|].
  destruct (sys_sleep env 1 log2) as [? log3]. apply IH. unfold frame_bytes in *. by rewrite Hc.
Qed.

Module Example.

(** The last verb written to the controller at [base]. *)
Definition last_verb (base : Z) (log : Log) : Z :=
  foldl (fun v er => match fst er with Wr 4 a x => if a =? base + HDA_ICO then x else v | _ => v end) 0 log.

(** A codec with one function group (node 1), a converter (node 2) and an output pin
    (node 3). *)
Definition codec_answer (v : Z) : Z :=
  if v =? 0xf0004 then 0x10001 else if v =? 0x1f0005 then 1 else if v =? 0x1f0004 then 0x20002
  else if v =? 0x3f0009 then 0x400000 else if v =? 0x3f000c then 16 else 0.

(** A machine with that controller, on line 11, and one device. *)
Definition machine (log : Log) (e : Ev) : Reply :=
  let v x := mkReply x [] in
  match e with
  | Sys n a _ _ =>
      if n =? SYS_PCI_INFO then mkReply 1 [0; 3; 0; 0; 0; 0; 0; 0; 4; 3]
      else if n =? SYS_PCI_BAR_MAP then v 4096
      else if n =? SYS_DMA_ALLOC then v (if a =? 4096 then 131072 else 196608)
      else if n =? SYS_IRQ_CLAIM then v 11
      else if n =? SYS_HEAP_ALLOC then v 262144
      else if n =? SYS_THREAD_SPAWN then v 7
      else if n =? SYS_IPC_RECV then v u64_max
      else v 0
  | Rd _ a =>
      if a =? 4096 + HDA_ICS then v 2
      else if a =? 4096 + HDA_IRI then v (codec_answer (last_verb 4096 log))
      else v 1
  | _ => v 3
  end.

Definition trace : bool * Log := @start machine _ (hda_driver machine 4 4 4 0) [].

Lemma machine_line (log : Log) (b : Z) : r_val (machine log (Sys SYS_IRQ_CLAIM b 0 0)) mod 256 <> 0.
Proof. change (11 mod 256 <> 0). done. Qed.

Definition gives_line_back (e : Ev) : bool := match e with Sys n a _ _ => (n =? SYS_IRQ_RELEASE) && (a =? 11) | _ => false end.

Lemma driver_gives_back_witness :
  fst trace = true /\ existsb gives_line_back (fst <$> snd trace) = true /\ held (snd trace) = [].
Proof.
  assert (fst trace = true) as He by (vm_compute; reflexivity).
  assert (existsb gives_line_back (fst <$> snd trace) = true) as Hr by (vm_compute; reflexivity).
  pose proof (driver_gives_back machine 4 4 4 0 [] machine_line) as Hs.
  revert He Hr Hs. unfold trace. destruct (@start _ _ _ _) as [ended log']. cbn [fst snd]. intros -> Hr Hs. split_and!; [reflexivity|exact Hr|exact Hs].
Defined.

(** A ring with [w] chunks written and the controller at byte 100. *)
Definition ring (w : Z) : Hda := set_position w 0 100 0 (set_stream 128 [] (new_hda 0 4096 131072 0 196608 0)).
Lemma ring_tracks (w : Z) : tracks (ring w) 100.
Proof. repeat split; vm_compute; congruence. Qed.
Lemma ring_length (w : Z) : 0 <= w -> ring_ok (ring w).
Proof. intros Hw. split; [exact (length_replicate (Z.to_nat PCM_BYTES) 0)|done]. Qed.

Lemma chunk_written_ahead_witness :
  let h := refresh_at (4900 mod PCM_BYTES) (ring 2) in
  full h = false /\ written (fill_chunk [1; 2; 3; 4] h) = 3 /\ (forall k, 1 <= k < 2 -> k mod CHUNKS <> 2).
Proof.
  intros h. assert (full h = false) as Hf by (vm_compute; reflexivity). split; [exact Hf|].
  destruct (chunk_written_ahead [1; 2; 3; 4] (ring 2) 100 4900 (ring_tracks 2) ltac:(vm_compute; split; congruence) (ring_length 2 ltac:(lia))
    ltac:(reflexivity) Hf) as (Hk & Hw & _).
  split; [exact Hw|]. intros k H1. exact (Hk k H1).
Defined.

Lemma underrun_overwrites_playing_witness :
  let h := refresh_at (4900 mod PCM_BYTES) (ring 1) in full h = false /\ written h mod CHUNKS = 1.
Proof.
  exact (underrun_overwrites_playing [] (ring 1) 100 4900 (ring_tracks 1) ltac:(vm_compute; split; congruence) ltac:(vm_compute; congruence) eq_refl).
Defined.

Lemma short_message_never_ends_witness : fst (play machine (Z.to_nat 100000) [1; 2; 3] (ring 0) []) = None.
Proof. apply (short_message_never_ends machine (Z.to_nat 100000) [1; 2; 3] (ring 0) []); [intros; reflexivity|reflexivity]. Defined.

Lemma tail_of_message_lost_witness :
  play machine 3 (replicate (Z.to_nat 4800) 7 ++ [9; 9]) (ring 0) [] = play machine 3 (replicate (Z.to_nat 4800) 7) (ring 0) [].
Proof. apply (tail_of_message_lost machine 3 (replicate (Z.to_nat 4800) 7) [9; 9] (ring 0) []). rewrite length_replicate. reflexivity. Defined.

End Example.

End Hda.
