(* ===== verification/Mouse.v ===== *)
(** The mouse driver, [userspace/drivers/ps2mouse.rs]: the packet state machine, the
    messages it sends and its life cycle over the driver runtime.  The controller is
    reached by port accesses, which are events of [DriverRt.v]. *)
From stdpp Require Import base list numbers option strings sets.
From S2P Require Import Prelude Handlers Shell DriverRt.

Open Scope Z_scope.

Module Mouse.
Import Handlers DriverRt.
Open Scope driver_scope.

(** The statics: the channel and the packet being assembled. *)
Record Packet := mkPacket { PKT : list Z; PKT_IDX : Z }.
Record Mouse := mkMouse { IPC_CH : Z; packet : Packet }.
Definition new_packet : Packet := mkPacket [0; 0; 0] 0.

Record Event := mkEvent { buttons : Z; dx : Z; dy : Z }.
#[export] Instance Event_eq_dec : EqDecision Event.
Proof. solve_decision. Defined.

(** [byte as i16], less 256 when the sign bit of the header is set. *)
Definition delta (sign byte : Z) : Z := if negb (sign =? 0) then byte - 256 else byte.

Definition feed_byte (data : Z) (p : Packet) : option Event * Packet :=
  let idx := PKT_IDX p in
  let pb := <[Z.to_nat idx := data]> (PKT p) in
  if idx =? 0 then
    if Z.land data 8 =? 0 then (None, mkPacket pb 0) else (None, mkPacket pb 1)
  else if idx =? 1 then (None, mkPacket pb 2)
  else
    let at_ i := default 0 (pb !! i) in
    (Some (mkEvent (Z.land (at_ 0%nat) 7) (delta (Z.land (at_ 0%nat) 16) (at_ 1%nat)) (delta (Z.land (at_ 0%nat) 32) (at_ 2%nat))), mkPacket pb 0).

(** The five bytes of a message: [i16::to_le_bytes] after the buttons. *)
Definition message (e : Event) : list Z := buttons e :: to_le 2 (dx e mod 65536) ++ to_le 2 (dy e mod 65536).

Definition MOUSE_CHANNEL : list Z := Shell.bytes "module_mouse".

Section Driver.
Variable env : Log -> Ev -> Reply.

Definition inb (port : Z) : M Z := r <- call env (In8 port);; ret (r mod 256).
Definition outb (port v : Z) : M unit := do_ env (Out8 port v).

Definition ps2_wait_write : M unit := poll (Z.to_nat 10000) (s <- inb 0x64;; ret (Z.land s 2 =? 0)) (ret tt).
Definition mouse_cmd (cmd : Z) : M unit := ps2_wait_write;;; outb 0x64 0xd4;;; ps2_wait_write;;; outb 0x60 cmd.

Definition send_event (ch : Z) (e : Event) : M unit :=
  if (ch =? 0) || (ch =? u64_max) then ret tt else sys_ipc_send env ch (message e);;; ret tt.

(** The bytes left over at the start. *)
Fixpoint drain_leftover (n : nat) : M unit :=
  match n with
  | O => ret tt
  | S n' => s <- inb 0x64;; if negb (Z.land s 1 =? 0) then inb 0x60;;; drain_leftover n' else ret tt
  end.

Definition kdm_init : M (option Mouse) :=
  b <- sys_ioport_request env 0x60 1;; if negb b then ret None else
  b <- sys_ioport_request env 0x64 1;; if negb b then ret None else
  ch <- sys_ipc_open env MOUSE_CHANNEL;; if ch =? u64_max then ret None else
  outb 0x64 0xa8;;; mouse_cmd 0xf6;;; mouse_cmd 0xf4;;;
  drain_leftover 16;;; ret (Some (mkMouse ch new_packet)).

(** The inner loop of [kdm_run]. *)
Fixpoint drain (n : nat) (s : Mouse) : M Mouse :=
  match n with
  | O => ret s
  | S n' =>
      status <- inb 0x64;;
      if Z.land status 1 =? 0 then ret s
      else if Z.land status 0x20 =? 0 then ret s
      else
        data <- inb 0x60;;
        let '(o, p) := feed_byte data (packet s) in
        match o with Some e => send_event (IPC_CH s) e | None => ret tt end;;;
        drain n' (mkMouse (IPC_CH s) p)
  end.

Fixpoint kdm_run (turns : nat) (s : Mouse) : M (option Mouse) :=
  match turns with
  | O => ret None
  | S n =>
      sys_sleep_tick env;;;
      sig <- sys_signal_check env;;
      if sig : bool then ret (Some s) else s <- drain 16 s;; kdm_run n s
  end.

Fixpoint drain_exit (n : nat) : M unit :=
  match n with
  | O => ret tt
  | S n' =>
      status <- inb 0x64;;
      if Z.land status 1 =? 0 then ret tt
      else if negb (Z.land status 0x20 =? 0) then inb 0x60;;; drain_exit n' else ret tt
  end.

Definition kdm_exit (s : Mouse) : M unit :=
  mouse_cmd 0xf5;;; drain_exit 16;;; ps2_wait_write;;; outb 0x64 0xa7;;;
  if negb (IPC_CH s =? 0) && negb (IPC_CH s =? u64_max) then do_ env (Sys SYS_IPC_CLOSE (IPC_CH s) 0 0) else ret tt.

#[export] Instance mouse_driver (turns : nat) : Driver Mouse :=
  {| DriverRt.kdm_init := kdm_init; DriverRt.kdm_run := kdm_run turns; DriverRt.kdm_exit := kdm_exit |}.
End Driver.

(** * The packets *)

(** The events and the packet state after a run of bytes. *)
Fixpoint feed_all (bytes : list Z) (p : Packet) : list Event * Packet :=
  match bytes with
  | [] => ([], p)
  | b :: l => let '(o, p) := feed_byte b p in let '(es, p) := feed_all l p in (option_list o ++ es, p)
  end.

Definition ready (p : Packet) : Prop := PKT_IDX p = 0 /\ length (PKT p) = 3%nat.

(** What the mouse sends: three bytes, with bit 3 of the first set and the signs of the
    nine-bit movements in bits 4 and 5. *)
Definition encode (e : Event) : list Z :=
  [8 + buttons e + (if dx e <? 0 then 16 else 0) + (if dy e <? 0 then 32 else 0); dx e mod 256; dy e mod 256].
Definition valid (e : Event) : Prop := 0 <= buttons e < 8 /\ -256 <= dx e < 256 /\ -256 <= dy e < 256.

Lemma feed_all_app (l1 l2 : list Z) (p : Packet) :
  feed_all (l1 ++ l2) p =
  (fst (feed_all l1 p) ++ fst (feed_all l2 (snd (feed_all l1 p))), snd (feed_all l2 (snd (feed_all l1 p)))).
Proof.
  revert p. induction l1 as [|b l1 IH]; intros p; simpl; [by destruct (feed_all l2 p)|].
  destruct (feed_byte b p) as [o p1]. rewrite IH. destruct (feed_all l1 p1) as [es p2]. simpl. by rewrite app_assoc.
Qed.

Lemma delta_mod (v : Z) : -256 <= v < 256 -> delta (if v <? 0 then 1 else 0) (v mod 256) = v.
Proof.
  intros Hv. unfold delta. destruct (v <? 0) eqn:E; zbool; simpl; [|by rewrite Z.mod_small by lia].
  replace v with (v + 256 + (-1) * 256) at 1 by lia. rewrite Z.mod_add, Z.mod_small by lia. lia.
Qed.
Lemma header_bits (b : Z) (sx sy : bool) :
  0 <= b < 8 -> let h := 8 + b + (if sx then 16 else 0) + (if sy then 32 else 0) in
  Z.land h 8 = 8 /\ Z.land h 7 = b /\ negb (Z.land h 16 =? 0) = sx /\ negb (Z.land h 32 =? 0) = sy.
Proof.
  intros Hb. assert (b = 0 \/ b = 1 \/ b = 2 \/ b = 3 \/ b = 4 \/ b = 5 \/ b = 6 \/ b = 7) as Hc by lia.
  destruct sx, sy; repeat destruct Hc as [->|Hc]; try subst b; by vm_compute.
Qed.

Lemma feed_packet (e : Event) (p : Packet) :
  valid e -> ready p -> exists p', feed_all (encode e) p = ([e], p') /\ ready p'.
Proof.
  intros (Hb & Hx & Hy) (Hi & Hl). destruct p as [pk idx]. simpl in Hi, Hl. subst idx.
  destruct pk as [|a [|b [|c [|]]]]; try done. destruct e as [bt x y]. simpl in Hb, Hx, Hy.
  destruct (header_bits bt (x <? 0) (y <? 0) Hb) as (H8 & H7 & H16 & H32).
  unfold encode. cbn [buttons dx dy]. set (h := 8 + bt + _ + _) in *. cbn [feed_all].
  unfold feed_byte at 1. cbn [PKT_IDX PKT Z.eqb]. rewrite H8. cbn [Z.eqb Z.to_nat insert list_insert].
  exists (mkPacket [h; x mod 256; y mod 256] 0). split; [|done].
  simpl. rewrite H7. unfold delta. rewrite H16, H32.
  pose proof (delta_mod x Hx) as Dx. pose proof (delta_mod y Hy) as Dy. unfold delta in Dx, Dy.
  destruct (x <? 0), (y <? 0); simpl in Dx, Dy; by rewrite Dx, Dy.
Qed.

(** Bytes with bit 3 clear are skipped between packets. *)
Lemma feed_junk (junk : list Z) (p : Packet) :
  Forall (fun b => Z.land b 8 = 0) junk -> ready p -> exists p', feed_all junk p = ([], p') /\ ready p'.
Proof.
  intros Hj. revert p. induction Hj as [|b junk Hb _ IH]; intros p Hp; [by exists p|].
  cbn [feed_all]. unfold feed_byte. destruct Hp as [Hi Hl]. rewrite Hi, Hb. cbn [Z.eqb].
  destruct (IH (mkPacket (<[Z.to_nat 0 := b]> (PKT p)) 0)) as (p' & -> & Hp'); [|by exists p'].
  split; [done|]. cbn [PKT]. by rewrite length_insert.
Qed.

Lemma feed_packets (es : list Event) (p : Packet) :
  Forall valid es -> ready p -> exists p', feed_all (es ≫= encode) p = (es, p') /\ ready p'.
Proof.
  intros He. revert p. induction He as [|e es Hv _ IH]; intros p Hp; [by exists p|].
  change ((e :: es) ≫= encode) with (encode e ++ (es ≫= encode)). rewrite feed_all_app. destruct (feed_packet e p Hv Hp) as (p1 & -> & Hp1). simpl.
  destruct (IH p1 Hp1) as (p2 & -> & Hp2). by exists p2.
Qed.

(** * The driver *)

(** The bytes read from the data port, and the messages sent, in a stretch of the log. *)
Definition byte_of (er : Ev * Reply) : option Z := match er with (In8 port, r) => if port =? 0x60 then Some (r_val r mod 256) else None | _ => None end.
Definition sent_of (er : Ev * Reply) : option (Z * list Z) :=
  match er with (SysData n ch d, _) => if n =? SYS_IPC_SEND then Some (ch, d) else None | _ => None end.

(** The stretch [l] takes the driver from [s] to [s']: what it sent is what the packet
    state machine makes of the bytes it read. *)
Definition explains (s : Mouse) (l : Log) (s' : Mouse) : Prop :=
  omap sent_of l = (fun e => (IPC_CH s, message e)) <$> fst (feed_all (omap byte_of l) (packet s)) /\
  s' = mkMouse (IPC_CH s) (snd (feed_all (omap byte_of l) (packet s))).

Lemma explains_nil (s : Mouse) : explains s [] s.
Proof. split; [done|by destruct s]. Qed.
Lemma explains_app (s s1 s2 : Mouse) (l1 l2 : Log) : explains s l1 s1 -> explains s1 l2 s2 -> explains s (l1 ++ l2) s2.
Proof.
  intros [S1 E1] [S2 E2]. subst s1. simpl in S2, E2. unfold explains. rewrite !omap_app, feed_all_app. simpl.
  by rewrite fmap_app, S1, S2.
Qed.
Lemma explains_idle (s : Mouse) (er : Ev * Reply) (l : Log) (s' : Mouse) :
  byte_of er = None -> sent_of er = None -> explains s l s' -> explains s (er :: l) s'.
Proof. intros Hb Hs [S E]. unfold explains. simpl. by rewrite Hb, Hs. Qed.
Lemma explains_byte (s : Mouse) (r r' : Reply) (o : option Event) (p : Packet) :
  feed_byte (r_val r mod 256) (packet s) = (o, p) ->
  explains s ((In8 0x60, r) :: (match o with Some e => [(SysData SYS_IPC_SEND (IPC_CH s) (message e), r')] | None => [] end)) (mkMouse (IPC_CH s) p).
Proof. intros Hf. unfold explains. destruct o; simpl; by rewrite Hf. Qed.

Definition open_channel (s : Mouse) : Prop := IPC_CH s <> 0 /\ IPC_CH s <> u64_max.

Section Trace.
Variable env : Log -> Ev -> Reply.

Lemma send_event_log (ch : Z) (e : Event) (log : Log) :
  ch <> 0 -> ch <> u64_max -> exists r, send_event env ch e log = (tt, log ++ [(SysData SYS_IPC_SEND ch (message e), r)]).
Proof.
  intros H0 H1. unfold send_event. rewrite (proj2 (Z.eqb_neq _ _) H0), (proj2 (Z.eqb_neq _ _) H1).
  unfold sys_ipc_send, call, event, bind, ret. simpl. by eexists.
Qed.

Lemma drain_explained (n : nat) (s : Mouse) (log : Log) :
  open_channel s -> exists l, snd (drain env n s log) = log ++ l /\ explains s l (fst (drain env n s log)).
Proof.
  revert s log. induction n as [|n IH]; intros s log Hs; [exists []; rewrite app_nil_r; split; [done|apply explains_nil]|].
  cbn [drain]. unfold inb, call. unfold event, bind, ret. set (r0 := env log (In8 0x64)).
  destruct (Z.land _ 1 =? 0); [by exists [(In8 0x64, r0)]; split; [|apply explains_idle; [..|apply explains_nil]]|].
  destruct (Z.land _ 32 =? 0); [by exists [(In8 0x64, r0)]; split; [|apply explains_idle; [..|apply explains_nil]]|].
  set (log1 := log ++ [(In8 0x64, r0)]). set (r1 := env log1 (In8 0x60)).
  destruct (feed_byte (r_val r1 mod 256) (packet s)) as [o p] eqn:Ef.
  assert (exists r', match o with Some e => send_event env (IPC_CH s) e | None => fun log => (tt, log) end (log1 ++ [(In8 0x60, r1)]) =
    (tt, (log1 ++ [(In8 0x60, r1)]) ++ match o with Some e => [(SysData SYS_IPC_SEND (IPC_CH s) (message e), r')] | None => [] end)) as [r' Hr'].
  { destruct o; [by apply send_event_log; apply Hs|exists r1; by rewrite app_nil_r]. }
  rewrite Hr'. match goal with |- context [drain env n ?s1 ?lg] => destruct (IH s1 lg Hs) as (l & E & X) end. rewrite E.
  exists ([(In8 0x64, r0)] ++ ((In8 0x60, r1) :: match o with Some e => [(SysData SYS_IPC_SEND (IPC_CH s) (message e), r')] | None => [] end) ++ l).
  split; [unfold log1; by rewrite <-!app_assoc|]. apply explains_idle; [done..|].
  eapply explains_app; [by apply explains_byte|exact X].
Qed.

Lemma explains_channel (s s' : Mouse) (l : Log) : explains s l s' -> IPC_CH s' = IPC_CH s.
Proof. by intros [_ ->]. Qed.

Lemma run_explained (turns : nat) (s : Mouse) (log : Log) :
  open_channel s -> exists l s', snd (kdm_run env turns s log) = log ++ l /\ explains s l s' /\ forall s1, fst (kdm_run env turns s log) = Some s1 -> s1 = s'.
Proof.
  revert s log. induction turns as [|n IH]; intros s log Hs; [exists [], s; rewrite app_nil_r; split; [done|split; [apply explains_nil|done]]|].
  cbn [kdm_run]. unfold sys_sleep_tick, sys_signal_check, call, do_, event, bind, ret.
  set (log1 := log ++ _). set (log2 := log1 ++ _). destruct (negb _).
  { eexists _, s. split; [unfold log2, log1; by rewrite <-app_assoc|]. split; [repeat apply explains_idle; try done; apply explains_nil|naive_solver]. }
  destruct (drain_explained 16 s log2 Hs) as (l & E & X). destruct (drain env 16 s log2) as [s1 log3]. cbn [fst snd] in *. subst log3.
  assert (open_channel s1) as Hs1 by (unfold open_channel; by rewrite (explains_channel s s1 l)).
  destruct (IH s1 (log2 ++ l) Hs1) as (l' & s' & E' & X' & R'). eexists _, s'. split; [rewrite E'; unfold log2, log1; by rewrite <-!app_assoc|].
  split; [|done]. simpl. repeat (apply explains_idle; [done..|]). by eapply explains_app.
Qed.
End Trace.

End Mouse.
