(* ===== verification/MouseTest.v ===== *)
(** The mouse test program, [userspace/programs/mousetest.rs]: pixels and text on the
    mapped framebuffer, the crosshair that is saved, drawn and taken away again, the
    status line, and the loop over the messages of the mouse driver. *)
From stdpp Require Import base list numbers option strings sets.
From S2P Require Import Prelude Process Ipc Handlers Shell DriverRt Mouse.

Open Scope Z_scope.

Module MouseTest.
Import Handlers.

Definition wrap32 (x : Z) : Z := x mod 2 ^ 32.
Definition to_i32 (x : Z) : Z := if x <? 2 ^ 31 then x else x - 2 ^ 32.

Definition BG_COLOR : Z := 1052688.
Definition TEXT_COLOR : Z := 16777215.
Definition BTN_COLOR : Z := 52479.

(** The pixels are the list [base] points to. *)
Record FbInfo := mkFb { width : Z; height : Z; stride : Z; format : Z }.
Notation Fb := (list Z) (only parsing).

Definition pack (info : FbInfo) (r g b : Z) : Z :=
  if format info =? 1 then Z.lor (Z.lor (Z.shiftl b 16) (Z.shiftl g 8)) r else Z.lor (Z.lor (Z.shiftl r 16) (Z.shiftl g 8)) b.
Definition unpack_rgb (info : FbInfo) (px : Z) : Z * Z * Z :=
  if format info =? 1 then (Z.land px 255, Z.land (Z.shiftr px 8) 255, Z.land (Z.shiftr px 16) 255)
  else (Z.land (Z.shiftr px 16) 255, Z.land (Z.shiftr px 8) 255, Z.land px 255).

Definition outside (info : FbInfo) (x y : Z) : bool := (width info <=? x) || (height info <=? y).
Definition addr (info : FbInfo) (x y : Z) : nat := Z.to_nat (wrap32 (y * stride info + x)).
Definition put_pixel (info : FbInfo) (x y color : Z) (fb : Fb) : Fb :=
  if outside info x y then fb else <[addr info x y := color]> fb.
Definition get_pixel (info : FbInfo) (x y : Z) (fb : Fb) : Z :=
  if outside info x y then 0 else default 0 (fb !! addr info x y).

Definition fill_rect (info : FbInfo) (x y w h color : Z) (fb : Fb) : Fb :=
  foldl (fun fb dy => foldl (fun fb dx => put_pixel info (wrap32 (x + dx)) (wrap32 (y + dy)) color fb) fb (seqZ 0 w)) fb (seqZ 0 h).

(** ** Text *)

Definition glyph (c : Z) : list Z :=
  match c with
  | 48 => [126; 129; 129; 129; 129; 129; 126]
  | 49 => [16; 48; 16; 16; 16; 16; 56]
  | 50 => [126; 1; 1; 126; 128; 128; 255]
  | 51 => [126; 1; 1; 62; 1; 1; 126]
  | 52 => [129; 129; 129; 127; 1; 1; 1]
  | 53 => [255; 128; 128; 254; 1; 1; 254]
  | 54 => [126; 128; 128; 254; 129; 129; 126]
  | 55 => [255; 1; 2; 4; 8; 16; 16]
  | 56 => [126; 129; 129; 126; 129; 129; 126]
  | 57 => [126; 129; 129; 127; 1; 1; 126]
  | 45 => [0; 0; 0; 126; 0; 0; 0]
  | 43 => [0; 24; 24; 126; 24; 24; 0]
  | 76 => [128; 128; 128; 128; 128; 128; 255]
  | 82 => [254; 129; 129; 254; 144; 136; 135]
  | 77 => [129; 195; 165; 153; 129; 129; 129]
  | 120 => [0; 0; 129; 66; 36; 66; 129]
  | 121 => [0; 129; 129; 126; 1; 1; 126]
  | 100 => [1; 1; 127; 129; 129; 129; 127]
  | 88 => [129; 66; 36; 24; 36; 66; 129]
  | 89 => [129; 66; 36; 24; 24; 24; 24]
  | 40 => [24; 48; 96; 96; 96; 48; 24]
  | 41 => [48; 24; 12; 12; 12; 24; 48]
  | 32 => [0; 0; 0; 0; 0; 0; 0]
  | 58 => [0; 24; 24; 0; 24; 24; 0]
  | 44 => [0; 0; 0; 0; 24; 24; 48]
  | _ => [153; 90; 60; 24; 60; 90; 153]
  end.

Definition draw_char (info : FbInfo) (x y c color : Z) (fb : Fb) : Fb :=
  foldl (fun fb '(row, bits) =>
    foldl (fun fb col => if negb (Z.land bits (Z.shiftr 128 col) =? 0) then put_pixel info (wrap32 (x + col)) (wrap32 (y + row)) color fb else fb)
      fb (seqZ 0 8))
    fb (zip (seqZ 0 7) (glyph c)).

Fixpoint draw_str (info : FbInfo) (x y : Z) (s : list Z) (color : Z) (fb : Fb) : Fb :=
  match s with [] => fb | c :: s' => draw_str info (wrap32 (x + 9)) y s' color (draw_char info x y c color fb) end.

(** The digit loops: from position [i] down; the result with the last position written. *)
Fixpoint put_digits (fuel : nat) (tmp : Z) (i : nat) (buf : list Z) : nat * list Z :=
  match fuel with
  | O => (i, buf)
  | S n =>
      let buf := <[i := 48 + tmp mod 10]> buf in
      if tmp / 10 =? 0 then (i, buf) else match i with O => (O, buf) | S i' => put_digits n (tmp / 10) i' buf end
  end.

Definition draw_i16 (info : FbInfo) (x y v color : Z) (fb : Fb) : Fb :=
  let buf := (if v <? 0 then 45 else 43) :: replicate 5 32 in
  draw_str info x y (snd (put_digits 5 (Z.abs v) 5 buf)) color fb.
Definition draw_u32 (info : FbInfo) (x y v color : Z) (fb : Fb) : Fb :=
  let '(i, buf) := put_digits 5 v 4 (replicate 5 48) in draw_str info x y (drop i buf) color fb.

(** ** The crosshair *)

Definition CROSS_HALF : Z := 12.
Definition CROSS_GAP : Z := 3.

Record SavedLines := mkSaved { hbuf : list Z; vbuf : list Z; sx : Z; sy : Z; valid : bool }.
Definition SavedLines_new : SavedLines := mkSaved (replicate 32 0) (replicate 32 0) 0 0 false.

Definition span : Z := 2 * CROSS_HALF + 1.

Definition save_cross (info : FbInfo) (cx cy : Z) (fb : Fb) (s : SavedLines) : SavedLines :=
  let h i := let px := to_i32 cx + (i - CROSS_HALF) in if 0 <=? px then get_pixel info px cy fb else 0 in
  let v i := let py := to_i32 cy + (i - CROSS_HALF) in if 0 <=? py then get_pixel info cx py fb else 0 in
  mkSaved (list_inserts 0 (h <$> seqZ 0 span) (hbuf s)) (list_inserts 0 (v <$> seqZ 0 span) (vbuf s)) cx cy true.

Definition restore_at (info : FbInfo) (s : SavedLines) (fb : Fb) (i : Z) : Fb :=
  let d := i - CROSS_HALF in
  let px := to_i32 (sx s) + d in let py := to_i32 (sy s) + d in
  let fb := if 0 <=? px then put_pixel info px (sy s) (default 0 (hbuf s !! Z.to_nat i)) fb else fb in
  if 0 <=? py then put_pixel info (sx s) py (default 0 (vbuf s !! Z.to_nat i)) fb else fb.
Definition restore_cross (info : FbInfo) (s : SavedLines) (fb : Fb) : Fb :=
  if negb (valid s) then fb else foldl (restore_at info s) fb (seqZ 0 span).

Definition draw_arm (info : FbInfo) (cx cy color : Z) (fb : Fb) (d : Z) : Fb :=
  if Z.abs d <=? CROSS_GAP then fb
  else
    let px := to_i32 cx + d in let py := to_i32 cy + d in
    let fb := if 0 <=? px then put_pixel info px cy color fb else fb in
    if 0 <=? py then put_pixel info cx py color fb else fb.
Definition draw_cross (info : FbInfo) (cx cy color : Z) (fb : Fb) : Fb :=
  foldl (draw_arm info cx cy color) fb (seqZ (- CROSS_HALF) span).

(** ** The status line *)

Definition draw_hud (info : FbInfo) (mx my dx dy buttons : Z) (fb : Fb) : Fb :=
  let str x s := draw_str info x 6 (Shell.bytes s) TEXT_COLOR in
  let grey := pack info 64 64 64 in
  let lb := if negb (Z.land buttons 1 =? 0) then BTN_COLOR else grey in
  let rb := if negb (Z.land buttons 2 =? 0) then BTN_COLOR else grey in
  let mb := if negb (Z.land buttons 4 =? 0) then BTN_COLOR else grey in
  let fb := fill_rect info 0 0 (width info) 20 (pack info 32 32 32) fb in
  let fb := str 4 "mousetest" fb in
  let fb := str 100 "X:" fb in
  let fb := draw_u32 info 118 6 mx TEXT_COLOR fb in
  let fb := str 172 "Y:" fb in
  let fb := draw_u32 info 190 6 my TEXT_COLOR fb in
  let fb := str 244 "dX:" fb in
  let fb := draw_i16 info 271 6 dx TEXT_COLOR fb in
  let fb := str 334 "dY:" fb in
  let fb := draw_i16 info 361 6 dy TEXT_COLOR fb in
  let fb := draw_char info 424 6 76 lb fb in
  let fb := draw_char info 434 6 77 mb fb in
  let fb := draw_char info 444 6 82 rb fb in
  str (saturating_sub (width info) 80) "(q)quit" fb.

(** ** The program *)

Record App := mkApp { fb : Fb; SAVED : SavedLines; mx : Z; my : Z }.

Definition CURSOR (info : FbInfo) : Z := pack info 255 255 0.
(** The status line, then the crosshair on top. *)
Definition show (info : FbInfo) (mx my dx dy buttons : Z) (fb : Fb) (s : SavedLines) : App :=
  let fb := draw_hud info mx my dx dy buttons fb in
  let s := save_cross info mx my fb s in
  mkApp (draw_cross info mx my (CURSOR info) fb) s mx my.

Definition begin (info : FbInfo) (fb : Fb) : App :=
  let fb := fill_rect info 0 0 (width info) (height info) BG_COLOR fb in
  show info (width info / 2) (height info / 2) 0 0 0 fb SavedLines_new.

(** [i16::from_le_bytes]. *)
Definition i16_of (lo hi : Z) : Z := let v := from_le [lo; hi] in if v <? 32768 then v else v - 65536.
Definition decode (msg : list Z) : Mouse.Event :=
  let at_ i := default 0 (msg !! i) in
  Mouse.mkEvent (at_ 0%nat) (i16_of (at_ 1%nat) (at_ 2%nat)) (i16_of (at_ 3%nat) (at_ 4%nat)).

(** [clamp(0, size.saturating_sub(1))]. *)
Definition clamp (v size : Z) : Z := Z.max 0 (Z.min v (to_i32 (saturating_sub size 1))).
Definition move (info : FbInfo) (e : Mouse.Event) (mx my : Z) : Z * Z :=
  (clamp (to_i32 mx + Mouse.dx e) (width info), clamp (to_i32 my - Mouse.dy e) (height info)).

(** One turn after [SYS_IPC_RECV] answered [n] with [msg] in the buffer. *)
Definition turn (info : FbInfo) (a : App) (r : Z * list Z) : App :=
  let '(n, msg) := r in
  if (n =? u64_max) || (n =? 0) || (n <? 5) then a
  else
    let e := decode msg in
    let '(new_x, new_y) := move info e (mx a) (my a) in
    show info new_x new_y (Mouse.dx e) (Mouse.dy e) (Mouse.buttons e) (restore_cross info (SAVED a) (fb a)) (SAVED a).

Inductive Call := Say (s : string) | FbRelease | IpcClose (ch : Z) | Exit (code : Z).

(** [user_main]: [acquire] is what [SYS_FB_ACQUIRE] filled in, [ipc] the result of
    [SYS_IPC_OPEN] and [recvs] the answers received before a signal ends the loop. *)
Definition user_main (acquire : option FbInfo) (ipc : Z) (recvs : list (Z * list Z)) (fb0 : Fb) : list Call * Fb :=
  match acquire with
  | None => ([Say "mousetest: failed to acquire framebuffer"; Exit 1], fb0)
  | Some info =>
      if ipc =? u64_max then ([Say "mousetest: IPC module_mouse not found (is ps2mouse.kdm loaded?)"; FbRelease; Exit 1], fb0)
      else
        let a := foldl (turn info) (begin info fb0) recvs in
        ([IpcClose ipc; FbRelease; Exit 0], restore_cross info (SAVED a) (fb a))
  end.
(** * The crosshair leaves no trace *)

(** The pixels a crosshair at [(cx, cy)] may touch for the offsets [ds]. *)
Definition touched (info : FbInfo) (cx cy : Z) (ds : list Z) (a : nat) : Prop :=
  exists d, d ∈ ds /\
    ((0 <= to_i32 cx + d /\ outside info (to_i32 cx + d) cy = false /\ a = addr info (to_i32 cx + d) cy) \/
     (0 <= to_i32 cy + d /\ outside info cx (to_i32 cy + d) = false /\ a = addr info cx (to_i32 cy + d))).

(** [f] and [g] differ only at pixels in [P]. *)
Definition differ (P : nat -> Prop) (f g : Fb) : Prop := length f = length g /\ forall a, f !! a = g !! a \/ P a.

Lemma differ_put (P : nat -> Prop) (info : FbInfo) (x y c : Z) (f g : Fb) :
  differ P f g -> (outside info x y = false -> P (addr info x y)) -> differ P (put_pixel info x y c f) g.
Proof.
  intros [Hl Hd] Ha. unfold put_pixel. destruct (outside info x y); [done|]. split; [by rewrite length_insert|].
  intros a. destruct (decide (a = addr info x y)) as [->|Hne]; [right; by apply Ha|]. rewrite list_lookup_insert_ne by done. apply Hd.
Qed.

Lemma draw_touches (info : FbInfo) (cx cy c : Z) (f : Fb) :
  differ (touched info cx cy (seqZ (- CROSS_HALF) span)) (draw_cross info cx cy c f) f.
Proof.
  unfold draw_cross. set (P := touched info cx cy (seqZ (- CROSS_HALF) span)).
  assert (forall (ds : list Z) (g : Fb), ds ⊆ seqZ (- CROSS_HALF) span -> differ P g f -> differ P (foldl (draw_arm info cx cy c) g ds) f) as H.
  { intros ds. induction ds as [|d ds IH]; intros g Hds Hg; [done|]. simpl. apply IH; [set_solver|].
    assert (d ∈ seqZ (- CROSS_HALF) span) as Hd by set_solver. unfold draw_arm. destruct (Z.abs d <=? CROSS_GAP); [done|].
    destruct (0 <=? to_i32 cy + d) eqn:Ey; destruct (0 <=? to_i32 cx + d) eqn:Ex; zbool;
      repeat (apply differ_put; [|intros Ho; exists d; split; [done|auto]]); done. }
  apply H; [done|]. split; [done|]. auto.
Qed.

(** Writing back the saved value of a pixel: it agrees from then on. *)
Lemma differ_restore (P : nat -> Prop) (info : FbInfo) (x y : Z) (f g : Fb) :
  differ (fun a => P a \/ (outside info x y = false /\ a = addr info x y)) f g -> differ P (put_pixel info x y (get_pixel info x y g) f) g.
Proof.
  intros [Hl Hd]. unfold put_pixel, get_pixel. destruct (outside info x y) eqn:Eo.
  { split; [done|]. intros a. destruct (Hd a) as [?|[?|[? _]]]; [by left|by right|done]. }
  split; [by rewrite length_insert|]. intros a. destruct (decide (a = addr info x y)) as [->|Hne].
  - left. destruct (decide (addr info x y < length f)%nat) as [Hlt|Hge].
    + rewrite list_lookup_insert_eq by done. destruct (lookup_lt_is_Some_2 g (addr info x y) ltac:(lia)) as [v ->]. done.
    + rewrite !(proj2 (lookup_ge_None _ _)) by (rewrite ?length_insert; lia). done.
  - rewrite list_lookup_insert_ne by done. destruct (Hd a) as [?|[?|[_ ?]]]; [by left|by right|done].
Qed.

Lemma saved_lookup (h : Z -> Z) (buf : list Z) (i : Z) :
  length buf = 32%nat -> 0 <= i < span -> default 0 (list_inserts 0 (h <$> seqZ 0 span) buf !! Z.to_nat i) = h i.
Proof.
  intros Hl Hi. change span with 25 in *. rewrite list_lookup_inserts by (rewrite ?length_fmap, ?length_seqZ; lia).
  rewrite list_lookup_fmap, Nat.sub_0_r, lookup_seqZ_lt by lia. simpl. f_equal. lia.
Qed.

Definition saved_ok (s : SavedLines) : Prop := length (hbuf s) = 32%nat /\ length (vbuf s) = 32%nat.
Lemma save_ok (info : FbInfo) (cx cy : Z) (f : Fb) (s : SavedLines) : saved_ok s -> saved_ok (save_cross info cx cy f s).
Proof. intros [H1 H2]. split; unfold save_cross; cbn [hbuf vbuf]; by rewrite length_inserts. Qed.

Lemma restore_one (info : FbInfo) (cx cy i : Z) (ds : list Z) (f g : Fb) (s : SavedLines) :
  saved_ok s -> 0 <= i < span -> differ (touched info cx cy ((i - CROSS_HALF) :: ds)) f g ->
  differ (touched info cx cy ds) (restore_at info (save_cross info cx cy g s) f i) g.
Proof.
  intros [Hh Hv] Hi Hd. unfold restore_at, save_cross. cbn [sx sy hbuf vbuf].
  assert (forall x y (f : Fb) P, differ (fun a => P a \/ (outside info x y = false /\ a = addr info x y)) f g -> differ P (put_pixel info x y (get_pixel info x y g) f) g)
    as Hput by (intros; by apply differ_restore).
  rewrite !saved_lookup by done. cbn zeta beta. set (d := i - CROSS_HALF) in *.
  destruct (0 <=? to_i32 cy + d) eqn:Ey; destruct (0 <=? to_i32 cx + d) eqn:Ex; zbool; repeat (apply Hput);
    (destruct Hd as [Hl Hd]; split; [done|]; intros a; destruct (Hd a) as [Ha|(d' & [->|Hd']%elem_of_cons & Ha)]; [by left|right..]);
    unfold touched; naive_solver lia.
Qed.

Lemma restore_draw (info : FbInfo) (cx cy c : Z) (f : Fb) (s : SavedLines) :
  saved_ok s -> restore_cross info (save_cross info cx cy f s) (draw_cross info cx cy c f) = f.
Proof.
  intros Hs. unfold restore_cross. cbn [valid save_cross negb]. fold (save_cross info cx cy f s).
  assert (forall (js : list Z) (g : Fb), Forall (fun i => 0 <= i < span) js ->
    differ (touched info cx cy ((fun i => i - CROSS_HALF) <$> js)) g f -> foldl (restore_at info (save_cross info cx cy f s)) g js = f) as H.
  { intros js. induction js as [|i js IH]; intros g Hi Hg; simpl.
    - destruct Hg as [_ Hg]. apply list_eq. intros a. destruct (Hg a) as [?|(d & Hd & _)]; [done|]. by apply elem_of_nil in Hd.
    - apply Forall_cons in Hi as [Hi His]. apply IH; [done|]. by apply restore_one. }
  apply H; [by apply Forall_seqZ|]. change ((fun i => i - CROSS_HALF) <$> seqZ 0 span) with (seqZ (- CROSS_HALF) span). apply draw_touches.
Qed.

(** * The program *)

(** The same program without a crosshair: only the status line is drawn. *)
Definition plain_turn (info : FbInfo) (a : Fb * Z * Z) (r : Z * list Z) : Fb * Z * Z :=
  let '(f, x, y) := a in
  let '(n, msg) := r in
  if (n =? u64_max) || (n =? 0) || (n <? 5) then a
  else
    let e := decode msg in
    let '(new_x, new_y) := move info e x y in
    (draw_hud info new_x new_y (Mouse.dx e) (Mouse.dy e) (Mouse.buttons e) f, new_x, new_y).
Definition plain_begin (info : FbInfo) (f : Fb) : Fb * Z * Z :=
  (draw_hud info (width info / 2) (height info / 2) 0 0 0 (fill_rect info 0 0 (width info) (height info) BG_COLOR f), width info / 2, height info / 2).

(** Taking the crosshair away gives the picture of the program without one. *)
Definition under (info : FbInfo) (a : App) (p : Fb * Z * Z) : Prop :=
  restore_cross info (SAVED a) (fb a) = fst (fst p) /\ mx a = snd (fst p) /\ my a = snd p /\ saved_ok (SAVED a).

Lemma show_under (info : FbInfo) (x y dx dy b : Z) (f : Fb) (s : SavedLines) :
  saved_ok s -> under info (show info x y dx dy b f s) (draw_hud info x y dx dy b f, x, y).
Proof.
  intros Hs. unfold show. set (g := draw_hud info x y dx dy b f). split_and!; cbn [SAVED fb mx my fst snd]; [by apply restore_draw|done..|by apply save_ok].
Qed.

Lemma turn_under (info : FbInfo) (a : App) (p : Fb * Z * Z) (r : Z * list Z) :
  under info a p -> under info (turn info a r) (plain_turn info p r).
Proof.
  intros Hu. destruct p as [[f x] y], r as [n msg]. unfold turn, plain_turn. destruct (_ || _ || _); [done|].
  destruct Hu as (Hf & Hx & Hy & Hs). simpl in Hf, Hx, Hy. rewrite Hx, Hy, Hf. destruct (move info (decode msg) x y) as [nx ny].
  by apply show_under.
Qed.

Lemma run_under (info : FbInfo) (a : App) (p : Fb * Z * Z) (recvs : list (Z * list Z)) :
  under info a p -> under info (foldl (turn info) a recvs) (foldl (plain_turn info) p recvs).
Proof. revert a p. induction recvs as [|r l IH]; intros a p Hu; [done|]. simpl. apply IH. by apply turn_under. Qed.

Lemma begin_under (info : FbInfo) (f : Fb) : under info (begin info f) (plain_begin info f).
Proof. unfold begin, plain_begin. generalize (fill_rect info 0 0 (width info) (height info) BG_COLOR f). intros g. apply show_under. by split. Qed.

(** The crosshair leaves no trace: whatever the size, row length and pixel format of the
    framebuffer and whatever messages arrive, the picture the program leaves behind is
    the one it would have drawn without a crosshair, also where arms were cut off at an
    edge or overlap. *)
Theorem cursor_leaves_no_trace (info : FbInfo) (ipc : Z) (recvs : list (Z * list Z)) (fb0 : Fb) :
  ipc <> u64_max -> snd (user_main (Some info) ipc recvs fb0) = fst (fst (foldl (plain_turn info) (plain_begin info fb0) recvs)).
Proof.
  intros Hi. unfold user_main. rewrite (proj2 (Z.eqb_neq _ _) Hi). apply (run_under info _ _ recvs (begin_under info fb0)).
Qed.

(** The pointer stays on the screen. *)
Definition on_screen (info : FbInfo) (a : App) : Prop := 0 <= mx a < width info /\ 0 <= my a < height info.
Definition screen_ok (info : FbInfo) : Prop := 0 < width info <= 2 ^ 31 /\ 0 < height info <= 2 ^ 31.

Lemma clamp_bounds (v size : Z) : 0 < size <= 2 ^ 31 -> 0 <= clamp v size < size.
Proof.
  intros Hs. unfold clamp, to_i32, saturating_sub. change (2 ^ 31) with 2147483648 in *. change (2 ^ 32) with 4294967296.
  destruct (_ <? _) eqn:E; zbool; lia.
Qed.

Lemma turn_on_screen (info : FbInfo) (a : App) (r : Z * list Z) : screen_ok info -> on_screen info a -> on_screen info (turn info a r).
Proof.
  intros [Hw Hh] Ha. destruct r as [n msg]. unfold turn. destruct (_ || _ || _); [done|]. unfold move. split; by apply clamp_bounds.
Qed.
Lemma run_on_screen (info : FbInfo) (recvs : list (Z * list Z)) (a : App) :
  screen_ok info -> on_screen info a -> on_screen info (foldl (turn info) a recvs).
Proof. intros Hs. revert a. induction recvs as [|r l IH]; intros a Ha; [done|]. simpl. apply IH. by apply turn_on_screen. Qed.

Lemma i16_roundtrip (v : Z) : -32768 <= v < 32768 -> forall lo hi, [lo; hi] = to_le 2 (v mod 65536) -> i16_of lo hi = v.
Proof.
  intros Hv lo hi E. unfold i16_of. rewrite E, from_to_le by (apply Z.mod_pos_bound; done).
  destruct (v <? 0) eqn:Es; zbool.
  - replace v with (v + 65536 + (-1) * 65536) by lia. rewrite Z.mod_add, Z.mod_small by lia. destruct (_ <? _) eqn:E2; zbool; lia.
  - rewrite Z.mod_small by lia. destruct (_ <? _) eqn:E2; zbool; lia.
Qed.
Lemma decode_message (e : Mouse.Event) : Mouse.valid e -> decode (Mouse.message e) = e.
Proof.
  intros (_ & Hx & Hy). destruct e as [b x y]. simpl in Hx, Hy. unfold decode, Mouse.message. simpl.
  f_equal; eapply i16_roundtrip; try reflexivity; lia.
Qed.

(** What the driver sends, for the packets it reads. *)
Lemma driver_sends (env : DriverRt.Log -> DriverRt.Ev -> DriverRt.Reply) (turns : nat) (s : Mouse.Mouse) (log : DriverRt.Log)
    (junk : list Z) (es : list Mouse.Event) :
  Mouse.open_channel s -> Mouse.ready (Mouse.packet s) -> Forall (fun b => Z.land b 8 = 0) junk -> Forall Mouse.valid es ->
  exists l, snd (Mouse.kdm_run env turns s log) = log ++ l /\
    (omap Mouse.byte_of l = junk ++ (es ≫= Mouse.encode) -> omap Mouse.sent_of l = (fun e => (Mouse.IPC_CH s, Mouse.message e)) <$> es).
Proof.
  intros Ho Hr Hj He. destruct (Mouse.run_explained env turns s log Ho) as (l & s' & E & [X _] & _). exists l. split; [done|]. intros Hb.
  destruct (Mouse.feed_junk junk _ Hj Hr) as (p1 & E1 & R1). destruct (Mouse.feed_packets es p1 He R1) as (p2 & E2 & _).
  rewrite X, Hb, Mouse.feed_all_app, E1. cbn [fst snd app]. by rewrite E2.
Qed.

Lemma fmap_sublist {A B : Type} (f : A -> B) (l k : list A) : l `sublist_of` k -> f <$> l `sublist_of` f <$> k.
Proof. induction 1; simpl; by constructor. Qed.
Lemma decode_messages (es : list Mouse.Event) : Forall Mouse.valid es -> decode <$> (Mouse.message <$> es) = es.
Proof. induction 1 as [|e es Hv _ IH]; [done|]. rewrite !fmap_cons. by rewrite decode_message, IH. Qed.

(** What came out of the queue was received whole by a buffer of five bytes. *)
Lemma received_whole (out : list (list Z * nat)) (popped : list (list Z)) :
  Forall2 Ipc.carries out popped -> Forall (fun d => (5 <= snd d)%nat) out -> Forall (fun m => length m = 5%nat) popped -> fst <$> out = popped.
Proof.
  induction 1 as [|d m out popped Hc _ IH]; [done|]. intros [Hd Ho]%Forall_cons [Hm Hp]%Forall_cons. rewrite fmap_cons. f_equal; [|by apply IH].
  rewrite Hc. apply take_ge. lia.
Qed.

(** C27: From the mouse to the program.  The bytes the driver read while it ran are the packets
    of [es], after some that cannot begin a packet, whatever else the kernel answered and
    however they are spread over its turns; the sends it made are the ones the kernel
    carried out on the driver's channel, which was empty; and the program receives from
    it with buffers of at least five bytes, in any interleaving with anything else.  Then
    the events the program has decoded, followed by those still queued, are some of [es]
    in their order, none invented, altered or doubled; and they are all of [es] if no
    send met a full queue (which drops the oldest message) and the queue was not thrown
    away. *)
Theorem mouse_events_delivered (env : DriverRt.Log -> DriverRt.Ev -> DriverRt.Reply) (turns : nat) (s : Mouse.Mouse) (log : DriverRt.Log)
    (junk : list Z) (es : list Mouse.Event) (k k' : Ipc.IState) (calls : list (Ipc.op * Ipc.answer)) :
  Mouse.open_channel s -> Mouse.ready (Mouse.packet s) ->
  Forall (fun b => Z.land b 8 = 0) junk -> Forall Mouse.valid es ->
  let ch := Mouse.IPC_CH s in
  Ipc.queue_of k ch = [] -> trace Ipc.step k calls k' -> Forall (fun d => (5 <= snd d)%nat) (Ipc.delivered ch calls) ->
  exists l, snd (Mouse.kdm_run env turns s log) = log ++ l /\
    (omap Mouse.byte_of l = junk ++ (es ≫= Mouse.encode) -> ((fun m => (ch, m)) <$> Ipc.sent ch calls) = omap Mouse.sent_of l ->
     let got := (decode ∘ fst <$> Ipc.delivered ch calls) ++ (decode <$> Ipc.queue_of k' ch) in
     got `sublist_of` es /\ (trace (Ipc.gentle_step ch) k calls k' -> got = es)).
Proof.
  intros Ho Hr Hj He ch Hq Htr Hbuf. destruct (driver_sends env turns s log junk es Ho Hr Hj He) as (l & E & D). exists l. split; [done|]. intros Hb Hs.
  rewrite (D Hb) in Hs. assert (Ipc.sent ch calls = Mouse.message <$> es) as Hsent.
  { apply (f_equal (fmap snd)) in Hs. rewrite <- !list_fmap_compose in Hs. unfold compose in Hs. cbn [snd] in Hs. by rewrite list_fmap_id in Hs. }
  assert (forall popped, Forall2 Ipc.carries (Ipc.delivered ch calls) popped -> popped ++ Ipc.queue_of k' ch `sublist_of` Mouse.message <$> es ->
    (decode ∘ fst <$> Ipc.delivered ch calls) ++ (decode <$> Ipc.queue_of k' ch) = decode <$> (popped ++ Ipc.queue_of k' ch)) as Hgot.
  { intros popped Hp Hsub. rewrite list_fmap_compose, (received_whole _ popped Hp Hbuf), fmap_app; [done|].
    apply Forall_forall. intros m Hm. assert (m ∈ Mouse.message <$> es) as (e & -> & _)%list_elem_of_fmap; [|done].
    eapply elem_of_sublist; [|exact Hsub]. set_solver. }
  split.
  - destruct (Ipc.trace_transported ch k k' calls Htr) as (popped & Hp & Hsub & _). rewrite Hq, Hsent in Hsub. cbn [app] in Hsub.
    rewrite (Hgot popped) by done. rewrite <- (decode_messages es He) at 1. by apply fmap_sublist.
  - intros Hg. destruct (Ipc.gentle_trace_transported ch k k' calls Hg) as (popped & Hp & Hsub & Heq). rewrite Hq, Hsent in Hsub, Heq. cbn [app] in Hsub, Heq.
    rewrite (Hgot popped), Heq by done. by apply decode_messages.
Qed.

(** The pointer never leaves the screen, whatever the messages say. *)
Theorem pointer_stays_on_screen (info : FbInfo) (recvs : list (Z * list Z)) (fb0 : Fb) :
  screen_ok info -> on_screen info (foldl (turn info) (begin info fb0) recvs).
Proof.
  intros Hs. apply run_on_screen; [done|]. destruct Hs as [Hw Hh].
  change (on_screen info (begin info fb0)) with (0 <= width info / 2 < width info /\ 0 <= height info / 2 < height info).
  split; (split; [apply Z.div_pos; lia|apply Z.div_lt_upper_bound; lia]).
Qed.

Module Example.

Definition screen : FbInfo := mkFb 30 26 32 1.
Definition recvs : list (Z * list Z) := [(5, Mouse.message (Mouse.mkEvent 1 (-20) 9)); (u64_max, []); (5, Mouse.message (Mouse.mkEvent 0 40 (-40)))].

Lemma cursor_leaves_no_trace_witness :
  snd (user_main (Some screen) 3 recvs []) = fst (fst (foldl (plain_turn screen) (plain_begin screen []) recvs)).
Proof. apply (cursor_leaves_no_trace screen 3 recvs []). vm_compute. congruence. Defined.

Lemma pointer_stays_on_screen_witness : on_screen screen (foldl (turn screen) (begin screen []) recvs).
Proof. apply (pointer_stays_on_screen screen recvs []). split; split; vm_compute; congruence. Defined.

(** A mouse that has three packets ready, after one stray byte. *)
Definition es : list Mouse.Event := [Mouse.mkEvent 1 5 (-3); Mouse.mkEvent 0 (-256) 255; Mouse.mkEvent 7 0 0].
Definition wire : list Z := [160] ++ (es ≫= Mouse.encode).
Definition mouse (log : DriverRt.Log) (e : DriverRt.Ev) : DriverRt.Reply :=
  let k := length (omap Mouse.byte_of log) in
  match e with
  | DriverRt.In8 p => DriverRt.mkReply (if p =? 0x60 then default 0 (wire !! k) else if bool_decide (k < length wire)%nat then 0x21 else 0) []
  | _ => DriverRt.mkReply 0 []
  end.
Definition idle : Mouse.Mouse := Mouse.mkMouse 1 Mouse.new_packet.

(** The kernel carries out the three sends; the program (process 6) receives in between
    and has one event left in the queue. *)
Definition k0 : Ipc.IState := Ipc.Example.opened.
Definition ops : list Ipc.op :=
  [Ipc.Send 1 9 (Mouse.message (Mouse.mkEvent 1 5 (-3))); Ipc.Recv 1 (replicate 5 0) 6; Ipc.Send 1 9 (Mouse.message (Mouse.mkEvent 0 (-256) 255));
   Ipc.Send 1 9 (Mouse.message (Mouse.mkEvent 7 0 0)); Ipc.RecvNonblock 1 (replicate 5 0)].
Definition calls : list (Ipc.op * Ipc.answer) := fst (Ipc.run_ops ops k0).
Definition k1 : Ipc.IState := snd (Ipc.run_ops ops k0).

Fixpoint gentle_ok (id : Z) (l : list Ipc.op) (k : Ipc.IState) : bool :=
  match l with
  | [] => true
  | o :: l' =>
      match o with Ipc.Send _ _ _ => (length (Ipc.queue_of k id) <? Ipc.MAX_QUEUE)%nat | Ipc.AbortSenders _ => false | _ => true end &&
      gentle_ok id l' (snd (Ipc.perform o k))
  end.
Lemma gentle_run (id : Z) (l : list Ipc.op) (k : Ipc.IState) :
  gentle_ok id l k = true -> trace (Ipc.gentle_step id) k (fst (Ipc.run_ops l k)) (snd (Ipc.run_ops l k)).
Proof.
  revert k. induction l as [|o l IH]; intros k; cbn [gentle_ok Ipc.run_ops]; [constructor|]. intros [Hd Hok]%andb_true_iff.
  destruct (Ipc.perform o k) as [a k2] eqn:E. cbn [snd] in Hok. specialize (IH k2 Hok). destruct (Ipc.run_ops l k2) as [evs k3].
  econstructor; [split; [exact E|]|exact IH]. destruct o; try done; unfold Ipc.drops; cbn [fst]; try tauto. apply Nat.ltb_lt in Hd. lia.
Qed.

Lemma mouse_events_delivered_witness :
  (decode ∘ fst <$> Ipc.delivered 1 calls) ++ (decode <$> Ipc.queue_of k1 1) = es.
Proof.
  destruct (mouse_events_delivered mouse 3 idle [] [160] es k0 k1 calls) as (l & E & D).
  - split; vm_compute; congruence.
  - split; reflexivity.
  - repeat constructor.
  - repeat constructor; vm_compute; congruence.
  - vm_compute. reflexivity.
  - apply Ipc.run_ops_trace.
  - replace (Ipc.delivered (Mouse.IPC_CH idle) calls) with [([1; 5; 0; 253; 255], 5%nat); ([0; 0; 255; 255; 0], 5%nat)] by (vm_compute; reflexivity).
    repeat constructor.
  - apply D.
    + change (omap Mouse.byte_of ([] ++ l) = [160] ++ (es ≫= Mouse.encode)). rewrite <- E. vm_compute. reflexivity.
    + change (omap Mouse.sent_of l) with (omap Mouse.sent_of ([] ++ l)). rewrite <- E. vm_compute. reflexivity.
    + apply gentle_run. vm_compute. reflexivity.
Defined.

End Example.

End MouseTest.
