(* ===== verification/Ktop.v ===== *)
(** The process monitor, [userspace/programs/ktop.rs]: the output buffer, the number
    formats, the sampling of the kernel's counters and the frame it draws.

    System calls are events of [DriverRt.v].  The program also threads the output buffer
    [OUT], whose filled part is the state of the monad [P].  What a frame does to the
    screen is stated of the kernel's console of [Console.v], which wraps at its right
    margin and scrolls at its end. *)
From stdpp Require Import base list numbers option strings sets gmap.
From S2P Require Import Prelude F32 Framebuffer Console ShellEdit Handlers Shell DriverRt.

Open Scope Z_scope.

Declare Scope ktop_scope.
Delimit Scope ktop_scope with ktop.

Module Ktop.
Import Handlers DriverRt.

Definition MAX_PROCS : nat := 25.
Definition MAX_THREADS : nat := 64.
Definition MAX_TPP : nat := 16.
Definition MAX_CPUS : Z := 16.
Definition OUT_CAP : Z := 8192.

Definition P (A : Type) : Type := list Z -> M (A * list Z).
Definition pret {A : Type} (a : A) : P A := fun out => ret (a, out).
Definition pbind {A B : Type} (m : P A) (k : A -> P B) : P B := fun out => bind (m out) (fun r => k (fst r) (snd r)).
#[global] Notation "x <- m ;; k" := (pbind m (fun x => k)) (at level 60, m at next level, right associativity) : ktop_scope.
#[global] Notation "m ;;; k" := (pbind m (fun _ => k)) (at level 60, right associativity) : ktop_scope.
Open Scope ktop_scope.

(** ** Formats *)

(** [write_padded]: the digits from the right, as many as fit. *)
Fixpoint padded_digits (i : nat) (v : Z) (buf : list Z) : list Z :=
  match i with
  | O => buf
  | S i' => if 0 <? v then padded_digits i' (v / 10) (<[i' := 48 + v mod 10]> buf) else buf
  end.
Definition padded (n : Z) (width : nat) : list Z :=
  let buf := replicate 20 32 in
  take width (if n =? 0 then <[(width - 1)%nat := 48]> buf else padded_digits width n buf).

Definition pct10 (part total : Z) : Z := if 0 <? total then Z.min (wrap64 (part * 1000) / total) 1000 else 0.
Definition pct10_n (part total n : Z) : Z := if 0 <? total then Z.min (wrap64 (part * 1000 * n) / total) (n * 1000) else 0.

Definition bar_text (p10 max : Z) (width : nat) : list Z :=
  let filled := Nat.min (Z.to_nat (p10 * Z.of_nat width / max)) width in replicate filled 35 ++ replicate (width - filled) 32.

(** The first entry of a pid, or 0; the two arrays with their count are a list of pairs. *)
Fixpoint lookup_prev (l : list (Z * Z)) (key : Z) : Z :=
  match l with [] => 0 | (k, t) :: l' => if k =? key then t else lookup_prev l' key end.

(** The terminal's end of line: erase what is left, carriage return and line feed. *)
Definition EOL : list Z := [27; 91; 75; 13; 10].
Definition HOME : list Z := [27; 91; 72].
Definition CLEAR : list Z := [27; 91; 50; 74; 27; 91; 72].

Section Program.
Variable env : Log -> Ev -> Reply.

(** ** The output buffer *)

Definition ask (e : Ev) : P Reply := fun out => bind (event env e) (fun r => ret (r, out)).
Definition query (n a b : Z) : P Z := r <- ask (Sys n a b 0);; pret (r_val r).

Definition flush : P unit :=
  fun out => match out with [] => ret (tt, []) | _ => bind (event env (SysData SYS_WRITE 1 out)) (fun _ => ret (tt, [])) end.
Definition sys_write (b : list Z) : P unit :=
  (fun out => if OUT_CAP <? Z.of_nat (length out + length b) then flush out else ret (tt, out));;;
  if OUT_CAP <? Z.of_nat (length b) then ask (SysData SYS_WRITE 1 b);;; pret tt
  else fun out => ret (tt, out ++ b).
Definition text (s : string) : P unit := sys_write (Shell.bytes s).
(** A text with the end of the line, in one piece. *)
Definition line (s : string) : P unit := sys_write (Shell.bytes s ++ EOL).

Definition write_u64 (n : Z) : P unit := sys_write (Shell.u64_text n).
Definition write_padded (n : Z) (width : nat) : P unit := sys_write (padded n width).
Fixpoint write_each (b : list Z) : P unit := match b with [] => pret tt | c :: b' => sys_write [c];;; write_each b' end.
Definition draw_bar (p10 max : Z) (width : nat) : P unit := write_each (bar_text p10 max width).
Definition write_sep (cols : Z) : P unit := sys_write (replicate (Z.to_nat (Z.min cols 96)) 45);;; sys_write EOL.
Definition write_tenths (p10 : Z) : P unit := write_padded (p10 / 10) 3;;; text ".";;; sys_write [48 + p10 mod 10].
Definition write_pct (p10 : Z) : P unit := write_tenths p10;;; text "%".
Definition write_mib (kib : Z) : P unit := write_u64 (kib / 1024);;; text "MiB".

Definition write_row (pid : Z) (state : string) (p10 mem_kib : Z) (name : list Z) : P unit :=
  text "  ";;; write_padded pid 4;;; text "  ";;; text state;;; text "  ";;;
  write_tenths p10;;; text "%  ";;; write_padded mem_kib 6;;; text "KiB  ";;; sys_write name;;; sys_write EOL.
Definition write_thread_row (tid : Z) (state : string) (p10 cpu : Z) : P unit :=
  text "      `- t";;; write_padded tid 3;;; text "  ";;; text state;;; text "  ";;;
  write_tenths p10;;; text "%  cpu";;; write_u64 cpu;;; sys_write EOL.

(** ** The frame *)

Record Screen := mkScreen { rows : Z; cols : Z; cpu_count : Z }.
Definition wide (s : Screen) : bool := 72 <=? cols s.
Definition bar_w (s : Screen) : nat := Z.to_nat (Z.max 6 (Z.min (saturating_sub (cols s) (if wide s then 44 else 18)) 30)).
Definition header_lines (s : Screen) : Z := 7 + cpu_count s.
Definition footer_lines : Z := 2.
Definition visible (s : Screen) : Z := Z.max (saturating_sub (rows s) (header_lines s + footer_lines)) 1.

Record Top := mkTop {
  prev_ker : Z; prev_idle : Z; prev_user : Z;
  prev_cpu : list (Z * Z * Z);               (* idle, kernel and user ticks of each core *)
  prev_procs : list (Z * Z); prev_threads : list (Z * Z);
  scroll : Z; total_rows : Z }.
Definition new_top : Top := mkTop 0 0 0 (replicate (Z.to_nat MAX_CPUS) (0, 0, 0)) [] [] 0 1.

Definition shares (s : Screen) (u k i : Z) (lu lk li : string) : P unit :=
  if wide s then text lu;;; write_pct u;;; text lk;;; write_pct k;;; text li;;; write_pct i else pret tt.

(** A line of a core. *)
Definition core_row (s : Screen) (i : Z) (prev : Z * Z * Z) : P (Z * Z * Z) :=
  idle_c <- query SYS_CPU_INFO 8 i;; ker_c <- query SYS_CPU_INFO 9 i;; user_c <- query SYS_CPU_INFO 10 i;;
  let '(pi, pk, pu) := prev in
  let dic := saturating_sub idle_c pi in let dkc := saturating_sub ker_c pk in let duc := saturating_sub user_c pu in
  let dtc := wrap64 (dic + dkc + duc) in
  let u := pct10 duc dtc in let k := pct10 dkc dtc in
  text " C";;; write_u64 i;;; text " [";;; draw_bar (u + k) 1000 (bar_w s);;; text "] ";;; write_pct (u + k);;;
  shares s u k (pct10 dic dtc) " u:" " k:" " i:";;; sys_write EOL;;; pret (idle_c, ker_c, user_c).
Fixpoint core_rows (s : Screen) (n : nat) (i : Z) (prev : list (Z * Z * Z)) : P (list (Z * Z * Z)) :=
  match n with
  | O => pret prev
  | S n' => c <- core_row s i (default (0, 0, 0) (prev !! Z.to_nat i));; core_rows s n' (i + 1) (<[Z.to_nat i := c]> prev)
  end.

(** A row of the list is drawn when it is in the window. *)
Definition shown_row (s : Screen) (scroll row_idx : Z) (draw : P unit) : P unit :=
  if (scroll <=? row_idx) && (row_idx <? scroll + visible s) then draw else pret tt.

Record ThreadInfo := mkTinfo { tid : Z; t_state : Z; t_ticks : Z; assigned_cpu : Z }.
Definition tinfo_of (l : list Z) : ThreadInfo := mkTinfo (field 0 l) (field 16 l) (field 24 l) (field 32 l).

Fixpoint thread_ids (n : nat) (pid t : Z) (tids : list Z) : P (list Z) :=
  match n with
  | O => pret tids
  | S n' => if t =? u64_max then pret tids else next <- query SYS_THREAD_NEXT pid t;; thread_ids n' pid next (tids ++ [t])
  end.

(** The rows of the threads: the row index and the ticks noted so far. *)
Fixpoint thread_rows (s : Screen) (t : Top) (scroll dt : Z) (tids : list Z) (row_idx : Z) (cur : list (Z * Z)) : P (Z * list (Z * Z)) :=
  match tids with
  | [] => pret (row_idx, cur)
  | id :: l =>
      r <- ask (Sys SYS_THREAD_INFO id 0 0);;
      if negb (r_val r =? 0) then thread_rows s t scroll dt l row_idx cur
      else
        let i := tinfo_of (r_data r) in
        let p10 := pct10_n (saturating_sub (t_ticks i) (lookup_prev (prev_threads t) (tid i))) dt (cpu_count s) in
        let st := if (t_state i =? 1) || (t_state i =? 2) then "run "%string else if t_state i =? 3 then "slp "%string else "?   "%string in
        shown_row s scroll row_idx (write_thread_row (tid i) st p10 (assigned_cpu i));;;
        thread_rows s t scroll dt l (row_idx + 1) (if (length cur <? MAX_THREADS)%nat then cur ++ [(tid i, t_ticks i)] else cur)
  end.

Definition name_of (i : ProcessInfo) : list Z := take (default 32%nat (position (fun b => b =? 0) (pi_name i))) (pi_name i).

(** The rows of a process and its threads, after [SYS_PROCESS_INFO] answered [r]: the row
    index and the ticks of processes and threads. *)
Definition proc_row (s : Screen) (t : Top) (scroll dt pid row_idx : Z) (cur cur_t : list (Z * Z)) (r : Reply) : P (Z * list (Z * Z) * list (Z * Z)) :=
  if negb (r_val r =? 0) then pret (row_idx, cur, cur_t)
  else
    let i := user_info (r_data r) in
    let p10 := pct10_n (saturating_sub (pi_ticks i) (lookup_prev (prev_procs t) pid)) dt (cpu_count s) in
    let st := if (pi_state i =? 1) || (pi_state i =? 2) then "Running"%string else if pi_state i =? 3 then "Sleep  "%string else "?      "%string in
    shown_row s scroll row_idx (write_row pid st p10 (pi_memory i / 1024) (name_of i));;;
    first <- query SYS_THREAD_NEXT pid 0;;
    tids <- thread_ids MAX_TPP pid first [];;
    y <- (if (1 <? length tids)%nat then thread_rows s t scroll dt tids (row_idx + 1) cur_t else pret (row_idx + 1, cur_t));;
    pret (fst y, cur ++ [(pid, pi_ticks i)], snd y).

(** The loop over the processes; [None] when the fuel ends before the kernel's list does. *)
Fixpoint proc_rows (fuel : nat) (s : Screen) (t : Top) (scroll dt pid row_idx : Z) (cur cur_t : list (Z * Z)) : P (option (Z * list (Z * Z) * list (Z * Z))) :=
  if (pid =? u64_max) || negb (length cur <? MAX_PROCS)%nat then pret (Some (row_idx, cur, cur_t))
  else match fuel with
  | O => pret None
  | S n =>
      r <- ask (Sys SYS_PROCESS_INFO pid 0 0);;
      x <- proc_row s t scroll dt pid row_idx cur cur_t r;;
      let '(row_idx, cur, cur_t) := x in
      next <- query SYS_PROCESS_NEXT pid 0;;
      proc_rows n s t scroll dt next row_idx cur cur_t
  end.

Fixpoint blank_lines (n : nat) : P unit := match n with O => pret tt | S n' => sys_write EOL;;; blank_lines n' end.

Definition clamp_scroll (s : Screen) (total scroll : Z) : Z := Z.min scroll (saturating_sub total (visible s)).

(** Title, bars and column header. *)
Definition header (s : Screen) (t : Top) (ker idle user dt tot_kib use_kib : Z) : P (list (Z * Z * Z)) :=
  let u := pct10 (saturating_sub user (prev_user t)) dt in let k := pct10 (saturating_sub ker (prev_ker t)) dt in
  sys_write HOME;;; line "KazuOS ktop  [Ctrl+C] quit";;; write_sep (cols s);;;
  text "CPU [";;; draw_bar (u + k) 1000 (bar_w s);;; text "] ";;; write_pct (u + k);;;
  shares s u k (pct10 (saturating_sub idle (prev_idle t)) dt) " usr:" " ker:" " idle:";;; sys_write EOL;;;
  line "Cores:";;;
  cpu <- core_rows s (Z.to_nat (cpu_count s)) 0 (prev_cpu t);;
  let m := pct10 use_kib tot_kib in
  text "MEM [";;; draw_bar m 1000 (bar_w s);;; text "] ";;; write_pct m;;; text " ";;;
  write_mib use_kib;;; text "/";;; write_mib tot_kib;;; sys_write EOL;;;
  write_sep (cols s);;; line "  PID STATE    %CPU    MEM   NAME";;; pret cpu.

Definition footer (s : Screen) (scroll row_idx : Z) : P unit :=
  write_sep (cols s);;; text "  ";;; write_u64 (scroll + 1);;; text "-";;; write_u64 (Z.min (scroll + visible s) row_idx);;;
  text "/";;; write_u64 row_idx;;; sys_write (Shell.bytes "  [Up/Down] scroll  [Ctrl+C] quit" ++ [27; 91; 75]).

(** The body of the loop up to [flush]. *)
Definition frame (fuel : nat) (s : Screen) (t : Top) : P (option Top) :=
  ker <- query SYS_CPU_INFO 2 0;; idle <- query SYS_CPU_INFO 3 0;; user <- query SYS_CPU_INFO 1 0;;
  let dk := saturating_sub ker (prev_ker t) in
  let dt := wrap64 (dk + saturating_sub idle (prev_idle t) + saturating_sub user (prev_user t)) in
  mem <- query SYS_MEM_INFO 0 0;;
  cpu <- header s t ker idle user dt (Z.shiftr mem 32) (Z.land mem (2 ^ 32 - 1));;
  let scroll0 := clamp_scroll s (total_rows t) (scroll t) in
  k <- ask (Sys SYS_PROCESS_INFO 0 0 0);;
  let k_mem := if r_val k =? 0 then pi_memory (user_info (r_data k)) / 1024 else 0 in
  shown_row s scroll0 0 (write_row 0 "Running" (pct10_n dk dt (cpu_count s)) k_mem (Shell.bytes "kernel"));;;
  first <- query SYS_PROCESS_NEXT 0 0;;
  o <- proc_rows fuel s t scroll0 dt first 1 [] [];;
  match o with
  | None => pret None
  | Some (row_idx, cur, cur_t) =>
      let scroll1 := clamp_scroll s row_idx scroll0 in
      let printed := saturating_sub (Z.min row_idx (scroll1 + visible s)) scroll1 in
      blank_lines (Z.to_nat (saturating_sub (visible s) printed));;;
      footer s scroll1 row_idx;;; flush;;;
      pret (Some (mkTop ker idle user cpu cur cur_t scroll1 row_idx))
  end.

(** ** Keys and the main loop *)

Definition scroll_key (st : Z * bool) (key : Z) : Z * bool :=
  if key =? 130 then (saturating_sub (fst st) 1, true) else if key =? 131 then (fst st + 1, true) else st.
(** The keys waiting on the input; [fuel] bounds the reads. *)
Fixpoint drain_keys (fuel : nat) (st : Z * bool) : P (Z * bool) :=
  match fuel with
  | O => pret st
  | S n =>
      r <- ask (Sys SYS_TRY_READ 0 0 16);;
      if (r_val r =? 0) || (r_val r =? u64_max) then pret st
      else drain_keys n (foldl scroll_key st (take (Z.to_nat (r_val r)) (r_data r)))
  end.
(** About half a second of waiting: whether to quit, and the new position. *)
Fixpoint wait (i fuel : nat) (scroll : Z) : P (bool * Z) :=
  match i with
  | O => pret (false, scroll)
  | S i' =>
      query SYS_SLEEP 100 0;;;
      sig <- query SYS_SIGNAL_CHECK 0 0;;
      if negb (sig =? 0) then pret (true, scroll)
      else
        st <- drain_keys fuel (scroll, false);;
        if snd st : bool then pret (false, fst st) else wait i' fuel (fst st)
  end.

Definition set_scroll (x : Z) (t : Top) : Top :=
  mkTop (prev_ker t) (prev_idle t) (prev_user t) (prev_cpu t) (prev_procs t) (prev_threads t) x (total_rows t).
Fixpoint main_loop (turns fuel : nat) (s : Screen) (t : Top) : P bool :=
  match turns with
  | O => pret false
  | S n =>
      o <- frame fuel s t;;
      match o with
      | None => pret false
      | Some t => q <- wait 5 fuel (scroll t);; if fst q : bool then pret true else main_loop n fuel s (set_scroll (snd q) t)
      end
  end.

Definition screen_of (console cpus : Z) : Screen :=
  let c := Z.land console (2 ^ 32 - 1) in mkScreen (Z.shiftr console 32) (if c =? 0 then 80 else c) (Z.min cpus MAX_CPUS).

Definition user_main (turns fuel : nat) : P bool :=
  query SYS_SIGNAL_CATCH 1 0;;;
  cpus <- query SYS_CPU_INFO 4 0;; console <- query SYS_CONSOLE_SIZE 0 0;;
  sys_write CLEAR;;; flush;;;
  quit <- main_loop turns fuel (screen_of console cpus) new_top;;
  if quit : bool then sys_write CLEAR;;; flush;;; query SYS_EXIT 0 0;;; pret true else pret false.
End Program.

(** * What is on the screen *)

(** The bytes given to [SYS_WRITE]. *)
Definition written_of (er : Ev * Reply) : list Z := match er with (SysData n _ b, _) => if n =? SYS_WRITE then b else [] | _ => [] end.
Definition written (log : Log) : list Z := log ≫= written_of.
Lemma written_app (l1 l2 : Log) : written (l1 ++ l2) = written l1 ++ written l2.
Proof. apply bind_app. Qed.

Lemma written_one (er : Ev * Reply) : written [er] = written_of er.
Proof. unfold written. cbn [mbind list_bind]. apply app_nil_r. Qed.

(** The program [m] writes, in order, a text that [Q] relates to its result. *)
Definition says {A : Type} (m : P A) (Q : A -> list Z -> Prop) : Prop :=
  forall out log, let '((a, out'), log') := m out log in
  exists t, written log' ++ out' = written log ++ out ++ t /\ Q a t.

Lemma says_ret {A : Type} (a : A) (Q : A -> list Z -> Prop) : Q a [] -> says (pret a) Q.
Proof. intros HQ out log. exists []. by rewrite app_nil_r. Qed.
Lemma says_bind {A B : Type} (m : P A) (k : A -> P B) (R : A -> list Z -> Prop) (Q : B -> list Z -> Prop) :
  says m R -> (forall a t, R a t -> says (k a) (fun b t' => Q b (t ++ t'))) -> says (pbind m k) Q.
Proof.
  intros Hm Hk out log. unfold pbind, bind. specialize (Hm out log). destruct (m out log) as [[a out1] log1]. destruct Hm as (t & E & HR).
  cbn [fst snd]. specialize (Hk a t HR out1 log1). destruct (k a out1 log1) as [[b out2] log2]. destruct Hk as (t' & E' & HQ).
  exists (t ++ t'). split; [|done]. rewrite E', !app_assoc. f_equal. by rewrite <-app_assoc.
Qed.
Lemma says_weaken {A : Type} (m : P A) (R Q : A -> list Z -> Prop) : says m R -> (forall a t, R a t -> Q a t) -> says m Q.
Proof.
  intros Hm HQ out log. specialize (Hm out log). destruct (m out log) as [[a out1] log1]. destruct Hm as (t & E & HR). eauto.
Qed.

Section Says.
Variable env : Log -> Ev -> Reply.

Lemma says_ask (e : Ev) (Q : Reply -> list Z -> Prop) :
  (forall r, written_of (e, r) = []) -> (forall log, Q (env log e) []) -> says (ask env e) Q.
Proof.
  intros He HQ out log. unfold ask, event, bind, ret. exists []. split; [|apply HQ].
  by rewrite written_app, written_one, He, !app_nil_r.
Qed.
Lemma says_query (n a b : Z) (Q : Z -> list Z -> Prop) : (forall log, Q (r_val (env log (Sys n a b 0))) []) -> says (query env n a b) Q.
Proof.
  intros HQ. unfold query. eapply (says_bind _ _ (fun r t => t = [] /\ exists log, r = env log (Sys n a b 0))).
  - apply says_ask; [done|]. intros log. eauto.
  - intros r t [-> [log ->]]. apply says_ret, HQ.
Qed.

Lemma flush_says (Q : unit -> list Z -> Prop) : Q tt [] -> says (flush env) Q.
Proof.
  intros HQ out log. unfold flush. destruct out as [|b out]; [exists []; split; [by rewrite !app_nil_r|done]|].
  unfold event, bind, ret. exists []. split; [|done]. rewrite written_app, written_one. change (written_of _) with (b :: out). by rewrite !app_nil_r.
Qed.

Lemma flush_empty (out : list Z) (log : Log) : snd (fst (flush env out log)) = [].
Proof. by destruct out. Qed.

(** Nothing is lost or reordered by the buffer. *)
Lemma says_write (b : list Z) (Q : unit -> list Z -> Prop) : Q tt b -> says (sys_write env b) Q.
Proof.
  intros HQ out log. unfold sys_write, pbind, bind. set (big := OUT_CAP <? Z.of_nat (length b)).
  destruct (OUT_CAP <? Z.of_nat (length out + length b)) eqn:Ec.
  - pose proof (flush_says (fun _ t => t = []) eq_refl out log) as Hf. pose proof (flush_empty out log) as He.
    destruct (flush env out log) as [[u out1] log1]. cbn [fst snd] in *. subst out1. destruct Hf as (t & Hf & ->). rewrite !app_nil_r in Hf.
    destruct big.
    + unfold ask, event, bind, ret, pret. cbn [fst snd]. exists b. split; [|done]. rewrite written_app, written_one. change (written_of _) with b. by rewrite app_nil_r, Hf, <-app_assoc.
    + unfold ret. exists b. split; [|done]. by rewrite Hf, <-app_assoc.
  - assert (big = false) as -> by (unfold big; zbool; apply Z.ltb_ge; lia). unfold ret. cbn [fst snd]. by exists b.
Qed.
End Says.

(** Line feeds. *)
Definition lf (t : list Z) : Z := Z.of_nat (length (filter (fun b => b = 10) t)).
Lemma lf_app (t1 t2 : list Z) : lf (t1 ++ t2) = lf t1 + lf t2.
Proof. unfold lf. rewrite filter_app, length_app. lia. Qed.
Lemma lf_plain (t : list Z) : Forall (fun b => b <> 10) t -> lf t = 0.
Proof. unfold lf. induction 1 as [|b t Hb _ IH]; [done|]. by rewrite filter_cons_False. Qed.

(** * Text that fits the screen *)

(** [fits W c t n c'] : written from a column of at most [c], the text [t] stays within
    [W] columns, writes [n] line feeds and ends in a column of at most [c'].  It is made
    of printable characters, ends of lines and erasures of the rest of a line. *)
Definition ERASE : list Z := [27; 91; 75].
Inductive fits (W : Z) : Z -> list Z -> Z -> Z -> Prop :=
  | fits_nil c : fits W c [] 0 c
  | fits_char c b t n c' : 32 <= b -> c + 1 <= W -> fits W (c + 1) t n c' -> fits W c (b :: t) n c'
  | fits_eol c t n c' : fits W 0 t n c' -> fits W c (EOL ++ t) (1 + n) c'
  | fits_erase c t n c' : fits W c t n c' -> fits W c (ERASE ++ t) n c'
  | fits_slack c d t n c' : c <= d -> fits W d t n c' -> fits W c t n c'.

Lemma fits_app (W c : Z) (t1 t2 : list Z) (n1 n2 c1 c2 : Z) :
  fits W c t1 n1 c1 -> fits W c1 t2 n2 c2 -> fits W c (t1 ++ t2) (n1 + n2) c2.
Proof.
  intros H1 H2. induction H1 as [c|c b t n c' Hb Hc _ IH|c t n c' _ IH|c t n c' _ IH|c d t n c' Hd _ IH]; simpl.
  - exact H2.
  - constructor; auto.
  - rewrite <- Z.add_assoc. by apply (fits_eol W c (t ++ t2)), IH.
  - by apply (fits_erase W c (t ++ t2)), IH.
  - eapply fits_slack; [exact Hd|auto].
Qed.
Lemma fits_plain (W c w : Z) (t : list Z) : Forall (fun b => 32 <= b) t -> Z.of_nat (length t) <= w -> c + w <= W -> fits W c t 0 (c + w).
Proof.
  intros Ht. revert c w. induction Ht as [|b t Hb _ IH]; intros c w Hl Hw.
  - eapply (fits_slack W c (c + w)); [simpl in Hl; lia|constructor].
  - simpl in Hl. constructor; [done|lia|]. replace (c + w) with (c + 1 + (w - 1)) by lia. apply IH; lia.
Qed.
Lemma lf_fits (W c : Z) (t : list Z) (n c' : Z) : fits W c t n c' -> lf t = n.
Proof.
  induction 1 as [c|c b t n c' Hb Hc _ IH|c t n c' _ IH|c t n c' _ IH|c d t n c' Hd _ IH]; try done.
  - change (b :: t) with ([b] ++ t). rewrite lf_app, IH, lf_plain; [lia|]. constructor; [lia|constructor].
  - rewrite lf_app, IH. reflexivity.
Qed.

(** The console with the built-in font: columns of 14 and rows of 28 pixels, the cursor
    of row [r] (from 0) on the baseline [28 * (r + 1)]. *)
Section OnConsole.
Import Framebuffer.Framebuffer Console.Console F32.F32.

Lemma grid_csi (k : Console) (x y : Z) (m : Mem) :
  on_grid k x y ->
  exists k1, process_char 27 k m = (set_escape Esc k, m) /\ process_char 91 (set_escape Esc k) m = (k1, m) /\
    cursor_y k1 = fz y /\ fb k1 = fb k /\
    (exists k2 m2, process_char 75 k1 m = (k2, m2) /\ on_grid k2 x y /\ fb k2 = fb k) /\
    (exists k3, process_char 72 k1 m = (k3, m) /\ on_grid k3 0 28 /\ fb k3 = fb k).
Proof.
  intros Hg. pose proof Hg as [Hf Hlh Hd Hx Hy Hn Hfb Hr]. exists (set_escape Csi (set_csi [0; 0; 0; 0] 0 (set_escape Esc k))).
  split; [unfold process_char; by rewrite Hn|]. split; [done|]. split; [done|]. split; [done|]. split.
  - eexists _, _. split; [reflexivity|]. split; [by split|done].
  - eexists. split; [|split].
    + unfold process_char. cbn [escape_state set_escape]. change ((48 <=? 72) && (72 <=? 57)) with false. cbv iota.
      unfold csi_dispatch, char_width. cbn [csi_params set_csi set_escape csi_param_count font line_height]. rewrite Hf, Hlh. reflexivity.
    + by split.
    + done.
Qed.

Lemma grid_cr (k : Console) (x y : Z) (m : Mem) :
  on_grid k x y -> exists k1, process_char 13 k m = (k1, m) /\ on_grid k1 0 y /\ fb k1 = fb k.
Proof.
  intros Hg. pose proof Hg as [Hf Hlh Hd Hx Hy Hn Hfb Hr]. eexists. split; [unfold process_char; rewrite Hn; reflexivity|].
  split; [|done]. split; try done. cbn. change (2 ^ 20) with 1048576 in *. lia.
Qed.
Lemma grid_lf (k : Console) (x y : Z) (m : Mem) :
  on_grid k x y -> y + 28 < height (fb k) -> exists k1, process_char 10 k m = (k1, m) /\ on_grid k1 0 (y + 28) /\ fb k1 = fb k.
Proof.
  intros Hg Hh. pose proof Hg as [Hf Hlh Hd Hx Hy Hn Hfb Hr]. change (2 ^ 20) with 1048576 in *. exists (set_cursor (fz 0) (fz (y + 28)) k).
  split; [|split; [eapply on_grid_move; [exact Hg|..]; change (2 ^ 20) with 1048576; lia|done]].
  unfold process_char. rewrite Hn. change (10 =? 10) with true. cbv iota. unfold newline. rewrite Hy, Hlh. change CHAR_HEIGHT with 28.
  cbn [cursor_y set_cursor fb]. destruct Hfb as (? & ? & ?).
  rewrite add_exact, of_Z_exact, ge_exact by (change (2 ^ 24) with 16777216; lia). rewrite (proj2 (Z.leb_gt _ _)) by lia. by rewrite fz_0.
Qed.

(** Where the cursor is after every prefix of a text. *)
Definition rows_of (k : Console) (m : Mem) (y : Z) (t : list Z) : Prop :=
  forall t1 t2, t = t1 ++ t2 -> cursor_y (print t1 k m).1 = fz (y + 28 * lf t1).
Lemma rows_nil (k : Console) (m : Mem) (y : Z) : cursor_y k = fz y -> rows_of k m y [].
Proof. intros Hy t1 t2 E. symmetry in E. apply app_eq_nil in E as [-> ->]. cbn. by rewrite Z.add_0_r. Qed.
Lemma rows_cons (c : Z) (t : list Z) (k k1 : Console) (m m1 : Mem) (y y' : Z) :
  cursor_y k = fz y -> process_char c k m = (k1, m1) -> y' = y + 28 * lf [c] -> rows_of k1 m1 y' t -> rows_of k m y (c :: t).
Proof.
  intros Hy Hp -> Hr [|c1 t1] t2 E.
  - cbn. by rewrite Z.add_0_r.
  - injection E as -> ->. rewrite (print_cons _ _ _ _ _ _ Hp), (Hr t1 t2 eq_refl). change (c1 :: t1) with ([c1] ++ t1). rewrite lf_app. f_equal. lia.
Qed.

Lemma print_fits (W c : Z) (t : list Z) (n c' : Z) : fits W c t n c' -> forall (k : Console) (x y : Z) (m : Mem),
  on_grid k x y -> x <= 14 * c -> 14 * W < width (fb k) -> 22 <= y -> y + 28 * n + 6 < height (fb k) ->
  rows_of k m y t /\ exists x', on_grid (print t k m).1 x' (y + 28 * n) /\ x' <= 14 * c' /\ fb (print t k m).1 = fb k.
Proof.
  assert (forall W c t n c', fits W c t n c' -> 0 <= n) as Hpos by (induction 1; lia).
  induction 1 as [c|c b t n c' Hb Hc Hfit IH|c t n c' Hfit IH|c t n c' Hfit IH|c d t n c' Hd Hfit IH]; intros k x y m Hg Hx HW Hy Hh.
  - split; [apply rows_nil, Hg|]. exists x. rewrite Z.mul_0_r, Z.add_0_r. done.
  - specialize (Hpos _ _ _ _ _ Hfit). destruct (draw_char_grid k b x y m Hg) as [Hk _]; [lia|lia|lia|].
    assert (process_char b k m = draw_char b k m) as Hpc.
    { unfold process_char. rewrite (og_normal _ _ _ Hg). by rewrite !(proj2 (Z.eqb_neq b _)) by lia. }
    destruct (draw_char b k m) as [k1 m1]. cbn [fst] in Hk. subst k1. rewrite (print_cons _ _ _ _ _ _ Hpc).
    pose proof Hg as [_ _ _ _ Hgy _ (_ & Hw & _) [Hrx Hry]].
    destruct (IH (set_cursor (fz (x + 14)) (fz y) k) (x + 14) y m1) as [IH1 IH2]; cbn [fb set_cursor]; try done; [|lia|].
    { eapply on_grid_move; [exact Hg|lia|done]. }
    split; [|exact IH2]. eapply rows_cons; [exact Hgy|exact Hpc| |exact IH1].
    rewrite lf_plain; [lia|]. constructor; [lia|constructor].
  - specialize (Hpos _ _ _ _ _ Hfit). destruct (grid_csi k x y m Hg) as (k1 & P1 & P2 & Hy1 & _ & (k2 & m2 & P3 & Hg2 & Hf2) & _).
    destruct (grid_cr k2 x y m2 Hg2) as (k3 & P4 & Hg3 & Hf3). destruct (grid_lf k3 0 y m2 Hg3) as (k4 & P5 & Hg4 & Hf4); [rewrite Hf3, Hf2; lia|].
    assert (fb k4 = fb k) as Hfb by congruence. destruct (IH k4 0 (y + 28) m2) as [IH1 IH2]; try done; try (rewrite Hfb; lia); [lia|].
    unfold EOL. cbn [app]. do 5 (erewrite print_cons by eassumption). replace (y + 28 * (1 + n)) with (y + 28 + 28 * n) by lia. rewrite <- Hfb. split; [|done].
    eapply rows_cons; [apply Hg|exact P1|by rewrite Z.add_0_r|]. eapply rows_cons; [apply Hg|exact P2|by rewrite Z.add_0_r|].
    eapply rows_cons; [exact Hy1|exact P3|by rewrite Z.add_0_r|]. eapply rows_cons; [apply Hg2|exact P4|by rewrite Z.add_0_r|].
    eapply rows_cons; [apply Hg3|exact P5|reflexivity|exact IH1].
  - destruct (grid_csi k x y m Hg) as (k1 & P1 & P2 & Hy1 & _ & (k2 & m2 & P3 & Hg2 & Hf2) & _).
    destruct (IH k2 x y m2) as [IH1 IH2]; try done; try (rewrite Hf2; lia).
    unfold ERASE. cbn [app]. do 3 (erewrite print_cons by eassumption). rewrite <- Hf2. split; [|done].
    eapply rows_cons; [apply Hg|exact P1|by rewrite Z.add_0_r|]. eapply rows_cons; [apply Hg|exact P2|by rewrite Z.add_0_r|].
    eapply rows_cons; [exact Hy1|exact P3|by rewrite Z.add_0_r|exact IH1].
  - apply (IH k x y m); try done. lia.
Qed.

(** A character that does not fit into its row is drawn in the next. *)
Lemma grid_wrap (k : Console) (c x y : Z) (m : Mem) :
  on_grid k x y -> 32 <= c -> width (fb k) <= x + 14 -> y + 28 + 6 < height (fb k) ->
  cursor_y (process_char c k m).1 = fz (y + 28).
Proof.
  intros Hg Hc Hw Hh. pose proof Hg as [Hf Hlh Hd Hx Hy Hn (Hwf & Hwb & Hhb) [Rx Ry]]. change (2 ^ 20) with 1048576 in *.
  unfold process_char. rewrite Hn, !(proj2 (Z.eqb_neq c _)) by lia. unfold draw_char, char_width. rewrite Hf, Hx. change CHAR_WIDTH with 14.
  rewrite !of_Z_exact by (change (2 ^ 24) with 16777216; destruct Hwf; lia).
  rewrite add_exact, ge_exact by (change (2 ^ 24) with 16777216; destruct Hwf; lia). rewrite (proj2 (Z.leb_le _ (x + 14))) by lia.
  unfold newline. rewrite Hy, Hlh. change CHAR_HEIGHT with 28. cbn [cursor_y set_cursor fb font_descent].
  rewrite add_exact, of_Z_exact, ge_exact by (change (2 ^ 24) with 16777216; lia). rewrite (proj2 (Z.leb_gt _ (y + 28))) by lia.
  cbn [cursor_y set_cursor fb font_descent]. rewrite Hd. change (CHAR_HEIGHT - ASCENT) with 6.
  rewrite add_exact, of_Z_exact, ge_exact by (change (2 ^ 24) with 16777216; lia). by rewrite (proj2 (Z.leb_gt _ (y + 28 + 6))) by lia.
Qed.

(** A text that starts at the top of the screen. *)
Lemma print_home (W : Z) (t : list Z) (n c' : Z) (k : Console) (x y : Z) (m : Mem) :
  fits W 0 t n c' -> on_grid k x y -> 14 * W < width (fb k) -> 28 * (n + 1) + 6 < height (fb k) ->
  forall t1 t2, t = t1 ++ t2 -> cursor_y (print (HOME ++ t1) k m).1 = fz (28 * (lf t1 + 1)).
Proof.
  intros Hfit Hg HW Hh t1 t2 E. destruct (grid_csi k x y m Hg) as (k1 & P1 & P2 & _ & _ & _ & k3 & P3 & Hg3 & Hf3).
  unfold HOME. cbn [app]. do 3 (erewrite print_cons by eassumption).
  destruct (print_fits W 0 t n c' Hfit k3 0 28 m Hg3) as [Hr _]; [lia|by rewrite Hf3|lia|rewrite Hf3; lia|].
  rewrite (Hr t1 t2 E). f_equal. lia.
Qed.
End OnConsole.

(** * The height of a frame *)

(** From a column of at most [c], [m] writes a text that fits [W] columns; [R] relates its
    result to the line feeds and the last column. *)
Definition draws {A : Type} (W c : Z) (m : P A) (R : A -> Z -> Z -> Prop) : Prop :=
  says m (fun a t => exists n c', fits W c t n c' /\ R a n c').

Section Draws.
Context {W : Z}.

Lemma draws_ret {A : Type} (c : Z) (a : A) (R : A -> Z -> Z -> Prop) : R a 0 c -> draws W c (pret a) R.
Proof. intros HR. apply says_ret. exists 0, c. by split; [constructor|]. Qed.
Lemma draws_bind {A B : Type} (c : Z) (m : P A) (k : A -> P B) (S : A -> Z -> Z -> Prop) (R : B -> Z -> Z -> Prop) :
  draws W c m S -> (forall a n c', S a n c' -> draws W c' (k a) (fun b n' c'' => R b (n + n') c'')) -> draws W c (pbind m k) R.
Proof.
  intros Hm Hk. eapply says_bind; [exact Hm|]. intros a t (n & c' & Ht & Ha).
  eapply says_weaken; [exact (Hk a n c' Ha)|]. intros b t' (n' & c'' & Ht' & Hb). exists (n + n'), c''. by split; [eapply fits_app|].
Qed.
Lemma draws_step {A B : Type} (n c c1 : Z) (m : P A) (k : A -> P B) (R : B -> Z -> Z -> Prop) :
  draws W c m (fun _ n' c' => n' = n /\ c' = c1) -> (forall a, draws W c1 (k a) (fun b n' c'' => R b (n + n') c'')) ->
  draws W c (pbind m k) R.
Proof. intros Hm Hk. eapply draws_bind; [exact Hm|]. by intros a n' c' [-> ->]. Qed.
Lemma draws_weaken {A : Type} (c : Z) (m : P A) (S R : A -> Z -> Z -> Prop) :
  draws W c m S -> (forall a n c', S a n c' -> R a n c') -> draws W c m R.
Proof. intros Hm HR. eapply says_weaken; [exact Hm|]. intros a t (n & c' & Ht & Ha). exists n, c'. auto. Qed.
Lemma draws_slack {A : Type} (c d : Z) (m : P A) (R : A -> Z -> Z -> Prop) : c <= d -> draws W d m R -> draws W c m R.
Proof. intros Hd Hm. eapply says_weaken; [exact Hm|]. intros a t (n & c' & Ht & Ha). exists n, c'. by split; [eapply fits_slack|]. Qed.
End Draws.

Definition printable (t : list Z) : Prop := Forall (fun b => 32 <= b) t.
Lemma printable_check (t : list Z) : forallb (fun b => 32 <=? b) t = true -> printable t.
Proof. intros H. apply Forall_forall. intros b Hb. rewrite forallb_forall in H. apply Z.leb_le, H. by apply list_elem_of_In. Qed.

Lemma digits_printable (fuel : nat) (n : Z) : printable (ShellEdit.digits fuel n).
Proof.
  revert n. induction fuel as [|f IH]; intros n; simpl; [constructor|]. case_match; [|constructor]. constructor; [|apply IH].
  pose proof (Z.mod_pos_bound n 10 ltac:(lia)). lia.
Qed.
Lemma digits_length (fuel w : nat) (n : Z) : n < 10 ^ Z.of_nat w -> (length (ShellEdit.digits fuel n) <= w)%nat.
Proof.
  revert w n. induction fuel as [|f IH]; intros w n Hn; simpl; [lia|]. destruct (0 <? n) eqn:E; zbool; [|simpl; lia].
  destruct w as [|w]; [simpl in Hn; lia|]. simpl. apply le_n_S, IH.
  rewrite Nat2Z.inj_succ, Z.pow_succ_r in Hn by lia. apply Z.div_lt_upper_bound; lia.
Qed.
Lemma digits_fuel (fuel : nat) (n : Z) : (length (ShellEdit.digits fuel n) <= fuel)%nat.
Proof. revert n. induction fuel as [|f IH]; intros n; simpl; [lia|]. case_match; simpl; [|lia]. specialize (IH (n / 10)). lia. Qed.
Lemma u64_printable (n : Z) : printable (Shell.u64_text n).
Proof. unfold Shell.u64_text. destruct (n =? 0); [by apply printable_check|]. apply Forall_reverse, digits_printable. Qed.
Lemma u64_length (n : Z) (w : nat) : (1 <= w)%nat -> n < 10 ^ Z.of_nat w -> (length (Shell.u64_text n) <= w)%nat.
Proof. intros Hw Hn. unfold Shell.u64_text. destruct (n =? 0); [done|]. rewrite length_reverse. by apply digits_length. Qed.
Lemma u64_longest (n : Z) : (length (Shell.u64_text n) <= 20)%nat.
Proof. unfold Shell.u64_text. destruct (n =? 0); [simpl; lia|]. rewrite length_reverse. apply digits_fuel. Qed.
Lemma padded_printable (n : Z) (w : nat) : printable (padded n w).
Proof.
  unfold padded. apply Forall_take. assert (printable (replicate 20 32)) as Hr by (apply Forall_replicate; lia).
  destruct (n =? 0); [by apply Forall_insert|]. revert n Hr. generalize (replicate 20 32). induction w as [|w IH]; intros buf n Hb; simpl; [done|].
  destruct (0 <? n); [|done]. apply IH. apply Forall_insert; [done|]. pose proof (Z.mod_pos_bound n 10 ltac:(lia)). lia.
Qed.
Lemma padded_length (n : Z) (w : nat) : (length (padded n w) <= w)%nat.
Proof. unfold padded. rewrite length_take. lia. Qed.
Lemma digit_printable (p : Z) : printable [48 + p mod 10].
Proof. repeat constructor. pose proof (Z.mod_pos_bound p 10 ltac:(lia)). lia. Qed.

Section Lines.
Variable env : Log -> Ev -> Reply.
Variable W : Z.

Lemma draws_plain (c w : Z) (b : list Z) :
  printable b -> Z.of_nat (length b) <= w -> c + w <= W -> draws W c (sys_write env b) (fun _ n c' => n = 0 /\ c' = c + w).
Proof. intros Hb Hl Hw. apply says_write. exists 0, (c + w). split; [by apply fits_plain|done]. Qed.
Lemma draws_line (c : Z) (s : string) :
  forallb (fun b => 32 <=? b) (Shell.bytes s) = true -> c + Z.of_nat (length (Shell.bytes s)) <= W ->
  draws W c (line env s) (fun _ n c' => n = 1 /\ c' = 0).
Proof.
  intros Hb Hl. apply says_write. exists 1, 0. split; [|done]. apply (fits_app W c (Shell.bytes s) EOL 0 1 (c + Z.of_nat (length (Shell.bytes s)))).
  - apply fits_plain; [by apply printable_check|lia|done].
  - apply (fits_eol W _ [] 0). constructor.
Qed.
Lemma draws_eol (c : Z) : draws W c (sys_write env EOL) (fun _ n c' => n = 1 /\ c' = 0).
Proof. apply says_write. exists 1, 0. split; [|done]. apply (fits_eol W _ [] 0). constructor. Qed.
Lemma draws_query (c n a b : Z) : draws W c (query env n a b) (fun _ n c' => n = 0 /\ c' = c).
Proof. apply says_query. intros log. exists 0, c. by split; [constructor|]. Qed.
Lemma draws_u64 (c n : Z) (w : nat) :
  (1 <= w)%nat -> n < 10 ^ Z.of_nat w -> c + Z.of_nat w <= W -> draws W c (write_u64 env n) (fun _ n c' => n = 0 /\ c' = c + Z.of_nat w).
Proof. intros H1 Hn Hw. apply draws_plain; [apply u64_printable| |done]. apply inj_le. by apply u64_length. Qed.
Lemma draws_u64_any (c n : Z) : c + 20 <= W -> draws W c (write_u64 env n) (fun _ n c' => n = 0 /\ c' = c + 20).
Proof. intros Hw. apply draws_plain; [apply u64_printable| |done]. pose proof (u64_longest n). lia. Qed.
Lemma draws_padded (c n : Z) (w : nat) : c + Z.of_nat w <= W -> draws W c (write_padded env n w) (fun _ n c' => n = 0 /\ c' = c + Z.of_nat w).
Proof. intros Hw. apply draws_plain; [apply padded_printable| |done]. apply inj_le, padded_length. Qed.
Lemma draws_sep (c : Z) (s : Screen) : c = 0 -> Z.min (cols s) 96 <= W -> 0 <= W -> draws W c (write_sep env (cols s)) (fun _ n c' => n = 1 /\ c' = 0).
Proof.
  intros -> Hs HW. unfold write_sep.
  eapply draws_step; [apply (draws_plain 0 W); [apply Forall_replicate; lia|rewrite length_replicate; lia|lia]|].
  intros _. apply draws_eol.
Qed.
Lemma draws_each (c : Z) (l : list Z) (k : nat) :
  printable l -> (length l <= k)%nat -> c + Z.of_nat k <= W -> draws W c (write_each env l) (fun _ n c' => n = 0 /\ c' = c + Z.of_nat k).
Proof.
  intros Hp. revert c k. induction Hp as [|b l Hb _ IH]; intros c k Hl Hc; cbn [write_each].
  - eapply (draws_slack c (c + Z.of_nat k)); [lia|]. by apply draws_ret.
  - destruct k as [|k]; [simpl in Hl; lia|]. eapply draws_step; [apply (draws_plain c 1); [by constructor|done|lia]|].
    intros _. eapply draws_weaken; [apply (IH (c + 1) k); simpl in Hl; lia|]. cbn. lia.
Qed.
Lemma draws_bar (c p m : Z) (s : Screen) : c + 30 <= W -> draws W c (draw_bar env p m (bar_w s)) (fun _ n c' => n = 0 /\ c' = c + 30).
Proof.
  intros Hc. assert (bar_w s <= 30)%nat by (unfold bar_w; lia). apply (draws_each c _ 30); [..|done].
  - unfold bar_text. apply Forall_app. split; apply Forall_replicate; lia.
  - unfold bar_text. rewrite length_app, !length_replicate. lia.
Qed.
Lemma draws_text (c w : Z) (s : string) :
  forallb (fun b => 32 <=? b) (Shell.bytes s) = true -> Z.of_nat (length (Shell.bytes s)) <= w -> c + w <= W ->
  draws W c (text env s) (fun _ n c' => n = 0 /\ c' = c + w).
Proof. intros Hb. by apply draws_plain, printable_check. Qed.
Lemma draws_digit (c p : Z) : c + 1 <= W -> draws W c (sys_write env [48 + p mod 10]) (fun _ n c' => n = 0 /\ c' = c + 1).
Proof. intros Hc. by apply draws_plain; [apply digit_printable|..]. Qed.
End Lines.

Create HintDb lines.
#[export] Hint Resolve draws_query draws_eol : lines.
#[export] Hint Extern 1 (draws _ _ (text _ ?s) _) =>
  (let w := eval vm_compute in (Z.of_nat (String.length s)) in apply (draws_text _ _ _ w); [reflexivity|vm_compute; congruence|lia]) : lines.
#[export] Hint Extern 1 (draws _ _ (line _ ?s) _) => (apply draws_line; [reflexivity|cbn; lia]) : lines.
#[export] Hint Extern 1 (draws _ _ (write_padded _ _ _) _) => (apply draws_padded; lia) : lines.
#[export] Hint Extern 1 (draws _ _ (draw_bar _ _ _ _) _) => (apply draws_bar; lia) : lines.
#[export] Hint Extern 1 (draws _ _ (write_sep _ _) _) => (apply draws_sep; lia) : lines.
#[export] Hint Extern 1 (draws _ _ (sys_write _ [48 + _ mod 10]) _) => (apply draws_digit; lia) : lines.
(** Runs through writes whose widths are known. *)
Ltac lines :=
  repeat match goal with |- draws _ _ (pbind _ _) _ => eapply draws_step; [solve [auto 2 with lines nocore]|intros ?] end.

(** Whole lines: from the first column to the first column. *)
Definition whole {A : Type} (W : Z) (m : P A) (R : A -> Z -> Prop) : Prop := draws W 0 m (fun a n c => R a n /\ c = 0).

Section Frame.
Variable env : Log -> Ev -> Reply.
(** Program names are printable; values are 64 bits wide; the kernel's list of processes
    ascends. *)
Hypothesis clean_names : forall log pid, printable (name_of (user_info (r_data (env log (Sys SYS_PROCESS_INFO pid 0 0))))).
Hypothesis words : forall log e, r_val (env log e) < 2 ^ 64.
Variable bound : Z.
Hypothesis ascending : forall log pid, let r := r_val (env log (Sys SYS_PROCESS_NEXT pid 0 0)) in r = u64_max \/ pid < r < bound.
Variable s : Screen.
(** The longest line, of the processors, has 77 characters; the separators are as wide as
    the screen, 96 at most. *)
Variable W : Z.
Hypothesis HW : 77 <= W.
Hypothesis Hsep : Z.min (cols s) 96 <= W.

Lemma draws_ask (c : Z) (e : Ev) : (forall r, written_of (e, r) = []) -> draws W c (ask env e) (fun r n c' => (n = 0 /\ c' = c) /\ exists log, r = env log e).
Proof. intros He. apply says_ask; [done|]. intros log. exists 0, c. split; [constructor|]. eauto. Qed.
Lemma draws_asked (c : Z) (e : Ev) : (forall r, written_of (e, r) = []) -> draws W c (ask env e) (fun _ n c' => n = 0 /\ c' = c).
Proof. intros He. eapply draws_weaken; [by apply draws_ask|]. by intros r n c' [? _]. Qed.
Lemma draws_answer (c n a b : Z) : draws W c (query env n a b) (fun v n' c' => (n' = 0 /\ c' = c) /\ exists log, v = r_val (env log (Sys n a b 0))).
Proof. apply says_query. intros log. exists 0, c. split; [constructor|]. eauto. Qed.

Lemma draws_tenths (c p : Z) : c + 5 <= W -> draws W c (write_tenths env p) (fun _ n c' => n = 0 /\ c' = c + 5).
Proof. intros Hc. unfold write_tenths. lines. eapply draws_weaken; [apply draws_digit; lia|]. simpl. lia. Qed.
Lemma draws_pct (c p : Z) : c + 6 <= W -> draws W c (write_pct env p) (fun _ n c' => n = 0 /\ c' = c + 6).
Proof.
  intros Hc. unfold write_pct. eapply draws_step; [apply draws_tenths; lia|]. intros _.
  eapply draws_weaken; [apply (draws_text _ _ _ 1); [done|done|lia]|]. simpl. lia.
Qed.
#[local] Hint Extern 1 (draws _ _ (write_tenths _ _) _) => (apply draws_tenths; lia) : lines.
#[local] Hint Extern 1 (draws _ _ (write_pct _ _) _) => (apply draws_pct; lia) : lines.
Lemma draws_mib (c k : Z) : k < 2 ^ 32 -> c + 10 <= W -> draws W c (write_mib env k) (fun _ n c' => n = 0 /\ c' = c + 10).
Proof.
  intros Hk Hc. unfold write_mib. eapply draws_step.
  { apply (draws_u64 _ _ _ _ 7); [lia| |lia]. apply Z.div_lt_upper_bound; [lia|]. change (2 ^ 32) with 4294967296 in Hk. change (10 ^ Z.of_nat 7) with 10000000. lia. }
  intros _. eapply draws_weaken; [apply (draws_text _ _ _ 3); [done|done|lia]|]. simpl. lia.
Qed.
Lemma draws_shares_all (c u k i : Z) : c + 34 <= W -> draws W c (shares env s u k i " usr:" " ker:" " idle:") (fun _ n c' => n = 0 /\ c' = c + 34).
Proof.
  intros Hc. unfold shares. destruct (wide s).
  - lines. eapply draws_weaken; [apply draws_pct; lia|simpl; lia].
  - eapply (draws_slack c (c + 34)); [lia|]. by apply draws_ret.
Qed.
Lemma draws_shares_core (c u k i : Z) : c + 27 <= W -> draws W c (shares env s u k i " u:" " k:" " i:") (fun _ n c' => n = 0 /\ c' = c + 27).
Proof.
  intros Hc. unfold shares. destruct (wide s).
  - lines. eapply draws_weaken; [apply draws_pct; lia|simpl; lia].
  - eapply (draws_slack c (c + 27)); [lia|]. by apply draws_ret.
Qed.
#[local] Hint Extern 1 (draws _ _ (shares _ _ _ _ _ " usr:" _ _) _) => (apply draws_shares_all; lia) : lines.
#[local] Hint Extern 1 (draws _ _ (shares _ _ _ _ _ " u:" _ _) _) => (apply draws_shares_core; lia) : lines.

Lemma whole_row (pid : Z) (st : string) (p m : Z) (name : list Z) :
  forallb (fun b => 32 <=? b) (Shell.bytes st) = true -> (length (Shell.bytes st) <= 7)%nat -> printable name -> (length name <= 32)%nat ->
  whole W (write_row env pid st p m name) (fun _ n => n = 1).
Proof.
  intros Hst Hl Hn Hnl. unfold whole, write_row. lines. eapply draws_step; [apply (draws_text _ _ _ 7); [done|lia|lia]|intros _]. lines.
  eapply draws_step; [apply (draws_plain _ _ _ 32); [done|lia|simpl; lia]|]. intros _. apply draws_eol.
Qed.
Lemma whole_thread_row (id : Z) (st : string) (p cpu : Z) :
  forallb (fun b => 32 <=? b) (Shell.bytes st) = true -> (length (Shell.bytes st) <= 4)%nat ->
  whole W (write_thread_row env id st p cpu) (fun _ n => n = 1).
Proof.
  intros Hst Hl. unfold whole, write_thread_row. lines. eapply draws_step; [apply (draws_text _ _ _ 4); [done|lia|simpl; lia]|intros _]. lines.
  eapply draws_step; [apply draws_u64_any; simpl; lia|]. intros _. apply draws_eol.
Qed.

Lemma whole_cores (n : nat) (i : Z) (prev : list (Z * Z * Z)) :
  i + Z.of_nat n <= MAX_CPUS -> whole W (core_rows env s n i prev) (fun _ c => c = Z.of_nat n).
Proof.
  revert i prev. induction n as [|n IH]; intros i prev Hi; cbn [core_rows]; [by apply draws_ret|]. unfold MAX_CPUS in Hi.
  apply (draws_step 1 0 0).
  { unfold core_row. lines. destruct (default _ _) as [[pi pk] pu]. lines.
    eapply draws_step; [apply (draws_u64 _ _ _ _ 2); [lia|simpl; lia|simpl; lia]|intros _]. lines. by apply draws_ret. }
  intros c. eapply draws_weaken; [apply IH; unfold MAX_CPUS; lia|]. simpl. lia.
Qed.

(** A text that begins at the top of the screen. *)
Definition homed {A : Type} (m : P A) (R : A -> Z -> Z -> Prop) : Prop :=
  says m (fun a t => exists t1 n c, t = HOME ++ t1 /\ fits W 0 t1 n c /\ R a n c).
Lemma homed_home {A : Type} (k : P A) (R : A -> Z -> Z -> Prop) : draws W 0 k R -> homed (pbind (sys_write env HOME) (fun _ => k)) R.
Proof.
  intros Hk. eapply says_bind; [by apply (says_write env HOME (fun _ t => t = HOME))|]. intros _ t ->.
  eapply says_weaken; [exact Hk|]. intros a t (n & c & Ht & Ha). by exists t, n, c.
Qed.
Lemma homed_bind {A B : Type} (m : P A) (k : A -> P B) (S : A -> Z -> Z -> Prop) (R : B -> Z -> Z -> Prop) :
  homed m S -> (forall a n c, S a n c -> draws W c (k a) (fun b n' c' => R b (n + n') c')) -> homed (pbind m k) R.
Proof.
  intros Hm Hk. eapply says_bind; [exact Hm|]. intros a t (t1 & n & c & -> & Ht & Ha).
  eapply says_weaken; [exact (Hk a n c Ha)|]. intros b t' (n' & c' & Ht' & Hb). exists (t1 ++ t'), (n + n'), c'.
  split; [by rewrite app_assoc|]. by split; [eapply fits_app|].
Qed.
Lemma homed_query {A : Type} (n a b : Z) (k : Z -> P A) (R : A -> Z -> Z -> Prop) :
  (forall v, v < 2 ^ 64 -> homed (k v) R) -> homed (pbind (query env n a b) k) R.
Proof.
  intros Hk. eapply says_bind; [apply (says_query env n a b (fun v t => t = [] /\ v < 2 ^ 64)); by split|].
  intros v t [-> Hv]. eapply says_weaken; [exact (Hk v Hv)|]. done.
Qed.

Lemma homed_header (t : Top) (ker idle user dt tot use : Z) :
  0 <= cpu_count s <= MAX_CPUS -> tot < 2 ^ 32 -> use < 2 ^ 32 ->
  homed (header env s t ker idle user dt tot use) (fun _ n c => n = 7 + cpu_count s /\ c = 0).
Proof.
  intros Hc Ht Hu. unfold header. apply homed_home. lines.
  eapply draws_bind; [apply whole_cores; lia|]. intros cpu n c' [-> ->]. lines.
  eapply draws_step; [by apply draws_mib; [|simpl; lia]|]. intros _. lines. eapply draws_step; [by apply draws_mib; [|simpl; lia]|]. intros _.
  lines. apply draws_ret. lia.
Qed.
Lemma whole_blank (n : nat) : whole W (blank_lines env n) (fun _ c => c = Z.of_nat n).
Proof.
  induction n as [|n IH]; cbn [blank_lines]; [by apply draws_ret|]. eapply draws_step; [apply draws_eol|]. intros _.
  eapply draws_weaken; [exact IH|]. simpl. lia.
Qed.
Lemma draws_footer (x y : Z) : x < y -> y < 1000 -> draws W 0 (footer env s x y) (fun _ n _ => n = 1).
Proof.
  intros Hx Hy. unfold footer. lines. 
  eapply draws_step; [apply (draws_u64 _ _ _ _ 3); [lia|simpl; lia|simpl; lia]|intros _]. lines.
  eapply draws_step; [apply (draws_u64 _ _ _ _ 3); [lia|simpl; lia|simpl; lia]|intros _]. lines.
  eapply draws_step; [apply (draws_u64 _ _ _ _ 3); [lia|simpl; lia|simpl; lia]|intros _].
  apply says_write. eexists 0, _. split; [|done]. eapply (fits_app W _ _ ERASE 0 0).
  - apply (fits_plain W _ 33); [by apply printable_check|done|simpl; lia].
  - apply (fits_erase W _ [] 0). constructor.
Qed.

(** How many of the rows [a .. b - 1] are in the window. *)
Definition drawn (scroll a b : Z) : Z := Z.max 0 (Z.min b (scroll + visible s) - Z.max a scroll).
Lemma visible_pos : 1 <= visible s.
Proof. unfold visible. lia. Qed.
Lemma drawn_app (scroll a b c : Z) : a <= b -> b <= c -> drawn scroll a b + drawn scroll b c = drawn scroll a c.
Proof. pose proof visible_pos. unfold drawn. lia. Qed.
Lemma drawn_nil (scroll a : Z) : drawn scroll a a = 0.
Proof. unfold drawn. lia. Qed.

Lemma whole_shown (scroll i : Z) (m : P unit) :
  whole W m (fun _ n => n = 1) -> whole W (shown_row s scroll i m) (fun _ n => n = drawn scroll i (i + 1)).
Proof.
  intros Hm. unfold shown_row. destruct (_ && _) eqn:E.
  - eapply draws_weaken; [exact Hm|]. intros _ n c [-> ->]. apply andb_prop in E as [E1 E2]. zbool. unfold drawn. lia.
  - apply draws_ret. apply andb_false_iff in E. unfold drawn. destruct E; zbool; lia.
Qed.

Lemma draws_thread_ids (n : nat) (pid t c : Z) (l : list Z) :
  draws W c (thread_ids env n pid t l) (fun r n' c' => (n' = 0 /\ c' = c) /\ (length r <= length l + n)%nat).
Proof.
  revert t l. induction n as [|n IH]; intros t l; cbn [thread_ids]; [apply draws_ret; lia|]. destruct (t =? u64_max); [apply draws_ret; lia|].
  lines. eapply draws_weaken; [apply IH|]. intros r n' c'. rewrite length_app. simpl. lia.
Qed.

Lemma whole_threads (t : Top) (scroll dt : Z) (tids : list Z) (row : Z) (cur : list (Z * Z)) :
  whole W (thread_rows env s t scroll dt tids row cur)
    (fun r n => row <= fst r <= row + Z.of_nat (length tids) /\ n = drawn scroll row (fst r)).
Proof.
  revert row cur. induction tids as [|id l IH]; intros row cur; cbn [thread_rows length].
  { apply draws_ret. simpl. rewrite drawn_nil. lia. }
  eapply (draws_step 0 0 0); [by apply draws_asked|]. intros r. destruct (negb _).
  { eapply draws_weaken; [apply IH|]. simpl. lia. }
  eapply draws_bind. { apply whole_shown, whole_thread_row; by repeat case_match; simpl; lia || done. }
  intros _ n c [-> ->]. eapply draws_weaken; [apply IH|]. intros [row' cu] n c [[Hr ->] ->]. simpl in *. rewrite Z.add_0_l, drawn_app by lia. lia.
Qed.

Lemma name_short (i : ProcessInfo) : (length (pi_name i) <= 32)%nat -> (length (name_of i) <= 32)%nat.
Proof. unfold name_of. rewrite length_take. lia. Qed.

(** What the rows of a process add: rows, and an entry in the list of at most 25. *)
Lemma whole_info (t : Top) (scroll dt pid row : Z) (cur cur_t : list (Z * Z)) (r : Reply) :
  printable (name_of (user_info (r_data r))) ->
  whole W (proc_row env s t scroll dt pid row cur cur_t r)
    (fun x n => n = drawn scroll row (fst (fst x)) /\ row <= fst (fst x) /\
       (length (snd (fst x)) <= S (length cur))%nat /\ fst (fst x) + 17 * Z.of_nat (length cur) <= row + 17 * Z.of_nat (length (snd (fst x)))).
Proof.
  intros Hn. unfold proc_row. destruct (negb _); [apply draws_ret; simpl; rewrite drawn_nil; lia|].
  eapply draws_bind.
  { apply whole_shown, whole_row; [by repeat case_match|repeat case_match; simpl; lia|done|]. apply name_short. simpl. rewrite length_take. lia. }
  intros _ n c [-> ->]. lines. eapply draws_bind; [apply draws_thread_ids|]. intros tids n c [[-> ->] Hl].
  eapply (draws_bind _ _ _ (fun y n c => (row + 1 <= fst y <= row + 17 /\ n = drawn scroll (row + 1) (fst y)) /\ c = 0)).
  { destruct (1 <? _)%nat.
    - eapply draws_weaken; [apply whole_threads|]. unfold MAX_TPP in Hl. simpl in *. intros y n c. lia.
    - apply draws_ret. simpl. rewrite drawn_nil. lia. }
  intros y n c [[Hy ->] ->]. apply draws_ret. simpl. pose proof (drawn_app scroll row (row + 1) (fst y) ltac:(lia) ltac:(lia)).
  rewrite length_app. simpl. lia.
Qed.

Lemma whole_procs (fuel : nat) (t : Top) (scroll dt pid row : Z) (cur cur_t : list (Z * Z)) :
  pid = u64_max \/ (pid < bound /\ bound - pid <= Z.of_nat fuel) -> (length cur <= MAX_PROCS)%nat ->
  whole W (proc_rows env fuel s t scroll dt pid row cur cur_t)
    (fun o n => exists row' c ct, o = Some (row', c, ct) /\ row <= row' <= row + 17 * (25 - Z.of_nat (length cur)) /\ n = drawn scroll row row').
Proof.
  revert pid row cur cur_t. induction fuel as [|f IH]; intros pid row cur cur_t Hp Hcur; cbn [proc_rows]; unfold MAX_PROCS in Hcur;
    (destruct (_ || _) eqn:Ee; [apply draws_ret; split; [|done]; eexists _, _, _; split; [done|]; rewrite drawn_nil; lia|]);
    apply orb_false_iff in Ee as [Epid Elen]; zbool; (destruct Hp as [?|[Hp Hf]]; [done|]).
  { lia. }
  assert (length cur < MAX_PROCS)%nat as Hlen by (apply Nat.ltb_lt; by destruct (_ <? _)%nat). unfold MAX_PROCS in Hlen.
  eapply draws_bind; [by apply draws_ask|]. intros r n c [[-> ->] [log ->]].
  eapply draws_bind; [apply whole_info, clean_names|].
  intros [[row1 cur1] cur_t1] n c [(-> & Hrow & Hl & H17) ->]. simpl in Hrow, Hl, H17.
  eapply draws_bind; [apply draws_answer|]. intros next n c [[-> ->] [log' ->]].
  eapply draws_weaken; [apply IH; [|unfold MAX_PROCS; lia]|].
  { destruct (ascending log' pid) as [?|[? ?]]; [by left|right; lia]. }
  intros o n c [(row' & c1 & ct & -> & Hr & ->) ->]. split; [|done]. exists row', c1, ct. split; [done|]. simpl.
  rewrite Z.add_0_l, Z.add_0_l, drawn_app by lia. lia.
Qed.

(** The rows and the padding below them. *)
Lemma padding (scroll0 total : Z) :
  0 <= scroll0 -> 1 <= total ->
  let scroll1 := clamp_scroll s total scroll0 in
  let n := drawn scroll0 0 total + saturating_sub (visible s) (saturating_sub (Z.min total (scroll1 + visible s)) scroll1) in
  n <= visible s /\ (n = visible s <-> scroll1 = scroll0).
Proof. intros H0 Ht. pose proof visible_pos. unfold clamp_scroll, drawn, saturating_sub. lia. Qed.

Lemma frame_homed (fuel : nat) (t : Top) :
  0 <= cpu_count s <= MAX_CPUS -> bound <= Z.of_nat fuel -> header_lines s + footer_lines < rows s -> 0 <= scroll t ->
  homed (frame env fuel s t) (fun o n _ => exists t', o = Some t' /\ n <= rows s - 1 /\
    (n = rows s - 1 <-> scroll t' = clamp_scroll s (total_rows t) (scroll t))).
Proof.
  intros Hc Hfuel Hrows Hscroll. unfold frame. apply homed_query. intros ker _. apply homed_query. intros idle _. apply homed_query. intros user _.
  apply homed_query. intros mem Hmem. eapply homed_bind.
  { apply homed_header; [done| |].
    - rewrite Z.shiftr_div_pow2 by lia. apply Z.div_lt_upper_bound; [lia|]. change (2 ^ 32 * 2 ^ 32) with (2 ^ 64). done.
    - change (2 ^ 32 - 1) with (Z.ones 32). rewrite Z.land_ones by lia. by apply Z.mod_pos_bound. }
  intros cpu n c [-> ->].
  set (scroll0 := clamp_scroll s (total_rows t) (scroll t)). assert (0 <= scroll0) as Hs0 by (unfold scroll0, clamp_scroll, saturating_sub; lia).
  eapply (draws_step 0); [by apply draws_asked|]. intros k.
  eapply draws_bind. { apply whole_shown, whole_row; [done|simpl; lia|by apply printable_check|simpl; lia]. }
  intros _ n c [-> ->]. eapply draws_bind; [apply draws_answer|]. intros first n c [[-> ->] [log ->]].
  eapply draws_bind; [apply whole_procs; [|unfold MAX_PROCS; simpl; lia]|].
  { destruct (ascending log 0) as [?|[? ?]]; [by left|right; lia]. }
  intros o n c [(row & cu & ct & -> & Hrow & ->) ->]. simpl in Hrow. eapply draws_bind; [apply whole_blank|]. intros _ n c [-> ->].
  eapply draws_bind.
  { apply draws_footer; [|lia]. pose proof visible_pos. unfold clamp_scroll, saturating_sub. lia. }
  intros _ n c ->. eapply draws_bind; [apply (flush_says env (fun _ t => exists n c', fits W c t n c' /\ (n = 0 /\ c' = c))); exists 0, c; by split; [constructor|]|].
  intros _ n c' [-> ->]. apply draws_ret.
  eexists. split; [done|]. cbn [scroll total_rows].
  pose proof (drawn_app scroll0 0 1 row ltac:(lia) ltac:(lia)) as Hd. pose proof (padding scroll0 row Hs0 ltac:(lia)) as [Hle Hiff].
  assert (rows s - 1 = 8 + cpu_count s + visible s) as Hr by (unfold visible, header_lines, footer_lines, saturating_sub in *; lia).
  rewrite Hr. rewrite Z2Nat.id by (unfold saturating_sub; lia). rewrite <-Hiff. change (0 + 1) with 1. lia.
Qed.
End Frame.


(** * Numbers in columns *)

(** The number a column of spaces and digits reads as. *)
Definition reads (a c : Z) : Z := if c =? 32 then a else a * 10 + (c - 48).
Definition value (l : list Z) : Z := foldl reads 0 l.

Lemma value_spaces (l : list Z) : Forall (fun c => c = 32) l -> value l = 0.
Proof. unfold value. induction 1 as [|c l -> _ IH]; [done|exact IH]. Qed.
Lemma padded_digits_keep (i : nat) (v : Z) (buf : list Z) (j : nat) : (i <= j)%nat -> padded_digits i v buf !! j = buf !! j.
Proof.
  revert v buf. induction i as [|i IH]; intros v buf Hj; [done|]. cbn [padded_digits]. destruct (0 <? v); [|done].
  rewrite IH by lia. by rewrite list_lookup_insert_ne by lia.
Qed.
Lemma padded_digits_value (i : nat) (v : Z) (buf : list Z) :
  0 <= v -> (i <= length buf)%nat -> Forall (fun c => c = 32) (take i buf) -> value (take i (padded_digits i v buf)) = v mod 10 ^ Z.of_nat i.
Proof.
  revert v buf. induction i as [|i IH]; intros v buf Hv Hl Hs; [by rewrite Z.mod_1_r|]. cbn [padded_digits]. destruct (0 <? v) eqn:E; zbool.
  2:{ replace v with 0 by lia. rewrite Z.mod_0_l by (apply Z.pow_nonzero; lia). by apply value_spaces. }
  set (buf' := <[i := 48 + v mod 10]> buf).
  assert (padded_digits i (v / 10) buf' !! i = Some (48 + v mod 10)) as Hi.
  { rewrite padded_digits_keep by done. apply list_lookup_insert_eq. lia. }
  rewrite (take_S_r _ _ _ Hi). unfold value. rewrite foldl_app. cbn [foldl]. fold (value (take i (padded_digits i (v / 10) buf'))).
  pose proof (Z.mod_pos_bound v 10 ltac:(lia)).
  rewrite IH.
  - unfold reads. destruct (_ =? 32) eqn:E2; zbool; [lia|]. rewrite Nat2Z.inj_succ, Z.pow_succ_r by lia.
    rewrite (Z.rem_mul_r v 10 (10 ^ Z.of_nat i)) by first [lia | apply Z.pow_pos_nonneg; lia]. lia.
  - apply Z.div_pos; lia.
  - unfold buf'. rewrite length_insert. lia.
  - unfold buf'. rewrite take_insert_ge by lia. rewrite (take_S_r buf i 32) in Hs.
    + apply Forall_app in Hs as [Hs _]. exact Hs.
    + destruct (lookup_lt_is_Some_2 buf i ltac:(lia)) as [x Hx]. rewrite (take_S_r _ _ _ Hx) in Hs. apply Forall_app in Hs as [_ Hs]. apply Forall_cons in Hs as [Hs _]. rewrite Hx. f_equal. exact Hs.
Qed.

Lemma padded_value (n : Z) (w : nat) : 0 <= n -> (0 < w <= 20)%nat -> value (padded n w) = n mod 10 ^ Z.of_nat w.
Proof.
  intros Hn Hw. unfold padded. destruct (n =? 0) eqn:E; zbool.
  - subst n. rewrite Z.mod_0_l by (apply Z.pow_nonzero; lia). clear Hn. destruct w as [|w]; [lia|]. do 20 (destruct w as [|w]; [reflexivity|]). lia.
  - apply padded_digits_value; [done|rewrite length_replicate; lia|]. apply Forall_take, Forall_replicate. done.
Qed.

(** The percentage column holds three digits before the point, but a process may use
    more than one core: from 1000 % on, which ten busy threads reach, the column shows
    what is left after dropping the thousands. *)
Theorem percent_drops_thousands (p10 : Z) : 0 <= p10 -> value (padded (p10 / 10) 3) = p10 / 10 mod 1000.
Proof. intros Hp. apply (padded_value (p10 / 10) 3); [apply Z.div_pos; lia|lia]. Qed.

Module Example.

(** Two processes, 1 and 7, on a machine with one core. *)
Definition kernel (log : Log) (e : Ev) : Reply :=
  match e with
  | Sys n a _ _ =>
      if n =? SYS_PROCESS_NEXT then mkReply (if a <? 1 then 1 else if a <? 7 then 7 else u64_max) []
      else if n =? SYS_PROCESS_INFO then mkReply 0 (info_bytes (mkInfo a 1 (replicate 32 0) 0 0 0 0 5 4096 0))
      else if n =? SYS_THREAD_NEXT then mkReply u64_max []
      else mkReply 0 []
  | _ => mkReply 0 []
  end.
Definition screen : Screen := mkScreen 25 80 1.

Lemma kernel_ascends (log : Log) (pid : Z) : let r := r_val (kernel log (Sys SYS_PROCESS_NEXT pid 0 0)) in r = u64_max \/ pid < r < 8.
Proof.
  change (let r := if pid <? 1 then 1 else if pid <? 7 then 7 else u64_max in r = u64_max \/ pid < r < 8). cbn zeta.
  destruct (pid <? 1) eqn:E1; zbool; [right; lia|]. destruct (pid <? 7) eqn:E2; zbool; [right; lia|by left].
Qed.
Lemma kernel_names (log : Log) (pid : Z) : printable (name_of (user_info (r_data (kernel log (Sys SYS_PROCESS_INFO pid 0 0))))).
Proof.
  assert (pi_name (user_info (r_data (kernel log (Sys SYS_PROCESS_INFO pid 0 0)))) = replicate 32 0) as E by reflexivity.
  unfold name_of. rewrite E. apply Forall_nil_2.
Qed.

Lemma kernel_words (log : Log) (e : Ev) : r_val (kernel log e) < 2 ^ 64.
Proof. unfold kernel. repeat case_match; simpl; try lia; by vm_compute. Qed.

(** A screen of 1280 by 1024 pixels: 91 columns, 36 rows. *)
Definition large_fb : Framebuffer.FramebufferInfo := Framebuffer.mkFb 2147483648 5242880 1280 1024 1280 Framebuffer.Bgr.
Definition large : Screen := mkScreen 36 91 1.


(** A screen of 1024 by 768 pixels: 73 columns, 27 rows. *)
Definition small : Screen := mkScreen 27 73 1.
Definition small_text : list Z := written (snd (frame kernel 8 small new_top [] [])).
Definition title_lines : list Z := Shell.bytes "KazuOS ktop  [Ctrl+C] quit" ++ EOL ++ replicate 73 45 ++ EOL.
Definition cpu_line : list Z := Shell.bytes "CPU [                             ]   0.0% usr:  0.0% ker:  0.0% idle:  0.0%".

Lemma small_text_starts : exists t, small_text = HOME ++ title_lines ++ cpu_line ++ t.
Proof. exists (drop 188 small_text). vm_compute. reflexivity. Qed.
Lemma title_fits : fits 73 0 title_lines 2 0.
Proof.
  unfold title_lines. apply (fits_app 73 0 _ _ 0 2 26); [by apply (fits_plain 73 0 26); [apply printable_check|..]|].
  apply (fits_eol 73 26 _ 1). apply (fits_app 73 0 _ EOL 0 1 73); [|apply (fits_eol 73 73 [] 0); constructor].
  apply (fits_plain 73 0 73); [by apply printable_check|done|lia].
Qed.

Lemma percent_drops_thousands_witness : value (padded (pct10_n 50 50 10 / 10) 3) = 0.
Proof. rewrite (percent_drops_thousands (pct10_n 50 50 10)); [reflexivity|vm_compute; congruence]. Defined.

End Example.

(** The line of the processors wraps on a screen of 73 columns.  On a console of 1024 by
    768 pixels it has 76 characters, though ktop adapts to the screen so as not to wrap
    (ktop.rs:50): its 74th character is drawn in the next row, and the frame, which
    has as many lines as the screen has rows, scrolls the screen. *)
Theorem cpu_line_wraps (k : Console.Console) (x y : Z) (m : Framebuffer.Mem) :
  Console.on_grid k x y -> Framebuffer.width (Console.fb k) = 1024 -> Framebuffer.height (Console.fb k) = 768 ->
  exists t1 t2, Example.small_text = HOME ++ t1 ++ t2 /\ lf t1 = 2 /\
    Console.cursor_y (Console.print (HOME ++ t1) k m).1 = F32.fz (28 * 4).
Proof.
  intros Hg Hw Hh. destruct Example.small_text_starts as [t Et].
  exists (Example.title_lines ++ take 74 Example.cpu_line), (drop 74 Example.cpu_line ++ t).
  split; [by rewrite Et, <-!app_assoc, (app_assoc (take 74 _)), take_drop|]. split; [reflexivity|].
  destruct (grid_csi k x y m Hg) as (k1 & P1 & P2 & _ & _ & _ & k3 & P3 & Hg3 & Hf3).
  unfold HOME. cbn [app]. do 3 (erewrite Console.print_cons by eassumption). rewrite Console.print_app.
  destruct (print_fits 73 0 _ 2 0 Example.title_fits k3 0 28 m Hg3) as [_ (x1 & Hg4 & Hx1 & Hf4)]; [lia|rewrite Hf3; lia|lia|rewrite Hf3; lia|].
  assert (x1 = 0) as -> by (pose proof (Console.og_range _ _ _ Hg4); lia). rewrite Hf3 in Hf4.
  set (p := Console.print Example.title_lines k3 m) in *.
  change (take 74 Example.cpu_line) with (take 73 Example.cpu_line ++ [46]). rewrite Console.print_app.
  destruct (Console.print_line p.1 (take 73 Example.cpu_line) 0 84 p.2 Hg4) as [Hk _];
    [by apply printable_check|rewrite Hf4, Hw; vm_compute; reflexivity|lia|rewrite Hf4, Hh; lia|].
  set (q := Console.print (take 73 _) _ _) in *.
  assert (Console.on_grid q.1 1022 84) as Hg5.
  { rewrite Hk. eapply (Console.on_grid_move p.1 0 84); [exact Hg4|change (2 ^ 20) with 1048576; lia..]. }
  assert (Console.fb q.1 = Console.fb k) as Hf5 by (rewrite Hk; exact Hf4).
  erewrite Console.print_cons by apply surjective_pairing. change (28 * 4) with (84 + 28).
  apply (grid_wrap q.1 46 1022 84 q.2 Hg5); [lia|rewrite Hf5; lia|rewrite Hf5; lia].
Qed.

End Ktop.
