(* ===== verification/Less.v ===== *)
(** The pager, [userspace/programs/less.rs]: it reads its standard input to the end,
    indexes the lines, and shows a page at a time.

    System calls are events of [DriverRt.v].  The filled parts of the two static arrays
    ([INPUT_BUF], [LINE_STARTS]) are lists.  The two loops that wait for the kernel take a
    number of turns. *)
From stdpp Require Import base list numbers option strings.
From S2P Require Import Prelude Handlers Shell DriverRt Ktop.

Open Scope Z_scope.

Module Less.
Import Handlers DriverRt.
Open Scope driver_scope.

Definition KEY_UP : Z := 130.
Definition KEY_DOWN : Z := 131.
Definition BUF_SIZE : Z := 65536.
Definition MAX_LINES : nat := 4096.

Record Text := mkText { data : list Z; starts : list nat }.

(** ** The line index *)

Fixpoint index_loop (rest : list Z) (i : nat) (starts : list nat) : list nat :=
  match rest with
  | [] => starts
  | c :: rest' =>
      if (length starts <? MAX_LINES)%nat
      then index_loop rest' (S i) (if (c =? 10) && negb (bool_decide (rest' = [])) then starts ++ [S i] else starts)
      else starts
  end.
Definition build_index (data : list Z) : Text := mkText data (index_loop data 0 [0%nat]).
Definition total_lines (t : Text) : Z := Z.of_nat (length (starts t)).

(** [data[start..line_end]]. *)
Definition line_text (t : Text) (idx : nat) : list Z :=
  let start := default 0%nat (starts t !! idx) in
  let rest := drop start (data t) in
  let len := default (length rest) (position (fun b => b =? 10) rest) in
  let line := take len rest in
  if bool_decide (last line = Some 13) then take (length line - 1) line else line.

(** ** Paging *)

Definition rows_of (console_size : Z) : Z :=
  let r := Z.shiftr console_size 32 in if 2 <=? r then r - 1 else 23.
Definition max_top (total rows : Z) : Z := saturating_sub total rows.

(** What a key does to the first line shown; [None] is the end of the program. *)
Definition key_top (total rows key top : Z) : option Z :=
  if existsb (Z.eqb key) [113; 81; 3] then None
  else if existsb (Z.eqb key) [32; 102; 70] then Some (Z.min (top + rows) (max_top total rows))
  else if existsb (Z.eqb key) [98; 66] then Some (saturating_sub top rows)
  else if existsb (Z.eqb key) [KEY_DOWN; 106; 13; 10] then Some (Z.min (top + 1) (max_top total rows))
  else if existsb (Z.eqb key) [KEY_UP; 107] then Some (saturating_sub top 1)
  else Some top.

Section Program.
Variable env : Log -> Ev -> Reply.

Definition sys_write (b : list Z) : M unit := do_ env (SysData SYS_WRITE 1 b).
Definition write_u64 (n : Z) : M unit := sys_write (Shell.u64_text n).

(** The bytes the kernel stored for a read of [n] bytes. *)
Definition stored (n : Z) (r : Reply) : list Z := take (Z.to_nat n) (r_data r ++ replicate (Z.to_nat n) 0).

Fixpoint read_all (fuel : nat) (buf : list Z) : M (option (list Z)) :=
  match fuel with
  | O => ret None
  | S fuel' =>
      let total := Z.of_nat (length buf) in
      if BUF_SIZE <=? total then ret (Some buf)
      else r <- event env (Sys SYS_READ 0 0 (BUF_SIZE - total));;
           let n := r_val r in
           if (n =? 0) || (n =? u64_max) then ret (Some buf) else read_all fuel' (buf ++ stored n r)
  end.

Definition print_line (t : Text) (idx : nat) : M unit := sys_write (line_text t idx);;; sys_write Shell.CRLF.
Fixpoint print_lines (t : Text) (idx n : nat) : M unit :=
  match n with O => ret tt | S n' => print_line t idx;;; print_lines t (S idx) n' end.

Definition percent (end_ total rows : Z) : Z := if total <=? rows then 100 else end_ * 100 / total.
Definition status (end_ total rows : Z) : M unit :=
  sys_write [27; 91; 55; 109];;;
  (if total <=? end_ then sys_write (Shell.bytes " (END)") else ret tt);;;
  sys_write (Shell.bytes "  lines ");;; write_u64 end_;;; sys_write (Shell.bytes "/");;; write_u64 total;;;
  sys_write (Shell.bytes "  ");;; write_u64 (percent end_ total rows);;;
  sys_write (Shell.bytes "%  q:quit  space/b:page  j/k:line " ++ [27; 91; 48; 109]).

Definition redraw (t : Text) (top rows : Z) : M unit :=
  sys_write Ktop.CLEAR;;;
  let end_ := Z.min (top + rows) (total_lines t) in
  print_lines t (Z.to_nat top) (Z.to_nat (end_ - top));;;
  status end_ (total_lines t) rows.

(** One byte of the terminal, polled every 30 ms. *)
Fixpoint wait_key (turns : nat) : M (option Z) :=
  match turns with
  | O => ret None
  | S turns' =>
      r <- event env (Sys SYS_TRY_READ 3 0 1);;
      if r_val r =? 1 then ret (Some (default 0 (head (r_data r))))
      else do_ env (Sys SYS_SLEEP 30 0 0);;; wait_key turns'
  end.

Fixpoint browse (turns fuel : nat) (t : Text) (rows top : Z) : M bool :=
  match turns with
  | O => ret false
  | S turns' =>
      redraw t top rows;;;
      k <- wait_key fuel;;
      match k with
      | None => ret false
      | Some key =>
          match key_top (total_lines t) rows key top with
          | None => sys_write Ktop.CLEAR;;; sys_exit env 0;;; ret true
          | Some top' => browse turns' fuel t rows top'
          end
      end
  end.

(** [true] if the program has ended. *)
Definition user_main (turns fuel : nat) : M bool :=
  d <- read_all fuel [];;
  match d with
  | None => ret false
  | Some d =>
      let t := build_index d in
      if total_lines t =? 0 then sys_write (Shell.bytes "(empty)" ++ Shell.CRLF);;; sys_exit env 0;;; ret true
      else size <- call env (Sys SYS_CONSOLE_SIZE 0 0 0);; browse turns fuel t (rows_of size) 0
  end.
End Program.
(** * Lines *)

(** The reference: the lines of a text; a final line feed ends the last line. *)
Fixpoint lines_of (l : list Z) : list (list Z) :=
  match l with
  | [] => [[]]
  | c :: l' =>
      if c =? 10 then (if bool_decide (l' = []) then [[]] else [] :: lines_of l')
      else match lines_of l' with x :: xs => (c :: x) :: xs | [] => [[c]] end
  end.
Fixpoint join_lines (ls : list (list Z)) : list Z :=
  match ls with [] => [] | [x] => x | x :: ls' => x ++ 10 :: join_lines ls' end.
(** Without the carriage return. *)
Definition strip (l : list Z) : list Z := if bool_decide (last l = Some 13) then take (length l - 1) l else l.

Lemma lines_of_ne (l : list Z) : lines_of l <> [].
Proof. destruct l as [|c l]; [done|]. simpl. repeat case_match; done. Qed.

(** The lines are the text: joined they give it back, and none contains a line feed. *)
Lemma lines_join (l : list Z) :
  (l = join_lines (lines_of l) \/ l = join_lines (lines_of l) ++ [10]) /\ Forall (Forall (fun c => c <> 10)) (lines_of l).
Proof.
  induction l as [|c l [IH HF]]; [split; [by left|by repeat constructor]|]. cbn [lines_of]. destruct (Z.eqb_spec c 10) as [->|Hc].
  - destruct (bool_decide_reflect (l = [])) as [->|Hl]; [split; [by right|by repeat constructor]|].
    split; [|by constructor]. pose proof (lines_of_ne l) as Hn. destruct (lines_of l) as [|x xs]; [done|]. cbn [join_lines app] in *.
    destruct IH as [IH|IH]; [left|right]; by rewrite IH at 1.
  - pose proof (lines_of_ne l) as Hn. destruct (lines_of l) as [|x xs]; [done|]. apply Forall_cons_1 in HF as [Hx Hxs].
    split; [|by repeat constructor]. destruct IH as [IH|IH]; [left|right]; rewrite IH at 1; by destruct xs.
Qed.

Definition first_line (l : list Z) : list Z := take (default (length l) (position (fun b => b =? 10) l)) l.
Lemma first_line_cons (c : Z) (l : list Z) : first_line (c :: l) = if c =? 10 then [] else c :: first_line l.
Proof. unfold first_line. cbn [position]. destruct (c =? 10); [done|]. by destruct (position _ l). Qed.

(** Where the later lines begin, without a limit. *)
Fixpoint line_starts (rest : list Z) (i : nat) : list nat :=
  match rest with
  | [] => []
  | c :: rest' => (if (c =? 10) && negb (bool_decide (rest' = [])) then [S i] else []) ++ line_starts rest' (S i)
  end.
Lemma line_starts_above (rest : list Z) (i : nat) : Forall (fun s => (i < s)%nat) (line_starts rest i).
Proof.
  revert i. induction rest as [|c rest IH]; intros i; [constructor|]. cbn [line_starts]. apply Forall_app. split.
  - destruct (_ && _); repeat constructor.
  - eapply Forall_impl; [apply IH|]. simpl. lia.
Qed.

Lemma index_take (rest : list Z) (i : nat) (st : list nat) :
  (length st <= MAX_LINES)%nat -> index_loop rest i st = take MAX_LINES (st ++ line_starts rest i).
Proof.
  revert i st. induction rest as [|c rest IH]; intros i st Hl; cbn [index_loop line_starts]; [by rewrite app_nil_r, take_ge|].
  destruct (length st <? MAX_LINES)%nat eqn:E; [apply Nat.ltb_lt in E|apply Nat.ltb_ge in E; by rewrite take_app_le, take_ge by lia].
  destruct (_ && _); [|by rewrite IH]. rewrite IH by (rewrite length_app; simpl; lia). by rewrite <-app_assoc.
Qed.

Lemma lines_at_starts (l : list Z) (i : nat) : lines_of l = first_line l :: ((fun s => first_line (drop (s - i) l)) <$> line_starts l i).
Proof.
  revert i. induction l as [|c l IH]; intros i; [done|]. rewrite first_line_cons. cbn [lines_of line_starts].
  assert ((fun s => first_line (drop (s - i) (c :: l))) <$> line_starts l (S i) = (fun s => first_line (drop (s - S i) l)) <$> line_starts l (S i)) as E.
  { apply list_fmap_ext. intros j s Hs. pose proof (line_starts_above l (S i)) as Ha. rewrite Forall_lookup in Ha. specialize (Ha j s Hs).
    replace (s - i)%nat with (S (s - S i)) by lia. done. }
  destruct (c =? 10); cbn [andb].
  - destruct (bool_decide_reflect (l = [])) as [->|Hl]; [done|]. cbn [negb app]. rewrite fmap_cons, E, (IH (S i)).
    replace (S i - i)%nat with 1%nat by lia. done.
  - cbn [app]. by rewrite E, (IH (S i)).
Qed.

Lemma index_length (d : list Z) : length (starts (build_index d)) = Nat.min MAX_LINES (length (lines_of d)).
Proof.
  cbn [starts build_index]. rewrite index_take by (unfold MAX_LINES; simpl; lia). rewrite length_take, (lines_at_starts d 0). simpl. by rewrite length_fmap.
Qed.

(** A line is shown as it is in the text. *)
Lemma line_text_spec (d : list Z) (idx : nat) (x : list Z) :
  (idx < MAX_LINES)%nat -> lines_of d !! idx = Some x -> line_text (build_index d) idx = strip x.
Proof.
  intros Hi Hx. unfold line_text. cbn [starts data build_index]. rewrite index_take by (unfold MAX_LINES; simpl; lia).
  rewrite lookup_take_lt by done. rewrite (lines_at_starts d 0) in Hx. fold (first_line (drop (default 0%nat (([0%nat] ++ line_starts d 0) !! idx)) d)).
  enough (first_line (drop (default 0%nat (([0%nat] ++ line_starts d 0) !! idx)) d) = x) as -> by done.
  destruct idx as [|idx]; simpl in *; [by injection Hx|]. rewrite list_lookup_fmap in Hx.
  destruct (line_starts d 0 !! idx) as [s|]; [|done]. simpl in *. rewrite Nat.sub_0_r in Hx. by injection Hx.
Qed.

(** * Pages *)

Section Output.
Variable env : Log -> Ev -> Reply.

(** [m] writes exactly [b]. *)
Definition writes {A : Type} (m : M A) (b : list Z) : Prop := forall log, Ktop.written (snd (m log)) = Ktop.written log ++ b.

Lemma writes_ret {A : Type} (a : A) : writes (ret a) [].
Proof. intros log. by rewrite app_nil_r. Qed.
Lemma writes_bind {A B : Type} (m : M A) (k : A -> M B) (b c : list Z) : writes m b -> (forall a, writes (k a) c) -> writes (bind m k) (b ++ c).
Proof. intros Hm Hk log. unfold bind. specialize (Hm log). destruct (m log) as [a log1]. simpl in Hm. by rewrite (Hk a log1), Hm, app_assoc. Qed.
Lemma writes_write (b : list Z) : writes (sys_write env b) b.
Proof. intros log. unfold sys_write, do_, bind, event. cbn [snd]. unfold ret. cbn [snd]. rewrite Ktop.written_app, Ktop.written_one. done. Qed.

Lemma writes_lines (d : list Z) (n idx : nat) :
  (length (lines_of d) <= MAX_LINES)%nat -> (idx + n <= length (lines_of d))%nat ->
  writes (print_lines env (build_index d) idx n) (take n (drop idx (lines_of d)) ≫= (fun l => strip l ++ Shell.CRLF)).
Proof.
  intros Hm. revert idx. induction n as [|n IH]; intros idx Hn; cbn [print_lines]; [apply writes_ret|].
  destruct (lines_of d !! idx) as [x|] eqn:Hx; [|apply lookup_ge_None in Hx; lia].
  rewrite (drop_S _ x) by done. rewrite firstn_cons, bind_cons. apply writes_bind; [|intros _; apply IH; lia].
  unfold print_line. rewrite (line_text_spec d idx x) by (done || lia). apply writes_bind; [apply writes_write|intros _; apply writes_write].
Qed.

(** The status line. *)
Definition status_text (end_ total rows : Z) : list Z :=
  [27; 91; 55; 109] ++ (if total <=? end_ then Shell.bytes " (END)" else []) ++ Shell.bytes "  lines " ++ Shell.u64_text end_ ++
  Shell.bytes "/" ++ Shell.u64_text total ++ Shell.bytes "  " ++ Shell.u64_text (percent end_ total rows) ++
  Shell.bytes "%  q:quit  space/b:page  j/k:line " ++ [27; 91; 48; 109].
Lemma writes_status (end_ total rows : Z) : writes (status env end_ total rows) (status_text end_ total rows).
Proof.
  unfold status, status_text, write_u64. apply writes_bind; [apply writes_write|intros _].
  apply writes_bind; [destruct (total <=? end_); [apply writes_write|apply writes_ret]|intros _].
  do 6 (apply writes_bind; [apply writes_write|intros _]). apply writes_write.
Qed.
End Output.

(** The keys pressed so far. *)
Fixpoint follow (total rows : Z) (keys : list Z) (top : Z) : option Z :=
  match keys with [] => Some top | k :: keys' => top' ← key_top total rows k top; follow total rows keys' top' end.

Lemma key_top_bounds (total rows key top top' : Z) :
  0 <= rows -> 0 <= top <= max_top total rows -> key_top total rows key top = Some top' -> 0 <= top' <= max_top total rows.
Proof. intros Hr Ht. unfold key_top, max_top, saturating_sub in *. repeat case_match; intros; simplify_eq; lia. Qed.
Lemma follow_bounds (total rows : Z) (keys : list Z) (top top' : Z) :
  0 <= rows -> 0 <= top <= max_top total rows -> follow total rows keys top = Some top' -> 0 <= top' <= max_top total rows.
Proof.
  intros Hr. revert top. induction keys as [|k keys IH]; intros top Ht; cbn [follow]; [by intros [= <-]|].
  destruct (key_top total rows k top) as [t1|] eqn:E; [|done]. cbn. apply IH. by eapply key_top_bounds.
Qed.

(** What the pager shows is the text.  For a text of up to 4096 lines and after any keys:
    the page on the screen is exactly the lines of the text from the first shown, each
    without its carriage return, as many as fit and fewer only if the whole text is
    shorter, followed by the status line. *)
Theorem pager_shows_lines (env : Log -> Ev -> Reply) (d keys : list Z) (rows top : Z) (log : Log) :
  1 <= rows -> (length (lines_of d) <= MAX_LINES)%nat ->
  let total := total_lines (build_index d) in
  let page := take (Z.to_nat rows) (drop (Z.to_nat top) (lines_of d)) in
  follow total rows keys 0 = Some top ->
  total = Z.of_nat (length (lines_of d)) /\ Z.of_nat (length page) = Z.min rows total /\
  Ktop.written (snd (redraw env (build_index d) top rows log)) =
    Ktop.written log ++ Ktop.CLEAR ++ (page ≫= (fun l => strip l ++ Shell.CRLF)) ++ status_text (Z.min (top + rows) total) total rows.
Proof.
  intros Hr Hm total page Hf.
  assert (total = Z.of_nat (length (lines_of d))) as Ht by (unfold total, total_lines; rewrite index_length; lia).
  assert (0 <= top <= max_top total rows) as Hb by (eapply follow_bounds; [..|exact Hf]; unfold max_top, saturating_sub; lia).
  unfold max_top, saturating_sub in Hb. split; [done|].
  assert (Z.of_nat (length page) = Z.min rows total) as Hp by (unfold page; rewrite length_take, length_drop; lia).
  split; [done|]. revert log. change (writes (redraw env (build_index d) top rows)
    (Ktop.CLEAR ++ (page ≫= (fun l => strip l ++ Shell.CRLF)) ++ status_text (Z.min (top + rows) total) total rows)).
  unfold redraw. fold total. apply writes_bind; [apply writes_write|intros _]. apply writes_bind; [|intros _; apply writes_status].
  assert (page = take (Z.to_nat (Z.min (top + rows) total - top)) (drop (Z.to_nat top) (lines_of d))) as ->.
  { unfold page. destruct (decide (top + rows <= total)); [f_equal; lia|]. rewrite !take_ge; [done|rewrite length_drop; lia..]. }
  apply writes_lines; [done|]. lia.
Qed.

Lemma follow_down (total rows : Z) (n : nat) (top : Z) :
  0 <= top <= max_top total rows -> follow total rows (replicate n 106) top = Some (Z.min (top + Z.of_nat n) (max_top total rows)).
Proof.
  revert top. induction n as [|n IH]; intros top Ht; [cbn; f_equal; lia|]. cbn [replicate follow]. 
  change (key_top total rows 106 top) with (Some (Z.min (top + 1) (max_top total rows))). cbn [mbind option_bind]. rewrite IH by lia. f_equal. lia.
Qed.

(** Every indexed line can be brought to the screen. *)
Theorem every_line_reachable (d : list Z) (rows : Z) (idx : nat) :
  1 <= rows -> (idx < length (starts (build_index d)))%nat ->
  exists keys top, follow (total_lines (build_index d)) rows keys 0 = Some top /\ top <= Z.of_nat idx < top + rows.
Proof.
  intros Hr Hi. exists (replicate idx 106), (Z.min (Z.of_nat idx) (max_top (total_lines (build_index d)) rows)).
  rewrite follow_down by (unfold max_top, saturating_sub; lia). split; [f_equal; lia|]. unfold max_top, saturating_sub, total_lines. lia.
Qed.

(** Lines after the 4096th are never shown: the pager ends at line 4096 of a longer text. *)
Theorem pager_hides_lines (d : list Z) :
  (MAX_LINES < length (lines_of d))%nat -> total_lines (build_index d) = 4096 /\ is_Some (lines_of d !! 4096%nat).
Proof.
  intros Hm. split; [unfold total_lines; rewrite index_length, Nat.min_l by lia; reflexivity|]. by apply lookup_lt_is_Some.
Qed.

(** The message for an empty input is never written: it has one line. *)
Theorem empty_never_reported (d : list Z) : total_lines (build_index d) <> 0.
Proof.
  unfold total_lines. rewrite index_length. pose proof (lines_of_ne d). destruct (lines_of d); [done|]. unfold MAX_LINES. simpl length. lia.
Qed.

(** Reading ends, with at most the first 64 KiB of the input: every read that does not
    end it fills the buffer by at least one byte. *)
Theorem input_read (env : Log -> Ev -> Reply) (fuel : nat) (buf : list Z) (log : Log) :
  (forall log e, 0 <= r_val (env log e)) -> (forall log n, 1 <= n -> r_val (env log (Sys SYS_READ 0 0 n)) <= n \/ r_val (env log (Sys SYS_READ 0 0 n)) = u64_max) ->
  Z.of_nat (length buf) <= BUF_SIZE -> BUF_SIZE - Z.of_nat (length buf) < Z.of_nat fuel ->
  exists l, fst (read_all env fuel buf log) = Some (buf ++ l) /\ Z.of_nat (length (buf ++ l)) <= BUF_SIZE.
Proof.
  intros Hpos Hle. revert buf log. induction fuel as [|fuel IH]; intros buf log Hb Hf; [lia|]. cbn [read_all].
  destruct (BUF_SIZE <=? Z.of_nat (length buf)) eqn:E; zbool; [exists []; by rewrite app_nil_r|].
  unfold bind, event. set (r := env log _). specialize (Hpos log (Sys SYS_READ 0 0 (BUF_SIZE - Z.of_nat (length buf)))).
  specialize (Hle log (BUF_SIZE - Z.of_nat (length buf)) ltac:(lia)). fold r in Hpos, Hle.
  destruct (_ || _) eqn:En; [exists []; by rewrite app_nil_r|]. apply orb_false_iff in En as [E0 E1]. zbool.
  assert (length (stored (r_val r) r) = Z.to_nat (r_val r)) as Hs by (unfold stored; rewrite length_take, length_app, length_replicate; lia).
  destruct (IH (buf ++ stored (r_val r) r) (log ++ [(Sys SYS_READ 0 0 (BUF_SIZE - Z.of_nat (length buf)), r)])) as (l & El & Hl);
    [rewrite length_app, Hs; lia..|].
  exists (stored (r_val r) r ++ l). rewrite app_assoc. done.
Qed.

Module Example.
(** Two lines, "a" and "b", on a screen with one line for text. *)
Definition two : list Z := [97; 13; 10; 98; 10].
Definition pipe (log : Log) (e : Ev) : Reply :=
  match e, log with Sys _ _ _ n, [] => mkReply (Z.max 0 (Z.min n 5)) two | _, _ => mkReply 0 [] end.

Lemma pager_shows_lines_witness :
  Ktop.written (snd (redraw pipe (build_index two) 1 1 [])) = Ktop.CLEAR ++ [98; 13; 10] ++ status_text 2 2 1.
Proof.
  apply (proj2 (proj2 (pager_shows_lines pipe two [106] 1 1 [] ltac:(lia) ltac:(apply Nat.leb_le; reflexivity) eq_refl))).
Defined.

Lemma every_line_reachable_witness : exists keys top, follow 2 1 keys 0 = Some top /\ top <= 1 < top + 1.
Proof. apply (every_line_reachable two 1 1); [lia|]. apply Nat.ltb_lt. reflexivity. Defined.

Lemma pager_hides_lines_witness : total_lines (build_index (replicate 4097 10 ++ [97])) = 4096.
Proof. apply (pager_hides_lines (replicate 4097 10 ++ [97])). apply Nat.ltb_lt. by vm_compute. Defined.

Lemma input_read_witness : exists l, fst (read_all pipe (Z.to_nat 65537) [] []) = Some l /\ Z.of_nat (length l) <= BUF_SIZE.
Proof.
  apply (input_read pipe (Z.to_nat 65537) [] []).
  - intros log e. unfold pipe. repeat case_match; simpl; lia.
  - intros log n Hn. left. unfold pipe. destruct log; simpl; lia.
  - simpl. unfold BUF_SIZE. lia.
  - simpl. unfold BUF_SIZE. lia.
Defined.
End Example.

End Less.
