(* ===== verification/Boot.v ===== *)
(** From the firmware to the first process: the bootloader
    ([crates/bootloader/src/main.rs]: the menu, the kernel image, the memory map it hands
    over) and the set-up of the kernel ([init.rs]: memory, the choice of platform, the
    interrupt lines).

    Physical memory is a map from addresses to bytes.  The ELF reader and the firmware
    are not part of the program: the loadable segments, the firmware's map and the
    address the heap allocator returns for the bitmap are arguments. *)
From stdpp Require Import base list numbers option gmap strings.
From S2P Require Import Prelude Pmm Uaccess Acpi Ioapic Irq Power Shell.

Open Scope Z_scope.

Module Boot.

(** ** The bootloader *)

Record Segment := mkSegment { physical_addr : Z; file_size : Z; mem_size : Z; offset : Z }.
Record FramebufferInfo := mkFramebuffer { fb_base : Z; fb_size : Z; fb_width : Z; fb_height : Z; fb_stride : Z; pixel_format : Z }.
Record BootInfo := mkBootInfo {
  framebuffer : FramebufferInfo; font_data : Z; font_size : Z; heap_start : Z; heap_size : Z;
  memory_map : list Pmm.MemoryMapEntry; kernel_start : Z; kernel_end : Z; rsdp : Z; command_line : list Z;
  initrd_data : Z; initrd_size : Z }.

(** One [PT_LOAD] segment: zeroes, then the bytes of the file. *)
Definition load_segment (file : list Z) (s : Segment) (m : gmap Z Z) : gmap Z Z :=
  let m := Uaccess.store m (physical_addr s) (replicate (Z.to_nat (mem_size s)) 0) in
  Uaccess.store m (physical_addr s) (take (Z.to_nat (file_size s)) (drop (Z.to_nat (offset s)) file)).
Fixpoint load_segments (file : list Z) (ss : list Segment) (start end_ : Z) (m : gmap Z Z) : Z * Z * gmap Z Z :=
  match ss with
  | [] => (start, end_, m)
  | s :: l =>
      load_segments file l (Z.min start (physical_addr s)) (Z.max end_ (wrap64 (physical_addr s + mem_size s))) (load_segment file s m)
  end.
Definition load_kernel (file : list Z) (ss : list Segment) (m : gmap Z Z) : Z * Z * gmap Z Z := load_segments file ss u64_max 0 m.

Definition MAX_ENTRIES : nat := 256.
(** The copy of the firmware's map. *)
Fixpoint copy_map (entries : list Pmm.MemoryMapEntry) (buffer : list Pmm.MemoryMapEntry) : list Pmm.MemoryMapEntry :=
  match entries with
  | [] => buffer
  | e :: l => copy_map l (if (length buffer <? MAX_ENTRIES)%nat then buffer ++ [e] else buffer)
  end.

(** The address of the ACPI root: the first table of either version. *)
Inductive Guid := ACPI2_GUID | ACPI_GUID | OtherGuid.
Fixpoint find_rsdp (entries : list (Guid * Z)) : Z :=
  match entries with [] => 0 | (OtherGuid, _) :: l => find_rsdp l | (_, a) :: _ => a end.

Definition HEAP_SIZE : Z := 256 * 1024 * 1024.

(** [None] in [initrd] is a missing file. *)
Definition boot_info (fb : FramebufferInfo) (font : Z * Z) (heap : Z) (firmware_map : list Pmm.MemoryMapEntry)
    (kernel : Z * Z) (tables : list (Guid * Z)) (cmdline : list Z) (initrd : option (Z * Z)) : BootInfo :=
  mkBootInfo fb (fst font) (snd font) heap HEAP_SIZE (copy_map firmware_map []) (fst kernel) (snd kernel) (find_rsdp tables) cmdline
    (default 0 (fst <$> initrd)) (default 0 (snd <$> initrd)).

(** *** The menu *)

Inductive Key := KUp | KDown | KEnter | KNull | KOther.
Definition ENTRIES : list (list Z) := [[]; Shell.bytes "verbose"; Shell.bytes "verbose heartbeat"].
(** The entry chosen by a sequence of keys; [None] while none is chosen. *)
Fixpoint boot_menu (selected : nat) (keys : list Key) : option (list Z) :=
  match keys with
  | [] => None
  | KUp :: l => boot_menu (selected - 1) l
  | KDown :: l => boot_menu (if (S selected <? length ENTRIES)%nat then S selected else selected) l
  | KEnter :: _ | KNull :: _ => ENTRIES !! selected
  | KOther :: l => boot_menu selected l
  end.

(** [str::contains]. *)
Fixpoint contains (needle hay : list Z) : bool :=
  bool_decide (take (length needle) hay = needle) || match hay with [] => false | _ :: l => contains needle l end.
Definition VERBOSE (b : BootInfo) : bool := contains (Shell.bytes "verbose") (command_line b).
Definition HEARTBEAT_LOG (b : BootInfo) : bool := contains (Shell.bytes "heartbeat") (command_line b).

(** ** The platform *)

Inductive Hypervisor := HvNone | Qemu | VirtualBox | Vmware | HyperV | Unknown.
Record Platform := mkPlatform { hypervisor : Hypervisor; keyboard_polling : bool; use_ioapic : bool; use_lapic_timer : bool }.

(** [cpuid leaf] answers EBX, ECX and EDX. *)
Definition detect_hypervisor (cpuid : Z -> Z * Z * Z) : Hypervisor :=
  let '(_, ecx1, _) := cpuid 1 in
  if Z.land ecx1 (2 ^ 31) =? 0 then HvNone
  else
    let '(ebx, ecx, edx) := cpuid 0x40000000 in
    let bytes := to_le 4 ebx ++ to_le 4 ecx ++ to_le 4 edx in
    if bool_decide (bytes = Shell.bytes "KVMKVMKVM" ++ [0; 0; 0]) || bool_decide (bytes = Shell.bytes "TCGTCGTCGTCG") then Qemu
    else if bool_decide (bytes = Shell.bytes "VBoxVBoxVBox") then VirtualBox
    else if bool_decide (bytes = Shell.bytes "VMwareVMware") then Vmware
    else if bool_decide (bytes = Shell.bytes "Microsoft Hv") then HyperV
    else Unknown.
Definition detect (cpuid : Z -> Z * Z * Z) : Platform :=
  let h := detect_hypervisor cpuid in
  match h with Qemu | VirtualBox => mkPlatform h true true true | _ => mkPlatform h true false true end.

(** ** Memory *)

Definition is_usable (e : Pmm.MemoryMapEntry) : bool := Pmm.ty e =? 7.
Definition max_phys (map : list Pmm.MemoryMapEntry) : Z :=
  foldr (fun e m => if is_usable e then Z.max (wrap64 (Pmm.phys_start e + wrap64 (Pmm.page_count e * 4096))) m else m) 0 map.
Definition bitmap_bytes (map : list Pmm.MemoryMapEntry) : Z := div_ceil (div_ceil (max_phys map / 4096) 8) 4096 * 4096.

(** [alloc] is the heap's answer to the request for the bitmap, 0 for a null pointer. *)
Definition init_memory (alloc : Z -> Z) (b : BootInfo) : option Pmm.Pmm :=
  let size := bitmap_bytes (memory_map b) in
  let bitmap := if 0 <? size then alloc size else 0 in
  let s := Some (Pmm.init bitmap size (memory_map b)) in
  let s := Pmm.mark_used 0 (kernel_end b) s in
  let s := Pmm.mark_used (kernel_start b) (wrap64 (kernel_end b - kernel_start b)) s in
  let s := Pmm.mark_used (heap_start b) (heap_size b) s in
  let s := Pmm.mark_used (fb_base (framebuffer b)) (fb_size (framebuffer b)) s in
  Pmm.mark_used (font_data b) (font_size b) s.

(** ** Interrupt lines *)

Record InterruptConfig := mkConfig { ioapic : option Acpi.IoApicInfo; irq_override : option Acpi.IrqOverride; bsp_apic_id : Z }.

Definition init_acpi (m : gmap Z Z) (rsdp : Z) : InterruptConfig :=
  let none := mkConfig None None 0 in
  if rsdp =? 0 then none
  else match Acpi.parse_rsdp m rsdp with
  | Some (sdt, is_xsdt) =>
      match Acpi.find_madt m sdt is_xsdt with
      | Some madt => let i := snd (Acpi.parse_madt m madt) in mkConfig (Acpi.ioapic i) (Acpi.irq_override i) (Acpi.bsp_apic_id i)
      | None => none
      end
  | None => none
  end.

(** The masks of the two PICs, the I/O APIC with the driver lines, and the flags of the
    handlers; [timer] is the vector and the count of the local timer. *)
Record Irqs := mkIrqs { pic1 : Z; pic2 : Z; lines : Ioapic.Lines; USE_IOAPIC : bool; KEYBOARD_POLLING : bool; timer : option (Z * Z) }.
Definition set_lines (l : Ioapic.Lines) (s : Irqs) : Irqs := mkIrqs (pic1 s) (pic2 s) l (USE_IOAPIC s) (KEYBOARD_POLLING s) (timer s).
Definition set_use_ioapic (b : bool) (s : Irqs) : Irqs := mkIrqs (pic1 s) (pic2 s) (lines s) b (KEYBOARD_POLLING s) (timer s).
Definition set_timer (v n : Z) (s : Irqs) : Irqs := mkIrqs (pic1 s) (pic2 s) (lines s) (USE_IOAPIC s) (KEYBOARD_POLLING s) (Some (v, n)).
Definition on_chip (f : Ioapic.IoApic -> Ioapic.IoApic) (s : Irqs) : Irqs := set_lines (Ioapic.set_chip (f (Ioapic.chip (lines s))) (lines s)) s.

(** [pic::init] and [pic::mask_all] leave every line masked. *)
Definition pic_mask_all (s : Irqs) : Irqs := mkIrqs 255 255 (lines s) (USE_IOAPIC s) (KEYBOARD_POLLING s) (timer s).
Definition pic_unmask_irq (irq : Z) (s : Irqs) : Irqs :=
  if irq <? 8 then mkIrqs (Z.land (pic1 s) (Z.lnot (Z.shiftl 1 irq))) (pic2 s) (lines s) (USE_IOAPIC s) (KEYBOARD_POLLING s) (timer s)
  else mkIrqs (pic1 s) (Z.land (pic2 s) (Z.lnot (Z.shiftl 1 (irq - 8)))) (lines s) (USE_IOAPIC s) (KEYBOARD_POLLING s) (timer s).

Definition wired (o : option Z) : option Z := n ← o; if (n =? 0) || (n =? 255) then None else Some n.

(** The line and flags of the keyboard. *)
Definition keyboard_line (o : option Acpi.IrqOverride) : Z * Z :=
  match o with
  | Some x => if Acpi.bus_irq x =? 1 then (Acpi.global_irq x mod 256, Acpi.ov_flags x) else (1, 0)
  | None => (1, 0)
  end.

Definition init_ioapic (info : Acpi.IoApicInfo) (c : InterruptConfig) (p : Platform) (hda sci : option Z) (s : Irqs) : Irqs :=
  let id := bsp_apic_id c in
  let s := on_chip Ioapic.mask_all s in
  let s := set_lines (Ioapic.configure_driver_irqs (Acpi.io_addr info) id (lines s)) s in
  let '(irq, flags) := keyboard_line (irq_override c) in
  let s := on_chip (Ioapic.set_irq_ext irq 0x21 id flags) s in
  let s := on_chip (Ioapic.set_irq_ext 12 0x2c id 0) s in
  let s := match wired hda with
           | Some h => set_use_ioapic true (on_chip (Ioapic.unmask_irq h) (on_chip (Ioapic.set_irq_ext h 0x31 id 0) s))
           | None => s
           end in
  let s := if negb (keyboard_polling p)
           then set_use_ioapic true (on_chip (Ioapic.unmask_irq 12) (on_chip (Ioapic.unmask_irq irq) s))
           else on_chip (Ioapic.mask_irq 12) (on_chip (Ioapic.mask_irq irq) s) in
  match wired sci with
  | Some n =>
      let gsi := (n - Acpi.global_irq_base info mod 256) mod 256 in
      set_use_ioapic true (on_chip (Ioapic.unmask_irq gsi) (on_chip (Ioapic.set_irq_ext gsi 0x32 id 0) s))
  | None => s
  end.

(** [sci] is [power::sci_irq()]. *)
Definition init_interrupts (c : InterruptConfig) (p : Platform) (hda sci : option Z) (s : Irqs) : Irqs :=
  let s := pic_mask_all s in
  let s := mkIrqs (pic1 s) (pic2 s) (lines s) false (keyboard_polling p) (timer s) in
  let s := match use_ioapic p, ioapic c with
           | true, Some info => init_ioapic info c p hda sci s
           | _, _ => if negb (keyboard_polling p) then pic_unmask_irq 1 s else s
           end in
  let s := match wired hda with Some h => if negb (use_ioapic p) then pic_unmask_irq h s else s | None => s end in
  if use_lapic_timer p then set_timer 0x30 0x20000 s else s.

(** Cycles per millisecond from the time stamps around a 50 ms wait. *)
Definition calibrate_tsc (start end_ : Z) : Z := Z.max (saturating_sub end_ start / 50) 1.

(** * The kernel image *)

Definition seg_ok (file : list Z) (s : Segment) : Prop :=
  0 <= physical_addr s /\ 0 <= file_size s <= mem_size s /\ 0 <= offset s /\ offset s + file_size s <= Z.of_nat (length file) /\
  physical_addr s + mem_size s < u64_bound.
Definition in_seg (s : Segment) (a : Z) : Prop := physical_addr s <= a < physical_addr s + mem_size s.
Definition apart (s s' : Segment) : Prop := forall a, ~ (in_seg s a /\ in_seg s' a).
#[export] Instance in_seg_dec (s : Segment) (a : Z) : Decision (in_seg s a).
Proof. unfold in_seg. apply _. Defined.

(** What a segment looks like in memory. *)
Definition image (file : list Z) (s : Segment) : list Z :=
  take (Z.to_nat (file_size s)) (drop (Z.to_nat (offset s)) file) ++ replicate (Z.to_nat (mem_size s - file_size s)) 0.

Lemma image_length (file : list Z) (s : Segment) : seg_ok file s -> length (image file s) = Z.to_nat (mem_size s).
Proof. intros (H1 & H2 & H3 & H4 & _). unfold image. rewrite length_app, length_take, length_drop, length_replicate. lia. Qed.

Lemma load_segment_lookup (file : list Z) (s : Segment) (m : gmap Z Z) (a : Z) :
  seg_ok file s ->
  load_segment file s m !! a = if decide (in_seg s a) then image file s !! Z.to_nat (a - physical_addr s) else m !! a.
Proof.
  intros (H1 & H2 & H3 & H4 & _). unfold load_segment, in_seg, image. set (d := take _ _).
  assert (length d = Z.to_nat (file_size s)) as Hd by (unfold d; rewrite length_take, length_drop; lia).
  rewrite !Uaccess.store_lookup, length_replicate, Hd. destruct (decide (physical_addr s <= a < physical_addr s + mem_size s)) as [Ha|Ha].
  - destruct (decide _) as [Hf|Hf].
    + rewrite lookup_app_l by lia. done.
    + rewrite decide_True by lia. rewrite lookup_app_r by lia. rewrite !lookup_replicate_2 by lia. done.
  - rewrite !decide_False by lia. done.
Qed.

Lemma load_segments_spec (file : list Z) (ss : list Segment) (start end_ : Z) (m : gmap Z Z) :
  Forall (seg_ok file) ss ->
  let '(start', end', m') := load_segments file ss start end_ m in
  start' <= start /\ end_ <= end' /\ Forall (fun s => start' <= physical_addr s /\ physical_addr s + mem_size s <= end') ss /\
  (forall a, Forall (fun s => ~ in_seg s a) ss -> m' !! a = m !! a) /\
  (ForallOrdPairs apart ss -> forall s a, s ∈ ss -> in_seg s a -> m' !! a = image file s !! Z.to_nat (a - physical_addr s)).
Proof.
  intros Hok. revert start end_ m. induction Hok as [|s ss Hs Hok IH]; intros start end_ m; cbn [load_segments].
  { split_and!; [lia|lia|by constructor|done|]. intros _ s a Hs. by apply elem_of_nil in Hs. }
  specialize (IH (Z.min start (physical_addr s)) (Z.max end_ (wrap64 (physical_addr s + mem_size s))) (load_segment file s m)).
  destruct (load_segments _ _ _ _ _) as [[start' end'] m']. destruct IH as (H1 & H2 & H3 & H4 & H5).
  pose proof Hs as (P1 & P2 & _ & _ & P5). rewrite wrap64_small in H2 by (unfold is_u64; lia).
  split_and!; [lia|lia|constructor; [lia|done]| |].
  - intros a [Ha Hr]%Forall_cons. rewrite H4 by done. rewrite load_segment_lookup, decide_False by done. done.
  - intros Hp s' a Hin Ha. inversion Hp as [|x l Hap Hps]; subst. apply elem_of_cons in Hin as [->|Hin]; [|by apply H5].
    rewrite H4; [by rewrite load_segment_lookup, decide_True|].
    eapply Forall_impl; [exact Hap|]. intros s'' Hs'' Hin''. by apply (Hs'' a).
Qed.

(** The kernel image is loaded as the file says: when the segments lie in the file and do
    not overlap in memory, every segment holds its bytes of the file followed by zeroes,
    no other memory changes, and the range the kernel is told covers all of it. *)
Theorem kernel_loaded (file : list Z) (ss : list Segment) (m : gmap Z Z) :
  Forall (seg_ok file) ss -> ForallOrdPairs apart ss ->
  let '(start, end_, m') := load_kernel file ss m in
  (forall s, s ∈ ss -> Uaccess.byte_run m' (physical_addr s) (mem_size s) = image file s /\ start <= physical_addr s /\ physical_addr s + mem_size s <= end_) /\
  (forall a, Forall (fun s => ~ in_seg s a) ss -> m' !! a = m !! a).
Proof.
  intros Hok Hap. unfold load_kernel. pose proof (load_segments_spec file ss u64_max 0 m Hok) as H.
  destruct (load_segments _ _ _ _ _) as [[start end_] m']. destruct H as (_ & _ & Hr & Hother & Himg). split; [|done].
  intros s Hs. pose proof (proj1 (Forall_forall _ _) Hr s Hs) as Hrange. split; [|done].
  pose proof (proj1 (Forall_forall _ _) Hok s Hs) as Hsok. pose proof (image_length file s Hsok) as Hl.
  apply list_eq. intros i. unfold Uaccess.byte_run. rewrite list_lookup_fmap. destruct (decide (i < Z.to_nat (mem_size s))%nat) as [Hi|Hi].
  - rewrite lookup_seqZ_lt by lia. simpl. rewrite (Himg Hap s _ Hs) by (unfold in_seg; lia).
    replace (Z.to_nat _) with i by lia. destruct (lookup_lt_is_Some_2 (image file s) i ltac:(lia)) as [x ->]. done.
  - rewrite lookup_seqZ_ge by lia. symmetry. apply lookup_ge_None. lia.
Qed.

(** * Memory after boot *)

(** The frames of a range of bytes. *)
Definition in_range (start size f : Z) : Prop := start / 4096 <= f < div_ceil (start + size) 4096.
Definition range_ok (start size : Z) : Prop := 0 <= start /\ 0 <= size /\ start + size < u64_bound.

(** A manager in which every frame that is free is in [F]. *)
Definition free_within (F : Z -> Prop) (s : option Pmm.Pmm) : Prop :=
  exists p, s = Some p /\ Pmm.wf p /\ forall f, Pmm.frame_ok p f -> Pmm.used p f = false -> F f.

Lemma mark_used_free (F : Z -> Prop) (start size : Z) (s : option Pmm.Pmm) :
  range_ok start size -> free_within F s -> free_within (fun f => F f /\ ~ in_range start size f) (Pmm.mark_used start size s).
Proof.
  intros (H1 & H2 & H3) (p & -> & Hwf & HF). unfold Pmm.mark_used. eexists. split; [done|]. pose proof Hwf as [Hl Hb Hn]. split.
  - split; simpl; [by rewrite Pmm.length_mark_region|by apply Pmm.mark_loop_bytes|done].
  - intros f Hf Hu. unfold Pmm.used in Hu. cbn [Pmm.bitmap Pmm.with_bitmap] in Hu. unfold Pmm.frame_ok in Hf. cbn [Pmm.total_frames Pmm.with_bitmap] in Hf.
    rewrite Pmm.mark_region_spec in Hu by done. unfold in_range. change Pmm.FRAME_SIZE with 4096 in Hu.
    destruct (_ && _) eqn:E; [done|]. split; [by apply HF|]. intros [G1 G2].
    apply andb_false_iff in E as [E|E]; zbool; lia.
Qed.

Lemma init_free (phys size : Z) (map : list Pmm.MemoryMapEntry) :
  0 <= phys -> 0 <= size -> size mod 4096 = 0 -> phys + size < u64_bound -> Forall Pmm.entry_ok map ->
  free_within (fun f => Pmm.conventional map f = true /\ ~ in_range phys size f) (Some (Pmm.init phys size map)).
Proof.
  intros Hp Hs Hm Hb Hmap. assert (div_ceil size 4096 * 4096 = size) as Hc.
  { replace size with (size / 4096 * 4096) at 1 by (pose proof (Z.div_mod size 4096 ltac:(lia)); lia).
    rewrite div_ceil_mul by (try apply Z.div_pos; lia). pose proof (Z.div_mod size 4096 ltac:(lia)). lia. }
  destruct (Pmm.init_spec phys size map Hp Hs) as (Hwf & Ht & Hu); [change Pmm.FRAME_SIZE with 4096; lia|done|].
  exists (Pmm.init phys size map). split; [done|]. split; [done|]. intros f Hf Hfree. rewrite Hu in Hfree by done.
  unfold Pmm.boot_used in Hfree. change Pmm.FRAME_SIZE with 4096 in Hfree. rewrite Hc in Hfree. apply orb_false_iff in Hfree as [H1 H2].
  apply negb_false_iff in H1. split; [done|]. intros [G1 G2]. apply andb_false_iff in H2 as [H2|H2]; zbool; lia.
Qed.

(** The addresses in the boot information are addresses, and the bitmap fits. *)
Record boot_ok (alloc : Z -> Z) (b : BootInfo) : Prop := {
  ok_map : Forall Pmm.entry_ok (memory_map b);
  ok_bitmap : range_ok (alloc (bitmap_bytes (memory_map b))) (bitmap_bytes (memory_map b));
  ok_kernel : 0 <= kernel_start b <= kernel_end b /\ kernel_end b < u64_bound;
  ok_heap : range_ok (heap_start b) (heap_size b);
  ok_fb : range_ok (fb_base (framebuffer b)) (fb_size (framebuffer b));
  ok_font : range_ok (font_data b) (font_size b) }.

(** Frames that may be given out. *)
Definition available (alloc : Z -> Z) (b : BootInfo) (f : Z) : Prop :=
  Pmm.conventional (memory_map b) f = true /\ ~ in_range 0 (kernel_end b) f /\ ~ in_range (heap_start b) (heap_size b) f /\
  ~ in_range (fb_base (framebuffer b)) (fb_size (framebuffer b)) f /\ ~ in_range (font_data b) (font_size b) f /\
  (0 < bitmap_bytes (memory_map b) -> ~ in_range (alloc (bitmap_bytes (memory_map b))) (bitmap_bytes (memory_map b)) f).

Lemma max_phys_nonneg (map : list Pmm.MemoryMapEntry) : 0 <= max_phys map.
Proof. induction map as [|e map IH]; simpl; [done|]. destruct (is_usable e); lia. Qed.
Lemma bitmap_bytes_ok (map : list Pmm.MemoryMapEntry) : 0 <= bitmap_bytes map /\ bitmap_bytes map mod 4096 = 0.
Proof.
  unfold bitmap_bytes. split; [|by apply Z.mod_mul]. pose proof (max_phys_nonneg map).
  pose proof (div_ceil_nonneg (max_phys map / 4096) 8 ltac:(apply Z.div_pos; lia) ltac:(lia)).
  pose proof (div_ceil_nonneg (div_ceil (max_phys map / 4096) 8) 4096 ltac:(lia) ltac:(lia)). lia.
Qed.

Lemma init_memory_free (alloc : Z -> Z) (b : BootInfo) : boot_ok alloc b -> free_within (available alloc b) (init_memory alloc b).
Proof.
  intros [Hmap Hbm Hk Hh Hf Hft]. destruct (bitmap_bytes_ok (memory_map b)) as [Hs Hm]. unfold init_memory.
  set (phys := if _ <? _ then _ else _).
  assert (range_ok phys (bitmap_bytes (memory_map b))) as (Hp0 & _ & Hp1).
  { unfold phys, range_ok. destruct (0 <? _) eqn:E; zbool; [exact Hbm|]. rewrite u64_bound_val. lia. }
  pose proof (init_free phys (bitmap_bytes (memory_map b)) (memory_map b) Hp0 Hs Hm Hp1 Hmap) as H0.
  apply (mark_used_free _ 0 (kernel_end b)) in H0; [|unfold range_ok; lia].
  apply (mark_used_free _ (kernel_start b) (wrap64 (kernel_end b - kernel_start b))) in H0;
    [|rewrite wrap64_small by (unfold is_u64; lia); unfold range_ok; lia].
  apply (mark_used_free _ _ _ _ Hh) in H0. apply (mark_used_free _ _ _ _ Hf) in H0. apply (mark_used_free _ _ _ _ Hft) in H0.
  destruct H0 as (p & E & Hwf & HF). exists p. split; [exact E|]. split; [exact Hwf|]. intros f Hok Hu.
  destruct (HF f Hok Hu) as [[[[[[Hc Hb] Hker] _] Hheap] Hfb] Hfont].
  unfold available. split_and!; try done. intros Hpos. unfold phys in Hb. rewrite (proj2 (Z.ltb_lt _ _) Hpos) in Hb. exact Hb.
Qed.

(** Clients free only frames they hold. *)
Fixpoint frees_own (es : list Pmm.event) (held : list Z) : bool :=
  match es with
  | [] => true
  | Pmm.EFree a :: l => bool_decide (a / 4096 ∈ held) && frees_own l (retain (fun f => negb (f =? a / 4096)) held)
  | e :: l => frees_own l (Pmm.outstanding [e] held)
  end.

Lemma reserved_stays (n : Z) (es : list Pmm.event) (U U' : gset Z) (R : Z -> Prop) (held : list Z) :
  trace (Pmm.astep n) U es U' -> frees_own es held = true ->
  (forall f, R f -> f ∈ U) -> (forall f, f ∈ held -> ~ R f) -> (forall f, f ∈ held -> 0 <= f < n) ->
  forall f, f ∈ Pmm.outstanding es held -> ~ R f /\ 0 <= f < n.
Proof.
  intros Htr. revert held. induction Htr as [U|U e U1 es U2 Hstep Htr IH]; intros held Hown HU HR Hb f Hf; [by split; [apply HR|apply Hb]|].
  destruct Hstep as [U g Hg Hn|U Hall|U s c Hs Hc Hn Hfree|U c Hall|U a]; cbn [frees_own Pmm.outstanding] in *.
  - rewrite Z.div_mul in * by done. revert Hf. apply IH; [exact Hown|set_solver| |].
    + intros x [->|Hx]%elem_of_cons; [|by apply HR]. intros Hx. by apply Hg, HU.
    + intros x [->|Hx]%elem_of_cons; [done|by apply Hb].
  - revert Hf. by apply IH.
  - rewrite Z.div_mul in * by done. revert Hf. apply IH; [exact Hown|set_solver| |].
    + intros x [Hx|Hx]%elem_of_app; [|by apply HR]. apply elem_of_seqZ in Hx. intros HRx. by apply (Hfree x), HU.
    + intros x [Hx|Hx]%elem_of_app; [|by apply Hb]. apply elem_of_seqZ in Hx. lia.
  - revert Hf. by apply IH.
  - apply andb_prop in Hown as [Ha Hown]. apply bool_decide_eq_true in Ha. revert Hf. apply IH; [done| | |].
    + intros x Hx. apply elem_of_difference. split; [by apply HU|]. intros ->%elem_of_singleton. by apply (HR (a / 4096)).
    + intros x [_ Hx]%elem_of_retain. by apply HR.
    + intros x [_ Hx]%elem_of_retain. by apply Hb.
Qed.

(** C16: What boot set aside is never given out.  From the memory map and the ranges in the
    boot information, [init_memory] leaves a manager that, for as long as its clients
    free only frames they hold, hands out only frames of conventional memory, none of
    the first megabytes up to the end of the kernel image, of the kernel heap, of the
    framebuffer, of the font or of the frame bitmap. *)
Theorem boot_memory_safe (alloc : Z -> Z) (b : BootInfo) (es : list Pmm.event) (p p' : Pmm.Pmm) :
  boot_ok alloc b -> init_memory alloc b = Some p -> trace Pmm.cstep p es p' -> frees_own es [] = true ->
  forall f, f ∈ Pmm.outstanding es [] -> available alloc b f.
Proof.
  intros Hok Hp Htr Hown f Hf. destruct (init_memory_free alloc b Hok) as (p0 & E & Hwf & HF). rewrite Hp in E. injection E as <-.
  destruct (Pmm.cstep_trace p p' es Hwf Htr) as [Ha _].
  assert (forall P : Z -> Prop, forall f, f ∈ [] -> P f) as Hnil by (intros P x Hx; by apply elem_of_nil in Hx).
  destruct (reserved_stays _ es _ _ (fun f => f ∈ Pmm.abs p) [] Ha Hown (fun _ H => H) (Hnil _) (Hnil _) f Hf) as [Hn Hb].
  apply HF; [done|]. destruct (Pmm.used p f) eqn:Eu; [|done]. exfalso. by apply Hn, Pmm.elem_of_abs.
Qed.

(** * The interrupt lines after boot *)

Lemma copy_map_take (entries buffer : list Pmm.MemoryMapEntry) : (length buffer <= MAX_ENTRIES)%nat -> copy_map entries buffer = take MAX_ENTRIES (buffer ++ entries).
Proof.
  revert buffer. induction entries as [|e l IH]; intros buffer Hb; cbn [copy_map]; [by rewrite app_nil_r, take_ge|].
  destruct (length buffer <? MAX_ENTRIES)%nat eqn:E.
  - apply Nat.ltb_lt in E. rewrite IH by (rewrite length_app; simpl; lia). by rewrite <-app_assoc.
  - apply Nat.ltb_ge in E. rewrite IH by done. by rewrite !take_app_le, !take_ge by lia.
Qed.

Lemma masked_mask_irq (irq j : Z) (c : Ioapic.IoApic) :
  Ioapic.line irq -> Ioapic.line j -> Ioapic.masked j (Ioapic.mask_irq irq c) = bool_decide (j = irq) || Ioapic.masked j c.
Proof.
  intros Hi Hj. case_bool_decide as E; [subst; by apply Irq.masked_mask|]. unfold Ioapic.masked.
  destruct (Ioapic.mask_irq_spec irq c Hi) as (_ & _ & Ho). destruct (Ho j Hj E) as [-> _]. done.
Qed.
Lemma masked_unmask_irq (irq j : Z) (c : Ioapic.IoApic) :
  Ioapic.line irq -> Ioapic.line j -> Ioapic.masked j (Ioapic.unmask_irq irq c) = negb (bool_decide (j = irq)) && Ioapic.masked j c.
Proof.
  intros Hi Hj. case_bool_decide as E; [subst; by apply Irq.masked_unmask|]. unfold Ioapic.masked.
  destruct (Ioapic.unmask_irq_spec irq c Hi) as (_ & _ & Ho). destruct (Ho j Hj E) as [-> _]. done.
Qed.
Lemma masked_set_irq (irq j v id fl : Z) (c : Ioapic.IoApic) :
  Ioapic.line irq -> Ioapic.line j -> j <> irq -> Ioapic.masked j (Ioapic.set_irq_ext irq v id fl c) = Ioapic.masked j c.
Proof.
  intros Hi Hj E. unfold Ioapic.masked. destruct (Ioapic.set_irq_ext_spec irq v id fl c Hi) as (_ & _ & Ho). destruct (Ho j Hj E) as [-> _]. done.
Qed.

(** The line of the power button's interrupt. *)
Definition sci_line (info : Acpi.IoApicInfo) (sci : option Z) : option Z := (fun n => (n - Acpi.global_irq_base info mod 256) mod 256) <$> wired sci.
(** The lines that should be open: keyboard and mouse unless they are polled, and the
    power button. *)
Definition open_lines (info : Acpi.IoApicInfo) (c : InterruptConfig) (p : Platform) (sci : option Z) : list Z :=
  (if keyboard_polling p then [] else [fst (keyboard_line (irq_override c)); 12]) ++ option_list (sci_line info sci).

(** The chip after the keyboard and the mouse. *)
Definition input_chip (irq flags id : Z) (polling : bool) (c0 : Ioapic.IoApic) : Ioapic.IoApic :=
  let c1 := Ioapic.set_irq_ext 12 44 id 0 (Ioapic.set_irq_ext irq 33 id flags (Ioapic.mask_all c0)) in
  if negb polling then Ioapic.unmask_irq 12 (Ioapic.unmask_irq irq c1) else Ioapic.mask_irq 12 (Ioapic.mask_irq irq c1).

Lemma input_lines (irq flags id n j : Z) (polling : bool) (c0 : Ioapic.IoApic) :
  n = Z.land (Z.shiftr (Ioapic.reg 1 c0) 16) 255 -> n < 120 -> Ioapic.line irq -> 0 <= j <= n ->
  Ioapic.masked j (input_chip irq flags id polling c0) = negb (bool_decide (j ∈ (if polling then [] else [irq; 12]))).
Proof.
  intros -> Hn Hk Hj. assert (Ioapic.line 12) as H12 by (unfold Ioapic.line; lia). assert (Ioapic.line j) as Hline by (unfold Ioapic.line; lia).
  unfold input_chip. set (c1 := Ioapic.set_irq_ext 12 44 id 0 _).
  assert (j <> irq -> j <> 12 -> Ioapic.masked j c1 = true) as Hc1.
  { intros H1 H2. unfold c1. rewrite !masked_set_irq by auto. by apply Ioapic.mask_all_spec. }
  destruct polling; cbn [negb].
  - rewrite !masked_mask_irq by auto. rewrite (bool_decide_eq_false_2 (j ∈ [])) by apply not_elem_of_nil.
    destruct (decide (j = irq)) as [->|H1]; [by rewrite (bool_decide_eq_true_2 (irq = irq)), orb_true_r|].
    destruct (decide (j = 12)) as [->|H2]; [done|]. rewrite Hc1 by done. by rewrite !orb_true_r.
  - rewrite !masked_unmask_irq by auto. destruct (decide (j = irq)) as [->|H1].
    { rewrite (bool_decide_eq_true_2 (irq = irq)) by done. rewrite (bool_decide_eq_true_2 (irq ∈ _)) by set_solver. by rewrite andb_false_r. }
    destruct (decide (j = 12)) as [->|H2]; [by rewrite (bool_decide_eq_true_2 (12 ∈ _)) by set_solver|].
    rewrite Hc1 by done. rewrite (bool_decide_eq_false_2 (j = irq)), (bool_decide_eq_false_2 (j = 12)) by done.
    rewrite (bool_decide_eq_false_2 (j ∈ _)) by set_solver. done.
Qed.

(** Exactly the lines the kernel wants are open after boot.  On a machine with an I/O
    APIC, after [init_interrupts] a line of the chip is open exactly when it is the
    keyboard's or the mouse's and the keyboard is not polled, or the power button's; the
    handlers acknowledge interrupts at the local APIC exactly when there is such a line;
    and both PICs are masked. *)
Theorem lines_after_boot (info : Acpi.IoApicInfo) (c : InterruptConfig) (p : Platform) (sci : option Z) (s : Irqs) :
  use_ioapic p = true -> ioapic c = Some info ->
  let n := Z.land (Z.shiftr (Ioapic.reg 1 (Ioapic.chip (lines s))) 16) 255 in
  n < 120 -> Ioapic.line (fst (keyboard_line (irq_override c))) -> (forall g, sci_line info sci = Some g -> Ioapic.line g) ->
  let s' := init_interrupts c p None sci s in
  (forall j, 0 <= j <= n -> Ioapic.masked j (Ioapic.chip (lines s')) = negb (bool_decide (j ∈ open_lines info c p sci))) /\
  USE_IOAPIC s' = negb (bool_decide (open_lines info c p sci = [])) /\ pic1 s' = 255 /\ pic2 s' = 255.
Proof.
  intros Hp Hc n Hn Hk Hsci. unfold init_interrupts. rewrite Hp, Hc. cbn [wired mbind option_bind]. unfold init_ioapic, open_lines, sci_line in *.
  destruct (keyboard_line (irq_override c)) as [irq flags]. cbn [fst] in *. set (id := bsp_apic_id c).
  pose proof (fun j => input_lines irq flags id n j (keyboard_polling p) (Ioapic.chip (lines s)) eq_refl Hn Hk) as Hin. unfold input_chip in Hin.
  destruct (wired sci) as [g|]; cbn [fmap option_fmap option_map option_list] in *.
  - pose proof (Hsci _ eq_refl) as Hg. set (gsi := (g - _) mod 256) in *.
    split_and!; [|by destruct (keyboard_polling p), (use_lapic_timer p)..].
    intros j Hj. assert (Ioapic.line j) as Hlj by (unfold Ioapic.line; lia).
    transitivity (negb (bool_decide (j = gsi)) && negb (bool_decide (j ∈ (if keyboard_polling p then [] else [irq; 12])))).
    { rewrite <-(Hin j Hj). destruct (keyboard_polling p), (use_lapic_timer p); cbn [negb];
        match goal with |- _ = _ && Ioapic.masked j ?ch => trans (Ioapic.masked j (Ioapic.unmask_irq gsi (Ioapic.set_irq_ext gsi 50 id 0 ch))); [reflexivity|] end;
        rewrite masked_unmask_irq by done; (case_bool_decide; [done|]); by rewrite masked_set_irq. }
    rewrite <-negb_orb, <-bool_decide_or. f_equal. apply bool_decide_ext. set_solver.
  - rewrite app_nil_r. split_and!; [|by destruct (keyboard_polling p), (use_lapic_timer p)..].
    intros j Hj. rewrite <-(Hin j Hj). by destruct (keyboard_polling p), (use_lapic_timer p).
Qed.

Module Example.

(** A kernel of two segments. *)
Definition file : list Z := [1; 2; 3; 4; 5; 6].
Definition segments : list Segment := [mkSegment 4096 4 6 0; mkSegment 8192 2 2 4].

Lemma kernel_loaded_witness :
  let '(start, end_, m') := load_kernel file segments ∅ in
  start = 4096 /\ end_ = 8194 /\
  (forall s, s ∈ segments -> Uaccess.byte_run m' (physical_addr s) (mem_size s) = image file s /\ start <= physical_addr s /\ physical_addr s + mem_size s <= end_) /\
  (forall a, Forall (fun s => ~ in_seg s a) segments -> m' !! a = (∅ : gmap Z Z) !! a).
Proof.
  pose proof (kernel_loaded file segments ∅) as H. destruct (load_kernel file segments ∅) as [[start end_] m'] eqn:E.
  split; [vm_compute in E; congruence|]. split; [vm_compute in E; congruence|]. apply H.
  - repeat constructor; vm_compute; congruence.
  - repeat constructor. intros a [[H1 H2] [H3 H4]]. simpl in *. lia.
Defined.

(** A machine with forty pages of memory. *)
Definition boot : BootInfo :=
  mkBootInfo (mkFramebuffer 3758096384 4096 32 32 32 0) 20480 100 12288 8192 [Pmm.mkEntry 0 40 7; Pmm.mkEntry 163840 2 2] 4096 12288 0 [] 0 0.
Definition at_frame_16 (size : Z) : Z := 65536.

Lemma boot_fits : boot_ok at_frame_16 boot.
Proof. split; [repeat constructor; vm_compute; congruence|repeat split; vm_compute; congruence..]. Qed.

Lemma boot_memory_safe_witness : exists p p', init_memory at_frame_16 boot = Some p /\ trace Pmm.cstep p [Pmm.EAlloc (Some 24576)] p' /\ available at_frame_16 boot 6.
Proof.
  destruct (init_memory at_frame_16 boot) as [p|] eqn:Ep; [|vm_compute in Ep; congruence].
  assert (fst (Pmm.alloc_frame (Some p)) = Some 24576) as Hr by (rewrite <-Ep; vm_compute; reflexivity).
  assert (exists p', Pmm.alloc_frame (Some p) = (Some 24576, Some p')) as [p' Ea].
  { unfold Pmm.alloc_frame in *. destruct (Pmm.scan _ _ _ _); cbn [fst] in Hr; [|discriminate]. rewrite Hr. eexists. reflexivity. }
  assert (trace Pmm.cstep p [Pmm.EAlloc (Some 24576)] p') as Ht by (econstructor; [by constructor|constructor]).
  exists p, p'. split; [reflexivity|]. split; [exact Ht|].
  apply (boot_memory_safe at_frame_16 boot [Pmm.EAlloc (Some 24576)] p p' boot_fits Ep Ht); [reflexivity|]. vm_compute. constructor.
Defined.

(** A virtual machine with an I/O APIC of 24 lines, and the power button on line 9. *)
Definition chip : Ioapic.IoApic := Ioapic.mkIoApic 0 {[1 := Z.shiftl 23 16]}.
Definition irqs : Irqs := mkIrqs 0 0 (Ioapic.mkLines 0 0 chip) false false None.
Definition config : InterruptConfig := mkConfig (Some (Acpi.mkIoApic 0 4273995776 0)) None 0.

Lemma lines_after_boot_witness :
  let s' := init_interrupts config (mkPlatform Qemu true true true) None (Some 9) irqs in
  Ioapic.masked 9 (Ioapic.chip (lines s')) = false /\ Ioapic.masked 1 (Ioapic.chip (lines s')) = true /\ USE_IOAPIC s' = true.
Proof.
  destruct (lines_after_boot (Acpi.mkIoApic 0 4273995776 0) config (mkPlatform Qemu true true true) (Some 9) irqs eq_refl eq_refl) as (H1 & H2 & _).
  - vm_compute. reflexivity.
  - split; vm_compute; congruence.
  - intros g Hg. vm_compute in Hg. injection Hg as <-. split; vm_compute; congruence.
  - split; [rewrite H1; [reflexivity|split; vm_compute; congruence]|]. split; [rewrite H1; [reflexivity|split; vm_compute; congruence]|exact H2].
Defined.

End Example.

End Boot.
